(* ===== verification/_CoqProject ===== *)
-Q . S2P
Prelude.v
Codec.v
Replay.v
RtpHeader.v
RtpExt.v
RtpPacket.v
RtpCodec.v
H264.v
Rtcp.v
RtcpReport.v
RtcpFeedback.v
RtcpSdes.v
RtcpTwcc.v
RtcpRemb.v
RtcpXr.v
RtcpPacket.v
SrtpCipher.v
Srtp.v
SctpChunk.v
SctpQueue.v
SctpReassembly.v
SctpParam.v
SctpPacket.v
SctpTimer.v
SctpStream.v
SctpAssoc.v
SctpHandshake.v
SctpSender.v
SctpDelivery.v
SctpRetry.v
SctpEndpoint.v
Signaling.v
Nack.v
Interceptor.v
NackFlow.v
MediaPath.v
TwccMap.v
Twcc.v
TwccFlow.v
TwccChain.v
Stun.v
StunAttr.v
StunClient.v
Ice.v
MdnsWire.v
Mdns.v
IceAgent.v
IceWire.v
IceSafety.v
IceConnect.v
Dcep.v
DataChannel.v
SctpHandler.v
TcpFraming.v
Dtls.v
