(* ===== verification/Prelude.v ===== *)
(** * Verification of the sans-I/O WebRTC stack of [rust-webrtc]

    The program under [src/rust-webrtc/rtc] is a WebRTC stack written as crates of state
    machines without I/O: bytes and the current time come in, bytes and events go out.  The
    asynchronous API ([src/rust-webrtc/src]), the C interface ([src/rust-webrtc-ffi]) and the
    Java library drive them.  A peer connection is made of four parts:

    - connection: peers agree on descriptions over a signaling channel; their ICE agents check
      pairs of addresses with STUN messages and select one;
    - media: a sample is cut into fragments by a payloader, the packetizer gives them RTP
      headers with numbers from the sequencer, interceptors keep copies for retransmission
      and note what arrived, and the SRTP context encrypts packets and, on the other side,
      recovers the packet index, rejects replays, authenticates and decrypts;
    - data: a data channel opens an SCTP stream; its messages are cut into DATA chunks which wait
      in the pending queue, travel with TSNs, are tracked by the payload queue (which the SACK
      is made from) and are put together again by a reassembly queue per stream;
    - security: DTLS records carry the handshake the keys come from.

    Source paths below are relative to [src/rust-webrtc/rtc].

    ** Files

    Shared:
    - [Prelude] (this file): results with panics ([res]), the state and error monad [sm],
      machine-width integers, slices, write buffers, the codec traits of
      [rtc-shared/src/marshal/mod.rs] as classes, and the [bytes] crate as the class [BytesCrate];
      tactics, hint databases [rtc] and [len], shared lemmas.
    - [Codec]: postconditions of parsers, what it means that bytes encode a value, counted lists.

    Media:
    - [Replay]: [rtc-shared/src/replay_detector].  [Module Fbi] is [FixedBigInt],
      [Module Sliding] the plain window, [Module Wrapped] the one for numbers that wrap
      around; the trait is the class [ReplayDetector].  Each window module has its
      abstract detector, which remembers every accepted number ([spec_run]).
    - [RtpHeader]: [rtc-rtp/src/header.rs], the header with its three extension profiles.
    - [RtpExt]: [rtc-rtp/src/extension] and the NTP clock of [rtc-shared/src/time.rs].
    - [RtpPacket]: [rtc-rtp/src/packet], [sequence.rs] (as a sequential state and as atomic
      steps of several threads) and [packetizer]; payloaders are the class [Payloader].
    - [RtpCodec]: [rtc-rtp/src/codec], the instances for G.7xx, Opus and VP8, with the
      depacketizers; [H264]: that of H.264.
    - [Rtcp], [RtcpReport], [RtcpFeedback], [RtcpSdes], [RtcpTwcc], [RtcpRemb], [RtcpXr]: the header
      and the packet types of [rtc-rtcp/src]; [RtcpPacket]: datagrams and compound packets.
    - [SrtpCipher]: [rtc-srtp/src/protection_profile.rs], [key_derivation.rs] and
      [cipher]; the trait is the class [Cipher], what the context relies on the class
      [CipherLaws], discharged by [gcm_laws] and [cm_laws].
    - [Srtp]: [rtc-srtp/src/context] and [option.rs]: the context with its per-SSRC maps,
      proved against [CipherLaws] and [ReplayDetector].
    - [Interceptor]: the trait and the chain of [rtc-interceptor/src]; [Nack]: its
      [nack/receive_log.rs] and [send_buffer.rs]; [NackFlow]: the generator and the responder.
    - [TwccMap], [Twcc]: [twcc/arrival_time_map.rs] and [recorder.rs] of [rtc-interceptor/src]; [TwccFlow]: the
      life of a recorder; [TwccChain]: the interceptors of [twcc/sender.rs] and [receiver.rs].
    - [MediaPath]: the demultiplexer and the SRTP handler of
      [rtc/src/peer_connection/handler], which the packets of a connection pass.

    Data:
    - [SctpChunk], [SctpParam], [SctpPacket]: [rtc-sctp/src/chunk], [param] and [packet.rs].
    - [SctpQueue]: [rtc-sctp/src/util.rs], [queue/payload_queue.rs],
      [queue/pending_queue.rs], and the loops of [association/mod.rs] that drive them.
    - [SctpReassembly]: [rtc-sctp/src/queue/reassembly_queue.rs].
    - [SctpTimer], [SctpStream]: [rtc-sctp/src/association/timer.rs] and [stream.rs].
    - [SctpAssoc]: the association, [rtc-sctp/src/association/mod.rs]; theorems about it are in
      [SctpHandshake], [SctpSender], [SctpDelivery] (the receiving side) and [SctpRetry].
    - [SctpEndpoint]: [rtc-sctp/src/endpoint/mod.rs].
    - [Dcep]: the messages of [rtc-datachannel/src/message]; [DataChannel]: the channels and
      their handler; [SctpHandler]: the handler between them and the association.

    Connection and security:
    - [Signaling]: the offer/answer states of [rtc/src/peer_connection] and two peers that
      negotiate.
    - [Stun], [StunAttr], [StunClient]: messages, attributes (also those of ICE and TURN) and
      the client of [rtc-stun/src].
    - [MdnsWire], [Mdns]: the messages and the connection of multicast DNS, [rtc-mdns/src], which
      resolves the names of candidates.
    - [Ice]: candidates and pairs; [IceAgent]: the agent of [rtc-ice/src/agent]; [IceWire]: its
      messages as octets; theorems about it are in [IceSafety] and [IceConnect].
    - [TcpFraming]: [rtc-shared/src/tcp_framing.rs].
    - [Dtls]: the record layer and the fragment buffer of [rtc-dtls/src].

    ** Conventions

    A structure is a record with the fields of the source, a method that takes [&mut self]
    a function that returns the new structure, a fallible function one that returns [res]:
    [Ok], [Err] with a constructor of [shared::error::Error], or [Panic] for what would
    unwind (an index out of range, a read past the end of a buffer, an [unwrap]).  No-panic
    theorems say that [Panic] is not reached.  Where a method changes state and then fails,
    the state is returned with the error (the monad [sm]).  Integers are [Z] with
    the wrap-around of their width written out ([u8], [u16], [u32], [u64]): arithmetic has
    the semantics of a release build; where a build with overflow checks would panic, a
    finding says so.  Maps are [gmap]s, vectors and deques lists.  Points in time are [Z], without a
    bound, and so are sums of measured times; the sum of two configured durations panics where the
    source would.  Within
    one call of an ICE agent, a STUN client or a data channel the clock gives one time.  Logging
    is left out.

    Loops have fuel.  In the parsers running out of fuel is [Panic], which the no-panic
    theorems exclude; in the queues and bitmaps the fuel is the number of elements or the
    distance of the two counters, and the theorems on the result of the whole operation
    would fail if it were not enough ([partition_point] gets the length of the list where
    its logarithm would do; the loops over sequence numbers the wrapped difference of
    their bounds; the attributes of a STUN message their declared size; the loops of H.264 the
    length of the payload; a name of a DNS message twelve times its length, as ten pointers at most are
    followed; [append_message] of the fragment buffer the number of fragments plus
    one; the loops over arrival times the width of the range of numbers; the search of a free data
    channel the number of channels plus one; reading a stream the number of queued messages plus one).

    ** Parameters

    Classes stand for code outside the repository, with the documented behaviour the
    proofs use as laws: [BytesCrate] (big-endian reads and writes of the [bytes] and
    [byteorder] crates), [CryptoCrates] (AES block and counter mode, HMAC-SHA1, the AEAD;
    lengths, and that opening inverts sealing, no secrecy assumption), [Crc32c] (the checksum of
    SCTP), [StunCrypto] (HMAC-SHA1 and CRC-32 of STUN: lengths and ranges), [IpText] (addresses as
    text, parsed back) and [IceRandom] (lengths of what is drawn).  [BigEndian] is an instance of
    the first and toy functions are instances of the others, so that every theorem is applied to
    concrete packets.  [QueryOrder] is the order in which a [HashMap] is iterated: any permutation.
    [MdnsConn] is the interface between the ICE agent and the mDNS connection, which
    [Mdns.multicast_dns] implements.

    ** What is proved

    - Replay protection: both bit-mask windows accept exactly what the abstract detector
      accepts, so no number twice, on any packet sequence and across wrap-around.
    - RTP: header and packet round trips, parsing without panics of any bytes, the
      extension operations keep the header well formed and touch nothing else; a
      packetizer numbers consecutively and marks the last packet; VP8, G.7xx and H.264 streams are
      rebuilt from their fragments; send times are recovered from their 24-bit field.
    - RTCP: round trips of every packet type and of datagrams, parsing without panics, the compound
      packets that are valid, the bitrate a REMB carries, the numbers a NACK names.
    - SRTP: encryption and decryption are inverse, for RTP and RTCP and both ciphers; the
      packet index is recovered within half the sequence space; no packet is decrypted
      twice; nothing panics on received bytes; AES-GCM nonces do not repeat.  A packet written at one end
      of a connection is what the handlers of the other end give out ([MediaPath]).
    - Loss recovery: the receive log asks for exactly the packets that are missing, the send
      buffer returns exactly the packets it still holds, and a lost packet that is asked for is sent
      again as it was ([NackFlow]).
    - Congestion feedback: of the packets one side numbers, the other side reports exactly those that
      arrived, with their times, through the status chunks and deltas of the packets on the wire.
    - SCTP: chunk and packet round trips; the receiver tracks the received TSNs, and the gap blocks of
      its SACK are exact; fragments in any order give the message exactly when all have arrived,
      and an ordered stream is delivered in order, whole and without repeats.  The handshake
      completes, and agrees whatever is lost, repeated or reordered; a SACK takes off exactly what it
      acknowledges; whole messages leave in order and are bundled without loss; the retransmission
      timeout stays in its bounds and a client that nobody answers gives up.
    - Data channels: the two sides of a channel agree on it, identifiers do not collide, and a message
      written to a channel comes out of the peer's channel, through streams, chunks, the peer's
      association, its reassembly queue and its handlers.
    - Signaling: the descriptions match the state, also after a connection was closed, and two peers
      that exchange an offer and an answer agree.
    - STUN: a protected message is accepted as it was built, the decoder accepts exactly the
      messages of the grammar, attributes are transferred, a request is answered or given up.
    - ICE: no sequence of calls and datagrams, STUN or multicast DNS, makes an agent panic or leaves it an
      invalid index, provided that the sum of its timeouts fits a [Duration]; what is not
      signed with the right password changes nothing but the role; a role conflict is settled; two
      agents that hold each other's candidates and credentials select the same pair.
    - Transport: packets survive any segmentation of a TCP stream; a DTLS handshake message is put
      together from fragments in any order, in a buffer of bounded size.

    Some theorems state where the code departs from what it means to do, for instance
    [Srtp.forged_srtcp_accepted], [SctpChunk.short_init_panics],
    [SctpQueue.gap_ack_blocks_lost_on_wrap], [Replay.window_100_accepts_replay],
    [Nack.late_packet_hides_loss] and [IceConnect.forged_request_switches_role]; the hypotheses of the positive
    theorems exclude exactly those cases.

    ** What is not modelled, and why

    SDP and the text form of ICE candidates, which are text grammars; the payload formats of H.265, VP9
    and AV1 and the sample builder above them; the report interceptors, whose
    accounting is in floating point; the flights, key schedule and certificates of DTLS and the
    encryption of its records, which are calls of cryptographic libraries; the TURN client; the
    transceivers and the composition of a peer connection beyond the
    handlers above.  Sockets and tasks, the C and Java interfaces, statistics, the
    alternative OpenSSL cipher, tests and examples are I/O, glue or no part of the default build. *)

From Stdlib Require Export ZArith Lia.
From stdpp Require Export base numbers gmap list.

#[global] Open Scope Z_scope.

Create HintDb rtc discriminated.
Create Rewrite HintDb len.

(** * Results: [shared::error::Result], with panics made explicit

    A Rust function of the stack returns [Result<T>] or panics (slice index
    out of range, [Buf::get_*] underflow, [assert!], division by zero).  [Ok] and
    [Err] are the two constructors of [Result]; [Panic] is the third outcome a
    caller can observe. *)

Inductive error : Type :=
| ErrHeaderSizeInsufficient
| ErrHeaderSizeInsufficientForExtension
| ErrBufferTooSmall
| HeaderExtensionPayloadNot32BitWords
| ErrRfc8285oneByteHeaderIdrange
| ErrRfc8285oneByteHeaderSize
| ErrRfc8285twoByteHeaderIdrange
| ErrRfc8285twoByteHeaderSize
| ErrRfc3550headerIdrange
| ErrHeaderExtensionNotFound
| ErrHeaderExtensionsNotEnabled
| ErrShortPacket
| AudioLevelOverflow
| PlayoutDelayOverflow
| InvalidHeader
| BufferTooShort
| PacketTooShort
| BadVersion
| UnsupportedIndexOverKdr
| InvalidMasterKeyLength
| InvalidMasterSaltLength
| UnsupportedOutLength
| SrtpMasterKeyLength
| SrtpSaltLength
| SrtpTooSmall
| SrtcpTooSmall
| RtpFailedToVerifyAuthTag
| RtcpFailedToVerifyAuthTag
| RtcpInvalidLengthAuthTag
| ErrFailedToVerifyAuthTag
| SrtpSsrcDuplicated
| SrtcpSsrcDuplicated
| ErrTooShortRtp
| ErrTooShortRtcp
| ErrExceededMaxPackets
| ErrShortBuffer
| ErrChunkHeaderTooSmall
| ErrChunkHeaderNotEnoughSpace
| ErrChunkHeaderPaddingNonZero
| ErrChunkHeaderInvalidLength
| ErrChunkTypeNotAbort
| ErrChunkTypeNotCookieAck
| ErrChunkTypeNotCookieEcho
| ErrChunkTypeNotCt
| ErrChunkTooShort
| ErrChunkTypeNotForwardTsn
| ErrErrorCauseTooSmall
| ErrChunkPayloadSmall
| ErrChunkTypeNotPayloadData
| ErrChunkUnmarshalPayloadData
| ErrChunkTypeNotSack
| ErrSackSizeNotLargeEnoughInfo
| ErrChunkUnmarshalSack
| ErrInvalidChunkSize
| ErrChunkTypeNotShutdown
| ErrChunkUnmarshalShutdown
| ErrChunkTypeNotShutdownAck
| ErrChunkTypeNotShutdownComplete
| ErrPacketRawTooSmall
| ErrParseSctpChunkNotEnoughData
| ErrChecksumMismatch
| ErrParamHeaderTooShort
| ErrParamTypeUnhandled (typ : Z)
| ErrParamTypeUnexpected
| ErrUnmarshalReconfigRespParam
| ErrSsnResetRequestParamTooShort
| ErrReconfigRespParamTooShort
| ErrInvalidAlgorithmType
| ErrChunkTypeNotTypeInit
| ErrChunkValueNotLongEnough
| ErrChunkTypeInitUnmarshalFailed
| ErrChunkTypeInitFlagZero
| ErrChunkTypeInitInitiateTagZero
| ErrInitInboundStreamRequestZero
| ErrInitOutboundStreamRequestZero
| ErrInitAdvertisedReceiver1500
| ErrChunkTypeNotReconfig
| ErrChunkReconfigInvalidParamA
| ErrChunkTypeNotHeartbeat
| ErrChunkTypeNotHeartbeatAck
| ErrHeartbeatNotLongEnoughInfo
| ErrHeartbeatParam
| ErrHeartbeatAckParams
| ErrHeartbeatAckNotHeartbeatInfo
| ErrUnmarshalUnknownChunkType
| ErrSctpPacketSourcePortZero
| ErrSctpPacketDestinationPortZero
| ErrInitChunkBundled
| ErrInitChunkVerifyTagNotZero
| ErrInitNotStoredToSend
| ErrCookieEchoNotStoredToSend
| ErrAbortChunk
| ErrChunkTypeUnhandled
| ErrHandleInitState
| ErrInitAckNoCookie
| ErrInflightQueueTsnPop
| ErrTsnRequestNotExist
| ErrHandshakeInitAck
| ErrHandshakeCookieEcho
| ErrStreamClosed
| ErrOutboundPacketTooLarge
| ErrParameterType
| ErrShutdownNonEstablished
| ErrStreamAlreadyExist
| ErrStreamCreateFailed
| ErrStreamNotExisted
| ErrResetPacketInStateNotExist
| ErrPayloadDataStateNotExist
| ErrSignalingStateCannotRollback
| ErrSignalingStateProposedTransitionInvalid
| ErrPeerConnSDPTypeInvalidValue
| ErrSDPDoesNotMatchOffer
| ErrSDPDoesNotMatchAnswer
| ErrPeerConnStateChangeInvalid
| InvalidTotalLost
| TooManyReports
| WrongType
| TooManySources
| ReasonTooLong
| TooManyChunks
| SdesMissingType
| SdesTextTooLong
| InvalidBitrate
| SsrcMustBeZero
| MissingRembIdentifier
| InvalidSizeOrStartIndex
| PacketStatusChunkLength
| DeltaExceedLimit
| WrongChunkType
| InvalidBlockSize
| EmptyCompound
| BadFirstPacket
| MissingCname
| PacketBeforeCname
| ErrAttributeNotFound
| ErrAttributeSizeInvalid
| ErrAttributeSizeOverflow
| ErrUnexpectedEof
| ErrUnexpectedHeaderEof
| ErrBadUnknownAttrsSize
| ErrIntegrityMismatch
| ErrFingerprintMismatch
| ErrFingerprintBeforeIntegrity
| ErrAgentClosed
| ErrTransactionExists
| ErrTransactionNotExists
| ErrClientClosed
| ErrNoDefaultReason
| ErrInvalidChannelNumber
| ErrBadChannelDataLength
| ErrUtf8
| ErrDataChannelNotExisted
| ErrDataChannelClosed
| ErrAssociationNotExisted
| ErrMaxDataChannelID
| ErrRetransmitsOrPacketLifeTime
| ErrProtocolTooLarge
| ErrConnectionClosed
| ErrInvalidMagicCookie
| InvalidMessageType (typ : Z)
| InvalidChannelType (typ : Z)
| UnexpectedEndOfBuffer (expected actual : Z)
| InvalidPayloadProtocolIdentifier (ppi : Z)
| ErrEmptyFragment
| ErrFragmentBufferOverflow
| ErrInvalidPacketLength
| ErrSequenceNumberOverflow
| ErrUnsupportedProtocolVersion
| ErrUnhandledNaluType
| NaluTypeIsNotHandled (typ : Z)
| StapASizeLargerThanBuffer (size actual : Z)
| ErrTooManyPDiff
| ErrTooManySpatialLayers
| GapInSegment
| NoActiveSegment
| InvalidPartition
| NothingToConsume
| PendingTimestampPacket
| DepacketizerFailed
| ErrDetermineNetworkType
| ErrAddressParseFailed
| ErrInvalidMulticastDnshostName
| ErrLiteUsingNonHostCandidates
| ErrUselessUrlsProvided
| ErrRemoteUfragEmpty
| ErrRemotePwdEmpty
| ErrLocalUfragInsufficientBits
| ErrLocalPwdInsufficientBits
| ErrUnhandledStunpacket
| ErrUnexpectedStunrequestMessage
| ErrPasswordEmpty
| ErrNonStunmessage
| ErrCalcLen
| ErrNonCanonicalName
| ErrSegTooLong
| ErrZeroSegLen
| ErrBaseLen
| ErrCompressedSrv
| ErrInvalidPtr
| ErrTooManyPtr
| ErrReserved
| ErrNotStarted
| ErrSectionDone
| ErrNilResourceBody
| ErrResTooLong
| ErrTooManyQuestions
| ErrTooManyAnswers
| ErrOther.

Inductive res (A : Type) : Type :=
| Ok (a : A)
| Err (e : error)
| Panic.
Arguments Ok {A} _.
Arguments Err {A} _.
Arguments Panic {A}.

(** [m?] followed by the rest of the body. *)
Definition rbind {A B} (m : res A) (f : A → res B) : res B :=
  match m with
  | Ok a => f a
  | Err e => Err e
  | Panic => Panic
  end.

Declare Scope res_scope.
Delimit Scope res_scope with res.
Notation "'let!' p := m 'in' k" := (rbind m (λ p, k))
  (at level 10, p pattern, m at level 200, k at level 200,
   format "'[v' 'let!'  p  :=  m  'in' '/' k ']'") : res_scope.
#[global] Open Scope res_scope.

(** [assert_ b m]: an [assert!], or an index check the language makes. *)
Definition assert_ {A} (b : bool) (m : res A) : res A := if b then m else Panic.

Lemma res_bind_Ok {A B} (f : A → res B) a : rbind (Ok a) f = f a.
Proof. reflexivity. Qed.

Lemma res_bind_inv {A B} (m : res A) (f : A → res B) b :
  rbind m f = Ok b → ∃ a, m = Ok a ∧ f a = Ok b.
Proof. destruct m; simpl; intros H; try discriminate; eauto. Qed.

Definition no_panic {A} (m : res A) : Prop := m ≠ Panic.

Lemma no_panic_bind {A B} (m : res A) (f : A → res B) :
  no_panic m → (∀ a, m = Ok a → no_panic (f a)) → no_panic (rbind m f).
Proof. destruct m; unfold no_panic; simpl; intros; eauto; congruence. Qed.

Lemma no_panic_Ok {A} (a : A) : no_panic (Ok a).
Proof. done. Qed.

Lemma no_panic_Err {A} e : no_panic (@Err A e).
Proof. done. Qed.
#[export] Hint Resolve no_panic_Ok no_panic_Err : rtc.

(** Decompose every [rbind _ _ = Ok _] hypothesis. *)
Ltac res_inv :=
  repeat match goal with
  | H : rbind _ _ = Ok _ |- _ =>
      let a := fresh "a" in let Ha := fresh "Ha" in
      apply res_bind_inv in H as (a & Ha & H)
  | H : Ok _ = Ok _ |- _ => injection H as H; subst
  | H : Err _ = Ok _ |- _ => discriminate H
  | H : Panic = Ok _ |- _ => discriminate H
  end.

(** * Methods that mutate their receiver

    A [&mut self] method that can fail is a function from the state to a result and
    the state it leaves, also when it fails half-way. *)

Definition sm (S A : Type) : Type := S → res A * S.

Section StateMonad.
Context {S : Type}.

Definition sret {A} (a : A) : sm S A := λ s, (Ok a, s).
Definition slift {A} (r : res A) : sm S A := λ s, (r, s).
Definition sgets {A} (f : S → A) : sm S A := λ s, (Ok (f s), s).
Definition smodify (f : S → S) : sm S unit := λ s, (Ok tt, f s).

Definition sbind {A B} (m : sm S A) (f : A → sm S B) : sm S B := λ s,
  match m s with
  | (Ok a, s) => f a s
  | (Err e, s) => (Err e, s)
  | (Panic, s) => (Panic, s)
  end.

(** [if c { return Err(e) }] *)
Definition sguard (c : bool) (e : error) : sm S unit := λ s,
  (if c then Err e else Ok tt, s).

Lemma sbind_Ok {A B} (m : sm S A) (f : A → sm S B) s a s' :
  m s = (Ok a, s') → sbind m f s = f a s'.
Proof. intros E. unfold sbind. by rewrite E. Qed.

Lemma sbind_inv {A B} (m : sm S A) (f : A → sm S B) s b s' :
  sbind m f s = (Ok b, s') → ∃ a s1, m s = (Ok a, s1) ∧ f a s1 = (Ok b, s').
Proof. unfold sbind. destruct (m s) as [[a| |] s1]; intros E; simplify_eq; eauto. Qed.

(** A method that does not panic from any state satisfying [Q]. *)
Definition safe {A} (Q : S → Prop) (m : sm S A) (R : A → S → Prop) : Prop :=
  ∀ s, Q s → match m s with (Ok a, s') => R a s' | (Err _, _) => True | (Panic, _) => False end.

Lemma safe_bind {A B} Q (m : sm S A) R (f : A → sm S B) R' :
  safe Q m R → (∀ a, safe (R a) (f a) R') → safe Q (sbind m f) R'.
Proof.
  intros Hm Hf s Hs. specialize (Hm s Hs). unfold sbind.
  destruct (m s) as [[a| |] s1]; [|done..]. by apply Hf.
Qed.

Lemma safe_pure {A} (φ : Prop) (m : sm S A) R :
  (φ → safe (λ _, True) m R) → safe (λ _, φ) m R.
Proof. intros Hm s Hs. by apply Hm. Qed.

End StateMonad.

Notation "'do!' p <- m ; k" := (sbind m (λ p, k))
  (at level 10, p pattern, m at level 200, k at level 200, right associativity,
   format "'[v' 'do!'  p  <-  m ; '/' k ']'") : res_scope.

(** * Record update

    [r <| f := v |>] is [r] with the field [f] set to [v].  A setter rebuilds the record from
    its projections; [make_setter] derives it from the eta-expansion of the record. *)

Class Setter {R T} (f : R → T) := set : (T → T) → R → R.
Arguments set {R T} f {_} _ _ : simpl never.

Notation "r <| f := v |>" := (set f (λ _, v) r)
  (at level 1, left associativity, f at next level, v at level 200, format "r  <|  f  :=  v  |>").
Notation "r <| f ::= u |>" := (set f u r)
  (at level 1, left associativity, f at next level, u at level 200, format "r  <|  f  ::=  u  |>").

Ltac make_setter eta f :=
  let upd := fresh "upd" in let r := fresh "r" in
  intros upd r;
  let body := eval cbv beta delta [eta] in (eta r) in
  match eval pattern (f r) in body with
  | ?g _ => let b := eval cbv beta in (g (upd (f r))) in exact b
  end.

(** Reads of an updated record: of the field that was set, or of another one.  Each step
    rewrites with an equation that holds for every record, so that the conversion test never
    looks into the record at hand. *)
Ltac record_head p := first [is_const p | match p with ?f ?a => match type of a with Type => idtac end; record_head f end].
Ltac record_step tac p R T q i u r :=
  record_head p;
  let H := fresh "H" in
  first
    [ constr_eq p q;
      assert (∀ (f : T → T) (x : R), p (@set R T q i f x) = f (p x)) as H by (intros; exact eq_refl)
    | assert (∀ (f : T → T) (x : R), p (@set R T q i f x) = p x) as H by (intros; exact eq_refl) ];
  tac constr:(H u r); clear H.
Ltac record_simpl :=
  repeat match goal with
  | |- context [?p (@set ?R ?T ?q ?i ?u ?r)] => record_step ltac:(fun H => rewrite H; cbv beta) p R T q i u r
  end.
Ltac record_simpl_in H :=
  repeat match type of H with
  | context [?p (@set ?R ?T ?q ?i ?u ?r)] => record_step ltac:(fun E => rewrite E in H; cbv beta in H) p R T q i u r
  end.

(** * Machine integers

    An unsigned integer of width [w] is a [Z] in [[0, 2^w)].  Arithmetic that the
    source writes as [wrapping_*], or that can overflow, wraps explicitly. *)

Definition wrap (w x : Z) : Z := x mod 2 ^ w.
Definition fits (w x : Z) : Prop := 0 <= x < 2 ^ w.
Abbreviation u8 := (wrap 8).
Abbreviation u16 := (wrap 16).
Abbreviation u32 := (wrap 32).
Abbreviation u64 := (wrap 64).

#[export] Instance fits_dec w x : Decision (fits w x).
Proof. unfold fits. apply _. Defined.

Lemma wrap_fits w x : 0 <= w → fits w (wrap w x).
Proof. intros. unfold fits, wrap. apply Z.mod_pos_bound. lia. Qed.

Lemma wrap_small w x : fits w x → wrap w x = x.
Proof. apply Z.mod_small. Qed.
#[export] Hint Resolve wrap_fits : rtc.

Lemma testbit_fits w x i : fits w x → w <= i → 0 <= w → Z.testbit x i = false.
Proof.
  intros Hx Hi Hw. rewrite <- (wrap_small w x) by done. unfold wrap.
  by rewrite Z.mod_pow2_bits_high by lia.
Qed.

Lemma fits_lor w x y : 0 <= w → fits w x → fits w y → fits w (Z.lor x y).
Proof.
  intros Hw Hx Hy. rewrite <- (wrap_small w x), <- (wrap_small w y) by done.
  unfold wrap. rewrite <- !Z.land_ones, <- Z.land_lor_distr_l, Z.land_ones by lia.
  by apply wrap_fits.
Qed.

Lemma fits_lxor w x y : 0 <= w → fits w x → fits w y → fits w (Z.lxor x y).
Proof.
  intros Hw Hx Hy. assert (Z.land (Z.lxor x y) (Z.ones w) = Z.lxor x y) as <-.
  { apply Z.bits_inj'. intros i Hi. rewrite Z.land_spec, Z.lxor_spec, Z.testbit_ones_nonneg by lia.
    destruct (Z.ltb_spec i w); [apply andb_true_r|]. by rewrite !(testbit_fits w) by done. }
  rewrite Z.land_ones by done. by apply wrap_fits.
Qed.

Lemma fits_land w x y : 0 <= w → fits w x → 0 <= y → fits w (Z.land x y).
Proof.
  intros Hw Hx Hy. rewrite <- (wrap_small w x) by done. unfold wrap.
  rewrite <- Z.land_ones, <- Z.land_assoc, (Z.land_comm (Z.ones _)), Z.land_assoc,
    Z.land_ones by lia. by apply wrap_fits.
Qed.

Lemma fits_shiftr w x k : 0 <= k → fits w x → fits w (Z.shiftr x k).
Proof.
  intros Hk [H0 H1]. rewrite Z.shiftr_div_pow2 by lia. split; [apply Z.div_pos; lia|].
  apply Z.div_lt_upper_bound; [lia|]. nia.
Qed.

(** Concatenating bit fields is addition. *)
Lemma lor_shiftl_add a b k : 0 <= k → fits k b → Z.lor (Z.shiftl a k) b = a * 2 ^ k + b.
Proof.
  intros Hk Hb. rewrite <- Z.shiftl_mul_pow2 by lia.
  assert (Z.land (Z.shiftl a k) b = 0) as E.
  { apply Z.bits_inj'. intros j Hj. rewrite Z.land_spec, Z.shiftl_spec, Z.testbit_0_l by lia.
    destruct (Z.lt_ge_cases j k); [by rewrite Z.testbit_neg_r by lia|].
    by rewrite (testbit_fits k b), andb_false_r by (done || lia). }
  by rewrite Z.add_nocarry_lxor, Z.lxor_lor.
Qed.

(** A field of [w] bits above bit [k]. *)
Lemma field_mod x k w : 0 <= k → 0 <= w → Z.land (Z.shiftr x k) (Z.ones w) = x / 2 ^ k mod 2 ^ w.
Proof. intros. by rewrite Z.land_ones, Z.shiftr_div_pow2 by lia. Qed.

Lemma shiftr_mask x m k : 0 <= k → Z.shiftr (Z.land x (Z.shiftl m k)) k = Z.land (Z.shiftr x k) m.
Proof.
  intros. rewrite Z.shiftr_land, Z.shiftr_shiftl_l by lia. by rewrite Z.sub_diag, Z.shiftl_0_r.
Qed.

(** Testing one bit with a mask. *)
Lemma land_single x k : 0 <= k → (Z.land x (Z.shiftl 1 k) =? 0) = negb (Z.testbit x k).
Proof.
  intros Hk. rewrite Z.shiftl_1_l. destruct (Z.testbit x k) eqn:E; simpl.
  - apply Z.eqb_neq. intros H0. apply (f_equal (λ z, Z.testbit z k)) in H0.
    rewrite Z.land_spec, E, Z.pow2_bits_true, Z.testbit_0_l in H0 by lia. done.
  - apply Z.eqb_eq, Z.bits_inj'. intros j Hj. rewrite Z.land_spec, Z.testbit_0_l.
    destruct (Z.eq_dec k j) as [<-|]; [by rewrite E|].
    by rewrite Z.pow2_bits_false, andb_false_r by lia.
Qed.

(** Two's complement reading of the low [w] bits: a cast to [iw]. *)
Definition signed (w x : Z) : Z :=
  let y := wrap w x in if y <? 2 ^ (w - 1) then y else y - 2 ^ w.
Abbreviation i32 := (signed 32).
Abbreviation i64 := (signed 64).

Lemma signed_small w x : 0 < w → - 2 ^ (w - 1) <= x < 2 ^ (w - 1) → signed w x = x.
Proof.
  intros Hw Hx. unfold signed, wrap.
  assert (2 ^ w = 2 * 2 ^ (w - 1)) as E by (rewrite <- Z.pow_succ_r by lia; f_equal; lia).
  destruct (Z.ltb_spec x 0).
  - replace (x mod 2 ^ w) with (x + 2 ^ w) by
      (apply Z.mod_unique with (-1); lia).
    destruct (Z.ltb_spec (x + 2 ^ w) (2 ^ (w - 1))); lia.
  - rewrite Z.mod_small by lia. destruct (Z.ltb_spec x (2 ^ (w - 1))); lia.
Qed.

(** * Bytes and slices *)

Abbreviation bytes := (list Z).
Abbreviation byte_ok := (fits 8).
Definition len {A} (l : list A) : Z := Z.of_nat (length l).

Lemma len_app {A} (a b : list A) : len (a ++ b) = len a + len b.
Proof. unfold len. rewrite length_app. lia. Qed.
Lemma len_nil {A} : len (@nil A) = 0.
Proof. done. Qed.
Lemma len_cons {A} (x : A) l : len (x :: l) = 1 + len l.
Proof. unfold len. simpl. lia. Qed.
Lemma len_nonneg {A} (l : list A) : 0 <= len l.
Proof. unfold len. lia. Qed.
Lemma len_replicate {A} n (x : A) : len (replicate n x) = Z.of_nat n.
Proof. unfold len. by rewrite length_replicate. Qed.
Lemma len_concat_fixed {A B} (g : A → list B) k xs :
  (∀ x, len (g x) = k) → len (concat (g <$> xs)) = k * len xs.
Proof.
  intros Hg. induction xs as [|x xs IH]; [unfold len; simpl; lia|]. csimpl. rewrite len_app, Hg, IH, len_cons. lia.
Qed.
Lemma len_take {A} n (l : list A) : len (take n l) = Z.min (Z.of_nat n) (len l).
Proof. unfold len. rewrite length_take. lia. Qed.
Lemma len_drop {A} n (l : list A) : len (drop n l) = Z.max 0 (len l - Z.of_nat n).
Proof. unfold len. rewrite length_drop. lia. Qed.
#[export] Hint Rewrite @len_app @len_nil @len_cons @len_replicate @len_take @len_drop : len.
#[export] Hint Resolve len_nonneg : rtc.

(** [lia] on goals about lengths. *)
Ltac len_lia :=
  autorewrite with len in *;
  repeat match goal with
  | |- context [len ?l] =>
      lazymatch goal with
      | _ : 0 <= len l |- _ => fail
      | _ => pose proof (len_nonneg l)
      end
  end;
  unfold len in *; lia.

Lemma nth_replicate {A} n m (x : A) : nth n (replicate m x) x = x.
Proof.
  rewrite nth_lookup. destruct (replicate m x !! n) eqn:E; [|done].
  by apply lookup_replicate in E as [-> _].
Qed.

Lemma bool_decide_cons_ne (x y : Z) l :
  x ≠ y → bool_decide (x ∈ y :: l) = bool_decide (x ∈ l).
Proof.
  intros Hne. apply bool_decide_ext. rewrite elem_of_cons. split; [|by right].
  by intros [?|?].
Qed.

(** Extending a duplicate-free list that avoids a history. *)
(** XOR with the same octets twice *)
Lemma zip_lxor_cancel (a b : list Z) : (length a ≤ length b)%nat → zip_with Z.lxor (zip_with Z.lxor a b) b = a.
Proof.
  revert b. induction a as [|x a IH]; intros [|y b] Hl; simpl in *; try done; [lia|].
  rewrite Z.lxor_assoc, Z.lxor_nilpotent, Z.lxor_0_r. f_equal. apply IH. lia.
Qed.

Lemma NoDup_fresh_cons {A} (x : A) (l hist : list A) :
  NoDup l → (∀ e, e ∈ l → e ∉ x :: hist) → x ∉ hist →
  NoDup (x :: l) ∧ ∀ e, e ∈ x :: l → e ∉ hist.
Proof.
  intros Hl Hh Hx. split; [constructor; [|done]|].
  - intros H%Hh. by destruct H; left.
  - intros e [->|H%Hh]%elem_of_cons; [done|]. intros ?. by apply H; right.
Qed.

(** [buf[i]]: panics out of range. *)
Definition index {A} (l : list A) (i : Z) : res A :=
  if i <? 0 then Panic
  else match l !! Z.to_nat i with Some x => Ok x | None => Panic end.

(** [&buf[a..b]]: panics unless [a <= b <= len]. *)
Definition slice {A} (l : list A) (a b : Z) : res (list A) :=
  assert_ ((0 <=? a) && (a <=? b) && (b <=? len l))
    (Ok (take (Z.to_nat (b - a)) (drop (Z.to_nat a) l))).

Lemma slice_head {A} (a b : list A) : slice (a ++ b) 0 (len a) = Ok a.
Proof.
  pose proof (len_nonneg a). pose proof (len_nonneg b). unfold slice, assert_.
  rewrite len_app, !(proj2 (Z.leb_le _ _)) by lia. simpl. rewrite Z.sub_0_r, drop_0.
  unfold len. by rewrite Nat2Z.id, take_app_length.
Qed.

Lemma slice_head_eq {A} (a b : list A) n : n = len a → slice (a ++ b) 0 n = Ok a.
Proof. intros ->. apply slice_head. Qed.

Lemma slice_take {A} (l : list A) n : 0 <= n <= len l → slice l 0 n = Ok (take (Z.to_nat n) l).
Proof.
  intros Hn. unfold slice, assert_. rewrite !(proj2 (Z.leb_le _ _)) by lia. simpl.
  by rewrite Z.sub_0_r, drop_0.
Qed.

Lemma slice_drop {A} (l : list A) n : 0 <= n <= len l → slice l n (len l) = Ok (drop (Z.to_nat n) l).
Proof.
  intros Hn. unfold slice, assert_. rewrite !(proj2 (Z.leb_le _ _)) by lia. simpl.
  rewrite take_ge; [done|]. rewrite length_drop. unfold len in *. lia.
Qed.

Lemma slice_tail {A} (a b : list A) m n :
  m = len a → n = len (a ++ b) → slice (a ++ b) m n = Ok b.
Proof.
  intros -> ->. pose proof (len_nonneg a). pose proof (len_nonneg b). unfold slice, assert_.
  rewrite len_app, !(proj2 (Z.leb_le _ _)) by lia. simpl.
  replace (len a + len b - len a) with (len b) by lia. unfold len.
  rewrite !Nat2Z.id, drop_app_length. by rewrite take_ge.
Qed.

Lemma slice_mid {A} (a b c : list A) n m :
  n = len a → m = len a + len b → slice (a ++ b ++ c) n m = Ok b.
Proof.
  intros -> ->. pose proof (len_nonneg a). pose proof (len_nonneg b). pose proof (len_nonneg c).
  unfold slice, assert_. rewrite !len_app, !(proj2 (Z.leb_le _ _)) by lia. simpl.
  replace (len a + len b - len a) with (len b) by lia. unfold len.
  by rewrite !Nat2Z.id, drop_app_length, take_app_length.
Qed.

Lemma slice_no_panic {A} (l : list A) a b : 0 <= a <= b → b <= len l → no_panic (slice l a b).
Proof. intros Ha Hb. unfold slice, assert_. by rewrite !(proj2 (Z.leb_le _ _)) by lia. Qed.

Lemma slice_ok {A} (l : list A) a b :
  0 <= a <= b → b <= len l → ∃ s, slice l a b = Ok s ∧ len s = b - a ∧ s ⊆+ l.
Proof.
  intros Ha Hb. unfold slice, assert_. rewrite !(proj2 (Z.leb_le _ _)) by lia. simpl.
  eexists. split_and!; [done| |].
  - unfold len in *. rewrite length_take, length_drop. lia.
  - etrans; [apply sublist_submseteq, sublist_take|apply sublist_submseteq, sublist_drop].
Qed.

Lemma Forall_submseteq {A} (P : A → Prop) l k : l ⊆+ k → Forall P k → Forall P l.
Proof. intros Hs. rewrite !Forall_forall. intros Hk x Hx. by apply Hk, (elem_of_submseteq l). Qed.

Lemma index_app {A} (a : list A) x b n : n = len a → index (a ++ x :: b) n = Ok x.
Proof.
  intros ->. pose proof (len_nonneg a). unfold index. destruct (Z.ltb_spec (len a) 0); [lia|].
  unfold len. by rewrite Nat2Z.id, list_lookup_middle.
Qed.

Lemma index_ok {A} (l : list A) i : 0 <= i < len l → ∃ x, index l i = Ok x ∧ x ∈ l.
Proof.
  intros Hi. unfold index. destruct (Z.ltb_spec i 0); [lia|].
  destruct (lookup_lt_is_Some_2 l (Z.to_nat i)) as [x Hx]; [unfold len in Hi; lia|].
  rewrite Hx. exists x. split; [done|]. by eapply list_elem_of_lookup_2.
Qed.

(** * The [bytes] crate

    [Buf] and [BufMut] come from a third-party crate: the codecs below are
    written against this interface.  [get_uint n] is [Buf::get_u8/16/32/64] at
    width [n] bytes (and [get_uint(n)] itself), [put_uint n] the [BufMut]
    counterpart; the [byteorder] crate's [BigEndian::read_u32] and [write_u32] are the
    same operations on slices.  The laws are the documented behaviour: [n] bytes are written,
    reading them back gives the number and advances the cursor, reading past the
    end panics, a one-byte write is the byte itself, and the most significant
    byte comes first. *)

Class BytesCrate := {
  put_uint : nat → Z → bytes;
  get_uint : nat → bytes → res (Z * bytes);
  put_uint_length n x : length (put_uint n x) = n;
  put_uint_bytes n x : Forall byte_ok (put_uint n x);
  put_uint_1 x : byte_ok x → put_uint 1 x = [x];
  put_uint_S n x : put_uint (S n) x = put_uint n (x / 256) ++ put_uint 1 (x mod 256);
  get_put_uint n x r :
    fits (8 * Z.of_nat n) x → get_uint n (put_uint n x ++ r) = Ok (x, r);
  get_uint_short n l : (length l < n)%nat → get_uint n l = Panic;
  get_uint_long n l :
    Forall byte_ok l → (n ≤ length l)%nat →
    ∃ x, fits (8 * Z.of_nat n) x ∧ get_uint n l = Ok (x, drop n l) ∧
         put_uint n x = take n l;
}.

(** The big-endian instance, used to evaluate the codecs on concrete inputs. *)
Module BigEndian.

Fixpoint enc (n : nat) (x : Z) : bytes :=
  match n with
  | O => []
  | S k => enc k (x / 256) ++ [x mod 256]
  end.

Definition dec (l : bytes) : Z := foldl (λ acc b, acc * 256 + b) 0 l.

Definition get (n : nat) (l : bytes) : res (Z * bytes) :=
  if (length l <? n)%nat then Panic else Ok (dec (take n l), drop n l).

Lemma enc_length n x : length (enc n x) = n.
Proof. revert x. induction n; intros; simpl; [done|]. rewrite length_app, IHn. simpl; lia. Qed.

Lemma enc_bytes n x : Forall byte_ok (enc n x).
Proof.
  revert x. induction n; intros; simpl; [done|].
  apply Forall_app; split; [auto|]. repeat constructor; apply Z.mod_pos_bound; lia.
Qed.

Lemma dec_app l b : dec (l ++ [b]) = dec l * 256 + b.
Proof. unfold dec. by rewrite foldl_app. Qed.

Lemma pow_succ n : 2 ^ (8 * Z.of_nat (S n)) = 2 ^ (8 * Z.of_nat n) * 256.
Proof. rewrite <- (Z.pow_add_r 2 _ 8) by lia. f_equal. lia. Qed.

Lemma dec_enc n x : fits (8 * Z.of_nat n) x → dec (enc n x) = x.
Proof.
  revert x. induction n as [|n IH]; intros x Hx; unfold fits in *.
  - change (2 ^ _) with 1 in Hx. simpl. unfold dec; simpl. lia.
  - rewrite pow_succ in Hx. simpl. rewrite dec_app, IH; unfold fits.
    + pose proof (Z_div_mod_eq_full x 256). simpl. lia.
    + split; [apply Z.div_pos; lia|]. apply Z.div_lt_upper_bound; lia.
Qed.

Lemma dec_fits l : Forall byte_ok l → fits (8 * len l) (dec l).
Proof.
  induction l as [|b l IH] using rev_ind; [done|].
  intros [Hl Hb]%Forall_app. rewrite dec_app. rewrite Forall_singleton in Hb.
  specialize (IH Hl). unfold fits, len in *. rewrite length_app; simpl.
  rewrite Nat.add_1_r, pow_succ. change (2 ^ 8) with 256 in Hb. lia.
Qed.

Lemma enc_dec l : Forall byte_ok l → enc (length l) (dec l) = l.
Proof.
  induction l as [|b l IH] using rev_ind; [done|].
  intros [Hl Hb]%Forall_app. rewrite Forall_singleton in Hb.
  rewrite length_app; simpl. rewrite Nat.add_1_r, dec_app; simpl.
  unfold fits in Hb. change (2 ^ 8) with 256 in Hb.
  rewrite Z.div_add_l, (Z.div_small b), Z.add_0_r, IH by (lia || done).
  by rewrite Z.add_comm, Z.mod_add, Z.mod_small by lia.
Qed.

#[export, refine] Instance big_endian : BytesCrate :=
  {| put_uint := enc; get_uint := get |}.
Proof.
  - apply enc_length.
  - apply enc_bytes.
  - intros x Hx. simpl. f_equal. apply Z.mod_small. done.
  - intros n x. simpl. by rewrite Z.mod_mod.
  - intros n x r Hx. unfold get. rewrite length_app, enc_length.
    destruct (Nat.ltb_spec (n + length r) n); [lia|].
    by rewrite take_app_length', drop_app_length', dec_enc by (rewrite ?enc_length; done).
  - intros n l H. unfold get. by destruct (Nat.ltb_spec (length l) n); [|lia].
  - intros n l Hl Hn. exists (dec (take n l)).
    assert (length (take n l) = n) as Hlen by (rewrite length_take; lia).
    assert (Forall byte_ok (take n l)) as Hb by (by apply Forall_take).
    pose proof (dec_fits _ Hb) as Hf. pose proof (enc_dec _ Hb) as He.
    unfold len in Hf. rewrite Hlen in Hf, He. split_and!; [done| |done].
    unfold get. by destruct (Nat.ltb_spec (length l) n); [lia|].
Defined.

End BigEndian.

(** * Cursors over buffers *)

Section Buffers.
Context {BC : BytesCrate}.

Definition get_u8 : bytes → res (Z * bytes) := get_uint 1.
Definition get_u16 : bytes → res (Z * bytes) := get_uint 2.
Definition get_u32 : bytes → res (Z * bytes) := get_uint 4.
Definition get_u64 : bytes → res (Z * bytes) := get_uint 8.

(** [Buf::copy_to_bytes n]: the next [n] bytes; panics when fewer remain. *)
Definition copy_to_bytes (n : Z) (l : bytes) : res (bytes * bytes) :=
  if len l <? n then Panic else Ok (take (Z.to_nat n) l, drop (Z.to_nat n) l).

(** A [&mut [u8]] used through [BufMut]: what was written and what is left. *)
Record wbuf := Wbuf { written : bytes; room : bytes }.

(** [BufMut::put_slice]; the [put_uN] write [put_uint n].  Panics without room. *)
Definition put (bs : bytes) (w : wbuf) : res wbuf :=
  assert_ (len bs <=? len (room w))
    (Ok (Wbuf (written w ++ bs) (drop (length bs) (room w)))).

Definition put_u8 (x : Z) : wbuf → res wbuf := put (put_uint 1 x).
Definition put_u16 (x : Z) : wbuf → res wbuf := put (put_uint 2 x).
Definition put_u32 (x : Z) : wbuf → res wbuf := put (put_uint 4 x).
Definition put_u64 (x : Z) : wbuf → res wbuf := put (put_uint 8 x).

(** A loop of writes, [for x in xs { .. }]. *)
Fixpoint put_all {A} (f : A → wbuf → res wbuf) (xs : list A) (w : wbuf) : res wbuf :=
  match xs with
  | [] => Ok w
  | x :: xs => let! w := f x w in put_all f xs w
  end.

Lemma put_Ok bs w :
  len bs <= len (room w) →
  put bs w = Ok (Wbuf (written w ++ bs) (drop (length bs) (room w))).
Proof. intros. unfold put, assert_. by destruct (Z.leb_spec (len bs) (len (room w))); [|lia]. Qed.

Lemma put_app a b w : rbind (put a w) (put b) = put (a ++ b) w.
Proof.
  unfold put, assert_. pose proof (len_nonneg b).
  destruct (Z.leb_spec (len a) (len (room w))); simpl.
  - rewrite drop_drop, <- app_assoc, length_app.
    destruct (Z.leb_spec (len b) (len (drop (length a) (room w))));
    destruct (Z.leb_spec (len (a ++ b)) (len (room w))); len_lia || done.
  - destruct (Z.leb_spec (len (a ++ b)) (len (room w))); len_lia || done.
Qed.

Lemma put_bind {B} a b w (k : wbuf → res B) :
  rbind (put a w) (λ w, rbind (put b w) k) = rbind (put (a ++ b) w) k.
Proof. rewrite <- put_app. by destruct (put a w). Qed.

Lemma put_then a bs w k :
  (∀ w, k w = put bs w) → rbind (put a w) k = put (a ++ bs) w.
Proof. intros Hk. rewrite <- put_app. destruct (put a w); simpl; auto. Qed.

Lemma put_step {B} a bs w k (k' : wbuf → res B) :
  (∀ w, k w = rbind (put bs w) k') → rbind (put a w) k = rbind (put (a ++ bs) w) k'.
Proof. intros Hk. rewrite <- put_bind. destruct (put a w); simpl; auto. Qed.

Lemma put_nil w : put [] w = Ok w.
Proof. destruct w as [a b]. rewrite put_Ok; simpl; [by rewrite app_nil_r|len_lia]. Qed.

Lemma put_all_put {A} (g : A → bytes) (f : A → wbuf → res wbuf) xs w :
  (∀ x w, x ∈ xs → f x w = put (g x) w) →
  put_all f xs w = put (concat (g <$> xs)) w.
Proof.
  revert w. induction xs as [|x xs IH]; intros w Hf; simpl; [by rewrite put_nil|].
  rewrite Hf by set_solver. rewrite <- put_app.
  destruct (put (g x) w); simpl; [|done..]. apply IH. set_solver.
Qed.

Lemma concat_put_bytes l : Forall byte_ok l → concat (put_uint 1 <$> l) = l.
Proof.
  induction 1 as [|b l Hb Hl IH]; [done|]. csimpl. by rewrite put_uint_1, IH.
Qed.

Lemma put_all_bytes l w : Forall byte_ok l → put_all put_u8 l w = put l w.
Proof.
  intros Hl. rewrite (put_all_put (put_uint 1)) by done. f_equal. by apply concat_put_bytes.
Qed.

Lemma len_put_uint n x : len (put_uint n x) = Z.of_nat n.
Proof. unfold len. by rewrite put_uint_length. Qed.

Lemma put_uint_2 x : put_uint 2 x = put_uint 1 (x / 256) ++ put_uint 1 (x mod 256).
Proof. apply put_uint_S. Qed.

Lemma get_u8_cons b r : byte_ok b → get_u8 (b :: r) = Ok (b, r).
Proof.
  intros Hb. unfold get_u8. rewrite <- (get_put_uint 1 b r) by done.
  by rewrite put_uint_1 by done.
Qed.

Lemma get_uint_inv n l x r :
  Forall byte_ok l → get_uint n l = Ok (x, r) →
  fits (8 * Z.of_nat n) x ∧ l = put_uint n x ++ r ∧ Forall byte_ok r.
Proof.
  intros Hl Hg. destruct (decide (n ≤ length l)%nat) as [Hn|Hn].
  - destruct (get_uint_long n l Hl Hn) as (y & Hy & E & Ht).
    rewrite Hg in E. injection E as -> ->.
    rewrite Ht, take_drop. auto using Forall_drop.
  - rewrite get_uint_short in Hg by lia. discriminate.
Qed.

Lemma get_uint_total n l :
  Forall byte_ok l → Z.of_nat n <= len l →
  ∃ x r, get_uint n l = Ok (x, r) ∧ fits (8 * Z.of_nat n) x ∧ l = put_uint n x ++ r ∧
         Forall byte_ok r ∧ len r = len l - Z.of_nat n.
Proof.
  intros Hl Hn. destruct (get_uint_long n l Hl) as (x & Hx & E & Ht); [len_lia|].
  exists x, (drop n l). rewrite Ht, take_drop. split_and!; auto using Forall_drop.
  rewrite len_drop. pose proof (len_nonneg l). lia.
Qed.

Lemma copy_to_bytes_app p r : copy_to_bytes (len p) (p ++ r) = Ok (p, r).
Proof.
  unfold copy_to_bytes. destruct (Z.ltb_spec (len (p ++ r)) (len p)); [len_lia|].
  unfold len. by rewrite Nat2Z.id, take_app_length, drop_app_length.
Qed.

Lemma copy_to_bytes_no_panic n l : n <= len l → no_panic (copy_to_bytes n l).
Proof. intros. unfold copy_to_bytes. by destruct (Z.ltb_spec (len l) n); [lia|]. Qed.

Lemma copy_to_bytes_inv n l p r :
  Forall byte_ok l → 0 <= n → copy_to_bytes n l = Ok (p, r) →
  l = p ++ r ∧ len p = n ∧ Forall byte_ok p ∧ Forall byte_ok r.
Proof.
  unfold copy_to_bytes. intros Hl Hn E. destruct (Z.ltb_spec (len l) n); simplify_eq.
  rewrite take_drop. split_and!; auto using Forall_take, Forall_drop. len_lia.
Qed.

End Buffers.
#[export] Hint Rewrite @len_put_uint : len.

(** * [shared::marshal]: the codec traits *)

Class MarshalSize (T : Type) := marshal_size : T → Z.
Class Marshal (T : Type) `{MarshalSize T} := marshal_to : T → bytes → res (Z * bytes).
Class Unmarshal (T : Type) := unmarshal : bytes → res (T * bytes).

(** The provided method [Marshal::marshal]: size a zeroed buffer, fill it, check
    the count. *)
Definition marshal `{Marshal T} (x : T) : res bytes :=
  let l := marshal_size x in
  let buf := replicate (Z.to_nat l) 0 in
  let! (n, buf) := marshal_to x buf in
  if n =? l then Ok buf else Err ErrOther.

(** A [marshal_to] that is one write of exactly [marshal_size] bytes. *)
Lemma marshal_put `{Marshal T} (x : T) bs :
  len bs = marshal_size x →
  (∀ buf, len buf = marshal_size x →
     marshal_to x buf = let! w := put bs (Wbuf [] buf) in Ok (marshal_size x, written w ++ room w)) →
  marshal x = Ok bs.
Proof.
  intros Hl Hm. pose proof (len_nonneg bs). unfold marshal.
  assert (len (replicate (Z.to_nat (marshal_size x)) 0) = marshal_size x) as Hr
    by (rewrite len_replicate; lia).
  rewrite Hm by done. rewrite put_Ok by (simpl; lia). simpl. rewrite Z.eqb_refl.
  rewrite drop_ge, app_nil_r; [done|]. rewrite length_replicate. unfold len in *. lia.
Qed.

(** * Texts *)

(** Well-formed UTF-8, as [String::from_utf8] accepts it: the table of the Unicode standard, with
    neither overlong forms nor surrogates *)
Definition continuation (b : Z) : bool := (0x80 <=? b) && (b <=? 0xbf).
Fixpoint utf8_valid (l : bytes) : bool :=
  match l with
  | [] => true
  | b0 :: r0 =>
      if b0 <=? 0x7f then utf8_valid r0
      else match r0 with
      | [] => false
      | b1 :: r1 =>
          if (0xc2 <=? b0) && (b0 <=? 0xdf) then continuation b1 && utf8_valid r1
          else match r1 with
          | [] => false
          | b2 :: r2 =>
              if b0 =? 0xe0 then (0xa0 <=? b1) && (b1 <=? 0xbf) && continuation b2 && utf8_valid r2
              else if b0 =? 0xed then (0x80 <=? b1) && (b1 <=? 0x9f) && continuation b2 && utf8_valid r2
              else if (0xe1 <=? b0) && (b0 <=? 0xef) then continuation b1 && continuation b2 && utf8_valid r2
              else match r2 with
              | [] => false
              | b3 :: r3 =>
                  if b0 =? 0xf0 then (0x90 <=? b1) && (b1 <=? 0xbf) && continuation b2 && continuation b3 && utf8_valid r3
                  else if (0xf1 <=? b0) && (b0 <=? 0xf3) then continuation b1 && continuation b2 && continuation b3 && utf8_valid r3
                  else if b0 =? 0xf4 then (0x80 <=? b1) && (b1 <=? 0x8f) && continuation b2 && continuation b3 && utf8_valid r3
                  else false
              end
          end
      end
  end.

(** * Decision by enumeration

    A boolean fact about a bounded integer is checked on every value. *)

Definition below (n : nat) : list Z := Z.of_nat <$> seq 0 n.

Lemma below_S n : below (S n) = 0 :: (Z.succ <$> below n).
Proof.
  unfold below. rewrite <- cons_seq, <- fmap_S_seq. csimpl. f_equal.
  rewrite <- !list_fmap_compose. apply list_fmap_ext. intros i x _. simpl. lia.
Qed.

Lemma below_spec n (P : Z → bool) :
  forallb P (below n) = true → ∀ z, 0 <= z < Z.of_nat n → P z = true.
Proof.
  intros H z Hz. rewrite forallb_forall in H. apply H.
  apply list_elem_of_In, list_elem_of_fmap. exists (Z.to_nat z).
  split; [lia|]. apply elem_of_seq. lia.
Qed.

Lemma below_spec_dec n (P : Z → Prop) `{∀ z, Decision (P z)} :
  forallb (λ z, bool_decide (P z)) (below n) = true → ∀ z, 0 <= z < Z.of_nat n → P z.
Proof. intros E z Hz. exact (bool_decide_eq_true_1 _ (below_spec n _ E z Hz)). Qed.

Lemma below_spec2 n m (P : Z → Z → Prop) `{∀ x y, Decision (P x y)} :
  forallb (λ x, forallb (λ y, bool_decide (P x y)) (below m)) (below n) = true →
  ∀ x y, 0 <= x < Z.of_nat n → 0 <= y < Z.of_nat m → P x y.
Proof.
  intros E x y Hx Hy. pose proof (below_spec n _ E x Hx) as Ex.
  exact (bool_decide_eq_true_1 _ (below_spec m _ Ex y Hy)).
Qed.

(** Goals [∀ x, 0 <= x < n → P x] and [∀ x y, 0 <= x < n → 0 <= y < m → P x y]
    by evaluation at every value. *)
Ltac enum n :=
  eapply (below_spec_dec n); vm_compute; reflexivity.
Ltac enum2 n m :=
  eapply (below_spec2 n m); vm_compute; reflexivity.

(** Closes the goals that well-formedness of a concrete value leaves. *)
Ltac concrete :=
  repeat match goal with
  | |- _ ∧ _ => split
  | |- Forall _ (_ :: _) => constructor
  | |- Forall _ [] => constructor
  | |- _ → _ => intros
  end; first [done | unfold fits, len; simpl; lia | vm_compute; intuition congruence].
