(* ===== verification/Codec.v ===== *)
(** What the codecs share: postconditions of parsers, what it means that a value is encoded by
    given bytes, the loops that read a counted list, and the padding to 32-bit words.

    [res_post m Q] says that [m] does not panic and that a result satisfies [Q]; the tactic
    [parse] runs it through a parser.  [encodes x bs] says that [marshal_to] writes exactly
    [bs] at the front of any buffer that is large enough, so that encodings compose. *)

From S2P Require Import Prelude.

(** * Postconditions *)

Definition res_post {A} (m : res A) (Q : A → Prop) : Prop :=
  match m with Ok a => Q a | Err _ => True | Panic => False end.

Lemma res_post_Ok {A} (a : A) (Q : A → Prop) : Q a → res_post (Ok a) Q.
Proof. done. Qed.

Lemma res_post_Err {A} e (Q : A → Prop) : res_post (Err e) Q.
Proof. done. Qed.
#[export] Hint Resolve res_post_Err : rtc.

Lemma res_post_bind {A B} (m : res A) (f : A → res B) Q R :
  res_post m Q → (∀ a, Q a → res_post (f a) R) → res_post (rbind m f) R.
Proof. destruct m; simpl; auto. Qed.

Lemma res_post_mono {A} (m : res A) (Q R : A → Prop) :
  res_post m Q → (∀ a, Q a → R a) → res_post m R.
Proof. destruct m; simpl; auto. Qed.

Lemma res_post_no_panic {A} (m : res A) Q : res_post m Q → no_panic m.
Proof. by destruct m. Qed.

Lemma res_post_if {A} (b : bool) (m1 m2 : res A) Q :
  (b = true → res_post m1 Q) → (b = false → res_post m2 Q) → res_post (if b then m1 else m2) Q.
Proof. destruct b; auto. Qed.

(** What is left of the input of a parser that read at least [k] bytes. *)
Definition left_of {A} (k : Z) (raw : bytes) : A * bytes → Prop := λ '(_, r),
  Forall byte_ok r ∧ len r + k <= len raw.

Section Parsers.
Context {BC : BytesCrate}.

Lemma get_uint_post n l :
  Forall byte_ok l → Z.of_nat n <= len l →
  res_post (get_uint n l) (λ '(x, r), fits (8 * Z.of_nat n) x ∧ Forall byte_ok r ∧ len r = len l - Z.of_nat n).
Proof. intros Hl Hn. by destruct (get_uint_total n l Hl Hn) as (x & r & -> & Hx & _ & Hr & L). Qed.

Lemma get_u8_post l :
  Forall byte_ok l → 1 <= len l →
  res_post (get_u8 l) (λ '(x, r), byte_ok x ∧ Forall byte_ok r ∧ len r = len l - 1).
Proof. apply (get_uint_post 1). Qed.

Lemma get_u16_post l :
  Forall byte_ok l → 2 <= len l →
  res_post (get_u16 l) (λ '(x, r), fits 16 x ∧ Forall byte_ok r ∧ len r = len l - 2).
Proof. apply (get_uint_post 2). Qed.

Lemma get_u32_post l :
  Forall byte_ok l → 4 <= len l →
  res_post (get_u32 l) (λ '(x, r), fits 32 x ∧ Forall byte_ok r ∧ len r = len l - 4).
Proof. apply (get_uint_post 4). Qed.

Lemma get_u64_post l :
  Forall byte_ok l → 8 <= len l →
  res_post (get_u64 l) (λ '(x, r), fits 64 x ∧ Forall byte_ok r ∧ len r = len l - 8).
Proof. apply (get_uint_post 8). Qed.

Lemma copy_to_bytes_post n l :
  Forall byte_ok l → 0 <= n <= len l →
  res_post (copy_to_bytes n l)
    (λ '(p, r), Forall byte_ok p ∧ len p = n ∧ Forall byte_ok r ∧ len r = len l - n).
Proof.
  intros Hl Hn. unfold copy_to_bytes. destruct (Z.ltb_spec (len l) n); [lia|]. simpl.
  rewrite len_take, len_drop. split_and!; auto using Forall_take, Forall_drop; lia.
Qed.

(** [for _ in 0..n { xs.push(read(raw)?) }] *)
Fixpoint read_n {A} (f : bytes → res (A * bytes)) (n : nat) (raw : bytes) : res (list A * bytes) :=
  match n with
  | O => Ok ([], raw)
  | S n =>
      let! (x, raw) := f raw in
      let! (xs, raw) := read_n f n raw in
      Ok (x :: xs, raw)
  end.

Lemma read_n_app {A} (f : bytes → res (A * bytes)) (g : A → bytes) xs r :
  (∀ x r, x ∈ xs → f (g x ++ r) = Ok (x, r)) →
  read_n f (length xs) (concat (g <$> xs) ++ r) = Ok (xs, r).
Proof.
  induction xs as [|x xs IH]; intros Hf; [done|]. csimpl.
  rewrite <- app_assoc, Hf by set_solver. cbn [rbind]. rewrite IH by set_solver. done.
Qed.

(** Every item takes [k] bytes. *)
Lemma read_n_post {A} (f : bytes → res (A * bytes)) (k : Z) n raw :
  0 <= k →
  (∀ r, Forall byte_ok r → k <= len r → res_post (f r) (λ '(_, r'), Forall byte_ok r' ∧ len r' = len r - k)) →
  Forall byte_ok raw → k * Z.of_nat n <= len raw →
  res_post (read_n f n raw)
    (λ '(xs, r), length xs = n ∧ Forall byte_ok r ∧ len r = len raw - k * Z.of_nat n).
Proof.
  intros Hk Hf. revert raw. induction n as [|n IH]; intros raw Hr Hn; simpl; [split_and!; [done..|lia]|].
  eapply res_post_bind; [apply Hf; [done|lia]|]. intros [x r1] [H1 L1].
  eapply res_post_bind; [apply IH; [done|lia]|]. intros [xs r2] (Hl & H2 & L2). simpl.
  split_and!; [by f_equal|done|lia].
Qed.

End Parsers.

(** Runs [res_post] through the reads and tests of a parser. *)
Ltac parse_step :=
  lazymatch goal with
  | |- res_post (Err _) _ => exact I
  | |- res_post (if _ then _ else _) _ =>
      apply res_post_if; let H := fresh "Hc" in intros H
  | |- res_post (rbind (get_u8 _) _) _ =>
      eapply res_post_bind; [apply get_u8_post|]
  | |- res_post (rbind (get_u16 _) _) _ =>
      eapply res_post_bind; [apply get_u16_post|]
  | |- res_post (rbind (get_u32 _) _) _ =>
      eapply res_post_bind; [apply get_u32_post|]
  | |- res_post (rbind (get_u64 _) _) _ =>
      eapply res_post_bind; [apply get_u64_post|]
  | |- res_post (rbind (copy_to_bytes _ _) _) _ =>
      eapply res_post_bind; [apply copy_to_bytes_post|]
  | |- Forall byte_ok _ => assumption
  | |- ∀ _ : _ * _, _ → res_post _ _ =>
      let x := fresh "x" in let r := fresh "r" in let H := fresh "H" in
      intros [x r] H; repeat match type of H with _ ∧ _ => let H' := fresh "H" in destruct H as [H' H] end
  | |- res_post (let _ := _ in _) _ => cbv zeta
  end.
Ltac bool_facts :=
  repeat match goal with
  | H : (_ <? _) = true |- _ => apply Z.ltb_lt in H
  | H : (_ <? _) = false |- _ => apply Z.ltb_ge in H
  | H : (_ <=? _) = true |- _ => apply Z.leb_le in H
  | H : (_ <=? _) = false |- _ => apply Z.leb_gt in H
  | H : (_ =? _) = true |- _ => apply Z.eqb_eq in H
  | H : (_ =? _) = false |- _ => apply Z.eqb_neq in H
  | H : negb _ = true |- _ => apply negb_true_iff in H
  | H : negb _ = false |- _ => apply negb_false_iff in H
  | H : (_ || _) = false |- _ => apply orb_false_iff in H as [? H]
  | H : (_ && _) = true |- _ => apply andb_true_iff in H as [? H]
  end.
Ltac len_pos :=
  repeat match goal with
  | |- context [len ?l] =>
      lazymatch goal with _ : 0 <= len l |- _ => fail | _ => pose proof (len_nonneg l) end
  end.
Ltac parse := repeat parse_step; bool_facts; try (len_pos; unfold fits in *; lia).

(** * Encodings *)

Definition encodes `{Marshal T} (x : T) (bs : bytes) : Prop :=
  len bs = marshal_size x ∧
  ∀ buf, marshal_size x <= len buf →
    marshal_to x buf = Ok (marshal_size x, bs ++ drop (length bs) buf).

Section Encodings.
Context {BC : BytesCrate}.

(** [let n = x.marshal_to(buf)?; buf = &mut buf[n..];] *)
Definition put_marshal `{Marshal T} (x : T) (w : wbuf) : res wbuf :=
  let! (n, buf) := marshal_to x (room w) in
  assert_ ((0 <=? n) && (n <=? len buf))
    (Ok (Wbuf (written w ++ take (Z.to_nat n) buf) (drop (Z.to_nat n) buf))).

(** The value of a [marshal_to] that wrote into [w]. *)
Definition finish (n : Z) (w : wbuf) : res (Z * bytes) := Ok (n, written w ++ room w).

Lemma finish_put n bs buf :
  len bs <= len buf →
  rbind (put bs (Wbuf [] buf)) (finish n) = Ok (n, bs ++ drop (length bs) buf).
Proof. intros H. by rewrite put_Ok. Qed.

Lemma encodes_marshal `{Marshal T} (x : T) bs : encodes x bs → marshal x = Ok bs.
Proof.
  intros [Hl Hm]. apply marshal_put; [done|]. intros buf Hb.
  rewrite Hm by lia. by rewrite put_Ok by (simpl; lia).
Qed.

Lemma put_encoded `{Marshal T} (x : T) bs w :
  encodes x bs → len bs <= len (room w) → put_marshal x w = put bs w.
Proof.
  intros [Hl Hm] Hr. unfold put_marshal. rewrite Hm by lia. cbn [rbind].
  rewrite put_Ok by done. unfold assert_. pose proof (len_nonneg bs).
  rewrite !(proj2 (Z.leb_le _ _)) by (rewrite ?len_app, ?len_drop; lia). cbn [andb].
  rewrite <- Hl. unfold len. by rewrite Nat2Z.id, take_app_length, drop_app_length.
Qed.

(** Sub-encodings in sequence, as long as the buffer has room for all of them. *)
Lemma put_all_encoded `{Marshal T} (g : T → bytes) xs w :
  (∀ x, x ∈ xs → encodes x (g x)) → len (concat (g <$> xs)) <= len (room w) →
  put_all put_marshal xs w = put (concat (g <$> xs)) w.
Proof.
  revert w. induction xs as [|x xs IH]; intros w He Hl; [by rewrite put_nil|]. csimpl in Hl; csimpl.
  rewrite len_app in Hl. pose proof (len_nonneg (concat (g <$> xs))).
  rewrite (put_encoded x (g x)) by (try apply He; set_solver || lia).
  rewrite <- put_app, put_Ok by lia. cbn [rbind]. apply IH; [set_solver|].
  cbn [room]. rewrite len_drop. unfold len in *. lia.
Qed.

(** Like [put_step], keeping track of the room that is left. *)
Lemma put_step_room {B} a bs w k (k' : wbuf → res B) :
  len a <= len (room w) →
  (∀ w', len (room w') = len (room w) - len a → k w' = rbind (put bs w') k') →
  rbind (put a w) k = rbind (put (a ++ bs) w) k'.
Proof.
  intros Ha Hk. rewrite <- put_bind, put_Ok by done. cbn [rbind]. apply Hk.
  cbn [room]. rewrite len_drop. unfold len in *. lia.
Qed.

(** * Padding to 32-bit words: [rtc-rtcp/src/util.rs] *)

Definition get_padding_size (n : Z) : Z := if n mod 4 =? 0 then 0 else 4 - n mod 4.

Definition put_padding (n : Z) (w : wbuf) : res wbuf :=
  let padding_size := get_padding_size n in
  put_all (λ i, put_u8 (if i =? padding_size - 1 then u8 padding_size else 0))
          (seqZ 0 padding_size) w.

(** The padding of [n] bytes: zeros and, at the end, the number of padding bytes. *)
Definition padding_bytes (n : Z) : bytes :=
  match get_padding_size n with
  | 1 => [1]
  | 2 => [0; 2]
  | 3 => [0; 0; 3]
  | _ => []
  end.

Lemma padding_size_bounds n : 0 <= get_padding_size n < 4 ∧ (n + get_padding_size n) mod 4 = 0.
Proof.
  unfold get_padding_size. pose proof (Z.mod_pos_bound n 4). destruct (Z.eqb_spec (n mod 4) 0) as [E|E].
  - rewrite Z.add_0_r. lia.
  - split; [lia|]. pose proof (Z_div_mod_eq_full n 4).
    replace (n + (4 - n mod 4)) with ((n / 4 + 1) * 4) by lia. by rewrite Z.mod_mul.
Qed.

Lemma padding_cases n : get_padding_size n = 0 ∨ get_padding_size n = 1 ∨ get_padding_size n = 2 ∨ get_padding_size n = 3.
Proof. pose proof (padding_size_bounds n). lia. Qed.

Lemma len_padding n : len (padding_bytes n) = get_padding_size n.
Proof. unfold padding_bytes. by destruct (padding_cases n) as [->|[->|[->| ->]]]. Qed.

Lemma padding_bytes_ok n : Forall byte_ok (padding_bytes n).
Proof. unfold padding_bytes. destruct (padding_cases n) as [->|[->|[->| ->]]]; concrete. Qed.

Lemma put_padding_put n w : put_padding n w = put (padding_bytes n) w.
Proof.
  unfold put_padding. cbv zeta. set (f := λ i, put_u8 _).
  rewrite (put_all_put (λ i, [if i =? get_padding_size n - 1 then get_padding_size n else 0]) f).
  - f_equal. unfold padding_bytes. by destruct (padding_cases n) as [->|[->|[->| ->]]].
  - intros i w' _. subst f. cbv beta. unfold put_u8. f_equal.
    pose proof (padding_size_bounds n). rewrite put_uint_1; [|destruct (_ =? _); unfold u8, fits; simpl; lia || apply wrap_fits; lia].
    destruct (_ =? _); [|done]. by rewrite wrap_small by (unfold fits; lia).
Qed.

(** [if h.padding { put_padding(buf, self.raw_size()); }] *)
Lemma put_padding_if n w :
  (if negb (get_padding_size n =? 0) then put_padding n w else Ok w) = put (padding_bytes n) w.
Proof.
  destruct (Z.eqb_spec (get_padding_size n) 0) as [E|E]; cbn [negb]; [|apply put_padding_put].
  unfold padding_bytes. rewrite E. by rewrite put_nil.
Qed.

End Encodings.
#[export] Hint Rewrite @len_padding : len.
