(* ===== verification/Replay.v ===== *)
(** The replay detectors of [rtc-shared/src/replay_detector]: the fixed-size bit
    set [FixedBigInt] ([fixed_big_int/mod.rs]), the sliding window used by DTLS
    ([SlidingWindowDetector]) and the wrapping one used by SRTP and SRTCP
    ([WrappedSlidingWindowDetector]), against an abstract specification that
    remembers every accepted sequence number. *)

From S2P Require Import Prelude.

(** * [FixedBigInt]: a fixed-width multi-word integer *)
Module Fbi.

Record FixedBigInt := mkFbi {
  bits : list Z;      (* Vec<u64>, least significant word first *)
  nbits : Z;          (* n *)
  msb_mask : Z
}.

Definition new (n : Z) : FixedBigInt :=
  let chunk_size := (n + 63) / 64 in
  let chunk_size := if chunk_size =? 0 then 1 else chunk_size in
  mkFbi (replicate (Z.to_nat chunk_size) 0) n
    (if n mod 64 =? 0 then 2 ^ 64 - 1 else Z.shiftl 1 (64 - n mod 64) - 1).

Definition word (l : list Z) (i : Z) : Z := nth (Z.to_nat i) l 0.

(** The word index arithmetic of [lsh]: what moves into [bits[i]] from the
    words [n / 64] and [n / 64 + 1] places below it. *)
Definition lsh_carry (n : Z) (l : list Z) (i : Z) : Z :=
  let n_chunk := n / 64 in
  let n_n := n mod 64 in
  if 0 <=? i - n_chunk then
    let c := if 64 <=? n_n then 0 else u64 (Z.shiftl (word l (i - n_chunk)) n_n) in
    if 0 <? i - n_chunk then
      Z.lor c (if n_n =? 0 then 0 else Z.shiftr (word l (i - n_chunk - 1)) (64 - n_n))
    else c
  else 0.

(** The value the loop body of [lsh] stores into [bits[i]]. *)
Definition lsh_word (n : Z) (l : list Z) (i : Z) : Z :=
  let carry := lsh_carry n l i in
  if 64 <=? n then carry else Z.lor (u64 (Z.shiftl (word l i) n)) carry.

(** [for i in (0..len).rev()]: [k] is the number of words still to visit. *)
Fixpoint lsh_loop (n : Z) (k : nat) (l : list Z) : list Z :=
  match k with
  | O => l
  | S k => lsh_loop n k (<[k := lsh_word n l (Z.of_nat k)]> l)
  end.

Definition lsh (b : FixedBigInt) (n : Z) : FixedBigInt :=
  if n =? 0 then b
  else
    let l := lsh_loop n (length (bits b)) (bits b) in
    let last := (length l - 1)%nat in
    mkFbi (<[last := Z.land (nth last l 0) (msb_mask b)]> l) (nbits b) (msb_mask b).

Definition bit (b : FixedBigInt) (i : Z) : Z :=
  if nbits b <=? i then 0
  else Z.b2z (negb (Z.land (word (bits b) (i / 64)) (Z.shiftl 1 (i mod 64)) =? 0)).

Definition set_bit (b : FixedBigInt) (i : Z) : FixedBigInt :=
  if nbits b <=? i then b
  else
    let chunk := Z.to_nat (i / 64) in
    mkFbi (<[chunk := Z.lor (nth chunk (bits b) 0) (Z.shiftl 1 (i mod 64))]> (bits b))
      (nbits b) (msb_mask b).

(** ** The bit-set view *)

Definition bitz (l : list Z) (g : Z) : bool :=
  (0 <=? g) && Z.testbit (word l (g / 64)) (g mod 64).

Definition mem (b : FixedBigInt) (i : Z) : bool := negb (bit b i =? 0).

(** The window sizes for which [msb_mask] keeps every bit below [n]. *)
Definition good_size (n : Z) : bool := (0 <? n) && (n mod 64 <=? 32).

(** What [new] establishes and every operation keeps. *)
Record wf (b : FixedBigInt) : Prop := {
  wf_len : len (bits b) = (nbits b + 63) / 64;
  wf_words : Forall (fits 64) (bits b);
  wf_pos : 0 < nbits b;
  wf_mask : msb_mask b = msb_mask (new (nbits b));
}.

Lemma word_fits l i : Forall (fits 64) l → fits 64 (word l i).
Proof.
  intros Hl. unfold word. destruct (decide (Z.to_nat i < length l)%nat).
  - rewrite Forall_forall in Hl. apply Hl, list_elem_of_In, nth_In. lia.
  - rewrite nth_overflow by lia. done.
Qed.

Lemma testbit_u64_shiftl x k p :
  0 <= p < 64 → 0 <= k →
  Z.testbit (u64 (Z.shiftl x k)) p = (k <=? p) && Z.testbit x (p - k).
Proof.
  intros Hp Hk. unfold wrap. rewrite Z.mod_pow2_bits_low by lia.
  rewrite Z.shiftl_spec by lia. destruct (Z.leb_spec k p); [done|].
  by rewrite Z.testbit_neg_r by lia.
Qed.

Lemma bitz_at l c p : 0 <= c → 0 <= p < 64 → bitz l (64 * c + p) = Z.testbit (word l c) p.
Proof.
  intros Hc Hp. unfold bitz. destruct (Z.leb_spec 0 (64 * c + p)); [|lia]. simpl.
  rewrite Z.mul_comm, Z.div_add_l, (Z.div_small p), Z.add_0_r by lia.
  by rewrite Z.add_comm, Z.mod_add, Z.mod_small by lia.
Qed.

Lemma bitz_neg l g : g < 0 → bitz l g = false.
Proof. intros. unfold bitz. by destruct (Z.leb_spec 0 g); [lia|]. Qed.

(** A position [64 i + p - n] splits into the two words [lsh_word] reads. *)
Lemma bitz_shift l i p n :
  0 <= p < 64 → 0 <= n →
  bitz l (64 * i + p - n) =
    let c := i - n / 64 in
    if n mod 64 <=? p then (0 <=? c) && Z.testbit (word l c) (p - n mod 64)
    else (0 <? c) && Z.testbit (word l (c - 1)) (p - n mod 64 + 64).
Proof.
  intros Hp Hn. pose proof (Z_div_mod_eq_full n 64). pose proof (Z.mod_pos_bound n 64).
  cbv zeta. destruct (Z.leb_spec (n mod 64) p).
  - replace (64 * i + p - n) with (64 * (i - n / 64) + (p - n mod 64)) by lia.
    destruct (Z.leb_spec 0 (i - n / 64)); [by rewrite bitz_at by lia|].
    by rewrite bitz_neg by lia.
  - replace (64 * i + p - n) with (64 * (i - n / 64 - 1) + (p - n mod 64 + 64)) by lia.
    destruct (Z.ltb_spec 0 (i - n / 64)); [by rewrite bitz_at by lia|].
    by rewrite bitz_neg by lia.
Qed.

Lemma lsh_carry_bit n l i p :
  Forall (fits 64) l → 0 <= p < 64 → 0 < n →
  Z.testbit (lsh_carry n l i) p = bitz l (64 * i + p - n).
Proof.
  intros Hl Hp Hn. rewrite bitz_shift by lia. cbv zeta. unfold lsh_carry.
  pose proof (Z.mod_pos_bound n 64). generalize (i - n / 64). intros c.
  destruct (Z.leb_spec 64 (n mod 64)) as [|_]; [lia|].
  assert (∀ x, Z.testbit (if n mod 64 =? 0 then 0 else Z.shiftr x (64 - n mod 64)) p =
               negb (n mod 64 =? 0) && Z.testbit x (p - n mod 64 + 64)) as Hr.
  { intros x. destruct (Z.eqb_spec (n mod 64) 0); simpl; [by rewrite Z.testbit_0_l|].
    rewrite Z.shiftr_spec by lia. f_equal. lia. }
  assert (n mod 64 <= p → ∀ j, Z.testbit (word l j) (p - n mod 64 + 64) = false) as Hhi
    by (intros; apply testbit_fits with 64; [by apply word_fits|lia..]).
  destruct (Z.leb_spec 0 c), (Z.ltb_spec 0 c); try lia;
  rewrite ?Z.lor_spec, ?Hr, ?testbit_u64_shiftl, ?Z.testbit_0_l by lia;
  destruct (Z.leb_spec (n mod 64) p), (Z.eqb_spec (n mod 64) 0); simpl;
  rewrite ?Hhi, ?orb_false_r by lia; done || lia.
Qed.

Lemma lsh_word_bit n l i p :
  Forall (fits 64) l → 0 <= p < 64 → 0 < n → 0 <= i →
  Z.testbit (lsh_word n l i) p = bitz l (64 * i + p - n).
Proof.
  intros Hl Hp Hn Hi. unfold lsh_word. pose proof (lsh_carry_bit n l i p Hl Hp Hn) as Hc.
  destruct (Z.leb_spec 64 n); [done|].
  rewrite Z.lor_spec, Hc, testbit_u64_shiftl by lia.
  destruct (Z.leb_spec n p); simpl; [|done].
  replace (64 * i + p - n) with (64 * i + (p - n)) by lia.
  rewrite bitz_at by lia. apply orb_diag.
Qed.

Lemma lsh_word_fits n l i : Forall (fits 64) l → fits 64 (lsh_word n l i).
Proof.
  intros Hl. unfold lsh_word, lsh_carry. pose proof (Z.mod_pos_bound n 64).
  assert (fits 64 0) by done.
  repeat case_match; auto using fits_lor, fits_shiftr, wrap_fits, word_fits with lia.
Qed.

(** ** The loop: words are rewritten from the top, so each reads old values *)

Lemma word_insert_ne l k x j : 0 <= j → Z.of_nat k ≠ j → word (<[k := x]> l) j = word l j.
Proof.
  intros Hj Hne. unfold word. rewrite !nth_lookup.
  by rewrite list_lookup_insert_ne by lia.
Qed.

Lemma word_insert_eq l k x : (k < length l)%nat → word (<[k := x]> l) (Z.of_nat k) = x.
Proof. intros Hk. unfold word. by rewrite Nat2Z.id, nth_lookup, list_lookup_insert_eq. Qed.

Lemma lsh_word_insert n l k x i :
  0 <= n → 0 <= i < Z.of_nat k → lsh_word n (<[k := x]> l) i = lsh_word n l i.
Proof.
  intros Hn Hi. unfold lsh_word, lsh_carry. pose proof (Z.div_pos n 64).
  rewrite (word_insert_ne _ _ _ i) by lia.
  destruct (Z.leb_spec 0 (i - n / 64)); [|done].
  rewrite (word_insert_ne _ _ _ (i - n / 64)) by lia.
  destruct (Z.ltb_spec 0 (i - n / 64)); [|done].
  by rewrite (word_insert_ne _ _ _ (i - n / 64 - 1)) by lia.
Qed.

Lemma lsh_loop_length n k l : length (lsh_loop n k l) = length l.
Proof. revert l. induction k; intros; simpl; [done|]. by rewrite IHk, length_insert. Qed.

Lemma lsh_loop_word n k l i :
  0 <= n → (k ≤ length l)%nat → 0 <= i →
  word (lsh_loop n k l) i = if i <? Z.of_nat k then lsh_word n l i else word l i.
Proof.
  intros Hn. revert l. induction k as [|k IH]; intros l Hk Hi; cbn [lsh_loop].
  - by destruct (Z.ltb_spec i (Z.of_nat 0)); [lia|].
  - rewrite IH by (rewrite ?length_insert; lia).
    destruct (Z.ltb_spec i (Z.of_nat k)), (Z.ltb_spec i (Z.of_nat (S k))); try lia.
    + by rewrite lsh_word_insert by lia.
    + replace i with (Z.of_nat k) by lia. by rewrite word_insert_eq by lia.
    + by rewrite word_insert_ne by lia.
Qed.

Lemma lsh_loop_fits n k l : Forall (fits 64) l → Forall (fits 64) (lsh_loop n k l).
Proof.
  revert l. induction k; intros l Hl; simpl; [done|].
  apply IHk, Forall_insert; auto using lsh_word_fits.
Qed.

(** ** Functional specification of the three operations *)

Lemma bit_bitz b i : wf b → 0 <= i → mem b i = (i <? nbits b) && bitz (bits b) i.
Proof.
  intros Hb Hi. unfold mem, bit. rewrite Z.ltb_antisym.
  destruct (Z.leb_spec (nbits b) i); simpl; [done|]. unfold bitz. destruct (Z.leb_spec 0 i); [|lia]. simpl.
  pose proof (Z.mod_pos_bound i 64). rewrite land_single by lia.
  by destruct (Z.testbit _ _).
Qed.

Lemma wf_new n : 0 < n → wf (new n).
Proof.
  intros Hn. pose proof (Z.div_str_pos (n + 63) 64).
  split; simpl; try done.
  - rewrite len_replicate. destruct (Z.eqb_spec ((n + 63) / 64) 0); lia.
  - apply Forall_replicate. done.
Qed.

Lemma mem_new n i : 0 < n → 0 <= i → mem (new n) i = false.
Proof.
  intros Hn Hi. rewrite bit_bitz by eauto using wf_new. apply andb_false_intro2.
  unfold bitz, word. simpl. rewrite nth_replicate, Z.testbit_0_l. apply andb_false_r.
Qed.

Lemma wf_set_bit b i : wf b → 0 <= i → wf (set_bit b i).
Proof.
  intros [Hlen Hw Hp Hm] Hi. unfold set_bit. destruct (Z.leb_spec (nbits b) i); [done|].
  pose proof (Z.mod_pos_bound i 64).
  split; simpl; try done; [unfold len in *; by rewrite length_insert|].
  apply Forall_insert; [done|]. apply fits_lor; [lia|by apply word_fits|].
  rewrite Z.shiftl_1_l. split; [lia|]. apply Z.pow_lt_mono_r; lia.
Qed.

Lemma bitz_set l k i :
  0 <= i → 0 <= k < 64 * len l →
  bitz (<[Z.to_nat (k / 64) := Z.lor (nth (Z.to_nat (k / 64)) l 0) (Z.shiftl 1 (k mod 64))]> l) i
  = (i =? k) || bitz l i.
Proof.
  intros Hi Hk. unfold bitz. destruct (Z.leb_spec 0 i); [|lia]. simpl.
  pose proof (Z_div_mod_eq_full i 64). pose proof (Z_div_mod_eq_full k 64).
  pose proof (Z.mod_pos_bound i 64). pose proof (Z.mod_pos_bound k 64).
  assert (0 <= k / 64 < len l) by (split; [apply Z.div_pos|apply Z.div_lt_upper_bound]; lia).
  destruct (Z.eq_dec (i / 64) (k / 64)) as [E|].
  - rewrite <- (Z2Nat.id (i / 64)), E, word_insert_eq by len_lia.
    rewrite Z.lor_spec, Z.shiftl_1_l, Z.pow2_bits_eqb by lia. fold (word l (k / 64)).
    rewrite Z2Nat.id, orb_comm by lia. f_equal. apply eq_true_iff_eq. rewrite !Z.eqb_eq. lia.
  - rewrite word_insert_ne by (rewrite ?Z2Nat.id; lia || (apply Z.div_pos; lia)).
    by destruct (Z.eqb_spec i k) as [->|].
Qed.

Lemma nbits_le_len b : wf b → nbits b <= 64 * len (bits b).
Proof. intros [-> _ Hp _]. pose proof (Z_div_mod_eq_full (nbits b + 63) 64).
  pose proof (Z.mod_pos_bound (nbits b + 63) 64). lia. Qed.

Lemma mem_set_bit b k i :
  wf b → 0 <= k → 0 <= i →
  mem (set_bit b k) i = ((i =? k) && (k <? nbits b)) || mem b i.
Proof.
  intros Hb Hk Hi. pose proof (nbits_le_len b Hb).
  rewrite !bit_bitz by eauto using wf_set_bit. unfold set_bit.
  destruct (Z.leb_spec (nbits b) k), (Z.ltb_spec k (nbits b)); try lia.
  - by rewrite andb_false_r.
  - cbn [bits nbits]. rewrite bitz_set by lia.
    destruct (Z.eqb_spec i k) as [->|]; simpl; [|done].
    by destruct (Z.ltb_spec k (nbits b)); [|lia].
Qed.

Lemma nbits_lsh b k : nbits (lsh b k) = nbits b.
Proof. unfold lsh. by destruct (k =? 0). Qed.

Lemma nbits_set_bit b k : nbits (set_bit b k) = nbits b.
Proof. unfold set_bit. by destruct (nbits b <=? k). Qed.

Lemma wf_lsh b k : wf b → 0 <= k → wf (lsh b k).
Proof.
  intros [Hlen Hw Hp Hm] Hk. unfold lsh. destruct (Z.eqb_spec k 0); [done|].
  pose proof (lsh_loop_fits k (length (bits b)) _ Hw) as Hf.
  split; simpl; try done; [unfold len in *; by rewrite length_insert, lsh_loop_length|].
  apply Forall_insert; [done|]. apply fits_land; [lia| |].
  - apply (word_fits _ (Z.of_nat (length (lsh_loop k (length (bits b)) (bits b)) - 1))) in Hf.
    unfold word in Hf. by rewrite Nat2Z.id in Hf.
  - rewrite Hm. simpl. destruct (nbits b mod 64 =? 0); [lia|].
    pose proof (Z.mod_pos_bound (nbits b) 64). rewrite Z.shiftl_1_l.
    pose proof (Z.pow_pos_nonneg 2 (64 - nbits b mod 64)). lia.
Qed.

(** [msb_mask] keeps bit [i] of the last word, for the good sizes. *)
Lemma msb_mask_keeps n i :
  good_size n = true → 0 <= i < n → i / 64 = (n + 63) / 64 - 1 →
  Z.testbit (msb_mask (new n)) (i mod 64) = true.
Proof.
  unfold good_size. rewrite andb_true_iff, Z.ltb_lt, Z.leb_le. intros [Hn Hg] Hi E.
  pose proof (Z_div_mod_eq_full i 64). pose proof (Z_div_mod_eq_full n 64).
  pose proof (Z_div_mod_eq_full (n + 63) 64). pose proof (Z.mod_pos_bound i 64).
  pose proof (Z.mod_pos_bound n 64). pose proof (Z.mod_pos_bound (n + 63) 64).
  cbn [msb_mask new]. destruct (Z.eqb_spec (n mod 64) 0).
  - change (2 ^ 64 - 1) with (Z.ones 64). apply Z.ones_spec_low. lia.
  - rewrite Z.shiftl_1_l, Z.sub_1_r, <- Z.ones_equiv. apply Z.ones_spec_low. lia.
Qed.

Lemma bitz_lsh_loop l k i :
  Forall (fits 64) l → 0 < k → 0 <= i < 64 * len l →
  bitz (lsh_loop k (length l) l) i = bitz l (i - k).
Proof.
  intros Hl Hk Hi. pose proof (Z_div_mod_eq_full i 64). pose proof (Z.mod_pos_bound i 64).
  assert (0 <= i / 64 < len l) by (split; [apply Z.div_pos|apply Z.div_lt_upper_bound]; lia).
  rewrite (Z_div_mod_eq_full i 64) at 1. rewrite bitz_at, lsh_loop_word by lia.
  destruct (Z.ltb_spec (i / 64) (Z.of_nat (length l))); [|len_lia].
  rewrite lsh_word_bit by lia || done. f_equal. lia.
Qed.

Lemma bitz_mask l m i :
  0 <= i < 64 * len l →
  bitz (<[(length l - 1)%nat := Z.land (nth (length l - 1) l 0) m]> l) i
  = bitz l i && (if i / 64 =? len l - 1 then Z.testbit m (i mod 64) else true).
Proof.
  intros Hi. unfold bitz. destruct (Z.leb_spec 0 i); [simpl|lia].
  assert (0 <= i / 64 < len l) by (split; [apply Z.div_pos|apply Z.div_lt_upper_bound]; lia).
  destruct (Z.eqb_spec (i / 64) (len l - 1)) as [E|].
  - replace (i / 64) with (Z.of_nat (length l - 1)) by len_lia.
    rewrite word_insert_eq by len_lia. rewrite Z.land_spec. unfold word. by rewrite Nat2Z.id.
  - rewrite word_insert_ne by len_lia. by rewrite andb_true_r.
Qed.

Lemma lsh_mask l m k i :
  Forall (fits 64) l → 0 < k → 0 <= i < 64 * len l →
  let l' := lsh_loop k (length l) l in
  bitz (<[(length l' - 1)%nat := Z.land (nth (length l' - 1) l' 0) m]> l') i
  = bitz l (i - k) && (if i / 64 =? len l - 1 then Z.testbit m (i mod 64) else true).
Proof.
  intros Hl Hk Hi l'. assert (len l' = len l) as E by (unfold len, l'; by rewrite lsh_loop_length).
  rewrite bitz_mask, E by lia. unfold l'. by rewrite bitz_lsh_loop.
Qed.

Lemma mem_lsh b k i :
  wf b → good_size (nbits b) = true → 0 <= k → 0 <= i →
  mem (lsh b k) i = (i <? nbits b) && (k <=? i) && mem b (i - k).
Proof.
  intros Hb Hg Hk Hi. pose proof (nbits_le_len b Hb). destruct (Hb) as [Hlen Hw Hp Hm].
  rewrite (bit_bitz (lsh b k)), nbits_lsh by eauto using wf_lsh.
  destruct (Z.ltb_spec i (nbits b)); [simpl|done].
  destruct (Z.leb_spec k i); simpl.
  2: { unfold lsh. destruct (Z.eqb_spec k 0); [lia|]. cbn [bits].
       rewrite lsh_mask, bitz_neg by lia || done. done. }
  rewrite bit_bitz by lia || done. destruct (Z.ltb_spec (i - k) (nbits b)); [simpl|lia].
  unfold lsh. destruct (Z.eqb_spec k 0) as [->|]; [by rewrite Z.sub_0_r|]. cbn [bits].
  rewrite lsh_mask by lia || done.
  destruct (Z.eqb_spec (i / 64) (len (bits b) - 1)) as [E|]; [|by rewrite andb_true_r].
  rewrite Hm, msb_mask_keeps by (lia || done). by rewrite andb_true_r.
Qed.

End Fbi.

Lemma good_size_pos n : Fbi.good_size n = true → 0 < n.
Proof. unfold Fbi.good_size. rewrite andb_true_iff, Z.ltb_lt. tauto. Qed.

(** * A window over a history

    The mask of a detector whose head is [h] shows, at offset [i], whether
    [h - i] has been accepted. *)
Record window_of (window h : Z) (hist : list Z) (m : Fbi.FixedBigInt) : Prop := {
  win_wf : Fbi.wf m;
  win_nbits : Fbi.nbits m = window;
  win_mem : ∀ i, 0 <= i < window → Fbi.mem m i = bool_decide (h - i ∈ hist);
  win_le : ∀ e, e ∈ hist → e <= h;
}.

Lemma window_empty window h m :
  Fbi.wf m → Fbi.nbits m = window → (∀ i, 0 <= i < window → Fbi.mem m i = false) →
  window_of window h [] m.
Proof. intros. split; try done. set_solver. Qed.

Lemma window_new window h : 0 < window → window_of window h [] (Fbi.new window).
Proof. intros. apply window_empty; [by apply Fbi.wf_new|done|]. intros. apply Fbi.mem_new; lia. Qed.

(** An empty history does not depend on the head. *)
Lemma window_rebase window h h' m : window_of window h [] m → window_of window h' [] m.
Proof. intros [Hwf Hn Hm _]. by apply window_empty. Qed.

(** Moving the head up by [k] and recording it. *)
Lemma window_advance window h hist m k :
  Fbi.good_size window = true → window_of window h hist m → 0 < k →
  window_of window (h + k) (h + k :: hist) (Fbi.set_bit (Fbi.lsh m k) 0).
Proof.
  intros Hg [Hwf Hn Hm Hle] Hk. pose proof (good_size_pos _ Hg). split.
  - auto using Fbi.wf_set_bit, Fbi.wf_lsh with lia.
  - by rewrite Fbi.nbits_set_bit, Fbi.nbits_lsh.
  - intros i Hi. rewrite Fbi.mem_set_bit, Fbi.mem_lsh, Fbi.nbits_lsh, Hn by
      (rewrite ?Hn; auto using Fbi.wf_lsh with lia).
    destruct (Z.ltb_spec 0 window), (Z.ltb_spec i window); try lia. rewrite andb_true_r. simpl.
    destruct (Z.eqb_spec i 0) as [->|]; simpl.
    { symmetry. apply bool_decide_eq_true_2. rewrite Z.sub_0_r. by left. }
    rewrite bool_decide_cons_ne by lia. destruct (Z.leb_spec k i); simpl.
    + rewrite Hm by lia. by replace (h - (i - k)) with (h + k - i) by lia.
    + symmetry. apply bool_decide_eq_false_2. intros ?%Hle. lia.
  - intros e [->|?%Hle]%elem_of_cons; lia.
Qed.

(** Recording a number [j] places below the head. *)
Lemma window_record window h hist m j :
  window_of window h hist m → 0 <= j < window →
  window_of window h (h - j :: hist) (Fbi.set_bit m j).
Proof.
  intros [Hwf Hn Hm Hle] Hj. split.
  - auto using Fbi.wf_set_bit with lia.
  - by rewrite Fbi.nbits_set_bit.
  - intros i Hi. rewrite Fbi.mem_set_bit, Hn, Hm by (done || lia).
    destruct (Z.ltb_spec j window); [|lia]. rewrite andb_true_r.
    destruct (Z.eqb_spec i j) as [->|]; simpl.
    + symmetry. apply bool_decide_eq_true_2. by left.
    + by rewrite bool_decide_cons_ne by lia.
  - intros e [->|?%Hle]%elem_of_cons; lia.
Qed.

(** * The trait [ReplayDetector]

    [check] answers whether a number is fresh and remembers it as pending;
    [accept] commits the pending number (after authentication succeeded). *)
Class ReplayDetector (D : Type) := {
  rd_check : D → Z → bool * D;
  rd_accept : D → res D;
}.

(** One received packet: [check], then [accept] when the packet authenticates. *)
Definition receive `{ReplayDetector D} (d : D) (s : Z) (auth : bool) : res (bool * D) :=
  let '(fresh, d) := rd_check d s in
  if fresh && auth then (let! d := rd_accept d in Ok (true, d)) else Ok (false, d).

(** A run over a packet sequence, returning what was accepted, oldest first. *)
Fixpoint receive_all `{ReplayDetector D} (d : D) (ps : list (Z * bool)) : res (list Z * D) :=
  match ps with
  | [] => Ok ([], d)
  | (s, auth) :: ps =>
      let! (ok, d) := receive d s auth in
      let! (acc, d) := receive_all d ps in
      Ok (if ok then s :: acc else acc, d)
  end.

(** * [SlidingWindowDetector] *)
Module Sliding.

Record SlidingWindowDetector := mkSliding {
  accepted : bool;
  seq : Z;
  latest_seq : Z;
  max_seq : Z;
  window_size : Z;
  mask : Fbi.FixedBigInt
}.

Definition new (window_size max_seq : Z) : SlidingWindowDetector :=
  mkSliding false 0 0 max_seq window_size (Fbi.new window_size).

Definition set_accepted (d : SlidingWindowDetector) (a : bool) : SlidingWindowDetector :=
  mkSliding a (seq d) (latest_seq d) (max_seq d) (window_size d) (mask d).

Definition check (d : SlidingWindowDetector) (s : Z) : bool * SlidingWindowDetector :=
  let d := set_accepted d false in
  if max_seq d <? s then (false, d)
  else if (s <=? latest_seq d) && (u64 (window_size d + s) <=? latest_seq d) then (false, d)
  else if (s <=? latest_seq d) && negb (Fbi.bit (mask d) (latest_seq d - s) =? 0) then (false, d)
  else (true, mkSliding true s (latest_seq d) (max_seq d) (window_size d) (mask d)).

Definition accept (d : SlidingWindowDetector) : res SlidingWindowDetector :=
  if negb (accepted d) then Ok d
  else
    let '(latest, m) :=
      if latest_seq d <? seq d
      then (seq d, Fbi.lsh (mask d) (seq d - latest_seq d))
      else (latest_seq d, mask d) in
    assert_ (negb (max_seq d =? 0)) (
      let diff := (latest - seq d) mod max_seq d in
      Ok (mkSliding (accepted d) (seq d) latest (max_seq d) (window_size d)
            (Fbi.set_bit m diff))).

#[global] Instance sliding_detector : ReplayDetector SlidingWindowDetector :=
  {| rd_check := check; rd_accept := accept |}.

(** ** Specification: a window over the set of all accepted numbers *)

(** The verdict of a detector that remembers everything it accepted. *)
Definition fresh_spec (window max : Z) (latest : Z) (hist : list Z) (s : Z) : bool :=
  (s <=? max) && ((latest <? s) || ((latest - s <? window) && negb (bool_decide (s ∈ hist)))).

(** The run of that detector from [latest] and [hist]: the accepted numbers. *)
Fixpoint spec_run (window max latest : Z) (hist : list Z) (ps : list (Z * bool)) : list Z :=
  match ps with
  | [] => []
  | (s, auth) :: ps =>
      if fresh_spec window max latest hist s && auth
      then s :: spec_run window max (Z.max latest s) (s :: hist) ps
      else spec_run window max latest hist ps
  end.

(** [d] represents the history [hist] of accepted numbers. *)
Record repr (window max : Z) (d : SlidingWindowDetector) (hist : list Z) : Prop := {
  r_window : window_size d = window;
  r_max : max_seq d = max;
  r_latest : 0 <= latest_seq d <= max;
  r_win : window_of window (latest_seq d) hist (mask d);
}.

Section Spec.
Context (window max : Z).
Hypothesis window_good : Fbi.good_size window = true.
Hypothesis window_max : window <= max.
Hypothesis no_overflow : window + max < 2 ^ 64.

Let window_pos : 0 < window := good_size_pos window window_good.

Lemma sliding_repr_new : repr window max (new window max) [].
Proof. split; simpl; try done; [lia|]. by apply window_new. Qed.

Lemma sliding_check_verdict d hist s :
  repr window max d hist → 0 <= s →
  fst (check d s) = fresh_spec window max (latest_seq d) hist s.
Proof.
  intros [Hw Hx Hl [_ _ Hm _]] Hs. unfold check, fresh_spec. simpl. rewrite Hw, Hx.
  rewrite (Z.ltb_antisym s max).
  destruct (Z.leb_spec s max); simpl; [|done].
  rewrite (Z.ltb_antisym s (latest_seq d)).
  destruct (Z.leb_spec s (latest_seq d)); simpl; [|done].
  rewrite wrap_small by (unfold fits; lia).
  destruct (Z.leb_spec (window + s) (latest_seq d)), (Z.ltb_spec (latest_seq d - s) window);
    try lia; [done|]. simpl.
  pose proof (Hm (latest_seq d - s)) as E. unfold Fbi.mem in E. rewrite E by lia.
  replace (latest_seq d - (latest_seq d - s)) with s by lia.
  by destruct (bool_decide (s ∈ hist)).
Qed.

Lemma sliding_check_repr d hist s : repr window max d hist → repr window max (snd (check d s)) hist.
Proof.
  intros [Hw Hx Hl Hwin]. unfold check.
  repeat case_match; split; simpl; done.
Qed.

Lemma sliding_check_false d s : fst (check d s) = false → accepted (snd (check d s)) = false.
Proof. unfold check. by repeat case_match. Qed.

Lemma sliding_check_true d s :
  fst (check d s) = true →
  snd (check d s) = mkSliding true s (latest_seq d) (max_seq d) (window_size d) (mask d).
Proof. unfold check. by repeat case_match. Qed.

Lemma sliding_accept_repr d hist s :
  repr window max d hist → 0 <= s → fst (check d s) = true →
  ∃ d', accept (snd (check d s)) = Ok d' ∧ repr window max d' (s :: hist) ∧
        latest_seq d' = Z.max (latest_seq d) s.
Proof.
  intros Hr Hs Hc. rewrite (sliding_check_true _ _ Hc).
  rewrite (sliding_check_verdict _ _ _ Hr Hs) in Hc. unfold fresh_spec in Hc.
  rewrite andb_true_iff, orb_true_iff, andb_true_iff, Z.leb_le, !Z.ltb_lt in Hc.
  destruct Hc as [Hsm Hc], Hr as [Hw Hx Hl Hwin].
  unfold accept. simpl. rewrite Hx. destruct (Z.eqb_spec max 0); [lia|]. simpl.
  destruct (Z.ltb_spec (latest_seq d) s); simpl; (eexists; split; [done|]);
    (split; [|simpl; lia]); rewrite ?Z.sub_diag, Z.mod_small by lia;
    split; simpl; try done; try lia.
  - replace s with (latest_seq d + (s - latest_seq d)) at 1 2 by lia.
    apply window_advance; done || lia.
  - replace s with (latest_seq d - (latest_seq d - s)) at 1 by lia.
    apply window_record; done || lia.
Qed.

(** A received packet extends the represented history exactly by the numbers
    the specification calls fresh. *)
Lemma sliding_receive_refines d hist s auth :
  repr window max d hist → 0 <= s →
  ∃ d', receive d s auth = Ok (fresh_spec window max (latest_seq d) hist s && auth, d') ∧
        if fresh_spec window max (latest_seq d) hist s && auth
        then repr window max d' (s :: hist) ∧ latest_seq d' = Z.max (latest_seq d) s
        else repr window max d' hist ∧ latest_seq d' = latest_seq d.
Proof.
  intros Hr Hs. pose proof (sliding_check_verdict d hist s Hr Hs) as Hv.
  pose proof (sliding_check_repr d hist s Hr) as Hk.
  unfold receive. simpl. destruct (check d s) as [fr d1] eqn:E. simpl in *. rewrite <- Hv.
  destruct (fr && auth) eqn:Ea.
  - apply andb_true_iff in Ea as [-> ->].
    destruct (sliding_accept_repr d hist s Hr Hs) as (d' & Hacc & Hrep & Hlat); [by rewrite E|].
    rewrite E in Hacc. simpl in Hacc. rewrite Hacc. simpl. eauto.
  - eexists. split; [done|]. split; [done|].
    unfold check in E. by repeat case_match; simplify_eq.
Qed.

Lemma sliding_receive_all_refines d hist ps :
  repr window max d hist → Forall (λ p, 0 <= p.1) ps →
  ∃ d', receive_all d ps = Ok (spec_run window max (latest_seq d) hist ps, d').
Proof.
  revert d hist. induction ps as [|[s auth] ps IH]; intros d hist Hr Hps; simpl; [eauto|].
  apply Forall_cons in Hps as [Hs Hps]. simpl in Hs.
  destruct (sliding_receive_refines d hist s auth Hr Hs) as (d1 & -> & Hd1). simpl.
  destruct (fresh_spec window max (latest_seq d) hist s && auth);
    destruct Hd1 as [Hr1 Hl1]; destruct (IH d1 _ Hr1 Hps) as [d2 E2];
    rewrite E2; simpl; rewrite Hl1; eauto.
Qed.

(** Nothing the specification accepts was accepted before. *)
Lemma sliding_spec_run_fresh latest hist ps :
  (∀ e, e ∈ hist → e <= latest) → NoDup hist →
  NoDup (spec_run window max latest hist ps) ∧
  ∀ s, s ∈ spec_run window max latest hist ps → s ∉ hist.
Proof.
  clear window_good window_max no_overflow window_pos.
  revert latest hist. induction ps as [|[s auth] ps IH]; intros latest hist Hle Hnd; simpl.
  { split; [constructor|set_solver]. }
  destruct (fresh_spec window max latest hist s && auth) eqn:E; [|by apply IH].
  apply andb_true_iff in E as [E _]. unfold fresh_spec in E.
  rewrite andb_true_iff, orb_true_iff, andb_true_iff, Z.ltb_lt in E.
  assert (s ∉ hist) as Hs.
  { destruct E as [_ [?|[_ E]]]; [intros ?%Hle; lia|]. by case_bool_decide. }
  destruct (IH (Z.max latest s) (s :: hist)) as [IH1 IH2].
  - intros e [->|?%Hle]%elem_of_cons; lia.
  - by constructor.
  - by apply NoDup_fresh_cons.
Qed.
End Spec.
End Sliding.

(** * [WrappedSlidingWindowDetector] *)
Module Wrapped.

Record WrappedSlidingWindowDetector := mkWrapped {
  accepted : bool;
  seq : Z;
  latest_seq : Z;
  max_seq : Z;
  window_size : Z;
  mask : Fbi.FixedBigInt;
  init : bool
}.

Definition new (window_size max_seq : Z) : WrappedSlidingWindowDetector :=
  mkWrapped false 0 0 max_seq window_size (Fbi.new window_size) false.

(** The signed distance from [seq] to the head, wrapped: written out both in
    [check] and in [accept]. *)
Definition wrapped_diff (max latest s : Z) : Z :=
  let diff := i64 (i64 latest - i64 s) in
  if Z.quot (i64 max) 2 <? diff then i64 (diff - i64 (u64 (max + 1)))
  else if diff <=? - Z.quot (i64 max) 2 then i64 (diff + i64 (u64 (max + 1)))
  else diff.

Definition check (d : WrappedSlidingWindowDetector) (s : Z) : bool * WrappedSlidingWindowDetector :=
  let '(mkWrapped _ sq latest max window m ini) := d in
  if max <? s then (false, mkWrapped false sq latest max window m ini)
  else
    let latest := if ini then latest else if negb (s =? 0) then s - 1 else max in
    let diff := wrapped_diff max latest s in
    if i64 window <=? diff then (false, mkWrapped false sq latest max window m true)
    else if (0 <=? diff) && negb (Fbi.bit m diff =? 0)
    then (false, mkWrapped false sq latest max window m true)
    else (true, mkWrapped true s latest max window m true).

Definition accept (d : WrappedSlidingWindowDetector) : res WrappedSlidingWindowDetector :=
  let '(mkWrapped acc sq latest max window m ini) := d in
  if negb acc then Ok d
  else
    let diff := wrapped_diff max latest sq in
    assert_ (diff <? i64 window) (
      if diff <? 0
      then Ok (mkWrapped acc sq sq max window (Fbi.set_bit (Fbi.lsh m (- diff)) 0) ini)
      else Ok (mkWrapped acc sq latest max window (Fbi.set_bit m diff) ini)).

#[global] Instance wrapped_detector : ReplayDetector WrappedSlidingWindowDetector :=
  {| rd_check := check; rd_accept := accept |}.

(** ** Specification over unwrapped indices

    A sequence number modulo [max + 1] is read as the extended index that the
    wrapped distance assigns to it relative to the highest accepted index
    [head]; the specification never forgets an index. *)

Definition wdiff (max latest s : Z) : Z :=
  let diff := latest - s in
  if max / 2 <? diff then diff - (max + 1)
  else if diff <=? - (max / 2) then diff + (max + 1) else diff.

Record spec_state := mkSpec { head : option Z; hist : list Z }.

Definition base (st : spec_state) (s : Z) : Z := match head st with Some h => h | None => s - 1 end.

(** The extended index of [s]. *)
Definition extend (max : Z) (st : spec_state) (s : Z) : Z :=
  base st s - wdiff max (base st s mod (max + 1)) s.

Definition spec_fresh (window max : Z) (st : spec_state) (s : Z) : bool :=
  (s <=? max) && (base st s - window <? extend max st s)
  && negb (bool_decide (extend max st s ∈ hist st)).

(** [check] fixes the head on the first number; [accept] records the index. *)
Definition spec_receive (window max : Z) (st : spec_state) (s : Z) (auth : bool) :
    option Z * spec_state :=
  let st' := if s <=? max then mkSpec (Some (base st s)) (hist st) else st in
  let e := extend max st s in
  if spec_fresh window max st s && auth
  then (Some e, mkSpec (Some (Z.max (base st s) e)) (e :: hist st))
  else (None, st').

(** The run of the specification: the extended index of each accepted packet. *)
Fixpoint spec_run (window max : Z) (st : spec_state) (ps : list (Z * bool)) : list Z :=
  match ps with
  | [] => []
  | (s, auth) :: ps =>
      match spec_receive window max st s auth with
      | (Some e, st) => e :: spec_run window max st ps
      | (None, st) => spec_run window max st ps
      end
  end.

Record repr (window max : Z) (d : WrappedSlidingWindowDetector) (st : spec_state) : Prop := {
  r_window : window_size d = window;
  r_max : max_seq d = max;
  r_init : init d = bool_decide (is_Some (head st));
  r_latest : ∀ h, head st = Some h → latest_seq d = h mod (max + 1);
  r_hist : head st = None → hist st = [];
  r_win : window_of window (default 0 (head st)) (hist st) (mask d);
}.

Section Spec.
Context (window max : Z).
Hypothesis window_good : Fbi.good_size window = true.
Hypothesis window_small : window < 2 ^ 62.
Hypothesis max_range : 4 <= max < 2 ^ 62.

Let window_pos : 0 < window := good_size_pos window window_good.

Lemma wrapped_diff_eq latest s :
  0 <= latest <= max → 0 <= s <= max → wrapped_diff max latest s = wdiff max latest s.
Proof.
  intros Hl Hs. unfold wrapped_diff, wdiff.
  rewrite (wrap_small 64 (max + 1)) by (unfold fits; lia).
  rewrite !(signed_small 64 latest), !(signed_small 64 s), !(signed_small 64 max),
    !(signed_small 64 (max + 1)), !(signed_small 64 (latest - s)) by lia.
  rewrite Z.quot_div_nonneg by lia. pose proof (Z.div_pos max 2).
  repeat case_match; rewrite ?signed_small; lia.
Qed.

Lemma wdiff_congr latest s : ∃ k, wdiff max latest s = latest - s + k * (max + 1).
Proof.
  unfold wdiff. repeat case_match; [exists (-1)|exists 1|exists 0]; lia.
Qed.

Lemma wdiff_first s : 0 <= s <= max → wdiff max ((s - 1) mod (max + 1)) s = -1.
Proof.
  intros Hs. unfold wdiff. pose proof (Z.div_le_lower_bound max 2 2).
  assert (max / 2 < max) by (apply Z.div_lt; lia).
  destruct (Z.eq_dec s 0) as [->|].
  - replace ((0 - 1) mod (max + 1)) with max by (apply Z.mod_unique with (-1); lia).
    destruct (Z.ltb_spec (max / 2) (max - 0)); lia.
  - rewrite Z.mod_small by lia.
    destruct (Z.ltb_spec (max / 2) (s - 1 - s)); [lia|].
    destruct (Z.leb_spec (s - 1 - s) (- (max / 2))); lia.
Qed.

(** The extended index is congruent to the number on the wire. *)
Lemma extend_mod st s : 0 <= s <= max → extend max st s mod (max + 1) = s.
Proof.
  intros Hs. unfold extend. set (b := base st s).
  destruct (wdiff_congr (b mod (max + 1)) s) as [k ->].
  rewrite (Z_div_mod_eq_full b (max + 1)) at 1.
  replace (_ - _) with (s + (b / (max + 1) - k) * (max + 1)) by lia.
  rewrite Z.mod_add by lia. apply Z.mod_small. lia.
Qed.

Lemma extend_first st s : head st = None → 0 <= s <= max → extend max st s = s.
Proof. intros E Hs. unfold extend, base. rewrite E, wdiff_first by done. lia. Qed.

Lemma wrapped_repr_new : repr window max (new window max) (mkSpec None []).
Proof.
  split; simpl; try done. by apply window_new.
Qed.

Lemma check_latest d st s :
  repr window max d st → 0 <= s <= max →
  (if init d then latest_seq d else if negb (s =? 0) then s - 1 else max)
  = base st s mod (max + 1).
Proof.
  intros Hr Hs. rewrite (r_init _ _ _ _ Hr). unfold base.
  destruct (head st) as [h|] eqn:E; simpl.
  - by rewrite (r_latest _ _ _ _ Hr h E).
  - destruct (Z.eqb_spec s 0) as [->|]; simpl.
    + apply Z.mod_unique with (-1); lia.
    + by rewrite Z.mod_small by lia.
Qed.

Lemma base_window d st s :
  repr window max d st → window_of window (base st s) (hist st) (mask d).
Proof.
  intros Hr. pose proof (r_win _ _ _ _ Hr) as Hwin. unfold base.
  destruct (head st) eqn:E; [done|]. rewrite (r_hist _ _ _ _ Hr E) in *.
  by eapply window_rebase.
Qed.

Lemma wrapped_check_spec d st s :
  repr window max d st → 0 <= s →
  let fresh := spec_fresh window max st s in
  check d s =
    (fresh, mkWrapped fresh (if fresh then s else seq d)
              (if s <=? max then base st s mod (max + 1) else latest_seq d)
              max window (mask d) ((s <=? max) || init d)).
Proof.
  intros Hr Hs. cbv zeta. pose proof (check_latest d st s Hr) as Hlat.
  destruct (base_window d st s Hr) as [_ _ Hmask Hh].
  unfold spec_fresh, check. pose proof (r_window _ _ _ _ Hr) as Hw.
  pose proof (r_max _ _ _ _ Hr) as Hx.
  destruct d as [a sq lt mx wd m ini]. simpl in *. subst mx wd. rewrite Z.ltb_antisym.
  destruct (Z.leb_spec s max); simpl; [|done]. rewrite Hlat by lia.
  set (b := base st s). pose proof (Z.mod_pos_bound b (max + 1)).
  rewrite wrapped_diff_eq by lia. unfold extend. fold b.
  set (df := wdiff max (b mod (max + 1)) s). rewrite signed_small by lia.
  rewrite (Z.ltb_antisym _ (b - window)).
  replace (b - df <=? b - window) with (window <=? df)
    by (apply eq_true_iff_eq; rewrite !Z.leb_le; lia).
  destruct (Z.leb_spec window df); simpl; [done|].
  destruct (Z.leb_spec 0 df); simpl.
  - specialize (Hmask df). unfold Fbi.mem in Hmask. rewrite Hmask by lia. fold b.
    by destruct (bool_decide (b - df ∈ hist st)).
  - rewrite bool_decide_eq_false_2; [done|]. intros ?%Hh. unfold b in *. lia.
Qed.

Lemma wrapped_receive_refines d st s auth :
  repr window max d st → 0 <= s →
  let '(e, st') := spec_receive window max st s auth in
  ∃ d', receive d s auth = Ok (bool_decide (is_Some e), d') ∧ repr window max d' st'.
Proof.
  intros Hr Hs. unfold spec_receive, receive. simpl. rewrite (wrapped_check_spec d st s Hr Hs).
  destruct (base_window d st s Hr) as [_ _ _ Hle]. pose proof (base_window d st s Hr) as Hwin.
  destruct (spec_fresh window max st s) eqn:Ef; simpl.
  2: { eexists. split; [done|]. destruct (Z.leb_spec s max); simpl.
       - split; simpl; try done. by intros ? [= <-].
       - destruct Hr as [Hw Hx Hi Hla Hh Hm]. by split. }
  unfold spec_fresh in Ef. rewrite !andb_true_iff, Z.leb_le, Z.ltb_lt in Ef.
  destruct Ef as [[Hsm He] Hnin]. destruct (Z.leb_spec s max); [|lia].
  destruct auth; simpl.
  2: { eexists. split; [done|]. split; simpl; try done. by intros ? [= <-]. }
  pose proof (Z.mod_pos_bound (base st s) (max + 1)).
  rewrite wrapped_diff_eq by lia. pose proof (extend_mod st s) as Hmod.
  assert (wdiff max (base st s mod (max + 1)) s = base st s - extend max st s) as ->
    by (unfold extend; lia).
  rewrite signed_small by lia. set (e := extend max st s) in *. set (b := base st s) in *.
  destruct (Z.ltb_spec (b - e) window); [simpl|lia].
  destruct (Z.ltb_spec (b - e) 0); (eexists; split; [done|]); split; simpl; try done.
  - intros ? [= <-]. rewrite Z.max_r by lia. symmetry. apply Hmod. lia.
  - rewrite Z.max_r by lia. replace (- (b - e)) with (e - b) by lia.
    replace e with (b + (e - b)) at 1 2 by lia. apply window_advance; done || lia.
  - intros ? [= <-]. by rewrite Z.max_l by lia.
  - rewrite Z.max_l by lia. replace e with (b - (b - e)) at 1 by lia.
    apply window_record; done || lia.
Qed.

Lemma spec_receive_mod st s auth e st' :
  spec_receive window max st s auth = (Some e, st') → 0 <= s → e mod (max + 1) = s.
Proof.
  unfold spec_receive, spec_fresh. intros E Hs.
  destruct (Z.leb_spec s max); simpl in E; [|done].
  destruct (_ && auth); simplify_eq. apply extend_mod. lia.
Qed.

Lemma wrapped_receive_all_refines d st ps :
  repr window max d st → Forall (λ p, 0 <= p.1) ps →
  ∃ d', receive_all d ps = Ok ((λ e, e mod (max + 1)) <$> spec_run window max st ps, d').
Proof.
  revert d st. induction ps as [|[s auth] ps IH]; intros d st Hr Hps; simpl; [eauto|].
  apply Forall_cons in Hps as [Hs Hps]. simpl in Hs.
  pose proof (wrapped_receive_refines d st s auth Hr Hs) as Hd.
  pose proof (spec_receive_mod st s auth) as Hmod.
  destruct (spec_receive window max st s auth) as [[e|] st'];
    destruct Hd as (d1 & -> & Hr1); simpl; destruct (IH d1 st' Hr1 Hps) as [d2 ->]; simpl; eauto.
  rewrite (Hmod e st' eq_refl Hs). eauto.
Qed.

Lemma spec_receive_hist st s auth e st' :
  spec_receive window max st s auth = (Some e, st') → (e ∉ hist st) ∧ hist st' = e :: hist st.
Proof.
  clear window_good window_small max_range window_pos.
  unfold spec_receive, spec_fresh. intros E.
  destruct (_ && auth) eqn:Ef; simplify_eq. split; [|done].
  rewrite !andb_true_iff in Ef. destruct Ef as [[_ Ef] _]. by case_bool_decide.
Qed.

Lemma wrapped_spec_run_fresh st ps :
  NoDup (hist st) →
  NoDup (spec_run window max st ps) ∧ ∀ e, e ∈ spec_run window max st ps → e ∉ hist st.
Proof.
  clear window_good window_small max_range window_pos.
  revert st. induction ps as [|[s auth] ps IH]; intros st Hnd; simpl.
  { split; [constructor|set_solver]. }
  destruct (spec_receive window max st s auth) as [[e|] st'] eqn:E.
  - apply spec_receive_hist in E as [He Eh]. destruct (IH st') as [IH1 IH2].
    { rewrite Eh. by constructor. }
    rewrite Eh in IH2. by apply NoDup_fresh_cons.
  - unfold spec_receive in E. destruct (_ && auth); [done|].
    destruct (s <=? max); simplify_eq; [apply (IH (mkSpec _ (hist st)) Hnd)|by apply IH].
Qed.
End Spec.
End Wrapped.

(** * Properties *)

(** C5: let the size of the window be such that the bit mask loses no bits, that is
    [window mod 64 <= 32] (so for the default of 64; [window_100_accepts_replay]
    shows what happens otherwise), at most the largest number, and their sum below
    2^64.  Run on any packet sequence, the bit-mask sliding window of DTLS then accepts
    exactly what a detector accepts that remembers every number it ever
    accepted and refuses numbers [window] or more below the highest; it never
    panics. *)
Theorem sliding_run_refines window max ps :
  Fbi.good_size window = true → window <= max → window + max < 2 ^ 64 →
  Forall (λ p, 0 <= p.1) ps →
  ∃ d, receive_all (Sliding.new window max) ps = Ok (Sliding.spec_run window max 0 [] ps, d).
Proof.
  intros Hg Hw Ho Hps.
  apply (Sliding.sliding_receive_all_refines _ _ Hg Hw Ho (Sliding.new window max) [] ps); [|done].
  by apply Sliding.sliding_repr_new.
Qed.

(** The sliding window never accepts the same sequence number twice,
    whatever is sent to it. *)
Theorem sliding_no_replay window max ps acc d :
  Fbi.good_size window = true → window <= max → window + max < 2 ^ 64 →
  Forall (λ p, 0 <= p.1) ps →
  receive_all (Sliding.new window max) ps = Ok (acc, d) → NoDup acc.
Proof.
  intros Hg Hw Ho Hps E.
  destruct (Sliding.sliding_receive_all_refines _ _ Hg Hw Ho (Sliding.new window max) [] ps) as [d' E'];
    [by apply Sliding.sliding_repr_new|done|].
  rewrite E in E'. injection E' as -> ->.
  eapply (Sliding.sliding_spec_run_fresh window max 0 [] ps); [set_solver|constructor].
Qed.

(** C6: let the size of the window be such that the bit mask loses no bits, that is
    [window mod 64 <= 32] (so for the default of 64), and below 2^62, as is the
    largest number, which is 4 at least.  The wrapping window of SRTP and SRTCP then
    accepts exactly the packets whose extended index is in the window and new, over any
    packet sequence with any number of sequence-number wraps; it never panics. *)
Theorem wrapped_run_refines window max ps :
  Fbi.good_size window = true → window < 2 ^ 62 → 4 <= max < 2 ^ 62 →
  Forall (λ p, 0 <= p.1) ps →
  ∃ d, receive_all (Wrapped.new window max) ps
       = Ok ((λ e, e mod (max + 1)) <$> Wrapped.spec_run window max (Wrapped.mkSpec None []) ps, d).
Proof.
  intros Hg Hw Hm Hps.
  apply (Wrapped.wrapped_receive_all_refines _ _ Hg Hw Hm (Wrapped.new window max)); [|done].
  by apply Wrapped.wrapped_repr_new.
Qed.

(** The extended indices the wrapping window accepts are pairwise different,
    so a sequence number is accepted again only a full cycle later. *)
Theorem wrapped_no_replay window max ps acc d :
  Fbi.good_size window = true → window < 2 ^ 62 → 4 <= max < 2 ^ 62 →
  Forall (λ p, 0 <= p.1) ps →
  receive_all (Wrapped.new window max) ps = Ok (acc, d) →
  ∃ idx, NoDup idx ∧ acc = (λ e, e mod (max + 1)) <$> idx.
Proof.
  intros Hg Hw Hm Hps E.
  destruct (Wrapped.wrapped_receive_all_refines _ _ Hg Hw Hm (Wrapped.new window max) (Wrapped.mkSpec None []) ps)
    as [d' E']; [by apply Wrapped.wrapped_repr_new|done|].
  rewrite E in E'. injection E' as -> ->. eexists. split; [|done].
  apply (Wrapped.wrapped_spec_run_fresh window max (Wrapped.mkSpec None []) ps). constructor.
Qed.

(** With a window of 100 packets the mask of the most significant word drops
    the bits above 28 of it on every shift, and a replayed packet is accepted. *)
Theorem window_100_accepts_replay :
  ∃ d, receive_all (Sliding.new 100 (2 ^ 48 - 1)) [(0, true); (95, true); (0, true)]
       = Ok ([0; 95; 0], d).
Proof. eexists. vm_compute. reflexivity. Qed.


(** An unauthenticated first packet fixes the head of the wrapping window:
    every genuine packet from 64 to 20000 numbers below it is then refused as
    too old, although nothing has been accepted yet. *)
Theorem forged_first_packet_blocks s :
  20000 <= s <= 39935 →
  ∃ d, receive_all (Wrapped.new 64 65535) [(40000, false); (s, true)] = Ok ([], d).
Proof.
  intros Hs.
  destruct (Wrapped.wrapped_receive_all_refines 64 65535 eq_refl ltac:(lia) ltac:(lia)
              (Wrapped.new 64 65535) (Wrapped.mkSpec None []) [(40000, false); (s, true)])
    as [d E]; [by apply Wrapped.wrapped_repr_new|repeat constructor; simpl; lia|].
  exists d. rewrite E. cbn [Wrapped.spec_run].
  replace (Wrapped.spec_receive 64 65535 (Wrapped.mkSpec None []) 40000 false)
    with (@None Z, Wrapped.mkSpec (Some 39999) []) by reflexivity.
  assert (Wrapped.spec_fresh 64 65535 (Wrapped.mkSpec (Some 39999) []) s = false) as Hf.
  { unfold Wrapped.spec_fresh, Wrapped.extend, Wrapped.wdiff, Wrapped.base.
    cbn [Wrapped.head Wrapped.hist]. change (65535 / 2) with 32767.
    change (39999 mod (65535 + 1)) with 39999.
    destruct (Z.ltb_spec 32767 (39999 - s)), (Z.leb_spec (39999 - s) (Z.opp 32767)); try lia. }
  unfold Wrapped.spec_receive. by rewrite Hf.
Qed.

(** ** The hypotheses hold on concrete inputs *)

Definition sample_packets : list (Z * bool) :=
  [(10, true); (8, true); (10, true); (9, false); (9, true); (200, true); (8, true)].

Lemma sliding_run_refines_witness :
  ∃ d, receive_all (Sliding.new 64 (2 ^ 48 - 1)) sample_packets
       = Ok (Sliding.spec_run 64 (2 ^ 48 - 1) 0 [] sample_packets, d).
Proof.
  apply (sliding_run_refines 64 (2 ^ 48 - 1) sample_packets);
    [reflexivity|lia|lia|repeat constructor; simpl; lia].
Defined.

Lemma sliding_no_replay_witness : NoDup [10; 8; 9; 200].
Proof.
  eapply (sliding_no_replay 64 (2 ^ 48 - 1) sample_packets [10; 8; 9; 200]);
    [reflexivity|lia|lia|repeat constructor; simpl; lia|vm_compute; reflexivity].
Defined.

Definition wrap_packets : list (Z * bool) :=
  [(65534, true); (0, true); (65535, true); (1, true); (65535, true); (0, true)].

Lemma wrapped_run_refines_witness :
  ∃ d, receive_all (Wrapped.new 64 65535) wrap_packets
       = Ok ((λ e, e mod (65535 + 1)) <$>
             Wrapped.spec_run 64 65535 (Wrapped.mkSpec None []) wrap_packets, d).
Proof.
  apply (wrapped_run_refines 64 65535 wrap_packets);
    [reflexivity|lia|lia|repeat constructor; simpl; lia].
Defined.

Lemma wrapped_no_replay_witness :
  ∃ idx, NoDup idx ∧ [65534; 0; 65535; 1] = (λ e, e mod (65535 + 1)) <$> idx.
Proof.
  eapply (wrapped_no_replay 64 65535 wrap_packets [65534; 0; 65535; 1]);
    [reflexivity|lia|lia|repeat constructor; simpl; lia|vm_compute; reflexivity].
Defined.

Lemma forged_first_packet_blocks_witness :
  ∃ d, receive_all (Wrapped.new 64 65535) [(40000, false); (30000, true)] = Ok ([], d).
Proof. apply (forged_first_packet_blocks 30000). lia. Defined.
