(* ===== verification/RtpHeader.v ===== *)
(** The RTP packet header of [rtc-rtp/src/header.rs]: its wire format
    ([unmarshal], [marshal_to], [marshal_size]) and the header extension
    operations ([set_extension], [get_extension], [del_extension]). *)

From S2P Require Import Prelude.

Definition HEADER_LENGTH : Z := 4.
Definition EXTENSION_PROFILE_ONE_BYTE : Z := 0xBEDE.
Definition EXTENSION_PROFILE_TWO_BYTE : Z := 0x1000.
Definition EXTENSION_ID_RESERVED : Z := 0xF.
Definition CSRC_OFFSET : Z := 12.
Definition CSRC_LENGTH : Z := 4.

Record Extension := mkExt { id : Z; payload : bytes }.

Record Header := mkHeader {
  version : Z;
  padding : bool;
  extension : bool;
  marker : bool;
  payload_type : Z;
  sequence_number : Z;
  timestamp : Z;
  ssrc : Z;
  csrc : list Z;
  extension_profile : Z;
  extensions : list Extension;
  extensions_padding : Z
}.

#[export] Instance extension_eq_dec : EqDecision Extension.
Proof. solve_decision. Defined.
#[export] Instance header_eq_dec : EqDecision Header.
Proof. solve_decision. Defined.

(** [Header::default()] *)
Definition default_header : Header :=
  mkHeader 0 false false false 0 0 0 0 [] 0 [] 0.

(** * Wire format *)

Section Codec.
Context {BC : BytesCrate}.

(** [for _ in 0..cc { csrc.push(raw_packet.get_u32()) }] *)
Fixpoint get_csrc (cc : nat) (raw : bytes) : res (list Z * bytes) :=
  match cc with
  | O => Ok ([], raw)
  | S cc =>
      let! (x, raw) := get_u32 raw in
      let! (xs, raw) := get_csrc cc raw in
      Ok (x :: xs, raw)
  end.

(** The RFC 8285 one-byte loop.  Every iteration moves [curr_offset] up, so
    [end - curr_offset] iterations are enough; running out is a [Panic], which
    [unmarshal_no_panic] excludes. *)
Fixpoint one_byte_loop (fuel : nat) (curr_offset end_ pad : Z) (exts : list Extension)
    (raw : bytes) : res (Z * list Extension * bytes) :=
  if curr_offset <? end_ then
    match fuel with
    | O => Panic
    | S fuel =>
        let! (b, raw) := get_u8 raw in
        if b =? 0 then one_byte_loop fuel (curr_offset + 1) end_ (pad + 1) exts raw
        else
          let extid := Z.shiftr b 4 in
          let n := Z.land b (Z.lxor 0xFF 0xF0) + 1 in
          let curr_offset := curr_offset + 1 in
          if extid =? EXTENSION_ID_RESERVED then Ok (pad, exts, raw)
          else if len raw <? n then Err ErrHeaderSizeInsufficientForExtension
          else
            let! (p, raw) := copy_to_bytes n raw in
            one_byte_loop fuel (curr_offset + n) end_ pad (exts ++ [mkExt extid p]) raw
    end
  else Ok (pad, exts, raw).

(** The RFC 8285 two-byte loop. *)
Fixpoint two_byte_loop (fuel : nat) (curr_offset end_ pad : Z) (exts : list Extension)
    (raw : bytes) : res (Z * list Extension * bytes) :=
  if curr_offset <? end_ then
    match fuel with
    | O => Panic
    | S fuel =>
        let! (b, raw) := get_u8 raw in
        if b =? 0 then two_byte_loop fuel (curr_offset + 1) end_ (pad + 1) exts raw
        else
          let extid := b in
          let curr_offset := curr_offset + 1 in
          if end_ <=? curr_offset then Err ErrHeaderSizeInsufficientForExtension
          else
            let! (n, raw) := get_u8 raw in
            let curr_offset := curr_offset + 1 in
            if len raw <? n then Err ErrHeaderSizeInsufficientForExtension
            else
              let! (p, raw) := copy_to_bytes n raw in
              two_byte_loop fuel (curr_offset + n) end_ pad (exts ++ [mkExt extid p]) raw
    end
  else Ok (pad, exts, raw).

(** The extension block: profile, length in words, and the three encodings. *)
Definition get_extensions (raw_packet_len curr_offset : Z) (raw : bytes) :
    res (Z * list Extension * Z * bytes) :=
  if raw_packet_len <? curr_offset + 4 then Err ErrHeaderSizeInsufficientForExtension
  else
    let! (profile, raw) := get_u16 raw in
    let curr_offset := curr_offset + 2 in
    let! (words, raw) := get_u16 raw in
    let extension_length := words * 4 in
    let curr_offset := curr_offset + 2 in
    if raw_packet_len <? curr_offset + extension_length
    then Err ErrHeaderSizeInsufficientForExtension
    else
      let end_ := curr_offset + extension_length in
      let fuel := Z.to_nat extension_length in
      if profile =? EXTENSION_PROFILE_ONE_BYTE then
        let! (pad, exts, raw) := one_byte_loop fuel curr_offset end_ 0 [] raw in
        Ok (profile, exts, pad, raw)
      else if profile =? EXTENSION_PROFILE_TWO_BYTE then
        let! (pad, exts, raw) := two_byte_loop fuel curr_offset end_ 0 [] raw in
        Ok (profile, exts, pad, raw)
      else if raw_packet_len <? curr_offset + extension_length
      then Err ErrHeaderSizeInsufficientForExtension
      else
        let! (p, raw) := copy_to_bytes extension_length raw in
        Ok (profile, [mkExt 0 p], 0, raw).

Definition header_unmarshal (raw : bytes) : res (Header * bytes) :=
  let raw_packet_len := len raw in
  if raw_packet_len <? HEADER_LENGTH then Err ErrHeaderSizeInsufficient
  else
    let! (b0, raw) := get_u8 raw in
    let version := Z.land (Z.shiftr b0 6) 0x3 in
    let padding := 0 <? Z.land (Z.shiftr b0 5) 0x1 in
    let extension := 0 <? Z.land (Z.shiftr b0 4) 0x1 in
    let cc := Z.land b0 0xF in
    let curr_offset := CSRC_OFFSET + cc * CSRC_LENGTH in
    if raw_packet_len <? curr_offset then Err ErrHeaderSizeInsufficient
    else
      let! (b1, raw) := get_u8 raw in
      let marker := 0 <? Z.land (Z.shiftr b1 7) 0x1 in
      let payload_type := Z.land b1 0x7F in
      let! (sequence_number, raw) := get_u16 raw in
      let! (timestamp, raw) := get_u32 raw in
      let! (ssrc, raw) := get_u32 raw in
      let! (csrc, raw) := get_csrc (Z.to_nat cc) raw in
      let! (profile, exts, pad, raw) :=
        (if extension then get_extensions raw_packet_len curr_offset raw
         else Ok (0, [], 0, raw)) in
      Ok (mkHeader version padding extension marker payload_type sequence_number
            timestamp ssrc csrc profile exts pad, raw).

#[export] Instance header_unmarshal_inst : Unmarshal Header := header_unmarshal.

(** ** Sizes *)

Definition profile_len (profile : Z) : Z :=
  if profile =? EXTENSION_PROFILE_ONE_BYTE then 1
  else if profile =? EXTENSION_PROFILE_TWO_BYTE then 2 else 0.

Definition sum_len (exts : list Extension) : Z := foldr (λ e acc, len (payload e) + acc) 0 exts.

Definition get_extension_payload_len (h : Header) : Z :=
  sum_len (extensions h) + len (extensions h) * profile_len (extension_profile h).

Definition div_ceil (a b : Z) : Z := (a + b - 1) / b.

Definition marshal_size_for (h : Header) (extension_payload_len : Z) : Z :=
  let head_size := 12 + len (csrc h) * CSRC_LENGTH in
  if extension h then
    let padded := extension_payload_len + extensions_padding h in
    head_size + (4 + div_ceil padded 4 * 4)
  else head_size.

Definition header_marshal_size (h : Header) : Z :=
  marshal_size_for h (if extension h then get_extension_payload_len h else 0).

#[export] Instance header_marshal_size_inst : MarshalSize Header := header_marshal_size.

(** ** [marshal_to] *)

(** The first two octets. *)
Definition octet0 (h : Header) : Z :=
  let b0 := Z.lor (u8 (Z.shiftl (version h) 6)) (u8 (len (csrc h))) in
  let b0 := if padding h then Z.lor b0 (Z.shiftl 1 5) else b0 in
  if extension h then Z.lor b0 (Z.shiftl 1 4) else b0.

Definition octet1 (h : Header) : Z :=
  if marker h then Z.lor (payload_type h) (Z.shiftl 1 7) else payload_type h.

Definition put_one_byte_ext (e : Extension) (w : wbuf) : res wbuf :=
  let! w := put_u8 (Z.lor (u8 (Z.shiftl (id e) 4)) (u8 (u8 (len (payload e)) - 1))) w in
  put (payload e) w.

Definition put_two_byte_ext (e : Extension) (w : wbuf) : res wbuf :=
  let! w := put_u8 (id e) w in
  let! w := put_u8 (u8 (len (payload e))) w in
  put (payload e) w.

Definition put_extensions (h : Header) (extension_payload_len : Z) (w : wbuf) : res wbuf :=
  let! w := put_u16 (extension_profile h) w in
  if negb (extension_profile h =? EXTENSION_PROFILE_ONE_BYTE)
     && negb (extension_profile h =? EXTENSION_PROFILE_TWO_BYTE)
     && negb (extension_payload_len mod 4 =? 0)
  then Err HeaderExtensionPayloadNot32BitWords
  else
    let extension_payload_size := div_ceil (u16 extension_payload_len) 4 in
    let! w := put_u16 extension_payload_size w in
    let! w :=
      (if extension_profile h =? EXTENSION_PROFILE_ONE_BYTE
       then put_all put_one_byte_ext (extensions h) w
       else if extension_profile h =? EXTENSION_PROFILE_TWO_BYTE
       then put_all put_two_byte_ext (extensions h) w
       else
         match extensions h with
         | [e] =>
             if negb (len (payload e) mod 4 =? 0) then Err HeaderExtensionPayloadNot32BitWords
             else put (payload e) w
         | _ => Err ErrRfc3550headerIdrange
         end) in
    put_all put_u8 (replicate (Z.to_nat (extension_payload_size * 4 - extension_payload_len)) 0) w.

Definition header_marshal_to (h : Header) (buf : bytes) : res (Z * bytes) :=
  let remaining_before := len buf in
  let extension_payload_len := if extension h then get_extension_payload_len h else 0 in
  if remaining_before <? marshal_size_for h extension_payload_len then Err ErrBufferTooSmall
  else
    let! w := put_u8 (octet0 h) (Wbuf [] buf) in
    let! w := put_u8 (octet1 h) w in
    let! w := put_u16 (sequence_number h) w in
    let! w := put_u32 (timestamp h) w in
    let! w := put_u32 (ssrc h) w in
    let! w := put_all put_u32 (csrc h) w in
    let! w := (if extension h then put_extensions h extension_payload_len w else Ok w) in
    Ok (remaining_before - len (room w), written w ++ room w).

#[export] Instance header_marshal_inst : Marshal Header := header_marshal_to.

End Codec.

(** * Header extension operations *)

Definition with_extensions (h : Header) (ext : bool) (profile : Z) (exts : list Extension)
    (pad : Z) : Header :=
  mkHeader (version h) (padding h) ext (marker h) (payload_type h) (sequence_number h)
    (timestamp h) (ssrc h) (csrc h) profile exts pad.

(** [iter_mut().find(|e| e.id == id)]: replace the payload of the first match. *)
Fixpoint update_ext (i : Z) (p : bytes) (exts : list Extension) : option (list Extension * bytes) :=
  match exts with
  | [] => None
  | e :: rest =>
      if id e =? i then Some (mkExt i p :: rest, payload e)
      else match update_ext i p rest with
           | Some (rest, old) => Some (e :: rest, old)
           | None => None
           end
  end.

(** The identifier and size checks when extensions are already present, and the
    per-element overhead of the profile. *)
Definition check_ext_id (profile i n : Z) : res Z :=
  if profile =? EXTENSION_PROFILE_ONE_BYTE then
    if negb ((1 <=? i) && (i <=? 14)) then Err ErrRfc8285oneByteHeaderIdrange
    else if 16 <? n then Err ErrRfc8285oneByteHeaderSize else Ok 1
  else if profile =? EXTENSION_PROFILE_TWO_BYTE then
    if i <? 1 then Err ErrRfc8285twoByteHeaderIdrange
    else if 255 <? n then Err ErrRfc8285twoByteHeaderSize else Ok 2
  else if negb (i =? 0) then Err ErrRfc3550headerIdrange else Ok 0.

(** The new [extensions_padding] after the block grew by [delta] bytes. *)
Definition pad_after (pad delta : Z) : Z :=
  match delta ?= 0 with
  | Lt => Z.rem (pad - delta) 4
  | Gt => let p := Z.rem delta 4 in if pad <? p then (pad + 4) - p else pad - p
  | Eq => pad
  end.

Definition set_extension (h : Header) (i : Z) (p : bytes) : res Header :=
  let payload_len := len p in
  if extension h then
    let! extension_profile_len := check_ext_id (extension_profile h) i payload_len in
    let '(exts, delta) :=
      match update_ext i p (extensions h) with
      | Some (exts, old) => (exts, payload_len - len old)
      | None => (extensions h ++ [mkExt i p], payload_len + extension_profile_len)
      end in
    Ok (with_extensions h true (extension_profile h) exts (pad_after (extensions_padding h) delta))
  else
    let '(profile, plen) :=
      if payload_len <=? 16 then (EXTENSION_PROFILE_ONE_BYTE, 1)
      else if payload_len <=? 255 then (EXTENSION_PROFILE_TWO_BYTE, 2)
      else (extension_profile h, 0) in
    let extension_padding := (payload_len + plen) mod 4 in
    let pad := if extensions_padding h <? extension_padding
               then extensions_padding h + 4 - extension_padding
               else extensions_padding h - extension_padding in
    Ok (with_extensions h true profile (extensions h ++ [mkExt i p]) pad).

Definition get_extension_ids (h : Header) : list Z :=
  if extension h then id <$> extensions h else [].

Definition get_extension (h : Header) (i : Z) : option bytes :=
  if extension h then payload <$> List.find (λ e, id e =? i) (extensions h) else None.

(** [position] then [remove]: the list without its first match, and the match. *)
Fixpoint remove_ext (i : Z) (exts : list Extension) : option (list Extension * Extension) :=
  match exts with
  | [] => None
  | e :: rest =>
      if id e =? i then Some (rest, e)
      else match remove_ext i rest with
           | Some (rest, r) => Some (e :: rest, r)
           | None => None
           end
  end.

Definition del_extension (h : Header) (i : Z) : res Header :=
  if extension h then
    match remove_ext i (extensions h) with
    | Some (exts, e) =>
        let extension_padding := (len (payload e) + profile_len (extension_profile h)) mod 4 in
        Ok (with_extensions h true (extension_profile h) exts
              ((extensions_padding h + extension_padding) mod 4))
    | None => Err ErrHeaderExtensionNotFound
    end
  else Err ErrHeaderExtensionsNotEnabled.

(** * Well-formed headers *)

(** The extensions a profile can carry. *)
Definition ext_ok (profile : Z) (e : Extension) : Prop :=
  Forall byte_ok (payload e) ∧
  if profile =? EXTENSION_PROFILE_ONE_BYTE then 1 <= id e <= 14 ∧ 1 <= len (payload e) <= 16
  else if profile =? EXTENSION_PROFILE_TWO_BYTE then 1 <= id e <= 255 ∧ len (payload e) <= 255
  else id e = 0.

(** A header whose fields fit their widths and whose extension block is aligned:
    what [marshal_to] can put on the wire. *)
Record wf_header (h : Header) : Prop := {
  wf_version : 0 <= version h < 4;
  wf_pt : 0 <= payload_type h < 128;
  wf_seq : fits 16 (sequence_number h);
  wf_ts : fits 32 (timestamp h);
  wf_ssrc : fits 32 (ssrc h);
  wf_csrc : Forall (fits 32) (csrc h);
  wf_cc : len (csrc h) <= 15;
  wf_ext :
    if extension h then
      fits 16 (extension_profile h) ∧
      Forall (ext_ok (extension_profile h)) (extensions h) ∧
      get_extension_payload_len h <= 65532 ∧
      0 <= extensions_padding h < 4 ∧
      (get_extension_payload_len h + extensions_padding h) mod 4 = 0 ∧
      (profile_len (extension_profile h) = 0 → ∃ e, extensions h = [e] ∧ extensions_padding h = 0)
    else extension_profile h = 0 ∧ extensions h = [] ∧ extensions_padding h = 0;
}.

(** * Lemmas *)

Section CodecLemmas.
Context {BC : BytesCrate}.

(** What each writer appends. *)
Definition one_byte_ext_bytes (e : Extension) : bytes :=
  put_uint 1 (Z.lor (u8 (Z.shiftl (id e) 4)) (u8 (u8 (len (payload e)) - 1))) ++ payload e.
Definition two_byte_ext_bytes (e : Extension) : bytes :=
  put_uint 1 (id e) ++ put_uint 1 (u8 (len (payload e))) ++ payload e.

Definition ext_body (h : Header) : bytes :=
  if extension_profile h =? EXTENSION_PROFILE_ONE_BYTE then
    concat (one_byte_ext_bytes <$> extensions h)
  else if extension_profile h =? EXTENSION_PROFILE_TWO_BYTE then
    concat (two_byte_ext_bytes <$> extensions h)
  else concat (payload <$> extensions h).

Definition ext_block (h : Header) : bytes :=
  put_uint 2 (extension_profile h) ++
  put_uint 2 ((get_extension_payload_len h + extensions_padding h) / 4) ++
  ext_body h ++ replicate (Z.to_nat (extensions_padding h)) 0.

Definition fixed_part (h : Header) : bytes :=
  put_uint 1 (octet0 h) ++ put_uint 1 (octet1 h) ++ put_uint 2 (sequence_number h) ++
  put_uint 4 (timestamp h) ++ put_uint 4 (ssrc h) ++ concat (put_uint 4 <$> csrc h).

(** The wire image of a well-formed header. *)
Definition header_bytes (h : Header) : bytes :=
  fixed_part h ++ (if extension h then ext_block h else []).

(** ** Lengths *)

Lemma sum_len_app a b : sum_len (a ++ b) = sum_len a + sum_len b.
Proof. induction a; simpl; lia. Qed.

Lemma len_concat_ext (f : Extension → bytes) k exts :
  (∀ e, len (f e) = k + len (payload e)) →
  len (concat (f <$> exts)) = sum_len exts + len exts * k.
Proof.
  intros Hf. induction exts as [|e exts IH]; [done|]. csimpl.
  rewrite len_app, Hf, IH, len_cons. lia.
Qed.

Lemma len_ext_body h : len (ext_body h) = get_extension_payload_len h.
Proof.
  unfold ext_body, get_extension_payload_len, profile_len.
  repeat case_match; apply len_concat_ext; intros e;
    unfold one_byte_ext_bytes, two_byte_ext_bytes; autorewrite with len; lia.
Qed.

Lemma len_csrc_bytes (l : list Z) : len (concat (put_uint 4 <$> l)) = len l * 4.
Proof. induction l as [|x l IH]; [done|]. csimpl. autorewrite with len. lia. Qed.

Lemma payload_len_nonneg h : 0 <= get_extension_payload_len h.
Proof. rewrite <- len_ext_body. apply len_nonneg. Qed.

(** The block is a whole number of words. *)
Lemma aligned_div n pad :
  0 <= n → 0 <= pad < 4 → (n + pad) mod 4 = 0 →
  div_ceil n 4 = (n + pad) / 4 ∧ (n + pad) / 4 * 4 = n + pad ∧ div_ceil (n + pad) 4 = (n + pad) / 4.
Proof.
  intros Hn Hp Hm. unfold div_ceil. pose proof (Z_div_mod_eq_full (n + pad) 4).
  split_and!; [|lia|]; symmetry.
  - apply Z.div_unique with (3 - pad); lia.
  - apply Z.div_unique with 3; lia.
Qed.

Lemma len_fixed_part h : len (fixed_part h) = 12 + len (csrc h) * CSRC_LENGTH.
Proof. unfold fixed_part, CSRC_LENGTH. autorewrite with len. rewrite len_csrc_bytes. lia. Qed.

(** [marshal_size] is the number of bytes of the wire image. *)
Lemma len_header_bytes h : wf_header h → len (header_bytes h) = header_marshal_size h.
Proof.
  intros Hwf. pose proof (wf_ext h Hwf) as He.
  unfold header_bytes, header_marshal_size, marshal_size_for. rewrite len_app, len_fixed_part.
  destruct (extension h); [|by rewrite len_nil, Z.add_0_r].
  destruct He as (_ & _ & _ & Hpad & Hal & _).
  destruct (aligned_div _ _ (payload_len_nonneg h) Hpad Hal) as (_ & Hs2 & ->).
  unfold ext_block. autorewrite with len. rewrite len_ext_body, Hs2. lia.
Qed.

(** ** Writing a well-formed header *)

Lemma one_byte_head i n :
  1 <= i <= 14 → 1 <= n <= 16 →
  let x := Z.lor (u8 (Z.shiftl i 4)) (u8 (u8 n - 1)) in
  byte_ok x ∧ x ≠ 0 ∧ Z.shiftr x 4 = i ∧ Z.land x (Z.lxor 0xFF 0xF0) + 1 = n.
Proof.
  intros Hi Hn.
  assert (∀ i n, 0 <= i < 14 → 0 <= n < 16 →
    let x := Z.lor (u8 (Z.shiftl (i + 1) 4)) (u8 (u8 (n + 1) - 1)) in
    byte_ok x ∧ x ≠ 0 ∧ Z.shiftr x 4 = i + 1 ∧ Z.land x (Z.lxor 0xFF 0xF0) + 1 = n + 1) as H.
  { enum2 14%nat 16%nat. }
  specialize (H (i - 1) (n - 1)). rewrite !Z.sub_add in H. apply H; lia.
Qed.

Lemma octet0_spec h :
  wf_header h →
  byte_ok (octet0 h) ∧ Z.land (Z.shiftr (octet0 h) 6) 0x3 = version h ∧
  (0 <? Z.land (Z.shiftr (octet0 h) 5) 0x1) = padding h ∧
  (0 <? Z.land (Z.shiftr (octet0 h) 4) 0x1) = extension h ∧
  Z.land (octet0 h) 0xF = len (csrc h).
Proof.
  intros [Hv _ _ _ _ _ Hc _]. unfold octet0. pose proof (len_nonneg (csrc h)).
  generalize dependent (version h). generalize dependent (len (csrc h)).
  intros c Hc Hc0 v Hv.
  assert (0 <= c < 16) as Hc' by lia. clear Hc Hc0. revert v c Hv Hc'.
  destruct (padding h), (extension h); enum2 4%nat 16%nat.
Qed.

Lemma octet1_spec h :
  wf_header h →
  byte_ok (octet1 h) ∧ (0 <? Z.land (Z.shiftr (octet1 h) 7) 0x1) = marker h ∧
  Z.land (octet1 h) 0x7F = payload_type h.
Proof.
  intros [_ Hp _ _ _ _ _ _]. unfold octet1. generalize dependent (payload_type h).
  intros p Hp. destruct (marker h); revert p Hp; enum 128%nat.
Qed.

Lemma put_all_exts f (g : Extension → bytes) exts w :
  (∀ e w, f e w = put (g e) w) → put_all f exts w = put (concat (g <$> exts)) w.
Proof. intros H. apply put_all_put. auto. Qed.

Lemma put_extensions_wf h w :
  wf_header h → extension h = true →
  put_extensions h (get_extension_payload_len h) w = put (ext_block h) w.
Proof.
  intros Hwf Hx. pose proof (wf_ext h Hwf) as He. rewrite Hx in He.
  destruct He as (Hpf & Hext & Hn & Hpad & Hal & H3550).
  pose proof (payload_len_nonneg h) as Hn0.
  destruct (aligned_div _ _ Hn0 Hpad Hal) as (Hs1 & Hs2 & _).
  unfold put_extensions. rewrite (wrap_small 16) by (unfold fits; lia).
  rewrite Hs1, Hs2. replace (_ + _ - _) with (extensions_padding h) by lia.
  unfold ext_block, ext_body, put_u16.
  assert (∀ w, put_all put_u8 (replicate (Z.to_nat (extensions_padding h)) 0) w =
               put (replicate (Z.to_nat (extensions_padding h)) 0) w) as Hzero
    by (intros; apply put_all_bytes, Forall_replicate; done).
  unfold profile_len in H3550.
  assert (∀ e w, put_one_byte_ext e w = put (one_byte_ext_bytes e) w) as H1
    by (intros; apply put_app).
  assert (∀ e w, put_two_byte_ext e w = put (two_byte_ext_bytes e) w) as H2
    by (intros; apply put_then; intros; apply put_app).
  destruct (Z.eqb_spec (extension_profile h) EXTENSION_PROFILE_ONE_BYTE);
    [|destruct (Z.eqb_spec (extension_profile h) EXTENSION_PROFILE_TWO_BYTE)]; simpl;
    (apply put_then; intros w1).
  - apply put_then; intros w2. rewrite (put_all_exts _ _ _ _ H1). by apply put_then.
  - apply put_then; intros w2. rewrite (put_all_exts _ _ _ _ H2). by apply put_then.
  - destruct H3550 as (e & He & Hp0); [done|].
    assert (get_extension_payload_len h = len (payload e)) as Hlen
      by (unfold get_extension_payload_len, profile_len; rewrite He;
          repeat case_match; try congruence; simpl; lia).
    rewrite Hlen, Hp0, Z.add_0_r in Hal. rewrite Hlen, Hal. simpl.
    apply put_then; intros w2. rewrite He, Hal. simpl. rewrite app_nil_r. by apply put_then.
Qed.

Lemma header_marshal_to_wf h buf :
  wf_header h → header_marshal_size h <= len buf →
  header_marshal_to h buf
  = Ok (header_marshal_size h, header_bytes h ++ drop (length (header_bytes h)) buf).
Proof.
  intros Hwf Hbuf. pose proof (len_header_bytes h Hwf) as Hlen.
  unfold header_marshal_to, header_marshal_size in *.
  destruct (Z.ltb_spec (len buf) (marshal_size_for h (if extension h then get_extension_payload_len h else 0))); [lia|].
  transitivity (let! w := put (header_bytes h) (Wbuf [] buf) in
                Ok (len buf - len (room w), written w ++ room w)).
  - unfold header_bytes, fixed_part. rewrite <- !app_assoc.
    do 5 (apply put_step; intros).
    rewrite (put_all_put (put_uint 4)) by done. apply put_step; intros.
    destruct (extension h) eqn:Hx; [by rewrite put_extensions_wf|by rewrite put_nil].
  - rewrite put_Ok by (simpl; lia). simpl. rewrite len_drop, <- Hlen.
    do 2 f_equal. unfold len in *. lia.
Qed.

(** ** Reading it back *)

Lemma get_csrc_put l r :
  Forall (fits 32) l → get_csrc (length l) (concat (put_uint 4 <$> l) ++ r) = Ok (l, r).
Proof.
  induction 1 as [|x l Hx Hl IH]; [done|]. csimpl.
  rewrite <- app_assoc. unfold get_u32. rewrite get_put_uint by done. simpl. by rewrite IH.
Qed.

Section Loops.
Variable loop : nat → Z → Z → Z → list Extension → bytes → res (Z * list Extension * bytes).
Variable ext_bytes : Extension → bytes.
Variable profile : Z.

Hypothesis ext_pos : ∀ e, 0 < len (ext_bytes e).
Hypothesis loop_done : ∀ fuel curr pad exts r, loop fuel curr curr pad exts r = Ok (pad, exts, r).
Hypothesis loop_zero : ∀ fuel curr end_ pad exts r,
  curr < end_ → loop (S fuel) curr end_ pad exts (0 :: r) = loop fuel (curr + 1) end_ (pad + 1) exts r.
Hypothesis loop_ext : ∀ e fuel curr end_ pad exts r,
  ext_ok profile e → curr + len (ext_bytes e) <= end_ →
  loop (S fuel) curr end_ pad exts (ext_bytes e ++ r)
  = loop fuel (curr + len (ext_bytes e)) end_ pad (exts ++ [e]) r.

Lemma loop_zeros k fuel curr pad exts r :
  (k ≤ fuel)%nat →
  loop fuel curr (curr + Z.of_nat k) pad exts (replicate k 0 ++ r) = Ok (pad + Z.of_nat k, exts, r).
Proof.
  revert fuel curr pad. induction k as [|k IH]; intros fuel curr pad Hf.
  - rewrite !Z.add_0_r. apply loop_done.
  - destruct fuel as [|fuel]; [lia|]. cbn [replicate app]. rewrite loop_zero by lia.
    replace (curr + Z.of_nat (S k)) with (curr + 1 + Z.of_nat k) by lia.
    rewrite IH by lia. do 3 f_equal. lia.
Qed.

(** A parser loop reads back the extensions and the padding after them. *)
Lemma loop_exts es k fuel curr end_ pad acc r :
  Forall (ext_ok profile) es →
  end_ = curr + len (concat (ext_bytes <$> es)) + Z.of_nat k → end_ - curr <= Z.of_nat fuel →
  loop fuel curr end_ pad acc (concat (ext_bytes <$> es) ++ replicate k 0 ++ r)
  = Ok (pad + Z.of_nat k, acc ++ es, r).
Proof.
  intros Hes. revert fuel curr acc. induction Hes as [|e es He Hes IH]; intros fuel curr acc -> Hf.
  - csimpl in *. rewrite len_nil, Z.add_0_r in *. rewrite app_nil_r. apply loop_zeros. lia.
  - csimpl in *. rewrite len_app in *. pose proof (ext_pos e).
    pose proof (len_nonneg (concat (ext_bytes <$> es))).
    destruct fuel as [|fuel]; [lia|]. rewrite <- app_assoc, loop_ext by (done || lia).
    rewrite IH by lia. by rewrite <- app_assoc.
Qed.
End Loops.

Lemma one_byte_loop_exts es k fuel curr end_ r :
  Forall (ext_ok EXTENSION_PROFILE_ONE_BYTE) es →
  end_ = curr + len (concat (one_byte_ext_bytes <$> es)) + Z.of_nat k →
  end_ - curr <= Z.of_nat fuel →
  one_byte_loop fuel curr end_ 0 [] (concat (one_byte_ext_bytes <$> es) ++ replicate k 0 ++ r)
  = Ok (Z.of_nat k, es, r).
Proof.
  apply (loop_exts one_byte_loop one_byte_ext_bytes); clear.
  - intros e. unfold one_byte_ext_bytes. len_lia.
  - intros fuel curr pad exts r. destruct fuel; simpl; by rewrite Z.ltb_irrefl.
  - intros fuel curr end_ pad exts r Hc. cbn [one_byte_loop].
    destruct (Z.ltb_spec curr end_); [|lia]. by rewrite get_u8_cons.
  - intros e fuel curr end_ pad exts r [Hb [Hi Hn]] Hc. unfold one_byte_ext_bytes in *.
    destruct (one_byte_head (id e) (len (payload e)) Hi Hn) as (Hx & Hx0 & Hid & Hlen).
    rewrite len_app, len_put_uint in *. rewrite put_uint_1 by done. cbn [one_byte_loop app].
    destruct (Z.ltb_spec curr end_); [|lia]. rewrite get_u8_cons by done. cbn [rbind].
    destruct (Z.eqb_spec (Z.lor (u8 (Z.shiftl (id e) 4)) (u8 (u8 (len (payload e)) - 1))) 0); [done|].
    rewrite Hid, Hlen. unfold EXTENSION_ID_RESERVED. destruct (Z.eqb_spec (id e) 15); [lia|].
    destruct (Z.ltb_spec (len (payload e ++ r)) (len (payload e))); [len_lia|].
    rewrite copy_to_bytes_app. cbn [rbind]. destruct e; simpl. f_equal. lia.
Qed.

Lemma two_byte_loop_exts es k fuel curr end_ r :
  Forall (ext_ok EXTENSION_PROFILE_TWO_BYTE) es →
  end_ = curr + len (concat (two_byte_ext_bytes <$> es)) + Z.of_nat k →
  end_ - curr <= Z.of_nat fuel →
  two_byte_loop fuel curr end_ 0 [] (concat (two_byte_ext_bytes <$> es) ++ replicate k 0 ++ r)
  = Ok (Z.of_nat k, es, r).
Proof.
  apply (loop_exts two_byte_loop two_byte_ext_bytes); clear.
  - intros e. unfold two_byte_ext_bytes. len_lia.
  - intros fuel curr pad exts r. destruct fuel; simpl; by rewrite Z.ltb_irrefl.
  - intros fuel curr end_ pad exts r Hc. cbn [two_byte_loop].
    destruct (Z.ltb_spec curr end_); [|lia]. by rewrite get_u8_cons.
  - intros e fuel curr end_ pad exts r [Hb [Hi Hn]] Hc. unfold two_byte_ext_bytes in *.
    pose proof (len_nonneg (payload e)). rewrite !len_app, !len_put_uint in *.
    rewrite (wrap_small 8) by (unfold fits; lia).
    rewrite !put_uint_1 by (unfold fits; lia). cbn [two_byte_loop app].
    destruct (Z.ltb_spec curr end_); [|lia].
    rewrite get_u8_cons by (unfold fits; lia). cbn [rbind].
    destruct (Z.eqb_spec (id e) 0); [lia|].
    destruct (Z.leb_spec end_ (curr + 1)); [lia|].
    rewrite get_u8_cons by (unfold fits; lia). cbn [rbind].
    destruct (Z.ltb_spec (len (payload e ++ r)) (len (payload e))); [len_lia|].
    rewrite copy_to_bytes_app. cbn [rbind]. destruct e; simpl. f_equal. lia.
Qed.

Lemma get_extensions_put h raw_len curr r :
  wf_header h → extension h = true → curr + len (ext_block h) <= raw_len →
  get_extensions raw_len curr (ext_block h ++ r)
  = Ok (extension_profile h, extensions h, extensions_padding h, r).
Proof.
  intros Hwf Hx Hlen. pose proof (wf_ext h Hwf) as He. rewrite Hx in He.
  destruct He as (Hpf & Hext & Hn & Hpad & Hal & H3550).
  pose proof (payload_len_nonneg h) as Hn0.
  destruct (aligned_div _ _ Hn0 Hpad Hal) as (_ & Hs2 & _).
  pose proof (len_ext_body h) as Hbody.
  unfold ext_block, ext_body in *. rewrite !len_app, !len_put_uint, len_replicate, Z2Nat.id in Hlen by lia.
  set (body := if _ =? EXTENSION_PROFILE_ONE_BYTE then _ else _) in *.
  unfold get_extensions. destruct (Z.ltb_spec raw_len (curr + 4)); [lia|].
  rewrite <- !app_assoc. unfold get_u16.
  rewrite get_put_uint by done. cbn [rbind].
  rewrite get_put_uint by (split; [apply Z.div_pos; lia|apply Z.div_lt_upper_bound; lia]).
  cbn [rbind]. rewrite Hs2.
  destruct (Z.ltb_spec raw_len (curr + 2 + 2 + (get_extension_payload_len h + extensions_padding h))); [lia|].
  unfold profile_len in H3550. subst body.
  destruct (Z.eqb_spec (extension_profile h) EXTENSION_PROFILE_ONE_BYTE) as [E|];
    [|destruct (Z.eqb_spec (extension_profile h) EXTENSION_PROFILE_TWO_BYTE) as [E|]].
  - rewrite E in Hext. rewrite one_byte_loop_exts by (done || lia). simpl. do 3 f_equal. lia.
  - rewrite E in Hext. rewrite two_byte_loop_exts by (done || lia). simpl. do 3 f_equal. lia.
  - destruct H3550 as (e & He & Hp0); [done|]. rewrite He, Hp0 in *. csimpl in *.
    rewrite app_nil_r in *. rewrite <- Hbody, Z.add_0_r, copy_to_bytes_app. simpl.
    rewrite Forall_singleton in Hext. destruct Hext as [_ Hid].
    rewrite !(proj2 (Z.eqb_neq _ _)) in Hid by done. by destruct e; simpl in *; subst.
Qed.

Lemma header_unmarshal_bytes h r :
  wf_header h → header_unmarshal (header_bytes h ++ r) = Ok (h, r).
Proof.
  intros Hwf. destruct (octet0_spec h Hwf) as (Ho0 & Hv & Hp & Hx & Hc).
  destruct (octet1_spec h Hwf) as (Ho1 & Hm & Hpt). pose proof (len_fixed_part h) as Hfix.
  pose proof (wf_seq h Hwf). pose proof (wf_ts h Hwf). pose proof (wf_ssrc h Hwf).
  pose proof (wf_csrc h Hwf). pose proof (wf_ext h Hwf) as He.
  assert (len (header_bytes h ++ r) =
          12 + len (csrc h) * 4 + len ((if extension h then ext_block h else []) ++ r)) as Hlen.
  { unfold header_bytes, CSRC_LENGTH in *. rewrite <- app_assoc, len_app, Hfix. lia. }
  pose proof (len_nonneg (csrc h)).
  pose proof (len_nonneg ((if extension h then ext_block h else []) ++ r)).
  unfold header_unmarshal. rewrite Hlen. unfold HEADER_LENGTH, CSRC_OFFSET, CSRC_LENGTH.
  rewrite (proj2 (Z.ltb_ge _ 4)) by lia.
  unfold header_bytes, fixed_part. rewrite <- !app_assoc. unfold get_u8, get_u16, get_u32.
  rewrite get_put_uint by done. cbn [rbind]. rewrite Hc, Hx.
  rewrite (proj2 (Z.ltb_ge _ _)) by lia.
  do 4 (rewrite get_put_uint by done; cbn [rbind]).
  replace (Z.to_nat (len (csrc h))) with (length (csrc h)) by len_lia.
  rewrite get_csrc_put by done. cbn [rbind]. rewrite Hv, Hp, Hm, Hpt.
  destruct (extension h) eqn:Ex.
  - rewrite get_extensions_put by (done || len_lia). cbn [rbind].
    rewrite <- Ex. by destruct h.
  - destruct He as (E1 & E2 & E3). cbn [rbind app].
    destruct h; simpl in *; by subst.
Qed.

(** ** Arbitrary input *)

(** Every step of a loop either fails or consumes what it adds to the offset. *)
Lemma one_byte_loop_no_panic fuel curr end_ pad exts raw :
  Forall byte_ok raw → end_ - curr <= len raw → end_ - curr <= Z.of_nat fuel →
  no_panic (one_byte_loop fuel curr end_ pad exts raw).
Proof.
  revert curr pad exts raw. induction fuel as [|fuel IH]; intros curr pad exts raw Hb Hr Hf;
    cbn [one_byte_loop]; destruct (Z.ltb_spec curr end_); auto with rtc; [lia|].
  destruct (get_uint_total 1 raw Hb) as (b & raw' & E & Hb1 & _ & Hb' & Hl); [lia|].
  unfold get_u8. rewrite E. cbn [rbind]. destruct (b =? 0); [apply IH; done || lia|].
  destruct (_ =? EXTENSION_ID_RESERVED); auto with rtc.
  set (n := Z.land b (Z.lxor 255 240) + 1).
  assert (0 <= n) by (unfold n; pose proof (proj2 (Z.land_nonneg b (Z.lxor 255 240))); destruct Hb1; lia).
  destruct (Z.ltb_spec (len raw') n); auto with rtc.
  apply no_panic_bind; [by apply copy_to_bytes_no_panic|]. intros [p r] Hc.
  apply copy_to_bytes_inv in Hc as (-> & Hp & _ & Hbr); [|done..].
  rewrite len_app in *. apply IH; done || lia.
Qed.

Lemma two_byte_loop_no_panic fuel curr end_ pad exts raw :
  Forall byte_ok raw → end_ - curr <= len raw → end_ - curr <= Z.of_nat fuel →
  no_panic (two_byte_loop fuel curr end_ pad exts raw).
Proof.
  revert curr pad exts raw. induction fuel as [|fuel IH]; intros curr pad exts raw Hb Hr Hf;
    cbn [two_byte_loop]; destruct (Z.ltb_spec curr end_); auto with rtc; [lia|].
  destruct (get_uint_total 1 raw Hb) as (b & raw' & E & _ & _ & Hb' & Hl); [lia|].
  unfold get_u8. rewrite E. cbn [rbind]. destruct (b =? 0); [apply IH; done || lia|].
  destruct (Z.leb_spec end_ (curr + 1)); auto with rtc.
  destruct (get_uint_total 1 raw' Hb') as (n & raw2 & E2 & Hn & _ & Hb2 & Hl2); [lia|].
  rewrite E2. cbn [rbind]. destruct (Z.ltb_spec (len raw2) n); auto with rtc.
  apply no_panic_bind; [by apply copy_to_bytes_no_panic|]. intros [p r] Hc.
  destruct Hn as [Hn0 _]. apply copy_to_bytes_inv in Hc as (-> & Hp & _ & Hbr); [|done..].
  rewrite len_app in *. apply IH; done || lia.
Qed.

Lemma get_extensions_no_panic raw_len curr raw :
  Forall byte_ok raw → raw_len = curr + len raw → no_panic (get_extensions raw_len curr raw).
Proof.
  intros Hb Hlen. unfold get_extensions. destruct (Z.ltb_spec raw_len (curr + 4)); auto with rtc.
  destruct (get_uint_total 2 raw Hb) as (profile & raw1 & E1 & _ & _ & Hb1 & Hl1); [lia|].
  destruct (get_uint_total 2 raw1 Hb1) as (words & raw2 & E2 & [Hw0 _] & _ & Hb2 & Hl2); [lia|].
  unfold get_u16. rewrite E1. cbn [rbind]. rewrite E2. cbn [rbind].
  destruct (Z.ltb_spec raw_len (curr + 2 + 2 + words * 4)); auto with rtc.
  assert (∀ A B C (m : res (A * B * C)) (k : A → B → C → res (Z * list Extension * Z * bytes)),
    no_panic m → (∀ a b c, no_panic (k a b c)) → no_panic (let! (a, b, c) := m in k a b c)) as Hk.
  { intros A B C m k Hm Hkk. apply no_panic_bind; [done|]. by intros [[a b] c] _. }
  destruct (profile =? EXTENSION_PROFILE_ONE_BYTE).
  { apply Hk; [apply one_byte_loop_no_panic; done || lia|auto with rtc]. }
  destruct (profile =? EXTENSION_PROFILE_TWO_BYTE).
  { apply Hk; [apply two_byte_loop_no_panic; done || lia|auto with rtc]. }
  apply no_panic_bind; [apply copy_to_bytes_no_panic; lia|]. by intros [p r] _.
Qed.

Lemma get_csrc_total n raw :
  Forall byte_ok raw → Z.of_nat n * 4 <= len raw →
  ∃ l r, get_csrc n raw = Ok (l, r) ∧ len l = Z.of_nat n ∧ Forall (fits 32) l ∧
         Forall byte_ok r ∧ len r = len raw - Z.of_nat n * 4.
Proof.
  revert raw. induction n as [|n IH]; intros raw Hb Hl.
  { exists [], raw. cbn [get_csrc]. rewrite len_nil. split_and!; done || lia. }
  destruct (get_uint_total 4 raw Hb) as (x & r & E & Hx & _ & Hbr & Hlr); [lia|].
  destruct (IH r Hbr) as (l & r' & E' & Hll & Hfl & Hbr' & Hlr'); [lia|].
  exists (x :: l), r'. cbn [get_csrc]. unfold get_u32. rewrite E. cbn [rbind]. rewrite E'. cbn [rbind].
  rewrite len_cons. split_and!; try done; try lia. by constructor.
Qed.

Lemma header_unmarshal_no_panic raw : Forall byte_ok raw → no_panic (header_unmarshal raw).
Proof.
  intros Hb. unfold header_unmarshal, HEADER_LENGTH, CSRC_OFFSET, CSRC_LENGTH.
  destruct (Z.ltb_spec (len raw) 4); auto with rtc.
  destruct (get_uint_total 1 raw Hb) as (b0 & r1 & E1 & Hb0 & _ & Hr1 & L1); [lia|].
  unfold get_u8, get_u16, get_u32. rewrite E1. cbn [rbind].
  set (cc := Z.land b0 15). assert (0 <= cc) by (apply Z.land_nonneg; by destruct Hb0; left).
  destruct (Z.ltb_spec (len raw) (12 + cc * 4)); auto with rtc.
  destruct (get_uint_total 1 r1 Hr1) as (b1 & r2 & E2 & _ & _ & Hr2 & L2); [lia|].
  destruct (get_uint_total 2 r2 Hr2) as (sn & r3 & E3 & _ & _ & Hr3 & L3); [lia|].
  destruct (get_uint_total 4 r3 Hr3) as (ts & r4 & E4 & _ & _ & Hr4 & L4); [lia|].
  destruct (get_uint_total 4 r4 Hr4) as (ss & r5 & E5 & _ & _ & Hr5 & L5); [lia|].
  destruct (get_csrc_total (Z.to_nat cc) r5 Hr5) as (cs & r6 & E6 & _ & _ & Hr6 & L6); [lia|].
  rewrite E2. cbn [rbind]. rewrite E3. cbn [rbind]. rewrite E4. cbn [rbind].
  rewrite E5. cbn [rbind]. rewrite E6. cbn [rbind].
  apply no_panic_bind; [|by intros [[[p es] pd] r] _].
  destruct (0 <? _); auto with rtc. apply get_extensions_no_panic; [done|lia].
Qed.

(** What is left after parsing is a suffix of the input. *)
Lemma get_uint_suffix n l x r : Forall byte_ok l → get_uint n l = Ok (x, r) → r `suffix_of` l.
Proof. intros Hl Hg. apply get_uint_inv in Hg as (_ & -> & _); [|done]. by apply suffix_app_r. Qed.

Lemma copy_to_bytes_suffix n l p r : copy_to_bytes n l = Ok (p, r) → r `suffix_of` l.
Proof.
  unfold copy_to_bytes. destruct (_ <? _); [done|]. intros [= <- <-].
  exists (take (Z.to_nat n) l). by rewrite take_drop.
Qed.

Lemma Forall_suffix {A} (P : A → Prop) l k : l `suffix_of` k → Forall P k → Forall P l.
Proof. intros [t ->] [_ ?]%Forall_app. done. Qed.

(** A read at the head of [E], the rest of which is proved about what it leaves. *)
Ltac read_suffix E x raw' n :=
  let Hg := fresh "Hg" in
  apply res_bind_inv in E as ([x raw'] & Hg & E);
  apply (get_uint_suffix n) in Hg; [|done];
  assert (Forall byte_ok raw') by (by eapply Forall_suffix);
  trans raw'; [|done].

Lemma one_byte_loop_suffix fuel curr end_ pad exts raw pd es r :
  Forall byte_ok raw → one_byte_loop fuel curr end_ pad exts raw = Ok (pd, es, r) →
  r `suffix_of` raw.
Proof.
  revert curr pad exts raw. induction fuel as [|fuel IH]; intros curr pad exts raw Hb;
    cbn [one_byte_loop]; destruct (curr <? end_); intros E; simplify_eq; try done.
  read_suffix E b raw1 1%nat.
  destruct (b =? 0); [by eapply IH|]. destruct (_ =? _); [by simplify_eq|].
  destruct (_ <? _); [done|]. apply res_bind_inv in E as ([p raw2] & E2 & E).
  apply copy_to_bytes_suffix in E2. trans raw2; [|done].
  eapply IH; [|exact E]. by eapply Forall_suffix.
Qed.

Lemma two_byte_loop_suffix fuel curr end_ pad exts raw pd es r :
  Forall byte_ok raw → two_byte_loop fuel curr end_ pad exts raw = Ok (pd, es, r) →
  r `suffix_of` raw.
Proof.
  revert curr pad exts raw. induction fuel as [|fuel IH]; intros curr pad exts raw Hb;
    cbn [two_byte_loop]; destruct (curr <? end_); intros E; simplify_eq; try done.
  read_suffix E b raw1 1%nat.
  destruct (b =? 0); [by eapply IH|]. destruct (_ <=? _); [done|].
  read_suffix E n raw2 1%nat.
  destruct (_ <? _); [done|]. apply res_bind_inv in E as ([p raw3] & E3 & E).
  apply copy_to_bytes_suffix in E3. trans raw3; [|done].
  eapply IH; [|exact E]. by eapply Forall_suffix.
Qed.

Lemma get_csrc_suffix n raw l r : Forall byte_ok raw → get_csrc n raw = Ok (l, r) → r `suffix_of` raw.
Proof.
  revert raw l. induction n as [|n IH]; intros raw l Hb E; cbn [get_csrc] in E; [by simplify_eq|].
  apply res_bind_inv in E as ([x raw1] & E1 & E). apply (get_uint_suffix 4) in E1; [|done].
  apply res_bind_inv in E as ([xs raw2] & E2 & E). simplify_eq. trans raw1; [|done].
  eapply IH; [|exact E2]. by eapply Forall_suffix.
Qed.

Lemma get_extensions_suffix raw_len curr raw pr es pd r :
  Forall byte_ok raw → get_extensions raw_len curr raw = Ok (pr, es, pd, r) → r `suffix_of` raw.
Proof.
  intros Hb. unfold get_extensions. destruct (_ <? _); [done|]. intros E.
  read_suffix E profile raw1 2%nat. read_suffix E words raw2 2%nat.
  destruct (_ <? _); [done|]. repeat case_match; try done.
  - apply res_bind_inv in E as ([[p e] q] & E3 & E). simplify_eq. by eapply one_byte_loop_suffix.
  - apply res_bind_inv in E as ([[p e] q] & E3 & E). simplify_eq. by eapply two_byte_loop_suffix.
  - apply res_bind_inv in E as ([p q] & E3 & E). simplify_eq. by eapply copy_to_bytes_suffix.
Qed.

Lemma header_unmarshal_suffix raw h r :
  Forall byte_ok raw → header_unmarshal raw = Ok (h, r) → r `suffix_of` raw.
Proof.
  intros Hb. unfold header_unmarshal. destruct (_ <? _); [done|]. intros E.
  read_suffix E b0 r1 1%nat. destruct (_ <? _); [done|].
  read_suffix E b1 r2 1%nat. read_suffix E sq r3 2%nat. read_suffix E ts r4 4%nat. read_suffix E ss r5 4%nat.
  apply res_bind_inv in E as ([cs r6] & E6 & E). apply get_csrc_suffix in E6; [|done].
  assert (Forall byte_ok r6) by (by eapply Forall_suffix). trans r6; [|done].
  apply res_bind_inv in E as ([[[p es] pd] r7] & E7 & E). simplify_eq.
  destruct (0 <? _); [by eapply get_extensions_suffix|by simplify_eq].
Qed.

(** ** Fields of a parsed header *)

Lemma one_byte_loop_pad fuel curr end_ pad exts raw pd es r :
  one_byte_loop fuel curr end_ pad exts raw = Ok (pd, es, r) → pad <= pd.
Proof.
  revert curr pad exts raw. induction fuel as [|fuel IH]; intros curr pad exts raw; cbn [one_byte_loop];
    destruct (curr <? end_); intros E; simplify_eq; try lia.
  apply res_bind_inv in E as ([b raw1] & _ & E). destruct (b =? 0); [apply IH in E; lia|].
  destruct (_ =? _); [simplify_eq; lia|]. destruct (_ <? _); [done|].
  apply res_bind_inv in E as ([p raw2] & _ & E). by apply IH in E.
Qed.

Lemma two_byte_loop_pad fuel curr end_ pad exts raw pd es r :
  two_byte_loop fuel curr end_ pad exts raw = Ok (pd, es, r) → pad <= pd.
Proof.
  revert curr pad exts raw. induction fuel as [|fuel IH]; intros curr pad exts raw; cbn [two_byte_loop];
    destruct (curr <? end_); intros E; simplify_eq; try lia.
  apply res_bind_inv in E as ([b raw1] & _ & E). destruct (b =? 0); [apply IH in E; lia|].
  destruct (_ <=? _); [done|]. apply res_bind_inv in E as ([n raw2] & _ & E).
  destruct (_ <? _); [done|]. apply res_bind_inv in E as ([p raw3] & _ & E). by apply IH in E.
Qed.

Lemma get_extensions_pad raw_len curr raw pr es pd r :
  get_extensions raw_len curr raw = Ok (pr, es, pd, r) → 0 <= pd.
Proof.
  unfold get_extensions. destruct (_ <? _); [done|]. intros E.
  apply res_bind_inv in E as ([profile raw1] & _ & E). apply res_bind_inv in E as ([words raw2] & _ & E).
  destruct (_ <? _); [done|]. repeat case_match; try done.
  - apply res_bind_inv in E as ([[p e] q] & E3 & E). simplify_eq. by apply one_byte_loop_pad in E3.
  - apply res_bind_inv in E as ([[p e] q] & E3 & E). simplify_eq. by apply two_byte_loop_pad in E3.
  - apply res_bind_inv in E as ([p q] & E3 & E). by simplify_eq.
Qed.

Lemma header_unmarshal_fields raw h r :
  Forall byte_ok raw → header_unmarshal raw = Ok (h, r) →
  fits 16 (sequence_number h) ∧ 0 <= header_marshal_size h.
Proof.
  intros Hb. unfold header_unmarshal. destruct (_ <? _); [done|]. intros E.
  apply res_bind_inv in E as ([b0 r1] & E1 & E). apply (get_uint_inv 1) in E1 as (_ & _ & Hb1); [|done].
  destruct (_ <? _); [done|].
  apply res_bind_inv in E as ([b1 r2] & E2 & E). apply (get_uint_inv 1) in E2 as (_ & _ & Hb2); [|done].
  apply res_bind_inv in E as ([sq r3] & E3 & E). apply (get_uint_inv 2) in E3 as (Hsq & _ & Hb3); [|done].
  apply res_bind_inv in E as ([ts r4] & _ & E). apply res_bind_inv in E as ([ss r5] & _ & E).
  apply res_bind_inv in E as ([cs r6] & _ & E). apply res_bind_inv in E as ([[[p es] pd] r7] & E7 & E).
  simplify_eq. split; [done|]. unfold header_marshal_size, marshal_size_for. cbn [extension csrc extensions_padding].
  pose proof (len_nonneg cs). unfold CSRC_LENGTH.
  destruct (0 <? Z.land (Z.shiftr b0 4) 1); [|lia]. apply get_extensions_pad in E7.
  set (h := mkHeader _ _ _ _ _ _ _ _ _ _ _ _). pose proof (payload_len_nonneg h).
  assert (0 <= div_ceil (get_extension_payload_len h + pd) 4) by (unfold div_ceil; apply Z.div_pos; lia). lia.
Qed.

End CodecLemmas.

(** ** The extension list *)

Lemma update_ext_spec i p exts exts' old :
  update_ext i p exts = Some (exts', old) →
  (∃ a e b, exts = a ++ e :: b ∧ exts' = a ++ mkExt i p :: b ∧ id e = i ∧ payload e = old ∧
            Forall (λ e, id e ≠ i) a).
Proof.
  revert exts'. induction exts as [|e exts IH]; intros exts' E; simpl in E; [done|].
  destruct (Z.eqb_spec (id e) i).
  - injection E as <- <-. exists [], e, exts. done.
  - destruct (update_ext i p exts) as [[r o]|]; [|done]. simplify_eq.
    destruct (IH r eq_refl) as (a & e' & b & -> & -> & ? & ? & ?).
    exists (e :: a), e', b. split_and!; try done. by constructor.
Qed.

Lemma update_ext_none i p exts : update_ext i p exts = None → Forall (λ e, id e ≠ i) exts.
Proof.
  induction exts as [|e exts IH]; simpl; [done|]. destruct (Z.eqb_spec (id e) i); [done|].
  destruct (update_ext i p exts) as [[]|]; [done|]. intros _. constructor; auto.
Qed.

Lemma remove_ext_spec i exts exts' e :
  remove_ext i exts = Some (exts', e) →
  ∃ a b, exts = a ++ e :: b ∧ exts' = a ++ b ∧ id e = i.
Proof.
  revert exts'. induction exts as [|x exts IH]; intros exts' E; simpl in E; [done|].
  destruct (Z.eqb_spec (id x) i).
  - injection E as <- <-. by exists [], exts.
  - destruct (remove_ext i exts) as [[r o]|]; [|done]. simplify_eq.
    destruct (IH r eq_refl) as (a & b & -> & -> & ?). by exists (x :: a), b.
Qed.

Lemma find_skip (a b : list Extension) i :
  Forall (λ e, id e ≠ i) a → List.find (λ e, id e =? i) (a ++ b) = List.find (λ e, id e =? i) b.
Proof.
  induction 1 as [|e a He Ha IH]; simpl; [done|]. by destruct (Z.eqb_spec (id e) i).
Qed.

Lemma find_app_ne (a b : list Extension) e i :
  id e ≠ i →
  List.find (λ e, id e =? i) (a ++ e :: b) = List.find (λ e, id e =? i) (a ++ b).
Proof.
  intros He. induction a as [|x a IH]; simpl; [by destruct (Z.eqb_spec (id e) i)|]. by rewrite IH.
Qed.

(** ** Alignment bookkeeping *)

Lemma pad_after_spec pad delta n :
  0 <= pad < 4 → (n + pad) mod 4 = 0 →
  0 <= pad_after pad delta < 4 ∧ (n + delta + pad_after pad delta) mod 4 = 0.
Proof.
  intros Hp Hm. unfold pad_after. destruct (Z.compare_spec delta 0) as [->|Hd|Hd].
  - by rewrite Z.add_0_r.
  - rewrite Z.rem_mod_nonneg by lia. pose proof (Z.mod_pos_bound (pad - delta) 4).
    split; [lia|]. rewrite Zplus_mod_idemp_r. by replace (n + delta + (pad - delta)) with (n + pad) by lia.
  - rewrite Z.rem_mod_nonneg by lia. pose proof (Z.mod_pos_bound delta 4).
    pose proof (Z_div_mod_eq_full delta 4) as E.
    destruct (Z.ltb_spec pad (delta mod 4)); (split; [lia|]).
    + replace (n + delta + (pad + 4 - delta mod 4)) with (n + pad + (delta / 4 + 1) * 4) by lia.
      by rewrite Z.mod_add by lia.
    + replace (n + delta + (pad - delta mod 4)) with (n + pad + (delta / 4) * 4) by lia.
      by rewrite Z.mod_add by lia.
Qed.

Lemma pad_fresh n :
  let p := n mod 4 in
  let pad := if 0 <? p then 0 + 4 - p else 0 - p in
  0 <= pad < 4 ∧ (n + pad) mod 4 = 0.
Proof.
  cbv zeta. pose proof (Z.mod_pos_bound n 4). pose proof (Z_div_mod_eq_full n 4).
  destruct (Z.ltb_spec 0 (n mod 4)); (split; [lia|]).
  - replace (n + (0 + 4 - n mod 4)) with (0 + (n / 4 + 1) * 4) by lia. by rewrite Z.mod_add by lia.
  - replace (n + (0 - n mod 4)) with (0 + (n / 4) * 4) by lia. by rewrite Z.mod_add by lia.
Qed.

Lemma payload_len_split h a e b :
  extensions h = a ++ e :: b →
  get_extension_payload_len h =
    sum_len (a ++ b) + len (a ++ b) * profile_len (extension_profile h)
    + (len (payload e) + profile_len (extension_profile h)).
Proof.
  intros E. unfold get_extension_payload_len. rewrite E, !sum_len_app, !len_app, len_cons. simpl. lia.
Qed.

Lemma with_extensions_wf h profile exts pad :
  wf_header h → fits 16 profile → Forall (ext_ok profile) exts →
  sum_len exts + len exts * profile_len profile <= 65532 → 0 <= pad < 4 →
  (sum_len exts + len exts * profile_len profile + pad) mod 4 = 0 →
  (profile_len profile = 0 → ∃ e, exts = [e] ∧ pad = 0) →
  wf_header (with_extensions h true profile exts pad).
Proof. intros [] Hp He Hl Hpad Hal H0. split; try done. Qed.

(** What one call of [set_extension] does to the list and the padding: [i] gets
    the payload [p] at one place, the rest of the list is unchanged. *)
Record set_effect (h : Header) (i : Z) (p : bytes) (h' : Header) (a b : list Extension) : Prop := {
  se_first : Forall (λ e, id e ≠ i) a;
  se_header : h' = with_extensions h true (extension_profile h') (a ++ mkExt i p :: b) (extensions_padding h');
  se_pad : 0 <= extensions_padding h' < 4;
  se_aligned : (get_extension_payload_len h' + extensions_padding h') mod 4 = 0;
}.

Lemma set_extension_existing h i p h' :
  wf_header h → extension h = true → set_extension h i p = Ok h' →
  extension_profile h' = extension_profile h ∧
  ∃ a b, set_effect h i p h' a b ∧
    ((extensions h = a ∧ b = []) ∨ ∃ e, extensions h = a ++ e :: b ∧ id e = i).
Proof.
  intros Hwf Ex E. pose proof (wf_ext h Hwf) as He. unfold set_extension in E.
  rewrite Ex in *. destruct He as (_ & _ & _ & Hpad & Hal & _).
  destruct (check_ext_id _ i (len p)) as [k| |] eqn:Ek; simpl in E; [|done..].
  assert (k = profile_len (extension_profile h)) as ->.
  { unfold check_ext_id, profile_len in *. by repeat case_match; simplify_eq. }
  destruct (update_ext i p (extensions h)) as [[exts old]|] eqn:Eu; injection E as <-; (split; [done|]).
  - apply update_ext_spec in Eu as (a & e & b & El & -> & Hi & <- & Ha). exists a, b.
    split; [|eauto].
    pose proof (pad_after_spec (extensions_padding h) (len p - len (payload e)) _ Hpad Hal) as [Hp1 Hp2].
    split; try done.
    rewrite (payload_len_split (with_extensions h true _ (a ++ mkExt i p :: b) _) a (mkExt i p) b eq_refl).
    rewrite (payload_len_split h a e b El) in Hp2. simpl. rewrite <- Hp2. f_equal; lia.
  - apply update_ext_none in Eu. exists (extensions h), []. split; [|by left].
    pose proof (pad_after_spec (extensions_padding h)
      (len p + profile_len (extension_profile h)) _ Hpad Hal) as [Hp1 Hp2].
    split; try done.
    rewrite (payload_len_split (with_extensions h true _ (extensions h ++ [mkExt i p]) _)
      (extensions h) (mkExt i p) [] eq_refl).
    rewrite app_nil_r. simpl. rewrite <- Hp2. unfold get_extension_payload_len. f_equal; lia.
Qed.

Lemma set_extension_fresh h i p h' :
  wf_header h → extension h = false → set_extension h i p = Ok h' →
  set_effect h i p h' [] [] ∧ fits 16 (extension_profile h').
Proof.
  intros Hwf Ex E. pose proof (wf_ext h Hwf) as He. unfold set_extension in E.
  rewrite Ex in *. destruct He as (Hpf & Hel & Hp0). rewrite Hpf, Hel, Hp0 in E.
  assert (∃ k, fits 16 k ∧ h' = with_extensions h true k [mkExt i p]
    (let q := (len p + profile_len k) mod 4 in if 0 <? q then 0 + 4 - q else 0 - q)) as (k & Hk & ->).
  { destruct (len p <=? 16); [|destruct (len p <=? 255)]; injection E as <-;
      [exists EXTENSION_PROFILE_ONE_BYTE|exists EXTENSION_PROFILE_TWO_BYTE|exists 0];
      by split; [compute; split; congruence|]. }
  split; [|done]. destruct (pad_fresh (len p + profile_len k)) as [Hf1 Hf2]. split; try done.
  assert (∀ pad, get_extension_payload_len (with_extensions h true k [mkExt i p] pad)
    = len p + profile_len k) as Hl by (intros; unfold get_extension_payload_len; simpl; len_lia).
  by rewrite Hl.
Qed.

Lemma ext_ok_zero profile e : profile_len profile = 0 → ext_ok profile e → id e = 0.
Proof. unfold profile_len, ext_ok. intros H0 [_ H]. by repeat case_match. Qed.

(** An unpadded word-aligned RFC 3550 block. *)
Lemma aligned_zero p h k i pad :
  profile_len k = 0 → len p mod 4 = 0 → 0 <= pad < 4 →
  (get_extension_payload_len (with_extensions h true k [mkExt i p] pad) + pad) mod 4 = 0 → pad = 0.
Proof.
  intros Hk Hp Hpad. unfold get_extension_payload_len. simpl. rewrite Hk, Z.mul_0_r, !Z.add_0_r.
  rewrite <- Zplus_mod_idemp_l, Hp. simpl. intros E. rewrite Z.mod_small in E; lia.
Qed.

Lemma find_set h i p h' a b :
  set_effect h i p h' a b → List.find (λ e, id e =? i) (extensions h') = Some (mkExt i p).
Proof.
  intros [Ha -> _ _]. simpl. rewrite find_skip by done. simpl. by rewrite Z.eqb_refl.
Qed.

(** * Properties of the header codec *)

Section Properties.
Context {BC : BytesCrate}.

(** [Header::unmarshal] never panics, whatever bytes arrive from the network:
    every read is covered by a length check. *)
Theorem unmarshal_no_panic (raw : bytes) :
  Forall byte_ok raw → no_panic (header_unmarshal raw).
Proof. apply header_unmarshal_no_panic. Qed.

(** C7: parsing what [marshal] wrote gives the header back and leaves exactly the
    bytes that follow it, for every well-formed header and every payload. *)
Theorem marshal_unmarshal_roundtrip (h : Header) (rest : bytes) :
  wf_header h →
  ∃ bs, marshal h = Ok bs ∧ len bs = header_marshal_size h ∧
        header_unmarshal (bs ++ rest) = Ok (h, rest).
Proof.
  intros Hwf. exists (header_bytes h). pose proof (len_header_bytes h Hwf) as Hl.
  pose proof (len_nonneg (header_bytes h)).
  split_and!; [|done|by apply header_unmarshal_bytes].
  unfold marshal, marshal_size, marshal_to, header_marshal_inst, header_marshal_size_inst.
  rewrite header_marshal_to_wf by (rewrite ?len_replicate; done || lia). cbn [rbind].
  rewrite Z.eqb_refl, drop_ge, app_nil_r; [done|].
  rewrite length_replicate. unfold len in Hl. lia.
Qed.

(** [set_extension] makes [get_extension] return the payload just set and
    leaves every other extension as it was. *)
Theorem set_get_extension (h h' : Header) (i : Z) (p : bytes) :
  wf_header h → set_extension h i p = Ok h' →
  get_extension h' i = Some p ∧
  ∀ j, j ≠ i → get_extension h' j = get_extension h j.
Proof.
  intros Hwf E. pose proof (wf_ext h Hwf) as He. unfold get_extension.
  destruct (extension h) eqn:Ex.
  - destruct (set_extension_existing h i p h' Hwf Ex E) as (_ & a & b & Hs & Hl).
    assert (extension h' = true) as -> by (by rewrite (se_header _ _ _ _ _ _ Hs)).
    rewrite (find_set _ _ _ _ _ _ Hs). split; [done|]. intros j Hj. f_equal.
    rewrite (se_header _ _ _ _ _ _ Hs). simpl. rewrite find_app_ne by done.
    destruct Hl as [[-> ->]|(e & -> & He')]; [by rewrite app_nil_r|].
    by rewrite find_app_ne by congruence.
  - destruct (set_extension_fresh h i p h' Hwf Ex E) as (Hs & _).
    assert (extension h' = true) as -> by (by rewrite (se_header _ _ _ _ _ _ Hs)).
    rewrite (find_set _ _ _ _ _ _ Hs). split; [done|]. intros j Hj.
    rewrite (se_header _ _ _ _ _ _ Hs). simpl. by destruct (Z.eqb_spec i j).
Qed.

(** [set_extension] keeps a header well formed (in particular the block stays
    a whole number of words) when the profile it ends up with can carry the new
    extension: what was set is then what a peer parses, by
    [marshal_unmarshal_roundtrip]. *)
Theorem set_extension_wf (h h' : Header) (i : Z) (p : bytes) :
  wf_header h → set_extension h i p = Ok h' →
  ext_ok (extension_profile h') (mkExt i p) → get_extension_payload_len h' <= 65532 →
  (profile_len (extension_profile h') = 0 → len p mod 4 = 0) →
  wf_header h'.
Proof.
  intros Hwf E Hok Hlen H0. pose proof (wf_ext h Hwf) as He.
  destruct (extension h) eqn:Ex.
  - destruct (set_extension_existing h i p h' Hwf Ex E) as (Hpr & a & b & Hs & Hl).
    destruct Hs as [Ha Hh Hp Hal]. destruct He as (Hf & Hext & _ & _ & _ & H1).
    assert (Forall (ext_ok (extension_profile h')) (a ++ mkExt i p :: b)) as Hall.
    { rewrite Hpr in *. destruct Hl as [[<- ->]|(e & El & _)].
      - apply Forall_app; auto.
      - rewrite El in Hext. apply Forall_app in Hext as [? [_ ?]%Forall_cons].
        apply Forall_app; auto. }
    rewrite Hh. apply with_extensions_wf; try done; [by rewrite Hpr|by rewrite Hh in Hlen|by rewrite Hh in Hal|].
    intros Hz. destruct (H1 ltac:(by rewrite <- Hpr)) as (e & El & Hpe).
    assert (a = [] ∧ b = []) as [-> ->].
    { destruct Hl as [[<- ->]|(e' & El' & _)]; rewrite El in *.
      - rewrite Forall_singleton in Ha. rewrite Forall_singleton in Hext.
        pose proof (ext_ok_zero _ _ Hz Hok) as Hz1. rewrite <- Hpr in Hext.
        pose proof (ext_ok_zero _ _ Hz Hext). simpl in Hz1. congruence.
      - destruct a as [|? [|]]; simplify_list_eq; done. }
    eexists. split; [done|]. rewrite Hh in Hal. eapply (aligned_zero p); eauto.
  - destruct (set_extension_fresh h i p h' Hwf Ex E) as ([Ha Hh Hp Hal] & Hf).
    rewrite Hh. apply with_extensions_wf; try done; [by constructor|by rewrite Hh in Hlen|by rewrite Hh in Hal|].
    intros Hz. eexists. split; [done|]. rewrite Hh in Hal. eapply (aligned_zero p); eauto.
Qed.

(** After [del_extension] the first extension with that identifier is gone,
    the order of the others is unchanged, and the block stays a whole number of
    words. *)
Theorem del_extension_spec (h h' : Header) (i : Z) :
  wf_header h → del_extension h i = Ok h' →
  ∃ a e b, extensions h = a ++ e :: b ∧ id e = i ∧ extensions h' = a ++ b ∧
    0 <= extensions_padding h' < 4 ∧
    (get_extension_payload_len h' + extensions_padding h') mod 4 = 0.
Proof.
  intros Hwf E. pose proof (wf_ext h Hwf) as He. unfold del_extension in E.
  destruct (extension h); [|done]. destruct He as (_ & _ & _ & Hpad & Hal & _).
  destruct (remove_ext i (extensions h)) as [[exts e]|] eqn:Er; [|done]. injection E as <-.
  apply remove_ext_spec in Er as (a & b & El & -> & Hi). exists a, e, b. simpl.
  set (k := len (payload e) + profile_len (extension_profile h)).
  split_and!; try done; try (apply Z.mod_pos_bound; lia).
  rewrite (payload_len_split h a e b El) in Hal. fold k in Hal.
  rewrite Zplus_mod_idemp_r, <- Hal. unfold get_extension_payload_len. simpl.
  rewrite (Z.add_comm (extensions_padding h)), Z.add_assoc, <- Zplus_mod_idemp_l.
  rewrite Zplus_mod_idemp_r, Zplus_mod_idemp_l. done.
Qed.

End Properties.

(** * Behaviour the code did not intend *)

Import BigEndian.

(** The first [set_extension] on a header does not check the identifier: 20
    with a short payload is accepted into the one-byte profile, whose identifiers
    are four bits, and a peer parses extension 4. *)
Theorem first_extension_id_unchecked :
  (let! h := set_extension default_header 20 [1; 2; 3] in
   let! bs := marshal h in
   let! (h', rest) := header_unmarshal bs in
   Ok (get_extension h 20, get_extension h' 20, get_extension h' 4, rest))
  = Ok (Some [1; 2; 3], None, Some [1; 2; 3], []).
Proof. vm_compute. reflexivity. Qed.

(** An empty extension payload is accepted into the one-byte profile, whose
    length field cannot express it: the length underflows, the element is written
    with the reserved identifier 15, and a peer parses no extension at all. *)
Theorem empty_extension_lost :
  (let! h := set_extension default_header 3 [] in
   let! bs := marshal h in
   let! (h', rest) := header_unmarshal bs in
   Ok (get_extension h 3, get_extension_ids h', rest)) = Ok (Some [], [], [0; 0; 0]).
Proof. vm_compute. reflexivity. Qed.

(** A packet whose extension block ends in a full word of padding. *)
Definition padded_packet : bytes :=
  [0x90; 96; 0; 1; 0; 0; 0; 2; 0; 0; 0; 3; 0xBE; 0xDE; 0; 2; 0x10; 0xAA; 0; 0; 0; 0; 0; 0].

(** A header that was parsed cannot always be written again: with a whole word
    of padding in the extension block [marshal_size] counts it, [marshal_to] does
    not write it, and [marshal] fails. *)
Theorem parsed_header_not_remarshalled :
  (let! (h, rest) := header_unmarshal padded_packet in Ok (header_marshal_size h, rest, marshal h))
  = Ok (24, [], Err ErrOther).
Proof. vm_compute. reflexivity. Qed.

(** * The hypotheses hold on concrete inputs *)

Definition sample_header : Header :=
  mkHeader 2 false true true 96 27023 3653407706 476325762 [1; 2] EXTENSION_PROFILE_ONE_BYTE
    [mkExt 1 [0xAA]; mkExt 2 [0xBB; 0xCC]] 3.

Lemma sample_header_wf : wf_header sample_header.
Proof.
  split; simpl; try concrete. split_and!; try concrete.
  repeat constructor; concrete.
Qed.

Lemma unmarshal_no_panic_witness : no_panic (header_unmarshal padded_packet).
Proof. apply (unmarshal_no_panic padded_packet). repeat constructor; concrete. Defined.

Lemma marshal_unmarshal_roundtrip_witness :
  ∃ bs, marshal sample_header = Ok bs ∧ len bs = header_marshal_size sample_header ∧
        header_unmarshal (bs ++ [7; 8]) = Ok (sample_header, [7; 8]).
Proof. apply (marshal_unmarshal_roundtrip sample_header [7; 8]). apply sample_header_wf. Defined.

Definition sample_header_set : Header :=
  with_extensions sample_header true EXTENSION_PROFILE_ONE_BYTE
    [mkExt 1 [0xAA]; mkExt 2 [0xDD; 0xEE; 0xFF]] 2.

Lemma set_get_extension_witness :
  get_extension sample_header_set 2 = Some [0xDD; 0xEE; 0xFF] ∧
  ∀ j, j ≠ 2 → get_extension sample_header_set j = get_extension sample_header j.
Proof.
  apply (set_get_extension sample_header sample_header_set 2 [0xDD; 0xEE; 0xFF]);
    [apply sample_header_wf|vm_compute; reflexivity].
Defined.

Lemma set_extension_wf_witness : wf_header sample_header_set.
Proof.
  apply (set_extension_wf sample_header sample_header_set 2 [0xDD; 0xEE; 0xFF]);
    [apply sample_header_wf|vm_compute; reflexivity| |vm_compute; congruence|discriminate].
  split; [repeat constructor; concrete|concrete].
Defined.

Lemma del_extension_spec_witness :
  ∃ a e b, extensions sample_header = a ++ e :: b ∧ id e = 1 ∧
    extensions (with_extensions sample_header true EXTENSION_PROFILE_ONE_BYTE [mkExt 2 [0xBB; 0xCC]] 1)
    = a ++ b ∧ 0 <= 1 < 4 ∧
    (get_extension_payload_len
       (with_extensions sample_header true EXTENSION_PROFILE_ONE_BYTE [mkExt 2 [0xBB; 0xCC]] 1) + 1) mod 4 = 0.
Proof.
  apply (del_extension_spec sample_header
    (with_extensions sample_header true EXTENSION_PROFILE_ONE_BYTE [mkExt 2 [0xBB; 0xCC]] 1) 1);
    [apply sample_header_wf|vm_compute; reflexivity].
Defined.
