(* ===== verification/RtpExt.v ===== *)
(** The RTP header extension payloads of [rtc-rtp/src/extension] and the NTP clock
    arithmetic of [rtc-shared/src/time.rs] that feeds the absolute send time. *)

From stdpp Require Import strings.
From S2P Require Import Prelude.

(** * Payload formats *)

Record AbsSendTimeExtension := mkAbsSendTime { abs_timestamp : Z }.
Record AudioLevelExtension := mkAudioLevel { level : Z; voice : bool }.
Record PlayoutDelayExtension := mkPlayoutDelay { min_delay : Z; max_delay : Z }.
Record TransportCcExtension := mkTransportCc { transport_sequence : Z }.

Inductive CameraDirection := Front | Back.
Inductive VideoRotation := Degree0 | Degree90 | Degree180 | Degree270.
Record VideoOrientationExtension := mkVideoOrientation {
  direction : CameraDirection; flip : bool; rotation : VideoRotation }.

Definition direction_u8 (d : CameraDirection) : Z := match d with Front => 0 | Back => 1 end.
Definition rotation_u8 (r : VideoRotation) : Z :=
  match r with Degree0 => 0 | Degree90 => 1 | Degree180 => 2 | Degree270 => 3 end.

(** [TryFrom<u8>] of the two enumerations. *)
Definition direction_try_from (v : Z) : res CameraDirection :=
  if v =? 0 then Ok Front else if v =? 1 then Ok Back else Err ErrOther.
Definition rotation_try_from (v : Z) : res VideoRotation :=
  if v =? 0 then Ok Degree0 else if v =? 1 then Ok Degree90
  else if v =? 2 then Ok Degree180 else if v =? 3 then Ok Degree270 else Err ErrOther.

Section ExtCodec.
Context {BC : BytesCrate}.

Definition ABS_SEND_TIME_EXTENSION_SIZE : Z := 3.
Definition AUDIO_LEVEL_EXTENSION_SIZE : Z := 1.
Definition PLAYOUT_DELAY_EXTENSION_SIZE : Z := 3.
Definition PLAYOUT_DELAY_MAX_VALUE : Z := Z.shiftl 1 12 - 1.
Definition TRANSPORT_CC_EXTENSION_SIZE : Z := 2.
Definition VIDEO_ORIENTATION_EXTENSION_SIZE : Z := 1.

Definition abs_send_time_unmarshal (raw : bytes) : res (AbsSendTimeExtension * bytes) :=
  if len raw <? ABS_SEND_TIME_EXTENSION_SIZE then Err ErrBufferTooSmall
  else
    let! (b0, raw) := get_u8 raw in
    let! (b1, raw) := get_u8 raw in
    let! (b2, raw) := get_u8 raw in
    Ok (mkAbsSendTime (Z.lor (Z.lor (Z.shiftl b0 16) (Z.shiftl b1 8)) b2), raw).

Definition abs_send_time_marshal_to (e : AbsSendTimeExtension) (buf : bytes) : res (Z * bytes) :=
  if len buf <? ABS_SEND_TIME_EXTENSION_SIZE then Err ErrBufferTooSmall
  else
    let! w := put_u8 (u8 (Z.shiftr (Z.land (abs_timestamp e) 0xFF0000) 16)) (Wbuf [] buf) in
    let! w := put_u8 (u8 (Z.shiftr (Z.land (abs_timestamp e) 0xFF00) 8)) w in
    let! w := put_u8 (u8 (Z.land (abs_timestamp e) 0xFF)) w in
    Ok (ABS_SEND_TIME_EXTENSION_SIZE, written w ++ room w).

Definition audio_level_unmarshal (raw : bytes) : res (AudioLevelExtension * bytes) :=
  if len raw <? AUDIO_LEVEL_EXTENSION_SIZE then Err ErrBufferTooSmall
  else
    let! (b, raw) := get_u8 raw in
    Ok (mkAudioLevel (Z.land b 0x7F) (negb (Z.land b 0x80 =? 0)), raw).

Definition audio_level_marshal_to (e : AudioLevelExtension) (buf : bytes) : res (Z * bytes) :=
  if len buf <? AUDIO_LEVEL_EXTENSION_SIZE then Err ErrBufferTooSmall
  else if 127 <? level e then Err AudioLevelOverflow
  else
    let v := if voice e then 0x80 else 0 in
    let! w := put_u8 (Z.lor v (level e)) (Wbuf [] buf) in
    Ok (AUDIO_LEVEL_EXTENSION_SIZE, written w ++ room w).

(** [u16::from_be_bytes] *)
Definition u16_from_be (a b : Z) : Z := Z.lor (Z.shiftl a 8) b.

Definition playout_delay_unmarshal (raw : bytes) : res (PlayoutDelayExtension * bytes) :=
  if len raw <? PLAYOUT_DELAY_EXTENSION_SIZE then Err ErrBufferTooSmall
  else
    let! (b0, raw) := get_u8 raw in
    let! (b1, raw) := get_u8 raw in
    let! (b2, raw) := get_u8 raw in
    Ok (mkPlayoutDelay (Z.shiftr (u16_from_be b0 b1) 4) (Z.land (u16_from_be b1 b2) 0x0FFF), raw).

Definition playout_delay_marshal_to (e : PlayoutDelayExtension) (buf : bytes) : res (Z * bytes) :=
  if len buf <? PLAYOUT_DELAY_EXTENSION_SIZE then Err ErrBufferTooSmall
  else if (PLAYOUT_DELAY_MAX_VALUE <? min_delay e) || (PLAYOUT_DELAY_MAX_VALUE <? max_delay e)
  then Err PlayoutDelayOverflow
  else
    let! w := put_u8 (u8 (Z.shiftr (min_delay e) 4)) (Wbuf [] buf) in
    let! w := put_u8 (Z.lor (u8 (Z.shiftl (min_delay e) 4)) (u8 (Z.shiftr (max_delay e) 8))) w in
    let! w := put_u8 (u8 (max_delay e)) w in
    Ok (PLAYOUT_DELAY_EXTENSION_SIZE, written w ++ room w).

Definition transport_cc_unmarshal (raw : bytes) : res (TransportCcExtension * bytes) :=
  if len raw <? TRANSPORT_CC_EXTENSION_SIZE then Err ErrBufferTooSmall
  else
    let! (b0, raw) := get_u8 raw in
    let! (b1, raw) := get_u8 raw in
    Ok (mkTransportCc (Z.lor (Z.shiftl b0 8) b1), raw).

Definition transport_cc_marshal_to (e : TransportCcExtension) (buf : bytes) : res (Z * bytes) :=
  if len buf <? TRANSPORT_CC_EXTENSION_SIZE then Err ErrBufferTooSmall
  else
    let! w := put_u16 (transport_sequence e) (Wbuf [] buf) in
    Ok (TRANSPORT_CC_EXTENSION_SIZE, written w ++ room w).

Definition video_orientation_unmarshal (raw : bytes) : res (VideoOrientationExtension * bytes) :=
  if len raw <? VIDEO_ORIENTATION_EXTENSION_SIZE then Err ErrBufferTooSmall
  else
    let! (b, raw) := get_u8 raw in
    let c := Z.shiftr (Z.land b 8) 3 in
    let f := Z.land b 4 in
    let r := Z.land b 3 in
    let! d := direction_try_from c in
    let! ro := rotation_try_from r in
    Ok (mkVideoOrientation d (0 <? f) ro, raw).

(** No length check: writing into an empty buffer panics. *)
Definition video_orientation_marshal_to (e : VideoOrientationExtension) (buf : bytes) : res (Z * bytes) :=
  let c := u8 (Z.shiftl (direction_u8 (direction e)) 3) in
  let f := if flip e then 4 else 0 in
  let r := rotation_u8 (rotation e) in
  let! w := put_u8 (Z.lor (Z.lor c f) r) (Wbuf [] buf) in
  Ok (VIDEO_ORIENTATION_EXTENSION_SIZE, written w ++ room w).

(** * [HeaderExtension]: the [Custom] case carries the methods of its trait object *)

Inductive HeaderExtension :=
| AbsSendTime (e : AbsSendTimeExtension)
| AudioLevel (e : AudioLevelExtension)
| PlayoutDelay (e : PlayoutDelayExtension)
| TransportCc (e : TransportCcExtension)
| VideoOrientation (e : VideoOrientationExtension)
| Custom (custom_uri : string) (custom_size : Z) (custom_marshal_to : bytes → res (Z * bytes)).

Definition uri (e : HeaderExtension) : string :=
  match e with
  | AbsSendTime _ => "http://www.webrtc.org/experiments/rtp-hdrext/abs-send-time"
  | AudioLevel _ => "urn:ietf:params:rtp-hdrext:ssrc-audio-level"
  | PlayoutDelay _ => "http://www.webrtc.org/experiments/rtp-hdrext/playout-delay"
  | TransportCc _ => "http://www.ietf.org/id/draft-holmer-rmcat-transport-wide-cc-extensions-01"
  | VideoOrientation _ => "urn:3gpp:video-orientation"
  | Custom u _ _ => u
  end.

Definition is_same (a b : HeaderExtension) : bool :=
  match a, b with
  | AbsSendTime _, AbsSendTime _ => true
  | AudioLevel _, AudioLevel _ => true
  | TransportCc _, TransportCc _ => true
  | VideoOrientation _, VideoOrientation _ => true
  | Custom u _ _, Custom u' _ _ => bool_decide (u = u')
  | _, _ => false
  end.

#[export] Instance ext_marshal_size : MarshalSize HeaderExtension := λ e,
  match e with
  | AbsSendTime _ => ABS_SEND_TIME_EXTENSION_SIZE
  | AudioLevel _ => AUDIO_LEVEL_EXTENSION_SIZE
  | PlayoutDelay _ => PLAYOUT_DELAY_EXTENSION_SIZE
  | TransportCc _ => TRANSPORT_CC_EXTENSION_SIZE
  | VideoOrientation _ => VIDEO_ORIENTATION_EXTENSION_SIZE
  | Custom _ size _ => size
  end.

#[export] Instance ext_marshal_to : Marshal HeaderExtension := λ e buf,
  match e with
  | AbsSendTime e => abs_send_time_marshal_to e buf
  | AudioLevel e => audio_level_marshal_to e buf
  | PlayoutDelay e => playout_delay_marshal_to e buf
  | TransportCc e => transport_cc_marshal_to e buf
  | VideoOrientation e => video_orientation_marshal_to e buf
  | Custom _ _ m => m buf
  end.

(** The parser a receiver runs for the kind of extension negotiated (a custom
    extension comes with a [Marshal] only). *)
Definition unmarshal_as (kind : HeaderExtension) (raw : bytes) : res (HeaderExtension * bytes) :=
  match kind with
  | AbsSendTime _ => let! (e, r) := abs_send_time_unmarshal raw in Ok (AbsSendTime e, r)
  | AudioLevel _ => let! (e, r) := audio_level_unmarshal raw in Ok (AudioLevel e, r)
  | PlayoutDelay _ => let! (e, r) := playout_delay_unmarshal raw in Ok (PlayoutDelay e, r)
  | TransportCc _ => let! (e, r) := transport_cc_unmarshal raw in Ok (TransportCc e, r)
  | VideoOrientation _ => let! (e, r) := video_orientation_unmarshal raw in Ok (VideoOrientation e, r)
  | Custom _ _ _ => Err ErrOther
  end.

End ExtCodec.

(** * [AbsSendTimeExtension::new] and [estimate] *)

Definition abs_send_time_new (send_time_ntp : Z) : AbsSendTimeExtension :=
  mkAbsSendTime (Z.shiftr send_time_ntp 14).

Definition abs_send_time_estimate (e : AbsSendTimeExtension) (receive_ntp : Z) : Z :=
  let ntp := Z.lor (Z.land receive_ntp 0xFFFFFFC000000000)
                   (u64 (Z.shiftl (Z.land (abs_timestamp e) 0xFFFFFF) 14)) in
  if receive_ntp <? ntp then u64 (ntp - Z.shiftl 0x1000000 14) else ntp.

(** * [SystemInstant]: Unix time in nanoseconds and 32.32 NTP time *)

Definition NTP_OFFSET : Z := 0x83AA7E80.

Definition unix2ntp (ns : Z) : Z :=
  let u := u64 ns in
  let s := u64 (u / 1000000000 + NTP_OFFSET) in
  let f := u64 (Z.shiftl (u mod 1000000000) 32) / 1000000000 in
  Z.lor (u64 (Z.shiftl s 32)) f.

Definition ntp2unix (ntp : Z) : Z :=
  let s := Z.shiftr ntp 32 in
  let f := Z.shiftr (u64 (Z.land ntp 0xFFFFFFFF * 1000000000)) 32 in
  let s := u64 (s - NTP_OFFSET) in
  u64 (u64 (s * 1000000000) + f).

(** * Lemmas *)

(** The values a payload format can express. *)
Definition ext_valid (e : HeaderExtension) : Prop :=
  match e with
  | AbsSendTime e => fits 24 (abs_timestamp e)
  | AudioLevel e => 0 <= level e < 128
  | PlayoutDelay e => 0 <= min_delay e < 4096 ∧ 0 <= max_delay e < 4096
  | TransportCc e => fits 16 (transport_sequence e)
  | VideoOrientation _ => True
  | Custom _ _ _ => False
  end.

Section ExtLemmas.
Context {BC : BytesCrate}.

(** Reading back single bytes. *)
Lemma get_put_u8 x r : byte_ok x → get_u8 (put_uint 1 x ++ r) = Ok (x, r).
Proof. intros Hx. by apply (get_put_uint 1). Qed.

Definition abs_bytes (t : Z) : bytes :=
  put_uint 1 (t / 2 ^ 16 mod 256) ++ put_uint 1 (t / 2 ^ 8 mod 256) ++ put_uint 1 (t mod 256).

Lemma abs_marshal_put e buf :
  3 <= len buf →
  abs_send_time_marshal_to e buf =
  let! w := put (abs_bytes (abs_timestamp e)) (Wbuf [] buf) in Ok (3, written w ++ room w).
Proof.
  intros Hb. unfold abs_send_time_marshal_to, ABS_SEND_TIME_EXTENSION_SIZE.
  destruct (Z.ltb_spec (len buf) 3); [lia|].
  change 0xFF0000 with (Z.shiftl 255 16). change 0xFF00 with (Z.shiftl 255 8).
  rewrite !shiftr_mask by lia. change 255 with (Z.ones 8).
  rewrite !field_mod, Z.land_ones by lia. unfold put_u8, abs_bytes.
  rewrite !wrap_small by (apply wrap_fits; lia).
  change (2 ^ 8) with 256. by do 2 (apply put_step; intros).
Qed.

Lemma split24 t :
  fits 24 t →
  Z.lor (Z.lor (Z.shiftl (t / 2 ^ 16 mod 256) 16) (Z.shiftl (t / 2 ^ 8 mod 256) 8)) (t mod 256) = t.
Proof.
  intros Ht. unfold fits in Ht. pose proof (Z.mod_pos_bound t 256).
  pose proof (Z.mod_pos_bound (t / 2 ^ 8) 256). pose proof (Z.mod_pos_bound (t / 2 ^ 16) 256).
  rewrite <- Z.lor_assoc, (lor_shiftl_add (t / 2 ^ 8 mod 256) _ 8) by (unfold fits; lia).
  rewrite lor_shiftl_add by (unfold fits; lia).
  change (2 ^ 16) with (256 * 256). change (2 ^ 8) with 256. change (2 ^ 24) with (256 * 256 * 256) in Ht.
  rewrite <- Z.div_div by lia.
  rewrite (Z.mod_small (t / 256 / 256)).
  - pose proof (Z_div_mod_eq_full t 256). pose proof (Z_div_mod_eq_full (t / 256) 256). lia.
  - split; [apply Z.div_pos; [apply Z.div_pos|]; lia|]. do 2 (apply Z.div_lt_upper_bound; [lia|]). lia.
Qed.

Lemma playout_split mn mx :
  0 <= mn < 4096 → 0 <= mx < 4096 →
  let b0 := u8 (Z.shiftr mn 4) in
  let b1 := Z.lor (u8 (Z.shiftl mn 4)) (u8 (Z.shiftr mx 8)) in
  let b2 := u8 mx in
  byte_ok b0 ∧ byte_ok b1 ∧ byte_ok b2 ∧
  Z.shiftr (u16_from_be b0 b1) 4 = mn ∧ Z.land (u16_from_be b1 b2) 0x0FFF = mx.
Proof.
  intros Hmn Hmx. cbv zeta. unfold u16_from_be, wrap.
  rewrite !Z.shiftr_div_pow2, Z.shiftl_mul_pow2 by lia.
  change (2 ^ 4) with 16. change (2 ^ 8) with 256.
  pose proof (Z.mod_pos_bound mn 16). pose proof (Z_div_mod_eq_full mn 16).
  pose proof (Z.mod_pos_bound mx 256). pose proof (Z_div_mod_eq_full mx 256).
  assert (0 <= mx / 256 < 16) by (split; [apply Z.div_pos|apply Z.div_lt_upper_bound]; lia).
  assert (0 <= mn / 16 < 256) by (split; [apply Z.div_pos|apply Z.div_lt_upper_bound]; lia).
  rewrite (Z.mod_small (mx / 256)), (Z.mod_small (mn / 16)) by lia.
  assert ((mn * 16) mod 256 = mn mod 16 * 16) as ->.
  { symmetry. apply Z.mod_unique with (mn / 16); lia. }
  assert (Z.lor (mn mod 16 * 16) (mx / 256) = mn mod 16 * 16 + mx / 256) as ->.
  { change 16 with (2 ^ 4) at 2. rewrite <- Z.shiftl_mul_pow2, lor_shiftl_add by (unfold fits; lia). done. }
  set (b1 := mn mod 16 * 16 + mx / 256).
  rewrite !lor_shiftl_add by (unfold fits; lia).
  split_and!; try (unfold fits; lia).
  - change (2 ^ 8) with 256. symmetry. apply Z.div_unique with (mx / 256); lia.
  - change 0xFFF with (Z.ones 12). rewrite Z.land_ones by lia. symmetry.
    apply Z.mod_unique with (mn mod 16); change (2 ^ 8) with 256; change (2 ^ 12) with 4096; lia.
Qed.

(** One round trip per format. *)

Lemma abs_send_time_rt e rest :
  ext_valid (AbsSendTime e) →
  ∃ bs, marshal (AbsSendTime e) = Ok bs ∧ unmarshal_as (AbsSendTime e) (bs ++ rest) = Ok (AbsSendTime e, rest).
Proof.
  destruct e as [t]. simpl. intros Hv. exists (abs_bytes t).
  assert (len (abs_bytes t) = 3) as Hl by (unfold abs_bytes; autorewrite with len; lia).
  split.
  - apply marshal_put; [done|]. intros buf Hb. apply (abs_marshal_put (mkAbsSendTime t)).
    unfold marshal_size, ext_marshal_size, ABS_SEND_TIME_EXTENSION_SIZE in Hb. lia.
  - pose proof (len_nonneg rest). unfold abs_send_time_unmarshal, ABS_SEND_TIME_EXTENSION_SIZE.
    destruct (Z.ltb_spec (len (abs_bytes t ++ rest)) 3); [len_lia|].
    unfold abs_bytes. rewrite <- !app_assoc.
    do 3 (rewrite get_put_u8 by (apply wrap_fits; lia); cbn [rbind]). by rewrite split24.
Qed.

(** Formats that are a single byte. *)
Lemma one_byte_rt `{Marshal T} (x : T) b :
  marshal_size x = 1 →
  (∀ buf, 1 <= len buf → marshal_to x buf = let! w := put_u8 b (Wbuf [] buf) in Ok (1, written w ++ room w)) →
  marshal x = Ok (put_uint 1 b).
Proof.
  intros Hs Hm. apply marshal_put; [by rewrite len_put_uint|]. intros buf Hb. rewrite Hs in *.
  apply Hm. lia.
Qed.

Lemma audio_level_rt e rest :
  ext_valid (AudioLevel e) →
  ∃ bs, marshal (AudioLevel e) = Ok bs ∧ unmarshal_as (AudioLevel e) (bs ++ rest) = Ok (AudioLevel e, rest).
Proof.
  destruct e as [l v]. simpl. intros Hv.
  assert (let b := Z.lor (if v then 0x80 else 0) l in
    byte_ok b ∧ Z.land b 0x7F = l ∧ negb (Z.land b 0x80 =? 0) = v) as (Hb & Hl & Hvo).
  { revert l Hv. destruct v; enum 128%nat. }
  eexists. split.
  - apply (one_byte_rt (AudioLevel (mkAudioLevel l v)) (Z.lor (if v then 0x80 else 0) l)); [done|].
    intros buf Hbuf. unfold marshal_to, ext_marshal_to, audio_level_marshal_to, AUDIO_LEVEL_EXTENSION_SIZE.
    destruct (Z.ltb_spec (len buf) 1); [lia|]. simpl. by destruct (Z.ltb_spec 127 l); [lia|].
  - pose proof (len_nonneg rest). unfold audio_level_unmarshal, AUDIO_LEVEL_EXTENSION_SIZE.
    rewrite len_app, len_put_uint. rewrite (proj2 (Z.ltb_ge _ _)) by lia.
    rewrite get_put_u8 by done. simpl. by rewrite Hl, Hvo.
Qed.

Lemma playout_delay_rt e rest :
  ext_valid (PlayoutDelay e) →
  ∃ bs, marshal (PlayoutDelay e) = Ok bs ∧ unmarshal_as (PlayoutDelay e) (bs ++ rest) = Ok (PlayoutDelay e, rest).
Proof.
  destruct e as [mn mx]. simpl. intros [Hmn Hmx].
  destruct (playout_split mn mx Hmn Hmx) as (H0 & H1 & H2 & Emn & Emx).
  set (b0 := u8 (Z.shiftr mn 4)) in *. set (b2 := u8 mx) in *.
  set (b1 := Z.lor _ _) in *.
  exists (put_uint 1 b0 ++ put_uint 1 b1 ++ put_uint 1 b2). split.
  - apply marshal_put; [by autorewrite with len|]. intros buf Hb.
    unfold marshal_size, ext_marshal_size, PLAYOUT_DELAY_EXTENSION_SIZE in Hb.
    unfold marshal_to, ext_marshal_to, playout_delay_marshal_to, PLAYOUT_DELAY_EXTENSION_SIZE.
    rewrite (proj2 (Z.ltb_ge _ _)) by lia. change PLAYOUT_DELAY_MAX_VALUE with 4095. simpl.
    rewrite !(proj2 (Z.ltb_ge 4095 _)) by lia. simpl. by do 2 (apply put_step; intros).
  - pose proof (len_nonneg rest). unfold playout_delay_unmarshal, PLAYOUT_DELAY_EXTENSION_SIZE.
    rewrite !len_app, !len_put_uint. rewrite (proj2 (Z.ltb_ge _ _)) by lia. rewrite <- !app_assoc.
    do 3 (rewrite get_put_u8 by done; cbn [rbind]). by rewrite Emn, Emx.
Qed.

Lemma transport_cc_marshal e : marshal (TransportCc e) = Ok (put_uint 2 (transport_sequence e)).
Proof.
  apply marshal_put; [by rewrite len_put_uint|]. intros buf Hb.
  unfold marshal_size, ext_marshal_size, TRANSPORT_CC_EXTENSION_SIZE in Hb.
  unfold marshal_to, ext_marshal_to, transport_cc_marshal_to, TRANSPORT_CC_EXTENSION_SIZE.
  by rewrite (proj2 (Z.ltb_ge _ _)) by lia.
Qed.

Lemma transport_cc_rt e rest :
  ext_valid (TransportCc e) →
  ∃ bs, marshal (TransportCc e) = Ok bs ∧ unmarshal_as (TransportCc e) (bs ++ rest) = Ok (TransportCc e, rest).
Proof.
  destruct e as [s]. simpl. intros Hv. exists (put_uint 2 s). split.
  - apply transport_cc_marshal.
  - pose proof (len_nonneg rest). unfold transport_cc_unmarshal, TRANSPORT_CC_EXTENSION_SIZE.
    rewrite len_app, len_put_uint. rewrite (proj2 (Z.ltb_ge _ _)) by lia.
    rewrite (put_uint_2 s) by done. rewrite <- app_assoc.
    pose proof (Z.mod_pos_bound s 256). unfold fits in Hv.
    assert (byte_ok (s / 256)) by (split; [apply Z.div_pos|apply Z.div_lt_upper_bound]; lia).
    rewrite get_put_u8 by done. cbn [rbind]. rewrite get_put_u8 by (apply wrap_fits; lia). cbn [rbind].
    rewrite lor_shiftl_add by (unfold fits; lia).
    replace (s / 256 * 2 ^ 8 + s mod 256) with s by (pose proof (Z_div_mod_eq_full s 256); lia). done.
Qed.

Lemma video_orientation_rt e rest :
  ext_valid (VideoOrientation e) →
  ∃ bs, marshal (VideoOrientation e) = Ok bs ∧
        unmarshal_as (VideoOrientation e) (bs ++ rest) = Ok (VideoOrientation e, rest).
Proof.
  destruct e as [d f ro]. intros _. eexists. split.
  - apply one_byte_rt; [done|]. intros buf Hb. reflexivity.
  - pose proof (len_nonneg rest). simpl. unfold video_orientation_unmarshal, VIDEO_ORIENTATION_EXTENSION_SIZE.
    rewrite len_app, len_put_uint. rewrite (proj2 (Z.ltb_ge _ _)) by lia.
    rewrite get_put_u8 by (destruct d, f, ro; vm_compute; split; congruence).
    by destruct d, f, ro.
Qed.

End ExtLemmas.

(** * Properties *)

Section ExtProperties.
Context {BC : BytesCrate}.

(** Every header extension payload format reads back what it wrote, and
    leaves the bytes after it, for every value the format can express. *)
Theorem extension_payload_roundtrip (e : HeaderExtension) (rest : bytes) :
  ext_valid e →
  ∃ bs, marshal e = Ok bs ∧ unmarshal_as e (bs ++ rest) = Ok (e, rest).
Proof.
  destruct e as [e|e|e|e|e|]; [..|by intros []]; simpl; intros Hv.
  - by apply abs_send_time_rt.
  - by apply audio_level_rt.
  - by apply playout_delay_rt.
  - by apply transport_cc_rt.
  - by apply video_orientation_rt.
Qed.

End ExtProperties.

(** The receiver recovers the absolute send time, to the 2^14 NTP units (about
    4 microseconds) the 24-bit field keeps, whenever the packet took less than the
    64 seconds the field spans. *)
Theorem abs_send_time_estimate_exact (send receive : Z) :
  fits 64 send → fits 64 receive →
  let sent := send / 2 ^ 14 * 2 ^ 14 in
  sent <= receive < sent + 2 ^ 38 →
  abs_send_time_estimate (abs_send_time_new send) receive = sent.
Proof.
  intros Hs Hr. cbv zeta. intros Hd. unfold abs_send_time_estimate, abs_send_time_new. simpl.
  rewrite Z.shiftr_div_pow2 by lia.
  assert (0 <= send / 2 ^ 14) as Ht by (apply Z.div_pos; destruct Hs; lia).
  set (t := send / 2 ^ 14) in *. clearbody t.
  change 0xFFFFFF with (Z.ones 24). rewrite Z.land_ones by lia.
  pose proof (Z.mod_pos_bound t (2 ^ 24)). pose proof (Z_div_mod_eq_full t (2 ^ 24)) as Et.
  rewrite Z.shiftl_mul_pow2 by lia.
  rewrite (wrap_small 64) by (unfold fits; lia).
  assert (Z.land receive 0xFFFFFFC000000000 = receive / 2 ^ 38 * 2 ^ 38) as ->.
  { change 0xFFFFFFC000000000 with (Z.shiftl (Z.ones 26) 38).
    rewrite <- (Z.shiftl_mul_pow2 _ 38), <- (Z.shiftr_div_pow2 _ 38) by lia.
    apply Z.bits_inj'. intros j Hj. rewrite Z.land_spec, !Z.shiftl_spec by lia.
    destruct (Z.lt_ge_cases j 38) as [Hj1|Hj1]; [by rewrite !(Z.testbit_neg_r _ (j - 38)), andb_false_r by lia|].
    rewrite Z.shiftr_spec by lia. replace (j - 38 + 38) with j by lia.
    destruct (Z.lt_ge_cases j 64) as [Hj2|Hj2].
    - by rewrite Z.ones_spec_low, andb_true_r by lia.
    - by rewrite (testbit_fits 64 receive) by (done || lia). }
  rewrite <- (Z.shiftl_mul_pow2 _ 38), lor_shiftl_add by (unfold fits; lia).
  pose proof (Z.mod_pos_bound receive (2 ^ 38)). pose proof (Z_div_mod_eq_full receive (2 ^ 38)) as Er.
  unfold fits in *. change (Z.shiftl 16777216 14) with (2 ^ 38).
  change (2 ^ 38) with (2 ^ 24 * 2 ^ 14) in *.
  destruct (Z.ltb_spec receive (receive / (2 ^ 24 * 2 ^ 14) * (2 ^ 24 * 2 ^ 14) + t mod 2 ^ 24 * 2 ^ 14)).
  - assert (receive / (2 ^ 24 * 2 ^ 14) = t / 2 ^ 24 + 1) as Eq by nia.
    rewrite Eq, wrap_small; unfold fits; lia.
  - assert (receive / (2 ^ 24 * 2 ^ 14) = t / 2 ^ 24) as Eq by nia. rewrite Eq. lia.
Qed.

(** Converting a Unix time to NTP and back loses at most one nanosecond, for
    every time before the NTP era ends in February 2036. *)
Theorem ntp_unix_roundtrip (ns : Z) :
  0 <= ns < (2 ^ 32 - NTP_OFFSET) * 1000000000 →
  ns - 1 <= ntp2unix (unix2ntp ns) <= ns.
Proof.
  intros Hn. unfold unix2ntp, ntp2unix, NTP_OFFSET in *.
  rewrite (wrap_small 64 ns) by (unfold fits; lia).
  pose proof (Z.mod_pos_bound ns 1000000000). pose proof (Z_div_mod_eq_full ns 1000000000) as En.
  set (s := ns / 1000000000) in *. set (f := ns mod 1000000000) in *.
  assert (0 <= s < 2 ^ 32 - 0x83AA7E80) by lia.
  rewrite (wrap_small 64 (s + _)) by (unfold fits; lia).
  rewrite !Z.shiftl_mul_pow2 by lia.
  rewrite (wrap_small 64 (f * _)), (wrap_small 64 ((s + _) * _)) by (unfold fits; lia).
  set (g := f * 2 ^ 32 / 1000000000).
  assert (0 <= g < 2 ^ 32 ∧ g * 1000000000 <= f * 2 ^ 32 < g * 1000000000 + 1000000000) as [Hg1 Hg2].
  { pose proof (Z.mod_pos_bound (f * 2 ^ 32) 1000000000).
    pose proof (Z_div_mod_eq_full (f * 2 ^ 32) 1000000000). subst g. lia. }
  rewrite <- (Z.shiftl_mul_pow2 _ 32), lor_shiftl_add by (unfold fits; lia).
  rewrite Z.shiftr_div_pow2, Z.div_add_l, (Z.div_small g), Z.add_0_r by lia.
  change 0xFFFFFFFF with (Z.ones 32). rewrite Z.land_ones by lia.
  rewrite (Z.add_comm (_ * 2 ^ 32) g), Z.mod_add, (Z.mod_small g) by lia.
  rewrite (wrap_small 64 (g * _)) by (unfold fits; lia). rewrite Z.shiftr_div_pow2 by lia.
  replace (s + 2208988800 - 2208988800) with s by lia.
  rewrite (wrap_small 64 s), (wrap_small 64 (s * _)) by (unfold fits; lia).
  set (k := g * 1000000000 / 2 ^ 32).
  assert (k * 2 ^ 32 <= g * 1000000000 < k * 2 ^ 32 + 2 ^ 32).
  { pose proof (Z.mod_pos_bound (g * 1000000000) (2 ^ 32)).
    pose proof (Z_div_mod_eq_full (g * 1000000000) (2 ^ 32)). subst k. lia. }
  assert (f - 1 <= k <= f) by lia.
  rewrite wrap_small by (unfold fits; lia). lia.
Qed.

(** [HeaderExtension::is_same] is equality of the extension URIs among the
    built-in formats, except that it has no case for two playout delays: it answers
    that such an extension is not of the same kind as itself. *)
Theorem is_same_uri (a b : HeaderExtension) :
  (∀ u n m, a ≠ Custom u n m) → (∀ u n m, b ≠ Custom u n m) →
  is_same a b = match a, b with
                | PlayoutDelay _, PlayoutDelay _ => false
                | _, _ => bool_decide (uri a = uri b)
                end.
Proof.
  intros Ha Hb. destruct a, b; try reflexivity; exfalso; first [by eapply Ha | by eapply Hb].
Qed.

(** ** The theorems at concrete values *)

Import BigEndian.

Lemma extension_payload_roundtrip_witness :
  ∃ bs, marshal (PlayoutDelay (mkPlayoutDelay 10 4000)) = Ok bs ∧
        unmarshal_as (PlayoutDelay (mkPlayoutDelay 10 4000)) (bs ++ [7]) =
          Ok (PlayoutDelay (mkPlayoutDelay 10 4000), [7]).
Proof.
  apply (extension_payload_roundtrip (PlayoutDelay (mkPlayoutDelay 10 4000)) [7]).
  simpl. lia.
Defined.

Lemma abs_send_time_estimate_exact_witness :
  abs_send_time_estimate (abs_send_time_new (2 ^ 63 + 12345)) (2 ^ 63 + 2 ^ 37) = 2 ^ 63.
Proof.
  apply (abs_send_time_estimate_exact (2 ^ 63 + 12345) (2 ^ 63 + 2 ^ 37)).
  - split; vm_compute; congruence.
  - split; vm_compute; congruence.
  - split; vm_compute; congruence.
Defined.

Lemma ntp_unix_roundtrip_witness :
  1700000000000000000 - 1 <= ntp2unix (unix2ntp 1700000000000000000) <= 1700000000000000000.
Proof.
  apply (ntp_unix_roundtrip 1700000000000000000). split; vm_compute; congruence.
Defined.

Lemma is_same_uri_witness :
  is_same (PlayoutDelay (mkPlayoutDelay 0 0)) (PlayoutDelay (mkPlayoutDelay 0 0)) = false.
Proof.
  apply (is_same_uri (PlayoutDelay (mkPlayoutDelay 0 0)) (PlayoutDelay (mkPlayoutDelay 0 0))); discriminate.
Defined.
