(* ===== verification/RtpPacket.v ===== *)
(** RTP packets and how they are numbered: [Packet] of [rtc-rtp/src/packet], the
    [Sequencer] of [rtc-rtp/src/sequence.rs] and the [Packetizer] of
    [rtc-rtp/src/packetizer].  A payloader is used through the [Payloader] class;
    the payloaders themselves are in [RtpCodec]. *)

From S2P Require Import Prelude RtpHeader RtpExt.

(** * [Packet] *)

Record Packet := mkPacket { header : Header; pkt_payload : bytes }.

(** [get_padding]: what makes the length a multiple of 4. *)
Definition get_padding (n : Z) : Z := if n mod 4 =? 0 then 0 else 4 - n mod 4.

Section PacketCodec.
Context {BC : BytesCrate}.

Definition packet_unmarshal (raw : bytes) : res (Packet * bytes) :=
  let! (h, raw) := header_unmarshal raw in
  let payload_len := len raw in
  let! (p, raw) := copy_to_bytes payload_len raw in
  if padding h then
    if 0 <? payload_len then
      let! padding_len := index p (payload_len - 1) in
      if padding_len <=? payload_len then
        let! p := slice p 0 (payload_len - padding_len) in
        Ok (mkPacket h p, raw)
      else Err ErrShortPacket
    else Err ErrShortPacket
  else Ok (mkPacket h p, raw).

(** The padding a packet carries: at least one word when the flag is set. *)
Definition padding_len (p : Packet) : Z :=
  if padding (header p) then
    let n := get_padding (len (pkt_payload p)) in
    if n =? 0 then 4 else n
  else 0.

#[export] Instance packet_marshal_size : MarshalSize Packet := λ p,
  header_marshal_size (header p) + len (pkt_payload p) + padding_len p.

(** [for i in 0..padding_len]: zeros, then the count. *)
Definition put_padding (n i : Z) (w : wbuf) : res wbuf :=
  if negb (i =? n - 1) then put_u8 0 w else put_u8 (u8 n) w.

#[export] Instance packet_marshal_to : Marshal Packet := λ p buf,
  if len buf <? marshal_size p then Err ErrBufferTooSmall
  else
    let! (n, buf) := header_marshal_to (header p) buf in
    let! hd := slice buf 0 n in
    let! tl := slice buf n (len buf) in
    let! w := put (pkt_payload p) (Wbuf hd tl) in
    let! w := put_all (put_padding (padding_len p)) (below (Z.to_nat (padding_len p))) w in
    Ok (n + len (pkt_payload p) + padding_len p, written w ++ room w).

End PacketCodec.

(** * [Sequencer] *)

Definition U16_MAX : Z := 65535.

Record Counters := mkCounters { seq_number : Z; roll_over_count : Z }.

Definition new_fixed_sequencer (s : Z) : Counters :=
  mkCounters (if s =? 0 then U16_MAX else s - 1) 0.

Definition next_sequence_number (c : Counters) : Z * Counters :=
  if seq_number c =? U16_MAX then (0, mkCounters 0 (u64 (roll_over_count c + 1)))
  else let s := u16 (seq_number c + 1) in (s, mkCounters s (roll_over_count c)).

(** The values [n] calls return, and the counters after them. *)
Fixpoint next_n (n : nat) (c : Counters) : list Z * Counters :=
  match n with
  | O => ([], c)
  | S n =>
      let (s, c) := next_sequence_number c in
      let (l, c) := next_n n c in
      (s :: l, c)
  end.

(** The same method as its atomic operations: the counters are shared by every
    clone of the sequencer ([Arc<AtomicU16>], [Arc<AtomicU64>]), and another
    thread can run between a [load], a [fetch_add] and a [store]. *)
Inductive pc : Type :=
| Load                   (** [sequence_number.load() == u16::MAX] *)
| IncRoc                 (** [roll_over_count.fetch_add(1)] *)
| StoreZero              (** [sequence_number.store(0)] *)
| IncSeq                 (** [sequence_number.fetch_add(1) + 1] *)
| Return (v : Z).

Inductive atomic_step : Counters → pc → Counters → pc → Prop :=
| step_load_max c : seq_number c = U16_MAX → atomic_step c Load c IncRoc
| step_load c : seq_number c ≠ U16_MAX → atomic_step c Load c IncSeq
| step_inc_roc c :
    atomic_step c IncRoc (mkCounters (seq_number c) (u64 (roll_over_count c + 1))) StoreZero
| step_store_zero c : atomic_step c StoreZero (mkCounters 0 (roll_over_count c)) (Return 0)
| step_inc_seq c :
    atomic_step c IncSeq (mkCounters (u16 (seq_number c + 1)) (roll_over_count c))
      (Return (u16 (seq_number c + 1))).

(** Threads interleave: one of them takes a step. *)
Inductive threads_step : Counters * list pc → Counters * list pc → Prop :=
| thread_step c c' l p p' r :
    atomic_step c p c' p' → threads_step (c, l ++ p :: r) (c', l ++ p' :: r).

(** * [Packetizer] *)

(** The [Payloader] trait: fragments of at most [mtu] bytes, and the next state. *)
Class Payloader (P : Type) := payload_frags : P → Z → bytes → res (list bytes) * P.

Record PacketizerImpl (P : Type) := mkPacketizer {
  mtu : Z;
  pz_payload_type : Z;
  pz_ssrc : Z;
  payloader : P;
  sequencer : Counters;
  pz_timestamp : Z;
  clock_rate : Z;
  abs_send_time_ext_id : Z
}.
Arguments mkPacketizer {P} _ _ _ _ _ _ _ _.
Arguments mtu {P} _.
Arguments pz_payload_type {P} _.
Arguments pz_ssrc {P} _.
Arguments payloader {P} _.
Arguments sequencer {P} _.
Arguments pz_timestamp {P} _.
Arguments clock_rate {P} _.
Arguments abs_send_time_ext_id {P} _.

Definition enable_abs_send_time {P} (p : PacketizerImpl P) (i : Z) : PacketizerImpl P :=
  mkPacketizer (mtu p) (pz_payload_type p) (pz_ssrc p) (payloader p) (sequencer p)
    (pz_timestamp p) (clock_rate p) i.

Definition skip_samples {P} (p : PacketizerImpl P) (n : Z) : PacketizerImpl P :=
  mkPacketizer (mtu p) (pz_payload_type p) (pz_ssrc p) (payloader p) (sequencer p)
    (u32 (pz_timestamp p + n)) (clock_rate p) (abs_send_time_ext_id p).

(** The loop over the fragments. *)
Fixpoint make_packets (pt ts ss : Z) (frags : list bytes) (c : Counters) : list Packet * Counters :=
  match frags with
  | [] => ([], c)
  | f :: frags =>
      let (s, c) := next_sequence_number c in
      let h := mkHeader 2 false false (bool_decide (frags = [])) pt s ts ss [] 0 [] 0 in
      let (ps, c) := make_packets pt ts ss frags c in
      (mkPacket h f :: ps, c)
  end.

(** [packets[n - 1].header.set_extension(id, raw)?] *)
Definition set_last_extension (i : Z) (raw : bytes) (ps : list Packet) : res (list Packet) :=
  match last ps with
  | None => Panic
  | Some p =>
      let! h := set_extension (header p) i raw in
      Ok (removelast ps ++ [mkPacket h (pkt_payload p)])
  end.

Section Packetize.
Context {BC : BytesCrate} {P : Type} {HP : Payloader P}.

(** [now_ntp] is what [time_baseline.ntp(now)] reads from the clock.  The counters
    and the timestamp advance even when setting the extension fails. *)
Definition packetize (p : PacketizerImpl P) (now_ntp : Z) (sample : bytes) (samples : Z) :
    res (list Packet) * PacketizerImpl P :=
  let (r, pl) := payload_frags (payloader p) (u64 (mtu p - 12)) sample in
  match r with
  | Err e =>
      (Err e, mkPacketizer (mtu p) (pz_payload_type p) (pz_ssrc p) pl (sequencer p)
                (pz_timestamp p) (clock_rate p) (abs_send_time_ext_id p))
  | Panic => (Panic, p)
  | Ok frags =>
      let (packets, c) := make_packets (pz_payload_type p) (pz_timestamp p) (pz_ssrc p) frags (sequencer p) in
      let p := mkPacketizer (mtu p) (pz_payload_type p) (pz_ssrc p) pl c
                 (u32 (pz_timestamp p + samples)) (clock_rate p) (abs_send_time_ext_id p) in
      if negb (len frags =? 0) && negb (abs_send_time_ext_id p =? 0) then
        (let send_time := AbsSendTime (abs_send_time_new now_ntp) in
         let! (_, raw) := marshal_to send_time (replicate (Z.to_nat (marshal_size send_time)) 0) in
         set_last_extension (abs_send_time_ext_id p) raw packets, p)
      else (Ok packets, p)
  end.

End Packetize.

(** * Lemmas *)

Section PacketLemmas.
Context {BC : BytesCrate}.

(** The padding on the wire: zeros and the count. *)
Definition pad_bytes (n : Z) : bytes :=
  concat ((λ i, put_uint 1 (if negb (i =? n - 1) then 0 else u8 n)) <$> below (Z.to_nat n)).

Lemma rtp_put_padding n w :
  put_all (put_padding n) (below (Z.to_nat n)) w = put (pad_bytes n) w.
Proof.
  apply put_all_put. intros i w' _. unfold put_padding. by destruct (negb _).
Qed.

Lemma pad_bytes_spec n :
  0 < n <= 4 → pad_bytes n = replicate (Z.to_nat (n - 1)) 0 ++ [n].
Proof.
  intros Hn. assert (n = 1 ∨ n = 2 ∨ n = 3 ∨ n = 4) as [->|[->|[->| ->]]] by lia;
    unfold pad_bytes; simpl; by rewrite !put_uint_1 by (split; vm_compute; congruence).
Qed.

Lemma padding_len_bound p :
  if padding (header p) then 0 < padding_len p <= 4 else padding_len p = 0.
Proof.
  unfold padding_len, get_padding. destruct (padding _); [|done].
  pose proof (Z.mod_pos_bound (len (pkt_payload p)) 4).
  destruct (Z.eqb_spec (len (pkt_payload p) mod 4) 0); [simpl; lia|].
  destruct (Z.eqb_spec (4 - len (pkt_payload p) mod 4) 0); lia.
Qed.

Lemma len_pad_bytes p : len (pad_bytes (padding_len p)) = padding_len p.
Proof.
  pose proof (padding_len_bound p) as Hb. destruct (padding _).
  - rewrite pad_bytes_spec by done. rewrite len_app, len_replicate. unfold len; simpl. lia.
  - by rewrite Hb.
Qed.

Definition packet_bytes (p : Packet) : bytes :=
  header_bytes (header p) ++ pkt_payload p ++ pad_bytes (padding_len p).

Lemma len_packet_bytes p : wf_header (header p) → len (packet_bytes p) = marshal_size p.
Proof.
  intros Hwf. unfold packet_bytes, marshal_size, packet_marshal_size.
  rewrite !len_app, len_pad_bytes, len_header_bytes by done. lia.
Qed.

Lemma packet_marshal_bytes p : wf_header (header p) → marshal p = Ok (packet_bytes p).
Proof.
  intros Hwf. pose proof (len_header_bytes _ Hwf) as Hh. pose proof (len_packet_bytes p Hwf) as Hp.
  pose proof (len_nonneg (header_bytes (header p))). pose proof (len_nonneg (pkt_payload p)).
  pose proof (len_pad_bytes p) as Hpad. pose proof (len_nonneg (pad_bytes (padding_len p))).
  unfold marshal, marshal_to, packet_marshal_to. set (buf := replicate _ 0).
  assert (len buf = marshal_size p) as Hbuf.
  { unfold buf. rewrite len_replicate, <- Hp. unfold packet_bytes. rewrite !len_app. lia. }
  rewrite (proj2 (Z.ltb_ge _ _)) by lia.
  unfold marshal_size, packet_marshal_size in Hbuf.
  rewrite header_marshal_to_wf by (done || lia). cbn [rbind].
  rewrite <- Hh, slice_head. cbn [rbind]. rewrite slice_tail by done. cbn [rbind].
  assert (len (drop (length (header_bytes (header p))) buf) = len (pkt_payload p) + padding_len p) as Hd
    by (rewrite len_drop; unfold len in *; lia).
  rewrite put_Ok by (cbn [room]; lia). cbn [rbind written room].
  rewrite rtp_put_padding, put_Ok by (cbn [room]; rewrite len_drop; unfold len in *; lia).
  cbn [rbind written room]. rewrite (drop_ge _ (length (pad_bytes _))) by
    (rewrite length_drop; unfold len in *; lia).
  rewrite app_nil_r. unfold marshal_size, packet_marshal_size. rewrite Hh, Z.eqb_refl. by rewrite <- app_assoc.
Qed.

Lemma packet_unmarshal_bytes p :
  wf_header (header p) → packet_unmarshal (packet_bytes p) = Ok (p, []).
Proof.
  intros Hwf. unfold packet_unmarshal, packet_bytes.
  rewrite header_unmarshal_bytes by done. cbn [rbind].
  set (body := pkt_payload p ++ _).
  replace (copy_to_bytes (len body) body) with (Ok (body, [] : bytes)) by
    (rewrite <- (app_nil_r body) at 3; by rewrite copy_to_bytes_app).
  cbn [rbind]. pose proof (padding_len_bound p) as Hb. pose proof (len_pad_bytes p) as Hpad.
  unfold body. destruct (padding (header p)) eqn:Ep.
  - rewrite len_app, Hpad. pose proof (len_nonneg (pkt_payload p)).
    rewrite (proj2 (Z.ltb_lt _ _)) by lia. rewrite pad_bytes_spec by done.
    rewrite app_assoc, index_app by (autorewrite with len; lia). cbn [rbind].
    rewrite (proj2 (Z.leb_le _ _)) by lia. rewrite <- app_assoc.
    replace (len (pkt_payload p) + padding_len p - padding_len p) with (len (pkt_payload p)) by lia.
    rewrite slice_head. cbn [rbind]. by destruct p.
  - rewrite Hb. unfold pad_bytes. simpl. rewrite app_nil_r. by destruct p.
Qed.

End PacketLemmas.

(** ** Sequence numbers *)

(** The sequencer as one counter: [seq_state k] is reached from a start [k0] by
    [k - k0] calls, with [(k - 1) mod 2^16] the number returned last. *)
Lemma next_sequence_number_spec c :
  fits 16 (seq_number c) →
  fst (next_sequence_number c) = u16 (seq_number c + 1) ∧
  seq_number (snd (next_sequence_number c)) = u16 (seq_number c + 1) ∧
  roll_over_count (snd (next_sequence_number c)) =
    if seq_number c =? U16_MAX then u64 (roll_over_count c + 1) else roll_over_count c.
Proof.
  intros Hf. unfold next_sequence_number. destruct (Z.eqb_spec (seq_number c) U16_MAX) as [->|]; done.
Qed.

Lemma next_n_numbers n c :
  fits 16 (seq_number c) →
  fst (next_n n c) = (λ i, u16 (seq_number c + 1 + i)) <$> below n ∧
  seq_number (snd (next_n n c)) = u16 (seq_number c + Z.of_nat n).
Proof.
  revert c. induction n as [|n IH]; intros c Hf.
  { by rewrite Z.add_0_r, wrap_small by done. }
  destruct (next_sequence_number_spec c Hf) as (E1 & E2 & _). cbn [next_n]. rewrite below_S.
  destruct (next_sequence_number c) as [s c'] eqn:E. cbn [fst snd] in *.
  destruct (IH c') as [I1 I2]; [rewrite E2; by apply wrap_fits|].
  destruct (next_n n c') as [l c'']. cbn [fst snd] in *. subst l. rewrite I2, E2, E1. unfold wrap. split.
  - csimpl. rewrite Z.add_0_r. f_equal. rewrite <- list_fmap_compose. apply list_fmap_ext.
    intros i x _. simpl. rewrite <- Z.add_assoc, Zplus_mod_idemp_l. f_equal. lia.
  - rewrite Zplus_mod_idemp_l. f_equal. lia.
Qed.

(** A carry out of the low part of a sum. *)
Lemma div_carry a n k : 0 < k → (a + 1 + n) / k = (a + 1) / k + ((a + 1) mod k + n) / k.
Proof.
  intros Hk. rewrite (Z_div_mod_eq_full (a + 1) k) at 1.
  rewrite <- Z.add_assoc, (Z.mul_comm k), Z.div_add_l by lia. done.
Qed.

Lemma next_n_roc n c :
  fits 16 (seq_number c) → 0 <= roll_over_count c →
  roll_over_count c + (seq_number c + Z.of_nat n) / 2 ^ 16 < 2 ^ 64 →
  roll_over_count (snd (next_n n c)) = roll_over_count c + (seq_number c + Z.of_nat n) / 2 ^ 16.
Proof.
  revert c. induction n as [|n IH]; intros c Hf H0 Hb.
  { cbn [next_n snd]. rewrite Z.add_0_r, Z.div_small by done. lia. }
  destruct (next_sequence_number_spec c Hf) as (_ & E2 & E3). cbn [next_n].
  destruct (next_sequence_number c) as [s c'] eqn:E. cbn [fst snd] in *.
  replace (seq_number c + Z.of_nat (S n)) with (seq_number c + 1 + Z.of_nat n) in * by lia.
  rewrite div_carry in * by lia. change ((seq_number c + 1) mod 2 ^ 16) with (u16 (seq_number c + 1)) in *.
  rewrite <- E2 in *. pose proof (wrap_fits 16 (seq_number c + 1)) as Hw. rewrite <- E2 in Hw.
  assert (0 <= (seq_number c' + Z.of_nat n) / 2 ^ 16) by (apply Z.div_pos; unfold fits in Hw; lia).
  assert (roll_over_count c' = roll_over_count c + (seq_number c + 1) / 2 ^ 16) as E3'.
  { rewrite E3. unfold U16_MAX. destruct (Z.eqb_spec (seq_number c) 65535) as [Es|].
    - rewrite Es in *. change ((65535 + 1) / 2 ^ 16) with 1 in *. apply wrap_small. unfold fits. lia.
    - rewrite Z.div_small; [lia|]. unfold fits in Hf. lia. }
  assert (0 <= (seq_number c + 1) / 2 ^ 16) by (apply Z.div_pos; unfold fits in Hf; lia).
  specialize (IH c'). destruct (next_n n c') as [l c'']. cbn [fst snd] in *.
  rewrite IH, E3' by (rewrite ?E3'; lia || (apply Hw; lia)). lia.
Qed.

(** ** The packetizer's loop *)

Lemma make_packets_spec pt ts ss frags c ps c' :
  make_packets pt ts ss frags c = (ps, c') →
  pkt_payload <$> ps = frags ∧
  next_n (length frags) c = ((λ p, sequence_number (header p)) <$> ps, c') ∧
  ∀ i p, ps !! i = Some p →
    header p = mkHeader 2 false false (bool_decide (S i = length frags)) pt
                 (sequence_number (header p)) ts ss [] 0 [] 0.
Proof.
  revert c ps. induction frags as [|f frags IH]; intros c ps; cbn [make_packets length next_n].
  { intros [= <- <-]. by split_and!. }
  destruct (next_sequence_number c) as [s c1]. destruct (make_packets pt ts ss frags c1) as [ps1 c2] eqn:E.
  intros [= <- <-]. destruct (IH _ _ E) as (H1 & H2 & H3). rewrite H2. split_and!; [by csimpl; rewrite H1|done|].
  clear H1. intros [|i] p Hp; simplify_eq/=.
  - f_equal. apply bool_decide_ext. destruct frags; simpl; split; done || lia.
  - rewrite (H3 i p Hp) at 1. f_equal. apply bool_decide_ext. lia.
Qed.

Section PacketizeLemmas.
Context {BC : BytesCrate}.

Lemma abs_bytes_wrap t : abs_bytes t = abs_bytes (wrap 24 t).
Proof.
  unfold abs_bytes, wrap. rewrite (Z_div_mod_eq_full t (2 ^ 24)) at 1 2 3.
  set (q := t / 2 ^ 24). set (r := t mod 2 ^ 24).
  replace (2 ^ 24 * q + r) with (q * 2 ^ 8 * 2 ^ 16 + r) at 1 by lia.
  replace (2 ^ 24 * q + r) with (q * 2 ^ 16 * 2 ^ 8 + r) at 1 by lia.
  replace (2 ^ 24 * q + r) with (r + q * 2 ^ 16 * 256) at 1 by lia.
  rewrite !Z.div_add_l, Z.mod_add by lia.
  rewrite (Z.add_comm (q * 2 ^ 8)), (Z.add_comm (q * 2 ^ 16)).
  change (2 ^ 8) with 256. change (q * 2 ^ 16) with (q * (256 * 256)). rewrite Z.mul_assoc, !Z.mod_add by lia. done.
Qed.

Lemma abs_send_time_read t :
  unmarshal_as (AbsSendTime (mkAbsSendTime 0)) (abs_bytes t) = Ok (AbsSendTime (mkAbsSendTime (wrap 24 t)), []).
Proof.
  rewrite abs_bytes_wrap. pose proof (wrap_fits 24 t ltac:(lia)) as Hf. set (u := wrap 24 t) in *.
  unfold unmarshal_as, abs_send_time_unmarshal, ABS_SEND_TIME_EXTENSION_SIZE.
  destruct (Z.ltb_spec (len (abs_bytes u)) 3) as [Hl|_].
  { unfold abs_bytes in Hl. autorewrite with len in Hl. lia. }
  rewrite <- (app_nil_r (abs_bytes u)). unfold abs_bytes. rewrite <- !app_assoc.
  do 3 (rewrite get_put_u8 by (apply wrap_fits; lia); cbn [rbind]). by rewrite split24.
Qed.

Lemma len_abs_bytes t : len (abs_bytes t) = 3.
Proof. unfold abs_bytes. autorewrite with len. lia. Qed.

Lemma abs_bytes_ok t : Forall byte_ok (abs_bytes t).
Proof. unfold abs_bytes. rewrite !Forall_app. eauto using put_uint_bytes. Qed.

(** The header a packet of the packetizer starts from takes the extension as it is. *)
Lemma set_extension_plain m pt s ts ss i t :
  set_extension (mkHeader 2 false false m pt s ts ss [] 0 [] 0) i (abs_bytes t) =
  Ok (mkHeader 2 false true m pt s ts ss [] EXTENSION_PROFILE_ONE_BYTE [mkExt i (abs_bytes t)] 0).
Proof. unfold set_extension. simpl. by rewrite len_abs_bytes. Qed.

Lemma plain_header_wf m pt s ts ss :
  0 <= pt < 128 → fits 16 s → fits 32 ts → fits 32 ss →
  wf_header (mkHeader 2 false false m pt s ts ss [] 0 [] 0).
Proof. intros. split; simpl; try done; lia. Qed.

Lemma stamped_header_wf m pt s ts ss i t :
  0 <= pt < 128 → fits 16 s → fits 32 ts → fits 32 ss → 1 <= i <= 14 →
  wf_header (mkHeader 2 false true m pt s ts ss [] EXTENSION_PROFILE_ONE_BYTE [mkExt i (abs_bytes t)] 0).
Proof.
  intros. split; simpl; try done; try lia.
  assert (get_extension_payload_len
    (mkHeader 2 false true m pt s ts ss [] EXTENSION_PROFILE_ONE_BYTE [mkExt i (abs_bytes t)] 0) = 4) as ->.
  { unfold get_extension_payload_len. simpl. by rewrite len_abs_bytes. }
  split_and!; try done; try lia.
  constructor; [|done]. split; [apply abs_bytes_ok|]. simpl. rewrite len_abs_bytes. lia.
Qed.

Lemma abs_marshal_zeros t n buf :
  marshal_to (AbsSendTime (mkAbsSendTime t)) (replicate 3 0) = Ok (n, buf) → buf = abs_bytes t.
Proof.
  unfold marshal_to, ext_marshal_to. rewrite abs_marshal_put by (rewrite len_replicate; lia). cbn [abs_timestamp].
  pose proof (len_abs_bytes t) as Hl. rewrite put_Ok by (rewrite Hl; done). cbn [rbind written room].
  rewrite drop_ge by (unfold len in Hl; simpl; lia). rewrite app_nil_r. by intros [= _ <-].
Qed.

Lemma abs_marshal_total t :
  ∃ n, marshal_to (AbsSendTime (mkAbsSendTime t)) (replicate 3 0) = Ok (n, abs_bytes t).
Proof.
  destruct (marshal_to (AbsSendTime (mkAbsSendTime t)) (replicate 3 0)) as [[n buf]| |] eqn:E;
    [apply abs_marshal_zeros in E as ->; by exists n|exfalso; revert E..];
    unfold marshal_to, ext_marshal_to; rewrite abs_marshal_put by (rewrite len_replicate; lia);
    cbn [abs_timestamp]; by rewrite put_Ok by (rewrite len_abs_bytes; done).
Qed.

(** The last packet of the loop, with the send time in its header. *)
Definition stamp (i t : Z) (k : Packet) : Packet :=
  mkPacket
    (mkHeader 2 false true (marker (header k)) (payload_type (header k)) (sequence_number (header k))
       (timestamp (header k)) (ssrc (header k)) [] EXTENSION_PROFILE_ONE_BYTE [mkExt i (abs_bytes t)] 0)
    (pkt_payload k).

Lemma set_last_extension_spec i t ps k m pt s ts ss :
  header k = mkHeader 2 false false m pt s ts ss [] 0 [] 0 →
  set_last_extension i (abs_bytes t) (ps ++ [k]) = Ok (ps ++ [stamp i t k]).
Proof.
  intros Hk. unfold set_last_extension. rewrite last_snoc, Hk, set_extension_plain. cbn [rbind].
  rewrite removelast_last. unfold stamp. by rewrite Hk.
Qed.

End PacketizeLemmas.

(** * Properties *)

Section PacketProperties.
Context {BC : BytesCrate}.

(** A packet with a well-formed header is written in [marshal_size] bytes, and
    parsing them gives the header and the payload back: the padding that the flag
    asks for is written, counted and removed. *)
Theorem packet_roundtrip (p : Packet) :
  wf_header (header p) →
  ∃ bs, marshal p = Ok bs ∧ len bs = marshal_size p ∧ packet_unmarshal bs = Ok (p, []).
Proof.
  intros Hwf. exists (packet_bytes p).
  split_and!; [by apply packet_marshal_bytes|by apply len_packet_bytes|by apply packet_unmarshal_bytes].
Qed.

(** Parsing a packet never panics, whatever bytes arrive: it fails or consumes
    the whole input, and the payload is a contiguous part of it, the tail of it
    when no padding is announced. *)
Theorem packet_unmarshal_safe (raw : bytes) :
  Forall byte_ok raw →
  match packet_unmarshal raw with
  | Ok (p, rest) => rest = [] ∧ ∃ hd tl, raw = hd ++ pkt_payload p ++ tl ∧ (padding (header p) = false → tl = [])
  | Err _ => True
  | Panic => False
  end.
Proof.
  intros Hb. unfold packet_unmarshal. pose proof (header_unmarshal_no_panic raw Hb) as Hn.
  destruct (header_unmarshal raw) as [[h r]| |] eqn:E; [|done..]. cbn [rbind].
  apply header_unmarshal_suffix in E as [hd ->]; [|done]. apply Forall_app in Hb as [_ Hb].
  replace (copy_to_bytes (len r) r) with (Ok (r, [] : bytes)) by
    (rewrite <- (app_nil_r r) at 3; by rewrite copy_to_bytes_app).
  cbn [rbind]. destruct (padding h) eqn:Ep; [|by split; [|exists hd, []; rewrite app_nil_r]].
  destruct (Z.ltb_spec 0 (len r)); [|done].
  destruct (index_ok r (len r - 1)) as (n & -> & Hin); [lia|]. cbn [rbind].
  rewrite Forall_forall in Hb. destruct (Hb n Hin) as [Hn0 _].
  destruct (Z.leb_spec n (len r)); [|done].
  rewrite slice_take by lia. cbn [rbind]. split; [done|]. exists hd, (drop (Z.to_nat (len r - n)) r).
  cbn [header pkt_payload]. by rewrite take_drop, Ep.
Qed.

End PacketProperties.

(** [n] calls on a sequencer started at [s] return [s, s + 1, ...] modulo 2^16,
    and the rollover count is the number of times zero was returned: a sequencer
    started at zero counts a rollover on its very first packet. *)
Theorem sequencer_run (s : Z) (n : nat) :
  fits 16 s → Z.of_nat n < 2 ^ 64 →
  fst (next_n n (new_fixed_sequencer s)) = (λ i, u16 (s + i)) <$> below n ∧
  roll_over_count (snd (next_n n (new_fixed_sequencer s))) =
    ((if s =? 0 then 65535 else s - 1) + Z.of_nat n) / 2 ^ 16.
Proof.
  intros Hs Hn. unfold new_fixed_sequencer, U16_MAX. set (k := if s =? 0 then 65535 else s - 1).
  assert (fits 16 k ∧ u16 (k + 1) = s) as [Hk Hks].
  { unfold k. destruct (Z.eqb_spec s 0) as [->|]; [by compute; intuition congruence|].
    unfold fits in *. split; [lia|]. rewrite wrap_small; unfold fits; lia. }
  destruct (next_n_numbers n (mkCounters k 0) Hk) as [-> _]. cbn [seq_number]. split.
  - apply list_fmap_ext. intros i x _. unfold wrap. rewrite <- Hks at 1. unfold wrap.
    by rewrite Zplus_mod_idemp_l.
  - rewrite next_n_roc; cbn [seq_number roll_over_count]; try done.
    apply Z.div_lt_upper_bound; unfold fits in Hk; lia.
Qed.

(** One step of the thread after those in [l]. *)
Ltac run_thread l := eapply rtc_l; [eapply (thread_step _ _ l _ _ _); by econstructor|].

(** Run alone, the atomic operations of [next_sequence_number] compute exactly
    the sequential function. *)
Theorem single_thread_refines (c c' : Counters) (v : Z) :
  rtc threads_step (c, [Load]) (c', [Return v]) ↔ next_sequence_number c = (v, c').
Proof.
  assert (∀ c p c' p', threads_step (c, [p]) (c', p') → ∃ q, p' = [q] ∧ atomic_step c p c' q) as Hinv.
  { intros c0 p c1 p' Hs. inversion Hs; subst. destruct l as [|? [|]]; simplify_list_eq. eauto. }
  unfold next_sequence_number. split.
  - intros Hr. inversion Hr as [|? [c1 p1] ? H1 R1]; subst. apply Hinv in H1 as (q1 & -> & A1).
    inversion A1; subst.
    + rewrite (proj2 (Z.eqb_eq _ _)) by done.
      inversion R1 as [|? [c2 p2] ? H2 R2]; subst. apply Hinv in H2 as (q2 & -> & A2).
      inversion A2; subst. inversion R2 as [|? [c3 p3] ? H3 R3]; subst.
      apply Hinv in H3 as (q3 & -> & A3). inversion A3; subst.
      inversion R3 as [|? [c4 p4] ? H4 R4]; subst; [done|]. apply Hinv in H4 as (? & -> & A4). inversion A4.
    + rewrite (proj2 (Z.eqb_neq _ _)) by done.
      inversion R1 as [|? [c2 p2] ? H2 R2]; subst. apply Hinv in H2 as (q2 & -> & A2).
      inversion A2; subst. inversion R2 as [|? [c4 p4] ? H4 R4]; subst; [done|].
      apply Hinv in H4 as (? & -> & A4). inversion A4.
  - destruct (Z.eqb_spec (seq_number c) U16_MAX); intros [= <- <-].
    + do 3 run_thread ([] : list pc). done.
    + do 2 run_thread ([] : list pc). done.
Qed.

(** Two threads that share a sequencer can both see 65535, and then both number
    their packet 0 and count the same wrap twice; a thread that loaded 65534 before
    the other one moved on returns 0 without counting the wrap at all. *)
Theorem threads_race :
  rtc threads_step (mkCounters 65535 0, [Load; Load]) (mkCounters 0 2, [Return 0; Return 0]) ∧
  rtc threads_step (mkCounters 65534 0, [Load; Load]) (mkCounters 0 0, [Return 65535; Return 0]).
Proof.
  split.
  - run_thread ([] : list pc).
    run_thread ([IncRoc] : list pc).
    do 2 run_thread ([] : list pc).
    do 2 (run_thread ([Return 0] : list pc)). reflexivity.
  - run_thread ([] : list pc).
    run_thread ([IncSeq] : list pc).
    run_thread ([] : list pc).
    run_thread ([Return 65535] : list pc). reflexivity.
Qed.

Section PacketizeProperties.
Context {BC : BytesCrate} {P : Type} {HP : Payloader P}.

(** The stream parameters of a packetizer fit the header fields. *)
Definition wf_packetizer (p : PacketizerImpl P) : Prop :=
  0 <= pz_payload_type p < 128 ∧ fits 32 (pz_ssrc p) ∧ fits 32 (pz_timestamp p) ∧
  fits 16 (seq_number (sequencer p)) ∧ 0 <= abs_send_time_ext_id p <= 14.

(** C8: [packetize] turns the fragments of a payloader into packets that carry them
    in order, with consecutive sequence numbers, the stream's SSRC, payload type and
    current timestamp, the marker on the last packet only and well-formed headers;
    the last packet carries the send time when the extension is enabled; the
    timestamp then moves by the samples and the packetizer stays well formed. *)
Theorem packetize_spec (p : PacketizerImpl P) (now : Z) (sample : bytes) (samples : Z)
    (frags : list bytes) (pl : P) :
  wf_packetizer p → payload_frags (payloader p) (u64 (mtu p - 12)) sample = (Ok frags, pl) →
  ∃ ps p', packetize p now sample samples = (Ok ps, p') ∧
    pkt_payload <$> ps = frags ∧
    (λ k, sequence_number (header k)) <$> ps =
      (λ i, u16 (seq_number (sequencer p) + 1 + i)) <$> below (length frags) ∧
    (∀ i k, ps !! i = Some k →
       wf_header (header k) ∧ ssrc (header k) = pz_ssrc p ∧ timestamp (header k) = pz_timestamp p ∧
       payload_type (header k) = pz_payload_type p ∧
       marker (header k) = bool_decide (S i = length frags)) ∧
    (∀ k, last ps = Some k → abs_send_time_ext_id p ≠ 0 →
       ∃ raw, get_extension (header k) (abs_send_time_ext_id p) = Some raw ∧
         unmarshal_as (AbsSendTime (mkAbsSendTime 0)) raw =
           Ok (AbsSendTime (mkAbsSendTime (wrap 24 (Z.shiftr now 14))), [])) ∧
    pz_timestamp p' = u32 (pz_timestamp p + samples) ∧ payloader p' = pl ∧ wf_packetizer p'.
Proof.
  intros (Hpt & Hss & Hts & Hseq & Hid) Hpl. unfold packetize. rewrite Hpl.
  destruct (make_packets _ _ _ _ _) as [ps c] eqn:E.
  destruct (make_packets_spec _ _ _ _ _ _ _ E) as (Hpay & Hnext & Hhdr).
  destruct (next_n_numbers (length frags) (sequencer p) Hseq) as [Hnum Hc]. rewrite Hnext in Hnum, Hc.
  cbn [fst snd] in Hnum, Hc.
  assert (∀ i k, ps !! i = Some k → fits 16 (sequence_number (header k))) as Hfits.
  { intros i k Hk. assert (sequence_number (header k) ∈ (λ p0, sequence_number (header p0)) <$> ps) as Hin
      by (apply list_elem_of_fmap; eauto using list_elem_of_lookup_2).
    rewrite Hnum in Hin. apply list_elem_of_fmap in Hin as (? & -> & _). by apply wrap_fits. }
  assert (wf_packetizer (mkPacketizer (mtu p) (pz_payload_type p) (pz_ssrc p) pl c
    (u32 (pz_timestamp p + samples)) (clock_rate p) (abs_send_time_ext_id p))) as Hwf'.
  { unfold wf_packetizer. cbn. rewrite Hc. split_and!; try done; try lia; by apply wrap_fits. }
  assert (∀ i k, ps !! i = Some k → wf_header (header k)) as Hwf.
  { intros i k Hk. rewrite (Hhdr i k Hk). apply plain_header_wf; eauto. }
  cbn [abs_send_time_ext_id]. assert (len frags = len ps) as Hlen.
  { unfold len. by rewrite <- Hpay, length_fmap. }
  destruct (decide (ps = [] ∨ abs_send_time_ext_id p = 0)) as [Hno|[Hne Hi0]%Decidable.not_or].
  { assert (negb (len frags =? 0) && negb (abs_send_time_ext_id p =? 0) = false) as ->.
    { rewrite Hlen. destruct Hno as [-> | ->]; [done|]. by rewrite andb_false_r. }
    eexists _, _. split_and!; try done.
    - intros i k Hk. split; [eauto|]. by rewrite (Hhdr i k Hk).
    - intros k Hk ?. destruct Hno as [-> |]; done. }
  destruct ps as [|k ps _] using rev_ind; [done|].
  rewrite (proj2 (Z.eqb_neq (len frags) 0)), (proj2 (Z.eqb_neq _ _)) by (rewrite ?Hlen; done || len_lia).
  cbn [negb andb marshal_size ext_marshal_size]. change (Z.to_nat ABS_SEND_TIME_EXTENSION_SIZE) with 3%nat.
  unfold abs_send_time_new. destruct (abs_marshal_total (Z.shiftr now 14)) as [n ->]. cbn [rbind].
  assert ((ps ++ [k]) !! length ps = Some k) as Hkl by (by apply list_lookup_middle).
  erewrite set_last_extension_spec by (by apply (Hhdr (length ps))).
  eexists _, _. rewrite fmap_app in *. split_and!; try done.
  - by rewrite <- Hnum, !fmap_app.
  - intros i q Hq. apply lookup_app_Some in Hq as [Hq|[Hi Hq]].
    + assert ((ps ++ [k]) !! i = Some q) as Hq' by (by apply lookup_app_l_Some).
      split; [eauto|]. by rewrite (Hhdr i q Hq').
    + destruct (i - length ps)%nat eqn:Ei; simplify_eq/=. assert (i = length ps) as -> by lia.
      pose proof (Hfits _ _ Hkl) as Hs. pose proof (Hhdr _ _ Hkl) as Hh.
      split; [apply stamped_header_wf; first [done|lia|by rewrite Hh]|].
      cbn [stamp header ssrc timestamp payload_type marker]. by rewrite Hh.
  - intros q. rewrite last_snoc. intros [= <-] _. exists (abs_bytes (Z.shiftr now 14)).
    split; [|apply abs_send_time_read]. unfold get_extension. simpl. by rewrite Z.eqb_refl.
Qed.

End PacketizeProperties.

(** ** The theorems at concrete values *)

Import BigEndian.

Definition sample_packet : Packet :=
  mkPacket (mkHeader 2 true false true 96 7 8 9 [] 0 [] 0) [1; 2; 3; 4; 5].

Lemma packet_roundtrip_witness :
  ∃ bs, marshal sample_packet = Ok bs ∧ len bs = marshal_size sample_packet ∧
        packet_unmarshal bs = Ok (sample_packet, []).
Proof. apply (packet_roundtrip sample_packet). split; simpl; try concrete. Defined.

Lemma packet_unmarshal_safe_witness :
  packet_unmarshal [0xA0; 96; 0; 7; 0; 0; 0; 8; 0; 0; 0; 9; 1; 2; 3] = Ok (mkPacket (mkHeader 2 true false false 96 7 8 9 [] 0 [] 0) [], [])
  ∧ match packet_unmarshal [0xA0; 96; 0; 7; 0; 0; 0; 8; 0; 0; 0; 9; 1; 2; 3] with
    | Ok (p, rest) => rest = [] ∧ ∃ hd tl, [0xA0; 96; 0; 7; 0; 0; 0; 8; 0; 0; 0; 9; 1; 2; 3] = hd ++ pkt_payload p ++ tl ∧ (padding (header p) = false → tl = [])
    | Err _ => True
    | Panic => False
    end.
Proof.
  split; [vm_compute; reflexivity|].
  apply (packet_unmarshal_safe [0xA0; 96; 0; 7; 0; 0; 0; 8; 0; 0; 0; 9; 1; 2; 3]).
  repeat constructor; concrete.
Defined.

Lemma sequencer_run_witness :
  fst (next_n 3 (new_fixed_sequencer 65534)) = (λ i, u16 (65534 + i)) <$> below 3 ∧
  roll_over_count (snd (next_n 3 (new_fixed_sequencer 65534))) = (65533 + 3) / 2 ^ 16.
Proof. apply (sequencer_run 65534 3); [concrete|simpl; lia]. Defined.

(** A payloader for the examples: the sample as a single fragment. *)
Definition whole : Type := unit.
#[local] Instance whole_payloader : Payloader whole := λ s _ sample, (Ok [sample], s).

Lemma packetize_spec_witness :
  ∃ ps p',
    packetize (P := whole) (mkPacketizer 1200 111 5 tt (mkCounters 65535 0) 1000 48000 3) (2 ^ 40) [1; 2] 960
    = (Ok ps, p') ∧ pkt_payload <$> ps = [[1; 2]] ∧ pz_timestamp p' = 1960.
Proof.
  destruct (packetize_spec (P := whole) (mkPacketizer 1200 111 5 tt (mkCounters 65535 0) 1000 48000 3)
    (2 ^ 40) [1; 2] 960 [[1; 2]] tt) as (ps & p' & E & Hp & _ & _ & _ & Ht & _).
  - unfold wf_packetizer. simpl. split_and!; concrete.
  - reflexivity.
  - exists ps, p'. done.
Defined.
