(* ===== verification/RtpCodec.v ===== *)
(** The payloaders and depacketizers of [rtc-rtp/src/codec] for G.7xx, Opus and VP8,
    as instances of the packetizer's [Payloader] interface. *)

From S2P Require Import Prelude RtpPacket.

(** * G.711 and G.722 *)

Module G7xx.

Definition t : Type := unit.

(** [while payload_data_remaining > 0 { .. }]: each round takes at least one byte,
    so the length of the payload is enough fuel. *)
Fixpoint loop (fuel : nat) (mtu : Z) (payload : bytes) (remaining idx : Z) (acc : list bytes) :
    res (list bytes) :=
  if 0 <? remaining then
    match fuel with
    | O => Panic
    | S fuel =>
        let size := Z.min mtu remaining in
        let! f := slice payload idx (idx + size) in
        loop fuel mtu payload (remaining - size) (idx + size) (acc ++ [f])
    end
  else Ok acc.

#[global] Instance payload : Payloader t := λ s mtu b,
  if (len b =? 0) || (mtu =? 0) then (Ok [], s)
  else (loop (length b) mtu b (len b) 0 [], s).

End G7xx.

(** * Opus *)

Module Opus.

Definition t : Type := unit.

#[global] Instance payload : Payloader t := λ s mtu b,
  if (len b =? 0) || (mtu =? 0) then (Ok [], s) else (Ok [b], s).

Definition depacketize (packet : bytes) : res bytes :=
  if len packet =? 0 then Err ErrShortPacket else Ok packet.

Definition is_partition_head (_ : bytes) : bool := true.
Definition is_partition_tail (_ : bool) (_ : bytes) : bool := true.

End Opus.

(** * VP8 *)

Module Vp8.

Definition VP8_HEADER_SIZE : Z := 1.

Record Vp8Payloader := mkPayloader { enable_picture_id : bool; p_picture_id : Z }.

Definition using_header_size (p : Vp8Payloader) : Z :=
  if enable_picture_id p then
    if (p_picture_id p =? 0) || (p_picture_id p <? 128) then VP8_HEADER_SIZE + 2 else VP8_HEADER_SIZE + 3
  else VP8_HEADER_SIZE.

(** The four-byte scratch buffer of a fragment, of which [using_header_size] are sent. *)
Definition header_buf (p : Vp8Payloader) (first : bool) : bytes :=
  let b0 := if first then 0x10 else 0 in
  if enable_picture_id p then
    if using_header_size p =? VP8_HEADER_SIZE + 2 then
      [Z.lor b0 0x80; Z.lor 0 0x80; Z.lor 0 (u8 (Z.land (p_picture_id p) 0x7F)); 0]
    else if using_header_size p =? VP8_HEADER_SIZE + 3 then
      [Z.lor b0 0x80; Z.lor 0 0x80;
       Z.lor 0 (Z.lor 0x80 (u8 (Z.land (Z.shiftr (p_picture_id p) 8) 0x7F)));
       Z.lor 0 (u8 (Z.land (p_picture_id p) 0xFF))]
    else [b0; 0; 0; 0]
  else [b0; 0; 0; 0].

Fixpoint loop (fuel : nat) (p : Vp8Payloader) (max_fragment_size : Z) (payload : bytes)
    (remaining idx : Z) (first : bool) (acc : list bytes) : res (list bytes) :=
  if 0 <? remaining then
    match fuel with
    | O => Panic
    | S fuel =>
        let size := Z.min max_fragment_size remaining in
        let! hd := slice (header_buf p first) 0 (using_header_size p) in
        let! f := slice payload idx (idx + size) in
        loop fuel p max_fragment_size payload (remaining - size) (idx + size) false (acc ++ [hd ++ f])
    end
  else Ok acc.

#[global] Instance payload : Payloader Vp8Payloader := λ p mtu b,
  if (len b =? 0) || (mtu =? 0) then (Ok [], p)
  else
    let max_fragment_size := i64 mtu - using_header_size p in
    if Z.min max_fragment_size (len b) <=? 0 then (Ok [], p)
    else
      match loop (length b) p max_fragment_size b (len b) 0 true [] with
      | Ok l => (Ok l, mkPayloader (enable_picture_id p) (Z.land (u16 (p_picture_id p + 1)) 0x7FFF))
      | r => (r, p)
      end.

(** The depacketizer keeps the fields of the last header it parsed. *)
Record Vp8Packet := mkVp8 {
  x : Z; n : Z; s : Z; pid : Z;
  i : Z; l : Z; t : Z; k : Z;
  picture_id : Z; tl0_pic_idx : Z; tid : Z; y : Z; key_idx : Z
}.

Definition default_packet : Vp8Packet := mkVp8 0 0 0 0 0 0 0 0 0 0 0 0 0.

Definition set_required (b : Z) (d : Vp8Packet) : Vp8Packet :=
  mkVp8 (Z.shiftr (Z.land b 0x80) 7) (Z.shiftr (Z.land b 0x20) 5) (Z.shiftr (Z.land b 0x10) 4) (Z.land b 0x07)
    (i d) (l d) (t d) (k d) (picture_id d) (tl0_pic_idx d) (tid d) (y d) (key_idx d).

Definition set_control (b : Z) (d : Vp8Packet) : Vp8Packet :=
  mkVp8 (x d) (n d) (s d) (pid d)
    (Z.shiftr (Z.land b 0x80) 7) (Z.shiftr (Z.land b 0x40) 6) (Z.shiftr (Z.land b 0x20) 5)
    (Z.shiftr (Z.land b 0x10) 4) (picture_id d) (tl0_pic_idx d) (tid d) (y d) (key_idx d).

Definition set_picture_id (v : Z) (d : Vp8Packet) : Vp8Packet :=
  mkVp8 (x d) (n d) (s d) (pid d) (i d) (l d) (t d) (k d) v (tl0_pic_idx d) (tid d) (y d) (key_idx d).

Definition set_tl0 (v : Z) (d : Vp8Packet) : Vp8Packet :=
  mkVp8 (x d) (n d) (s d) (pid d) (i d) (l d) (t d) (k d) (picture_id d) v (tid d) (y d) (key_idx d).

Definition set_tid_key (b : Z) (d : Vp8Packet) : Vp8Packet :=
  let '(tid', y') := if t d =? 1 then (Z.shiftr b 6, Z.land (Z.shiftr b 5) 0x1) else (tid d, y d) in
  let key' := if k d =? 1 then Z.land b 0x1F else key_idx d in
  mkVp8 (x d) (n d) (s d) (pid d) (i d) (l d) (t d) (k d) (picture_id d) (tl0_pic_idx d) tid' y' key'.

Section Depacketize.
Context {BC : BytesCrate}.

(** [if self.x == 1 { .. }]: the reader, and the index of the payload. *)
Definition read_control (r : bytes) (idx : Z) : sm Vp8Packet (bytes * Z) :=
  do! x' <- sgets x;
  if x' =? 1 then
    do! (b, r) <- slift (get_u8 r);
    do! _ <- smodify (set_control b);
    sret (r, idx + 1)
  else sret (r, idx).

(** [if self.i == 1 { .. }] *)
Definition read_picture_id (r : bytes) (idx : Z) : sm Vp8Packet (bytes * Z) :=
  do! i' <- sgets i;
  if i' =? 1 then
    do! (b, r) <- slift (get_u8 r);
    if 0 <? Z.land b 0x80 then
      do! (b1, r) <- slift (get_u8 r);
      do! _ <- smodify (set_picture_id (Z.lor (u16 (Z.shiftl (Z.land b 0x7f) 8)) b1));
      sret (r, idx + 1 + 1)
    else
      do! _ <- smodify (set_picture_id b);
      sret (r, idx + 1)
  else sret (r, idx).

(** [if self.l == 1 { .. }] *)
Definition read_tl0 (r : bytes) (idx : Z) : sm Vp8Packet (bytes * Z) :=
  do! l' <- sgets l;
  if l' =? 1 then
    do! (b, r) <- slift (get_u8 r);
    do! _ <- smodify (set_tl0 b);
    sret (r, idx + 1)
  else sret (r, idx).

(** [if self.t == 1 || self.k == 1 { .. }] *)
Definition read_tid_key (r : bytes) (idx : Z) : sm Vp8Packet (bytes * Z) :=
  do! tk <- sgets (λ d, (t d =? 1) || (k d =? 1));
  if (tk : bool) then
    do! (b, r) <- slift (get_u8 r);
    do! _ <- smodify (set_tid_key b);
    sret (r, idx + 1)
  else sret (r, idx).

Definition depacketize (packet : bytes) : sm Vp8Packet bytes :=
  let payload_len := len packet in
  do! _ <- sguard (payload_len <? 4) ErrShortPacket;
  do! (b, r) <- slift (get_u8 packet);
  do! _ <- smodify (set_required b);
  do! (r, idx) <- read_control r 1;
  do! (r, idx) <- read_picture_id r idx;
  do! _ <- sguard (payload_len <=? idx) ErrShortPacket;
  do! (r, idx) <- read_tl0 r idx;
  do! _ <- sguard (payload_len <=? idx) ErrShortPacket;
  do! (r, idx) <- read_tid_key r idx;
  do! _ <- sguard (payload_len <=? idx) ErrShortPacket;
  slift (slice packet idx payload_len).

(** A receiver that depacketizes the fragments of a frame in order with one
    [Vp8Packet] and joins them. *)
Fixpoint receive (frags : list bytes) (d : Vp8Packet) : res bytes :=
  match frags with
  | [] => Ok []
  | f :: frags =>
      let (r, d) := depacketize f d in
      let! p := r in
      let! q := receive frags d in
      Ok (p ++ q)
  end.

End Depacketize.

Definition is_partition_head (payload : bytes) : bool :=
  match payload with [] => false | b :: _ => negb (Z.land b 0x10 =? 0) end.
Definition is_partition_tail (marker : bool) (_ : bytes) : bool := marker.

End Vp8.

(** * Lemmas *)

(** ** Cutting a payload into fragments *)

(** The reference: fragments of [size] bytes, the last one shorter. *)
Fixpoint chunks (fuel size : nat) (b : bytes) : list bytes :=
  match fuel, b with
  | S fuel, _ :: _ => take size b :: chunks fuel size (drop size b)
  | _, _ => []
  end.

Lemma chunks_concat fuel size b :
  (0 < size)%nat → (length b ≤ fuel)%nat → concat (chunks fuel size b) = b.
Proof.
  intros Hs. revert b. induction fuel as [|fuel IH]; intros [|z b] Hl; simpl in Hl; try done; [lia|].
  cbn [chunks concat]. rewrite IH, take_drop; [done|]. rewrite length_drop. simpl. lia.
Qed.

Lemma chunks_size fuel size b :
  (0 < size)%nat → Forall (λ c, 0 < length c ≤ size)%nat (chunks fuel size b).
Proof.
  intros Hs. revert b. induction fuel as [|fuel IH]; intros [|z b]; try done.
  constructor; [|apply IH]. rewrite length_take. simpl. lia.
Qed.

Lemma chunks_full fuel size b i c :
  (0 < size)%nat → chunks fuel size b !! i = Some c → (S i < length (chunks fuel size b))%nat → length c = size.
Proof.
  intros Hs. revert b i. induction fuel as [|fuel IH]; intros [|z b] i; try done.
  cbn [chunks length]. destruct i as [|i]; cbn [lookup list_lookup]; [|intros; eapply IH; [done|lia]].
  intros [= <-] Hl. destruct (drop size (z :: b)) as [|z' b'] eqn:Ed.
  { destruct fuel; simpl in Hl; lia. }
  apply (f_equal length) in Ed. rewrite length_drop in Ed. simpl in Ed. rewrite length_take. simpl. lia.
Qed.

(** One round of a fragmenting loop. *)
Lemma slice_round (b : bytes) size idx :
  0 < size → 0 <= idx <= len b →
  slice b idx (idx + Z.min size (len b - idx)) = Ok (take (Z.to_nat size) (drop (Z.to_nat idx) b)).
Proof.
  intros Hs Hi. unfold slice, assert_. rewrite !(proj2 (Z.leb_le _ _)) by lia. simpl.
  f_equal. destruct (Z.min_spec size (len b - idx)) as [[? ->]|[? ->]].
  - f_equal. lia.
  - rewrite !take_ge; [done|rewrite length_drop; unfold len in *; lia..].
Qed.

Lemma chunks_step fuel size (b : bytes) idx :
  0 < size → 0 <= idx < len b →
  chunks (S fuel) (Z.to_nat size) (drop (Z.to_nat idx) b) =
    take (Z.to_nat size) (drop (Z.to_nat idx) b) ::
    chunks fuel (Z.to_nat size) (drop (Z.to_nat (idx + Z.min size (len b - idx))) b).
Proof.
  intros Hs Hi. destruct (drop (Z.to_nat idx) b) as [|z b'] eqn:Ed.
  { apply (f_equal length) in Ed. rewrite length_drop in Ed. simpl in Ed. unfold len in Hi. lia. }
  cbn [chunks]. f_equal. rewrite <- Ed, drop_drop. destruct (Z.min_spec size (len b - idx)) as [[? ->]|[? ->]].
  - by rewrite Z2Nat.inj_add by lia.
  - rewrite !drop_ge; [done|unfold len in *; lia..].
Qed.

Lemma chunks_nil fuel size : chunks fuel size [] = [].
Proof. by destruct fuel. Qed.

Module G7xxFacts.
Import G7xx.

Lemma g7xx_loop_spec fuel mtu b idx acc :
  0 < mtu → 0 <= idx <= len b → len b - idx <= Z.of_nat fuel →
  loop fuel mtu b (len b - idx) idx acc =
    Ok (acc ++ chunks fuel (Z.to_nat mtu) (drop (Z.to_nat idx) b)).
Proof.
  intros Hm. revert idx acc. induction fuel as [|fuel IH]; intros idx acc Hi Hf;
    cbn [loop]; destruct (Z.ltb_spec 0 (len b - idx)); try lia.
  1,3: rewrite drop_ge, chunks_nil, app_nil_r by (unfold len in *; lia); done.
  rewrite slice_round by lia. cbn [rbind]. rewrite chunks_step by lia.
  replace (len b - idx - Z.min mtu (len b - idx)) with (len b - (idx + Z.min mtu (len b - idx))) by lia.
  rewrite IH by lia. by rewrite <- app_assoc.
Qed.

End G7xxFacts.

Module Vp8Facts.
Import Vp8.

Definition hd_bytes (p : Vp8Payloader) (first : bool) : bytes :=
  take (Z.to_nat (using_header_size p)) (header_buf p first).

(** The header in front of every fragment, the start bit on the first. *)
Definition with_heads (p : Vp8Payloader) (first : bool) (cs : list bytes) : list bytes :=
  match cs with
  | [] => []
  | c :: cs => (hd_bytes p first ++ c) :: ((λ c, hd_bytes p false ++ c) <$> cs)
  end.

Lemma header_size_cases p :
  (enable_picture_id p = false ∧ using_header_size p = 1 ∧ ∀ f, header_buf p f = [if f then 0x10 else 0; 0; 0; 0]) ∨
  (enable_picture_id p = true ∧ p_picture_id p < 128 ∧ using_header_size p = 3) ∨
  (enable_picture_id p = true ∧ 128 <= p_picture_id p ∧ using_header_size p = 4).
Proof.
  unfold using_header_size, header_buf, VP8_HEADER_SIZE. destruct (enable_picture_id p); [|left; by split_and!].
  right. destruct (Z.eqb_spec (p_picture_id p) 0), (Z.ltb_spec (p_picture_id p) 128); simpl; auto; lia.
Qed.

Lemma header_slice p first :
  slice (header_buf p first) 0 (using_header_size p) = Ok (hd_bytes p first) ∧
  len (hd_bytes p first) = using_header_size p.
Proof.
  assert (length (header_buf p first) = 4%nat) as Hl.
  { unfold header_buf. by repeat case_match. }
  assert (1 <= using_header_size p <= 4) as Hs by (destruct (header_size_cases p) as [|[|]]; lia).
  split; [apply slice_take; unfold len; rewrite Hl; lia|].
  unfold hd_bytes. rewrite len_take. unfold len. rewrite Hl. lia.
Qed.

Lemma vp8_loop_spec fuel p mx b idx first acc :
  0 < mx → 0 <= idx <= len b → len b - idx <= Z.of_nat fuel →
  loop fuel p mx b (len b - idx) idx first acc =
    Ok (acc ++ with_heads p first (chunks fuel (Z.to_nat mx) (drop (Z.to_nat idx) b))).
Proof.
  intros Hm. revert idx first acc. induction fuel as [|fuel IH]; intros idx first acc Hi Hf;
    cbn [loop]; destruct (Z.ltb_spec 0 (len b - idx)); try lia.
  1,3: rewrite drop_ge, chunks_nil by (unfold len in *; lia); cbn [with_heads]; by rewrite app_nil_r.
  rewrite (proj1 (header_slice p first)). cbn [rbind].
  rewrite slice_round by lia. cbn [rbind]. rewrite chunks_step by lia.
  replace (len b - idx - Z.min mx (len b - idx)) with (len b - (idx + Z.min mx (len b - idx))) by lia.
  rewrite IH by lia. rewrite <- app_assoc. cbn [with_heads app]. do 3 f_equal.
  by destruct (chunks _ _ _).
Qed.

(** ** Depacketizing what was written *)

(** No extended control bits are remembered from an earlier packet. *)
Definition no_control (d : Vp8Packet) : Prop := i d ≠ 1 ∧ l d ≠ 1 ∧ t d ≠ 1 ∧ k d ≠ 1.

Section Lemmas.
Context {BC : BytesCrate}.

Lemma depacketize_plain (first : bool) c d :
  no_control d → 3 <= len c →
  depacketize ([if first then 0x10 else 0] ++ c) d =
    (Ok c, set_required (if first then 0x10 else 0) d).
Proof.
  intros (Hi & Hl & Ht & Hk) Hc. unfold depacketize, read_control, read_picture_id, read_tl0, read_tid_key.
  unfold sbind, slift, smodify, sgets, sguard, sret.
  rewrite len_app. change (len [if first then 0x10 else 0]) with 1.
  rewrite (proj2 (Z.ltb_ge _ _)) by lia. cbn [app].
  rewrite get_u8_cons by (destruct first; split; vm_compute; congruence). cbn [set_required x i l t k].
  replace (Z.shiftr (Z.land (if first then 16 else 0) 128) 7 =? 1) with false by (by destruct first).
  rewrite !(proj2 (Z.eqb_neq _ 1)) by done. cbn [orb].
  rewrite !(proj2 (Z.leb_gt _ 1)) by lia.
  change ((if first then 16 else 0) :: c) with ([if first then 16 else 0] ++ c).
  by rewrite slice_tail by (rewrite ?len_app; done).
Qed.

(** The fields after a header with a picture identifier. *)
Definition after_pid (first : bool) (v : Z) (d : Vp8Packet) : Vp8Packet :=
  set_picture_id v (set_control 0x80 (set_required (Z.lor (if first then 0x10 else 0) 0x80) d)).

(** The control bits after the byte [0x80]: only the picture identifier is present. *)
Ltac vp8_norm :=
  cbn [set_picture_id set_control set_required i l t k orb];
  try change (Z.shiftr (Z.land 128 64) 6 =? 1) with false;
  try change (Z.shiftr (Z.land 128 32) 5 =? 1) with false;
  try change (Z.shiftr (Z.land 128 16) 4 =? 1) with false;
  cbn [orb].

Lemma depacketize_short_pid (first : bool) v c d :
  0 <= v < 128 → 1 <= len c →
  depacketize ([Z.lor (if first then 0x10 else 0) 0x80; 0x80; v] ++ c) d = (Ok c, after_pid first v d).
Proof.
  intros Hv Hc. unfold depacketize, read_control, read_picture_id, read_tl0, read_tid_key.
  unfold sbind, slift, smodify, sgets, sguard, sret.
  set (b0 := Z.lor (if first then 0x10 else 0) 0x80). assert (byte_ok b0) by (destruct first; split; vm_compute; congruence).
  rewrite len_app. change (len [b0; 0x80; v]) with 3.
  rewrite (proj2 (Z.ltb_ge _ _)) by lia. cbn [app]. rewrite get_u8_cons by done. cbn [set_required x].
  replace (Z.shiftr (Z.land b0 128) 7 =? 1) with true by (by destruct first).
  rewrite get_u8_cons by (split; vm_compute; congruence). cbn [set_control set_required i l t k].
  change (Z.shiftr (Z.land 128 128) 7 =? 1) with true. cbn iota.
  rewrite get_u8_cons by (unfold fits; lia).
  assert ((0 <? Z.land v 128) = false) as -> by (revert v Hv; enum 128%nat).
  change (1 + 1 + 1) with 3. do 3 (vp8_norm; rewrite ?(proj2 (Z.leb_gt _ 3)) by lia).
  change (b0 :: 128 :: v :: c) with ([b0; 128; v] ++ c). by rewrite slice_tail by (rewrite ?len_app; done).
Qed.

Lemma depacketize_long_pid (first : bool) v c d :
  fits 15 v → 1 <= len c →
  depacketize ([Z.lor (if first then 0x10 else 0) 0x80; 0x80;
                Z.lor 0x80 (u8 (Z.land (Z.shiftr v 8) 0x7F)); u8 (Z.land v 0xFF)] ++ c) d =
    (Ok c, after_pid first v d).
Proof.
  intros Hv Hc. assert (0 <= v / 256 < 128) as Hh.
  { unfold fits in Hv. change (2 ^ 15) with 32768 in Hv.
    split; [apply Z.div_pos; lia|apply Z.div_lt_upper_bound; lia]. }
  rewrite Z.shiftr_div_pow2 by lia. change (2 ^ 8) with 256.
  change 0xFF with (Z.ones 8). rewrite Z.land_ones by lia. change (2 ^ 8) with 256.
  pose proof (Z.mod_pos_bound v 256 ltac:(lia)) as Hm.
  rewrite (wrap_small 8 (v mod 256)) by (unfold fits; lia).
  assert (∀ h, 0 <= h < 128 → u8 (Z.land h 0x7F) = h ∧ byte_ok (Z.lor 0x80 h) ∧
    (0 <? Z.land (Z.lor 0x80 h) 0x80) = true ∧ Z.land (Z.lor 0x80 h) 0x7f = h) as Hbits by enum 128%nat.
  destruct (Hbits _ Hh) as (-> & Hb & Hmb & Hlo).
  unfold depacketize, read_control, read_picture_id, read_tl0, read_tid_key.
  unfold sbind, slift, smodify, sgets, sguard, sret.
  set (b0 := Z.lor (if first then 0x10 else 0) 0x80). assert (byte_ok b0) by (destruct first; split; vm_compute; congruence).
  set (b2 := Z.lor 0x80 (v / 256)) in *. rewrite len_app. change (len [b0; 0x80; b2; v mod 256]) with 4.
  rewrite (proj2 (Z.ltb_ge _ _)) by lia. cbn [app]. rewrite get_u8_cons by done. cbn [set_required x].
  replace (Z.shiftr (Z.land b0 128) 7 =? 1) with true by (by destruct first).
  rewrite get_u8_cons by (split; vm_compute; congruence). cbn [set_control set_required i l t k].
  change (Z.shiftr (Z.land 128 128) 7 =? 1) with true. cbn iota.
  rewrite get_u8_cons by done. rewrite Hmb, Hlo. rewrite get_u8_cons by (unfold fits; lia).
  change (1 + 1 + 1 + 1) with 4. rewrite Z.shiftl_mul_pow2 by lia.
  rewrite (wrap_small 16) by (unfold fits; lia). rewrite <- Z.shiftl_mul_pow2, lor_shiftl_add by (unfold fits; lia).
  replace (v / 256 * 2 ^ 8 + v mod 256) with v by (pose proof (Z_div_mod_eq_full v 256); lia).
  do 3 (vp8_norm; rewrite ?(proj2 (Z.leb_gt _ 4)) by lia).
  change (b0 :: 128 :: b2 :: v mod 256 :: c) with ([b0; 128; b2; v mod 256] ++ c).
  by rewrite slice_tail by (rewrite ?len_app; done).
Qed.

(** When a fragment with chunk [c] sent by [p] can be read with the fields [d]. *)
Definition readable (p : Vp8Payloader) (d : Vp8Packet) (c : bytes) : Prop :=
  if enable_picture_id p then 1 <= len c else no_control d ∧ 3 <= len c.

Lemma depacketize_fragment p first c d :
  fits 15 (p_picture_id p) → readable p d c →
  ∃ d', depacketize (hd_bytes p first ++ c) d = (Ok c, d') ∧
        s d' = (if first then 1 else 0) ∧
        (enable_picture_id p = true → picture_id d' = p_picture_id p) ∧
        ∀ c', readable p d c' → readable p d' c'.
Proof.
  intros Hp. unfold readable, hd_bytes, header_buf.
  destruct (header_size_cases p) as [(He & -> & _)|[(He & Hs & ->)|(He & Hs & ->)]]; rewrite He.
  - intros [Hd Hc]. eexists. split_and!; [by apply depacketize_plain|by destruct first|done|].
    intros c' [? ?]. split; [done|done].
  - intros Hc. change (Z.to_nat 3) with 3%nat. rewrite !Z.lor_0_l. unfold VP8_HEADER_SIZE.
    change (3 =? 1 + 2) with true. cbn iota. cbn [take].
    assert (u8 (Z.land (p_picture_id p) 127) = p_picture_id p) as ->.
    { destruct Hp as [Hp0 _]. assert (0 <= p_picture_id p < 128) as Hr by lia. clear -Hr.
      revert Hr. generalize (p_picture_id p). enum 128%nat. }
    eexists. split_and!; [apply depacketize_short_pid; [destruct Hp; lia|done]|by destruct first|done|done].
  - intros Hc. change (Z.to_nat 4) with 4%nat. rewrite !Z.lor_0_l. unfold VP8_HEADER_SIZE.
    change (4 =? 1 + 2) with false. change (4 =? 1 + 3) with true. cbn iota. cbn [take].
    eexists. split_and!; [by apply depacketize_long_pid|by destruct first|done|done].
Qed.

Lemma receive_fragments p first cs d :
  fits 15 (p_picture_id p) → Forall (readable p d) cs →
  receive (with_heads p first cs) d = Ok (concat cs).
Proof.
  intros Hp. revert first d. induction cs as [|c cs IH]; intros first d Hr; [done|].
  apply Forall_cons in Hr as [Hc Hr]. cbn [with_heads receive].
  destruct (depacketize_fragment p first c d Hp Hc) as (d' & -> & _ & _ & Hd'). cbn [rbind].
  assert (((λ c, hd_bytes p false ++ c) <$> cs) = with_heads p false cs) as -> by (by destruct cs).
  rewrite IH; [done|]. eapply Forall_impl; [done|]. eauto.
Qed.

(** ** Arbitrary packets *)

(** The reader holds what follows the index, with at least [m] bytes left. *)
Definition reader_at (total m : Z) (a : bytes * Z) : Prop :=
  Forall byte_ok (fst a) ∧ len (fst a) = total - snd a ∧ m <= len (fst a) ∧ 0 <= snd a.

Lemma reader_weaken total m m' a : m' <= m → reader_at total m a → reader_at total m' a.
Proof. intros Hm (? & ? & ? & ?). split_and!; done || lia. Qed.

Lemma read_safe total m r idx (f : Z → Vp8Packet → Vp8Packet) :
  0 <= m → reader_at total (m + 1) (r, idx) →
  safe (λ _, True) (do! (b, r) <- slift (get_u8 r); do! _ <- smodify (f b); sret (r, idx + 1))
       (λ a _, reader_at total m a).
Proof.
  intros Hm (Hb & Hl & Hn & Hi) d _. cbn [fst snd] in *.
  destruct (get_uint_total 1 r Hb) as (b & r' & E & _ & _ & Hb' & Hl'); [lia|].
  unfold sbind, slift, smodify, sret. unfold get_u8. rewrite E. split_and!; cbn [fst snd]; done || lia.
Qed.

Lemma read_control_safe total r :
  reader_at total 3 (r, 1) → safe (λ _, True) (read_control r 1) (λ a _, reader_at total 2 a).
Proof.
  intros Hr d _. unfold read_control, sbind at 1, sgets. destruct (x d =? 1).
  - by apply (read_safe total 2).
  - by apply (reader_weaken total 3).
Qed.

Lemma read_picture_id_safe total r idx :
  reader_at total 2 (r, idx) → safe (λ _, True) (read_picture_id r idx) (λ a _, reader_at total 0 a).
Proof.
  intros (Hb & Hl & Hn & Hi) d _. cbn [fst snd] in *. unfold read_picture_id.
  unfold sbind, sgets, slift, smodify, sret, get_u8. destruct (i d =? 1).
  2:{ split_and!; cbn [fst snd]; done || lia. }
  destruct (get_uint_total 1 r Hb) as (b & r1 & -> & _ & _ & Hb1 & Hl1); [lia|].
  destruct (0 <? _); [|split_and!; cbn [fst snd]; done || lia].
  destruct (get_uint_total 1 r1 Hb1) as (b1 & r2 & -> & _ & _ & Hb2 & Hl2); [lia|].
  split_and!; cbn [fst snd]; done || lia.
Qed.

Lemma read_one_safe total r idx :
  reader_at total 1 (r, idx) →
  safe (λ _, True) (read_tl0 r idx) (λ a _, reader_at total 0 a) ∧
  safe (λ _, True) (read_tid_key r idx) (λ a _, reader_at total 0 a).
Proof.
  intros Hr. split; intros d _; unfold read_tl0, read_tid_key, sbind at 1, sgets.
  - destruct (l d =? 1); [by apply (read_safe total 0)|by apply (reader_weaken total 1)].
  - destruct (_ || _); [by apply (read_safe total 0)|by apply (reader_weaken total 1)].
Qed.

(** The length check before every optional field. *)
Lemma check_safe total r idx :
  reader_at total 0 (r, idx) →
  safe (λ _, True) (sguard (S := Vp8Packet) (total <=? idx) ErrShortPacket) (λ _ _, reader_at total 1 (r, idx)).
Proof.
  intros (Hb & Hl & Hn & Hi) d _. unfold sguard. cbn [fst snd] in *.
  destruct (Z.leb_spec total idx); [done|]. split_and!; cbn [fst snd]; done || lia.
Qed.

End Lemmas.

End Vp8Facts.

(** * Properties *)

Section CodecProperties.
Context {BC : BytesCrate}.
Import Vp8Facts.

(** The G.7xx payloader cuts a payload into non-empty fragments of at most
    [mtu] bytes, all but the last of exactly that size, that concatenate to it. *)
Theorem g7xx_fragments (mtu : Z) (b : bytes) :
  0 < mtu →
  ∃ frags, G7xx.payload tt mtu b = (Ok frags, tt) ∧ concat frags = b ∧
    Forall (λ f, 0 < len f <= mtu) frags ∧
    ∀ i f, frags !! i = Some f → (S i < length frags)%nat → len f = mtu.
Proof.
  intros Hm. exists (chunks (length b) (Z.to_nat mtu) b). split_and!.
  - unfold G7xx.payload. rewrite (proj2 (Z.eqb_neq mtu 0)), orb_false_r by lia.
    destruct (Z.eqb_spec (len b) 0) as [Hb|Hb]; [by destruct b|].
    rewrite <- (Z.sub_0_r (len b)). rewrite G7xxFacts.g7xx_loop_spec by (unfold len; lia). by rewrite drop_0.
  - apply chunks_concat; lia.
  - eapply Forall_impl; [apply chunks_size; lia|]. intros f Hf. unfold len. cbn in Hf. lia.
  - intros i f Hf Hi. unfold len. rewrite (chunks_full (length b) (Z.to_nat mtu) b i f); done || lia.
Qed.

(** C10: a frame cut by the VP8 payloader comes back whole when its fragments are
    depacketized in order: always with picture identifiers enabled; without them
    when every fragment has at least 4 bytes and the depacketizer remembers no
    extended control bits.  Fragments fit the MTU, only the first has the start
    bit, and the next frame gets the next 15-bit picture identifier. *)
Theorem vp8_roundtrip (p : Vp8.Vp8Payloader) (mtu : Z) (b : bytes) (d : Vp8.Vp8Packet) :
  fits 15 (Vp8.p_picture_id p) → Vp8.using_header_size p < mtu < 2 ^ 63 → b ≠ [] →
  ∃ frags p', Vp8.payload p mtu b = (Ok frags, p') ∧
    Forall (λ f, len f <= mtu) frags ∧
    (∀ i f, frags !! i = Some f → Vp8.is_partition_head f = bool_decide (i = 0%nat)) ∧
    Vp8.p_picture_id p' = (Vp8.p_picture_id p + 1) mod 2 ^ 15 ∧
    ((Vp8.enable_picture_id p = true ∨ no_control d ∧ Forall (λ f, 4 <= len f) frags) →
     Vp8.receive frags d = Ok b).
Proof.
  intros Hp Hm Hb. assert (0 < len b) by (destruct b; [done|len_lia]).
  assert (1 <= Vp8.using_header_size p) by (destruct (header_size_cases p) as [|[|]]; lia).
  set (mx := mtu - Vp8.using_header_size p). set (cs := chunks (length b) (Z.to_nat mx) b).
  assert (Forall (λ c, 0 < length c ≤ Z.to_nat mx)%nat cs) as Hsz by (apply chunks_size; lia).
  assert (concat cs = b) as Hcat by (apply chunks_concat; lia).
  exists (with_heads p true cs), (Vp8.mkPayloader (Vp8.enable_picture_id p)
    (Z.land (u16 (Vp8.p_picture_id p + 1)) 0x7FFF)).
  assert (∀ first, Forall (λ f, len f <= mtu) (with_heads p first cs)) as Hle.
  { intros first. assert (∀ f c, (0 < length c ≤ Z.to_nat mx)%nat → len (hd_bytes p f ++ c) <= mtu) as Hone.
    { intros f c Hc. rewrite len_app, (proj2 (header_slice p f)). unfold len. lia. }
    destruct Hsz as [|c cs' Hc Hcs]; [done|]. cbn [with_heads]. constructor; [auto|].
    apply Forall_fmap. eapply Forall_impl; [done|]. intros c' Hc'. simpl. auto. }
  split_and!.
  - unfold Vp8.payload. rewrite !(proj2 (Z.eqb_neq _ 0)) by lia. cbn [orb].
    rewrite signed_small by lia. fold mx. rewrite (proj2 (Z.leb_gt _ 0)) by lia.
    rewrite <- (Z.sub_0_r (len b)) at 1. rewrite vp8_loop_spec by (unfold len; lia). by rewrite drop_0.
  - apply Hle.
  - assert (∀ f c, Vp8.is_partition_head (hd_bytes p f ++ c) = f) as Hh.
    { intros f c. unfold hd_bytes, Vp8.header_buf.
      destruct (header_size_cases p) as [(-> & -> & _)|[(-> & _ & ->)|(-> & _ & ->)]]; by destruct f. }
    intros i f. destruct cs as [|c cs']; [done|]. destruct i as [|i]; cbn [with_heads lookup list_lookup].
    + intros [= <-]. by rewrite Hh.
    + intros (c' & -> & _)%list_lookup_fmap_Some. by rewrite Hh.
  - cbn. change 0x7FFF with (Z.ones 15). rewrite Z.land_ones, wrap_small by (unfold fits in *; lia). done.
  - intros Hr. rewrite receive_fragments; [by rewrite Hcat|done|]. unfold readable.
    destruct (Vp8.enable_picture_id p) eqn:He.
    + eapply Forall_impl; [done|]. intros c Hc. simpl in Hc. unfold len. lia.
    + destruct Hr as [?|[Hd Hall]]; [done|].
      assert (Vp8.using_header_size p = 1) as Hh by (destruct (header_size_cases p) as [(_ & -> & _)|[(? & _)|(? & _)]]; congruence).
      destruct cs as [|c cs']; [done|]. cbn [with_heads] in Hall. apply Forall_cons in Hall as [H1 H2].
      rewrite len_app, (proj2 (header_slice p true)), Hh in H1. constructor; [split; [done|lia]|].
      rewrite Forall_fmap in H2. eapply Forall_impl; [exact H2|]. intros c' Hc'. cbn in Hc'.
      rewrite len_app, (proj2 (header_slice p false)), Hh in Hc'. split; [done|lia].
Qed.

(** Depacketizing never panics, on any bytes and with any fields remembered
    from earlier packets. *)
Theorem vp8_depacketize_no_panic (packet : bytes) (d : Vp8.Vp8Packet) :
  Forall byte_ok packet → no_panic (fst (Vp8.depacketize packet d)).
Proof.
  intros Hb. cut (safe (λ _, True) (Vp8.depacketize packet) (λ _ _, True)).
  { intros Hs. specialize (Hs d I). unfold no_panic. by destruct (Vp8.depacketize packet d) as [[| |] ?]. }
  unfold Vp8.depacketize. set (total := len packet).
  apply (safe_bind _ _ (λ _ _, 4 <= total)).
  { intros d' _. unfold sguard. destruct (Z.ltb_spec total 4); done. }
  intros _ d1 Ht. destruct (get_uint_total 1 packet Hb) as (b & r & E & _ & _ & Hbr & Hlr); [unfold total in Ht; lia|].
  unfold sbind at 1, slift at 1, get_u8 at 1. rewrite E. unfold sbind at 1, smodify at 1.
  assert (reader_at total 3 (r, 1)) as Hr by (split_and!; cbn [fst snd]; unfold total in *; done || lia).
  clear E Hbr Hlr. generalize (Vp8.set_required b d1). intros d2.
  revert d2. cut (safe (λ _, True)
    (do! (r, idx) <- Vp8.read_control r 1;
     do! (r, idx) <- Vp8.read_picture_id r idx;
     do! _ <- sguard (total <=? idx) ErrShortPacket;
     do! (r, idx) <- Vp8.read_tl0 r idx;
     do! _ <- sguard (total <=? idx) ErrShortPacket;
     do! (r, idx) <- Vp8.read_tid_key r idx;
     do! _ <- sguard (total <=? idx) ErrShortPacket;
     slift (slice packet idx total)) (λ _ _, True)); [intros Hs d2; by apply Hs|].
  apply (safe_bind _ _ (λ a _, reader_at total 2 a)); [by apply read_control_safe|].
  intros [r1 i1]. apply safe_pure. intros H1.
  apply (safe_bind _ _ (λ a _, reader_at total 0 a)); [by apply read_picture_id_safe|].
  intros [r2 i2]. apply safe_pure. intros H2. eapply safe_bind; [by apply (check_safe total r2 i2)|].
  intros []. apply safe_pure. intros H3. eapply safe_bind; [by apply (read_one_safe total r2 i2)|].
  intros [r3 i3]. apply safe_pure. intros H4. eapply safe_bind; [by apply (check_safe total r3 i3)|].
  intros []. apply safe_pure. intros H5. eapply safe_bind; [by apply (read_one_safe total r3 i3)|].
  intros [r4 i4]. apply safe_pure. intros H6. eapply safe_bind; [by apply (check_safe total r4 i4)|].
  intros []. apply safe_pure. intros (_ & Hl & Hn & Hi) s _. cbn [fst snd] in *.
  unfold slift, total. by rewrite slice_drop by (fold total; lia).
Qed.

(** The depacketizer keeps the extended control bits of an earlier packet when a
    later one has none: after a picture identifier was seen once, the first payload
    byte of every plain fragment is taken for a picture identifier and lost. *)
Theorem vp8_stale_control (d : Vp8.Vp8Packet) (v : Z) (c : bytes) :
  Vp8.i d = 1 → Vp8.l d ≠ 1 → Vp8.t d ≠ 1 → Vp8.k d ≠ 1 → 0 <= v < 128 → 2 <= len c →
  fst (Vp8.depacketize (0x10 :: v :: c) d) = Ok c.
Proof.
  intros Hi Hl Ht Hk Hv Hc.
  unfold Vp8.depacketize, Vp8.read_control, Vp8.read_picture_id, Vp8.read_tl0, Vp8.read_tid_key.
  unfold sbind, slift, smodify, sgets, sguard, sret. rewrite !len_cons.
  rewrite (proj2 (Z.ltb_ge _ _)) by lia. rewrite get_u8_cons by (split; vm_compute; congruence).
  cbn [Vp8.set_required Vp8.x]. change (Z.shiftr (Z.land 16 128) 7 =? 1) with false.
  cbn iota. cbn [Vp8.set_required Vp8.i]. rewrite Hi. cbn [Z.eqb Pos.eqb].
  rewrite get_u8_cons by (unfold fits; lia).
  assert ((0 <? Z.land v 128) = false) as -> by (revert v Hv; enum 128%nat).
  cbn [Vp8.set_picture_id Vp8.set_required Vp8.l Vp8.t Vp8.k]. change (1 + 1) with 2.
  rewrite !(proj2 (Z.leb_gt _ 2)) by lia. cbn [Vp8.set_picture_id Vp8.set_required Vp8.l Vp8.t Vp8.k].
  rewrite !(proj2 (Z.eqb_neq _ 1)) by done. cbn [orb]. rewrite !(proj2 (Z.leb_gt _ 2)) by lia. cbn [fst].
  change (16 :: v :: c) with ([16; v] ++ c). rewrite slice_tail; [done|done|]. rewrite len_app. unfold len. simpl. lia.
Qed.

(** A fragment that carries one or two bytes of a frame without a picture
    identifier is sent, and refused by the depacketizer as too short. *)
Theorem vp8_short_fragment_refused (mtu : Z) (b : bytes) (d : Vp8.Vp8Packet) :
  1 <= len b <= 2 → 4 <= mtu < 2 ^ 63 →
  fst (Vp8.payload (Vp8.mkPayloader false 0) mtu b) = Ok [0x10 :: b] ∧
  Vp8.depacketize (0x10 :: b) d = (Err ErrShortPacket, d).
Proof.
  intros Hb Hm. split.
  - unfold Vp8.payload, Vp8.using_header_size, Vp8.VP8_HEADER_SIZE. cbn [Vp8.enable_picture_id].
    rewrite !(proj2 (Z.eqb_neq _ 0)) by lia. cbn [orb]. rewrite signed_small by lia.
    rewrite (proj2 (Z.leb_gt _ 0)) by lia.
    rewrite <- (Z.sub_0_r (len b)) at 1. rewrite vp8_loop_spec by (unfold len in *; lia). rewrite drop_0. cbn [fst].
    destruct b as [|b0 b]; [unfold len in Hb; simpl in Hb; lia|].
    cbn [length chunks]. rewrite take_ge by (unfold len in Hb; simpl in *; lia).
    rewrite drop_ge, chunks_nil by (unfold len in Hb; simpl in *; lia). done.
  - unfold Vp8.depacketize, sbind at 1, sguard. rewrite len_cons. by rewrite (proj2 (Z.ltb_lt _ 4)) by lia.
Qed.

End CodecProperties.

(** ** The theorems at concrete values *)

Import BigEndian.

Lemma g7xx_fragments_witness :
  ∃ frags, G7xx.payload tt 2 [1; 2; 3] = (Ok frags, tt) ∧ concat frags = [1; 2; 3] ∧
    Forall (λ f, 0 < len f <= 2) frags ∧
    ∀ i f, frags !! i = Some f → (S i < length frags)%nat → len f = 2.
Proof. apply (g7xx_fragments 2 [1; 2; 3]). lia. Defined.

Lemma vp8_roundtrip_witness :
  ∃ frags p', Vp8.payload (Vp8.mkPayloader true 300) 6 [1; 2; 3; 4; 5] = (Ok frags, p') ∧
    Vp8.receive frags Vp8.default_packet = Ok [1; 2; 3; 4; 5].
Proof.
  destruct (vp8_roundtrip (Vp8.mkPayloader true 300) 6 [1; 2; 3; 4; 5] Vp8.default_packet)
    as (frags & p' & E & _ & _ & _ & Hr); [concrete|split; vm_compute; congruence|done|].
  exists frags, p'. split; [done|]. apply Hr. by left.
Defined.

Lemma vp8_depacketize_no_panic_witness :
  no_panic (fst (Vp8.depacketize [0x80; 0xF0; 0x81; 2; 3] Vp8.default_packet)).
Proof.
  apply (vp8_depacketize_no_panic [0x80; 0xF0; 0x81; 2; 3] Vp8.default_packet). repeat constructor; concrete.
Defined.

(** A frame with a picture identifier, then one without. *)
Lemma vp8_stale_control_witness :
  fst (Vp8.depacketize [0x10; 7; 8; 9] (snd (Vp8.depacketize [0x90; 0x80; 5; 1] Vp8.default_packet))) = Ok [8; 9].
Proof.
  apply (vp8_stale_control (snd (Vp8.depacketize [0x90; 0x80; 5; 1] Vp8.default_packet)) 7 [8; 9]);
    vm_compute; intuition congruence.
Defined.

Lemma vp8_short_fragment_refused_witness :
  fst (Vp8.payload (Vp8.mkPayloader false 0) 1200 [1; 2]) = Ok [[0x10; 1; 2]] ∧
  Vp8.depacketize [0x10; 1; 2] Vp8.default_packet = (Err ErrShortPacket, Vp8.default_packet).
Proof.
  apply (vp8_short_fragment_refused 1200 [1; 2] Vp8.default_packet); [concrete|split; vm_compute; congruence].
Defined.
