(* ===== verification/H264.v ===== *)
(** The H.264 payload format, [rtc-rtp/src/codec/h264/mod.rs]: the payloader finds the NAL units
    of an Annex B stream by their start codes, packs the parameter sets into a STAP-A packet,
    and cuts a unit larger than the MTU into FU-A packets; the depacketizer undoes this.

    [h264_roundtrip]: what comes out is the stream that went in, delimiters and filler apart. *)

From S2P Require Import Prelude Codec RtpPacket RtpCodec.

Definition STAPA_NALU_TYPE : Z := 24.
Definition FUA_NALU_TYPE : Z := 28.
Definition FUB_NALU_TYPE : Z := 29.
Definition SPS_NALU_TYPE : Z := 7.
Definition PPS_NALU_TYPE : Z := 8.
Definition AUD_NALU_TYPE : Z := 9.
Definition FILLER_NALU_TYPE : Z := 12.
Definition FUA_HEADER_SIZE : Z := 2.
Definition STAPA_HEADER_SIZE : Z := 1.
Definition STAPA_NALU_LENGTH_SIZE : Z := 2.
Definition NALU_TYPE_BITMASK : Z := 0x1F.
Definition NALU_REF_IDC_BITMASK : Z := 0x60.
Definition FU_START_BITMASK : Z := 0x80.
Definition FU_END_BITMASK : Z := 0x40.
Definition OUTPUT_STAP_AHEADER : Z := 0x78.
Definition ANNEXB_NALUSTART_CODE : bytes := [0; 0; 0; 1].

Record H264Payloader := mkH264 { sps_nalu : option bytes; pps_nalu : option bytes }.

(** The loop of [next_ind], at index [i] of what it looks at, after [zero_count] zeros *)
Fixpoint next_loop (start i zero_count : Z) (l : bytes) : Z * Z :=
  match l with
  | [] => (-1, -1)
  | b :: l =>
      if b =? 0 then next_loop start (i + 1) (zero_count + 1) l
      else if (b =? 1) && (2 <=? zero_count) then (start + i - zero_count, zero_count + 1)
      else next_loop start (i + 1) 0 l
  end.

Definition next_ind (nalu : bytes) (start : Z) : res (Z * Z) :=
  let! rest := slice nalu start (len nalu) in
  Ok (next_loop start 0 0 rest).

Section H264.
Context {BC : BytesCrate}.

Definition stap_a (sps pps : bytes) : bytes :=
  [OUTPUT_STAP_AHEADER] ++ put_uint 2 (u16 (len sps)) ++ sps ++ put_uint 2 (u16 (len pps)) ++ pps.

(** [while nalu_data_remaining > 0]: a fragment takes an octet at least. *)
Fixpoint fu_a_loop (fuel : nat) (nalu : bytes) (b0 nalu_type max_fragment_size data_length remaining idx : Z) : res (list bytes) :=
  if 0 <? remaining then
    match fuel with
    | O => Panic
    | S fuel =>
        let size := Z.min max_fragment_size remaining in
        let b1 := if remaining =? data_length then Z.lor nalu_type (Z.shiftl 1 7)
                  else if remaining - size =? 0 then Z.lor nalu_type (Z.shiftl 1 6)
                  else nalu_type in
        let! f := slice nalu idx (idx + size) in
        let! fs := fu_a_loop fuel nalu b0 nalu_type max_fragment_size data_length (remaining - size) (idx + size) in
        Ok (([b0; b1] ++ f) :: fs)
    end
  else Ok [].

Definition fu_a (nalu : bytes) (mtu nalu_type nalu_ref_idc : Z) : res (list bytes) :=
  let max_fragment_size := mtu - FUA_HEADER_SIZE in
  let data_length := len nalu - 1 in
  if Z.min max_fragment_size data_length <=? 0 then Ok []
  else fu_a_loop (length nalu) nalu (Z.lor FUA_NALU_TYPE nalu_ref_idc) nalu_type max_fragment_size data_length data_length 1.

(** [emit]: the payloads it appends, and the payloader after it *)
Definition emit (nalu : bytes) (mtu : Z) (p : H264Payloader) : res (list bytes) * H264Payloader :=
  match nalu with
  | [] => (Ok [], p)
  | n0 :: _ =>
      let nalu_type := Z.land n0 NALU_TYPE_BITMASK in
      let nalu_ref_idc := Z.land n0 NALU_REF_IDC_BITMASK in
      if (nalu_type =? AUD_NALU_TYPE) || (nalu_type =? FILLER_NALU_TYPE) then (Ok [], p)
      else if nalu_type =? SPS_NALU_TYPE then (Ok [], mkH264 (Some nalu) (pps_nalu p))
      else if nalu_type =? PPS_NALU_TYPE then (Ok [], mkH264 (sps_nalu p) (Some nalu))
      else
        let '(sets, p) :=
          match sps_nalu p, pps_nalu p with
          | Some sps, Some pps =>
              (if len (stap_a sps pps) <=? mtu then [stap_a sps pps] else [], mkH264 None None)
          | _, _ => ([], p)
          end in
        if len nalu <=? mtu then (Ok (sets ++ [nalu]), p)
        else (let! fs := fu_a nalu mtu nalu_type nalu_ref_idc in Ok (sets ++ fs), p)
  end.

(** [while next_ind_start != -1]: the next start code is behind the last one. *)
Fixpoint payload_loop (fuel : nat) (payload : bytes) (mtu ind_start ind_len : Z) : sm H264Payloader (list bytes) :=
  if ind_start =? -1 then sret []
  else match fuel with
  | O => slift Panic
  | S fuel =>
      let prev_start := ind_start + ind_len in
      do! (ind_start, ind_len) <- slift (next_ind payload prev_start);
      do! nalu <- slift (slice payload prev_start (if ind_start =? -1 then len payload else ind_start));
      do! fs <- emit nalu mtu;
      do! gs <- payload_loop fuel payload mtu ind_start ind_len;
      sret (fs ++ gs)
  end.

#[global] Instance h264_payload : Payloader H264Payloader := λ p mtu payload,
  if (len payload =? 0) || (mtu =? 0) then (Ok [], p)
  else
    sbind (slift (next_ind payload 0)) (λ '(ind_start, ind_len),
      if ind_start =? -1 then emit payload mtu
      else payload_loop (S (length payload)) payload mtu ind_start ind_len) p.

(** ** The depacketizer *)

Record H264Packet := mkH264Packet { is_avc : bool; fua_buffer : option bytes }.

(** What is put in front of a NAL unit of [n] octets *)
Definition unit_prefix (avc : bool) (n : Z) : bytes :=
  if avc then put_uint 4 (u32 n) else ANNEXB_NALUSTART_CODE.

(** [while curr_offset < packet.len()] *)
Fixpoint stap_a_loop (fuel : nat) (avc : bool) (packet : bytes) (curr_offset : Z) : res bytes :=
  if curr_offset <? len packet then
    match fuel with
    | O => Panic
    | S fuel =>
        let! hi := index packet curr_offset in
        let! lo := index packet (curr_offset + 1) in
        let nalu_size := Z.lor (Z.shiftl hi 8) lo in
        let curr_offset := curr_offset + STAPA_NALU_LENGTH_SIZE in
        if len packet <? curr_offset + nalu_size then Err (StapASizeLargerThanBuffer nalu_size (len packet - curr_offset))
        else
          let! nalu := slice packet curr_offset (curr_offset + nalu_size) in
          let! rest := stap_a_loop fuel avc packet (curr_offset + nalu_size) in
          Ok (unit_prefix avc nalu_size ++ nalu ++ rest)
    end
  else Ok [].

Definition depacketize (packet : bytes) : sm H264Packet bytes := λ d,
  match packet with
  | b0 :: b1 :: data =>
      let nalu_type := Z.land b0 NALU_TYPE_BITMASK in
      if (len packet <=? 2) && negb (nalu_type =? AUD_NALU_TYPE) then (Err ErrShortPacket, d)
      else if (1 <=? nalu_type) && (nalu_type <=? 23) then (Ok (unit_prefix (is_avc d) (len packet) ++ packet), d)
      else if nalu_type =? STAPA_NALU_TYPE then (stap_a_loop (length packet) (is_avc d) packet STAPA_HEADER_SIZE, d)
      else if nalu_type =? FUA_NALU_TYPE then
        let fua := default [] (fua_buffer d) ++ data in
        if negb (Z.land b1 FU_END_BITMASK =? 0) then
          let header := Z.lor (Z.land b0 NALU_REF_IDC_BITMASK) (Z.land b1 NALU_TYPE_BITMASK) in
          (Ok (unit_prefix (is_avc d) (len fua + 1) ++ [header] ++ fua), mkH264Packet (is_avc d) None)
        else (Ok [], mkH264Packet (is_avc d) (Some fua))
      else (Err (NaluTypeIsNotHandled nalu_type), d)
  | _ => (Err ErrShortPacket, d)
  end.

Definition is_partition_head (payload : bytes) : bool :=
  match payload with
  | b0 :: b1 :: _ =>
      if (Z.land b0 NALU_TYPE_BITMASK =? FUA_NALU_TYPE) || (Z.land b0 NALU_TYPE_BITMASK =? FUB_NALU_TYPE)
      then negb (Z.land b1 FU_START_BITMASK =? 0)
      else true
  | _ => false
  end.

Definition is_partition_tail (marker : bool) (_ : bytes) : bool := marker.

(** A receiver that depacketizes packets in order and joins what they give *)
Fixpoint receive (frags : list bytes) : sm H264Packet bytes :=
  match frags with
  | [] => sret []
  | f :: frags =>
      do! a <- depacketize f;
      do! b <- receive frags;
      sret (a ++ b)
  end.

(** * What a stream carries *)

(** An Annex B stream: each NAL unit behind a start code, two zeros or more and a one *)
Definition annexb (zs : list nat) (ns : list bytes) : bytes :=
  concat (zip_with (λ z n, replicate z 0 ++ [1] ++ n) zs ns).

Definition type_of (n : bytes) : Z := Z.land (default 0 (head n)) NALU_TYPE_BITMASK.
Definition dropped (n : bytes) : Prop := type_of n = AUD_NALU_TYPE ∨ type_of n = FILLER_NALU_TYPE.

(** A NAL unit of a stream, its start codes emulated and its forbidden bit clear; one of the types
    that are sent has three octets at least. *)
Record nalu_ok (n : bytes) : Prop := {
  nalu_bytes : Forall byte_ok n;
  nalu_clean : ∀ a b, n ≠ a ++ [0; 0; 1] ++ b;
  nalu_trailing : last n ≠ Some 0;
  nalu_head : ∃ n0 n', n = n0 :: n' ∧ 0 <= n0 < 128;
  nalu_type_ok : 1 <= type_of n <= 23;
  nalu_size : dropped n ∨ 3 <= len n
}.

(** The NAL units that reach the receiver: the parameter sets, when both are known and fit a packet,
    in front of the next unit that is neither a parameter set, a delimiter nor filler *)
Fixpoint carried (mtu : Z) (sps pps : option bytes) (ns : list bytes) : list bytes :=
  match ns with
  | [] => []
  | n :: ns =>
      if bool_decide (dropped n) then carried mtu sps pps ns
      else if type_of n =? SPS_NALU_TYPE then carried mtu (Some n) pps ns
      else if type_of n =? PPS_NALU_TYPE then carried mtu sps (Some n) ns
      else
        match sps, pps with
        | Some s, Some q => (if 5 + len s + len q <=? mtu then [s; q] else []) ++ n :: carried mtu None None ns
        | _, _ => n :: carried mtu sps pps ns
        end
  end.

Definition unit_bytes (avc : bool) (n : bytes) : bytes := unit_prefix avc (len n) ++ n.

(** * Start codes *)

(** The zeros seen after [l], if there was no start code in it *)
Fixpoint zeros_after (zc : Z) (l : bytes) : option Z :=
  match l with
  | [] => Some zc
  | b :: l => if b =? 0 then zeros_after (zc + 1) l else if (b =? 1) && (2 <=? zc) then None else zeros_after 0 l
  end.

Lemma next_loop_app start i zc l m zc' :
  zeros_after zc l = Some zc' → next_loop start i zc (l ++ m) = next_loop start (i + len l) zc' m.
Proof.
  revert i zc. induction l as [|b l IH]; intros i zc; cbn [zeros_after app next_loop].
  - intros [= ->]. f_equal. rewrite len_nil. lia.
  - rewrite len_cons. intros H. destruct (b =? 0); [|destruct ((b =? 1) && (2 <=? zc)); [done|]];
      rewrite IH by done; f_equal; lia.
Qed.

Lemma zeros_after_zeros zc n : zeros_after zc (replicate n 0) = Some (zc + Z.of_nat n).
Proof. revert zc. induction n as [|n IH]; intros zc; cbn [replicate zeros_after]; [f_equal; lia|]. cbn. rewrite IH. f_equal. lia. Qed.

Lemma next_code start i z rest : (2 <= z)%nat → next_loop start i 0 (replicate z 0 ++ 1 :: rest) = (start + i, Z.of_nat z + 1).
Proof.
  intros Hz. rewrite (next_loop_app _ _ _ _ _ (Z.of_nat z)) by apply zeros_after_zeros.
  cbn [next_loop Z.eqb andb]. rewrite (proj2 (Z.leb_le 2 _)), len_replicate by lia. f_equal. lia.
Qed.

Lemma zeros_after_spec z l :
  match zeros_after (Z.of_nat z) l with
  | Some zc => 0 <= zc ∧ (0 < zc → last (replicate z 0 ++ l) = Some 0)
  | None => ∃ a b, replicate z 0 ++ l = a ++ [0; 0; 1] ++ b
  end.
Proof.
  revert z. induction l as [|b l IH]; intros z; cbn [zeros_after].
  - split; [lia|]. intros Hz. rewrite app_nil_r. destruct z as [|z]; [lia|]. by rewrite replicate_S_end, last_snoc.
  - destruct (Z.eqb_spec b 0) as [->|Hb].
    { specialize (IH (S z)). rewrite Nat2Z.inj_succ in IH. unfold Z.succ in IH.
      by replace (replicate z 0 ++ 0 :: l) with (replicate (S z) 0 ++ l) by (rewrite replicate_S_end, <- app_assoc; done). }
    destruct (Z.eqb_spec b 1) as [->|Hb1], (Z.leb_spec 2 (Z.of_nat z)) as [Hz|Hz]; cbn [andb];
      [exists (replicate (z - 2) 0), l; replace z with (z - 2 + 2)%nat at 1 by lia; rewrite replicate_add, <- app_assoc; done|..].
    all: specialize (IH 0%nat); change (Z.of_nat 0) with 0 in IH; destruct (zeros_after 0 l) as [zc|] eqn:E.
    all: try (destruct IH as (a & c & E'); cbn [replicate app] in E'; rewrite E'; eexists (replicate z 0 ++ _ :: a), c; by rewrite <- app_assoc).
    all: destruct IH as [H0 H1]; split; [done|]; intros Hp; specialize (H1 Hp); cbn [replicate app] in H1; rewrite last_app_cons, last_cons, H1; done.
Qed.

Lemma nalu_zeros n : nalu_ok n → zeros_after 0 n = Some 0.
Proof.
  intros Hn. pose proof (zeros_after_spec 0 n) as H. change (Z.of_nat 0) with 0 in H. cbn [replicate app] in H.
  destruct (zeros_after 0 n) as [zc|]; [|destruct H as (a & b & E); by destruct (nalu_clean n Hn a b)].
  destruct H as [H0 H1]. destruct (Z.eq_dec zc 0) as [->|]; [done|]. destruct (nalu_trailing n Hn). apply H1. lia.
Qed.

Fixpoint emit_all (mtu : Z) (ns : list bytes) : sm H264Payloader (list bytes) :=
  match ns with
  | [] => sret []
  | n :: ns => do! fs <- emit n mtu; do! gs <- emit_all mtu ns; sret (fs ++ gs)
  end.

Lemma annexb_head start i zs ns :
  length zs = length ns → Forall (λ z, 2 <= z)%nat zs →
  next_loop start i 0 (annexb zs ns) = match zs with z :: _ => (start + i, Z.of_nat z + 1) | [] => (-1, -1) end.
Proof.
  intros Hl Hz. destruct zs as [|z zs], ns as [|n ns]; try done. apply Forall_cons in Hz as [Hz _].
  cbn [annexb zip_with concat]. rewrite <- !app_assoc. cbn [app]. by apply next_code.
Qed.

Lemma payload_loop_spec fuel payload mtu zs ns pre p :
  length zs = length ns → Forall (λ z, 2 <= z)%nat zs → Forall nalu_ok ns → (length ns < fuel)%nat →
  payload = pre ++ annexb zs ns →
  (let '(a, b) := match zs with z :: _ => (len pre, Z.of_nat z + 1) | [] => (-1, -1) end in payload_loop fuel payload mtu a b) p =
  emit_all mtu ns p.
Proof.
  revert zs ns pre p. induction fuel as [|fuel IH]; intros zs ns pre p Hl Hz Hn Hf E; [lia|].
  destruct zs as [|z zs], ns as [|n ns]; try done. apply Forall_cons in Hz as [Hz Hzs]. apply Forall_cons in Hn as [Hn Hns].
  cbn [payload_loop]. pose proof (len_nonneg pre). rewrite (proj2 (Z.eqb_neq _ _)) by lia.
  cbn [annexb zip_with concat] in E. change (concat (zip_with _ zs ns)) with (annexb zs ns) in E. rewrite <- app_assoc in E.
  set (pre' := pre ++ replicate z 0 ++ [1]). assert (payload = pre' ++ n ++ annexb zs ns) as E'.
  { rewrite E. unfold pre'. by rewrite <- !app_assoc. }
  replace (len pre + (Z.of_nat z + 1)) with (len pre') by (unfold pre'; rewrite !len_app, len_replicate; done).
  unfold next_ind. rewrite E', (slice_tail pre' _ _ _ eq_refl eq_refl). cbn [rbind].
  rewrite (next_loop_app _ _ _ _ _ 0) by (by apply nalu_zeros). rewrite annexb_head by (simpl in Hl; lia || done).
  unfold sbind at 1, slift at 1.
  assert (∀ k (q : bytes → sm H264Payloader (list bytes)), k = match zs with z :: _ => len pre' + len n | [] => -1 end →
    sbind (slift (slice (pre' ++ n ++ annexb zs ns) (len pre') (if k =? -1 then len (pre' ++ n ++ annexb zs ns) else k))) q p = q n p) as Hs.
  { intros k q ->. pose proof (len_nonneg pre'). pose proof (len_nonneg n). destruct zs as [|z' zs].
    - change (-1 =? -1) with true. cbv iota. destruct ns; [|done]. change (annexb [] []) with (@nil Z). rewrite app_nil_r. unfold sbind, slift.
      by rewrite (slice_tail pre' n _ _ eq_refl eq_refl).
    - rewrite (proj2 (Z.eqb_neq _ _)) by lia. unfold sbind, slift. by rewrite (slice_mid pre' n _ _ _ eq_refl eq_refl). }
  simpl in Hl, Hf. pose proof (λ q, IH zs ns (pre' ++ n) q ltac:(lia) Hzs Hns ltac:(lia) ltac:(by rewrite <- app_assoc)) as IH'.
  rewrite len_app in IH'. cbn [emit_all].
  destruct zs as [|z' zs]; (rewrite Hs by (cbn; lia)); unfold sbind; destruct (emit n mtu p) as [[fs| |] p']; try done;
    rewrite <- IH', <- E'; [done|]. by rewrite Z.add_0_l.
Qed.

(** * FU-A *)

Lemma header_octets n0 : 0 <= n0 < 128 →
  let b0 := Z.lor FUA_NALU_TYPE (Z.land n0 NALU_REF_IDC_BITMASK) in let t := Z.land n0 NALU_TYPE_BITMASK in
  Z.land b0 NALU_TYPE_BITMASK = FUA_NALU_TYPE ∧
  Z.land (Z.lor t 0x80) FU_END_BITMASK = 0 ∧ Z.land t FU_END_BITMASK = 0 ∧ Z.land (Z.lor t 0x40) FU_END_BITMASK <> 0 ∧
  Z.land (Z.lor t 0x80) FU_START_BITMASK <> 0 ∧ Z.land t FU_START_BITMASK = 0 ∧ Z.land (Z.lor t 0x40) FU_START_BITMASK = 0 ∧
  Z.lor (Z.land b0 NALU_REF_IDC_BITMASK) (Z.land (Z.lor t 0x40) NALU_TYPE_BITMASK) = n0.
Proof. revert n0. enum 128%nat. Qed.

Lemma depacketize_fua b0 b1 c avc fua :
  Z.land b0 NALU_TYPE_BITMASK = FUA_NALU_TYPE → 1 <= len c →
  depacketize (b0 :: b1 :: c) (mkH264Packet avc fua) =
    if negb (Z.land b1 FU_END_BITMASK =? 0)
    then (Ok (unit_bytes avc (Z.lor (Z.land b0 NALU_REF_IDC_BITMASK) (Z.land b1 NALU_TYPE_BITMASK) :: default [] fua ++ c)), mkH264Packet avc None)
    else (Ok [], mkH264Packet avc (Some (default [] fua ++ c))).
Proof.
  intros B0 Hc. unfold depacketize. rewrite B0, !len_cons, (proj2 (Z.leb_gt _ 2)) by lia. unfold unit_bytes. rewrite len_cons.
  cbn [fua_buffer is_avc]. by rewrite (Z.add_comm 1 (len (default [] fua ++ c))).
Qed.

(** A receiver that has the octets of a unit up to [idx] gets the rest of it. *)
Lemma fu_a_rest fuel n0 data mtu idx avc :
  0 <= n0 < 128 → 2 < mtu → 1 < idx < len (n0 :: data) → len (n0 :: data) - idx <= Z.of_nat fuel →
  ∃ fs, fu_a_loop fuel (n0 :: data) (Z.lor FUA_NALU_TYPE (Z.land n0 NALU_REF_IDC_BITMASK)) (Z.land n0 NALU_TYPE_BITMASK)
          (mtu - 2) (len (n0 :: data) - 1) (len (n0 :: data) - idx) idx = Ok fs ∧
    Forall (λ f, len f <= mtu ∧ is_partition_head f = false) fs ∧
    receive fs (mkH264Packet avc (Some (take (Z.to_nat (idx - 1)) data))) = (Ok (unit_bytes avc (n0 :: data)), mkH264Packet avc None).
Proof.
  intros Hn Hm. destruct (header_octets n0 Hn) as (B0 & _ & B1 & B2 & _ & B3 & B4 & B5). cbv zeta in *.
  revert idx. induction fuel as [|fuel IH]; intros idx Hi Hf; [lia|].
  cbn [fu_a_loop]. rewrite (proj2 (Z.ltb_lt 0 _)) by lia. rewrite (proj2 (Z.eqb_neq (len (n0 :: data) - idx) _)) by lia.
  rewrite slice_round by lia. cbn [rbind]. set (c := take (Z.to_nat (mtu - 2)) (drop (Z.to_nat idx) (n0 :: data))).
  assert (len c = Z.min (mtu - 2) (len (n0 :: data) - idx)) as Hc by (unfold c; rewrite len_take, len_drop; lia).
  assert (take (Z.to_nat (idx - 1)) data ++ c = take (Z.to_nat (idx - 1 + len c)) data) as Et.
  { rewrite Hc. unfold c. replace (Z.to_nat idx) with (S (Z.to_nat (idx - 1))) by lia. cbn [drop].
    rewrite len_cons in *. destruct (Z.min_spec (mtu - 2) (1 + len data - idx)) as [[? ->]|[? ->]].
    - rewrite take_take_drop. f_equal. lia.
    - rewrite (take_ge (drop _ _)) by (rewrite length_drop; unfold len in *; lia). rewrite take_drop, take_ge; [done|unfold len in *; lia]. }
  assert (1 <= len c) as H1 by lia.
  destruct (Z.eqb_spec (len (n0 :: data) - idx - Z.min (mtu - 2) (len (n0 :: data) - idx)) 0) as [E0|E0].
  - rewrite E0. replace (fu_a_loop fuel _ _ _ _ _ 0 _) with (Ok [] : res (list bytes)) by (by destruct fuel).
    cbn [rbind app]. change (Z.shiftl 1 6) with 0x40. eexists. split; [done|]. split.
    { constructor; [|done]. rewrite !len_cons. split; [lia|]. unfold is_partition_head. by rewrite B0, B4. }
    cbn [receive]. unfold sbind, sret. rewrite depacketize_fua by done. rewrite (proj2 (Z.eqb_neq _ 0) B2), B5. cbn [negb].
    change (default [] (Some ?x)) with x. rewrite Et, take_ge by (rewrite len_cons in *; unfold len in *; lia). by rewrite app_nil_r.
  - destruct (IH (idx + len c)) as (fs & Ef & Hfs & Hr); [lia..|].
    replace (len (n0 :: data) - idx - Z.min (mtu - 2) (len (n0 :: data) - idx)) with (len (n0 :: data) - (idx + len c)) by lia.
    rewrite <- Hc, Ef. cbn [rbind app]. eexists. split; [done|]. split.
    { constructor; [|done]. rewrite !len_cons. split; [lia|]. unfold is_partition_head. by rewrite B0, B3. }
    cbn [receive]. unfold sbind at 1. rewrite depacketize_fua by done. rewrite B1. cbn [negb Z.eqb].
    change (default [] (Some ?x)) with x. rewrite Et. replace (idx - 1 + len c) with (idx + len c - 1) by lia. unfold sbind. by rewrite Hr.
Qed.

Lemma fu_a_spec n0 data mtu avc :
  0 <= n0 < 128 → 2 < mtu < len (n0 :: data) →
  ∃ fs, fu_a (n0 :: data) mtu (Z.land n0 NALU_TYPE_BITMASK) (Z.land n0 NALU_REF_IDC_BITMASK) = Ok fs ∧
    Forall (λ f, len f <= mtu) fs ∧ receive fs (mkH264Packet avc None) = (Ok (unit_bytes avc (n0 :: data)), mkH264Packet avc None).
Proof.
  intros Hn Hm. destruct (header_octets n0 Hn) as (B0 & B1 & _). cbv zeta in *.
  destruct (fu_a_rest (length data) n0 data mtu (1 + (mtu - 2)) avc Hn) as (fs & Ef & Hfs & Hr); [lia..|rewrite len_cons; unfold len; lia|].
  unfold fu_a. change FUA_HEADER_SIZE with 2. rewrite Z.min_l, (proj2 (Z.leb_gt _ 0)) by lia.
  cbn [length fu_a_loop]. rewrite (proj2 (Z.ltb_lt 0 _)), Z.eqb_refl, slice_round by lia. cbn [rbind]. rewrite Z.min_l by lia.
  replace (len (n0 :: data) - 1 - (mtu - 2)) with (len (n0 :: data) - (1 + (mtu - 2))) by lia. rewrite Ef. cbn [rbind app].
  change (Z.shiftl 1 7) with 0x80. change (drop (Z.to_nat 1) (n0 :: data)) with data.
  assert (len (take (Z.to_nat (mtu - 2)) data) = mtu - 2) as Hc by (rewrite len_cons in Hm; rewrite len_take; lia).
  eexists. split; [done|]. split; [constructor; [rewrite !len_cons; lia|eapply Forall_impl; [done|intros f [? _]; done]]|].
  cbn [receive]. unfold sbind at 1. rewrite depacketize_fua by (done || lia). rewrite B1. cbn [negb Z.eqb].
  change (default [] None ++ ?x) with x. replace (mtu - 2) with (1 + (mtu - 2) - 1) at 1 by lia. unfold sbind. by rewrite Hr.
Qed.

(** * STAP-A *)

Lemma stap_step fuel avc pre s rest :
  len s < 2 ^ 16 → let packet := pre ++ put_uint 2 (u16 (len s)) ++ s ++ rest in
  stap_a_loop (S fuel) avc packet (len pre) =
  rbind (stap_a_loop fuel avc packet (len pre + 2 + len s)) (λ r, Ok (unit_bytes avc s ++ r)).
Proof.
  intros Hs packet. pose proof (len_nonneg s). pose proof (len_nonneg rest). pose proof (len_nonneg pre).
  assert (put_uint 2 (u16 (len s)) = [len s / 256; len s mod 256]) as E2.
  { rewrite wrap_small by (unfold fits; lia). rewrite put_uint_2, !put_uint_1; [done|..].
    - apply Z.mod_pos_bound. lia.
    - split; [apply Z.div_pos; lia|apply Z.div_lt_upper_bound; lia]. }
  assert (packet = pre ++ (len s / 256) :: (len s mod 256) :: s ++ rest) as Ep by (unfold packet; by rewrite E2).
  assert (len packet = len pre + 2 + len s + len rest) as Hl by (rewrite Ep, len_app, !len_cons, len_app; lia).
  assert (index packet (len pre) = Ok (len s / 256)) as E1 by (rewrite Ep; by apply index_app).
  assert (index packet (len pre + 1) = Ok (len s mod 256)) as E3 by (rewrite Ep, cons_middle, app_assoc; apply index_app; rewrite len_app; done).
  cbn [stap_a_loop]. rewrite (proj2 (Z.ltb_lt _ _)), E1, E3 by lia.
  cbn [rbind]. rewrite lor_shiftl_add by (lia || (unfold fits; apply Z.mod_pos_bound; lia)).
  replace (len s / 256 * 2 ^ 8 + len s mod 256) with (len s) by (pose proof (Z_div_mod_eq_full (len s) 256); lia).
  change STAPA_NALU_LENGTH_SIZE with 2. rewrite (proj2 (Z.ltb_ge _ _)) by lia.
  replace (slice packet (len pre + 2) (len pre + 2 + len s)) with (Ok s : res bytes).
  - cbn [rbind]. destruct (stap_a_loop fuel avc packet _); [|done..]. cbn [rbind]. unfold unit_bytes. by rewrite <- app_assoc.
  - symmetry. unfold packet. rewrite E2, app_assoc. apply slice_mid; [rewrite len_app; done|]. rewrite len_app, !len_cons, len_nil. lia.
Qed.

Lemma len_stap_a s q : len (stap_a s q) = 5 + len s + len q.
Proof. unfold stap_a. len_lia. Qed.

Lemma depacketize_stap s q avc fua :
  3 <= len s < 2 ^ 16 → len q < 2 ^ 16 →
  depacketize (stap_a s q) (mkH264Packet avc fua) = (Ok (unit_bytes avc s ++ unit_bytes avc q), mkH264Packet avc fua).
Proof.
  intros Hs Hq. pose proof (len_stap_a s q) as Hl. pose proof (len_nonneg q).
  assert (stap_a_loop (length (stap_a s q)) avc (stap_a s q) 1 = Ok (unit_bytes avc s ++ unit_bytes avc q)) as E.
  { destruct (length (stap_a s q)) as [|[|[|fuel]]] eqn:Hf; [unfold len in *; lia..|].
    change 1 with (len [OUTPUT_STAP_AHEADER]). unfold stap_a. rewrite stap_step by lia.
    replace (len [OUTPUT_STAP_AHEADER] + 2 + len s) with (len ([OUTPUT_STAP_AHEADER] ++ put_uint 2 (u16 (len s)) ++ s)).
    2: { len_lia. }
    replace ([OUTPUT_STAP_AHEADER] ++ put_uint 2 (u16 (len s)) ++ s ++ put_uint 2 (u16 (len q)) ++ q)
      with (([OUTPUT_STAP_AHEADER] ++ put_uint 2 (u16 (len s)) ++ s) ++ put_uint 2 (u16 (len q)) ++ q ++ []) by (rewrite app_nil_r, <- !app_assoc; done).
    rewrite stap_step by lia. cbn [stap_a_loop]. rewrite (proj2 (Z.ltb_ge _ _)); [cbn [rbind]; by rewrite app_nil_r|].
    len_lia. }
  unfold depacketize. destruct (stap_a s q) as [|b0 [|b1 r]] eqn:Es; [rewrite len_nil in Hl; lia|rewrite len_cons, len_nil in Hl; lia|].
  assert (b0 = OUTPUT_STAP_AHEADER) as -> by (unfold stap_a in Es; cbn [app] in Es; congruence).
  change (Z.land OUTPUT_STAP_AHEADER NALU_TYPE_BITMASK) with STAPA_NALU_TYPE. rewrite (proj2 (Z.leb_gt _ 2)) by lia.
  change STAPA_HEADER_SIZE with 1. cbn [is_avc]. rewrite E. done.
Qed.

Lemma receive_app fs gs d a b d' d'' :
  receive fs d = (Ok a, d') → receive gs d' = (Ok b, d'') → receive (fs ++ gs) d = (Ok (a ++ b), d'').
Proof.
  revert d a. induction fs as [|f fs IH]; intros d a; cbn [receive app].
  - intros [= <- <-]. done.
  - unfold sbind, sret. destruct (depacketize f d) as [[x| |] e]; try done. destruct (receive fs e) as [[y| |] e'] eqn:E; try done.
    intros [= <- <-] Hg. erewrite IH; [|done|done]. by rewrite app_assoc.
Qed.

(** A unit that is sent: in one packet, or in fragments *)
Definition packets_of (n : bytes) (mtu : Z) : res (list bytes) :=
  if len n <=? mtu then Ok [n] else fu_a n mtu (type_of n) (Z.land (default 0 (head n)) NALU_REF_IDC_BITMASK).

Lemma depacketize_single n d :
  nalu_ok n → 3 <= len n → depacketize n d = (Ok (unit_bytes (is_avc d) n), d).
Proof.
  intros Hn H3. destruct (nalu_head n Hn) as (n0 & n' & -> & H0). destruct n' as [|n1 n']; [rewrite len_cons, len_nil in H3; lia|].
  pose proof (nalu_type_ok _ Hn) as Ht. change (1 <= Z.land n0 NALU_TYPE_BITMASK <= 23) in Ht. unfold depacketize.
  rewrite (proj2 (Z.leb_gt _ 2)), (proj2 (Z.leb_le 1 _)), (proj2 (Z.leb_le _ 23)) by lia. done.
Qed.

Lemma packets_of_spec n mtu avc :
  nalu_ok n → 3 <= len n → 2 < mtu →
  ∃ fs, packets_of n mtu = Ok fs ∧ Forall (λ f, len f <= mtu) fs ∧
    receive fs (mkH264Packet avc None) = (Ok (unit_bytes avc n), mkH264Packet avc None).
Proof.
  intros Hn H3 Hm. unfold packets_of. destruct (Z.leb_spec (len n) mtu) as [Hl|Hl].
  - exists [n]. split; [done|]. split; [by constructor|]. cbn [receive]. unfold sbind, sret. rewrite depacketize_single by done. by rewrite app_nil_r.
  - destruct (nalu_head n Hn) as (n0 & n' & -> & H0). by apply fu_a_spec.
Qed.

(** The parameter sets a payloader holds *)
Definition sets_ok (p : H264Payloader) : Prop :=
  (∀ s, sps_nalu p = Some s → 3 <= len s) ∧ (∀ q, pps_nalu p = Some q → 3 <= len q).

Lemma emit_eq n mtu p us :
  nalu_ok n → packets_of n mtu = Ok us →
  emit n mtu p =
    if bool_decide (dropped n) then (Ok [], p)
    else if type_of n =? SPS_NALU_TYPE then (Ok [], mkH264 (Some n) (pps_nalu p))
    else if type_of n =? PPS_NALU_TYPE then (Ok [], mkH264 (sps_nalu p) (Some n))
    else match sps_nalu p, pps_nalu p with
         | Some sps, Some pps => (Ok ((if len (stap_a sps pps) <=? mtu then [stap_a sps pps] else []) ++ us), mkH264 None None)
         | _, _ => (Ok us, p)
         end.
Proof.
  intros Hn Eu. destruct (nalu_head n Hn) as (n0 & n' & -> & H0). unfold emit.
  change (Z.land n0 NALU_TYPE_BITMASK) with (type_of (n0 :: n')).
  replace (bool_decide (dropped (n0 :: n'))) with ((type_of (n0 :: n') =? AUD_NALU_TYPE) || (type_of (n0 :: n') =? FILLER_NALU_TYPE)).
  2: { unfold dropped. destruct (Z.eqb_spec (type_of (n0 :: n')) AUD_NALU_TYPE), (Z.eqb_spec (type_of (n0 :: n')) FILLER_NALU_TYPE); symmetry;
         [apply bool_decide_true; auto..|apply bool_decide_false; intuition]. }
  unfold packets_of in Eu. change (default 0 (head (n0 :: n'))) with n0 in Eu.
  repeat case_match; simplify_eq; try done; by rewrite Eu.
Qed.

Lemma emit_all_spec mtu ns p avc :
  2 < mtu < 2 ^ 16 → Forall nalu_ok ns → sets_ok p →
  ∃ fs p', emit_all mtu ns p = (Ok fs, p') ∧ Forall (λ f, len f <= mtu) fs ∧
    receive fs (mkH264Packet avc None) =
      (Ok (concat (unit_bytes avc <$> carried mtu (sps_nalu p) (pps_nalu p) ns)), mkH264Packet avc None).
Proof.
  intros Hm Hns. revert p. induction Hns as [|n ns Hn Hns IH]; intros p Hp; [by exists [], p|].
  cbn [emit_all carried]. destruct (decide (dropped n)) as [Hdr|Hdr].
  { destruct (IH p Hp) as (fs & p' & E & Hf & Hr). unfold sbind, emit. destruct (nalu_head n Hn) as (n0 & n' & -> & H0).
    rewrite bool_decide_true by done. change (Z.land n0 NALU_TYPE_BITMASK) with (type_of (n0 :: n')).
    destruct Hdr as [->| ->]; cbn [Z.eqb orb AUD_NALU_TYPE FILLER_NALU_TYPE Pos.eqb]; rewrite E; by exists fs, p'. }
  assert (3 <= len n) as H3 by (destruct (nalu_size n Hn); [done|lia]). destruct Hp as [Hps Hpp].
  destruct (packets_of_spec n mtu avc Hn H3 ltac:(lia)) as (us & Eu & Hus & Hru).
  unfold sbind at 1. rewrite (emit_eq n mtu p us Hn Eu), bool_decide_false by done.
  destruct (Z.eqb_spec (type_of n) SPS_NALU_TYPE) as [_|_].
  { destruct (IH (mkH264 (Some n) (pps_nalu p))) as (fs & p' & E & Hf & Hr); [split; cbn; [congruence|done]|].
    unfold sbind. rewrite E. by exists fs, p'. }
  destruct (Z.eqb_spec (type_of n) PPS_NALU_TYPE) as [_|_].
  { destruct (IH (mkH264 (sps_nalu p) (Some n))) as (fs & p' & E & Hf & Hr); [split; cbn; [done|congruence]|].
    unfold sbind. rewrite E. by exists fs, p'. }
  destruct (sps_nalu p) as [sp|] eqn:Es, (pps_nalu p) as [pp|] eqn:Eq; unfold sbind, sret.
  1: destruct (IH (mkH264 None None)) as (fs & p' & E & Hf & Hr); [by split|]; rewrite E, len_stap_a; destruct (Z.leb_spec (5 + len sp + len pp) mtu) as [Hle|_].
  1: { assert (3 <= len sp) by (by apply Hps). assert (3 <= len pp) by (by apply Hpp).
       exists (([stap_a sp pp] ++ us) ++ fs), p'. split; [done|]. split; [repeat (apply Forall_app; split); try done; constructor; [rewrite len_stap_a; lia|done]|].
       replace (concat _) with ((unit_bytes avc sp ++ unit_bytes avc pp) ++ unit_bytes avc n ++ concat (unit_bytes avc <$> carried mtu None None ns))
         by (cbn [fmap list_fmap concat app]; by rewrite <- !app_assoc).
       rewrite <- app_assoc. eapply receive_app; [|by eapply receive_app].
       cbn [receive]. unfold sbind, sret. rewrite depacketize_stap by lia. by rewrite app_nil_r. }
  all: try (destruct (IH p) as (fs & p' & E & Hf & Hr); [by split; rewrite ?Es, ?Eq|]; rewrite ?Es, ?Eq in Hr; rewrite E).
  all: exists (us ++ fs), p'; (split; [done|]); (split; [by apply Forall_app|]); cbn [fmap list_fmap concat app]; by eapply receive_app.
Qed.

End H264.

(** C25: the units of an H.264 stream that the payloader carries arrive as they were sent.  Let an
    Annex B stream of NAL units with any start codes be cut by the payloader, for an MTU of three
    octets at least; the units are single ones (types 1 to 23), hold no start code, do not end in a
    zero, and have three octets or more unless they are left out ([nalu_ok]).  The packets fit the
    MTU, and depacketizing them in order gives the units [carried], in order and whole, each behind
    the start code or, in AVC format, its length: every unit but delimiters and filler, which are
    left out, and parameter sets, of which the last SPS and PPS seen are kept and, once both are
    known, put in front of the next unit of another type if they fit one packet together, and
    forgotten if they do not.  No fragment stays behind. *)
Theorem h264_roundtrip `{BytesCrate} mtu zs ns p avc :
  2 < mtu < 2 ^ 16 → Forall nalu_ok ns → length zs = length ns → Forall (λ z, 2 <= z)%nat zs → ns ≠ [] → sets_ok p →
  ∃ fs p', h264_payload p mtu (annexb zs ns) = (Ok fs, p') ∧ Forall (λ f, len f <= mtu) fs ∧
    receive fs (mkH264Packet avc None) =
      (Ok (concat (unit_bytes avc <$> carried mtu (sps_nalu p) (pps_nalu p) ns)), mkH264Packet avc None).
Proof.
  intros Hm Hns Hl Hz Hne Hp. unfold h264_payload.
  assert (length ns <= length (annexb zs ns))%nat as Hle.
  { clear -Hl. revert zs Hl. induction ns as [|n ns IH]; intros [|z zs] Hl; try done. cbn [annexb zip_with concat].
    rewrite !length_app. specialize (IH zs ltac:(simpl in Hl; lia)). unfold annexb in IH. cbn [length app] in *. lia. }
  rewrite (proj2 (Z.eqb_neq (len _) 0)) by (unfold len; destruct ns; [done|simpl in Hle; lia]).
  rewrite (proj2 (Z.eqb_neq mtu 0)) by lia. cbn [orb]. unfold next_ind. rewrite (slice_drop _ 0) by len_lia. cbn [rbind].
  change (drop (Z.to_nat 0) ?l) with l. rewrite annexb_head by done. unfold sbind, slift.
  destruct zs as [|z zs]; [by destruct ns|]. change (0 + 0 =? -1) with false. cbv iota.
  pose proof (payload_loop_spec (S (length (annexb (z :: zs) ns))) _ mtu (z :: zs) ns [] p Hl Hz Hns ltac:(lia) eq_refl) as E.
  cbv beta iota in E. change ([] ++ ?l) with l in E. change (len (@nil Z)) with (0 + 0) in E. rewrite E. by apply emit_all_spec.
Qed.

Section H264Examples.
#[local] Existing Instance BigEndian.big_endian.

Definition sps_example : bytes := [0x67; 66; 0; 31].
Definition pps_example : bytes := [0x68; 206; 60].
Definition idr_example : bytes := [0x65; 1; 2; 3; 4; 5; 6; 7; 8; 9; 10; 11; 12; 13; 14].

(** A concrete unit holds no start code: it is compared at every position. *)
Ltac no_start_code := intros a b E; repeat (destruct a as [|? a]; cbn [app] in E; [congruence|]; injection E as _ E); destruct a; discriminate E.
Ltac concrete_nalu :=
  unfold sps_example, pps_example, idr_example; split; [concrete|no_start_code|discriminate|eexists _, _; split; [reflexivity|lia]|vm_compute; intuition congruence|
    first [right; vm_compute; intuition congruence|left; vm_compute; auto]].

Lemma sps_example_ok : nalu_ok sps_example.
Proof. concrete_nalu. Qed.

Lemma pps_example_ok : nalu_ok pps_example.
Proof. concrete_nalu. Qed.

Lemma idr_example_ok : nalu_ok idr_example.
Proof. concrete_nalu. Qed.

Lemma aud_example_ok : nalu_ok [9; 240].
Proof. concrete_nalu. Qed.

Lemma h264_roundtrip_witness :
  ∃ fs p', h264_payload (mkH264 None None) 12 (annexb [3; 3; 2; 3]%nat [[9; 240]; sps_example; pps_example; idr_example]) = (Ok fs, p') ∧
    length fs = 3%nat ∧
    receive fs (mkH264Packet false None) =
      (Ok ([0; 0; 0; 1] ++ sps_example ++ [0; 0; 0; 1] ++ pps_example ++ [0; 0; 0; 1] ++ idr_example), mkH264Packet false None).
Proof.
  destruct (h264_roundtrip 12 [3; 3; 2; 3]%nat [[9; 240]; sps_example; pps_example; idr_example] (mkH264 None None) false) as (fs & p' & E & _ & Hr).
  - lia.
  - apply Forall_cons_2; [|apply Forall_cons_2; [|apply Forall_cons_2; [|apply Forall_cons_2; [|constructor]]]]; [apply aud_example_ok|apply sps_example_ok|apply pps_example_ok|apply idr_example_ok].
  - reflexivity.
  - repeat constructor.
  - discriminate.
  - by split.
  - exists fs, p'. split_and!; [done| |].
    + vm_compute in E. by injection E as <- _.
    + rewrite Hr. reflexivity.
Defined.

(** A STAP-A packet that ends after one octet of a length is read past its end. *)
Lemma short_stap_a_panics : (depacketize [0x78; 0; 1; 7; 0] (mkH264Packet false None)).1 = Panic.
Proof. reflexivity. Qed.

(** When the last fragment of a unit is lost, its octets are taken for the start of the next one. *)
Lemma lost_fragment_joined :
  receive [[0x7c; 0x85; 1; 2]; [0x7c; 0x81; 7; 8]; [0x7c; 0x41; 9]] (mkH264Packet false None) =
    (Ok [0; 0; 0; 1; 0x61; 1; 2; 7; 8; 9], mkH264Packet false None).
Proof. reflexivity. Qed.

(** Parameter sets that do not fit a packet together are dropped, though each would fit one. *)
Lemma large_sets_dropped :
  h264_payload (mkH264 None None) 8 (annexb [3; 3; 3]%nat [sps_example; pps_example; [0x65; 1; 2]]) = (Ok [[0x65; 1; 2]], mkH264 None None).
Proof. reflexivity. Qed.

(** A unit of two octets is sent and then refused. *)
Lemma short_unit_refused :
  (h264_payload (mkH264 None None) 100 [0; 0; 1; 6; 5]).1 = Ok [[6; 5]] ∧
  (depacketize [6; 5] (mkH264Packet false None)).1 = Err ErrShortPacket.
Proof. by split. Qed.

End H264Examples.
