(* ===== verification/Rtcp.v ===== *)
(** The common header of RTCP packets, [rtc-rtcp/src/header.rs]. *)

From S2P Require Import Prelude.

Inductive PacketType :=
| Unsupported
| SenderReport
| ReceiverReport
| SourceDescription
| Goodbye
| ApplicationDefined
| TransportSpecificFeedback
| PayloadSpecificFeedback
| ExtendedReport.

(** [packet_type as u8] *)
Definition packet_type_u8 (t : PacketType) : Z :=
  match t with
  | Unsupported => 0
  | SenderReport => 200
  | ReceiverReport => 201
  | SourceDescription => 202
  | Goodbye => 203
  | ApplicationDefined => 204
  | TransportSpecificFeedback => 205
  | PayloadSpecificFeedback => 206
  | ExtendedReport => 207
  end.

(** [PacketType::from] *)
Definition packet_type_from (b : Z) : PacketType :=
  if b =? 200 then SenderReport else if b =? 201 then ReceiverReport
  else if b =? 202 then SourceDescription else if b =? 203 then Goodbye
  else if b =? 204 then ApplicationDefined else if b =? 205 then TransportSpecificFeedback
  else if b =? 206 then PayloadSpecificFeedback else if b =? 207 then ExtendedReport
  else Unsupported.

Definition RTP_VERSION : Z := 2.
Definition VERSION_SHIFT : Z := 6.
Definition VERSION_MASK : Z := 0x3.
Definition PADDING_SHIFT : Z := 5.
Definition PADDING_MASK : Z := 0x1.
Definition COUNT_SHIFT : Z := 0.
Definition COUNT_MASK : Z := 0x1f.
Definition RTCP_HEADER_LENGTH : Z := 4.
Definition SSRC_LENGTH : Z := 4.

Record RtcpHeader := mkRtcpHeader {
  rtcp_padding : bool;
  count : Z;
  packet_type : PacketType;
  rtcp_length : Z
}.

Section RtcpHeaderCodec.
Context {BC : BytesCrate}.

#[export] Instance rtcp_header_size : MarshalSize RtcpHeader := λ _, RTCP_HEADER_LENGTH.

#[export] Instance rtcp_header_marshal_to : Marshal RtcpHeader := λ h buf,
  if 31 <? count h then Err InvalidHeader
  else if len buf <? RTCP_HEADER_LENGTH then Err BufferTooShort
  else
    let b0 := Z.lor (Z.lor (u8 (Z.shiftl RTP_VERSION VERSION_SHIFT))
                           (u8 (Z.shiftl (Z.b2z (rtcp_padding h)) PADDING_SHIFT)))
                    (u8 (Z.shiftl (count h) COUNT_SHIFT)) in
    let! w := put_u8 b0 (Wbuf [] buf) in
    let! w := put_u8 (packet_type_u8 (packet_type h)) w in
    let! w := put_u16 (rtcp_length h) w in
    Ok (RTCP_HEADER_LENGTH, written w ++ room w).

Definition rtcp_header_unmarshal (raw : bytes) : res (RtcpHeader * bytes) :=
  if len raw <? RTCP_HEADER_LENGTH then Err PacketTooShort
  else
    let! (b0, raw) := get_u8 raw in
    let version := Z.land (Z.shiftr b0 VERSION_SHIFT) VERSION_MASK in
    if negb (version =? RTP_VERSION) then Err BadVersion
    else
      let padding := 0 <? Z.land (Z.shiftr b0 PADDING_SHIFT) PADDING_MASK in
      let cnt := Z.land (Z.shiftr b0 COUNT_SHIFT) COUNT_MASK in
      let! (t, raw) := get_u8 raw in
      let! (l, raw) := get_u16 raw in
      Ok (mkRtcpHeader padding cnt (packet_type_from t) l, raw).

(** ** Lemmas *)

Lemma packet_type_roundtrip t : packet_type_from (packet_type_u8 t) = t.
Proof. by destruct t. Qed.

Definition rtcp_octet0 (h : RtcpHeader) : Z :=
  Z.lor (Z.lor (u8 (Z.shiftl RTP_VERSION VERSION_SHIFT)) (u8 (Z.shiftl (Z.b2z (rtcp_padding h)) PADDING_SHIFT)))
        (u8 (Z.shiftl (count h) COUNT_SHIFT)).

Lemma rtcp_octet0_spec h :
  0 <= count h < 32 →
  byte_ok (rtcp_octet0 h) ∧ Z.land (Z.shiftr (rtcp_octet0 h) VERSION_SHIFT) VERSION_MASK = RTP_VERSION ∧
  (0 <? Z.land (Z.shiftr (rtcp_octet0 h) PADDING_SHIFT) PADDING_MASK) = rtcp_padding h ∧
  Z.land (Z.shiftr (rtcp_octet0 h) COUNT_SHIFT) COUNT_MASK = count h.
Proof.
  destruct h as [p c t l]. unfold rtcp_octet0. cbn [rtcp_padding count]. revert c. destruct p; enum 32%nat.
Qed.

Definition rtcp_header_bytes (h : RtcpHeader) : bytes :=
  put_uint 1 (rtcp_octet0 h) ++ put_uint 1 (packet_type_u8 (packet_type h)) ++ put_uint 2 (rtcp_length h).

Lemma rtcp_header_marshal h : 0 <= count h < 32 → marshal h = Ok (rtcp_header_bytes h).
Proof.
  intros Hc. apply marshal_put; [by unfold rtcp_header_bytes; autorewrite with len|].
  intros buf Hb. unfold marshal_size, rtcp_header_size, RTCP_HEADER_LENGTH in *.
  unfold marshal_to, rtcp_header_marshal_to, RTCP_HEADER_LENGTH.
  rewrite (proj2 (Z.ltb_ge 31 _)), (proj2 (Z.ltb_ge _ 4)) by lia.
  unfold rtcp_header_bytes. by do 2 (apply put_step; intros).
Qed.

Lemma rtcp_header_read h r :
  0 <= count h < 32 → fits 16 (rtcp_length h) →
  rtcp_header_unmarshal (rtcp_header_bytes h ++ r) = Ok (h, r).
Proof.
  intros Hc Hl. destruct (rtcp_octet0_spec h Hc) as (Hb & Hv & Hp & Hn).
  unfold rtcp_header_unmarshal, RTCP_HEADER_LENGTH, rtcp_header_bytes.
  pose proof (len_nonneg r). rewrite (proj2 (Z.ltb_ge _ 4)) by (autorewrite with len; lia).
  unfold get_u8, get_u16. rewrite <- !app_assoc, get_put_uint by done. cbn [rbind]. rewrite Hv. cbn [negb].
  rewrite get_put_uint by (destruct (packet_type h); split; vm_compute; congruence). cbn [rbind].
  rewrite get_put_uint by done. cbn [rbind]. rewrite Hp, Hn, packet_type_roundtrip. by destruct h.
Qed.

Lemma rtcp_header_unmarshal_no_panic raw : Forall byte_ok raw → no_panic (rtcp_header_unmarshal raw).
Proof.
  intros Hb. unfold rtcp_header_unmarshal, RTCP_HEADER_LENGTH. destruct (Z.ltb_spec (len raw) 4); auto with rtc.
  unfold get_u8, get_u16.
  destruct (get_uint_total 1 raw Hb) as (b0 & r1 & -> & _ & _ & Hb1 & L1); [lia|]. cbn [rbind].
  destruct (negb _); auto with rtc.
  destruct (get_uint_total 1 r1 Hb1) as (t & r2 & -> & _ & _ & Hb2 & L2); [lia|]. cbn [rbind].
  destruct (get_uint_total 2 r2 Hb2) as (l & r3 & -> & _ & _ & Hb3 & L3); [lia|]. done.
Qed.

(** Parsing looks at the first four bytes only. *)
Lemma rtcp_header_prefix a b b' h r :
  4 <= len a → Forall byte_ok a →
  rtcp_header_unmarshal (a ++ b) = Ok (h, r) → ∃ r', rtcp_header_unmarshal (a ++ b') = Ok (h, r').
Proof.
  intros Ha Hb. unfold rtcp_header_unmarshal, RTCP_HEADER_LENGTH, get_u8, get_u16.
  pose proof (len_nonneg b). pose proof (len_nonneg b'). rewrite !(proj2 (Z.ltb_ge _ 4)) by (rewrite len_app; lia).
  destruct (get_uint_total 1 a Hb) as (b0 & a1 & _ & Hf0 & -> & Hb1 & L1); [lia|].
  destruct (get_uint_total 1 a1 Hb1) as (t & a2 & _ & Hf1 & -> & Hb2 & L2); [lia|].
  destruct (get_uint_total 2 a2 Hb2) as (l & a3 & _ & Hf2 & -> & Hb3 & L3); [lia|].
  rewrite <- !app_assoc, !(get_put_uint 1 b0) by done. cbn [rbind]. destruct (negb _); [done|].
  rewrite !(get_put_uint 1 t) by done. cbn [rbind]. rewrite !(get_put_uint 2 l) by done. cbn [rbind].
  intros [= <- _]. eauto.
Qed.

End RtcpHeaderCodec.
