(* ===== verification/RtcpReport.v ===== *)
(** Reports and goodbyes: [rtc-rtcp/src/reception_report.rs], [sender_report], [receiver_report]
    and [goodbye], with the trait [Packet] of [packet.rs].

    For each packet [p] that is well formed, [encodes p (.._bytes p)] and parsing these bytes
    gives [p] back; parsing any bytes does not panic and leaves nothing of its input.  The
    profile extensions of a report are read up to the end of the packet, so the round trip
    needs a packet without padding ([padded_report_grows]). *)

From S2P Require Import Prelude Codec Rtcp.

(** * The trait [Packet] *)

Class Packet (T : Type) := {
  header : T → RtcpHeader;
  destination_ssrc : T → list Z;
  raw_size : T → Z
}.

(** [Header::default()] *)
Definition default_header : RtcpHeader := mkRtcpHeader false 0 Unsupported 0.

Definition COUNT_MAX : Z := 31.
Definition SDES_MAX_OCTET_COUNT : Z := 255.

#[export] Instance PacketType_eq_dec : EqDecision PacketType.
Proof. solve_decision. Defined.

(** The size of a packet padded to 32-bit words, which every packet body computes. *)
Definition aligned_size `{Packet T} (p : T) : Z :=
  let l := raw_size p in l + get_padding_size l.

(** The header that every packet body computes from its count and type. *)
Definition body_header (raw : Z) (cnt : Z) (t : PacketType) : RtcpHeader :=
  mkRtcpHeader (negb (get_padding_size raw =? 0)) cnt t (u16 ((raw + get_padding_size raw) / 4 - 1)).

(** * Reception report blocks *)

Definition RECEPTION_REPORT_LENGTH : Z := 24.

Record ReceptionReport := mkReceptionReport {
  rep_ssrc : Z;
  fraction_lost : Z;
  total_lost : Z;
  last_sequence_number : Z;
  jitter : Z;
  last_sender_report : Z;
  delay : Z
}.

#[export] Instance reception_report_packet : Packet ReceptionReport := {|
  header _ := default_header;
  destination_ssrc _ := [];
  raw_size _ := RECEPTION_REPORT_LENGTH
|}.

#[export] Instance reception_report_size : MarshalSize ReceptionReport := aligned_size.

Section ReceptionReportCodec.
Context {BC : BytesCrate}.

#[export] Instance reception_report_marshal_to : Marshal ReceptionReport := λ r buf,
  if len buf <? marshal_size r then Err BufferTooShort
  else
    let! w := put_u32 (rep_ssrc r) (Wbuf [] buf) in
    let! w := put_u8 (fraction_lost r) w in
    if Z.shiftl 1 25 <=? total_lost r then Err InvalidTotalLost
    else
      let! w := put_u8 (u8 (Z.land (Z.shiftr (total_lost r) 16) 0xFF)) w in
      let! w := put_u8 (u8 (Z.land (Z.shiftr (total_lost r) 8) 0xFF)) w in
      let! w := put_u8 (u8 (Z.land (total_lost r) 0xFF)) w in
      let! w := put_u32 (last_sequence_number r) w in
      let! w := put_u32 (jitter r) w in
      let! w := put_u32 (last_sender_report r) w in
      let! w := put_u32 (delay r) w in
      let! w := put_padding (raw_size r) w in
      finish (marshal_size r) w.

Definition reception_report_unmarshal (raw : bytes) : res (ReceptionReport * bytes) :=
  if len raw <? RECEPTION_REPORT_LENGTH then Err PacketTooShort
  else
    let! (ssrc, raw) := get_u32 raw in
    let! (fraction, raw) := get_u8 raw in
    let! (t0, raw) := get_u8 raw in
    let! (t1, raw) := get_u8 raw in
    let! (t2, raw) := get_u8 raw in
    let lost := Z.lor (Z.lor t2 (Z.shiftl t1 8)) (Z.shiftl t0 16) in
    let! (lsn, raw) := get_u32 raw in
    let! (jit, raw) := get_u32 raw in
    let! (lsr, raw) := get_u32 raw in
    let! (dly, raw) := get_u32 raw in
    Ok (mkReceptionReport ssrc fraction lost lsn jit lsr dly, raw).

End ReceptionReportCodec.

(** * Sender reports *)

Definition SR_HEADER_LENGTH : Z := 24.
Definition SR_REPORT_OFFSET : Z := RTCP_HEADER_LENGTH + SR_HEADER_LENGTH.

Record SenderReportPacket := mkSenderReport {
  sr_ssrc : Z;
  ntp_time : Z;
  rtp_time : Z;
  packet_count : Z;
  octet_count : Z;
  sr_reports : list ReceptionReport;
  sr_profile_extensions : bytes
}.

(** [reps_length]: the size of the report blocks. *)
Definition reps_length (reports : list ReceptionReport) : Z :=
  foldl (λ n rep, n + marshal_size rep) 0 reports.

#[export] Instance sender_report_packet : Packet SenderReportPacket :=
  let raw_size p :=
    RTCP_HEADER_LENGTH + SR_HEADER_LENGTH + reps_length (sr_reports p) + len (sr_profile_extensions p) in
  {|
    header p := body_header (raw_size p) (u8 (len (sr_reports p))) SenderReport;
    destination_ssrc p := (rep_ssrc <$> sr_reports p) ++ [sr_ssrc p];
    raw_size := raw_size
  |}.

#[export] Instance sender_report_size : MarshalSize SenderReportPacket := aligned_size.

Section SenderReportCodec.
Context {BC : BytesCrate}.

#[export] Instance sender_report_marshal_to : Marshal SenderReportPacket := λ p buf,
  if COUNT_MAX <? len (sr_reports p) then Err TooManyReports
  else if len buf <? marshal_size p then Err BufferTooShort
  else
    let h := header p in
    let! w := put_marshal h (Wbuf [] buf) in
    let! w := put_u32 (sr_ssrc p) w in
    let! w := put_u64 (ntp_time p) w in
    let! w := put_u32 (rtp_time p) w in
    let! w := put_u32 (packet_count p) w in
    let! w := put_u32 (octet_count p) w in
    let! w := put_all put_marshal (sr_reports p) w in
    let! w := put (sr_profile_extensions p) w in
    let! w := if rtcp_padding h then put_padding (raw_size p) w else Ok w in
    finish (marshal_size p) w.

(** The loop over the report blocks, [for _ in 0..header.count]. *)
Fixpoint read_reports (n : nat) (offset raw_packet_len : Z) (raw : bytes)
    : res (list ReceptionReport * bytes) :=
  match n with
  | O => Ok ([], raw)
  | S n =>
      if raw_packet_len <? offset + RECEPTION_REPORT_LENGTH then Err PacketTooShort
      else
        let! (rep, raw) := reception_report_unmarshal raw in
        let! (reps, raw) := read_reports n (offset + RECEPTION_REPORT_LENGTH) raw_packet_len raw in
        Ok (rep :: reps, raw)
  end.

Definition sender_report_unmarshal (raw : bytes) : res (SenderReportPacket * bytes) :=
  let raw_packet_len := len raw in
  if raw_packet_len <? RTCP_HEADER_LENGTH + SR_HEADER_LENGTH then Err PacketTooShort
  else
    let! (h, raw) := rtcp_header_unmarshal raw in
    if negb (bool_decide (packet_type h = SenderReport)) then Err WrongType
    else
      let! (ssrc, raw) := get_u32 raw in
      let! (ntp, raw) := get_u64 raw in
      let! (rtp, raw) := get_u32 raw in
      let! (pc, raw) := get_u32 raw in
      let! (oc, raw) := get_u32 raw in
      let! (reports, raw) := read_reports (Z.to_nat (count h)) SR_REPORT_OFFSET raw_packet_len raw in
      let! (ext, raw) := copy_to_bytes (len raw) raw in
      Ok (mkSenderReport ssrc ntp rtp pc oc reports ext, raw).

End SenderReportCodec.

(** * Receiver reports *)

Definition RR_SSRC_OFFSET : Z := RTCP_HEADER_LENGTH.
Definition RR_REPORT_OFFSET : Z := RR_SSRC_OFFSET + SSRC_LENGTH.

Record ReceiverReportPacket := mkReceiverReport {
  rr_ssrc : Z;
  rr_reports : list ReceptionReport;
  rr_profile_extensions : bytes
}.

#[export] Instance receiver_report_packet : Packet ReceiverReportPacket :=
  let raw_size p :=
    RTCP_HEADER_LENGTH + SSRC_LENGTH + reps_length (rr_reports p) + len (rr_profile_extensions p) in
  {|
    header p := body_header (raw_size p) (u8 (len (rr_reports p))) ReceiverReport;
    destination_ssrc p := rep_ssrc <$> rr_reports p;
    raw_size := raw_size
  |}.

#[export] Instance receiver_report_size : MarshalSize ReceiverReportPacket := aligned_size.

Section ReceiverReportCodec.
Context {BC : BytesCrate}.

#[export] Instance receiver_report_marshal_to : Marshal ReceiverReportPacket := λ p buf,
  if COUNT_MAX <? len (rr_reports p) then Err TooManyReports
  else if len buf <? marshal_size p then Err BufferTooShort
  else
    let h := header p in
    let! w := put_marshal h (Wbuf [] buf) in
    let! w := put_u32 (rr_ssrc p) w in
    let! w := put_all put_marshal (rr_reports p) w in
    let! w := put (rr_profile_extensions p) w in
    let! w := if rtcp_padding h then put_padding (raw_size p) w else Ok w in
    finish (marshal_size p) w.

Definition receiver_report_unmarshal (raw : bytes) : res (ReceiverReportPacket * bytes) :=
  let raw_packet_len := len raw in
  if raw_packet_len <? RTCP_HEADER_LENGTH + SSRC_LENGTH then Err PacketTooShort
  else
    let! (h, raw) := rtcp_header_unmarshal raw in
    if negb (bool_decide (packet_type h = ReceiverReport)) then Err WrongType
    else
      let! (ssrc, raw) := get_u32 raw in
      let! (reports, raw) := read_reports (Z.to_nat (count h)) RR_REPORT_OFFSET raw_packet_len raw in
      let! (ext, raw) := copy_to_bytes (len raw) raw in
      Ok (mkReceiverReport ssrc reports ext, raw).

End ReceiverReportCodec.

(** * Goodbyes *)

Record GoodbyePacket := mkGoodbye {
  sources : list Z;
  reason : bytes
}.

#[export] Instance goodbye_packet : Packet GoodbyePacket :=
  let raw_size p := RTCP_HEADER_LENGTH + len (sources p) * SSRC_LENGTH + (len (reason p) + 1) in
  {|
    header p := body_header (raw_size p) (u8 (len (sources p))) Goodbye;
    destination_ssrc p := sources p;
    raw_size := raw_size
  |}.

#[export] Instance goodbye_size : MarshalSize GoodbyePacket := aligned_size.

Section GoodbyeCodec.
Context {BC : BytesCrate}.

#[export] Instance goodbye_marshal_to : Marshal GoodbyePacket := λ p buf,
  if COUNT_MAX <? len (sources p) then Err TooManySources
  else if SDES_MAX_OCTET_COUNT <? len (reason p) then Err ReasonTooLong
  else if len buf <? marshal_size p then Err BufferTooShort
  else
    let h := header p in
    let! w := put_marshal h (Wbuf [] buf) in
    let! w := put_all put_u32 (sources p) w in
    let! w := put_u8 (u8 (len (reason p))) w in
    let! w := if negb (len (reason p) =? 0) then put (reason p) w else Ok w in
    let! w := if rtcp_padding h then put_padding (raw_size p) w else Ok w in
    finish (marshal_size p) w.

Definition goodbye_unmarshal (raw : bytes) : res (GoodbyePacket * bytes) :=
  let raw_packet_len := len raw in
  let! (h, raw) := rtcp_header_unmarshal raw in
  if negb (bool_decide (packet_type h = Goodbye)) then Err WrongType
  else if negb (get_padding_size raw_packet_len =? 0) then Err PacketTooShort
  else
    let reason_offset := RTCP_HEADER_LENGTH + count h * SSRC_LENGTH in
    if raw_packet_len <? reason_offset then Err PacketTooShort
    else
      let! (srcs, raw) := read_n get_u32 (Z.to_nat (count h)) raw in
      let! (why, raw) :=
        if reason_offset <? raw_packet_len then
          let! (reason_len, raw) := get_u8 raw in
          let reason_end := reason_offset + 1 + reason_len in
          if raw_packet_len <? reason_end then Err PacketTooShort
          else copy_to_bytes reason_len raw
        else Ok ([], raw) in
      (* the rest is skipped: raw_packet.advance(raw_packet.remaining()) *)
      Ok (mkGoodbye srcs why, []).

End GoodbyeCodec.

(** * Lemmas *)

Section ReportLemmas.
Context {BC : BytesCrate}.

Lemma rtcp_header_encodes h : 0 <= count h < 32 → encodes h (rtcp_header_bytes h).
Proof.
  intros Hc. unfold encodes, marshal_to, rtcp_header_marshal_to, marshal_size, rtcp_header_size, RTCP_HEADER_LENGTH.
  split; [unfold rtcp_header_bytes; by autorewrite with len|]. intros buf Hb.
  rewrite (proj2 (Z.ltb_ge 31 _)), (proj2 (Z.ltb_ge _ 4)) by lia.
  rewrite <- finish_put by (unfold rtcp_header_bytes; autorewrite with len; lia).
  unfold rtcp_header_bytes. by do 2 (apply put_step; intros).
Qed.

Lemma len_rtcp_header h : len (rtcp_header_bytes h) = 4.
Proof. unfold rtcp_header_bytes. by autorewrite with len. Qed.

Lemma rtcp_header_bytes_ok h : 0 <= count h < 32 → Forall byte_ok (rtcp_header_bytes h).
Proof. intros. unfold rtcp_header_bytes. rewrite !Forall_app. auto using put_uint_bytes. Qed.

Lemma rtcp_header_post raw :
  Forall byte_ok raw →
  res_post (rtcp_header_unmarshal raw)
    (λ '(h, r), 0 <= count h < 32 ∧ fits 16 (rtcp_length h) ∧ Forall byte_ok r ∧ len r = len raw - 4).
Proof.
  intros Hr. unfold rtcp_header_unmarshal, RTCP_HEADER_LENGTH. parse.
  simpl. split_and!; [| |done|done|lia].
  - apply Z.land_nonneg. right. done.
  - change COUNT_MASK with (Z.ones 5). rewrite Z.land_ones by lia. apply Z.mod_pos_bound. lia.
Qed.

(** The frame of every packet: the header, the body, the padding. *)
Definition frame `{Packet T} (p : T) (body : bytes) : bytes :=
  rtcp_header_bytes (header p) ++ body ++ padding_bytes (raw_size p).

Lemma body_header_read raw cnt t r :
  0 <= cnt < 32 →
  rtcp_header_unmarshal (rtcp_header_bytes (body_header raw cnt t) ++ r) = Ok (body_header raw cnt t, r).
Proof. intros. apply rtcp_header_read; [done|]. by apply wrap_fits. Qed.

End ReportLemmas.
#[export] Hint Rewrite @len_rtcp_header : len.

(** Runs a [marshal_to] into a buffer with enough room. *)
Ltac encode_step :=
  lazymatch goal with
  | |- rbind (put ?a ?w) ?k = rbind (put ?a ?w) ?k => reflexivity
  | |- rbind (put_padding _ _) _ = _ => rewrite put_padding_put
  | |- rbind (if negb (get_padding_size _ =? 0) then _ else _) _ = _ => rewrite put_padding_if
  | |- rbind (put_u8 _ _) _ = _ => unfold put_u8
  | |- rbind (put_u16 _ _) _ = _ => unfold put_u16
  | |- rbind (put_u32 _ _) _ = _ => unfold put_u32
  | |- rbind (put_u64 _ _) _ = _ => unfold put_u64
  | |- rbind (put _ _) _ = rbind (put (_ ++ _) _) _ =>
      apply put_step_room; [|let w := fresh "w" in let H := fresh "Hw" in intros w H]
  end.

Section ReportLemmas2.
Context {BC : BytesCrate}.

Definition reception_wf (r : ReceptionReport) : Prop :=
  fits 32 (rep_ssrc r) ∧ byte_ok (fraction_lost r) ∧ fits 24 (total_lost r) ∧
  fits 32 (last_sequence_number r) ∧ fits 32 (jitter r) ∧ fits 32 (last_sender_report r) ∧ fits 32 (delay r).

Definition reception_bytes (r : ReceptionReport) : bytes :=
  put_uint 4 (rep_ssrc r) ++ put_uint 1 (fraction_lost r) ++
  put_uint 1 (u8 (Z.land (Z.shiftr (total_lost r) 16) 0xFF)) ++
  put_uint 1 (u8 (Z.land (Z.shiftr (total_lost r) 8) 0xFF)) ++
  put_uint 1 (u8 (Z.land (total_lost r) 0xFF)) ++
  put_uint 4 (last_sequence_number r) ++ put_uint 4 (jitter r) ++
  put_uint 4 (last_sender_report r) ++ put_uint 4 (delay r).

Lemma len_reception r : len (reception_bytes r) = 24.
Proof. unfold reception_bytes. by autorewrite with len. Qed.

Lemma reception_encodes r : reception_wf r → encodes r (reception_bytes r).
Proof.
  intros (_ & _ & Ht & _). split; [apply len_reception|]. intros buf Hb.
  unfold marshal_to, reception_report_marshal_to. unfold fits in Ht.
  change (marshal_size r) with 24 in *. change (raw_size r) with 24.
  rewrite (proj2 (Z.ltb_ge _ _)) by lia.
  rewrite <- finish_put by (rewrite len_reception; lia).
  rewrite (proj2 (Z.leb_gt (Z.shiftl 1 25) (total_lost r))) by (change (Z.shiftl 1 25) with (2 ^ 25); lia).
  unfold reception_bytes. rewrite <- (app_nil_r (put_uint 4 (delay r))) at 1.
  repeat (apply put_step; intros). by rewrite put_padding_put.
Qed.

Lemma total_lost_read x :
  fits 24 x →
  Z.lor (Z.lor (u8 (Z.land x 0xFF)) (Z.shiftl (u8 (Z.land (Z.shiftr x 8) 0xFF)) 8))
        (Z.shiftl (u8 (Z.land (Z.shiftr x 16) 0xFF)) 16) = x.
Proof.
  intros Hx. change 0xFF with (Z.ones 8). rewrite !field_mod, Z.land_ones by lia.
  rewrite !wrap_small by (apply wrap_fits; lia).
  change (2 ^ 8) with 256 in *. change (2 ^ 16) with 65536. unfold fits in Hx. change (2 ^ 24) with 16777216 in Hx.
  rewrite (Z.mod_small (x / 65536)) by (split; [apply Z.div_pos|apply Z.div_lt_upper_bound]; lia).
  rewrite (Z.lor_comm (x mod 256)), lor_shiftl_add by (unfold fits; simpl; pose proof (Z.mod_pos_bound x 256); lia).
  rewrite Z.lor_comm, lor_shiftl_add; [|lia|].
  - change (2 ^ 8) with 256. change (2 ^ 16) with 65536. change 65536 with (256 * 256). rewrite <- Z.div_div by lia.
    pose proof (Z_div_mod_eq_full x 256). pose proof (Z_div_mod_eq_full (x / 256) 256). lia.
  - unfold fits. change (2 ^ 8) with 256. change (2 ^ 16) with 65536.
    pose proof (Z.mod_pos_bound x 256). pose proof (Z.mod_pos_bound (x / 256) 256). lia.
Qed.

Lemma reception_read r rest :
  reception_wf r → reception_report_unmarshal (reception_bytes r ++ rest) = Ok (r, rest).
Proof.
  intros (H1 & H2 & Ht & H3 & H4 & H5 & H6). pose proof (len_nonneg rest).
  unfold reception_report_unmarshal, RECEPTION_REPORT_LENGTH.
  rewrite (proj2 (Z.ltb_ge _ _)) by (rewrite len_app, len_reception; lia).
  unfold reception_bytes, get_u32, get_u8. rewrite <- !app_assoc.
  repeat (rewrite get_put_uint by (done || (apply wrap_fits; lia)); cbn [rbind]).
  cbv zeta. rewrite total_lost_read by done. by destruct r.
Qed.

Lemma reception_post raw :
  Forall byte_ok raw → 24 <= len raw →
  res_post (reception_report_unmarshal raw) (λ '(_, r), Forall byte_ok r ∧ len r = len raw - 24).
Proof. intros Hr Hl. unfold reception_report_unmarshal, RECEPTION_REPORT_LENGTH. parse. simpl. split; [done|lia]. Qed.

Lemma reps_length_spec reps : reps_length reps = 24 * len reps.
Proof.
  unfold reps_length. enough (∀ n, foldl (λ n rep, n + marshal_size rep) n reps = n + 24 * len reps) as -> by lia.
  induction reps as [|x xs IH]; intros n; [unfold len; simpl; lia|]. cbn [foldl]. rewrite IH, len_cons.
  change (marshal_size x) with 24. lia.
Qed.

Lemma len_receptions reps : len (concat (reception_bytes <$> reps)) = 24 * len reps.
Proof.
  induction reps as [|x xs IH]; [done|]. csimpl. rewrite len_app, len_reception, IH, len_cons. lia.
Qed.

Lemma read_reports_app reps offset total rest :
  Forall reception_wf reps → offset + 24 * len reps <= total →
  read_reports (length reps) offset total (concat (reception_bytes <$> reps) ++ rest) = Ok (reps, rest).
Proof.
  intros Hw. revert offset. induction Hw as [|x xs Hx Hxs IH]; intros offset Ho; [done|]. csimpl.
  rewrite len_cons in Ho. pose proof (len_nonneg xs). unfold RECEPTION_REPORT_LENGTH.
  rewrite (proj2 (Z.ltb_ge _ _)) by lia. rewrite <- app_assoc, reception_read by done. cbn [rbind].
  rewrite IH by lia. done.
Qed.

Lemma read_reports_post n offset raw :
  Forall byte_ok raw →
  res_post (read_reports n offset (offset + len raw) raw) (λ '(_, r), Forall byte_ok r ∧ len r <= len raw).
Proof.
  revert offset raw. induction n as [|n IH]; intros offset raw Hr; simpl; [split; [done|lia]|].
  unfold RECEPTION_REPORT_LENGTH. destruct (Z.ltb_spec (offset + len raw) (offset + 24)); [done|].
  eapply res_post_bind; [apply reception_post; [done|lia]|]. intros [x r] [Hr1 L1].
  replace (offset + len raw) with (offset + 24 + len r) by lia.
  eapply res_post_bind; [by apply IH|]. intros [xs r2] [? ?]. simpl. split; [done|lia].
Qed.

(** ** Sender reports *)

Definition sr_wf (p : SenderReportPacket) : Prop :=
  fits 32 (sr_ssrc p) ∧ fits 64 (ntp_time p) ∧ fits 32 (rtp_time p) ∧ fits 32 (packet_count p) ∧
  fits 32 (octet_count p) ∧ Forall reception_wf (sr_reports p) ∧ len (sr_reports p) <= 31 ∧
  Forall byte_ok (sr_profile_extensions p).

Definition sr_body (p : SenderReportPacket) : bytes :=
  put_uint 4 (sr_ssrc p) ++ put_uint 8 (ntp_time p) ++ put_uint 4 (rtp_time p) ++
  put_uint 4 (packet_count p) ++ put_uint 4 (octet_count p) ++
  concat (reception_bytes <$> sr_reports p) ++ sr_profile_extensions p.

Lemma sr_raw_size p : raw_size p = 28 + 24 * len (sr_reports p) + len (sr_profile_extensions p).
Proof. cbn. rewrite reps_length_spec. unfold RTCP_HEADER_LENGTH, SR_HEADER_LENGTH. lia. Qed.

Lemma len_sr_body p : len (sr_body p) = raw_size p - 4.
Proof. rewrite sr_raw_size. unfold sr_body. rewrite !len_app, len_receptions. autorewrite with len. lia. Qed.

Lemma len_frame `{Packet T} (p : T) body : len body = raw_size p - 4 → len (frame p body) = aligned_size p.
Proof. intros Hb. unfold frame, aligned_size. autorewrite with len. lia. Qed.

Lemma unpadded_size n : n mod 4 = 0 ↔ get_padding_size n = 0.
Proof.
  unfold get_padding_size. pose proof (Z.mod_pos_bound n 4). destruct (Z.eqb_spec (n mod 4) 0); lia.
Qed.

Lemma aligned_mod `{Packet T} (p : T) : get_padding_size (aligned_size p) = 0.
Proof. apply unpadded_size. unfold aligned_size. apply padding_size_bounds. Qed.

Lemma u8_count n : 0 <= n <= 31 → 0 <= u8 n < 32.
Proof. intros. rewrite wrap_small by (unfold fits; lia). lia. Qed.

Lemma put_header h w :
  0 <= count h < 32 → 4 <= len (room w) → put_marshal h w = put (rtcp_header_bytes h) w.
Proof. intros. apply put_encoded; [by apply rtcp_header_encodes|by rewrite len_rtcp_header]. Qed.

Lemma put_receptions reps w :
  Forall reception_wf reps → 24 * len reps <= len (room w) →
  put_all put_marshal reps w = put (concat (reception_bytes <$> reps)) w.
Proof.
  rewrite Forall_forall. intros Hr Hl. apply put_all_encoded; [|by rewrite len_receptions].
  intros. by apply reception_encodes, Hr.
Qed.

Lemma sr_encodes p : sr_wf p → encodes p (frame p (sr_body p)).
Proof.
  intros (_ & _ & _ & _ & _ & Hr & Hn & _). pose proof (len_frame p _ (len_sr_body p)) as L.
  split; [done|]. intros buf Hb. change (marshal_size p) with (aligned_size p) in *.
  unfold marshal_to, sender_report_marshal_to, COUNT_MAX. change (marshal_size p) with (aligned_size p).
  pose proof (len_nonneg (sr_reports p)).
  rewrite (proj2 (Z.ltb_ge 31 _)), (proj2 (Z.ltb_ge _ _)) by lia. cbv zeta.
  rewrite <- finish_put by lia. unfold aligned_size in Hb. pose proof (padding_size_bounds (raw_size p)).
  pose proof (sr_raw_size p). pose proof (len_nonneg (sr_profile_extensions p)).
  rewrite put_header by first [apply u8_count; lia|cbn [room]; lia].
  unfold frame, sr_body. rewrite <- !app_assoc.
  apply put_step_room; [autorewrite with len; cbn [room]; lia|]. intros w1 L1. autorewrite with len in L1. cbn [room] in L1.
  do 5 (apply put_step_room; [autorewrite with len; lia|]; intros ? ?; autorewrite with len in * ).
  rewrite put_receptions by (done || lia).
  repeat (apply put_step; intros). cbn [header sender_report_packet body_header rtcp_padding].
  by rewrite put_padding_if.
Qed.

Lemma unpadded n : n mod 4 = 0 → padding_bytes n = [].
Proof. intros E. unfold padding_bytes, get_padding_size. by rewrite E. Qed.

Lemma copy_all l : copy_to_bytes (len l) l = Ok (l, []).
Proof. rewrite <- (app_nil_r l) at 2. apply copy_to_bytes_app. Qed.

Lemma sr_read p :
  sr_wf p → len (sr_profile_extensions p) mod 4 = 0 →
  sender_report_unmarshal (frame p (sr_body p)) = Ok (p, []).
Proof.
  intros (H1 & H2 & H3 & H4 & H5 & Hr & Hn & _) Hm. pose proof (len_frame p _ (len_sr_body p)) as L.
  pose proof (sr_raw_size p) as RS. pose proof (len_nonneg (sr_reports p)). pose proof (len_nonneg (sr_profile_extensions p)).
  assert (raw_size p mod 4 = 0) as M by (rewrite RS; Z.div_mod_to_equations; lia).
  unfold aligned_size in L. rewrite (proj1 (unpadded_size _) M), Z.add_0_r in L.
  unfold sender_report_unmarshal, RTCP_HEADER_LENGTH, SR_HEADER_LENGTH, SR_REPORT_OFFSET. cbv zeta. rewrite L.
  rewrite (proj2 (Z.ltb_ge _ _)) by lia.
  unfold frame. rewrite unpadded, app_nil_r by done. cbn [header sender_report_packet].
  rewrite body_header_read by (apply u8_count; lia). cbn [rbind packet_type body_header count].
  rewrite bool_decide_true by done. cbn [negb]. unfold sr_body, get_u32, get_u64.
  rewrite !get_put_uint by done. cbn [rbind].
  do 4 (rewrite get_put_uint by done; cbn [rbind]).
  rewrite wrap_small by (unfold fits; lia). unfold len at 1. rewrite Nat2Z.id.
  rewrite read_reports_app by (done || (unfold SR_REPORT_OFFSET, RTCP_HEADER_LENGTH, SR_HEADER_LENGTH; lia)).
  cbn [rbind]. rewrite copy_all. cbn [rbind]. by destruct p.
Qed.

Lemma sr_post raw :
  Forall byte_ok raw → res_post (sender_report_unmarshal raw) (left_of 4 raw).
Proof.
  intros Hr. unfold sender_report_unmarshal, RTCP_HEADER_LENGTH, SR_HEADER_LENGTH, SR_REPORT_OFFSET. cbv zeta.
  parse_step; [done|]. bool_facts. eapply res_post_bind; [by apply rtcp_header_post|].
  intros [h r] (Hn & _ & Hr1 & L1). parse.
  eapply res_post_bind.
  { replace (len raw) with (RTCP_HEADER_LENGTH + SR_HEADER_LENGTH + len r4)
      by (unfold RTCP_HEADER_LENGTH, SR_HEADER_LENGTH; lia). by apply read_reports_post. }
  intros [reps r5] [Hr5 L5]. parse. simpl. split; [done|lia].
Qed.

(** ** Receiver reports *)

Definition rr_wf (p : ReceiverReportPacket) : Prop :=
  fits 32 (rr_ssrc p) ∧ Forall reception_wf (rr_reports p) ∧ len (rr_reports p) <= 31 ∧
  Forall byte_ok (rr_profile_extensions p).

Definition rr_body (p : ReceiverReportPacket) : bytes :=
  put_uint 4 (rr_ssrc p) ++ concat (reception_bytes <$> rr_reports p) ++ rr_profile_extensions p.

Lemma rr_raw_size p : raw_size p = 8 + 24 * len (rr_reports p) + len (rr_profile_extensions p).
Proof. cbn. rewrite reps_length_spec. unfold RTCP_HEADER_LENGTH, SSRC_LENGTH. lia. Qed.

Lemma len_rr_body p : len (rr_body p) = raw_size p - 4.
Proof. rewrite rr_raw_size. unfold rr_body. rewrite !len_app, len_receptions. autorewrite with len. lia. Qed.

Lemma rr_encodes p : rr_wf p → encodes p (frame p (rr_body p)).
Proof.
  intros (_ & Hr & Hn & _). pose proof (len_frame p _ (len_rr_body p)) as L.
  split; [done|]. intros buf Hb. change (marshal_size p) with (aligned_size p) in *.
  unfold marshal_to, receiver_report_marshal_to, COUNT_MAX. change (marshal_size p) with (aligned_size p).
  pose proof (len_nonneg (rr_reports p)).
  rewrite (proj2 (Z.ltb_ge 31 _)), (proj2 (Z.ltb_ge _ _)) by lia. cbv zeta.
  rewrite <- finish_put by lia. unfold aligned_size in Hb. pose proof (padding_size_bounds (raw_size p)).
  pose proof (rr_raw_size p). pose proof (len_nonneg (rr_profile_extensions p)).
  rewrite put_header by first [apply u8_count; lia|cbn [room]; lia].
  unfold frame, rr_body. rewrite <- !app_assoc.
  apply put_step_room; [autorewrite with len; cbn [room]; lia|]. intros w1 L1. autorewrite with len in L1. cbn [room] in L1.
  apply put_step_room; [autorewrite with len; lia|]. intros w2 L2. autorewrite with len in L2.
  rewrite put_receptions by (done || lia).
  repeat (apply put_step; intros). cbn [header receiver_report_packet body_header rtcp_padding].
  by rewrite put_padding_if.
Qed.

Lemma rr_read p :
  rr_wf p → len (rr_profile_extensions p) mod 4 = 0 →
  receiver_report_unmarshal (frame p (rr_body p)) = Ok (p, []).
Proof.
  intros (H1 & Hr & Hn & _) Hm. pose proof (len_frame p _ (len_rr_body p)) as L.
  pose proof (rr_raw_size p) as RS. pose proof (len_nonneg (rr_reports p)). pose proof (len_nonneg (rr_profile_extensions p)).
  assert (raw_size p mod 4 = 0) as M by (rewrite RS; Z.div_mod_to_equations; lia).
  unfold aligned_size in L. rewrite (proj1 (unpadded_size _) M), Z.add_0_r in L.
  unfold receiver_report_unmarshal, RTCP_HEADER_LENGTH, SSRC_LENGTH. cbv zeta. rewrite L.
  rewrite (proj2 (Z.ltb_ge _ _)) by lia.
  unfold frame. rewrite unpadded, app_nil_r by done. cbn [header receiver_report_packet].
  rewrite body_header_read by (apply u8_count; lia). cbn [rbind packet_type body_header count].
  rewrite bool_decide_true by done. cbn [negb]. unfold rr_body, get_u32.
  rewrite get_put_uint by done. cbn [rbind].
  rewrite wrap_small by (unfold fits; lia). unfold len at 1. rewrite Nat2Z.id.
  rewrite read_reports_app by (done || (unfold RR_REPORT_OFFSET, RR_SSRC_OFFSET, RTCP_HEADER_LENGTH, SSRC_LENGTH; lia)).
  cbn [rbind]. rewrite copy_all. cbn [rbind]. by destruct p.
Qed.

Lemma rr_post raw :
  Forall byte_ok raw → res_post (receiver_report_unmarshal raw) (left_of 4 raw).
Proof.
  intros Hr. unfold receiver_report_unmarshal, RTCP_HEADER_LENGTH, SSRC_LENGTH. cbv zeta.
  parse_step; [done|]. bool_facts. eapply res_post_bind; [by apply rtcp_header_post|].
  intros [h r] (Hn & _ & Hr1 & L1). parse.
  eapply res_post_bind.
  { replace (len raw) with (RR_REPORT_OFFSET + len r0)
      by (unfold RR_REPORT_OFFSET, RR_SSRC_OFFSET, RTCP_HEADER_LENGTH, SSRC_LENGTH; lia). by apply read_reports_post. }
  intros [reps r5] [Hr5 L5]. parse. simpl. split; [done|lia].
Qed.

(** ** Goodbyes *)

Definition bye_wf (p : GoodbyePacket) : Prop :=
  Forall (fits 32) (sources p) ∧ len (sources p) <= 31 ∧ len (reason p) <= 255 ∧ Forall byte_ok (reason p).

Definition bye_body (p : GoodbyePacket) : bytes :=
  concat (put_uint 4 <$> sources p) ++ put_uint 1 (len (reason p)) ++ reason p.

Lemma len_concat_put (n : nat) xs : len (concat (put_uint n <$> xs)) = Z.of_nat n * len xs.
Proof. induction xs as [|x xs IH]; [unfold len; simpl; lia|]. csimpl. rewrite len_app, len_put_uint, IH, len_cons. lia. Qed.

Lemma bye_raw_size p : raw_size p = 5 + 4 * len (sources p) + len (reason p).
Proof. cbn. unfold RTCP_HEADER_LENGTH, SSRC_LENGTH. lia. Qed.

Lemma len_bye_body p : len (bye_body p) = raw_size p - 4.
Proof. rewrite bye_raw_size. unfold bye_body. rewrite !len_app, len_concat_put. autorewrite with len. lia. Qed.

Lemma bye_encodes p : bye_wf p → encodes p (frame p (bye_body p)).
Proof.
  intros (_ & Hn & Hl & _). pose proof (len_frame p _ (len_bye_body p)) as L.
  split; [done|]. intros buf Hb. change (marshal_size p) with (aligned_size p) in *.
  unfold marshal_to, goodbye_marshal_to, COUNT_MAX, SDES_MAX_OCTET_COUNT. change (marshal_size p) with (aligned_size p).
  pose proof (len_nonneg (sources p)). pose proof (len_nonneg (reason p)).
  rewrite (proj2 (Z.ltb_ge 31 _)), (proj2 (Z.ltb_ge 255 _)), (proj2 (Z.ltb_ge _ _)) by lia. cbv zeta.
  rewrite <- finish_put by lia. unfold aligned_size in Hb. pose proof (padding_size_bounds (raw_size p)).
  pose proof (bye_raw_size p).
  rewrite put_header by first [apply u8_count; lia|cbn [room]; lia].
  unfold frame, bye_body. rewrite <- !app_assoc. apply put_step. intros w1.
  rewrite (put_all_put (put_uint 4)) by done. apply put_step. intros w2.
  rewrite wrap_small by (unfold fits; lia). apply put_step. intros w3.
  transitivity (rbind (put (reason p) w3) (λ w, rbind (put (padding_bytes (raw_size p)) w) (finish (aligned_size p)))).
  - rewrite <- put_nil. destruct (Z.eqb_spec (len (reason p)) 0) as [E|E]; cbn [negb].
    + assert (reason p = []) as -> by (by apply length_zero_iff_nil; unfold len in E; lia). rewrite put_nil. cbn [rbind].
      cbn [header goodbye_packet body_header rtcp_padding]. by rewrite put_padding_if.
    + destruct (put (reason p) w3); [|done..]. cbn [rbind].
      cbn [header goodbye_packet body_header rtcp_padding]. by rewrite put_padding_if.
  - by apply put_step.
Qed.

Lemma read_u32s xs r :
  Forall (fits 32) xs → read_n get_u32 (length xs) (concat (put_uint 4 <$> xs) ++ r) = Ok (xs, r).
Proof. rewrite Forall_forall. intros Hx. apply read_n_app. intros. apply get_put_uint. by apply Hx. Qed.

Lemma bye_read p : bye_wf p → goodbye_unmarshal (frame p (bye_body p)) = Ok (p, []).
Proof.
  intros (Hs & Hn & Hl & _). pose proof (len_frame p _ (len_bye_body p)) as L.
  pose proof (bye_raw_size p) as RS. pose proof (len_nonneg (sources p)). pose proof (len_nonneg (reason p)).
  pose proof (padding_size_bounds (raw_size p)).
  unfold goodbye_unmarshal, RTCP_HEADER_LENGTH, SSRC_LENGTH. cbv zeta. rewrite L.
  unfold frame. cbn [header goodbye_packet].
  rewrite body_header_read by (apply u8_count; lia). cbn [rbind packet_type body_header count].
  rewrite bool_decide_true, aligned_mod by done. cbn [negb Z.eqb].
  rewrite wrap_small by (unfold fits; lia). unfold aligned_size.
  rewrite (proj2 (Z.ltb_ge _ _)) by lia. unfold len at 1. rewrite Nat2Z.id.
  unfold bye_body. rewrite <- !app_assoc, read_u32s by done. cbn [rbind].
  rewrite (proj2 (Z.ltb_lt (_ + _) _)) by lia. unfold get_u8.
  rewrite get_put_uint by (unfold fits; simpl; lia). cbn [rbind].
  rewrite (proj2 (Z.ltb_ge _ _)) by lia. rewrite copy_to_bytes_app. cbn [rbind]. by destruct p.
Qed.

Lemma bye_post raw : Forall byte_ok raw → res_post (goodbye_unmarshal raw) (left_of 4 raw).
Proof.
  intros Hr. unfold goodbye_unmarshal, RTCP_HEADER_LENGTH, SSRC_LENGTH. cbv zeta.
  eapply res_post_bind; [by apply rtcp_header_post|]. intros [h r] (Hn & _ & Hr1 & L1). parse.
  eapply res_post_bind; [apply (read_n_post get_u32 4); [lia| |done|lia]|].
  { intros r0 Hr0 L0. eapply res_post_mono; [by apply get_u32_post|]. by intros [??] (_ & ? & ?). }
  intros [srcs r2] (_ & Hr2 & L2).
  apply (res_post_bind _ _ (λ _, True)).
  - parse; [|done]. eapply res_post_mono; [apply copy_to_bytes_post; [done|unfold fits in *; lia]|done].
  - intros [why r3] _. pose proof (len_nonneg r). simpl. split; [done|]. change (len []) with 0. lia.
Qed.

(** ** Where reports do not come back *)

(** Profile extensions that are not a multiple of four bytes are followed by padding, and the
    parser takes the padding for extension data: the report that is read is another one. *)
Lemma padded_report_grows :
  let p := mkReceiverReport 1 [] [7] in
  receiver_report_unmarshal (frame p (rr_body p)) = Ok (mkReceiverReport 1 [] [7; 0; 0; 3], []).
Proof.
  cbv zeta. set (p := mkReceiverReport 1 [] [7]). unfold receiver_report_unmarshal.
  rewrite (len_frame p _ (len_rr_body p)). change (aligned_size p) with 12. cbv zeta.
  change (12 <? RTCP_HEADER_LENGTH + SSRC_LENGTH) with false. cbv iota.
  unfold frame. cbn [header receiver_report_packet]. rewrite body_header_read by done.
  cbn [rbind packet_type body_header count]. rewrite bool_decide_true by done. cbn [negb].
  unfold rr_body, get_u32. rewrite <- !app_assoc. rewrite get_put_uint by done. cbn [rbind]. done.
Qed.

(** The count of lost packets is 24 bits on the wire, but values below [2^25] are accepted:
    [2^24] lost packets are written like none. *)
Lemma total_lost_truncated r :
  reception_wf r →
  marshal (mkReceptionReport (rep_ssrc r) (fraction_lost r) (Z.shiftl 1 24)
             (last_sequence_number r) (jitter r) (last_sender_report r) (delay r)) =
  marshal (mkReceptionReport (rep_ssrc r) (fraction_lost r) 0
             (last_sequence_number r) (jitter r) (last_sender_report r) (delay r)).
Proof. done. Qed.

End ReportLemmas2.
