(* ===== verification/RtcpFeedback.v ===== *)
(** Feedback packets: [rtc-rtcp/src/payload_feedbacks] (picture and slice loss indications, full
    intra requests) and [transport_feedbacks] (rapid resynchronization requests and the
    generic NACK with its pairs).

    [nack_pairs_exact]: the pairs made from any list of sequence numbers name exactly these
    numbers. *)

From stdpp Require Import sorting.
From S2P Require Import Prelude Codec Rtcp RtcpReport.

Definition FORMAT_SLI : Z := 2.
Definition FORMAT_PLI : Z := 1.
Definition FORMAT_FIR : Z := 4.
Definition FORMAT_TLN : Z := 1.
Definition FORMAT_RRR : Z := 5.
Definition FORMAT_REMB : Z := 15.
Definition FORMAT_TCC : Z := 15.
Definition FIR_MIN_OCTET_COUNT : Z := 20.

(** [h.packet_type != t || h.count != c] *)
Definition wrong_type (h : RtcpHeader) (t : PacketType) (c : Z) : bool :=
  negb (bool_decide (packet_type h = t)) || negb (count h =? c).

(** * Picture loss indications *)

Record PictureLossIndication := mkPli {
  pli_sender_ssrc : Z;
  pli_media_ssrc : Z
}.

#[export] Instance pli_packet : Packet PictureLossIndication :=
  let raw_size _ := RTCP_HEADER_LENGTH + SSRC_LENGTH * 2 in
  {|
    header p := body_header (raw_size p) FORMAT_PLI PayloadSpecificFeedback;
    destination_ssrc p := [pli_media_ssrc p];
    raw_size := raw_size
  |}.

#[export] Instance pli_size : MarshalSize PictureLossIndication := aligned_size.

Section PliCodec.
Context {BC : BytesCrate}.

#[export] Instance pli_marshal_to : Marshal PictureLossIndication := λ p buf,
  if len buf <? marshal_size p then Err BufferTooShort
  else
    let h := header p in
    let! w := put_marshal h (Wbuf [] buf) in
    let! w := put_u32 (pli_sender_ssrc p) w in
    let! w := put_u32 (pli_media_ssrc p) w in
    let! w := if rtcp_padding h then put_padding (raw_size p) w else Ok w in
    finish (marshal_size p) w.

Definition pli_unmarshal (raw : bytes) : res (PictureLossIndication * bytes) :=
  let raw_packet_len := len raw in
  if raw_packet_len <? RTCP_HEADER_LENGTH + SSRC_LENGTH * 2 then Err PacketTooShort
  else
    let! (h, raw) := rtcp_header_unmarshal raw in
    if wrong_type h PayloadSpecificFeedback FORMAT_PLI then Err WrongType
    else
      let! (sender_ssrc, raw) := get_u32 raw in
      let! (media_ssrc, raw) := get_u32 raw in
      Ok (mkPli sender_ssrc media_ssrc, []).

End PliCodec.

(** * Rapid resynchronization requests *)

Definition RRR_HEADER_LENGTH : Z := SSRC_LENGTH * 2.

Record RapidResynchronizationRequest := mkRrr {
  rrr_sender_ssrc : Z;
  rrr_media_ssrc : Z
}.

#[export] Instance rrr_packet : Packet RapidResynchronizationRequest :=
  let raw_size _ := RTCP_HEADER_LENGTH + RRR_HEADER_LENGTH in
  {|
    header p := body_header (raw_size p) FORMAT_RRR TransportSpecificFeedback;
    destination_ssrc p := [rrr_media_ssrc p];
    raw_size := raw_size
  |}.

#[export] Instance rrr_size : MarshalSize RapidResynchronizationRequest := aligned_size.

Section RrrCodec.
Context {BC : BytesCrate}.

#[export] Instance rrr_marshal_to : Marshal RapidResynchronizationRequest := λ p buf,
  if len buf <? marshal_size p then Err BufferTooShort
  else
    let h := header p in
    let! w := put_marshal h (Wbuf [] buf) in
    let! w := put_u32 (rrr_sender_ssrc p) w in
    let! w := put_u32 (rrr_media_ssrc p) w in
    let! w := if rtcp_padding h then put_padding (raw_size p) w else Ok w in
    finish (marshal_size p) w.

Definition rrr_unmarshal (raw : bytes) : res (RapidResynchronizationRequest * bytes) :=
  let raw_packet_len := len raw in
  if raw_packet_len <? RTCP_HEADER_LENGTH + SSRC_LENGTH * 2 then Err PacketTooShort
  else
    let! (h, raw) := rtcp_header_unmarshal raw in
    if wrong_type h TransportSpecificFeedback FORMAT_RRR then Err WrongType
    else
      let! (sender_ssrc, raw) := get_u32 raw in
      let! (media_ssrc, raw) := get_u32 raw in
      Ok (mkRrr sender_ssrc media_ssrc, []).

End RrrCodec.

(** * NACK pairs *)

Record NackPair := mkNackPair { packet_id : Z; lost_packets : Z }.

Record NackIterator := mkNackIterator {
  it_packet_id : Z;
  it_bitfield : Z;
  has_yielded_packet_id : bool
}.

(** The loop of [NackIterator::next], [while self.bitfield != 0 { .. i += 1 }]. *)
Fixpoint next_bit (fuel : nat) (it : NackIterator) (i : Z) : option Z * NackIterator :=
  match fuel with
  | O => (None, it)
  | S fuel =>
      if it_bitfield it =? 0 then (None, it)
      else if negb (Z.land (it_bitfield it) (Z.shiftl 1 i) =? 0) then
        (Some (u16 (it_packet_id it + (i + 1))),
         mkNackIterator (it_packet_id it)
           (Z.land (it_bitfield it) (u16 (Z.lnot (Z.shiftl 1 i)))) (has_yielded_packet_id it))
      else next_bit fuel it (i + 1)
  end.

Definition nack_next (it : NackIterator) : option Z * NackIterator :=
  if negb (has_yielded_packet_id it) then
    (Some (it_packet_id it), mkNackIterator (it_packet_id it) (it_bitfield it) true)
  else next_bit 16 it 0.

Definition nack_pair_new (seq : Z) : NackPair := mkNackPair seq 0.

Definition nack_into_iter (p : NackPair) : NackIterator :=
  mkNackIterator (packet_id p) (lost_packets p) false.

Fixpoint collect (fuel : nat) (it : NackIterator) : list Z :=
  match fuel with
  | O => []
  | S fuel =>
      match nack_next it with
      | (Some x, it) => x :: collect fuel it
      | (None, _) => []
      end
  end.

Definition packet_list (p : NackPair) : list Z := collect 18 (nack_into_iter p).

(** [range f]: the numbers [f] is called with, up to the first refusal. *)
Fixpoint range_loop (f : Z → bool) (l : list Z) : list Z :=
  match l with
  | [] => []
  | x :: l => x :: (if f x then range_loop f l else [])
  end.
Definition nack_range (f : Z → bool) (p : NackPair) : list Z := range_loop f (packet_list p).

(** The loop of [nack_pairs_from_sequence_numbers]. *)
Fixpoint nack_pairs_loop (nack_pair : NackPair) (seqs : list Z) : list NackPair :=
  match seqs with
  | [] => [nack_pair]
  | seq :: seqs =>
      if seq =? packet_id nack_pair then nack_pairs_loop nack_pair seqs
      else if (seq <=? packet_id nack_pair) || (Z.min 65535 (packet_id nack_pair + 16) <? seq) then
        nack_pair :: nack_pairs_loop (nack_pair_new seq) seqs
      else
        nack_pairs_loop
          (mkNackPair (packet_id nack_pair)
             (Z.lor (lost_packets nack_pair) (Z.shiftl 1 (seq - packet_id nack_pair - 1)))) seqs
  end.

Definition nack_pairs_from_sequence_numbers (seq_nos : list Z) : list NackPair :=
  match seq_nos with
  | [] => []
  | seq :: seqs => nack_pairs_loop (nack_pair_new seq) seqs
  end.

(** * Generic NACKs *)

Definition TLN_LENGTH : Z := 2.
Definition NACK_OFFSET : Z := 8.
Definition NACK_MIN_OCTET_COUNT : Z := 12.

Record TransportLayerNack := mkNack {
  nack_sender_ssrc : Z;
  nack_media_ssrc : Z;
  nacks : list NackPair
}.

#[export] Instance nack_packet : Packet TransportLayerNack :=
  let raw_size p := RTCP_HEADER_LENGTH + NACK_OFFSET + len (nacks p) * 4 in
  {|
    header p := body_header (raw_size p) FORMAT_TLN TransportSpecificFeedback;
    destination_ssrc p := [nack_media_ssrc p];
    raw_size := raw_size
  |}.

#[export] Instance nack_size : MarshalSize TransportLayerNack := aligned_size.

Section NackCodec.
Context {BC : BytesCrate}.

#[export] Instance nack_marshal_to : Marshal TransportLayerNack := λ p buf,
  if 255 <? len (nacks p) + TLN_LENGTH then Err TooManyReports
  else if len buf <? marshal_size p then Err BufferTooShort
  else
    let h := header p in
    let! w := put_marshal h (Wbuf [] buf) in
    let! w := put_u32 (nack_sender_ssrc p) w in
    let! w := put_u32 (nack_media_ssrc p) w in
    let! w := put_all (λ n w, let! w := put_u16 (packet_id n) w in put_u16 (lost_packets n) w) (nacks p) w in
    let! w := if rtcp_padding h then put_padding (raw_size p) w else Ok w in
    finish (marshal_size p) w.

Definition nack_pair_read (raw : bytes) : res (NackPair * bytes) :=
  let! (id, raw) := get_u16 raw in
  let! (lost, raw) := get_u16 raw in
  Ok (mkNackPair id lost, raw).

Definition nack_unmarshal (raw : bytes) : res (TransportLayerNack * bytes) :=
  let raw_packet_len := len raw in
  if raw_packet_len <? RTCP_HEADER_LENGTH + NACK_MIN_OCTET_COUNT then Err PacketTooShort
  else
    let! (h, raw) := rtcp_header_unmarshal raw in
    if raw_packet_len <? RTCP_HEADER_LENGTH + 4 * rtcp_length h then Err PacketTooShort
    else if wrong_type h TransportSpecificFeedback FORMAT_TLN then Err WrongType
    else
      let! (sender_ssrc, raw) := get_u32 raw in
      let! (media_ssrc, raw) := get_u32 raw in
      let! (pairs, raw) := read_n nack_pair_read (Z.to_nat (rtcp_length h - NACK_OFFSET / 4)) raw in
      Ok (mkNack sender_ssrc media_ssrc pairs, []).

End NackCodec.

(** * Slice loss indications *)

Definition SLI_LENGTH : Z := 2.
Definition SLI_OFFSET : Z := 8.

Record SliEntry := mkSliEntry { sli_first : Z; sli_number : Z; sli_picture : Z }.

Record SliceLossIndication := mkSli {
  sli_sender_ssrc : Z;
  sli_media_ssrc : Z;
  sli_entries : list SliEntry
}.

#[export] Instance sli_packet : Packet SliceLossIndication :=
  let raw_size p := RTCP_HEADER_LENGTH + SLI_OFFSET + len (sli_entries p) * 4 in
  {|
    header p := body_header (raw_size p) FORMAT_SLI TransportSpecificFeedback;
    destination_ssrc p := [sli_media_ssrc p];
    raw_size := raw_size
  |}.

#[export] Instance sli_size : MarshalSize SliceLossIndication := aligned_size.

Section SliCodec.
Context {BC : BytesCrate}.

(** The word of an entry. *)
Definition sli_word (s : SliEntry) : Z :=
  Z.lor (Z.lor (u32 (Z.shiftl (Z.land (sli_first s) 0x1FFF) 19))
               (u32 (Z.shiftl (Z.land (sli_number s) 0x1FFF) 6)))
        (Z.land (sli_picture s) 0x3F).

#[export] Instance sli_marshal_to : Marshal SliceLossIndication := λ p buf,
  if 255 <? u8 (len (sli_entries p) + SLI_LENGTH) then Err TooManyReports
  else if len buf <? marshal_size p then Err BufferTooShort
  else
    let h := header p in
    let! w := put_marshal h (Wbuf [] buf) in
    let! w := put_u32 (sli_sender_ssrc p) w in
    let! w := put_u32 (sli_media_ssrc p) w in
    let! w := put_all (λ s, put_u32 (sli_word s)) (sli_entries p) w in
    let! w := if rtcp_padding h then put_padding (raw_size p) w else Ok w in
    finish (marshal_size p) w.

(** The loop over the entries, [while i < HEADER_LENGTH + h.length * 4]. *)
Fixpoint read_slis (fuel : nat) (i stop : Z) (raw : bytes) : res (list SliEntry * bytes) :=
  match fuel with
  | O => Panic
  | S fuel =>
      if i <? stop then
        let! (sli, raw) := get_u32 raw in
        let e := mkSliEntry (Z.land (Z.shiftr sli 19) 0x1FFF) (Z.land (Z.shiftr sli 6) 0x1FFF)
                            (u8 (Z.land sli 0x3F)) in
        let! (es, raw) := read_slis fuel (i + 4) stop raw in
        Ok (e :: es, raw)
      else Ok ([], raw)
  end.

Definition sli_unmarshal (raw : bytes) : res (SliceLossIndication * bytes) :=
  let raw_packet_len := len raw in
  if raw_packet_len <? RTCP_HEADER_LENGTH + SLI_OFFSET then Err PacketTooShort
  else
    let! (h, raw) := rtcp_header_unmarshal raw in
    if raw_packet_len <? RTCP_HEADER_LENGTH + 4 * rtcp_length h then Err PacketTooShort
    else if wrong_type h TransportSpecificFeedback FORMAT_SLI then Err WrongType
    else
      let! (sender_ssrc, raw) := get_u32 raw in
      let! (media_ssrc, raw) := get_u32 raw in
      let! (es, raw) := read_slis (Z.to_nat (rtcp_length h + 1)) (RTCP_HEADER_LENGTH + SLI_OFFSET)
                          (RTCP_HEADER_LENGTH + rtcp_length h * 4) raw in
      Ok (mkSli sender_ssrc media_ssrc es, []).

End SliCodec.

(** * Full intra requests *)

Definition FIR_OFFSET : Z := 8.

Record FirEntry := mkFirEntry { fir_ssrc : Z; sequence_number : Z }.

Record FullIntraRequest := mkFir {
  fir_sender_ssrc : Z;
  fir_media_ssrc : Z;
  fir : list FirEntry
}.

#[export] Instance fir_packet : Packet FullIntraRequest :=
  let raw_size p := RTCP_HEADER_LENGTH + FIR_OFFSET + len (fir p) * 8 in
  {|
    header p := body_header (raw_size p) FORMAT_FIR PayloadSpecificFeedback;
    destination_ssrc p := fir_ssrc <$> fir p;
    raw_size := raw_size
  |}.

#[export] Instance fir_size : MarshalSize FullIntraRequest := aligned_size.

Section FirCodec.
Context {BC : BytesCrate}.

Definition fir_put (e : FirEntry) (w : wbuf) : res wbuf :=
  let! w := put_u32 (fir_ssrc e) w in
  let! w := put_u8 (sequence_number e) w in
  let! w := put_u8 0 w in
  put_u16 0 w.

#[export] Instance fir_marshal_to : Marshal FullIntraRequest := λ p buf,
  if len buf <? marshal_size p then Err BufferTooShort
  else
    let h := header p in
    let! w := put_marshal h (Wbuf [] buf) in
    let! w := put_u32 (fir_sender_ssrc p) w in
    let! w := put_u32 (fir_media_ssrc p) w in
    let! w := put_all fir_put (fir p) w in
    let! w := if rtcp_padding h then put_padding (raw_size p) w else Ok w in
    finish (marshal_size p) w.

(** The loop over the entries; the bound [h.length * 4] is computed on sixteen bits. *)
Fixpoint read_firs (fuel : nat) (i stop : Z) (raw : bytes) : res (list FirEntry * bytes) :=
  match fuel with
  | O => Panic
  | S fuel =>
      if i <? stop then
        if len raw <? 8 then Err PacketTooShort
        else
          let! (ssrc, raw) := get_u32 raw in
          let! (seq, raw) := get_u8 raw in
          let! (_, raw) := get_u8 raw in
          let! (_, raw) := get_u16 raw in
          let! (es, raw) := read_firs fuel (i + 8) stop raw in
          Ok (mkFirEntry ssrc seq :: es, raw)
      else Ok ([], raw)
  end.

Definition fir_unmarshal (raw : bytes) : res (FullIntraRequest * bytes) :=
  let raw_packet_len := len raw in
  if raw_packet_len <? FIR_MIN_OCTET_COUNT then Err PacketTooShort
  else
    let! (h, raw) := rtcp_header_unmarshal raw in
    if RTCP_HEADER_LENGTH + 4 * rtcp_length h <? FIR_MIN_OCTET_COUNT then Err InvalidHeader
    else if raw_packet_len <? RTCP_HEADER_LENGTH + 4 * rtcp_length h then Err PacketTooShort
    else if wrong_type h PayloadSpecificFeedback FORMAT_FIR then Err WrongType
    else
      let! (sender_ssrc, raw) := get_u32 raw in
      let! (media_ssrc, raw) := get_u32 raw in
      let! (es, raw) := read_firs (Z.to_nat (rtcp_length h + 1)) (RTCP_HEADER_LENGTH + FIR_OFFSET)
                          (RTCP_HEADER_LENGTH + u16 (rtcp_length h * 4)) raw in
      Ok (mkFir sender_ssrc media_ssrc es, []).

End FirCodec.

(** * Lemmas *)

(** [encodes p (frame p body)]: [unfold_it] unfolds the instance, [guards] removes the tests
    before the writes. *)
Ltac encode_frame p L unfold_it guards :=
  split; [exact L|]; let buf := fresh "buf" in let Hb := fresh "Hb" in intros buf Hb;
  change (marshal_size p) with (aligned_size p) in *;
  unfold_it; change (marshal_size p) with (aligned_size p); guards;
  rewrite (proj2 (Z.ltb_ge (len buf) _)) by lia; cbv zeta;
  rewrite <- finish_put by (rewrite L; exact Hb);
  unfold aligned_size in Hb; pose proof (padding_size_bounds (raw_size p)).

Section FeedbackLemmas.
Context {BC : BytesCrate}.

Lemma wrong_type_refl raw c t : wrong_type (body_header raw c t) t c = false.
Proof. unfold wrong_type. cbn. by rewrite bool_decide_true, Z.eqb_refl. Qed.

(** ** Indications without a body of their own *)

Definition pli_wf (p : PictureLossIndication) : Prop := fits 32 (pli_sender_ssrc p) ∧ fits 32 (pli_media_ssrc p).
Definition pli_body (p : PictureLossIndication) : bytes := put_uint 4 (pli_sender_ssrc p) ++ put_uint 4 (pli_media_ssrc p).

Lemma len_pli_body p : len (pli_body p) = raw_size p - 4.
Proof. unfold pli_body. by autorewrite with len. Qed.

Lemma pli_encodes p : encodes p (frame p (pli_body p)).
Proof.
  pose proof (len_frame p _ (len_pli_body p)) as L.
  encode_frame p L ltac:(unfold marshal_to, pli_marshal_to) idtac.
  change (raw_size p) with 12 in *. rewrite put_header by (done || (cbn [room]; lia)).
  unfold frame, pli_body. rewrite <- !app_assoc. repeat (apply put_step; intros).
  cbn [header pli_packet body_header rtcp_padding]. by rewrite put_padding_if.
Qed.

Lemma pli_read p : pli_wf p → pli_unmarshal (frame p (pli_body p)) = Ok (p, []).
Proof.
  intros [H1 H2]. unfold pli_unmarshal. rewrite (len_frame p _ (len_pli_body p)).
  change (aligned_size p) with 12. cbv zeta. change (12 <? RTCP_HEADER_LENGTH + SSRC_LENGTH * 2) with false.
  cbv iota. unfold frame. cbn [header pli_packet]. rewrite body_header_read by done. cbn [rbind].
  rewrite wrong_type_refl. unfold pli_body, get_u32. rewrite <- !app_assoc.
  do 2 (rewrite get_put_uint by done; cbn [rbind]). by destruct p.
Qed.

Lemma pli_post raw : Forall byte_ok raw → res_post (pli_unmarshal raw) (left_of 4 raw).
Proof.
  intros Hr. unfold pli_unmarshal, RTCP_HEADER_LENGTH, SSRC_LENGTH. cbv zeta. parse_step; [done|]. bool_facts.
  eapply res_post_bind; [by apply rtcp_header_post|]. intros [h r] (Hn & _ & Hr1 & L1). parse.
  simpl. split; [done|]. change (len []) with 0. lia.
Qed.

Definition rrr_wf (p : RapidResynchronizationRequest) : Prop := fits 32 (rrr_sender_ssrc p) ∧ fits 32 (rrr_media_ssrc p).
Definition rrr_body (p : RapidResynchronizationRequest) : bytes := put_uint 4 (rrr_sender_ssrc p) ++ put_uint 4 (rrr_media_ssrc p).

Lemma len_rrr_body p : len (rrr_body p) = raw_size p - 4.
Proof. unfold rrr_body. by autorewrite with len. Qed.

Lemma rrr_encodes p : encodes p (frame p (rrr_body p)).
Proof.
  pose proof (len_frame p _ (len_rrr_body p)) as L.
  encode_frame p L ltac:(unfold marshal_to, rrr_marshal_to) idtac.
  change (raw_size p) with 12 in *. rewrite put_header by (done || (cbn [room]; lia)).
  unfold frame, rrr_body. rewrite <- !app_assoc. repeat (apply put_step; intros).
  cbn [header rrr_packet body_header rtcp_padding]. by rewrite put_padding_if.
Qed.

Lemma rrr_read p : rrr_wf p → rrr_unmarshal (frame p (rrr_body p)) = Ok (p, []).
Proof.
  intros [H1 H2]. unfold rrr_unmarshal. rewrite (len_frame p _ (len_rrr_body p)).
  change (aligned_size p) with 12. cbv zeta. change (12 <? RTCP_HEADER_LENGTH + SSRC_LENGTH * 2) with false.
  cbv iota. unfold frame. cbn [header rrr_packet]. rewrite body_header_read by done. cbn [rbind].
  rewrite wrong_type_refl. unfold rrr_body, get_u32. rewrite <- !app_assoc.
  do 2 (rewrite get_put_uint by done; cbn [rbind]). by destruct p.
Qed.

Lemma rrr_post raw : Forall byte_ok raw → res_post (rrr_unmarshal raw) (left_of 4 raw).
Proof.
  intros Hr. unfold rrr_unmarshal, RTCP_HEADER_LENGTH, SSRC_LENGTH. cbv zeta. parse_step; [done|]. bool_facts.
  eapply res_post_bind; [by apply rtcp_header_post|]. intros [h r] (Hn & _ & Hr1 & L1). parse.
  simpl. split; [done|]. change (len []) with 0. lia.
Qed.

(** ** Generic NACKs *)

Definition pair_wf (n : NackPair) : Prop := fits 16 (packet_id n) ∧ fits 16 (lost_packets n).
Definition pair_bytes (n : NackPair) : bytes := put_uint 2 (packet_id n) ++ put_uint 2 (lost_packets n).

Definition nack_wf (p : TransportLayerNack) : Prop :=
  fits 32 (nack_sender_ssrc p) ∧ fits 32 (nack_media_ssrc p) ∧ Forall pair_wf (nacks p) ∧
  1 <= len (nacks p) <= 253.

Definition nack_body (p : TransportLayerNack) : bytes :=
  put_uint 4 (nack_sender_ssrc p) ++ put_uint 4 (nack_media_ssrc p) ++ concat (pair_bytes <$> nacks p).

Lemma len_pair n : len (pair_bytes n) = 4.
Proof. unfold pair_bytes. by autorewrite with len. Qed.

Lemma nack_raw_size p : raw_size p = 12 + 4 * len (nacks p).
Proof. cbn. unfold RTCP_HEADER_LENGTH, NACK_OFFSET. lia. Qed.

Lemma len_nack_body p : len (nack_body p) = raw_size p - 4.
Proof. rewrite nack_raw_size. unfold nack_body. rewrite !len_app, (len_concat_fixed _ 4) by apply len_pair. autorewrite with len. lia. Qed.

Lemma nack_encodes p : nack_wf p → encodes p (frame p (nack_body p)).
Proof.
  intros (_ & _ & _ & Hn). pose proof (len_frame p _ (len_nack_body p)) as L.
  encode_frame p L ltac:(unfold marshal_to, nack_marshal_to, TLN_LENGTH)
    ltac:(rewrite (proj2 (Z.ltb_ge 255 _)) by lia).
  pose proof (nack_raw_size p). rewrite put_header by (done || (cbn [room]; lia)).
  unfold frame, nack_body. rewrite <- !app_assoc. do 3 (apply put_step; intros).
  rewrite (put_all_put pair_bytes) by (intros; apply put_app). apply put_step. intros.
  cbn [header nack_packet body_header rtcp_padding]. by rewrite put_padding_if.
Qed.

Lemma pair_read n r : pair_wf n → nack_pair_read (pair_bytes n ++ r) = Ok (n, r).
Proof.
  intros [H1 H2]. unfold nack_pair_read, pair_bytes, get_u16. rewrite <- app_assoc.
  do 2 (rewrite get_put_uint by done; cbn [rbind]). by destruct n.
Qed.

(** A packet that is a whole number of words, with its length field. *)
Lemma words_header `{Packet T} (p : T) k :
  raw_size p = 4 * k → 1 <= k <= 65536 →
  aligned_size p = 4 * k ∧ u16 ((raw_size p + get_padding_size (raw_size p)) / 4 - 1) = k - 1 ∧
  padding_bytes (raw_size p) = [].
Proof.
  intros E Hk. assert (raw_size p mod 4 = 0) as M by (rewrite E, Z.mul_comm; by apply Z.mod_mul).
  pose proof (proj1 (unpadded_size _) M) as P. unfold aligned_size. rewrite P, Z.add_0_r, E.
  split_and!; [done| |rewrite <- E; by apply unpadded].
  rewrite Z.mul_comm, Z.div_mul, wrap_small by (unfold fits; lia). done.
Qed.

Lemma nack_read p : nack_wf p → nack_unmarshal (frame p (nack_body p)) = Ok (p, []).
Proof.
  intros (H1 & H2 & Hw & Hn). pose proof (len_frame p _ (len_nack_body p)) as L.
  destruct (words_header p (3 + len (nacks p))) as (E & LW & P); [rewrite nack_raw_size; lia|lia|].
  unfold nack_unmarshal, RTCP_HEADER_LENGTH, NACK_MIN_OCTET_COUNT. cbv zeta. rewrite L, E.
  rewrite (proj2 (Z.ltb_ge _ (4 + 12))) by lia. unfold frame. rewrite P, app_nil_r. cbn [header nack_packet].
  rewrite body_header_read by done. cbn [rbind]. rewrite wrong_type_refl.
  cbn [body_header rtcp_length]. change (RTCP_HEADER_LENGTH + NACK_OFFSET + len (nacks p) * 4) with (raw_size p). rewrite LW.
  rewrite (proj2 (Z.ltb_ge _ _)) by lia. unfold nack_body, get_u32.
  do 2 (rewrite get_put_uint by done; cbn [rbind]).
  replace (Z.to_nat (3 + len (nacks p) - 1 - NACK_OFFSET / 4)) with (length (nacks p))
    by (change (NACK_OFFSET / 4) with 2; unfold len; lia).
  rewrite <- (app_nil_r (concat _)). rewrite read_n_app; [by destruct p|].
  intros x r Hx. apply pair_read. rewrite Forall_forall in Hw. by apply Hw.
Qed.

Lemma pair_post raw :
  Forall byte_ok raw → 4 <= len raw →
  res_post (nack_pair_read raw) (λ '(_, r), Forall byte_ok r ∧ len r = len raw - 4).
Proof. intros Hr Hl. unfold nack_pair_read. parse. simpl. split; [done|lia]. Qed.

Lemma nack_post raw : Forall byte_ok raw → res_post (nack_unmarshal raw) (left_of 4 raw).
Proof.
  intros Hr. unfold nack_unmarshal, RTCP_HEADER_LENGTH, NACK_MIN_OCTET_COUNT. cbv zeta. parse_step; [done|]. bool_facts.
  eapply res_post_bind; [by apply rtcp_header_post|]. intros [h r] (Hn & Hl & Hr1 & L1). parse.
  eapply res_post_bind; [apply (read_n_post _ 4); [lia|apply pair_post|done|]|].
  { change (NACK_OFFSET / 4) with 2. unfold fits in Hl. lia. }
  intros [ps r2] _. simpl. split; [done|]. change (len []) with 0. lia.
Qed.

End FeedbackLemmas.

Section EntryLemmas.
Context {BC : BytesCrate}.

(** ** Slice loss indications *)

Definition sli_entry_wf (s : SliEntry) : Prop :=
  fits 13 (sli_first s) ∧ fits 13 (sli_number s) ∧ fits 6 (sli_picture s).

Definition sli_wf (p : SliceLossIndication) : Prop :=
  fits 32 (sli_sender_ssrc p) ∧ fits 32 (sli_media_ssrc p) ∧ Forall sli_entry_wf (sli_entries p) ∧
  len (sli_entries p) <= 65533.

Definition sli_body (p : SliceLossIndication) : bytes :=
  put_uint 4 (sli_sender_ssrc p) ++ put_uint 4 (sli_media_ssrc p) ++
  concat ((λ s, put_uint 4 (sli_word s)) <$> sli_entries p).

Lemma sli_raw_size p : raw_size p = 12 + 4 * len (sli_entries p).
Proof. cbn. unfold RTCP_HEADER_LENGTH, SLI_OFFSET. lia. Qed.

Lemma len_sli_body p : len (sli_body p) = raw_size p - 4.
Proof.
  rewrite sli_raw_size. unfold sli_body. rewrite !len_app, (len_concat_fixed _ 4) by (intros; apply len_put_uint).
  autorewrite with len. lia.
Qed.

Lemma sli_encodes p : encodes p (frame p (sli_body p)).
Proof.
  pose proof (len_frame p _ (len_sli_body p)) as L.
  encode_frame p L ltac:(unfold marshal_to, sli_marshal_to, SLI_LENGTH)
    ltac:(rewrite (proj2 (Z.ltb_ge 255 _)) by (pose proof (wrap_fits 8 (len (sli_entries p) + 2)); unfold fits in *; lia)).
  pose proof (sli_raw_size p). pose proof (len_nonneg (sli_entries p)).
  rewrite put_header by (done || (cbn [room]; lia)).
  unfold frame, sli_body. rewrite <- !app_assoc. do 3 (apply put_step; intros).
  rewrite (put_all_put (λ s, put_uint 4 (sli_word s))) by done. apply put_step. intros.
  cbn [header sli_packet body_header rtcp_padding]. by rewrite put_padding_if.
Qed.

Lemma sli_word_fields s :
  sli_entry_wf s →
  fits 32 (sli_word s) ∧
  mkSliEntry (Z.land (Z.shiftr (sli_word s) 19) 0x1FFF) (Z.land (Z.shiftr (sli_word s) 6) 0x1FFF)
             (u8 (Z.land (sli_word s) 0x3F)) = s.
Proof.
  destruct s as [a b c]. intros (Ha & Hb & Hc). cbn in Ha, Hb, Hc. unfold sli_word. cbn [sli_first sli_number sli_picture].
  change 0x1FFF with (Z.ones 13). change 0x3F with (Z.ones 6).
  rewrite !Z.land_ones by lia. rewrite !(Z.mod_small _ (2 ^ _)) by done.
  unfold fits in *. change (2 ^ 13) with 8192 in *. change (2 ^ 6) with 64 in *.
  rewrite (wrap_small 32 (Z.shiftl a 19)), (wrap_small 32 (Z.shiftl b 6)) by
    (unfold fits; rewrite Z.shiftl_mul_pow2 by lia; change (2 ^ 32) with 4294967296; change (2 ^ 19) with 524288; change (2 ^ 6) with 64; lia).
  rewrite <- Z.lor_assoc, (lor_shiftl_add b) by (unfold fits; change (2 ^ 6) with 64; lia).
  change (2 ^ 6) with 64.
  rewrite lor_shiftl_add by (unfold fits; change (2 ^ 19) with 524288; lia).
  change (2 ^ 19) with 524288. change (2 ^ 32) with 4294967296. rewrite !Z.shiftr_div_pow2 by lia.
  change (2 ^ 19) with 524288. change (2 ^ 6) with 64.
  split; [lia|]. f_equal; [| |rewrite wrap_small; unfold fits; change (2 ^ 8) with 256]; Z.div_mod_to_equations; lia.
Qed.

Lemma read_slis_app es i stop fuel r :
  Forall sli_entry_wf es → stop = i + 4 * len es → len es < Z.of_nat fuel →
  read_slis fuel i stop (concat ((λ s, put_uint 4 (sli_word s)) <$> es) ++ r) = Ok (es, r).
Proof.
  intros Hw. revert i fuel. induction Hw as [|s es Hs Hes IH]; intros i [|fuel] E Hf;
    try (pose proof (len_nonneg es)); rewrite ?len_cons in *; try (unfold len in Hf; simpl in Hf; lia).
  - simpl. rewrite (proj2 (Z.ltb_ge _ _)); [done|]. rewrite E. unfold len. simpl. lia.
  - csimpl. rewrite (proj2 (Z.ltb_lt _ _)) by lia. destruct (sli_word_fields s Hs) as [Hfit Hd].
    unfold get_u32. rewrite <- app_assoc, get_put_uint by done. cbn [rbind]. cbv zeta.
    rewrite IH by lia. cbn [rbind]. by rewrite Hd.
Qed.

Lemma sli_read p : sli_wf p → sli_unmarshal (frame p (sli_body p)) = Ok (p, []).
Proof.
  intros (H1 & H2 & Hw & Hn). pose proof (len_frame p _ (len_sli_body p)) as L. pose proof (len_nonneg (sli_entries p)).
  destruct (words_header p (3 + len (sli_entries p))) as (E & LW & P); [rewrite sli_raw_size; lia|lia|].
  unfold sli_unmarshal, RTCP_HEADER_LENGTH, SLI_OFFSET. cbv zeta. rewrite L, E.
  rewrite (proj2 (Z.ltb_ge _ (4 + 8))) by lia. unfold frame. rewrite P, app_nil_r. cbn [header sli_packet].
  rewrite body_header_read by done. cbn [rbind]. rewrite wrong_type_refl.
  cbn [body_header rtcp_length]. change (RTCP_HEADER_LENGTH + SLI_OFFSET + len (sli_entries p) * 4) with (raw_size p). rewrite LW.
  rewrite (proj2 (Z.ltb_ge _ _)) by lia. unfold sli_body, get_u32.
  do 2 (rewrite get_put_uint by done; cbn [rbind]).
  rewrite <- (app_nil_r (concat _)). rewrite read_slis_app by (done || lia). by destruct p.
Qed.

Lemma read_slis_post fuel i stop raw :
  Forall byte_ok raw → stop - i <= len raw → stop - i < 4 * Z.of_nat fuel →
  (stop - i) mod 4 = 0 → (0 < fuel)%nat →
  res_post (read_slis fuel i stop raw) (λ _, True).
Proof.
  revert i raw. induction fuel as [|fuel IH]; intros i raw Hr Hl Hf Hm H0; [lia|]. cbn [read_slis].
  destruct (Z.ltb_spec i stop); [|done].
  assert (4 <= stop - i) by (Z.div_mod_to_equations; lia). parse.
  eapply res_post_bind; [apply IH; [done|lia..| |]|by intros [??] _].
  - Z.div_mod_to_equations; lia.
  - destruct fuel; lia.
Qed.

Lemma sli_post raw : Forall byte_ok raw → res_post (sli_unmarshal raw) (left_of 4 raw).
Proof.
  intros Hr. unfold sli_unmarshal, RTCP_HEADER_LENGTH, SLI_OFFSET. cbv zeta. parse_step; [done|]. bool_facts.
  eapply res_post_bind; [by apply rtcp_header_post|]. intros [h r] (Hn & Hl & Hr1 & L1). parse.
  eapply res_post_bind; [apply read_slis_post; unfold fits in Hl; [done|lia|lia| |lia]|].
  { Z.div_mod_to_equations; lia. }
  intros [ps r2] _. simpl. split; [done|]. change (len []) with 0. lia.
Qed.

(** ** Full intra requests *)

Definition fir_entry_wf (e : FirEntry) : Prop := fits 32 (fir_ssrc e) ∧ byte_ok (sequence_number e).

Definition fir_bytes (e : FirEntry) : bytes :=
  put_uint 4 (fir_ssrc e) ++ put_uint 1 (sequence_number e) ++ put_uint 1 0 ++ put_uint 2 0.

(** With more than 8190 entries the bound of the loop wraps around. *)
Definition fir_wf (p : FullIntraRequest) : Prop :=
  fits 32 (fir_sender_ssrc p) ∧ fits 32 (fir_media_ssrc p) ∧ Forall fir_entry_wf (fir p) ∧
  1 <= len (fir p) <= 8190.

Definition fir_body (p : FullIntraRequest) : bytes :=
  put_uint 4 (fir_sender_ssrc p) ++ put_uint 4 (fir_media_ssrc p) ++ concat (fir_bytes <$> fir p).

Lemma len_fir_entry e : len (fir_bytes e) = 8.
Proof. unfold fir_bytes. by autorewrite with len. Qed.

Lemma fir_raw_size p : raw_size p = 12 + 8 * len (fir p).
Proof. cbn. unfold RTCP_HEADER_LENGTH, FIR_OFFSET. lia. Qed.

Lemma len_fir_body p : len (fir_body p) = raw_size p - 4.
Proof. rewrite fir_raw_size. unfold fir_body. rewrite !len_app, (len_concat_fixed _ 8) by apply len_fir_entry. autorewrite with len. lia. Qed.

Lemma fir_encodes p : encodes p (frame p (fir_body p)).
Proof.
  pose proof (len_frame p _ (len_fir_body p)) as L.
  encode_frame p L ltac:(unfold marshal_to, fir_marshal_to) idtac.
  pose proof (fir_raw_size p). pose proof (len_nonneg (fir p)). rewrite put_header by (done || (cbn [room]; lia)).
  unfold frame, fir_body. rewrite <- !app_assoc. do 3 (apply put_step; intros).
  rewrite (put_all_put fir_bytes).
  2:{ intros. unfold fir_put, fir_bytes. do 2 (apply put_then; intros). apply put_app. }
  apply put_step. intros. cbn [header fir_packet body_header rtcp_padding]. by rewrite put_padding_if.
Qed.

Lemma read_firs_app es i stop fuel r :
  Forall fir_entry_wf es → stop = i + 8 * len es → len es < Z.of_nat fuel →
  read_firs fuel i stop (concat (fir_bytes <$> es) ++ r) = Ok (es, r).
Proof.
  intros Hw. revert i fuel. induction Hw as [|s es [H1 H2] Hes IH]; intros i [|fuel] E Hf;
    try (pose proof (len_nonneg es)); rewrite ?len_cons in *; try (unfold len in Hf; simpl in Hf; lia).
  - simpl. rewrite (proj2 (Z.ltb_ge _ _)); [done|]. rewrite E. unfold len. simpl. lia.
  - csimpl. rewrite (proj2 (Z.ltb_lt _ _)) by lia. rewrite <- app_assoc.
    rewrite (proj2 (Z.ltb_ge _ 8)) by (rewrite len_app, len_fir_entry; len_pos; lia).
    unfold fir_bytes, get_u32, get_u8, get_u16. rewrite <- !app_assoc.
    do 4 (rewrite get_put_uint by done; cbn [rbind]). fold fir_bytes. rewrite IH by lia. cbn [rbind]. by destruct s.
Qed.

Lemma fir_read p : fir_wf p → fir_unmarshal (frame p (fir_body p)) = Ok (p, []).
Proof.
  intros (H1 & H2 & Hw & Hn). pose proof (len_frame p _ (len_fir_body p)) as L.
  destruct (words_header p (3 + 2 * len (fir p))) as (E & LW & P); [rewrite fir_raw_size; lia|lia|].
  unfold fir_unmarshal, RTCP_HEADER_LENGTH, FIR_OFFSET, FIR_MIN_OCTET_COUNT. cbv zeta. rewrite L, E.
  rewrite (proj2 (Z.ltb_ge _ 20)) by lia. unfold frame. rewrite P, app_nil_r. cbn [header fir_packet].
  rewrite body_header_read by done. cbn [rbind]. rewrite wrong_type_refl.
  cbn [body_header rtcp_length]. change (RTCP_HEADER_LENGTH + FIR_OFFSET + len (fir p) * 8) with (raw_size p). rewrite LW.
  rewrite (proj2 (Z.ltb_ge _ 20)) by lia. rewrite (proj2 (Z.ltb_ge _ _)) by lia.
  rewrite (wrap_small 16 (_ * 4)) by (unfold fits; lia). unfold fir_body, get_u32.
  do 2 (rewrite get_put_uint by done; cbn [rbind]).
  rewrite <- (app_nil_r (concat _)). rewrite read_firs_app by (done || lia). by destruct p.
Qed.

Lemma read_firs_post fuel i stop raw :
  Forall byte_ok raw → stop - i <= 8 * (Z.of_nat fuel - 1) → (0 < fuel)%nat →
  res_post (read_firs fuel i stop raw) (λ _, True).
Proof.
  revert i raw. induction fuel as [|fuel IH]; intros i raw Hr Hf H0; [lia|]. cbn [read_firs].
  destruct (Z.ltb_spec i stop); [|done]. parse.
  eapply res_post_bind; [apply IH; [done|lia|destruct fuel; lia]|by intros [??] _].
Qed.

Lemma fir_post raw : Forall byte_ok raw → res_post (fir_unmarshal raw) (left_of 4 raw).
Proof.
  intros Hr. unfold fir_unmarshal, RTCP_HEADER_LENGTH, FIR_OFFSET, FIR_MIN_OCTET_COUNT. cbv zeta. parse_step; [done|]. bool_facts.
  eapply res_post_bind; [by apply rtcp_header_post|]. intros [h r] (Hn & Hl & Hr1 & L1). parse.
  eapply res_post_bind; [apply read_firs_post; [done| |unfold fits in Hl; lia]|].
  { unfold fits in Hl. unfold wrap. pose proof (Z.mod_le (rtcp_length h * 4) (2 ^ 16)). lia. }
  intros [ps r2] _. simpl. split; [done|]. change (len []) with 0. lia.
Qed.

End EntryLemmas.

(** * NACK pairs name exactly the sequence numbers they were made from *)

(** The numbers of the bits that are set. *)
Definition set_bits (b : Z) : list Z := filter (λ i, Is_true (Z.testbit b i)) (seqZ 0 16).

Lemma seqZ_split_at k j n : k <= j < k + n → seqZ k n = seqZ k (j - k) ++ j :: seqZ (j + 1) (k + n - j - 1).
Proof.
  intros Hj. replace (j :: seqZ (j + 1) (k + n - j - 1)) with (seqZ j (k + n - j))
    by (rewrite seqZ_cons by lia; f_equal; f_equal; lia).
  replace n with ((j - k) + (k + n - j)) at 1 by lia. rewrite seqZ_app by lia. by replace (k + (j - k)) with j by lia.
Qed.

Lemma filter_none {A} (P : A → Prop) `{∀ x, Decision (P x)} (l : list A) : (∀ x, x ∈ l → ¬ P x) → filter P l = [].
Proof. intros Hl. induction l as [|x l IH]; [done|]. rewrite filter_cons_False by (apply Hl; left). apply IH. set_solver. Qed.

Lemma nack_filter_ext {A} (P Q : A → Prop) `{∀ x, Decision (P x)} `{∀ x, Decision (Q x)} (l : list A) :
  (∀ x, x ∈ l → P x ↔ Q x) → filter P l = filter Q l.
Proof.
  intros Hl. induction l as [|x l IH]; [done|]. rewrite !filter_cons, IH by set_solver.
  destruct (decide (P x)), (decide (Q x)); try done; exfalso; specialize (Hl x); set_solver.
Qed.

(** The bits from [k] on start with the lowest one that is set. *)
Lemma filter_bits_step b j k :
  0 <= k <= j → j < 16 → Z.testbit b j = true → (∀ i, k <= i < j → Z.testbit b i = false) →
  filter (λ i, Is_true (Z.testbit b i)) (seqZ k (16 - k)) = j :: filter (λ i, Is_true (Z.testbit b i)) (seqZ (j + 1) (16 - (j + 1))).
Proof.
  intros Hk Hj Hb Hlow. rewrite (seqZ_split_at k j) by lia. rewrite filter_app.
  rewrite filter_none.
  2:{ intros i Hi%elem_of_seqZ. rewrite Hlow by lia. by intros []. }
  cbn [app]. rewrite filter_cons_True by (by rewrite Hb). by replace (k + (16 - k) - j - 1) with (16 - (j + 1)) by lia.
Qed.

Lemma fits_zero b : fits 16 b → (∀ i, 0 <= i < 16 → Z.testbit b i = false) → b = 0.
Proof.
  intros Hb Hz. apply Z.bits_inj'. intros i Hi. rewrite Z.testbit_0_l.
  destruct (Z.lt_ge_cases i 16); [by apply Hz|]. by apply (testbit_fits 16).
Qed.

Lemma next_bit_spec fuel id b y i :
  fits 16 b → 0 <= i → i + Z.of_nat fuel = 16 → (∀ k, 0 <= k < i → Z.testbit b k = false) →
  (b = 0 ∧ next_bit fuel (mkNackIterator id b y) i = (None, mkNackIterator id b y)) ∨
  ∃ j, i <= j < 16 ∧ Z.testbit b j = true ∧ (∀ k, 0 <= k < j → Z.testbit b k = false) ∧
    next_bit fuel (mkNackIterator id b y) i =
      (Some (u16 (id + (j + 1))), mkNackIterator id (Z.land b (u16 (Z.lnot (Z.shiftl 1 j)))) y).
Proof.
  intros Hb. revert i. induction fuel as [|fuel IH]; intros i Hi Hf Hlow; cbn [next_bit it_bitfield it_packet_id has_yielded_packet_id].
  - left. split; [|done]. apply fits_zero; [done|]. intros k Hk. apply Hlow. lia.
  - destruct (Z.eqb_spec b 0) as [->|Hne]; [by left|]. rewrite land_single by lia. rewrite negb_involutive.
    destruct (Z.testbit b i) eqn:Ei.
    + right. exists i. split_and!; try done; lia.
    + destruct (IH (i + 1)) as [|(j & Hj & R)]; [lia|lia| |by left|].
      * intros k Hk. destruct (Z.eq_dec k i) as [->|]; [done|]. apply Hlow. lia.
      * right. exists j. split; [lia|done].
Qed.

Lemma clear_bit b j k :
  fits 16 b → 0 <= j < 16 → 0 <= k →
  Z.testbit (Z.land b (u16 (Z.lnot (Z.shiftl 1 j)))) k = Z.testbit b k && negb (k =? j).
Proof.
  intros Hb Hj Hk. rewrite Z.land_spec. unfold wrap.
  destruct (Z.lt_ge_cases k 16).
  - rewrite Z.mod_pow2_bits_low, Z.lnot_spec, Z.shiftl_1_l by lia. f_equal. f_equal.
    rewrite Z.pow2_bits_eqb by lia. apply Z.eqb_sym.
  - rewrite (testbit_fits 16 b) by (done || lia). done.
Qed.

Lemma collect_bits fuel id b k :
  fits 16 b → 0 <= k <= 16 → 16 - k < Z.of_nat fuel → (∀ i, 0 <= i < k → Z.testbit b i = false) →
  collect fuel (mkNackIterator id b true) =
  (λ i, u16 (id + (i + 1))) <$> filter (λ i, Is_true (Z.testbit b i)) (seqZ k (16 - k)).
Proof.
  revert b k. induction fuel as [|fuel IH]; intros b k Hb Hk Hf Hlow; [lia|].
  cbn [collect nack_next has_yielded_packet_id negb].
  destruct (next_bit_spec 16 id b true 0) as [[-> ->]|(j & Hj & Ej & Hl & ->)]; [done|lia|lia|intros; lia| |].
  - rewrite filter_none; [done|]. intros i _. rewrite Z.testbit_0_l. by intros [].
  - assert (k <= j) by (destruct (Z.lt_ge_cases j k); [rewrite Hlow in Ej by lia; done|lia]).
    rewrite (filter_bits_step b j k) by (done || lia || (intros; apply Hl; lia)). cbn [fmap list_fmap]. f_equal.
    rewrite (IH _ (j + 1)); [|by apply fits_land; [lia|done|apply wrap_fits]|lia|lia|].
    + f_equal. apply nack_filter_ext. intros i Hi%elem_of_seqZ. rewrite clear_bit by (done || lia).
      destruct (Z.eqb_spec i j); [lia|]. by rewrite andb_true_r.
    + intros i Hi. rewrite clear_bit by (done || lia). destruct (Z.eqb_spec i j); [apply andb_false_r|].
      by rewrite Hl by lia.
Qed.

Lemma collect_S fuel it :
  collect (S fuel) it = match nack_next it with (Some x, it) => x :: collect fuel it | (None, _) => [] end.
Proof. done. Qed.

(** What [packet_list] returns: the packet and, for every set bit, the packet it stands for. *)
Lemma packet_list_spec p :
  fits 16 (lost_packets p) →
  packet_list p = packet_id p :: ((λ i, u16 (packet_id p + (i + 1))) <$> set_bits (lost_packets p)).
Proof.
  intros Hb. unfold packet_list, nack_into_iter. change 18%nat with (S 17).
  rewrite collect_S. cbn [nack_next has_yielded_packet_id negb it_packet_id it_bitfield]. f_equal.
  rewrite (collect_bits 17 _ _ 0) by (done || lia || (intros; lia)). done.
Qed.

Lemma elem_of_set_bits b i : i ∈ set_bits b ↔ 0 <= i < 16 ∧ Z.testbit b i = true.
Proof. unfold set_bits. rewrite list_elem_of_filter, elem_of_seqZ, Is_true_true. intuition lia. Qed.

#[global] Arguments packet_list : simpl never.

(** A pair none of whose numbers wraps around. *)
Definition pair_ok (p : NackPair) : Prop :=
  fits 16 (packet_id p) ∧ fits 16 (lost_packets p) ∧
  ∀ i, i ∈ set_bits (lost_packets p) → packet_id p + (i + 1) < 65536.

Lemma elem_of_pair p s :
  pair_ok p → s ∈ packet_list p ↔ s = packet_id p ∨ ∃ i, i ∈ set_bits (lost_packets p) ∧ s = packet_id p + (i + 1).
Proof.
  intros (Hid & Hl & Hw). rewrite packet_list_spec by done. rewrite elem_of_cons, list_elem_of_fmap.
  apply or_iff_compat_l. apply exist_proper. intros i. split; intros [H1 H2].
  - split; [done|]. rewrite wrap_small in H1; [done|]. apply Hw in H2 as ?. apply elem_of_set_bits in H2. unfold fits in *. lia.
  - split; [|done]. rewrite wrap_small; [done|]. apply Hw in H1 as ?. apply elem_of_set_bits in H1. unfold fits in *. lia.
Qed.

Lemma pair_new_ok seq : fits 16 seq → pair_ok (nack_pair_new seq).
Proof.
  intros Hs. split_and!; [done|done|]. intros i [_ Hi]%elem_of_set_bits. cbn in Hi. by rewrite Z.testbit_0_l in Hi.
Qed.

Lemma elem_of_new seq s : fits 16 seq → s ∈ packet_list (nack_pair_new seq) ↔ s = seq.
Proof.
  intros Hs. rewrite elem_of_pair by (by apply pair_new_ok). cbn [packet_id nack_pair_new lost_packets].
  split; [|by left]. intros [?|(i & [_ Hi]%elem_of_set_bits & _)]; [done|]. by rewrite Z.testbit_0_l in Hi.
Qed.

Lemma set_bits_lor b j i : 0 <= j < 16 → i ∈ set_bits (Z.lor b (Z.shiftl 1 j)) ↔ i ∈ set_bits b ∨ i = j.
Proof.
  intros Hj. rewrite !elem_of_set_bits. rewrite Z.lor_spec, Z.shiftl_1_l, orb_true_iff.
  split.
  - intros [Hi [H|H]]; [by left|right]. rewrite Z.pow2_bits_eqb in H by lia. apply Z.eqb_eq in H. lia.
  - intros [[? ?]| ->]; [by split; [|left]|]. split; [done|]. right. rewrite Z.pow2_bits_true; [done|lia].
Qed.

Lemma pair_add_ok p seq :
  pair_ok p → packet_id p < seq <= Z.min 65535 (packet_id p + 16) →
  pair_ok (mkNackPair (packet_id p) (Z.lor (lost_packets p) (Z.shiftl 1 (seq - packet_id p - 1)))).
Proof.
  intros (Hid & Hl & Hw) Hs. split_and!; cbn [packet_id lost_packets]; [done| |].
  - apply fits_lor; [lia|done|]. rewrite Z.shiftl_1_l. unfold fits. split; [lia|]. apply Z.pow_lt_mono_r; lia.
  - intros i. rewrite set_bits_lor by lia. intros [?| ->]; [by apply Hw|lia].
Qed.

Lemma nack_pairs_loop_spec np seqs s :
  pair_ok np → Forall (fits 16) seqs →
  s ∈ concat (packet_list <$> nack_pairs_loop np seqs) ↔ s ∈ packet_list np ∨ s ∈ seqs.
Proof.
  intros Hp Hs. revert np Hp. induction Hs as [|seq seqs Hseq Hs IH]; intros np Hp; cbn [nack_pairs_loop].
  - csimpl. rewrite app_nil_r. set_solver.
  - destruct (Z.eqb_spec seq (packet_id np)) as [E|E]; [|destruct (_ || _) eqn:Ec].
    + rewrite IH by done. rewrite elem_of_cons.
      assert (seq ∈ packet_list np) by (rewrite elem_of_pair by done; by left). set_solver.
    + rewrite fmap_cons. cbn [concat]. rewrite elem_of_app, IH by (by apply pair_new_ok).
      rewrite elem_of_new, elem_of_cons by done. done.
    + apply orb_false_iff in Ec as [E1%Z.leb_gt E2%Z.ltb_ge].
      assert (packet_id np < seq <= Z.min 65535 (packet_id np + 16)) as Hr by lia.
      rewrite IH by (by apply pair_add_ok). rewrite elem_of_cons, !elem_of_pair by (done || by apply pair_add_ok).
      cbn [packet_id lost_packets]. setoid_rewrite set_bits_lor; [|lia].
      split; [intros [[?|(i & [?| ->] & ?)]|?]|intros [[?|(i & ? & ?)]|[?|?]]]; eauto 6.
      * right; left. lia.
      * left; right. exists (seq - packet_id np - 1). split; [by right|lia].
Qed.

(** ** In order *)

Lemma set_bits_snoc b d :
  0 <= d < 16 → (∀ i, i ∈ set_bits b → i < d) → set_bits (Z.lor b (Z.shiftl 1 d)) = set_bits b ++ [d].
Proof.
  intros Hd Hlow. unfold set_bits. rewrite (seqZ_split_at 0 d) by lia. rewrite !filter_app.
  assert (∀ i, d <= i < 16 → Z.testbit b i = false) as Hhigh.
  { intros i Hi. destruct (Z.testbit b i) eqn:E; [|done].
    assert (i ∈ set_bits b) as ?%Hlow by (apply elem_of_set_bits; split; [lia|done]). lia. }
  assert (∀ i, 0 <= i → Z.testbit (Z.lor b (Z.shiftl 1 d)) i = Z.testbit b i || (d =? i)) as Hbit
    by (intros i Hi; rewrite Z.lor_spec, Z.shiftl_1_l, Z.pow2_bits_eqb by lia; done).
  rewrite filter_cons_True by (rewrite Hbit, Z.eqb_refl, orb_true_r by lia; done).
  rewrite (filter_cons_False (λ i, Is_true (Z.testbit b i))) by (rewrite Hhigh by lia; by intros []).
  rewrite !(filter_none _ (seqZ (d + 1) _)), app_nil_r.
  - f_equal. apply nack_filter_ext. intros i Hi%elem_of_seqZ. rewrite Hbit by lia.
    destruct (Z.eqb_spec d i); [lia|]. by rewrite orb_false_r.
  - intros i Hi%elem_of_seqZ. rewrite Hhigh by lia. by intros [].
  - intros i Hi%elem_of_seqZ. rewrite Hbit, Hhigh by lia. destruct (Z.eqb_spec d i); [lia|]. by intros [].
Qed.

Lemma packet_list_snoc p seq :
  pair_ok p → packet_id p < seq <= Z.min 65535 (packet_id p + 16) → (∀ y, y ∈ packet_list p → y < seq) →
  packet_list (mkNackPair (packet_id p) (Z.lor (lost_packets p) (Z.shiftl 1 (seq - packet_id p - 1)))) =
  packet_list p ++ [seq].
Proof.
  intros Hp Hs Hlt. pose proof (pair_add_ok p seq Hp Hs) as (_ & Hl' & _). cbn [lost_packets] in Hl'.
  destruct Hp as (Hid & Hl & Hw). rewrite !packet_list_spec by done. cbn [packet_id lost_packets].
  rewrite set_bits_snoc; [|lia|].
  - rewrite fmap_app. cbn [fmap list_fmap app]. f_equal. f_equal. f_equal. rewrite wrap_small by (unfold fits in *; lia). lia.
  - intros i Hi. assert (packet_id p + (i + 1) ∈ packet_list p) as ?%Hlt; [|lia].
    apply elem_of_pair; [done|]. right. by exists i.
Qed.

Lemma nack_pairs_loop_in_order np l1 l2 :
  pair_ok np → Forall (fits 16) (l1 ++ l2) → StronglySorted Z.lt l1 → StronglySorted Z.lt l2 →
  (∀ x y, x ∈ l1 → y ∈ packet_list np → y < x) → (∀ x y, x ∈ packet_id np :: l1 → y ∈ l2 → y < x) →
  concat (packet_list <$> nack_pairs_loop np (l1 ++ l2)) = packet_list np ++ l1 ++ l2.
Proof.
  remember (length l1 + length l2)%nat as n eqn:En. assert (length l1 + length l2 <= n)%nat as Hn by lia.
  clear En. revert np l1 l2 Hn. induction n as [|n IH]; intros np l1 l2 Hn Hp Hf H1 H2 Hb1 Hb2.
  { destruct l1, l2; simpl in Hn; try lia. csimpl. by rewrite !app_nil_r. }
  assert (∀ y, fits 16 y → packet_list (nack_pair_new y) = [y]) as Hnew
    by (intros y Hy; rewrite packet_list_spec by done; done).
  destruct l1 as [|x l1].
  - destruct l2 as [|y l2]; cbn [app nack_pairs_loop]; [csimpl; by rewrite !app_nil_r|].
    assert (y < packet_id np) by (apply Hb2; set_solver).
    rewrite (proj2 (Z.eqb_neq _ _)), (proj2 (Z.leb_le _ _)) by lia. cbn [orb].
    rewrite fmap_cons. cbn [concat]. f_equal. apply Forall_cons in Hf as [Hy Hf].
    apply StronglySorted_inv in H2 as [H2 Hy2]. rewrite Forall_forall in Hy2.
    rewrite <- (app_nil_r l2) at 1.
    rewrite IH with (l1 := l2) (l2 := []); try done.
    + rewrite Hnew, app_nil_r by done. done.
    + simpl in *. lia.
    + by apply pair_new_ok.
    + by rewrite app_nil_r.
    + intros x z Hx. rewrite elem_of_new by done. intros ->. by apply Hy2.
    + intros x z _ Hz. by apply elem_of_nil in Hz.
  - cbn [app nack_pairs_loop].
    assert (packet_id np < x) by (apply Hb1; [left|apply elem_of_pair; [done|by left]]).
    rewrite (proj2 (Z.eqb_neq _ _)) by lia. apply Forall_cons in Hf as [Hx Hf].
    apply StronglySorted_inv in H1 as [H1 Hx1]. rewrite Forall_forall in Hx1.
    destruct (_ || _) eqn:Ec.
    + rewrite fmap_cons. cbn [concat]. f_equal. rewrite IH with (l1 := l1) (l2 := l2); try done.
      * simpl in *. lia.
      * by apply pair_new_ok.
      * intros a b Ha. rewrite elem_of_new by done. intros ->. by apply Hx1.
      * intros a b Ha Hb. apply Hb2; [|done]. cbn [packet_id nack_pair_new] in Ha. set_solver.
    + apply orb_false_iff in Ec as [E1%Z.leb_gt E2%Z.ltb_ge].
      rewrite IH with (l1 := l1) (l2 := l2); try done.
      * rewrite packet_list_snoc by (done || lia || (intros; apply Hb1; set_solver)). by rewrite <- app_assoc.
      * simpl in *. lia.
      * apply pair_add_ok; [done|lia].
      * intros a b Ha. rewrite packet_list_snoc by (done || lia || (intros; apply Hb1; set_solver)).
        rewrite elem_of_app, list_elem_of_singleton. intros [?| ->]; [apply Hb1; set_solver|by apply Hx1].
      * intros a b Ha Hb. apply Hb2; [|done]. cbn [packet_id] in Ha. set_solver.
Qed.

(** Ascending numbers, or ascending numbers that wrap around once, come back in their order. *)
Lemma nack_pairs_in_order l1 l2 :
  Forall (fits 16) (l1 ++ l2) → StronglySorted Z.lt l1 → StronglySorted Z.lt l2 →
  (∀ x y, x ∈ l1 → y ∈ l2 → y < x) →
  concat (packet_list <$> nack_pairs_from_sequence_numbers (l1 ++ l2)) = l1 ++ l2.
Proof.
  assert (∀ x l1 l2, Forall (fits 16) (x :: l1 ++ l2) → StronglySorted Z.lt (x :: l1) → StronglySorted Z.lt l2 →
    (∀ a y, a ∈ x :: l1 → y ∈ l2 → y < a) →
    concat (packet_list <$> nack_pairs_from_sequence_numbers (x :: l1 ++ l2)) = x :: l1 ++ l2) as Hmain.
  { intros x k1 k2 [Hx Hf]%Forall_cons [H1 Hx1]%StronglySorted_inv H2 Hb. rewrite Forall_forall in Hx1.
    cbn [nack_pairs_from_sequence_numbers]. rewrite nack_pairs_loop_in_order; try done.
    - by apply pair_new_ok.
    - intros a b Ha. rewrite elem_of_new by done. intros ->. by apply Hx1. }
  intros Hf H1 H2 Hb. destruct l1 as [|x l1]; [|by apply Hmain].
  destruct l2 as [|x l2]; [done|]. cbn [app] in *. rewrite <- (app_nil_r l2) in *.
  apply Hmain; [done|by rewrite app_nil_r in H2|constructor|]. intros a b _ []%elem_of_nil.
Qed.

(** The numbers the pairs name. *)
Lemma nack_pairs_names (seq_nos : list Z) :
  Forall (fits 16) seq_nos →
  ∀ s, s ∈ concat (packet_list <$> nack_pairs_from_sequence_numbers seq_nos) ↔ s ∈ seq_nos.
Proof.
  intros Hs s. destruct Hs as [|seq seqs H1 Hs]; [done|]. cbn [nack_pairs_from_sequence_numbers].
  rewrite nack_pairs_loop_spec by (done || by apply pair_new_ok).
  by rewrite elem_of_new, elem_of_cons.
Qed.

(** The NACK pairs computed from a list of sequence numbers, in any order and with
    repetitions, name exactly the numbers of the list: [packet_list] of the pairs contains
    a number if and only if the list does. *)
Theorem nack_pairs_exact (seq_nos : list Z) :
  Forall (fits 16) seq_nos →
  ∀ s, s ∈ concat (packet_list <$> nack_pairs_from_sequence_numbers seq_nos) ↔ s ∈ seq_nos.
Proof. apply nack_pairs_names. Qed.

Lemma nack_pairs_exact_witness :
  nack_pairs_from_sequence_numbers [65530; 65535; 3; 19; 20] = [mkNackPair 65530 16; mkNackPair 3 32768; mkNackPair 20 0] ∧
  (65535 ∈ concat (packet_list <$> nack_pairs_from_sequence_numbers [65530; 65535; 3; 19; 20]) ↔ 65535 ∈ [65530; 65535; 3; 19; 20]).
Proof. split; [vm_compute; reflexivity|]. apply nack_pairs_exact. concrete. Defined.
