(* ===== verification/RtcpSdes.v ===== *)
(** Source descriptions: [rtc-rtcp/src/source_description]. *)

From S2P Require Import Prelude Codec Rtcp RtcpReport RtcpFeedback.

Definition SDES_SOURCE_LEN : Z := 4.
Definition SDES_TYPE_LEN : Z := 1.
Definition SDES_OCTET_COUNT_LEN : Z := 1.
Definition SDES_TEXT_OFFSET : Z := 2.

Inductive SdesType :=
| SdesEnd | SdesCname | SdesName | SdesEmail | SdesPhone | SdesLocation | SdesTool | SdesNote | SdesPrivate.

#[export] Instance SdesType_eq_dec : EqDecision SdesType.
Proof. solve_decision. Defined.

(** [sdes_type as u8] *)
Definition sdes_type_u8 (t : SdesType) : Z :=
  match t with
  | SdesEnd => 0 | SdesCname => 1 | SdesName => 2 | SdesEmail => 3 | SdesPhone => 4
  | SdesLocation => 5 | SdesTool => 6 | SdesNote => 7 | SdesPrivate => 8
  end.

(** [SdesType::from] *)
Definition sdes_type_from (b : Z) : SdesType :=
  if b =? 1 then SdesCname else if b =? 2 then SdesName else if b =? 3 then SdesEmail
  else if b =? 4 then SdesPhone else if b =? 5 then SdesLocation else if b =? 6 then SdesTool
  else if b =? 7 then SdesNote else if b =? 8 then SdesPrivate else SdesEnd.

Record SourceDescriptionItem := mkSdesItem { sdes_type : SdesType; sdes_text : bytes }.

Record SourceDescriptionChunk := mkSdesChunk { sdes_source : Z; sdes_items : list SourceDescriptionItem }.

Record SourceDescriptionPacket := mkSdes { sdes_chunks : list SourceDescriptionChunk }.

#[export] Instance sdes_item_size : MarshalSize SourceDescriptionItem := λ it,
  SDES_TYPE_LEN + SDES_OCTET_COUNT_LEN + len (sdes_text it).

Definition sdes_chunk_raw_size (c : SourceDescriptionChunk) : Z :=
  foldl (λ n it, n + marshal_size it) SDES_SOURCE_LEN (sdes_items c) + SDES_TYPE_LEN.

#[export] Instance sdes_chunk_size : MarshalSize SourceDescriptionChunk := λ c,
  let l := sdes_chunk_raw_size c in l + get_padding_size l.

#[export] Instance sdes_packet : Packet SourceDescriptionPacket :=
  let raw_size p := RTCP_HEADER_LENGTH + foldl (λ n c, n + marshal_size c) 0 (sdes_chunks p) in
  {|
    header p := body_header (raw_size p) (u8 (len (sdes_chunks p))) SourceDescription;
    destination_ssrc p := sdes_source <$> sdes_chunks p;
    raw_size := raw_size
  |}.

#[export] Instance sdes_size : MarshalSize SourceDescriptionPacket := aligned_size.

Section SdesCodec.
Context {BC : BytesCrate}.

#[export] Instance sdes_item_marshal_to : Marshal SourceDescriptionItem := λ it buf,
  if bool_decide (sdes_type it = SdesEnd) then Err SdesMissingType
  else if len buf <? marshal_size it then Err BufferTooShort
  else
    let! w := put_u8 (sdes_type_u8 (sdes_type it)) (Wbuf [] buf) in
    if SDES_MAX_OCTET_COUNT <? len (sdes_text it) then Err SdesTextTooLong
    else
      let! w := put_u8 (u8 (len (sdes_text it))) w in
      let! w := put (sdes_text it) w in
      finish (marshal_size it) w.

Definition sdes_item_unmarshal (raw : bytes) : res (SourceDescriptionItem * bytes) :=
  let raw_packet_len := len raw in
  if raw_packet_len <? SDES_TYPE_LEN then Err PacketTooShort
  else
    let! (b, raw) := get_u8 raw in
    let t := sdes_type_from b in
    if bool_decide (t = SdesEnd) then Ok (mkSdesItem t [], raw)
    else if raw_packet_len <? SDES_TYPE_LEN + SDES_OCTET_COUNT_LEN then Err PacketTooShort
    else
      let! (octet_count, raw) := get_u8 raw in
      if raw_packet_len <? SDES_TEXT_OFFSET + octet_count then Err PacketTooShort
      else
        let! (text, raw) := copy_to_bytes octet_count raw in
        Ok (mkSdesItem t text, raw).

#[export] Instance sdes_chunk_marshal_to : Marshal SourceDescriptionChunk := λ c buf,
  if len buf <? marshal_size c then Err BufferTooShort
  else
    let! w := put_u32 (sdes_source c) (Wbuf [] buf) in
    let! w := put_all put_marshal (sdes_items c) w in
    let! w := put_u8 (sdes_type_u8 SdesEnd) w in
    let! w := put_padding (sdes_chunk_raw_size c) w in
    finish (marshal_size c) w.

(** The loop over the items, [while offset < raw_packet_len]. *)
Fixpoint read_items (fuel : nat) (offset raw_packet_len source : Z) (items : list SourceDescriptionItem)
    (raw : bytes) : res (SourceDescriptionChunk * bytes) :=
  match fuel with
  | O => Panic
  | S fuel =>
      if offset <? raw_packet_len then
        let! (item, raw) := sdes_item_unmarshal raw in
        if bool_decide (sdes_type item = SdesEnd) then
          let padding_len := get_padding_size (offset + 1) in
          if padding_len <=? len raw then Ok (mkSdesChunk source items, drop (Z.to_nat padding_len) raw)
          else Err PacketTooShort
        else read_items fuel (offset + marshal_size item) raw_packet_len source (items ++ [item]) raw
      else Err PacketTooShort
  end.

Definition sdes_chunk_unmarshal (raw : bytes) : res (SourceDescriptionChunk * bytes) :=
  let raw_packet_len := len raw in
  if raw_packet_len <? SDES_SOURCE_LEN + SDES_TYPE_LEN then Err PacketTooShort
  else
    let! (source, raw) := get_u32 raw in
    read_items (S (length raw)) SDES_SOURCE_LEN raw_packet_len source [] raw.

#[export] Instance sdes_marshal_to : Marshal SourceDescriptionPacket := λ p buf,
  if COUNT_MAX <? len (sdes_chunks p) then Err TooManyChunks
  else if len buf <? marshal_size p then Err BufferTooShort
  else
    let h := header p in
    let! w := put_marshal h (Wbuf [] buf) in
    let! w := put_all put_marshal (sdes_chunks p) w in
    let! w := if rtcp_padding h then put_padding (raw_size p) w else Ok w in
    finish (marshal_size p) w.

(** The loop over the chunks, [while offset < raw_packet_len]. *)
Fixpoint read_chunks (fuel : nat) (offset raw_packet_len : Z) (chunks : list SourceDescriptionChunk)
    (raw : bytes) : res (list SourceDescriptionChunk * bytes) :=
  match fuel with
  | O => Panic
  | S fuel =>
      if offset <? raw_packet_len then
        let! (chunk, raw) := sdes_chunk_unmarshal raw in
        read_chunks fuel (offset + marshal_size chunk) raw_packet_len (chunks ++ [chunk]) raw
      else Ok (chunks, raw)
  end.

Definition sdes_unmarshal (raw : bytes) : res (SourceDescriptionPacket * bytes) :=
  let raw_packet_len := len raw in
  let! (h, raw) := rtcp_header_unmarshal raw in
  if negb (bool_decide (packet_type h = SourceDescription)) then Err WrongType
  else
    let! (chunks, raw) := read_chunks (S (length raw)) RTCP_HEADER_LENGTH raw_packet_len [] raw in
    if negb (len chunks =? count h) then Err InvalidHeader
    else Ok (mkSdes chunks, []).

(** * Lemmas *)

Definition item_wf (it : SourceDescriptionItem) : Prop :=
  sdes_type it ≠ SdesEnd ∧ len (sdes_text it) <= 255 ∧ Forall byte_ok (sdes_text it).

Definition item_bytes (it : SourceDescriptionItem) : bytes :=
  put_uint 1 (sdes_type_u8 (sdes_type it)) ++ put_uint 1 (len (sdes_text it)) ++ sdes_text it.

Lemma len_item it : len (item_bytes it) = marshal_size it.
Proof. unfold item_bytes, marshal_size, sdes_item_size, SDES_TYPE_LEN, SDES_OCTET_COUNT_LEN. autorewrite with len. lia. Qed.

Lemma item_size_ge (it : SourceDescriptionItem) : 2 <= marshal_size it.
Proof. unfold marshal_size, sdes_item_size, SDES_TYPE_LEN, SDES_OCTET_COUNT_LEN. len_pos. lia. Qed.

Lemma item_encodes it : item_wf it → encodes it (item_bytes it).
Proof.
  intros (Ht & Hl & _). split; [apply len_item|]. intros buf Hb.
  unfold marshal_to, sdes_item_marshal_to, SDES_MAX_OCTET_COUNT. rewrite bool_decide_false by done.
  rewrite (proj2 (Z.ltb_ge (len buf) _)), (proj2 (Z.ltb_ge 255 _)) by lia.
  rewrite <- finish_put by (rewrite len_item; lia). unfold item_bytes.
  rewrite wrap_small by (unfold fits; len_pos; lia). by repeat (apply put_step; intros).
Qed.

Lemma sdes_type_roundtrip t : sdes_type_from (sdes_type_u8 t) = t.
Proof. by destruct t. Qed.

Lemma sdes_type_fits t : byte_ok (sdes_type_u8 t).
Proof. by destruct t. Qed.

Lemma item_read it r : item_wf it → sdes_item_unmarshal (item_bytes it ++ r) = Ok (it, r).
Proof.
  intros (Ht & Hl & _). pose proof (len_nonneg r). pose proof (item_size_ge it). pose proof (len_nonneg (sdes_text it)).
  unfold sdes_item_unmarshal, SDES_TYPE_LEN, SDES_OCTET_COUNT_LEN, SDES_TEXT_OFFSET. cbv zeta.
  rewrite len_app, len_item. rewrite (proj2 (Z.ltb_ge _ 1)) by lia.
  unfold item_bytes, get_u8. rewrite <- !app_assoc, get_put_uint by apply sdes_type_fits. cbn [rbind].
  rewrite sdes_type_roundtrip, bool_decide_false by done. rewrite (proj2 (Z.ltb_ge _ (1 + 1))) by lia.
  rewrite get_put_uint by (unfold fits; simpl; lia). cbn [rbind].
  rewrite (proj2 (Z.ltb_ge _ _)) by (unfold marshal_size, sdes_item_size, SDES_TYPE_LEN, SDES_OCTET_COUNT_LEN; lia).
  rewrite copy_to_bytes_app. cbn [rbind]. by destruct it.
Qed.

Lemma item_post raw :
  Forall byte_ok raw → 1 <= len raw →
  res_post (sdes_item_unmarshal raw)
    (λ '(it, r), Forall byte_ok r ∧ (sdes_type it = SdesEnd → len r = len raw - 1) ∧
                 (sdes_type it ≠ SdesEnd → len r + marshal_size it = len raw)).
Proof.
  intros Hr Hl. unfold sdes_item_unmarshal, SDES_TYPE_LEN, SDES_OCTET_COUNT_LEN, SDES_TEXT_OFFSET. cbv zeta.
  parse_step; [done|]. parse_step; [parse..|]. intros [b r] (_ & Hr1 & L1). apply res_post_if; intros Ht.
  - apply bool_decide_eq_true in Ht. simpl. rewrite Ht. split_and!; [done..|]. by intros [].
  - apply bool_decide_eq_false in Ht. parse. simpl. split_and!; [done..|]. intros _. unfold marshal_size, sdes_item_size, SDES_TYPE_LEN, SDES_OCTET_COUNT_LEN.
    cbn [sdes_text]. lia.
Qed.

(** ** Chunks *)

Definition chunk_wf (c : SourceDescriptionChunk) : Prop :=
  fits 32 (sdes_source c) ∧ Forall item_wf (sdes_items c).

Definition chunk_bytes (c : SourceDescriptionChunk) : bytes :=
  put_uint 4 (sdes_source c) ++ concat (item_bytes <$> sdes_items c) ++ put_uint 1 0 ++
  padding_bytes (sdes_chunk_raw_size c).

(** A sum written as a loop. *)
Lemma foldl_sum {A} (f : A → Z) n xs : foldl (λ n x, n + f x) n xs = n + foldl (λ n x, n + f x) 0 xs.
Proof.
  revert n. induction xs as [|x xs IH]; intros n; cbn [foldl]; [lia|]. rewrite IH, (IH (0 + f x)). lia.
Qed.

Lemma len_concat_sum {A} (g : A → bytes) (f : A → Z) xs :
  (∀ x, len (g x) = f x) → len (concat (g <$> xs)) = foldl (λ n x, n + f x) 0 xs.
Proof.
  intros Hg. induction xs as [|x xs IH]; [done|]. csimpl. rewrite len_app, Hg, IH, (foldl_sum f (f x)). done.
Qed.

Lemma chunk_raw_size c : sdes_chunk_raw_size c = 5 + len (concat (item_bytes <$> sdes_items c)).
Proof.
  unfold sdes_chunk_raw_size, SDES_SOURCE_LEN, SDES_TYPE_LEN. rewrite (foldl_sum marshal_size).
  rewrite (len_concat_sum _ marshal_size) by apply len_item. lia.
Qed.

Lemma len_chunk c : len (chunk_bytes c) = marshal_size c.
Proof.
  unfold marshal_size, sdes_chunk_size. cbv zeta. unfold chunk_bytes. autorewrite with len. rewrite chunk_raw_size. lia.
Qed.

Lemma chunk_encodes c : chunk_wf c → encodes c (chunk_bytes c).
Proof.
  intros [_ Hi]. split; [apply len_chunk|]. intros buf Hb.
  unfold marshal_to, sdes_chunk_marshal_to. rewrite (proj2 (Z.ltb_ge _ _)) by lia.
  rewrite <- finish_put by (rewrite len_chunk; lia).
  unfold marshal_size at 1, sdes_chunk_size in Hb. cbv zeta in Hb. pose proof (padding_size_bounds (sdes_chunk_raw_size c)).
  pose proof (chunk_raw_size c) as RS. pose proof (len_nonneg (concat (item_bytes <$> sdes_items c))). unfold chunk_bytes.
  apply put_step_room; [autorewrite with len; cbn [room]; len_pos; lia|]. intros w Hw. autorewrite with len in Hw. cbn [room] in Hw.
  rewrite (put_all_encoded item_bytes) by (try lia; intros; apply item_encodes; rewrite Forall_forall in Hi; auto).
  do 2 (apply put_step; intros). by rewrite put_padding_put.
Qed.

Lemma read_items_app its offset total source acc r fuel pad :
  Forall item_wf its →
  offset + len (concat (item_bytes <$> its)) < total →
  len pad = get_padding_size (offset + len (concat (item_bytes <$> its)) + 1) →
  len its < Z.of_nat fuel →
  read_items fuel offset total source acc (concat (item_bytes <$> its) ++ put_uint 1 0 ++ pad ++ r) =
    Ok (mkSdesChunk source (acc ++ its), r).
Proof.
  intros Hw. revert offset acc fuel. induction Hw as [|it its Hit Hits IH]; intros offset acc [|fuel] Ho Hp Hf;
    try (unfold len in Hf; simpl in Hf; lia); cbn [read_items].
  - csimpl in Hp. csimpl in Ho. change (len []) with 0 in *. rewrite (proj2 (Z.ltb_lt _ _)) by lia. csimpl.
    unfold sdes_item_unmarshal, SDES_TYPE_LEN, get_u8. cbv zeta.
    rewrite (proj2 (Z.ltb_ge _ 1)) by (rewrite len_app, len_put_uint; len_pos; lia).
    rewrite get_put_uint by done. cbn [rbind sdes_type]. rewrite bool_decide_true by done. cbn [rbind sdes_type].
    rewrite bool_decide_true by done. replace (offset + 1) with (offset + 0 + 1) by lia. rewrite <- Hp.
    rewrite (proj2 (Z.leb_le _ _)) by (rewrite len_app; len_pos; lia).
    unfold len. by rewrite Nat2Z.id, drop_app_length, app_nil_r.
  - csimpl in Ho. csimpl in Hp. rewrite len_app, len_item in Ho, Hp. pose proof (item_size_ge it).
    rewrite (proj2 (Z.ltb_lt _ _)) by (pose proof (len_nonneg (concat (item_bytes <$> its))); lia).
    csimpl. rewrite <- app_assoc, item_read by done. cbn [rbind].
    rewrite bool_decide_false by apply Hit. rewrite IH.
    + by rewrite <- app_assoc.
    + lia.
    + rewrite Hp. f_equal. lia.
    + rewrite len_cons in Hf. lia.
Qed.

Lemma chunk_read c r : chunk_wf c → sdes_chunk_unmarshal (chunk_bytes c ++ r) = Ok (c, r).
Proof.
  intros [Hs Hi]. unfold sdes_chunk_unmarshal, SDES_SOURCE_LEN, SDES_TYPE_LEN. cbv zeta.
  pose proof (chunk_raw_size c) as RS. pose proof (len_nonneg (concat (item_bytes <$> sdes_items c))).
  pose proof (padding_size_bounds (sdes_chunk_raw_size c)). pose proof (len_nonneg r).
  assert (len (chunk_bytes c ++ r) = sdes_chunk_raw_size c + get_padding_size (sdes_chunk_raw_size c) + len r) as L
    by (rewrite len_app, len_chunk; done).
  rewrite L, (proj2 (Z.ltb_ge _ _)) by lia. unfold chunk_bytes, get_u32. rewrite <- !app_assoc.
  rewrite get_put_uint by done. cbn [rbind]. rewrite read_items_app.
  - by destruct c.
  - done.
  - lia.
  - rewrite len_padding. f_equal. lia.
  - rewrite !length_app. assert (len (sdes_items c) <= len (concat (item_bytes <$> sdes_items c))); [|unfold len in *; lia].
    clear. induction (sdes_items c) as [|it its IH]; [done|]. csimpl. rewrite len_cons, len_app, len_item.
    pose proof (item_size_ge it). lia.
Qed.

Lemma read_items_post fuel offset source acc raw :
  Forall byte_ok raw → len raw < Z.of_nat fuel → 0 <= offset →
  offset = 4 + len (concat (item_bytes <$> acc)) →
  res_post (read_items fuel offset (offset + len raw) source acc raw)
    (λ '(c, r), Forall byte_ok r ∧ marshal_size c + len r = offset + len raw).
Proof.
  revert offset acc raw. induction fuel as [|fuel IH]; intros offset acc raw Hr Hf Ho Ha; [len_pos; lia|].
  cbn [read_items]. destruct (Z.ltb_spec offset (offset + len raw)); [|done].
  eapply res_post_bind; [apply item_post; [done|lia]|]. intros [it r] (Hr1 & L1 & L2).
  apply res_post_if; intros Ht; [apply bool_decide_eq_true in Ht|apply bool_decide_eq_false in Ht].
  - apply res_post_if; intros Hp; [|done]. bool_facts. simpl. split; [by apply Forall_drop|].
    unfold marshal_size, sdes_chunk_size. cbv zeta. rewrite chunk_raw_size. cbn [sdes_items]. rewrite len_drop.
    replace (5 + len (concat (item_bytes <$> acc))) with (offset + 1) by lia.
    pose proof (padding_size_bounds (offset + 1)). specialize (L1 Ht). lia.
  - specialize (L2 Ht). pose proof (item_size_ge it).
    replace (offset + len raw) with (offset + marshal_size it + len r) by lia. apply IH; [done|lia|lia|].
    rewrite fmap_app, concat_app, len_app. csimpl. rewrite app_nil_r, len_item. lia.
Qed.

Lemma chunk_size_ge (c : SourceDescriptionChunk) : 8 <= marshal_size c.
Proof.
  unfold marshal_size, sdes_chunk_size. cbv zeta. pose proof (padding_size_bounds (sdes_chunk_raw_size c)) as [? M].
  rewrite chunk_raw_size in *. pose proof (len_nonneg (concat (item_bytes <$> sdes_items c))).
  Z.div_mod_to_equations; lia.
Qed.

Lemma sdes_chunk_post raw :
  Forall byte_ok raw →
  res_post (sdes_chunk_unmarshal raw) (λ '(c, r), Forall byte_ok r ∧ marshal_size c + len r = len raw).
Proof.
  intros Hr. unfold sdes_chunk_unmarshal, SDES_SOURCE_LEN, SDES_TYPE_LEN. cbv zeta. parse.
  replace (len raw) with (4 + len r) by lia. apply read_items_post; [done|unfold len; lia|lia|done].
Qed.

(** ** Packets *)

Definition sdes_wf (p : SourceDescriptionPacket) : Prop :=
  Forall chunk_wf (sdes_chunks p) ∧ len (sdes_chunks p) <= 31 ∧ raw_size p <= 262144.

Definition sdes_body (p : SourceDescriptionPacket) : bytes := concat (chunk_bytes <$> sdes_chunks p).

Lemma sdes_raw_size p : raw_size p = 4 + len (sdes_body p).
Proof. cbn. unfold RTCP_HEADER_LENGTH, sdes_body. by rewrite (len_concat_sum _ marshal_size) by apply len_chunk. Qed.

Lemma len_sdes_body p : len (sdes_body p) = raw_size p - 4.
Proof. rewrite sdes_raw_size. lia. Qed.

Lemma chunks_aligned cs : len (concat (chunk_bytes <$> cs)) mod 4 = 0.
Proof.
  induction cs as [|c cs IH]; [done|]. csimpl. rewrite len_app, len_chunk.
  unfold marshal_size, sdes_chunk_size. cbv zeta. destruct (padding_size_bounds (sdes_chunk_raw_size c)) as [_ M].
  rewrite Zplus_mod, M, IH. done.
Qed.

Lemma sdes_encodes p : sdes_wf p → encodes p (frame p (sdes_body p)).
Proof.
  intros (Hc & Hn & _). pose proof (len_frame p _ (len_sdes_body p)) as L. pose proof (len_nonneg (sdes_chunks p)).
  encode_frame p L ltac:(unfold marshal_to, sdes_marshal_to, COUNT_MAX)
    ltac:(rewrite (proj2 (Z.ltb_ge 31 _)) by lia).
  pose proof (sdes_raw_size p). pose proof (len_nonneg (sdes_body p)).
  rewrite put_header by first [apply u8_count; lia|cbn [room]; lia]. unfold frame.
  apply put_step_room; [autorewrite with len; cbn [room]; lia|]. intros w Hw. autorewrite with len in Hw. cbn [room] in Hw.
  rewrite (put_all_encoded chunk_bytes).
  2:{ intros c Hin. apply chunk_encodes. rewrite Forall_forall in Hc. by apply Hc. }
  2:{ fold (sdes_body p). lia. }
  apply put_step. intros. cbn [header sdes_packet body_header rtcp_padding]. by rewrite put_padding_if.
Qed.

Lemma read_chunks_app cs offset total acc fuel r :
  Forall chunk_wf cs → total = offset + len (concat (chunk_bytes <$> cs)) → len cs < Z.of_nat fuel →
  read_chunks fuel offset total acc (concat (chunk_bytes <$> cs) ++ r) = Ok (acc ++ cs, r).
Proof.
  intros Hw. revert offset acc fuel. induction Hw as [|c cs Hc Hcs IH]; intros offset acc [|fuel] Ho Hf;
    try (unfold len in Hf; simpl in Hf; lia); cbn [read_chunks].
  - rewrite (proj2 (Z.ltb_ge _ _)); [by rewrite app_nil_r|]. rewrite Ho. csimpl. change (len []) with 0. lia.
  - csimpl in Ho. rewrite len_app, len_chunk in Ho. pose proof (chunk_size_ge c).
    rewrite (proj2 (Z.ltb_lt _ _)) by (pose proof (len_nonneg (concat (chunk_bytes <$> cs))); lia).
    csimpl. rewrite <- app_assoc, chunk_read by done. cbn [rbind]. rewrite IH.
    + by rewrite <- app_assoc.
    + lia.
    + rewrite len_cons in Hf. lia.
Qed.

Lemma sdes_read p : sdes_wf p → sdes_unmarshal (frame p (sdes_body p)) = Ok (p, []).
Proof.
  intros (Hc & Hn & Hs). pose proof (len_frame p _ (len_sdes_body p)) as L. pose proof (len_nonneg (sdes_chunks p)).
  pose proof (sdes_raw_size p) as RS. pose proof (chunks_aligned (sdes_chunks p)) as M. fold (sdes_body p) in M.
  destruct (words_header p (1 + len (sdes_body p) / 4)) as (E & LW & P).
  { rewrite RS. Z.div_mod_to_equations; lia. }
  { pose proof (len_nonneg (sdes_body p)). Z.div_mod_to_equations; lia. }
  unfold sdes_unmarshal, RTCP_HEADER_LENGTH. cbv zeta. rewrite L. unfold frame. rewrite P, app_nil_r. cbn [header sdes_packet].
  rewrite body_header_read by (apply u8_count; lia). cbn [rbind packet_type body_header count].
  rewrite bool_decide_true by done. cbn [negb].
  rewrite <- (app_nil_r (sdes_body p)) at 2. unfold sdes_body at 2. rewrite read_chunks_app; [|done| |].
  - cbn [rbind app]. rewrite wrap_small by (unfold fits; lia). rewrite Z.eqb_refl. cbn [negb]. by destruct p.
  - fold (sdes_body p). rewrite E. Z.div_mod_to_equations; lia.
  - assert (len (sdes_chunks p) <= len (sdes_body p)); [|unfold len in *; lia].
    unfold sdes_body. clear. induction (sdes_chunks p) as [|c cs IH]; [done|]. csimpl.
    rewrite len_cons, len_app, len_chunk. pose proof (chunk_size_ge c). lia.
Qed.

Lemma read_chunks_post fuel offset acc raw :
  Forall byte_ok raw → len raw < Z.of_nat fuel →
  res_post (read_chunks fuel offset (offset + len raw) acc raw) (λ _, True).
Proof.
  revert offset acc raw. induction fuel as [|fuel IH]; intros offset acc raw Hr Hf; [len_pos; lia|].
  cbn [read_chunks]. destruct (Z.ltb_spec offset (offset + len raw)); [|done].
  eapply res_post_bind; [by apply sdes_chunk_post|]. intros [c r] [Hr1 L1]. pose proof (chunk_size_ge c).
  replace (offset + len raw) with (offset + marshal_size c + len r) by lia. apply IH; [done|lia].
Qed.

Lemma sdes_post raw : Forall byte_ok raw → res_post (sdes_unmarshal raw) (left_of 4 raw).
Proof.
  intros Hr. unfold sdes_unmarshal, RTCP_HEADER_LENGTH. cbv zeta.
  eapply res_post_bind; [by apply rtcp_header_post|]. intros [h r] (Hn & _ & Hr1 & L1). parse.
  eapply res_post_bind.
  { replace (len raw) with (4 + len r) by lia. apply read_chunks_post; [done|unfold len; lia]. }
  intros [cs r2] _. parse. pose proof (len_nonneg r). simpl. split; [done|]. change (len []) with 0. lia.
Qed.

End SdesCodec.
