(* ===== verification/RtcpTwcc.v ===== *)
(** Transport-wide congestion control feedback: [rtc-rtcp/src/transport_feedbacks/transport_layer_cc]
    and the bit operations of [rtc-rtcp/src/util.rs]. *)

From S2P Require Import Prelude Codec Rtcp RtcpReport RtcpFeedback.

(** * Bit operations *)

Definition set_nbits_of_uint16 (src size start_index val : Z) : res Z :=
  if 16 <? start_index + size then Err InvalidSizeOrStartIndex
  else
    let val := Z.land val (Z.shiftl 1 size - 1) in
    Ok (Z.lor src (u16 (Z.shiftl val (16 - size - start_index)))).

Definition append_nbits_to_uint32 (src n val : Z) : Z :=
  Z.lor (u32 (Z.shiftl src n)) (Z.land val (Z.shiftr 0xFFFFFFFF (32 - n))).

Definition get_nbits_from_byte (b begin_ n : Z) : Z :=
  let end_shift := 8 - (begin_ + n) in
  let mask := Z.land (Z.shiftr 0xFF begin_) (u8 (Z.shiftl 0xFF end_shift)) in
  Z.shiftr (Z.land b mask) end_shift.

Definition get_24bits_from_bytes (b0 b1 b2 : Z) : Z := u32 (Z.shiftl b0 16 + Z.shiftl b1 8 + b2).

(** * Status chunks *)

Inductive StatusChunkTypeTcc := TypeRunLengthChunk | TypeStatusVectorChunk.

Inductive SymbolTypeTcc :=
| PacketNotReceived
| PacketReceivedSmallDelta
| PacketReceivedLargeDelta
| PacketReceivedWithoutDelta.

Inductive SymbolSizeTypeTcc := OneBit | TwoBit.

#[export] Instance StatusChunkTypeTcc_eq_dec : EqDecision StatusChunkTypeTcc.
Proof. solve_decision. Defined.
#[export] Instance SymbolTypeTcc_eq_dec : EqDecision SymbolTypeTcc.
Proof. solve_decision. Defined.
#[export] Instance SymbolSizeTypeTcc_eq_dec : EqDecision SymbolSizeTypeTcc.
Proof. solve_decision. Defined.

(** [symbol as u16] and the conversions from [u16]. *)
Definition symbol_u16 (s : SymbolTypeTcc) : Z :=
  match s with
  | PacketNotReceived => 0
  | PacketReceivedSmallDelta => 1
  | PacketReceivedLargeDelta => 2
  | PacketReceivedWithoutDelta => 3
  end.
Definition symbol_size_u16 (s : SymbolSizeTypeTcc) : Z := match s with OneBit => 0 | TwoBit => 1 end.

Definition symbol_size_from (v : Z) : SymbolSizeTypeTcc := if v =? 0 then OneBit else TwoBit.
Definition chunk_type_from (v : Z) : StatusChunkTypeTcc :=
  if v =? 0 then TypeRunLengthChunk else TypeStatusVectorChunk.
Definition symbol_from (v : Z) : SymbolTypeTcc :=
  if v =? 0 then PacketNotReceived else if v =? 1 then PacketReceivedSmallDelta
  else if v =? 2 then PacketReceivedLargeDelta else PacketReceivedWithoutDelta.

Record RunLengthChunk := mkRunLength {
  rl_type_tcc : StatusChunkTypeTcc;
  packet_status_symbol : SymbolTypeTcc;
  run_length : Z
}.

Record StatusVectorChunk := mkStatusVector {
  sv_type_tcc : StatusChunkTypeTcc;
  symbol_size : SymbolSizeTypeTcc;
  symbol_list : list SymbolTypeTcc
}.

Inductive PacketStatusChunk :=
| RunLength (c : RunLengthChunk)
| StatusVector (c : StatusVectorChunk).

Definition PACKET_STATUS_CHUNK_LENGTH : Z := 2.

(** [NUM_OF_BITS_OF_SYMBOL_SIZE[symbol_size]] *)
Definition num_of_bits_of_symbol_size (s : SymbolSizeTypeTcc) : Z := match s with OneBit => 1 | TwoBit => 2 end.

(** The 16-bit word of a run length chunk. *)
Definition run_length_word (c : RunLengthChunk) : res Z :=
  let! dst := set_nbits_of_uint16 0 1 0 0 in
  let! dst := set_nbits_of_uint16 dst 2 1 (symbol_u16 (packet_status_symbol c)) in
  set_nbits_of_uint16 dst 13 3 (run_length c).

(** The loop over the symbol list. *)
Fixpoint put_symbols (num_of_bits i dst : Z) (l : list SymbolTypeTcc) : res Z :=
  match l with
  | [] => Ok dst
  | s :: l =>
      let index := u16 (num_of_bits * u16 i + 2) in
      let! dst := set_nbits_of_uint16 dst num_of_bits index (symbol_u16 s) in
      put_symbols num_of_bits (i + 1) dst l
  end.

(** The 16-bit word of a status vector chunk. *)
Definition status_vector_word (c : StatusVectorChunk) : res Z :=
  let! dst := set_nbits_of_uint16 0 1 0 1 in
  let! dst := set_nbits_of_uint16 dst 1 1 (symbol_size_u16 (symbol_size c)) in
  put_symbols (num_of_bits_of_symbol_size (symbol_size c)) 0 dst (symbol_list c).

(** What the two bytes of a run length chunk say. *)
Definition run_length_of (b0 b1 : Z) : RunLengthChunk :=
  mkRunLength TypeRunLengthChunk (symbol_from (get_nbits_from_byte b0 1 2))
    (u16 (u16 (Z.shiftl (get_nbits_from_byte b0 3 5) 8) + b1)).

(** What the two bytes of a status vector chunk say. *)
Definition status_vector_of (b0 b1 : Z) : StatusVectorChunk :=
  let size := symbol_size_from (get_nbits_from_byte b0 1 1) in
  let symbols :=
    match size with
    | OneBit =>
        ((λ i, symbol_from (get_nbits_from_byte b0 (2 + i) 1)) <$> seqZ 0 6) ++
        ((λ i, symbol_from (get_nbits_from_byte b1 i 1)) <$> seqZ 0 8)
    | TwoBit =>
        ((λ i, symbol_from (get_nbits_from_byte b0 (2 + i * 2) 2)) <$> seqZ 0 3) ++
        ((λ i, symbol_from (get_nbits_from_byte b1 (i * 2) 2)) <$> seqZ 0 4)
    end in
  mkStatusVector TypeStatusVectorChunk size symbols.

#[export] Instance run_length_size : MarshalSize RunLengthChunk := λ _, PACKET_STATUS_CHUNK_LENGTH.
#[export] Instance status_vector_size : MarshalSize StatusVectorChunk := λ _, PACKET_STATUS_CHUNK_LENGTH.
#[export] Instance packet_status_size : MarshalSize PacketStatusChunk := λ c,
  match c with RunLength c => marshal_size c | StatusVector c => marshal_size c end.

(** * Receive deltas *)

Definition TYPE_TCC_DELTA_SCALE_FACTOR : Z := 250.

Record RecvDelta := mkRecvDelta { type_tcc_packet : SymbolTypeTcc; delta : Z }.

#[export] Instance recv_delta_size : MarshalSize RecvDelta := λ d,
  let delta := Z.quot (delta d) TYPE_TCC_DELTA_SCALE_FACTOR in
  if bool_decide (type_tcc_packet d = PacketReceivedSmallDelta) && (0 <=? delta) && (delta <=? 255) then 1
  else if bool_decide (type_tcc_packet d = PacketReceivedLargeDelta) && (-32768 <=? delta) && (delta <=? 32767) then 2
  else 0.

(** * The packet *)

Definition PACKET_CHUNK_OFFSET : Z := 16.

Record TransportLayerCc := mkTcc {
  tcc_sender_ssrc : Z;
  tcc_media_ssrc : Z;
  base_sequence_number : Z;
  packet_status_count : Z;
  reference_time : Z;
  fb_pkt_count : Z;
  packet_chunks : list PacketStatusChunk;
  recv_deltas : list RecvDelta
}.

#[export] Instance tcc_packet : Packet TransportLayerCc :=
  let raw_size p :=
    foldl (λ n d, if bool_decide (type_tcc_packet d = PacketReceivedSmallDelta) then n + 1 else n + 2)
      (RTCP_HEADER_LENGTH + PACKET_CHUNK_OFFSET + len (packet_chunks p) * 2) (recv_deltas p) in
  {|
    header p := body_header (raw_size p) FORMAT_TCC TransportSpecificFeedback;
    destination_ssrc p := [tcc_media_ssrc p];
    raw_size := raw_size
  |}.

#[export] Instance tcc_size : MarshalSize TransportLayerCc := aligned_size.

Section TccCodec.
Context {BC : BytesCrate}.

#[export] Instance run_length_marshal_to : Marshal RunLengthChunk := λ c buf,
  let! dst := run_length_word c in
  let! w := put_u16 dst (Wbuf [] buf) in
  finish PACKET_STATUS_CHUNK_LENGTH w.

#[export] Instance status_vector_marshal_to : Marshal StatusVectorChunk := λ c buf,
  let! dst := status_vector_word c in
  let! w := put_u16 dst (Wbuf [] buf) in
  finish PACKET_STATUS_CHUNK_LENGTH w.

#[export] Instance packet_status_marshal_to : Marshal PacketStatusChunk := λ c buf,
  match c with RunLength c => marshal_to c buf | StatusVector c => marshal_to c buf end.

Definition run_length_unmarshal (raw : bytes) : res (RunLengthChunk * bytes) :=
  if len raw <? PACKET_STATUS_CHUNK_LENGTH then Err PacketStatusChunkLength
  else
    let! (b0, raw) := get_u8 raw in
    let! (b1, raw) := get_u8 raw in
    Ok (run_length_of b0 b1, raw).

Definition status_vector_unmarshal (raw : bytes) : res (StatusVectorChunk * bytes) :=
  if len raw <? PACKET_STATUS_CHUNK_LENGTH then Err PacketBeforeCname
  else
    let! (b0, raw) := get_u8 raw in
    let! (b1, raw) := get_u8 raw in
    Ok (status_vector_of b0 b1, raw).

#[export] Instance recv_delta_marshal_to : Marshal RecvDelta := λ d buf,
  let delta := Z.quot (delta d) TYPE_TCC_DELTA_SCALE_FACTOR in
  if bool_decide (type_tcc_packet d = PacketReceivedSmallDelta) && (0 <=? delta) && (delta <=? 255)
     && (1 <=? len buf) then
    let! w := put_u8 (u8 delta) (Wbuf [] buf) in finish 1 w
  else if bool_decide (type_tcc_packet d = PacketReceivedLargeDelta) && (-32768 <=? delta) && (delta <=? 32767)
     && (2 <=? len buf) then
    let! w := put_u16 (u16 delta) (Wbuf [] buf) in finish 2 w
  else Err DeltaExceedLimit.

Definition recv_delta_unmarshal (raw : bytes) : res (RecvDelta * bytes) :=
  let chunk_len := len raw in
  if negb (chunk_len =? 1) && negb (chunk_len =? 2) then Err DeltaExceedLimit
  else if chunk_len =? 1 then
    let! (x, raw) := get_u8 raw in
    Ok (mkRecvDelta PacketReceivedSmallDelta (TYPE_TCC_DELTA_SCALE_FACTOR * x), raw)
  else
    let! (x, raw) := get_u16 raw in
    Ok (mkRecvDelta PacketReceivedLargeDelta (TYPE_TCC_DELTA_SCALE_FACTOR * signed 16 x), raw).

#[export] Instance tcc_marshal_to : Marshal TransportLayerCc := λ p buf,
  if len buf <? marshal_size p then Err BufferTooShort
  else
    let h := header p in
    let! w := put_marshal h (Wbuf [] buf) in
    let! w := put_u32 (tcc_sender_ssrc p) w in
    let! w := put_u32 (tcc_media_ssrc p) w in
    let! w := put_u16 (base_sequence_number p) w in
    let! w := put_u16 (packet_status_count p) w in
    let reference_time_and_fb_pkt_count :=
      append_nbits_to_uint32 (append_nbits_to_uint32 0 24 (reference_time p)) 8 (fb_pkt_count p) in
    let! w := put_u32 reference_time_and_fb_pkt_count w in
    let! w := put_all put_marshal (packet_chunks p) w in
    let! w := put_all put_marshal (recv_deltas p) w in
    let! w := if rtcp_padding h then put_padding (raw_size p) w else Ok w in
    finish (marshal_size p) w.

(** The deltas announced by a run, [while j < packet_number_to_process]. *)
Definition run_deltas (sym : SymbolTypeTcc) (n : Z) : list SymbolTypeTcc :=
  if bool_decide (sym = PacketReceivedSmallDelta) || bool_decide (sym = PacketReceivedLargeDelta)
  then replicate (Z.to_nat n) sym else [].

(** The deltas announced by a vector. *)
Definition vector_deltas (c : StatusVectorChunk) : list SymbolTypeTcc :=
  match symbol_size c with
  | OneBit => filter (λ s, s = PacketReceivedSmallDelta) (symbol_list c)
  | TwoBit => filter (λ s, s = PacketReceivedSmallDelta ∨ s = PacketReceivedLargeDelta) (symbol_list c)
  end.

(** [processed.saturating_add(n)] on sixteen bits. *)
Definition saturating_add16 (a b : Z) : Z := Z.min 65535 (a + b).

(** The loop over the status chunks, [while processed_packet_num < packet_status_count]: the
    chunks, the types of the deltas to follow, and the position after the chunks. *)
Fixpoint read_status (fuel : nat) (status_count processed pos total : Z)
    (raw : bytes) : res (list PacketStatusChunk * list SymbolTypeTcc * Z * bytes) :=
  match fuel with
  | O => Panic
  | S fuel =>
      if processed <? status_count then
        if total <=? pos + PACKET_STATUS_CHUNK_LENGTH then Err PacketTooShort
        else
          let! (chunk_reader, raw) := copy_to_bytes PACKET_STATUS_CHUNK_LENGTH raw in
          let! b0 := index chunk_reader 0 in
          let! (chunk, types, processed) :=
            match chunk_type_from (get_nbits_from_byte b0 0 1) with
            | TypeRunLengthChunk =>
                let! (c, _) := run_length_unmarshal chunk_reader in
                let packet_number_to_process := Z.min (status_count - processed) (run_length c) in
                Ok (RunLength c, run_deltas (packet_status_symbol c) packet_number_to_process,
                    saturating_add16 processed packet_number_to_process)
            | TypeStatusVectorChunk =>
                let! (c, _) := status_vector_unmarshal chunk_reader in
                Ok (StatusVector c, vector_deltas c,
                    saturating_add16 processed (u16 (len (symbol_list c))))
            end in
          let! (chunks, types', pos, raw) :=
            read_status fuel status_count processed (pos + PACKET_STATUS_CHUNK_LENGTH) total raw in
          Ok (chunk :: chunks, types ++ types', pos, raw)
      else Ok ([], [], pos, raw)
  end.

(** One delta through a reader limited to [n] bytes, [RecvDelta::unmarshal(&mut raw_packet.take(n))]. *)
Definition take_delta (n : nat) (raw : bytes) : res (RecvDelta * bytes) :=
  let! (d, r) := recv_delta_unmarshal (take n raw) in
  Ok (d, r ++ drop n raw).

(** The loop over the deltas. *)
Fixpoint read_deltas (types : list SymbolTypeTcc) (pos total : Z) (raw : bytes)
    : res (list RecvDelta * bytes) :=
  match types with
  | [] => Ok ([], raw)
  | t :: types =>
      if total <=? pos then Err PacketTooShort
      else
        let! (d, pos, raw) :=
          if bool_decide (t = PacketReceivedSmallDelta) then
            let! (d, raw) := take_delta 1 raw in Ok (d, pos + 1, raw)
          else Ok (mkRecvDelta t 0, pos, raw) in
        let! (d, pos, raw) :=
          if bool_decide (type_tcc_packet d = PacketReceivedLargeDelta) then
            let! (d, raw) := take_delta 2 raw in Ok (d, pos + 2, raw)
          else Ok (d, pos, raw) in
        let! (ds, raw) := read_deltas types pos total raw in
        Ok (d :: ds, raw)
  end.

Definition tcc_unmarshal (raw : bytes) : res (TransportLayerCc * bytes) :=
  let raw_packet_len := len raw in
  if raw_packet_len <? RTCP_HEADER_LENGTH + SSRC_LENGTH then Err PacketTooShort
  else
    let! (h, raw) := rtcp_header_unmarshal raw in
    let total_length := 4 * u16 (rtcp_length h + 1) in
    if total_length <? RTCP_HEADER_LENGTH + PACKET_CHUNK_OFFSET then Err PacketTooShort
    else if raw_packet_len <? total_length then Err PacketTooShort
    else if wrong_type h TransportSpecificFeedback FORMAT_TCC then Err WrongType
    else
      let! (sender_ssrc, raw) := get_u32 raw in
      let! (media_ssrc, raw) := get_u32 raw in
      let! (base, raw) := get_u16 raw in
      let! (status_count, raw) := get_u16 raw in
      let! (t0, raw) := get_u8 raw in
      let! (t1, raw) := get_u8 raw in
      let! (t2, raw) := get_u8 raw in
      let time := get_24bits_from_bytes t0 t1 t2 in
      let! (fb, raw) := get_u8 raw in
      let! (chunks, types, pos, raw) :=
        read_status (S (length raw)) status_count 0 (RTCP_HEADER_LENGTH + PACKET_CHUNK_OFFSET) total_length raw in
      let! (deltas, raw) := read_deltas types pos total_length raw in
      Ok (mkTcc sender_ssrc media_ssrc base status_count time fb chunks deltas, []).

End TccCodec.

(** * Lemmas *)

(** ** The words of status chunks *)

#[export] Instance RunLengthChunk_eq_dec : EqDecision RunLengthChunk.
Proof. solve_decision. Defined.
#[export] Instance StatusVectorChunk_eq_dec : EqDecision StatusVectorChunk.
Proof. solve_decision. Defined.

Definition status_wf (c : PacketStatusChunk) : Prop :=
  match c with
  | RunLength c => rl_type_tcc c = TypeRunLengthChunk ∧ fits 13 (run_length c)
  | StatusVector c =>
      sv_type_tcc c = TypeStatusVectorChunk ∧
      match symbol_size c with
      | OneBit => length (symbol_list c) = 14%nat ∧
                  Forall (.∈ [PacketNotReceived; PacketReceivedSmallDelta]) (symbol_list c)
      | TwoBit => length (symbol_list c) = 7%nat
      end
  end.

Definition status_word (c : PacketStatusChunk) : res Z :=
  match c with RunLength c => run_length_word c | StatusVector c => status_vector_word c end.

(** All lists of a given length over an alphabet. *)
Fixpoint all_lists {A} (n : nat) (xs : list A) : list (list A) :=
  match n with
  | O => [[]]
  | S n => x ← xs; l ← all_lists n xs; [x :: l]
  end.

Lemma elem_of_all_lists {A} (xs l : list A) : Forall (.∈ xs) l → l ∈ all_lists (length l) xs.
Proof.
  induction 1 as [|x l Hx Hl IH]; simpl; [by left|].
  apply list_elem_of_bind. exists x. split; [|done]. apply list_elem_of_bind. exists l. split; [by left|done].
Qed.

(** Adding bits to a word, as a disjunction. *)
Lemma put_symbols_lor nb i d x l :
  put_symbols nb i (Z.lor d x) l = let! y := put_symbols nb i x l in Ok (Z.lor d y).
Proof.
  revert i x. induction l as [|s l IH]; intros i x; cbn [put_symbols]; [done|].
  unfold set_nbits_of_uint16. destruct (16 <? _); [done|]. cbv zeta. cbn [rbind]. by rewrite <- Z.lor_assoc, IH.
Qed.

Lemma put_symbols_app nb i x l1 l2 :
  put_symbols nb i x (l1 ++ l2) =
  let! y := put_symbols nb i x l1 in put_symbols nb (i + Z.of_nat (length l1)) y l2.
Proof.
  revert i x. induction l1 as [|s l1 IH]; intros i x; cbn [app put_symbols length]; [by rewrite Z.add_0_r|].
  destruct (set_nbits_of_uint16 _ _ _ _); cbn [rbind]; [|done..]. rewrite IH.
  by replace (i + 1 + Z.of_nat (length l1)) with (i + Z.of_nat (S (length l1))) by lia.
Qed.

(** The symbols that fit in the first and in the second byte of a vector. *)
Definition alphabet (z : SymbolSizeTypeTcc) : list SymbolTypeTcc :=
  match z with
  | OneBit => [PacketNotReceived; PacketReceivedSmallDelta]
  | TwoBit => [PacketNotReceived; PacketReceivedSmallDelta; PacketReceivedLargeDelta; PacketReceivedWithoutDelta]
  end.
Definition first_len (z : SymbolSizeTypeTcc) : nat := match z with OneBit => 6 | TwoBit => 3 end.
Definition second_len (z : SymbolSizeTypeTcc) : nat := match z with OneBit => 8 | TwoBit => 4 end.

Definition first_check (z : SymbolSizeTypeTcc) (l : list SymbolTypeTcc) : bool :=
  match put_symbols (num_of_bits_of_symbol_size z) 0 (0x8000 + 0x4000 * symbol_size_u16 z) l with
  | Ok w =>
      let b := w / 256 in
      (w =? b * 256) && (0 <=? b) && (b <? 256) && (get_nbits_from_byte b 0 1 =? 1) &&
      bool_decide (symbol_size_from (get_nbits_from_byte b 1 1) = z) &&
      bool_decide (match z with
                   | OneBit => (λ i, symbol_from (get_nbits_from_byte b (2 + i) 1)) <$> seqZ 0 6
                   | TwoBit => (λ i, symbol_from (get_nbits_from_byte b (2 + i * 2) 2)) <$> seqZ 0 3
                   end = l)
  | _ => false
  end.

Definition second_check (z : SymbolSizeTypeTcc) (l : list SymbolTypeTcc) : bool :=
  match put_symbols (num_of_bits_of_symbol_size z) (Z.of_nat (first_len z)) 0 l with
  | Ok b =>
      (0 <=? b) && (b <? 256) &&
      bool_decide (match z with
                   | OneBit => (λ i, symbol_from (get_nbits_from_byte b i 1)) <$> seqZ 0 8
                   | TwoBit => (λ i, symbol_from (get_nbits_from_byte b (i * 2) 2)) <$> seqZ 0 4
                   end = l)
  | _ => false
  end.

Lemma first_checks z l : length l = first_len z → Forall (.∈ alphabet z) l → first_check z l = true.
Proof.
  intros Hl Hf%elem_of_all_lists. rewrite Hl in Hf. revert l Hl Hf.
  assert (forallb (first_check z) (all_lists (first_len z) (alphabet z)) = true) as H
    by (destruct z; vm_compute; reflexivity).
  rewrite forallb_forall in H. intros l _ Hin. by apply (H l), list_elem_of_In.
Qed.

Lemma second_checks z l : length l = second_len z → Forall (.∈ alphabet z) l → second_check z l = true.
Proof.
  intros Hl Hf%elem_of_all_lists. rewrite Hl in Hf. revert l Hl Hf.
  assert (forallb (second_check z) (all_lists (second_len z) (alphabet z)) = true) as H
    by (destruct z; vm_compute; reflexivity).
  rewrite forallb_forall in H. intros l _ Hin. by apply (H l), list_elem_of_In.
Qed.

Lemma vector_word z l :
  length l = (first_len z + second_len z)%nat → Forall (.∈ alphabet z) l →
  ∃ w, status_vector_word (mkStatusVector TypeStatusVectorChunk z l) = Ok w ∧ fits 16 w ∧
       get_nbits_from_byte (w / 256) 0 1 = 1 ∧
       status_vector_of (w / 256) (w mod 256) = mkStatusVector TypeStatusVectorChunk z l.
Proof.
  intros Hl Hf. rewrite <- (take_drop (first_len z) l) in Hf |- *.
  apply Forall_app in Hf as [Hf1 Hf2].
  assert (length (take (first_len z) l) = first_len z) as L1 by (rewrite length_take; lia).
  assert (length (drop (first_len z) l) = second_len z) as L2 by (rewrite length_drop; lia).
  revert L1 L2 Hf1 Hf2. generalize (take (first_len z) l) (drop (first_len z) l). clear l Hl. intros l1 l2 L1 L2 Hf1 Hf2.
  pose proof (first_checks z l1 L1 Hf1) as H1. pose proof (second_checks z l2 L2 Hf2) as H2.
  unfold first_check in H1. destruct (put_symbols _ 0 _ l1) as [w1| |] eqn:E1; [|done..].
  unfold second_check in H2. destruct (put_symbols _ _ 0 l2) as [lo| |] eqn:E2; [|done..].
  apply andb_true_iff in H2 as [H2 D2%bool_decide_eq_true]. apply andb_true_iff in H1 as [H1 D1%bool_decide_eq_true].
  apply andb_true_iff in H1 as [H1 Dz%bool_decide_eq_true]. bool_facts. revert H1 D1 Dz. set (hi := w1 / 256) in *. intros H1 D1 Dz.
  exists (hi * 256 + lo).
  assert ((hi * 256 + lo) / 256 = hi) as -> by (rewrite Z.div_add_l, Z.div_small by lia; lia).
  assert ((hi * 256 + lo) mod 256 = lo) as -> by (rewrite Z.add_comm, Z.mod_add, Z.mod_small by lia; done).
  split_and!; [|unfold fits; lia|done|].
  - unfold status_vector_word. cbn [symbol_size symbol_list].
    change (set_nbits_of_uint16 0 1 0 1) with (Ok 0x8000). cbn [rbind].
    assert (set_nbits_of_uint16 0x8000 1 1 (symbol_size_u16 z) = Ok (0x8000 + 0x4000 * symbol_size_u16 z)) as ->
      by (by destruct z). cbn [rbind]. rewrite put_symbols_app, E1. cbn [rbind]. rewrite L1, Z.add_0_l.
    rewrite <- (Z.lor_0_r w1), put_symbols_lor, E2. cbn [rbind]. f_equal.
    change 256 with (2 ^ 8). rewrite <- lor_shiftl_add by (unfold fits; lia). f_equal.
    rewrite Z.shiftl_mul_pow2 by lia. change (2 ^ 8) with 256. lia.
  - unfold status_vector_of. rewrite Dz. cbv zeta. f_equal. destruct z; by rewrite D1, D2.
Qed.

Lemma run_length_fields s hi :
  0 <= hi < 32 →
  let b := symbol_u16 s * 32 + hi in
  0 <= b < 128 ∧ get_nbits_from_byte b 0 1 = 0 ∧ symbol_from (get_nbits_from_byte b 1 2) = s ∧ get_nbits_from_byte b 3 5 = hi.
Proof. intros Hh. revert hi Hh. destruct s; enum 32%nat. Qed.

Lemma run_word s r :
  fits 13 r →
  ∃ w, run_length_word (mkRunLength TypeRunLengthChunk s r) = Ok w ∧ fits 16 w ∧
       get_nbits_from_byte (w / 256) 0 1 = 0 ∧
       run_length_of (w / 256) (w mod 256) = mkRunLength TypeRunLengthChunk s r.
Proof.
  intros Hr. unfold fits in Hr. change (2 ^ 13) with 8192 in Hr.
  destruct (run_length_fields s (r / 256)) as (Hb & T & S & H); [split; [apply Z.div_pos|apply Z.div_lt_upper_bound]; lia|].
  assert (0 <= symbol_u16 s < 4) as Hs by (destruct s; cbn; lia).
  exists (symbol_u16 s * 8192 + r).
  assert ((symbol_u16 s * 8192 + r) / 256 = symbol_u16 s * 32 + r / 256) as ->
    by (replace (symbol_u16 s * 8192 + r) with (symbol_u16 s * 32 * 256 + r) by lia; by rewrite Z.div_add_l by lia).
  assert ((symbol_u16 s * 8192 + r) mod 256 = r mod 256) as ->
    by (replace (symbol_u16 s * 8192 + r) with (r + symbol_u16 s * 32 * 256) by lia; by rewrite Z.mod_add by lia).
  split_and!; [|unfold fits; lia|done|].
  - unfold run_length_word. cbn [packet_status_symbol run_length].
    change (set_nbits_of_uint16 0 1 0 0) with (Ok 0). cbn [rbind].
    assert (set_nbits_of_uint16 0 2 1 (symbol_u16 s) = Ok (symbol_u16 s * 8192)) as -> by (by destruct s). cbn [rbind].
    unfold set_nbits_of_uint16. change (16 <? 3 + 13) with false. cbv iota zeta. f_equal.
    change (Z.shiftl 1 13 - 1) with (Z.ones 13). rewrite Z.land_ones, Z.mod_small by lia.
    rewrite Z.shiftl_0_r, wrap_small by (unfold fits; lia). change 8192 with (2 ^ 13).
    rewrite <- lor_shiftl_add, Z.shiftl_mul_pow2 by (unfold fits; lia). done.
  - unfold run_length_of. rewrite S, H. f_equal. rewrite Z.shiftl_mul_pow2 by lia. change (2 ^ 8) with 256.
    pose proof (Z_div_mod_eq_full r 256).
    rewrite (wrap_small 16 (r / 256 * 256)), wrap_small by (unfold fits; pose proof (Z.mod_pos_bound r 256); lia). lia.
Qed.

(** The chunk that two bytes stand for. *)
Definition status_of (b0 b1 : Z) : PacketStatusChunk :=
  match chunk_type_from (get_nbits_from_byte b0 0 1) with
  | TypeRunLengthChunk => RunLength (run_length_of b0 b1)
  | TypeStatusVectorChunk => StatusVector (status_vector_of b0 b1)
  end.

Lemma status_word_spec c :
  status_wf c → ∃ w, status_word c = Ok w ∧ fits 16 w ∧ status_of (w / 256) (w mod 256) = c.
Proof.
  destruct c as [[t s r]|[t z l]]; cbn [status_wf status_word rl_type_tcc run_length sv_type_tcc symbol_size symbol_list].
  - intros [-> Hr]. destruct (run_word s r Hr) as (w & E & Hw & T & D). exists w. split_and!; [done..|].
    unfold status_of. by rewrite T, D.
  - intros [-> Hl]. destruct (vector_word z l) as (w & E & Hw & T & D).
    + destruct z; [apply Hl|exact Hl].
    + destruct z; [apply Hl|]. apply Forall_forall. intros [] _; set_solver.
    + exists w. split_and!; [done..|]. unfold status_of. by rewrite T, D.
Qed.

Section TccLemmas.
Context {BC : BytesCrate}.

Definition status_bytes (c : PacketStatusChunk) : bytes :=
  match status_word c with Ok w => put_uint 2 w | _ => put_uint 2 0 end.

Lemma len_status c : len (status_bytes c) = 2.
Proof. unfold status_bytes. destruct (status_word c); by rewrite len_put_uint. Qed.

Lemma status_encodes c : status_wf c → encodes c (status_bytes c).
Proof.
  intros Hc. destruct (status_word_spec c Hc) as (w & E & Hw & _).
  split; [rewrite len_status; by destruct c|]. intros buf Hb.
  assert (marshal_size c = 2) as S by (by destruct c). rewrite S in *.
  assert (marshal_to c buf = rbind (status_word c) (λ dst, rbind (put_u16 dst (Wbuf [] buf)) (finish 2))) as -> by (by destruct c).
  unfold status_bytes. rewrite E. cbn [rbind]. apply finish_put. rewrite len_put_uint. lia.
Qed.

(** ** Deltas *)

Definition delta_wf (d : RecvDelta) : Prop :=
  ∃ k, delta d = 250 * k ∧
    ((type_tcc_packet d = PacketReceivedSmallDelta ∧ 0 <= k <= 255) ∨
     (type_tcc_packet d = PacketReceivedLargeDelta ∧ -32768 <= k <= 32767)).

Definition delta_bytes (d : RecvDelta) : bytes :=
  if bool_decide (type_tcc_packet d = PacketReceivedSmallDelta) then put_uint 1 (delta d / 250)
  else put_uint 2 (u16 (delta d / 250)).

Definition delta_len (d : RecvDelta) : Z :=
  if bool_decide (type_tcc_packet d = PacketReceivedSmallDelta) then 1 else 2.

Lemma len_delta d : len (delta_bytes d) = delta_len d.
Proof. unfold delta_bytes, delta_len. destruct (bool_decide _); by rewrite len_put_uint. Qed.

Lemma quot_scale k : Z.quot (250 * k) TYPE_TCC_DELTA_SCALE_FACTOR = k.
Proof. rewrite Z.mul_comm. apply Z.quot_mul. done. Qed.

Lemma div_scale k : 250 * k / 250 = k.
Proof. rewrite Z.mul_comm. by apply Z.div_mul. Qed.

Lemma delta_encodes d : delta_wf d → encodes d (delta_bytes d).
Proof.
  destruct d as [t x]. unfold delta_wf, encodes, marshal_size, recv_delta_size, marshal_to, recv_delta_marshal_to, delta_bytes.
  cbn [type_tcc_packet delta]. intros (k & -> & [[-> Hk]|[-> Hk]]).
  - rewrite quot_scale, div_scale. rewrite !(bool_decide_true (PacketReceivedSmallDelta = _)) by done.
    rewrite !(proj2 (Z.leb_le _ _)) by lia. cbn [andb]. rewrite len_put_uint. split; [done|]. intros buf Hb.
    rewrite (proj2 (Z.leb_le _ _)) by lia. rewrite wrap_small by (unfold fits; lia).
    apply finish_put. rewrite len_put_uint. lia.
  - rewrite quot_scale, div_scale.
    rewrite !(bool_decide_false (PacketReceivedLargeDelta = PacketReceivedSmallDelta)), !(bool_decide_true (PacketReceivedLargeDelta = PacketReceivedLargeDelta)) by done.
    rewrite !(proj2 (Z.leb_le (-32768) _)), !(proj2 (Z.leb_le _ 32767)) by lia. cbn [andb].
    rewrite len_put_uint. split; [done|]. intros buf Hb.
    rewrite (proj2 (Z.leb_le _ _)) by lia. apply finish_put. rewrite len_put_uint. lia.
Qed.

Lemma signed16_u16 k : -32768 <= k <= 32767 → signed 16 (u16 k) = k.
Proof.
  intros Hk. unfold signed. rewrite (wrap_small 16 (u16 k)) by (apply wrap_fits; lia). unfold wrap.
  change (2 ^ 16) with 65536. change (2 ^ (16 - 1)) with 32768.
  destruct (Z.lt_ge_cases k 0).
  - replace (k mod 65536) with (k + 65536) by (apply Z.mod_unique with (-1); lia).
    destruct (Z.ltb_spec (k + 65536) 32768); lia.
  - rewrite Z.mod_small by lia. destruct (Z.ltb_spec k 32768); lia.
Qed.

Lemma delta_take d r :
  delta_wf d → take_delta (Z.to_nat (delta_len d)) (delta_bytes d ++ r) = Ok (d, r).
Proof.
  destruct d as [t x]. intros (k & E & Hk). cbn [delta type_tcc_packet] in *. subst x.
  unfold take_delta. rewrite take_app_length', drop_app_length' by (rewrite <- len_delta; unfold len; lia).
  unfold recv_delta_unmarshal. rewrite len_delta. unfold delta_len, delta_bytes. cbn [type_tcc_packet delta].
  rewrite div_scale. destruct Hk as [[-> Hk]|[-> Hk]].
  - rewrite bool_decide_true by done. cbn [Z.eqb Pos.eqb negb andb]. unfold get_u8.
    rewrite <- (app_nil_r (put_uint 1 k)), get_put_uint by (unfold fits; simpl; lia). done.
  - rewrite bool_decide_false by done. cbn [Z.eqb Pos.eqb negb andb]. unfold get_u16.
    rewrite <- (app_nil_r (put_uint 2 _)), get_put_uint by (apply wrap_fits; lia). cbn [rbind].
    by rewrite signed16_u16.
Qed.

Lemma delta_type d : delta_wf d → delta_len d = 1 ∧ type_tcc_packet d = PacketReceivedSmallDelta ∨ delta_len d = 2 ∧ type_tcc_packet d = PacketReceivedLargeDelta.
Proof. intros (k & _ & [[E _]|[E _]]); unfold delta_len; rewrite E; auto. Qed.

Lemma read_deltas_app ds pos total r :
  Forall delta_wf ds → pos + len (concat (delta_bytes <$> ds)) <= total →
  read_deltas (type_tcc_packet <$> ds) pos total (concat (delta_bytes <$> ds) ++ r) = Ok (ds, r).
Proof.
  intros Hw. revert pos. induction Hw as [|d ds Hd Hds IH]; intros pos Hp; [done|]. csimpl in Hp.
  rewrite len_app, len_delta in Hp. pose proof (len_nonneg (concat (delta_bytes <$> ds))).
  cbn [fmap list_fmap concat read_deltas]. rewrite <- app_assoc. pose proof (delta_take d) as T.
  destruct (delta_type d Hd) as [[L E]|[L E]]; rewrite L in *; rewrite E.
  - rewrite (proj2 (Z.leb_gt _ _)) by lia. rewrite bool_decide_true by done. change 1%nat with (Z.to_nat 1).
    rewrite T by done. cbn [rbind]. rewrite E, bool_decide_false by done. cbn [rbind]. rewrite IH by lia. done.
  - rewrite (proj2 (Z.leb_gt _ _)) by lia. rewrite bool_decide_false by done. cbn [rbind type_tcc_packet].
    rewrite bool_decide_true by done. change 2%nat with (Z.to_nat 2). rewrite T by done. cbn [rbind].
    rewrite IH by lia. done.
Qed.

(** ** Status chunks *)

(** What a chunk adds: the deltas it announces and the packets it accounts for. *)
Definition status_step (status_count processed : Z) (c : PacketStatusChunk) : list SymbolTypeTcc * Z :=
  match c with
  | RunLength c =>
      let n := Z.min (status_count - processed) (run_length c) in
      (run_deltas (packet_status_symbol c) n, saturating_add16 processed n)
  | StatusVector c => (vector_deltas c, saturating_add16 processed (u16 (len (symbol_list c))))
  end.

(** The chunks account for all packets, the last one is needed, and these are the deltas. *)
Fixpoint announced (status_count processed : Z) (cs : list PacketStatusChunk) : option (list SymbolTypeTcc) :=
  match cs with
  | [] => if processed <? status_count then None else Some []
  | c :: cs =>
      if processed <? status_count then
        let '(types, processed) := status_step status_count processed c in
        (types ++.) <$> announced status_count processed cs
      else None
  end.

Lemma read_status_app cs status_count processed pos total r types fuel :
  Forall status_wf cs → announced status_count processed cs = Some types →
  pos + 2 * len cs < total → len cs < Z.of_nat fuel →
  read_status fuel status_count processed pos total (concat (status_bytes <$> cs) ++ r) =
    Ok (cs, types, pos + 2 * len cs, r).
Proof.
  intros Hw. revert processed pos types fuel.
  induction Hw as [|c cs Hc Hcs IH]; intros processed pos types [|fuel] Ha Hp Hf;
    try (unfold len in Hf; simpl in Hf; lia); cbn [announced read_status] in *.
  - destruct (processed <? status_count); [done|]. simplify_eq. change (len []) with 0. by rewrite Z.mul_0_r, Z.add_0_r.
  - destruct (processed <? status_count); [|done]. rewrite len_cons in *. pose proof (len_nonneg cs).
    rewrite (proj2 (Z.leb_gt _ _)) by (unfold PACKET_STATUS_CHUNK_LENGTH; lia). csimpl. rewrite <- app_assoc.
    destruct (status_step status_count processed c) as [ts pr] eqn:Es.
    destruct (announced status_count pr cs) as [ts'|] eqn:Ea; [|done]. injection Ha as <-.
    destruct (status_word_spec c Hc) as (w & Ew & Hwf & D). unfold status_bytes at 1. rewrite Ew.
    assert (∀ x, copy_to_bytes PACKET_STATUS_CHUNK_LENGTH (put_uint 2 w ++ x) = Ok (put_uint 2 w, x)) as ->
      by (intros x; rewrite <- copy_to_bytes_app; f_equal; by rewrite len_put_uint). cbn [rbind].
    unfold fits in Hwf. change (2 ^ 16) with 65536 in Hwf.
    assert (byte_ok (w / 256)) as Hb0 by (unfold fits; split; [apply Z.div_pos|apply Z.div_lt_upper_bound]; lia).
    assert (byte_ok (w mod 256)) as Hb1 by (pose proof (Z.mod_pos_bound w 256); unfold fits; lia).
    rewrite put_uint_2, !put_uint_1 by done. cbn [app].
    change (index [w / 256; w mod 256] 0) with (Ok (w / 256)). cbn [rbind].
    unfold run_length_unmarshal, status_vector_unmarshal. change (len [w / 256; w mod 256] <? PACKET_STATUS_CHUNK_LENGTH) with false.
    cbv iota. rewrite (get_u8_cons (w / 256)) by done. cbn [rbind]. rewrite (get_u8_cons (w mod 256)) by done. cbn [rbind].
    rewrite <- D in Es |- *. unfold status_of in *.
    destruct (chunk_type_from _); cbn [status_step rbind] in *; simplify_eq; rewrite (IH _ _ _ _ Ea) by (unfold PACKET_STATUS_CHUNK_LENGTH; lia); cbn [rbind];
      by replace (pos + PACKET_STATUS_CHUNK_LENGTH + 2 * len cs) with (pos + 2 * (1 + len cs)) by (unfold PACKET_STATUS_CHUNK_LENGTH; lia).
Qed.

Lemma read_status_post fuel status_count processed pos total raw :
  Forall byte_ok raw → total - pos <= len raw → len raw < Z.of_nat fuel →
  res_post (read_status fuel status_count processed pos total raw) (λ '(_, _, _, r), Forall byte_ok r).
Proof.
  revert processed pos raw. induction fuel as [|fuel IH]; intros processed pos raw Hr Hl Hf; [pose proof (len_nonneg raw); lia|].
  cbn [read_status]. unfold PACKET_STATUS_CHUNK_LENGTH. destruct (processed <? status_count); [|done].
  parse. destruct x as [|b0 [|b1 []]]; unfold len in H1; simpl in H1; try lia.
  apply Forall_cons in H0 as [Hb0 [Hb1 _]%Forall_cons].
  change (index [b0; b1] 0) with (Ok b0). cbn [rbind].
  unfold run_length_unmarshal, status_vector_unmarshal. change (len [b0; b1] <? PACKET_STATUS_CHUNK_LENGTH) with false.
  cbv iota. rewrite (get_u8_cons b0) by done. cbn [rbind]. rewrite (get_u8_cons b1) by done. cbn [rbind].
  assert (∀ pr, res_post (read_status fuel status_count pr (pos + 2) total r) (λ '(_, _, _, r), Forall byte_ok r)) as HI
    by (intros; apply IH; [done|lia|lia]).
  destruct (chunk_type_from _); cbn [rbind]; (eapply res_post_bind; [apply HI|]); by intros [[[??]?]?].
Qed.

Lemma take_delta_post n raw :
  Forall byte_ok raw → res_post (take_delta n raw) (λ '(_, r), Forall byte_ok r).
Proof.
  intros Hr. unfold take_delta. eapply (res_post_bind _ _ (λ '(_, r), Forall byte_ok r)).
  - pose proof (Forall_take _ n _ Hr). unfold recv_delta_unmarshal. cbv zeta. parse_step; [done|].
    parse_step; parse; simpl; try done.
  - intros [d r] Hr1. simpl. apply Forall_app. split; [done|by apply Forall_drop].
Qed.

Lemma read_deltas_post types pos total raw :
  Forall byte_ok raw → res_post (read_deltas types pos total raw) (λ _, True).
Proof.
  revert pos raw. induction types as [|t types IH]; intros pos raw Hr; [done|]. cbn [read_deltas].
  parse_step; [done|]. clear Hc.
  apply (res_post_bind _ _ (λ '(_, _, r), Forall byte_ok r)).
  { parse_step; [|done]. eapply res_post_bind; [by apply take_delta_post|]. by intros [??]. }
  intros [[d pos1] r1] Hr1. apply (res_post_bind _ _ (λ '(_, _, r), Forall byte_ok r)).
  { parse_step; [|done]. eapply res_post_bind; [by apply take_delta_post|]. by intros [??]. }
  intros [[d2 pos2] r2] Hr2. eapply res_post_bind; [by apply IH|]. by intros [??].
Qed.

(** ** Packets *)

Definition tcc_wf (p : TransportLayerCc) : Prop :=
  fits 32 (tcc_sender_ssrc p) ∧ fits 32 (tcc_media_ssrc p) ∧ fits 16 (base_sequence_number p) ∧
  fits 16 (packet_status_count p) ∧ fits 24 (reference_time p) ∧ byte_ok (fb_pkt_count p) ∧
  Forall status_wf (packet_chunks p) ∧ Forall delta_wf (recv_deltas p) ∧
  announced (packet_status_count p) 0 (packet_chunks p) = Some (type_tcc_packet <$> recv_deltas p) ∧
  20 + 2 * len (packet_chunks p) < aligned_size p ∧ raw_size p <= 262136.

Definition tcc_body (p : TransportLayerCc) : bytes :=
  put_uint 4 (tcc_sender_ssrc p) ++ put_uint 4 (tcc_media_ssrc p) ++ put_uint 2 (base_sequence_number p) ++
  put_uint 2 (packet_status_count p) ++ put_uint 4 (reference_time p * 256 + fb_pkt_count p) ++
  concat (status_bytes <$> packet_chunks p) ++ concat (delta_bytes <$> recv_deltas p).

Lemma tcc_raw_size p :
  raw_size p = 20 + 2 * len (packet_chunks p) + len (concat (delta_bytes <$> recv_deltas p)).
Proof.
  cbn. unfold RTCP_HEADER_LENGTH, PACKET_CHUNK_OFFSET.
  enough (∀ n, foldl (λ n d, if bool_decide (type_tcc_packet d = PacketReceivedSmallDelta) then n + 1 else n + 2) n (recv_deltas p) =
               n + len (concat (delta_bytes <$> recv_deltas p))) as -> by lia.
  induction (recv_deltas p) as [|d ds IH]; intros n; [csimpl; change (len []) with 0; lia|].
  cbn [foldl]. csimpl. rewrite IH, len_app, len_delta. unfold delta_len. destruct (bool_decide _); lia.
Qed.

Lemma len_tcc_body p : len (tcc_body p) = raw_size p - 4.
Proof.
  rewrite tcc_raw_size. unfold tcc_body. rewrite !len_app, (len_concat_fixed status_bytes 2) by apply len_status.
  autorewrite with len. lia.
Qed.

Lemma reference_word t f :
  fits 24 t → byte_ok f → append_nbits_to_uint32 (append_nbits_to_uint32 0 24 t) 8 f = t * 256 + f.
Proof.
  intros Ht Hf. unfold append_nbits_to_uint32. rewrite Z.shiftl_0_l. change (Z.shiftr 0xFFFFFFFF (32 - 24)) with (Z.ones 24).
  change (Z.shiftr 0xFFFFFFFF (32 - 8)) with (Z.ones 8). rewrite !Z.land_ones by lia. rewrite !(Z.mod_small _ (2 ^ _)) by done.
  change (u32 0) with 0. rewrite Z.lor_0_l. unfold fits in Ht, Hf. rewrite wrap_small.
  - by rewrite lor_shiftl_add by (done || lia).
  - unfold fits. rewrite Z.shiftl_mul_pow2 by lia. lia.
Qed.

Lemma tcc_encodes p : tcc_wf p → encodes p (frame p (tcc_body p)).
Proof.
  intros (_ & _ & _ & _ & Ht & Hf & Hs & Hd & _). pose proof (len_frame p _ (len_tcc_body p)) as L.
  encode_frame p L ltac:(unfold marshal_to, tcc_marshal_to) idtac.
  pose proof (tcc_raw_size p). pose proof (len_nonneg (packet_chunks p)). pose proof (len_nonneg (concat (delta_bytes <$> recv_deltas p))).
  rewrite reference_word by done. rewrite put_header by (done || (cbn [room]; lia)).
  unfold frame, tcc_body. rewrite <- !app_assoc.
  apply put_step_room; [autorewrite with len; cbn [room]; lia|]. intros w1 L1. autorewrite with len in L1. cbn [room] in L1.
  do 5 (apply put_step_room; [autorewrite with len; lia|]; intros ? ?; autorewrite with len in * ).
  assert (len (concat (status_bytes <$> packet_chunks p)) = 2 * len (packet_chunks p)) as LS
    by (apply len_concat_fixed, len_status).
  rewrite (put_all_encoded status_bytes).
  2:{ intros c Hin. apply status_encodes. rewrite Forall_forall in Hs. by apply Hs. }
  2:{ lia. }
  apply put_step_room; [lia|]. intros ? ?.
  rewrite (put_all_encoded delta_bytes).
  2:{ intros c Hin. apply delta_encodes. rewrite Forall_forall in Hd. by apply Hd. }
  2:{ lia. }
  apply put_step. intros. cbn [header tcc_packet body_header rtcp_padding]. by rewrite put_padding_if.
Qed.

Lemma reference_read t f r :
  fits 24 t → byte_ok f →
  ∃ t0 t1 t2, put_uint 4 (t * 256 + f) ++ r = put_uint 1 t0 ++ put_uint 1 t1 ++ put_uint 1 t2 ++ put_uint 1 f ++ r ∧
    byte_ok t0 ∧ byte_ok t1 ∧ byte_ok t2 ∧ get_24bits_from_bytes t0 t1 t2 = t.
Proof.
  intros Ht Hf. unfold fits in Ht, Hf. change (2 ^ 24) with 16777216 in Ht. change (2 ^ 8) with 256 in Hf.
  exists (t / 256 / 256), (t / 256 mod 256), (t mod 256).
  assert ((t * 256 + f) / 256 = t) as E1 by (rewrite Z.div_add_l, Z.div_small by lia; lia).
  assert ((t * 256 + f) mod 256 = f) as E2 by (rewrite Z.add_comm, Z.mod_add, Z.mod_small by lia; done).
  split_and!.
  - rewrite (put_uint_S 3), E1, E2, (put_uint_S 2), (put_uint_S 1). by rewrite <- !app_assoc.
  - unfold fits. rewrite Z.div_div by lia. split; [apply Z.div_pos|apply Z.div_lt_upper_bound]; lia.
  - pose proof (Z.mod_pos_bound (t / 256) 256). unfold fits. lia.
  - pose proof (Z.mod_pos_bound t 256). unfold fits. lia.
  - unfold get_24bits_from_bytes. rewrite !Z.shiftl_mul_pow2 by lia. change (2 ^ 16) with 65536. change (2 ^ 8) with 256.
    rewrite wrap_small.
    + pose proof (Z_div_mod_eq_full t 256). pose proof (Z_div_mod_eq_full (t / 256) 256). lia.
    + pose proof (Z_div_mod_eq_full t 256). pose proof (Z_div_mod_eq_full (t / 256) 256). unfold fits. lia.
Qed.

Lemma tcc_read p : tcc_wf p → tcc_unmarshal (frame p (tcc_body p)) = Ok (p, []).
Proof.
  intros (H1 & H2 & H3 & H4 & Ht & Hf & Hs & Hd & Ha & Hgap & Hsz).
  pose proof (len_frame p _ (len_tcc_body p)) as L. pose proof (tcc_raw_size p) as RS.
  pose proof (len_nonneg (packet_chunks p)). pose proof (len_nonneg (concat (delta_bytes <$> recv_deltas p))).
  pose proof (padding_size_bounds (raw_size p)) as [Hp M].
  assert (4 * u16 (rtcp_length (header p) + 1) = aligned_size p) as LW.
  { cbn [header tcc_packet body_header rtcp_length]. change (foldl _ _ _) with (raw_size p).
    unfold aligned_size. cbv zeta. rewrite (wrap_small 16 (_ / 4 - 1)), wrap_small; unfold fits; Z.div_mod_to_equations; lia. }
  unfold tcc_unmarshal, RTCP_HEADER_LENGTH, SSRC_LENGTH, PACKET_CHUNK_OFFSET. cbv zeta. rewrite L.
  assert (raw_size p <= aligned_size p) by (unfold aligned_size; lia).
  rewrite (proj2 (Z.ltb_ge _ (4 + 4))) by lia. unfold frame.
  rewrite rtcp_header_read by (done || by apply wrap_fits). cbn [rbind]. rewrite LW.
  rewrite (proj2 (Z.ltb_ge _ (4 + 16))), (proj2 (Z.ltb_ge (aligned_size p) _)) by lia.
  assert (wrong_type (header p) TransportSpecificFeedback FORMAT_TCC = false) as -> by apply wrong_type_refl.
  unfold tcc_body, get_u32, get_u16, get_u8. rewrite <- !app_assoc.
  do 4 (rewrite get_put_uint by done; cbn [rbind]).
  destruct (reference_read (reference_time p) (fb_pkt_count p)
    (concat (status_bytes <$> packet_chunks p) ++ concat (delta_bytes <$> recv_deltas p) ++ padding_bytes (raw_size p)) Ht Hf)
    as (t0 & t1 & t2 & -> & B0 & B1 & B2 & T).
  do 4 (rewrite get_put_uint by done; cbn [rbind]). rewrite T.
  rewrite (read_status_app _ _ _ _ _ _ _ _ Hs Ha); [|lia|].
  2:{ rewrite length_app. pose proof (len_concat_fixed status_bytes 2 (packet_chunks p) len_status). unfold len in *. lia. }
  cbn [rbind]. rewrite read_deltas_app by (done || lia). cbn [rbind]. by destruct p.
Qed.

Lemma tcc_post raw : Forall byte_ok raw → res_post (tcc_unmarshal raw) (left_of 4 raw).
Proof.
  intros Hr. unfold tcc_unmarshal, RTCP_HEADER_LENGTH, SSRC_LENGTH, PACKET_CHUNK_OFFSET. cbv zeta.
  parse_step; [done|]. bool_facts. eapply res_post_bind; [by apply rtcp_header_post|].
  intros [h r] (Hn & Hl & Hr1 & L1). parse.
  eapply res_post_bind; [apply read_status_post; [done|lia|unfold len; lia]|].
  intros [[[cs ts] pos] r9] Hr9. eapply res_post_bind; [by apply read_deltas_post|].
  intros [ds r10] _. simpl. split; [done|]. change (len []) with 0. lia.
Qed.

End TccLemmas.

(** ** Where feedback does not come back *)

Import BigEndian.

(** The status loop wants a byte after the last chunk: feedback that reports only losses, with
    an even number of chunks and so without padding, is marshalled but refused when read. *)
Lemma feedback_without_deltas_refused :
  let c := RunLength (mkRunLength TypeRunLengthChunk PacketNotReceived 7) in
  let p := mkTcc 1 2 100 14 5 0 [c; c] [] in
  match marshal p with
  | Ok bs => len bs = 24 ∧ tcc_unmarshal bs = Err PacketTooShort
  | _ => False
  end.
Proof. vm_compute. split; reflexivity. Qed.

(** A large delta of which only one byte is left is read as a small one. *)
Lemma truncated_delta_read_as_small :
  read_deltas [PacketReceivedLargeDelta] 22 23 [4] = Ok ([mkRecvDelta PacketReceivedSmallDelta 1000], []).
Proof. vm_compute. reflexivity. Qed.
