(* ===== verification/RtcpRemb.v ===== *)
(** Receiver estimated maximum bitrate:
    [rtc-rtcp/src/payload_feedbacks/receiver_estimated_maximum_bitrate].

    The bitrate is an [f32], modelled by the standard library's IEEE 754 floats at precision
    24 and maximal exponent 128.  [remb_bitrate_read]: the bitrate that is read is the one
    that was written, rounded down to 18 significant bits and to an integer. *)

From Stdlib Require Import SpecFloat.
From S2P Require Import Prelude Codec Rtcp RtcpReport RtcpFeedback.

(** * [f32] *)

Abbreviation f32 := spec_float.

Definition f32_div (x y : f32) : f32 := SFdiv 24 128 x y.

(** [f32::from_bits] *)
Definition f32_from_bits (bits : Z) : f32 :=
  let s := Z.testbit bits 31 in
  let e := Z.land (Z.shiftr bits 23) 0xFF in
  let m := Z.land bits 0x7FFFFF in
  if e =? 255 then (if m =? 0 then S754_infinity s else S754_nan)
  else if e =? 0 then (match m with Zpos p => S754_finite s p (-149) | _ => S754_zero s end)
  else match m + 0x800000 with Zpos p => S754_finite s p (e - 150) | _ => S754_nan end.

(** [x.floor() as u32] *)
Definition f32_floor_u32 (x : f32) : Z :=
  match x with
  | S754_finite false m e => Z.min 4294967295 (if 0 <=? e then Zpos m * 2 ^ e else Zpos m / 2 ^ (- e))
  | S754_infinity false => 4294967295
  | _ => 0
  end.

(** The constants [2.0], [(1 << 18) as f32] and [BITRATE_MAX], which is [0x3FFFFp+63]. *)
Definition f32_two : f32 := S754_finite false 8388608 (-22).
Definition f32_2p18 : f32 := S754_finite false 8388608 (-5).
Definition BITRATE_MAX : f32 := S754_finite false 16777152 57.

(** * The packet *)

Record ReceiverEstimatedMaximumBitrate := mkRemb {
  remb_sender_ssrc : Z;
  bitrate : f32;
  ssrcs : list Z
}.

Definition REMB_OFFSET : Z := 16.
Definition SSRC_ENTRY_OFFSET : Z := 20.
Definition UNIQUE_IDENTIFIER : bytes := [82; 69; 77; 66].

#[export] Instance remb_packet : Packet ReceiverEstimatedMaximumBitrate :=
  let raw_size p := RTCP_HEADER_LENGTH + REMB_OFFSET + len (ssrcs p) * 4 in
  {|
    header p := body_header (raw_size p) FORMAT_REMB PayloadSpecificFeedback;
    destination_ssrc p := ssrcs p;
    raw_size := raw_size
  |}.

#[export] Instance remb_size : MarshalSize ReceiverEstimatedMaximumBitrate := aligned_size.

(** [while bitrate >= (1 << 18) as f32 { bitrate /= 2.0; exp += 1; }] *)
Fixpoint remb_scale (fuel : nat) (rate : f32) (exp : Z) : res (f32 * Z) :=
  match fuel with
  | O => Panic
  | S fuel =>
      if SFleb f32_2p18 rate then remb_scale fuel (f32_div rate f32_two) (exp + 1) else Ok (rate, exp)
  end.

(** The exponent and mantissa of a bitrate. *)
Definition remb_encode (rate : f32) : res (Z * Z) :=
  let rate := if SFleb BITRATE_MAX rate then BITRATE_MAX else rate in
  if SFltb rate (S754_zero false) then Err InvalidBitrate
  else
    let! (rate, exp) := remb_scale 65 rate 0 in
    if Z.shiftl 1 6 <=? exp then Err InvalidBitrate
    else Ok (exp, f32_floor_u32 rate).

(** [while (mantissa & (MANTISSA_MAX + 1)) == 0 { exp -= 1; mantissa *= 2; }] *)
Fixpoint remb_normalise (fuel : nat) (exp mantissa : Z) : res (Z * Z) :=
  match fuel with
  | O => Panic
  | S fuel =>
      if Z.land mantissa 0x800000 =? 0 then remb_normalise fuel (exp - 1) (u32 (mantissa * 2))
      else Ok (exp, mantissa)
  end.

(** The bitrate of an exponent and a mantissa. *)
Definition remb_decode (exp mantissa : Z) : res f32 :=
  let exp := exp + 127 + 23 in
  let! (exp, mantissa) := if negb (mantissa =? 0) then remb_normalise 24 exp mantissa else Ok (exp, mantissa) in
  Ok (f32_from_bits (Z.lor (u32 (Z.shiftl (u32 exp) 23)) (Z.land mantissa 0x7FFFFF))).

Section RembCodec.
Context {BC : BytesCrate}.

#[export] Instance remb_marshal_to : Marshal ReceiverEstimatedMaximumBitrate := λ p buf,
  if len buf <? marshal_size p then Err BufferTooShort
  else
    let h := header p in
    let! w := put_marshal h (Wbuf [] buf) in
    let! w := put_u32 (remb_sender_ssrc p) w in
    let! w := put_u32 0 w in
    let! w := put UNIQUE_IDENTIFIER w in
    let! w := put_u8 (u8 (len (ssrcs p))) w in
    let! (exp, mantissa) := remb_encode (bitrate p) in
    let! w := put_u8 (Z.lor (u8 (Z.shiftl exp 2)) (u8 (Z.shiftr mantissa 16))) w in
    let! w := put_u8 (u8 (Z.shiftr mantissa 8)) w in
    let! w := put_u8 (u8 mantissa) w in
    let! w := put_all put_u32 (ssrcs p) w in
    let! w := if rtcp_padding h then put_padding (raw_size p) w else Ok w in
    finish (marshal_size p) w.

Definition remb_unmarshal (raw : bytes) : res (ReceiverEstimatedMaximumBitrate * bytes) :=
  let raw_packet_len := len raw in
  if raw_packet_len <? SSRC_ENTRY_OFFSET then Err PacketTooShort
  else
    let! (h, raw) := rtcp_header_unmarshal raw in
    if wrong_type h PayloadSpecificFeedback FORMAT_REMB then Err WrongType
    else
      let! (sender_ssrc, raw) := get_u32 raw in
      let! (media_ssrc, raw) := get_u32 raw in
      if negb (media_ssrc =? 0) then Err SsrcMustBeZero
      else
        let! (i0, raw) := get_u8 raw in
        let! (i1, raw) := get_u8 raw in
        let! (i2, raw) := get_u8 raw in
        let! (i3, raw) := get_u8 raw in
        if negb (bool_decide ([i0; i1; i2; i3] = UNIQUE_IDENTIFIER)) then Err MissingRembIdentifier
        else
          let! (ssrcs_len, raw) := get_u8 raw in
          if raw_packet_len <? SSRC_ENTRY_OFFSET + ssrcs_len * 4 then Err PacketTooShort
          else
            let! (b17, raw) := get_u8 raw in
            let! (b18, raw) := get_u8 raw in
            let! (b19, raw) := get_u8 raw in
            let mantissa := Z.lor (Z.lor (Z.shiftl (Z.land b17 3) 16) (Z.shiftl b18 8)) b19 in
            let! rate := remb_decode (Z.shiftr b17 2) mantissa in
            let! (xs, raw) := read_n get_u32 (Z.to_nat ssrcs_len) raw in
            Ok (mkRemb sender_ssrc rate xs, []).

End RembCodec.

(** * Lemmas on the bitrate *)

Lemma digits2_pos_size p : digits2_pos p = Pos.size p.
Proof. induction p as [p IH|p IH|]; cbn; [by rewrite IH..|done]. Qed.

Lemma digits_24 m : 2 ^ 23 <= Zpos m < 2 ^ 24 → digits2_pos m = 24%positive.
Proof.
  intros Hm. rewrite digits2_pos_size. pose proof (Pos.size_gt m) as H1. pose proof (Pos.size_le m) as H2.
  assert (Zpos m < 2 ^ Zpos (Pos.size m)) as G1 by (rewrite <- Pos2Z.inj_pow; lia).
  assert (2 ^ Zpos (Pos.size m) <= 2 * Zpos m) as G2 by (rewrite <- Pos2Z.inj_pow; lia).
  assert (2 ^ 23 < 2 ^ Zpos (Pos.size m)) as G3%Z.pow_lt_mono_r_iff by lia; [|lia..].
  assert (2 ^ Zpos (Pos.size m) < 2 ^ 25) as G4%Z.pow_lt_mono_r_iff by lia; [|lia..]. lia.
Qed.

Lemma shr_fexp_exact m e :
  digits2_pos m = 24%positive → -149 <= e →
  shr_fexp 24 128 (Zpos m) e loc_Exact = ({| shr_m := Zpos m; shr_r := false; shr_s := false |}, e).
Proof.
  intros Hd He. unfold shr_fexp, fexp, emin. cbn [shr_record_of_loc Zdigits2]. rewrite Hd.
  replace (Z.max (24 + e - 24) (3 - 128 - 24) - e) with 0 by lia. done.
Qed.

(** Halving a normal number is exact. *)
Lemma f32_halve m e :
  2 ^ 23 <= Zpos m < 2 ^ 24 → -148 <= e <= 105 →
  f32_div (S754_finite false m e) f32_two = S754_finite false m (e - 1).
Proof.
  intros Hm He. pose proof (digits_24 m Hm) as Hd. unfold f32_div, SFdiv, f32_two, SFdiv_core_binary. cbv zeta.
  cbn [Zdigits2]. rewrite Hd. change (digits2_pos 8388608) with 24%positive. unfold fexp, emin.
  replace (Z.min (Z.max (24 + e - (24 + -22) - 24) (3 - 128 - 24)) (e - -22)) with (Z.max (e - 2) (-149)) by lia.
  destruct (Z.eq_dec e (-148)) as [->|Hne].
  - change (Z.max (-148 - 2) (-149)) with (-149). change (-148 - -22 - -149) with 23. cbv iota.
    rewrite Z.shiftl_mul_pow2 by lia.
    assert (Z.div_eucl (Zpos m * 2 ^ 23) 8388608 = (Zpos m, 0)) as ->.
    { rewrite (surjective_pairing (Z.div_eucl _ _)). change (fst (Z.div_eucl ?a ?b)) with (a / b). change (snd (Z.div_eucl ?a ?b)) with (a mod b).
      change 8388608 with (2 ^ 23). by rewrite Z.div_mul, Z.mod_mul. }
    change (new_location 8388608 0) with loc_Exact. unfold binary_round_aux.
    rewrite (shr_fexp_exact m) by (done || lia). cbn [shr_m loc_of_shr_record round_nearest_even].
    rewrite (shr_fexp_exact m) by (done || lia). done.
  - replace (Z.max (e - 2) (-149)) with (e - 2) by lia. replace (e - -22 - (e - 2)) with 24 by lia. cbv iota.
    rewrite Z.shiftl_mul_pow2 by lia.
    assert (Z.div_eucl (Zpos m * 2 ^ 24) 8388608 = (Zpos (xO m), 0)) as ->.
    { rewrite (surjective_pairing (Z.div_eucl _ _)). change (fst (Z.div_eucl ?a ?b)) with (a / b). change (snd (Z.div_eucl ?a ?b)) with (a mod b).
      replace (Zpos m * 2 ^ 24) with (Zpos (xO m) * 2 ^ 23) by lia. change 8388608 with (2 ^ 23). by rewrite Z.div_mul, Z.mod_mul. }
    change (new_location 8388608 0) with loc_Exact. unfold binary_round_aux.
    assert (shr_fexp 24 128 (Zpos (xO m)) (e - 2) loc_Exact = ({| shr_m := Zpos m; shr_r := false; shr_s := false |}, e - 1)) as ->.
    { unfold shr_fexp, fexp, emin. cbn [shr_record_of_loc Zdigits2 digits2_pos]. rewrite Hd. change (Z.pos (Pos.succ 24)) with 25.
      replace (Z.max (25 + (e - 2) - 24) (3 - 128 - 24) - (e - 2)) with 1 by lia. cbn [shr Pos.iter shr_1 orb]. f_equal. lia. }
    cbn [shr_m loc_of_shr_record round_nearest_even]. rewrite (shr_fexp_exact m) by (done || lia).
    cbn [shr_m]. rewrite (proj2 (Z.leb_le _ _)) by lia. done.
Qed.

Lemma f32_2p18_le m e :
  2 ^ 23 <= Zpos m → SFleb f32_2p18 (S754_finite false m e) = (-5 <=? e).
Proof.
  intros Hm. unfold SFleb, SFcompare, f32_2p18. cbv iota.
  destruct (Z.compare_spec (-5) e) as [<-|H|H]; [|destruct (Z.leb_spec (-5) e); lia || done..].
  change (Pos.compare_cont Eq 8388608 m) with (8388608 ?= m)%positive.
  destruct (Pos.compare_spec 8388608 m); [done..|]. lia.
Qed.

(** The scaling loop ends with an exponent below [2^18]. *)
Lemma remb_scale_spec fuel m e exp :
  2 ^ 23 <= Zpos m < 2 ^ 24 → -23 <= e <= 57 → e + 6 < Z.of_nat fuel → (0 < fuel)%nat →
  remb_scale fuel (S754_finite false m e) exp =
    Ok (S754_finite false m (Z.min e (-6)), exp + Z.max 0 (e + 6)).
Proof.
  intros Hm. revert e exp. induction fuel as [|fuel IH]; intros e exp He Hf H0; [lia|]. cbn [remb_scale].
  rewrite f32_2p18_le by lia. destruct (Z.leb_spec (-5) e).
  - rewrite f32_halve by lia. rewrite IH by lia.
    replace (Z.min (e - 1) (-6)) with (Z.min e (-6)) by lia.
    by replace (exp + 1 + Z.max 0 (e - 1 + 6)) with (exp + Z.max 0 (e + 6)) by lia.
  - replace (Z.min e (-6)) with e by lia. by replace (exp + Z.max 0 (e + 6)) with exp by lia.
Qed.

(** A positive bitrate of at least one that is not above the maximum. *)
Definition rate_ok (m : positive) (e : Z) : Prop :=
  2 ^ 23 <= Zpos m < 2 ^ 24 ∧ -23 <= e <= 57 ∧ (e = 57 → Zpos m <= 16777152).

(** The number of low bits of the significand that are lost. *)
Definition lost_bits (e : Z) : Z := Z.max 6 (- e).

Lemma remb_encode_spec m e :
  rate_ok m e →
  remb_encode (S754_finite false m e) = Ok (Z.max 0 (e + 6), Zpos m / 2 ^ lost_bits e).
Proof.
  intros (Hm & He & Hmax). unfold remb_encode.
  assert ((if SFleb BITRATE_MAX (S754_finite false m e) then BITRATE_MAX else S754_finite false m e) =
          S754_finite false m e) as ->.
  { unfold SFleb, SFcompare, BITRATE_MAX. cbv iota. destruct (Z.compare_spec 57 e) as [<-|?|?]; [|lia|done].
    change (Pos.compare_cont Eq 16777152 m) with (16777152 ?= m)%positive.
    destruct (Pos.compare_spec 16777152 m); [congruence|lia|done]. }
  change (SFltb (S754_finite false m e) (S754_zero false)) with false. cbv zeta iota.
  rewrite remb_scale_spec by lia. cbn [rbind]. rewrite Z.add_0_l.
  rewrite (proj2 (Z.leb_gt _ _)) by (change (Z.shiftl 1 6) with 64; lia). f_equal. f_equal.
  unfold f32_floor_u32. rewrite (proj2 (Z.leb_gt 0 _)) by lia.
  replace (- Z.min e (-6)) with (lost_bits e) by (unfold lost_bits; lia).
  rewrite Z.min_r; [done|]. apply Z.le_trans with (Zpos m); [|lia].
  apply Z.div_le_upper_bound; [apply Z.pow_pos_nonneg; unfold lost_bits; lia|].
  assert (1 <= 2 ^ lost_bits e) by (pose proof (Z.pow_pos_nonneg 2 (lost_bits e)); unfold lost_bits in *; lia). nia.
Qed.

Lemma bit23 x : 0 <= x < 2 ^ 24 → (Z.land x 0x800000 =? 0) = (x <? 2 ^ 23).
Proof.
  intros Hx. change 0x800000 with (Z.shiftl 1 23). rewrite land_single by lia.
  rewrite Z.testbit_odd, Z.shiftr_div_pow2 by lia. destruct (Z.ltb_spec x (2 ^ 23)).
  - by rewrite Z.div_small by lia.
  - replace (x / 2 ^ 23) with 1; [done|]. apply (Z.div_unique _ _ _ (x - 2 ^ 23)); lia.
Qed.

Lemma remb_normalise_spec fuel exp x k :
  0 < x → 0 <= k < Z.of_nat fuel → 2 ^ 23 <= x * 2 ^ k < 2 ^ 24 →
  remb_normalise fuel exp x = Ok (exp - k, x * 2 ^ k).
Proof.
  revert exp x k. induction fuel as [|fuel IH]; intros exp x k Hx Hk Hb; [lia|]. cbn [remb_normalise].
  assert (0 < 2 ^ k) by (apply Z.pow_pos_nonneg; lia).
  rewrite bit23 by nia. destruct (Z.eq_dec k 0) as [->|Hne].
  - rewrite Z.pow_0_r, Z.mul_1_r, Z.sub_0_r in *. by rewrite (proj2 (Z.ltb_ge _ _)) by lia.
  - assert (2 ^ k = 2 * 2 ^ (k - 1)) as E by (rewrite <- Z.pow_succ_r by lia; f_equal; lia).
    assert (0 < 2 ^ (k - 1)) by (apply Z.pow_pos_nonneg; lia). rewrite E in Hb.
    rewrite (proj2 (Z.ltb_lt _ _)) by nia.
    rewrite wrap_small by (unfold fits; nia). rewrite (IH _ _ (k - 1)) by (lia || nia). rewrite E. f_equal. f_equal; lia.
Qed.

(** The significand that is left. *)
Definition kept (m : positive) (e : Z) : Z := Zpos m / 2 ^ lost_bits e * 2 ^ lost_bits e.

Lemma kept_bounds m e : rate_ok m e → 2 ^ 23 <= kept m e <= Zpos m ∧ 1 <= Zpos m / 2 ^ lost_bits e < 2 ^ 18.
Proof.
  intros (Hm & He & _). unfold kept. set (k := lost_bits e). assert (6 <= k <= 23) as Hk by (subst k; unfold lost_bits; lia).
  assert (0 < 2 ^ k) as Hp by (apply Z.pow_pos_nonneg; lia).
  assert (2 ^ 23 = 2 ^ (23 - k) * 2 ^ k) as E by (rewrite <- Z.pow_add_r by lia; f_equal; lia).
  assert (2 ^ (23 - k) <= Zpos m / 2 ^ k) as H1 by (apply Z.div_le_lower_bound; lia).
  assert (1 <= 2 ^ (23 - k)) by (pose proof (Z.pow_pos_nonneg 2 (23 - k)); lia).
  pose proof (Z.mul_div_le (Zpos m) (2 ^ k) Hp). split; [nia|]. split; [lia|].
  apply Z.div_lt_upper_bound; [lia|]. assert (2 ^ 6 <= 2 ^ k) by (apply Z.pow_le_mono_r; lia). lia.
Qed.

Lemma f32_from_bits_normal x e :
  2 ^ 23 <= x < 2 ^ 24 → -149 <= e <= 104 →
  f32_from_bits (Z.lor (u32 (Z.shiftl (u32 (e + 150)) 23)) (Z.land x 0x7FFFFF)) = S754_finite false (Z.to_pos x) e.
Proof.
  intros Hx He. rewrite (wrap_small 32 (e + 150)) by (unfold fits; lia).
  rewrite wrap_small by (unfold fits; rewrite Z.shiftl_mul_pow2 by lia; lia).
  change 0x7FFFFF with (Z.ones 23). rewrite Z.land_ones by lia.
  assert (x mod 2 ^ 23 = x - 2 ^ 23) as -> by (symmetry; apply (Z.mod_unique _ _ 1); lia).
  rewrite lor_shiftl_add by (unfold fits; lia).
  set (y := x - 2 ^ 23). assert (0 <= y < 2 ^ 23) as Hy by (subst y; lia).
  unfold f32_from_bits. cbv zeta.
  change 0xFF with (Z.ones 8). change 0x7FFFFF with (Z.ones 23). rewrite field_mod, Z.land_ones by lia.
  assert (((e + 150) * 2 ^ 23 + y) / 2 ^ 23 = e + 150) as -> by (rewrite Z.div_add_l, Z.div_small by lia; lia).
  assert (((e + 150) * 2 ^ 23 + y) mod 2 ^ 23 = y) as -> by (rewrite Z.add_comm, Z.mod_add, Z.mod_small by lia; done).
  rewrite Z.mod_small by lia. rewrite (proj2 (Z.eqb_neq _ 255)), (proj2 (Z.eqb_neq _ 0)) by lia.
  assert (Z.testbit ((e + 150) * 2 ^ 23 + y) 31 = false) as ->.
  { apply (testbit_fits 31); [unfold fits; lia|lia..]. }
  replace (y + 0x800000) with x by (subst y; lia). replace (e + 150 - 150) with e by lia.
  destruct x; [lia|done|lia].
Qed.

Lemma remb_decode_spec m e :
  rate_ok m e →
  remb_decode (Z.max 0 (e + 6)) (Zpos m / 2 ^ lost_bits e) = Ok (S754_finite false (Z.to_pos (kept m e)) e).
Proof.
  intros Hr. destruct (kept_bounds m e Hr) as [Hk Hq]. destruct Hr as (Hm & He & _). unfold remb_decode. cbv zeta.
  rewrite (proj2 (Z.eqb_neq _ 0)) by lia. cbn [negb].
  rewrite (remb_normalise_spec _ _ _ (lost_bits e)) by (unfold kept, lost_bits in *; lia). cbn [rbind].
  fold (kept m e). replace (Z.max 0 (e + 6) + 127 + 23 - lost_bits e) with (e + 150) by (unfold lost_bits; lia).
  by rewrite f32_from_bits_normal by lia.
Qed.

Section RembLemmas.
Context {BC : BytesCrate}.

(** ** The packet *)

Definition remb_body (p : ReceiverEstimatedMaximumBitrate) (exp x : Z) : bytes :=
  put_uint 4 (remb_sender_ssrc p) ++ put_uint 4 0 ++ UNIQUE_IDENTIFIER ++ put_uint 1 (len (ssrcs p)) ++
  put_uint 1 (exp * 4 + x / 65536) ++ put_uint 1 (x / 256 mod 256) ++ put_uint 1 (x mod 256) ++
  concat (put_uint 4 <$> ssrcs p).

Lemma remb_raw_size p : raw_size p = 20 + 4 * len (ssrcs p).
Proof. cbn. unfold RTCP_HEADER_LENGTH, REMB_OFFSET. lia. Qed.

Lemma len_remb_body p exp x : len (remb_body p exp x) = raw_size p - 4.
Proof.
  rewrite remb_raw_size. unfold remb_body. rewrite !len_app, len_concat_put. change (len UNIQUE_IDENTIFIER) with 4.
  autorewrite with len. lia.
Qed.

Lemma remb_bytes exp x :
  0 <= exp < 64 → 0 <= x < 2 ^ 18 →
  Z.lor (u8 (Z.shiftl exp 2)) (u8 (Z.shiftr x 16)) = exp * 4 + x / 65536 ∧
  u8 (Z.shiftr x 8) = x / 256 mod 256 ∧ u8 x = x mod 256.
Proof.
  intros He Hx. change (2 ^ 18) with 262144 in Hx. rewrite !Z.shiftr_div_pow2 by lia. split; [|done].
  assert (0 <= x / 2 ^ 16 < 4) by (change (2 ^ 16) with 65536; split; [apply Z.div_pos|apply Z.div_lt_upper_bound]; lia).
  rewrite (wrap_small 8 (x / _)) by (unfold fits; lia).
  rewrite wrap_small by (unfold fits; rewrite Z.shiftl_mul_pow2 by lia; lia).
  by rewrite lor_shiftl_add by (unfold fits; lia).
Qed.

Lemma remb_fields exp x :
  0 <= exp < 64 → 0 <= x < 2 ^ 18 →
  let b17 := exp * 4 + x / 65536 in
  byte_ok b17 ∧ Z.shiftr b17 2 = exp ∧
  Z.lor (Z.lor (Z.shiftl (Z.land b17 3) 16) (Z.shiftl (x / 256 mod 256) 8)) (x mod 256) = x.
Proof.
  intros He Hx. change (2 ^ 18) with 262144 in Hx. cbv zeta.
  assert (0 <= x / 65536 < 4) as Hh by (split; [apply Z.div_pos|apply Z.div_lt_upper_bound]; lia).
  split_and!; [unfold fits; lia| |].
  - rewrite Z.shiftr_div_pow2 by lia. change (2 ^ 2) with 4. rewrite Z.div_add_l, Z.div_small by lia. lia.
  - change 3 with (Z.ones 2). rewrite Z.land_ones by lia. change (2 ^ 2) with 4.
    assert ((exp * 4 + x / 65536) mod 4 = x / 65536) as -> by (rewrite Z.add_comm, Z.mod_add, Z.mod_small by lia; done).
    pose proof (Z.mod_pos_bound (x / 256) 256). pose proof (Z.mod_pos_bound x 256).
    rewrite <- Z.lor_assoc, (lor_shiftl_add (x / 256 mod 256)), lor_shiftl_add
      by (unfold fits; change (2 ^ 8) with 256; change (2 ^ 16) with 65536; lia).
    change (2 ^ 8) with 256. change (2 ^ 16) with 65536. change 65536 with (256 * 256). rewrite <- Z.div_div by lia.
    pose proof (Z_div_mod_eq_full x 256). pose proof (Z_div_mod_eq_full (x / 256) 256). lia.
Qed.

Definition remb_ok (p : ReceiverEstimatedMaximumBitrate) (m : positive) (e : Z) : Prop :=
  fits 32 (remb_sender_ssrc p) ∧ Forall (fits 32) (ssrcs p) ∧ len (ssrcs p) <= 255 ∧
  bitrate p = S754_finite false m e ∧ rate_ok m e.

(** The bytes of a packet with this bitrate. *)
Definition remb_frame (p : ReceiverEstimatedMaximumBitrate) (m : positive) (e : Z) : bytes :=
  frame p (remb_body p (Z.max 0 (e + 6)) (Zpos m / 2 ^ lost_bits e)).

Lemma remb_encodes p m e : remb_ok p m e → encodes p (remb_frame p m e).
Proof.
  intros (_ & _ & Hn & Hb & Hr). pose proof (len_frame p _ (len_remb_body p (Z.max 0 (e + 6)) (Zpos m / 2 ^ lost_bits e))) as L.
  destruct (kept_bounds m e Hr) as [_ Hq]. pose proof (remb_encode_spec m e Hr) as Henc.
  destruct (remb_bytes (Z.max 0 (e + 6)) (Zpos m / 2 ^ lost_bits e)) as (B0 & B1 & B2); [destruct Hr; lia|lia|].
  unfold remb_frame. encode_frame p L ltac:(unfold marshal_to, remb_marshal_to) idtac.
  pose proof (remb_raw_size p). pose proof (len_nonneg (ssrcs p)). rewrite put_header by (done || (cbn [room]; lia)).
  rewrite Hb, Henc. unfold frame, remb_body. rewrite <- !app_assoc. do 4 (apply put_step; intros).
  rewrite wrap_small by (unfold fits; lia). apply put_step. intros. cbn [rbind]. rewrite B0, B1, B2.
  do 3 (apply put_step; intros). rewrite (put_all_put (put_uint 4)) by done. apply put_step. intros.
  cbn [header remb_packet body_header rtcp_padding]. by rewrite put_padding_if.
Qed.

Lemma remb_frame_read p m e :
  remb_ok p m e →
  remb_unmarshal (remb_frame p m e) =
    Ok (mkRemb (remb_sender_ssrc p) (S754_finite false (Z.to_pos (kept m e)) e) (ssrcs p), []) ∧
  0 <= Zpos m - kept m e < 2 ^ lost_bits e.
Proof.
  intros Hok. destruct Hok as (H1 & Hs & Hn & Hb & Hr).
  destruct (kept_bounds m e Hr) as [Hk Hq]. split.
  2:{ unfold kept in *. pose proof (Z.mod_pos_bound (Zpos m) (2 ^ lost_bits e)).
      pose proof (Z_div_mod_eq_full (Zpos m) (2 ^ lost_bits e)).
      assert (0 < 2 ^ lost_bits e) by (apply Z.pow_pos_nonneg; unfold lost_bits; lia). lia. }
  pose proof (remb_decode_spec m e Hr) as Hdec. unfold remb_frame.
  pose proof (len_frame p _ (len_remb_body p (Z.max 0 (e + 6)) (Zpos m / 2 ^ lost_bits e))) as L.
  set (exp := Z.max 0 (e + 6)) in *. set (x := Zpos m / 2 ^ lost_bits e) in *.
  destruct (remb_fields exp x) as (B17 & F1 & F2); [subst exp; destruct Hr; lia|lia|].
  pose proof (len_nonneg (ssrcs p)).
  destruct (words_header p (5 + len (ssrcs p))) as (E & LW & P); [rewrite remb_raw_size; lia|lia|].
  unfold remb_unmarshal, SSRC_ENTRY_OFFSET. cbv zeta. rewrite L, E. rewrite (proj2 (Z.ltb_ge _ 20)) by lia.
  unfold frame. rewrite P, app_nil_r. cbn [header remb_packet].
  rewrite body_header_read by done. cbn [rbind]. rewrite wrong_type_refl.
  unfold remb_body, get_u32. do 2 (rewrite get_put_uint by done; cbn [rbind]). cbn [Z.eqb negb].
  unfold UNIQUE_IDENTIFIER. cbn [app]. do 4 (rewrite get_u8_cons by done; cbn [rbind]).
  rewrite bool_decide_true by done. cbn [negb]. unfold get_u8.
  rewrite get_put_uint by (unfold fits; simpl; lia). cbn [rbind].
  rewrite (proj2 (Z.ltb_ge _ _)) by lia.
  pose proof (Z.mod_pos_bound (x / 256) 256). pose proof (Z.mod_pos_bound x 256).
  rewrite get_put_uint by done. cbn [rbind].
  rewrite get_put_uint by (unfold fits; simpl; lia). cbn [rbind].
  rewrite get_put_uint by (unfold fits; simpl; lia). cbn [rbind].
  rewrite F1, F2, Hdec. cbn [rbind]. replace (Z.to_nat (len (ssrcs p))) with (length (ssrcs p)) by (unfold len; lia).
  rewrite <- (app_nil_r (concat _)). change (get_uint 4) with get_u32. by rewrite read_u32s by done.
Qed.

(** A bitrate estimate that is sent and received keeps the exponent and the upper bits of the
    bitrate: for any bitrate of at least one bit per second and at most the maximum of the
    format, the packet is marshalled, and reading it gives the same packet with the bitrate
    rounded down to 18 significant bits (to an integer when it is below [2^18]). *)
Theorem remb_bitrate_read p m e :
  remb_ok p m e →
  marshal p = Ok (remb_frame p m e) ∧
  remb_unmarshal (remb_frame p m e) =
    Ok (mkRemb (remb_sender_ssrc p) (S754_finite false (Z.to_pos (kept m e)) e) (ssrcs p), []) ∧
  0 <= Zpos m - kept m e < 2 ^ lost_bits e.
Proof. intros Hok. split; [by apply encodes_marshal, remb_encodes|by apply remb_frame_read]. Qed.

Lemma remb_normalise_post fuel exp x k :
  0 < x → 0 <= k < Z.of_nat fuel → 2 ^ 23 <= x * 2 ^ k < 2 ^ 24 → no_panic (remb_normalise fuel exp x).
Proof. intros. by rewrite (remb_normalise_spec _ _ _ k). Qed.

(** A number below [2^18] becomes a significand after at most 23 doublings. *)
Lemma doublings x : 1 <= x < 2 ^ 18 → ∃ k, 0 <= k < 24 ∧ 2 ^ 23 <= x * 2 ^ k < 2 ^ 24.
Proof.
  intros Hx. exists (23 - Z.log2 x). pose proof (Z.log2_spec x) as Hl.
  assert (0 <= Z.log2 x < 18) by (split; [apply Z.log2_nonneg|apply Z.log2_lt_pow2; lia]).
  split; [lia|]. specialize (Hl ltac:(lia)).
  assert (2 ^ 23 = 2 ^ Z.log2 x * 2 ^ (23 - Z.log2 x)) as E by (rewrite <- Z.pow_add_r by lia; f_equal; lia).
  assert (2 ^ 24 = 2 ^ Z.succ (Z.log2 x) * 2 ^ (23 - Z.log2 x)) as E' by (rewrite <- Z.pow_add_r by lia; f_equal; lia).
  assert (0 < 2 ^ (23 - Z.log2 x)) by (apply Z.pow_pos_nonneg; lia). rewrite E, E'. nia.
Qed.

Lemma remb_post raw : Forall byte_ok raw → res_post (remb_unmarshal raw) (left_of 4 raw).
Proof.
  intros Hr. unfold remb_unmarshal, SSRC_ENTRY_OFFSET. cbv zeta. parse_step; [done|]. bool_facts.
  eapply res_post_bind; [by apply rtcp_header_post|]. intros [h r] (Hn & _ & Hr1 & L1). parse.
  match goal with |- res_post (rbind (remb_decode _ ?a) _) _ => set (mant := a) end.
  assert (0 <= mant < 2 ^ 18) as Hx.
  { apply fits_lor; [lia| |].
    - apply fits_lor; [lia| |].
      + change 3 with (Z.ones 2). rewrite Z.land_ones, Z.shiftl_mul_pow2 by lia.
        match goal with |- fits _ (?a mod _ * _) => pose proof (Z.mod_pos_bound a (2 ^ 2)) end. unfold fits. lia.
      + rewrite Z.shiftl_mul_pow2 by lia. unfold fits in *. lia.
    - unfold fits in *. lia. }
  apply (res_post_bind _ _ (λ _, True)).
  { unfold remb_decode. destruct (Z.eqb_spec mant 0); cbn [negb rbind]; [done|].
    destruct (doublings mant) as (k & Hk & Hb); [lia|].
    rewrite (remb_normalise_spec _ _ _ k) by lia. done. }
  intros rate _.
  eapply res_post_bind; [apply (read_n_post get_u32 4); [lia| |done|unfold fits in *; lia]|].
  { intros l Hl Ll. eapply res_post_mono; [by apply get_u32_post|]. by intros [??] (_ & ? & ?). }
  intros [xs rest] _. simpl. split; [done|]. change (len []) with 0. lia.
Qed.

End RembLemmas.

Import BigEndian.

Lemma remb_bitrate_read_witness :
  remb_ok (mkRemb 1 (S754_finite false 16777215 (-4)) [7; 8]) 16777215 (-4) ∧
  marshal (mkRemb 1 (S754_finite false 16777215 (-4)) [7; 8]) =
    Ok [143; 206; 0; 6; 0; 0; 0; 1; 0; 0; 0; 0; 82; 69; 77; 66; 2; 11; 255; 255; 0; 0; 0; 7; 0; 0; 0; 8].
Proof.
  split; [unfold remb_ok, rate_ok; cbn; concrete|].
  destruct (remb_bitrate_read (mkRemb 1 (S754_finite false 16777215 (-4)) [7; 8]) 16777215 (-4)) as (-> & _ & _).
  - unfold remb_ok, rate_ok; cbn; concrete.
  - vm_compute. reflexivity.
Defined.

(** A bitrate below one bit per second, zero for instance, has the mantissa 0, which is read
    without the test for zero that IEEE 754 needs: the estimate that arrives is [2^23]. *)
Lemma zero_bitrate_read :
  let p := mkRemb 1 (S754_zero false) [] in
  match marshal p with
  | Ok bs => remb_unmarshal bs = Ok (mkRemb 1 (S754_finite false 8388608 0) [], [])
  | _ => False
  end.
Proof. vm_compute. reflexivity. Qed.
