(* ===== verification/RtcpXr.v ===== *)
(** Extended reports: [rtc-rtcp/src/extended_report], with the seven block types of RFC 3611 and
    unknown blocks. *)

From S2P Require Import Prelude Codec Rtcp RtcpReport RtcpFeedback.

(** * Block headers *)

Definition XR_HEADER_LENGTH : Z := 4.

Inductive BlockType :=
| BtUnknown | LossRLE | DuplicateRLE | PacketReceiptTimes | ReceiverReferenceTime | DLRR
| StatisticsSummary | VoIPMetrics.

#[export] Instance BlockType_eq_dec : EqDecision BlockType.
Proof. solve_decision. Defined.

Definition block_type_u8 (t : BlockType) : Z :=
  match t with
  | BtUnknown => 0 | LossRLE => 1 | DuplicateRLE => 2 | PacketReceiptTimes => 3
  | ReceiverReferenceTime => 4 | DLRR => 5 | StatisticsSummary => 6 | VoIPMetrics => 7
  end.

(** [BlockType::from] *)
Definition block_type_from (v : Z) : BlockType :=
  if v =? 1 then LossRLE else if v =? 2 then DuplicateRLE else if v =? 3 then PacketReceiptTimes
  else if v =? 4 then ReceiverReferenceTime else if v =? 5 then DLRR
  else if v =? 6 then StatisticsSummary else if v =? 7 then VoIPMetrics else BtUnknown.

Record XRHeader := mkXRHeader { block_type : BlockType; type_specific : Z; block_length : Z }.

#[export] Instance xr_header_size : MarshalSize XRHeader := λ _, XR_HEADER_LENGTH.

(** [xr_header.block_length.checked_mul(4)] on sixteen bits. *)
Definition block_bytes_len (h : XRHeader) : res Z :=
  if 65535 <? block_length h * 4 then Err InvalidBlockSize else Ok (block_length h * 4).

(** * The blocks *)

Inductive ChunkType := ChunkRunLength | ChunkBitVector | ChunkTerminatingNull.

(** [Chunk::chunk_type], [Chunk::run_type] and [Chunk::value] of the word [c]. *)
Definition rle_chunk_type (c : Z) : ChunkType :=
  if c =? 0 then ChunkTerminatingNull
  else if Z.shiftr c 15 =? 0 then ChunkRunLength else ChunkBitVector.
Definition rle_run_type (c : Z) : res Z :=
  match rle_chunk_type c with
  | ChunkRunLength => Ok (Z.land (u8 (Z.shiftr c 14)) 0x01)
  | _ => Err WrongChunkType
  end.
Definition rle_value (c : Z) : Z :=
  match rle_chunk_type c with
  | ChunkRunLength => Z.land c 0x3FFF
  | ChunkBitVector => Z.land c 0x7FFF
  | ChunkTerminatingNull => 0
  end.

Record RLEReportBlock := mkRle {
  is_loss_rle : bool;
  rle_t : Z;
  rle_ssrc : Z;
  rle_begin_seq : Z;
  rle_end_seq : Z;
  rle_chunks : list Z
}.

Record PacketReceiptTimesReportBlock := mkPrt {
  prt_t : Z;
  prt_ssrc : Z;
  prt_begin_seq : Z;
  prt_end_seq : Z;
  receipt_time : list Z
}.

Record ReceiverReferenceTimeReportBlock := mkRrt { ntp_timestamp : Z }.

Record DLRRReport := mkDlrrReport { dlrr_ssrc : Z; last_rr : Z; dlrr : Z }.
Record DLRRReportBlock := mkDlrr { dlrr_reports : list DLRRReport }.

Inductive TTLorHopLimitType := ToHMissing | ToHIPv4 | ToHIPv6.

Record StatisticsSummaryReportBlock := mkSsr {
  loss_reports : bool;
  duplicate_reports : bool;
  jitter_reports : bool;
  ttl_or_hop_limit : TTLorHopLimitType;
  ssr_ssrc : Z;
  ssr_begin_seq : Z;
  ssr_end_seq : Z;
  ssr_lost_packets : Z;
  dup_packets : Z;
  min_jitter : Z;
  max_jitter : Z;
  mean_jitter : Z;
  dev_jitter : Z;
  min_ttl_or_hl : Z;
  max_ttl_or_hl : Z;
  mean_ttl_or_hl : Z;
  dev_ttl_or_hl : Z
}.

Record VoIPMetricsReportBlock := mkVm {
  vm_ssrc : Z;
  loss_rate : Z;
  discard_rate : Z;
  burst_density : Z;
  gap_density : Z;
  burst_duration : Z;
  gap_duration : Z;
  round_trip_delay : Z;
  end_system_delay : Z;
  signal_level : Z;
  noise_level : Z;
  rerl : Z;
  gmin : Z;
  rfactor : Z;
  ext_rfactor : Z;
  mos_lq : Z;
  mos_cq : Z;
  rx_config : Z;
  vm_reserved : Z;
  jb_nominal : Z;
  jb_maximum : Z;
  jb_abs_max : Z
}.

Record UnknownReportBlock := mkUnknown { unknown_bytes : bytes }.

Definition RLE_REPORT_BLOCK_MIN_LENGTH : Z := 8.
Definition PRT_REPORT_BLOCK_MIN_LENGTH : Z := 8.
Definition RRT_REPORT_BLOCK_LENGTH : Z := 8.
Definition DLRR_REPORT_LENGTH : Z := 12.
Definition SSR_REPORT_BLOCK_LENGTH : Z := 4 + 2 * 2 + 4 * 6 + 4.
Definition VM_REPORT_BLOCK_LENGTH : Z := 4 + 4 + 2 * 4 + 10 + 2 * 3.

#[export] Instance rle_packet : Packet RLEReportBlock := {|
  header _ := default_header;
  destination_ssrc b := [rle_ssrc b];
  raw_size b := XR_HEADER_LENGTH + RLE_REPORT_BLOCK_MIN_LENGTH + len (rle_chunks b) * 2
|}.
#[export] Instance prt_packet : Packet PacketReceiptTimesReportBlock := {|
  header _ := default_header;
  destination_ssrc b := [prt_ssrc b];
  raw_size b := XR_HEADER_LENGTH + PRT_REPORT_BLOCK_MIN_LENGTH + len (receipt_time b) * 4
|}.
#[export] Instance rrt_packet : Packet ReceiverReferenceTimeReportBlock := {|
  header _ := default_header;
  destination_ssrc _ := [];
  raw_size _ := XR_HEADER_LENGTH + RRT_REPORT_BLOCK_LENGTH
|}.
#[export] Instance dlrr_packet : Packet DLRRReportBlock := {|
  header _ := default_header;
  destination_ssrc b := dlrr_ssrc <$> dlrr_reports b;
  raw_size b := XR_HEADER_LENGTH + len (dlrr_reports b) * 4 * 3
|}.
#[export] Instance ssr_packet : Packet StatisticsSummaryReportBlock := {|
  header _ := default_header;
  destination_ssrc b := [ssr_ssrc b];
  raw_size _ := XR_HEADER_LENGTH + SSR_REPORT_BLOCK_LENGTH
|}.
#[export] Instance vm_packet : Packet VoIPMetricsReportBlock := {|
  header _ := default_header;
  destination_ssrc b := [vm_ssrc b];
  raw_size _ := XR_HEADER_LENGTH + VM_REPORT_BLOCK_LENGTH
|}.
#[export] Instance unknown_packet : Packet UnknownReportBlock := {|
  header _ := default_header;
  destination_ssrc _ := [];
  raw_size b := XR_HEADER_LENGTH + len (unknown_bytes b)
|}.

#[export] Instance rle_size : MarshalSize RLEReportBlock := raw_size.
#[export] Instance prt_size : MarshalSize PacketReceiptTimesReportBlock := raw_size.
#[export] Instance rrt_size : MarshalSize ReceiverReferenceTimeReportBlock := raw_size.
#[export] Instance dlrr_size : MarshalSize DLRRReportBlock := raw_size.
#[export] Instance ssr_size : MarshalSize StatisticsSummaryReportBlock := raw_size.
#[export] Instance vm_size : MarshalSize VoIPMetricsReportBlock := raw_size.
#[export] Instance unknown_size : MarshalSize UnknownReportBlock := raw_size.

(** [(self.raw_size() / 4 - 1) as u16] *)
Definition block_words `{Packet T} (b : T) : Z := u16 (raw_size b / 4 - 1).

Definition rle_xr_header (b : RLEReportBlock) : XRHeader :=
  mkXRHeader (if is_loss_rle b then LossRLE else DuplicateRLE) (Z.land (rle_t b) 0x0F) (block_words b).
Definition prt_xr_header (b : PacketReceiptTimesReportBlock) : XRHeader :=
  mkXRHeader PacketReceiptTimes (Z.land (prt_t b) 0x0F) (block_words b).
Definition rrt_xr_header (b : ReceiverReferenceTimeReportBlock) : XRHeader :=
  mkXRHeader ReceiverReferenceTime 0 (block_words b).
Definition dlrr_xr_header (b : DLRRReportBlock) : XRHeader := mkXRHeader DLRR 0 (block_words b).
Definition vm_xr_header (b : VoIPMetricsReportBlock) : XRHeader := mkXRHeader VoIPMetrics 0 (block_words b).
Definition unknown_xr_header (b : UnknownReportBlock) : XRHeader := mkXRHeader BtUnknown 0 (block_words b).

Definition ttl_u8 (t : TTLorHopLimitType) : Z := match t with ToHMissing => 0 | ToHIPv4 => 1 | ToHIPv6 => 2 end.
Definition ttl_from (v : Z) : TTLorHopLimitType :=
  if v =? 1 then ToHIPv4 else if v =? 2 then ToHIPv6 else ToHMissing.

Definition ssr_xr_header (b : StatisticsSummaryReportBlock) : XRHeader :=
  let type_specific := 0 in
  let type_specific := if loss_reports b then Z.lor type_specific 0x80 else type_specific in
  let type_specific := if duplicate_reports b then Z.lor type_specific 0x40 else type_specific in
  let type_specific := if jitter_reports b then Z.lor type_specific 0x20 else type_specific in
  let type_specific := Z.lor type_specific (u8 (Z.shiftl (Z.land (ttl_u8 (ttl_or_hop_limit b)) 0x03) 3)) in
  mkXRHeader StatisticsSummary type_specific (block_words b).

Section XrCodec.
Context {BC : BytesCrate}.

#[export] Instance xr_header_marshal_to : Marshal XRHeader := λ h buf,
  if len buf <? XR_HEADER_LENGTH then Err BufferTooShort
  else
    let! w := put_u8 (block_type_u8 (block_type h)) (Wbuf [] buf) in
    let! w := put_u8 (type_specific h) w in
    let! w := put_u16 (block_length h) w in
    finish XR_HEADER_LENGTH w.

Definition xr_header_unmarshal (raw : bytes) : res (XRHeader * bytes) :=
  if len raw <? XR_HEADER_LENGTH then Err PacketTooShort
  else
    let! (t, raw) := get_u8 raw in
    let! (ts, raw) := get_u8 raw in
    let! (l, raw) := get_u16 raw in
    Ok (mkXRHeader (block_type_from t) ts l, raw).

#[export] Instance rle_marshal_to : Marshal RLEReportBlock := λ b buf,
  if len buf <? marshal_size b then Err BufferTooShort
  else
    let! w := put_marshal (rle_xr_header b) (Wbuf [] buf) in
    let! w := put_u32 (rle_ssrc b) w in
    let! w := put_u16 (rle_begin_seq b) w in
    let! w := put_u16 (rle_end_seq b) w in
    let! w := put_all put_u16 (rle_chunks b) w in
    finish (marshal_size b) w.

Definition rle_unmarshal (raw : bytes) : res (RLEReportBlock * bytes) :=
  if len raw <? XR_HEADER_LENGTH then Err PacketTooShort
  else
    let! (h, raw) := xr_header_unmarshal raw in
    let! block_length := block_bytes_len h in
    if (block_length <? RLE_REPORT_BLOCK_MIN_LENGTH)
       || negb ((block_length - RLE_REPORT_BLOCK_MIN_LENGTH) mod 2 =? 0)
       || (len raw <? block_length) then Err PacketTooShort
    else
      let loss := bool_decide (block_type h = LossRLE) in
      let t := Z.land (type_specific h) 0x0F in
      let! (ssrc, raw) := get_u32 raw in
      let! (begin_seq, raw) := get_u16 raw in
      let! (end_seq, raw) := get_u16 raw in
      let remaining := block_length - RLE_REPORT_BLOCK_MIN_LENGTH in
      let! (chunks, raw) := read_n get_u16 (Z.to_nat (remaining / 2)) raw in
      Ok (mkRle loss t ssrc begin_seq end_seq chunks, raw).

#[export] Instance prt_marshal_to : Marshal PacketReceiptTimesReportBlock := λ b buf,
  if len buf <? marshal_size b then Err BufferTooShort
  else
    let! w := put_marshal (prt_xr_header b) (Wbuf [] buf) in
    let! w := put_u32 (prt_ssrc b) w in
    let! w := put_u16 (prt_begin_seq b) w in
    let! w := put_u16 (prt_end_seq b) w in
    let! w := put_all put_u32 (receipt_time b) w in
    finish (marshal_size b) w.

Definition prt_unmarshal (raw : bytes) : res (PacketReceiptTimesReportBlock * bytes) :=
  if len raw <? XR_HEADER_LENGTH then Err PacketTooShort
  else
    let! (h, raw) := xr_header_unmarshal raw in
    let! block_length := block_bytes_len h in
    if (block_length <? PRT_REPORT_BLOCK_MIN_LENGTH)
       || negb ((block_length - PRT_REPORT_BLOCK_MIN_LENGTH) mod 4 =? 0)
       || (len raw <? block_length) then Err PacketTooShort
    else
      let t := Z.land (type_specific h) 0x0F in
      let! (ssrc, raw) := get_u32 raw in
      let! (begin_seq, raw) := get_u16 raw in
      let! (end_seq, raw) := get_u16 raw in
      let remaining := block_length - PRT_REPORT_BLOCK_MIN_LENGTH in
      let! (times, raw) := read_n get_u32 (Z.to_nat (remaining / 4)) raw in
      Ok (mkPrt t ssrc begin_seq end_seq times, raw).

#[export] Instance rrt_marshal_to : Marshal ReceiverReferenceTimeReportBlock := λ b buf,
  if len buf <? marshal_size b then Err BufferTooShort
  else
    let! w := put_marshal (rrt_xr_header b) (Wbuf [] buf) in
    let! w := put_u64 (ntp_timestamp b) w in
    finish (marshal_size b) w.

Definition rrt_unmarshal (raw : bytes) : res (ReceiverReferenceTimeReportBlock * bytes) :=
  if len raw <? XR_HEADER_LENGTH then Err PacketTooShort
  else
    let! (h, raw) := xr_header_unmarshal raw in
    let! block_length := block_bytes_len h in
    if negb (block_length =? RRT_REPORT_BLOCK_LENGTH) || (len raw <? block_length) then Err PacketTooShort
    else
      let! (ntp, raw) := get_u64 raw in
      Ok (mkRrt ntp, raw).

Definition dlrr_put (r : DLRRReport) (w : wbuf) : res wbuf :=
  let! w := put_u32 (dlrr_ssrc r) w in
  let! w := put_u32 (last_rr r) w in
  put_u32 (dlrr r) w.

#[export] Instance dlrr_marshal_to : Marshal DLRRReportBlock := λ b buf,
  if len buf <? marshal_size b then Err BufferTooShort
  else
    let! w := put_marshal (dlrr_xr_header b) (Wbuf [] buf) in
    let! w := put_all dlrr_put (dlrr_reports b) w in
    finish (marshal_size b) w.

(** [while offset < block_length]; a report adds 12 to the 16-bit [offset]. *)
Fixpoint read_dlrrs (fuel : nat) (offset block_length : Z) (raw : bytes) : res (list DLRRReport * bytes) :=
  match fuel with
  | O => Panic
  | S fuel =>
      if offset <? block_length then
        let! (ssrc, raw) := get_u32 raw in
        let! (lrr, raw) := get_u32 raw in
        let! (d, raw) := get_u32 raw in
        let! (rs, raw) := read_dlrrs fuel (u16 (offset + DLRR_REPORT_LENGTH)) block_length raw in
        Ok (mkDlrrReport ssrc lrr d :: rs, raw)
      else Ok ([], raw)
  end.

Definition dlrr_unmarshal (raw : bytes) : res (DLRRReportBlock * bytes) :=
  if len raw <? XR_HEADER_LENGTH then Err PacketTooShort
  else
    let! (h, raw) := xr_header_unmarshal raw in
    let! block_length := block_bytes_len h in
    if negb (block_length mod DLRR_REPORT_LENGTH =? 0) || (len raw <? block_length) then Err PacketTooShort
    else
      let! (rs, raw) := read_dlrrs (S (length raw)) 0 block_length raw in
      Ok (mkDlrr rs, raw).

#[export] Instance ssr_marshal_to : Marshal StatisticsSummaryReportBlock := λ b buf,
  if len buf <? marshal_size b then Err BufferTooShort
  else
    let! w := put_marshal (ssr_xr_header b) (Wbuf [] buf) in
    let! w := put_u32 (ssr_ssrc b) w in
    let! w := put_u16 (ssr_begin_seq b) w in
    let! w := put_u16 (ssr_end_seq b) w in
    let! w := put_u32 (ssr_lost_packets b) w in
    let! w := put_u32 (dup_packets b) w in
    let! w := put_u32 (min_jitter b) w in
    let! w := put_u32 (max_jitter b) w in
    let! w := put_u32 (mean_jitter b) w in
    let! w := put_u32 (dev_jitter b) w in
    let! w := put_u8 (min_ttl_or_hl b) w in
    let! w := put_u8 (max_ttl_or_hl b) w in
    let! w := put_u8 (mean_ttl_or_hl b) w in
    let! w := put_u8 (dev_ttl_or_hl b) w in
    finish (marshal_size b) w.

Definition ssr_unmarshal (raw : bytes) : res (StatisticsSummaryReportBlock * bytes) :=
  if len raw <? XR_HEADER_LENGTH then Err PacketTooShort
  else
    let! (h, raw) := xr_header_unmarshal raw in
    let! block_length := block_bytes_len h in
    if negb (block_length =? SSR_REPORT_BLOCK_LENGTH) || (len raw <? block_length) then Err PacketTooShort
    else
      let loss := negb (Z.land (type_specific h) 0x80 =? 0) in
      let dup := negb (Z.land (type_specific h) 0x40 =? 0) in
      let jit := negb (Z.land (type_specific h) 0x20 =? 0) in
      let ttl := ttl_from (Z.shiftr (Z.land (type_specific h) 0x18) 3) in
      let! (ssrc, raw) := get_u32 raw in
      let! (begin_seq, raw) := get_u16 raw in
      let! (end_seq, raw) := get_u16 raw in
      let! (lost, raw) := get_u32 raw in
      let! (dups, raw) := get_u32 raw in
      let! (minj, raw) := get_u32 raw in
      let! (maxj, raw) := get_u32 raw in
      let! (meanj, raw) := get_u32 raw in
      let! (devj, raw) := get_u32 raw in
      let! (mint, raw) := get_u8 raw in
      let! (maxt, raw) := get_u8 raw in
      let! (meant, raw) := get_u8 raw in
      let! (devt, raw) := get_u8 raw in
      Ok (mkSsr loss dup jit ttl ssrc begin_seq end_seq lost dups minj maxj meanj devj mint maxt meant devt, raw).

#[export] Instance vm_marshal_to : Marshal VoIPMetricsReportBlock := λ b buf,
  if len buf <? marshal_size b then Err BufferTooShort
  else
    let! w := put_marshal (vm_xr_header b) (Wbuf [] buf) in
    let! w := put_u32 (vm_ssrc b) w in
    let! w := put_u8 (loss_rate b) w in
    let! w := put_u8 (discard_rate b) w in
    let! w := put_u8 (burst_density b) w in
    let! w := put_u8 (gap_density b) w in
    let! w := put_u16 (burst_duration b) w in
    let! w := put_u16 (gap_duration b) w in
    let! w := put_u16 (round_trip_delay b) w in
    let! w := put_u16 (end_system_delay b) w in
    let! w := put_u8 (signal_level b) w in
    let! w := put_u8 (noise_level b) w in
    let! w := put_u8 (rerl b) w in
    let! w := put_u8 (gmin b) w in
    let! w := put_u8 (rfactor b) w in
    let! w := put_u8 (ext_rfactor b) w in
    let! w := put_u8 (mos_lq b) w in
    let! w := put_u8 (mos_cq b) w in
    let! w := put_u8 (rx_config b) w in
    let! w := put_u8 (vm_reserved b) w in
    let! w := put_u16 (jb_nominal b) w in
    let! w := put_u16 (jb_maximum b) w in
    let! w := put_u16 (jb_abs_max b) w in
    finish (marshal_size b) w.

Definition vm_unmarshal (raw : bytes) : res (VoIPMetricsReportBlock * bytes) :=
  if len raw <? XR_HEADER_LENGTH then Err PacketTooShort
  else
    let! (h, raw) := xr_header_unmarshal raw in
    let! block_length := block_bytes_len h in
    if negb (block_length =? VM_REPORT_BLOCK_LENGTH) || (len raw <? block_length) then Err PacketTooShort
    else
      let! (f1, raw) := get_u32 raw in
      let! (f2, raw) := get_u8 raw in
      let! (f3, raw) := get_u8 raw in
      let! (f4, raw) := get_u8 raw in
      let! (f5, raw) := get_u8 raw in
      let! (f6, raw) := get_u16 raw in
      let! (f7, raw) := get_u16 raw in
      let! (f8, raw) := get_u16 raw in
      let! (f9, raw) := get_u16 raw in
      let! (f10, raw) := get_u8 raw in
      let! (f11, raw) := get_u8 raw in
      let! (f12, raw) := get_u8 raw in
      let! (f13, raw) := get_u8 raw in
      let! (f14, raw) := get_u8 raw in
      let! (f15, raw) := get_u8 raw in
      let! (f16, raw) := get_u8 raw in
      let! (f17, raw) := get_u8 raw in
      let! (f18, raw) := get_u8 raw in
      let! (f19, raw) := get_u8 raw in
      let! (f20, raw) := get_u16 raw in
      let! (f21, raw) := get_u16 raw in
      let! (f22, raw) := get_u16 raw in
      Ok (mkVm f1 f2 f3 f4 f5 f6 f7 f8 f9 f10 f11 f12 f13 f14 f15 f16 f17 f18 f19 f20 f21 f22, raw).

#[export] Instance unknown_marshal_to : Marshal UnknownReportBlock := λ b buf,
  if len buf <? marshal_size b then Err BufferTooShort
  else
    let! w := put_marshal (unknown_xr_header b) (Wbuf [] buf) in
    let! w := put (unknown_bytes b) w in
    finish (marshal_size b) w.

Definition unknown_unmarshal (raw : bytes) : res (UnknownReportBlock * bytes) :=
  if len raw <? XR_HEADER_LENGTH then Err PacketTooShort
  else
    let! (h, raw) := xr_header_unmarshal raw in
    let! block_length := block_bytes_len h in
    if len raw <? block_length then Err PacketTooShort
    else
      let! (bs, raw) := copy_to_bytes block_length raw in
      Ok (mkUnknown bs, raw).

End XrCodec.

(** * Extended reports *)

(** The boxed report blocks. *)
Inductive ReportBlock :=
| RbRle (b : RLEReportBlock)
| RbPrt (b : PacketReceiptTimesReportBlock)
| RbRrt (b : ReceiverReferenceTimeReportBlock)
| RbDlrr (b : DLRRReportBlock)
| RbSsr (b : StatisticsSummaryReportBlock)
| RbVm (b : VoIPMetricsReportBlock)
| RbUnknown (b : UnknownReportBlock).

(** The virtual calls of [dyn Packet]. *)
#[export] Instance block_size : MarshalSize ReportBlock := λ b,
  match b with
  | RbRle b => marshal_size b | RbPrt b => marshal_size b | RbRrt b => marshal_size b
  | RbDlrr b => marshal_size b | RbSsr b => marshal_size b | RbVm b => marshal_size b
  | RbUnknown b => marshal_size b
  end.
Definition block_ssrcs (b : ReportBlock) : list Z :=
  match b with
  | RbRle b => destination_ssrc b | RbPrt b => destination_ssrc b | RbRrt b => destination_ssrc b
  | RbDlrr b => destination_ssrc b | RbSsr b => destination_ssrc b | RbVm b => destination_ssrc b
  | RbUnknown b => destination_ssrc b
  end.

Record ExtendedReportPacket := mkXr { xr_sender_ssrc : Z; xr_reports : list ReportBlock }.

#[export] Instance xr_packet : Packet ExtendedReportPacket :=
  let raw_size p := RTCP_HEADER_LENGTH + SSRC_LENGTH + foldl (λ n b, n + marshal_size b) 0 (xr_reports p) in
  {|
    header p := body_header (raw_size p) 0 ExtendedReport;
    destination_ssrc p := concat (block_ssrcs <$> xr_reports p);
    raw_size := raw_size
  |}.

#[export] Instance xr_size : MarshalSize ExtendedReportPacket := aligned_size.

Section XrPacketCodec.
Context {BC : BytesCrate}.

#[export] Instance block_marshal_to : Marshal ReportBlock := λ b buf,
  match b with
  | RbRle b => marshal_to b buf | RbPrt b => marshal_to b buf | RbRrt b => marshal_to b buf
  | RbDlrr b => marshal_to b buf | RbSsr b => marshal_to b buf | RbVm b => marshal_to b buf
  | RbUnknown b => marshal_to b buf
  end.

#[export] Instance xr_marshal_to : Marshal ExtendedReportPacket := λ p buf,
  if len buf <? marshal_size p then Err BufferTooShort
  else
    let h := header p in
    let! w := put_marshal h (Wbuf [] buf) in
    let! w := put_u32 (xr_sender_ssrc p) w in
    let! w := put_all put_marshal (xr_reports p) w in
    let! w := if rtcp_padding h then put_padding (raw_size p) w else Ok w in
    finish (marshal_size p) w.

(** [Box::new(T::unmarshal(raw_packet)?)] *)
Definition boxed {A} (box : A → ReportBlock) (m : res (A * bytes)) : res (ReportBlock * bytes) :=
  let! (a, raw) := m in Ok (box a, raw).

(** The block that starts at the front of the input, chosen by its first byte. *)
Definition block_unmarshal (raw : bytes) : res (ReportBlock * bytes) :=
  let! b := index raw 0 in
  match block_type_from b with
  | LossRLE | DuplicateRLE => boxed RbRle (rle_unmarshal raw)
  | PacketReceiptTimes => boxed RbPrt (prt_unmarshal raw)
  | ReceiverReferenceTime => boxed RbRrt (rrt_unmarshal raw)
  | DLRR => boxed RbDlrr (dlrr_unmarshal raw)
  | StatisticsSummary => boxed RbSsr (ssr_unmarshal raw)
  | VoIPMetrics => boxed RbVm (vm_unmarshal raw)
  | BtUnknown => boxed RbUnknown (unknown_unmarshal raw)
  end.

(** [while raw_packet.remaining() > 0] *)
Fixpoint read_blocks (fuel : nat) (offset raw_packet_len : Z) (raw : bytes) : res (list ReportBlock * bytes) :=
  match fuel with
  | O => Panic
  | S fuel =>
      if 0 <? len raw then
        if raw_packet_len <? offset + XR_HEADER_LENGTH then Err PacketTooShort
        else
          let! (b, raw) := block_unmarshal raw in
          let! (bs, raw) := read_blocks fuel (offset + marshal_size b) raw_packet_len raw in
          Ok (b :: bs, raw)
      else Ok ([], raw)
  end.

Definition xr_unmarshal (raw : bytes) : res (ExtendedReportPacket * bytes) :=
  let raw_packet_len := len raw in
  if raw_packet_len <? RTCP_HEADER_LENGTH + SSRC_LENGTH then Err PacketTooShort
  else
    let! (h, raw) := rtcp_header_unmarshal raw in
    if negb (bool_decide (packet_type h = ExtendedReport)) then Err WrongType
    else
      let! (ssrc, raw) := get_u32 raw in
      let! (bs, raw) := read_blocks (S (length raw)) (RTCP_HEADER_LENGTH + SSRC_LENGTH) raw_packet_len raw in
      Ok (mkXr ssrc bs, raw).

End XrPacketCodec.

(** * Lemmas *)

Section XrLemmas.
Context {BC : BytesCrate}.

Definition xr_header_bytes (h : XRHeader) : bytes :=
  put_uint 1 (block_type_u8 (block_type h)) ++ put_uint 1 (type_specific h) ++ put_uint 2 (block_length h).

Lemma len_xr_header h : len (xr_header_bytes h) = 4.
Proof. unfold xr_header_bytes. by autorewrite with len. Qed.

Lemma put_xr_header h w : 4 <= len (room w) → put_marshal h w = put (xr_header_bytes h) w.
Proof.
  intros Hw. apply put_encoded; [|by rewrite len_xr_header]. split; [apply len_xr_header|]. intros buf Hb.
  unfold marshal_to, xr_header_marshal_to. change (marshal_size h) with 4 in *. unfold XR_HEADER_LENGTH.
  rewrite (proj2 (Z.ltb_ge _ _)) by lia. rewrite <- finish_put by (rewrite len_xr_header; lia).
  unfold xr_header_bytes. by repeat (apply put_step; intros).
Qed.

Lemma block_type_roundtrip t : block_type_from (block_type_u8 t) = t.
Proof. by destruct t. Qed.

Lemma block_type_fits t : byte_ok (block_type_u8 t).
Proof. by destruct t. Qed.

Lemma xr_header_read t ts l r :
  byte_ok ts → fits 16 l → xr_header_unmarshal (xr_header_bytes (mkXRHeader t ts l) ++ r) = Ok (mkXRHeader t ts l, r).
Proof.
  intros Hts Hl. unfold xr_header_unmarshal, XR_HEADER_LENGTH.
  rewrite (proj2 (Z.ltb_ge _ _)) by (rewrite len_app, len_xr_header; len_pos; lia).
  unfold xr_header_bytes, get_u8, get_u16. cbn [block_type type_specific block_length]. rewrite <- !app_assoc.
  rewrite get_put_uint by apply block_type_fits. cbn [rbind]. do 2 (rewrite get_put_uint by done; cbn [rbind]).
  by rewrite block_type_roundtrip.
Qed.

Lemma xr_header_post raw :
  Forall byte_ok raw → 4 <= len raw →
  res_post (xr_header_unmarshal raw) (λ '(h, r), fits 16 (block_length h) ∧ Forall byte_ok r ∧ len r = len raw - 4).
Proof. intros Hr Hl. unfold xr_header_unmarshal, XR_HEADER_LENGTH. parse. simpl. split_and!; [done..|lia]. Qed.

(** A block of [k] words. *)
Definition sized `{Packet T} (b : T) (k : Z) : Prop := raw_size b = 4 * k ∧ 1 <= k <= 16384.

Lemma block_words_sized `{Packet T} (b : T) k : sized b k → block_words b = k - 1.
Proof.
  intros [E Hk]. unfold block_words. rewrite E, Z.mul_comm, Z.div_mul, wrap_small by (unfold fits; lia). done.
Qed.

(** The start of every block parser. *)
Lemma block_start {T} `{Packet T} {A} (b : T) k t ts r (f : XRHeader → Z → bytes → res A) :
  sized b k → byte_ok ts →
  (if len (xr_header_bytes (mkXRHeader t ts (block_words b)) ++ r) <? XR_HEADER_LENGTH then Err PacketTooShort
   else
     let! (h, raw) := xr_header_unmarshal (xr_header_bytes (mkXRHeader t ts (block_words b)) ++ r) in
     let! block_length := block_bytes_len h in
     f h block_length raw) =
  f (mkXRHeader t ts (k - 1)) (4 * (k - 1)) r.
Proof.
  intros Hs Hts. rewrite (block_words_sized b k Hs). destruct Hs as [_ Hk].
  unfold XR_HEADER_LENGTH. rewrite (proj2 (Z.ltb_ge _ _)) by (rewrite len_app, len_xr_header; len_pos; lia).
  rewrite xr_header_read by (done || (unfold fits; lia)). cbn [rbind].
  unfold block_bytes_len. cbn [block_length]. rewrite (proj2 (Z.ltb_ge _ _)) by lia. cbn [rbind]. f_equal. lia.
Qed.

Lemma block_start_post {A} raw (f : XRHeader → Z → bytes → res A) Q :
  Forall byte_ok raw →
  (∀ h n r, Forall byte_ok r → len r = len raw - 4 → 0 <= n <= 65535 → n mod 4 = 0 → res_post (f h n r) Q) →
  res_post
    (if len raw <? XR_HEADER_LENGTH then Err PacketTooShort
     else
       let! (h, raw) := xr_header_unmarshal raw in
       let! block_length := block_bytes_len h in
       f h block_length raw) Q.
Proof.
  intros Hr Hf. unfold XR_HEADER_LENGTH. parse_step; [done|]. bool_facts.
  eapply res_post_bind; [apply xr_header_post; [done|lia]|]. intros [h r] (Hl & Hr1 & L1).
  unfold block_bytes_len. destruct (Z.ltb_spec 65535 (block_length h * 4)); [done|]. cbn [rbind].
  unfold fits in Hl. apply Hf; [done|lia|lia|by apply Z.mod_mul].
Qed.

(** A block encodes as its header and its body. *)
Ltac encode_block b unfold_it :=
  split; [|let buf := fresh "buf" in let Hb := fresh "Hb" in intros buf Hb;
    unfold_it; rewrite (proj2 (Z.ltb_ge (len buf) _)) by exact Hb].

Lemma nibble_fits x : byte_ok (Z.land x 0x0F).
Proof. change 0x0F with (Z.ones 4). rewrite Z.land_ones by lia. pose proof (Z.mod_pos_bound x (2 ^ 4)). unfold fits. lia. Qed.

Lemma nibble_land x : fits 4 x → Z.land (Z.land x 0x0F) 0x0F = x ∧ Z.land x 0x0F = x.
Proof.
  intros Hx. change 0x0F with (Z.ones 4). rewrite !Z.land_ones by lia. by rewrite !(Z.mod_small x) by done.
Qed.

(** ** Loss and duplicate blocks *)

Definition rle_wf (b : RLEReportBlock) : Prop :=
  fits 4 (rle_t b) ∧ fits 32 (rle_ssrc b) ∧ fits 16 (rle_begin_seq b) ∧ fits 16 (rle_end_seq b) ∧
  Forall (fits 16) (rle_chunks b) ∧ len (rle_chunks b) mod 2 = 0 ∧ len (rle_chunks b) <= 32760.

Definition rle_bytes (b : RLEReportBlock) : bytes :=
  xr_header_bytes (rle_xr_header b) ++ put_uint 4 (rle_ssrc b) ++ put_uint 2 (rle_begin_seq b) ++
  put_uint 2 (rle_end_seq b) ++ concat (put_uint 2 <$> rle_chunks b).

Lemma rle_encodes b : encodes b (rle_bytes b).
Proof.
  assert (len (rle_bytes b) = marshal_size b) as L.
  { unfold rle_bytes. rewrite !len_app, len_xr_header, len_concat_put. autorewrite with len.
    cbn. unfold XR_HEADER_LENGTH, RLE_REPORT_BLOCK_MIN_LENGTH. lia. }
  encode_block b ltac:(unfold marshal_to, rle_marshal_to); [done|].
  rewrite put_xr_header by (cbn [room]; cbn in Hb; unfold XR_HEADER_LENGTH, RLE_REPORT_BLOCK_MIN_LENGTH in Hb; pose proof (len_nonneg (rle_chunks b)); lia).
  rewrite <- finish_put by lia. unfold rle_bytes. do 4 (apply put_step; intros). by rewrite (put_all_put (put_uint 2)).
Qed.

Lemma read_u16s xs r :
  Forall (fits 16) xs → read_n get_u16 (length xs) (concat (put_uint 2 <$> xs) ++ r) = Ok (xs, r).
Proof. rewrite Forall_forall. intros Hx. apply read_n_app. intros. apply get_put_uint. by apply Hx. Qed.

Lemma rle_read b r : rle_wf b → rle_unmarshal (rle_bytes b ++ r) = Ok (b, r).
Proof.
  intros (Ht & H1 & H2 & H3 & Hc & Hm & Hn). pose proof (len_nonneg (rle_chunks b)). destruct (nibble_land _ Ht) as [_ N].
  assert (sized b (3 + len (rle_chunks b) / 2)) as S.
  { split; [cbn; unfold XR_HEADER_LENGTH, RLE_REPORT_BLOCK_MIN_LENGTH|]; Z.div_mod_to_equations; lia. }
  assert (4 * (3 + len (rle_chunks b) / 2 - 1) = 8 + 2 * len (rle_chunks b)) as E by (Z.div_mod_to_equations; lia).
  unfold rle_unmarshal, rle_bytes, rle_xr_header. rewrite <- !app_assoc.
  rewrite (block_start b _ _ _ _ _ S) by apply nibble_fits. rewrite E. unfold RLE_REPORT_BLOCK_MIN_LENGTH.
  replace (8 + 2 * len (rle_chunks b) - 8) with (len (rle_chunks b) * 2) by lia.
  rewrite Z.mod_mul, Z.div_mul by lia.
  rewrite (proj2 (Z.ltb_ge _ 8)) by lia. rewrite (proj2 (Z.ltb_ge _ _)).
  2:{ rewrite !len_app, len_concat_put. autorewrite with len. len_pos. lia. }
  cbn [Z.eqb negb orb block_type type_specific]. cbv zeta. rewrite !N. unfold get_u32, get_u16.
  do 3 (rewrite get_put_uint by done; cbn [rbind]).
  replace (Z.to_nat (len (rle_chunks b))) with (length (rle_chunks b)) by (unfold len; lia).
  change (get_uint 2) with get_u16. rewrite read_u16s by done. cbn [rbind].
  destruct b as [[] ?????]; done.
Qed.

Lemma rle_post raw : Forall byte_ok raw → res_post (rle_unmarshal raw) (left_of 4 raw).
Proof.
  intros Hr. unfold rle_unmarshal. apply block_start_post; [done|]. intros h n r Hr1 L1 Hn Hm.
  unfold RLE_REPORT_BLOCK_MIN_LENGTH. parse.
  eapply res_post_bind; [apply (read_n_post get_u16 2); [lia| |done|Z.div_mod_to_equations; lia]|].
  { intros l Hl Ll. eapply res_post_mono; [by apply get_u16_post|]. by intros [??] (_ & ? & ?). }
  intros [cs r4] (_ & Hr4 & L4). simpl. split; [done|]. Z.div_mod_to_equations; lia.
Qed.

(** ** Receipt times *)

Definition prt_wf (b : PacketReceiptTimesReportBlock) : Prop :=
  fits 4 (prt_t b) ∧ fits 32 (prt_ssrc b) ∧ fits 16 (prt_begin_seq b) ∧ fits 16 (prt_end_seq b) ∧
  Forall (fits 32) (receipt_time b) ∧ len (receipt_time b) <= 16380.

Definition prt_bytes (b : PacketReceiptTimesReportBlock) : bytes :=
  xr_header_bytes (prt_xr_header b) ++ put_uint 4 (prt_ssrc b) ++ put_uint 2 (prt_begin_seq b) ++
  put_uint 2 (prt_end_seq b) ++ concat (put_uint 4 <$> receipt_time b).

Lemma prt_encodes b : encodes b (prt_bytes b).
Proof.
  assert (len (prt_bytes b) = marshal_size b) as L.
  { unfold prt_bytes. rewrite !len_app, len_xr_header, len_concat_put. autorewrite with len.
    cbn. unfold XR_HEADER_LENGTH, PRT_REPORT_BLOCK_MIN_LENGTH. lia. }
  encode_block b ltac:(unfold marshal_to, prt_marshal_to); [done|].
  rewrite put_xr_header by (cbn [room]; cbn in Hb; unfold XR_HEADER_LENGTH, PRT_REPORT_BLOCK_MIN_LENGTH in Hb; pose proof (len_nonneg (receipt_time b)); lia).
  rewrite <- finish_put by lia. unfold prt_bytes. do 4 (apply put_step; intros). by rewrite (put_all_put (put_uint 4)).
Qed.

Lemma prt_read b r : prt_wf b → prt_unmarshal (prt_bytes b ++ r) = Ok (b, r).
Proof.
  intros (Ht & H1 & H2 & H3 & Hc & Hn). pose proof (len_nonneg (receipt_time b)). destruct (nibble_land _ Ht) as [_ N].
  assert (sized b (3 + len (receipt_time b))) as S.
  { split; [cbn; unfold XR_HEADER_LENGTH, PRT_REPORT_BLOCK_MIN_LENGTH|]; lia. }
  unfold prt_unmarshal, prt_bytes, prt_xr_header. rewrite <- !app_assoc.
  rewrite (block_start b _ _ _ _ _ S) by apply nibble_fits. unfold PRT_REPORT_BLOCK_MIN_LENGTH.
  replace (4 * (3 + len (receipt_time b) - 1) - 8) with (len (receipt_time b) * 4) by lia.
  rewrite Z.mod_mul, Z.div_mul by lia.
  rewrite (proj2 (Z.ltb_ge _ 8)) by lia. rewrite (proj2 (Z.ltb_ge _ _)).
  2:{ rewrite !len_app, len_concat_put. autorewrite with len. len_pos. lia. }
  cbn [Z.eqb negb orb type_specific]. cbv zeta. rewrite !N. unfold get_u16, get_u32.
  do 3 (rewrite get_put_uint by done; cbn [rbind]).
  replace (Z.to_nat (len (receipt_time b))) with (length (receipt_time b)) by (unfold len; lia).
  change (get_uint 4) with get_u32. rewrite read_u32s by done. cbn [rbind]. by destruct b.
Qed.

Lemma prt_post raw : Forall byte_ok raw → res_post (prt_unmarshal raw) (left_of 4 raw).
Proof.
  intros Hr. unfold prt_unmarshal. apply block_start_post; [done|]. intros h n r Hr1 L1 Hn Hm.
  unfold PRT_REPORT_BLOCK_MIN_LENGTH. parse.
  eapply res_post_bind; [apply (read_n_post get_u32 4); [lia| |done|Z.div_mod_to_equations; lia]|].
  { intros l Hl Ll. eapply res_post_mono; [by apply get_u32_post|]. by intros [??] (_ & ? & ?). }
  intros [cs r4] (_ & Hr4 & L4). simpl. split; [done|]. Z.div_mod_to_equations; lia.
Qed.

(** ** Reference times *)

Definition rrt_wf (b : ReceiverReferenceTimeReportBlock) : Prop := fits 64 (ntp_timestamp b).
Definition rrt_bytes (b : ReceiverReferenceTimeReportBlock) : bytes :=
  xr_header_bytes (rrt_xr_header b) ++ put_uint 8 (ntp_timestamp b).

Lemma rrt_encodes b : encodes b (rrt_bytes b).
Proof.
  assert (len (rrt_bytes b) = marshal_size b) as L.
  { unfold rrt_bytes. rewrite !len_app, len_xr_header. autorewrite with len. done. }
  encode_block b ltac:(unfold marshal_to, rrt_marshal_to); [done|]. rewrite put_xr_header by (cbn [room]; change (marshal_size b) with 12 in Hb; lia).
  rewrite <- finish_put by lia. unfold rrt_bytes. by apply put_step.
Qed.

Lemma rrt_read b r : rrt_wf b → rrt_unmarshal (rrt_bytes b ++ r) = Ok (b, r).
Proof.
  intros Hb. unfold rrt_unmarshal, rrt_bytes, rrt_xr_header. rewrite <- !app_assoc.
  rewrite (block_start b 3) by (done || (split; [done|lia])). unfold RRT_REPORT_BLOCK_LENGTH.
  rewrite (proj2 (Z.ltb_ge _ _)) by (rewrite !len_app; autorewrite with len; len_pos; lia). cbn [Z.eqb Z.mul Z.sub Pos.mul negb orb].
  change (4 * (3 - 1) =? 8) with true. cbn [negb orb].
  unfold get_u64. rewrite get_put_uint by done. cbn [rbind]. by destruct b.
Qed.

Lemma rrt_post raw : Forall byte_ok raw → res_post (rrt_unmarshal raw) (left_of 4 raw).
Proof.
  intros Hr. unfold rrt_unmarshal. apply block_start_post; [done|]. intros h n r Hr1 L1 Hn Hm.
  unfold RRT_REPORT_BLOCK_LENGTH. parse. simpl. split; [done|lia].
Qed.

(** ** Delays since the last report *)

Definition dlrr_report_wf (r : DLRRReport) : Prop := fits 32 (dlrr_ssrc r) ∧ fits 32 (last_rr r) ∧ fits 32 (dlrr r).
Definition dlrr_wf (b : DLRRReportBlock) : Prop := Forall dlrr_report_wf (dlrr_reports b) ∧ len (dlrr_reports b) <= 5460.

Definition dlrr_report_bytes (r : DLRRReport) : bytes :=
  put_uint 4 (dlrr_ssrc r) ++ put_uint 4 (last_rr r) ++ put_uint 4 (dlrr r).
Definition dlrr_bytes (b : DLRRReportBlock) : bytes :=
  xr_header_bytes (dlrr_xr_header b) ++ concat (dlrr_report_bytes <$> dlrr_reports b).

Lemma len_dlrr_report r : len (dlrr_report_bytes r) = 12.
Proof. unfold dlrr_report_bytes. by autorewrite with len. Qed.

Lemma dlrr_encodes b : encodes b (dlrr_bytes b).
Proof.
  assert (len (dlrr_bytes b) = marshal_size b) as L.
  { unfold dlrr_bytes. rewrite len_app, len_xr_header, (len_concat_fixed _ 12) by apply len_dlrr_report.
    cbn. unfold XR_HEADER_LENGTH. lia. }
  encode_block b ltac:(unfold marshal_to, dlrr_marshal_to); [done|].
  rewrite put_xr_header by (cbn [room]; cbn in Hb; unfold XR_HEADER_LENGTH in Hb; pose proof (len_nonneg (dlrr_reports b)); lia).
  rewrite <- finish_put by lia. unfold dlrr_bytes. apply put_step. intros.
  rewrite (put_all_put dlrr_report_bytes); [done|]. intros x w' _. unfold dlrr_put, dlrr_report_bytes.
  apply put_then. intros. apply put_app.
Qed.

Lemma read_dlrrs_app rs offset n fuel r :
  Forall dlrr_report_wf rs → n = offset + 12 * len rs → 0 <= offset → n <= 65532 → len rs < Z.of_nat fuel →
  read_dlrrs fuel offset n (concat (dlrr_report_bytes <$> rs) ++ r) = Ok (rs, r).
Proof.
  intros Hw. revert offset fuel. induction Hw as [|x rs (H1 & H2 & H3) Hrs IH]; intros offset [|fuel] E Ho Hn Hf;
    try (unfold len in Hf; simpl in Hf; lia); cbn [read_dlrrs].
  - rewrite (proj2 (Z.ltb_ge _ _)); [done|]. rewrite E. change (len []) with 0. lia.
  - rewrite len_cons in *. pose proof (len_nonneg rs). rewrite (proj2 (Z.ltb_lt _ _)) by lia. csimpl.
    unfold dlrr_report_bytes at 1, get_u32. rewrite <- !app_assoc. do 3 (rewrite get_put_uint by done; cbn [rbind]).
    unfold DLRR_REPORT_LENGTH. rewrite wrap_small by (unfold fits; lia). rewrite IH by lia. cbn [rbind]. by destruct x.
Qed.

Lemma dlrr_read b r : dlrr_wf b → dlrr_unmarshal (dlrr_bytes b ++ r) = Ok (b, r).
Proof.
  intros (Hc & Hn). pose proof (len_nonneg (dlrr_reports b)).
  assert (sized b (1 + 3 * len (dlrr_reports b))) as S by (split; [cbn; unfold XR_HEADER_LENGTH|]; lia).
  assert (len (concat (dlrr_report_bytes <$> dlrr_reports b)) = 12 * len (dlrr_reports b)) as LC
    by (apply len_concat_fixed, len_dlrr_report).
  unfold dlrr_unmarshal, dlrr_bytes, dlrr_xr_header. rewrite <- !app_assoc.
  rewrite (block_start b _ _ _ _ _ S) by done. unfold DLRR_REPORT_LENGTH.
  replace (4 * (1 + 3 * len (dlrr_reports b) - 1)) with (len (dlrr_reports b) * 12) by lia.
  rewrite Z.mod_mul by lia. rewrite (proj2 (Z.ltb_ge _ _)) by (rewrite len_app, LC; len_pos; lia).
  cbn [Z.eqb negb orb]. rewrite read_dlrrs_app; [by destruct b|done|lia|lia|lia|].
  rewrite length_app. unfold len in *. lia.
Qed.

Lemma read_dlrrs_post fuel offset n raw :
  Forall byte_ok raw → 0 <= offset → n - offset <= len raw → (n - offset) mod 12 = 0 → n <= 65535 → n mod 4 = 0 →
  len raw < Z.of_nat fuel →
  res_post (read_dlrrs fuel offset n raw) (λ '(_, r), Forall byte_ok r ∧ len r <= len raw).
Proof.
  revert offset raw. induction fuel as [|fuel IH]; intros offset raw Hr Ho Hl Hm Hn H4 Hf; [len_pos; lia|].
  cbn [read_dlrrs]. destruct (Z.ltb_spec offset n); [|simpl; split; [done|lia]].
  assert (12 <= n - offset) by (Z.div_mod_to_equations; lia). parse.
  assert (n <= 65532) by (Z.div_mod_to_equations; lia).
  unfold DLRR_REPORT_LENGTH. rewrite wrap_small by (unfold fits; lia).
  eapply res_post_bind; [apply IH; [done|lia|lia| |done|done|lia]|].
  - replace (n - (offset + 12)) with (n - offset + (-1) * 12) by lia. by rewrite Z.mod_add.
  - intros [rs r9] [Hr9 L9]. simpl. split; [done|lia].
Qed.

Lemma dlrr_post raw : Forall byte_ok raw → res_post (dlrr_unmarshal raw) (left_of 4 raw).
Proof.
  intros Hr. unfold dlrr_unmarshal. apply block_start_post; [done|]. intros h n r Hr1 L1 Hn Hm.
  unfold DLRR_REPORT_LENGTH. parse.
  eapply res_post_bind; [apply read_dlrrs_post; [done|lia|lia|by rewrite Z.sub_0_r|lia|done|unfold len; lia]|].
  intros [rs r4] [Hr4 L4]. simpl. split; [done|lia].
Qed.

(** ** Statistics *)

Definition ssr_wf (b : StatisticsSummaryReportBlock) : Prop :=
  fits 32 (ssr_ssrc b) ∧ fits 16 (ssr_begin_seq b) ∧ fits 16 (ssr_end_seq b) ∧ fits 32 (ssr_lost_packets b) ∧
  fits 32 (dup_packets b) ∧ fits 32 (min_jitter b) ∧ fits 32 (max_jitter b) ∧ fits 32 (mean_jitter b) ∧
  fits 32 (dev_jitter b) ∧ byte_ok (min_ttl_or_hl b) ∧ byte_ok (max_ttl_or_hl b) ∧
  byte_ok (mean_ttl_or_hl b) ∧ byte_ok (dev_ttl_or_hl b).

Definition ssr_bytes (b : StatisticsSummaryReportBlock) : bytes :=
  xr_header_bytes (ssr_xr_header b) ++ put_uint 4 (ssr_ssrc b) ++ put_uint 2 (ssr_begin_seq b) ++
  put_uint 2 (ssr_end_seq b) ++ put_uint 4 (ssr_lost_packets b) ++ put_uint 4 (dup_packets b) ++
  put_uint 4 (min_jitter b) ++ put_uint 4 (max_jitter b) ++ put_uint 4 (mean_jitter b) ++
  put_uint 4 (dev_jitter b) ++ put_uint 1 (min_ttl_or_hl b) ++ put_uint 1 (max_ttl_or_hl b) ++
  put_uint 1 (mean_ttl_or_hl b) ++ put_uint 1 (dev_ttl_or_hl b).

Lemma ssr_encodes b : encodes b (ssr_bytes b).
Proof.
  assert (len (ssr_bytes b) = marshal_size b) as L.
  { unfold ssr_bytes. rewrite !len_app, len_xr_header. autorewrite with len. done. }
  encode_block b ltac:(unfold marshal_to, ssr_marshal_to); [done|].
  rewrite put_xr_header by (cbn [room]; change (marshal_size b) with 40 in Hb; lia).
  rewrite <- finish_put by lia. unfold ssr_bytes. by repeat (apply put_step; intros).
Qed.

(** The flags of a statistics block are recovered from its type-specific byte. *)
Lemma ssr_flags b :
  let ts := type_specific (ssr_xr_header b) in
  byte_ok ts ∧ negb (Z.land ts 0x80 =? 0) = loss_reports b ∧ negb (Z.land ts 0x40 =? 0) = duplicate_reports b ∧
  negb (Z.land ts 0x20 =? 0) = jitter_reports b ∧ ttl_from (Z.shiftr (Z.land ts 0x18) 3) = ttl_or_hop_limit b.
Proof. destruct b as [[] [] [] []]; concrete. Qed.

Lemma ssr_read b r : ssr_wf b → ssr_unmarshal (ssr_bytes b ++ r) = Ok (b, r).
Proof.
  intros (H1 & H2 & H3 & H4 & H5 & H6 & H7 & H8 & H9 & H10 & H11 & H12 & H13).
  destruct (ssr_flags b) as (Hts & F1 & F2 & F3 & F4). unfold ssr_unmarshal, ssr_bytes.
  assert (ssr_xr_header b = mkXRHeader StatisticsSummary (type_specific (ssr_xr_header b)) (block_words b)) as E by done.
  rewrite E. revert Hts F1 F2 F3 F4. generalize (type_specific (ssr_xr_header b)). intros ts Hts F1 F2 F3 F4. clear E.
  rewrite <- !app_assoc. rewrite (block_start b 10) by (done || (split; [done|lia])).
  rewrite (proj2 (Z.ltb_ge _ _)) by (rewrite !len_app; autorewrite with len; len_pos; lia).
  change (4 * (10 - 1) =? SSR_REPORT_BLOCK_LENGTH) with true. cbn [negb orb type_specific]. cbv zeta.
  unfold get_u32, get_u16, get_u8. do 13 (rewrite get_put_uint by done; cbn [rbind]).
  rewrite F1, F2, F3, F4. by destruct b.
Qed.

Lemma ssr_post raw : Forall byte_ok raw → res_post (ssr_unmarshal raw) (left_of 4 raw).
Proof.
  intros Hr. unfold ssr_unmarshal. apply block_start_post; [done|]. intros h n r Hr1 L1 Hn Hm.
  unfold SSR_REPORT_BLOCK_LENGTH. parse. simpl. split; [done|lia].
Qed.

(** ** Voice metrics *)

Definition vm_wf (b : VoIPMetricsReportBlock) : Prop :=
  fits 32 (vm_ssrc b) ∧
  Forall byte_ok [loss_rate b; discard_rate b; burst_density b; gap_density b; signal_level b; noise_level b;
    rerl b; gmin b; rfactor b; ext_rfactor b; mos_lq b; mos_cq b; rx_config b; vm_reserved b] ∧
  Forall (fits 16) [burst_duration b; gap_duration b; round_trip_delay b; end_system_delay b;
    jb_nominal b; jb_maximum b; jb_abs_max b].

Definition vm_bytes (b : VoIPMetricsReportBlock) : bytes :=
  xr_header_bytes (vm_xr_header b) ++ put_uint 4 (vm_ssrc b) ++ put_uint 1 (loss_rate b) ++
  put_uint 1 (discard_rate b) ++ put_uint 1 (burst_density b) ++ put_uint 1 (gap_density b) ++
  put_uint 2 (burst_duration b) ++ put_uint 2 (gap_duration b) ++ put_uint 2 (round_trip_delay b) ++
  put_uint 2 (end_system_delay b) ++ put_uint 1 (signal_level b) ++ put_uint 1 (noise_level b) ++
  put_uint 1 (rerl b) ++ put_uint 1 (gmin b) ++ put_uint 1 (rfactor b) ++ put_uint 1 (ext_rfactor b) ++
  put_uint 1 (mos_lq b) ++ put_uint 1 (mos_cq b) ++ put_uint 1 (rx_config b) ++ put_uint 1 (vm_reserved b) ++
  put_uint 2 (jb_nominal b) ++ put_uint 2 (jb_maximum b) ++ put_uint 2 (jb_abs_max b).

Lemma vm_encodes b : encodes b (vm_bytes b).
Proof.
  assert (len (vm_bytes b) = marshal_size b) as L.
  { unfold vm_bytes. rewrite !len_app, len_xr_header. autorewrite with len. done. }
  encode_block b ltac:(unfold marshal_to, vm_marshal_to); [done|].
  rewrite put_xr_header by (cbn [room]; change (marshal_size b) with 36 in Hb; lia).
  rewrite <- finish_put by lia. unfold vm_bytes. by repeat (apply put_step; intros).
Qed.

Lemma vm_read b r : vm_wf b → vm_unmarshal (vm_bytes b ++ r) = Ok (b, r).
Proof.
  intros (H1 & H2 & H3). repeat match goal with H : Forall _ (_ :: _) |- _ => apply Forall_cons in H as [? H] end.
  unfold vm_unmarshal, vm_bytes, vm_xr_header. rewrite <- !app_assoc.
  rewrite (block_start b 9) by (done || (split; [done|lia])).
  rewrite (proj2 (Z.ltb_ge _ _)) by (rewrite !len_app; autorewrite with len; len_pos; lia).
  change (4 * (9 - 1) =? VM_REPORT_BLOCK_LENGTH) with true. cbn [negb orb].
  unfold get_u32, get_u16, get_u8. do 22 (rewrite get_put_uint by done; cbn [rbind]). by destruct b.
Qed.

Lemma vm_post raw : Forall byte_ok raw → res_post (vm_unmarshal raw) (left_of 4 raw).
Proof.
  intros Hr. unfold vm_unmarshal. apply block_start_post; [done|]. intros h n r Hr1 L1 Hn Hm.
  unfold VM_REPORT_BLOCK_LENGTH. parse. simpl. split; [done|lia].
Qed.

(** ** Unknown blocks *)

Definition unknown_wf (b : UnknownReportBlock) : Prop :=
  Forall byte_ok (unknown_bytes b) ∧ len (unknown_bytes b) mod 4 = 0 ∧ len (unknown_bytes b) <= 65532.
Definition unknown_block_bytes (b : UnknownReportBlock) : bytes :=
  xr_header_bytes (unknown_xr_header b) ++ unknown_bytes b.

Lemma unknown_encodes b : encodes b (unknown_block_bytes b).
Proof.
  assert (len (unknown_block_bytes b) = marshal_size b) as L.
  { unfold unknown_block_bytes. rewrite !len_app, len_xr_header. done. }
  encode_block b ltac:(unfold marshal_to, unknown_marshal_to); [done|].
  rewrite put_xr_header by (cbn [room]; cbn in Hb; unfold XR_HEADER_LENGTH in Hb; pose proof (len_nonneg (unknown_bytes b)); lia).
  rewrite <- finish_put by lia. unfold unknown_block_bytes. by apply put_step.
Qed.

Lemma unknown_read b r : unknown_wf b → unknown_unmarshal (unknown_block_bytes b ++ r) = Ok (b, r).
Proof.
  intros (_ & Hm & Hn). pose proof (len_nonneg (unknown_bytes b)).
  assert (sized b (1 + len (unknown_bytes b) / 4)) as S by (split; [cbn; unfold XR_HEADER_LENGTH|]; Z.div_mod_to_equations; lia).
  unfold unknown_unmarshal, unknown_block_bytes, unknown_xr_header. rewrite <- !app_assoc.
  rewrite (block_start b _ _ _ _ _ S) by done.
  replace (4 * (1 + len (unknown_bytes b) / 4 - 1)) with (len (unknown_bytes b)) by (Z.div_mod_to_equations; lia).
  rewrite (proj2 (Z.ltb_ge _ _)) by (rewrite len_app; len_pos; lia). rewrite copy_to_bytes_app. by destruct b.
Qed.

Lemma unknown_post raw : Forall byte_ok raw → res_post (unknown_unmarshal raw) (left_of 4 raw).
Proof.
  intros Hr. unfold unknown_unmarshal. apply block_start_post; [done|]. intros h n r Hr1 L1 Hn Hm.
  parse. simpl. split; [done|lia].
Qed.

(** ** Any block *)

Definition block_wf (b : ReportBlock) : Prop :=
  match b with
  | RbRle b => rle_wf b | RbPrt b => prt_wf b | RbRrt b => rrt_wf b | RbDlrr b => dlrr_wf b
  | RbSsr b => ssr_wf b | RbVm b => vm_wf b | RbUnknown b => unknown_wf b
  end.

Definition block_encoding (b : ReportBlock) : bytes :=
  match b with
  | RbRle b => rle_bytes b | RbPrt b => prt_bytes b | RbRrt b => rrt_bytes b | RbDlrr b => dlrr_bytes b
  | RbSsr b => ssr_bytes b | RbVm b => vm_bytes b | RbUnknown b => unknown_block_bytes b
  end.

Lemma block_encodes b : encodes b (block_encoding b).
Proof.
  destruct b; [apply rle_encodes|apply prt_encodes|apply rrt_encodes|apply dlrr_encodes|apply ssr_encodes|
    apply vm_encodes|apply unknown_encodes].
Qed.

Lemma len_block b : len (block_encoding b) = marshal_size b.
Proof. apply block_encodes. Qed.

Lemma block_first h r : index (xr_header_bytes h ++ r) 0 = Ok (block_type_u8 (block_type h)).
Proof. unfold xr_header_bytes. by rewrite put_uint_1 by apply block_type_fits. Qed.

Lemma block_read b r : block_wf b → block_unmarshal (block_encoding b ++ r) = Ok (b, r).
Proof.
  intros Hw. unfold block_unmarshal.
  destruct b as [b|b|b|b|b|b|b]; cbn [block_encoding block_wf] in *;
    [unfold rle_bytes at 1|unfold prt_bytes at 1|unfold rrt_bytes at 1|unfold dlrr_bytes at 1|unfold ssr_bytes at 1|
     unfold vm_bytes at 1|unfold unknown_block_bytes at 1];
    rewrite <- app_assoc, block_first; cbn [rbind]; rewrite block_type_roundtrip; cbn [block_type].
  - unfold rle_xr_header at 1. cbn [block_type]. destruct (is_loss_rle b); by rewrite rle_read.
  - by rewrite prt_read.
  - by rewrite rrt_read.
  - by rewrite dlrr_read.
  - by rewrite ssr_read.
  - by rewrite vm_read.
  - by rewrite unknown_read.
Qed.

Lemma boxed_post {A} (box : A → ReportBlock) m raw : res_post m (left_of 4 raw) → res_post (boxed box m) (left_of 4 raw).
Proof. intros Hm. unfold boxed. eapply res_post_bind; [exact Hm|]. by intros [??]. Qed.

Lemma block_post raw : Forall byte_ok raw → 1 <= len raw → res_post (block_unmarshal raw) (left_of 4 raw).
Proof.
  intros Hr Hl. unfold block_unmarshal. destruct raw as [|b0 raw]; [unfold len in Hl; simpl in Hl; lia|].
  change (index (b0 :: raw) 0) with (Ok b0). cbn [rbind].
  destruct (block_type_from b0); apply boxed_post; by first [apply rle_post|apply prt_post|apply rrt_post|apply dlrr_post|
    apply ssr_post|apply vm_post|apply unknown_post].
Qed.

(** ** Packets *)

Definition xr_wf (p : ExtendedReportPacket) : Prop :=
  fits 32 (xr_sender_ssrc p) ∧ Forall block_wf (xr_reports p) ∧ raw_size p <= 262144.

Definition xr_body (p : ExtendedReportPacket) : bytes :=
  put_uint 4 (xr_sender_ssrc p) ++ concat (block_encoding <$> xr_reports p).

Lemma len_concat_total {A} (g : A → bytes) (f : A → Z) xs :
  (∀ x, len (g x) = f x) → foldl (λ n x, n + f x) 0 xs = len (concat (g <$> xs)).
Proof.
  intros Hg. enough (∀ n, foldl (λ n x, n + f x) n xs = n + len (concat (g <$> xs))) as H by (by rewrite H).
  induction xs as [|x xs IH]; intros n; [csimpl; change (len []) with 0; lia|].
  cbn [foldl]. csimpl. rewrite IH, len_app, Hg. lia.
Qed.

Lemma xr_raw_size p : raw_size p = 8 + len (concat (block_encoding <$> xr_reports p)).
Proof.
  cbn. unfold RTCP_HEADER_LENGTH, SSRC_LENGTH. rewrite (len_concat_total block_encoding marshal_size) by apply len_block. lia.
Qed.

Lemma len_xr_body p : len (xr_body p) = raw_size p - 4.
Proof. rewrite xr_raw_size. unfold xr_body. autorewrite with len. lia. Qed.

Lemma xr_encodes p : encodes p (frame p (xr_body p)).
Proof.
  pose proof (len_frame p _ (len_xr_body p)) as L.
  encode_frame p L ltac:(unfold marshal_to, xr_marshal_to) idtac.
  pose proof (xr_raw_size p). pose proof (len_nonneg (concat (block_encoding <$> xr_reports p))).
  rewrite put_header by (done || (cbn [room]; lia)). unfold frame, xr_body. rewrite <- !app_assoc.
  apply put_step_room; [autorewrite with len; cbn [room]; lia|]. intros w1 L1. autorewrite with len in L1. cbn [room] in L1.
  apply put_step_room; [autorewrite with len; lia|]. intros w2 L2. autorewrite with len in L2.
  rewrite (put_all_encoded block_encoding) by (try lia; intros; apply block_encodes).
  apply put_step. intros. cbn [header xr_packet body_header rtcp_padding]. by rewrite put_padding_if.
Qed.

Lemma block_size_ge b : 4 <= len (block_encoding b).
Proof.
  destruct b; cbn [block_encoding]; unfold rle_bytes, prt_bytes, rrt_bytes, dlrr_bytes, ssr_bytes, vm_bytes, unknown_block_bytes;
    rewrite len_app, len_xr_header; len_pos; lia.
Qed.

Lemma read_blocks_app bs offset total fuel :
  Forall block_wf bs → total = offset + len (concat (block_encoding <$> bs)) → len bs < Z.of_nat fuel →
  read_blocks fuel offset total (concat (block_encoding <$> bs)) = Ok (bs, []).
Proof.
  intros Hw. revert offset fuel. induction Hw as [|b bs Hb Hbs IH]; intros offset [|fuel] Ho Hf;
    try (unfold len in Hf; simpl in Hf; lia); [done|]. cbn [read_blocks].
  csimpl in Ho. csimpl. rewrite len_app in *. pose proof (block_size_ge b). pose proof (len_nonneg (concat (block_encoding <$> bs))).
  rewrite (proj2 (Z.ltb_lt _ _)) by lia. unfold XR_HEADER_LENGTH. rewrite (proj2 (Z.ltb_ge _ _)) by lia.
  rewrite block_read by done. cbn [rbind]. rewrite len_cons in Hf. rewrite IH; [done| |lia]. rewrite len_block in Ho. lia.
Qed.

Lemma block_mod b : block_wf b → len (block_encoding b) mod 4 = 0.
Proof.
  rewrite len_block. destruct b as [b|b|b|b|b|b|b]; cbn; unfold XR_HEADER_LENGTH, RLE_REPORT_BLOCK_MIN_LENGTH, PRT_REPORT_BLOCK_MIN_LENGTH; intros Hw; try done.
  - destruct Hw as (_ & _ & _ & _ & _ & Hm & _). Z.div_mod_to_equations; lia.
  - Z.div_mod_to_equations; lia.
  - Z.div_mod_to_equations; lia.
  - destruct Hw as (_ & Hm & _). Z.div_mod_to_equations; lia.
Qed.

Lemma blocks_mod bs : Forall block_wf bs → len (concat (block_encoding <$> bs)) mod 4 = 0.
Proof.
  induction 1 as [|b bs Hb Hbs IH]; [done|]. csimpl. rewrite len_app, Zplus_mod, (block_mod b Hb), IH. done.
Qed.

Lemma xr_read p : xr_wf p → xr_unmarshal (frame p (xr_body p)) = Ok (p, []).
Proof.
  intros (H1 & Hb & Hs). pose proof (len_frame p _ (len_xr_body p)) as L. pose proof (xr_raw_size p) as RS.
  pose proof (blocks_mod _ Hb) as M. pose proof (len_nonneg (concat (block_encoding <$> xr_reports p))).
  destruct (words_header p (2 + len (concat (block_encoding <$> xr_reports p)) / 4)) as (E & LW & P).
  { rewrite RS. Z.div_mod_to_equations; lia. }
  { Z.div_mod_to_equations; lia. }
  unfold xr_unmarshal, RTCP_HEADER_LENGTH, SSRC_LENGTH. cbv zeta. rewrite L, E.
  rewrite (proj2 (Z.ltb_ge _ _)) by (Z.div_mod_to_equations; lia).
  unfold frame. rewrite P, app_nil_r. cbn [header xr_packet].
  rewrite body_header_read by done. cbn [rbind packet_type body_header]. rewrite bool_decide_true by done. cbn [negb].
  unfold xr_body, get_u32. rewrite get_put_uint by done. cbn [rbind]. rewrite read_blocks_app; [by destruct p|done| |].
  - Z.div_mod_to_equations; lia.
  - assert (len (xr_reports p) <= len (concat (block_encoding <$> xr_reports p))); [|unfold len in *; lia].
    clear. induction (xr_reports p) as [|b bs IH]; [done|]. csimpl. rewrite len_cons, len_app. pose proof (block_size_ge b). lia.
Qed.

Lemma read_blocks_post fuel offset total raw :
  Forall byte_ok raw → len raw < Z.of_nat fuel →
  res_post (read_blocks fuel offset total raw) (λ '(_, r), Forall byte_ok r ∧ len r <= len raw).
Proof.
  revert offset raw. induction fuel as [|fuel IH]; intros offset raw Hr Hf; [len_pos; lia|]. cbn [read_blocks].
  destruct (Z.ltb_spec 0 (len raw)); [|simpl; split; [done|lia]]. parse_step; [done|].
  eapply res_post_bind; [apply block_post; [done|lia]|]. intros [b r] [Hr1 L1].
  eapply res_post_bind; [apply IH; [done|lia]|]. intros [bs r2] [Hr2 L2]. simpl. split; [done|lia].
Qed.

Lemma xr_post raw : Forall byte_ok raw → res_post (xr_unmarshal raw) (left_of 4 raw).
Proof.
  intros Hr. unfold xr_unmarshal, RTCP_HEADER_LENGTH, SSRC_LENGTH. cbv zeta. parse_step; [done|]. bool_facts.
  eapply res_post_bind; [by apply rtcp_header_post|]. intros [h r] (Hn & _ & Hr1 & L1). parse.
  eapply res_post_bind; [apply read_blocks_post; [done|unfold len; lia]|].
  intros [bs r9] [Hr9 L9]. simpl. split; [done|lia].
Qed.

End XrLemmas.

Import BigEndian.

(** A run-length block with an odd number of chunks announces one chunk less than it has: the
    packet it is in is refused when it is read. *)
Lemma odd_rle_block_refused :
  let p := mkXr 1 [RbRle (mkRle true 0 2 100 120 [0x4006; 0x0007; 0xE5F1])] in
  match marshal p with
  | Ok bs => len bs = 28 ∧ xr_unmarshal bs = Err PacketTooShort
  | _ => False
  end.
Proof. vm_compute. split; reflexivity. Qed.
