(* ===== verification/RtcpPacket.v ===== *)
(** RTCP datagrams: [rtc-rtcp/src/packet.rs], [raw_packet.rs] and [compound_packet].

    [any_packet] boxes the packets that [unmarshaller] creates.  A datagram made of well-formed
    packets is read back as these packets ([rtcp_roundtrip]); no datagram makes the parser
    panic ([rtcp_unmarshal_safe]); the compound packets that [validate] accepts are
    characterised, and [cname] finds the name in all of them ([compound_valid]). *)

From Stdlib Require Import SpecFloat.
From S2P Require Import Prelude Codec Rtcp RtcpReport RtcpFeedback RtcpSdes RtcpTwcc RtcpRemb RtcpXr.

(** * Raw packets *)

Record RawPacket := mkRaw { raw_bytes : bytes }.

Section RawCodec.
Context {BC : BytesCrate}.

#[export] Instance raw_packet : Packet RawPacket := {|
  header p := match rtcp_header_unmarshal (raw_bytes p) with Ok (h, _) => h | _ => default_header end;
  destination_ssrc _ := [];
  raw_size p := len (raw_bytes p)
|}.

#[export] Instance raw_packet_size : MarshalSize RawPacket := aligned_size.

#[export] Instance raw_marshal_to : Marshal RawPacket := λ p buf,
  let! (h, _) := rtcp_header_unmarshal (raw_bytes p) in
  let! w := put (raw_bytes p) (Wbuf [] buf) in
  let! w := if rtcp_padding h then put_padding (raw_size p) w else Ok w in
  finish (marshal_size p) w.

Definition raw_unmarshal (raw : bytes) : res (RawPacket * bytes) :=
  if len raw <? RTCP_HEADER_LENGTH then Err PacketTooShort
  else
    let! (h, raw) := rtcp_header_unmarshal raw in
    let! raw_hdr := marshal h in
    let! (raw_body, raw) := copy_to_bytes (len raw) raw in
    Ok (mkRaw (raw_hdr ++ raw_body), raw).

End RawCodec.

(** * [Box<dyn Packet>] *)

Inductive any_packet :=
| PSr (p : SenderReportPacket)
| PRr (p : ReceiverReportPacket)
| PSdes (p : SourceDescriptionPacket)
| PBye (p : GoodbyePacket)
| PNack (p : TransportLayerNack)
| PRrr (p : RapidResynchronizationRequest)
| PTcc (p : TransportLayerCc)
| PPli (p : PictureLossIndication)
| PSli (p : SliceLossIndication)
| PRemb (p : ReceiverEstimatedMaximumBitrate)
| PFir (p : FullIntraRequest)
| PXr (p : ExtendedReportPacket)
| PRaw (p : RawPacket).

Section Dispatch.
Context {BC : BytesCrate}.

(** The virtual calls of [dyn Packet]. *)
#[export] Instance any_size : MarshalSize any_packet := λ p,
  match p with
  | PSr p => marshal_size p | PRr p => marshal_size p | PSdes p => marshal_size p | PBye p => marshal_size p
  | PNack p => marshal_size p | PRrr p => marshal_size p | PTcc p => marshal_size p | PPli p => marshal_size p
  | PSli p => marshal_size p | PRemb p => marshal_size p | PFir p => marshal_size p | PXr p => marshal_size p
  | PRaw p => marshal_size p
  end.

#[export] Instance any_marshal_to : Marshal any_packet := λ p buf,
  match p with
  | PSr p => marshal_to p buf | PRr p => marshal_to p buf | PSdes p => marshal_to p buf | PBye p => marshal_to p buf
  | PNack p => marshal_to p buf | PRrr p => marshal_to p buf | PTcc p => marshal_to p buf | PPli p => marshal_to p buf
  | PSli p => marshal_to p buf | PRemb p => marshal_to p buf | PFir p => marshal_to p buf | PXr p => marshal_to p buf
  | PRaw p => marshal_to p buf
  end.

Definition any_ssrcs (p : any_packet) : list Z :=
  match p with
  | PSr p => destination_ssrc p | PRr p => destination_ssrc p | PSdes p => destination_ssrc p
  | PBye p => destination_ssrc p | PNack p => destination_ssrc p | PRrr p => destination_ssrc p
  | PTcc p => destination_ssrc p | PPli p => destination_ssrc p | PSli p => destination_ssrc p
  | PRemb p => destination_ssrc p | PFir p => destination_ssrc p | PXr p => destination_ssrc p
  | PRaw p => destination_ssrc p
  end.

(** [Box::new(T::unmarshal(&mut in_packet)?)] *)
Definition box {A} (c : A → any_packet) (m : res (A * bytes)) : res (any_packet * bytes) :=
  let! (a, raw) := m in Ok (c a, raw).

(** The choice of the parser by type and count. *)
Definition dispatch (h : RtcpHeader) (in_packet : bytes) : res (any_packet * bytes) :=
  match packet_type h with
  | SenderReport => box PSr (sender_report_unmarshal in_packet)
  | ReceiverReport => box PRr (receiver_report_unmarshal in_packet)
  | SourceDescription => box PSdes (sdes_unmarshal in_packet)
  | Goodbye => box PBye (goodbye_unmarshal in_packet)
  | TransportSpecificFeedback =>
      if count h =? FORMAT_TLN then box PNack (nack_unmarshal in_packet)
      else if count h =? FORMAT_RRR then box PRrr (rrr_unmarshal in_packet)
      else if count h =? FORMAT_TCC then box PTcc (tcc_unmarshal in_packet)
      else box PRaw (raw_unmarshal in_packet)
  | PayloadSpecificFeedback =>
      if count h =? FORMAT_PLI then box PPli (pli_unmarshal in_packet)
      else if count h =? FORMAT_SLI then box PSli (sli_unmarshal in_packet)
      else if count h =? FORMAT_REMB then box PRemb (remb_unmarshal in_packet)
      else if count h =? FORMAT_FIR then box PFir (fir_unmarshal in_packet)
      else box PRaw (raw_unmarshal in_packet)
  | ExtendedReport => box PXr (xr_unmarshal in_packet)
  | _ => box PRaw (raw_unmarshal in_packet)
  end.

(** [unmarshaller]: the header is read, written again and chained with the [length] bytes
    that follow; what the parser does not read stays in the input. *)
Definition unmarshaller (raw_data : bytes) : res (any_packet * bytes) :=
  let! (h, raw_data) := rtcp_header_unmarshal raw_data in
  let length := rtcp_length h * 4 in
  if len raw_data <? length then Err PacketTooShort
  else
    let! (_, header_buf) := marshal_to h (replicate (Z.to_nat RTCP_HEADER_LENGTH) 0) in
    let in_packet := header_buf ++ take (Z.to_nat length) raw_data in
    let! (p, rest) := dispatch h in_packet in
    Ok (p, rest ++ drop (Z.to_nat length) raw_data).

(** [packet::unmarshal]'s loop, [while raw_data.has_remaining()]. *)
Fixpoint unmarshal_loop (fuel : nat) (raw_data : bytes) : res (list any_packet) :=
  match fuel with
  | O => Panic
  | S fuel =>
      if len raw_data =? 0 then Ok []
      else
        let! (p, raw_data) := unmarshaller raw_data in
        let! ps := unmarshal_loop fuel raw_data in
        Ok (p :: ps)
  end.

Definition rtcp_unmarshal (raw_data : bytes) : res (list any_packet) :=
  let! packets := unmarshal_loop (S (length raw_data)) raw_data in
  match packets with [] => Err InvalidHeader | _ => Ok packets end.

(** [packet::marshal]'s loop, [offset += p.marshal_to(&mut out[offset..])?]. *)
Fixpoint marshal_loop (packets : list any_packet) (offset : Z) (out : bytes) : res bytes :=
  match packets with
  | [] => Ok out
  | p :: packets =>
      let! rest := slice out offset (len out) in
      let! (n, rest) := marshal_to p rest in
      marshal_loop packets (offset + n) (take (Z.to_nat offset) out ++ rest)
  end.

Definition rtcp_marshal (packets : list any_packet) : res bytes :=
  let total := foldl (λ n p, n + marshal_size p) 0 packets in
  marshal_loop packets 0 (replicate (Z.to_nat total) 0).

(** * Compound packets *)

Definition compound_raw_size (c : list any_packet) : Z := foldl (λ n p, n + marshal_size p) 0 c.

Definition compound_size (c : list any_packet) : Z :=
  let l := compound_raw_size c in l + get_padding_size l.

(** [has_cname]: some item of some chunk is a CNAME. *)
Definition has_cname (p : SourceDescriptionPacket) : bool :=
  existsb (λ c, existsb (λ it, bool_decide (sdes_type it = SdesCname)) (sdes_items c)) (sdes_chunks p).

Fixpoint validate_rest (c : list any_packet) : res unit :=
  match c with
  | [] => Err MissingCname
  | PRr _ :: c => validate_rest c
  | PSdes p :: _ => if has_cname p then Ok tt else Err MissingCname
  | _ :: _ => Err PacketBeforeCname
  end.

Definition validate (c : list any_packet) : res unit :=
  match c with
  | [] => Err EmptyCompound
  | PSr _ :: c | PRr _ :: c => validate_rest c
  | _ :: _ => Err BadFirstPacket
  end.

(** The text of the first CNAME item of the packet, [return Ok(it.text.clone())]. *)
Definition first_cname (p : SourceDescriptionPacket) : option bytes :=
  sdes_text <$> head (filter (λ it, sdes_type it = SdesCname) (concat (sdes_items <$> sdes_chunks p))).

Fixpoint cname_rest (c : list any_packet) : res bytes :=
  match c with
  | [] => Err MissingCname
  | PSdes p :: c => match first_cname p with Some t => Ok t | None => cname_rest c end
  | PRr _ :: c => cname_rest c
  | _ :: _ => Err PacketBeforeCname
  end.

Definition cname (c : list any_packet) : res bytes :=
  match c with
  | [] => Err EmptyCompound
  | _ :: c => cname_rest c
  end.

Definition compound_marshal_to (c : list any_packet) (buf : bytes) : res (Z * bytes) :=
  let! _ := validate c in
  let! w := put_all put_marshal c (Wbuf [] buf) in
  finish (compound_size c) w.

Definition compound_unmarshal (raw : bytes) : res (list any_packet) :=
  let! packets := unmarshal_loop (S (length raw)) raw in
  let! _ := validate packets in
  Ok packets.

End Dispatch.

(** * Lemmas *)

(** The headers whose packets are kept raw. *)
Definition kept_raw (h : RtcpHeader) : bool :=
  match packet_type h with
  | Unsupported | ApplicationDefined => true
  | TransportSpecificFeedback =>
      negb (count h =? FORMAT_TLN) && negb (count h =? FORMAT_RRR) && negb (count h =? FORMAT_TCC)
  | PayloadSpecificFeedback =>
      negb (count h =? FORMAT_PLI) && negb (count h =? FORMAT_SLI) && negb (count h =? FORMAT_REMB) &&
      negb (count h =? FORMAT_FIR)
  | _ => false
  end.

Section PacketLemmas.
Context {BC : BytesCrate}.

(** A packet on the wire: a header and as many words as it announces. *)
Definition framed (h : RtcpHeader) (bs : bytes) : Prop :=
  ∃ body, bs = rtcp_header_bytes h ++ body ∧ len body = 4 * rtcp_length h ∧ 0 <= count h < 32 ∧
    fits 16 (rtcp_length h).

(** The header of a boxed packet, [dyn Packet::header]. *)
Definition any_header (p : any_packet) : RtcpHeader :=
  match p with
  | PSr p => header p | PRr p => header p | PSdes p => header p | PBye p => header p
  | PNack p => header p | PRrr p => header p | PTcc p => header p | PPli p => header p
  | PSli p => header p | PRemb p => header p | PFir p => header p | PXr p => header p
  | PRaw p => header p
  end.

Definition any_wf (p : any_packet) : Prop :=
  match p with
  | PSr p => sr_wf p ∧ len (sr_profile_extensions p) mod 4 = 0 ∧ aligned_size p <= 262144
  | PRr p => rr_wf p ∧ len (rr_profile_extensions p) mod 4 = 0 ∧ aligned_size p <= 262144
  | PSdes p => sdes_wf p
  | PBye p => bye_wf p
  | PNack p => nack_wf p
  | PRrr p => rrr_wf p
  | PTcc p => tcc_wf p
  | PPli p => pli_wf p
  | PSli p => False
  | PRemb p => ∃ m e, remb_ok p m e ∧ kept m e = Zpos m
  | PFir p => fir_wf p
  | PXr p => xr_wf p
  | PRaw p => kept_raw (header p) = true ∧ framed (header p) (raw_bytes p)
  end.

(** The bytes of a packet. *)
Definition any_bytes (p : any_packet) : bytes :=
  match p with
  | PSr p => frame p (sr_body p)
  | PRr p => frame p (rr_body p)
  | PSdes p => frame p (sdes_body p)
  | PBye p => frame p (bye_body p)
  | PNack p => frame p (nack_body p)
  | PRrr p => frame p (rrr_body p)
  | PTcc p => frame p (tcc_body p)
  | PPli p => frame p (pli_body p)
  | PSli p => frame p (sli_body p)
  | PRemb p => match bitrate p with S754_finite _ m e => remb_frame p m e | _ => [] end
  | PFir p => frame p (fir_body p)
  | PXr p => frame p (xr_body p)
  | PRaw p => raw_bytes p
  end.

Lemma frame_framed `{Packet T} (p : T) body cnt t :
  header p = body_header (raw_size p) cnt t → 0 <= cnt < 32 →
  len body = raw_size p - 4 → 4 <= raw_size p → aligned_size p <= 262144 → framed (header p) (frame p body).
Proof.
  intros Hh Hc Hb H4 Hs. exists (body ++ padding_bytes (raw_size p)). unfold aligned_size in Hs.
  destruct (padding_size_bounds (raw_size p)) as [Hp M]. rewrite Hh. cbn [body_header rtcp_length count].
  rewrite wrap_small by (unfold fits; Z.div_mod_to_equations; lia).
  split_and!; [unfold frame; by rewrite Hh|rewrite len_app, len_padding, Hb|lia|lia|unfold fits]; Z.div_mod_to_equations; lia.
Qed.

Lemma raw_header h body r :
  0 <= count h < 32 → fits 16 (rtcp_length h) → header (mkRaw (rtcp_header_bytes h ++ body)) = h ∧
  rtcp_header_unmarshal ((rtcp_header_bytes h ++ body) ++ r) = Ok (h, body ++ r).
Proof.
  intros Hc Hl. split; [|by rewrite <- app_assoc, rtcp_header_read].
  cbn [header raw_packet raw_bytes]. by rewrite rtcp_header_read.
Qed.

Lemma raw_encodes p : framed (header p) (raw_bytes p) → encodes p (raw_bytes p).
Proof.
  intros (body & E & Lb & Hc & Hl). set (h := header p) in *. clearbody h.
  assert (len (raw_bytes p) mod 4 = 0) as M.
  { rewrite E, len_app, len_rtcp_header, Lb. replace (4 + 4 * rtcp_length h) with ((1 + rtcp_length h) * 4) by lia. by apply Z.mod_mul. }
  assert (marshal_size p = len (raw_bytes p)) as S.
  { unfold marshal_size, raw_packet_size, aligned_size. cbn [raw_size raw_packet]. rewrite (proj1 (unpadded_size _) M). lia. }
  split; [done|]. intros buf Hb. rewrite S in *. unfold marshal_to, raw_marshal_to. rewrite S, E.
  rewrite rtcp_header_read by done. cbn [rbind]. rewrite <- E. cbn [raw_size raw_packet].
  assert (∀ w, (if rtcp_padding h then put_padding (len (raw_bytes p)) w else Ok w) = Ok w) as HP.
  { intros w. destruct (rtcp_padding h); [|done]. by rewrite put_padding_put, unpadded, put_nil by done. }
  rewrite put_Ok by (cbn [room]; lia). cbn [rbind]. rewrite HP. cbn [rbind].
  unfold finish. cbn [written room app]. done.
Qed.

Lemma any_encodes p : any_wf p → encodes p (any_bytes p).
Proof.
  destruct p as [p|p|p|p|p|p|p|p|p|p|p|p|p]; cbn [any_wf any_bytes].
  - intros [? _]. by apply sr_encodes.
  - intros [? _]. by apply rr_encodes.
  - apply sdes_encodes.
  - apply bye_encodes.
  - apply nack_encodes.
  - intros _. apply rrr_encodes.
  - apply tcc_encodes.
  - intros _. apply pli_encodes.
  - done.
  - intros (m & e & Hok & _). pose proof Hok as (_ & _ & _ & -> & _). by apply remb_encodes.
  - intros _. apply fir_encodes.
  - intros _. apply xr_encodes.
  - intros [_ ?]. by apply raw_encodes.
Qed.

Lemma raw_read p : framed (header p) (raw_bytes p) → raw_unmarshal (raw_bytes p) = Ok (p, []).
Proof.
  intros (body & E & Lb & Hc & Hl). set (h := header p) in *. clearbody h. unfold raw_unmarshal, RTCP_HEADER_LENGTH.
  rewrite E. rewrite (proj2 (Z.ltb_ge _ _)) by (rewrite len_app, len_rtcp_header; len_pos; lia).
  rewrite rtcp_header_read by done. cbn [rbind].
  rewrite (encodes_marshal h (rtcp_header_bytes h)) by (by apply rtcp_header_encodes). cbn [rbind].
  rewrite copy_all. cbn [rbind]. rewrite <- E. by destruct p.
Qed.

(** Every well-formed packet is framed, and its parser is the one that is chosen. *)
Lemma any_framed p : any_wf p → framed (any_header p) (any_bytes p).
Proof.
  destruct p as [p|p|p|p|p|p|p|p|p|p|p|p|p]; cbn [any_wf any_bytes any_header]; intros Hw.
  - destruct Hw as [(_ & _ & _ & _ & _ & _ & Hn & _) [_ Hs]]. pose proof (len_nonneg (sr_reports p)).
    apply (frame_framed p _ (u8 (len (sr_reports p))) SenderReport); [done|by apply u8_count|apply len_sr_body| |done].
    rewrite sr_raw_size. len_pos. lia.
  - destruct Hw as [(_ & _ & Hn & _) [_ Hs]]. pose proof (len_nonneg (rr_reports p)).
    apply (frame_framed p _ (u8 (len (rr_reports p))) ReceiverReport); [done|by apply u8_count|apply len_rr_body| |done].
    rewrite rr_raw_size. len_pos. lia.
  - destruct Hw as (_ & Hn & Hs). pose proof (len_nonneg (sdes_chunks p)). pose proof (chunks_aligned (sdes_chunks p)) as M.
    apply (frame_framed p _ (u8 (len (sdes_chunks p))) SourceDescription); [done|by apply u8_count|apply len_sdes_body| |].
    + rewrite sdes_raw_size. len_pos. lia.
    + unfold aligned_size. rewrite (proj1 (unpadded_size _)); [lia|].
      rewrite sdes_raw_size. fold (sdes_body p) in M. Z.div_mod_to_equations; lia.
  - destruct Hw as (_ & Hn & Hl & _). pose proof (len_nonneg (sources p)). pose proof (len_nonneg (reason p)).
    apply (frame_framed p _ (u8 (len (sources p))) Goodbye); [done|by apply u8_count|apply len_bye_body| |];
      unfold aligned_size; pose proof (padding_size_bounds (raw_size p)); pose proof (bye_raw_size p); lia.
  - destruct Hw as (_ & _ & _ & Hn).
    apply (frame_framed p _ FORMAT_TLN TransportSpecificFeedback); [done|done|apply len_nack_body| |];
      unfold aligned_size; pose proof (padding_size_bounds (raw_size p)); pose proof (nack_raw_size p); lia.
  - by apply (frame_framed p _ FORMAT_RRR TransportSpecificFeedback); [| |apply len_rrr_body| |].
  - destruct Hw as (_ & _ & _ & _ & _ & _ & _ & _ & _ & _ & Hs).
    apply (frame_framed p _ FORMAT_TCC TransportSpecificFeedback); [done|done|apply len_tcc_body| |].
    + rewrite tcc_raw_size. pose proof (len_nonneg (packet_chunks p)). len_pos. lia.
    + unfold aligned_size. pose proof (padding_size_bounds (raw_size p)). lia.
  - by apply (frame_framed p _ FORMAT_PLI PayloadSpecificFeedback); [| |apply len_pli_body| |].
  - done.
  - destruct Hw as (m & e & (_ & _ & Hn & -> & _) & _). pose proof (len_nonneg (ssrcs p)).
    apply (frame_framed p _ FORMAT_REMB PayloadSpecificFeedback); [done|done|apply len_remb_body| |];
      unfold aligned_size; pose proof (padding_size_bounds (raw_size p)); pose proof (remb_raw_size p); lia.
  - destruct Hw as (_ & _ & _ & Hn).
    apply (frame_framed p _ FORMAT_FIR PayloadSpecificFeedback); [done|done|apply len_fir_body| |];
      unfold aligned_size; pose proof (padding_size_bounds (raw_size p)); pose proof (fir_raw_size p); lia.
  - destruct Hw as (_ & Hb & Hs). pose proof (blocks_mod _ Hb) as M.
    apply (frame_framed p _ 0 ExtendedReport); [done|done|apply len_xr_body| |].
    + rewrite xr_raw_size. len_pos. lia.
    + unfold aligned_size. rewrite (proj1 (unpadded_size _)); [lia|]. rewrite xr_raw_size. Z.div_mod_to_equations; lia.
  - apply Hw.
Qed.

Lemma any_dispatch p : any_wf p → dispatch (any_header p) (any_bytes p) = Ok (p, []).
Proof.
  destruct p as [p|p|p|p|p|p|p|p|p|p|p|p|p]; cbn [any_wf any_bytes any_header]; intros Hw; unfold dispatch.
  - change (packet_type (header p)) with SenderReport. cbv iota. unfold box. by rewrite sr_read by apply Hw.
  - change (packet_type (header p)) with ReceiverReport. cbv iota. unfold box. by rewrite rr_read by apply Hw.
  - change (packet_type (header p)) with SourceDescription. cbv iota. unfold box. by rewrite sdes_read.
  - change (packet_type (header p)) with Goodbye. cbv iota. unfold box. by rewrite bye_read.
  - change (packet_type (header p)) with TransportSpecificFeedback. change (count (header p)) with 1. cbn [Z.eqb Pos.eqb FORMAT_TLN].
    unfold box. by rewrite nack_read.
  - change (packet_type (header p)) with TransportSpecificFeedback. change (count (header p)) with 5. cbn [Z.eqb Pos.eqb FORMAT_TLN FORMAT_RRR].
    unfold box. by rewrite rrr_read.
  - change (packet_type (header p)) with TransportSpecificFeedback. change (count (header p)) with 15. cbn [Z.eqb Pos.eqb FORMAT_TLN FORMAT_RRR FORMAT_TCC].
    unfold box. by rewrite tcc_read.
  - change (packet_type (header p)) with PayloadSpecificFeedback. change (count (header p)) with 1. cbn [Z.eqb Pos.eqb FORMAT_PLI].
    unfold box. by rewrite pli_read.
  - done.
  - change (packet_type (header p)) with PayloadSpecificFeedback. change (count (header p)) with 15. cbn [Z.eqb Pos.eqb FORMAT_PLI FORMAT_SLI FORMAT_REMB].
    destruct Hw as (m & e & Hok & Hk). destruct (remb_frame_read p m e Hok) as [Hread _].
    pose proof Hok as (_ & _ & _ & E & _). rewrite E. unfold box. rewrite Hread, Hk. cbn [rbind Z.to_pos].
    by rewrite <- E; destruct p.
  - change (packet_type (header p)) with PayloadSpecificFeedback. change (count (header p)) with 4.
    cbn [Z.eqb Pos.eqb FORMAT_PLI FORMAT_SLI FORMAT_REMB FORMAT_FIR]. unfold box. by rewrite fir_read.
  - change (packet_type (header p)) with ExtendedReport. cbv iota. unfold box. by rewrite xr_read.
  - destruct Hw as [Hk Hf]. pose proof (raw_read p Hf) as Hread. unfold kept_raw in Hk. unfold box.
    destruct (packet_type (header p)); try done; rewrite ?Hread; try done;
      repeat (apply andb_true_iff in Hk as [Hk ?%negb_true_iff]); apply negb_true_iff in Hk;
      repeat match goal with H : (_ =? _) = false |- _ => rewrite H; clear H end; done.
Qed.

(** ** Datagrams *)

Lemma put_fresh_header h : 0 <= count h < 32 → marshal_to h (replicate (Z.to_nat RTCP_HEADER_LENGTH) 0) = Ok (4, rtcp_header_bytes h).
Proof.
  intros Hc. destruct (rtcp_header_encodes h Hc) as [L Hm]. change (marshal_size h) with 4 in *. rewrite Hm by done.
  rewrite drop_ge, app_nil_r; [done|]. rewrite length_replicate. unfold len in L. unfold RTCP_HEADER_LENGTH. lia.
Qed.

Lemma unmarshaller_app p r : any_wf p → unmarshaller (any_bytes p ++ r) = Ok (p, r).
Proof.
  intros Hw. pose proof (any_dispatch p Hw) as D. destruct (any_framed p Hw) as (body & E & Lb & Hc & Hl).
  unfold unmarshaller. rewrite E, <- app_assoc in *. rewrite rtcp_header_read by done. cbn [rbind]. cbv zeta.
  rewrite (proj2 (Z.ltb_ge _ _)) by (rewrite len_app; len_pos; lia). rewrite put_fresh_header by done. cbn [rbind].
  replace (Z.to_nat (rtcp_length (any_header p) * 4)) with (length body) by (unfold len in Lb; lia).
  rewrite take_app_length, drop_app_length, D. done.
Qed.

Lemma any_bytes_pos p : any_wf p → 4 <= len (any_bytes p).
Proof. intros (body & -> & _)%any_framed. rewrite len_app, len_rtcp_header. len_pos. lia. Qed.

Lemma unmarshal_loop_app ps fuel :
  Forall any_wf ps → len ps < Z.of_nat fuel → unmarshal_loop fuel (concat (any_bytes <$> ps)) = Ok ps.
Proof.
  intros Hw. revert fuel. induction Hw as [|p ps Hp Hps IH]; intros [|fuel] Hf;
    try (unfold len in Hf; simpl in Hf; lia); [done|]. csimpl. cbn [unmarshal_loop].
  pose proof (any_bytes_pos p Hp). rewrite (proj2 (Z.eqb_neq _ _)) by (rewrite len_app; len_pos; lia).
  rewrite unmarshaller_app by done. cbn [rbind]. rewrite len_cons in Hf. rewrite IH by lia. done.
Qed.

Lemma packets_le_bytes ps : Forall any_wf ps → len ps <= len (concat (any_bytes <$> ps)).
Proof.
  induction 1 as [|p ps Hp Hps IH]; [done|]. csimpl. rewrite len_cons, len_app. pose proof (any_bytes_pos p Hp). lia.
Qed.

Lemma rtcp_unmarshal_app ps :
  Forall any_wf ps → ps ≠ [] → rtcp_unmarshal (concat (any_bytes <$> ps)) = Ok ps.
Proof.
  intros Hw Hne. unfold rtcp_unmarshal. rewrite unmarshal_loop_app; [by destruct ps|done|].
  pose proof (packets_le_bytes ps Hw). unfold len in *. lia.
Qed.

Lemma marshal_loop_app ps pre tail :
  Forall any_wf ps → len (concat (any_bytes <$> ps)) = len tail →
  marshal_loop ps (len pre) (pre ++ tail) = Ok (pre ++ concat (any_bytes <$> ps)).
Proof.
  intros Hw. revert pre tail. induction Hw as [|p ps Hp Hps IH]; intros pre tail Hl.
  - csimpl in Hl. change (len []) with 0 in Hl. assert (tail = []) as -> by (apply length_zero_iff_nil; unfold len in Hl; lia). done.
  - csimpl in Hl. rewrite len_app in Hl. cbn [marshal_loop]. rewrite slice_tail by done. cbn [rbind].
    destruct (any_encodes p Hp) as [Ls Hm]. pose proof (len_nonneg (concat (any_bytes <$> ps))).
    rewrite Hm by lia. cbn [rbind].
    replace (Z.to_nat (len pre)) with (length pre) by (unfold len; lia). rewrite take_app_length, app_assoc.
    rewrite <- Ls, <- len_app. rewrite IH; [by rewrite <- app_assoc|]. rewrite len_drop. unfold len in *. lia.
Qed.

Lemma rtcp_marshal_app ps : Forall any_wf ps → rtcp_marshal ps = Ok (concat (any_bytes <$> ps)).
Proof.
  intros Hw. unfold rtcp_marshal.
  assert (∀ n, foldl (λ n p, n + marshal_size p) n ps = n + len (concat (any_bytes <$> ps))) as Hsum.
  { induction Hw as [|p ps Hp Hps IH]; intros n; [csimpl; change (len []) with 0; cbn [foldl]; lia|].
    cbn [foldl]. csimpl. rewrite IH, len_app. destruct (any_encodes p Hp) as [-> _]. lia. }
  rewrite Hsum, Z.add_0_l. pose proof (marshal_loop_app ps [] (replicate (Z.to_nat (len (concat (any_bytes <$> ps)))) 0) Hw) as H.
  cbn [app] in H. apply H. rewrite len_replicate. len_pos. lia.
Qed.

(** C39: RTCP datagrams round trip: a datagram made of any non-empty sequence of well-formed
    packets (reports, source descriptions, goodbyes, feedback of every kind but slice loss
    indications, extended reports, and raw packets of other types) is marshalled, and
    unmarshalling it gives the same packets in the same order. *)
Theorem rtcp_roundtrip ps :
  Forall any_wf ps → ps ≠ [] →
  ∃ bs, rtcp_marshal ps = Ok bs ∧ rtcp_unmarshal bs = Ok ps.
Proof. intros Hw Hne. eexists. split; [by apply rtcp_marshal_app|by apply rtcp_unmarshal_app]. Qed.

(** ** Any input *)

Lemma raw_post raw : Forall byte_ok raw → res_post (raw_unmarshal raw) (left_of 4 raw).
Proof.
  intros Hr. unfold raw_unmarshal, RTCP_HEADER_LENGTH. parse_step; [done|]. bool_facts.
  eapply res_post_bind; [by apply rtcp_header_post|]. intros [h r] (Hn & _ & Hr1 & L1).
  rewrite (encodes_marshal h (rtcp_header_bytes h)) by (by apply rtcp_header_encodes). cbn [rbind].
  rewrite copy_all. simpl. split; [done|]. change (len []) with 0. lia.
Qed.

Lemma box_post {A} (c : A → any_packet) m raw : res_post m (left_of 4 raw) → res_post (box c m) (left_of 4 raw).
Proof. intros Hm. unfold box. eapply res_post_bind; [exact Hm|]. by intros [??]. Qed.

Lemma dispatch_post h raw : Forall byte_ok raw → res_post (dispatch h raw) (left_of 4 raw).
Proof.
  intros Hr. unfold dispatch. destruct (packet_type h); repeat (destruct (_ =? _)); apply box_post;
    by first [apply sr_post|apply rr_post|apply sdes_post|apply bye_post|apply nack_post|apply rrr_post|apply tcc_post
             |apply pli_post|apply sli_post|apply remb_post|apply fir_post|apply xr_post|apply raw_post].
Qed.

Lemma unmarshaller_post raw :
  Forall byte_ok raw → res_post (unmarshaller raw) (λ '(_, r), Forall byte_ok r ∧ len r < len raw).
Proof.
  intros Hr. unfold unmarshaller. eapply res_post_bind; [by apply rtcp_header_post|]. intros [h r] (Hn & Hl & Hr1 & L1). cbv zeta.
  parse_step; [done|]. bool_facts. rewrite put_fresh_header by done. cbn [rbind].
  set (n := Z.to_nat (rtcp_length h * 4)).
  eapply res_post_bind; [apply dispatch_post; apply Forall_app; split; [by apply rtcp_header_bytes_ok|by apply Forall_take]|].
  intros [p rest] [Hb Lr]. rewrite len_app, len_rtcp_header, len_take in Lr. simpl. split.
  - apply Forall_app. split; [done|by apply Forall_drop].
  - rewrite len_app, len_drop. unfold fits in Hl. subst n. lia.
Qed.

Lemma unmarshal_loop_post fuel raw :
  Forall byte_ok raw → len raw < Z.of_nat fuel → res_post (unmarshal_loop fuel raw) (λ _, True).
Proof.
  revert raw. induction fuel as [|fuel IH]; intros raw Hr Hf; [pose proof (len_nonneg raw); lia|]. cbn [unmarshal_loop].
  parse_step; [done|]. eapply res_post_bind; [by apply unmarshaller_post|]. intros [p r] [Hr1 L1].
  eapply res_post_bind; [apply IH; [done|lia]|]. done.
Qed.

(** C40: parsing RTCP is safe: no sequence of bytes, of any length, makes [packet::unmarshal]
    panic, and its loops end: the result is a list of packets or an error. *)
Theorem rtcp_unmarshal_safe raw :
  Forall byte_ok raw → (∃ ps, rtcp_unmarshal raw = Ok ps) ∨ ∃ e, rtcp_unmarshal raw = Err e.
Proof.
  intros Hr. assert (res_post (rtcp_unmarshal raw) (λ _, True)) as H.
  { unfold rtcp_unmarshal. eapply res_post_bind; [apply unmarshal_loop_post; [done|unfold len; lia]|]. by intros [|??] _. }
  destruct (rtcp_unmarshal raw); [by left; eexists|by right; eexists|done].
Qed.

(** ** Compound packets *)

Lemma validate_rest_spec c :
  validate_rest c = Ok tt ↔
  ∃ rrs p rest, c = (PRr <$> rrs) ++ PSdes p :: rest ∧ has_cname p = true.
Proof.
  split.
  - induction c as [|[] c IH]; cbn [validate_rest]; try done.
    + intros (rrs & q & rest & -> & Hq)%IH. by exists (p :: rrs), q, rest.
    + destruct (has_cname p) eqn:Hq; [|done]. intros _. by exists [], p, c.
  - intros (rrs & p & rest & -> & Hq). induction rrs as [|rr rrs IH]; csimpl; [by rewrite Hq|done].
Qed.

Lemma has_cname_first p : has_cname p = true ↔ ∃ t, first_cname p = Some t.
Proof.
  unfold has_cname, first_cname. rewrite existsb_exists. split.
  - intros (c & Hc%list_elem_of_In & Hex). apply existsb_exists in Hex as (it & Hit%list_elem_of_In & Ht%bool_decide_eq_true).
    assert (it ∈ filter (λ it, sdes_type it = SdesCname) (concat (sdes_items <$> sdes_chunks p))) as Hin.
    { apply list_elem_of_filter. split; [done|]. apply list_elem_of_In, in_concat. exists (sdes_items c).
      split; apply list_elem_of_In; [by apply list_elem_of_fmap_2|done]. }
    destruct (filter _ _); [by apply elem_of_nil in Hin|]. by eexists.
  - intros (t & Ht). destruct (filter _ _) as [|it l] eqn:E; [done|].
    assert (it ∈ filter (λ it, sdes_type it = SdesCname) (concat (sdes_items <$> sdes_chunks p))) as [Hty Hin]%list_elem_of_filter
      by (rewrite E; left).
    apply list_elem_of_In, in_concat in Hin as (l' & Hl%list_elem_of_In & Hit%list_elem_of_In).
    apply list_elem_of_fmap in Hl as (c & -> & Hc).
    exists c. split; [by apply list_elem_of_In|]. apply existsb_exists. exists it. split; [by apply list_elem_of_In|]. by apply bool_decide_eq_true.
Qed.

(** The compound packets that [validate] accepts are those of RFC 3550: a sender or receiver
    report, then receiver reports, then a source description with a CNAME, then anything; and
    on each of them [cname] returns the first CNAME of that source description. *)
Theorem compound_valid c :
  (validate c = Ok tt ↔
   ∃ first rrs p rest, c = first :: (PRr <$> rrs) ++ PSdes p :: rest ∧
     ((∃ sr, first = PSr sr) ∨ ∃ rr, first = PRr rr) ∧ has_cname p = true) ∧
  ∀ first rrs p rest t, c = first :: (PRr <$> rrs) ++ PSdes p :: rest → first_cname p = Some t → cname c = Ok t.
Proof.
  split.
  - split.
    + destruct c as [|[] c]; cbn [validate]; try done; intros (rrs & q & rest & -> & Hq)%validate_rest_spec;
        eexists _, rrs, q, rest; split_and!; eauto.
    + intros (first & rrs & p & rest & -> & [[sr ->]|[rr ->]] & Hq); cbn [validate]; apply validate_rest_spec; eauto 6.
  - intros first rrs p rest t -> Ht. cbn [cname]. induction rrs as [|rr rrs IH]; csimpl; [by rewrite Ht|done].
Qed.

End PacketLemmas.

Import BigEndian.

Definition sample_report : ReceptionReport := mkReceptionReport 0xbc5e9a40 0 0 0x46e1 273 0x9f36432 150137.
Definition sample_sdes : SourceDescriptionPacket :=
  mkSdes [mkSdesChunk 0x902f9e2e [mkSdesItem SdesCname [97; 98; 99]]].
Definition sample_packets : list any_packet :=
  [PRr (mkReceiverReport 0x902f9e2e [sample_report] []);
   PSdes sample_sdes;
   PNack (mkNack 1 2 (nack_pairs_from_sequence_numbers [65530; 65535; 3]));
   PTcc (mkTcc 1 2 100 3 5 0 [RunLength (mkRunLength TypeRunLengthChunk PacketReceivedSmallDelta 3)]
           [mkRecvDelta PacketReceivedSmallDelta 250; mkRecvDelta PacketReceivedSmallDelta 500;
            mkRecvDelta PacketReceivedSmallDelta 0]);
   PRemb (mkRemb 1 (S754_finite false 16777152 (-4)) [7]);
   PXr (mkXr 1 [RbRrt (mkRrt 77)]);
   PBye (mkGoodbye [0x902f9e2e] [98; 121; 101])].

Lemma sample_wf : Forall any_wf sample_packets.
Proof.
  repeat constructor; try (unfold fits, len; cbn; lia); try done.
  - exists 1. split; [done|]. left. split; [done|lia].
  - exists 2. split; [done|]. left. split; [done|lia].
  - exists 0. split; [done|]. left. split; [done|lia].
  - exists 16777152%positive, (-4). split; [|done]. unfold remb_ok, rate_ok. cbn. concrete.
Qed.

Lemma rtcp_roundtrip_witness :
  len sample_packets = 7 ∧ ∃ bs, rtcp_marshal sample_packets = Ok bs ∧ rtcp_unmarshal bs = Ok sample_packets.
Proof. split; [done|]. apply rtcp_roundtrip; [exact sample_wf|done]. Defined.

Lemma rtcp_unmarshal_safe_witness :
  (∃ ps, rtcp_unmarshal [143; 205; 0; 6; 65; 227] = Ok ps) ∨ ∃ e, rtcp_unmarshal [143; 205; 0; 6; 65; 227] = Err e.
Proof. apply rtcp_unmarshal_safe. concrete. Defined.

Lemma compound_valid_witness :
  validate (take 2 sample_packets) = Ok tt ∧ cname sample_packets = Ok [97; 98; 99].
Proof.
  split; [reflexivity|].
  eapply (proj2 (compound_valid sample_packets) (PRr (mkReceiverReport 0x902f9e2e [sample_report] [])) [] sample_sdes); reflexivity.
Defined.

(** * Where packets do not come back *)

(** A slice loss indication carries the transport feedback type, while the parser for it is
    chosen for the payload feedback type: the type that RFC 4585 gives is refused, and what
    [marshal] writes is read as a raw packet. *)
Lemma slice_loss_not_read :
  rtcp_unmarshal [130; 206; 0; 3; 0; 0; 0; 1; 0; 0; 0; 2; 0; 8; 0; 0] = Err WrongType ∧
  match rtcp_marshal [PSli (mkSli 1 2 [mkSliEntry 1 0 0])] with
  | Ok bs => rtcp_unmarshal bs = Ok [PRaw (mkRaw bs)]
  | _ => False
  end.
Proof. split; vm_compute; reflexivity. Qed.

(** A packet of a type that is not known is kept raw, but its type is not kept: the header is
    written again with the type 0. *)
Lemma unknown_type_lost : rtcp_unmarshal [128; 192; 0; 0] = Ok [PRaw (mkRaw [128; 0; 0; 0])].
Proof. vm_compute. reflexivity. Qed.

(** The padding of a source description chunk, which has to be null octets, ends with the
    number of padding bytes. *)
Lemma sdes_padding_not_null : marshal (mkSdesChunk 1 []) = Ok [0; 0; 0; 1; 0; 0; 0; 3].
Proof. vm_compute. reflexivity. Qed.
