(* ===== verification/SrtpCipher.v ===== *)
(** The SRTP ciphers of [rtc-srtp/src]: protection profiles, key derivation, and the
    two implementations of the [Cipher] trait, AES-GCM ([cipher_aead_aes_gcm.rs]) and
    AES-CM with HMAC-SHA1 ([cipher_aes_cm_hmac_sha1]).  The block cipher, the AEAD and
    the MAC come from third-party crates and are parameters. *)

From S2P Require Import Prelude RtpHeader Rtcp.

(** * [protection_profile.rs] *)

Inductive ProtectionProfile :=
| Aes128CmHmacSha1_80
| Aes128CmHmacSha1_32
| Aes256CmHmacSha1_80
| Aes256CmHmacSha1_32
| AeadAes128Gcm
| AeadAes256Gcm.

Definition key_len (p : ProtectionProfile) : Z :=
  match p with
  | Aes128CmHmacSha1_32 | Aes128CmHmacSha1_80 | AeadAes128Gcm => 16
  | Aes256CmHmacSha1_32 | Aes256CmHmacSha1_80 => 32
  | AeadAes256Gcm => 32
  end.

Definition salt_len (p : ProtectionProfile) : Z :=
  match p with
  | Aes128CmHmacSha1_32 | Aes128CmHmacSha1_80 | Aes256CmHmacSha1_32 | Aes256CmHmacSha1_80 => 14
  | AeadAes128Gcm | AeadAes256Gcm => 12
  end.

Definition profile_rtp_auth_tag_len (p : ProtectionProfile) : Z :=
  match p with
  | Aes128CmHmacSha1_80 | Aes256CmHmacSha1_80 => 10
  | Aes128CmHmacSha1_32 | Aes256CmHmacSha1_32 => 4
  | AeadAes128Gcm | AeadAes256Gcm => 0
  end.

Definition profile_rtcp_auth_tag_len (p : ProtectionProfile) : Z :=
  match p with
  | Aes128CmHmacSha1_80 | Aes128CmHmacSha1_32 | Aes256CmHmacSha1_80 | Aes256CmHmacSha1_32 => 10
  | AeadAes128Gcm | AeadAes256Gcm => 0
  end.

Definition profile_aead_auth_tag_len (p : ProtectionProfile) : Z :=
  match p with
  | Aes128CmHmacSha1_80 | Aes128CmHmacSha1_32 | Aes256CmHmacSha1_80 | Aes256CmHmacSha1_32 => 0
  | AeadAes128Gcm | AeadAes256Gcm => 16
  end.

Definition auth_key_len (p : ProtectionProfile) : Z :=
  match p with
  | Aes128CmHmacSha1_80 | Aes128CmHmacSha1_32 | Aes256CmHmacSha1_80 | Aes256CmHmacSha1_32 => 20
  | AeadAes128Gcm | AeadAes256Gcm => 0
  end.

(** * The cryptographic crates

    [aes], [ctr], [hmac] and [sha1]: a block is 16 bytes, a keystream has the length
    asked for, an HMAC-SHA1 has 20 bytes.  [ring::aead]: [seal_in_place_separate_tag]
    succeeds up to 2^36 - 32 bytes, keeps the length and makes a 16-byte tag;
    [open_in_place] inverts it, and removes exactly the tag when it succeeds. *)

Class CryptoCrates := {
  aes_block : bytes → bytes → bytes;
  aes_ctr : bytes → bytes → nat → bytes;
  hmac_sha1 : bytes → bytes → bytes;
  aead_seal : bytes → bytes → bytes → bytes → option (bytes * bytes);
  aead_open : bytes → bytes → bytes → bytes → option bytes;
  aes_block_length k b : length (aes_block k b) = 16%nat;
  aes_block_bytes k b : Forall byte_ok (aes_block k b);
  aes_ctr_length k iv n : length (aes_ctr k iv n) = n;
  aes_ctr_bytes k iv n : Forall byte_ok (aes_ctr k iv n);
  hmac_sha1_length k m : length (hmac_sha1 k m) = 20%nat;
  hmac_sha1_bytes k m : Forall byte_ok (hmac_sha1 k m);
  aead_seal_total k n a p : len p < 2 ^ 36 - 31 → is_Some (aead_seal k n a p);
  aead_seal_spec k n a p c t :
    aead_seal k n a p = Some (c, t) →
    length c = length p ∧ length t = 16%nat ∧ Forall byte_ok (c ++ t) ∧
    (Forall byte_ok p → aead_open k n a (c ++ t) = Some p);
  aead_open_length k n a c p : aead_open k n a c = Some p → length c = (length p + 16)%nat;
}.

(** [iter_mut().enumerate()] with [^=] on the corresponding byte. *)
Definition xor_bytes (a b : bytes) : bytes := zip_with Z.lxor a b.

(** * [key_derivation.rs] *)

Definition LABEL_SRTP_ENCRYPTION : Z := 0x00.
Definition LABEL_SRTP_AUTHENTICATION_TAG : Z := 0x01.
Definition LABEL_SRTP_SALT : Z := 0x02.
Definition LABEL_SRTCP_ENCRYPTION : Z := 0x03.
Definition LABEL_SRTCP_AUTHENTICATION_TAG : Z := 0x04.
Definition LABEL_SRTCP_SALT : Z := 0x05.
Definition SRTCP_INDEX_SIZE : Z := 4.
Definition AES_256_BS : Z := 16.

Section Ciphers.
Context {BC : BytesCrate} {CC : CryptoCrates}.

(** [for (i, n) in (0..out_len).step_by(bs).enumerate()]: the counter in the last two
    bytes of the block, encrypted; [out_len] bytes of the result are returned. *)
Definition prf_blocks (key prf_in : bytes) (out_len bs : Z) : bytes :=
  concat ((λ i, aes_block key (take (length prf_in - 2) prf_in ++
             [Z.land (Z.shiftr i 8) 0xFF; Z.land i 0xFF])) <$> below (Z.to_nat (div_ceil out_len bs))).

Definition aes_cm_key_derivation (label : Z) (master_key master_salt : bytes)
    (index_over_kdr out_len : Z) : res bytes :=
  if negb (index_over_kdr =? 0) then Err UnsupportedIndexOverKdr
  else
    let n := length master_key in
    let prf_in := replicate n 0 in
    let! prf_in := assert_ (len master_salt <=? len prf_in)
                     (Ok (master_salt ++ drop (length master_salt) prf_in)) in
    let! b7 := index prf_in 7 in
    let prf_in := <[7%nat := Z.lxor b7 label]> prf_in in
    assert_ (len master_key =? 16)
      (slice (prf_blocks master_key prf_in out_len (len master_key)) 0 out_len).

Definition aes_256_cm_key_derivation (label : Z) (master_key master_salt : bytes)
    (index_over_kdr out_len : Z) : res bytes :=
  if negb (index_over_kdr =? 0) then Err UnsupportedIndexOverKdr
  else if negb (len master_key =? 32) then Err InvalidMasterKeyLength
  else if 14 <? len master_salt then Err InvalidMasterSaltLength
  else if 32 <? out_len then Err UnsupportedOutLength
  else
    let prf_in := replicate 7 0 ++ [label] ++ put_uint 4 (u32 index_over_kdr) ++ replicate 4 0 in
    let prf_in := xor_bytes prf_in (master_salt ++ replicate (16 - length master_salt) 0) in
    slice (prf_blocks master_key prf_in out_len AES_256_BS) 0 out_len.

Definition generate_counter (sequence_number rollover_counter ssrc : Z) (session_salt : bytes) : res bytes :=
  assert_ (len session_salt <=? 16) (
    let counter := replicate 4 0 ++ BigEndian.enc 4 ssrc ++ BigEndian.enc 4 rollover_counter ++
                   BigEndian.enc 4 (u32 (Z.shiftl sequence_number 16)) in
    Ok (xor_bytes (take (length session_salt) counter) session_salt ++ drop (length session_salt) counter)).

(** * [CipherAeadAesGcm] *)

Definition CIPHER_AEAD_AES_GCM_AUTH_TAG_LEN : Z := 16.
Definition RTCP_ENCRYPTION_FLAG : Z := 0x80.

Record CipherAeadAesGcm := mkGcm {
  gcm_profile : ProtectionProfile;
  gcm_srtp_cipher : bytes;
  gcm_srtcp_cipher : bytes;
  gcm_srtp_session_salt : bytes;
  gcm_srtcp_session_salt : bytes
}.

(** [UnboundKey::new]: refuses a key of the wrong length for the algorithm. *)
Definition unbound_key (algorithm_key_len : Z) (key : bytes) : res bytes :=
  if len key =? algorithm_key_len then Ok key else Err ErrOther.

Definition gcm_new (profile : ProtectionProfile) (master_key master_salt : bytes) : res CipherAeadAesGcm :=
  let! (klen, kdf) :=
    match profile with
    | AeadAes128Gcm => Ok (16, aes_cm_key_derivation)
    | AeadAes256Gcm => Ok (32, aes_256_cm_key_derivation)
    | _ => Panic
    end in
  assert_ ((profile_aead_auth_tag_len profile =? CIPHER_AEAD_AES_GCM_AUTH_TAG_LEN)
           && (salt_len profile =? len master_salt)) (
    let build_cipher label :=
      let! session_key := kdf label master_key master_salt 0 (len master_key) in
      unbound_key klen session_key in
    let! srtp_cipher := build_cipher LABEL_SRTP_ENCRYPTION in
    let! srtcp_cipher := build_cipher LABEL_SRTCP_ENCRYPTION in
    let! srtp_session_salt := kdf LABEL_SRTP_SALT master_key master_salt 0 (len master_salt) in
    let! srtcp_session_salt := kdf LABEL_SRTCP_SALT master_key master_salt 0 (len master_salt) in
    Ok (mkGcm profile srtp_cipher srtcp_cipher srtp_session_salt srtcp_session_salt)).

(** [*v ^= salt[i]] for the twelve bytes: panics when the salt is shorter. *)
Definition xor_salt (iv salt : bytes) : res bytes :=
  assert_ (len iv <=? len salt) (Ok (xor_bytes iv salt)).

Definition rtp_initialization_vector (c : CipherAeadAesGcm) (h : Header) (roc : Z) : res bytes :=
  xor_salt (replicate 2 0 ++ put_uint 4 (ssrc h) ++ put_uint 4 roc ++ put_uint 2 (sequence_number h))
    (gcm_srtp_session_salt c).

Definition rtcp_initialization_vector (c : CipherAeadAesGcm) (srtcp_index ssrc : Z) : res bytes :=
  xor_salt (replicate 2 0 ++ put_uint 4 ssrc ++ replicate 2 0 ++ put_uint 4 (u32 srtcp_index))
    (gcm_srtcp_session_salt c).

Definition rtcp_additional_authenticated_data (rtcp_packet : bytes) (srtcp_index : Z) : res bytes :=
  let! hd := slice rtcp_packet 0 8 in
  let word := put_uint 4 (u32 srtcp_index) in
  let! b := index word 0 in
  Ok (hd ++ <[0%nat := Z.lor b RTCP_ENCRYPTION_FLAG]> word).

Definition gcm_encrypt_rtp (c : CipherAeadAesGcm) (payload : bytes) (h : Header) (roc : Z) : res bytes :=
  let header_len := header_marshal_size h in
  let! nonce := rtp_initialization_vector c h roc in
  let! aad := slice payload 0 header_len in
  let! plaintext := slice payload header_len (len payload) in
  match aead_seal (gcm_srtp_cipher c) nonce aad plaintext with
  | None => Err ErrOther
  | Some (ciphertext, tag) => Ok (aad ++ ciphertext ++ tag)
  end.

Definition gcm_decrypt_rtp (c : CipherAeadAesGcm) (ciphertext : bytes) (h : Header) (roc : Z) : res bytes :=
  let tag_len := profile_aead_auth_tag_len (gcm_profile c) in
  if len ciphertext <? tag_len then Err ErrFailedToVerifyAuthTag
  else
    let payload_offset := header_marshal_size h in
    if len ciphertext <? payload_offset + tag_len then Err ErrFailedToVerifyAuthTag
    else
      let! nonce := rtp_initialization_vector c h roc in
      let final_len := len ciphertext - tag_len in
      let! aad := slice ciphertext 0 payload_offset in
      let! ct_and_tag := slice ciphertext payload_offset (len ciphertext) in
      match aead_open (gcm_srtp_cipher c) nonce aad ct_and_tag with
      | None => Err ErrFailedToVerifyAuthTag
      | Some plaintext => Ok (take (Z.to_nat final_len) (aad ++ plaintext))
      end.

Definition gcm_encrypt_rtcp (c : CipherAeadAesGcm) (decrypted : bytes) (srtcp_index ssrc : Z) : res bytes :=
  let! iv := rtcp_initialization_vector c srtcp_index ssrc in
  let! aad := rtcp_additional_authenticated_data decrypted srtcp_index in
  let! hd := slice decrypted 0 8 in
  let! plaintext := slice decrypted 8 (len decrypted) in
  match aead_seal (gcm_srtcp_cipher c) iv aad plaintext with
  | None => Err ErrOther
  | Some (ciphertext, tag) =>
      let! word := slice aad 8 (len aad) in
      Ok (hd ++ ciphertext ++ tag ++ word)
  end.

Definition gcm_decrypt_rtcp (c : CipherAeadAesGcm) (encrypted : bytes) (srtcp_index ssrc : Z) : res bytes :=
  let tag_len := profile_aead_auth_tag_len (gcm_profile c) in
  if len encrypted <? tag_len + SRTCP_INDEX_SIZE then Err ErrFailedToVerifyAuthTag
  else
    let! nonce := rtcp_initialization_vector c srtcp_index ssrc in
    let! aad := rtcp_additional_authenticated_data encrypted srtcp_index in
    let tag_start := len encrypted - SRTCP_INDEX_SIZE - tag_len in
    if tag_start <? 8 then Err ErrFailedToVerifyAuthTag
    else
      let! writer := slice encrypted 0 (tag_start + tag_len) in
      let! hd := slice writer 0 8 in
      let! ct_and_tag := slice writer 8 (len writer) in
      match aead_open (gcm_srtcp_cipher c) nonce aad ct_and_tag with
      | None => Err ErrFailedToVerifyAuthTag
      | Some plaintext => Ok (take (Z.to_nat tag_start) (hd ++ plaintext))
      end.

Definition gcm_get_rtcp_index (_ : CipherAeadAesGcm) (input : bytes) : res Z :=
  let pos := len input - 4 in
  let! word := slice input pos (len input) in
  let! (val, _) := get_u32 word in
  Ok (Z.land val (Z.lxor 0xFFFFFFFF (Z.shiftl RTCP_ENCRYPTION_FLAG 24))).

(** * [CipherAesCmHmacSha1] *)

Record CipherInner := mkInner {
  cm_profile : ProtectionProfile;
  srtp_session_salt : bytes;
  srtp_session_auth : bytes;
  srtcp_session_salt : bytes;
  srtcp_session_auth : bytes
}.

Record CipherAesCmHmacSha1 := mkCm {
  inner : CipherInner;
  srtp_session_key : bytes;
  srtcp_session_key : bytes
}.

Definition Kdf : Type := Z → bytes → bytes → Z → Z → res bytes.

Definition inner_new (profile : ProtectionProfile) (kdf : Kdf) (master_key master_salt : bytes) : res CipherInner :=
  let! srtp_salt := kdf LABEL_SRTP_SALT master_key master_salt 0 (len master_salt) in
  let! srtcp_salt := kdf LABEL_SRTCP_SALT master_key master_salt 0 (len master_salt) in
  let! srtp_auth := kdf LABEL_SRTP_AUTHENTICATION_TAG master_key master_salt 0 (auth_key_len profile) in
  let! srtcp_auth := kdf LABEL_SRTCP_AUTHENTICATION_TAG master_key master_salt 0 (auth_key_len profile) in
  Ok (mkInner profile srtp_salt srtp_auth srtcp_salt srtcp_auth).

Definition cm_new (profile : ProtectionProfile) (master_key master_salt : bytes) : res CipherAesCmHmacSha1 :=
  let! kdf :=
    match profile with
    | Aes128CmHmacSha1_32 | Aes128CmHmacSha1_80 => Ok aes_cm_key_derivation
    | Aes256CmHmacSha1_80 | Aes256CmHmacSha1_32 => Ok aes_256_cm_key_derivation
    | _ => Err ErrOther
    end in
  let! inner := inner_new profile kdf master_key master_salt in
  let! srtp_key := kdf LABEL_SRTP_ENCRYPTION master_key master_salt 0 (len master_key) in
  let! srtcp_key := kdf LABEL_SRTCP_ENCRYPTION master_key master_salt 0 (len master_key) in
  Ok (mkCm inner srtp_key srtcp_key).

Definition generate_srtp_auth_tag (c : CipherInner) (buf : bytes) (roc : Z) : bytes :=
  hmac_sha1 (srtp_session_auth c) (buf ++ BigEndian.enc 4 roc).

Definition generate_srtcp_auth_tag (c : CipherInner) (buf : bytes) : bytes :=
  hmac_sha1 (srtcp_session_auth c) buf.

Definition inner_get_rtcp_index (c : CipherInner) (input : bytes) : res Z :=
  let tail_offset := len input - (profile_rtcp_auth_tag_len (cm_profile c) + SRTCP_INDEX_SIZE) in
  let! word := slice input tail_offset (tail_offset + SRTCP_INDEX_SIZE) in
  let! (val, _) := get_u32 word in
  Ok (Z.land val (Z.lxor 0xFFFFFFFF (Z.shiftl 1 31))).

(** [Aes128Ctr]/[Aes256Ctr] over [writer[offset..]]: [from_slice] panics on a key of
    the wrong length, the slice on an offset past the end. *)
Definition apply_keystream (profile : ProtectionProfile) (key counter : bytes) (offset : Z) (writer : bytes) :
    res bytes :=
  assert_ (len key =? (if key_len profile =? 16 then 16 else 32)) (
    let! hd := slice writer 0 offset in
    let! tl := slice writer offset (len writer) in
    Ok (hd ++ xor_bytes tl (aes_ctr key counter (length tl)))).

Definition cm_encrypt_rtp (c : CipherAesCmHmacSha1) (plaintext : bytes) (h : Header) (roc : Z) : res bytes :=
  let tag_len := profile_rtp_auth_tag_len (cm_profile (inner c)) in
  let! counter := generate_counter (sequence_number h) roc (ssrc h) (srtp_session_salt (inner c)) in
  let! writer := apply_keystream (cm_profile (inner c)) (srtp_session_key c) counter (header_marshal_size h) plaintext in
  let! auth_tag := slice (generate_srtp_auth_tag (inner c) writer roc) 0 tag_len in
  Ok (writer ++ auth_tag).

Definition cm_decrypt_rtp (c : CipherAesCmHmacSha1) (encrypted : bytes) (h : Header) (roc : Z) : res bytes :=
  let tag_len := profile_rtp_auth_tag_len (cm_profile (inner c)) in
  let encrypted_len := len encrypted in
  if encrypted_len <? tag_len then Err SrtpTooSmall
  else
    let! actual_tag := slice encrypted (encrypted_len - tag_len) encrypted_len in
    let! cipher_text := slice encrypted 0 (encrypted_len - tag_len) in
    let! expected_tag := slice (generate_srtp_auth_tag (inner c) cipher_text roc) 0 tag_len in
    if negb (bool_decide (actual_tag = expected_tag)) then Err RtpFailedToVerifyAuthTag
    else
      let! counter := generate_counter (sequence_number h) roc (ssrc h) (srtp_session_salt (inner c)) in
      apply_keystream (cm_profile (inner c)) (srtp_session_key c) counter (header_marshal_size h) cipher_text.

Definition cm_encrypt_rtcp (c : CipherAesCmHmacSha1) (decrypted : bytes) (srtcp_index ssrc : Z) : res bytes :=
  let! counter := generate_counter (u16 (Z.land srtcp_index 0xFFFF)) (u32 (Z.shiftr srtcp_index 16)) ssrc
                    (srtcp_session_salt (inner c)) in
  let! writer := apply_keystream (cm_profile (inner c)) (srtcp_session_key c) counter
                   (RTCP_HEADER_LENGTH + SSRC_LENGTH) decrypted in
  let writer := writer ++ put_uint 4 (Z.lor (u32 srtcp_index) (Z.shiftl 1 31)) in
  let! auth_tag := slice (generate_srtcp_auth_tag (inner c) writer) 0 (profile_rtcp_auth_tag_len (cm_profile (inner c))) in
  Ok (writer ++ auth_tag).

Definition cm_decrypt_rtcp (c : CipherAesCmHmacSha1) (encrypted : bytes) (srtcp_index ssrc : Z) : res bytes :=
  let tag_len := profile_rtcp_auth_tag_len (cm_profile (inner c)) in
  let encrypted_len := len encrypted in
  if encrypted_len <? tag_len + SRTCP_INDEX_SIZE then Err SrtcpTooSmall
  else
    let tail_offset := encrypted_len - (tag_len + SRTCP_INDEX_SIZE) in
    if tail_offset <? 8 then Err ErrTooShortRtcp
    else
      let! writer := slice encrypted 0 tail_offset in
      let! flag := index encrypted tail_offset in
      let is_encrypted := Z.shiftr flag 7 in
      if is_encrypted =? 0 then Ok writer
      else
        let! actual_tag := slice encrypted (encrypted_len - tag_len) encrypted_len in
        if negb (len actual_tag =? tag_len) then Err RtcpInvalidLengthAuthTag
        else
          let! cipher_text := slice encrypted 0 (encrypted_len - tag_len) in
          let! expected_tag := slice (generate_srtcp_auth_tag (inner c) cipher_text) 0 tag_len in
          if negb (bool_decide (actual_tag = expected_tag)) then Err RtcpFailedToVerifyAuthTag
          else
            let! counter := generate_counter (u16 (Z.land srtcp_index 0xFFFF)) (u32 (Z.shiftr srtcp_index 16)) ssrc
                              (srtcp_session_salt (inner c)) in
            apply_keystream (cm_profile (inner c)) (srtcp_session_key c) counter
              (RTCP_HEADER_LENGTH + SSRC_LENGTH) writer.

End Ciphers.

(** * The trait [Cipher] and what the context relies on *)

Class Cipher (C : Type) := {
  rtp_auth_tag_len : C → Z;
  rtcp_auth_tag_len : C → Z;
  aead_auth_tag_len : C → Z;
  get_rtcp_index : C → bytes → res Z;
  encrypt_rtp : C → bytes → Header → Z → res bytes;
  decrypt_rtp : C → bytes → Header → Z → res bytes;
  encrypt_rtcp : C → bytes → Z → Z → res bytes;
  decrypt_rtcp : C → bytes → Z → Z → res bytes;
}.

#[export] Instance gcm_cipher `{BytesCrate, CryptoCrates} : Cipher CipherAeadAesGcm := {|
  rtp_auth_tag_len c := profile_rtp_auth_tag_len (gcm_profile c);
  rtcp_auth_tag_len c := profile_rtcp_auth_tag_len (gcm_profile c);
  aead_auth_tag_len c := profile_aead_auth_tag_len (gcm_profile c);
  get_rtcp_index := gcm_get_rtcp_index;
  encrypt_rtp := gcm_encrypt_rtp;
  decrypt_rtp := gcm_decrypt_rtp;
  encrypt_rtcp := gcm_encrypt_rtcp;
  decrypt_rtcp := gcm_decrypt_rtcp;
|}.

#[export] Instance cm_cipher `{BytesCrate, CryptoCrates} : Cipher CipherAesCmHmacSha1 := {|
  rtp_auth_tag_len c := profile_rtp_auth_tag_len (cm_profile (inner c));
  rtcp_auth_tag_len c := profile_rtcp_auth_tag_len (cm_profile (inner c));
  aead_auth_tag_len c := profile_aead_auth_tag_len (cm_profile (inner c));
  get_rtcp_index c := inner_get_rtcp_index (inner c);
  encrypt_rtp := cm_encrypt_rtp;
  decrypt_rtp := cm_decrypt_rtp;
  encrypt_rtcp := cm_encrypt_rtcp;
  decrypt_rtcp := cm_decrypt_rtcp;
|}.

(** The range of lengths and indices the laws are stated for. *)
Definition packet_ok (p : bytes) : Prop := Forall byte_ok p ∧ len p < 2 ^ 36 - 31.
Definition SRTCP_INDEX_LIMIT : Z := 2 ^ 31.

(** What a cipher that [ok] promises: encryption keeps the header in clear and
    grows the packet by its tags, decryption inverts it and reads the index that was
    written, and neither direction panics on a packet of the minimal size. *)
Class CipherLaws (C : Type) `{Cipher C} (ok : C → Prop) := {
  tags_nonneg c : ok c → 0 <= rtp_auth_tag_len c ∧ 0 <= rtcp_auth_tag_len c ∧ 0 <= aead_auth_tag_len c;
  decrypt_rtp_safe c e h roc :
    ok c → 0 <= header_marshal_size h → header_marshal_size h + rtp_auth_tag_len c <= len e →
    no_panic (decrypt_rtp c e h roc);
  encrypt_decrypt_rtp c p h roc :
    ok c → packet_ok p → 0 <= header_marshal_size h <= len p →
    ∃ body, encrypt_rtp c p h roc = Ok (take (Z.to_nat (header_marshal_size h)) p ++ body) ∧
      Forall byte_ok body ∧
      header_marshal_size h + len body = len p + rtp_auth_tag_len c + aead_auth_tag_len c ∧
      decrypt_rtp c (take (Z.to_nat (header_marshal_size h)) p ++ body) h roc = Ok p;
  rtcp_safe c e :
    ok c → Forall byte_ok e →
    8 + SRTCP_INDEX_SIZE + rtcp_auth_tag_len c + aead_auth_tag_len c <= len e →
    ∃ i, get_rtcp_index c e = Ok i ∧ 0 <= i < SRTCP_INDEX_LIMIT ∧ ∀ x, no_panic (decrypt_rtcp c e i x);
  encrypt_decrypt_rtcp c p i x :
    ok c → packet_ok p → 8 <= len p → 0 <= i < SRTCP_INDEX_LIMIT →
    ∃ body, encrypt_rtcp c p i x = Ok (take 8 p ++ body) ∧ Forall byte_ok body ∧
      8 + len body = len p + SRTCP_INDEX_SIZE + rtcp_auth_tag_len c + aead_auth_tag_len c ∧
      get_rtcp_index c (take 8 p ++ body) = Ok i ∧
      decrypt_rtcp c (take 8 p ++ body) i x = Ok p;
}.

(** * Lemmas *)

Lemma xor_bytes_length a b : length (xor_bytes a b) = Nat.min (length a) (length b).
Proof. apply length_zip_with. Qed.

Lemma xor_bytes_involutive a b : (length a ≤ length b)%nat → xor_bytes (xor_bytes a b) b = a.
Proof. apply zip_lxor_cancel. Qed.

Lemma lxor_byte x y : byte_ok x → byte_ok y → byte_ok (Z.lxor x y).
Proof. by apply fits_lxor. Qed.

Lemma xor_bytes_ok a b : Forall byte_ok a → Forall byte_ok b → Forall byte_ok (xor_bytes a b).
Proof.
  intros Ha. revert b. induction Ha as [|x a Hx Ha IH]; intros [|y b] Hb; simpl; try done.
  apply Forall_cons in Hb as [Hy Hb]. constructor; [by apply lxor_byte|by apply IH].
Qed.

Section CipherLemmas.
Context {BC : BytesCrate} {CC : CryptoCrates}.

Lemma generate_counter_ok sq roc ss salt :
  len salt <= 16 → ∃ ctr, generate_counter sq roc ss salt = Ok ctr.
Proof.
  intros Hs. unfold generate_counter, assert_. rewrite (proj2 (Z.leb_le _ _)) by done. eauto.
Qed.

(** Applying the keystream twice restores the packet. *)
Lemma apply_keystream_spec profile key ctr off w :
  len key = key_len profile → 0 <= off <= len w →
  apply_keystream profile key ctr off w =
    Ok (take (Z.to_nat off) w ++
        xor_bytes (drop (Z.to_nat off) w) (aes_ctr key ctr (length w - Z.to_nat off))).
Proof.
  intros Hk Ho. unfold apply_keystream, assert_.
  assert ((len key =? (if key_len profile =? 16 then 16 else 32)) = true) as -> by (rewrite Hk; by destruct profile).
  rewrite slice_take, slice_drop by done. cbn [rbind]. by rewrite length_drop.
Qed.

Lemma keystream_body_length key ctr off w :
  0 <= off <= len w →
  len (xor_bytes (drop (Z.to_nat off) w) (aes_ctr key ctr (length w - Z.to_nat off))) = len w - off.
Proof. intros Ho. unfold len in *. rewrite xor_bytes_length, length_drop, aes_ctr_length. lia. Qed.

Lemma apply_keystream_twice profile key ctr off w body :
  len key = key_len profile → 0 <= off <= len w →
  body = xor_bytes (drop (Z.to_nat off) w) (aes_ctr key ctr (length w - Z.to_nat off)) →
  apply_keystream profile key ctr off (take (Z.to_nat off) w ++ body) = Ok w.
Proof.
  intros Hk Ho ->. pose proof (keystream_body_length key ctr off w Ho) as Hl.
  set (b := xor_bytes _ _) in *. assert (length (take (Z.to_nat off) w) = Z.to_nat off) as Ht
    by (rewrite length_take; unfold len in *; lia).
  rewrite apply_keystream_spec; [|done|rewrite len_app; unfold len in *; lia].
  rewrite take_app_length', drop_app_length' by done. rewrite length_app, Ht.
  replace (Z.to_nat off + length b - Z.to_nat off)%nat with (length w - Z.to_nat off)%nat by (unfold len in *; lia).
  unfold b. rewrite xor_bytes_involutive, take_drop; [done|]. rewrite length_drop, aes_ctr_length. done.
Qed.

(** ** AES-CM with HMAC-SHA1 *)

Record cm_ok (c : CipherAesCmHmacSha1) : Prop := {
  cm_profile_ok : profile_aead_auth_tag_len (cm_profile (inner c)) = 0;
  cm_salt_ok : len (srtp_session_salt (inner c)) <= 16 ∧ len (srtcp_session_salt (inner c)) <= 16;
  cm_key_ok : len (srtp_session_key c) = key_len (cm_profile (inner c)) ∧
              len (srtcp_session_key c) = key_len (cm_profile (inner c));
}.

Lemma cm_tag_range c :
  0 <= profile_rtp_auth_tag_len (cm_profile (inner c)) <= 20 ∧
  0 <= profile_rtcp_auth_tag_len (cm_profile (inner c)) <= 20.
Proof. destruct (cm_profile (inner c)); simpl; lia. Qed.

Lemma hmac_slice k m n :
  0 <= n <= 20 → ∃ t, slice (hmac_sha1 k m) 0 n = Ok t ∧ len t = n ∧ Forall byte_ok t.
Proof.
  intros Hn. assert (len (hmac_sha1 k m) = 20) as Hl by (unfold len; by rewrite hmac_sha1_length).
  rewrite slice_take by lia. eexists. split_and!; [done|rewrite len_take; lia|].
  apply Forall_take, hmac_sha1_bytes.
Qed.

Lemma cm_decrypt_rtp_safe c e h roc :
  cm_ok c → 0 <= header_marshal_size h →
  header_marshal_size h + profile_rtp_auth_tag_len (cm_profile (inner c)) <= len e →
  no_panic (cm_decrypt_rtp c e h roc).
Proof.
  intros Hc Hh Hl. pose proof (cm_tag_range c) as [Ht _]. unfold cm_decrypt_rtp.
  set (n := profile_rtp_auth_tag_len _) in *. rewrite (proj2 (Z.ltb_ge _ _)) by lia.
  rewrite slice_drop, slice_take by lia. cbn [rbind]. unfold generate_srtp_auth_tag.
  destruct (hmac_slice (srtp_session_auth (inner c)) (take (Z.to_nat (len e - n)) e ++ BigEndian.enc 4 roc) n Ht)
    as (t & -> & _). cbn [rbind].
  destruct (negb _); auto with rtc.
  destruct (generate_counter_ok (sequence_number h) roc (ssrc h) (srtp_session_salt (inner c))) as [ctr ->];
    [apply Hc|]. cbn [rbind].
  rewrite apply_keystream_spec; [done|apply Hc|]. rewrite len_take. lia.
Qed.

Lemma cm_encrypt_decrypt_rtp c p h roc :
  cm_ok c → packet_ok p → 0 <= header_marshal_size h <= len p →
  ∃ body, cm_encrypt_rtp c p h roc = Ok (take (Z.to_nat (header_marshal_size h)) p ++ body) ∧
    Forall byte_ok body ∧
    header_marshal_size h + len body = len p + profile_rtp_auth_tag_len (cm_profile (inner c))
      + profile_aead_auth_tag_len (cm_profile (inner c)) ∧
    cm_decrypt_rtp c (take (Z.to_nat (header_marshal_size h)) p ++ body) h roc = Ok p.
Proof.
  intros Hc [Hb _] Hh. pose proof (cm_tag_range c) as [Ht _]. destruct (cm_key_ok c Hc) as [Hk _].
  set (off := header_marshal_size h) in *. set (n := profile_rtp_auth_tag_len _) in *.
  destruct (generate_counter_ok (sequence_number h) roc (ssrc h) (srtp_session_salt (inner c))) as [ctr Ectr];
    [apply Hc|].
  set (enc := xor_bytes (drop (Z.to_nat off) p) (aes_ctr (srtp_session_key c) ctr (length p - Z.to_nat off))).
  pose proof (keystream_body_length (srtp_session_key c) ctr off p Hh) as Hle. fold enc in Hle.
  destruct (hmac_slice (srtp_session_auth (inner c)) ((take (Z.to_nat off) p ++ enc) ++ BigEndian.enc 4 roc) n Ht)
    as (t & Et & Hlt & Hbt).
  assert (len (take (Z.to_nat off) p) = off) as Hlo by (rewrite len_take; lia).
  exists (enc ++ t). split_and!.
  - unfold cm_encrypt_rtp. fold n off. rewrite Ectr. cbn [rbind].
    rewrite apply_keystream_spec by done. fold enc. cbn [rbind]. unfold generate_srtp_auth_tag. rewrite Et.
    cbn [rbind]. by rewrite <- app_assoc.
  - apply Forall_app. split; [|done]. apply xor_bytes_ok; [by apply Forall_drop|apply aes_ctr_bytes].
  - rewrite (cm_profile_ok c Hc), len_app. lia.
  - unfold cm_decrypt_rtp. fold n off. rewrite app_assoc. set (w := take (Z.to_nat off) p ++ enc) in *.
    assert (len (w ++ t) = len p + n) as Hlw by (unfold w; rewrite !len_app; lia).
    assert (len w = len p) as Hlw' by (rewrite len_app in Hlw; lia).
    rewrite Hlw, (proj2 (Z.ltb_ge _ _)) by lia.
    replace (len p + n - n) with (len w) by lia. rewrite slice_tail by lia. rewrite slice_head. cbn [rbind].
    unfold generate_srtp_auth_tag. rewrite Et. cbn [rbind]. rewrite bool_decide_true by done. cbn [negb].
    rewrite Ectr. cbn [rbind]. unfold w. by apply apply_keystream_twice.
Qed.

(** ** The ESRTCP word: a 31-bit index under the encryption flag *)

Lemma put_uint_4 x :
  put_uint 4 x = put_uint 1 (x / 256 / 256 / 256) ++ put_uint 1 (x / 256 / 256 mod 256) ++
                 put_uint 1 (x / 256 mod 256) ++ put_uint 1 (x mod 256).
Proof.
  rewrite (put_uint_S 3), (put_uint_S 2), (put_uint_S 1). by rewrite <- !app_assoc.
Qed.

Lemma index_high_byte i : 0 <= i < SRTCP_INDEX_LIMIT → 0 <= i / 256 / 256 / 256 < 128.
Proof.
  unfold SRTCP_INDEX_LIMIT. change (2 ^ 31) with (128 * 256 * 256 * 256). intros Hi.
  split; [repeat apply Z.div_pos; lia|]. do 3 (apply Z.div_lt_upper_bound; [lia|]). lia.
Qed.

Lemma esrtcp_flag i :
  0 <= i < SRTCP_INDEX_LIMIT →
  index (put_uint 4 i) 0 = Ok (i / 256 / 256 / 256) ∧
  <[0%nat := Z.lor (i / 256 / 256 / 256) RTCP_ENCRYPTION_FLAG]> (put_uint 4 i) = put_uint 4 (i + 2 ^ 31).
Proof.
  intros Hi. pose proof (index_high_byte i Hi) as Hb. unfold SRTCP_INDEX_LIMIT in Hi.
  rewrite (put_uint_4 i), (put_uint_4 (i + 2 ^ 31)).
  replace (i + 2 ^ 31) with (i + 2 ^ 23 * 256) by lia. rewrite !Z.div_add, Z.mod_add by lia.
  change (2 ^ 23) with (2 ^ 15 * 256). rewrite !Z.div_add, Z.mod_add by lia.
  change (2 ^ 15) with (2 ^ 7 * 256). rewrite !Z.div_add, Z.mod_add by lia. change (2 ^ 7) with 128.
  rewrite !(put_uint_1 (i / 256 / 256 / 256)) by (unfold fits; lia).
  rewrite (put_uint_1 (i / 256 / 256 / 256 + 128)) by (unfold fits; lia).
  split; [done|]. cbn [app insert list_insert].
  assert (∀ b, 0 <= b < 128 → Z.lor b RTCP_ENCRYPTION_FLAG = b + 128) as H by enum 128%nat.
  by rewrite (H _ Hb).
Qed.

Lemma esrtcp_word_cm i :
  0 <= i < SRTCP_INDEX_LIMIT → Z.lor (u32 i) (Z.shiftl 1 31) = i + 2 ^ 31.
Proof.
  unfold SRTCP_INDEX_LIMIT. intros Hi.
  rewrite wrap_small by (unfold fits; lia). rewrite Z.lor_comm, lor_shiftl_add by (unfold fits; lia). lia.
Qed.

Lemma esrtcp_read i r :
  0 <= i < SRTCP_INDEX_LIMIT → get_u32 (put_uint 4 (i + 2 ^ 31) ++ r) = Ok (i + 2 ^ 31, r).
Proof. unfold SRTCP_INDEX_LIMIT. intros Hi. apply (get_put_uint 4). unfold fits. change (8 * Z.of_nat 4) with 32. lia. Qed.

Lemma index_mask v : fits 32 v → Z.land v 0x7FFFFFFF = v mod 2 ^ 31.
Proof. intros _. change 0x7FFFFFFF with (Z.ones 31). by rewrite Z.land_ones by lia. Qed.

Lemma index_unflag i : 0 <= i < SRTCP_INDEX_LIMIT → Z.land (i + 2 ^ 31) 0x7FFFFFFF = i.
Proof.
  unfold SRTCP_INDEX_LIMIT. intros Hi. rewrite index_mask by (unfold fits; lia).
  rewrite <- (Z.mul_1_l (2 ^ 31)) at 1. rewrite Z.mod_add, Z.mod_small by lia. done.
Qed.

(** The flag of a word that was written is set. *)
Lemma esrtcp_flag_set i :
  0 <= i < SRTCP_INDEX_LIMIT →
  ∃ b r, put_uint 4 (i + 2 ^ 31) = b :: r ∧ (Z.shiftr b 7 =? 0) = false.
Proof.
  intros Hi. pose proof (index_high_byte i Hi) as Hb. destruct (esrtcp_flag i Hi) as [E1 E2].
  rewrite <- E2. destruct (put_uint 4 i) as [|b r]; [done|]. eexists _, _. split; [done|].
  assert (∀ b, 0 <= b < 128 → (Z.shiftr (Z.lor b RTCP_ENCRYPTION_FLAG) 7 =? 0) = false) as H by enum 128%nat.
  by apply H.
Qed.

(** Reading the index word of an arbitrary packet. *)
Lemma read_word_total l :
  Forall byte_ok l → len l = 4 → ∃ v, get_u32 l = Ok (v, []) ∧ fits 32 v.
Proof.
  intros Hb Hl. destruct (get_uint_total 4 l Hb) as (v & r & E & Hv & _ & _ & Hr); [lia|].
  exists v. split; [|done]. unfold get_u32. rewrite E. by destruct r; [|rewrite len_cons in Hr; pose proof (len_nonneg r); lia].
Qed.

Lemma cm_rtcp_safe c e :
  cm_ok c → Forall byte_ok e →
  8 + SRTCP_INDEX_SIZE + profile_rtcp_auth_tag_len (cm_profile (inner c)) <= len e →
  ∃ i, inner_get_rtcp_index (inner c) e = Ok i ∧ 0 <= i < SRTCP_INDEX_LIMIT ∧ ∀ x, no_panic (cm_decrypt_rtcp c e i x).
Proof.
  intros Hc Hb Hl. pose proof (cm_tag_range c) as [_ Ht]. unfold inner_get_rtcp_index, cm_decrypt_rtcp, SRTCP_INDEX_SIZE in *.
  set (n := profile_rtcp_auth_tag_len _) in *. set (off := len e - (n + 4)).
  destruct (slice_ok e off (off + 4)) as (w & -> & Hlw & Hsub); [lia..|]. cbn [rbind].
  destruct (read_word_total w) as (v & -> & Hv); [|lia|].
  { rewrite Forall_forall in *. intros z Hz. apply Hb. by eapply elem_of_submseteq. }
  cbn [rbind]. change (Z.lxor 0xFFFFFFFF (Z.shiftl 1 31)) with 0x7FFFFFFF.
  exists (Z.land v 0x7FFFFFFF). split; [done|]. split.
  { rewrite index_mask by done. by apply Z.mod_pos_bound. }
  intros x. rewrite !(proj2 (Z.ltb_ge _ _)) by lia. rewrite slice_take by lia. cbn [rbind].
  destruct (index_ok e off) as (f & -> & _); [lia|]. cbn [rbind]. destruct (_ =? 0); auto with rtc.
  rewrite slice_drop by lia. cbn [rbind]. rewrite len_drop.
  replace (negb (Z.max 0 (len e - Z.of_nat (Z.to_nat (len e - n))) =? n)) with false
    by (symmetry; apply negb_false_iff, Z.eqb_eq; lia).
  rewrite slice_take by lia. cbn [rbind]. unfold generate_srtcp_auth_tag.
  destruct (hmac_slice (srtcp_session_auth (inner c)) (take (Z.to_nat (len e - n)) e) n Ht) as (t & -> & _).
  cbn [rbind]. destruct (negb _); auto with rtc.
  edestruct (generate_counter_ok (u16 (Z.land (Z.land v 0x7FFFFFFF) 0xFFFF)) (u32 (Z.shiftr (Z.land v 0x7FFFFFFF) 16)) x
    (srtcp_session_salt (inner c))) as [ctr ->]; [apply Hc|]. cbn [rbind].
  rewrite apply_keystream_spec; [done|apply Hc|]. unfold RTCP_HEADER_LENGTH, SSRC_LENGTH. rewrite len_take. lia.
Qed.

Lemma cm_encrypt_decrypt_rtcp c p i x :
  cm_ok c → packet_ok p → 8 <= len p → 0 <= i < SRTCP_INDEX_LIMIT →
  ∃ body, cm_encrypt_rtcp c p i x = Ok (take 8 p ++ body) ∧ Forall byte_ok body ∧
    8 + len body = len p + SRTCP_INDEX_SIZE + profile_rtcp_auth_tag_len (cm_profile (inner c))
      + profile_aead_auth_tag_len (cm_profile (inner c)) ∧
    inner_get_rtcp_index (inner c) (take 8 p ++ body) = Ok i ∧
    cm_decrypt_rtcp c (take 8 p ++ body) i x = Ok p.
Proof.
  intros Hc [Hb _] Hp Hi. pose proof (cm_tag_range c) as [_ Ht]. destruct (cm_key_ok c Hc) as [_ Hk].
  set (n := profile_rtcp_auth_tag_len _) in *.
  destruct (generate_counter_ok (u16 (Z.land i 0xFFFF)) (u32 (Z.shiftr i 16)) x (srtcp_session_salt (inner c)))
    as [ctr Ectr]; [apply Hc|].
  set (enc := xor_bytes (drop (Z.to_nat 8) p) (aes_ctr (srtcp_session_key c) ctr (length p - Z.to_nat 8))).
  pose proof (keystream_body_length (srtcp_session_key c) ctr 8 p ltac:(lia)) as Hle. fold enc in Hle.
  set (word := put_uint 4 (i + 2 ^ 31)). assert (len word = 4) as Hlw by (unfold word; by rewrite len_put_uint).
  destruct (hmac_slice (srtcp_session_auth (inner c)) ((take 8 p ++ enc) ++ word) n Ht) as (t & Et & Hlt & Hbt).
  assert (len (take 8 p) = 8) as H8 by (rewrite len_take; lia).
  exists (enc ++ word ++ t). set (w := take 8 p ++ enc) in *.
  assert (len w = len p) as Hw by (unfold w; rewrite len_app; lia).
  assert (take 8 p ++ enc ++ word ++ t = w ++ word ++ t) as Eassoc by (unfold w; by rewrite <- app_assoc).
  assert (len (w ++ word ++ t) = len p + 4 + n) as Hlen by (rewrite !len_app; lia).
  rewrite Eassoc. split_and!.
  - unfold cm_encrypt_rtcp. fold n. rewrite Ectr. cbn [rbind]. change (RTCP_HEADER_LENGTH + SSRC_LENGTH) with 8.
    rewrite apply_keystream_spec by (done || lia). cbn [rbind]. rewrite esrtcp_word_cm by done. fold word enc.
    change (Z.to_nat 8) with 8%nat. fold w. unfold generate_srtcp_auth_tag. rewrite Et. cbn [rbind].
    by rewrite <- app_assoc.
  - rewrite !Forall_app. split_and!; [|apply put_uint_bytes|done].
    apply xor_bytes_ok; [by apply Forall_drop|apply aes_ctr_bytes].
  - rewrite (cm_profile_ok c Hc), !len_app. unfold SRTCP_INDEX_SIZE. lia.
  - unfold inner_get_rtcp_index, SRTCP_INDEX_SIZE. fold n. rewrite Hlen, slice_mid by lia. cbn [rbind].
    rewrite <- (app_nil_r word). unfold word. rewrite esrtcp_read by done. cbn [rbind].
    change (Z.lxor 0xFFFFFFFF (Z.shiftl 1 31)) with 0x7FFFFFFF. by rewrite index_unflag.
  - unfold cm_decrypt_rtcp, SRTCP_INDEX_SIZE. fold n. rewrite Hlen, !(proj2 (Z.ltb_ge _ _)) by lia.
    rewrite slice_head_eq by lia. cbn [rbind].
    destruct (esrtcp_flag_set i Hi) as (b & r & Eb & Hb7). fold word in Eb.
    rewrite Eb at 1. cbn [app]. rewrite index_app by lia. cbn [rbind]. rewrite Hb7.
    rewrite app_assoc, slice_tail by (rewrite ?len_app in *; lia). cbn [rbind].
    rewrite Hlt, Z.eqb_refl. cbn [negb]. rewrite slice_head_eq by (rewrite !len_app in *; lia). cbn [rbind].
    unfold generate_srtcp_auth_tag. rewrite Et. cbn [rbind]. rewrite bool_decide_true by done. cbn [negb].
    rewrite Ectr. cbn [rbind]. change (RTCP_HEADER_LENGTH + SSRC_LENGTH) with 8.
    apply (apply_keystream_twice _ _ ctr 8 p enc); done || lia.
Qed.

(** ** AES-GCM *)

Record gcm_ok (c : CipherAeadAesGcm) : Prop := {
  gcm_profile_ok : profile_aead_auth_tag_len (gcm_profile c) = 16;
  gcm_salt_ok : len (gcm_srtp_session_salt c) = 12 ∧ len (gcm_srtcp_session_salt c) = 12;
}.

Lemma gcm_tags c :
  gcm_ok c → profile_rtp_auth_tag_len (gcm_profile c) = 0 ∧ profile_rtcp_auth_tag_len (gcm_profile c) = 0.
Proof. intros [Hp _]. by destruct (gcm_profile c). Qed.

Lemma xor_salt_ok iv salt : len iv = 12 → len salt = 12 → xor_salt iv salt = Ok (xor_bytes iv salt).
Proof. intros Hi Hs. unfold xor_salt, assert_. by rewrite Hi, Hs. Qed.

Lemma rtp_iv_ok c h roc : gcm_ok c → ∃ iv, rtp_initialization_vector c h roc = Ok iv.
Proof.
  intros Hc. unfold rtp_initialization_vector.
  rewrite xor_salt_ok; [eauto|by autorewrite with len|apply Hc].
Qed.

Lemma rtcp_iv_ok c i x : gcm_ok c → ∃ iv, rtcp_initialization_vector c i x = Ok iv.
Proof.
  intros Hc. unfold rtcp_initialization_vector.
  rewrite xor_salt_ok; [eauto|by autorewrite with len|apply Hc].
Qed.

Lemma rtcp_aad_ok p i :
  8 <= len p → 0 <= i < SRTCP_INDEX_LIMIT →
  rtcp_additional_authenticated_data p i = Ok (take 8 p ++ put_uint 4 (i + 2 ^ 31)).
Proof.
  intros Hp Hi. unfold rtcp_additional_authenticated_data.
  rewrite slice_take by lia. cbn [rbind]. rewrite (wrap_small 32) by (unfold SRTCP_INDEX_LIMIT in Hi; unfold fits; lia).
  destruct (esrtcp_flag i Hi) as [-> E]. cbn [rbind]. by rewrite E.
Qed.

Lemma gcm_decrypt_rtp_safe c e h roc :
  gcm_ok c → 0 <= header_marshal_size h → no_panic (gcm_decrypt_rtp c e h roc).
Proof.
  intros Hc Hh. unfold gcm_decrypt_rtp. rewrite (gcm_profile_ok c Hc).
  destruct (Z.ltb_spec (len e) 16); auto with rtc.
  destruct (Z.ltb_spec (len e) (header_marshal_size h + 16)); auto with rtc.
  destruct (rtp_iv_ok c h roc Hc) as [iv ->]. cbn [rbind].
  rewrite slice_take, slice_drop by lia. cbn [rbind]. by destruct (aead_open _ _ _ _).
Qed.

Lemma gcm_encrypt_decrypt_rtp c p h roc :
  gcm_ok c → packet_ok p → 0 <= header_marshal_size h <= len p →
  ∃ body, gcm_encrypt_rtp c p h roc = Ok (take (Z.to_nat (header_marshal_size h)) p ++ body) ∧
    Forall byte_ok body ∧
    header_marshal_size h + len body = len p + profile_rtp_auth_tag_len (gcm_profile c)
      + profile_aead_auth_tag_len (gcm_profile c) ∧
    gcm_decrypt_rtp c (take (Z.to_nat (header_marshal_size h)) p ++ body) h roc = Ok p.
Proof.
  intros Hc [Hb Hmax] Hh. set (off := header_marshal_size h) in *.
  destruct (rtp_iv_ok c h roc Hc) as [iv Eiv].
  set (hd := take (Z.to_nat off) p). set (pl := drop (Z.to_nat off) p).
  assert (len hd = off) as Hlh by (unfold hd; rewrite len_take; lia).
  assert (len pl = len p - off) as Hlp by (unfold pl; rewrite len_drop; lia).
  destruct (aead_seal_total (gcm_srtp_cipher c) iv hd pl) as [[ct t] Es]; [lia|].
  destruct (aead_seal_spec _ _ _ _ _ _ Es) as (Hlc & Hlt & Hbct & Ho).
  exists (ct ++ t). split_and!; [| done | |].
  - unfold gcm_encrypt_rtp. rewrite Eiv. cbn [rbind]. fold off.
    rewrite slice_take, slice_drop by lia. cbn [rbind]. fold hd pl. by rewrite Es.
  - rewrite (proj1 (gcm_tags c Hc)), (gcm_profile_ok c Hc), len_app. unfold len in *. lia.
  - unfold gcm_decrypt_rtp. rewrite (gcm_profile_ok c Hc). fold off.
    assert (len (hd ++ ct ++ t) = len p + 16) as Hl by (rewrite !len_app; unfold len in *; lia).
    rewrite Hl, !(proj2 (Z.ltb_ge _ _)) by lia. rewrite Eiv. cbn [rbind].
    rewrite slice_head_eq, slice_tail by lia. cbn [rbind]. rewrite Ho by (by apply Forall_drop).
    unfold hd, pl. rewrite take_drop, take_ge; [done|unfold len; lia].
Qed.

Lemma gcm_rtcp_safe c e :
  gcm_ok c → Forall byte_ok e → 8 + SRTCP_INDEX_SIZE + 16 <= len e →
  ∃ i, gcm_get_rtcp_index c e = Ok i ∧ 0 <= i < SRTCP_INDEX_LIMIT ∧ ∀ x, no_panic (gcm_decrypt_rtcp c e i x).
Proof.
  intros Hc Hb Hl. unfold gcm_get_rtcp_index, gcm_decrypt_rtcp, SRTCP_INDEX_SIZE in *.
  rewrite (gcm_profile_ok c Hc). rewrite slice_drop by lia. cbn [rbind].
  destruct (read_word_total (drop (Z.to_nat (len e - 4)) e)) as (v & -> & Hv);
    [by apply Forall_drop|rewrite len_drop; lia|]. cbn [rbind].
  change (Z.lxor 0xFFFFFFFF (Z.shiftl RTCP_ENCRYPTION_FLAG 24)) with 0x7FFFFFFF.
  assert (0 <= Z.land v 0x7FFFFFFF < SRTCP_INDEX_LIMIT) as Hi.
  { rewrite index_mask by done. by apply Z.mod_pos_bound. }
  eexists. split_and!; [done|apply Hi|apply Hi|]. intros x.
  rewrite (proj2 (Z.ltb_ge _ (16 + 4))) by lia.
  destruct (rtcp_iv_ok c (Z.land v 0x7FFFFFFF) x Hc) as [iv ->]. cbn [rbind].
  rewrite rtcp_aad_ok by (done || lia). cbn [rbind]. rewrite (proj2 (Z.ltb_ge _ 8)) by lia.
  replace (len e - 4 - 16 + 16) with (len e - 4) by lia. rewrite slice_take by lia. cbn [rbind].
  rewrite slice_take, slice_drop by (rewrite len_take; lia). cbn [rbind]. by destruct (aead_open _ _ _ _).
Qed.

Lemma gcm_encrypt_decrypt_rtcp c p i x :
  gcm_ok c → packet_ok p → 8 <= len p → 0 <= i < SRTCP_INDEX_LIMIT →
  ∃ body, gcm_encrypt_rtcp c p i x = Ok (take 8 p ++ body) ∧ Forall byte_ok body ∧
    8 + len body = len p + SRTCP_INDEX_SIZE + profile_rtcp_auth_tag_len (gcm_profile c)
      + profile_aead_auth_tag_len (gcm_profile c) ∧
    gcm_get_rtcp_index c (take 8 p ++ body) = Ok i ∧
    gcm_decrypt_rtcp c (take 8 p ++ body) i x = Ok p.
Proof.
  intros Hc [Hb Hmax] Hp Hi. destruct (rtcp_iv_ok c i x Hc) as [iv Eiv].
  set (hd := take 8 p). set (pl := drop 8 p). set (word := put_uint 4 (i + 2 ^ 31)).
  assert (len hd = 8) as Hlh by (unfold hd; rewrite len_take; lia).
  assert (len pl = len p - 8) as Hlp by (unfold pl; rewrite len_drop; lia).
  assert (len word = 4) as Hlw by (unfold word; by rewrite len_put_uint).
  destruct (aead_seal_total (gcm_srtcp_cipher c) iv (hd ++ word) pl) as [[ct t] Es]; [lia|].
  destruct (aead_seal_spec _ _ _ _ _ _ Es) as (Hlc & Hlt & Hbct & Ho).
  exists (ct ++ t ++ word). assert (len ct = len pl ∧ len t = 16) as [Hlc' Hlt'] by (unfold len; lia).
  assert (len (hd ++ ct ++ t ++ word) = len p + 20) as Hl by (rewrite !len_app; lia).
  split_and!.
  - unfold gcm_encrypt_rtcp. rewrite Eiv. cbn [rbind]. rewrite rtcp_aad_ok by done. cbn [rbind]. fold hd word.
    rewrite slice_take, slice_drop by lia. cbn [rbind]. change (Z.to_nat 8) with 8%nat. fold hd pl.
    rewrite Es, slice_tail by done. done.
  - rewrite app_assoc. apply Forall_app. split; [done|apply put_uint_bytes].
  - rewrite (proj2 (gcm_tags c Hc)), (gcm_profile_ok c Hc), !len_app. unfold SRTCP_INDEX_SIZE. lia.
  - unfold gcm_get_rtcp_index. rewrite Hl. rewrite !app_assoc.
    rewrite slice_tail by (rewrite !len_app in *; lia). cbn [rbind].
    rewrite <- (app_nil_r word). unfold word. rewrite esrtcp_read by done. cbn [rbind].
    change (Z.lxor 0xFFFFFFFF (Z.shiftl RTCP_ENCRYPTION_FLAG 24)) with 0x7FFFFFFF. by rewrite index_unflag.
  - unfold gcm_decrypt_rtcp, SRTCP_INDEX_SIZE. rewrite (gcm_profile_ok c Hc), Hl.
    rewrite (proj2 (Z.ltb_ge _ (16 + 4))) by lia. rewrite Eiv. cbn [rbind].
    rewrite rtcp_aad_ok by (done || lia). cbn [rbind]. rewrite (proj2 (Z.ltb_ge _ 8)) by lia.
    rewrite (take_app_length' hd) by (unfold len in Hlh; lia). fold word.
    rewrite !app_assoc, slice_head_eq by (rewrite !len_app; lia). cbn [rbind].
    rewrite <- app_assoc, slice_head_eq, slice_tail by lia. cbn [rbind]. rewrite Ho by (by apply Forall_drop).
    unfold hd, pl. rewrite take_drop, take_ge; [done|unfold len; lia].
Qed.

(** ** Key derivation *)

Lemma div_ceil_16 n : 0 <= n → 0 <= div_ceil n 16 ∧ n <= 16 * div_ceil n 16.
Proof.
  intros Hn. unfold div_ceil. pose proof (Z_div_mod_eq_full (n + 16 - 1) 16).
  pose proof (Z.mod_pos_bound (n + 16 - 1) 16). pose proof (Z.div_pos (n + 16 - 1) 16). lia.
Qed.

Lemma prf_blocks_len key prf n : 0 <= n → n <= len (prf_blocks key prf n 16).
Proof.
  intros Hn. pose proof (div_ceil_16 n Hn) as [Hd Hc]. unfold prf_blocks.
  assert (∀ (f : Z → bytes) l, (∀ i, length (f i) = 16%nat) → len (concat (f <$> l)) = 16 * len l) as Hl.
  { intros f l Hf. induction l as [|i l IH]; [done|]. csimpl. rewrite len_app, IH, len_cons. unfold len at 1. rewrite Hf. lia. }
  rewrite Hl by (intros; apply aes_block_length). unfold below, len. rewrite length_fmap, length_seq. lia.
Qed.

(** What a key derivation function promises for keys and salts of a profile. *)
Definition kdf_ok (kdf : Kdf) (mk ms : bytes) (max : Z) : Prop :=
  ∀ label n, 0 <= n <= max → ∃ k, kdf label mk ms 0 n = Ok k ∧ len k = n.

Lemma aes_cm_kdf_ok mk ms max : len mk = 16 → len ms <= 16 → kdf_ok aes_cm_key_derivation mk ms max.
Proof.
  intros Hk Hs label n Hn. unfold aes_cm_key_derivation. cbn [Z.eqb negb].
  set (z := replicate (length mk) 0). assert (len z = 16) as Hz by (unfold z; rewrite len_replicate; unfold len in Hk; lia).
  unfold assert_ at 1. rewrite (proj2 (Z.leb_le _ _)) by lia. cbn [rbind].
  destruct (index_ok (ms ++ drop (length ms) z) 7) as (b & -> & _).
  { rewrite len_app, len_drop. unfold len in *. lia. }
  cbn [rbind]. unfold assert_. rewrite Hk. cbn [Z.eqb Pos.eqb].
  pose proof (prf_blocks_len mk (<[7%nat := Z.lxor b label]> (ms ++ drop (length ms) z)) n ltac:(lia)).
  rewrite slice_take by lia. eexists. split; [done|]. rewrite len_take. lia.
Qed.

Lemma aes_256_kdf_ok mk ms : len mk = 32 → len ms <= 14 → kdf_ok aes_256_cm_key_derivation mk ms 32.
Proof.
  intros Hk Hs label n Hn. unfold aes_256_cm_key_derivation. cbn [Z.eqb negb].
  rewrite Hk. cbn [Z.eqb Pos.eqb negb]. rewrite (proj2 (Z.ltb_ge 14 _)), (proj2 (Z.ltb_ge 32 _)) by lia.
  match goal with |- context [prf_blocks ?k ?p n ?b] => pose proof (prf_blocks_len k p n ltac:(lia)) end.
  unfold AES_256_BS. rewrite slice_take by lia. eexists. split; [done|]. rewrite len_take. lia.
Qed.

Lemma gcm_new_ok profile mk ms :
  profile_aead_auth_tag_len profile = 16 → len mk = key_len profile → len ms = salt_len profile →
  ∃ c, gcm_new profile mk ms = Ok c ∧ gcm_ok c.
Proof.
  intros Hp Hk Hs.
  assert (∃ kdf, (match profile with AeadAes128Gcm => Ok (16, aes_cm_key_derivation)
                  | AeadAes256Gcm => Ok (32, aes_256_cm_key_derivation) | _ => Panic end) = Ok (len mk, kdf) ∧
    kdf_ok kdf mk ms 32) as (kdf & Ek & Hkdf).
  { destruct profile; try discriminate; simpl in Hk, Hs; rewrite Hk; eexists; (split; [done|]);
      [apply aes_cm_kdf_ok; lia|apply aes_256_kdf_ok; lia]. }
  unfold gcm_new. rewrite Ek. cbn [rbind]. rewrite Hp. unfold assert_, CIPHER_AEAD_AES_GCM_AUTH_TAG_LEN.
  rewrite Hs. rewrite (Z.eqb_refl (salt_len profile)). cbn [Z.eqb Pos.eqb andb].
  assert (0 <= len mk <= 32 ∧ salt_len profile = 12) as [Hl12 E12] by (destruct profile; simpl in *; try discriminate; lia).
  destruct (Hkdf LABEL_SRTP_ENCRYPTION (len mk)) as (k1 & -> & L1); [lia|].
  destruct (Hkdf LABEL_SRTCP_ENCRYPTION (len mk)) as (k2 & -> & L2); [lia|]. cbn [rbind].
  unfold unbound_key. rewrite L1, L2, Z.eqb_refl. cbn [rbind]. rewrite E12.
  destruct (Hkdf LABEL_SRTP_SALT 12) as (s1 & -> & M1); [lia|].
  destruct (Hkdf LABEL_SRTCP_SALT 12) as (s2 & -> & M2); [lia|]. cbn [rbind].
  eexists. split; [done|]. by split.
Qed.

Lemma cm_new_ok profile mk ms :
  profile_aead_auth_tag_len profile = 0 → len mk = key_len profile → len ms = salt_len profile →
  ∃ c, cm_new profile mk ms = Ok c ∧ cm_ok c.
Proof.
  intros Hp Hk Hs.
  assert (∃ kdf, (match profile with Aes128CmHmacSha1_32 | Aes128CmHmacSha1_80 => Ok aes_cm_key_derivation
                  | Aes256CmHmacSha1_80 | Aes256CmHmacSha1_32 => Ok aes_256_cm_key_derivation
                  | _ => Err ErrOther end) = Ok kdf ∧
    kdf_ok kdf mk ms 32) as (kdf & Ek & Hkdf).
  { destruct profile; try discriminate; simpl in Hk, Hs; eexists; (split; [done|]);
      (apply aes_cm_kdf_ok; lia) || (apply aes_256_kdf_ok; lia). }
  unfold cm_new. rewrite Ek. cbn [rbind]. unfold inner_new.
  assert (salt_len profile = 14 ∧ auth_key_len profile = 20 ∧ 0 <= key_len profile <= 32) as (E14 & E20 & Hkl)
    by (destruct profile; simpl in *; try discriminate; lia).
  rewrite Hs, E14, E20.
  destruct (Hkdf LABEL_SRTP_SALT 14) as (s1 & -> & M1); [lia|]. cbn [rbind].
  destruct (Hkdf LABEL_SRTCP_SALT 14) as (s2 & -> & M2); [lia|]. cbn [rbind].
  destruct (Hkdf LABEL_SRTP_AUTHENTICATION_TAG 20) as (a1 & -> & _); [lia|]. cbn [rbind].
  destruct (Hkdf LABEL_SRTCP_AUTHENTICATION_TAG 20) as (a2 & -> & _); [lia|]. cbn [rbind].
  destruct (Hkdf LABEL_SRTP_ENCRYPTION (len mk)) as (k1 & -> & L1); [lia|]. cbn [rbind].
  destruct (Hkdf LABEL_SRTCP_ENCRYPTION (len mk)) as (k2 & -> & L2); [lia|]. cbn [rbind].
  eexists. split; [done|]. split; cbn; [done|lia|lia].
Qed.

(** ** Initialization vectors *)

Lemma put_uint_inj n x y :
  fits (8 * Z.of_nat n) x → fits (8 * Z.of_nat n) y → put_uint n x = put_uint n y → x = y.
Proof.
  intros Hx Hy E. pose proof (get_put_uint n x [] Hx) as Gx. pose proof (get_put_uint n y [] Hy) as Gy.
  rewrite E, Gy in Gx. by simplify_eq.
Qed.

Lemma put_uint_app_inj n x y a b :
  fits (8 * Z.of_nat n) x → fits (8 * Z.of_nat n) y → put_uint n x ++ a = put_uint n y ++ b → x = y ∧ a = b.
Proof.
  intros Hx Hy E. pose proof (get_put_uint n x a Hx) as Gx. pose proof (get_put_uint n y b Hy) as Gy.
  rewrite E, Gy in Gx. by simplify_eq.
Qed.

Lemma xor_bytes_inj a b s :
  length a = length b → (length a ≤ length s)%nat → xor_bytes a s = xor_bytes b s → a = b.
Proof.
  intros Hl Hs E. rewrite <- (xor_bytes_involutive a s), <- (xor_bytes_involutive b s) by lia. by rewrite E.
Qed.

Lemma xor_salt_inj a b s r :
  xor_salt a s = Ok r → xor_salt b s = Ok r → length a = length b → a = b.
Proof.
  unfold xor_salt, assert_. destruct (Z.leb_spec (len a) (len s)); [|done].
  destruct (Z.leb_spec (len b) (len s)); [|done]. intros [= E1] [= E2] Hl. unfold len in *.
  apply (xor_bytes_inj a b s); [done|lia|congruence].
Qed.

End CipherLemmas.

#[export, refine] Instance cm_laws `{BytesCrate, CryptoCrates} : CipherLaws CipherAesCmHmacSha1 cm_ok := {}.
Proof.
  - intros c _. pose proof (cm_tag_range c). cbn. destruct (cm_profile (inner c)); simpl; lia.
  - intros. by apply cm_decrypt_rtp_safe.
  - intros. by apply cm_encrypt_decrypt_rtp.
  - intros c e Hc Hb. cbn [rtcp_auth_tag_len aead_auth_tag_len cm_cipher]. rewrite (cm_profile_ok c Hc), Z.add_0_r.
    by apply cm_rtcp_safe.
  - intros. by apply cm_encrypt_decrypt_rtcp.
Defined.

#[export, refine] Instance gcm_laws `{BytesCrate, CryptoCrates} : CipherLaws CipherAeadAesGcm gcm_ok := {}.
Proof.
  - intros c _. cbn. destruct (gcm_profile c); simpl; lia.
  - intros. by apply gcm_decrypt_rtp_safe.
  - intros. by apply gcm_encrypt_decrypt_rtp.
  - intros c e Hc Hb. cbn [rtcp_auth_tag_len aead_auth_tag_len gcm_cipher].
    rewrite (proj2 (gcm_tags c Hc)), (gcm_profile_ok c Hc), Z.add_0_r. by apply gcm_rtcp_safe.
  - intros. by apply gcm_encrypt_decrypt_rtcp.
Defined.

(** * Properties *)

Section CipherProperties.
Context {BC : BytesCrate} {CC : CryptoCrates}.

(** Packets with different SSRC, rollover counter or sequence number never share
    an AES-GCM nonce under one key, and neither do RTCP packets with different SSRC
    or index. *)
Theorem gcm_nonce_unique (c : CipherAeadAesGcm) (h h' : Header) (roc roc' i i' x x' : Z) (iv : bytes) :
  fits 32 (ssrc h) → fits 32 (ssrc h') → fits 32 roc → fits 32 roc' →
  fits 16 (sequence_number h) → fits 16 (sequence_number h') →
  fits 32 x → fits 32 x' → fits 31 i → fits 31 i' →
  (rtp_initialization_vector c h roc = Ok iv → rtp_initialization_vector c h' roc' = Ok iv →
   ssrc h = ssrc h' ∧ roc = roc' ∧ sequence_number h = sequence_number h') ∧
  (rtcp_initialization_vector c i x = Ok iv → rtcp_initialization_vector c i' x' = Ok iv →
   x = x' ∧ i = i').
Proof.
  intros. split; intros E1 E2.
  - unfold rtp_initialization_vector in *.
    pose proof (xor_salt_inj _ _ _ _ E1 E2) as E. rewrite !length_app, !put_uint_length in E.
    specialize (E eq_refl).
    apply app_inv_head in E. apply put_uint_app_inj in E as [? E]; [|done..].
    apply put_uint_app_inj in E as [? E]; [|done..]. by apply put_uint_inj in E.
  - unfold rtcp_initialization_vector in *.
    assert (∀ j, fits 31 j → u32 j = j) as Hw by (intros j [? ?]; apply wrap_small; unfold fits; lia).
    rewrite !Hw in * by done.
    pose proof (xor_salt_inj _ _ _ _ E1 E2) as E. rewrite !length_app, !put_uint_length in E.
    specialize (E eq_refl).
    apply app_inv_head in E. apply put_uint_app_inj in E as [? E]; [|done..].
    apply app_inv_head in E. apply put_uint_inj in E; [done|unfold fits in *; change (8 * Z.of_nat 4) with 32; lia..].
Qed.

End CipherProperties.

(** ** The theorems at concrete values *)

(** Functions that meet the documented behaviour of the crates, to evaluate the
    ciphers with: a constant keystream and tag (lengths are right, security is not). *)
Module ToyCrypto.

Definition tag : bytes := replicate 16 9.

Definition seal (p : bytes) : option (bytes * bytes) :=
  if len p <? 2 ^ 36 - 31 then Some ((λ x, x mod 256) <$> p, tag) else None.

Definition open (c : bytes) : option bytes :=
  if (16 <=? len c) && bool_decide (drop (length c - 16) c = tag) then Some (take (length c - 16) c) else None.

#[export, refine] Instance toy_crypto : CryptoCrates := {|
  aes_block _ _ := replicate 16 1;
  aes_ctr _ _ n := replicate n 0x5A;
  hmac_sha1 _ _ := replicate 20 7;
  aead_seal _ _ _ p := seal p;
  aead_open _ _ _ c := open c;
|}.
Proof.
  all: try (intros; by rewrite ?length_replicate).
  all: try (intros; apply Forall_replicate; split; vm_compute; congruence).
  - intros _ _ _ p Hp. unfold seal. rewrite (proj2 (Z.ltb_lt _ _)) by done. eauto.
  - intros _ _ _ p c t. unfold seal. destruct (_ <? _); [|done]. intros [= <- <-].
    assert (length tag = 16%nat) as Ht by done. rewrite length_fmap. split_and!; [done|done| |].
    + apply Forall_app. split; [|apply Forall_replicate; split; vm_compute; congruence].
      apply Forall_fmap, Forall_true. intros x. apply (wrap_fits 8). lia.
    + intros Hb. unfold open. set (q := (λ x, x mod 256) <$> p).
      assert (q = p) as ->.
      { unfold q. rewrite <- (list_fmap_id p) at 2. apply list_fmap_ext. intros i x Hx.
        apply Z.mod_small. rewrite Forall_lookup in Hb. by apply (Hb i). }
      rewrite length_app, Ht. replace (length p + 16 - 16)%nat with (length p) by lia.
      rewrite drop_app_length, take_app_length, bool_decide_true by done.
      rewrite (proj2 (Z.leb_le _ _)); [done|]. rewrite len_app. pose proof (len_nonneg p).
      change (len tag) with 16. lia.
  - intros _ _ _ c p. unfold open. destruct (Z.leb_spec 16 (len c)); [|done]. cbn [andb].
    destruct (bool_decide _); [|done]. intros [= <-]. rewrite length_take. unfold len in *. lia.
Defined.

End ToyCrypto.

Import BigEndian ToyCrypto.

Definition sample_gcm : CipherAeadAesGcm :=
  mkGcm AeadAes128Gcm (replicate 16 1) (replicate 16 1) (replicate 12 1) (replicate 12 1).

Definition sample_iv : bytes := [1; 1; 1; 1; 1; 8; 1; 1; 1; 1; 1; 6].

Lemma gcm_nonce_unique_witness :
  rtp_initialization_vector sample_gcm (mkHeader 2 false false false 96 7 0 9 [] 0 [] 0) 0 = Ok sample_iv ∧
  (rtp_initialization_vector sample_gcm (mkHeader 2 false false false 96 8 0 9 [] 0 [] 0) 0 ≠ Ok sample_iv).
Proof.
  split; [vm_compute; reflexivity|]. intros E.
  destruct (gcm_nonce_unique sample_gcm (mkHeader 2 false false false 96 7 0 9 [] 0 [] 0)
    (mkHeader 2 false false false 96 8 0 9 [] 0 [] 0) 0 0 1 1 9 9 sample_iv) as [Hu _];
    try (split; vm_compute; congruence).
  destruct (Hu ltac:(vm_compute; reflexivity) E) as (_ & _ & Hs). discriminate Hs.
Defined.
