(* ===== verification/Srtp.v ===== *)
(** The SRTP context of [rtc-srtp/src/context] and [option.rs]: the packet index a
    receiver guesses from a 16-bit sequence number, per-SSRC state with replay
    detection, and encryption and decryption of RTP and RTCP packets.  The context is
    written against the [Cipher] and [ReplayDetector] interfaces. *)

From S2P Require Import Prelude Replay RtpHeader RtpPacket Rtcp SrtpCipher.

(** * Per-SSRC state *)

Definition MAX_ROC : Z := 0xFFFFFFFF.
Definition SEQ_NUM_MEDIAN : Z := Z.shiftl 1 15.
Definition SEQ_NUM_MAX : Z := 65535.
Definition MAX_SEQUENCE_NUMBER : Z := 65535.
Definition MAX_SRTCP_INDEX : Z := 0x7FFFFFFF.

Record SrtpSsrcState (D : Type) := mkSrtpState {
  st_ssrc : Z;
  st_index : Z;
  rollover_has_processed : bool;
  st_detector : option D
}.
Arguments mkSrtpState {D} _ _ _ _.
Arguments st_ssrc {D} _.
Arguments st_index {D} _.
Arguments rollover_has_processed {D} _.
Arguments st_detector {D} _.

Record SrtcpSsrcState (D : Type) := mkSrtcpState {
  srtcp_index : Z;
  rst_ssrc : Z;
  rst_detector : option D
}.
Arguments mkSrtcpState {D} _ _ _.
Arguments srtcp_index {D} _.
Arguments rst_ssrc {D} _.
Arguments rst_detector {D} _.

(** [(guess_roc, diff, overflow)] for a sequence number, from the last index. *)
Definition next_rollover_count {D} (st : SrtpSsrcState D) (sequence_number : Z) : Z * Z * bool :=
  let local_roc := u32 (Z.shiftr (st_index st) 16) in
  let local_seq := u16 (st_index st) in
  let '(guess_roc, diff) :=
    if rollover_has_processed st then
      let seq := i32 (sequence_number - local_seq) in
      if SEQ_NUM_MEDIAN <? st_index st then
        if local_seq <? SEQ_NUM_MEDIAN then
          if SEQ_NUM_MEDIAN <? seq then (u32 (local_roc - 1), i32 (seq - (SEQ_NUM_MAX + 1)))
          else (local_roc, seq)
        else if sequence_number <? local_seq - SEQ_NUM_MEDIAN then
          (u32 (local_roc + 1), i32 (seq + (SEQ_NUM_MAX + 1)))
        else (local_roc, seq)
      else (local_roc, seq)
    else (local_roc, 0) in
  (guess_roc, diff, (guess_roc =? 0) && (local_roc =? MAX_ROC)).

Definition update_rollover_count {D} (st : SrtpSsrcState D) (sequence_number diff : Z) : SrtpSsrcState D :=
  if negb (rollover_has_processed st) then
    mkSrtpState (st_ssrc st) (Z.lor (st_index st) sequence_number) true (st_detector st)
  else
    mkSrtpState (st_ssrc st) (u64 (st_index st + u64 diff)) (rollover_has_processed st) (st_detector st).

(** * [Context] *)

Record Context (C D : Type) := mkContext {
  cipher : C;
  srtp_ssrc_states : gmap Z (SrtpSsrcState D);
  srtcp_ssrc_states : gmap Z (SrtcpSsrcState D);
  new_srtp_replay_detector : D;
  new_srtcp_replay_detector : D
}.
Arguments mkContext {C D} _ _ _ _ _.
Arguments cipher {C D} _.
Arguments srtp_ssrc_states {C D} _.
Arguments srtcp_ssrc_states {C D} _.
Arguments new_srtp_replay_detector {C D} _.
Arguments new_srtcp_replay_detector {C D} _.

Section Context.
Context {BC : BytesCrate} {C D : Type} `{Cipher C} `{ReplayDetector D}.

Definition put_srtp (ssrc : Z) (st : SrtpSsrcState D) (c : Context C D) : Context C D :=
  mkContext (cipher c) (<[ssrc := st]> (srtp_ssrc_states c)) (srtcp_ssrc_states c)
    (new_srtp_replay_detector c) (new_srtcp_replay_detector c).

Definition put_srtcp (ssrc : Z) (st : SrtcpSsrcState D) (c : Context C D) : Context C D :=
  mkContext (cipher c) (srtp_ssrc_states c) (<[ssrc := st]> (srtcp_ssrc_states c))
    (new_srtp_replay_detector c) (new_srtcp_replay_detector c).

(** The entry of an SSRC, or the state [or_insert_with] creates. *)
Definition srtp_state (c : Context C D) (ssrc : Z) : SrtpSsrcState D :=
  default (mkSrtpState ssrc 0 false (Some (new_srtp_replay_detector c))) (srtp_ssrc_states c !! ssrc).

Definition srtcp_state (c : Context C D) (ssrc : Z) : SrtcpSsrcState D :=
  default (mkSrtcpState 0 ssrc (Some (new_srtcp_replay_detector c))) (srtcp_ssrc_states c !! ssrc).

Definition get_srtp_ssrc_state (ssrc : Z) : sm (Context C D) (SrtpSsrcState D) := λ c,
  let st := srtp_state c ssrc in (Ok st, put_srtp ssrc st c).

Definition get_srtcp_ssrc_state (ssrc : Z) : sm (Context C D) (SrtcpSsrcState D) := λ c,
  let st := srtcp_state c ssrc in (Ok st, put_srtcp ssrc st c).

Definition get_roc (c : Context C D) (ssrc : Z) : option Z :=
  (λ st, u32 (Z.shiftr (st_index st) 16)) <$> srtp_ssrc_states c !! ssrc.

Definition set_roc (ssrc roc : Z) : sm (Context C D) unit :=
  do! st <- get_srtp_ssrc_state ssrc;
  smodify (put_srtp ssrc (mkSrtpState (st_ssrc st) (u64 (Z.shiftl roc 16)) false (st_detector st))).

Definition get_index (c : Context C D) (ssrc : Z) : option Z :=
  srtcp_index <$> srtcp_ssrc_states c !! ssrc.

Definition set_index (ssrc i : Z) : sm (Context C D) unit :=
  do! st <- get_srtcp_ssrc_state ssrc;
  smodify (put_srtcp ssrc (mkSrtcpState (i mod (MAX_SRTCP_INDEX + 1)) (rst_ssrc st) (rst_detector st))).

(** [if let Some(d) = &mut detector && !d.check(i)]: whether the packet is fresh, and
    the detector after the check. *)
Definition detector_check (d : option D) (i : Z) : bool * option D :=
  match d with
  | Some d => let (fresh, d) := rd_check d i in (fresh, Some d)
  | None => (true, None)
  end.

Definition detector_accept (d : option D) : res (option D) :=
  match d with
  | Some d => let! d := rd_accept d in Ok (Some d)
  | None => Ok None
  end.

(** ** [srtp.rs] *)

Definition decrypt_rtp_with_header (encrypted : bytes) (h : Header) : sm (Context C D) bytes :=
  do! auth_tag_len <- sgets (λ c, rtp_auth_tag_len (cipher c));
  do! _ <- sguard (len encrypted <? header_marshal_size h + auth_tag_len) ErrTooShortRtp;
  do! st <- get_srtp_ssrc_state (ssrc h);
  let '(roc, diff, _) := next_rollover_count st (sequence_number h) in
  let '(fresh, d) := detector_check (st_detector st) (sequence_number h) in
  do! _ <- smodify (put_srtp (ssrc h) (mkSrtpState (st_ssrc st) (st_index st) (rollover_has_processed st) d));
  do! _ <- sguard (negb fresh) SrtpSsrcDuplicated;
  do! c <- sgets cipher;
  do! dst <- slift (decrypt_rtp c encrypted h roc);
  do! st <- get_srtp_ssrc_state (ssrc h);
  do! d <- slift (detector_accept (st_detector st));
  let st := mkSrtpState (st_ssrc st) (st_index st) (rollover_has_processed st) d in
  do! _ <- smodify (put_srtp (ssrc h) (update_rollover_count st (sequence_number h) diff));
  sret dst.

Definition ctx_decrypt_rtp (encrypted : bytes) : sm (Context C D) bytes :=
  do! (h, _) <- slift (header_unmarshal encrypted);
  decrypt_rtp_with_header encrypted h.

Definition encrypt_rtp_with_header (plaintext : bytes) (h : Header) : sm (Context C D) bytes :=
  do! st <- get_srtp_ssrc_state (ssrc h);
  let '(roc, diff, ovf) := next_rollover_count st (sequence_number h) in
  do! _ <- sguard ovf ErrExceededMaxPackets;
  do! c <- sgets cipher;
  do! dst <- slift (encrypt_rtp c plaintext h roc);
  do! st <- get_srtp_ssrc_state (ssrc h);
  do! _ <- smodify (put_srtp (ssrc h) (update_rollover_count st (sequence_number h) diff));
  sret dst.

Definition ctx_encrypt_rtp (plaintext : bytes) : sm (Context C D) bytes :=
  do! (h, _) <- slift (header_unmarshal plaintext);
  encrypt_rtp_with_header plaintext h.

(** ** [srtcp.rs] *)

(** [u32::from_be_bytes([p[4], p[5], p[6], p[7]])] *)
Definition ssrc_at_4 (p : bytes) : res Z :=
  let! a := index p 4 in
  let! b := index p 5 in
  let! c := index p 6 in
  let! d := index p 7 in
  Ok (BigEndian.dec [a; b; c; d]).

Definition ctx_decrypt_rtcp (encrypted : bytes) : sm (Context C D) bytes :=
  do! min_len <- sgets (λ c, 8 + SRTCP_INDEX_SIZE + rtcp_auth_tag_len (cipher c) + aead_auth_tag_len (cipher c));
  do! _ <- sguard (len encrypted <? min_len) ErrTooShortRtcp;
  do! _ <- slift (rtcp_header_unmarshal encrypted);
  do! c <- sgets cipher;
  do! i <- slift (get_rtcp_index c encrypted);
  do! ssrc <- slift (ssrc_at_4 encrypted);
  do! st <- get_srtcp_ssrc_state ssrc;
  let '(fresh, d) := detector_check (rst_detector st) i in
  do! _ <- smodify (put_srtcp ssrc (mkSrtcpState (srtcp_index st) (rst_ssrc st) d));
  do! _ <- sguard (negb fresh) SrtcpSsrcDuplicated;
  do! dst <- slift (decrypt_rtcp c encrypted i ssrc);
  do! st <- get_srtcp_ssrc_state ssrc;
  do! d <- slift (detector_accept (rst_detector st));
  do! _ <- smodify (put_srtcp ssrc (mkSrtcpState (srtcp_index st) (rst_ssrc st) d));
  sret dst.

Definition ctx_encrypt_rtcp (decrypted : bytes) : sm (Context C D) bytes :=
  do! _ <- sguard (len decrypted <? 8) ErrTooShortRtcp;
  do! _ <- slift (rtcp_header_unmarshal decrypted);
  do! ssrc <- slift (ssrc_at_4 decrypted);
  do! st <- get_srtcp_ssrc_state ssrc;
  let i := u64 (srtcp_index st + 1) in
  let i := if MAX_SRTCP_INDEX <? i then 0 else i in
  do! _ <- smodify (put_srtcp ssrc (mkSrtcpState i (rst_ssrc st) (rst_detector st)));
  do! c <- sgets cipher;
  slift (encrypt_rtcp c decrypted i ssrc).

End Context.

(** * The trait objects [Context::new] builds *)

Inductive AnyCipher := Gcm (c : CipherAeadAesGcm) | Cm (c : CipherAesCmHmacSha1).

#[export] Instance any_cipher `{BytesCrate, CryptoCrates} : Cipher AnyCipher := {|
  rtp_auth_tag_len c := match c with Gcm c => rtp_auth_tag_len c | Cm c => rtp_auth_tag_len c end;
  rtcp_auth_tag_len c := match c with Gcm c => rtcp_auth_tag_len c | Cm c => rtcp_auth_tag_len c end;
  aead_auth_tag_len c := match c with Gcm c => aead_auth_tag_len c | Cm c => aead_auth_tag_len c end;
  get_rtcp_index c := match c with Gcm c => get_rtcp_index c | Cm c => get_rtcp_index c end;
  encrypt_rtp c := match c with Gcm c => encrypt_rtp c | Cm c => encrypt_rtp c end;
  decrypt_rtp c := match c with Gcm c => decrypt_rtp c | Cm c => decrypt_rtp c end;
  encrypt_rtcp c := match c with Gcm c => encrypt_rtcp c | Cm c => encrypt_rtcp c end;
  decrypt_rtcp c := match c with Gcm c => decrypt_rtcp c | Cm c => decrypt_rtcp c end;
|}.

(** [Box<dyn ReplayDetector>]: the wrapping window, or [NoOpReplayDetector]. *)
Inductive AnyDetector := NoOp | Windowed (d : Wrapped.WrappedSlidingWindowDetector).

#[export] Instance any_detector : ReplayDetector AnyDetector := {|
  rd_check d s := match d with
                  | NoOp => (true, NoOp)
                  | Windowed w => let (b, w) := rd_check w s in (b, Windowed w)
                  end;
  rd_accept d := match d with
                 | NoOp => Ok NoOp
                 | Windowed w => let! w := rd_accept w in Ok (Windowed w)
                 end;
|}.

(** [option.rs] *)
Definition srtp_replay_protection (window_size : Z) : AnyDetector :=
  Windowed (Wrapped.new window_size MAX_SEQUENCE_NUMBER).
Definition srtcp_replay_protection (window_size : Z) : AnyDetector :=
  Windowed (Wrapped.new window_size MAX_SRTCP_INDEX).
Definition srtp_no_replay_protection : AnyDetector := NoOp.
Definition srtcp_no_replay_protection : AnyDetector := NoOp.

Definition context_new `{BytesCrate, CryptoCrates} (master_key master_salt : bytes) (profile : ProtectionProfile)
    (srtp_ctx_opt srtcp_ctx_opt : option AnyDetector) : res (Context AnyCipher AnyDetector) :=
  if negb (len master_key =? key_len profile) then Err SrtpMasterKeyLength
  else if negb (len master_salt =? salt_len profile) then Err SrtpSaltLength
  else
    let! c :=
      match profile with
      | Aes128CmHmacSha1_32 | Aes128CmHmacSha1_80 | Aes256CmHmacSha1_80 | Aes256CmHmacSha1_32 =>
          let! c := cm_new profile master_key master_salt in Ok (Cm c)
      | AeadAes128Gcm | AeadAes256Gcm =>
          let! c := gcm_new profile master_key master_salt in Ok (Gcm c)
      end in
    Ok (mkContext c ∅ ∅ (default srtp_no_replay_protection srtp_ctx_opt)
          (default srtcp_no_replay_protection srtcp_ctx_opt)).

(** * [config.rs]: the keys of a session from exported DTLS keying material *)

Record SessionKeys := mkKeys {
  local_master_key : bytes;
  local_master_salt : bytes;
  remote_master_key : bytes;
  remote_master_salt : bytes
}.

(** [material] is what the exporter returned for the length asked. *)
Definition extract_session_keys_from_dtls (profile : ProtectionProfile) (material : res bytes) (is_client : bool) :
    res SessionKeys :=
  let kl := key_len profile in
  let sl := salt_len profile in
  let! m := material in
  let! client_write_key := slice m 0 (0 + kl) in
  let! server_write_key := slice m kl (kl + kl) in
  let! client_write_salt := slice m (kl + kl) (kl + kl + sl) in
  let! server_write_salt := slice m (kl + kl + sl) (kl + kl + sl + sl) in
  Ok (if is_client then mkKeys client_write_key client_write_salt server_write_key server_write_salt
      else mkKeys server_write_key server_write_salt client_write_key client_write_salt).

(** * Lemmas *)

(** ** The packet index *)

(** The state a sender or receiver is in when the packet with extended index [i]
    comes next: less than half the sequence space from the last one, or the first
    packet of the rollover period that was signalled. *)
Definition tracks {D} (st : SrtpSsrcState D) (i : Z) : Prop :=
  0 <= i ∧
  if rollover_has_processed st
  then fits 48 (st_index st) ∧ - 2 ^ 15 < i - st_index st < 2 ^ 15
  else fits 48 i ∧ st_index st = i / 2 ^ 16 * 2 ^ 16.

Lemma i32_small x : - 2 ^ 31 <= x < 2 ^ 31 → i32 x = x.
Proof. intros. by apply signed_small. Qed.

(** The choice among the previous, the current and the next rollover period: [R] and
    [L] are the halves of the last index, [Q] and [S] those of the packet's. *)
Lemma roc_choice R L Q S :
  0 <= R < 2 ^ 32 → 0 <= L < 2 ^ 16 → 0 <= Q → 0 <= S < 2 ^ 16 →
  - 2 ^ 15 < (Q * 2 ^ 16 + S) - (R * 2 ^ 16 + L) < 2 ^ 15 →
  (let seq := i32 (S - L) in
   if SEQ_NUM_MEDIAN <? R * 2 ^ 16 + L then
     if L <? SEQ_NUM_MEDIAN then
       if SEQ_NUM_MEDIAN <? seq then (u32 (R - 1), i32 (seq - (SEQ_NUM_MAX + 1))) else (R, seq)
     else if S <? L - SEQ_NUM_MEDIAN then (u32 (R + 1), i32 (seq + (SEQ_NUM_MAX + 1))) else (R, seq)
   else (R, seq)) = (u32 Q, (Q * 2 ^ 16 + S) - (R * 2 ^ 16 + L)).
Proof.
  intros HR HL HQ HS Hd. cbv zeta. change SEQ_NUM_MEDIAN with 32768. change SEQ_NUM_MAX with 65535.
  rewrite (i32_small (S - L)) by lia. rewrite !i32_small by lia.
  assert (Q = R ∨ Q = R + 1 ∨ Q = R - 1) as Hcases by lia.
  destruct (Z.ltb_spec 32768 (R * 2 ^ 16 + L)), (Z.ltb_spec L 32768), (Z.ltb_spec 32768 (S - L)),
    (Z.ltb_spec S (L - 32768)); try (exfalso; lia);
    (assert (Q = R - 1) as -> by lia) || (assert (Q = R + 1) as -> by lia) || (assert (Q = R) as -> by lia);
    rewrite ?(wrap_small 32 R) by (unfold fits; lia); f_equal; lia.
Qed.

Lemma overflow_flag R Q i :
  0 <= R < 2 ^ 32 → 0 <= Q → R - 1 <= Q <= R + 1 → Q * 2 ^ 16 <= i < Q * 2 ^ 16 + 2 ^ 16 →
  ((u32 Q =? 0) && (R =? MAX_ROC)) = (2 ^ 48 <=? i).
Proof.
  intros HR HQ Hd Hi. unfold MAX_ROC. destruct (Z.leb_spec (2 ^ 48) i).
  - assert (Q = 2 ^ 32) as -> by lia. assert (R = 4294967295) as -> by lia. done.
  - rewrite wrap_small by (unfold fits; lia). apply andb_false_iff.
    destruct (Z.eqb_spec Q 0); [right|by left]. apply Z.eqb_neq. lia.
Qed.

Lemma roc_guess {D} (st : SrtpSsrcState D) i :
  tracks st i → i < 2 ^ 49 →
  ∃ diff, next_rollover_count st (u16 i) = (u32 (i / 2 ^ 16), diff, 2 ^ 48 <=? i) ∧
    update_rollover_count st (u16 i) diff = mkSrtpState (st_ssrc st) i true (st_detector st).
Proof.
  intros [Hi0 Ht] Hi. unfold next_rollover_count, update_rollover_count.
  rewrite Z.shiftr_div_pow2 by lia.
  pose proof (Z_div_mod_eq_full i (2 ^ 16)) as Ei. pose proof (wrap_fits 16 i ltac:(lia)) as Bi.
  change (i mod 2 ^ 16) with (u16 i) in Ei. set (Q := i / 2 ^ 16) in *. set (S := u16 i) in *. unfold fits in Bi.
  destruct (rollover_has_processed st); cbn [negb].
  - destruct Ht as [Hx Hd]. set (x := st_index st) in *. unfold fits in Hx.
    exists (i - x). assert (u64 (x + u64 (i - x)) = i) as ->.
    { unfold wrap. rewrite Zplus_mod_idemp_r. rewrite Z.mod_small; lia. }
    split; [|done].
    pose proof (Z_div_mod_eq_full x (2 ^ 16)) as Ex. pose proof (wrap_fits 16 x ltac:(lia)) as Bx.
    change (x mod 2 ^ 16) with (u16 x) in Ex. set (R := x / 2 ^ 16) in *. set (L := u16 x) in *. unfold fits in Bx.
    assert (0 <= R < 2 ^ 32) as HR by lia. rewrite (wrap_small 32 R) by done.
    pose proof (roc_choice R L Q S HR Bx ltac:(lia) Bi ltac:(lia)) as Hc. cbv zeta in Hc.
    replace (R * 2 ^ 16 + L) with x in Hc by lia. rewrite Hc.
    rewrite (overflow_flag R Q i) by (done || lia). do 2 f_equal. lia.
  - destruct Ht as [Hf Hx]. exists 0. rewrite Hx. unfold fits in Hf. rewrite Z.div_mul by lia.
    pose proof (overflow_flag Q Q i ltac:(lia) ltac:(lia) ltac:(lia) ltac:(lia)) as Ho.
    rewrite (wrap_small 32 Q) in * by (unfold fits; lia). rewrite Ho. split; [done|]. f_equal.
    rewrite <- Z.shiftl_mul_pow2, lor_shiftl_add by (unfold fits; lia). lia.
Qed.

(** ** The state of one SSRC *)

Section ContextLemmas.
Context {BC : BytesCrate} {C D : Type} `{Cipher C} `{ReplayDetector D}.
Implicit Type c : Context C D.

Lemma srtp_state_put x st c : srtp_state (put_srtp x st c) x = st.
Proof. unfold srtp_state, put_srtp. cbn. by rewrite lookup_insert_eq. Qed.

Lemma srtp_state_put_ne x y st c : x ≠ y → srtp_state (put_srtp x st c) y = srtp_state c y.
Proof. intros Hne. unfold srtp_state, put_srtp. cbn. by rewrite lookup_insert_ne. Qed.

Lemma put_srtp_put x st st' c : put_srtp x st (put_srtp x st' c) = put_srtp x st c.
Proof. unfold put_srtp. cbn. by rewrite insert_insert_eq. Qed.

Lemma srtcp_state_put x st c : srtcp_state (put_srtcp x st c) x = st.
Proof. unfold srtcp_state, put_srtcp. cbn. by rewrite lookup_insert_eq. Qed.

Lemma put_srtcp_put x st st' c : put_srtcp x st (put_srtcp x st' c) = put_srtcp x st c.
Proof. unfold put_srtcp. cbn. by rewrite insert_insert_eq. Qed.

(** The state with another detector. *)
Definition with_detector (st : SrtpSsrcState D) (d : option D) : SrtpSsrcState D :=
  mkSrtpState (st_ssrc st) (st_index st) (rollover_has_processed st) d.

(** [decrypt_rtp_with_header] as one case distinction. *)
Lemma decrypt_rtp_cases e h c :
  decrypt_rtp_with_header e h c =
    (let st := srtp_state c (ssrc h) in
     let '(roc, diff, _) := next_rollover_count st (sequence_number h) in
     let '(fresh, d) := detector_check (st_detector st) (sequence_number h) in
     let c' := put_srtp (ssrc h) (with_detector st d) c in
     if len e <? header_marshal_size h + rtp_auth_tag_len (cipher c) then (Err ErrTooShortRtp, c)
     else if negb fresh then (Err SrtpSsrcDuplicated, c')
     else match decrypt_rtp (cipher c) e h roc with
          | Ok dst =>
              match detector_accept d with
              | Ok d' => (Ok dst, put_srtp (ssrc h)
                           (update_rollover_count (with_detector st d') (sequence_number h) diff) c)
              | Err er => (Err er, c')
              | Panic => (Panic, c')
              end
          | Err er => (Err er, c')
          | Panic => (Panic, c')
          end).
Proof.
  unfold decrypt_rtp_with_header, sbind at 1, sgets at 1, sbind at 1, sguard at 1.
  destruct (next_rollover_count (srtp_state c (ssrc h)) (sequence_number h)) as [[roc diff] ovf] eqn:En.
  destruct (detector_check (st_detector (srtp_state c (ssrc h))) (sequence_number h)) as [fresh d] eqn:Ed.
  destruct (len e <? _); [done|]. unfold sbind at 1, get_srtp_ssrc_state at 1. cbv zeta. rewrite En, Ed.
  unfold sbind at 1, smodify at 1, sbind at 1, sguard at 1. rewrite put_srtp_put. fold (with_detector (srtp_state c (ssrc h)) d).
  destruct fresh; cbn [negb]; [|done].
  unfold sbind at 1, sgets at 1, sbind at 1, slift at 1. cbn [cipher put_srtp].
  destruct (decrypt_rtp (cipher c) e h roc) as [dst| |]; [|done..].
  unfold sbind at 1, get_srtp_ssrc_state at 1. cbv zeta.
  change (mkContext (cipher c) (<[ssrc h := with_detector (srtp_state c (ssrc h)) d]> (srtp_ssrc_states c))
    (srtcp_ssrc_states c) (new_srtp_replay_detector c) (new_srtcp_replay_detector c))
    with (put_srtp (ssrc h) (with_detector (srtp_state c (ssrc h)) d) c).
  rewrite srtp_state_put, put_srtp_put. unfold sbind at 1, slift at 1. cbn [with_detector st_detector].
  destruct (detector_accept d) as [d'| |]; [|done..].
  unfold sbind at 1, smodify at 1, sret. by rewrite put_srtp_put.
Qed.

Lemma encrypt_rtp_cases p h c :
  encrypt_rtp_with_header p h c =
    (let st := srtp_state c (ssrc h) in
     let '(roc, diff, ovf) := next_rollover_count st (sequence_number h) in
     if ovf then (Err ErrExceededMaxPackets, put_srtp (ssrc h) st c)
     else match encrypt_rtp (cipher c) p h roc with
          | Ok dst => (Ok dst, put_srtp (ssrc h) (update_rollover_count st (sequence_number h) diff) c)
          | Err er => (Err er, put_srtp (ssrc h) st c)
          | Panic => (Panic, put_srtp (ssrc h) st c)
          end).
Proof.
  unfold encrypt_rtp_with_header, sbind at 1, get_srtp_ssrc_state at 1. cbv zeta.
  destruct (next_rollover_count (srtp_state c (ssrc h)) (sequence_number h)) as [[roc diff] ovf].
  unfold sbind at 1, sguard at 1. destruct ovf; [done|].
  unfold sbind at 1, sgets at 1, sbind at 1, slift at 1. cbn [cipher put_srtp].
  destruct (encrypt_rtp (cipher c) p h roc) as [dst| |]; [|done..].
  unfold sbind at 1, get_srtp_ssrc_state at 1. cbv zeta.
  change (mkContext (cipher c) (<[ssrc h := srtp_state c (ssrc h)]> (srtp_ssrc_states c))
    (srtcp_ssrc_states c) (new_srtp_replay_detector c) (new_srtcp_replay_detector c))
    with (put_srtp (ssrc h) (srtp_state c (ssrc h)) c).
  rewrite srtp_state_put, put_srtp_put. unfold sbind at 1, smodify at 1, sret. by rewrite put_srtp_put.
Qed.

(** The index an SSRC uses for its next SRTCP packet. *)
Definition next_srtcp_index (st : SrtcpSsrcState D) : Z :=
  if MAX_SRTCP_INDEX <? u64 (srtcp_index st + 1) then 0 else u64 (srtcp_index st + 1).

Lemma next_srtcp_index_range st :
  0 <= srtcp_index st <= MAX_SRTCP_INDEX →
  next_srtcp_index st = (srtcp_index st + 1) mod SRTCP_INDEX_LIMIT ∧ 0 <= next_srtcp_index st < SRTCP_INDEX_LIMIT.
Proof.
  unfold next_srtcp_index, MAX_SRTCP_INDEX, SRTCP_INDEX_LIMIT. intros Hi.
  rewrite wrap_small by (unfold fits; lia). destruct (Z.ltb_spec 0x7FFFFFFF (srtcp_index st + 1)).
  - assert (srtcp_index st = 2 ^ 31 - 1) as -> by lia. done.
  - rewrite Z.mod_small by lia. lia.
Qed.

Definition with_rtcp_detector (st : SrtcpSsrcState D) (d : option D) : SrtcpSsrcState D :=
  mkSrtcpState (srtcp_index st) (rst_ssrc st) d.

Lemma encrypt_rtcp_cases p c h r x :
  8 <= len p → rtcp_header_unmarshal p = Ok (h, r) → ssrc_at_4 p = Ok x →
  ctx_encrypt_rtcp p c =
    (let st := srtcp_state c x in
     let i := next_srtcp_index st in
     (encrypt_rtcp (cipher c) p i x, put_srtcp x (mkSrtcpState i (rst_ssrc st) (rst_detector st)) c)).
Proof.
  intros Hl Hh Hx. unfold ctx_encrypt_rtcp, sbind at 1, sguard. rewrite (proj2 (Z.ltb_ge _ 8)) by done.
  unfold sbind at 1, slift at 1. rewrite Hh. unfold sbind at 1, slift at 1. rewrite Hx.
  unfold sbind at 1, get_srtcp_ssrc_state. cbv zeta. fold (next_srtcp_index (srtcp_state c x)).
  unfold sbind at 1, smodify at 1. rewrite put_srtcp_put. unfold sbind, sgets, slift. done.
Qed.

Lemma decrypt_rtcp_cases e c h r x i :
  8 + SRTCP_INDEX_SIZE + rtcp_auth_tag_len (cipher c) + aead_auth_tag_len (cipher c) <= len e →
  rtcp_header_unmarshal e = Ok (h, r) → ssrc_at_4 e = Ok x → get_rtcp_index (cipher c) e = Ok i →
  ctx_decrypt_rtcp e c =
    (let st := srtcp_state c x in
     let '(fresh, d) := detector_check (rst_detector st) i in
     let c' := put_srtcp x (with_rtcp_detector st d) c in
     if negb fresh then (Err SrtcpSsrcDuplicated, c')
     else match decrypt_rtcp (cipher c) e i x with
          | Ok dst =>
              match detector_accept d with
              | Ok d' => (Ok dst, put_srtcp x (with_rtcp_detector st d') c)
              | Err er => (Err er, c')
              | Panic => (Panic, c')
              end
          | Err er => (Err er, c')
          | Panic => (Panic, c')
          end).
Proof.
  intros Hl Hh Hx Hi. unfold ctx_decrypt_rtcp, sbind at 1, sgets at 1, sbind at 1, sguard at 1.
  rewrite (proj2 (Z.ltb_ge _ _)) by done. unfold sbind at 1, slift at 1. rewrite Hh.
  unfold sbind at 1, sgets at 1, sbind at 1, slift at 1. rewrite Hi. unfold sbind at 1, slift at 1. rewrite Hx.
  unfold sbind at 1, get_srtcp_ssrc_state at 1. cbv zeta.
  destruct (detector_check (rst_detector (srtcp_state c x)) i) as [fresh d].
  unfold sbind at 1, smodify at 1, sbind at 1, sguard at 1. rewrite put_srtcp_put.
  fold (with_rtcp_detector (srtcp_state c x) d).
  destruct fresh; cbn [negb]; [|done]. unfold sbind at 1, slift at 1.
  destruct (decrypt_rtcp (cipher c) e i x) as [dst| |]; [|done..].
  unfold sbind at 1, get_srtcp_ssrc_state at 1. cbv zeta. rewrite srtcp_state_put, put_srtcp_put.
  unfold sbind at 1, slift at 1. cbn [with_rtcp_detector rst_detector].
  destruct (detector_accept d) as [d'| |]; [|done..].
  unfold sbind at 1, smodify at 1, sret. by rewrite put_srtcp_put.
Qed.

(** The SSRC of an RTCP packet is in its first eight bytes. *)
Lemma ssrc_at_4_total p : 8 <= len p → ∃ x, ssrc_at_4 p = Ok x ∧ ∀ b, ssrc_at_4 (take 8 p ++ b) = Ok x.
Proof.
  intros Hl. destruct p as [|p0 [|p1 [|p2 [|p3 [|p4 [|p5 [|p6 [|p7 p]]]]]]]];
    try (exfalso; unfold len in Hl; simpl in Hl; lia).
  eexists. split; [reflexivity|]. intros b. reflexivity.
Qed.

End ContextLemmas.

(** ** What the context relies on in a replay detector *)

Class DetectorLaws (D : Type) `{ReplayDetector D} (inv : D → Prop) := {
  detector_check_inv d s : inv d → 0 <= s → inv (snd (rd_check d s));
  detector_accept_inv d s :
    inv d → 0 <= s → fst (rd_check d s) = true → ∃ d', rd_accept (snd (rd_check d s)) = Ok d' ∧ inv d';
}.

(** A detector of [option.rs] in a state that a run of it can reach. *)
Definition any_inv (d : AnyDetector) : Prop :=
  match d with
  | NoOp => True
  | Windowed w =>
      ∃ window max st, Fbi.good_size window = true ∧ window < 2 ^ 62 ∧ 4 <= max < 2 ^ 62 ∧
        Wrapped.repr window max w st
  end.

Lemma wrapped_new_inv window max :
  Fbi.good_size window = true → window < 2 ^ 62 → 4 <= max < 2 ^ 62 → any_inv (Windowed (Wrapped.new window max)).
Proof.
  intros. exists window, max, (Wrapped.mkSpec None []). split_and!; try done; try lia.
  by apply Wrapped.wrapped_repr_new.
Qed.

#[export, refine] Instance any_detector_laws : DetectorLaws AnyDetector any_inv := {}.
Proof.
  - intros [|w] s; [done|]. intros (window & max & st & Hg & Hw & Hm & Hr) Hs.
    pose proof (Wrapped.wrapped_receive_refines _ _ Hg Hw Hm w st s false Hr Hs) as Hd. unfold receive in Hd.
    destruct (Wrapped.spec_receive _ _ _ _ _) as [e st']. destruct Hd as (d' & E & Hr').
    cbn [rd_check any_detector] in *. destruct (rd_check w s) as [fresh w']. rewrite andb_false_r in E.
    injection E as _ ->. exists window, max, st'. split_and!; done || lia.
  - intros [|w] s; [eauto|]. intros (window & max & st & Hg & Hw & Hm & Hr) Hs.
    pose proof (Wrapped.wrapped_receive_refines _ _ Hg Hw Hm w st s true Hr Hs) as Hd. unfold receive in Hd.
    destruct (Wrapped.spec_receive _ _ _ _ _) as [e st']. destruct Hd as (d' & E & Hr').
    cbn [rd_check rd_accept any_detector] in *. destruct (rd_check w s) as [fresh w']. cbn [fst snd] in *.
    intros ->. cbn [andb] in E. destruct (rd_accept w') as [w''| |]; cbn [rbind] in E; [|done..].
    injection E as _ ->. cbn [rbind]. eexists. split; [done|]. exists window, max, st'. split_and!; done || lia.
Defined.

(** ** Runs of a receiver *)

Section Runs.
Context {BC : BytesCrate} {C D : Type} {cok : C → Prop} {dinv : D → Prop}.
Context `{CL : CipherLaws C cok} `{DL : DetectorLaws D dinv}.
Implicit Type c : Context C D.

(** The packets of a receiver, in order; what it returns is the SSRC and sequence
    number of every packet that was decrypted. *)
Fixpoint decrypt_rtp_all (es : list bytes) (c : Context C D) : res (list (Z * Z) * Context C D) :=
  match es with
  | [] => Ok ([], c)
  | e :: es =>
      match ctx_decrypt_rtp e c with
      | (Panic, _) => Panic
      | (Err _, c) => decrypt_rtp_all es c
      | (Ok _, c) =>
          let! (h, _) := header_unmarshal e in
          let! (acc, c) := decrypt_rtp_all es c in
          Ok ((ssrc h, sequence_number h) :: acc, c)
      end
  end.

Definition seqs_of (x : Z) (acc : list (Z * Z)) : list Z := snd <$> filter (λ p, p.1 = x) acc.

(** Every SSRC has a detector that works. *)
Definition detectors_ok c : Prop := ∀ x, ∃ d, st_detector (srtp_state c x) = Some d ∧ dinv d.

Definition rtcp_detectors_ok c : Prop := ∀ x, ∃ d, rst_detector (srtcp_state c x) = Some d ∧ dinv d.

Lemma update_detector (st : SrtpSsrcState D) s diff :
  st_detector (update_rollover_count st s diff) = st_detector st.
Proof. unfold update_rollover_count. by destruct (negb _). Qed.

(** What a packet is to the receiver: its SSRC, its sequence number, and whether it is authentic, that is
    whether it decrypts in the rollover period the receiver takes it to be from. *)
Definition offer (e : bytes) c : option (Z * (Z * bool)) :=
  match header_unmarshal e with
  | Ok (h, _) =>
      if len e <? header_marshal_size h + rtp_auth_tag_len (cipher c) then None
      else
        let '(roc, _, _) := next_rollover_count (srtp_state c (ssrc h)) (sequence_number h) in
        Some (ssrc h, (sequence_number h, match decrypt_rtp (cipher c) e h roc with Ok _ => true | _ => false end))
  | _ => None
  end.

(** The packets of an SSRC in a run, as they arrive *)
Fixpoint offered (x : Z) (es : list bytes) c : list (Z * bool) :=
  match es with
  | [] => []
  | e :: es =>
      let rest := offered x es (snd (ctx_decrypt_rtp e c)) in
      match offer e c with
      | Some (y, p) => if decide (y = x) then p :: rest else rest
      | None => rest
      end
  end.

(** What one packet does to the detector of an SSRC: nothing, or one round of
    [check] and [accept] that accepts it exactly when it is decrypted. *)
Definition detector_effect (e : bytes) c (r : res bytes) c' (x : Z) : Prop :=
  match offer e c with
  | Some (y, (s, auth)) =>
      if decide (y = x) then
        ∃ h t d d' ok, header_unmarshal e = Ok (h, t) ∧ ssrc h = x ∧ sequence_number h = s ∧ 0 <= s ∧
          st_detector (srtp_state c x) = Some d ∧ st_detector (srtp_state c' x) = Some d' ∧
          receive d s auth = Ok (ok, d') ∧ (ok = true ↔ ∃ p, r = Ok p)
      else st_detector (srtp_state c' x) = st_detector (srtp_state c x) ∧ ∀ h t, header_unmarshal e = Ok (h, t) → ssrc h ≠ x
  | None => st_detector (srtp_state c' x) = st_detector (srtp_state c x) ∧ ∀ p, r ≠ Ok p
  end.

Record step_ok (e : bytes) c (rc : res bytes * Context C D) : Prop := {
  step_no_panic : no_panic (fst rc);
  step_cipher : cipher (snd rc) = cipher c;
  step_detectors : detectors_ok (snd rc);
  step_effect : ∀ x, detector_effect e c (fst rc) (snd rc) x;
}.

Lemma step_ok_same e c er : detectors_ok c → offer e c = None → step_ok e c (Err er, c).
Proof. intros Hd Eo. split; cbn; auto with rtc. intros x. unfold detector_effect. rewrite Eo. done. Qed.

(** A round that stores the detector [d']. *)
Lemma step_ok_round e c r h t st' d d' auth ok :
  detectors_ok c → header_unmarshal e = Ok (h, t) → 0 <= sequence_number h → offer e c = Some (ssrc h, (sequence_number h, auth)) →
  st_detector (srtp_state c (ssrc h)) = Some d → no_panic r → st_detector st' = Some d' → dinv d' →
  receive d (sequence_number h) auth = Ok (ok, d') → (ok = true ↔ ∃ p, r = Ok p) →
  step_ok e c (r, put_srtp (ssrc h) st' c).
Proof.
  intros Hd Eh Hs Eo Ed Hr Est' Hinv Hrec Hok. split; [done|done| |]; cbn [fst snd].
  - intros x. destruct (decide (ssrc h = x)) as [<-|Hne]; [rewrite srtp_state_put; eauto|].
    rewrite srtp_state_put_ne by done. apply Hd.
  - intros x. unfold detector_effect. rewrite Eo. destruct (decide (ssrc h = x)) as [<-|Hne].
    + rewrite srtp_state_put. exists h, t, d, d', ok. done.
    + rewrite srtp_state_put_ne by done. split; [done|]. intros h' t' Eh'. congruence.
Qed.

Lemma decrypt_rtp_step e c :
  cok (cipher c) → detectors_ok c → Forall byte_ok e → step_ok e c (ctx_decrypt_rtp e c).
Proof.
  intros Hc Hd Hb. unfold ctx_decrypt_rtp, sbind, slift.
  pose proof (header_unmarshal_no_panic e Hb) as Hnp. assert (offer e c = offer e c) as Eo by done. unfold offer at 2 in Eo.
  destruct (header_unmarshal e) as [[h t]|er|] eqn:Eh; [|by apply step_ok_same|done].
  destruct (header_unmarshal_fields e h t Hb Eh) as [[Hs0 _] Hsz]. rewrite decrypt_rtp_cases. cbv zeta.
  destruct (next_rollover_count (srtp_state c (ssrc h)) (sequence_number h)) as [[roc diff] ovf].
  destruct (Hd (ssrc h)) as (d & Ed & Hdi).
  rewrite Ed. cbn [detector_check]. destruct (rd_check d (sequence_number h)) as [fresh d1] eqn:Ec.
  pose proof (detector_check_inv d (sequence_number h) Hdi Hs0) as Hi1.
  pose proof (detector_accept_inv d (sequence_number h) Hdi Hs0) as Hi2. rewrite Ec in Hi1, Hi2. cbn [fst snd] in *.
  destruct (Z.ltb_spec (len e) (header_marshal_size h + rtp_auth_tag_len (cipher c))); [by apply step_ok_same|].
  destruct fresh; cbn [negb].
  2:{ eapply step_ok_round; eauto with rtc; [unfold receive; by rewrite Ec|]. split; [done|]. by intros [? ?]. }
  assert (no_panic (decrypt_rtp (cipher c) e h roc)) as Hsafe by (eapply decrypt_rtp_safe; eauto).
  destruct (decrypt_rtp (cipher c) e h roc) as [dst|er|]; [| |done].
  - cbn [detector_accept]. destruct (Hi2 eq_refl) as (d' & Ea & Hd'). rewrite Ea. cbn [rbind].
    eapply (step_ok_round _ _ _ _ _ _ d d' true true); eauto with rtc.
    + by rewrite update_detector.
    + unfold receive. by rewrite Ec, Ea.
    + split; [eauto|done].
  - eapply step_ok_round; eauto with rtc; [unfold receive; by rewrite Ec, andb_false_r|]. split; [done|]. by intros [? ?].
Qed.

Lemma decrypt_rtp_all_detectors es c :
  cok (cipher c) → detectors_ok c → Forall (Forall byte_ok) es →
  ∃ acc c', decrypt_rtp_all es c = Ok (acc, c') ∧
    ∀ x d, st_detector (srtp_state c x) = Some d →
      ∃ d', receive_all d (offered x es c) = Ok (seqs_of x acc, d') ∧ Forall (λ p, 0 <= p.1) (offered x es c).
Proof.
  revert c. induction es as [|e es IH]; intros c Hc Hd Hb; cbn [decrypt_rtp_all offered].
  { eexists _, _. split; [done|]. intros x d _. by exists d. }
  apply Forall_cons in Hb as [He Hb].
  destruct (decrypt_rtp_step e c Hc Hd He) as [Hr Ec1 Hd1 Hx].
  destruct (ctx_decrypt_rtp e c) as [r c1] eqn:E1. cbn [fst snd] in *.
  destruct (IH c1) as (acc & c' & E & Hacc); [by rewrite Ec1|done|done|].
  assert (∀ x d, st_detector (srtp_state c x) = Some d →
    ∃ d', receive_all d (match offer e c with Some (y, p) => if decide (y = x) then p :: offered x es c1 else offered x es c1 | None => offered x es c1 end) =
        Ok (match r, header_unmarshal e with Ok _, Ok (h, _) => if decide (ssrc h = x) then [sequence_number h] else [] | _, _ => [] end ++ seqs_of x acc, d') ∧
      Forall (λ p, 0 <= p.1) (match offer e c with Some (y, p) => if decide (y = x) then p :: offered x es c1 else offered x es c1 | None => offered x es c1 end)) as Hall.
  { intros x d Ed. specialize (Hx x). unfold detector_effect in Hx. destruct (offer e c) as [[y [s auth]]|].
    - destruct (decide (y = x)).
      + destruct Hx as (h & t & d0 & d1 & ok & Eh & Hs & <- & Hs0 & Ed0 & Ed1 & Erec & Hok). rewrite Ed in Ed0. injection Ed0 as <-.
        destruct (Hacc _ _ Ed1) as (d' & Eall & Hps). exists d'. cbn [receive_all]. rewrite Erec. cbn [rbind]. rewrite Eall. cbn [rbind].
        split; [|by constructor]. rewrite Eh, decide_True by done. destruct r as [p|er|]; [|destruct ok; [|done]; by destruct (proj1 Hok eq_refl)|done].
        by rewrite (proj2 Hok) by eauto.
      + destruct Hx as [Edet Hne]. rewrite Ed in Edet. destruct (Hacc _ _ Edet) as (d' & Eall & Hps). exists d'. split; [|done]. rewrite Eall.
        destruct r; [|done..]. destruct (header_unmarshal e) as [[h t]| |]; [|done..]. by rewrite decide_False by eauto.
    - destruct Hx as [Edet Hne]. rewrite Ed in Edet. destruct (Hacc _ _ Edet) as (d' & Eall & Hps). exists d'. split; [|done]. rewrite Eall.
      destruct r as [p| |]; [by destruct (Hne p)|done..]. }
  destruct r as [p|er|]; [| |done].
  - assert (∃ h t, header_unmarshal e = Ok (h, t)) as (h & t & Eh).
    { unfold ctx_decrypt_rtp, sbind, slift in E1. destruct (header_unmarshal e) as [[h t]| |]; [eauto|done..]. }
    rewrite Eh in *. cbn [rbind]. rewrite E. cbn [rbind]. eexists _, _. split; [done|]. intros x d Ed. destruct (Hall x d Ed) as (d' & E' & Hps).
    exists d'. split; [|done]. rewrite E'. unfold seqs_of. rewrite filter_cons. cbn [fst]. by destruct (decide (ssrc h = x)).
  - rewrite E. by eexists _, _.
Qed.

End Runs.

(** A window behind the trait object behaves as the window. *)
Lemma receive_windowed w s auth :
  receive (Windowed w) s auth = let! (b, w) := receive w s auth in Ok (b, Windowed w).
Proof.
  unfold receive. cbn [rd_check rd_accept any_detector]. destruct (rd_check w s) as [b w'].
  destruct (b && auth); [|done]. by destruct (rd_accept w').
Qed.

Lemma receive_all_windowed w ps acc d :
  receive_all (Windowed w) ps = Ok (acc, d) → ∃ w', receive_all w ps = Ok (acc, w') ∧ d = Windowed w'.
Proof.
  revert w acc d. induction ps as [|[s auth] ps IH]; intros w acc d; cbn [receive_all].
  { intros [= <- <-]. eauto. }
  rewrite receive_windowed. destruct (receive w s auth) as [[b w1]| |]; cbn [rbind]; [|done..].
  destruct (receive_all (Windowed w1) ps) as [[acc1 d1]| |] eqn:E; cbn [rbind]; [|done..].
  destruct (IH _ _ _ E) as (w' & -> & ->). intros [= <- <-]. cbn [rbind]. eauto.
Qed.

Definition any_ok (c : AnyCipher) : Prop := match c with Gcm c => gcm_ok c | Cm c => cm_ok c end.

#[export, refine] Instance any_cipher_laws `{BytesCrate, CryptoCrates} : CipherLaws AnyCipher any_ok := {}.
Proof.
  - intros [c|c] Hc; [by apply gcm_laws|by apply cm_laws].
  - intros [c|c] e h roc Hc; [by apply gcm_laws|by apply cm_laws].
  - intros [c|c] p h roc Hc; [by apply gcm_laws|by apply cm_laws].
  - intros [c|c] e Hc; [by apply gcm_laws|by apply cm_laws].
  - intros [c|c] p i x Hc; [by apply gcm_laws|by apply cm_laws].
Defined.

(** * Properties *)

(** A sender or receiver whose last index is less than half the sequence space
    away recovers the full 48-bit index of a packet from its 16-bit sequence number,
    reports the end of the index space exactly, and moves to that index. *)
Theorem packet_index_recovered {D} (st : SrtpSsrcState D) (i : Z) :
  tracks st i → i < 2 ^ 49 →
  ∃ diff, next_rollover_count st (u16 i) = (u32 (i / 2 ^ 16), diff, 2 ^ 48 <=? i) ∧
    update_rollover_count st (u16 i) diff = mkSrtpState (st_ssrc st) i true (st_detector st).
Proof. apply roc_guess. Qed.

Section SrtpProperties.
Context {BC : BytesCrate} {C D : Type} {cok : C → Prop} {dinv : D → Prop}.
Context `{CL : CipherLaws C cok} `{DL : DetectorLaws D dinv}.

(** What the sender puts on the wire starts with the header in clear. *)
Lemma srtp_transfer (cs cr : Context C D) (p : Packet) (plain : bytes) (i : Z) (d : D) :
  cok (cipher cs) → cipher cr = cipher cs →
  wf_header (header p) → marshal p = Ok plain → packet_ok plain →
  fits 48 i → sequence_number (header p) = u16 i →
  tracks (srtp_state cs (ssrc (header p))) i → tracks (srtp_state cr (ssrc (header p))) i →
  st_detector (srtp_state cr (ssrc (header p))) = Some d → dinv d → fst (rd_check d (u16 i)) = true →
  ∃ body cs' cr', let e := header_bytes (header p) ++ body in ctx_encrypt_rtp plain cs = (Ok e, cs') ∧ ctx_decrypt_rtp e cr = (Ok plain, cr') ∧
    packet_unmarshal plain = Ok (p, []) ∧
    st_index (srtp_state cs' (ssrc (header p))) = i ∧ st_index (srtp_state cr' (ssrc (header p))) = i.
Proof.
  intros Hc Ecr Hwf Hm Hok Hi Hseq Hts Htr Ed Hd Hfresh.
  rewrite packet_marshal_bytes in Hm by done. injection Hm as <-.
  set (h := header p) in *. set (plain := packet_bytes p) in *.
  set (rest := pkt_payload p ++ pad_bytes (padding_len p)).
  assert (plain = header_bytes h ++ rest) as Eplain by done.
  pose proof (len_header_bytes h Hwf) as Hlh. pose proof (len_nonneg (header_bytes h)). pose proof (len_nonneg rest).
  assert (take (Z.to_nat (header_marshal_size h)) plain = header_bytes h) as Etake
    by (rewrite Eplain, take_app_length' by (unfold len in Hlh; lia); done).
  destruct (roc_guess _ i Hts ltac:(unfold fits in Hi; lia)) as (ds & Es & Us).
  destruct (roc_guess _ i Htr ltac:(unfold fits in Hi; lia)) as (dr & Er & Ur).
  assert ((2 ^ 48 <=? i) = false) as Hov by (apply Z.leb_gt; apply Hi). rewrite Hov in Es, Er.
  destruct (encrypt_decrypt_rtp (cipher cs) plain h (u32 (i / 2 ^ 16)) Hc Hok) as (body & Eenc & Hbody & Hlb & Edec).
  { rewrite <- Hlh, Eplain, len_app. lia. }
  rewrite Etake in *. destruct (tags_nonneg (cipher cs) Hc) as (T1 & T2 & T3).
  assert (0 <= u16 i) as Hu by (apply wrap_fits; lia).
  destruct (detector_accept_inv d (u16 i) Hd Hu Hfresh) as (d' & Ea & _).
  exists body. eexists _, _. cbv zeta. split_and!.
  - unfold ctx_encrypt_rtp, sbind, slift. rewrite Eplain, header_unmarshal_bytes by done. rewrite <- Eplain.
    rewrite encrypt_rtp_cases. cbv zeta. rewrite Hseq, Es, Eenc, Us. done.
  - unfold ctx_decrypt_rtp, sbind, slift. rewrite header_unmarshal_bytes by done.
    rewrite decrypt_rtp_cases. cbv zeta. rewrite Hseq, Er, Ed. cbn [detector_check].
    rewrite (surjective_pairing (rd_check d (u16 i))), Hfresh. rewrite Ecr.
    rewrite (proj2 (Z.ltb_ge _ _)) by (rewrite len_app, Eplain, len_app in *; lia). cbn [negb].
    rewrite Edec. cbn [detector_accept]. rewrite Ea. cbn [rbind]. done.
  - by apply packet_unmarshal_bytes.
  - by rewrite srtp_state_put.
  - rewrite srtp_state_put. revert Ur. unfold update_rollover_count, with_detector. cbn.
    destruct (rollover_has_processed _); cbn; by intros [= ->].
Qed.

(** C1: an RTP packet that is marshalled, encrypted by a sender and decrypted by a
    receiver with the same cipher comes back byte for byte and parses to the packet
    that was sent, for every cipher and replay detector that keep their contracts;
    both ends then agree on the packet's 48-bit index. *)
Theorem srtp_roundtrip (cs cr : Context C D) (p : Packet) (plain : bytes) (i : Z) (d : D) :
  cok (cipher cs) → cipher cr = cipher cs →
  wf_header (header p) → marshal p = Ok plain → packet_ok plain →
  fits 48 i → sequence_number (header p) = u16 i →
  tracks (srtp_state cs (ssrc (header p))) i → tracks (srtp_state cr (ssrc (header p))) i →
  st_detector (srtp_state cr (ssrc (header p))) = Some d → dinv d → fst (rd_check d (u16 i)) = true →
  ∃ e cs' cr', ctx_encrypt_rtp plain cs = (Ok e, cs') ∧ ctx_decrypt_rtp e cr = (Ok plain, cr') ∧
    packet_unmarshal plain = Ok (p, []) ∧
    st_index (srtp_state cs' (ssrc (header p))) = i ∧ st_index (srtp_state cr' (ssrc (header p))) = i.
Proof.
  intros. destruct (srtp_transfer cs cr p plain i d) as (body & cs' & cr' & H'); try done. by eexists _, _, _.
Qed.

(** Decrypting never panics, whatever bytes arrive from the network, for RTP and
    for RTCP: every index into the packet is covered by a length check. *)
Theorem srtp_decrypt_no_panic (c : Context C D) (e : bytes) :
  cok (cipher c) → detectors_ok (dinv := dinv) c → rtcp_detectors_ok (dinv := dinv) c → Forall byte_ok e →
  no_panic (fst (ctx_decrypt_rtp e c)) ∧ no_panic (fst (ctx_decrypt_rtcp e c)).
Proof.
  intros Hc Hd Hd' Hb. split; [by apply decrypt_rtp_step|].
  destruct (Z.lt_ge_cases (len e) (8 + SRTCP_INDEX_SIZE + rtcp_auth_tag_len (cipher c) + aead_auth_tag_len (cipher c)))
    as [Hlt|Hge].
  { unfold ctx_decrypt_rtcp, sbind at 1, sgets, sbind at 1, sguard. by rewrite (proj2 (Z.ltb_lt _ _)). }
  pose proof (rtcp_header_unmarshal_no_panic e Hb) as Hh.
  destruct (rtcp_header_unmarshal e) as [[h r]|er|] eqn:Eh; [| |done].
  2:{ unfold ctx_decrypt_rtcp, sbind, sgets, sguard, slift.
      rewrite (proj2 (Z.ltb_ge _ _)) by done. by rewrite Eh. }
  destruct (tags_nonneg (cipher c) Hc) as (T1 & T2 & T3).
  destruct (ssrc_at_4_total e) as (x & Ex & _); [unfold SRTCP_INDEX_SIZE in Hge; lia|].
  destruct (rtcp_safe (cipher c) e Hc Hb Hge) as (i & Ei & [Hi _] & Hs).
  rewrite (decrypt_rtcp_cases e c h r x i) by done. cbv zeta. destruct (Hd' x) as (d & Ed & Hdi). rewrite Ed.
  cbn [detector_check]. pose proof (detector_accept_inv d i Hdi Hi) as Ha.
  destruct (rd_check d i) as [fresh d1]. cbn [fst snd] in Ha. destruct fresh; cbn [negb]; [|done].
  specialize (Hs x). destruct (decrypt_rtcp (cipher c) e i x) as [dst| |]; [|done..].
  cbn [detector_accept]. destruct (Ha eq_refl) as (d' & -> & _). done.
Qed.

(** The first eight octets stay in clear. *)
Lemma srtcp_transfer (cs cr : Context C D) (plain : bytes) (h : RtcpHeader) (r : bytes) (x : Z) (d : D) :
  cok (cipher cs) → cipher cr = cipher cs → packet_ok plain → 8 <= len plain →
  rtcp_header_unmarshal plain = Ok (h, r) → ssrc_at_4 plain = Ok x →
  0 <= srtcp_index (srtcp_state cs x) <= MAX_SRTCP_INDEX →
  rst_detector (srtcp_state cr x) = Some d → dinv d →
  fst (rd_check d ((srtcp_index (srtcp_state cs x) + 1) mod 2 ^ 31)) = true →
  ∃ body cs' cr', let e := take 8 plain ++ body in ctx_encrypt_rtcp plain cs = (Ok e, cs') ∧ ctx_decrypt_rtcp e cr = (Ok plain, cr') ∧
    srtcp_index (srtcp_state cs' x) = (srtcp_index (srtcp_state cs x) + 1) mod 2 ^ 31.
Proof.
  intros Hc Ecr Hok Hl Hh Hx Hidx Ed Hd Hfresh. pose proof (next_srtcp_index_range _ Hidx) as [Ei Hi].
  destruct (encrypt_decrypt_rtcp (cipher cs) plain (next_srtcp_index (srtcp_state cs x)) x Hc Hok Hl Hi)
    as (body & Eenc & Hbody & Hlb & Eget & Edec). fold SRTCP_INDEX_LIMIT in *. rewrite <- Ei in *.
  set (i := next_srtcp_index _) in *. destruct Hok as [Hb _].
  assert (len (take 8 plain) = 8) as H8 by (rewrite len_take; lia).
  destruct (rtcp_header_prefix (take 8 plain) (drop 8 plain) body h r) as [r' Hh'];
    [lia|by apply Forall_take|by rewrite take_drop|].
  destruct (ssrc_at_4_total plain Hl) as (x' & Ex' & Hxb). rewrite Hx in Ex'. injection Ex' as <-.
  destruct (detector_accept_inv d i Hd (proj1 Hi) Hfresh) as (d' & Ea & _).
  exists body. eexists _, _. cbv zeta. split_and!.
  - rewrite (encrypt_rtcp_cases plain cs h r x) by done. cbv zeta. fold i. by rewrite Eenc.
  - rewrite (decrypt_rtcp_cases _ cr h r' x i); [|rewrite Ecr, len_app; lia|done|done|by rewrite Ecr].
    cbv zeta. rewrite Ed. cbn [detector_check]. rewrite (surjective_pairing (rd_check d i)), Hfresh. cbn [negb].
    rewrite Ecr, Edec. cbn [detector_accept]. by rewrite Ea.
  - by rewrite srtcp_state_put.
Qed.

(** An RTCP packet encrypted by a sender is decrypted by a receiver with the same
    cipher to the same bytes; the sender's 31-bit index moves by one, modulo 2^31, and
    is the index the receiver reads. *)
Theorem srtcp_roundtrip (cs cr : Context C D) (plain : bytes) (h : RtcpHeader) (r : bytes) (x : Z) (d : D) :
  cok (cipher cs) → cipher cr = cipher cs → packet_ok plain → 8 <= len plain →
  rtcp_header_unmarshal plain = Ok (h, r) → ssrc_at_4 plain = Ok x →
  0 <= srtcp_index (srtcp_state cs x) <= MAX_SRTCP_INDEX →
  rst_detector (srtcp_state cr x) = Some d → dinv d →
  fst (rd_check d ((srtcp_index (srtcp_state cs x) + 1) mod 2 ^ 31)) = true →
  ∃ e cs' cr', ctx_encrypt_rtcp plain cs = (Ok e, cs') ∧ ctx_decrypt_rtcp e cr = (Ok plain, cr') ∧
    srtcp_index (srtcp_state cs' x) = (srtcp_index (srtcp_state cs x) + 1) mod 2 ^ 31.
Proof.
  intros. destruct (srtcp_transfer cs cr plain h r x d) as (body & cs' & cr' & H'); try done. by eexists _, _, _.
Qed.

End SrtpProperties.

(** C3: a receiver with replay protection decrypts a packet at most once.  Run on any packets of any number of
    SSRCs, whatever an attacker replays, reorders or forges, it does not panic, and the packets it decrypts of an
    SSRC are exactly those that a detector with an unlimited memory accepts: the authentic ones whose extended
    index (the 16-bit number, read next to the highest index accepted so far) is above the window's end and was
    not accepted before.  The extended indices are pairwise different.  The size of the window is at most 32
    modulo 64. *)
Theorem srtp_no_replay `{BytesCrate} `{CL : CipherLaws C cok} (c : Context C AnyDetector) (window : Z)
    (es : list bytes) :
  cok (cipher c) → srtp_ssrc_states c = ∅ → new_srtp_replay_detector c = srtp_replay_protection window →
  Fbi.good_size window = true → window < 2 ^ 62 → Forall (Forall byte_ok) es →
  ∃ acc c', decrypt_rtp_all es c = Ok (acc, c') ∧
    ∀ x, let idx := Wrapped.spec_run window 65535 (Wrapped.mkSpec None []) (offered x es c) in
         NoDup idx ∧ seqs_of x acc = (λ e, e mod 2 ^ 16) <$> idx.
Proof.
  intros Hc Hempty Hdet Hg Hw Hb.
  assert (∀ x, st_detector (srtp_state c x) = Some (srtp_replay_protection window)) as Hst.
  { intros x. unfold srtp_state. by rewrite Hempty, lookup_empty, Hdet. }
  destruct (decrypt_rtp_all_detectors (dinv := any_inv) es c Hc) as (acc & c' & E & Hacc); [|done|].
  { intros x. eexists. split; [apply Hst|]. by apply wrapped_new_inv. }
  exists acc, c'. split; [done|]. intros x idx. destruct (Hacc x _ (Hst x)) as (d' & Er & Hps).
  apply receive_all_windowed in Er as (w' & Er & _). unfold MAX_SEQUENCE_NUMBER in Er.
  destruct (Wrapped.wrapped_receive_all_refines window 65535 Hg Hw ltac:(lia) (Wrapped.new window 65535)
    (Wrapped.mkSpec None []) (offered x es c)) as [d2 E2]; [by apply Wrapped.wrapped_repr_new|done|].
  rewrite Er in E2. injection E2 as E2 _. split; [|exact E2].
  apply (Wrapped.wrapped_spec_run_fresh window 65535 (Wrapped.mkSpec None []) (offered x es c)). constructor.
Qed.

Section ConstructorProperties.
Context {BC : BytesCrate} {CC : CryptoCrates}.

(** [Context::new] accepts exactly the key and salt lengths of the profile, for
    all six profiles, without a panic, and the cipher it builds meets the contract
    the context relies on. *)
Theorem context_new_spec (mk ms : bytes) (profile : ProtectionProfile) (o1 o2 : option AnyDetector) :
  if decide (len mk = key_len profile) then
    if decide (len ms = salt_len profile) then
      ∃ c, context_new mk ms profile o1 o2 = Ok c ∧ any_ok (cipher c) ∧
        srtp_ssrc_states c = ∅ ∧ srtcp_ssrc_states c = ∅ ∧
        new_srtp_replay_detector c = default NoOp o1 ∧ new_srtcp_replay_detector c = default NoOp o2
    else context_new mk ms profile o1 o2 = Err SrtpSaltLength
  else context_new mk ms profile o1 o2 = Err SrtpMasterKeyLength.
Proof.
  unfold context_new. case_decide as Hk; [|by rewrite (proj2 (Z.eqb_neq _ _))].
  rewrite (proj2 (Z.eqb_eq _ _)) by done. cbn [negb]. case_decide as Hs; [|by rewrite (proj2 (Z.eqb_neq _ _))].
  rewrite (proj2 (Z.eqb_eq _ _)) by done. cbn [negb].
  destruct (decide (profile_aead_auth_tag_len profile = 0)) as [H0|H16].
  - destruct (cm_new_ok profile mk ms H0 Hk Hs) as (c & Ec & Hc).
    destruct profile; try discriminate; rewrite Ec; cbn [rbind]; eexists; (split; [done|]); by split_and!.
  - destruct (gcm_new_ok profile mk ms) as (c & Ec & Hc); [by destruct profile|done|done|].
    destruct profile; try (by destruct H16); rewrite Ec; cbn [rbind]; eexists; (split; [done|]); by split_and!.
Qed.

(** With an AES-CM profile an RTCP packet whose encryption flag is clear is
    returned without looking at its authentication tag, and its index is committed to
    the replay window: anyone can forge such packets, and make the receiver refuse
    genuine ones. *)
Theorem forged_srtcp_accepted (c : Context AnyCipher AnyDetector) (k : CipherAesCmHmacSha1)
    (plain word tag : bytes) (h : RtcpHeader) (r : bytes) (x i : Z) (d d1 d2 : AnyDetector) :
  cipher c = Cm k → cm_ok k → 8 <= len plain → rtcp_header_unmarshal (plain ++ word ++ tag) = Ok (h, r) →
  ssrc_at_4 (plain ++ word ++ tag) = Ok x →
  word = put_uint 4 i → 0 <= i < 2 ^ 31 → len tag = 10 →
  rst_detector (srtcp_state c x) = Some d → rd_check d i = (true, d1) → rd_accept d1 = Ok d2 →
  ctx_decrypt_rtcp (plain ++ word ++ tag) c =
    (Ok plain, put_srtcp x (mkSrtcpState (srtcp_index (srtcp_state c x)) (rst_ssrc (srtcp_state c x)) (Some d2)) c).
Proof.
  intros Ec Hk Hl Hh Hx Hw Hi Ht Ed Echeck Eacc.
  assert (profile_rtcp_auth_tag_len (cm_profile (inner k)) = 10) as Ht10.
  { pose proof (cm_profile_ok k Hk). by destruct (cm_profile (inner k)). }
  assert (len word = 4) as Hlw by (rewrite Hw; apply len_put_uint).
  assert (len (plain ++ word ++ tag) = len plain + 14) as Hlen by (rewrite !len_app; lia).
  pose proof (index_high_byte i Hi) as Hhb. unfold SRTCP_INDEX_SIZE in *.
  assert (get_rtcp_index (cipher c) (plain ++ word ++ tag) = Ok i) as Hget.
  { rewrite Ec. cbn [get_rtcp_index any_cipher cm_cipher]. unfold inner_get_rtcp_index, SRTCP_INDEX_SIZE.
    rewrite Ht10, Hlen, slice_mid by lia. cbn [rbind]. rewrite <- (app_nil_r word), Hw. unfold get_u32.
    rewrite get_put_uint by (unfold fits; change (8 * Z.of_nat 4) with 32; lia). cbn [rbind].
    change (Z.lxor 0xFFFFFFFF (Z.shiftl 1 31)) with 0x7FFFFFFF.
    rewrite index_mask by (unfold fits; lia). by rewrite Z.mod_small. }
  rewrite (decrypt_rtcp_cases _ c h r x i); [| |done|done|done].
  2:{ rewrite Ec. cbn [rtcp_auth_tag_len aead_auth_tag_len any_cipher cm_cipher].
      rewrite Ht10, (cm_profile_ok k Hk), Hlen. unfold SRTCP_INDEX_SIZE. lia. }
  cbv zeta. rewrite Ed. cbn [detector_check]. rewrite Echeck. cbn [negb]. rewrite Ec.
  cbn [decrypt_rtcp any_cipher cm_cipher]. unfold cm_decrypt_rtcp, SRTCP_INDEX_SIZE. rewrite Ht10, Hlen.
  rewrite !(proj2 (Z.ltb_ge _ _)) by lia. rewrite slice_head_eq by lia. cbn [rbind].
  destruct (esrtcp_flag i Hi) as [Ei0 _]. rewrite Hw. rewrite put_uint_4 in *.
  rewrite (put_uint_1 (i / 256 / 256 / 256)) in * by (unfold fits; lia). cbn [app].
  rewrite index_app by lia. cbn [rbind].
  assert (∀ b, 0 <= b < 128 → (Z.shiftr b 7 =? 0) = true) as Hb7 by enum 128%nat. rewrite Hb7 by done.
  cbn [detector_accept]. rewrite Eacc. cbn [rbind]. done.
Qed.

(** Encrypting panics on a packet whose one-byte extension element announces more
    bytes than the extension block holds: the parser accepts it by reading into the
    payload, and the header it then sizes is longer than the packet. *)
Theorem encrypt_overrun_panics (c : Context AnyCipher AnyDetector) (k : CipherAeadAesGcm) (elem : bytes) :
  cipher c = Gcm k → gcm_ok k → len elem = 16 → Forall byte_ok elem → srtp_ssrc_states c = ∅ →
  fst (ctx_encrypt_rtp
    (put_uint 1 0x90 ++ put_uint 1 96 ++ put_uint 2 7 ++ put_uint 4 8 ++ put_uint 4 9 ++
     put_uint 2 EXTENSION_PROFILE_ONE_BYTE ++ put_uint 2 1 ++ put_uint 1 0x1F ++ elem) c) = Panic.
Proof.
  intros Ec Hk He Hb Hs. set (raw := put_uint 1 0x90 ++ _).
  assert (len raw = 33) as Hlen by (unfold raw; autorewrite with len; rewrite He; lia).
  assert (header_unmarshal raw = Ok (mkHeader 2 false true false 96 7 8 9 [] EXTENSION_PROFILE_ONE_BYTE
    [mkExt 1 elem] 0, [])) as Eh.
  { unfold header_unmarshal. rewrite Hlen. unfold raw, get_u8, get_u16, get_u32.
    cbn [Z.ltb Z.compare HEADER_LENGTH Pos.compare Pos.compare_cont].
    rewrite get_put_uint by (split; vm_compute; congruence). cbn [rbind].
    change (33 <? CSRC_OFFSET + Z.land 0x90 15 * CSRC_LENGTH) with false.
    change (Z.to_nat (Z.land 0x90 15)) with 0%nat.
    do 4 (rewrite get_put_uint by (split; vm_compute; congruence); cbn [rbind]). cbn [get_csrc rbind].
    change (0 <? Z.land (Z.shiftr 0x90 4) 1) with true. cbn iota. unfold get_extensions.
    change (33 <? CSRC_OFFSET + Z.land 0x90 15 * CSRC_LENGTH + 4) with false. unfold get_u16.
    do 2 (rewrite get_put_uint by (split; vm_compute; congruence); cbn [rbind]).
    change (33 <? CSRC_OFFSET + Z.land 0x90 15 * CSRC_LENGTH + 2 + 2 + 1 * 4) with false. cbn iota.
    rewrite Z.eqb_refl. change (Z.to_nat (1 * 4)) with 4%nat. cbn [one_byte_loop].
    change (CSRC_OFFSET + Z.land 0x90 15 * CSRC_LENGTH + 2 + 2) with 16. change (16 <? 16 + 1 * 4) with true.
    cbn iota. unfold get_u8. rewrite get_put_uint by (split; vm_compute; congruence). cbn [rbind].
    change (0x1F =? 0) with false. change (Z.shiftr 0x1F 4 =? EXTENSION_ID_RESERVED) with false. cbn iota.
    change (Z.land 0x1F (Z.lxor 0xFF 0xF0) + 1) with 16. rewrite He. cbn [Z.ltb Z.compare Pos.compare Pos.compare_cont].
    unfold copy_to_bytes. rewrite He. cbn [Z.ltb Z.compare Pos.compare Pos.compare_cont rbind].
    change (Z.to_nat 16) with 16%nat. rewrite take_ge, drop_ge by (unfold len in He; lia).
    change (16 + 1 + 16 <? 16 + 1 * 4) with false. cbn iota. cbn [rbind app].
    reflexivity. }
  unfold ctx_encrypt_rtp, sbind, slift. rewrite Eh, encrypt_rtp_cases. cbv zeta. cbn [ssrc sequence_number].
  unfold srtp_state at 1. rewrite Hs, lookup_empty. cbn [default].
  change (next_rollover_count _ 7) with (0, 0, false). cbn iota. rewrite Ec.
  cbn [encrypt_rtp any_cipher gcm_cipher]. unfold gcm_encrypt_rtp.
  set (h := mkHeader _ _ _ _ _ _ _ _ _ _ _ _).
  destruct (rtp_iv_ok k h 0 Hk) as [iv ->]. cbn [rbind].
  assert (header_marshal_size h = 36) as ->.
  { unfold header_marshal_size, marshal_size_for, get_extension_payload_len. cbn [h extension extensions extension_profile csrc extensions_padding sum_len foldr payload].
    rewrite He. done. }
  unfold slice at 1, assert_. rewrite Hlen. done.
Qed.

End ConstructorProperties.

(** From the same keying material, what one side derives as its local key and
    salt is what the other side derives as the remote ones, and the four parts have
    the lengths the profile asks for. *)
Theorem session_keys_mirror (profile : ProtectionProfile) (m : bytes) :
  len m = key_len profile * 2 + salt_len profile * 2 →
  ∃ a b, extract_session_keys_from_dtls profile (Ok m) true = Ok a ∧
         extract_session_keys_from_dtls profile (Ok m) false = Ok b ∧
    local_master_key a = remote_master_key b ∧ local_master_salt a = remote_master_salt b ∧
    remote_master_key a = local_master_key b ∧ remote_master_salt a = local_master_salt b ∧
    len (local_master_key a) = key_len profile ∧ len (local_master_salt a) = salt_len profile ∧
    m = local_master_key a ++ remote_master_key a ++ local_master_salt a ++ remote_master_salt a.
Proof.
  intros Hm. assert (0 <= key_len profile ∧ 0 <= salt_len profile) as [Hk Hs] by (destruct profile; simpl; lia).
  unfold extract_session_keys_from_dtls. set (kl := key_len profile) in *. set (sl := salt_len profile) in *.
  set (p1 := take (Z.to_nat kl) m). set (m1 := drop (Z.to_nat kl) m).
  set (p2 := take (Z.to_nat kl) m1). set (m2 := drop (Z.to_nat kl) m1).
  set (p3 := take (Z.to_nat sl) m2). set (m3 := drop (Z.to_nat sl) m2).
  assert (m = p1 ++ p2 ++ p3 ++ m3) as Em by (unfold p1, p2, p3, m3, m2, m1; by rewrite !take_drop).
  assert (len p1 = kl ∧ len p2 = kl ∧ len p3 = sl ∧ len m3 = sl) as (L1 & L2 & L3 & L4).
  { unfold p1, p2, p3, m3, m2, m1, len in *. rewrite !length_take, !length_drop. lia. }
  clearbody p1 p2 p3 m3. clear m1 m2. rewrite Em. cbn [rbind].
  rewrite (slice_head_eq p1) by lia. cbn [rbind]. rewrite (slice_mid p1 p2) by lia. cbn [rbind].
  rewrite (app_assoc p1 p2), (slice_mid (p1 ++ p2) p3 m3) by (rewrite len_app; lia). cbn [rbind].
  rewrite (app_assoc (p1 ++ p2) p3), (slice_tail ((p1 ++ p2) ++ p3) m3) by (rewrite !len_app; lia). cbn [rbind].
  eexists _, _. split_and!; try done. cbn. by rewrite <- !app_assoc.
Qed.

(** ** The theorems at concrete values *)

Import BigEndian ToyCrypto.

Definition sample_context : Context AnyCipher AnyDetector :=
  mkContext (Gcm sample_gcm) ∅ ∅ (srtp_replay_protection 64) (srtcp_replay_protection 64).

Lemma sample_gcm_ok : any_ok (Gcm sample_gcm).
Proof. split; vm_compute; intuition. Qed.

Lemma sample_detector_inv : any_inv (srtp_replay_protection 64) ∧ any_inv (srtcp_replay_protection 64).
Proof. split; apply wrapped_new_inv; (reflexivity || (unfold MAX_SEQUENCE_NUMBER, MAX_SRTCP_INDEX; lia)). Qed.

Lemma sample_state x :
  srtp_state sample_context x = mkSrtpState x 0 false (Some (srtp_replay_protection 64)) ∧
  srtcp_state sample_context x = mkSrtcpState 0 x (Some (srtcp_replay_protection 64)).
Proof.
  unfold srtp_state, srtcp_state, sample_context. cbn [srtp_ssrc_states srtcp_ssrc_states]. by rewrite !lookup_empty.
Qed.

Lemma sample_tracks x : tracks (srtp_state sample_context x) 7.
Proof. unfold tracks. rewrite (proj1 (sample_state x)). cbn. split; [lia|]. split; [concrete|done]. Qed.

Lemma packet_index_recovered_witness :
  ∃ diff, next_rollover_count (mkSrtpState 5 65530 true (Some NoOp)) 3 = (1, diff, false) ∧
    update_rollover_count (mkSrtpState 5 65530 true (Some NoOp)) 3 diff = mkSrtpState 5 65539 true (Some NoOp).
Proof.
  apply (packet_index_recovered (mkSrtpState 5 65530 true (Some NoOp)) 65539).
  - unfold tracks. cbn. split; [lia|]. split; [concrete|lia].
  - lia.
Defined.

Definition sample_rtp : Packet := mkPacket (mkHeader 2 false false true 96 7 8 9 [] 0 [] 0) [1; 2; 3].
Definition sample_rtp_bytes : bytes := [128; 224; 0; 7; 0; 0; 0; 8; 0; 0; 0; 9; 1; 2; 3].

Lemma srtp_roundtrip_witness :
  ∃ e cs' cr', ctx_encrypt_rtp sample_rtp_bytes sample_context = (Ok e, cs') ∧
    ctx_decrypt_rtp e sample_context = (Ok sample_rtp_bytes, cr') ∧
    packet_unmarshal sample_rtp_bytes = Ok (sample_rtp, []) ∧
    st_index (srtp_state cs' 9) = 7 ∧ st_index (srtp_state cr' 9) = 7.
Proof.
  apply (srtp_roundtrip (cok := any_ok) (dinv := any_inv) sample_context sample_context sample_rtp sample_rtp_bytes 7
    (srtp_replay_protection 64)).
  - apply sample_gcm_ok.
  - reflexivity.
  - split; simpl; concrete.
  - vm_compute. reflexivity.
  - split; [repeat constructor; concrete|vm_compute; reflexivity].
  - concrete.
  - reflexivity.
  - apply sample_tracks.
  - apply sample_tracks.
  - reflexivity.
  - apply sample_detector_inv.
  - vm_compute. reflexivity.
Defined.

Lemma srtp_decrypt_no_panic_witness :
  no_panic (fst (ctx_decrypt_rtp [0x90; 1; 2] sample_context)) ∧
  no_panic (fst (ctx_decrypt_rtcp [0x90; 1; 2] sample_context)).
Proof.
  apply (srtp_decrypt_no_panic (cok := any_ok) (dinv := any_inv) sample_context [0x90; 1; 2]).
  - apply sample_gcm_ok.
  - intros x. exists (srtp_replay_protection 64). split; [|apply sample_detector_inv].
    by rewrite (proj1 (sample_state x)).
  - intros x. exists (srtcp_replay_protection 64). split; [|apply sample_detector_inv].
    by rewrite (proj2 (sample_state x)).
  - repeat constructor; concrete.
Defined.

Definition sample_rtcp : bytes := [0x80; 201; 0; 1; 0; 0; 0; 9; 4; 5; 6].

Lemma srtcp_roundtrip_witness :
  ∃ e cs' cr', ctx_encrypt_rtcp sample_rtcp sample_context = (Ok e, cs') ∧
    ctx_decrypt_rtcp e sample_context = (Ok sample_rtcp, cr') ∧ srtcp_index (srtcp_state cs' 9) = 1.
Proof.
  apply (srtcp_roundtrip (cok := any_ok) (dinv := any_inv) sample_context sample_context sample_rtcp
    (mkRtcpHeader false 0 ReceiverReport 1) [0; 0; 0; 9; 4; 5; 6] 9 (srtcp_replay_protection 64)).
  - apply sample_gcm_ok.
  - reflexivity.
  - split; [repeat constructor; concrete|vm_compute; reflexivity].
  - vm_compute. congruence.
  - vm_compute. reflexivity.
  - vm_compute. reflexivity.
  - vm_compute. intuition congruence.
  - reflexivity.
  - apply sample_detector_inv.
  - vm_compute. reflexivity.
Defined.

(** The packet as it is on the wire, which an attacker sends twice *)
Definition sample_srtp : bytes := match ctx_encrypt_rtp sample_rtp_bytes sample_context with (Ok e, _) => e | _ => [] end.

Lemma srtp_no_replay_witness :
  offered 9 [sample_srtp; sample_srtp] sample_context = [(7, true); (7, true)] ∧
  ∃ acc c', decrypt_rtp_all [sample_srtp; sample_srtp] sample_context = Ok (acc, c') ∧
    ∀ x, let idx := Wrapped.spec_run 64 65535 (Wrapped.mkSpec None []) (offered x [sample_srtp; sample_srtp] sample_context) in
         NoDup idx ∧ seqs_of x acc = (λ e, e mod 2 ^ 16) <$> idx.
Proof.
  split; [vm_compute; reflexivity|].
  apply (srtp_no_replay (cok := any_ok) sample_context 64 [sample_srtp; sample_srtp]).
  - apply sample_gcm_ok.
  - reflexivity.
  - reflexivity.
  - reflexivity.
  - lia.
  - vm_compute; repeat constructor; concrete.
Defined.

Definition sample_cm : CipherAesCmHmacSha1 :=
  mkCm (mkInner Aes128CmHmacSha1_80 (replicate 14 1) (replicate 20 1) (replicate 14 1) (replicate 20 1))
    (replicate 16 1) (replicate 16 1).

Definition cm_context : Context AnyCipher AnyDetector :=
  mkContext (Cm sample_cm) ∅ ∅ (srtp_replay_protection 64) NoOp.

Lemma forged_srtcp_accepted_witness :
  ctx_decrypt_rtcp (sample_rtcp ++ put_uint 4 77 ++ replicate 10 0) cm_context =
    (Ok sample_rtcp, put_srtcp 9 (mkSrtcpState 0 9 (Some NoOp)) cm_context).
Proof.
  apply (forged_srtcp_accepted cm_context sample_cm sample_rtcp (put_uint 4 77) (replicate 10 0)
    (mkRtcpHeader false 0 ReceiverReport 1) (drop 4 (sample_rtcp ++ put_uint 4 77 ++ replicate 10 0)) 9 77 NoOp NoOp NoOp).
  - reflexivity.
  - split; vm_compute; intuition congruence.
  - vm_compute. congruence.
  - vm_compute. reflexivity.
  - vm_compute. reflexivity.
  - reflexivity.
  - lia.
  - reflexivity.
  - reflexivity.
  - reflexivity.
  - reflexivity.
Defined.

Lemma encrypt_overrun_panics_witness :
  fst (ctx_encrypt_rtp
    (put_uint 1 0x90 ++ put_uint 1 96 ++ put_uint 2 7 ++ put_uint 4 8 ++ put_uint 4 9 ++
     put_uint 2 EXTENSION_PROFILE_ONE_BYTE ++ put_uint 2 1 ++ put_uint 1 0x1F ++ replicate 16 3) sample_context) = Panic.
Proof.
  apply (encrypt_overrun_panics sample_context sample_gcm (replicate 16 3)).
  - reflexivity.
  - apply sample_gcm_ok.
  - reflexivity.
  - apply Forall_replicate. concrete.
  - reflexivity.
Defined.

Lemma session_keys_mirror_witness :
  ∃ a b, extract_session_keys_from_dtls AeadAes128Gcm (Ok (replicate 56 1)) true = Ok a ∧
         extract_session_keys_from_dtls AeadAes128Gcm (Ok (replicate 56 1)) false = Ok b ∧
    local_master_key a = remote_master_key b ∧ local_master_salt a = remote_master_salt b ∧
    remote_master_key a = local_master_key b ∧ remote_master_salt a = local_master_salt b ∧
    len (local_master_key a) = 16 ∧ len (local_master_salt a) = 12 ∧
    replicate 56 1 = local_master_key a ++ remote_master_key a ++ local_master_salt a ++ remote_master_salt a.
Proof. apply (session_keys_mirror AeadAes128Gcm (replicate 56 1)). reflexivity. Defined.
