(* ===== verification/SctpChunk.v ===== *)
(** SCTP chunks on the wire, [rtc-sctp/src/chunk]: the chunk header, DATA, SACK,
    FORWARD-TSN, SHUTDOWN, COOKIE-ECHO and the error causes of ERROR and ABORT, and the
    first look at a packet, [PartialDecode::unmarshal] of [packet.rs]. *)

From S2P Require Import Prelude.

(** * Chunk header *)

Abbreviation ChunkType := Z (only parsing).
Definition CT_PAYLOAD_DATA : ChunkType := 0.
Definition CT_INIT : ChunkType := 1.
Definition CT_INIT_ACK : ChunkType := 2.
Definition CT_SACK : ChunkType := 3.
Definition CT_ABORT : ChunkType := 6.
Definition CT_SHUTDOWN : ChunkType := 7.
Definition CT_SHUTDOWN_ACK : ChunkType := 8.
Definition CT_ERROR : ChunkType := 9.
Definition CT_COOKIE_ECHO : ChunkType := 10.
Definition CT_COOKIE_ACK : ChunkType := 11.
Definition CT_SHUTDOWN_COMPLETE : ChunkType := 14.
Definition CT_FORWARD_TSN : ChunkType := 192.

Record ChunkHeader := mkChunkHeader {
  ch_typ : ChunkType;
  ch_flags : Z;
  ch_value_length : Z
}.

Definition CHUNK_HEADER_SIZE : Z := 4.

(** The trait [Chunk]; [chunk_marshal_to] appends to a growing [BytesMut] and returns
    its new length. *)
Class Chunk (T : Type) := {
  chunk_header : T → ChunkHeader;
  chunk_unmarshal : bytes → res T;
  chunk_marshal_to : T → bytes → res (Z * bytes);
  value_length : T → Z
}.

(** The provided method [Chunk::marshal]. *)
Definition chunk_marshal `{Chunk T} (x : T) : res bytes :=
  let! (_, buf) := chunk_marshal_to x [] in Ok buf.

Section Header.
Context {BC : BytesCrate}.

(** [for i in (1..=length_after_value).rev()]: the padding bytes are zero. *)
Fixpoint check_padding (raw : bytes) (value_length : Z) (i : nat) : res unit :=
  match i with
  | O => Ok tt
  | S k =>
      let! b := index raw (CHUNK_HEADER_SIZE + (value_length + Z.of_nat i - 1)) in
      if negb (b =? 0) then Err ErrChunkHeaderPaddingNonZero
      else check_padding raw value_length k
  end.

Definition chunk_header_unmarshal (raw : bytes) : res ChunkHeader :=
  if len raw <? CHUNK_HEADER_SIZE then Err ErrChunkHeaderTooSmall
  else
    let! (typ, reader) := get_u8 raw in
    let! (flags, reader) := get_u8 reader in
    let! (length, reader) := get_u16 reader in
    if length <? CHUNK_HEADER_SIZE then Err ErrChunkHeaderInvalidLength
    else
      let value_length := length - CHUNK_HEADER_SIZE in
      let length_after_value := len raw - length in
      if length_after_value <? 0 then Err ErrChunkHeaderNotEnoughSpace
      else
        let! _ := (if length_after_value <? 4
                   then check_padding raw value_length (Z.to_nat length_after_value)
                   else Ok tt) in
        Ok (mkChunkHeader typ flags (length - CHUNK_HEADER_SIZE)).

Definition chunk_header_marshal_to (h : ChunkHeader) (writer : bytes) : res (Z * bytes) :=
  let writer := writer ++ put_uint 1 (ch_typ h) in
  let writer := writer ++ put_uint 1 (ch_flags h) in
  let writer := writer ++ put_uint 2 (u16 (ch_value_length h + CHUNK_HEADER_SIZE)) in
  Ok (len writer, writer).

Definition chunk_header_bytes (h : ChunkHeader) : bytes :=
  put_uint 1 (ch_typ h) ++ put_uint 1 (ch_flags h) ++ put_uint 2 (u16 (ch_value_length h + CHUNK_HEADER_SIZE)).

Definition header_ok (h : ChunkHeader) : Prop :=
  fits 8 (ch_typ h) ∧ fits 8 (ch_flags h) ∧ 0 <= ch_value_length h < 65532.

Lemma chunk_header_marshal_to_eq h w :
  chunk_header_marshal_to h w = Ok (len (w ++ chunk_header_bytes h), w ++ chunk_header_bytes h).
Proof. unfold chunk_header_marshal_to, chunk_header_bytes. by rewrite !app_assoc. Qed.

Lemma len_chunk_header_bytes h : len (chunk_header_bytes h) = CHUNK_HEADER_SIZE.
Proof. unfold chunk_header_bytes. by autorewrite with len. Qed.

Lemma chunk_header_read h body :
  header_ok h → len body = ch_value_length h → chunk_header_unmarshal (chunk_header_bytes h ++ body) = Ok h.
Proof.
  intros (Ht & Hf & Hv) Hb. unfold chunk_header_unmarshal.
  rewrite len_app, len_chunk_header_bytes. unfold CHUNK_HEADER_SIZE in *. pose proof (len_nonneg body).
  rewrite (proj2 (Z.ltb_ge _ 4)) by lia. unfold chunk_header_bytes, get_u8, get_u16, CHUNK_HEADER_SIZE.
  rewrite <- !app_assoc, get_put_uint by done. cbn [rbind]. rewrite get_put_uint by done. cbn [rbind].
  rewrite (wrap_small 16) by (split; lia). rewrite get_put_uint by (split; simpl; lia). cbn [rbind].
  rewrite (proj2 (Z.ltb_ge _ 4)), (proj2 (Z.ltb_ge _ 0)), (proj2 (Z.ltb_lt _ 4)) by lia.
  replace (4 + len body - (ch_value_length h + 4)) with 0 by lia. simpl.
  rewrite Z.add_simpl_r. by destruct h.
Qed.

Lemma check_padding_no_panic raw v i :
  0 <= v → 4 + v + Z.of_nat i <= len raw → no_panic (check_padding raw v i).
Proof.
  intros Hv. induction i as [|i IH]; intros Hi; [done|]. cbn [check_padding]. unfold CHUNK_HEADER_SIZE.
  destruct (index_ok raw (4 + (v + Z.of_nat (S i) - 1))) as (b & -> & _); [lia|]. cbn [rbind].
  destruct (negb _); [done|]. apply IH. lia.
Qed.

(** What a parsed header says about the bytes. *)
Lemma chunk_header_inv raw h :
  Forall byte_ok raw → chunk_header_unmarshal raw = Ok h →
  header_ok h ∧ CHUNK_HEADER_SIZE + ch_value_length h <= len raw.
Proof.
  intros Hb. unfold chunk_header_unmarshal, CHUNK_HEADER_SIZE, get_u8, get_u16.
  destruct (Z.ltb_spec (len raw) 4); [done|].
  destruct (get_uint_total 1 raw Hb) as (t & r1 & -> & Ft & _ & Hb1 & L1); [lia|]. cbn [rbind].
  destruct (get_uint_total 1 r1 Hb1) as (f & r2 & -> & Ff & _ & Hb2 & L2); [lia|]. cbn [rbind].
  destruct (get_uint_total 2 r2 Hb2) as (l & r3 & -> & Fl & _ & Hb3 & L3); [lia|]. cbn [rbind].
  destruct (Z.ltb_spec l 4); [done|]. destruct (Z.ltb_spec (len raw - l) 0); [done|].
  intros E. res_inv. unfold header_ok. cbn [ch_typ ch_flags ch_value_length].
  unfold fits in Fl. change (2 ^ (8 * Z.of_nat 2)) with 65536 in Fl. split_and!; (done || lia).
Qed.

Lemma chunk_header_no_panic raw : Forall byte_ok raw → no_panic (chunk_header_unmarshal raw).
Proof.
  intros Hb. unfold chunk_header_unmarshal, CHUNK_HEADER_SIZE, get_u8, get_u16.
  destruct (Z.ltb_spec (len raw) 4); [done|].
  destruct (get_uint_total 1 raw Hb) as (t & r1 & -> & Ft & _ & Hb1 & L1); [lia|]. cbn [rbind].
  destruct (get_uint_total 1 r1 Hb1) as (f & r2 & -> & Ff & _ & Hb2 & L2); [lia|]. cbn [rbind].
  destruct (get_uint_total 2 r2 Hb2) as (l & r3 & -> & Fl & _ & Hb3 & L3); [lia|]. cbn [rbind].
  destruct (Z.ltb_spec l 4); [done|]. destruct (Z.ltb_spec (len raw - l) 0); [done|].
  apply no_panic_bind; [|done]. destruct (_ <? 4); [|done]. apply check_padding_no_panic; lia.
Qed.

End Header.

(** * DATA *)

Definition PAYLOAD_DATA_ENDING_FRAGMENT_BITMASK : Z := 1.
Definition PAYLOAD_DATA_BEGINING_FRAGMENT_BITMASK : Z := 2.
Definition PAYLOAD_DATA_UNORDERED_BITMASK : Z := 4.
Definition PAYLOAD_DATA_IMMEDIATE_SACK : Z := 8.
Definition PAYLOAD_DATA_HEADER_SIZE : Z := 12.

Inductive PayloadProtocolIdentifier := Dcep | PString | Binary | StringEmpty | BinaryEmpty | Unknown.

#[export] Instance ppi_eq_dec : EqDecision PayloadProtocolIdentifier.
Proof. solve_decision. Defined.

(** [self.payload_type as u32]: [Unknown] has no explicit discriminant and follows 57. *)
Definition ppi_u32 (p : PayloadProtocolIdentifier) : Z :=
  match p with
  | Dcep => 50 | PString => 51 | Binary => 53 | StringEmpty => 56 | BinaryEmpty => 57 | Unknown => 58
  end.

Definition ppi_from (v : Z) : PayloadProtocolIdentifier :=
  if v =? 50 then Dcep else if v =? 51 then PString else if v =? 53 then Binary
  else if v =? 56 then StringEmpty else if v =? 57 then BinaryEmpty else Unknown.

(** [since] is an [Instant], here its number of ticks. *)
Record ChunkPayloadData := mkData {
  unordered : bool;
  beginning_fragment : bool;
  ending_fragment : bool;
  immediate_sack : bool;
  tsn : Z;
  stream_identifier : Z;
  stream_sequence_number : Z;
  payload_type : PayloadProtocolIdentifier;
  user_data : bytes;
  acked : bool;
  miss_indicator : Z;
  since : option Z;
  nsent : Z;
  abandoned_flag : bool;
  all_inflight : bool;
  retransmit : bool
}.

#[export] Instance data_eq_dec : EqDecision ChunkPayloadData.
Proof. solve_decision. Defined.

Definition data_default : ChunkPayloadData :=
  mkData false false false false 0 0 0 Unknown [] false 0 None 0 false false false.

Definition abandoned (c : ChunkPayloadData) : bool := abandoned_flag c && all_inflight c.

Definition set_abandoned (c : ChunkPayloadData) (a : bool) : ChunkPayloadData :=
  mkData (unordered c) (beginning_fragment c) (ending_fragment c) (immediate_sack c) (tsn c)
    (stream_identifier c) (stream_sequence_number c) (payload_type c) (user_data c) (acked c)
    (miss_indicator c) (since c) (nsent c) a (all_inflight c) (retransmit c).

Definition set_all_inflight (c : ChunkPayloadData) : ChunkPayloadData :=
  mkData (unordered c) (beginning_fragment c) (ending_fragment c) (immediate_sack c) (tsn c)
    (stream_identifier c) (stream_sequence_number c) (payload_type c) (user_data c) (acked c)
    (miss_indicator c) (since c) (nsent c) (abandoned_flag c)
    (if ending_fragment c then true else all_inflight c) (retransmit c).

(** * SACK and FORWARD-TSN *)

Record GapAckBlock := mkGap { gap_start : Z; gap_end : Z }.

Record ChunkSelectiveAck := mkSack {
  cumulative_tsn_ack : Z;
  advertised_receiver_window_credit : Z;
  gap_ack_blocks : list GapAckBlock;
  duplicate_tsn : list Z
}.

Definition SELECTIVE_ACK_HEADER_SIZE : Z := 12.

Record ChunkForwardTsnStream := mkFwdStream { fs_identifier : Z; fs_sequence : Z }.
Record ChunkForwardTsn := mkFwd { new_cumulative_tsn : Z; streams : list ChunkForwardTsnStream }.

Definition NEW_CUMULATIVE_TSN_LENGTH : Z := 4.
Definition FORWARD_TSN_STREAM_LENGTH : Z := 4.

(** * SHUTDOWN, COOKIE-ECHO, the empty chunks and the error causes *)

Record ChunkShutdown := mkShutdown { shutdown_tsn_ack : Z }.
Definition CUMULATIVE_TSN_ACK_LENGTH : Z := 4.
Record ChunkCookieEcho := mkCookieEcho { cookie : bytes }.
Inductive ChunkCookieAck := mkCookieAck.
Inductive ChunkShutdownAck := mkShutdownAck.
Inductive ChunkShutdownComplete := mkShutdownComplete.

Record ErrorCause := mkErrorCause { code : Z; cause_raw : bytes }.
Definition ERROR_CAUSE_HEADER_LENGTH : Z := 4.
Record ChunkError := mkError { error_causes : list ErrorCause }.
Record ChunkAbort := mkAbort { abort_causes : list ErrorCause }.

Section Codecs.
Context {BC : BytesCrate}.

Definition data_value_length (c : ChunkPayloadData) : Z := PAYLOAD_DATA_HEADER_SIZE + len (user_data c).

Definition data_header (c : ChunkPayloadData) : ChunkHeader :=
  let flags := 0 in
  let flags := if ending_fragment c then 1 else flags in
  let flags := if beginning_fragment c then Z.lor flags (Z.shiftl 1 1) else flags in
  let flags := if unordered c then Z.lor flags (Z.shiftl 1 2) else flags in
  let flags := if immediate_sack c then Z.lor flags (Z.shiftl 1 3) else flags in
  mkChunkHeader CT_PAYLOAD_DATA flags (u16 (data_value_length c)).

Definition data_unmarshal (raw : bytes) : res ChunkPayloadData :=
  let! header := chunk_header_unmarshal raw in
  if negb (ch_typ header =? CT_PAYLOAD_DATA) then Err ErrChunkTypeNotPayloadData
  else
    let immediate_sack := negb (Z.land (ch_flags header) PAYLOAD_DATA_IMMEDIATE_SACK =? 0) in
    let unordered := negb (Z.land (ch_flags header) PAYLOAD_DATA_UNORDERED_BITMASK =? 0) in
    let beginning_fragment := negb (Z.land (ch_flags header) PAYLOAD_DATA_BEGINING_FRAGMENT_BITMASK =? 0) in
    let ending_fragment := negb (Z.land (ch_flags header) PAYLOAD_DATA_ENDING_FRAGMENT_BITMASK =? 0) in
    if len raw <? CHUNK_HEADER_SIZE + PAYLOAD_DATA_HEADER_SIZE then Err ErrChunkPayloadSmall
    else if ch_value_length header <? PAYLOAD_DATA_HEADER_SIZE then Err ErrChunkUnmarshalPayloadData
    else
      let! reader := slice raw CHUNK_HEADER_SIZE (CHUNK_HEADER_SIZE + ch_value_length header) in
      let! (tsn, reader) := get_u32 reader in
      let! (stream_identifier, reader) := get_u16 reader in
      let! (stream_sequence_number, reader) := get_u16 reader in
      let! (ppi, _) := get_u32 reader in
      let! user_data := slice raw (CHUNK_HEADER_SIZE + PAYLOAD_DATA_HEADER_SIZE)
                                  (CHUNK_HEADER_SIZE + ch_value_length header) in
      Ok (mkData unordered beginning_fragment ending_fragment immediate_sack tsn stream_identifier
            stream_sequence_number (ppi_from ppi) user_data false 0 None 0 false false false).

Definition data_marshal_to (c : ChunkPayloadData) (writer : bytes) : res (Z * bytes) :=
  let! (_, writer) := chunk_header_marshal_to (data_header c) writer in
  let writer := writer ++ put_uint 4 (tsn c) in
  let writer := writer ++ put_uint 2 (stream_identifier c) in
  let writer := writer ++ put_uint 2 (stream_sequence_number c) in
  let writer := writer ++ put_uint 4 (ppi_u32 (payload_type c)) in
  let writer := writer ++ user_data c in
  Ok (len writer, writer).

#[export] Instance data_chunk : Chunk ChunkPayloadData :=
  {| chunk_header := data_header; chunk_unmarshal := data_unmarshal;
     chunk_marshal_to := data_marshal_to; value_length := data_value_length |}.

Definition sack_value_length (s : ChunkSelectiveAck) : Z :=
  SELECTIVE_ACK_HEADER_SIZE + len (gap_ack_blocks s) * 4 + len (duplicate_tsn s) * 4.

Definition sack_header (s : ChunkSelectiveAck) : ChunkHeader :=
  mkChunkHeader CT_SACK 0 (u16 (sack_value_length s)).

(** [for _ in 0..n] over the reader. *)
Fixpoint read_gaps (n : nat) (reader : bytes) : res (list GapAckBlock * bytes) :=
  match n with
  | O => Ok ([], reader)
  | S n =>
      let! (start, reader) := get_u16 reader in
      let! (end_, reader) := get_u16 reader in
      let! (gs, reader) := read_gaps n reader in
      Ok (mkGap start end_ :: gs, reader)
  end.

Fixpoint read_tsns (n : nat) (reader : bytes) : res (list Z * bytes) :=
  match n with
  | O => Ok ([], reader)
  | S n =>
      let! (t, reader) := get_u32 reader in
      let! (ts, reader) := read_tsns n reader in
      Ok (t :: ts, reader)
  end.

Definition sack_unmarshal (raw : bytes) : res ChunkSelectiveAck :=
  let! header := chunk_header_unmarshal raw in
  if negb (ch_typ header =? CT_SACK) then Err ErrChunkTypeNotSack
  else if ch_value_length header <? SELECTIVE_ACK_HEADER_SIZE then Err ErrChunkUnmarshalSack
  else if len raw <? CHUNK_HEADER_SIZE + SELECTIVE_ACK_HEADER_SIZE then Err ErrSackSizeNotLargeEnoughInfo
  else
    let! reader := slice raw CHUNK_HEADER_SIZE (CHUNK_HEADER_SIZE + ch_value_length header) in
    let! (cumulative_tsn_ack, reader) := get_u32 reader in
    let! (credit, reader) := get_u32 reader in
    let! (gap_ack_blocks_len, reader) := get_u16 reader in
    let! (duplicate_tsn_len, reader) := get_u16 reader in
    if ch_value_length header <? SELECTIVE_ACK_HEADER_SIZE + 4 * gap_ack_blocks_len + 4 * duplicate_tsn_len
    then Err ErrChunkUnmarshalSack
    else if len raw <? CHUNK_HEADER_SIZE + SELECTIVE_ACK_HEADER_SIZE
                       + (4 * gap_ack_blocks_len + 4 * duplicate_tsn_len)
    then Err ErrSackSizeNotLargeEnoughInfo
    else
      let! (gaps, reader) := read_gaps (Z.to_nat gap_ack_blocks_len) reader in
      let! (dups, _) := read_tsns (Z.to_nat duplicate_tsn_len) reader in
      Ok (mkSack cumulative_tsn_ack credit gaps dups).

Definition gap_bytes (g : GapAckBlock) : bytes := put_uint 2 (gap_start g) ++ put_uint 2 (gap_end g).

Definition sack_marshal_to (s : ChunkSelectiveAck) (writer : bytes) : res (Z * bytes) :=
  let! (_, writer) := chunk_header_marshal_to (sack_header s) writer in
  let writer := writer ++ put_uint 4 (cumulative_tsn_ack s) in
  let writer := writer ++ put_uint 4 (advertised_receiver_window_credit s) in
  let writer := writer ++ put_uint 2 (u16 (len (gap_ack_blocks s))) in
  let writer := writer ++ put_uint 2 (u16 (len (duplicate_tsn s))) in
  let writer := foldl (λ w g, (w ++ put_uint 2 (gap_start g)) ++ put_uint 2 (gap_end g)) writer (gap_ack_blocks s) in
  let writer := foldl (λ w t, w ++ put_uint 4 t) writer (duplicate_tsn s) in
  Ok (len writer, writer).

#[export] Instance sack_chunk : Chunk ChunkSelectiveAck :=
  {| chunk_header := sack_header; chunk_unmarshal := sack_unmarshal;
     chunk_marshal_to := sack_marshal_to; value_length := sack_value_length |}.

(** FORWARD-TSN: each stream entry is itself a [Chunk] of four bytes without a header. *)
Definition fwd_stream_unmarshal (buf : bytes) : res ChunkForwardTsnStream :=
  if len buf <? FORWARD_TSN_STREAM_LENGTH then Err ErrChunkTooShort
  else
    let! (identifier, reader) := get_u16 buf in
    let! (sequence, _) := get_u16 reader in
    Ok (mkFwdStream identifier sequence).

Definition fwd_stream_marshal_to (s : ChunkForwardTsnStream) (writer : bytes) : res (Z * bytes) :=
  let writer := writer ++ put_uint 2 (fs_identifier s) in
  let writer := writer ++ put_uint 2 (fs_sequence s) in
  Ok (len writer, writer).

#[export] Instance fwd_stream_chunk : Chunk ChunkForwardTsnStream :=
  {| chunk_header := λ _, mkChunkHeader 0 0 (u16 FORWARD_TSN_STREAM_LENGTH);
     chunk_unmarshal := fwd_stream_unmarshal;
     chunk_marshal_to := fwd_stream_marshal_to;
     value_length := λ _, FORWARD_TSN_STREAM_LENGTH |}.

Definition fwd_value_length (c : ChunkForwardTsn) : Z :=
  NEW_CUMULATIVE_TSN_LENGTH + FORWARD_TSN_STREAM_LENGTH * len (streams c).

Definition fwd_header (c : ChunkForwardTsn) : ChunkHeader :=
  mkChunkHeader CT_FORWARD_TSN 0 (u16 (fwd_value_length c)).

(** [while remaining > 0]; [fuel] bounds the iterations, each of which consumes four bytes. *)
Fixpoint read_streams (fuel : nat) (buf : bytes) (stop offset remaining : Z) : res (list ChunkForwardTsnStream) :=
  if remaining <=? 0 then Ok []
  else match fuel with
  | O => Panic
  | S fuel =>
      let! b := slice buf offset stop in
      let! s := chunk_unmarshal b in
      let! ss := read_streams fuel buf stop (offset + value_length s) (u64 (remaining - value_length s)) in
      Ok (s :: ss)
  end.

Definition fwd_unmarshal (buf : bytes) : res ChunkForwardTsn :=
  let! header := chunk_header_unmarshal buf in
  if negb (ch_typ header =? CT_FORWARD_TSN) then Err ErrChunkTypeNotForwardTsn
  else
    let offset := CHUNK_HEADER_SIZE + NEW_CUMULATIVE_TSN_LENGTH in
    if len buf <? offset then Err ErrChunkTooShort
    else
      let! reader := slice buf CHUNK_HEADER_SIZE (CHUNK_HEADER_SIZE + ch_value_length header) in
      let! (new_cumulative_tsn, _) := get_u32 reader in
      let remaining := len buf - offset in
      let! streams := read_streams (Z.to_nat remaining) buf
                        (CHUNK_HEADER_SIZE + ch_value_length header) offset remaining in
      Ok (mkFwd new_cumulative_tsn streams).

(** [for s in &self.streams { writer.extend_from_slice(&s.marshal()?); }] *)
Fixpoint write_streams (ss : list ChunkForwardTsnStream) (writer : bytes) : res bytes :=
  match ss with
  | [] => Ok writer
  | s :: ss => let! b := chunk_marshal s in write_streams ss (writer ++ b)
  end.

Definition fwd_marshal_to (c : ChunkForwardTsn) (writer : bytes) : res (Z * bytes) :=
  let! (_, writer) := chunk_header_marshal_to (fwd_header c) writer in
  let writer := writer ++ put_uint 4 (new_cumulative_tsn c) in
  let! writer := write_streams (streams c) writer in
  Ok (len writer, writer).

#[export] Instance fwd_chunk : Chunk ChunkForwardTsn :=
  {| chunk_header := fwd_header; chunk_unmarshal := fwd_unmarshal;
     chunk_marshal_to := fwd_marshal_to; value_length := fwd_value_length |}.

Definition shutdown_header (c : ChunkShutdown) : ChunkHeader :=
  mkChunkHeader CT_SHUTDOWN 0 (u16 CUMULATIVE_TSN_ACK_LENGTH).

Definition shutdown_unmarshal (raw : bytes) : res ChunkShutdown :=
  let! header := chunk_header_unmarshal raw in
  if negb (ch_typ header =? CT_SHUTDOWN) then Err ErrChunkTypeNotShutdown
  else if negb (ch_value_length header + CHUNK_HEADER_SIZE =? 8) then Err ErrChunkUnmarshalShutdown
  else if negb (len raw =? CHUNK_HEADER_SIZE + CUMULATIVE_TSN_ACK_LENGTH) then Err ErrInvalidChunkSize
  else
    let! reader := slice raw CHUNK_HEADER_SIZE (CHUNK_HEADER_SIZE + ch_value_length header) in
    let! (t, _) := get_u32 reader in
    Ok (mkShutdown t).

Definition shutdown_marshal_to (c : ChunkShutdown) (writer : bytes) : res (Z * bytes) :=
  let! (_, writer) := chunk_header_marshal_to (shutdown_header c) writer in
  let writer := writer ++ put_uint 4 (shutdown_tsn_ack c) in
  Ok (len writer, writer).

#[export] Instance shutdown_chunk : Chunk ChunkShutdown :=
  {| chunk_header := shutdown_header; chunk_unmarshal := shutdown_unmarshal;
     chunk_marshal_to := shutdown_marshal_to; value_length := λ _, CUMULATIVE_TSN_ACK_LENGTH |}.

Definition cookie_echo_header (c : ChunkCookieEcho) : ChunkHeader :=
  mkChunkHeader CT_COOKIE_ECHO 0 (u16 (len (cookie c))).

Definition cookie_echo_unmarshal (raw : bytes) : res ChunkCookieEcho :=
  let! header := chunk_header_unmarshal raw in
  if negb (ch_typ header =? CT_COOKIE_ECHO) then Err ErrChunkTypeNotCookieEcho
  else
    let! cookie := slice raw CHUNK_HEADER_SIZE (CHUNK_HEADER_SIZE + ch_value_length header) in
    Ok (mkCookieEcho cookie).

Definition cookie_echo_marshal_to (c : ChunkCookieEcho) (buf : bytes) : res (Z * bytes) :=
  let! (_, buf) := chunk_header_marshal_to (cookie_echo_header c) buf in
  let buf := buf ++ cookie c in
  Ok (len buf, buf).

#[export] Instance cookie_echo_chunk : Chunk ChunkCookieEcho :=
  {| chunk_header := cookie_echo_header; chunk_unmarshal := cookie_echo_unmarshal;
     chunk_marshal_to := cookie_echo_marshal_to; value_length := λ c, len (cookie c) |}.

#[export] Instance cookie_ack_chunk : Chunk ChunkCookieAck :=
  {| chunk_header := λ _, mkChunkHeader CT_COOKIE_ACK 0 (u16 0);
     chunk_unmarshal := λ raw,
       let! header := chunk_header_unmarshal raw in
       if negb (ch_typ header =? CT_COOKIE_ACK) then Err ErrChunkTypeNotCookieAck else Ok mkCookieAck;
     chunk_marshal_to := λ _ buf, chunk_header_marshal_to (mkChunkHeader CT_COOKIE_ACK 0 (u16 0)) buf;
     value_length := λ _, 0 |}.

#[export] Instance shutdown_ack_chunk : Chunk ChunkShutdownAck :=
  {| chunk_header := λ _, mkChunkHeader CT_SHUTDOWN_ACK 0 (u16 0);
     chunk_unmarshal := λ raw,
       let! header := chunk_header_unmarshal raw in
       if negb (ch_typ header =? CT_SHUTDOWN_ACK) then Err ErrChunkTypeNotShutdownAck else Ok mkShutdownAck;
     chunk_marshal_to := λ _ buf, chunk_header_marshal_to (mkChunkHeader CT_SHUTDOWN_ACK 0 (u16 0)) buf;
     value_length := λ _, 0 |}.

#[export] Instance shutdown_complete_chunk : Chunk ChunkShutdownComplete :=
  {| chunk_header := λ _, mkChunkHeader CT_SHUTDOWN_COMPLETE 0 (u16 0);
     chunk_unmarshal := λ raw,
       let! header := chunk_header_unmarshal raw in
       if negb (ch_typ header =? CT_SHUTDOWN_COMPLETE) then Err ErrChunkTypeNotShutdownComplete
       else Ok mkShutdownComplete;
     chunk_marshal_to := λ _ buf, chunk_header_marshal_to (mkChunkHeader CT_SHUTDOWN_COMPLETE 0 (u16 0)) buf;
     value_length := λ _, 0 |}.

Definition error_cause_unmarshal (buf : bytes) : res ErrorCause :=
  if len buf <? ERROR_CAUSE_HEADER_LENGTH then Err ErrErrorCauseTooSmall
  else
    let! (code, reader) := get_u16 buf in
    let! (l, _) := get_u16 reader in
    if l <? ERROR_CAUSE_HEADER_LENGTH then Err ErrErrorCauseTooSmall
    else
      let value_length := l - ERROR_CAUSE_HEADER_LENGTH in
      let! raw := slice buf ERROR_CAUSE_HEADER_LENGTH (ERROR_CAUSE_HEADER_LENGTH + value_length) in
      Ok (mkErrorCause code raw).

Definition error_cause_length (e : ErrorCause) : Z := len (cause_raw e) + ERROR_CAUSE_HEADER_LENGTH.

(** [ErrorCause::marshal_to] into an empty buffer, which is [ErrorCause::marshal]. *)
Definition error_cause_marshal (e : ErrorCause) : bytes :=
  let l := len (cause_raw e) + ERROR_CAUSE_HEADER_LENGTH in
  put_uint 2 (code e) ++ put_uint 2 (u16 l) ++ cause_raw e.

(** [while offset + 4 <= raw.len()], at most one iteration per four bytes. *)
Fixpoint read_causes (fuel : nat) (raw : bytes) (stop offset : Z) : res (list ErrorCause) :=
  if len raw <? offset + 4 then Ok []
  else match fuel with
  | O => Panic
  | S fuel =>
      let! b := slice raw offset stop in
      let! e := error_cause_unmarshal b in
      let! es := read_causes fuel raw stop (offset + error_cause_length e) in
      Ok (e :: es)
  end.

Definition causes_length (es : list ErrorCause) : Z := foldl (λ length e, length + error_cause_length e) 0 es.

Definition error_header (c : ChunkError) : ChunkHeader :=
  mkChunkHeader CT_ERROR 0 (u16 (causes_length (error_causes c))).

Definition error_unmarshal (raw : bytes) : res ChunkError :=
  let! header := chunk_header_unmarshal raw in
  if negb (ch_typ header =? CT_ERROR) then Err ErrChunkTypeNotCt
  else
    let! es := read_causes (length raw) raw (CHUNK_HEADER_SIZE + ch_value_length header) CHUNK_HEADER_SIZE in
    Ok (mkError es).

Definition error_marshal_to (c : ChunkError) (buf : bytes) : res (Z * bytes) :=
  let! (_, buf) := chunk_header_marshal_to (error_header c) buf in
  let buf := foldl (λ b e, b ++ error_cause_marshal e) buf (error_causes c) in
  Ok (len buf, buf).

#[export] Instance error_chunk : Chunk ChunkError :=
  {| chunk_header := error_header; chunk_unmarshal := error_unmarshal;
     chunk_marshal_to := error_marshal_to; value_length := λ c, causes_length (error_causes c) |}.

Definition abort_header (c : ChunkAbort) : ChunkHeader :=
  mkChunkHeader CT_ABORT 0 (u16 (causes_length (abort_causes c))).

Definition abort_unmarshal (raw : bytes) : res ChunkAbort :=
  let! header := chunk_header_unmarshal raw in
  if negb (ch_typ header =? CT_ABORT) then Err ErrChunkTypeNotAbort
  else
    let! es := read_causes (length raw) raw (CHUNK_HEADER_SIZE + ch_value_length header) CHUNK_HEADER_SIZE in
    Ok (mkAbort es).

Definition abort_marshal_to (c : ChunkAbort) (buf : bytes) : res (Z * bytes) :=
  let! (_, buf) := chunk_header_marshal_to (abort_header c) buf in
  let buf := foldl (λ b e, b ++ error_cause_marshal e) buf (abort_causes c) in
  Ok (len buf, buf).

#[export] Instance abort_chunk : Chunk ChunkAbort :=
  {| chunk_header := abort_header; chunk_unmarshal := abort_unmarshal;
     chunk_marshal_to := abort_marshal_to; value_length := λ c, causes_length (abort_causes c) |}.

End Codecs.

(** * The first look at a packet *)

(** The CRC of the [crc32c] crate, continued from a previous value. *)
Class Crc32c := crc32c_append : Z → bytes → Z.

Definition PACKET_HEADER_SIZE : Z := 12.

Record CommonHeader := mkCommon { source_port : Z; destination_port : Z; verification_tag : Z }.

Record PartialDecode := mkPartial {
  common_header : CommonHeader;
  pd_remaining : bytes;
  first_chunk_type : ChunkType;
  initiate_tag : option Z;
  pd_cookie : option bytes
}.

Section Packet.
Context {BC : BytesCrate} {CRC : Crc32c}.

Definition generate_packet_checksum (raw : bytes) : res Z :=
  let! a := slice raw 0 8 in
  let crc := crc32c_append 0 a in
  let crc := crc32c_append crc [0; 0; 0; 0] in
  let! b := slice raw 12 (len raw) in
  Ok (crc32c_append crc b).

(** [Buf::get_u32_le] *)
Definition get_u32_le (l : bytes) : res (Z * bytes) :=
  let! (a, r) := copy_to_bytes 4 l in
  let! (x, _) := get_u32 (reverse a) in
  Ok (x, r).

Definition partial_unmarshal (raw : bytes) : res PartialDecode :=
  if len raw <? PACKET_HEADER_SIZE then Err ErrPacketRawTooSmall
  else
    let! (source_port, reader) := get_u16 raw in
    let! (destination_port, reader) := get_u16 reader in
    let! (verification_tag, reader) := get_u32 reader in
    let! (their_checksum, reader) := get_u32_le reader in
    let! our_checksum := generate_packet_checksum raw in
    if negb (their_checksum =? our_checksum) then Err ErrChecksumMismatch
    else if len reader <? CHUNK_HEADER_SIZE then Err ErrParseSctpChunkNotEnoughData
    else
      let! header := chunk_header_unmarshal reader in
      let! (_, reader) := copy_to_bytes CHUNK_HEADER_SIZE reader in
      let! (tag, cookie) :=
        (if (ch_typ header =? CT_INIT) || (ch_typ header =? CT_INIT_ACK) then
           let! (t, _) := get_u32 reader in Ok (Some t, None)
         else if ch_typ header =? CT_COOKIE_ECHO then
           let! c := slice raw (PACKET_HEADER_SIZE + CHUNK_HEADER_SIZE)
                       (PACKET_HEADER_SIZE + CHUNK_HEADER_SIZE + ch_value_length header) in
           Ok (None, Some c)
         else Ok (None, None)) in
      let! remaining := slice raw PACKET_HEADER_SIZE (len raw) in
      Ok (mkPartial (mkCommon source_port destination_port verification_tag) remaining
            (ch_typ header) tag cookie).

Definition slice_chunk (raw : bytes) (offset : Z) : res bytes :=
  let! hi := index raw (offset + 2) in
  let! lo := index raw (offset + 3) in
  let chunk_length := hi * 256 + lo in
  if chunk_length <? CHUNK_HEADER_SIZE then Err ErrChunkHeaderInvalidLength
  else if len raw <? offset + chunk_length then Err ErrChunkHeaderNotEnoughSpace
  else slice raw offset (offset + chunk_length).

End Packet.

(** * Lemmas *)

Section CodecLemmas.
Context {BC : BytesCrate}.

Lemma foldl_append {A} (g : A → bytes) xs w : foldl (λ w x, w ++ g x) w xs = w ++ concat (g <$> xs).
Proof.
  revert w. induction xs as [|x xs IH]; intros w; [by rewrite app_nil_r|]. csimpl. by rewrite IH, app_assoc.
Qed.

Lemma ppi_roundtrip p : ppi_from (ppi_u32 p) = p.
Proof. by destruct p. Qed.

Lemma ppi_fits p : fits 32 (ppi_u32 p).
Proof. destruct p; split; vm_compute; congruence. Qed.

(** The chunk as the receiver sees it: the sender's bookkeeping is not on the wire. *)
Definition received (c : ChunkPayloadData) : ChunkPayloadData :=
  mkData (unordered c) (beginning_fragment c) (ending_fragment c) (immediate_sack c) (tsn c)
    (stream_identifier c) (stream_sequence_number c) (payload_type c) (user_data c)
    false 0 None 0 false false false.

Definition data_ok (c : ChunkPayloadData) : Prop :=
  fits 32 (tsn c) ∧ fits 16 (stream_identifier c) ∧ fits 16 (stream_sequence_number c) ∧
  len (user_data c) < 65520.

Definition sack_ok (s : ChunkSelectiveAck) : Prop :=
  fits 32 (cumulative_tsn_ack s) ∧ fits 32 (advertised_receiver_window_credit s) ∧
  Forall (λ g, fits 16 (gap_start g) ∧ fits 16 (gap_end g)) (gap_ack_blocks s) ∧
  Forall (fits 32) (duplicate_tsn s) ∧ sack_value_length s < 65532.

Definition fwd_ok (c : ChunkForwardTsn) : Prop :=
  fits 32 (new_cumulative_tsn c) ∧
  Forall (λ s, fits 16 (fs_identifier s) ∧ fits 16 (fs_sequence s)) (streams c) ∧
  fwd_value_length c < 65532.

Definition causes_ok (es : list ErrorCause) : Prop :=
  Forall (λ e, fits 16 (code e)) es ∧ causes_length es < 65532.

Definition data_body (c : ChunkPayloadData) : bytes :=
  put_uint 4 (tsn c) ++ put_uint 2 (stream_identifier c) ++ put_uint 2 (stream_sequence_number c) ++
  put_uint 4 (ppi_u32 (payload_type c)) ++ user_data c.

Lemma data_flags_ok c :
  fits 8 (ch_flags (data_header c)) ∧
  negb (Z.land (ch_flags (data_header c)) PAYLOAD_DATA_IMMEDIATE_SACK =? 0) = immediate_sack c ∧
  negb (Z.land (ch_flags (data_header c)) PAYLOAD_DATA_UNORDERED_BITMASK =? 0) = unordered c ∧
  negb (Z.land (ch_flags (data_header c)) PAYLOAD_DATA_BEGINING_FRAGMENT_BITMASK =? 0) = beginning_fragment c ∧
  negb (Z.land (ch_flags (data_header c)) PAYLOAD_DATA_ENDING_FRAGMENT_BITMASK =? 0) = ending_fragment c.
Proof.
  unfold data_header. cbn [ch_flags].
  destruct (ending_fragment c), (beginning_fragment c), (unordered c), (immediate_sack c);
    vm_compute; intuition congruence.
Qed.

Lemma data_roundtrip c :
  data_ok c → ∃ bs, chunk_marshal c = Ok bs ∧ len bs = CHUNK_HEADER_SIZE + value_length c ∧
                    chunk_unmarshal bs = Ok (received c).
Proof.
  intros (Ht & Hi & Hs & Hl). exists (chunk_header_bytes (data_header c) ++ data_body c).
  assert (len (data_body c) = ch_value_length (data_header c)) as Hb.
  { unfold data_body, data_header, data_value_length, PAYLOAD_DATA_HEADER_SIZE. cbn [ch_value_length].
    rewrite wrap_small by (unfold fits; pose proof (len_nonneg (user_data c)); lia). autorewrite with len. lia. }
  assert (len (data_body c) = 12 + len (user_data c)) as Hb' by (unfold data_body; autorewrite with len; lia).
  destruct (data_flags_ok c) as (Hf & F1 & F2 & F3 & F4). pose proof (len_nonneg (user_data c)).
  split_and!.
  - unfold chunk_marshal, chunk_marshal_to, data_chunk, data_marshal_to.
    rewrite chunk_header_marshal_to_eq. cbn [rbind]. unfold data_body. by rewrite !app_assoc.
  - rewrite len_app, len_chunk_header_bytes, Hb'. reflexivity.
  - unfold chunk_unmarshal, data_chunk, data_unmarshal.
    rewrite chunk_header_read; [|split_and!; [by vm_compute|done|lia..]|done]. cbn [rbind].
    rewrite F1, F2, F3, F4. unfold data_header at 1. cbn [ch_typ]. rewrite Z.eqb_refl. cbn [negb].
    unfold PAYLOAD_DATA_HEADER_SIZE. rewrite len_app, len_chunk_header_bytes.
    unfold CHUNK_HEADER_SIZE. rewrite <- Hb, !(proj2 (Z.ltb_ge _ _)) by lia.
    rewrite slice_tail by (rewrite ?len_app, ?len_chunk_header_bytes; done). cbn [rbind].
    unfold data_body at 1, get_u16, get_u32. rewrite get_put_uint by done. cbn [rbind].
    rewrite get_put_uint by done. cbn [rbind]. rewrite get_put_uint by done. cbn [rbind].
    rewrite get_put_uint by apply ppi_fits. cbn [rbind].
    replace (chunk_header_bytes (data_header c) ++ data_body c) with
      ((chunk_header_bytes (data_header c) ++ put_uint 4 (tsn c) ++ put_uint 2 (stream_identifier c) ++
        put_uint 2 (stream_sequence_number c) ++ put_uint 4 (ppi_u32 (payload_type c))) ++ user_data c)
      by (unfold data_body; by rewrite <- !app_assoc).
    rewrite slice_tail.
    + cbn [rbind]. by rewrite ppi_roundtrip.
    + autorewrite with len. rewrite len_chunk_header_bytes. reflexivity.
    + rewrite Hb'. autorewrite with len. rewrite len_chunk_header_bytes. unfold CHUNK_HEADER_SIZE. lia.
Qed.

Lemma foldl_gaps gs w :
  foldl (λ w g, (w ++ put_uint 2 (gap_start g)) ++ put_uint 2 (gap_end g)) w gs = w ++ concat (gap_bytes <$> gs).
Proof.
  rewrite <- foldl_append. revert w. induction gs as [|g gs IH]; intros w; [done|].
  cbn [foldl]. unfold gap_bytes at 2. by rewrite IH, app_assoc.
Qed.

Lemma read_gaps_put gs r :
  Forall (λ g, fits 16 (gap_start g) ∧ fits 16 (gap_end g)) gs →
  read_gaps (length gs) (concat (gap_bytes <$> gs) ++ r) = Ok (gs, r).
Proof.
  induction 1 as [|g gs [H1 H2] Hgs IH]; [done|]. csimpl. unfold gap_bytes at 1, get_u16.
  rewrite <- !app_assoc, get_put_uint by done. cbn [rbind]. rewrite get_put_uint by done. cbn [rbind].
  rewrite IH. by destruct g.
Qed.

Lemma read_tsns_put ts r :
  Forall (fits 32) ts → read_tsns (length ts) (concat (put_uint 4 <$> ts) ++ r) = Ok (ts, r).
Proof.
  induction 1 as [|t ts Ht Hts IH]; [done|]. csimpl. unfold get_u32.
  rewrite <- app_assoc, get_put_uint by done. cbn [rbind]. by rewrite IH.
Qed.

Definition sack_body (s : ChunkSelectiveAck) : bytes :=
  put_uint 4 (cumulative_tsn_ack s) ++ put_uint 4 (advertised_receiver_window_credit s) ++
  put_uint 2 (len (gap_ack_blocks s)) ++ put_uint 2 (len (duplicate_tsn s)) ++
  concat (gap_bytes <$> gap_ack_blocks s) ++ concat (put_uint 4 <$> duplicate_tsn s).

Lemma len_sack_body s : len (sack_body s) = sack_value_length s.
Proof.
  unfold sack_body, sack_value_length, SELECTIVE_ACK_HEADER_SIZE. rewrite !len_app, !len_put_uint.
  rewrite (len_concat_fixed gap_bytes 4) by (intros; unfold gap_bytes; by autorewrite with len).
  rewrite (len_concat_fixed (put_uint 4) 4) by (intros; by autorewrite with len). lia.
Qed.

Lemma sack_roundtrip s :
  sack_ok s → ∃ bs, chunk_marshal s = Ok bs ∧ len bs = CHUNK_HEADER_SIZE + value_length s ∧
                    chunk_unmarshal bs = Ok s.
Proof.
  intros (Hc & Ha & Hg & Hd & Hl). exists (chunk_header_bytes (sack_header s) ++ sack_body s).
  pose proof (len_nonneg (gap_ack_blocks s)) as Lg. pose proof (len_nonneg (duplicate_tsn s)) as Ld.
  assert (sack_value_length s = 12 + len (gap_ack_blocks s) * 4 + len (duplicate_tsn s) * 4) as Hv by done.
  assert (fits 16 (len (gap_ack_blocks s))) as Fg by (unfold fits; lia).
  assert (fits 16 (len (duplicate_tsn s))) as Fd by (unfold fits; lia).
  assert (ch_value_length (sack_header s) = sack_value_length s) as Hhv
    by (unfold sack_header; cbn [ch_value_length]; apply wrap_small; unfold fits; lia).
  split_and!.
  - unfold chunk_marshal, chunk_marshal_to, sack_chunk, sack_marshal_to.
    rewrite chunk_header_marshal_to_eq. cbn [rbind]. rewrite !(wrap_small 16) by done.
    unfold sack_body. by rewrite (foldl_append (put_uint 4)), foldl_gaps, !app_assoc.
  - rewrite len_app, len_chunk_header_bytes, len_sack_body. reflexivity.
  - unfold chunk_unmarshal, sack_chunk, sack_unmarshal.
    rewrite chunk_header_read; [|unfold header_ok; rewrite Hhv; split_and!; [by vm_compute..|lia|lia]
                               |by rewrite len_sack_body]. cbn [rbind].
    unfold sack_header at 1. cbn [ch_typ]. rewrite Z.eqb_refl. cbn [negb].
    rewrite Hhv, len_app, len_chunk_header_bytes, len_sack_body. unfold CHUNK_HEADER_SIZE, SELECTIVE_ACK_HEADER_SIZE.
    rewrite !(proj2 (Z.ltb_ge _ _)) by lia.
    rewrite slice_tail by (rewrite ?len_app, ?len_chunk_header_bytes, ?len_sack_body; done). cbn [rbind].
    unfold sack_body, get_u16, get_u32. rewrite get_put_uint by done. cbn [rbind].
    rewrite get_put_uint by done. cbn [rbind]. rewrite get_put_uint by done. cbn [rbind].
    rewrite get_put_uint by done. cbn [rbind]. rewrite !(proj2 (Z.ltb_ge _ _)) by lia.
    unfold len. rewrite !Nat2Z.id, read_gaps_put by done. cbn [rbind].
    rewrite <- (app_nil_r (concat (put_uint 4 <$> _))), read_tsns_put by done. by destruct s.
Qed.

Definition stream_bytes (s : ChunkForwardTsnStream) : bytes :=
  put_uint 2 (fs_identifier s) ++ put_uint 2 (fs_sequence s).

Lemma len_streams ss : len (concat (stream_bytes <$> ss)) = 4 * len ss.
Proof. apply len_concat_fixed. intros. unfold stream_bytes. by autorewrite with len. Qed.

Lemma write_streams_eq ss w : write_streams ss w = Ok (w ++ concat (stream_bytes <$> ss)).
Proof.
  revert w. induction ss as [|s ss IH]; intros w; [by rewrite app_nil_r|].
  csimpl. cbn [write_streams]. unfold chunk_marshal, chunk_marshal_to, fwd_stream_chunk, fwd_stream_marshal_to.
  cbn [rbind app]. by rewrite IH, <- app_assoc.
Qed.

Lemma read_streams_put pre ss fuel :
  Forall (λ s, fits 16 (fs_identifier s) ∧ fits 16 (fs_sequence s)) ss → 4 * len ss < 2 ^ 64 →
  (length ss ≤ fuel)%nat →
  let buf := pre ++ concat (stream_bytes <$> ss) in
  read_streams fuel buf (len buf) (len pre) (4 * len ss) = Ok ss.
Proof.
  intros Hs. revert pre fuel. induction Hs as [|s ss [H1 H2] Hss IH]; intros pre fuel Hl Hf; cbn zeta.
  { by destruct fuel. }
  destruct fuel as [|fuel]; [simpl in Hf; lia|]. cbn [read_streams].
  pose proof (len_nonneg ss). rewrite len_cons in *. rewrite (proj2 (Z.leb_gt _ 0)) by lia.
  rewrite slice_tail by done. cbn [rbind]. csimpl.
  cbn [chunk_unmarshal value_length fwd_stream_chunk]. unfold fwd_stream_unmarshal, FORWARD_TSN_STREAM_LENGTH.
  rewrite (proj2 (Z.ltb_ge _ 4)) by (rewrite len_app, len_streams; unfold stream_bytes; autorewrite with len; lia).
  unfold stream_bytes at 1, get_u16. rewrite <- !app_assoc, get_put_uint by done. cbn [rbind].
  rewrite get_put_uint by done. cbn [rbind].
  rewrite wrap_small by (unfold fits; lia).
  replace (4 * (1 + len ss) - 4) with (4 * len ss) by lia.
  specialize (IH (pre ++ stream_bytes s) fuel). cbn zeta in IH.
  replace (len (pre ++ stream_bytes s)) with (len pre + 4) in IH
    by (rewrite len_app; unfold stream_bytes; by autorewrite with len).
  rewrite <- app_assoc in IH. rewrite IH by (simpl in Hf; lia). by destruct s.
Qed.

Lemma fwd_roundtrip c :
  fwd_ok c → ∃ bs, chunk_marshal c = Ok bs ∧ len bs = CHUNK_HEADER_SIZE + value_length c ∧
                   chunk_unmarshal bs = Ok c.
Proof.
  intros (Ht & Hs & Hl). unfold fwd_value_length, NEW_CUMULATIVE_TSN_LENGTH, FORWARD_TSN_STREAM_LENGTH in Hl.
  pose proof (len_nonneg (streams c)) as Ls.
  set (body := put_uint 4 (new_cumulative_tsn c) ++ concat (stream_bytes <$> streams c)).
  assert (len body = 4 + 4 * len (streams c)) as Hb by (unfold body; rewrite len_app, len_put_uint, len_streams; lia).
  assert (ch_value_length (fwd_header c) = 4 + 4 * len (streams c)) as Hv
    by (unfold fwd_header; cbn [ch_value_length]; apply wrap_small; unfold fits, fwd_value_length,
          NEW_CUMULATIVE_TSN_LENGTH, FORWARD_TSN_STREAM_LENGTH; lia).
  exists (chunk_header_bytes (fwd_header c) ++ body). split_and!.
  - unfold chunk_marshal, chunk_marshal_to, fwd_chunk, fwd_marshal_to.
    rewrite chunk_header_marshal_to_eq. cbn [rbind]. rewrite write_streams_eq. cbn [rbind].
    unfold body. by rewrite !app_assoc.
  - rewrite len_app, len_chunk_header_bytes, Hb. reflexivity.
  - unfold chunk_unmarshal, fwd_chunk, fwd_unmarshal.
    rewrite chunk_header_read; [|unfold header_ok; rewrite Hv; split_and!; [by vm_compute..|lia|lia]|lia].
    cbn [rbind]. unfold fwd_header at 1. cbn [ch_typ]. rewrite Z.eqb_refl. cbn [negb].
    unfold NEW_CUMULATIVE_TSN_LENGTH. rewrite len_app, len_chunk_header_bytes. unfold CHUNK_HEADER_SIZE.
    rewrite (proj2 (Z.ltb_ge _ _)), Hv, slice_tail by (rewrite ?len_app, ?len_chunk_header_bytes, ?Hb; done || lia).
    cbn [rbind]. unfold body at 1, get_u32. rewrite get_put_uint by done. cbn [rbind].
    pose proof (read_streams_put (chunk_header_bytes (fwd_header c) ++ put_uint 4 (new_cumulative_tsn c)) (streams c)
                  (Z.to_nat (4 + len body - (4 + 4))) Hs) as E. cbn zeta in E.
    rewrite <- app_assoc in E. fold body in E. rewrite !len_app, len_chunk_header_bytes, len_put_uint, Hb in E.
    rewrite Hb. unfold CHUNK_HEADER_SIZE in E. change (Z.of_nat 4) with 4 in E.
    replace (4 + (4 + 4 * len (streams c)) - (4 + 4)) with (4 * len (streams c)) in * by lia.
    rewrite E by (unfold len in *; lia). by destruct c.
Qed.

(** ** Error causes *)

Lemma foldl_causes es a : foldl (λ l e, l + error_cause_length e) a es = a + causes_length es.
Proof.
  unfold causes_length. revert a. induction es as [|e es IH]; intros a; [simpl; lia|].
  cbn [foldl]. rewrite IH, (IH (0 + _)). lia.
Qed.

Lemma causes_length_cons e es : causes_length (e :: es) = error_cause_length e + causes_length es.
Proof. unfold causes_length at 1. cbn [foldl]. rewrite foldl_causes. lia. Qed.

Lemma causes_length_nonneg es : 0 <= causes_length es.
Proof.
  induction es as [|e es IH]; [done|]. rewrite causes_length_cons.
  unfold error_cause_length, ERROR_CAUSE_HEADER_LENGTH. pose proof (len_nonneg (cause_raw e)). lia.
Qed.

Lemma len_cause e : len (error_cause_marshal e) = error_cause_length e.
Proof.
  unfold error_cause_marshal, error_cause_length, ERROR_CAUSE_HEADER_LENGTH. autorewrite with len. lia.
Qed.

Lemma len_causes es : len (concat (error_cause_marshal <$> es)) = causes_length es.
Proof.
  induction es as [|e es IH]; [done|]. csimpl. by rewrite len_app, len_cause, IH, causes_length_cons.
Qed.

Lemma error_cause_read e r :
  fits 16 (code e) → error_cause_length e < 65536 → error_cause_unmarshal (error_cause_marshal e ++ r) = Ok e.
Proof.
  unfold error_cause_length, ERROR_CAUSE_HEADER_LENGTH. intros Hc Hl.
  pose proof (len_nonneg (cause_raw e)). pose proof (len_nonneg r). unfold error_cause_unmarshal.
  rewrite len_app, len_cause. unfold error_cause_length, ERROR_CAUSE_HEADER_LENGTH.
  rewrite (proj2 (Z.ltb_ge _ 4)) by lia. unfold error_cause_marshal at 1, get_u16, ERROR_CAUSE_HEADER_LENGTH.
  rewrite wrap_small by (unfold fits; lia).
  rewrite <- !app_assoc, get_put_uint by done. cbn [rbind].
  rewrite get_put_uint by (unfold fits; simpl; lia). cbn [rbind]. rewrite (proj2 (Z.ltb_ge _ 4)) by lia.
  unfold error_cause_marshal. rewrite app_assoc, <- (app_assoc _ (cause_raw e)).
  rewrite slice_mid by (autorewrite with len; lia). by destruct e.
Qed.

Lemma read_causes_put pre es fuel :
  causes_ok es → (length es ≤ fuel)%nat →
  let raw := pre ++ concat (error_cause_marshal <$> es) in
  read_causes fuel raw (len raw) (len pre) = Ok es.
Proof.
  intros [Hc Hl]. revert pre fuel Hl. induction Hc as [|e es He Hes IH]; intros pre fuel Hl Hf; cbn zeta.
  { csimpl. rewrite app_nil_r. destruct fuel; cbn [read_causes]; by rewrite (proj2 (Z.ltb_lt _ _)) by lia. }
  destruct fuel as [|fuel]; [simpl in Hf; lia|]. rewrite causes_length_cons in Hl.
  pose proof (causes_length_nonneg es). pose proof (len_nonneg (cause_raw e)).
  assert (4 <= error_cause_length e) by (unfold error_cause_length, ERROR_CAUSE_HEADER_LENGTH; lia).
  cbn [read_causes]. csimpl.
  rewrite (proj2 (Z.ltb_ge _ _)) by (rewrite !len_app, len_causes, len_cause; lia).
  rewrite slice_tail by done. cbn [rbind]. rewrite error_cause_read by (done || lia). cbn [rbind].
  specialize (IH (pre ++ error_cause_marshal e) fuel). cbn zeta in IH. rewrite <- app_assoc in IH.
  rewrite (len_app pre (error_cause_marshal e)), len_cause in IH.
  rewrite IH by (simpl in Hf; lia). done.
Qed.

(** What ERROR and ABORT share: the causes after the header. *)
Lemma causes_roundtrip typ es :
  fits 8 typ → causes_ok es →
  let h := mkChunkHeader typ 0 (u16 (causes_length es)) in
  let raw := chunk_header_bytes h ++ concat (error_cause_marshal <$> es) in
  chunk_header_unmarshal raw = Ok h ∧
  read_causes (length raw) raw (CHUNK_HEADER_SIZE + ch_value_length h) CHUNK_HEADER_SIZE = Ok es.
Proof.
  intros Ht Hes h raw. pose proof Hes as [Hc Hl]. pose proof (causes_length_nonneg es).
  assert (ch_value_length h = causes_length es) as Hv
    by (unfold h; cbn [ch_value_length]; apply wrap_small; unfold fits; lia).
  split.
  - apply chunk_header_read; [unfold header_ok; rewrite Hv; split_and!; [done|by vm_compute|lia|lia]|].
    by rewrite len_causes.
  - replace (CHUNK_HEADER_SIZE + ch_value_length h) with (len raw)
      by (unfold raw; by rewrite len_app, len_chunk_header_bytes, len_causes, Hv).
    rewrite <- (len_chunk_header_bytes h). apply read_causes_put; [done|].
    assert (∀ es, Z.of_nat (length es) <= causes_length es) as Hn.
    { clear. induction es as [|e es IH]; [done|]. rewrite causes_length_cons. simpl length.
      unfold error_cause_length, ERROR_CAUSE_HEADER_LENGTH. pose proof (len_nonneg (cause_raw e)). lia. }
    specialize (Hn es). rewrite <- len_causes in Hn. unfold raw. rewrite length_app. unfold len in Hn. lia.
Qed.

Lemma error_roundtrip c :
  causes_ok (error_causes c) → ∃ bs, chunk_marshal c = Ok bs ∧ chunk_unmarshal bs = Ok c.
Proof.
  intros Hc. destruct (causes_roundtrip CT_ERROR _ ltac:(by vm_compute) Hc) as [E1 E2].
  eexists. split.
  - unfold chunk_marshal, chunk_marshal_to, error_chunk, error_marshal_to.
    rewrite chunk_header_marshal_to_eq. cbn [rbind]. by rewrite foldl_append.
  - unfold chunk_unmarshal, error_chunk, error_unmarshal, error_header. cbn [app]. rewrite E1.
    cbn [rbind ch_typ]. rewrite Z.eqb_refl. cbn [negb]. rewrite E2. by destruct c.
Qed.

Lemma abort_roundtrip c :
  causes_ok (abort_causes c) → ∃ bs, chunk_marshal c = Ok bs ∧ chunk_unmarshal bs = Ok c.
Proof.
  intros Hc. destruct (causes_roundtrip CT_ABORT _ ltac:(by vm_compute) Hc) as [E1 E2].
  eexists. split.
  - unfold chunk_marshal, chunk_marshal_to, abort_chunk, abort_marshal_to.
    rewrite chunk_header_marshal_to_eq. cbn [rbind]. by rewrite foldl_append.
  - unfold chunk_unmarshal, abort_chunk, abort_unmarshal, abort_header. cbn [app]. rewrite E1.
    cbn [rbind ch_typ]. rewrite Z.eqb_refl. cbn [negb]. rewrite E2. by destruct c.
Qed.

(** ** No panics *)

Lemma get_u16_pair a b r : byte_ok a → byte_ok b → get_u16 (a :: b :: r) = Ok (a * 256 + b, r).
Proof.
  unfold fits. change (2 ^ 8) with 256. intros Ha Hb.
  assert (put_uint 2 (a * 256 + b) = [a; b]) as E.
  { rewrite put_uint_2, Z.div_add_l, Z.div_small, Z.add_0_r by lia.
    rewrite (Z.add_comm (a * 256)), Z.mod_add, Z.mod_small by lia. by rewrite !put_uint_1. }
  unfold get_u16. change (a :: b :: r) with ([a; b] ++ r). rewrite <- E. apply get_put_uint.
  unfold fits. change (2 ^ (8 * Z.of_nat 2)) with 65536. lia.
Qed.

Lemma slice_chunk_no_panic raw offset :
  0 <= offset → offset + CHUNK_HEADER_SIZE <= len raw → Forall byte_ok raw → no_panic (slice_chunk raw offset).
Proof.
  unfold CHUNK_HEADER_SIZE. intros Ho Hl Hb. unfold slice_chunk, CHUNK_HEADER_SIZE.
  destruct (index_ok raw (offset + 2)) as (hi & -> & Hhi); [lia|]. cbn [rbind].
  destruct (index_ok raw (offset + 3)) as (lo & -> & Hlo); [lia|]. cbn [rbind].
  rewrite Forall_forall in Hb. pose proof (Hb _ Hhi) as [? _]. pose proof (Hb _ Hlo) as [? _].
  destruct (Z.ltb_spec (hi * 256 + lo) 4); [done|]. destruct (Z.ltb_spec (len raw) (offset + (hi * 256 + lo))); [done|].
  apply slice_no_panic; lia.
Qed.

(** A chunk cut out of a packet is exactly as long as its header says. *)
Lemma slice_chunk_exact raw offset b :
  0 <= offset → Forall byte_ok raw → slice_chunk raw offset = Ok b →
  Forall byte_ok b ∧ CHUNK_HEADER_SIZE <= len b ∧
  ∃ h, chunk_header_unmarshal b = Ok h ∧ ch_value_length h = len b - CHUNK_HEADER_SIZE.
Proof.
  intros Ho Hb. unfold slice_chunk, slice, index, assert_, CHUNK_HEADER_SIZE.
  destruct (Z.ltb_spec (offset + 2) 0); [lia|]. destruct (Z.ltb_spec (offset + 3) 0); [lia|].
  destruct (raw !! Z.to_nat (offset + 2)) as [hi|] eqn:E2; [|done]. cbn [rbind].
  destruct (raw !! Z.to_nat (offset + 3)) as [lo|] eqn:E3; [|done]. cbn [rbind].
  destruct (Z.ltb_spec (hi * 256 + lo) 4); [done|]. destruct (Z.ltb_spec (len raw) (offset + (hi * 256 + lo))); [done|].
  rewrite !(proj2 (Z.leb_le _ _)) by lia. cbn [andb]. intros [= <-].
  assert (Forall byte_ok (take (Z.to_nat (offset + (hi * 256 + lo) - offset)) (drop (Z.to_nat offset) raw))) as Hb'
    by auto using Forall_take, Forall_drop.
  replace (offset + (hi * 256 + lo) - offset) with (hi * 256 + lo) in * by lia.
  set (b := take (Z.to_nat (hi * 256 + lo)) (drop (Z.to_nat offset) raw)) in *.
  assert (len b = hi * 256 + lo) as Lb by (unfold b, len in *; rewrite length_take, length_drop; lia).
  assert (b !! 2%nat = Some hi ∧ b !! 3%nat = Some lo) as [B2 B3].
  { unfold b. rewrite !lookup_take_lt, !lookup_drop by lia. rewrite <- E2, <- E3. split; f_equal; lia. }
  split_and!; [done|lia|].
  destruct b as [|t [|f [|x [|y rest]]]]; try (unfold len in Lb; simpl in *; lia || done).
  simpl in B2, B3. simplify_eq. inversion_clear Hb' as [|? ? Ht Hb1]. inversion_clear Hb1 as [|? ? Hf Hb2].
  inversion_clear Hb2 as [|? ? Hhi Hb3]. inversion_clear Hb3 as [|? ? Hlo Hb4].
  eexists. split.
  - unfold chunk_header_unmarshal, CHUNK_HEADER_SIZE. rewrite (proj2 (Z.ltb_ge _ 4)) by lia.
    rewrite get_u8_cons by done. cbn [rbind]. rewrite get_u8_cons by done. cbn [rbind].
    rewrite get_u16_pair by done. cbn [rbind]. rewrite (proj2 (Z.ltb_ge _ 4)) by lia.
    rewrite Lb, Z.sub_diag. reflexivity.
  - cbn [ch_value_length]. lia.
Qed.

Lemma data_no_panic raw : Forall byte_ok raw → no_panic (data_unmarshal raw).
Proof.
  intros Hb. unfold data_unmarshal. apply no_panic_bind; [by apply chunk_header_no_panic|]. intros h Hh.
  destruct (chunk_header_inv raw h Hb Hh) as (_ & Hl). unfold CHUNK_HEADER_SIZE, PAYLOAD_DATA_HEADER_SIZE in *.
  destruct (negb _); [done|]. destruct (Z.ltb_spec (len raw) (4 + 12)); [done|].
  destruct (Z.ltb_spec (ch_value_length h) 12); [done|].
  destruct (slice_ok raw 4 (4 + ch_value_length h)) as (r & -> & Lr & Sr); [lia..|]. cbn [rbind].
  assert (Forall byte_ok r) as Hr by (eapply Forall_submseteq; eauto).
  unfold get_u32, get_u16.
  destruct (get_uint_total 4 r Hr) as (? & r1 & -> & _ & _ & Hb1 & L1); [lia|]. cbn [rbind].
  destruct (get_uint_total 2 r1 Hb1) as (? & r2 & -> & _ & _ & Hb2 & L2); [lia|]. cbn [rbind].
  destruct (get_uint_total 2 r2 Hb2) as (? & r3 & -> & _ & _ & Hb3 & L3); [lia|]. cbn [rbind].
  destruct (get_uint_total 4 r3 Hb3) as (? & r4 & -> & _ & _ & Hb4 & L4); [lia|]. cbn [rbind].
  apply no_panic_bind; [apply slice_no_panic; lia|done].
Qed.

Lemma read_gaps_total n r :
  Forall byte_ok r → 4 * Z.of_nat n <= len r →
  ∃ gs r', read_gaps n r = Ok (gs, r') ∧ Forall byte_ok r' ∧ len r' = len r - 4 * Z.of_nat n.
Proof.
  revert r. induction n as [|n IH]; intros r Hr Hl; [exists [], r; split_and!; done || lia|].
  cbn [read_gaps]. unfold get_u16.
  destruct (get_uint_total 2 r Hr) as (? & r1 & -> & _ & _ & Hb1 & L1); [lia|]. cbn [rbind].
  destruct (get_uint_total 2 r1 Hb1) as (? & r2 & -> & _ & _ & Hb2 & L2); [lia|]. cbn [rbind].
  destruct (IH r2) as (gs & r' & -> & Hr' & Lr'); [done|lia|]. eexists _, _. split_and!; [done..|lia].
Qed.

Lemma read_tsns_total n r : Forall byte_ok r → 4 * Z.of_nat n <= len r → no_panic (read_tsns n r).
Proof.
  revert r. induction n as [|n IH]; intros r Hr Hl; [done|]. cbn [read_tsns]. unfold get_u32.
  destruct (get_uint_total 4 r Hr) as (? & r1 & -> & _ & _ & Hb1 & L1); [lia|]. cbn [rbind].
  apply no_panic_bind; [apply IH; [done|lia]|]. by intros [] _.
Qed.

Lemma sack_no_panic raw : Forall byte_ok raw → no_panic (sack_unmarshal raw).
Proof.
  intros Hb. unfold sack_unmarshal. apply no_panic_bind; [by apply chunk_header_no_panic|]. intros h Hh.
  destruct (chunk_header_inv raw h Hb Hh) as (_ & Hl). unfold CHUNK_HEADER_SIZE, SELECTIVE_ACK_HEADER_SIZE in *.
  destruct (negb _); [done|]. destruct (Z.ltb_spec (ch_value_length h) 12); [done|].
  destruct (Z.ltb_spec (len raw) (4 + 12)); [done|].
  destruct (slice_ok raw 4 (4 + ch_value_length h)) as (r & -> & Lr & Sr); [lia..|]. cbn [rbind].
  assert (Forall byte_ok r) as Hr by (eapply Forall_submseteq; eauto).
  unfold get_u32, get_u16.
  destruct (get_uint_total 4 r Hr) as (? & r1 & -> & _ & _ & Hb1 & L1); [lia|]. cbn [rbind].
  destruct (get_uint_total 4 r1 Hb1) as (? & r2 & -> & _ & _ & Hb2 & L2); [lia|]. cbn [rbind].
  destruct (get_uint_total 2 r2 Hb2) as (g & r3 & -> & [Fg _] & _ & Hb3 & L3); [lia|]. cbn [rbind].
  destruct (get_uint_total 2 r3 Hb3) as (d & r4 & -> & [Fd _] & _ & Hb4 & L4); [lia|]. cbn [rbind].
  destruct (Z.ltb_spec (ch_value_length h) (12 + 4 * g + 4 * d)); [done|].
  destruct (_ <? _); [done|].
  destruct (read_gaps_total (Z.to_nat g) r4) as (gs & r5 & -> & Hb5 & L5); [done|lia|]. cbn [rbind].
  apply no_panic_bind; [apply read_tsns_total; [done|lia]|]. by intros [] _.
Qed.

Lemma read_streams_no_panic fuel buf offset remaining :
  Forall byte_ok buf → 0 <= offset → 0 <= remaining < 2 ^ 64 → offset + remaining = len buf →
  remaining <= Z.of_nat fuel → no_panic (read_streams fuel buf (len buf) offset remaining).
Proof.
  intros Hb. revert offset remaining. induction fuel as [|fuel IH]; intros offset remaining Ho Hr Hl Hf;
    cbn [read_streams]; destruct (Z.leb_spec remaining 0); try done; [lia|].
  destruct (slice_ok buf offset (len buf)) as (b & -> & Lb & Sb); [lia..|]. cbn [rbind].
  assert (Forall byte_ok b) as Hb' by (eapply Forall_submseteq; eauto).
  cbn [chunk_unmarshal value_length fwd_stream_chunk].
  unfold fwd_stream_unmarshal, FORWARD_TSN_STREAM_LENGTH, get_u16.
  destruct (Z.ltb_spec (len b) 4); [done|].
  destruct (get_uint_total 2 b Hb') as (? & b1 & -> & _ & _ & Hb1 & L1); [lia|]. cbn [rbind].
  destruct (get_uint_total 2 b1 Hb1) as (? & b2 & -> & _ & _ & Hb2 & L2); [lia|]. cbn [rbind].
  apply no_panic_bind; [|done]. rewrite wrap_small by (unfold fits; lia). apply IH; lia.
Qed.

Lemma fwd_no_panic b h :
  Forall byte_ok b → len b < 2 ^ 64 → chunk_header_unmarshal b = Ok h →
  ch_value_length h = len b - CHUNK_HEADER_SIZE → no_panic (fwd_unmarshal b).
Proof.
  unfold CHUNK_HEADER_SIZE. intros Hb Hl Hh Hv. unfold fwd_unmarshal. rewrite Hh. cbn [rbind].
  unfold CHUNK_HEADER_SIZE, NEW_CUMULATIVE_TSN_LENGTH. destruct (negb _); [done|].
  destruct (Z.ltb_spec (len b) (4 + 4)); [done|]. rewrite Hv. replace (4 + (len b - 4)) with (len b) by lia.
  destruct (slice_ok b 4 (len b)) as (r & -> & Lr & Sr); [lia..|]. cbn [rbind].
  assert (Forall byte_ok r) as Hr by (eapply Forall_submseteq; eauto). unfold get_u32.
  destruct (get_uint_total 4 r Hr) as (? & r1 & -> & _ & _ & Hb1 & L1); [lia|]. cbn [rbind].
  apply no_panic_bind; [|done]. apply read_streams_no_panic; done || lia.
Qed.

Lemma shutdown_no_panic raw : Forall byte_ok raw → no_panic (shutdown_unmarshal raw).
Proof.
  intros Hb. unfold shutdown_unmarshal. apply no_panic_bind; [by apply chunk_header_no_panic|]. intros h Hh.
  destruct (chunk_header_inv raw h Hb Hh) as (_ & Hl). unfold CHUNK_HEADER_SIZE, CUMULATIVE_TSN_ACK_LENGTH in *.
  destruct (negb _); [done|]. destruct (Z.eqb_spec (ch_value_length h + 4) 8); [|done]. cbn [negb].
  destruct (negb _); [done|].
  destruct (slice_ok raw 4 (4 + ch_value_length h)) as (r & -> & Lr & Sr); [lia..|]. cbn [rbind].
  assert (Forall byte_ok r) as Hr by (eapply Forall_submseteq; eauto). unfold get_u32.
  by destruct (get_uint_total 4 r Hr) as (? & r1 & -> & _ & _ & Hb1 & L1); [lia|].
Qed.

Lemma cookie_echo_no_panic raw : Forall byte_ok raw → no_panic (cookie_echo_unmarshal raw).
Proof.
  intros Hb. unfold cookie_echo_unmarshal. apply no_panic_bind; [by apply chunk_header_no_panic|]. intros h Hh.
  destruct (chunk_header_inv raw h Hb Hh) as ((_ & _ & Hv) & Hl). unfold CHUNK_HEADER_SIZE in *.
  destruct (negb _); [done|]. apply no_panic_bind; [apply slice_no_panic; lia|done].
Qed.

End CodecLemmas.

(** * Properties *)

(** DATA, SACK, FORWARD-TSN, ERROR and ABORT chunks whose fields fit the wire format
    are written to exactly the announced number of bytes and read back unchanged; of a
    DATA chunk only the sender's bookkeeping is reset. *)
Theorem chunk_roundtrip `{BytesCrate} c s f es :
  data_ok c → sack_ok s → fwd_ok f → causes_ok es →
  (∃ bs, chunk_marshal c = Ok bs ∧ len bs = CHUNK_HEADER_SIZE + value_length c ∧ chunk_unmarshal bs = Ok (received c)) ∧
  (∃ bs, chunk_marshal s = Ok bs ∧ len bs = CHUNK_HEADER_SIZE + value_length s ∧ chunk_unmarshal bs = Ok s) ∧
  (∃ bs, chunk_marshal f = Ok bs ∧ len bs = CHUNK_HEADER_SIZE + value_length f ∧ chunk_unmarshal bs = Ok f) ∧
  (∃ bs, chunk_marshal (mkError es) = Ok bs ∧ chunk_unmarshal bs = Ok (mkError es)) ∧
  (∃ bs, chunk_marshal (mkAbort es) = Ok bs ∧ chunk_unmarshal bs = Ok (mkAbort es)).
Proof.
  intros Hc Hs Hf He. split_and!; [by apply data_roundtrip|by apply sack_roundtrip|by apply fwd_roundtrip|
               by apply error_roundtrip|by apply abort_roundtrip].
Qed.

(** Chunks cut out of a packet by [slice_chunk] are parsed without a panic, whatever
    the bytes are: DATA, SACK, FORWARD-TSN, SHUTDOWN and COOKIE-ECHO return a chunk or an
    error. *)
Theorem chunk_parsing_no_panic `{BytesCrate} raw offset :
  Forall byte_ok raw → len raw < 2 ^ 63 → 0 <= offset → offset + CHUNK_HEADER_SIZE <= len raw →
  no_panic (slice_chunk raw offset) ∧
  ∀ b, slice_chunk raw offset = Ok b →
    no_panic (data_unmarshal b) ∧ no_panic (sack_unmarshal b) ∧ no_panic (fwd_unmarshal b) ∧
    no_panic (shutdown_unmarshal b) ∧ no_panic (cookie_echo_unmarshal b).
Proof.
  intros Hb Hl Ho Hr. split; [by apply slice_chunk_no_panic|]. intros b E.
  destruct (slice_chunk_exact raw offset b Ho Hb E) as (Hb' & L & h & Hh & Hv).
  assert (len b < 2 ^ 64).
  { destruct (chunk_header_inv b h Hb' Hh) as ((_ & _ & ?) & _). unfold CHUNK_HEADER_SIZE in *. lia. }
  split_and!; [by apply data_no_panic|by apply sack_no_panic|by eapply fwd_no_panic|
               by apply shutdown_no_panic|by apply cookie_echo_no_panic].
Qed.

(** The header of a chunk that holds one error cause. *)
Definition cause_chunk `{BytesCrate} (typ code l : Z) (info : bytes) : bytes :=
  chunk_header_bytes (mkChunkHeader typ 0 (4 + len info)) ++ put_uint 2 code ++ put_uint 2 l ++ info.

Lemma cause_overrun `{BytesCrate} typ code l info :
  fits 8 typ → fits 16 code → len info < 60000 → 4 + len info < l < 65536 →
  let raw := cause_chunk typ code l info in
  let h := mkChunkHeader typ 0 (4 + len info) in
  chunk_header_unmarshal raw = Ok h ∧
  read_causes (length raw) raw (CHUNK_HEADER_SIZE + ch_value_length h) CHUNK_HEADER_SIZE = Panic.
Proof.
  intros Ht Hc Hi Hl raw h. pose proof (len_nonneg info).
  assert (len raw = 8 + len info) as L by (unfold raw, cause_chunk; rewrite len_app, len_chunk_header_bytes;
    unfold CHUNK_HEADER_SIZE; autorewrite with len; lia).
  split.
  - apply chunk_header_read; [|unfold h; cbn [ch_value_length]; autorewrite with len; lia].
    unfold h. split_and!; [done|by vm_compute|cbn [ch_value_length]; lia..].
  - destruct (length raw) as [|n] eqn:En; [unfold len in L; lia|]. cbn [read_causes ch_value_length].
    unfold CHUNK_HEADER_SIZE. rewrite (proj2 (Z.ltb_ge _ _)) by lia.
    unfold raw at 1, cause_chunk. rewrite slice_tail; [|by rewrite len_chunk_header_bytes|
      rewrite len_app, len_chunk_header_bytes; unfold h, CHUNK_HEADER_SIZE; cbn [ch_value_length];
        autorewrite with len; lia].
    cbn [rbind]. unfold error_cause_unmarshal, ERROR_CAUSE_HEADER_LENGTH.
    rewrite (proj2 (Z.ltb_ge _ 4)) by (autorewrite with len; lia). unfold get_u16.
    rewrite get_put_uint by done. cbn [rbind]. rewrite get_put_uint by (unfold fits; simpl; lia). cbn [rbind].
    rewrite (proj2 (Z.ltb_ge _ 4)) by lia. unfold slice, assert_.
    rewrite (proj2 (Z.leb_gt _ (len _))) by (autorewrite with len; lia). by rewrite andb_false_r.
Qed.

(** An ERROR or ABORT chunk with a cause that announces more bytes than the chunk
    holds makes the parser panic: [ErrorCause::unmarshal] slices the buffer at the
    announced length without a check. *)
Theorem error_cause_overrun_panics `{BytesCrate} code l info :
  fits 16 code → len info < 60000 → 4 + len info < l < 65536 →
  error_unmarshal (cause_chunk CT_ERROR code l info) = Panic ∧
  abort_unmarshal (cause_chunk CT_ABORT code l info) = Panic.
Proof.
  intros Hc Hi Hl.
  destruct (cause_overrun CT_ERROR code l info) as [E1 E2]; [by vm_compute|done..|].
  destruct (cause_overrun CT_ABORT code l info) as [A1 A2]; [by vm_compute|done..|].
  unfold error_unmarshal, abort_unmarshal. rewrite E1, A1. cbn [rbind ch_typ].
  rewrite !Z.eqb_refl. cbn [negb]. by rewrite E2, A2.
Qed.

(** A packet with one chunk that is an INIT header and [value]; its checksum is right. *)
Definition init_packet `{BytesCrate} `{Crc32c} (sp dp tag : Z) (value : bytes) : bytes :=
  let head := put_uint 2 sp ++ put_uint 2 dp ++ put_uint 4 tag in
  let chunk := chunk_header_bytes (mkChunkHeader CT_INIT 0 (len value)) ++ value in
  let sum := crc32c_append (crc32c_append (crc32c_append 0 head) [0; 0; 0; 0]) chunk in
  head ++ reverse (put_uint 4 sum) ++ chunk.

(** A packet with a correct checksum whose only chunk is an INIT too short for its
    initiate tag panics in [PartialDecode::unmarshal], the first thing the endpoint does
    with a datagram. *)
Theorem short_init_panics `{BytesCrate} `{Crc32c} sp dp tag value :
  (∀ x l, fits 32 (crc32c_append x l)) →
  fits 16 sp → fits 16 dp → fits 32 tag → len value < 4 →
  partial_unmarshal (init_packet sp dp tag value) = Panic.
Proof.
  intros Hcrc Hs Hd Ht Hv. pose proof (len_nonneg value). unfold init_packet.
  set (head := put_uint 2 sp ++ put_uint 2 dp ++ put_uint 4 tag).
  set (h := mkChunkHeader CT_INIT 0 (len value)). set (chunk := chunk_header_bytes h ++ value).
  set (sum := crc32c_append _ chunk). set (ck := reverse (put_uint 4 sum)).
  assert (len head = 8) as Lh by (unfold head; by autorewrite with len).
  assert (len ck = 4) as Lc by (unfold ck, len; by rewrite length_reverse, put_uint_length).
  assert (len chunk = 4 + len value) as Lk by (unfold chunk; by rewrite len_app, len_chunk_header_bytes).
  assert (len (head ++ ck ++ chunk) = 16 + len value) as L by (rewrite !len_app; lia).
  unfold partial_unmarshal. rewrite L. unfold PACKET_HEADER_SIZE, CHUNK_HEADER_SIZE.
  rewrite (proj2 (Z.ltb_ge _ 12)) by lia.
  assert (generate_packet_checksum (head ++ ck ++ chunk) = Ok sum) as Hg.
  { unfold generate_packet_checksum. rewrite slice_head_eq by done. cbn [rbind].
    rewrite (app_assoc head ck), slice_tail by (rewrite ?len_app, ?Lh, ?Lc; done). done. }
  unfold head at 1, get_u16, get_u32. rewrite <- !app_assoc, get_put_uint by done. cbn [rbind].
  rewrite get_put_uint by done. cbn [rbind]. rewrite get_put_uint by done. cbn [rbind].
  assert (get_u32_le (ck ++ chunk) = Ok (sum, chunk)) as ->.
  { unfold get_u32_le. rewrite <- Lc, copy_to_bytes_app. cbn [rbind]. unfold ck, get_u32.
    rewrite reverse_involutive, <- (app_nil_r (put_uint 4 sum)), get_put_uint by apply Hcrc. done. }
  cbn [rbind]. rewrite Hg. cbn [rbind]. rewrite Z.eqb_refl. cbn [negb].
  rewrite Lk, (proj2 (Z.ltb_ge _ 4)) by lia.
  unfold chunk at 1. rewrite chunk_header_read; [|split_and!; [by vm_compute..|unfold h; cbn [ch_value_length]; lia
    |unfold h; cbn [ch_value_length]; lia]|done]. cbn [rbind].
  unfold chunk at 1. replace 4 with (len (chunk_header_bytes h)) at 1 by apply len_chunk_header_bytes.
  rewrite copy_to_bytes_app. cbn [rbind]. unfold h at 1. cbn [ch_typ]. rewrite Z.eqb_refl. cbn [orb].
  by rewrite get_uint_short by (unfold len in *; lia).
Qed.

(** ** Witnesses *)

Section Witnesses.
#[local] Existing Instance BigEndian.big_endian.

Definition data_example : ChunkPayloadData :=
  mkData true true false false 4294967295 7 65535 Binary [1; 2; 3] false 0 None 2 true false true.
Definition sack_example : ChunkSelectiveAck := mkSack 10 1500 [mkGap 2 3; mkGap 5 5] [9; 10].
Definition fwd_example : ChunkForwardTsn := mkFwd 12 [mkFwdStream 1 2; mkFwdStream 3 4].

Lemma chunk_roundtrip_witness :
  ∃ bs, chunk_marshal data_example = Ok bs ∧ bs = [0; 6; 0; 19; 255; 255; 255; 255; 0; 7; 255; 255; 0; 0; 0; 53; 1; 2; 3] ∧
        chunk_unmarshal bs = Ok (received data_example).
Proof.
  destruct (chunk_roundtrip data_example sack_example fwd_example [mkErrorCause 13 [1; 2; 3]])
    as ((bs & E1 & _ & E2) & _);
    [split_and!; vm_compute; intuition congruence|split_and!; repeat constructor; vm_compute; intuition congruence
    |split_and!; repeat constructor; vm_compute; intuition congruence
    |split; repeat constructor; vm_compute; intuition congruence|].
  exists bs. split_and!; [done| |done]. vm_compute in E1. congruence.
Defined.

Lemma chunk_parsing_no_panic_witness :
  slice_chunk [192; 0; 0; 9; 0; 0; 0; 1; 5] 0 = Ok [192; 0; 0; 9; 0; 0; 0; 1; 5] ∧
  no_panic (fwd_unmarshal [192; 0; 0; 9; 0; 0; 0; 1; 5]).
Proof.
  assert (slice_chunk [192; 0; 0; 9; 0; 0; 0; 1; 5] 0 = Ok [192; 0; 0; 9; 0; 0; 0; 1; 5]) as E by reflexivity.
  split; [done|].
  destruct (chunk_parsing_no_panic [192; 0; 0; 9; 0; 0; 0; 1; 5] 0) as [_ HH];
    [repeat constructor; vm_compute; intuition congruence|done|lia|by vm_compute|].
  apply (HH _ E).
Defined.

Lemma error_cause_overrun_panics_witness :
  cause_chunk CT_ABORT 13 200 [] = [6; 0; 0; 8; 0; 13; 0; 200] ∧
  abort_unmarshal (cause_chunk CT_ABORT 13 200 []) = Panic.
Proof.
  split; [reflexivity|]. apply (error_cause_overrun_panics 13 200 []); [by vm_compute|by vm_compute|vm_compute; intuition congruence].
Defined.

(** A checksum with the CRC's interface: the sum of the bytes. *)
Definition toy_crc : Crc32c := λ x l, u32 (x + foldl Z.add 0 l).
#[local] Existing Instance toy_crc.

Lemma short_init_panics_witness :
  init_packet 5000 5000 0 [] = [19; 136; 19; 136; 0; 0; 0; 0; 59; 1; 0; 0; 1; 0; 0; 4] ∧
  partial_unmarshal (init_packet 5000 5000 0 []) = Panic.
Proof.
  split; [reflexivity|]. apply short_init_panics; [|by vm_compute..].
  intros x l. apply wrap_fits. lia.
Defined.

End Witnesses.
