(* ===== verification/SctpQueue.v ===== *)
(** The queues of an SCTP association, [rtc-sctp/src/queue], and the serial number
    arithmetic of [util.rs] they are built on: [PayloadQueue] holds chunks by TSN on both
    sides of the wire, [PendingQueue] the chunks that wait for a TSN. *)

From Stdlib Require Import Sorting.Sorted.
From S2P Require Import Prelude SctpChunk.

(** * Serial number arithmetic (RFC 1982) *)

Definition sna32lt (i1 i2 : Z) : bool :=
  ((i1 <? i2) && (i2 - i1 <? Z.shiftl 1 31)) || ((i2 <? i1) && (Z.shiftl 1 31 <? i1 - i2)).
Definition sna32lte (i1 i2 : Z) : bool := (i1 =? i2) || sna32lt i1 i2.
Definition sna32gt (i1 i2 : Z) : bool :=
  ((i1 <? i2) && (Z.shiftl 1 31 <=? i2 - i1)) || ((i2 <? i1) && (i1 - i2 <=? Z.shiftl 1 31)).
Definition sna32gte (i1 i2 : Z) : bool := (i1 =? i2) || sna32gt i1 i2.

Definition sna16lt (i1 i2 : Z) : bool :=
  ((i1 <? i2) && (i2 - i1 <? Z.shiftl 1 15)) || ((i2 <? i1) && (Z.shiftl 1 15 <? i1 - i2)).
Definition sna16lte (i1 i2 : Z) : bool := (i1 =? i2) || sna16lt i1 i2.
Definition sna16gt (i1 i2 : Z) : bool :=
  ((i1 <? i2) && (Z.shiftl 1 15 <=? i2 - i1)) || ((i2 <? i1) && (i1 - i2 <=? Z.shiftl 1 15)).
Definition sna16gte (i1 i2 : Z) : bool := (i1 =? i2) || sna16gt i1 i2.

(** Case analysis on every comparison of a serial number test. *)
Ltac sna_cases :=
  repeat match goal with
  | |- context [?a <? ?b] => destruct (Z.ltb_spec a b)
  | |- context [?a <=? ?b] => destruct (Z.leb_spec a b)
  | |- context [?a =? ?b] => destruct (Z.eqb_spec a b)
  end; cbn [andb orb negb]; try reflexivity; exfalso; lia.

(** A wrapped number as its value and a multiple of the modulus. *)
Ltac unwrap x :=
  let q := fresh "q" in let r := fresh "r" in let E := fresh "E" in
  pose proof (Z.div_mod x 4294967296 ltac:(lia)) as E;
  pose proof (Z.mod_pos_bound x 4294967296 ltac:(lia));
  set (q := x / 4294967296) in *; set (r := x mod 4294967296) in *; clearbody q r.
Ltac unwrap16 x :=
  let q := fresh "q" in let r := fresh "r" in let E := fresh "E" in
  pose proof (Z.div_mod x 65536 ltac:(lia)) as E;
  pose proof (Z.mod_pos_bound x 65536 ltac:(lia));
  set (q := x / 65536) in *; set (r := x mod 65536) in *; clearbody q r.

Lemma sna32lt_spec x y : Z.abs (x - y) < 2 ^ 31 → sna32lt (u32 x) (u32 y) = (x <? y).
Proof.
  intros H. unfold sna32lt, wrap. change (Z.shiftl 1 31) with 2147483648.
  change (2 ^ 32) with 4294967296. change (2 ^ 31) with 2147483648 in H. unwrap x. unwrap y. sna_cases.
Qed.

Lemma sna32gt_spec x y : Z.abs (x - y) < 2 ^ 31 → sna32gt (u32 x) (u32 y) = (y <? x).
Proof.
  intros H. unfold sna32gt, wrap. change (Z.shiftl 1 31) with 2147483648.
  change (2 ^ 32) with 4294967296. change (2 ^ 31) with 2147483648 in H. unwrap x. unwrap y. sna_cases.
Qed.

Lemma u32_inj x y : Z.abs (x - y) < 2 ^ 32 → u32 x = u32 y → x = y.
Proof. unfold wrap. change (2 ^ 32) with 4294967296. intros H E. unwrap x. unwrap y. lia. Qed.

Lemma u32_eqb x y : Z.abs (x - y) < 2 ^ 32 → (u32 x =? u32 y) = (x =? y).
Proof.
  intros H. destruct (Z.eqb_spec x y) as [->|n]; [apply Z.eqb_refl|].
  apply Z.eqb_neq. intros E. by apply n, u32_inj.
Qed.

Lemma sna32lte_spec x y : Z.abs (x - y) < 2 ^ 31 → sna32lte (u32 x) (u32 y) = (x <=? y).
Proof.
  intros H. unfold sna32lte. rewrite sna32lt_spec, u32_eqb by lia.
  destruct (Z.eqb_spec x y), (Z.ltb_spec x y), (Z.leb_spec x y); done || lia.
Qed.

Lemma sna32gte_spec x y : Z.abs (x - y) < 2 ^ 31 → sna32gte (u32 x) (u32 y) = (y <=? x).
Proof.
  intros H. unfold sna32gte. rewrite sna32gt_spec, u32_eqb by lia.
  destruct (Z.eqb_spec x y), (Z.ltb_spec y x), (Z.leb_spec y x); done || lia.
Qed.

Lemma sna16lt_spec x y : Z.abs (x - y) < 2 ^ 15 → sna16lt (u16 x) (u16 y) = (x <? y).
Proof.
  intros H. unfold sna16lt, wrap. change (Z.shiftl 1 15) with 32768.
  change (2 ^ 16) with 65536. change (2 ^ 15) with 32768 in H. unwrap16 x. unwrap16 y. sna_cases.
Qed.

Lemma sna16gt_spec x y : Z.abs (x - y) < 2 ^ 15 → sna16gt (u16 x) (u16 y) = (y <? x).
Proof.
  intros H. unfold sna16gt, wrap. change (Z.shiftl 1 15) with 32768.
  change (2 ^ 16) with 65536. change (2 ^ 15) with 32768 in H. unwrap16 x. unwrap16 y. sna_cases.
Qed.

Lemma u16_inj x y : Z.abs (x - y) < 2 ^ 16 → u16 x = u16 y → x = y.
Proof. unfold wrap. change (2 ^ 16) with 65536. intros H E. unwrap16 x. unwrap16 y. lia. Qed.

Lemma u16_eqb x y : Z.abs (x - y) < 2 ^ 16 → (u16 x =? u16 y) = (x =? y).
Proof.
  intros H. destruct (Z.eqb_spec x y) as [->|n]; [apply Z.eqb_refl|].
  apply Z.eqb_neq. intros E. by apply n, u16_inj.
Qed.

Lemma sna16lte_spec x y : Z.abs (x - y) < 2 ^ 15 → sna16lte (u16 x) (u16 y) = (x <=? y).
Proof.
  intros H. unfold sna16lte. rewrite sna16lt_spec, u16_eqb by lia.
  destruct (Z.eqb_spec x y), (Z.ltb_spec x y), (Z.leb_spec x y); done || lia.
Qed.

Lemma sna16gte_spec x y : Z.abs (x - y) < 2 ^ 15 → sna16gte (u16 x) (u16 y) = (y <=? x).
Proof.
  intros H. unfold sna16gte. rewrite sna16gt_spec, u16_eqb by lia.
  destruct (Z.eqb_spec x y), (Z.ltb_spec y x), (Z.leb_spec y x); done || lia.
Qed.

(** * [partition_point] of slices and [VecDeque]s: a binary search *)

Fixpoint bisect {A} (pred : A → bool) (l : list A) (fuel base size : nat) : nat :=
  match fuel with
  | O => base
  | S fuel =>
      if (size <=? 1)%nat then base
      else
        let half := (size / 2)%nat in
        let mid := (base + half)%nat in
        let base := if default false (pred <$> l !! mid) then mid else base in
        bisect pred l fuel base (size - half)
  end.

Definition partition_point {A} (pred : A → bool) (l : list A) : nat :=
  match l with
  | [] => O
  | _ =>
      let base := bisect pred l (length l) 0 (length l) in
      if default false (pred <$> l !! base) then S base else base
  end.

(** [Vec::insert] *)
Definition insert_at {A} (i : nat) (x : A) (l : list A) : list A := take i l ++ x :: drop i l.

Section PartitionPoint.
Context {A : Type} (pred : A → bool) (a b : list A).
Hypothesis Ha : Forall (λ x, pred x = true) a.
Hypothesis Hb : Forall (λ x, pred x = false) b.

Lemma probe i : default false (pred <$> (a ++ b) !! i) = bool_decide (i < length a)%nat.
Proof.
  destruct (decide (i < length a)%nat) as [Hi|Hi].
  - rewrite bool_decide_eq_true_2 by done. rewrite lookup_app_l by done.
    destruct (lookup_lt_is_Some_2 a i Hi) as [x Hx]. rewrite Hx. simpl.
    by eapply Forall_lookup_1 in Ha.
  - rewrite bool_decide_eq_false_2 by done. rewrite lookup_app_r by lia.
    destruct (b !! (i - length a)%nat) as [x|] eqn:Hx; [|done]. simpl. by eapply Forall_lookup_1 in Hb.
Qed.

Lemma bisect_spec fuel base size :
  (1 ≤ size ≤ S fuel)%nat → (base + size ≤ length (a ++ b))%nat → (base ≤ length a ≤ base + size)%nat →
  let r := bisect pred (a ++ b) fuel base size in (r ≤ length a ≤ S r)%nat ∧ (r < length (a ++ b))%nat.
Proof.
  revert base size. induction fuel as [|fuel IH]; intros base size Hs Hl Hr; cbn [bisect]; cbn zeta; [lia|].
  destruct (Nat.leb_spec size 1); [lia|]. rewrite probe.
  pose proof (Nat.div_mod size 2 ltac:(lia)). pose proof (Nat.mod_upper_bound size 2 ltac:(lia)).
  destruct (bool_decide _) eqn:E; [apply bool_decide_eq_true_1 in E|apply bool_decide_eq_false_1 in E];
    apply IH; lia.
Qed.

Lemma partition_point_spec : partition_point pred (a ++ b) = length a.
Proof.
  destruct (decide (length (a ++ b) = 0)%nat) as [E0|Hne].
  - apply nil_length_inv in E0. rewrite E0. apply app_eq_nil in E0 as [-> _]. done.
  - assert (partition_point pred (a ++ b) =
      let base := bisect pred (a ++ b) (length (a ++ b)) 0 (length (a ++ b)) in
      if default false (pred <$> (a ++ b) !! base) then S base else base) as ->
      by (destruct (a ++ b); done).
    destruct (bisect_spec (length (a ++ b)) 0 (length (a ++ b))) as [H1 H2]; [lia..| |].
    { rewrite length_app. lia. }
    cbn zeta. rewrite probe. set (r := bisect _ _ _ _ _) in *.
    destruct (bool_decide _) eqn:E; [apply bool_decide_eq_true_1 in E|apply bool_decide_eq_false_1 in E]; lia.
Qed.

Lemma insert_at_partition x : insert_at (partition_point pred (a ++ b)) x (a ++ b) = a ++ x :: b.
Proof. rewrite partition_point_spec. unfold insert_at. by rewrite take_app_length, drop_app_length. Qed.

End PartitionPoint.

(** * [PayloadQueue] *)

Record PayloadQueue := mkPQ {
  chunk_map : gmap Z ChunkPayloadData;
  sorted : list Z;
  dup_tsn : list Z;
  pq_n_bytes : Z
}.

Definition pq_new : PayloadQueue := mkPQ ∅ [] [] 0.

Definition insert_sorted (t : Z) (l : list Z) : list Z :=
  insert_at (partition_point (λ x, sna32lt x t) l) t l.

Definition can_push (q : PayloadQueue) (p : ChunkPayloadData) (cumulative_tsn : Z) : bool :=
  negb (bool_decide (is_Some (chunk_map q !! tsn p)) || sna32lte (tsn p) cumulative_tsn).

Definition push_no_check (q : PayloadQueue) (p : ChunkPayloadData) : PayloadQueue :=
  mkPQ (<[tsn p := p]> (chunk_map q)) (insert_sorted (tsn p) (sorted q)) (dup_tsn q)
    (u64 (pq_n_bytes q + len (user_data p))).

Definition push (q : PayloadQueue) (p : ChunkPayloadData) (cumulative_tsn : Z) : bool * PayloadQueue :=
  if bool_decide (is_Some (chunk_map q !! tsn p)) || sna32lte (tsn p) cumulative_tsn then
    (false, mkPQ (chunk_map q) (sorted q) (dup_tsn q ++ [tsn p]) (pq_n_bytes q))
  else
    (true, mkPQ (<[tsn p := p]> (chunk_map q)) (insert_sorted (tsn p) (sorted q)) (dup_tsn q)
             (u64 (pq_n_bytes q + len (user_data p)))).

Definition pop (q : PayloadQueue) (t : Z) : option ChunkPayloadData * PayloadQueue :=
  match sorted q with
  | front :: rest =>
      if front =? t then
        match chunk_map q !! t with
        | Some c => (Some c, mkPQ (delete t (chunk_map q)) rest (dup_tsn q)
                               (u64 (pq_n_bytes q - len (user_data c))))
        | None => (None, mkPQ (chunk_map q) rest (dup_tsn q) (pq_n_bytes q))
        end
      else (None, q)
  | [] => (None, q)
  end.

Definition pq_get (q : PayloadQueue) (t : Z) : option ChunkPayloadData := chunk_map q !! t.

Definition pop_duplicates (q : PayloadQueue) : list Z * PayloadQueue :=
  (dup_tsn q, mkPQ (chunk_map q) (sorted q) [] (pq_n_bytes q)).

(** The loop of [get_gap_ack_blocks] after its first iteration: the open block is [b]. *)
Fixpoint gap_loop (cumulative_tsn : Z) (b : GapAckBlock) (l : list Z) : list GapAckBlock :=
  match l with
  | [] => [b]
  | t :: l =>
      let diff := if cumulative_tsn <=? t then u16 (t - cumulative_tsn) else 0 in
      if u16 (gap_end b + 1) =? diff
      then gap_loop cumulative_tsn (mkGap (gap_start b) (u16 (gap_end b + 1))) l
      else b :: gap_loop cumulative_tsn (mkGap diff diff) l
  end.

Definition get_gap_ack_blocks (q : PayloadQueue) (cumulative_tsn : Z) : list GapAckBlock :=
  if bool_decide (chunk_map q = ∅) then []
  else match sorted q with
  | [] => [mkGap 0 0]
  | t :: l =>
      let diff := if cumulative_tsn <=? t then u16 (t - cumulative_tsn) else 0 in
      gap_loop cumulative_tsn (mkGap diff diff) l
  end.

Definition ack_chunk (c : ChunkPayloadData) : ChunkPayloadData :=
  mkData (unordered c) (beginning_fragment c) (ending_fragment c) (immediate_sack c) (tsn c)
    (stream_identifier c) (stream_sequence_number c) (payload_type c) [] true
    (miss_indicator c) (since c) (nsent c) (abandoned_flag c) (all_inflight c) false.

Definition mark_as_acked (q : PayloadQueue) (t : Z) : Z * PayloadQueue :=
  match chunk_map q !! t with
  | Some c =>
      let n := len (user_data c) in
      (n, mkPQ (<[t := ack_chunk c]> (chunk_map q)) (sorted q) (dup_tsn q) (u64 (pq_n_bytes q - n)))
  | None => (0, q)
  end.

Definition get_last_tsn_received (q : PayloadQueue) : option Z := last (sorted q).

Definition retransmit_chunk (c : ChunkPayloadData) : ChunkPayloadData :=
  if acked c || abandoned c then c
  else mkData (unordered c) (beginning_fragment c) (ending_fragment c) (immediate_sack c) (tsn c)
         (stream_identifier c) (stream_sequence_number c) (payload_type c) (user_data c) (acked c)
         (miss_indicator c) (since c) (nsent c) (abandoned_flag c) (all_inflight c) true.

Definition mark_all_to_retrasmit (q : PayloadQueue) : PayloadQueue :=
  mkPQ (retransmit_chunk <$> chunk_map q) (sorted q) (dup_tsn q) (pq_n_bytes q).

Definition pq_len (q : PayloadQueue) : Z := Z.of_nat (size (chunk_map q)).
Definition pq_is_empty (q : PayloadQueue) : bool := pq_len q =? 0.

(** ** The receiver's use of the queue, in [association/mod.rs] *)

(** [while self.payload_queue.pop(self.peer_last_tsn + 1).is_some() { self.peer_last_tsn += 1 }];
    every iteration removes a chunk, so the length of the queue bounds them. *)
Fixpoint advance_loop (fuel : nat) (q : PayloadQueue) (peer_last_tsn : Z) : PayloadQueue * Z :=
  match fuel with
  | O => (q, peer_last_tsn)
  | S fuel =>
      match pop q (u32 (peer_last_tsn + 1)) with
      | (Some _, q) => advance_loop fuel q (u32 (peer_last_tsn + 1))
      | (None, q) => (q, peer_last_tsn)
      end
  end.

Definition advance (q : PayloadQueue) (peer_last_tsn : Z) : PayloadQueue * Z :=
  advance_loop (S (length (sorted q))) q peer_last_tsn.

(** The part of [handle_data] that decides about a chunk and records it: whether its stream
    exists or can be created and the window credit are inputs.  [None]: the chunk was
    discarded for want of a stream, and nothing else happens. *)
Definition store_data (stream_ok : bool) (credit : Z) (q : PayloadQueue) (peer_last_tsn : Z)
    (d : ChunkPayloadData) : option (bool * PayloadQueue) :=
  if can_push q d peer_last_tsn then
    if stream_ok then
      if 0 <? credit then Some (true, snd (push q d peer_last_tsn))
      else match get_last_tsn_received q with
           | Some last_tsn =>
               if sna32lt (tsn d) last_tsn then Some (true, snd (push q d peer_last_tsn)) else Some (false, q)
           | None => Some (false, q)
           end
    else None
  else Some (false, q).

(** What [handle_data] does to the queue and the cumulative TSN: the chunk is stored or not,
    and the cumulative TSN moves.  The flag says whether the chunk is also passed to its
    stream. *)
Definition receive_data (stream_ok : bool) (credit : Z) (s : PayloadQueue * Z) (d : ChunkPayloadData)
    : bool * (PayloadQueue * Z) :=
  match store_data stream_ok credit (fst s) (snd s) d with
  | Some (stored, q) => (stored, advance q (snd s))
  | None => (false, s)
  end.

(** The loop of [handle_forward_tsn]: [while sna32lt(self.peer_last_tsn, new_cumulative_tsn)];
    [forward_tsn] gives it one iteration per TSN that is skipped. *)
Fixpoint forward_loop (fuel : nat) (new_cumulative_tsn : Z) (q : PayloadQueue) (peer_last_tsn : Z)
    : PayloadQueue * Z :=
  match fuel with
  | O => (q, peer_last_tsn)
  | S fuel =>
      if sna32lt peer_last_tsn new_cumulative_tsn
      then forward_loop fuel new_cumulative_tsn (snd (pop q (u32 (peer_last_tsn + 1)))) (u32 (peer_last_tsn + 1))
      else (q, peer_last_tsn)
  end.

(** The receiver's queue and cumulative TSN after a FORWARD-TSN chunk was accepted; what
    [handle_forward_tsn] does to the streams is [forward_tsn_for_ordered] and
    [forward_tsn_for_unordered] of the reassembly queues, and is not repeated here. *)
Definition forward_tsn (s : PayloadQueue * Z) (new_cumulative_tsn : Z) : PayloadQueue * Z :=
  if sna32lte new_cumulative_tsn (snd s) then s
  else
    let (q, l) := forward_loop (Z.to_nat (u32 (new_cumulative_tsn - snd s))) new_cumulative_tsn (fst s) (snd s) in
    advance q l.

(** ** The queue's invariant

    [pq_rel q cum ds]: the queue holds the TSNs [ds], numbers that do not wrap, in
    increasing order, all above [cum] and less than half the TSN space ahead of it. *)

Definition data_bytes (m : gmap Z ChunkPayloadData) : Z :=
  map_fold (λ _ c acc, len (user_data c) + acc) 0 m.

Record pq_rel (q : PayloadQueue) (cum : Z) (ds : list Z) : Prop := {
  rel_sorted : sorted q = u32 <$> ds;
  rel_order : StronglySorted Z.lt ds;
  rel_window : Forall (λ d, cum < d < cum + 2 ^ 31) ds;
  rel_keys t : is_Some (chunk_map q !! t) ↔ t ∈ sorted q;
  rel_tsn t c : chunk_map q !! t = Some c → tsn c = t;
  rel_bytes : pq_n_bytes q = u64 (data_bytes (chunk_map q))
}.

Lemma data_bytes_insert m t c :
  m !! t = None → data_bytes (<[t := c]> m) = len (user_data c) + data_bytes m.
Proof. intros Ht. unfold data_bytes. by rewrite map_fold_insert_L by (done || intros; lia). Qed.

Lemma data_bytes_delete m t c :
  m !! t = Some c → data_bytes m = len (user_data c) + data_bytes (delete t m).
Proof.
  intros Ht. rewrite <- (insert_delete_id m t c Ht) at 1. apply data_bytes_insert, lookup_delete_eq.
Qed.

Lemma u64_add_r a b : u64 (u64 a + b) = u64 (b + a).
Proof. unfold wrap. rewrite Z.add_mod_idemp_l by lia. f_equal. lia. Qed.

Lemma u64_sub_cancel a b : u64 (u64 (a + b) - a) = u64 b.
Proof. unfold wrap. rewrite Zminus_mod_idemp_l. f_equal. lia. Qed.

(** A strictly increasing list splits around a number it does not hold. *)
Lemma sorted_split x ds :
  StronglySorted Z.lt ds → x ∉ ds →
  ∃ a b, ds = a ++ b ∧ Forall (λ d, d < x) a ∧ Forall (λ d, x < d) b.
Proof.
  induction 1 as [|d ds Hds IH Hd]; intros Hx; [by exists [], []|].
  apply not_elem_of_cons in Hx as [Hne Hx]. destruct (Z.lt_ge_cases d x) as [Hlt|Hge].
  - destruct (IH Hx) as (a & b & -> & Ha & Hb). exists (d :: a), b. split_and!; [done|by constructor|done].
  - exists [], (d :: ds). split_and!; [done|done|]. constructor; [lia|].
    eapply Forall_impl; [exact Hd|]. simpl. lia.
Qed.

Lemma sorted_insert x a b :
  StronglySorted Z.lt (a ++ b) → Forall (λ d, d < x) a → Forall (λ d, x < d) b →
  StronglySorted Z.lt (a ++ x :: b).
Proof.
  induction a as [|d a IH]; intros Hs Ha Hb; simpl in *; [by constructor|].
  inversion Hs as [|? ? Hs' Hd]; subst. inversion Ha; subst. constructor; [by apply IH|].
  apply Forall_app in Hd as [Hda Hdb]. apply Forall_app. split; [done|]. by constructor.
Qed.

Section PayloadQueueLemmas.
Context (q : PayloadQueue) (cum : Z) (ds : list Z).
Hypothesis R : pq_rel q cum ds.

Lemma rel_in_sorted x :
  cum - 2 ^ 31 < x < cum + 2 ^ 31 → u32 x ∈ sorted q ↔ x ∈ ds.
Proof.
  intros Hx. rewrite (rel_sorted _ _ _ R), list_elem_of_fmap. split; [|by eauto].
  intros (d & E & Hd). pose proof (rel_window _ _ _ R) as Hw. rewrite Forall_forall in Hw.
  specialize (Hw d Hd). by rewrite (u32_inj x d) by (done || lia).
Qed.

Lemma rel_insert_sorted x :
  cum < x < cum + 2 ^ 31 → x ∉ ds →
  ∃ a b, ds = a ++ b ∧ Forall (λ d, d < x) a ∧ Forall (λ d, x < d) b ∧
         insert_sorted (u32 x) (sorted q) = u32 <$> (a ++ x :: b).
Proof.
  intros Hx Hn. destruct (sorted_split x ds (rel_order _ _ _ R) Hn) as (a & b & -> & Ha & Hb).
  exists a, b. split_and!; [done..|]. unfold insert_sorted. rewrite (rel_sorted _ _ _ R), !fmap_app.
  pose proof (rel_window _ _ _ R) as [Hwa Hwb]%Forall_app. rewrite !Forall_forall in *.
  rewrite insert_at_partition; [done|..]; apply Forall_fmap, Forall_forall; intros d Hd; simpl;
    rewrite sna32lt_spec.
  - apply Z.ltb_lt. auto.
  - specialize (Hwa d Hd). lia.
  - apply Z.ltb_ge. specialize (Hb d Hd). lia.
  - specialize (Hwb d Hd). lia.
Qed.

(** Storing a new chunk, by [push] or [push_no_check]. *)
Lemma rel_store x p :
  cum < x < cum + 2 ^ 31 → x ∉ ds → tsn p = u32 x →
  ∃ a b, ds = a ++ b ∧ Forall (λ d, d < x) a ∧ Forall (λ d, x < d) b ∧
         pq_rel (push_no_check q p) cum (a ++ x :: b).
Proof.
  intros Hx Hn Hp. destruct (rel_insert_sorted x Hx Hn) as (a & b & E & Ha & Hb & Ei).
  exists a, b. split_and!; [done..|]. unfold push_no_check. rewrite Hp.
  assert (chunk_map q !! u32 x = None) as Hnone.
  { apply eq_None_not_Some. rewrite (rel_keys _ _ _ R), rel_in_sorted by lia. done. }
  pose proof (rel_order _ _ _ R) as Ho. pose proof (rel_window _ _ _ R) as Hw. rewrite E in Ho, Hw.
  split; cbn [sorted chunk_map dup_tsn pq_n_bytes].
  - done.
  - by apply sorted_insert.
  - apply Forall_app in Hw as [Hwa Hwb]. apply Forall_app. split; [done|]. by constructor.
  - intros t. rewrite Ei, fmap_app, fmap_cons, elem_of_app, elem_of_cons.
    rewrite lookup_insert_is_Some, (rel_keys _ _ _ R t), (rel_sorted _ _ _ R), E, fmap_app, elem_of_app.
    split; [intuition congruence|]. destruct (decide (u32 x = t)); intuition congruence.
  - intros t c [[<- <-]|[_ Hc]]%lookup_insert_Some; [done|]. by apply (rel_tsn _ _ _ R).
  - rewrite data_bytes_insert, (rel_bytes _ _ _ R) by done. apply u64_add_r.
Qed.

Lemma rel_push x p :
  Z.abs (x - cum) < 2 ^ 31 → tsn p = u32 x →
  if decide (cum < x ∧ x ∉ ds) then push q p (u32 cum) = (true, push_no_check q p)
  else push q p (u32 cum) = (false, mkPQ (chunk_map q) (sorted q) (dup_tsn q ++ [tsn p]) (pq_n_bytes q)).
Proof.
  intros Hx Hp. unfold push. rewrite Hp, sna32lte_spec by lia.
  assert (bool_decide (is_Some (chunk_map q !! u32 x)) = bool_decide (x ∈ ds)) as ->
    by (apply bool_decide_ext; rewrite (rel_keys _ _ _ R), rel_in_sorted by lia; done).
  destruct (decide (cum < x ∧ x ∉ ds)) as [[H1 H2]|Hn].
  - rewrite bool_decide_eq_false_2, (proj2 (Z.leb_gt _ _)) by done. cbn [orb].
    unfold push_no_check. by rewrite Hp.
  - destruct (bool_decide (x ∈ ds)) eqn:E; [done|]. apply bool_decide_eq_false_1 in E. cbn [orb].
    rewrite (proj2 (Z.leb_le _ _)); [done|]. destruct (Z.le_gt_cases x cum); [done|]. by destruct Hn.
Qed.

Lemma rel_can_push x p :
  Z.abs (x - cum) < 2 ^ 31 → tsn p = u32 x → can_push q p (u32 cum) = bool_decide (cum < x ∧ x ∉ ds).
Proof.
  intros Hx Hp. pose proof (rel_push x p Hx Hp) as E. unfold push in E. unfold can_push.
  destruct (_ || _), (decide (cum < x ∧ x ∉ ds)); try done; cbn [negb]; symmetry;
    [by apply bool_decide_eq_false_2|by apply bool_decide_eq_true_2].
Qed.

Lemma rel_pop_front x ds' :
  ds = x :: ds' → ∃ c q', pop q (u32 x) = (Some c, q') ∧ tsn c = u32 x ∧ pq_rel q' x ds' ∧ dup_tsn q' = dup_tsn q.
Proof.
  intros ->. unfold pop. pose proof (rel_sorted _ _ _ R) as Es. csimpl in Es.
  assert (u32 x ∈ sorted q) as Hin by (rewrite Es; left).
  apply (rel_keys _ _ _ R) in Hin as [c Hc]. rewrite Es, Z.eqb_refl, Hc.
  eexists c, _. split_and!; [done|by apply (rel_tsn _ _ _ R)| |done].
  pose proof (rel_order _ _ _ R) as Ho. pose proof (rel_window _ _ _ R) as Hw.
  inversion Ho as [|? ? Ho' Hd]; subst. inversion Hw as [|? ? Hx Hw']; subst.
  assert (u32 x ∉ u32 <$> ds') as Hnot.
  { rewrite list_elem_of_fmap. intros (d & E & Hdin). rewrite Forall_forall in Hd, Hw'.
    specialize (Hd d Hdin). specialize (Hw' d Hdin). apply u32_inj in E; lia. }
  split; cbn [sorted chunk_map dup_tsn pq_n_bytes].
  - done.
  - done.
  - rewrite Forall_forall in *. intros d Hdin. specialize (Hd d Hdin). specialize (Hw' d Hdin). simpl in *. lia.
  - intros t. rewrite lookup_delete_is_Some, (rel_keys _ _ _ R t), Es, elem_of_cons.
    split; [intuition congruence|]. intros Ht. split; [by intros <-|]. by right.
  - intros t c' [_ Hc']%lookup_delete_Some. by apply (rel_tsn _ _ _ R).
  - rewrite (rel_bytes _ _ _ R), (data_bytes_delete _ _ _ Hc). apply u64_sub_cancel.
Qed.

Lemma rel_pop_none x :
  cum < x < cum + 2 ^ 31 → head ds ≠ Some x → pop q (u32 x) = (None, q).
Proof.
  intros Hx Hh. unfold pop. rewrite (rel_sorted _ _ _ R). destruct ds as [|d ds'] eqn:E; [done|]. csimpl.
  pose proof (rel_window _ _ _ R) as Hw. inversion Hw as [|? ? Hd _]; subst.
  rewrite u32_eqb by lia. rewrite (proj2 (Z.eqb_neq d x)); [done|]. intros ->. by apply Hh.
Qed.

End PayloadQueueLemmas.

Lemma pq_rel_new cum : pq_rel pq_new cum [].
Proof.
  split; [done|constructor|constructor| |done|done].
  intros t. simpl. rewrite lookup_empty, elem_of_nil. split; [by intros []|done].
Qed.

(** The window may start later, and acknowledging or marking chunks keeps the invariant. *)
Lemma rel_weaken q cum cum' ds :
  pq_rel q cum ds → cum <= cum' → Forall (λ d, cum' < d) ds → pq_rel q cum' ds.
Proof.
  intros R Hc Hd. destruct R as [H1 H2 H3 H4 H5 H6]. split; try done.
  rewrite Forall_forall in *. intros d Hin. specialize (Hd d Hin). specialize (H3 d Hin). simpl in *. lia.
Qed.

Lemma rel_ack q cum ds t :
  pq_rel q cum ds → pq_rel (snd (mark_as_acked q t)) cum ds.
Proof.
  intros R. unfold mark_as_acked. destruct (chunk_map q !! t) as [c|] eqn:Ec; [|done].
  destruct R as [H1 H2 H3 H4 H5 H6]. split; cbn [snd sorted chunk_map pq_n_bytes]; try done.
  - intros t'. rewrite <- H4, lookup_insert_is_Some. destruct (decide (t = t')) as [<-|]; [|intuition congruence].
    split; [by eauto|by left].
  - intros t' c' [[<- <-]|[_ ?]]%lookup_insert_Some; [|by apply H5]. cbn. by apply H5.
  - rewrite H6, (data_bytes_delete _ _ _ Ec), u64_sub_cancel, <- insert_delete_eq, data_bytes_insert
      by apply lookup_delete_eq. done.
Qed.

Lemma data_bytes_fmap f m : (∀ c, user_data (f c) = user_data c) → data_bytes (f <$> m) = data_bytes m.
Proof.
  intros Hf. induction m as [|t c m Ht IH] using map_ind; [done|].
  rewrite fmap_insert, !data_bytes_insert, Hf, IH; [done|done|]. by rewrite lookup_fmap, Ht.
Qed.

Lemma rel_retransmit q cum ds : pq_rel q cum ds → pq_rel (mark_all_to_retrasmit q) cum ds.
Proof.
  intros [H1 H2 H3 H4 H5 H6]. split; cbn [mark_all_to_retrasmit sorted chunk_map pq_n_bytes]; try done.
  - intros t. by rewrite lookup_fmap, fmap_is_Some.
  - intros t c. rewrite lookup_fmap. intros (c' & Hc & ->)%fmap_Some. apply H5 in Hc.
    unfold retransmit_chunk. by destruct (_ || _).
  - rewrite H6, data_bytes_fmap; [done|]. intros c. unfold retransmit_chunk. by destruct (_ || _).
Qed.

Lemma u32_succ x : u32 (u32 x + 1) = u32 (x + 1).
Proof. unfold wrap. by rewrite Z.add_mod_idemp_l by lia. Qed.

Lemma u32_sub_u32 x y : u32 (u32 x - u32 y) = u32 (x - y).
Proof. unfold wrap. by rewrite Zminus_mod_idemp_l, Zminus_mod_idemp_r. Qed.

(** What moving the cumulative TSN from [cum] to [cum'] keeps. *)
Definition advanced (q : PayloadQueue) (ds : list Z) (cum : Z) (q' : PayloadQueue) (ds' : list Z) (cum' : Z) : Prop :=
  cum <= cum' ∧ pq_rel q' cum' ds' ∧ (∀ d, d ∈ ds' ↔ d ∈ ds ∧ cum' < d) ∧ dup_tsn q' = dup_tsn q.

(** Popping the next TSN, whether it is there or not. *)
Lemma rel_skip q cum ds :
  pq_rel q cum ds →
  let r := pop q (u32 (cum + 1)) in
  if decide (cum + 1 ∈ ds)
  then ∃ c ds', fst r = Some c ∧ ds = cum + 1 :: ds' ∧ advanced q ds cum (snd r) ds' (cum + 1)
  else r = (None, q) ∧ pq_rel q (cum + 1) ds.
Proof.
  intros R r. pose proof (rel_window _ _ _ R) as Hw. pose proof (rel_order _ _ _ R) as Ho.
  destruct (decide (cum + 1 ∈ ds)) as [Hin|Hin].
  - destruct ds as [|d ds1]; [by apply elem_of_nil in Hin|].
    inversion Hw as [|? ? Hd Hw']; subst. inversion Ho as [|? ? Ho' Hlt]; subst. rewrite Forall_forall in Hlt.
    assert (d = cum + 1) as ->.
    { apply elem_of_cons in Hin as [<-|Hin]; [done|]. specialize (Hlt _ Hin). lia. }
    destruct (rel_pop_front q cum _ R (cum + 1) ds1 eq_refl) as (c & q1 & E & _ & R1 & D1).
    exists c, ds1. unfold r. rewrite E. split_and!; [done..|]. split_and!; [lia|done| |done].
    intros d. rewrite elem_of_cons. split; [intros Hd'; specialize (Hlt d Hd'); by auto|].
    intros [[->|?] ?]; [lia|done].
  - assert (Forall (λ d, cum + 1 < d) ds) as Hgt.
    { rewrite Forall_forall in *. intros d Hd. specialize (Hw d Hd). destruct (decide (d = cum + 1)) as [->|]; [done|]. lia. }
    split; [|by apply (rel_weaken q cum); [|lia|]]. apply (rel_pop_none q cum ds R); [lia|].
    intros Hh. apply Hin. destruct ds; [done|]. simpl in Hh. injection Hh as ->. left.
Qed.

Lemma advanced_refl q ds cum : pq_rel q cum ds → advanced q ds cum q ds cum.
Proof.
  intros R. split_and!; [lia|done| |done]. intros d. split; [|by intros []]. intros Hd. split; [done|].
  pose proof (rel_window _ _ _ R) as Hw. rewrite Forall_forall in Hw. by apply Hw.
Qed.

Lemma advanced_trans q ds cum q1 ds1 cum1 q2 ds2 cum2 :
  advanced q ds cum q1 ds1 cum1 → advanced q1 ds1 cum1 q2 ds2 cum2 → advanced q ds cum q2 ds2 cum2.
Proof.
  intros (H1 & R1 & E1 & D1) (H2 & R2 & E2 & D2). split_and!; [lia|done| |congruence].
  intros d. rewrite E2, E1. intuition lia.
Qed.

Lemma advance_loop_spec fuel q cum ds :
  pq_rel q cum ds → (length ds < fuel)%nat →
  ∃ q' cum' ds', advance_loop fuel q (u32 cum) = (q', u32 cum') ∧ advanced q ds cum q' ds' cum' ∧
    (∀ y, cum < y <= cum' → y ∈ ds) ∧ cum' + 1 ∉ ds.
Proof.
  revert q cum ds. induction fuel as [|fuel IH]; intros q cum ds R Hf; [lia|].
  cbn [advance_loop]. rewrite u32_succ. pose proof (rel_skip q cum ds R) as Hs. cbn zeta in Hs.
  destruct (pop q (u32 (cum + 1))) as [r q1]. destruct (decide (cum + 1 ∈ ds)) as [Hin|Hin].
  - destruct Hs as (c & ds1 & [= ->] & -> & A1). cbn [snd] in A1. pose proof A1 as (_ & R1 & _).
    destruct (IH q1 (cum + 1) ds1 R1) as (q' & cum' & ds' & E & A & Hy & Hn); [simpl in Hf; lia|].
    exists q', cum', ds'. pose proof A as (? & _). split_and!; [done|by eapply advanced_trans|..].
    + intros y Hy'. rewrite elem_of_cons. destruct (decide (y = cum + 1)); [by left|]. right. apply Hy. lia.
    + rewrite elem_of_cons. intros [?|?]; [lia|done].
  - destruct Hs as ([= -> ->] & _). exists q, cum, ds. split_and!; [done|by apply advanced_refl|lia|done].
Qed.

Lemma advance_spec q cum ds :
  pq_rel q cum ds →
  ∃ q' cum' ds', advance q (u32 cum) = (q', u32 cum') ∧ advanced q ds cum q' ds' cum' ∧
    (∀ y, cum < y <= cum' → y ∈ ds) ∧ cum' + 1 ∉ ds.
Proof.
  intros R. apply advance_loop_spec; [done|]. rewrite (rel_sorted _ _ _ R), length_fmap. lia.
Qed.

Lemma forward_loop_spec fuel q cum ds x :
  pq_rel q cum ds → cum <= x < cum + 2 ^ 31 → x - cum <= Z.of_nat fuel →
  ∃ q' ds', forward_loop fuel (u32 x) q (u32 cum) = (q', u32 x) ∧ advanced q ds cum q' ds' x.
Proof.
  revert q cum ds. induction fuel as [|fuel IH]; intros q cum ds R Hx Hf; cbn [forward_loop].
  { replace x with cum by lia. exists q, ds. split; [done|by apply advanced_refl]. }
  rewrite sna32lt_spec by lia. destruct (Z.ltb_spec cum x).
  - rewrite u32_succ. pose proof (rel_skip q cum ds R) as Hs. cbn zeta in Hs.
    assert (∃ ds1, advanced q ds cum (snd (pop q (u32 (cum + 1)))) ds1 (cum + 1)) as [ds1 A1].
    { destruct (decide (cum + 1 ∈ ds)); [destruct Hs as (? & ds1 & _ & _ & A); by exists ds1|]. destruct Hs as [-> R1]. exists ds. cbn [snd].
      split_and!; [lia|done| |done]. intros d. split; [|by intros []]. intros Hd. split; [done|].
      pose proof (rel_window _ _ _ R1) as Hw. rewrite Forall_forall in Hw. by apply Hw. }
    pose proof A1 as (_ & R1 & _). destruct (IH _ _ _ R1) as (q' & ds' & E & A); [lia..|].
    exists q', ds'. split; [done|by eapply advanced_trans].
  - replace x with cum by lia. exists q, ds. split; [done|by apply advanced_refl].
Qed.

(** ** Reachable receivers

    [reach init s cum R K]: [s] is a state of a receiver whose first expected TSN is
    [init + 1]; its cumulative TSN is [cum] without wrap-around, the chunks [R] were stored
    and the TSNs [K] were skipped by the peer.  DATA and FORWARD-TSN chunks arrive in any
    order, less than half the TSN space from the cumulative TSN. *)
Inductive reach (init : Z) : PayloadQueue * Z → Z → list Z → list Z → Prop :=
| reach_init : reach init (pq_new, u32 init) init [] []
| reach_data s cum R K stream_ok credit d x :
    reach init s cum R K → Z.abs (x - cum) < 2 ^ 31 → tsn d = u32 x →
    let r := receive_data stream_ok credit s d in
    reach init (snd r) (cum + u32 (snd (snd r) - snd s)) (if fst r then x :: R else R) K
| reach_forward s cum R K x :
    reach init s cum R K → Z.abs (x - cum) < 2 ^ 31 →
    let s' := forward_tsn s (u32 x) in
    reach init s' (cum + u32 (snd s' - snd s)) R (if cum <? x then seqZ (cum + 1) (x - cum) ++ K else K).

Record tracked (init : Z) (s : PayloadQueue * Z) (cum : Z) (R K ds : list Z) : Prop := {
  tr_last : snd s = u32 cum;
  tr_rel : pq_rel (fst s) cum ds;
  tr_start : init <= cum;
  tr_covered y : init < y <= cum → y ∈ R ∨ y ∈ K;
  tr_queued d : d ∈ ds ↔ d ∈ R ∧ cum < d;
  tr_gap : cum + 1 ∉ R;
  tr_once : NoDup R;
  tr_skipped k : k ∈ K → k <= cum;
  tr_dups : dup_tsn (fst s) = []
}.

Lemma tracked_advance init q q1 ds1 cum cum1 R K ds q' cum' ds' :
  advanced q ds cum q1 ds1 cum1 → advanced q1 ds1 cum1 q' ds' cum' →
  (∀ d, d ∈ ds ↔ d ∈ R ∧ cum < d) → (∀ y, init < y <= cum1 → y ∈ R ∨ y ∈ K) →
  (∀ y, cum1 < y <= cum' → y ∈ ds1) → cum' + 1 ∉ ds1 → init <= cum → NoDup R →
  (∀ k, k ∈ K → k <= cum1) → dup_tsn q = [] →
  tracked init (q', u32 cum') cum' R K ds'.
Proof.
  intros (H1 & R1 & E1 & D1) (H2 & R2 & E2 & D2) Hds Hcov Hy Hn Hi Hnd HK Hdup.
  split; cbn [fst snd]; [done|done|lia| | | |done| |congruence].
  - intros y Hyr. destruct (Z.le_gt_cases y cum1) as [?|?]; [by apply Hcov; lia|].
    left. specialize (Hy y ltac:(lia)). apply E1 in Hy as [Hy _]. by apply Hds in Hy as [].
  - intros d. rewrite E2, E1, Hds. intuition lia.
  - intros Hin. apply Hn, E1. split; [apply Hds; split; [done|lia]|lia].
  - intros k Hk. specialize (HK k Hk). lia.
Qed.

Lemma unwrapped_step cum cum' : cum <= cum' < cum + 2 ^ 32 → cum + u32 (u32 cum' - u32 cum) = cum'.
Proof. intros H. rewrite u32_sub_u32, wrap_small by (unfold fits; lia). lia. Qed.

Lemma advanced_bound q ds cum q' ds' cum' :
  pq_rel q cum ds → advanced q ds cum q' ds' cum' → (∀ y, cum < y <= cum' → y ∈ ds) → cum' < cum + 2 ^ 31.
Proof.
  intros R (Hle & _) Hy. destruct (Z.le_gt_cases cum' cum); [lia|]. specialize (Hy cum' ltac:(lia)).
  pose proof (rel_window _ _ _ R) as Hw. rewrite Forall_forall in Hw. by apply Hw.
Qed.

Lemma store_data_spec ok credit q cum ds d x :
  pq_rel q cum ds → Z.abs (x - cum) < 2 ^ 31 → tsn d = u32 x →
  store_data ok credit q (u32 cum) d = Some (true, push_no_check q d) ∧ cum < x ∧ x ∉ ds ∨
  store_data ok credit q (u32 cum) d = Some (false, q) ∨ store_data ok credit q (u32 cum) d = None.
Proof.
  intros R Hx Hd. unfold store_data. rewrite (rel_can_push q cum ds R x d) by done.
  pose proof (rel_push q cum ds R x d Hx Hd) as Hp.
  destruct (decide (cum < x ∧ x ∉ ds)) as [[H1 H2]|Hn].
  - rewrite bool_decide_eq_true_2 by done. rewrite Hp. cbn [snd].
    destruct ok; [|auto]. destruct (0 <? credit); [auto|]. destruct (get_last_tsn_received q); [|auto].
    destruct (sna32lt _ _); auto.
  - rewrite bool_decide_eq_false_2 by done. auto.
Qed.

Lemma reach_tracked init s cum R K : reach init s cum R K → ∃ ds, tracked init s cum R K ds.
Proof.
  induction 1 as [|[q l] cum R K ok credit d x Hr [ds T] Hx Hd r|[q l] cum R K x Hr [ds T] Hx s'].
  - exists []. split; cbn [fst snd]; [done|apply pq_rel_new|lia|lia| | |constructor| |done].
    + intros d. rewrite elem_of_nil. split; [done|by intros []].
    + by intros ?%elem_of_nil.
    + by intros k ?%elem_of_nil.
  - destruct T as [T1 T2 T3 T4 T5 T6 T7 T8 T9]. cbn [fst snd] in *. subst l.
    unfold r, receive_data. cbn [fst snd].
    destruct (store_data_spec ok credit q cum ds d x T2 Hx Hd) as [(E & H1 & H2)|[E|E]]; rewrite E; cbn [fst snd].
    + destruct (rel_store q cum ds T2 x d) as (a & b & -> & Ha & Hb & R1); [lia|done|done|].
      destruct (advance_spec _ _ _ R1) as (q' & cum' & ds' & -> & A & Hy & Hn). exists ds'. cbn [snd fst].
      pose proof (advanced_bound _ _ _ _ _ _ R1 A Hy). pose proof A as (? & _). rewrite unwrapped_step by lia.
      assert (x ∉ R) as HxR by (intros ?; apply H2, T5; auto).
      eapply (tracked_advance init (push_no_check q d)); [by apply advanced_refl|exact A| | |exact Hy|exact Hn|done| |done|done].
      * intros e. specialize (T5 e). rewrite !elem_of_app, !elem_of_cons in *. intuition (subst; auto).
      * intros y Hyy. rewrite elem_of_cons. specialize (T4 y Hyy). tauto.
      * by constructor.
    + destruct (advance_spec _ _ _ T2) as (q' & cum' & ds' & -> & A & Hy & Hn). exists ds'. cbn [snd fst].
      pose proof (advanced_bound _ _ _ _ _ _ T2 A Hy). pose proof A as (? & _). rewrite unwrapped_step by lia.
      by eapply (tracked_advance init q); [by apply advanced_refl|exact A|..].
    + exists ds. rewrite unwrapped_step by lia. by split.
  - destruct T as [T1 T2 T3 T4 T5 T6 T7 T8 T9]. cbn [fst snd] in *. subst l.
    unfold s', forward_tsn. cbn [fst snd]. rewrite sna32lte_spec by lia.
    destruct (Z.leb_spec x cum) as [Hle|Hgt].
    + exists ds. cbn [snd]. rewrite unwrapped_step, (proj2 (Z.ltb_ge cum x)) by lia. by split.
    + rewrite (proj2 (Z.ltb_lt cum x)) by lia. rewrite u32_sub_u32, wrap_small by (unfold fits; lia).
      destruct (forward_loop_spec (Z.to_nat (x - cum)) q cum ds x T2) as (q1 & ds1 & -> & A1); [lia..|].
      pose proof A1 as (_ & R1 & _).
      destruct (advance_spec _ _ _ R1) as (q' & cum' & ds' & -> & A & Hy & Hn). exists ds'. cbn [snd fst].
      pose proof (advanced_bound _ _ _ _ _ _ R1 A Hy). pose proof A as (? & _). rewrite unwrapped_step by lia.
      eapply (tracked_advance init q); [exact A1|exact A|done| |exact Hy|exact Hn|done|done| |done].
      * intros y Hyy. rewrite elem_of_app, elem_of_seqZ. destruct (Z.le_gt_cases y cum); [|right; left; lia].
        destruct (T4 y ltac:(lia)); auto.
      * intros k. rewrite elem_of_app, elem_of_seqZ. intros [?|?%T8]; lia.
Qed.

(** ** Gap ack blocks *)

(** The offsets a block stands for. *)
Definition expand (g : GapAckBlock) : list Z := seqZ (gap_start g) (gap_end g - gap_start g + 1).
Definition gap_before (g h : GapAckBlock) : Prop := gap_end g + 1 < gap_start h.

Definition blocks_ok (bs : list GapAckBlock) : Prop :=
  StronglySorted gap_before bs ∧ Forall (λ g, gap_start g <= gap_end g) bs.

Lemma gap_loop_spec c s e os :
  0 <= s <= e → StronglySorted Z.lt os → Forall (λ o, e < o < 65536) os →
  ∃ e' bs, gap_loop c (mkGap s e) (Z.add c <$> os) = mkGap s e' :: bs ∧ e <= e' ∧
           blocks_ok (mkGap s e' :: bs) ∧
           concat (expand <$> mkGap s e' :: bs) = expand (mkGap s e) ++ os.
Proof.
  revert s e. induction os as [|o os IH]; intros s e Hs Ho Hb.
  { exists e, []. csimpl. split_and!; [done|lia| |done]. split; repeat constructor. simpl. lia. }
  inversion Ho as [|? ? Ho' Hlt]; subst. inversion Hb as [|? ? Hoe Hb']; subst. csimpl. cbn [gap_loop gap_end gap_start].
  rewrite (proj2 (Z.leb_le c (c + o))) by lia. replace (c + o - c) with o by lia.
  rewrite !wrap_small by (unfold fits; lia). destruct (Z.eqb_spec (e + 1) o) as [<-|Hne].
  - destruct (IH s (e + 1)) as (e' & bs & -> & He & Hok & Hc); [lia|done| |].
    { rewrite Forall_forall in *. intros x Hx. specialize (Hlt x Hx). specialize (Hb' x Hx). simpl in *. lia. }
    exists e', bs. split_and!; [done|lia|done|]. csimpl in Hc. rewrite Hc. unfold expand. cbn [gap_start gap_end].
    replace (e + 1 - s + 1) with ((e - s + 1) + 1) by lia. rewrite seqZ_app by lia. rewrite <- app_assoc. f_equal.
    replace (s + (e - s + 1)) with (e + 1) by lia. by rewrite seqZ_cons by lia.
  - destruct (IH o o) as (e' & bs & -> & He & [Hok1 Hok2] & Hc); [lia|done| |].
    { rewrite Forall_forall in *. intros x Hx. specialize (Hlt x Hx). specialize (Hb' x Hx). simpl in *. lia. }
    exists e, (mkGap o e' :: bs). split_and!; [done|lia| |].
    + split; [|by constructor; [simpl; lia|]]. constructor; [done|]. constructor; [unfold gap_before; simpl; lia|].
      inversion Hok1 as [|? ? _ Hbef]; subst. rewrite Forall_forall in *. intros g Hg. specialize (Hbef g Hg).
      unfold gap_before in *. cbn [gap_start gap_end] in *. lia.
    + csimpl. csimpl in Hc. rewrite Hc. f_equal. unfold expand at 1. cbn [gap_start gap_end].
      replace (o - o + 1) with 1 by lia. by rewrite seqZ_cons by lia.
Qed.

Lemma rel_map_empty q cum ds : pq_rel q cum ds → chunk_map q = ∅ ↔ ds = [].
Proof.
  intros R. rewrite map_empty. split.
  - intros He. destruct ds as [|d ds']; [done|]. exfalso.
    assert (u32 d ∈ sorted q) as Hd by (rewrite (rel_sorted _ _ _ R); left).
    apply (rel_keys _ _ _ R) in Hd as [c Hc]. by rewrite He in Hc.
  - intros -> t. apply eq_None_not_Some. rewrite (rel_keys _ _ _ R), (rel_sorted _ _ _ R). by intros ?%elem_of_nil.
Qed.

(** Distances from the cumulative TSN, when the TSNs do not wrap between. *)
Lemma unwrapped_sorted cum ds :
  Forall (λ d, cum < d ∧ u32 cum + (d - cum) < 2 ^ 32) ds → u32 <$> ds = Z.add (u32 cum) <$> ((λ d, d - cum) <$> ds).
Proof.
  intros H. rewrite <- list_fmap_compose. apply Forall_fmap_ext. eapply Forall_impl; [exact H|].
  intros d [H1 H2]. simpl. unfold wrap in *. change (2 ^ 32) with 4294967296 in *. unwrap cum. unwrap d. lia.
Qed.

Lemma sorted_offsets cum ds : StronglySorted Z.lt ds → StronglySorted Z.lt ((λ d, d - cum) <$> ds).
Proof.
  induction 1 as [|d ds Hs IH Hd]; csimpl; constructor; [done|]. apply Forall_fmap. eapply Forall_impl; [exact Hd|].
  simpl. lia.
Qed.

(** The gap ack blocks of a SACK describe exactly the stored TSNs, as offsets from the
    cumulative TSN: every offset once, in increasing order, in blocks that are as long as
    possible.  It needs offsets that fit 16 bits and no TSN wrap-around in the queue. *)
Theorem gap_ack_blocks_exact q cum ds :
  pq_rel q cum ds → Forall (λ d, d - cum < 65536 ∧ u32 cum + (d - cum) < 2 ^ 32) ds →
  let bs := get_gap_ack_blocks q (u32 cum) in
  concat (expand <$> bs) = (λ d, d - cum) <$> ds ∧
  Forall (λ g, gap_start g <= gap_end g) bs ∧ StronglySorted gap_before bs.
Proof.
  intros R H. unfold get_gap_ack_blocks. pose proof (rel_window _ _ _ R) as Hw.
  pose proof (rel_map_empty q cum ds R) as He.
  destruct (bool_decide _) eqn:E; [apply bool_decide_eq_true_1 in E|apply bool_decide_eq_false_1 in E]; cbn zeta.
  { apply He in E as ->. split_and!; [done|constructor..]. }
  rewrite (rel_sorted _ _ _ R), (unwrapped_sorted cum)
    by (rewrite Forall_forall in *; intros d Hd; specialize (H d Hd); specialize (Hw d Hd); simpl in *; lia).
  destruct ds as [|d ds']; [by destruct E; apply He|]. csimpl. cbn [fmap list_fmap].
  inversion H as [|? ? [Hd1 Hd2] H']; subst. inversion Hw as [|? ? Hd Hw']; subst.
  rewrite (proj2 (Z.leb_le (u32 cum) (u32 cum + (d - cum)))) by lia. replace (u32 cum + (d - cum) - u32 cum) with (d - cum) by lia.
  rewrite (wrap_small 16 (d - cum)) by (unfold fits; lia). pose proof (rel_order _ _ _ R) as Ho.
  apply (sorted_offsets cum) in Ho. csimpl in Ho. inversion Ho as [|? ? Ho' Hlt]; subst.
  destruct (gap_loop_spec (u32 cum) (d - cum) (d - cum) ((λ d, d - cum) <$> ds')) as (e' & bs & -> & _ & [Hs Hf] & ->).
  - lia.
  - done.
  - rewrite Forall_forall in *. intros o Ho''. specialize (Hlt o Ho''). split; [done|].
    apply list_elem_of_fmap in Ho'' as (d' & -> & Hd'). by destruct (H' d' Hd').
  - split_and!; [|done|done]. unfold expand. cbn [gap_start gap_end].
    replace (d - cum - (d - cum) + 1) with 1 by lia. by rewrite seqZ_cons by lia.
Qed.

(** Once the TSNs wrap past 2^32 while the cumulative TSN has not, every block of the
    SACK is 0-0: it says that the cumulative TSN itself was received, once per chunk. *)
Theorem gap_ack_blocks_lost_on_wrap q cum ds k :
  pq_rel q cum ds → cum < k * 2 ^ 32 → Forall (λ d, k * 2 ^ 32 <= d) ds →
  get_gap_ack_blocks q (u32 cum) = replicate (length ds) (mkGap 0 0).
Proof.
  intros R Hc Hk. unfold get_gap_ack_blocks. pose proof (rel_map_empty q cum ds R) as He.
  destruct (bool_decide _) eqn:E; [apply bool_decide_eq_true_1 in E|apply bool_decide_eq_false_1 in E].
  { by apply He in E as ->. }
  rewrite (rel_sorted _ _ _ R). pose proof (rel_window _ _ _ R) as Hw.
  assert (∀ d, d ∈ ds → (u32 cum <=? u32 d) = false) as Hd.
  { rewrite Forall_forall in *. intros d Hin. specialize (Hw d Hin). specialize (Hk d Hin). simpl in *.
    apply Z.leb_gt. unfold wrap. change (2 ^ 32) with 4294967296 in *. unwrap cum. unwrap d. lia. }
  destruct ds as [|d ds']; [by destruct E; apply He|]. clear R He Hk Hw. csimpl. rewrite Hd by left. clear E.
  assert (∀ d, d ∈ ds' → (u32 cum <=? u32 d) = false) as Hd' by (intros; apply Hd; by right). clear Hd.
  induction ds' as [|d' ds' IH]; [done|]. csimpl. cbn [gap_loop gap_end]. rewrite Hd' by left.
  change (u16 (0 + 1) =? 0) with false. cbn iota. f_equal. apply IH. intros. apply Hd'. by right.
Qed.

(** C4: a receiver keeps track of the TSNs it was sent, over any sequence of DATA and
    FORWARD-TSN chunks in any order, also across TSN wrap-around: everything up to the
    cumulative TSN was stored or skipped, the next TSN was not stored, the queue holds exactly
    the stored TSNs above it in serial order with the right byte count, no TSN is handed
    on twice, and [handle_data] leaves the list of duplicates empty. *)
Theorem receiver_tracks_tsns init s cum R K :
  reach init s cum R K →
  snd s = u32 cum ∧ (∀ y, init < y <= cum → y ∈ R ∨ y ∈ K) ∧ ¬ (cum + 1 ∈ R) ∧ NoDup R ∧
  dup_tsn (fst s) = [] ∧ pq_n_bytes (fst s) = u64 (data_bytes (chunk_map (fst s))) ∧
  ∃ ds, sorted (fst s) = u32 <$> ds ∧ StronglySorted Z.lt ds ∧ (∀ d, d ∈ ds ↔ d ∈ R ∧ cum < d) ∧
        (∀ t, is_Some (chunk_map (fst s) !! t) ↔ t ∈ sorted (fst s)).
Proof.
  intros [ds T]%reach_tracked. pose proof (tr_rel _ _ _ _ _ _ T) as R'.
  split_and!; [apply T..|apply R'|]. exists ds. split_and!; [apply R'|apply R'|apply T|apply R'].
Qed.

(** Within half the number space, the wrap-around comparisons of TSNs (32 bits) and
    stream sequence numbers (16 bits) are the order of the numbers that were wrapped. *)
Theorem serial_order_agrees x y :
  (Z.abs (x - y) < 2 ^ 31 →
   sna32lt (u32 x) (u32 y) = (x <? y) ∧ sna32lte (u32 x) (u32 y) = (x <=? y) ∧
   sna32gt (u32 x) (u32 y) = (y <? x) ∧ sna32gte (u32 x) (u32 y) = (y <=? x)) ∧
  (Z.abs (x - y) < 2 ^ 15 →
   sna16lt (u16 x) (u16 y) = (x <? y) ∧ sna16lte (u16 x) (u16 y) = (x <=? y) ∧
   sna16gt (u16 x) (u16 y) = (y <? x) ∧ sna16gte (u16 x) (u16 y) = (y <=? x)).
Proof.
  split; intros H; split_and!;
    auto using sna32lt_spec, sna32lte_spec, sna32gt_spec, sna32gte_spec,
               sna16lt_spec, sna16lte_spec, sna16gt_spec, sna16gte_spec.
Qed.

(** * [PendingQueue] *)

Record PendingQueue := mkPending {
  unordered_queue : list ChunkPayloadData;
  ordered_queue : list ChunkPayloadData;
  queue_len : Z;
  pend_n_bytes : Z;
  selected : bool;
  unordered_is_selected : bool
}.

Definition pending_new : PendingQueue := mkPending [] [] 0 0 false false.

Definition pending_push (q : PendingQueue) (c : ChunkPayloadData) : PendingQueue :=
  mkPending
    (if unordered c then unordered_queue q ++ [c] else unordered_queue q)
    (if unordered c then ordered_queue q else ordered_queue q ++ [c])
    (u64 (queue_len q + 1)) (u64 (pend_n_bytes q + len (user_data c)))
    (selected q) (unordered_is_selected q).

Definition peek (q : PendingQueue) : option ChunkPayloadData :=
  if selected q then
    if unordered_is_selected q then head (unordered_queue q) else head (ordered_queue q)
  else
    match head (unordered_queue q) with
    | Some c => Some c
    | None => head (ordered_queue q)
    end.

(** [VecDeque::pop_front] on either queue. *)
Definition pop_unordered (q : PendingQueue) : option ChunkPayloadData * PendingQueue :=
  (head (unordered_queue q),
   mkPending (tail (unordered_queue q)) (ordered_queue q) (queue_len q) (pend_n_bytes q) (selected q)
     (unordered_is_selected q)).
Definition pop_ordered (q : PendingQueue) : option ChunkPayloadData * PendingQueue :=
  (head (ordered_queue q),
   mkPending (unordered_queue q) (tail (ordered_queue q)) (queue_len q) (pend_n_bytes q) (selected q)
     (unordered_is_selected q)).

Definition set_selected (q : PendingQueue) (sel unord : bool) : PendingQueue :=
  mkPending (unordered_queue q) (ordered_queue q) (queue_len q) (pend_n_bytes q) sel unord.

Definition pending_pop (q : PendingQueue) (beginning unord : bool) : option ChunkPayloadData * PendingQueue :=
  if negb (selected q) && negb beginning then (None, q)
  else
    let (popped, q) :=
      if selected q then
        let (popped, q) := if unordered_is_selected q then pop_unordered q else pop_ordered q in
        match popped with
        | Some p => if ending_fragment p then (popped, set_selected q false (unordered_is_selected q)) else (popped, q)
        | None => (popped, q)
        end
      else if unord then
        let (popped, q) := pop_unordered q in
        match popped with
        | Some p => if negb (ending_fragment p) then (popped, set_selected q true true) else (popped, q)
        | None => (popped, q)
        end
      else
        let (popped, q) := pop_ordered q in
        match popped with
        | Some p => if negb (ending_fragment p) then (popped, set_selected q true false) else (popped, q)
        | None => (popped, q)
        end in
    match popped with
    | Some p => (popped, mkPending (unordered_queue q) (ordered_queue q) (u64 (queue_len q - 1))
                           (u64 (pend_n_bytes q - len (user_data p))) (selected q) (unordered_is_selected q))
    | None => (popped, q)
    end.

(** How the sender takes a chunk, in [pop_pending_data_chunks_to_send]: the flags of the
    peeked chunk are what it pops with. *)
Definition pop_next (q : PendingQueue) : option ChunkPayloadData * PendingQueue :=
  match peek q with
  | Some c => pending_pop q (beginning_fragment c) (unordered c)
  | None => (None, q)
  end.

Fixpoint drain (fuel : nat) (q : PendingQueue) : list ChunkPayloadData * PendingQueue :=
  match fuel with
  | O => ([], q)
  | S fuel =>
      match pop_next q with
      | (Some c, q) => let (cs, q) := drain fuel q in (c :: cs, q)
      | (None, q) => ([], q)
      end
  end.

(** ** Messages

    A user message is one chunk, or a beginning fragment, middle fragments and an ending
    fragment, all ordered or all unordered; [remainder] is what is left of one that was
    begun. *)
Fixpoint remainder (u : bool) (l : list ChunkPayloadData) : Prop :=
  match l with
  | [] => False
  | c :: l =>
      unordered c = u ∧ beginning_fragment c = false ∧
      match l with
      | [] => ending_fragment c = true
      | _ => ending_fragment c = false ∧ remainder u l
      end
  end.

Definition message (u : bool) (m : list ChunkPayloadData) : Prop :=
  match m with
  | [] => False
  | c :: l =>
      unordered c = u ∧ beginning_fragment c = true ∧
      match l with
      | [] => ending_fragment c = true
      | _ => ending_fragment c = false ∧ remainder u l
      end
  end.

Definition bytes_of (l : list ChunkPayloadData) : Z := foldr (λ c n, len (user_data c) + n) 0 l.

(** [cur] is the rest of the message being sent, [us] and [os] the whole messages that wait. *)
Record pending_ok (q : PendingQueue) (cur : list ChunkPayloadData) (us os : list (list ChunkPayloadData)) : Prop := {
  po_unordered : unordered_queue q = (if selected q && unordered_is_selected q then cur else []) ++ concat us;
  po_ordered : ordered_queue q = (if selected q && negb (unordered_is_selected q) then cur else []) ++ concat os;
  po_us : Forall (message true) us;
  po_os : Forall (message false) os;
  po_cur : if selected q then remainder (unordered_is_selected q) cur else cur = [];
  po_len : queue_len q = u64 (len (unordered_queue q ++ ordered_queue q));
  po_bytes : pend_n_bytes q = u64 (bytes_of (unordered_queue q ++ ordered_queue q))
}.

Lemma bytes_of_app a b : bytes_of (a ++ b) = bytes_of a + bytes_of b.
Proof. induction a as [|c a IH]; [done|]. simpl. rewrite IH. lia. Qed.

Lemma u64_idemp_add a b : u64 (u64 a + b) = u64 (a + b).
Proof. unfold wrap. by rewrite Z.add_mod_idemp_l by lia. Qed.

Lemma u64_idemp_sub a b : u64 (u64 a - b) = u64 (a - b).
Proof. unfold wrap. by rewrite Zminus_mod_idemp_l. Qed.

Definition schedule (cur : list ChunkPayloadData) (us os : list (list ChunkPayloadData)) : list ChunkPayloadData :=
  cur ++ concat us ++ concat os.

(** The counters after one chunk left either queue. *)
Lemma pending_counters (uq oq uq' oq' : list ChunkPayloadData) c n b :
  n = u64 (len (uq ++ oq)) → b = u64 (bytes_of (uq ++ oq)) →
  (uq = c :: uq' ∧ oq = oq' ∨ uq = uq' ∧ oq = c :: oq') →
  u64 (n - 1) = u64 (len (uq' ++ oq')) ∧ u64 (b - len (user_data c)) = u64 (bytes_of (uq' ++ oq')).
Proof.
  intros -> -> Hq. rewrite !u64_idemp_sub. destruct Hq as [[-> ->]|[-> ->]];
    rewrite ?bytes_of_app; autorewrite with len; cbn [bytes_of foldr app]; fold (bytes_of uq') (bytes_of oq');
    split; f_equal; unfold bytes_of; simpl; rewrite ?len_app; unfold len; simpl; lia.
Qed.

(** The rest of a message after its first chunk left. *)
Lemma rest_of_message u c l :
  (match l with [] => ending_fragment c = true | _ => ending_fragment c = false ∧ remainder u l end) →
  if ending_fragment c then l = [] else remainder u l.
Proof. destruct l as [|c' l]; [by intros ->|]. by intros [-> ?]. Qed.

Lemma pop_next_spec q cur us os :
  pending_ok q cur us os →
  match schedule cur us os with
  | [] => pop_next q = (None, q)
  | c :: _ => ∃ q' cur' us' os', pop_next q = (Some c, q') ∧ pending_ok q' cur' us' os' ∧
                schedule cur us os = c :: schedule cur' us' os'
  end.
Proof.
  intros [Hu Ho Hus Hos Hcur Hlen Hbytes]. destruct q as [uq oq n b sel usel].
  cbn [unordered_queue ordered_queue queue_len pend_n_bytes selected unordered_is_selected] in *.
  unfold pop_next, peek, pending_pop, pop_unordered, pop_ordered, set_selected, schedule.
  cbn [unordered_queue ordered_queue queue_len pend_n_bytes selected unordered_is_selected].
  destruct sel; cbn [andb negb] in *.
  - destruct cur as [|c l]; [done|]. destruct Hcur as (Hcu & Hcb & Hl). apply rest_of_message in Hl.
    destruct usel; cbn [andb negb app] in *; subst uq oq; cbn [head tail app].
    + destruct (pending_counters _ _ (l ++ concat us) (concat os) c n b Hlen Hbytes) as [Hn Hb]; [by left|].
      destruct (ending_fragment c); eexists _, l, us, os; (split_and!; [reflexivity| |done]); split; cbn; subst; done.
    + destruct (pending_counters _ _ (concat us) (l ++ concat os) c n b Hlen Hbytes) as [Hn Hb]; [by right|].
      destruct (ending_fragment c); eexists _, l, us, os; (split_and!; [reflexivity| |done]); split; cbn; subst; done.
  - subst cur. cbn [app] in *. destruct us as [|[|c l] us'];
      [|by apply Forall_cons_1 in Hus as [[] _]|apply Forall_cons_1 in Hus as [(Hcu & Hcb & Hl) Hus]].
    + destruct os as [|[|c l] os'];
        [by subst|by apply Forall_cons_1 in Hos as [[] _]|apply Forall_cons_1 in Hos as [(Hcu & Hcb & Hl) Hos]].
      apply rest_of_message in Hl. csimpl in Ho. subst uq oq. cbn [head tail app concat] in *. rewrite Hcb, Hcu.
      destruct (pending_counters [] (c :: l ++ concat os') [] (l ++ concat os') c n b Hlen Hbytes) as [Hn Hb]; [by right|].
      destruct (ending_fragment c); cbn [negb]; eexists _, l, [], os'; (split_and!; [reflexivity| |done]);
        split; cbn; subst; done.
    + apply rest_of_message in Hl. csimpl in Hu. subst uq oq. cbn [head tail app concat] in *. rewrite Hcb, Hcu.
      destruct (pending_counters (c :: l ++ concat us') (concat os) (l ++ concat us') (concat os) c n b Hlen Hbytes) as [Hn Hb]; [by left|].
      destruct (ending_fragment c); cbn [negb]; eexists _, l, us', os; (split_and!; [reflexivity| |]);
        [split; cbn; subst; done|cbn; by rewrite <- app_assoc|split; cbn; subst; done|cbn; by rewrite <- app_assoc].
Qed.

Lemma schedule_nil q cur us os : pending_ok q cur us os → schedule cur us os = [] → pending_ok q [] [] [].
Proof.
  intros R [-> [Eu Eo]%app_eq_nil]%app_eq_nil. pose proof (po_us _ _ _ _ R) as H3. pose proof (po_os _ _ _ _ R) as H4.
  destruct us as [|[|c l] us]; [|by apply Forall_cons_1 in H3 as [[] _]|done].
  by destruct os as [|[|c l] os]; [|by apply Forall_cons_1 in H4 as [[] _]|done].
Qed.

Lemma drain_spec fuel q cur us os :
  pending_ok q cur us os → (length (schedule cur us os) ≤ fuel)%nat →
  ∃ q', drain fuel q = (schedule cur us os, q') ∧ pending_ok q' [] [] [].
Proof.
  revert q cur us os. induction fuel as [|fuel IH]; intros q cur us os R Hf; cbn [drain];
    pose proof (pop_next_spec q cur us os R) as Hs.
  - destruct (schedule cur us os) as [|c l] eqn:E; [|simpl in Hf; lia]. exists q. split; [done|].
    by apply (schedule_nil q cur us os).
  - destruct (schedule cur us os) as [|c l] eqn:E.
    + rewrite Hs. exists q. split; [done|]. by apply (schedule_nil q cur us os).
    + destruct Hs as (q1 & cur1 & us1 & os1 & -> & R1 & [= ->]).
      destruct (IH q1 cur1 us1 os1 R1) as (q' & -> & R'); [simpl in Hf; lia|]. by exists q'.
Qed.

Definition counted (q : PendingQueue) : Prop :=
  queue_len q = u64 (len (unordered_queue q ++ ordered_queue q)) ∧
  pend_n_bytes q = u64 (bytes_of (unordered_queue q ++ ordered_queue q)).

Lemma push_counted q c : counted q → counted (pending_push q c).
Proof.
  intros [H1 H2]. unfold counted, pending_push. cbn [queue_len pend_n_bytes unordered_queue ordered_queue].
  rewrite H1, H2, !u64_idemp_add. destruct (unordered c); rewrite !bytes_of_app; autorewrite with len;
    split; f_equal; simpl; unfold len; simpl; lia.
Qed.

Lemma push_all_spec u m q :
  counted q → Forall (λ c, unordered c = u) m →
  let q' := foldl pending_push q m in
  counted q' ∧ selected q' = selected q ∧ unordered_is_selected q' = unordered_is_selected q ∧
  unordered_queue q' = unordered_queue q ++ (if u then m else []) ∧
  ordered_queue q' = ordered_queue q ++ (if u then [] else m).
Proof.
  intros Hq Hm. revert q Hq. induction Hm as [|c m Hc Hm IH]; intros q Hq; cbn zeta; cbn [foldl].
  { destruct u; rewrite !app_nil_r; done. }
  destruct (IH (pending_push q c)) as (H1 & -> & -> & -> & ->); [by apply push_counted|].
  split_and!; [done..| |]; cbn; rewrite Hc; destruct u; by rewrite <- ?app_assoc.
Qed.

Lemma remainder_flag u l : remainder u l → Forall (λ c, unordered c = u) l.
Proof. induction l as [|c [|c' l] IH]; intros H; [done|by destruct H; repeat constructor|].
  destruct H as (? & _ & _ & ?). constructor; [done|by apply IH]. Qed.

Lemma message_flag u m : message u m → Forall (λ c, unordered c = u) m.
Proof.
  destruct m as [|c [|c' l]]; [done|intros [? _]; by repeat constructor|].
  intros (? & _ & _ & ?). constructor; [done|]. by apply remainder_flag.
Qed.

(** Queueing the fragments of one more message. *)
Lemma push_message q cur us os u m :
  pending_ok q cur us os → message u m →
  pending_ok (foldl pending_push q m) cur (if u then us ++ [m] else us) (if u then os else os ++ [m]).
Proof.
  intros R Hm. pose proof R as [H1 H2 H3 H4 H5 H6 H7].
  destruct (push_all_spec u m q ltac:(by split) (message_flag u m Hm)) as ([C1 C2] & Es & Eu & Uq & Oq).
  split; [| | | | |done|done]; rewrite ?Es, ?Eu, ?Uq, ?Oq.
  - rewrite H1. destruct u; rewrite ?concat_app; csimpl; by rewrite ?app_nil_r, ?app_assoc.
  - rewrite H2. destruct u; rewrite ?concat_app; csimpl; by rewrite ?app_nil_r, ?app_assoc.
  - destruct u; [|done]. apply Forall_app. by repeat constructor.
  - destruct u; [done|]. apply Forall_app. by repeat constructor.
  - done.
Qed.

(** The pending queue sends whole messages.  Whatever messages are queued, draining it
    gives first the rest of the message that was begun, then the unordered messages, then the
    ordered ones, each in the order they were queued and with its fragments together; every
    single pop keeps the queue well formed and its counters exact, and so does queueing a
    message at any moment. *)
Theorem pending_queue_messages q cur us os u m :
  pending_ok q cur us os → message u m →
  (∃ q', drain (length (cur ++ concat us ++ concat os)) q = (cur ++ concat us ++ concat os, q') ∧
         unordered_queue q' = [] ∧ ordered_queue q' = [] ∧ queue_len q' = 0 ∧ pend_n_bytes q' = 0) ∧
  (∃ cur' us' os', pending_ok (snd (pop_next q)) cur' us' os' ∧
     cur ++ concat us ++ concat os =
       match fst (pop_next q) with Some c => [c] | None => [] end ++ cur' ++ concat us' ++ concat os') ∧
  pending_ok (foldl pending_push q m) cur (if u then us ++ [m] else us) (if u then os else os ++ [m]).
Proof.
  intros R Hm. split_and!; [| |by apply push_message].
  - destruct (drain_spec _ q cur us os R (le_n _)) as (q' & E & R'). exists q'. split; [done|].
    pose proof (po_unordered _ _ _ _ R') as U. pose proof (po_ordered _ _ _ _ R') as O'.
    assert (unordered_queue q' = []) as U0 by (rewrite U; by destruct (selected q'), (unordered_is_selected q')).
    assert (ordered_queue q' = []) as O0 by (rewrite O'; by destruct (selected q'), (unordered_is_selected q')).
    split_and!; [done..| |].
    + by rewrite (po_len _ _ _ _ R'), U0, O0.
    + by rewrite (po_bytes _ _ _ _ R'), U0, O0.
  - pose proof (pop_next_spec q cur us os R) as Hs. unfold schedule in Hs.
    destruct (cur ++ concat us ++ concat os) as [|c l] eqn:E.
    + rewrite Hs. exists [], [], []. split; [|done]. by apply (schedule_nil q cur us os).
    + destruct Hs as (q' & cur' & us' & os' & -> & R' & ->). by exists cur', us', os'.
Qed.

(** ** Witnesses *)

Definition chunk_with (t : Z) (u b e : bool) (payload : bytes) : ChunkPayloadData :=
  mkData u b e false t 0 0 Binary payload false 0 None 0 false false false.

(** A queue of two chunks. *)
Lemma pair_rel cum x y c d :
  cum < x → x < y → y < cum + 2 ^ 31 → tsn c = u32 x → tsn d = u32 y →
  pq_rel (mkPQ (<[tsn c := c]> (<[tsn d := d]> ∅)) [tsn c; tsn d] [] (u64 (len (user_data c) + len (user_data d))))
    cum [x; y].
Proof.
  intros H1 H2 H3 Ec Ed.
  assert (u32 x ≠ u32 y) as Hne by (intros E; apply u32_inj in E; lia).
  split; cbn [sorted chunk_map pq_n_bytes]; rewrite ?Ec, ?Ed.
  - done.
  - repeat constructor; lia.
  - repeat constructor; lia.
  - intros t. rewrite !lookup_insert_is_Some', lookup_empty, !elem_of_cons, elem_of_nil.
    split; [intros [->|[->|[? ?]]]; auto|intros [->|[->|[]]]; auto]. done.
  - intros t c'. rewrite !lookup_insert_Some, lookup_empty. intros [[<- <-]|[_ [[<- <-]|[_ ?]]]]; done.
  - rewrite !data_bytes_insert; [|apply lookup_empty|by rewrite lookup_insert_ne].
    unfold data_bytes. rewrite map_fold_empty. f_equal. lia.
Qed.

Lemma gap_ack_blocks_exact_witness :
  let q := mkPQ (<[13 := chunk_with 13 true true true [1]]> (<[15 := chunk_with 15 true true true [2; 3]]> ∅)) [13; 15] [] 3 in
  get_gap_ack_blocks q 10 = [mkGap 3 3; mkGap 5 5] ∧
  concat (expand <$> get_gap_ack_blocks q 10) = [3; 5].
Proof.
  intros q. split; [reflexivity|].
  destruct (gap_ack_blocks_exact q 10 [13; 15]) as [E _]; [| |exact E].
  - apply (pair_rel 10 13 15 (chunk_with 13 true true true [1]) (chunk_with 15 true true true [2; 3])); (lia || reflexivity).
  - repeat constructor; vm_compute; reflexivity.
Defined.

Lemma gap_ack_blocks_lost_on_wrap_witness :
  get_gap_ack_blocks (mkPQ (<[0 := chunk_with 0 true true true []]> (<[1 := chunk_with 1 true true true []]> ∅)) [0; 1] [] 0)
    4294967294 = [mkGap 0 0; mkGap 0 0].
Proof.
  apply (gap_ack_blocks_lost_on_wrap _ 4294967294 [4294967296; 4294967297] 1).
  - apply (pair_rel 4294967294 4294967296 4294967297 (chunk_with 0 true true true []) (chunk_with 1 true true true []));
      (lia || reflexivity).
  - lia.
  - repeat constructor; lia.
Defined.

Lemma receiver_tracks_tsns_witness :
  let s1 := snd (receive_data true 1 (pq_new, 4294967294) (chunk_with 0 true true true [7])) in
  let s2 := snd (receive_data true 1 s1 (chunk_with 4294967295 true true true [8])) in
  snd s1 = 4294967294 ∧ sorted (fst s1) = [0] ∧ snd s2 = 0 ∧ sorted (fst s2) = [] ∧ dup_tsn (fst s2) = [].
Proof.
  intros s1 s2.
  assert (reach 4294967294 s2 4294967296 [4294967295; 4294967296] []) as Hr.
  { apply (reach_data 4294967294 s1 4294967294 [4294967296] [] true 1 (chunk_with 4294967295 true true true [8]) 4294967295);
      [|lia|reflexivity].
    apply (reach_data 4294967294 (pq_new, 4294967294) 4294967294 [] [] true 1 (chunk_with 0 true true true [7]) 4294967296);
      [apply (reach_init 4294967294)|lia|reflexivity]. }
  destruct (receiver_tracks_tsns _ _ _ _ _ Hr) as (E1 & _ & _ & _ & E2 & _).
  split_and!; [reflexivity|reflexivity|exact E1|reflexivity|exact E2].
Defined.

Lemma serial_order_agrees_witness :
  sna32lt 4294967295 0 = true ∧ sna16lt 65535 0 = true.
Proof.
  destruct (serial_order_agrees 4294967295 4294967296) as [H1 _].
  destruct (serial_order_agrees 65535 65536) as [_ H2].
  split; [apply H1; lia|apply H2; lia].
Defined.

Definition two_fragments : list ChunkPayloadData :=
  [chunk_with 0 false true false [1]; chunk_with 0 false false true [2; 3]].

Lemma pending_queue_messages_witness :
  let u := chunk_with 0 true true true [9] in
  let q1 := foldl pending_push pending_new two_fragments in
  let q2 := snd (pop_next q1) in
  let q3 := pending_push q2 u in
  fst (drain 2 q3) = [chunk_with 0 false false true [2; 3]; u].
Proof.
  intros u q1 q2 q3.
  assert (pending_ok q3 [chunk_with 0 false false true [2; 3]] [[u]] []) as R.
  { split; try reflexivity; repeat constructor. }
  destruct (pending_queue_messages q3 _ _ _ true [u] R) as ((q' & E & _) & _); [by vm_compute|].
  cbn [length app concat] in E. by rewrite E.
Defined.
