(* ===== verification/SctpReassembly.v ===== *)
(** Reassembly of user messages from DATA chunks, [rtc-sctp/src/queue/reassembly_queue.rs]:
    [Chunks], the fragments of one message, and [ReassemblyQueue], one per stream. *)

From stdpp Require Import sorting.
From S2P Require Import Prelude SctpChunk SctpQueue.

(** * Chunks

    An [Instant] is its number of ticks; [Instant::now()] is an argument. *)

Record Chunks := mkChunks {
  cs_ssn : Z;
  cs_ppi : PayloadProtocolIdentifier;
  chunks : list ChunkPayloadData;
  cs_offset : Z;
  cs_index : Z;
  timestamp : Z
}.

Definition chunks_len (s : Chunks) : Z := foldl (λ l c, l + len (user_data c)) 0 (chunks s).

Definition to_payload (s : Chunks) (max_len : Z) : res bytes :=
  if max_len <? chunks_len s then Err ErrShortBuffer
  else Ok (foldl (λ buf c, buf ++ user_data c) [] (chunks s)).

(** The loop of [Chunks::read]; the buffer is returned as it is left also on an error. *)
Fixpoint read_loop (cs : list ChunkPayloadData) (n_written : Z) (buf : bytes) : res Z * bytes :=
  match cs with
  | [] => (Ok n_written, buf)
  | c :: cs =>
      let to_copy := len (user_data c) in
      let n := Z.min to_copy (len buf - n_written) in
      let buf := take (Z.to_nat n_written) buf ++ take (Z.to_nat n) (user_data c)
                 ++ drop (Z.to_nat (n_written + n)) buf in
      if n <? to_copy then (Err ErrShortBuffer, buf) else read_loop cs (n_written + n) buf
  end.

Definition chunks_read (s : Chunks) (buf : bytes) : res Z * bytes := read_loop (chunks s) 0 buf.

(** The loop of [Chunks::next]: chunks from [index] on, the first from [offset] on, until
    [max_length] bytes are taken.  [todo] are the chunks from [index] on. *)
Fixpoint next_loop (todo : list ChunkPayloadData) (index offset n_written max_length : Z) (buf : bytes)
    : res (bytes * Z * Z) :=
  match todo with
  | [] => Ok (buf, index, offset)
  | c :: todo =>
      let! rest := slice (user_data c) offset (len (user_data c)) in
      let to_copy := len rest in
      let n := Z.min to_copy (max_length - n_written) in
      let! part := slice (user_data c) offset (offset + n) in
      if n <? to_copy then Ok (buf ++ part, index, offset + n)
      else next_loop todo (index + 1) 0 (n_written + n) max_length (buf ++ part)
  end.

Definition chunks_next (s : Chunks) (max_length : Z) : res (option bytes * Chunks) :=
  if len (chunks s) <=? cs_index s then Ok (None, s)
  else
    let! (buf, index, offset) :=
      next_loop (drop (Z.to_nat (cs_index s)) (chunks s)) (cs_index s) (cs_offset s) 0 max_length [] in
    Ok (Some buf, mkChunks (cs_ssn s) (cs_ppi s) (chunks s) offset index (timestamp s)).

Definition chunks_new (now ssn : Z) (ppi : PayloadProtocolIdentifier) (cs : list ChunkPayloadData) : Chunks :=
  mkChunks ssn ppi cs 0 0 now.

(** The TSNs after the first chunk follow each other. *)
Fixpoint contiguous (last_tsn : Z) (cs : list ChunkPayloadData) : bool :=
  match cs with
  | [] => true
  | c :: cs => if negb (tsn c =? u32 (last_tsn + 1)) then false else contiguous (tsn c) cs
  end.

Definition complete_list (cs : list ChunkPayloadData) : bool :=
  match cs with
  | [] => false
  | c :: rest =>
      if negb (beginning_fragment c) then false
      else if negb (default false (ending_fragment <$> last cs)) then false
      else contiguous (tsn c) rest
  end.

Definition is_complete (s : Chunks) : bool := complete_list (chunks s).

Definition chunks_push (s : Chunks) (chunk : ChunkPayloadData) : bool * Chunks :=
  let idx := partition_point (λ c, sna32lt (tsn c) (tsn chunk)) (chunks s) in
  if bool_decide (tsn <$> chunks s !! idx = Some (tsn chunk)) then (false, s)
  else
    let s := mkChunks (cs_ssn s) (cs_ppi s) (insert_at idx chunk (chunks s)) (cs_offset s) (cs_index s) (timestamp s) in
    (is_complete s, s).

(** * ReassemblyQueue *)

Record ReassemblyQueue := mkRQ {
  si : Z;
  next_ssn : Z;
  ordered : list Chunks;
  rq_unordered : list Chunks;
  unordered_chunks : list ChunkPayloadData;
  rq_n_bytes : Z
}.

Definition rq_new (si : Z) : ReassemblyQueue := mkRQ si 0 [] [] [] 0.

(** The scan of [find_complete_unordered_chunk_set] from chunk [i] on: [start_idx] is -1
    while no run is open.  [Some (start, n)] is a run that was found. *)
Fixpoint find_loop (cs : list ChunkPayloadData) (i start_idx n_chunks last_tsn : Z) : option (Z * Z) :=
  match cs with
  | [] => None
  | c :: cs =>
      if beginning_fragment c then
        if ending_fragment c then Some (i, 1) else find_loop cs (i + 1) i 1 (tsn c)
      else if start_idx <? 0 then find_loop cs (i + 1) start_idx n_chunks last_tsn
      else if negb (tsn c =? u32 (last_tsn + 1)) then find_loop cs (i + 1) (-1) n_chunks last_tsn
      else if ending_fragment c then Some (start_idx, n_chunks + 1)
      else find_loop cs (i + 1) start_idx (n_chunks + 1) (tsn c)
  end.

Definition find_complete_unordered_chunk_set (now : Z) (q : ReassemblyQueue) : res (option Chunks * ReassemblyQueue) :=
  match find_loop (unordered_chunks q) 0 (-1) 0 0 with
  | None => Ok (None, q)
  | Some (start, n) =>
      let! cs := slice (unordered_chunks q) start (start + n) in
      let rest := take (Z.to_nat start) (unordered_chunks q) ++ drop (Z.to_nat (start + n)) (unordered_chunks q) in
      let! c := index cs 0 in
      Ok (Some (chunks_new now 0 (payload_type c) cs),
          mkRQ (si q) (next_ssn q) (ordered q) (rq_unordered q) rest (rq_n_bytes q))
  end.

Definition rq_push (now : Z) (q : ReassemblyQueue) (chunk : ChunkPayloadData) : res (bool * ReassemblyQueue) :=
  if negb (stream_identifier chunk =? si q) then Ok (false, q)
  else if unordered chunk then
    let n_bytes := u64 (rq_n_bytes q + len (user_data chunk)) in
    let idx := partition_point (λ c, sna32lt (tsn c) (tsn chunk)) (unordered_chunks q) in
    let q := mkRQ (si q) (next_ssn q) (ordered q) (rq_unordered q) (insert_at idx chunk (unordered_chunks q)) n_bytes in
    let! (cset, q) := find_complete_unordered_chunk_set now q in
    match cset with
    | Some cset => Ok (true, mkRQ (si q) (next_ssn q) (ordered q) (rq_unordered q ++ [cset]) (unordered_chunks q) (rq_n_bytes q))
    | None => Ok (false, q)
    end
  else if sna16lt (stream_sequence_number chunk) (next_ssn q) then Ok (false, q)
  else
    let n_bytes := u64 (rq_n_bytes q + len (user_data chunk)) in
    let ssn := stream_sequence_number chunk in
    let idx := partition_point (λ s, sna16lt (cs_ssn s) ssn) (ordered q) in
    let fresh :=
      let cset := chunks_new now ssn (payload_type chunk) [] in
      let (ok, cset) := chunks_push cset chunk in
      Ok (ok, mkRQ (si q) (next_ssn q) (insert_at idx cset (ordered q)) (rq_unordered q) (unordered_chunks q) n_bytes) in
    match ordered q !! idx with
    | Some s =>
        if cs_ssn s =? ssn then
          let (ok, s) := chunks_push s chunk in
          Ok (ok, mkRQ (si q) (next_ssn q) (<[idx := s]> (ordered q)) (rq_unordered q) (unordered_chunks q) n_bytes)
        else fresh
    | None => fresh
    end.

Definition is_readable (q : ReassemblyQueue) : bool :=
  if negb (bool_decide (rq_unordered q = [])) then true
  else match ordered q with
  | cset :: _ => is_complete cset && sna16lte (cs_ssn cset) (next_ssn q)
  | [] => false
  end.

Definition readable_unordered_chunks (q : ReassemblyQueue) : option Chunks := head (rq_unordered q).

Definition readable_ordered_chunks (q : ReassemblyQueue) : option Chunks :=
  match head (ordered q) with
  | Some cs =>
      if negb (is_complete cs) then None else if sna16gt (cs_ssn cs) (next_ssn q) then None else Some cs
  | None => None
  end.

Definition subtract_num_bytes (q : ReassemblyQueue) (n : Z) : ReassemblyQueue :=
  mkRQ (si q) (next_ssn q) (ordered q) (rq_unordered q) (unordered_chunks q)
    (if n <=? rq_n_bytes q then rq_n_bytes q - n else 0).

(** [self.unordered.pop_front().unwrap()] *)
Definition take_unordered (q : ReassemblyQueue) : res (Chunks * ReassemblyQueue) :=
  match rq_unordered q with
  | cs :: rest => Ok (cs, mkRQ (si q) (next_ssn q) (ordered q) rest (unordered_chunks q) (rq_n_bytes q))
  | [] => Panic
  end.

(** [if chunks.ssn == self.next_ssn { next_ssn += 1 }] and [self.ordered.pop_front().unwrap()] *)
Definition take_ordered (q : ReassemblyQueue) : res (Chunks * ReassemblyQueue) :=
  match ordered q with
  | cs :: rest =>
      let next := if cs_ssn cs =? next_ssn q then u16 (next_ssn q + 1) else next_ssn q in
      Ok (cs, mkRQ (si q) next rest (rq_unordered q) (unordered_chunks q) (rq_n_bytes q))
  | [] => Panic
  end.

Definition rq_read (q : ReassemblyQueue) : res (option Chunks * ReassemblyQueue) :=
  let! found :=
    match readable_unordered_chunks q, readable_ordered_chunks q with
    | Some u, Some o =>
        let! r := if timestamp u <? timestamp o then take_unordered q else take_ordered q in Ok (Some r)
    | _, _ =>
        match rq_unordered q, ordered q with
        | _ :: _, _ => let! r := take_unordered q in Ok (Some r)
        | [], cs :: _ =>
            if negb (is_complete cs) then Ok None
            else if sna16gt (cs_ssn cs) (next_ssn q) then Ok None
            else let! r := take_ordered q in Ok (Some r)
        | [], [] => Ok None
        end
    end in
  match found with
  | Some (cs, q) => Ok (Some cs, subtract_num_bytes q (chunks_len cs))
  | None => Ok (None, q)
  end.

Definition forward_tsn_for_ordered (q : ReassemblyQueue) (last_ssn : Z) : ReassemblyQueue :=
  let num_bytes := foldl (λ n s, n + foldl (λ acc c, acc + len (user_data c)) 0 (chunks s)) 0
                     (filter (λ s, sna16lte (cs_ssn s) last_ssn && negb (is_complete s) = true) (ordered q)) in
  let q := subtract_num_bytes q num_bytes in
  mkRQ (si q) (if sna16lte (next_ssn q) last_ssn then u16 (last_ssn + 1) else next_ssn q)
    (filter (λ s, negb (sna16lte (cs_ssn s) last_ssn) || is_complete s = true) (ordered q))
    (rq_unordered q) (unordered_chunks q) (rq_n_bytes q).

(** How many chunks of [unordered_chunks] come before the first one newer than the TSN. *)
Fixpoint forwarded (new_cumulative_tsn : Z) (cs : list ChunkPayloadData) : nat :=
  match cs with
  | c :: cs => if sna32gt (tsn c) new_cumulative_tsn then O else S (forwarded new_cumulative_tsn cs)
  | [] => O
  end.

Definition forward_tsn_for_unordered (q : ReassemblyQueue) (new_cumulative_tsn : Z) : ReassemblyQueue :=
  let n := forwarded new_cumulative_tsn (unordered_chunks q) in
  let q' := foldl (λ q c, subtract_num_bytes q (len (user_data c))) q (take n (unordered_chunks q)) in
  mkRQ (si q') (next_ssn q') (ordered q') (rq_unordered q') (drop n (unordered_chunks q)) (rq_n_bytes q').

(** * The fragments of a message

    [fragments t m]: the chunks [m] are a message whose first TSN is [t] (not wrapped): the
    TSNs follow each other, the first chunk and only it begins, the last and only it ends. *)

Record fragments (t : Z) (m : list ChunkPayloadData) : Prop := {
  fr_nonempty : m ≠ [];
  fr_short : len m < 2 ^ 31;
  fr_tsn i c : m !! i = Some c → tsn c = u32 (t + Z.of_nat i);
  fr_begin i c : m !! i = Some c → beginning_fragment c = bool_decide (i = 0%nat);
  fr_end i c : m !! i = Some c → ending_fragment c = bool_decide (S i = length m)
}.

#[export] Instance data_inhabited : Inhabited ChunkPayloadData := populate data_default.

(** Some of the fragments, by index. *)
Definition pick (m : list ChunkPayloadData) (ix : list Z) : list ChunkPayloadData :=
  (λ i, m !!! Z.to_nat i) <$> ix.

Definition picks (m : list ChunkPayloadData) (ix : list Z) : Prop :=
  StronglySorted Z.lt ix ∧ Forall (λ i, 0 <= i < len m) ix.

Lemma last_seqZ a n : 0 < n → last (seqZ a n) = Some (a + n - 1).
Proof.
  intros Hn. replace n with (n - 1 + 1) at 1 by lia. rewrite seqZ_app by lia.
  rewrite (seqZ_cons _ 1), (seqZ_nil _ (Z.pred 1)), last_snoc by lia. f_equal. lia.
Qed.

Lemma sorted_seqZ a n : StronglySorted Z.lt (seqZ a n).
Proof.
  destruct (Z.le_gt_cases n 0); [rewrite seqZ_nil by lia; constructor|].
  revert a. replace n with (Z.of_nat (Z.to_nat n)) by lia. induction (Z.to_nat n) as [|k IH]; intros a.
  { rewrite seqZ_nil by lia. constructor. }
  rewrite seqZ_cons by lia. replace (Z.pred (Z.of_nat (S k))) with (Z.of_nat k) by lia.
  constructor; [apply IH|]. apply Forall_forall. intros x. rewrite elem_of_seqZ. lia.
Qed.

Lemma sorted_NoDup l : StronglySorted Z.lt l → NoDup l.
Proof.
  induction 1 as [|x l Hs IH Hx]; constructor; [|done]. intros Hin. rewrite Forall_forall in Hx.
  specialize (Hx x Hin). lia.
Qed.

Section Fragments.
Context (t : Z) (m : list ChunkPayloadData).
Hypothesis F : fragments t m.

Lemma frag_lookup i : 0 <= i < len m → m !! Z.to_nat i = Some (m !!! Z.to_nat i).
Proof. intros Hi. apply list_lookup_lookup_total_lt. unfold len in Hi. lia. Qed.

Lemma frag_tsn i : 0 <= i < len m → tsn (m !!! Z.to_nat i) = u32 (t + i).
Proof. intros Hi. rewrite (fr_tsn _ _ F _ _ (frag_lookup i Hi)). f_equal. lia. Qed.

Lemma frag_begin i : 0 <= i < len m → beginning_fragment (m !!! Z.to_nat i) = (i =? 0).
Proof.
  intros Hi. rewrite (fr_begin _ _ F _ _ (frag_lookup i Hi)).
  destruct (Z.eqb_spec i 0); [apply bool_decide_eq_true_2|apply bool_decide_eq_false_2]; lia.
Qed.

Lemma frag_end i : 0 <= i < len m → ending_fragment (m !!! Z.to_nat i) = (i =? len m - 1).
Proof.
  intros Hi. rewrite (fr_end _ _ F _ _ (frag_lookup i Hi)). unfold len in *.
  destruct (Z.eqb_spec i (Z.of_nat (length m) - 1)); [apply bool_decide_eq_true_2|apply bool_decide_eq_false_2]; lia.
Qed.

Lemma pick_all : pick m (seqZ 0 (len m)) = m.
Proof.
  apply list_eq. intros i. unfold pick. rewrite list_lookup_fmap.
  destruct (decide (i < length m)%nat) as [Hi|Hi].
  - rewrite (proj2 (lookup_seqZ _ _ _ (Z.of_nat i))) by (unfold len; lia). simpl. rewrite Nat2Z.id.
    symmetry. by apply list_lookup_lookup_total_lt.
  - rewrite lookup_seqZ_ge by (unfold len; lia). symmetry. apply lookup_ge_None_2. lia.
Qed.

(** Contiguous TSNs are contiguous indices. *)
Lemma contiguous_pick i ix :
  0 <= i < len m → StronglySorted Z.lt (i :: ix) → Forall (λ j, 0 <= j < len m) ix →
  contiguous (u32 (t + i)) (pick m ix) = true ↔ ix = seqZ (i + 1) (len ix).
Proof.
  pose proof (fr_short _ _ F) as Hsh. revert i. induction ix as [|j ix IH]; intros i Hi Hs Hb.
  { split; [|done]. intros _. by rewrite seqZ_nil. }
  inversion Hs as [|? ? Hs' Hij]; subst. inversion Hb as [|? ? Hj Hb']; subst.
  csimpl. unfold pick. cbn [fmap list_fmap contiguous]. fold (pick m ix). rewrite frag_tsn, u32_succ by done.
  rewrite u32_eqb by lia. rewrite len_cons, seqZ_cons by (pose proof (len_nonneg ix); lia).
  replace (Z.pred (1 + len ix)) with (len ix) by lia. replace (Z.succ (i + 1)) with (i + 1 + 1) by lia.
  destruct (Z.eqb_spec (t + j) (t + i + 1)) as [E|E]; cbn [negb].
  - assert (j = i + 1) as -> by lia. rewrite IH by done. split; [intros E'; by f_equal|by intros [= E']].
  - split; [done|]. intros [= -> _]. lia.
Qed.

(** The set is complete exactly when it holds every fragment. *)
Lemma complete_pick ix :
  picks m ix → complete_list (pick m ix) = true ↔ ix = seqZ 0 (len m).
Proof.
  intros [Hs Hb]. destruct ix as [|i ix].
  { split; [done|]. intros E. assert (len m ≠ 0).
    { pose proof (fr_nonempty _ _ F). destruct m; [done|]. unfold len. simpl. lia. }
    apply (f_equal length) in E. rewrite length_seqZ in E. unfold len in *. simpl in E. lia. }
  pose proof Hb as Hb0. inversion Hb as [|? ? Hi Hb']; subst. unfold complete_list, pick. cbn [fmap list_fmap].
  fold (pick m ix). rewrite frag_begin by done.
  change (m !!! Z.to_nat i :: pick m ix) with (pick m (i :: ix)).
  assert (∃ l, last (i :: ix) = Some l) as [l El] by (destruct (last (i :: ix)) eqn:E; [eauto|by apply last_None in E]).
  assert (l ∈ i :: ix) as Hl by (apply last_Some in El as [? ->]; apply elem_of_app; right; left).
  assert (0 <= l < len m) as Hlb by (by rewrite Forall_forall in Hb0; apply Hb0).
  assert (last (pick m (i :: ix)) = Some (m !!! Z.to_nat l)) as ->
    by (unfold pick; rewrite fmap_last, El; done).
  cbn [fmap option_fmap option_map default from_option id]. rewrite frag_end, frag_tsn by done.
  destruct (Z.eqb_spec i 0) as [->|Hi0]; cbn [negb];
    [|split; [done|]; intros E; rewrite seqZ_cons in E by lia; by injection E as ->].
  destruct (Z.eqb_spec l (len m - 1)) as [->|Hlast]; cbn [negb];
    [|split; [done|]; intros E; destruct Hlast; rewrite E, last_seqZ in El by lia; injection El as El; lia].
  cbn [id negb]. rewrite contiguous_pick by done. pose proof (len_nonneg ix).
  assert (0 :: seqZ (0 + 1) (len ix) = seqZ 0 (1 + len ix)) as E0
    by (rewrite (seqZ_cons 0) by lia; do 2 f_equal; lia).
  split.
  - intros E. rewrite E in El |- *. rewrite E0 in El |- *. rewrite last_seqZ in El by lia. injection El as El.
    f_equal. lia.
  - intros E. pose proof (f_equal len E) as El'. rewrite len_cons in El'. unfold len at 2 in El'.
    rewrite length_seqZ in El'. replace (len m) with (1 + len ix) in E by lia. rewrite <- E0 in E. by injection E.
Qed.

End Fragments.

Lemma sorted_around x ix :
  StronglySorted Z.lt ix → x ∈ ix →
  ∃ a b, ix = a ++ x :: b ∧ Forall (λ d, d < x) a ∧ Forall (λ d, x < d) b.
Proof.
  induction 1 as [|d ix Hs IH Hd]; [by intros ?%elem_of_nil|].
  intros [->|Hx]%elem_of_cons; [by exists [], ix|].
  destruct (IH Hx) as (a & b & -> & Ha & Hb). exists (d :: a), b. split_and!; [done| |done].
  constructor; [|done]. rewrite Forall_forall in Hd. apply Hd, elem_of_app. right; left.
Qed.

Definition with_chunks (s : Chunks) (cs : list ChunkPayloadData) : Chunks :=
  mkChunks (cs_ssn s) (cs_ppi s) cs (cs_offset s) (cs_index s) (timestamp s).

Lemma pick_app m a b : pick m (a ++ b) = pick m a ++ pick m b.
Proof. apply fmap_app. Qed.
Lemma pick_cons m i ix : pick m (i :: ix) = m !!! Z.to_nat i :: pick m ix.
Proof. done. Qed.
Lemma length_pick m ix : length (pick m ix) = length ix.
Proof. apply length_fmap. Qed.

(** The element after a prefix. *)
Lemma lookup_pick_middle m a b : pick m (a ++ b) !! length a = pick m b !! 0%nat.
Proof. by rewrite pick_app, lookup_app_r, length_pick, Nat.sub_diag by (by rewrite length_pick). Qed.

Section PushFragment.
Context (t : Z) (m : list ChunkPayloadData).
Hypothesis F : fragments t m.

(** How a stored fragment compares with an arriving one. *)
Lemma frag_before i j :
  0 <= i < len m → 0 <= j < len m →
  sna32lt (tsn (m !!! Z.to_nat i)) (tsn (m !!! Z.to_nat j)) = (i <? j).
Proof.
  intros Hi Hj. pose proof (fr_short _ _ F). rewrite !(frag_tsn t m F) by done. rewrite sna32lt_spec by lia.
  destruct (Z.ltb_spec (t + i) (t + j)), (Z.ltb_spec i j); done || lia.
Qed.

Lemma pick_partition i a b :
  0 <= i < len m → Forall (λ j, 0 <= j < len m) (a ++ b) → Forall (λ j, j < i) a → Forall (λ j, i <= j) b →
  partition_point (λ c, sna32lt (tsn c) (tsn (m !!! Z.to_nat i))) (pick m (a ++ b)) = length a.
Proof.
  intros Hi Hb Ha Hb'. unfold pick. rewrite fmap_app.
  apply Forall_app in Hb as [Hba Hbb]. rewrite Forall_forall in Ha, Hb', Hba, Hbb.
  rewrite partition_point_spec; [apply length_fmap|..]; apply Forall_fmap, Forall_forall; intros j Hj; simpl;
    rewrite frag_before by auto; [apply Z.ltb_lt|apply Z.ltb_ge]; auto.
Qed.

Lemma push_pick s ix i :
  picks m ix → 0 <= i < len m → chunks s = pick m ix →
  ∃ ix', picks m ix' ∧ (∀ j, j ∈ ix' ↔ j = i ∨ j ∈ ix) ∧
         snd (chunks_push s (m !!! Z.to_nat i)) = with_chunks s (pick m ix').
Proof.
  intros [Hs Hb] Hi Hc. unfold chunks_push. rewrite Hc. destruct (decide (i ∈ ix)) as [Hin|Hin].
  - exists ix. split_and!; [done|intros j; split; [by right|by intros [->|]]|].
    destruct (sorted_around i ix Hs Hin) as (a & b & -> & Ha & Hb').
    rewrite pick_partition; [|done|done|done|].
    + rewrite bool_decide_eq_true_2 by (by rewrite lookup_pick_middle). cbn [snd].
      unfold with_chunks. rewrite <- Hc. by destruct s.
    + constructor; [lia|]. eapply Forall_impl; [exact Hb'|]. simpl. lia.
  - destruct (sorted_split i ix Hs Hin) as (a & b & -> & Ha & Hb'). exists (a ++ i :: b). split_and!.
    + split; [by apply sorted_insert|]. apply Forall_app in Hb as [? ?]. apply Forall_app. split; [done|].
      by constructor.
    + intros j. rewrite !elem_of_app, elem_of_cons. tauto.
    + rewrite pick_partition; [|done|done|done|eapply Forall_impl; [exact Hb'|]; simpl; lia].
      rewrite bool_decide_eq_false_2.
      * cbn [snd]. unfold with_chunks, insert_at. rewrite !pick_app, pick_cons.
        by rewrite take_app_length', drop_app_length' by (by rewrite length_pick).
      * rewrite lookup_pick_middle. destruct b as [|j b]; [done|]. rewrite pick_cons. csimpl.
        apply Forall_app in Hb as [_ Hbj]. inversion Hbj as [|? ? Hj _]; subst. inversion Hb' as [|? ? Hij _]; subst.
        rewrite !(frag_tsn t m F) by done. pose proof (fr_short _ _ F). intros [= E%u32_inj]; lia.
Qed.

Lemma push_pick_result s ix i :
  picks m ix → 0 <= i < len m → chunks s = pick m ix → i ∉ ix →
  fst (chunks_push s (m !!! Z.to_nat i)) = is_complete (snd (chunks_push s (m !!! Z.to_nat i))).
Proof.
  intros [Hs Hb] Hi Hc Hin. unfold chunks_push. destruct (bool_decide _) eqn:E; [|done].
  apply bool_decide_eq_true_1 in E. exfalso. apply Hin.
  destruct (chunks s !! _) as [c|] eqn:El; [|done]. rewrite Hc in El. unfold pick in El.
  apply list_lookup_fmap_Some in El as (j & -> & Hj). apply list_elem_of_lookup_2 in Hj.
  rewrite Forall_forall in Hb. specialize (Hb j Hj). simpl in E. rewrite !(frag_tsn t m F) in E by done.
  pose proof (fr_short _ _ F). injection E as E. apply u32_inj in E; [|lia]. by replace i with j by lia.
Qed.

Lemma push_all_pick s ix arrival :
  picks m ix → chunks s = pick m ix → Forall (λ i, 0 <= i < len m) arrival →
  ∃ ix', picks m ix' ∧ (∀ j, j ∈ ix' ↔ j ∈ ix ∨ j ∈ arrival) ∧
         foldl (λ s c, snd (chunks_push s c)) s (pick m arrival) = with_chunks s (pick m ix').
Proof.
  intros Hp Hc Ha. revert s ix Hp Hc. induction Ha as [|i arrival Hi Ha IH]; intros s ix Hp Hc.
  { exists ix. split_and!; [done| |by destruct s; simpl in *; subst]. intros j. rewrite elem_of_nil. tauto. }
  destruct (push_pick s ix i Hp Hi Hc) as (ix1 & Hp1 & H1 & E1). rewrite pick_cons. cbn [foldl]. rewrite E1.
  destruct (IH (with_chunks s (pick m ix1)) ix1 Hp1 eq_refl) as (ix' & Hp' & H' & E'). exists ix'.
  split_and!; [done| |exact E']. intros j. rewrite H', H1, elem_of_cons. tauto.
Qed.

(** Strictly increasing indices that cover the message are all of them. *)
Lemma picks_all ix : picks m ix → (∀ i, 0 <= i < len m → i ∈ ix) → ix = seqZ 0 (len m).
Proof.
  intros [Hs Hb] Hall. apply (StronglySorted_unique_strong Z.lt); [lia|done|apply sorted_seqZ|].
  apply NoDup_Permutation; [by apply sorted_NoDup|apply NoDup_seqZ|].
  intros i. rewrite elem_of_seqZ. rewrite Forall_forall in Hb. split; [intros Hi; specialize (Hb i Hi); lia|].
  intros Hi. apply Hall. lia.
Qed.

End PushFragment.

(** * Reading a message *)

Definition payload (cs : list ChunkPayloadData) : bytes := concat (user_data <$> cs).

Lemma foldl_len cs a : foldl (λ l c, l + len (user_data c)) a cs = a + len (payload cs).
Proof.
  revert a. induction cs as [|c cs IH]; intros a; [unfold payload, len; simpl; lia|].
  cbn [foldl]. rewrite IH. unfold payload. csimpl. rewrite len_app. lia.
Qed.

Lemma chunks_len_eq s : chunks_len s = len (payload (chunks s)).
Proof. unfold chunks_len. by rewrite foldl_len. Qed.

Lemma read_loop_spec cs pre buf :
  len (payload cs) <= len buf →
  read_loop cs (len pre) (pre ++ buf) =
    (Ok (len pre + len (payload cs)), pre ++ payload cs ++ drop (length (payload cs)) buf).
Proof.
  revert pre buf. induction cs as [|c cs IH]; intros pre buf Hl.
  { cbn. by rewrite Z.add_0_r, drop_0. }
  unfold payload in *. csimpl in Hl. rewrite len_app in Hl. pose proof (len_nonneg (concat (user_data <$> cs))).
  pose proof (len_nonneg pre). csimpl. cbn [read_loop]. rewrite len_app. rewrite Z.min_l by lia.
  rewrite Z.ltb_irrefl.
  replace (take (Z.to_nat (len pre)) (pre ++ buf)) with pre by (unfold len; by rewrite Nat2Z.id, take_app_length).
  replace (take (Z.to_nat (len (user_data c))) (user_data c)) with (user_data c)
    by (unfold len; by rewrite Nat2Z.id, firstn_all).
  replace (drop (Z.to_nat (len pre + len (user_data c))) (pre ++ buf)) with (drop (length (user_data c)) buf)
    by (unfold len; rewrite Z2Nat.inj_add, !Nat2Z.id by lia; by rewrite drop_app_add).
  rewrite app_assoc, <- len_app, IH by (rewrite len_drop; unfold len in *; lia).
  rewrite !len_app, <- !app_assoc, drop_drop, length_app. do 2 f_equal. lia.
Qed.

Lemma read_loop_short cs n buf :
  0 <= n <= len buf → len buf < n + len (payload cs) → fst (read_loop cs n buf) = Err ErrShortBuffer.
Proof.
  revert n buf. induction cs as [|c cs IH]; intros n buf Hn Hl; unfold payload in *; csimpl in Hl.
  { unfold len in *. simpl in Hl. lia. }
  rewrite len_app in Hl. cbn [read_loop]. pose proof (len_nonneg (user_data c)).
  destruct (Z.ltb_spec (Z.min (len (user_data c)) (len buf - n)) (len (user_data c))); [done|].
  assert (len (user_data c) <= len buf - n) by lia. rewrite Z.min_l by lia. apply IH; autorewrite with len; lia.
Qed.

(** What [next] has not delivered yet. *)
Definition unread (s : Chunks) : bytes :=
  drop (Z.to_nat (cs_offset s)) (payload (drop (Z.to_nat (cs_index s)) (chunks s))).

Definition cursor_ok (s : Chunks) : Prop :=
  0 <= cs_index s ∧ 0 <= cs_offset s ∧
  match chunks s !! Z.to_nat (cs_index s) with
  | Some c => cs_offset s <= len (user_data c)
  | None => cs_offset s = 0
  end.

Lemma next_loop_spec todo index offset n max buf :
  0 <= offset → 0 <= n <= max →
  match todo with c :: _ => offset <= len (user_data c) | [] => offset = 0 end →
  ∃ buf' k offset', next_loop todo index offset n max buf = Ok (buf', index + Z.of_nat k, offset') ∧
    buf' = buf ++ take (Z.to_nat (max - n)) (drop (Z.to_nat offset) (payload todo)) ∧
    drop (Z.to_nat offset') (payload (drop k todo)) =
      drop (Z.to_nat (max - n)) (drop (Z.to_nat offset) (payload todo)) ∧
    0 <= offset' ∧ match todo !! k with Some c => offset' <= len (user_data c) | None => offset' = 0 end.
Proof.
  revert index offset n buf. induction todo as [|c todo IH]; intros index offset n buf Ho Hn Hoff.
  { subst offset. exists buf, O, 0. cbn [next_loop]. unfold payload. rewrite Z.add_0_r.
    split_and!; try done; cbn; rewrite ?drop_nil, ?take_nil, ?app_nil_r; done. }
  cbn [next_loop]. rewrite slice_drop by lia. cbn [rbind].
  assert (len (drop (Z.to_nat offset) (user_data c)) = len (user_data c) - offset) as El
    by (rewrite len_drop; lia). rewrite El.
  set (k := Z.min (len (user_data c) - offset) (max - n)).
  assert (slice (user_data c) offset (offset + k) =
          Ok (take (Z.to_nat k) (drop (Z.to_nat offset) (user_data c)))) as ->.
  { unfold slice, assert_. rewrite !(proj2 (Z.leb_le _ _)) by lia. cbn [andb]. do 2 f_equal. lia. }
  cbn [rbind]. unfold payload. csimpl. fold (payload todo).
  rewrite drop_app_le by (unfold len in *; lia).
  set (rest := drop (Z.to_nat offset) (user_data c)) in *.
  destruct (Z.ltb_spec k (len (user_data c) - offset)) as [Hk|Hk].
  - assert (k = max - n) as Ek by lia. exists (buf ++ take (Z.to_nat k) rest), O, (offset + k).
    rewrite Z.add_0_r. split_and!; [done| | |lia|cbn; lia].
    + rewrite Ek. f_equal. rewrite take_app_le by (unfold len in *; lia). done.
    + cbn [drop]. unfold payload. csimpl. fold (payload todo). rewrite !drop_app_le by (unfold len in *; lia).
      f_equal. unfold rest. rewrite drop_drop. f_equal. lia.
  - assert (k = len rest) as Ek by lia.
    assert (take (Z.to_nat k) rest = rest) as -> by (rewrite Ek; unfold len; by rewrite Nat2Z.id, firstn_all).
    destruct (IH (index + 1) 0 (n + k) (buf ++ rest)) as (buf' & j & offset' & -> & -> & E3 & E4 & E5); [lia|lia| |].
    { destruct todo; [done|apply len_nonneg]. }
    eexists _, (S j), offset'. split_and!; [do 3 f_equal; lia| | |done|done].
    + rewrite <- app_assoc. f_equal. rewrite drop_0, take_app_ge by (unfold len in *; lia). f_equal.
      f_equal. unfold len in *. lia.
    + cbn [drop]. fold (payload (drop j todo)). rewrite E3, drop_0. rewrite drop_app_ge by (unfold len in *; lia). f_equal. unfold len in *. lia.
Qed.

Lemma to_payload_eq s max :
  to_payload s max = if max <? len (payload (chunks s)) then Err ErrShortBuffer else Ok (payload (chunks s)).
Proof. unfold to_payload. rewrite chunks_len_eq. by rewrite (foldl_append user_data). Qed.

Lemma push_any_order t m arrival now ssn ppi :
  fragments t m → Forall (λ i, 0 <= i < len m) arrival →
  let s := foldl (λ s c, snd (chunks_push s c)) (chunks_new now ssn ppi []) (pick m arrival) in
  (is_complete s = true ↔ ∀ i, 0 <= i < len m → i ∈ arrival) ∧
  (is_complete s = true →
   chunks s = m ∧
   ∀ max, to_payload s max = if max <? len (payload m) then Err ErrShortBuffer else Ok (payload m)).
Proof.
  intros F Ha s.
  destruct (push_all_pick t m F (chunks_new now ssn ppi []) [] arrival) as (ix & Hp & Hix & E);
    [split; constructor|done|done|]. fold s in E.
  assert (is_complete s = true ↔ ix = seqZ 0 (len m)) as Hc by (rewrite E; by apply (complete_pick t m F)).
  split.
  - rewrite Hc. split.
    + intros -> i Hi. destruct (proj1 (Hix i)) as [?%elem_of_nil|?]; [apply elem_of_seqZ; lia|done|done].
    + intros Hall. apply (picks_all m); [done|]. intros i Hi. apply Hix. right. by apply Hall.
  - intros Hcs%Hc. assert (chunks s = m) as Em by (rewrite E, Hcs; apply pick_all).
    split; [done|]. intros max. by rewrite to_payload_eq, Em.
Qed.

(** C9: the fragments of a message may arrive in any order and more than once: the set is
    complete exactly when every fragment has arrived, and then it holds the message, whose
    payload is the concatenation of the fragments, or is refused when it is longer than the
    caller allows. *)
Theorem reassembly_any_order t m arrival now ssn ppi :
  fragments t m → Forall (λ i, 0 <= i < len m) arrival →
  let s := foldl (λ s c, snd (chunks_push s c)) (chunks_new now ssn ppi []) (pick m arrival) in
  (is_complete s = true ↔ ∀ i, 0 <= i < len m → i ∈ arrival) ∧
  (is_complete s = true →
   chunks s = m ∧
   ∀ max, to_payload s max = if max <? len (payload m) then Err ErrShortBuffer else Ok (payload m)).
Proof. apply push_any_order. Qed.

(** A message is read whole into a buffer that is large enough and refused otherwise, and
    [next] hands it out piece by piece: each piece is the next [max] bytes, or what is left. *)
Theorem message_reading s buf max :
  cursor_ok s → 0 <= max →
  (if len (payload (chunks s)) <=? len buf
   then chunks_read s buf = (Ok (len (payload (chunks s))), payload (chunks s) ++ drop (length (payload (chunks s))) buf)
   else fst (chunks_read s buf) = Err ErrShortBuffer) ∧
  (if cs_index s <? len (chunks s)
   then ∃ s', chunks_next s max = Ok (Some (take (Z.to_nat max) (unread s)), s') ∧
              unread s' = drop (Z.to_nat max) (unread s) ∧ cursor_ok s' ∧ chunks s' = chunks s
   else chunks_next s max = Ok (None, s)).
Proof.
  intros (Hi & Ho & Hcur) Hmax. split.
  - destruct (Z.leb_spec (len (payload (chunks s))) (len buf)).
    + by apply (read_loop_spec (chunks s) [] buf).
    + apply read_loop_short; [pose proof (len_nonneg buf)|]; lia.
  - unfold chunks_next. destruct (Z.ltb_spec (cs_index s) (len (chunks s))) as [Hlt|Hge];
      [|by rewrite (proj2 (Z.leb_le _ _)) by lia].
    rewrite (proj2 (Z.leb_gt _ _)) by lia.
    destruct (next_loop_spec (drop (Z.to_nat (cs_index s)) (chunks s)) (cs_index s) (cs_offset s) 0 max [])
      as (buf' & k & offset' & -> & -> & E3 & E4 & E5); [done|lia| |].
    { rewrite <- (Nat.add_0_r (Z.to_nat (cs_index s))), <- lookup_drop in Hcur.
      by destruct (drop (Z.to_nat (cs_index s)) (chunks s)). }
    cbn [rbind app]. rewrite Z.sub_0_r in *. eexists. split_and!; [reflexivity| | |done].
    + unfold unread at 1. cbn [cs_index cs_offset chunks]. rewrite Z2Nat.inj_add, Nat2Z.id, <- drop_drop by lia. done.
    + unfold cursor_ok. cbn [cs_index cs_offset chunks]. split_and!; [lia|done|].
      by rewrite Z2Nat.inj_add, Nat2Z.id, <- lookup_drop by lia.
Qed.

(** * Unordered messages *)

Definition last_tsn (t : Z) (cs : list ChunkPayloadData) : Z := default t (tsn <$> last cs).

Lemma last_tsn_snoc t cs c : last_tsn t (cs ++ [c]) = tsn c.
Proof. unfold last_tsn. by rewrite last_snoc. Qed.

Lemma last_tsn_cons t d cs : last_tsn t (d :: cs) = last_tsn (tsn d) cs.
Proof. unfold last_tsn. rewrite last_cons. by destruct (last cs). Qed.

Lemma contiguous_snoc t cs c :
  contiguous t cs = true → tsn c = u32 (last_tsn t cs + 1) → contiguous t (cs ++ [c]) = true.
Proof.
  revert t. induction cs as [|d cs IH]; intros t Hc Ht.
  - cbn. unfold last_tsn in Ht. simpl in Ht. by rewrite Ht, Z.eqb_refl.
  - cbn [contiguous app] in *. destruct (negb (tsn d =? u32 (t + 1))); [done|]. apply IH; [done|].
    by rewrite <- last_tsn_cons with (t := t).
Qed.

(** An open run of the scan. *)
Definition open_run (run : list ChunkPayloadData) (last : Z) : Prop :=
  ∃ b rest, run = b :: rest ∧ beginning_fragment b = true ∧ contiguous (tsn b) rest = true ∧ last = last_tsn (tsn b) rest.

Lemma open_run_snoc run last c :
  open_run run last → tsn c = u32 (last + 1) → open_run (run ++ [c]) (tsn c).
Proof.
  intros (b & rest & -> & Hb & Hc & ->) Ht. exists b, (rest ++ [c]).
  split_and!; [done|done|by apply contiguous_snoc|by rewrite last_tsn_snoc].
Qed.

Lemma open_run_complete run last c :
  open_run run last → tsn c = u32 (last + 1) → ending_fragment c = true → complete_list (run ++ [c]) = true.
Proof.
  intros (b & rest & -> & Hb & Hc & ->) Ht He. cbn [app complete_list]. rewrite Hb. cbn [negb].
  change (b :: rest ++ [c]) with ((b :: rest) ++ [c]). rewrite last_snoc. cbn. rewrite He. cbn.
  by apply contiguous_snoc.
Qed.

Definition scan_state (pre : list ChunkPayloadData) (start n last : Z) : Prop :=
  start < 0 ∨ ∃ a run, pre = a ++ run ∧ start = len a ∧ n = len run ∧ open_run run last.

Lemma find_loop_sound cs pre start n last s k :
  scan_state pre start n last → find_loop cs (len pre) start n last = Some (s, k) →
  ∃ a run b, pre ++ cs = a ++ run ++ b ∧ s = len a ∧ k = len run ∧ complete_list run = true.
Proof.
  revert pre start n last. induction cs as [|c cs IH]; intros pre start n last Hst; [done|]. cbn [find_loop].
  assert (∀ start n last, scan_state (pre ++ [c]) start n last → find_loop cs (len pre + 1) start n last = Some (s, k) →
    ∃ a run b, pre ++ c :: cs = a ++ run ++ b ∧ s = len a ∧ k = len run ∧ complete_list run = true) as Hrec.
  { intros st n' l' Hst' E. specialize (IH (pre ++ [c]) st n' l' Hst'). rewrite <- app_assoc in IH. apply IH.
    by rewrite len_app. }
  destruct (beginning_fragment c) eqn:Eb.
  - destruct (ending_fragment c) eqn:Ee.
    + intros [= <- <-]. exists pre, [c], cs. split_and!; [done..|]. cbn. by rewrite Eb, Ee.
    + apply Hrec. right. exists pre, [c]. split_and!; [done..|]. by exists c, [].
  - destruct (Z.ltb_spec start 0); [by apply Hrec; left|].
    destruct Hst as [?|(a & run & -> & -> & -> & Hrun)]; [lia|].
    destruct (Z.eqb_spec (tsn c) (u32 (last + 1))) as [Et|Et]; cbn [negb]; [|by apply Hrec; left].
    destruct (ending_fragment c) eqn:Ee.
    + intros [= <- <-]. exists a, (run ++ [c]), cs. split_and!; [by rewrite <- !app_assoc|done|by rewrite len_app|].
      by apply (open_run_complete run last).
    + apply Hrec. right. exists a, (run ++ [c]). split_and!; [by rewrite <- app_assoc|done|by rewrite len_app|].
      by apply (open_run_snoc run last).
Qed.

(** Middle and last fragments of a run. *)
Fixpoint run_tail (t : Z) (cs : list ChunkPayloadData) : Prop :=
  match cs with
  | [] => False
  | c :: cs =>
      tsn c = u32 (t + 1) ∧ beginning_fragment c = false ∧
      match cs with [] => ending_fragment c = true | _ => ending_fragment c = false ∧ run_tail (tsn c) cs end
  end.

Definition whole_run (run : list ChunkPayloadData) : Prop :=
  match run with
  | [] => False
  | c :: cs =>
      beginning_fragment c = true ∧
      match cs with [] => ending_fragment c = true | _ => ending_fragment c = false ∧ run_tail (tsn c) cs end
  end.

Lemma find_loop_tail cs b i start n last :
  0 <= start → run_tail last cs → is_Some (find_loop (cs ++ b) i start n last).
Proof.
  revert i n last. induction cs as [|c cs IH]; intros i n last Hs Hr; [done|].
  destruct Hr as (Ht & Hb & Hl). cbn [app find_loop]. rewrite Hb, (proj2 (Z.ltb_ge _ _)), Ht, Z.eqb_refl by done.
  cbn [negb]. destruct cs as [|c' cs]; [by rewrite Hl|]. destruct Hl as [-> Hl]. rewrite <- Ht. by apply IH.
Qed.

Lemma find_loop_complete a run b i start n last :
  0 <= i → whole_run run → is_Some (find_loop (a ++ run ++ b) i start n last).
Proof.
  intros Hi Hr. revert i start n last Hi. induction a as [|c a IH]; intros i start n last Hi.
  - destruct run as [|c cs]; [done|]. destruct Hr as [Hb Hl]. cbn [app find_loop]. rewrite Hb.
    destruct cs as [|c' cs]; [by rewrite Hl|]. destruct Hl as [-> Hl]. by apply find_loop_tail.
  - cbn [app find_loop].
    destruct (beginning_fragment c); [destruct (ending_fragment c); [done|apply IH; lia]|].
    destruct (start <? 0); [apply IH; lia|]. destruct (negb _); [apply IH; lia|].
    destruct (ending_fragment c); [done|apply IH; lia].
Qed.

Lemma find_set_spec now q :
  (find_complete_unordered_chunk_set now q = Ok (None, q) ∧ find_loop (unordered_chunks q) 0 (-1) 0 0 = None) ∨
  ∃ a run b c, unordered_chunks q = a ++ run ++ b ∧ complete_list run = true ∧ head run = Some c ∧
    find_complete_unordered_chunk_set now q =
      Ok (Some (chunks_new now 0 (payload_type c) run),
          mkRQ (si q) (next_ssn q) (ordered q) (rq_unordered q) (a ++ b) (rq_n_bytes q)).
Proof.
  unfold find_complete_unordered_chunk_set.
  destruct (find_loop (unordered_chunks q) 0 (-1) 0 0) as [[s k]|] eqn:E; [|by left]. right.
  destruct (find_loop_sound (unordered_chunks q) [] (-1) 0 0 s k) as (a & run & b & Ea & -> & -> & Hc); [left; lia|done|].
  cbn [app] in Ea. destruct run as [|c run]; [done|]. exists a, (c :: run), b, c. rewrite Ea.
  split_and!; [done..|]. rewrite slice_mid by done. cbn [rbind].
  replace (index (c :: run) 0) with (Ok c) by reflexivity. cbn [rbind]. do 3 f_equal.
  rewrite app_assoc. rewrite <- (len_app a (c :: run)). unfold len. rewrite !Nat2Z.id.
  rewrite drop_app_length, <- app_assoc, take_app_length. done.
Qed.

(** When a chunk of an unordered message arrives, a message that is complete is found
    and moved out of the fragments, whole and nothing else with it; when the fragments hold a
    complete message, one is found; the scan never panics. *)
Theorem unordered_message_found now q :
  no_panic (find_complete_unordered_chunk_set now q) ∧
  (∀ cs q', find_complete_unordered_chunk_set now q = Ok (Some cs, q') →
     is_complete cs = true ∧
     ∃ a b, unordered_chunks q = a ++ chunks cs ++ b ∧ unordered_chunks q' = a ++ b ∧ ordered q' = ordered q) ∧
  (∀ a run b, unordered_chunks q = a ++ run ++ b → whole_run run →
     ∃ cs q', find_complete_unordered_chunk_set now q = Ok (Some cs, q')).
Proof.
  destruct (find_set_spec now q) as [[E1 E2]|(a & run & b & c & E1 & E2 & E3 & E4)].
  - rewrite E1. split_and!; [done|done|]. intros a run b Ea Hr.
    destruct (find_loop_complete a run b 0 (-1) 0 0) as [x Hx]; [lia|done|]. rewrite <- Ea in Hx. congruence.
  - rewrite E4. split_and!; [done| |by eauto]. intros cs q' [= <- <-]. split; [done|]. by exists a, b.
Qed.

(** * Ordered delivery

    An ordered stream: message [k] (numbers do not wrap) has the fragments [M k], which carry
    the stream sequence number [k mod 2^16]. *)

Record ordered_stream (sid : Z) (M : Z → list ChunkPayloadData) (T : Z → Z) : Prop := {
  os_fragments k : 0 <= k → fragments (T k) (M k);
  os_flags k c : c ∈ M k → unordered c = false ∧ stream_identifier c = sid ∧ stream_sequence_number c = u16 k
}.

(** Whether a set that was read is an ordered message. *)
Definition is_ordered (cs : Chunks) : bool :=
  match chunks cs with c :: _ => negb (unordered c) | [] => false end.

(** What can happen to the reassembly queue of a stream: fragments of ordered messages in any
    order and more than once, unordered chunks, skipped messages, and reads.  [lo] is the
    number of the first message not delivered and not passed over, [out] the ordered messages
    delivered so far, [Fw] the skips and [P] the fragments that arrived, as pairs of a
    message number and an index.  Arriving numbers are less than 2^14 away from [lo]. *)
Inductive run (sid : Z) (M : Z → list ChunkPayloadData) :
  ReassemblyQueue → Z → list (list ChunkPayloadData) → list Z → list (Z * Z) → Prop :=
| run_new : run sid M (rq_new sid) 0 [] [] []
| run_fragment q lo out Fw P now k i ok q' :
    run sid M q lo out Fw P → 0 <= k → Z.abs (k - lo) < 2 ^ 14 → 0 <= i < len (M k) →
    rq_push now q (M k !!! Z.to_nat i) = Ok (ok, q') → run sid M q' lo out Fw ((k, i) :: P)
| run_unordered q lo out Fw P now c ok q' :
    run sid M q lo out Fw P → unordered c = true → rq_push now q c = Ok (ok, q') → run sid M q' lo out Fw P
| run_skip q lo out Fw P x :
    run sid M q lo out Fw P → Z.abs (x - lo) < 2 ^ 14 →
    run sid M (forward_tsn_for_ordered q (u16 x)) lo out (x :: Fw) P
| run_skip_unordered q lo out Fw P t :
    run sid M q lo out Fw P → run sid M (forward_tsn_for_unordered q t) lo out Fw P
| run_read_none q lo out Fw P q' :
    run sid M q lo out Fw P → rq_read q = Ok (None, q') → run sid M q' lo out Fw P
| run_read q lo out Fw P cs q' :
    run sid M q lo out Fw P → rq_read q = Ok (Some cs, q') →
    run sid M q' (if is_ordered cs then lo + u16 (cs_ssn cs - u16 lo) + 1 else lo)
      (if is_ordered cs then out ++ [chunks cs] else out) Fw P.

Definition set_ok (M : Z → list ChunkPayloadData) (e : Z * list Z) (cs : Chunks) : Prop :=
  cs_ssn cs = u16 (fst e) ∧ chunks cs = pick (M (fst e)) (snd e) ∧ picks (M (fst e)) (snd e) ∧ snd e ≠ [] ∧ 0 <= fst e.

(** [n] is the next sequence number, [ks] the messages delivered, [sets] the message numbers
    and indices of the fragments that wait. *)
Record run_inv (sid : Z) (M : Z → list ChunkPayloadData) (q : ReassemblyQueue) (lo n : Z) (ks : list Z)
    (sets : list (Z * list Z)) (Fw : list Z) (P : list (Z * Z)) : Prop := {
  ri_si : si q = sid;
  ri_next : next_ssn q = u16 n;
  ri_lo : 0 <= lo <= n;
  ri_ahead : n <= lo + 2 ^ 14;
  ri_sets : Forall2 (set_ok M) sets (ordered q);
  ri_sorted : StronglySorted Z.lt (fst <$> sets);
  ri_window : Forall (λ k, lo <= k < lo + 2 ^ 14) (fst <$> sets);
  ri_early e : e ∈ sets → fst e < n → snd e = seqZ 0 (len (M (fst e)));
  ri_order : StronglySorted Z.lt ks;
  ri_delivered : Forall (λ k, k < lo) ks;
  ri_noskip : Fw = [] → n = lo ∧ ks = seqZ 0 lo;
  ri_held k i : (k, i) ∈ P → n <= k → ∃ ix, (k, ix) ∈ sets ∧ i ∈ ix;
  ri_unordered : Forall (λ cs, is_ordered cs = false) (rq_unordered q);
  ri_unordered_chunks : Forall (λ c, unordered c = true) (unordered_chunks q)
}.

(** The sets before, at and after a message number. *)
Lemma sets_split (sets : list (Z * list Z)) k :
  StronglySorted Z.lt (fst <$> sets) →
  ∃ a b, sets = a ++ b ∧ Forall (λ e, fst e < k) a ∧
    match b with
    | [] => True
    | e :: b' => k <= fst e ∧ Forall (λ e, k < fst e) b'
    end.
Proof.
  induction sets as [|e sets IH]; intros Hs; [by exists [], []|]. csimpl in Hs. inversion Hs as [|? ? Hs' He]; subst.
  destruct (Z.lt_ge_cases (fst e) k) as [Hlt|Hge].
  - destruct (IH Hs') as (a & b & -> & Ha & Hb). exists (e :: a), b. split_and!; [done|by constructor|done].
  - exists [], (e :: sets). split_and!; [done|done|done|]. rewrite Forall_fmap in He.
    eapply Forall_impl; [exact He|]. simpl. lia.
Qed.

Lemma sets_filter_sorted (sets : list (Z * list Z)) (P : Z * list Z → Prop) `{∀ e, Decision (P e)} :
  StronglySorted Z.lt (fst <$> sets) → StronglySorted Z.lt (fst <$> filter P sets).
Proof.
  induction sets as [|e sets IH]; intros Hs; [done|]. csimpl in Hs. inversion Hs as [|? ? Hs' He]; subst.
  destruct (decide (P e)); [rewrite filter_cons_True by done|rewrite filter_cons_False by done; by apply IH].
  csimpl. constructor; [by apply IH|]. rewrite Forall_fmap in He |- *.
  rewrite Forall_forall in *. intros e' [_ Hin]%list_elem_of_filter. by apply He.
Qed.

Lemma sets_replace (a mid b : list (Z * list Z)) k ix :
  StronglySorted Z.lt (fst <$> a ++ mid ++ b) → Forall (λ e, fst e < k) a → Forall (λ e, k < fst e) b →
  StronglySorted Z.lt (fst <$> a ++ (k, ix) :: b).
Proof.
  intros Hs Ha Hb. rewrite !fmap_app in *. csimpl.
  apply sorted_insert; [|by apply Forall_fmap|by apply Forall_fmap].
  apply StronglySorted_app in Hs as (H1 & H2 & H3). apply StronglySorted_app in H3 as (_ & _ & H3).
  apply StronglySorted_app. split_and!; [|done|done]. intros x y Hx Hy. apply H1; [done|]. apply elem_of_app. by right.
Qed.

Section OrderedStream.
Context (sid : Z) (M : Z → list ChunkPayloadData) (T : Z → Z).
Hypothesis OS : ordered_stream sid M T.

Lemma fragment_flags k i :
  0 <= i < len (M k) →
  unordered (M k !!! Z.to_nat i) = false ∧ stream_identifier (M k !!! Z.to_nat i) = sid ∧
  stream_sequence_number (M k !!! Z.to_nat i) = u16 k.
Proof.
  intros Hi. apply (os_flags _ _ _ OS). eapply list_elem_of_lookup_2, list_lookup_lookup_total_lt. unfold len in Hi. lia.
Qed.

Lemma set_ok_complete e cs : set_ok M e cs → is_complete cs = true ↔ snd e = seqZ 0 (len (M (fst e))).
Proof.
  intros (_ & Hc & Hp & _ & Hk). unfold is_complete. rewrite Hc. apply (complete_pick (T (fst e))); [|done].
  by apply (os_fragments _ _ _ OS).
Qed.

Lemma set_ok_ordered e cs : set_ok M e cs → is_ordered cs = true.
Proof.
  intros (_ & Hc & [_ Hb] & Hne & _). unfold is_ordered. rewrite Hc. destruct (snd e) as [|i ix]; [done|].
  inversion Hb as [|? ? Hi _]; subst. rewrite pick_cons. by destruct (fragment_flags (fst e) i Hi) as [-> _].
Qed.

(** The sets around a number, on the side of the queue. *)
Lemma queue_partition a b qa qb k :
  Forall2 (set_ok M) a qa → Forall2 (set_ok M) b qb →
  Forall (λ e, fst e < k ∧ Z.abs (fst e - k) < 2 ^ 15) a → Forall (λ e, k <= fst e ∧ Z.abs (fst e - k) < 2 ^ 15) b →
  partition_point (λ s, sna16lt (cs_ssn s) (u16 k)) (qa ++ qb) = length qa.
Proof.
  intros Ha Hb Hka Hkb. apply partition_point_spec.
  - apply Forall_forall. intros cs (i & Hi)%list_elem_of_lookup.
    destruct (Forall2_lookup_r _ _ _ _ _ Ha Hi) as (e & He & (Hssn & _)). rewrite Hssn.
    eapply Forall_lookup_1 in Hka as [H1 H2]; [|exact He]. rewrite sna16lt_spec by done. by apply Z.ltb_lt.
  - apply Forall_forall. intros cs (i & Hi)%list_elem_of_lookup.
    destruct (Forall2_lookup_r _ _ _ _ _ Hb Hi) as (e & He & (Hssn & _)). rewrite Hssn.
    eapply Forall_lookup_1 in Hkb as [H1 H2]; [|exact He]. rewrite sna16lt_spec by done. apply Z.ltb_ge. done.
Qed.

(** The invariant after the set of message [k] was replaced or added. *)
Lemma inv_update q q' lo n ks a mid b Fw P k ix i :
  run_inv sid M q lo n ks (a ++ mid ++ b) Fw P →
  Forall (λ e, fst e < k) a → Forall (λ e, k < fst e) b →
  (∀ e, e ∈ mid → fst e = k ∧ ∀ j, j ∈ snd e → j ∈ ix) → n <= k < lo + 2 ^ 14 → i ∈ ix →
  si q' = si q → next_ssn q' = next_ssn q → rq_unordered q' = rq_unordered q →
  unordered_chunks q' = unordered_chunks q → Forall2 (set_ok M) (a ++ (k, ix) :: b) (ordered q') →
  run_inv sid M q' lo n ks (a ++ (k, ix) :: b) Fw ((k, i) :: P).
Proof.
  intros [R1 R2 R3 R4 R5 R6 R7 R8 R9 R10 R11 R12 R13 R14] Ha Hb Hmid Hk Hi E1 E2 E3 E4 Hq.
  split; rewrite ?E1, ?E2, ?E3, ?E4; try done.
  - by apply (sets_replace a mid b).
  - rewrite !fmap_app in *. apply Forall_app in R7 as [? [_ ?]%Forall_app]. apply Forall_app. split; [done|].
    csimpl. constructor; [lia|done].
  - intros e. rewrite elem_of_app, elem_of_cons. intros [He|[->|He]] Hlt; [| simpl in Hlt; lia|];
      apply R8; [rewrite !elem_of_app; tauto|done|rewrite !elem_of_app; tauto|done].
  - intros k' i' [[= -> ->]|Hin]%elem_of_cons Hn; [exists ix; split; [apply elem_of_app; right; left|done]|].
    destruct (R12 k' i' Hin Hn) as (ix' & Hix & Hi'). rewrite !elem_of_app in Hix.
    destruct Hix as [Hix|[Hix|Hix]].
    + exists ix'. split; [apply elem_of_app; by left|done].
    + destruct (Hmid _ Hix) as [Ek Hj]. simpl in *. subst k'. exists ix. split; [apply elem_of_app; right; left|by apply Hj].
    + exists ix'. split; [apply elem_of_app; right; by right|done].
Qed.

(** A fragment joins the set of its message, or starts it. *)
Lemma push_ordered now q lo n ks sets Fw P k i ok q' :
  run_inv sid M q lo n ks sets Fw P → 0 <= k → Z.abs (k - lo) < 2 ^ 14 → 0 <= i < len (M k) →
  rq_push now q (M k !!! Z.to_nat i) = Ok (ok, q') →
  ∃ sets', run_inv sid M q' lo n ks sets' Fw ((k, i) :: P).
Proof.
  intros R Hk Hw Hi. pose proof R as [R1 R2 R3 R4 R5 R6 R7 R8 R9 R10 R11 R12 R13 R14].
  destruct (fragment_flags k i Hi) as (Fu & Fs & Fn). unfold rq_push.
  rewrite Fu, Fs, Fn, R1, R2, Z.eqb_refl. cbn [negb]. rewrite sna16lt_spec by lia.
  destruct (Z.ltb_spec k n) as [Hkn|Hkn].
  { intros [= <- <-]. exists sets. split; try done. intros k' i' [[= -> ->]|Hin]%elem_of_cons ?; [lia|by apply R12]. }
  destruct (sets_split sets k R6) as (a & b & -> & Ha & Hb).
  apply Forall2_app_inv_l in R5 as (qa & qb & Qa & Qb & Eq). rewrite Eq.
  rewrite fmap_app in R7. apply Forall_app in R7 as [Wa Wb]. rewrite Forall_fmap in Wa, Wb.
  rewrite (queue_partition a b qa qb k Qa Qb).
  2: { rewrite Forall_forall in *. intros e He. specialize (Ha e He). specialize (Wa e He). simpl in *. lia. }
  2: { destruct b as [|e0 b0]; [done|]. destruct Hb as [Hb0 Hb]. rewrite Forall_forall in *. intros e He.
       specialize (Wb e He). simpl in Wb. apply elem_of_cons in He as [->|He]; [lia|]. specialize (Hb e He). simpl in *. lia. }
  pose proof (os_fragments _ _ _ OS k Hk) as F.
  assert (∀ s ix, picks (M k) ix → chunks s = pick (M k) ix → cs_ssn s = u16 k →
    ∃ ix', picks (M k) ix' ∧ i ∈ ix' ∧ (∀ j, j ∈ ix → j ∈ ix') ∧
           set_ok M (k, ix') (snd (chunks_push s (M k !!! Z.to_nat i)))) as Hset.
  { intros s ix Hp Hs Hn. destruct (push_pick (T k) (M k) F s ix i Hp Hi Hs) as (ix' & Hp' & Hj & E).
    exists ix'. assert (i ∈ ix') as Hin by (apply Hj; by left). split_and!; [done|done|intros; apply Hj; by right|].
    rewrite E. split_and!; [done|done|done| |done]. simpl. intros ->. by apply elem_of_nil in Hin. }
  assert (∀ q2 b0, b = b0 → Forall (λ e, k < fst e) b0 →
    (let (ok0, cset) := chunks_push (chunks_new now (u16 k) (payload_type (M k !!! Z.to_nat i)) []) (M k !!! Z.to_nat i) in
     Ok (ok0, mkRQ sid (u16 n) (insert_at (length qa) cset (qa ++ qb)) (rq_unordered q) (unordered_chunks q)
          (u64 (rq_n_bytes q + len (user_data (M k !!! Z.to_nat i)))))) = Ok (ok, q2) →
    ∃ sets', run_inv sid M q2 lo n ks sets' Fw ((k, i) :: P)) as Hfresh.
  { intros q2 b0 -> Hb0 E.
    destruct (Hset (chunks_new now (u16 k) (payload_type (M k !!! Z.to_nat i)) []) []) as (ix' & Hp' & Hin & _ & Hok);
      [split; constructor|done|done|].
    destruct (chunks_push _ _) as [ok0 cset]. injection E as <- <-. exists (a ++ (k, ix') :: b0).
    apply (inv_update q _ lo n ks a [] b0); try done; [by intros e ?%elem_of_nil|lia|].
    cbn [ordered]. unfold insert_at. rewrite take_app_length, drop_app_length.
    apply Forall2_app; [done|]. by constructor. }
  rewrite lookup_app_r, Nat.sub_diag by done. destruct qb as [|s qb].
  - apply Forall2_nil_inv_r in Qb as ->. by apply (Hfresh q' []).
  - apply Forall2_cons_inv_r in Qb as (e & b' & He & Qb & ->). destruct Hb as [Hke Hb']. cbn [lookup list_lookup].
    pose proof He as (Hssn & Hcs & Hpk & _ & _). rewrite Hssn, u16_eqb.
    2: { inversion Wb; subst. simpl in *. lia. }
    destruct (Z.eqb_spec (fst e) k) as [Ek|Ek].
    + destruct e as [k0 ix]. simpl in Ek. subst k0. cbn [fst snd] in *.
      destruct (Hset s ix Hpk Hcs Hssn) as (ix' & Hp' & Hin & Hsub & Hok).
      destruct (chunks_push s _) as [ok0 s']. intros [= <- <-]. exists (a ++ (k, ix') :: b').
      apply (inv_update q _ lo n ks a [(k, ix)] b'); try done.
      * intros e ->%list_elem_of_singleton. done.
      * lia.
      * cbn [ordered]. rewrite insert_app_r_alt, Nat.sub_diag by done. cbn. apply Forall2_app; [done|]. by constructor.
    + apply (Hfresh q' (e :: b')); [done|]. constructor; [lia|done].
Qed.

(** Operations on the unordered side keep the invariant. *)
Lemma inv_unordered q q' lo n ks sets Fw P :
  run_inv sid M q lo n ks sets Fw P → si q' = si q → next_ssn q' = next_ssn q → ordered q' = ordered q →
  Forall (λ cs, is_ordered cs = false) (rq_unordered q') → Forall (λ c, unordered c = true) (unordered_chunks q') →
  run_inv sid M q' lo n ks sets Fw P.
Proof.
  intros [R1 R2 R3 R4 R5 R6 R7 R8 R9 R10 R11 R12 R13 R14] E1 E2 E3 H1 H2. split; rewrite ?E1, ?E2, ?E3; done.
Qed.

Lemma push_unordered now q lo n ks sets Fw P c ok q' :
  run_inv sid M q lo n ks sets Fw P → unordered c = true → rq_push now q c = Ok (ok, q') →
  run_inv sid M q' lo n ks sets Fw P.
Proof.
  intros R Hc. unfold rq_push. destruct (negb _); [by intros [= <- <-]|]. rewrite Hc.
  set (idx := partition_point _ _). set (q1 := mkRQ _ _ _ _ (insert_at idx c (unordered_chunks q)) _).
  assert (Forall (λ c, unordered c = true) (unordered_chunks q1)) as H1.
  { cbn [q1 unordered_chunks]. unfold insert_at. pose proof (ri_unordered_chunks _ _ _ _ _ _ _ _ _ R).
    apply Forall_app. split; [by apply Forall_take|]. constructor; [done|by apply Forall_drop]. }
  destruct (find_set_spec now q1) as [[-> _]|(a & run & b & d & E1 & E2 & E3 & ->)]; cbn [rbind].
  - intros [= <- <-]. by apply (inv_unordered q); [..|apply R|].
  - intros [= <- <-]. rewrite E1 in H1. apply Forall_app in H1 as [Ha [Hr Hb]%Forall_app].
    apply (inv_unordered q); [done..| |by apply Forall_app].
    apply Forall_app. split; [apply R|]. constructor; [|done]. unfold is_ordered. cbn [chunks chunks_new].
    destruct run as [|e run]; [done|]. inversion Hr as [|? ? He _]; subst. by rewrite He.
Qed.

(** Filtering the sets on both sides. *)
Lemma filter_sets sets csets (P1 : Z * list Z → Prop) (P2 : Chunks → Prop) `{∀ e, Decision (P1 e)} `{∀ s, Decision (P2 s)} :
  Forall2 (set_ok M) sets csets → (∀ e cs, e ∈ sets → set_ok M e cs → P1 e ↔ P2 cs) →
  Forall2 (set_ok M) (filter P1 sets) (filter P2 csets).
Proof.
  intros H2 HP. induction H2 as [|e cs sets csets He H2 IH]; [constructor|].
  specialize (IH ltac:(intros; apply HP; [by right|done])).
  destruct (decide (P1 e)) as [Hp|Hp].
  - rewrite !filter_cons_True; [by constructor|apply (HP e cs); [left|done|done]|done].
  - rewrite !filter_cons_False; [done|rewrite <- (HP e cs); [done|left|done]|done].
Qed.

Lemma skip_ordered q lo n ks sets Fw P x :
  run_inv sid M q lo n ks sets Fw P → Z.abs (x - lo) < 2 ^ 14 →
  ∃ n' sets', run_inv sid M (forward_tsn_for_ordered q (u16 x)) lo n' ks sets' (x :: Fw) P.
Proof.
  intros R Hx. pose proof R as [R1 R2 R3 R4 R5 R6 R7 R8 R9 R10 R11 R12 R13 R14].
  exists (if n <=? x then x + 1 else n).
  exists (filter (λ e, x < fst e ∨ snd e = seqZ 0 (len (M (fst e)))) sets).
  assert (next_ssn (forward_tsn_for_ordered q (u16 x)) = u16 (if n <=? x then x + 1 else n)) as Hnext.
  { unfold forward_tsn_for_ordered. cbn [next_ssn subtract_num_bytes]. rewrite R2, sna16lte_spec by lia.
    destruct (n <=? x); [|done]. unfold wrap. by rewrite Z.add_mod_idemp_l by lia. }
  rewrite Forall_fmap in R7. split; try done.
  - destruct (Z.leb_spec n x); lia.
  - destruct (Z.leb_spec n x); lia.
  - unfold forward_tsn_for_ordered. cbn [ordered subtract_num_bytes]. apply filter_sets; [done|].
    intros e cs He Hs. rewrite <- (set_ok_complete e cs Hs). destruct Hs as (Hssn & _).
    rewrite Forall_forall in R7. specialize (R7 e He). simpl in R7. rewrite Hssn, sna16lte_spec by lia.
    destruct (Z.leb_spec (fst e) x), (is_complete cs); cbn; split; intros; try done; try lia; auto.
  - by apply sets_filter_sorted.
  - rewrite Forall_fmap. rewrite Forall_forall in *. intros e [_ He]%list_elem_of_filter. by apply R7.
  - intros e [Hp He]%list_elem_of_filter Hlt. destruct Hp as [Hp|Hp]; [|done]. apply R8; [done|].
    destruct (Z.leb_spec n x); lia.
  - intros k i Hin Hn. destruct (R12 k i Hin) as (ix & Hix & Hi); [destruct (Z.leb_spec n x); lia|].
    exists ix. split; [|done]. apply list_elem_of_filter. split; [|done]. left. simpl. destruct (Z.leb_spec n x); lia.
Qed.

Lemma read_cases q :
  (∃ cs rest, rq_unordered q = cs :: rest ∧
     rq_read q = Ok (Some cs, subtract_num_bytes (mkRQ (si q) (next_ssn q) (ordered q) rest (unordered_chunks q) (rq_n_bytes q))
                                (chunks_len cs))) ∨
  (∃ cs rest, ordered q = cs :: rest ∧ is_complete cs = true ∧ sna16gt (cs_ssn cs) (next_ssn q) = false ∧
     rq_read q = Ok (Some cs, subtract_num_bytes (mkRQ (si q)
         (if cs_ssn cs =? next_ssn q then u16 (next_ssn q + 1) else next_ssn q) rest (rq_unordered q)
         (unordered_chunks q) (rq_n_bytes q)) (chunks_len cs))) ∨
  (rq_unordered q = [] ∧ rq_read q = Ok (None, q) ∧
     ∀ cs rest, ordered q = cs :: rest → is_complete cs = false ∨ sna16gt (cs_ssn cs) (next_ssn q) = true).
Proof.
  unfold rq_read, readable_unordered_chunks, readable_ordered_chunks, take_unordered, take_ordered.
  destruct (rq_unordered q) as [|u us] eqn:Eu, (ordered q) as [|o os] eqn:Eo; cbn [head].
  - right; right. split_and!; [done..|]. by intros.
  - destruct (is_complete o) eqn:Ec; cbn [negb].
    + destruct (sna16gt (cs_ssn o) (next_ssn q)) eqn:Eg; cbn [rbind negb].
      * right; right. split_and!; [done..|]. intros cs rest [= <- <-]. auto.
      * right; left. exists o, os. done.
    + right; right. split_and!; [done..|]. intros cs rest [= <- <-]. auto.
  - left. exists u, us. done.
  - destruct (is_complete o) eqn:Ec; cbn [negb]; [|left; by exists u, us].
    destruct (sna16gt (cs_ssn o) (next_ssn q)) eqn:Eg; cbn [rbind]; [left; by exists u, us|].
    destruct (timestamp u <? timestamp o); cbn [rbind]; [left; by exists u, us|]. right; left. by exists o, os.
Qed.

Lemma seqZ_snoc n : 0 <= n → seqZ 0 (n + 1) = seqZ 0 n ++ [n].
Proof. intros Hn. rewrite seqZ_app by lia. by rewrite (seqZ_cons _ 1), (seqZ_nil _ (Z.pred 1)) by lia. Qed.

(** Reading an ordered message. *)
Lemma read_ordered q lo n ks sets Fw P cs rest :
  run_inv sid M q lo n ks sets Fw P → ordered q = cs :: rest → is_complete cs = true →
  sna16gt (cs_ssn cs) (next_ssn q) = false →
  let q' := subtract_num_bytes (mkRQ (si q)
         (if cs_ssn cs =? next_ssn q then u16 (next_ssn q + 1) else next_ssn q) rest (rq_unordered q)
         (unordered_chunks q) (rq_n_bytes q)) (chunks_len cs) in
  ∃ k n' sets', lo <= k ∧ chunks cs = M k ∧ lo + u16 (cs_ssn cs - u16 lo) = k ∧
    run_inv sid M q' (k + 1) n' (ks ++ [k]) sets' Fw P.
Proof.
  intros R Eo Hc Hg q'. pose proof R as [R1 R2 R3 R4 R5 R6 R7 R8 R9 R10 R11 R12 R13 R14].
  rewrite Eo in R5. apply Forall2_cons_inv_r in R5 as ([k ix] & sets' & Hs & R5 & ->).
  pose proof Hs as (Hssn & Hch & Hpk & _ & Hk0). cbn [fst snd] in *.
  pose proof (proj1 (set_ok_complete _ _ Hs) Hc) as Hix. cbn [fst snd] in Hix.
  csimpl in R7. inversion R7 as [|? ? Wk R7']; subst. csimpl in R6. inversion R6 as [|? ? R6' Hlt]; subst.
  rewrite Hssn, R2, sna16gt_spec in Hg by lia. apply Z.ltb_ge in Hg.
  exists k, (if k =? n then n + 1 else n), sets'. split_and!; [lia|by rewrite Hch, pick_all| |].
  { rewrite Hssn. unfold wrap. rewrite Zminus_mod_idemp_l, Zminus_mod_idemp_r, Z.mod_small by lia. lia. }
  rewrite Forall_fmap in Hlt, R7'. rewrite Forall_forall in Hlt, R7'.
  split; cbn [q' subtract_num_bytes si next_ssn ordered rq_unordered unordered_chunks]; try done.
  - rewrite Hssn, R2, u16_eqb by lia. destruct (Z.eqb_spec k n); [|done]. unfold wrap. by rewrite Z.add_mod_idemp_l by lia.
  - destruct (Z.eqb_spec k n); lia.
  - destruct (Z.eqb_spec k n); lia.
  - rewrite Forall_fmap, Forall_forall. intros e He. specialize (Hlt e He). specialize (R7' e He). simpl in *. lia.
  - intros e He Hn. apply R8; [by right|]. specialize (Hlt e He). simpl in Hlt. destruct (Z.eqb_spec k n); lia.
  - apply StronglySorted_app. split_and!; [|done|repeat constructor].
    intros x y Hx ->%list_elem_of_singleton. rewrite Forall_forall in R10. specialize (R10 x Hx). simpl in R10. lia.
  - apply Forall_app. split; [|repeat constructor; lia]. eapply Forall_impl; [exact R10|]. simpl. lia.
  - intros HF. destruct (R11 HF) as [-> ->]. assert (k = lo) as -> by lia. rewrite Z.eqb_refl. split; [done|].
    by rewrite seqZ_snoc by lia.
  - intros k' i Hin Hn. destruct (R12 k' i Hin) as (ix' & Hix' & Hi); [destruct (Z.eqb_spec k n); lia|].
    apply elem_of_cons in Hix' as [[= -> ->]|?]; [destruct (Z.eqb_spec k n); lia|by exists ix'].
Qed.

Lemma foldl_subtract cs q :
  let q' := foldl (λ q c, subtract_num_bytes q (len (user_data c))) q cs in
  si q' = si q ∧ next_ssn q' = next_ssn q ∧ ordered q' = ordered q ∧ rq_unordered q' = rq_unordered q.
Proof.
  revert q. induction cs as [|c cs IH]; intros q; [done|]. cbn zeta. cbn [foldl].
  destruct (IH (subtract_num_bytes q (len (user_data c)))) as (-> & -> & -> & ->). done.
Qed.

Lemma run_inv_holds q lo out Fw P :
  run sid M q lo out Fw P → ∃ n ks sets, out = M <$> ks ∧ run_inv sid M q lo n ks sets Fw P.
Proof.
  induction 1 as [|q lo out Fw P now k i ok q' _ (n & ks & sets & -> & R) Hk Hw Hi Hp
    |q lo out Fw P now c ok q' _ (n & ks & sets & -> & R) Hc Hp
    |q lo out Fw P x _ (n & ks & sets & -> & R) Hx|q lo out Fw P t _ (n & ks & sets & -> & R)
    |q lo out Fw P q' _ (n & ks & sets & -> & R) Hr|q lo out Fw P cs q' _ (n & ks & sets & -> & R) Hr].
  - exists 0, [], []. split; [done|]. split; cbn; try done; try constructor; try lia;
      try (by intros ? ?%elem_of_nil); try (by intros ? ? ?%elem_of_nil).
  - destruct (push_ordered now q lo n ks sets Fw P k i ok q' R Hk Hw Hi Hp) as [sets' R']. by exists n, ks, sets'.
  - exists n, ks, sets. split; [done|]. by eapply push_unordered.
  - destruct (skip_ordered q lo n ks sets Fw P x R Hx) as (n' & sets' & R'). by exists n', ks, sets'.
  - exists n, ks, sets. split; [done|]. unfold forward_tsn_for_unordered.
    set (k := forwarded t (unordered_chunks q)).
    destruct (foldl_subtract (take k (unordered_chunks q)) q) as (E1 & E2 & E3 & E4).
    apply (inv_unordered q); [done|done|done|done| |]; cbn [rq_unordered unordered_chunks].
    + rewrite E4. apply R.
    + apply Forall_drop, R.
  - exists n, ks, sets. split; [done|]. destruct (read_cases q) as [(cs & rest & _ & E)|[(cs & rest & _ & _ & _ & E)|(_ & E & _)]];
      rewrite E in Hr; simplify_eq. done.
  - destruct (read_cases q) as [(cs0 & rest & Eu & E)|[(cs0 & rest & Eo & Hc & Hg & E)|(_ & E & _)]];
      rewrite E in Hr; simplify_eq.
    + pose proof (ri_unordered _ _ _ _ _ _ _ _ _ R) as Hu. rewrite Eu in Hu.
      inversion Hu as [|? ? Hcs Hu']; subst. rewrite Hcs. exists n, ks, sets. split; [done|].
      apply (inv_unordered q); [done..|]. apply R.
    + destruct (read_ordered q lo n ks sets Fw P cs rest R Eo Hc Hg) as (k & n' & sets' & Hle & Hm & Hk & R').
      assert (is_ordered cs = true) as Ho.
      { pose proof (ri_sets _ _ _ _ _ _ _ _ _ R) as Hs. rewrite Eo in Hs.
        apply Forall2_cons_inv_r in Hs as (e & ? & He & _). by apply (set_ok_ordered e). }
      rewrite Ho, Hk, Hm. exists n', (ks ++ [k]), sets'. split; [by rewrite fmap_app|done].
Qed.

(** A message whose fragments have all arrived can be read. *)
Lemma message_readable q lo n ks sets Fw P :
  run_inv sid M q lo n ks sets Fw P → n = lo → rq_unordered q = [] →
  (∀ i, 0 <= i < len (M lo) → (lo, i) ∈ P) → ∃ cs q', rq_read q = Ok (Some cs, q') ∧ chunks cs = M lo.
Proof.
  intros R -> Hu Hall. pose proof R as [R1 R2 R3 R4 R5 R6 R7 R8 R9 R10 R11 R12 R13 R14]. clear R1.
  pose proof (os_fragments _ _ _ OS lo ltac:(lia)) as F.
  assert (0 < len (M lo)) as Hpos.
  { pose proof (fr_nonempty _ _ F). destruct (M lo); [done|]. unfold len. simpl. lia. }
  destruct (R12 lo 0) as (ix & Hin & _); [apply Hall; lia|lia|].
  destruct sets as [|e sets]; [by apply elem_of_nil in Hin|].
  csimpl in R6. inversion R6 as [|? ? R6' Hlt]; subst. csimpl in R7. inversion R7 as [|? ? We _]; subst.
  assert (e = (lo, ix)) as ->.
  { apply elem_of_cons in Hin as [?|Hin]; [done|]. rewrite Forall_fmap, Forall_forall in Hlt.
    specialize (Hlt _ Hin). simpl in Hlt. lia. }
  apply Forall2_cons_inv_l in R5 as (cs & rest & Hs & _ & Eo).
  assert (ix = seqZ 0 (len (M lo))) as Hix.
  { destruct Hs as (_ & _ & Hp & _). apply (picks_all (M lo)); [done|]. intros i Hi.
    destruct (R12 lo i) as (ix' & Hin' & Hi'); [by apply Hall|lia|].
    apply elem_of_cons in Hin' as [[= ->]|Hin']; [done|]. rewrite Forall_fmap, Forall_forall in Hlt.
    specialize (Hlt _ Hin'). simpl in Hlt. lia. }
  assert (is_complete cs = true) as Hc by (by apply (set_ok_complete _ _ Hs)).
  assert (sna16gt (cs_ssn cs) (next_ssn q) = false) as Hg.
  { destruct Hs as (-> & _). rewrite R2, sna16gt_spec by (simpl; lia). apply Z.ltb_irrefl. }
  destruct (read_cases q) as [(cs0 & ? & E & _)|[(cs0 & rest0 & E & _ & _ & Er)|(_ & _ & E)]].
  - congruence.
  - rewrite Eo in E. simplify_eq. rewrite Er. eexists _, _. split; [done|].
    destruct Hs as (_ & -> & _). apply pick_all.
  - destruct (E cs rest Eo); congruence.
Qed.

End OrderedStream.

Lemma rq_push_no_panic now q c : no_panic (rq_push now q c).
Proof.
  unfold rq_push. destruct (negb _); [done|]. destruct (unordered c).
  - set (q1 := mkRQ _ _ _ _ _ _). destruct (find_set_spec now q1) as [[-> _]|(a & run & b & d & _ & _ & _ & ->)]; done.
  - destruct (sna16lt _ _); [done|]. destruct (chunks_push (chunks_new _ _ _ _) _). destruct (_ !! _) as [s|]; [|done].
    destruct (_ =? _); [|done]. by destruct (chunks_push s c).
Qed.

Lemma rq_read_no_panic q : no_panic (rq_read q).
Proof.
  destruct (read_cases q) as [(cs & rest & _ & ->)|[(cs & rest & _ & _ & _ & ->)|(_ & -> & _)]]; done.
Qed.

(** C2: an ordered stream is delivered in order.  Whatever the order and number of times its
    fragments arrive, among unordered chunks, skips and reads, the ordered messages read are
    whole messages of the stream in increasing order, none twice; without skips they are the
    messages 0, 1, 2, ... with none missing, and once all fragments of the next one have
    arrived it is what the next read returns when no unordered message waits.  Storing
    and reading never panic. *)
Theorem ordered_delivery sid M T q lo out Fw P :
  ordered_stream sid M T → run sid M q lo out Fw P →
  (∃ ks, out = M <$> ks ∧ StronglySorted Z.lt ks ∧ (Fw = [] → ks = seqZ 0 lo)) ∧
  (Fw = [] → rq_unordered q = [] → (∀ i, 0 <= i < len (M lo) → (lo, i) ∈ P) →
   ∃ cs q', rq_read q = Ok (Some cs, q') ∧ chunks cs = M lo) ∧
  no_panic (rq_read q) ∧ ∀ now c, no_panic (rq_push now q c).
Proof.
  intros OS Hr. destruct (run_inv_holds sid M T OS q lo out Fw P Hr) as (n & ks & sets & -> & R).
  split_and!; [| |apply rq_read_no_panic|intros; apply rq_push_no_panic].
  - exists ks. split_and!; [done|apply R|]. intros HF. by apply (ri_noskip _ _ _ _ _ _ _ _ _ R).
  - intros HF Hu Hall. eapply message_readable; [done|done| |done|done]. by apply (ri_noskip _ _ _ _ _ _ _ _ _ R).
Qed.

(** ** Witnesses *)

Definition fragment (t ssn : Z) (u b e : bool) (data : bytes) : ChunkPayloadData :=
  mkData u b e false t 5 ssn Binary data false 0 None 0 false false false.

(** Message [k] of a stream in which every message has two fragments. *)
Definition pair_message (k : Z) : list ChunkPayloadData :=
  [fragment (u32 (4294967295 + 2 * k)) (u16 k) false true false [k; 1];
   fragment (u32 (4294967295 + 2 * k + 1)) (u16 k) false false true [k; 2; 3]].

Lemma pair_message_fragments k : fragments (4294967295 + 2 * k) (pair_message k).
Proof.
  split; [done|done| | |]; intros [|[|i]] c E; simpl in E; simplify_eq; try reflexivity.
  - unfold fragment. cbn [tsn]. f_equal. lia.
Qed.

Lemma pair_stream : ordered_stream 5 pair_message (λ k, 4294967295 + 2 * k).
Proof.
  split; [intros; apply pair_message_fragments|].
  intros k c [->|[->|?%elem_of_nil]%elem_of_cons]%elem_of_cons; done.
Qed.

Lemma reassembly_any_order_witness :
  let s := foldl (λ s c, snd (chunks_push s c)) (chunks_new 0 0 Binary []) (pick (pair_message 0) [1; 0; 1]) in
  is_complete s = true ∧ to_payload s 5 = Ok [0; 1; 0; 2; 3] ∧ to_payload s 4 = Err ErrShortBuffer.
Proof.
  intros s.
  destruct (reassembly_any_order 4294967295 (pair_message 0) [1; 0; 1] 0 0 Binary) as [Hc Hp];
    [apply (pair_message_fragments 0)|repeat constructor; vm_compute; intuition congruence|].
  fold s in Hc, Hp. assert (is_complete s = true) as H.
  { apply Hc. intros i Hi. assert (i = 0 ∨ i = 1) as [->| ->] by (change (len (pair_message 0)) with 2 in Hi; lia); [right; left|left]. }
  destruct (Hp H) as [_ E]. split_and!; [done|by rewrite E|by rewrite E].
Defined.

Lemma message_reading_witness :
  let s := chunks_new 0 0 Binary (pair_message 0) in
  ∃ s', chunks_next s 3 = Ok (Some [0; 1; 0], s') ∧ unread s' = [2; 3].
Proof.
  intros s. destruct (message_reading s [] 3) as [_ (s' & E1 & E2 & _)]; [by split_and!|lia|].
  exists s'. split; [exact E1|exact E2].
Defined.

Definition pushed (now : Z) (q : ReassemblyQueue) (c : ChunkPayloadData) : ReassemblyQueue :=
  match rq_push now q c with Ok (_, q) => q | _ => q end.

Lemma ordered_delivery_witness :
  let q1 := pushed 0 (rq_new 5) (pair_message 1 !!! 0%nat) in
  let q2 := pushed 0 q1 (pair_message 0 !!! 1%nat) in
  let q3 := pushed 0 q2 (pair_message 0 !!! 0%nat) in
  rq_read q2 = Ok (None, q2) ∧ ∃ cs q', rq_read q3 = Ok (Some cs, q') ∧ chunks cs = pair_message 0.
Proof.
  intros q1 q2 q3. split; [reflexivity|].
  assert (run 5 pair_message q3 0 [] [] [(0, 0); (0, 1); (1, 0)]) as Hr.
  { apply (run_fragment 5 pair_message q2 0 [] [] [(0, 1); (1, 0)] 0 0 0 true);
      [|lia|vm_compute; reflexivity|vm_compute; intuition congruence|vm_compute; reflexivity].
    apply (run_fragment 5 pair_message q1 0 [] [] [(1, 0)] 0 0 1 false);
      [|lia|vm_compute; reflexivity|vm_compute; intuition congruence|vm_compute; reflexivity].
    apply (run_fragment 5 pair_message (rq_new 5) 0 [] [] [] 0 1 0 false);
      [apply run_new|lia|vm_compute; reflexivity|vm_compute; intuition congruence|vm_compute; reflexivity]. }
  destruct (ordered_delivery 5 pair_message _ q3 0 [] [] _ pair_stream Hr) as (_ & H & _).
  apply H; [done|reflexivity|]. intros i Hi. assert (i = 0 ∨ i = 1) as [->| ->] by (change (len (pair_message 0)) with 2 in Hi; lia).
  - left.
  - right; left.
Defined.
