(* ===== verification/SctpParam.v ===== *)
(** SCTP parameters, [rtc-sctp/src/param], and the chunks made of them: INIT and INIT-ACK,
    HEARTBEAT and HEARTBEAT-ACK, RE-CONFIG ([rtc-sctp/src/chunk]). *)

From S2P Require Import Prelude SctpChunk.

Definition CT_HEARTBEAT : ChunkType := 4.
Definition CT_HEARTBEAT_ACK : ChunkType := 5.
Definition CT_RECONFIG : ChunkType := 130.

(** * Types and header *)

Inductive ParamType :=
| HeartbeatInfo | Ipv4Addr | Ipv6Addr | StateCookie | UnrecognizedParam | CookiePreservative
| HostNameAddr | SupportedAddrTypes | OutSsnResetReq | IncSsnResetReq | SsnTsnResetReq
| ReconfigResp | AddOutStreamsReq | AddIncStreamsReq | Random | ChunkList | ReqHmacAlgo
| Padding | SupportedExt | ForwardTsnSupp | AddIpAddr | DelIpaddr | ErrClauseInd | SetPriAddr
| SuccessInd | AdaptLayerInd | UnknownType (param_type : Z).

#[export] Instance param_type_eq_dec : EqDecision ParamType.
Proof. solve_decision. Defined.

(** [From<u16>]: 49158 is not listed, so [AdaptLayerInd] is never read. *)
Definition param_type_from (v : Z) : ParamType :=
  if v =? 1 then HeartbeatInfo else if v =? 5 then Ipv4Addr else if v =? 6 then Ipv6Addr
  else if v =? 7 then StateCookie else if v =? 8 then UnrecognizedParam
  else if v =? 9 then CookiePreservative else if v =? 11 then HostNameAddr
  else if v =? 12 then SupportedAddrTypes else if v =? 13 then OutSsnResetReq
  else if v =? 14 then IncSsnResetReq else if v =? 15 then SsnTsnResetReq
  else if v =? 16 then ReconfigResp else if v =? 17 then AddOutStreamsReq
  else if v =? 18 then AddIncStreamsReq else if v =? 32770 then Random
  else if v =? 32771 then ChunkList else if v =? 32772 then ReqHmacAlgo
  else if v =? 32773 then Padding else if v =? 32776 then SupportedExt
  else if v =? 49152 then ForwardTsnSupp else if v =? 49153 then AddIpAddr
  else if v =? 49154 then DelIpaddr else if v =? 49155 then ErrClauseInd
  else if v =? 49156 then SetPriAddr else if v =? 49157 then SuccessInd
  else UnknownType v.

Definition param_type_u16 (t : ParamType) : Z :=
  match t with
  | HeartbeatInfo => 1 | Ipv4Addr => 5 | Ipv6Addr => 6 | StateCookie => 7 | UnrecognizedParam => 8
  | CookiePreservative => 9 | HostNameAddr => 11 | SupportedAddrTypes => 12 | OutSsnResetReq => 13
  | IncSsnResetReq => 14 | SsnTsnResetReq => 15 | ReconfigResp => 16 | AddOutStreamsReq => 17
  | AddIncStreamsReq => 18 | Random => 32770 | ChunkList => 32771 | ReqHmacAlgo => 32772
  | Padding => 32773 | SupportedExt => 32776 | ForwardTsnSupp => 49152 | AddIpAddr => 49153
  | DelIpaddr => 49154 | ErrClauseInd => 49155 | SetPriAddr => 49156 | SuccessInd => 49157
  | AdaptLayerInd => 49158 | UnknownType v => v
  end.

Record ParamHeader := mkParamHeader { ph_typ : ParamType; ph_value_length : Z }.
Definition PARAM_HEADER_LENGTH : Z := 4.

(** [get_padding_size] of [util.rs] *)
Definition get_padding_size (n : Z) : Z := (4 - n mod 4) mod 4.

(** * The parameters *)

Inductive HmacAlgorithm := HmacResv1 | HmacSha128 | HmacResv2 | HmacSha256 | HmacUnknown.

Definition hmac_from (v : Z) : HmacAlgorithm :=
  if v =? 0 then HmacResv1 else if v =? 1 then HmacSha128 else if v =? 2 then HmacResv2
  else if v =? 3 then HmacSha256 else HmacUnknown.

(** [*a as u16]: [Unknown] has no explicit discriminant and follows 3. *)
Definition hmac_u16 (a : HmacAlgorithm) : Z :=
  match a with HmacResv1 => 0 | HmacSha128 => 1 | HmacResv2 => 2 | HmacSha256 => 3 | HmacUnknown => 4 end.

Inductive ReconfigResult :=
| SuccessNop | SuccessPerformed | Denied | ErrorWrongSsn | ErrorRequestAlreadyInProgress
| ErrorBadSequenceNumber | InProgress | ResultUnknown.

#[export] Instance reconfig_result_eq_dec : EqDecision ReconfigResult.
Proof. solve_decision. Defined.

Definition result_from (v : Z) : ReconfigResult :=
  if v =? 0 then SuccessNop else if v =? 1 then SuccessPerformed else if v =? 2 then Denied
  else if v =? 3 then ErrorWrongSsn else if v =? 4 then ErrorRequestAlreadyInProgress
  else if v =? 5 then ErrorBadSequenceNumber else if v =? 6 then InProgress else ResultUnknown.

Definition result_u32 (r : ReconfigResult) : Z :=
  match r with
  | SuccessNop => 0 | SuccessPerformed => 1 | Denied => 2 | ErrorWrongSsn => 3
  | ErrorRequestAlreadyInProgress => 4 | ErrorBadSequenceNumber => 5 | InProgress => 6
  | ResultUnknown => 7
  end.

Record ParamOutgoingResetRequest := mkReset {
  reconfig_request_sequence_number : Z;
  reconfig_response_sequence_number : Z;
  sender_last_tsn : Z;
  stream_identifiers : list Z
}.

Definition PARAM_OUTGOING_RESET_REQUEST_STREAM_IDENTIFIERS_OFFSET : Z := 12.

(** [Box<dyn Param>]: the types that implement the trait. *)
Inductive Param :=
| ParamForwardTsnSupported
| ParamSupportedExtensions (chunk_types : list Z)
| ParamRandom (random_data : bytes)
| ParamRequestedHmacAlgorithm (available_algorithms : list HmacAlgorithm)
| ParamChunkList (chunk_types : list Z)
| ParamStateCookie (cookie : bytes)
| ParamHeartbeatInfo (heartbeat_information : bytes)
| ParamReset (r : ParamOutgoingResetRequest)
| ParamReconfigResponse (response_sequence_number : Z) (result : ReconfigResult)
| ParamUnknown (typ : Z) (value : bytes).

#[export] Instance hmac_eq_dec : EqDecision HmacAlgorithm.
Proof. solve_decision. Defined.
#[export] Instance reset_eq_dec : EqDecision ParamOutgoingResetRequest.
Proof. solve_decision. Defined.
#[export] Instance param_eq_dec : EqDecision Param.
Proof. solve_decision. Defined.

(** [Param::value_length] *)
Definition param_value_length (p : Param) : Z :=
  match p with
  | ParamForwardTsnSupported => 0
  | ParamSupportedExtensions ts | ParamChunkList ts => len ts
  | ParamRandom b | ParamStateCookie b | ParamHeartbeatInfo b | ParamUnknown _ b => len b
  | ParamRequestedHmacAlgorithm l => 2 * len l
  | ParamReset r => PARAM_OUTGOING_RESET_REQUEST_STREAM_IDENTIFIERS_OFFSET + len (stream_identifiers r) * 2
  | ParamReconfigResponse _ _ => 8
  end.

Definition param_type_of (p : Param) : ParamType :=
  match p with
  | ParamForwardTsnSupported => ForwardTsnSupp
  | ParamSupportedExtensions _ => SupportedExt
  | ParamRandom _ => Random
  | ParamRequestedHmacAlgorithm _ => ReqHmacAlgo
  | ParamChunkList _ => ChunkList
  | ParamStateCookie _ => StateCookie
  | ParamHeartbeatInfo _ => HeartbeatInfo
  | ParamReset _ => OutSsnResetReq
  | ParamReconfigResponse _ _ => ReconfigResp
  | ParamUnknown t _ => UnknownType t
  end.

Definition param_header (p : Param) : ParamHeader :=
  mkParamHeader (param_type_of p) (u16 (param_value_length p)).

Section ParamCodec.
Context {BC : BytesCrate}.

Definition param_header_unmarshal (raw : bytes) : res ParamHeader :=
  if len raw <? PARAM_HEADER_LENGTH then Err ErrParamHeaderTooShort
  else
    let! (t, reader) := get_u16 raw in
    let! (l, reader) := get_u16 reader in
    if (l <? PARAM_HEADER_LENGTH) || (len raw <? l) then Err ErrParamHeaderTooShort
    else Ok (mkParamHeader (param_type_from t) (u16 (l - PARAM_HEADER_LENGTH))).

Definition param_header_marshal_to (h : ParamHeader) (writer : bytes) : bytes :=
  let writer := writer ++ put_uint 2 (param_type_u16 (ph_typ h)) in
  writer ++ put_uint 2 (u16 (ph_value_length h + PARAM_HEADER_LENGTH)).

(** [raw.slice(PARAM_HEADER_LENGTH..PARAM_HEADER_LENGTH + header.value_length())] *)
Definition param_value (raw : bytes) (h : ParamHeader) : res bytes :=
  slice raw PARAM_HEADER_LENGTH (PARAM_HEADER_LENGTH + ph_value_length h).

(** [while reader.has_remaining() { chunk_types.push(ChunkType(reader.get_u8())) }]: a byte
    a round. *)
Fixpoint get_types (fuel : nat) (reader : bytes) : res (list Z) :=
  match fuel with
  | O => Ok []
  | S fuel =>
      let! (t, reader) := get_u8 reader in
      let! ts := get_types fuel reader in
      Ok (t :: ts)
  end.

(** [while offset + 1 < header.value_length()]: [value_length / 2] rounds. *)
Fixpoint get_algorithms (n : nat) (reader : bytes) : res (list HmacAlgorithm) :=
  match n with
  | O => Ok []
  | S n =>
      let! (v, reader) := get_u16 reader in
      match hmac_from v with
      | HmacSha128 | HmacSha256 => let! l := get_algorithms n reader in Ok (hmac_from v :: l)
      | _ => Err ErrInvalidAlgorithmType
      end
  end.

(** [for _ in 0..lim { stream_identifiers.push(reader.get_u16()) }] *)
Fixpoint get_u16s (n : nat) (reader : bytes) : res (list Z) :=
  match n with
  | O => Ok []
  | S n =>
      let! (v, reader) := get_u16 reader in
      let! l := get_u16s n reader in
      Ok (v :: l)
  end.

Definition supported_extensions_unmarshal (raw : bytes) : res Param :=
  let! h := param_header_unmarshal raw in
  let! reader := param_value raw h in
  let! ts := get_types (length reader) reader in
  Ok (ParamSupportedExtensions ts).

Definition chunk_list_unmarshal (raw : bytes) : res Param :=
  let! h := param_header_unmarshal raw in
  if negb (bool_decide (ph_typ h = ChunkList)) then Err ErrParamTypeUnexpected
  else
    let! reader := param_value raw h in
    let! ts := get_types (length reader) reader in
    Ok (ParamChunkList ts).

Definition forward_tsn_supported_unmarshal (raw : bytes) : res Param :=
  let! _ := param_header_unmarshal raw in Ok ParamForwardTsnSupported.

(** The parameters whose value is kept as it is. *)
Definition random_unmarshal (raw : bytes) : res Param :=
  let! h := param_header_unmarshal raw in let! b := param_value raw h in Ok (ParamRandom b).
Definition state_cookie_unmarshal (raw : bytes) : res Param :=
  let! h := param_header_unmarshal raw in let! b := param_value raw h in Ok (ParamStateCookie b).
Definition heartbeat_info_unmarshal (raw : bytes) : res Param :=
  let! h := param_header_unmarshal raw in let! b := param_value raw h in Ok (ParamHeartbeatInfo b).
Definition unknown_unmarshal (raw : bytes) : res Param :=
  let! h := param_header_unmarshal raw in
  let! b := param_value raw h in Ok (ParamUnknown (param_type_u16 (ph_typ h)) b).

Definition requested_hmac_unmarshal (raw : bytes) : res Param :=
  let! h := param_header_unmarshal raw in
  let! reader := param_value raw h in
  let! l := get_algorithms (Z.to_nat (ph_value_length h / 2)) reader in
  Ok (ParamRequestedHmacAlgorithm l).

Definition reset_request_unmarshal (raw : bytes) : res Param :=
  let! h := param_header_unmarshal raw in
  let n := ph_value_length h + PARAM_HEADER_LENGTH in
  if (n <? 16) || negb ((n - 16) mod 2 =? 0) then Err ErrUnmarshalReconfigRespParam
  else if len raw <? PARAM_HEADER_LENGTH + ph_value_length h then Err ErrSsnResetRequestParamTooShort
  else
    let! reader := param_value raw h in
    let! (a, reader) := get_u32 reader in
    let! (b, reader) := get_u32 reader in
    let! (c, reader) := get_u32 reader in
    let lim := (ph_value_length h - PARAM_OUTGOING_RESET_REQUEST_STREAM_IDENTIFIERS_OFFSET) / 2 in
    let! ids := get_u16s (Z.to_nat lim) reader in
    Ok (ParamReset (mkReset a b c ids)).

Definition reconfig_response_unmarshal (raw : bytes) : res Param :=
  let! h := param_header_unmarshal raw in
  let n := ph_value_length h + PARAM_HEADER_LENGTH in
  if negb (n =? 12) && negb (n =? 20) then Err ErrUnmarshalReconfigRespParam
  else if len raw <? n then Err ErrReconfigRespParamTooShort
  else
    let! reader := param_value raw h in
    let! (a, reader) := get_u32 reader in
    let! (r, _) := get_u32 reader in
    Ok (ParamReconfigResponse a (result_from r)).

Definition build_param (raw : bytes) : res Param :=
  if len raw <? PARAM_HEADER_LENGTH then Err ErrParamHeaderTooShort
  else
    let! reader := slice raw 0 2 in
    let! (raw_type, _) := get_u16 reader in
    match param_type_from raw_type with
    | ForwardTsnSupp => forward_tsn_supported_unmarshal raw
    | SupportedExt => supported_extensions_unmarshal raw
    | Random => random_unmarshal raw
    | ReqHmacAlgo => requested_hmac_unmarshal raw
    | ChunkList => chunk_list_unmarshal raw
    | StateCookie => state_cookie_unmarshal raw
    | HeartbeatInfo => heartbeat_info_unmarshal raw
    | OutSsnResetReq => reset_request_unmarshal raw
    | ReconfigResp => reconfig_response_unmarshal raw
    | _ =>
        let stop_processing := Z.land (Z.shiftr raw_type 15) 0x01 =? 0 in
        if stop_processing then Err (ErrParamTypeUnhandled raw_type) else unknown_unmarshal raw
    end.

(** What [marshal_to] writes after the header. *)
Definition param_body (p : Param) : bytes :=
  match p with
  | ParamForwardTsnSupported => []
  | ParamSupportedExtensions ts | ParamChunkList ts => concat (put_uint 1 <$> ts)
  | ParamRandom b | ParamStateCookie b | ParamHeartbeatInfo b | ParamUnknown _ b => b
  | ParamRequestedHmacAlgorithm l => concat ((λ a, put_uint 2 (hmac_u16 a)) <$> l)
  | ParamReset r =>
      put_uint 4 (reconfig_request_sequence_number r) ++ put_uint 4 (reconfig_response_sequence_number r) ++
      put_uint 4 (sender_last_tsn r) ++ concat (put_uint 2 <$> stream_identifiers r)
  | ParamReconfigResponse n r => put_uint 4 n ++ put_uint 4 (result_u32 r)
  end.

(** [Param::marshal] *)
Definition param_marshal (p : Param) : bytes :=
  param_header_marshal_to (param_header p) [] ++ param_body p.

End ParamCodec.

(** * INIT and INIT-ACK *)

Record ChunkInit := mkInit {
  is_ack : bool;
  init_tag : Z;
  init_rwnd : Z;
  num_outbound_streams : Z;
  num_inbound_streams : Z;
  initial_tsn : Z;
  params : list Param
}.

Definition INIT_CHUNK_MIN_LENGTH : Z := 16.
Definition INIT_OPTIONAL_VAR_HEADER_LENGTH : Z := 4.

(** The size of the parameters: all but the last are padded. *)
Fixpoint params_length (ps : list Param) : Z :=
  match ps with
  | [] => 0
  | p :: ps =>
      let p_len := PARAM_HEADER_LENGTH + param_value_length p in
      (if bool_decide (ps = []) then p_len else p_len + get_padding_size p_len) + params_length ps
  end.

Definition init_value_length (c : ChunkInit) : Z := 4 + 4 + 2 + 2 + 4 + params_length (params c).

Definition init_header (c : ChunkInit) : ChunkHeader :=
  mkChunkHeader (if is_ack c then CT_INIT_ACK else CT_INIT) 0 (u16 (init_value_length c)).

Definition set_supported_extensions (c : ChunkInit) : ChunkInit :=
  mkInit (is_ack c) (init_tag c) (init_rwnd c) (num_outbound_streams c) (num_inbound_streams c)
    (initial_tsn c) (params c ++ [ParamSupportedExtensions [CT_RECONFIG; CT_FORWARD_TSN]]).

(** [ChunkInit::check] *)
Definition init_check (c : ChunkInit) : res unit :=
  if init_tag c =? 0 then Err ErrChunkTypeInitInitiateTagZero
  else if num_inbound_streams c =? 0 then Err ErrInitInboundStreamRequestZero
  else if num_outbound_streams c =? 0 then Err ErrInitOutboundStreamRequestZero
  else if init_rwnd c <? 1500 then Err ErrInitAdvertisedReceiver1500
  else Ok tt.

Section InitCodec.
Context {BC : BytesCrate}.

(** [while remaining > INIT_OPTIONAL_VAR_HEADER_LENGTH && offset < stop]; every round moves
    at least four bytes on. *)
Fixpoint read_params (fuel : nat) (raw : bytes) (stop offset remaining : Z) : res (list Param) :=
  if (INIT_OPTIONAL_VAR_HEADER_LENGTH <? remaining) && (offset <? stop) then
    match fuel with
    | O => Panic
    | S fuel =>
        let! b := slice raw offset stop in
        let! p := build_param b in
        let p_len := PARAM_HEADER_LENGTH + param_value_length p in
        let len_plus_padding := p_len + get_padding_size p_len in
        let! ps := read_params fuel raw stop (offset + len_plus_padding) (remaining - len_plus_padding) in
        Ok (p :: ps)
    end
  else Ok [].

Definition init_unmarshal (raw : bytes) : res ChunkInit :=
  let! header := chunk_header_unmarshal raw in
  if negb ((ch_typ header =? CT_INIT) || (ch_typ header =? CT_INIT_ACK)) then Err ErrChunkTypeNotTypeInit
  else if len raw <? CHUNK_HEADER_SIZE + INIT_CHUNK_MIN_LENGTH then Err ErrChunkValueNotLongEnough
  else if ch_value_length header <? INIT_CHUNK_MIN_LENGTH then Err ErrChunkTypeInitUnmarshalFailed
  else if negb (ch_flags header =? 0) then Err ErrChunkTypeInitFlagZero
  else
    let! reader := slice raw CHUNK_HEADER_SIZE (CHUNK_HEADER_SIZE + ch_value_length header) in
    let! (tag, reader) := get_u32 reader in
    let! (rwnd, reader) := get_u32 reader in
    let! (outs, reader) := get_u16 reader in
    let! (ins, reader) := get_u16 reader in
    let! (tsn, _) := get_u32 reader in
    let offset := CHUNK_HEADER_SIZE + INIT_CHUNK_MIN_LENGTH in
    let remaining := len raw - offset in
    let! ps := read_params (length raw) raw (CHUNK_HEADER_SIZE + ch_value_length header) offset remaining in
    Ok (mkInit (ch_typ header =? CT_INIT_ACK) tag rwnd outs ins tsn ps).

(** The loop over the parameters of [marshal_to]; [idx != len - 1] tells whether to pad. *)
Fixpoint write_params (ps : list Param) (writer : bytes) : bytes :=
  match ps with
  | [] => writer
  | p :: ps =>
      let pp := param_marshal p in
      let writer := writer ++ pp in
      write_params ps
        (if bool_decide (ps = []) then writer else writer ++ replicate (Z.to_nat (get_padding_size (len pp))) 0)
  end.

Definition init_marshal_to (c : ChunkInit) (writer : bytes) : res (Z * bytes) :=
  let! (_, writer) := chunk_header_marshal_to (init_header c) writer in
  let writer := writer ++ put_uint 4 (init_tag c) in
  let writer := writer ++ put_uint 4 (init_rwnd c) in
  let writer := writer ++ put_uint 2 (num_outbound_streams c) in
  let writer := writer ++ put_uint 2 (num_inbound_streams c) in
  let writer := writer ++ put_uint 4 (initial_tsn c) in
  let writer := write_params (params c) writer in
  Ok (len writer, writer).

#[export] Instance init_chunk : Chunk ChunkInit :=
  {| chunk_header := init_header; chunk_unmarshal := init_unmarshal;
     chunk_marshal_to := init_marshal_to; value_length := init_value_length |}.

End InitCodec.

(** * HEARTBEAT, HEARTBEAT-ACK and RE-CONFIG *)

Record ChunkHeartbeat := mkHeartbeat { hb_params : list Param }.
Record ChunkHeartbeatAck := mkHeartbeatAck { hba_params : list Param }.
Record ChunkReconfig := mkReconfig { param_a : option Param; param_b : option Param }.

Definition heartbeat_value_length (c : ChunkHeartbeat) : Z :=
  foldl (λ length p, length + PARAM_HEADER_LENGTH + param_value_length p) 0 (hb_params c).
Definition heartbeat_header (c : ChunkHeartbeat) : ChunkHeader :=
  mkChunkHeader CT_HEARTBEAT 0 (u16 (heartbeat_value_length c)).

Definition heartbeat_ack_value_length (c : ChunkHeartbeatAck) : Z := params_length (hba_params c).
Definition heartbeat_ack_header (c : ChunkHeartbeatAck) : ChunkHeader :=
  mkChunkHeader CT_HEARTBEAT_ACK 0 (u16 (heartbeat_ack_value_length c)).

Definition reconfig_value_length (c : ChunkReconfig) : Z :=
  let l := PARAM_HEADER_LENGTH in
  let a := match param_a c with Some p => param_value_length p | None => 0 end in
  let l := l + a in
  match param_b c with
  | Some p => l + (PARAM_HEADER_LENGTH + param_value_length p + get_padding_size (PARAM_HEADER_LENGTH + a))
  | None => l
  end.
Definition reconfig_header (c : ChunkReconfig) : ChunkHeader :=
  mkChunkHeader CT_RECONFIG 0 (u16 (reconfig_value_length c)).

Section OtherCodecs.
Context {BC : BytesCrate}.

Definition heartbeat_unmarshal (raw : bytes) : res ChunkHeartbeat :=
  let! header := chunk_header_unmarshal raw in
  if negb (ch_typ header =? CT_HEARTBEAT) then Err ErrChunkTypeNotHeartbeat
  else if len raw <=? CHUNK_HEADER_SIZE then Err ErrHeartbeatNotLongEnoughInfo
  else
    let! b := slice raw CHUNK_HEADER_SIZE (CHUNK_HEADER_SIZE + ch_value_length header) in
    let! p := build_param b in
    if negb (bool_decide (ph_typ (param_header p) = HeartbeatInfo)) then Err ErrHeartbeatParam
    else Ok (mkHeartbeat [p]).

Definition heartbeat_marshal_to (c : ChunkHeartbeat) (buf : bytes) : res (Z * bytes) :=
  let! (_, buf) := chunk_header_marshal_to (heartbeat_header c) buf in
  let buf := foldl (λ b p, b ++ param_marshal p) buf (hb_params c) in
  Ok (len buf, buf).

#[export] Instance heartbeat_chunk : Chunk ChunkHeartbeat :=
  {| chunk_header := heartbeat_header; chunk_unmarshal := heartbeat_unmarshal;
     chunk_marshal_to := heartbeat_marshal_to; value_length := heartbeat_value_length |}.

Definition heartbeat_ack_unmarshal (raw : bytes) : res ChunkHeartbeatAck :=
  let! header := chunk_header_unmarshal raw in
  if negb (ch_typ header =? CT_HEARTBEAT_ACK) then Err ErrChunkTypeNotHeartbeatAck
  else if len raw <=? CHUNK_HEADER_SIZE then Err ErrHeartbeatNotLongEnoughInfo
  else
    let! b := slice raw CHUNK_HEADER_SIZE (CHUNK_HEADER_SIZE + ch_value_length header) in
    let! p := build_param b in
    if negb (bool_decide (ph_typ (param_header p) = HeartbeatInfo)) then Err ErrHeartbeatParam
    else Ok (mkHeartbeatAck [p]).

Definition heartbeat_ack_marshal_to (c : ChunkHeartbeatAck) (buf : bytes) : res (Z * bytes) :=
  match hba_params c with
  | [p] =>
      if negb (bool_decide (ph_typ (param_header p) = HeartbeatInfo)) then Err ErrHeartbeatAckNotHeartbeatInfo
      else
        let! (_, buf) := chunk_header_marshal_to (heartbeat_ack_header c) buf in
        let buf := write_params [p] buf in
        Ok (len buf, buf)
  | _ => Err ErrHeartbeatAckParams
  end.

#[export] Instance heartbeat_ack_chunk : Chunk ChunkHeartbeatAck :=
  {| chunk_header := heartbeat_ack_header; chunk_unmarshal := heartbeat_ack_unmarshal;
     chunk_marshal_to := heartbeat_ack_marshal_to; value_length := heartbeat_ack_value_length |}.

Definition reconfig_unmarshal (raw : bytes) : res ChunkReconfig :=
  let! header := chunk_header_unmarshal raw in
  if negb (ch_typ header =? CT_RECONFIG) then Err ErrChunkTypeNotReconfig
  else
    let stop := CHUNK_HEADER_SIZE + ch_value_length header in
    let! b := slice raw CHUNK_HEADER_SIZE stop in
    let! a := build_param b in
    let padding := get_padding_size (PARAM_HEADER_LENGTH + param_value_length a) in
    let offset := CHUNK_HEADER_SIZE + PARAM_HEADER_LENGTH + param_value_length a + padding in
    let! b :=
      (if offset <? stop then
         let! r := slice raw offset stop in let! p := build_param r in Ok (Some p)
       else Ok None) in
    Ok (mkReconfig (Some a) b).

Definition reconfig_marshal_to (c : ChunkReconfig) (writer : bytes) : res (Z * bytes) :=
  let! (_, writer) := chunk_header_marshal_to (reconfig_header c) writer in
  match param_a c with
  | None => Err ErrChunkReconfigInvalidParamA
  | Some a =>
      let writer := writer ++ param_marshal a in
      let writer :=
        match param_b c with
        | Some b =>
            let padding := get_padding_size (PARAM_HEADER_LENGTH + param_value_length a) in
            (writer ++ replicate (Z.to_nat padding) 0) ++ param_marshal b
        | None => writer
        end in
      Ok (len writer, writer)
  end.

#[export] Instance reconfig_chunk : Chunk ChunkReconfig :=
  {| chunk_header := reconfig_header; chunk_unmarshal := reconfig_unmarshal;
     chunk_marshal_to := reconfig_marshal_to; value_length := reconfig_value_length |}.

End OtherCodecs.

(** * Lemmas on parameters *)

Lemma padding_bounds n : 0 <= get_padding_size n < 4.
Proof. apply Z.mod_pos_bound. lia. Qed.

Lemma padding_aligns n : (n + get_padding_size n) mod 4 = 0.
Proof. unfold get_padding_size. rewrite Zplus_mod_idemp_r. replace (n + (4 - n mod 4)) with (n - n mod 4 + 4) by lia.
  pose proof (Z.div_mod n 4). replace (n - n mod 4 + 4) with ((n / 4 + 1) * 4) by lia. apply Z.mod_mul. lia. Qed.

(** What a parameter must satisfy to fit the wire format.  A [ParamUnknown] stands for a
    type that is not listed and that the receiver may skip (its highest bit is set). *)
Definition param_ok (p : Param) : Prop :=
  param_value_length p < 65532 ∧
  match p with
  | ParamForwardTsnSupported => True
  | ParamSupportedExtensions ts | ParamChunkList ts => Forall byte_ok ts
  | ParamRandom _ | ParamStateCookie _ | ParamHeartbeatInfo _ => True
  | ParamRequestedHmacAlgorithm l => Forall (λ a, a = HmacSha128 ∨ a = HmacSha256) l
  | ParamReset r =>
      fits 32 (reconfig_request_sequence_number r) ∧ fits 32 (reconfig_response_sequence_number r) ∧
      fits 32 (sender_last_tsn r) ∧ Forall (fits 16) (stream_identifiers r)
  | ParamReconfigResponse n _ => fits 32 n
  | ParamUnknown t _ => fits 16 t ∧ param_type_from t = UnknownType t ∧ Z.testbit t 15 = true
  end.

Lemma param_type_u16_from t : match t with AdaptLayerInd => False | UnknownType v => param_type_from v = UnknownType v | _ => True end →
  param_type_from (param_type_u16 t) = t.
Proof. by destruct t. Qed.

Lemma result_roundtrip r : result_from (result_u32 r) = r.
Proof. by destruct r. Qed.

Section ParamLemmas.
Context {BC : BytesCrate}.

Lemma param_value_length_nonneg p : 0 <= param_value_length p.
Proof. destruct p; cbn; try apply len_nonneg; unfold PARAM_OUTGOING_RESET_REQUEST_STREAM_IDENTIFIERS_OFFSET; len_lia. Qed.

Lemma len_param_body p : len (param_body p) = param_value_length p.
Proof.
  destruct p as [|ts|b|l|ts|b|b|r|n r|t b]; cbn [param_body param_value_length]; try done.
  - rewrite (len_concat_fixed _ 1); [lia|]. intros. by autorewrite with len.
  - rewrite (len_concat_fixed _ 2); [lia|]. intros. by autorewrite with len.
  - rewrite (len_concat_fixed _ 1); [lia|]. intros. by autorewrite with len.
  - unfold PARAM_OUTGOING_RESET_REQUEST_STREAM_IDENTIFIERS_OFFSET. rewrite !len_app, (len_concat_fixed _ 2) by (intros; by autorewrite with len).
    autorewrite with len. lia.
  - by autorewrite with len.
Qed.

Lemma param_marshal_eq p :
  param_ok p → param_marshal p = put_uint 2 (param_type_u16 (param_type_of p)) ++ put_uint 2 (param_value_length p + 4) ++ param_body p.
Proof.
  intros [Hl _]. pose proof (param_value_length_nonneg p). unfold param_marshal, param_header_marshal_to, param_header.
  cbn [ph_typ ph_value_length app]. rewrite (wrap_small 16 (param_value_length p)) by (unfold fits; lia).
  unfold PARAM_HEADER_LENGTH. rewrite wrap_small by (unfold fits; lia). by rewrite <- app_assoc.
Qed.

Lemma len_param_marshal p : len (param_marshal p) = PARAM_HEADER_LENGTH + param_value_length p.
Proof. unfold param_marshal, param_header_marshal_to. rewrite !len_app, len_param_body. autorewrite with len. unfold PARAM_HEADER_LENGTH. lia. Qed.

Lemma param_type_fits p : param_ok p → fits 16 (param_type_u16 (param_type_of p)).
Proof. intros [_ H]. destruct p; try (by vm_compute). by destruct H. Qed.

Lemma param_type_read p : param_ok p → param_type_from (param_type_u16 (param_type_of p)) = param_type_of p.
Proof. intros [_ H]. apply param_type_u16_from. destruct p; try done. by destruct H as (_ & ? & _). Qed.

Lemma param_header_read p r :
  param_ok p → param_header_unmarshal (param_marshal p ++ r) = Ok (mkParamHeader (param_type_of p) (param_value_length p)).
Proof.
  intros Hp. pose proof (param_value_length_nonneg p). pose proof (len_nonneg r). pose proof Hp as [Hl _].
  unfold param_header_unmarshal, PARAM_HEADER_LENGTH. rewrite len_app, len_param_marshal. unfold PARAM_HEADER_LENGTH.
  rewrite (proj2 (Z.ltb_ge _ 4)) by lia. rewrite param_marshal_eq by done. unfold get_u16.
  rewrite <- !app_assoc, get_put_uint by (by apply param_type_fits). cbn [rbind].
  rewrite get_put_uint by (unfold fits; simpl; lia). cbn [rbind].
  rewrite !(proj2 (Z.ltb_ge _ _)) by lia. cbn [orb]. rewrite param_type_read by done.
  rewrite Z.add_simpl_r, wrap_small by (unfold fits; lia). done.
Qed.

Lemma param_value_read p r :
  param_ok p → param_value (param_marshal p ++ r) (mkParamHeader (param_type_of p) (param_value_length p)) = Ok (param_body p).
Proof.
  intros Hp. unfold param_value. cbn [ph_value_length]. rewrite param_marshal_eq by done.
  rewrite app_assoc, <- (app_assoc _ (param_body p)). apply slice_mid; unfold PARAM_HEADER_LENGTH; rewrite ?len_param_body; by autorewrite with len.
Qed.

Lemma get_types_put ts : Forall byte_ok ts → get_types (length (concat (put_uint 1 <$> ts))) (concat (put_uint 1 <$> ts)) = Ok ts.
Proof.
  induction 1 as [|t ts Ht Hts IH]; [done|]. csimpl. rewrite length_app, put_uint_length. cbn [Nat.add get_types]. unfold get_u8.
  rewrite get_put_uint by done. cbn [rbind]. by rewrite IH.
Qed.

Lemma get_algorithms_put l :
  Forall (λ a, a = HmacSha128 ∨ a = HmacSha256) l → get_algorithms (length l) (concat ((λ a, put_uint 2 (hmac_u16 a)) <$> l)) = Ok l.
Proof.
  induction 1 as [|a l Ha Hl IH]; [done|]. csimpl. cbn [get_algorithms]. unfold get_u16.
  destruct Ha as [-> | ->]; rewrite get_put_uint by (by vm_compute); cbn [rbind hmac_u16]; by rewrite IH.
Qed.

Lemma get_u16s_put l : Forall (fits 16) l → get_u16s (length l) (concat (put_uint 2 <$> l)) = Ok l.
Proof.
  induction 1 as [|a l Ha Hl IH]; [done|]. csimpl. cbn [get_u16s]. unfold get_u16.
  rewrite get_put_uint by done. cbn [rbind]. by rewrite IH.
Qed.

(** The type a parameter starts with. *)
Lemma build_param_type p r :
  param_ok p →
  ∃ reader, slice (param_marshal p ++ r) 0 2 = Ok reader ∧ get_u16 reader = Ok (param_type_u16 (param_type_of p), []).
Proof.
  intros Hp. rewrite param_marshal_eq, <- app_assoc by done. exists (put_uint 2 (param_type_u16 (param_type_of p))).
  split; [apply slice_head_eq; by autorewrite with len|]. unfold get_u16.
  rewrite <- (app_nil_r (put_uint 2 _)). apply get_put_uint. by apply param_type_fits.
Qed.

Lemma build_param_put p r : param_ok p → build_param (param_marshal p ++ r) = Ok p.
Proof.
  intros Hp. pose proof (param_header_read p r Hp) as Hh. pose proof (param_value_read p r Hp) as Hv.
  destruct (build_param_type p r Hp) as (rd & Hs & Hg). unfold build_param, PARAM_HEADER_LENGTH.
  pose proof (param_value_length_nonneg p). pose proof (len_nonneg r).
  rewrite (proj2 (Z.ltb_ge _ 4)) by (rewrite len_app, len_param_marshal; unfold PARAM_HEADER_LENGTH; lia).
  rewrite Hs. cbn [rbind]. rewrite Hg. cbn [rbind]. rewrite param_type_read by done.
  set (raw := param_marshal p ++ r) in *. pose proof Hp as [Hl Hf].
  destruct p as [|ts|b|l|ts|b|b|q|n q|t b]; cbn [param_type_of param_body param_value_length] in *.
  - unfold forward_tsn_supported_unmarshal. by rewrite Hh.
  - unfold supported_extensions_unmarshal. rewrite Hh. cbn [rbind]. rewrite Hv. cbn [rbind]. by rewrite get_types_put.
  - unfold random_unmarshal. rewrite Hh. cbn [rbind]. by rewrite Hv.
  - unfold requested_hmac_unmarshal. rewrite Hh. cbn [rbind]. rewrite Hv. cbn [rbind ph_value_length].
    rewrite Z.mul_comm, Z.div_mul by lia. unfold len. rewrite Nat2Z.id, get_algorithms_put by done. done.
  - unfold chunk_list_unmarshal. rewrite Hh. cbn [rbind ph_typ]. rewrite bool_decide_eq_true_2 by done. cbn [negb].
    rewrite Hv. cbn [rbind]. by rewrite get_types_put.
  - unfold state_cookie_unmarshal. rewrite Hh. cbn [rbind]. by rewrite Hv.
  - unfold heartbeat_info_unmarshal. rewrite Hh. cbn [rbind]. by rewrite Hv.
  - destruct Hf as (H1 & H2 & H3 & H4). unfold reset_request_unmarshal. rewrite Hh. cbn [rbind ph_value_length].
    unfold PARAM_HEADER_LENGTH, PARAM_OUTGOING_RESET_REQUEST_STREAM_IDENTIFIERS_OFFSET in *.
    pose proof (len_nonneg (stream_identifiers q)).
    rewrite (proj2 (Z.ltb_ge _ 16)) by lia. replace (12 + len (stream_identifiers q) * 2 + 4 - 16) with (len (stream_identifiers q) * 2) by lia.
    rewrite Z.mod_mul by lia. cbn [orb negb Z.eqb].
    rewrite (proj2 (Z.ltb_ge _ _)) by (unfold raw; rewrite len_app, len_param_marshal; unfold PARAM_HEADER_LENGTH; cbn [param_value_length];
      unfold PARAM_OUTGOING_RESET_REQUEST_STREAM_IDENTIFIERS_OFFSET; lia).
    rewrite Hv. cbn [rbind]. unfold get_u32. rewrite get_put_uint by done. cbn [rbind]. rewrite get_put_uint by done. cbn [rbind].
    rewrite get_put_uint by done. cbn [rbind]. replace ((12 + len (stream_identifiers q) * 2 - 12)) with (len (stream_identifiers q) * 2) by lia.
    rewrite Z.div_mul by lia. unfold len. rewrite Nat2Z.id, get_u16s_put by done. by destruct q.
  - unfold reconfig_response_unmarshal. rewrite Hh. cbn [rbind ph_value_length]. unfold PARAM_HEADER_LENGTH.
    change ((8 + 4 =? 12)) with true. cbn [negb andb].
    rewrite (proj2 (Z.ltb_ge _ _)) by (unfold raw; rewrite len_app, len_param_marshal; unfold PARAM_HEADER_LENGTH; cbn [param_value_length]; lia).
    rewrite Hv. cbn [rbind]. unfold get_u32. rewrite get_put_uint by done. cbn [rbind].
    rewrite <- (app_nil_r (put_uint 4 (result_u32 q))), get_put_uint by (destruct q; by vm_compute). cbn [rbind]. by rewrite result_roundtrip.
  - destruct Hf as (H1 & H2 & H3). cbn [param_type_u16].
    assert ((Z.land (Z.shiftr t 15) 0x01 =? 0) = false) as ->.
    { change 1 with (Z.shiftl 1 0). rewrite land_single, Z.shiftr_spec, Z.add_0_l, H3 by lia. done. }
    unfold unknown_unmarshal. rewrite Hh. cbn [rbind ph_typ param_type_u16]. by rewrite Hv.
Qed.

(** ** Parsing does not panic *)

Lemma param_header_no_panic raw : Forall byte_ok raw → no_panic (param_header_unmarshal raw).
Proof.
  intros Hb. unfold param_header_unmarshal, PARAM_HEADER_LENGTH, get_u16. destruct (Z.ltb_spec (len raw) 4); [done|].
  destruct (get_uint_total 2 raw Hb) as (? & r1 & -> & _ & _ & Hb1 & L1); [lia|]. cbn [rbind].
  destruct (get_uint_total 2 r1 Hb1) as (? & r2 & -> & _ & _ & Hb2 & L2); [lia|]. cbn [rbind]. by destruct (_ || _).
Qed.

Lemma param_header_inv raw h :
  Forall byte_ok raw → param_header_unmarshal raw = Ok h → 0 <= ph_value_length h < 65532 ∧ PARAM_HEADER_LENGTH + ph_value_length h <= len raw.
Proof.
  intros Hb. unfold param_header_unmarshal, PARAM_HEADER_LENGTH, get_u16. destruct (Z.ltb_spec (len raw) 4); [done|].
  destruct (get_uint_total 2 raw Hb) as (? & r1 & -> & _ & _ & Hb1 & L1); [lia|]. cbn [rbind].
  destruct (get_uint_total 2 r1 Hb1) as (l & r2 & -> & Fl & _ & Hb2 & L2); [lia|]. cbn [rbind].
  unfold fits in Fl. change (2 ^ (8 * Z.of_nat 2)) with 65536 in Fl.
  destruct (Z.ltb_spec l 4), (Z.ltb_spec (len raw) l); try done. cbn [orb]. intros [= <-]. cbn [ph_value_length].
  rewrite wrap_small by (unfold fits; lia). lia.
Qed.

(** A parameter's value, once its header is read. *)
Lemma param_value_total raw :
  Forall byte_ok raw → no_panic (param_header_unmarshal raw) ∧
  ∀ h, param_header_unmarshal raw = Ok h →
    0 <= ph_value_length h < 65532 ∧ PARAM_HEADER_LENGTH + ph_value_length h <= len raw ∧
    ∃ v, param_value raw h = Ok v ∧ len v = ph_value_length h ∧ Forall byte_ok v.
Proof.
  intros Hb. split; [by apply param_header_no_panic|]. intros h Hh. destruct (param_header_inv raw h Hb Hh) as [Hv Hl].
  unfold param_value, PARAM_HEADER_LENGTH in *. destruct (slice_ok raw 4 (4 + ph_value_length h)) as (v & -> & L & S); [lia..|].
  split_and!; try lia. exists v. split_and!; [done|lia|by eapply Forall_submseteq].
Qed.

Lemma get_types_no_panic fuel r : Forall byte_ok r → (fuel ≤ length r)%nat → no_panic (get_types fuel r).
Proof.
  revert r. induction fuel as [|n IH]; intros r Hr Hl; [done|]. cbn [get_types]. unfold get_u8.
  destruct (get_uint_total 1 r Hr) as (? & r1 & -> & _ & _ & Hb1 & L1); [len_lia|]. cbn [rbind].
  apply no_panic_bind; [apply IH; [done|len_lia]|done].
Qed.

Lemma get_algorithms_no_panic n r : Forall byte_ok r → 2 * Z.of_nat n <= len r → no_panic (get_algorithms n r).
Proof.
  revert r. induction n as [|n IH]; intros r Hr Hl; [done|]. cbn [get_algorithms]. unfold get_u16.
  destruct (get_uint_total 2 r Hr) as (? & r1 & -> & _ & _ & Hb1 & L1); [lia|]. cbn [rbind].
  destruct (hmac_from _); try done; apply no_panic_bind; try done; apply IH; done || lia.
Qed.

Lemma get_u16s_no_panic n r : Forall byte_ok r → 2 * Z.of_nat n <= len r → no_panic (get_u16s n r).
Proof.
  revert r. induction n as [|n IH]; intros r Hr Hl; [done|]. cbn [get_u16s]. unfold get_u16.
  destruct (get_uint_total 2 r Hr) as (? & r1 & -> & _ & _ & Hb1 & L1); [lia|]. cbn [rbind].
  apply no_panic_bind; [apply IH; [done|lia]|done].
Qed.

Ltac param_parse Hb :=
  apply no_panic_bind; [by apply param_header_no_panic|]; intros ? ?Hh;
  destruct (proj2 (param_value_total _ Hb) _ Hh) as (?Hv & ?Hl & ?v & ?Hs & ?Lv & ?Bv).

Lemma build_param_no_panic raw : Forall byte_ok raw → no_panic (build_param raw).
Proof.
  intros Hb. unfold build_param. destruct (Z.ltb_spec (len raw) PARAM_HEADER_LENGTH) as [|Hl]; [done|].
  unfold PARAM_HEADER_LENGTH in Hl. destruct (slice_ok raw 0 2) as (rd & -> & L & S); [lia..|]. cbn [rbind].
  destruct (get_uint_total 2 rd (Forall_submseteq _ _ _ S Hb)) as (t & r1 & E & _); [lia|].
  unfold get_u16. rewrite E. cbn [rbind]. assert (no_panic (unknown_unmarshal raw)) as Hu.
  { unfold unknown_unmarshal. param_parse Hb. by rewrite Hs. }
  destruct (param_type_from t); try (by destruct (_ =? 0)).
  - unfold heartbeat_info_unmarshal. param_parse Hb. by rewrite Hs.
  - unfold state_cookie_unmarshal. param_parse Hb. by rewrite Hs.
  - unfold reset_request_unmarshal. param_parse Hb.
    unfold PARAM_HEADER_LENGTH, PARAM_OUTGOING_RESET_REQUEST_STREAM_IDENTIFIERS_OFFSET in *.
    destruct (Z.ltb_spec (ph_value_length a + 4) 16); [done|]. cbn [orb]. destruct (negb _); [done|]. destruct (_ <? _); [done|].
    rewrite Hs. cbn [rbind]. unfold get_u32.
    destruct (get_uint_total 4 v Bv) as (? & v1 & -> & _ & _ & B1 & L1); [lia|]. cbn [rbind].
    destruct (get_uint_total 4 v1 B1) as (? & v2 & -> & _ & _ & B2 & L2); [lia|]. cbn [rbind].
    destruct (get_uint_total 4 v2 B2) as (? & v3 & -> & _ & _ & B3 & L3); [lia|]. cbn [rbind].
    apply no_panic_bind; [|done]. apply get_u16s_no_panic; [done|].
    pose proof (Z.mul_div_le (ph_value_length a - 12) 2). pose proof (Z.div_pos (ph_value_length a - 12) 2). lia.
  - unfold reconfig_response_unmarshal. param_parse Hb. unfold PARAM_HEADER_LENGTH in *.
    destruct (Z.eqb_spec (ph_value_length a + 4) 12), (Z.eqb_spec (ph_value_length a + 4) 20); try done; cbn [negb andb];
      (destruct (_ <? _); [done|]); rewrite Hs; cbn [rbind]; unfold get_u32;
      (destruct (get_uint_total 4 v Bv) as (? & v1 & -> & _ & _ & B1 & L1); [lia|]); cbn [rbind];
      by destruct (get_uint_total 4 v1 B1) as (? & v2 & -> & _ & _ & B2 & L2); [lia|].
  - unfold random_unmarshal. param_parse Hb. by rewrite Hs.
  - unfold chunk_list_unmarshal. param_parse Hb. destruct (negb _); [done|]. rewrite Hs. cbn [rbind].
    apply no_panic_bind; [by apply get_types_no_panic|done].
  - unfold requested_hmac_unmarshal. param_parse Hb. rewrite Hs. cbn [rbind]. apply no_panic_bind; [|done].
    apply get_algorithms_no_panic; [done|]. pose proof (Z.mul_div_le (ph_value_length a) 2). pose proof (Z.div_pos (ph_value_length a) 2). lia.
  - unfold supported_extensions_unmarshal. param_parse Hb. rewrite Hs. cbn [rbind].
    apply no_panic_bind; [by apply get_types_no_panic|done].
  - unfold forward_tsn_supported_unmarshal. apply no_panic_bind; [by apply param_header_no_panic|done].
Qed.

Lemma read_params_no_panic fuel raw stop offset remaining :
  Forall byte_ok raw → 0 <= offset → stop <= len raw → stop - offset <= 4 * Z.of_nat fuel →
  no_panic (read_params fuel raw stop offset remaining).
Proof.
  intros Hb. revert offset remaining. induction fuel as [|fuel IH]; intros offset remaining Ho Hs Hf; cbn [read_params];
    destruct (Z.ltb_spec INIT_OPTIONAL_VAR_HEADER_LENGTH remaining), (Z.ltb_spec offset stop); cbn [andb]; try done; [lia|].
  destruct (slice_ok raw offset stop) as (b & -> & L & S); [lia..|]. cbn [rbind].
  apply no_panic_bind; [apply build_param_no_panic; by eapply Forall_submseteq|]. intros p _.
  apply no_panic_bind; [|done]. pose proof (param_value_length_nonneg p).
  pose proof (padding_bounds (PARAM_HEADER_LENGTH + param_value_length p)). unfold PARAM_HEADER_LENGTH in *. apply IH; lia.
Qed.

Lemma init_no_panic raw : Forall byte_ok raw → no_panic (init_unmarshal raw).
Proof.
  intros Hb. unfold init_unmarshal. apply no_panic_bind; [by apply chunk_header_no_panic|]. intros h Hh.
  destruct (chunk_header_inv raw h Hb Hh) as ((_ & _ & Hv) & Hl). unfold CHUNK_HEADER_SIZE, INIT_CHUNK_MIN_LENGTH in *.
  destruct (negb _); [done|]. destruct (Z.ltb_spec (len raw) (4 + 16)); [done|]. destruct (Z.ltb_spec (ch_value_length h) 16); [done|].
  destruct (negb _); [done|]. destruct (slice_ok raw 4 (4 + ch_value_length h)) as (r & -> & Lr & Sr); [lia..|]. cbn [rbind].
  assert (Forall byte_ok r) as Hr by (by eapply Forall_submseteq). unfold get_u32, get_u16.
  destruct (get_uint_total 4 r Hr) as (? & r1 & -> & _ & _ & B1 & L1); [lia|]. cbn [rbind].
  destruct (get_uint_total 4 r1 B1) as (? & r2 & -> & _ & _ & B2 & L2); [lia|]. cbn [rbind].
  destruct (get_uint_total 2 r2 B2) as (? & r3 & -> & _ & _ & B3 & L3); [lia|]. cbn [rbind].
  destruct (get_uint_total 2 r3 B3) as (? & r4 & -> & _ & _ & B4 & L4); [lia|]. cbn [rbind].
  destruct (get_uint_total 4 r4 B4) as (? & r5 & -> & _ & _ & B5 & L5); [lia|]. cbn [rbind].
  apply no_panic_bind; [|done]. apply read_params_no_panic; [done|lia..|]. unfold len in *. lia.
Qed.

Lemma heartbeat_no_panic raw : Forall byte_ok raw → no_panic (heartbeat_unmarshal raw).
Proof.
  intros Hb. unfold heartbeat_unmarshal. apply no_panic_bind; [by apply chunk_header_no_panic|]. intros h Hh.
  destruct (chunk_header_inv raw h Hb Hh) as ((_ & _ & Hv) & Hl). unfold CHUNK_HEADER_SIZE in *.
  destruct (negb _); [done|]. destruct (_ <=? _); [done|].
  destruct (slice_ok raw 4 (4 + ch_value_length h)) as (r & -> & Lr & Sr); [lia..|]. cbn [rbind].
  apply no_panic_bind; [apply build_param_no_panic; by eapply Forall_submseteq|]. intros p _. by destruct (negb _).
Qed.

Lemma reconfig_no_panic raw : Forall byte_ok raw → no_panic (reconfig_unmarshal raw).
Proof.
  intros Hb. unfold reconfig_unmarshal. apply no_panic_bind; [by apply chunk_header_no_panic|]. intros h Hh.
  destruct (chunk_header_inv raw h Hb Hh) as ((_ & _ & Hv) & Hl). unfold CHUNK_HEADER_SIZE, PARAM_HEADER_LENGTH in *.
  destruct (negb _); [done|].
  destruct (slice_ok raw 4 (4 + ch_value_length h)) as (r & -> & Lr & Sr); [lia..|]. cbn [rbind].
  apply no_panic_bind; [apply build_param_no_panic; by eapply Forall_submseteq|]. intros p _.
  pose proof (param_value_length_nonneg p). pose proof (padding_bounds (4 + param_value_length p)).
  apply no_panic_bind; [|done]. destruct (Z.ltb_spec (4 + 4 + param_value_length p + get_padding_size (4 + param_value_length p)) (4 + ch_value_length h)); [|done].
  destruct (slice_ok raw (4 + 4 + param_value_length p + get_padding_size (4 + param_value_length p)) (4 + ch_value_length h)) as (q & -> & _ & Sq); [lia..|].
  cbn [rbind]. apply no_panic_bind; [apply build_param_no_panic; by eapply Forall_submseteq|done].
Qed.

End ParamLemmas.

(** * Lemmas on chunks *)

Section ChunkLemmas.
Context {BC : BytesCrate}.

(** The bytes of a parameter list. *)
Fixpoint params_bytes (ps : list Param) : bytes :=
  match ps with
  | [] => []
  | p :: ps =>
      param_marshal p ++
      (if bool_decide (ps = []) then [] else replicate (Z.to_nat (get_padding_size (len (param_marshal p)))) 0) ++
      params_bytes ps
  end.

Lemma write_params_eq ps w : write_params ps w = w ++ params_bytes ps.
Proof.
  revert w. induction ps as [|p ps IH]; intros w; [by rewrite app_nil_r|]. cbn [write_params params_bytes]. rewrite IH.
  destruct (bool_decide _); by rewrite <- !app_assoc.
Qed.

Lemma len_params_bytes ps : len (params_bytes ps) = params_length ps.
Proof.
  induction ps as [|p ps IH]; [done|]. cbn [params_bytes params_length]. rewrite !len_app, IH, len_param_marshal.
  pose proof (padding_bounds (PARAM_HEADER_LENGTH + param_value_length p)).
  destruct (bool_decide _); autorewrite with len; lia.
Qed.

Lemma params_length_nonneg ps : 0 <= params_length ps.
Proof. rewrite <- len_params_bytes. apply len_nonneg. Qed.

(** The last parameter is not empty: an INIT whose last parameter is only a header is not
    read to its end. *)
Definition last_not_empty (ps : list Param) : Prop := ∀ p, last ps = Some p → 0 < param_value_length p.

Lemma last_not_empty_tail p ps : last_not_empty (p :: ps) → ps ≠ [] → last_not_empty ps.
Proof. intros H Hne q Hq. apply H. destruct ps; done. Qed.

Lemma params_length_gt ps : last_not_empty ps → ps ≠ [] → 4 < params_length ps.
Proof.
  induction ps as [|p ps IH]; intros Hl Hne; [done|]. cbn [params_length]. pose proof (param_value_length_nonneg p).
  pose proof (padding_bounds (PARAM_HEADER_LENGTH + param_value_length p)). unfold PARAM_HEADER_LENGTH in *.
  destruct (bool_decide_reflect (ps = [])) as [->|Hn].
  - specialize (Hl p eq_refl). cbn. lia.
  - specialize (IH (last_not_empty_tail _ _ Hl Hn) Hn). lia.
Qed.

Lemma read_params_put pre ps fuel :
  Forall param_ok ps → last_not_empty ps → (length ps ≤ fuel)%nat →
  let raw := pre ++ params_bytes ps in
  read_params fuel raw (len raw) (len pre) (params_length ps) = Ok ps.
Proof.
  intros Hok. revert pre fuel. induction Hok as [|p ps Hp Hps IH]; intros pre fuel Hne Hf; cbn zeta.
  { destruct fuel; cbn [read_params params_length]; by rewrite (proj2 (Z.ltb_ge _ 0)) by (unfold INIT_OPTIONAL_VAR_HEADER_LENGTH; lia). }
  destruct fuel as [|fuel]; [cbn in Hf; lia|]. cbn [read_params]. unfold INIT_OPTIONAL_VAR_HEADER_LENGTH.
  pose proof (params_length_gt (p :: ps) Hne ltac:(done)) as Hgt.
  rewrite (proj2 (Z.ltb_lt 4 _)), (proj2 (Z.ltb_lt (len pre) _)) by (rewrite ?len_app, ?len_params_bytes; lia). cbn [andb].
  rewrite slice_tail by done. cbn [rbind params_bytes]. rewrite <- ?app_assoc, build_param_put by done. cbn [rbind params_length].
  rewrite len_param_marshal. pose proof (padding_bounds (PARAM_HEADER_LENGTH + param_value_length p)) as Hpad.
  destruct (bool_decide_reflect (ps = [])) as [->|Hn].
  - cbn [params_bytes params_length app]. rewrite app_nil_r.
    destruct fuel; cbn [read_params]; rewrite (proj2 (Z.ltb_ge (len pre + _) _)) by (rewrite len_app, len_param_marshal; lia); by rewrite andb_false_r.
  - set (z := replicate _ 0). specialize (IH (pre ++ param_marshal p ++ z) fuel (last_not_empty_tail _ _ Hne Hn) ltac:(cbn in Hf; lia)).
    cbn zeta in IH. replace (len (pre ++ param_marshal p ++ z)) with
      (len pre + (PARAM_HEADER_LENGTH + param_value_length p + get_padding_size (PARAM_HEADER_LENGTH + param_value_length p))) in IH
      by (unfold z; rewrite !len_app, len_param_marshal, len_replicate; lia).
    rewrite <- !app_assoc in IH. rewrite Z.add_simpl_l, IH. done.
Qed.

Lemma length_params ps : Z.of_nat (length ps) <= params_length ps.
Proof.
  induction ps as [|p ps IH]; [done|]. cbn [params_length length]. pose proof (param_value_length_nonneg p).
  pose proof (padding_bounds (PARAM_HEADER_LENGTH + param_value_length p)). unfold PARAM_HEADER_LENGTH in *. destruct (bool_decide _); lia.
Qed.

Definition init_ok (c : ChunkInit) : Prop :=
  fits 32 (init_tag c) ∧ fits 32 (init_rwnd c) ∧ fits 16 (num_outbound_streams c) ∧ fits 16 (num_inbound_streams c) ∧
  fits 32 (initial_tsn c) ∧ Forall param_ok (params c) ∧ last_not_empty (params c) ∧ init_value_length c < 65532.

Lemma init_roundtrip c :
  init_ok c → ∃ bs, chunk_marshal c = Ok bs ∧ len bs = CHUNK_HEADER_SIZE + value_length c ∧ chunk_unmarshal bs = Ok c.
Proof.
  intros (H1 & H2 & H3 & H4 & H5 & Hp & Hne & Hl). pose proof (params_length_nonneg (params c)) as Hpl.
  set (fixed := put_uint 4 (init_tag c) ++ put_uint 4 (init_rwnd c) ++ put_uint 2 (num_outbound_streams c) ++
                put_uint 2 (num_inbound_streams c) ++ put_uint 4 (initial_tsn c)).
  assert (len fixed = 16) as Lf by (unfold fixed; by autorewrite with len).
  assert (ch_value_length (init_header c) = 16 + params_length (params c)) as Hv
    by (unfold init_header; cbn [ch_value_length]; unfold init_value_length in *; apply wrap_small; unfold fits; lia).
  exists (chunk_header_bytes (init_header c) ++ fixed ++ params_bytes (params c)). split_and!.
  - unfold chunk_marshal, chunk_marshal_to, init_chunk, init_marshal_to. rewrite chunk_header_marshal_to_eq. cbn [rbind].
    rewrite write_params_eq. unfold fixed. by rewrite <- !app_assoc.
  - rewrite !len_app, len_chunk_header_bytes, Lf, len_params_bytes. reflexivity.
  - unfold chunk_unmarshal, init_chunk, init_unmarshal.
    rewrite chunk_header_read; [|unfold header_ok; rewrite Hv; split_and!; [unfold init_header; cbn [ch_typ]; destruct (is_ack c); by vm_compute|by vm_compute|lia|unfold init_value_length in Hl; lia]
      |by rewrite len_app, Lf, len_params_bytes, Hv].
    cbn [rbind]. replace (negb _) with false by (unfold init_header; cbn [ch_typ]; by destruct (is_ack c)).
    unfold INIT_CHUNK_MIN_LENGTH. rewrite !len_app, len_chunk_header_bytes, Lf, len_params_bytes, Hv. unfold CHUNK_HEADER_SIZE.
    rewrite !(proj2 (Z.ltb_ge _ _)) by lia. change (negb (ch_flags (init_header c) =? 0)) with false. cbn iota.
    rewrite slice_tail by (rewrite ?len_app, ?len_chunk_header_bytes, ?Lf, ?len_params_bytes; unfold CHUNK_HEADER_SIZE; lia). cbn [rbind].
    unfold fixed at 1, get_u32, get_u16. rewrite <- !app_assoc. do 5 (rewrite get_put_uint by done; cbn [rbind]).
    rewrite (app_assoc (chunk_header_bytes (init_header c)) fixed).
    pose proof (read_params_put (chunk_header_bytes (init_header c) ++ fixed) (params c)
      (length ((chunk_header_bytes (init_header c) ++ fixed) ++ params_bytes (params c))) Hp Hne) as E.
    cbn zeta in E. rewrite !len_app, len_chunk_header_bytes, Lf, len_params_bytes in E. unfold CHUNK_HEADER_SIZE in E.
    replace (4 + (16 + params_length (params c)) - (4 + 16)) with (params_length (params c)) by lia.
    rewrite (Z.add_assoc 4 16) , E.
    + cbn [rbind]. unfold init_header. cbn [ch_typ]. destruct c as [[] ? ? ? ? ? ?]; done.
    + pose proof (length_params (params c)). pose proof (len_params_bytes (params c)). rewrite !length_app. unfold len in *. lia.
Qed.

(** A parameter alone in a chunk. *)
Lemma single_param_read h p :
  header_ok h → ch_value_length h = PARAM_HEADER_LENGTH + param_value_length p → param_ok p →
  chunk_header_unmarshal (chunk_header_bytes h ++ param_marshal p) = Ok h ∧
  slice (chunk_header_bytes h ++ param_marshal p) CHUNK_HEADER_SIZE (CHUNK_HEADER_SIZE + ch_value_length h) = Ok (param_marshal p) ∧
  build_param (param_marshal p) = Ok p.
Proof.
  intros Hh Hv Hp. split_and!.
  - apply chunk_header_read; [done|]. by rewrite len_param_marshal.
  - apply slice_tail; rewrite ?len_app, ?len_chunk_header_bytes, ?len_param_marshal; lia.
  - rewrite <- (app_nil_r (param_marshal p)). by apply build_param_put.
Qed.

Definition heartbeat_ok (i : bytes) : Prop := len i < 65528.

Lemma heartbeat_roundtrip i :
  heartbeat_ok i →
  (∃ bs, chunk_marshal (mkHeartbeat [ParamHeartbeatInfo i]) = Ok bs ∧ len bs = CHUNK_HEADER_SIZE + (4 + len i) ∧
         chunk_unmarshal bs = Ok (mkHeartbeat [ParamHeartbeatInfo i])) ∧
  (∃ bs, chunk_marshal (mkHeartbeatAck [ParamHeartbeatInfo i]) = Ok bs ∧
         chunk_unmarshal bs = Ok (mkHeartbeatAck [ParamHeartbeatInfo i])).
Proof.
  unfold heartbeat_ok. intros Hi. pose proof (len_nonneg i). set (p := ParamHeartbeatInfo i).
  assert (param_ok p) as Hp by (split; [cbn; lia|done]).
  assert (∀ t, fits 8 t → header_ok (mkChunkHeader t 0 (u16 (4 + len i))) ∧ u16 (4 + len i) = 4 + len i) as Hh.
  { intros t Ht. assert (u16 (4 + len i) = 4 + len i) as E by (apply wrap_small; unfold fits; lia).
    split; [|done]. unfold header_ok. cbn. rewrite E. split_and!; [done|by vm_compute|lia..]. }
  split.
  - exists (chunk_header_bytes (heartbeat_header (mkHeartbeat [p])) ++ param_marshal p). split_and!.
    + unfold chunk_marshal, chunk_marshal_to, heartbeat_chunk, heartbeat_marshal_to. by rewrite chunk_header_marshal_to_eq.
    + rewrite len_app, len_chunk_header_bytes, len_param_marshal. unfold PARAM_HEADER_LENGTH. cbn. lia.
    + destruct (Hh CT_HEARTBEAT ltac:(by vm_compute)) as [Hk Hw].
      assert (heartbeat_header (mkHeartbeat [p]) = mkChunkHeader CT_HEARTBEAT 0 (u16 (4 + len i))) as -> by done.
      destruct (single_param_read _ p Hk Hw Hp) as (E1 & E2 & E3).
      unfold chunk_unmarshal, heartbeat_chunk, heartbeat_unmarshal. rewrite E1. cbn [rbind]. rewrite E2. cbn [rbind]. rewrite E3.
      rewrite (proj2 (Z.leb_gt _ _)) by (rewrite len_app, len_chunk_header_bytes, len_param_marshal; unfold PARAM_HEADER_LENGTH; cbn; lia). done.
  - exists (chunk_header_bytes (heartbeat_ack_header (mkHeartbeatAck [p])) ++ param_marshal p). split_and!.
    + unfold chunk_marshal, chunk_marshal_to, heartbeat_ack_chunk, heartbeat_ack_marshal_to. cbn [hba_params].
      rewrite bool_decide_eq_true_2 by done. cbn [negb]. by rewrite chunk_header_marshal_to_eq.
    + destruct (Hh CT_HEARTBEAT_ACK ltac:(by vm_compute)) as [Hk Hw].
      assert (heartbeat_ack_header (mkHeartbeatAck [p]) = mkChunkHeader CT_HEARTBEAT_ACK 0 (u16 (4 + len i))) as ->.
      { unfold heartbeat_ack_header, heartbeat_ack_value_length. cbn [hba_params params_length]. rewrite bool_decide_eq_true_2 by done.
        by rewrite Z.add_0_r. }
      destruct (single_param_read _ p Hk Hw Hp) as (E1 & E2 & E3).
      unfold chunk_unmarshal, heartbeat_ack_chunk, heartbeat_ack_unmarshal. rewrite E1. cbn [rbind]. rewrite E2. cbn [rbind]. rewrite E3.
      rewrite (proj2 (Z.leb_gt _ _)) by (rewrite len_app, len_chunk_header_bytes, len_param_marshal; unfold PARAM_HEADER_LENGTH; cbn; lia). done.
Qed.

Definition reconfig_ok (a : Param) (b : option Param) : Prop :=
  param_ok a ∧ match b with Some b => param_ok b | None => True end ∧ reconfig_value_length (mkReconfig (Some a) b) < 65532.

Lemma reconfig_roundtrip a b :
  reconfig_ok a b →
  let c := mkReconfig (Some a) b in
  ∃ bs, chunk_marshal c = Ok bs ∧ len bs = CHUNK_HEADER_SIZE + value_length c ∧ chunk_unmarshal bs = Ok c.
Proof.
  intros (Ha & Hb & Hl) c. set (padding := get_padding_size (PARAM_HEADER_LENGTH + param_value_length a)).
  pose proof (padding_bounds (PARAM_HEADER_LENGTH + param_value_length a)) as Hpad. fold padding in Hpad.
  set (rest := match b with Some b => replicate (Z.to_nat padding) 0 ++ param_marshal b | None => [] end).
  pose proof (param_value_length_nonneg a).
  assert (len (param_marshal a ++ rest) = reconfig_value_length c) as Lb.
  { unfold reconfig_value_length, rest. cbn [param_a param_b c]. rewrite len_app, len_param_marshal.
    fold padding. destruct b; rewrite ?len_app, ?len_replicate, ?len_param_marshal, ?len_nil; lia. }
  assert (0 <= reconfig_value_length c) by (rewrite <- Lb; apply len_nonneg).
  assert (ch_value_length (reconfig_header c) = reconfig_value_length c) as Hv
    by (unfold reconfig_header; cbn [ch_value_length]; apply wrap_small; unfold fits; fold c in Hl; lia).
  exists (chunk_header_bytes (reconfig_header c) ++ param_marshal a ++ rest). split_and!.
  - unfold chunk_marshal, chunk_marshal_to, reconfig_chunk, reconfig_marshal_to. rewrite chunk_header_marshal_to_eq. cbn [rbind param_a param_b c].
    unfold rest. fold padding. destruct b; cbn [rbind]; by rewrite ?app_nil_r, <- ?app_assoc.
  - rewrite len_app, len_chunk_header_bytes, Lb. done.
  - unfold chunk_unmarshal, reconfig_chunk, reconfig_unmarshal. fold c in Hl.
    rewrite chunk_header_read; [|unfold header_ok; rewrite Hv; split_and!; [by vm_compute..|lia|lia]|by rewrite Lb].
    cbn [rbind]. change (negb (ch_typ (reconfig_header c) =? CT_RECONFIG)) with false. cbn iota. rewrite Hv.
    rewrite slice_tail by (rewrite ?len_app, ?len_chunk_header_bytes; rewrite ?len_app in Lb; lia). cbn [rbind].
    rewrite build_param_put by done. cbn [rbind]. fold padding. unfold rest in *. destruct b as [b|].
    + pose proof (param_value_length_nonneg b).
      rewrite (proj2 (Z.ltb_lt _ _)) by (rewrite <- Lb, !len_app, !len_param_marshal, len_replicate; unfold PARAM_HEADER_LENGTH, CHUNK_HEADER_SIZE; lia).
      rewrite (app_assoc (param_marshal a)), app_assoc, slice_tail.
      * cbn [rbind]. rewrite <- (app_nil_r (param_marshal b)), build_param_put by done. done.
      * rewrite !len_app, len_chunk_header_bytes, len_param_marshal, len_replicate. lia.
      * rewrite <- Lb, !len_app, len_chunk_header_bytes. lia.
    + rewrite (proj2 (Z.ltb_ge _ _)) by (rewrite <- Lb, len_app, len_param_marshal, len_nil; unfold PARAM_HEADER_LENGTH, CHUNK_HEADER_SIZE; lia). done.
Qed.

End ChunkLemmas.
