(* ===== verification/SctpPacket.v ===== *)
(** SCTP packets, [rtc-sctp/src/packet.rs]: a common header with a checksum and a sequence of
    chunks, written by [write_framed] and read in one step ([Packet::unmarshal]) or in two
    ([PartialDecode]). *)

From S2P Require Import Prelude SctpChunk SctpParam.

(** [Box<dyn Chunk>] *)
Inductive AnyChunk :=
| CInit (c : ChunkInit)
| CAbort (c : ChunkAbort)
| CError (c : ChunkError)
| CHeartbeat (c : ChunkHeartbeat)
| CHeartbeatAck (c : ChunkHeartbeatAck)
| CCookieEcho (c : ChunkCookieEcho)
| CCookieAck
| CData (c : ChunkPayloadData)
| CSack (c : ChunkSelectiveAck)
| CReconfig (c : ChunkReconfig)
| CForwardTsn (c : ChunkForwardTsn)
| CShutdown (c : ChunkShutdown)
| CShutdownAck
| CShutdownComplete.

Record Packet := mkPacket { pkt_header : CommonHeader; pkt_chunks : list AnyChunk }.

(** [Chunk::check]: only INIT and INIT-ACK have conditions. *)
Definition any_check (c : AnyChunk) : res unit :=
  match c with CInit c => init_check c | _ => Ok tt end.

Definition check_chunks (n : Z) (tag : Z) : list AnyChunk → res unit :=
  fix go cs :=
    match cs with
    | [] => Ok tt
    | CInit c :: cs =>
        if negb (is_ack c) then
          if negb (n =? 1) then Err ErrInitChunkBundled
          else if negb (tag =? 0) then Err ErrInitChunkVerifyTagNotZero
          else go cs
        else go cs
    | _ :: cs => go cs
    end.

Definition check_packet (p : Packet) : res unit :=
  if source_port (pkt_header p) =? 0 then Err ErrSctpPacketSourcePortZero
  else if destination_port (pkt_header p) =? 0 then Err ErrSctpPacketDestinationPortZero
  else check_chunks (len (pkt_chunks p)) (verification_tag (pkt_header p)) (pkt_chunks p).

Section PacketCodec.
Context {BC : BytesCrate} {CRC : Crc32c}.

Definition any_value_length (c : AnyChunk) : Z :=
  match c with
  | CInit c => value_length c | CAbort c => value_length c | CError c => value_length c
  | CHeartbeat c => value_length c | CHeartbeatAck c => value_length c | CCookieEcho c => value_length c
  | CCookieAck => value_length mkCookieAck | CData c => value_length c | CSack c => value_length c
  | CReconfig c => value_length c | CForwardTsn c => value_length c | CShutdown c => value_length c
  | CShutdownAck => value_length mkShutdownAck | CShutdownComplete => value_length mkShutdownComplete
  end.

Definition any_header (c : AnyChunk) : ChunkHeader :=
  match c with
  | CInit c => chunk_header c | CAbort c => chunk_header c | CError c => chunk_header c
  | CHeartbeat c => chunk_header c | CHeartbeatAck c => chunk_header c | CCookieEcho c => chunk_header c
  | CCookieAck => chunk_header mkCookieAck | CData c => chunk_header c | CSack c => chunk_header c
  | CReconfig c => chunk_header c | CForwardTsn c => chunk_header c | CShutdown c => chunk_header c
  | CShutdownAck => chunk_header mkShutdownAck | CShutdownComplete => chunk_header mkShutdownComplete
  end.

Definition any_marshal_to (c : AnyChunk) (w : bytes) : res (Z * bytes) :=
  match c with
  | CInit c => chunk_marshal_to c w | CAbort c => chunk_marshal_to c w | CError c => chunk_marshal_to c w
  | CHeartbeat c => chunk_marshal_to c w | CHeartbeatAck c => chunk_marshal_to c w
  | CCookieEcho c => chunk_marshal_to c w | CCookieAck => chunk_marshal_to mkCookieAck w
  | CData c => chunk_marshal_to c w | CSack c => chunk_marshal_to c w | CReconfig c => chunk_marshal_to c w
  | CForwardTsn c => chunk_marshal_to c w | CShutdown c => chunk_marshal_to c w
  | CShutdownAck => chunk_marshal_to mkShutdownAck w
  | CShutdownComplete => chunk_marshal_to mkShutdownComplete w
  end.

(** The [match ct] of the reading loops; HEARTBEAT-ACK is not listed there. *)
Definition parse_chunk (ct : ChunkType) (buf : bytes) : res AnyChunk :=
  if (ct =? CT_INIT) || (ct =? CT_INIT_ACK) then let! c := chunk_unmarshal buf in Ok (CInit c)
  else if ct =? CT_ABORT then let! c := chunk_unmarshal buf in Ok (CAbort c)
  else if ct =? CT_COOKIE_ECHO then let! c := chunk_unmarshal buf in Ok (CCookieEcho c)
  else if ct =? CT_COOKIE_ACK then let! _ := chunk_unmarshal (T := ChunkCookieAck) buf in Ok CCookieAck
  else if ct =? CT_HEARTBEAT then let! c := chunk_unmarshal buf in Ok (CHeartbeat c)
  else if ct =? CT_PAYLOAD_DATA then let! c := chunk_unmarshal buf in Ok (CData c)
  else if ct =? CT_SACK then let! c := chunk_unmarshal buf in Ok (CSack c)
  else if ct =? CT_RECONFIG then let! c := chunk_unmarshal buf in Ok (CReconfig c)
  else if ct =? CT_FORWARD_TSN then let! c := chunk_unmarshal buf in Ok (CForwardTsn c)
  else if ct =? CT_ERROR then let! c := chunk_unmarshal buf in Ok (CError c)
  else if ct =? CT_SHUTDOWN then let! c := chunk_unmarshal buf in Ok (CShutdown c)
  else if ct =? CT_SHUTDOWN_ACK then let! _ := chunk_unmarshal (T := ChunkShutdownAck) buf in Ok CShutdownAck
  else if ct =? CT_SHUTDOWN_COMPLETE
  then let! _ := chunk_unmarshal (T := ChunkShutdownComplete) buf in Ok CShutdownComplete
  else Err ErrUnmarshalUnknownChunkType.

(** The loop over the chunks; each takes at least four bytes. *)
Fixpoint read_chunks (fuel : nat) (raw : bytes) (offset : Z) : res (list AnyChunk) :=
  if offset =? len raw then Ok []
  else if len raw <? offset + CHUNK_HEADER_SIZE then Err ErrParseSctpChunkNotEnoughData
  else match fuel with
  | O => Panic
  | S fuel =>
      let! chunk_buf := slice_chunk raw offset in
      let! ct := index raw offset in
      let! c := parse_chunk ct chunk_buf in
      let chunk_value_padding := get_padding_size (any_value_length c) in
      let! cs := read_chunks fuel raw (offset + (CHUNK_HEADER_SIZE + any_value_length c + chunk_value_padding)) in
      Ok (c :: cs)
  end.

(** [PartialDecode::finish] *)
Definition finish (pd : PartialDecode) : res Packet :=
  let! cs := read_chunks (length (pd_remaining pd)) (pd_remaining pd) 0 in
  Ok (mkPacket (common_header pd) cs).

Definition packet_unmarshal (raw : bytes) : res Packet :=
  if len raw <? PACKET_HEADER_SIZE then Err ErrPacketRawTooSmall
  else
    let! (source_port, reader) := get_u16 raw in
    let! (destination_port, reader) := get_u16 reader in
    let! (verification_tag, reader) := get_u32 reader in
    let! (their_checksum, reader) := get_u32_le reader in
    let! our_checksum := generate_packet_checksum raw in
    if negb (their_checksum =? our_checksum) then Err ErrChecksumMismatch
    else
      let! cs := read_chunks (length raw) raw PACKET_HEADER_SIZE in
      Ok (mkPacket (mkCommon source_port destination_port verification_tag) cs).

Definition marshaled_len (p : Packet) : Z :=
  PACKET_HEADER_SIZE +
  foldr (λ c acc, let n := CHUNK_HEADER_SIZE + any_value_length c in n + get_padding_size n + acc) 0 (pkt_chunks p).

(** [for c in chunks { c.marshal_to(writer)?; .. }] *)
Fixpoint write_chunks (chunks_start : Z) (cs : list AnyChunk) (w : bytes) : res bytes :=
  match cs with
  | [] => Ok w
  | c :: cs =>
      let! (_, w) := any_marshal_to c w in
      let padding_needed := get_padding_size (len w - chunks_start) in
      write_chunks chunks_start cs (if negb (padding_needed =? 0) then w ++ replicate (Z.to_nat padding_needed) 0 else w)
  end.

(** [copy_from_slice] into [writer[off..off + 4]] *)
Definition store4 (w : bytes) (off : Z) (v : bytes) : bytes :=
  take (Z.to_nat off) w ++ v ++ drop (Z.to_nat (off + 4)) w.

Definition write_framed (h : CommonHeader) (cs : list AnyChunk) (writer : bytes) : res (Z * bytes) :=
  let start := len writer in
  let writer := writer ++ put_uint 2 (source_port h) in
  let writer := writer ++ put_uint 2 (destination_port h) in
  let writer := writer ++ put_uint 4 (verification_tag h) in
  let checksum_offset := len writer in
  let writer := writer ++ put_uint 4 0 in
  let chunks_start := len writer in
  let! writer := write_chunks chunks_start cs writer in
  let! framed := slice writer start (len writer) in
  let checksum := crc32c_append 0 framed in
  let writer := store4 writer checksum_offset (reverse (put_uint 4 checksum)) in
  Ok (len writer, writer).

(** [Packet::marshal_to] and [Packet::marshal]: the reservation does not change the bytes. *)
Definition packet_marshal_to (p : Packet) (writer : bytes) : res (Z * bytes) :=
  write_framed (pkt_header p) (pkt_chunks p) writer.

Definition packet_marshal (p : Packet) : res bytes :=
  let! (_, buf) := write_framed (pkt_header p) (pkt_chunks p) [] in Ok buf.

End PacketCodec.

(** What [crc32c] promises: a checksum continued is the checksum of the concatenation, and it
    has 32 bits. *)
Class Crc32cLaws `{Crc32c} := {
  crc_continue x a b : crc32c_append (crc32c_append x a) b = crc32c_append x (a ++ b);
  crc_fits x a : fits 32 (crc32c_append x a)
}.

(** * Reading in two steps *)

Section Decoding.
Context {BC : BytesCrate} {CRC : Crc32c}.

Lemma index_drop {A} (l : list A) n i : 0 <= n → 0 <= i → index (drop (Z.to_nat n) l) i = index l (n + i).
Proof.
  intros Hn Hi. unfold index. destruct (Z.ltb_spec i 0), (Z.ltb_spec (n + i) 0); try lia.
  rewrite lookup_drop. by replace (Z.to_nat n + Z.to_nat i)%nat with (Z.to_nat (n + i)) by lia.
Qed.

Lemma slice_of_drop {A} (l : list A) n a b :
  0 <= n <= len l → 0 <= a → slice (drop (Z.to_nat n) l) a b = slice l (n + a) (n + b).
Proof.
  intros Hn Ha. unfold slice, assert_. rewrite drop_drop, len_drop.
  replace (Z.to_nat n + Z.to_nat a)%nat with (Z.to_nat (n + a)) by lia. replace (n + b - (n + a)) with (b - a) by lia.
  assert (((0 <=? a) && (a <=? b) && (b <=? Z.max 0 (len l - Z.of_nat (Z.to_nat n)))) =
          ((0 <=? n + a) && (n + a <=? n + b) && (n + b <=? len l))) as ->; [|done].
  rewrite !(proj2 (Z.leb_le 0 _)) by lia. cbn [andb].
  destruct (Z.leb_spec a b), (Z.leb_spec (n + a) (n + b)); try lia. cbn [andb].
  destruct (Z.leb_spec b (Z.max 0 (len l - Z.of_nat (Z.to_nat n)))), (Z.leb_spec (n + b) (len l)); (done || lia).
Qed.

Lemma slice_chunk_drop raw n offset :
  0 <= n <= len raw → 0 <= offset → slice_chunk (drop (Z.to_nat n) raw) offset = slice_chunk raw (n + offset).
Proof.
  intros Hn Ho. unfold slice_chunk. rewrite !index_drop, !(Z.add_assoc n offset) by lia.
  destruct (index raw (n + offset + 2)) as [hi| |]; [|done..]. cbn [rbind].
  destruct (index raw (n + offset + 3)) as [lo| |]; [|done..]. cbn [rbind]. destruct (_ <? CHUNK_HEADER_SIZE) eqn:E4; [done|].
  rewrite slice_of_drop, len_drop, (Z.add_assoc n offset) by lia. apply Z.ltb_ge in E4. unfold CHUNK_HEADER_SIZE in E4.
  set (L := hi * 256 + lo) in *.
  destruct (Z.ltb_spec (Z.max 0 (len raw - Z.of_nat (Z.to_nat n))) (offset + L)), (Z.ltb_spec (len raw) (n + offset + L)); (done || lia).
Qed.

Lemma any_value_length_nonneg c : 0 <= any_value_length c.
Proof.
  destruct c; cbn; try done.
  - pose proof (params_length_nonneg (params c)). unfold init_value_length. lia.
  - apply causes_length_nonneg.
  - apply causes_length_nonneg.
  - unfold heartbeat_value_length. generalize (Z.le_refl 0). generalize 0 at 2 4. induction (hb_params c) as [|p ps IH]; intros z Hz; [done|].
    cbn [foldl]. apply IH. pose proof (param_value_length_nonneg p). unfold PARAM_HEADER_LENGTH. lia.
  - apply params_length_nonneg.
  - apply len_nonneg.
  - unfold data_value_length, PAYLOAD_DATA_HEADER_SIZE. len_lia.
  - rewrite <- len_sack_body. apply len_nonneg.
  - unfold reconfig_value_length, PARAM_HEADER_LENGTH. destruct (param_a c) as [a|], (param_b c) as [b|];
      try pose proof (param_value_length_nonneg a); try pose proof (param_value_length_nonneg b);
      match goal with |- context [get_padding_size ?n] => pose proof (padding_bounds n) | _ => idtac end; lia.
  - unfold fwd_value_length, NEW_CUMULATIVE_TSN_LENGTH, FORWARD_TSN_STREAM_LENGTH. len_lia.
Qed.

Lemma read_chunks_end fuel raw offset :
  len raw <= offset → read_chunks fuel raw offset = if offset =? len raw then Ok [] else Err ErrParseSctpChunkNotEnoughData.
Proof.
  intros H. destruct fuel; cbn [read_chunks]; destruct (_ =? _); try done; unfold CHUNK_HEADER_SIZE; by rewrite (proj2 (Z.ltb_lt _ _)) by lia.
Qed.

(** Reading the chunks behind [n] bytes that are kept, or after they were cut off. *)
Lemma read_chunks_drop fuel1 fuel2 raw n offset :
  0 <= n <= len raw → 0 <= offset → len raw - (n + offset) <= 4 * Z.of_nat fuel1 → len raw - (n + offset) <= 4 * Z.of_nat fuel2 →
  read_chunks fuel1 (drop (Z.to_nat n) raw) offset = read_chunks fuel2 raw (n + offset).
Proof.
  intros Hn. assert (len (drop (Z.to_nat n) raw) = len raw - n) as Ld by (rewrite len_drop; lia).
  revert fuel2 offset. induction fuel1 as [|fuel1 IH]; intros fuel2 offset Ho H1 H2.
  { rewrite !read_chunks_end by lia. rewrite Ld. destruct (Z.eqb_spec offset (len raw - n)), (Z.eqb_spec (n + offset) (len raw)); (done || lia). }
  destruct (Z.le_gt_cases (len raw) (n + offset)).
  { rewrite !read_chunks_end by lia. rewrite Ld. destruct (Z.eqb_spec offset (len raw - n)), (Z.eqb_spec (n + offset) (len raw)); (done || lia). }
  destruct fuel2 as [|fuel2]; [lia|]. cbn [read_chunks]. rewrite Ld. unfold CHUNK_HEADER_SIZE.
  rewrite !(proj2 (Z.eqb_neq _ _)) by lia.
  destruct (Z.ltb_spec (len raw - n) (offset + 4)), (Z.ltb_spec (len raw) (n + offset + 4)); try lia; [done|].
  rewrite slice_chunk_drop, index_drop by lia.
  destruct (slice_chunk raw (n + offset)) as [b| |]; [|done..]. cbn [rbind].
  destruct (index raw (n + offset)) as [ct| |]; [|done..]. cbn [rbind].
  destruct (parse_chunk ct b) as [c| |]; [|done..]. cbn [rbind].
  pose proof (any_value_length_nonneg c). pose proof (padding_bounds (any_value_length c)).
  rewrite <- (Z.add_assoc n offset). rewrite (IH fuel2) by lia. done.
Qed.

(** What the first look at a packet agrees on with [Packet::unmarshal]. *)
Lemma partial_inv raw pd :
  partial_unmarshal raw = Ok pd →
  PACKET_HEADER_SIZE <= len raw ∧ pd_remaining pd = drop (Z.to_nat PACKET_HEADER_SIZE) raw ∧
  packet_unmarshal raw = let! cs := read_chunks (length raw) raw PACKET_HEADER_SIZE in Ok (mkPacket (common_header pd) cs).
Proof.
  unfold partial_unmarshal, packet_unmarshal. destruct (Z.ltb_spec (len raw) PACKET_HEADER_SIZE) as [|Hl]; [done|]. intros E.
  apply res_bind_inv in E as ([sp r1] & -> & E). cbn [rbind].
  apply res_bind_inv in E as ([dp r2] & -> & E). cbn [rbind].
  apply res_bind_inv in E as ([tg r3] & -> & E). cbn [rbind].
  apply res_bind_inv in E as ([ck r4] & -> & E). cbn [rbind].
  apply res_bind_inv in E as (s & -> & E). cbn [rbind].
  destruct (negb (ck =? s)); [done|]. destruct (len r4 <? _); [done|].
  apply res_bind_inv in E as (h & _ & E). apply res_bind_inv in E as ([x y] & _ & E).
  apply res_bind_inv in E as ([tag co] & _ & E). apply res_bind_inv in E as (rem & Hr & E). injection E as <-.
  rewrite slice_drop in Hr by (unfold PACKET_HEADER_SIZE in *; lia). injection Hr as <-. by split_and!.
Qed.

End Decoding.

(** * What is written *)

Section Encoding.
Context {BC : BytesCrate} {CRC : Crc32c}.

(** The chunk after its header. *)
Definition any_body (c : AnyChunk) : bytes :=
  match c with
  | CInit c => put_uint 4 (init_tag c) ++ put_uint 4 (init_rwnd c) ++ put_uint 2 (num_outbound_streams c) ++
               put_uint 2 (num_inbound_streams c) ++ put_uint 4 (initial_tsn c) ++ params_bytes (params c)
  | CAbort c => concat (error_cause_marshal <$> abort_causes c)
  | CError c => concat (error_cause_marshal <$> error_causes c)
  | CHeartbeat c => concat (param_marshal <$> hb_params c)
  | CHeartbeatAck c => params_bytes (hba_params c)
  | CCookieEcho c => cookie c
  | CData c => data_body c
  | CSack c => sack_body c
  | CReconfig c =>
      match param_a c with
      | Some a =>
          param_marshal a ++
          match param_b c with
          | Some b => replicate (Z.to_nat (get_padding_size (PARAM_HEADER_LENGTH + param_value_length a))) 0 ++ param_marshal b
          | None => []
          end
      | None => []
      end
  | CForwardTsn c => put_uint 4 (new_cumulative_tsn c) ++ concat (stream_bytes <$> streams c)
  | CShutdown c => put_uint 4 (shutdown_tsn_ack c)
  | CCookieAck | CShutdownAck | CShutdownComplete => []
  end.

(** The chunks a packet can carry to a receiver of this code. *)
Definition any_ok (c : AnyChunk) : Prop :=
  match c with
  | CInit c => init_ok c
  | CAbort c => causes_ok (abort_causes c)
  | CError c => causes_ok (error_causes c)
  | CHeartbeat c => ∃ i, c = mkHeartbeat [ParamHeartbeatInfo i] ∧ heartbeat_ok i
  | CHeartbeatAck _ => False
  | CCookieEcho c => len (cookie c) < 65532
  | CData c => data_ok c
  | CSack c => sack_ok c
  | CReconfig c => ∃ a, param_a c = Some a ∧ reconfig_ok a (param_b c)
  | CForwardTsn c => fwd_ok c
  | CShutdown c => fits 32 (shutdown_tsn_ack c)
  | CCookieAck | CShutdownAck | CShutdownComplete => True
  end.

(** The chunk as it is read: the sender's bookkeeping of a DATA chunk is not on the wire. *)
Definition any_received (c : AnyChunk) : AnyChunk :=
  match c with CData c => CData (received c) | c => c end.

Lemma any_marshal_eq c w :
  any_ok c → any_marshal_to c w = Ok (len (w ++ chunk_header_bytes (any_header c) ++ any_body c), w ++ chunk_header_bytes (any_header c) ++ any_body c).
Proof.
  destruct c; cbn [any_ok any_marshal_to any_header any_body]; intros H; try done.
  - unfold chunk_marshal_to, init_chunk, init_marshal_to. rewrite chunk_header_marshal_to_eq. cbn [rbind]. rewrite write_params_eq, <- !app_assoc. done.
  - unfold chunk_marshal_to, abort_chunk, abort_marshal_to. rewrite chunk_header_marshal_to_eq. cbn [rbind]. rewrite foldl_append, <- !app_assoc. done.
  - unfold chunk_marshal_to, error_chunk, error_marshal_to. rewrite chunk_header_marshal_to_eq. cbn [rbind]. rewrite foldl_append, <- !app_assoc. done.
  - unfold chunk_marshal_to, heartbeat_chunk, heartbeat_marshal_to. rewrite chunk_header_marshal_to_eq. cbn [rbind]. rewrite foldl_append, <- !app_assoc. done.
  - unfold chunk_marshal_to, cookie_echo_chunk, cookie_echo_marshal_to. rewrite chunk_header_marshal_to_eq. cbn [rbind]. rewrite <- !app_assoc. done.
  - rewrite app_nil_r. cbn [chunk_marshal_to cookie_ack_chunk]. rewrite chunk_header_marshal_to_eq. done.
  - unfold chunk_marshal_to, data_chunk, data_marshal_to. rewrite chunk_header_marshal_to_eq. cbn [rbind]. unfold data_body. rewrite <- !app_assoc. done.
  - destruct H as (_ & _ & _ & _ & Hl). unfold sack_value_length, SELECTIVE_ACK_HEADER_SIZE in Hl.
    pose proof (len_nonneg (gap_ack_blocks c)). pose proof (len_nonneg (duplicate_tsn c)).
    unfold chunk_marshal_to, sack_chunk, sack_marshal_to. rewrite chunk_header_marshal_to_eq. cbn [rbind]. unfold sack_body.
    rewrite (foldl_append (put_uint 4)), foldl_gaps, <- !app_assoc, !(wrap_small 16) by (unfold fits; lia). done.
  - destruct H as (a & Ha & _). unfold chunk_marshal_to, reconfig_chunk, reconfig_marshal_to. rewrite chunk_header_marshal_to_eq. cbn [rbind].
    rewrite Ha. cbn zeta. destruct (param_b c); rewrite ?app_nil_r, <- ?app_assoc; done.
  - unfold chunk_marshal_to, fwd_chunk, fwd_marshal_to. rewrite chunk_header_marshal_to_eq. cbn [rbind]. rewrite write_streams_eq, <- !app_assoc. done.
  - unfold chunk_marshal_to, shutdown_chunk, shutdown_marshal_to. rewrite chunk_header_marshal_to_eq. cbn [rbind]. rewrite <- !app_assoc. done.
  - rewrite app_nil_r. cbn [chunk_marshal_to shutdown_ack_chunk]. rewrite chunk_header_marshal_to_eq. done.
  - rewrite app_nil_r. cbn [chunk_marshal_to shutdown_complete_chunk]. rewrite chunk_header_marshal_to_eq. done.
Qed.

Lemma len_any_body c : any_ok c → len (any_body c) = any_value_length c ∧ any_value_length c < 65532.
Proof.
  destruct c; cbn [any_ok any_body any_value_length]; intros H; try done.
  - destruct H as (_ & _ & _ & _ & _ & _ & _ & Hl). split; [|done]. cbn [value_length init_chunk]. unfold init_value_length.
    rewrite !len_app, len_params_bytes. autorewrite with len. lia.
  - split; [apply len_causes|apply H].
  - split; [apply len_causes|apply H].
  - destruct H as (i & -> & Hi). unfold heartbeat_ok in Hi. cbn [hb_params fmap list_fmap concat]. rewrite app_nil_r, len_param_marshal.
    cbn [value_length heartbeat_chunk]. unfold heartbeat_value_length, PARAM_HEADER_LENGTH. cbn [hb_params foldl param_value_length]. lia.
  - destruct H as (H1 & H2 & H3 & H4). cbn [value_length data_chunk]. unfold data_value_length, PAYLOAD_DATA_HEADER_SIZE, data_body.
    autorewrite with len. lia.
  - destruct H as (_ & _ & _ & _ & Hl). split; [apply len_sack_body|done].
  - destruct H as (a & Ha & Hp & Hb & Hl). destruct c as [pa pb]. cbn [param_a param_b] in *. subst pa. split; [|done].
    cbn [value_length reconfig_chunk]. unfold reconfig_value_length. cbn [param_a param_b]. rewrite len_app, len_param_marshal.
    pose proof (padding_bounds (PARAM_HEADER_LENGTH + param_value_length a)).
    destruct pb; rewrite ?len_app, ?len_replicate, ?len_param_marshal, ?len_nil; lia.
  - destruct H as (_ & _ & Hl). split; [|done]. cbn [value_length fwd_chunk]. unfold fwd_value_length, NEW_CUMULATIVE_TSN_LENGTH, FORWARD_TSN_STREAM_LENGTH.
    rewrite len_app, len_streams. autorewrite with len. lia.
  - by autorewrite with len.
Qed.

Lemma any_header_length c : any_ok c → ch_value_length (any_header c) = any_value_length c ∧ fits 8 (ch_typ (any_header c)) ∧ fits 8 (ch_flags (any_header c)).
Proof.
  intros H. destruct (len_any_body c H) as [_ Hl]. pose proof (any_value_length_nonneg c) as Hn. split.
  - assert (u16 (any_value_length c) = any_value_length c) as E by (apply wrap_small; unfold fits; lia). destruct c; exact E || done.
  - destruct c; cbn; try (split; by vm_compute); [|by split; [vm_compute|apply data_flags_ok]].
    destruct (is_ack c); split; by vm_compute.
Qed.

Lemma unmarshal_bytes `{Chunk T} (x y : T) bs :
  (∃ bs, chunk_marshal x = Ok bs ∧ chunk_unmarshal bs = Ok y) → chunk_marshal x = Ok bs → chunk_unmarshal bs = Ok y.
Proof. intros (b & E & Hu) Eb. congruence. Qed.

Lemma marshal_bytes `{Chunk T} (x : T) bs : chunk_marshal_to x [] = Ok (len bs, bs) → chunk_marshal x = Ok bs.
Proof. intros E. unfold chunk_marshal. by rewrite E. Qed.

Lemma parse_chunk_put c :
  any_ok c → parse_chunk (ch_typ (any_header c)) (chunk_header_bytes (any_header c) ++ any_body c) = Ok (any_received c).
Proof.
  intros H. pose proof (any_marshal_eq c [] H) as Em. cbn [app] in Em. pose proof (any_header_length c H) as (Hv & Ht & Hf).
  destruct (len_any_body c H) as [Lb Ll]. pose proof (any_value_length_nonneg c).
  pose proof (chunk_header_read (any_header c) (any_body c) ltac:(unfold header_ok; rewrite Hv; split_and!; [done|done|lia|lia]) ltac:(by rewrite Hv)) as Hr.
  remember (chunk_header_bytes (any_header c) ++ any_body c) as buf eqn:Eb.
  destruct c; cbn [any_ok] in H; cbn [any_header any_marshal_to any_received] in *; try done; unfold parse_chunk.
  - replace (_ || _) with true by (cbn; by destruct (is_ack c)).
    rewrite (unmarshal_bytes c c) by (by apply marshal_bytes || (destruct (init_roundtrip c H) as (b & ? & _ & ?); by exists b)). done.
  - cbn [ch_typ chunk_header abort_chunk abort_header]. cbn -[chunk_unmarshal].
    rewrite (unmarshal_bytes c c) by (by apply marshal_bytes || by apply abort_roundtrip). done.
  - cbn -[chunk_unmarshal]. rewrite (unmarshal_bytes c c) by (by apply marshal_bytes || by apply error_roundtrip). done.
  - destruct H as (i & -> & Hi). cbn -[chunk_unmarshal].
    rewrite (unmarshal_bytes (mkHeartbeat [ParamHeartbeatInfo i]) (mkHeartbeat [ParamHeartbeatInfo i]))
      by (by apply marshal_bytes || (destruct (heartbeat_roundtrip i Hi) as [(b & ? & _ & ?) _]; by exists b)). done.
  - cbn -[chunk_unmarshal]. cbn [chunk_unmarshal cookie_echo_chunk]. unfold cookie_echo_unmarshal. rewrite Hr. cbn -[slice].
    cbn in Hv. rewrite Hv, Eb, slice_tail by (rewrite ?len_app, ?len_chunk_header_bytes, ?Lb; done). by destruct c.
  - cbn -[chunk_unmarshal]. cbn [chunk_unmarshal cookie_ack_chunk]. cbn in Hr. rewrite Hr. done.
  - cbn -[chunk_unmarshal]. rewrite (unmarshal_bytes c (received c))
      by (by apply marshal_bytes || (destruct (data_roundtrip c H) as (b & ? & _ & ?); by exists b)). done.
  - cbn -[chunk_unmarshal]. rewrite (unmarshal_bytes c c)
      by (by apply marshal_bytes || (destruct (sack_roundtrip c H) as (b & ? & _ & ?); by exists b)). done.
  - destruct H as (a & Ha & Hk). destruct c as [pa pb]. cbn [param_a param_b] in *. subst pa. cbn -[chunk_unmarshal].
    rewrite (unmarshal_bytes (mkReconfig (Some a) pb) (mkReconfig (Some a) pb))
      by (by apply marshal_bytes || (destruct (reconfig_roundtrip a pb Hk) as (b & ? & _ & ?); by exists b)). done.
  - cbn -[chunk_unmarshal]. rewrite (unmarshal_bytes c c)
      by (by apply marshal_bytes || (destruct (fwd_roundtrip c H) as (b & ? & _ & ?); by exists b)). done.
  - cbn -[chunk_unmarshal]. cbn [chunk_unmarshal shutdown_chunk]. unfold shutdown_unmarshal. rewrite Hr. cbn -[slice get_u32].
    rewrite Eb, len_app, len_chunk_header_bytes, Lb. cbn -[slice get_u32 chunk_header_bytes any_body].
    rewrite slice_tail by (rewrite ?len_app, ?len_chunk_header_bytes, ?Lb; done). cbn [rbind any_body]. unfold get_u32.
    rewrite <- (app_nil_r (put_uint 4 _)), get_put_uint by done. by destruct c.
  - cbn -[chunk_unmarshal]. cbn [chunk_unmarshal shutdown_ack_chunk]. cbn in Hr. rewrite Hr. done.
  - cbn -[chunk_unmarshal]. cbn [chunk_unmarshal shutdown_complete_chunk]. cbn in Hr. rewrite Hr. done.
Qed.

(** A chunk with its padding. *)
Definition padded (c : AnyChunk) : bytes :=
  chunk_header_bytes (any_header c) ++ any_body c ++ replicate (Z.to_nat (get_padding_size (any_value_length c))) 0.

Lemma padding_size_shift n k : get_padding_size (n + 4 * k) = get_padding_size n.
Proof. unfold get_padding_size. by rewrite (Z.mul_comm 4 k), Z.mod_add by lia. Qed.

Lemma len_padded c :
  any_ok c → len (padded c) = CHUNK_HEADER_SIZE + any_value_length c + get_padding_size (any_value_length c).
Proof.
  intros H. destruct (len_any_body c H) as [Lb _]. unfold padded. rewrite !len_app, len_chunk_header_bytes, len_replicate, Lb.
  pose proof (padding_bounds (any_value_length c)). lia.
Qed.

Lemma write_chunks_eq st cs w :
  Forall any_ok cs → (len w - st) mod 4 = 0 → write_chunks st cs w = Ok (w ++ concat (padded <$> cs)).
Proof.
  intros H. revert w. induction H as [|c cs Hc Hcs IH]; intros w Hw; [by rewrite app_nil_r|]. cbn [write_chunks].
  rewrite any_marshal_eq by done. cbn [rbind]. destruct (len_any_body c Hc) as [Lb _].
  set (w1 := w ++ chunk_header_bytes (any_header c) ++ any_body c).
  assert (len w1 - st = any_value_length c + 4 * ((len w - st) / 4 + 1)) as Lw.
  { unfold w1. rewrite !len_app, len_chunk_header_bytes, Lb. unfold CHUNK_HEADER_SIZE. pose proof (Z.div_mod (len w - st) 4). lia. }
  rewrite Lw, padding_size_shift. set (pad := get_padding_size (any_value_length c)).
  assert ((if negb (pad =? 0) then w1 ++ replicate (Z.to_nat pad) 0 else w1) = w1 ++ replicate (Z.to_nat pad) 0) as ->
    by (destruct (Z.eqb_spec pad 0) as [->|]; [by rewrite app_nil_r|done]).
  rewrite IH.
  - csimpl. unfold w1, padded, pad. by rewrite <- !app_assoc.
  - rewrite len_app, len_replicate. pose proof (padding_bounds (any_value_length c)) as Hp. fold pad in Hp.
    replace (len w1 + Z.of_nat (Z.to_nat pad) - st) with (any_value_length c + pad + (((len w - st) / 4 + 1) * 4)) by lia.
    rewrite Z.mod_add by lia. apply padding_aligns.
Qed.

Lemma header_bytes_shape h :
  0 <= ch_value_length h < 65532 → fits 8 (ch_typ h) → fits 8 (ch_flags h) →
  let l := ch_value_length h + 4 in chunk_header_bytes h = [ch_typ h; ch_flags h; l / 256; l mod 256].
Proof.
  intros Hv Ht Hf l. unfold chunk_header_bytes, CHUNK_HEADER_SIZE. rewrite wrap_small by (unfold fits; lia).
  assert (byte_ok (l / 256)) by (split; [apply Z.div_pos; lia|apply Z.div_lt_upper_bound; lia]).
  assert (byte_ok (l mod 256)) by (apply (Z.mod_pos_bound l 256); lia).
  fold l. rewrite put_uint_2, !put_uint_1 by done. done.
Qed.

Lemma slice_chunk_put pre h body rest :
  ch_value_length h = len body → len body < 65532 → fits 8 (ch_typ h) → fits 8 (ch_flags h) →
  let raw := pre ++ (chunk_header_bytes h ++ body) ++ rest in
  slice_chunk raw (len pre) = Ok (chunk_header_bytes h ++ body) ∧ index raw (len pre) = Ok (ch_typ h).
Proof.
  intros Hv Hl Ht Hf raw. pose proof (len_nonneg body). pose proof (len_nonneg rest). pose proof (len_nonneg pre).
  pose proof (header_bytes_shape h ltac:(lia) Ht Hf) as Hs. cbn zeta in Hs. rewrite Hv in Hs. set (l := len body + 4) in *.
  assert (l / 256 * 256 + l mod 256 = l) as Hd by (pose proof (Z.div_mod l 256); lia).
  assert (index raw (len pre + 2) = Ok (l / 256)) as I2.
  { assert (raw = (pre ++ [ch_typ h; ch_flags h]) ++ (l / 256) :: (l mod 256 :: body ++ rest)) as ->
      by (unfold raw; rewrite Hs; by rewrite <- !app_assoc). apply index_app. by rewrite len_app. }
  assert (index raw (len pre + 3) = Ok (l mod 256)) as I3.
  { assert (raw = (pre ++ [ch_typ h; ch_flags h; l / 256]) ++ (l mod 256) :: (body ++ rest)) as ->
      by (unfold raw; rewrite Hs; by rewrite <- !app_assoc). apply index_app. by rewrite len_app. }
  split.
  - unfold slice_chunk. rewrite I2. cbn [rbind]. rewrite I3. cbn [rbind]. rewrite Hd.
    unfold CHUNK_HEADER_SIZE. rewrite (proj2 (Z.ltb_ge l 4)) by lia. unfold raw.
    rewrite (proj2 (Z.ltb_ge _ _)) by (rewrite !len_app, len_chunk_header_bytes; unfold CHUNK_HEADER_SIZE; lia).
    apply slice_mid; [done|]. rewrite len_app, len_chunk_header_bytes. unfold CHUNK_HEADER_SIZE. lia.
  - unfold raw. rewrite Hs. cbn [app]. by apply index_app.
Qed.

Lemma read_chunks_put pre cs fuel :
  Forall any_ok cs → (length cs ≤ fuel)%nat →
  read_chunks fuel (pre ++ concat (padded <$> cs)) (len pre) = Ok (any_received <$> cs).
Proof.
  intros H. revert pre fuel. induction H as [|c cs Hc Hcs IH]; intros pre fuel Hf.
  { csimpl. rewrite app_nil_r, read_chunks_end by lia. by rewrite Z.eqb_refl. }
  destruct fuel as [|fuel]; [cbn in Hf; lia|]. csimpl. cbn [read_chunks]. pose proof (len_padded c Hc) as Lp.
  pose proof (padding_bounds (any_value_length c)). pose proof (any_value_length_nonneg c). pose proof (len_nonneg (concat (padded <$> cs))).
  rewrite !len_app, Lp. unfold CHUNK_HEADER_SIZE. rewrite (proj2 (Z.eqb_neq _ _)), (proj2 (Z.ltb_ge _ _)) by lia.
  destruct (any_header_length c Hc) as (Hv & Ht & Hfl). destruct (len_any_body c Hc) as [Lb Ll].
  destruct (slice_chunk_put pre (any_header c) (any_body c)
    (replicate (Z.to_nat (get_padding_size (any_value_length c))) 0 ++ concat (padded <$> cs))) as [E1 E2]; [congruence|lia|done|done|].
  set (raw := pre ++ padded c ++ concat (padded <$> cs)) in *.
  replace (pre ++ (chunk_header_bytes _ ++ _) ++ _) with raw in E1, E2 by (unfold raw; unfold padded at 1; by rewrite <- !app_assoc).
  rewrite E1. cbn [rbind]. rewrite E2. cbn [rbind].
  rewrite parse_chunk_put by done. cbn [rbind].
  assert (any_value_length (any_received c) = any_value_length c) as -> by (by destruct c).
  specialize (IH (pre ++ padded c) fuel). rewrite len_app, Lp in IH. unfold CHUNK_HEADER_SIZE in IH.
  rewrite <- app_assoc in IH. fold raw in IH. rewrite IH by (cbn in Hf; lia). done.
Qed.

End Encoding.

(** * The whole packet *)

Section WholePacket.
Context {BC : BytesCrate} {CRC : Crc32c} {CL : Crc32cLaws}.

Definition common_bytes (h : CommonHeader) : bytes :=
  put_uint 2 (source_port h) ++ put_uint 2 (destination_port h) ++ put_uint 4 (verification_tag h).

Definition common_ok (h : CommonHeader) : Prop :=
  fits 16 (source_port h) ∧ fits 16 (destination_port h) ∧ fits 32 (verification_tag h).

Lemma put_zeros n : put_uint n 0 = replicate n 0.
Proof.
  induction n as [|n IH]; [apply nil_length_inv, put_uint_length|].
  rewrite put_uint_S, Z.div_0_l, Z.mod_0_l, IH, put_uint_1 by done. symmetry. apply replicate_cons_app.
Qed.

Lemma len_common h : len (common_bytes h) = 8.
Proof. unfold common_bytes. by autorewrite with len. Qed.

(** What [Packet::marshal] writes. *)
Definition packet_bytes (p : Packet) : bytes :=
  let body := concat (padded <$> pkt_chunks p) in
  common_bytes (pkt_header p) ++ reverse (put_uint 4 (crc32c_append 0 (common_bytes (pkt_header p) ++ [0; 0; 0; 0] ++ body))) ++ body.

Lemma packet_marshal_eq p : Forall any_ok (pkt_chunks p) → packet_marshal p = Ok (packet_bytes p).
Proof.
  intros H. unfold packet_marshal, write_framed. cbn [app]. rewrite put_zeros.
  replace (((put_uint 2 _ ++ _) ++ _) ++ _) with (common_bytes (pkt_header p) ++ [0; 0; 0; 0])
    by (unfold common_bytes; by rewrite <- !app_assoc).
  replace ((put_uint 2 _ ++ _) ++ _) with (common_bytes (pkt_header p)) by (unfold common_bytes; by rewrite <- !app_assoc).
  rewrite write_chunks_eq by (done || by rewrite Z.sub_diag). cbn [rbind]. rewrite slice_take by (split; [apply len_nonneg|reflexivity]).
  cbn [rbind]. rewrite take_ge by (unfold len; lia). unfold packet_bytes, store4. rewrite len_common. rewrite <- !app_assoc.
  set (cb := common_bytes (pkt_header p)). set (body := concat _).
  assert (length cb = 8%nat) as Lc by (pose proof (len_common (pkt_header p)) as L8; unfold len in *; fold cb in L8; lia).
  change (Z.to_nat 8) with 8%nat. change (Z.to_nat (8 + 4)) with (8 + 4)%nat. rewrite <- Lc at 1 2.
  rewrite take_app_length, drop_app_add. done.
Qed.

Lemma packet_checksum p :
  generate_packet_checksum (packet_bytes p) =
    Ok (crc32c_append 0 (common_bytes (pkt_header p) ++ [0; 0; 0; 0] ++ concat (padded <$> pkt_chunks p))).
Proof.
  unfold generate_packet_checksum, packet_bytes. set (ck := reverse _). set (body := concat _).
  assert (len ck = 4) as Lc by (unfold ck, len; by rewrite length_reverse, put_uint_length).
  rewrite slice_head_eq by (by rewrite len_common). cbn [rbind].
  rewrite app_assoc, slice_tail by (rewrite ?len_app, ?len_common, ?Lc; done). cbn [rbind].
  by rewrite !crc_continue.
Qed.

Lemma get_checksum x r : fits 32 x → get_u32_le (reverse (put_uint 4 x) ++ r) = Ok (x, r).
Proof.
  intros Hx. unfold get_u32_le. assert (len (reverse (put_uint 4 x)) = 4) as L by (unfold len; by rewrite length_reverse, put_uint_length).
  rewrite <- L, copy_to_bytes_app. cbn [rbind]. unfold get_u32.
  by rewrite reverse_involutive, <- (app_nil_r (put_uint 4 x)), get_put_uint.
Qed.

(** A header in front of a chunk that is padded with zeros and followed by other chunks. *)
Lemma check_padding_zeros pre v i :
  len pre = CHUNK_HEADER_SIZE + v → 0 <= v → ∀ n rest, (i ≤ n)%nat → check_padding (pre ++ replicate n 0 ++ rest) v i = Ok tt.
Proof.
  unfold CHUNK_HEADER_SIZE. intros Hp Hv n rest. induction i as [|i IH]; intros Hi; [done|]. cbn [check_padding]. unfold CHUNK_HEADER_SIZE.
  assert (index (pre ++ replicate n 0 ++ rest) (4 + (v + Z.of_nat (S i) - 1)) = Ok 0) as ->; [|cbn [rbind Z.eqb negb]; apply IH; lia].
  unfold index. rewrite (proj2 (Z.ltb_ge _ 0)) by lia. unfold len in Hp.
  rewrite lookup_app_r by lia. rewrite lookup_app_l by (rewrite length_replicate; lia).
  by rewrite lookup_replicate_2 by lia.
Qed.

Lemma chunk_header_read_padded h body n rest :
  header_ok h → len body = ch_value_length h → (n < 4)%nat → (rest = [] ∨ 4 <= len rest) →
  chunk_header_unmarshal (chunk_header_bytes h ++ body ++ replicate n 0 ++ rest) = Ok h.
Proof.
  intros (Ht & Hf & Hv) Hb Hn Hr. unfold chunk_header_unmarshal. set (raw := chunk_header_bytes h ++ _).
  assert (len raw = 4 + ch_value_length h + Z.of_nat n + len rest) as Lraw.
  { unfold raw. rewrite !len_app, len_chunk_header_bytes, len_replicate. unfold CHUNK_HEADER_SIZE. lia. }
  rewrite Lraw. unfold CHUNK_HEADER_SIZE. pose proof (len_nonneg rest). rewrite (proj2 (Z.ltb_ge _ 4)) by lia.
  assert (∀ k, (k ≤ n)%nat → check_padding raw (ch_value_length h) k = Ok tt) as Hz.
  { intros k Hk. unfold raw. rewrite app_assoc. apply check_padding_zeros; [|lia|done].
    rewrite len_app, len_chunk_header_bytes. lia. }
  assert (raw = put_uint 1 (ch_typ h) ++ put_uint 1 (ch_flags h) ++ put_uint 2 (ch_value_length h + 4) ++ body ++ replicate n 0 ++ rest) as Er.
  { unfold raw, chunk_header_bytes, CHUNK_HEADER_SIZE. rewrite (wrap_small 16) by (split; lia). by rewrite <- !app_assoc. }
  unfold get_u8, get_u16. rewrite Er at 1. rewrite get_put_uint by done. cbn [rbind]. rewrite get_put_uint by done. cbn [rbind].
  rewrite get_put_uint by (split; simpl; lia). cbn [rbind].
  rewrite (proj2 (Z.ltb_ge _ 4)), (proj2 (Z.ltb_ge _ 0)) by lia.
  replace (ch_value_length h + 4 - 4) with (ch_value_length h) by lia.
  destruct (Z.ltb_spec (4 + ch_value_length h + Z.of_nat n + len rest - (ch_value_length h + 4)) 4).
  - destruct Hr as [->|]; [|lia]. change (len []) with 0. rewrite Hz by lia. by destruct h.
  - by destruct h.
Qed.

Lemma packet_read p :
  common_ok (pkt_header p) → Forall any_ok (pkt_chunks p) →
  packet_unmarshal (packet_bytes p) = Ok (mkPacket (pkt_header p) (any_received <$> pkt_chunks p)).
Proof.
  intros (Hs & Hd & Ht) Hc. unfold packet_unmarshal. pose proof (packet_checksum p) as Hk.
  set (raw := packet_bytes p) in *. set (body := concat (padded <$> pkt_chunks p)) in *.
  set (sum := crc32c_append 0 _) in Hk. set (ck := reverse (put_uint 4 sum)).
  assert (raw = (common_bytes (pkt_header p) ++ ck) ++ body) as Er by (unfold raw, packet_bytes; by rewrite <- app_assoc).
  assert (len ck = 4) as Lc by (unfold ck, len; by rewrite length_reverse, put_uint_length).
  assert (len raw = 12 + len body) as Lr by (rewrite Er, !len_app, len_common, Lc; lia).
  pose proof (len_nonneg body). rewrite Lr. unfold PACKET_HEADER_SIZE. rewrite (proj2 (Z.ltb_ge _ 12)) by lia.
  assert (read_chunks (length raw) raw 12 = Ok (any_received <$> pkt_chunks p)) as Hr.
  { assert (12 = len (common_bytes (pkt_header p) ++ ck)) as -> by (by rewrite len_app, len_common, Lc).
    assert (length (pkt_chunks p) ≤ length raw)%nat as Hle.
    { assert (len (pkt_chunks p) <= len body) as Hlb.
      { unfold body. clear -Hc. induction Hc as [|c cs Hc Hcs IH]; [done|]. csimpl. rewrite len_app, len_cons, len_padded by done.
        pose proof (padding_bounds (any_value_length c)). pose proof (any_value_length_nonneg c). unfold CHUNK_HEADER_SIZE. lia. }
      unfold len in *. lia. }
    rewrite Er. apply read_chunks_put; [done|]. by rewrite <- Er. }
  rewrite Hk, Hr. rewrite Er. unfold common_bytes, get_u16, get_u32. rewrite <- !app_assoc, get_put_uint by done. cbn [rbind].
  rewrite get_put_uint by done. cbn [rbind]. rewrite get_put_uint by done. cbn [rbind]. unfold ck.
  rewrite get_checksum by apply crc_fits. cbn [rbind]. rewrite Z.eqb_refl. cbn [negb rbind]. by destruct (pkt_header p).
Qed.

Lemma len_padded_rest cs : Forall any_ok cs → concat (padded <$> cs) = [] ∨ 4 <= len (concat (padded <$> cs)).
Proof.
  destruct 1 as [|c cs Hc Hcs]; [by left|]. right. csimpl. rewrite len_app, len_padded by done.
  pose proof (padding_bounds (any_value_length c)). pose proof (any_value_length_nonneg c).
  pose proof (len_nonneg (concat (padded <$> cs))). unfold CHUNK_HEADER_SIZE. lia.
Qed.

(** What the endpoint learns from a packet before it hands it on. *)
Lemma partial_read p c cs :
  common_ok (pkt_header p) → pkt_chunks p = c :: cs → Forall any_ok (c :: cs) →
  ∃ pd, partial_unmarshal (packet_bytes p) = Ok pd ∧ common_header pd = pkt_header p ∧
        first_chunk_type pd = ch_typ (any_header c) ∧
        initiate_tag pd = match c with CInit i => Some (init_tag i) | _ => None end.
Proof.
  intros (Hs & Hd & Ht) Ec Hok. inversion Hok as [|? ? Hc Hcs]; subst. unfold partial_unmarshal. pose proof (packet_checksum p) as Hk.
  set (raw := packet_bytes p) in *. set (body := concat (padded <$> pkt_chunks p)) in *.
  set (sum := crc32c_append 0 _) in Hk. set (ck := reverse (put_uint 4 sum)).
  assert (raw = (common_bytes (pkt_header p) ++ ck) ++ body) as Er by (unfold raw, packet_bytes; by rewrite <- app_assoc).
  assert (len ck = 4) as Lc by (unfold ck, len; by rewrite length_reverse, put_uint_length).
  assert (len raw = 12 + len body) as Lr by (rewrite Er, !len_app, len_common, Lc; lia).
  set (hb := chunk_header_bytes (any_header c)).
  set (n := Z.to_nat (get_padding_size (any_value_length c))). set (rest := concat (padded <$> cs)).
  assert (body = hb ++ any_body c ++ replicate n 0 ++ rest) as Eb.
  { unfold body. rewrite Ec. csimpl. fold rest. unfold padded. by rewrite <- !app_assoc. }
  destruct (len_any_body c Hc) as [Lb Ll]. destruct (any_header_length c Hc) as (Hv & Hft & Hff). pose proof (any_value_length_nonneg c).
  pose proof (padding_bounds (any_value_length c)) as Hpad.
  assert (len hb = 4) as Lh by apply len_chunk_header_bytes. pose proof (len_nonneg rest).
  assert (4 <= len body) as Lbody by (rewrite Eb, !len_app, Lh, len_replicate; pose proof (len_nonneg (any_body c)); lia).
  rewrite Lr. unfold PACKET_HEADER_SIZE. rewrite (proj2 (Z.ltb_ge _ 12)) by lia. rewrite Hk.
  assert (get_u16 raw = Ok (source_port (pkt_header p), put_uint 2 (destination_port (pkt_header p)) ++
            put_uint 4 (verification_tag (pkt_header p)) ++ ck ++ body)) as ->.
  { rewrite Er. unfold common_bytes, get_u16. rewrite <- !app_assoc. by apply get_put_uint. }
  cbn [rbind]. unfold get_u16, get_u32. rewrite get_put_uint by done. cbn [rbind]. rewrite get_put_uint by done. cbn [rbind]. unfold ck.
  rewrite get_checksum by apply crc_fits. cbn [rbind]. rewrite Z.eqb_refl. cbn [negb].
  rewrite (proj2 (Z.ltb_ge _ _)) by (unfold CHUNK_HEADER_SIZE; lia).
  assert (chunk_header_unmarshal body = Ok (any_header c)) as ->.
  { rewrite Eb. apply chunk_header_read_padded; [split_and!; [done..|lia|lia]|congruence|lia|by apply len_padded_rest]. }
  assert (copy_to_bytes CHUNK_HEADER_SIZE body = Ok (hb, any_body c ++ replicate n 0 ++ rest)) as ->.
  { rewrite Eb. change CHUNK_HEADER_SIZE with 4. rewrite <- Lh. apply copy_to_bytes_app. }
  cbn [rbind].
  assert (slice raw 12 (12 + len body) = Ok body) as Hslice.
  { rewrite Er, slice_tail; [done|by rewrite len_app, len_common, Lc|by rewrite !len_app, len_common, Lc]. }
  assert (∀ tag k, initiate_tag (mkPartial (pkt_header p) body (ch_typ (any_header c)) tag k) =
            match c with CInit i => Some (init_tag i) | _ => None end →
          ∃ pd, Ok (mkPartial (mkCommon (source_port (pkt_header p)) (destination_port (pkt_header p)) (verification_tag (pkt_header p)))
                  body (ch_typ (any_header c)) tag k) = Ok pd ∧ common_header pd = pkt_header p ∧
            first_chunk_type pd = ch_typ (any_header c) ∧
            initiate_tag pd = match c with CInit i => Some (init_tag i) | _ => None end) as Hdone.
  { intros tag k E. eexists. split; [done|]. split_and!; [by destruct (pkt_header p)|done|done]. }
  destruct ((ch_typ (any_header c) =? CT_INIT) || (ch_typ (any_header c) =? CT_INIT_ACK)) eqn:Einit.
  { destruct c as [i| | | | | | | | | | | | |]; try discriminate Einit. cbn [any_body]. destruct Hc as (Hti & _).
    rewrite <- !app_assoc, get_put_uint by done. cbn [rbind]. rewrite Hslice. cbn [rbind]. by apply Hdone. }
  destruct (ch_typ (any_header c) =? CT_COOKIE_ECHO) eqn:Eck.
  { destruct c as [i| | | | |ce| | | | | | | |]; try discriminate Eck; [cbn in Eck; by destruct (is_ack i)|].
    rewrite Hv. unfold CHUNK_HEADER_SIZE.
    assert (slice raw (12 + 4) (12 + 4 + any_value_length (CCookieEcho ce)) = Ok (cookie ce)) as ->.
    { rewrite Er, Eb. rewrite (app_assoc _ hb). apply slice_mid; rewrite !len_app, len_common, Lc, Lh; [done|].
      change (any_body (CCookieEcho ce)) with (cookie ce) in *. lia. }
    cbn [rbind]. rewrite Hslice. cbn [rbind]. by apply Hdone. }
  cbn [rbind]. rewrite Hslice. cbn [rbind]. apply Hdone. destruct c; try done. cbn in Einit. by destruct (is_ack c).
Qed.

End WholePacket.

(** * No panics *)

Section Panics.
Context {BC : BytesCrate} {CRC : Crc32c}.

(** The chunk is an ERROR or an ABORT whose causes panic. *)
Definition bad_causes (b : bytes) : Prop := error_unmarshal b = Panic ∨ abort_unmarshal b = Panic.

Lemma rbind_panic {A B} (m : res A) (f : A → res B) :
  rbind m f = Panic → m = Panic ∨ ∃ a, m = Ok a ∧ f a = Panic.
Proof. destruct m; cbn [rbind]; naive_solver. Qed.

Lemma empty_chunk_no_panic raw :
  Forall byte_ok raw →
  no_panic (chunk_unmarshal (T := ChunkCookieAck) raw) ∧ no_panic (chunk_unmarshal (T := ChunkShutdownAck) raw) ∧
  no_panic (chunk_unmarshal (T := ChunkShutdownComplete) raw).
Proof.
  intros Hb. cbn. split_and!; (apply no_panic_bind; [by apply chunk_header_no_panic|]); intros h _; by destruct (negb _).
Qed.

Lemma parse_chunk_panic raw offset b ct :
  Forall byte_ok raw → 0 <= offset → slice_chunk raw offset = Ok b → parse_chunk ct b = Panic → bad_causes b.
Proof.
  intros Hb Ho Hs. destruct (slice_chunk_exact raw offset b Ho Hb Hs) as (Hb' & L & h & Hh & Hv).
  assert (len b < 2 ^ 64).
  { destruct (chunk_header_inv b h Hb' Hh) as ((_ & _ & ?) & _). unfold CHUNK_HEADER_SIZE in *. lia. }
  destruct (empty_chunk_no_panic b Hb') as (N1 & N2 & N3).
  pose proof (init_no_panic b Hb'). pose proof (heartbeat_no_panic b Hb'). pose proof (reconfig_no_panic b Hb').
  pose proof (data_no_panic b Hb'). pose proof (sack_no_panic b Hb'). assert (no_panic (fwd_unmarshal b)) by (by eapply fwd_no_panic).
  pose proof (shutdown_no_panic b Hb'). pose proof (cookie_echo_no_panic b Hb').
  unfold parse_chunk, no_panic, bad_causes in *.
  repeat match goal with |- context [if ?c then _ else _] => destruct c end; try done;
    intros E; apply rbind_panic in E as [E|(? & _ & E)]; try done; auto.
Qed.

Lemma read_chunks_panic fuel raw offset :
  Forall byte_ok raw → 0 <= offset → len raw - offset <= 4 * Z.of_nat fuel → read_chunks fuel raw offset = Panic →
  ∃ at_ b, offset <= at_ ∧ slice_chunk raw at_ = Ok b ∧ bad_causes b.
Proof.
  intros Hb. revert offset. induction fuel as [|fuel IH]; intros offset Ho Hf E.
  { rewrite read_chunks_end in E by lia. by destruct (_ =? _). }
  cbn [read_chunks] in E. destruct (_ =? _); [done|]. destruct (Z.ltb_spec (len raw) (offset + CHUNK_HEADER_SIZE)); [done|].
  apply rbind_panic in E as [E|(b & Hs & E)]; [exfalso; revert E; by apply slice_chunk_no_panic|].
  unfold CHUNK_HEADER_SIZE in *.
  apply rbind_panic in E as [E|(ct & _ & E)]; [destruct (index_ok raw offset) as (x & Hx & _); [lia|congruence]|].
  apply rbind_panic in E as [E|(c & _ & E)]; [exists offset, b; split_and!; [lia|done|by eapply parse_chunk_panic]|].
  apply rbind_panic in E as [E|(cs & _ & E)]; [|done].
  pose proof (any_value_length_nonneg c). pose proof (padding_bounds (any_value_length c)).
  destruct (IH (offset + (4 + any_value_length c + get_padding_size (any_value_length c)))) as (o & b' & ? & ?); [lia..|done|].
  exists o, b'. split; [lia|done].
Qed.

Lemma get_u32_le_total r : Forall byte_ok r → 4 <= len r → no_panic (get_u32_le r).
Proof.
  intros Hr Hl. unfold get_u32_le. apply no_panic_bind; [by apply copy_to_bytes_no_panic|]. intros [four rest] E.
  apply no_panic_bind; [|by intros [] _]. unfold copy_to_bytes in E. destruct (_ <? _); [done|].
  injection E as <- <-. unfold get_u32.
  destruct (get_uint_total 4 (reverse (take (Z.to_nat 4) r))) as (x & r' & -> & _); [|unfold len in *; rewrite length_reverse, length_take; lia|done].
  apply Forall_reverse. by apply Forall_take.
Qed.

End Panics.

Lemma len_sctp_packet `{BytesCrate} `{Crc32c} p :
  Forall any_ok (pkt_chunks p) → len (packet_bytes p) = marshaled_len p.
Proof.
  intros Hc. unfold packet_bytes, marshaled_len, PACKET_HEADER_SIZE. rewrite !len_app, len_common.
  assert (∀ x, len (reverse (put_uint 4 x)) = 4) as -> by (intros; unfold len; by rewrite length_reverse, put_uint_length).
  assert (len (concat (padded <$> pkt_chunks p)) =
          foldr (λ c acc, let n := CHUNK_HEADER_SIZE + any_value_length c in n + get_padding_size n + acc) 0 (pkt_chunks p)) as ->; [|cbn zeta; lia].
  induction Hc as [|c cs Hc Hcs IH]; [done|]. csimpl. rewrite len_app, len_padded, IH by done.
  assert (get_padding_size (CHUNK_HEADER_SIZE + any_value_length c) = get_padding_size (any_value_length c)) as -> by (rewrite Z.add_comm; apply (padding_size_shift (any_value_length c) 1)).
  unfold CHUNK_HEADER_SIZE. lia.
Qed.

(** * Properties *)

(** A packet whose chunks fit the wire format is written to exactly [marshaled_len] bytes,
    and reading them gives the packet back, each chunk as the receiver sees it: INIT and
    INIT-ACK, ABORT, ERROR, HEARTBEAT, COOKIE-ECHO, COOKIE-ACK, DATA, SACK, RECONFIG,
    FORWARD-TSN and the three shutdown chunks. *)
Theorem sctp_packet_roundtrip `{BytesCrate} `{Crc32cLaws} p :
  common_ok (pkt_header p) → Forall any_ok (pkt_chunks p) →
  ∃ raw, packet_marshal p = Ok raw ∧ len raw = marshaled_len p ∧
         packet_unmarshal raw = Ok (mkPacket (pkt_header p) (any_received <$> pkt_chunks p)).
Proof.
  intros Hh Hc. exists (packet_bytes p). split_and!; [by apply packet_marshal_eq|by apply len_sctp_packet|by apply packet_read].
Qed.

(** Taking a packet apart in two steps, [PartialDecode::unmarshal] at the endpoint and
    [finish] at the association, is the same as [Packet::unmarshal] on the whole datagram:
    the same packet, the same error, the same panic. *)
Theorem partial_finish_agrees `{BytesCrate} `{Crc32c} raw pd :
  partial_unmarshal raw = Ok pd → finish pd = packet_unmarshal raw.
Proof.
  intros E. destruct (partial_inv raw pd E) as (Hl & Hr & ->). unfold finish. rewrite Hr.
  unfold PACKET_HEADER_SIZE in *. rewrite (read_chunks_drop _ (length raw) raw 12 0); [done|lia|lia|..].
  - rewrite length_drop. unfold len in *. lia.
  - unfold len in *. lia.
Qed.

(** [Packet::unmarshal] panics on no datagram but one that holds, behind a correct
    checksum, an ERROR or ABORT chunk whose causes are longer than the chunk; every other
    sequence of bytes gives a packet or an error. *)
Theorem packet_parsing_panics_only_on_causes `{BytesCrate} `{Crc32c} raw :
  Forall byte_ok raw → packet_unmarshal raw = Panic →
  ∃ offset b, PACKET_HEADER_SIZE <= offset ∧ slice_chunk raw offset = Ok b ∧ bad_causes b.
Proof.
  intros Hb. unfold packet_unmarshal. destruct (Z.ltb_spec (len raw) PACKET_HEADER_SIZE); [done|]. unfold PACKET_HEADER_SIZE in *.
  unfold get_u16, get_u32.
  destruct (get_uint_total 2 raw Hb) as (? & r1 & -> & _ & _ & Hb1 & L1); [lia|]. cbn [rbind].
  destruct (get_uint_total 2 r1 Hb1) as (? & r2 & -> & _ & _ & Hb2 & L2); [lia|]. cbn [rbind].
  destruct (get_uint_total 4 r2 Hb2) as (? & r3 & -> & _ & _ & Hb3 & L3); [lia|]. cbn [rbind].
  intros E. apply rbind_panic in E as [E|([ck r4] & _ & E)]; [exfalso; revert E; apply get_u32_le_total; [done|lia]|].
  apply rbind_panic in E as [E|(s & _ & E)].
  { exfalso. unfold generate_packet_checksum in E. apply rbind_panic in E as [E|(? & _ & E)]; [revert E; apply slice_no_panic; lia|].
    apply rbind_panic in E as [E|(? & _ & E)]; [revert E; apply slice_no_panic; lia|done]. }
  destruct (negb _); [done|]. apply rbind_panic in E as [E|(cs & _ & E)]; [|done].
  apply read_chunks_panic in E; [done|done|lia|]. unfold len. lia.
Qed.

(** ** Witnesses *)

Section Witnesses.
#[local] Existing Instance BigEndian.big_endian.

(** A checksum with the CRC's interface: the sum of the bytes. *)
Definition sum_crc : Crc32c := λ x l, u32 (x + foldr Z.add 0 l).
#[local] Existing Instance sum_crc.

#[local] Instance sum_crc_laws : Crc32cLaws.
Proof.
  split; unfold crc32c_append, sum_crc.
  - intros x a b. unfold u32, wrap. rewrite Z.add_mod_idemp_l by done. f_equal.
    assert (foldr Z.add 0 (a ++ b) = foldr Z.add 0 a + foldr Z.add 0 b) as -> by (induction a as [|y a IH]; csimpl; lia). lia.
  - intros x a. apply wrap_fits. lia.
Qed.

Definition init_example : ChunkInit :=
  mkInit false 7 1048576 65535 65535 99 [ParamForwardTsnSupported; ParamSupportedExtensions [130; 192]].

Definition packet_example : Packet :=
  mkPacket (mkCommon 5000 5001 7) [CCookieEcho (mkCookieEcho [1; 2; 3; 4; 5]); CData data_example; CSack sack_example; CShutdownAck].

Lemma sctp_packet_roundtrip_witness :
  ∃ raw, packet_marshal packet_example = Ok raw ∧ len raw = 80 ∧
         packet_unmarshal raw = Ok (mkPacket (mkCommon 5000 5001 7)
           [CCookieEcho (mkCookieEcho [1; 2; 3; 4; 5]); CData (received data_example); CSack sack_example; CShutdownAck]).
Proof.
  destruct (sctp_packet_roundtrip packet_example) as (raw & E1 & E2 & E3); [split_and!; vm_compute; intuition congruence| |exists raw; split_and!; done].
  apply Forall_cons. split; [by vm_compute|]. apply Forall_cons. split; [split_and!; vm_compute; intuition congruence|].
  apply Forall_cons. split; [split_and!; repeat constructor; vm_compute; intuition congruence|]. by repeat constructor.
Defined.

Definition raw_example : bytes := match packet_marshal packet_example with Ok raw => raw | _ => [] end.

Lemma partial_finish_agrees_witness :
  ∃ pd, partial_unmarshal raw_example = Ok pd ∧ finish pd = packet_unmarshal raw_example ∧
        packet_unmarshal raw_example ≠ Panic.
Proof.
  destruct (partial_unmarshal raw_example) as [pd| |] eqn:E; [|by vm_compute in E..].
  exists pd. split_and!; [done|by apply partial_finish_agrees|by vm_compute].
Defined.

(** A packet with an ABORT chunk whose only cause announces 200 bytes and has 8. *)
Definition bad_abort_packet : bytes :=
  let chunk := cause_chunk CT_ABORT 13 200 [] in
  let head := [19; 136; 19; 136; 0; 0; 0; 7] in
  head ++ reverse (put_uint 4 (crc32c_append 0 (head ++ [0; 0; 0; 0] ++ chunk))) ++ chunk.

Lemma packet_parsing_panics_only_on_causes_witness :
  packet_unmarshal bad_abort_packet = Panic ∧
  ∃ offset b, PACKET_HEADER_SIZE <= offset ∧ slice_chunk bad_abort_packet offset = Ok b ∧ bad_causes b.
Proof.
  split; [by vm_compute|].
  apply packet_parsing_panics_only_on_causes; [repeat constructor; vm_compute; intuition congruence|by vm_compute].
Defined.

(** The HEARTBEAT-ACK this association answers with is not a chunk its own packets accept. *)
Lemma heartbeat_ack_refused :
  let p := mkPacket (mkCommon 5000 5001 7) [CHeartbeatAck (mkHeartbeatAck [ParamHeartbeatInfo [1; 2; 3; 4]])] in
  ∃ raw, packet_marshal p = Ok raw ∧ packet_unmarshal raw = Err ErrUnmarshalUnknownChunkType.
Proof. eexists. split; [reflexivity|]. by vm_compute. Qed.

(** An INIT whose last parameter is the four-byte Forward-TSN-Supported: the parameter is not
    read, the chunk counts as four bytes shorter than it is and the packet is refused. *)
Lemma init_bare_last_param_refused :
  let c := mkInit false 7 1048576 65535 65535 99 [ParamSupportedExtensions [130; 192]; ParamForwardTsnSupported] in
  let short := mkInit false 7 1048576 65535 65535 99 [ParamSupportedExtensions [130; 192]] in
  (∃ bs, chunk_marshal c = Ok bs ∧ chunk_unmarshal bs = Ok short) ∧
  (∃ raw, packet_marshal (mkPacket (mkCommon 5000 5001 0) [CInit c]) = Ok raw ∧ ∀ p, packet_unmarshal raw ≠ Ok p).
Proof. split; eexists; (split; [reflexivity|]); [reflexivity|]. intros p. by vm_compute. Qed.

(** With the parameters in the order this association sends them, the INIT is read. *)
Lemma init_packet_read :
  ∃ raw, packet_marshal (mkPacket (mkCommon 5000 5001 0) [CInit init_example]) = Ok raw ∧
         packet_unmarshal raw = Ok (mkPacket (mkCommon 5000 5001 0) [CInit init_example]).
Proof. eexists. split; [reflexivity|]. by vm_compute. Qed.

End Witnesses.
