(* ===== verification/SctpTimer.v ===== *)
(** The timers of an SCTP association and its retransmission timeout,
    [rtc-sctp/src/association/timer.rs].  An [Instant] is its number of nanoseconds, an
    [f64] an element of the Standard Library's [spec_float] with 53 bits of precision. *)

From Stdlib Require Import SpecFloat.
From S2P Require Import Prelude.

(** * [f64] *)

Definition f64 := spec_float.
Definition f64_of_int (z : Z) : f64 := binary_normalize 53 1024 z 0 false.
Definition f64_add : f64 → f64 → f64 := SFadd 53 1024.
Definition f64_mul : f64 → f64 → f64 := SFmul 53 1024.
Definition f64_div : f64 → f64 → f64 := SFdiv 53 1024.

(** [x as u64]: towards zero, saturating; a NaN is zero. *)
Definition f64_as_u64 (x : f64) : Z :=
  match x with
  | S754_zero _ | S754_nan => 0
  | S754_infinity s => if s then 0 else 2 ^ 64 - 1
  | S754_finite s m e => if s then 0 else Z.min (2 ^ 64 - 1) (Z.shiftl (Zpos m) e)
  end.

(** [x as i64] *)
Definition i64 (x : Z) : Z := (x + 2 ^ 63) mod 2 ^ 64 - 2 ^ 63.

(** * Constants *)

Definition ACK_INTERVAL : Z := 200.
Definition MAX_INIT_RETRANS : Z := 8.
Definition PATH_MAX_RETRANS : Z := 5.
Definition NO_MAX_RETRANS : Z := 2 ^ 64 - 1.
Definition RTO_INITIAL : Z := 3000.
Definition RTO_MIN : Z := 1000.
Definition RTO_MAX : Z := 60000.
Definition RTO_ALPHA : Z := 1.
Definition RTO_BETA : Z := 2.
Definition RTO_BASE : Z := 8.

(** [Duration::from_millis] and [Duration::as_millis] *)
Definition from_millis (ms : Z) : Z := ms * 1000000.
Definition as_millis (d : Z) : Z := d / 1000000.
(** [Instant::duration_since] is zero when the other instant is later. *)
Definition duration_since (now since : Z) : Z := Z.max 0 (now - since).

Record TimerConfig := mkTimerConfig {
  max_t1_init_retrans : Z;
  max_t1_cookie_retrans : Z;
  max_t2_shutdown_retrans : Z;
  max_t3_rtx_retrans : Z;
  max_reconfig_retrans : Z;
  max_ack_retrans : Z
}.

Definition timer_config_default : TimerConfig :=
  mkTimerConfig MAX_INIT_RETRANS MAX_INIT_RETRANS NO_MAX_RETRANS PATH_MAX_RETRANS PATH_MAX_RETRANS PATH_MAX_RETRANS.

Inductive Timer := T1Init | T1Cookie | T2Shutdown | T3RTX | Reconfig | Ack.

#[export] Instance timer_eq_dec : EqDecision Timer.
Proof. solve_decision. Defined.

Definition TIMER_VALUES : list Timer := [T1Init; T1Cookie; T2Shutdown; T3RTX; Reconfig; Ack].

(** [timer as usize], an index below [TIMER_COUNT] *)
Definition timer_index (t : Timer) : nat :=
  match t with T1Init => 0 | T1Cookie => 1 | T2Shutdown => 2 | T3RTX => 3 | Reconfig => 4 | Ack => 5 end.

(** * [TimerTable]: three arrays indexed by the timer *)

Record TimerTable := mkTimers {
  tt_data : list (option Z);
  tt_retrans : list Z;
  tt_max_retrans : list Z
}.

Definition timers_default : TimerTable := mkTimers (replicate 6 None) (replicate 6 0) (replicate 6 0).

Definition timers_new (c : TimerConfig) : TimerTable :=
  mkTimers (replicate 6 None) (replicate 6 0)
    [max_t1_init_retrans c; max_t1_cookie_retrans c; max_t2_shutdown_retrans c;
     max_t3_rtx_retrans c; max_reconfig_retrans c; max_ack_retrans c].

Definition timer_set (tt : TimerTable) (t : Timer) (time : option Z) : TimerTable :=
  mkTimers (<[timer_index t := time]> (tt_data tt)) (tt_retrans tt) (tt_max_retrans tt).

Definition timer_get (tt : TimerTable) (t : Timer) : option Z := default None (tt_data tt !! timer_index t).

Definition retrans_of (tt : TimerTable) (t : Timer) : Z := default 0 (tt_retrans tt !! timer_index t).
Definition max_retrans_of (tt : TimerTable) (t : Timer) : Z := default 0 (tt_max_retrans tt !! timer_index t).

(** [self.data.iter().filter_map(|&x| x).min()] *)
Definition next_timeout (tt : TimerTable) : option Z :=
  foldr (λ x acc, match x, acc with Some a, Some b => Some (Z.min a b) | Some a, None => Some a | None, b => b end)
    None (tt_data tt).

Definition calculate_next_timeout (rto n_rtos : Z) : Z :=
  if n_rtos <? 31 then Z.min (u64 (Z.shiftl rto n_rtos)) RTO_MAX else RTO_MAX.

Definition timer_start (tt : TimerTable) (t : Timer) (now interval : Z) : TimerTable :=
  let interval := if decide (t = Ack) then interval else calculate_next_timeout interval (retrans_of tt t) in
  timer_set tt t (Some (now + from_millis interval)).

Definition restart_if_stale (tt : TimerTable) (t : Timer) (now interval : Z) : TimerTable :=
  match timer_get tt t with
  | Some current => if now <=? current then tt else timer_start tt t now interval
  | None => timer_start tt t now interval
  end.

Definition timer_stop (tt : TimerTable) (t : Timer) : TimerTable :=
  mkTimers (<[timer_index t := None]> (tt_data tt)) (<[timer_index t := 0]> (tt_retrans tt)) (tt_max_retrans tt).

(** [(expired, failure, n_rtos)] and the table with the count of a timer that expired. *)
Definition is_expired (tt : TimerTable) (t : Timer) (after : Z) : bool * bool * Z * TimerTable :=
  let expired := match timer_get tt t with Some x => x <=? after | None => false end in
  let tt :=
    if expired
    then mkTimers (tt_data tt) (<[timer_index t := u64 (retrans_of tt t + 1)]> (tt_retrans tt)) (tt_max_retrans tt)
    else tt in
  (expired, expired && (max_retrans_of tt t <? retrans_of tt t), retrans_of tt t, tt).

(** * [RtoManager] *)

Record RtoManager := mkRto { srtt : Z; rttvar : f64; rto : Z; no_update : bool }.

Definition rto_default : RtoManager := mkRto 0 (S754_zero false) 0 false.
Definition rto_new : RtoManager := mkRto 0 (S754_zero false) RTO_INITIAL false.

(** [u64::clamp] with constant bounds *)
Definition clamp (x lo hi : Z) : Z := if x <? lo then lo else if hi <? x then hi else x.

Definition set_new_rtt (r : RtoManager) (rtt : Z) : Z * RtoManager :=
  if no_update r then (srtt r, r)
  else
    let '(s, v) :=
      if srtt r =? 0 then (rtt, f64_div (f64_of_int rtt) (f64_of_int 2))
      else
        (u64 ((RTO_BASE - RTO_ALPHA) * srtt r + RTO_ALPHA * rtt) / RTO_BASE,
         f64_div
           (f64_add (f64_mul (f64_of_int (RTO_BASE - RTO_BETA)) (rttvar r))
              (f64_mul (f64_of_int RTO_BETA) (f64_of_int (i64 (Z.abs (i64 (i64 (srtt r) - i64 rtt)))))))
           (f64_of_int RTO_BASE)) in
    (s, mkRto s v (clamp (u64 (s + f64_as_u64 (f64_mul (f64_of_int 4) v))) RTO_MIN RTO_MAX) false).

Definition rto_reset (r : RtoManager) : RtoManager :=
  if no_update r then r else mkRto 0 (S754_zero false) RTO_INITIAL (no_update r).

Definition set_rto (r : RtoManager) (v : Z) (no_upd : bool) : RtoManager := mkRto (srtt r) (rttvar r) v no_upd.

(** * The table as a map from timers *)

Definition timers_ok (tt : TimerTable) : Prop :=
  length (tt_data tt) = 6%nat ∧ length (tt_retrans tt) = 6%nat ∧ length (tt_max_retrans tt) = 6%nat.

Lemma timer_index_lt t : (timer_index t < 6)%nat.
Proof. destruct t; cbn; lia. Qed.

Lemma timer_index_inj t u : timer_index t = timer_index u → t = u.
Proof. by destruct t, u. Qed.

Lemma timers_default_ok : timers_ok timers_default.
Proof. done. Qed.

Lemma timers_new_ok c : timers_ok (timers_new c).
Proof. done. Qed.

Section Table.
Context (tt : TimerTable) (Hok : timers_ok tt).

Lemma timer_set_ok t x : timers_ok (timer_set tt t x).
Proof. destruct Hok as (H1 & H2 & H3). split_and!; cbn; by rewrite ?length_insert. Qed.

Lemma timer_stop_ok t : timers_ok (timer_stop tt t).
Proof. destruct Hok as (H1 & H2 & H3). split_and!; cbn; by rewrite ?length_insert. Qed.

Lemma timer_start_ok t now i : timers_ok (timer_start tt t now i).
Proof. apply timer_set_ok. Qed.

Lemma is_expired_ok t now : timers_ok (is_expired tt t now).2.
Proof. destruct Hok as (H1 & H2 & H3). unfold is_expired. cbn. destruct (match _ with Some _ => _ | None => _ end); split_and!; cbn; by rewrite ?length_insert. Qed.

Lemma restart_if_stale_ok t now i : timers_ok (restart_if_stale tt t now i).
Proof. unfold restart_if_stale. destruct (timer_get tt t) as [c|]; [destruct (_ <=? _); [done|]|]; apply timer_start_ok. Qed.

Lemma timer_get_set t u x : timer_get (timer_set tt t x) u = if decide (t = u) then x else timer_get tt u.
Proof.
  destruct Hok as (H1 & _). unfold timer_get, timer_set. cbn [tt_data]. destruct (decide (t = u)) as [->|n].
  - by rewrite list_lookup_insert_eq by (rewrite H1; apply timer_index_lt).
  - by rewrite list_lookup_insert_ne by (contradict n; by apply timer_index_inj).
Qed.

Lemma timer_get_stop t u : timer_get (timer_stop tt t) u = if decide (t = u) then None else timer_get tt u.
Proof. exact (timer_get_set t u None). Qed.

Lemma retrans_stop t u : retrans_of (timer_stop tt t) u = if decide (t = u) then 0 else retrans_of tt u.
Proof.
  destruct Hok as (_ & H2 & _). unfold retrans_of, timer_stop. cbn [tt_retrans]. destruct (decide (t = u)) as [->|n].
  - by rewrite list_lookup_insert_eq by (rewrite H2; apply timer_index_lt).
  - by rewrite list_lookup_insert_ne by (contradict n; by apply timer_index_inj).
Qed.

Lemma is_expired_spec t now :
  let '(expired, failure, n, tt') := is_expired tt t now in
  (∀ u, timer_get tt' u = timer_get tt u) ∧ (∀ u, max_retrans_of tt' u = max_retrans_of tt u) ∧
  expired = match timer_get tt t with Some x => x <=? now | None => false end ∧
  n = (if expired then u64 (retrans_of tt t + 1) else retrans_of tt t) ∧
  failure = expired && (max_retrans_of tt t <? n) ∧
  (∀ u, retrans_of tt' u = if decide (t = u) then n else retrans_of tt u).
Proof.
  destruct Hok as (_ & H2 & _). unfold is_expired.
  destruct (match timer_get tt t with Some _ => _ | None => _ end); cbn zeta; split_and!; try done.
  - unfold retrans_of at 1. cbn [tt_retrans]. by rewrite list_lookup_insert_eq by (rewrite H2; apply timer_index_lt).
  - intros u. unfold retrans_of at 1 2. cbn [tt_retrans]. destruct (decide (t = u)) as [->|n]; [done|].
    by rewrite list_lookup_insert_ne by (contradict n; by apply timer_index_inj).
  - intros u. by destruct (decide (t = u)) as [->|].
Qed.

End Table.

(** * Timeouts are bounded *)

Lemma clamp_bounds x lo hi : lo <= hi → lo <= clamp x lo hi <= hi.
Proof. intros. unfold clamp. destruct (Z.ltb_spec x lo), (Z.ltb_spec hi x); lia. Qed.

Lemma next_timeout_bounds rto n : 0 <= rto → 0 <= calculate_next_timeout rto n <= RTO_MAX.
Proof.
  intros. unfold calculate_next_timeout, RTO_MAX. destruct (_ <? _); [|lia].
  pose proof (wrap_fits 64 (Z.shiftl rto n)). unfold fits in *. lia.
Qed.

(** The back-off doubles the timeout until it reaches [RTO_MAX]. *)
Lemma next_timeout_doubles rto n :
  RTO_MIN <= rto <= RTO_MAX → 0 <= n →
  calculate_next_timeout rto n = Z.min (rto * 2 ^ n) RTO_MAX ∧
  calculate_next_timeout rto (n + 1) = Z.min (2 * calculate_next_timeout rto n) RTO_MAX.
Proof.
  unfold RTO_MIN, RTO_MAX. intros Hr Hn.
  assert (∀ n, 0 <= n → calculate_next_timeout rto n = Z.min (rto * 2 ^ n) 60000) as H.
  { clear n Hn. intros n Hn. unfold calculate_next_timeout, RTO_MAX. destruct (Z.ltb_spec n 31).
    - rewrite Z.shiftl_mul_pow2 by done. rewrite wrap_small; [done|]. split; [lia|].
      assert (2 ^ n <= 2 ^ 31) by (apply Z.pow_le_mono_r; lia).
      assert (rto * 2 ^ n <= 60000 * 2 ^ 31) by nia. change (2 ^ 64) with 18446744073709551616.
      change (60000 * 2 ^ 31) with 128849018880000 in *. lia.
    - assert (2 ^ 31 <= 2 ^ n) by (apply Z.pow_le_mono_r; lia). change (2 ^ 31) with 2147483648 in *. nia. }
  split; [by apply H|]. rewrite !H, Z.pow_add_r by lia. change (2 ^ 1) with 2. lia.
Qed.

Lemma set_new_rtt_bounds r rtt :
  no_update r = false → RTO_MIN <= rto (set_new_rtt r rtt).2 <= RTO_MAX.
Proof.
  intros E. unfold set_new_rtt. rewrite E. destruct (srtt r =? 0); apply clamp_bounds; done.
Qed.

Definition rto_ok (r : RtoManager) : Prop := no_update r = false ∧ RTO_MIN <= rto r <= RTO_MAX.

Lemma rto_new_ok : rto_ok rto_new.
Proof. done. Qed.

Lemma set_new_rtt_ok r rtt : rto_ok r → rto_ok (set_new_rtt r rtt).2.
Proof.
  intros [E H]. split; [|by apply set_new_rtt_bounds]. unfold set_new_rtt. rewrite E. by destruct (srtt r =? 0).
Qed.
