(* ===== verification/SctpStream.v ===== *)
(** SCTP streams, [StreamState] of [rtc-sctp/src/association/stream.rs]: messages are cut
    into DATA chunks on the way out and handed to the reassembly queue on the way in.  The
    calls that go through the association are in [SctpAssoc]. *)

From S2P Require Import Prelude SctpChunk SctpQueue SctpReassembly.

Inductive Side := Client | Server.
Inductive ReliabilityType := Reliable | Rexmit | Timed.

#[export] Instance side_eq_dec : EqDecision Side.
Proof. solve_decision. Defined.
#[export] Instance reliability_eq_dec : EqDecision ReliabilityType.
Proof. solve_decision. Defined.

Definition reliability_from (v : Z) : ReliabilityType :=
  if v =? 1 then Rexmit else if v =? 2 then Timed else Reliable.

Inductive RecvSendState := StreamClosed | StreamReadable | StreamWritable | StreamReadWritable.

#[export] Instance recv_send_eq_dec : EqDecision RecvSendState.
Proof. solve_decision. Defined.

Definition recv_send_u8 (s : RecvSendState) : Z :=
  match s with StreamClosed => 0 | StreamReadable => 1 | StreamWritable => 2 | StreamReadWritable => 3 end.
Definition recv_send_from (v : Z) : RecvSendState :=
  if v =? 1 then StreamReadable else if v =? 2 then StreamWritable else if v =? 3 then StreamReadWritable else StreamClosed.

Record StreamState := mkStream {
  ss_side : Side;
  ss_max_payload_size : Z;
  ss_stream_identifier : Z;
  ss_default_payload_type : PayloadProtocolIdentifier;
  ss_reassembly_queue : ReassemblyQueue;
  ss_sequence_number : Z;
  ss_state : RecvSendState;
  ss_unordered : bool;
  ss_reliability_type : ReliabilityType;
  ss_reliability_value : Z;
  ss_buffered_amount : Z;
  ss_buffered_amount_low : Z;
  ss_buffered_amount_high : Z
}.

Definition stream_eta (s : StreamState) : StreamState :=
  mkStream (ss_side s) (ss_max_payload_size s) (ss_stream_identifier s) (ss_default_payload_type s)
    (ss_reassembly_queue s) (ss_sequence_number s) (ss_state s) (ss_unordered s) (ss_reliability_type s)
    (ss_reliability_value s) (ss_buffered_amount s) (ss_buffered_amount_low s) (ss_buffered_amount_high s).

#[export] Instance set_ss_reassembly_queue : Setter ss_reassembly_queue.
Proof. make_setter stream_eta ss_reassembly_queue. Defined.
#[export] Instance set_ss_default_payload_type : Setter ss_default_payload_type.
Proof. make_setter stream_eta ss_default_payload_type. Defined.
#[export] Instance set_ss_sequence_number : Setter ss_sequence_number.
Proof. make_setter stream_eta ss_sequence_number. Defined.
#[export] Instance set_ss_state : Setter ss_state.
Proof. make_setter stream_eta ss_state. Defined.
#[export] Instance set_ss_unordered : Setter ss_unordered.
Proof. make_setter stream_eta ss_unordered. Defined.
#[export] Instance set_ss_reliability_type : Setter ss_reliability_type.
Proof. make_setter stream_eta ss_reliability_type. Defined.
#[export] Instance set_ss_reliability_value : Setter ss_reliability_value.
Proof. make_setter stream_eta ss_reliability_value. Defined.
#[export] Instance set_ss_buffered_amount : Setter ss_buffered_amount.
Proof. make_setter stream_eta ss_buffered_amount. Defined.
#[export] Instance set_ss_buffered_amount_low : Setter ss_buffered_amount_low.
Proof. make_setter stream_eta ss_buffered_amount_low. Defined.
#[export] Instance set_ss_buffered_amount_high : Setter ss_buffered_amount_high.
Proof. make_setter stream_eta ss_buffered_amount_high. Defined.

Definition stream_new (side : Side) (id max_payload_size : Z) (ppi : PayloadProtocolIdentifier) : StreamState :=
  mkStream side max_payload_size id ppi (rq_new id) 0 StreamReadWritable false Reliable 0 0 0 (2 ^ 32 - 1).

(** [handle_data]; [now] is the clock the reassembly queue reads. *)
Definition stream_handle_data (now : Z) (s : StreamState) (pd : ChunkPayloadData) : res (bool * StreamState) :=
  let! (ok, q) := rq_push now (ss_reassembly_queue s) pd in
  Ok (ok, s <| ss_reassembly_queue := q |>).

Definition handle_forward_tsn_for_ordered (s : StreamState) (ssn : Z) : StreamState :=
  if ss_unordered s then s
  else s <| ss_reassembly_queue := forward_tsn_for_ordered (ss_reassembly_queue s) ssn |>.

Definition handle_forward_tsn_for_unordered (s : StreamState) (new_cumulative_tsn : Z) : StreamState :=
  if negb (ss_unordered s) then s
  else s <| ss_reassembly_queue := forward_tsn_for_unordered (ss_reassembly_queue s) new_cumulative_tsn |>.

(** The loop of [packetize], from byte [i] of [raw] on.  A fragment takes at least one byte
    when [max_payload_size] is positive, so [length raw] iterations are enough; with a
    [max_payload_size] of zero the loop does not end. *)
Fixpoint packetize_loop (fuel : nat) (s : StreamState) (raw : bytes) (ppi : PayloadProtocolIdentifier)
    (unord : bool) (i remaining : Z) : res (list ChunkPayloadData) :=
  if remaining =? 0 then Ok []
  else match fuel with
  | O => Panic
  | S fuel =>
      let fragment_size := Z.min (ss_max_payload_size s) remaining in
      let! user_data := slice raw i (i + fragment_size) in
      let chunk :=
        mkData unord (i =? 0) (remaining - fragment_size =? 0) false (tsn data_default)
          (ss_stream_identifier s) (ss_sequence_number s) ppi user_data (acked data_default)
          (miss_indicator data_default) (SctpChunk.since data_default) (nsent data_default) false false
          (retransmit data_default) in
      let! rest := packetize_loop fuel s raw ppi unord (i + fragment_size) (remaining - fragment_size) in
      Ok (chunk :: rest)
  end.

Definition is_dcep (ppi : PayloadProtocolIdentifier) : bool := bool_decide (ppi = Dcep).

Definition packetize (s : StreamState) (raw : bytes) (ppi : PayloadProtocolIdentifier)
    : res (bool * list ChunkPayloadData * StreamState) :=
  let unord := negb (is_dcep ppi) && ss_unordered s in
  let! chunks := packetize_loop (length raw) s raw ppi unord 0 (len raw) in
  let s := if negb unord then s <| ss_sequence_number := u16 (ss_sequence_number s + 1) |> else s in
  let old_amount := ss_buffered_amount s in
  let s := s <| ss_buffered_amount := u64 (ss_buffered_amount s + len raw) |> in
  let new_amount := ss_buffered_amount s in
  Ok ((old_amount <? ss_buffered_amount_high s) && (ss_buffered_amount_high s <=? new_amount), chunks, s).

Definition on_buffer_released (s : StreamState) (n_bytes_released : Z) : bool * StreamState :=
  if n_bytes_released <=? 0 then (false, s)
  else
    let old_amount := ss_buffered_amount s in
    let new_amount := if old_amount <? n_bytes_released then 0 else old_amount - n_bytes_released in
    ((ss_buffered_amount_low s <? old_amount) && (new_amount <=? ss_buffered_amount_low s),
     s <| ss_buffered_amount := new_amount |>).

Definition get_num_bytes_in_reassembly_queue (s : StreamState) : Z := rq_n_bytes (ss_reassembly_queue s).

Definition data_eta (c : ChunkPayloadData) : ChunkPayloadData :=
  mkData (unordered c) (beginning_fragment c) (ending_fragment c) (immediate_sack c) (tsn c) (stream_identifier c)
    (stream_sequence_number c) (payload_type c) (user_data c) (acked c) (miss_indicator c) (SctpChunk.since c) (nsent c)
    (abandoned_flag c) (all_inflight c) (retransmit c).

#[export] Instance set_tsn : Setter tsn.
Proof. make_setter data_eta tsn. Defined.
#[export] Instance set_miss_indicator : Setter miss_indicator.
Proof. make_setter data_eta miss_indicator. Defined.
#[export] Instance set_since : Setter SctpChunk.since.
Proof. make_setter data_eta SctpChunk.since. Defined.
#[export] Instance set_nsent : Setter nsent.
Proof. make_setter data_eta nsent. Defined.
#[export] Instance set_retransmit : Setter retransmit.
Proof. make_setter data_eta retransmit. Defined.

(** * Cutting a message into chunks *)

(** What the fragments of a message have in common. *)
Definition fragment_of (s : StreamState) (ppi : PayloadProtocolIdentifier) (u : bool) (c : ChunkPayloadData) : Prop :=
  0 < len (user_data c) <= ss_max_payload_size s ∧ stream_identifier c = ss_stream_identifier s ∧
  stream_sequence_number c = ss_sequence_number s ∧ payload_type c = ppi ∧ unordered c = u.

Section Packetize.
Context (s : StreamState) (raw : bytes) (ppi : PayloadProtocolIdentifier) (u : bool).
Hypothesis Hmax : 0 < ss_max_payload_size s.

(** The flags of the chunks from byte [i] on. *)
Definition flags_from (i : Z) (cs : list ChunkPayloadData) : Prop :=
  ∀ k c, cs !! k = Some c → beginning_fragment c = ((i =? 0) && bool_decide (k = 0%nat)) ∧
                            ending_fragment c = bool_decide (S k = length cs).

Lemma slice_from (i n : Z) :
  0 <= i → 0 <= n → i + n <= len raw → slice raw i (i + n) = Ok (take (Z.to_nat n) (drop (Z.to_nat i) raw)).
Proof.
  intros Hi Hn Hl. unfold slice, assert_. rewrite !(proj2 (Z.leb_le _ _)) by lia. cbn [andb].
  by replace (i + n - i) with n by lia.
Qed.

Lemma packetize_loop_spec fuel i :
  0 <= i <= len raw → len raw - i <= Z.of_nat fuel →
  ∃ cs, packetize_loop fuel s raw ppi u i (len raw - i) = Ok cs ∧ payload cs = drop (Z.to_nat i) raw ∧
        Forall (fragment_of s ppi u) cs ∧ flags_from i cs.
Proof.
  revert i. induction fuel as [|fuel IH]; intros i Hi Hf.
  { replace (len raw - i) with 0 by lia. exists []. split_and!; [done| |constructor|by intros k c].
    symmetry. apply drop_ge. unfold len in *. lia. }
  cbn [packetize_loop]. destruct (Z.eqb_spec (len raw - i) 0) as [E1|E1].
  { exists []. split_and!; [done| |constructor|by intros k c]. symmetry. apply drop_ge. unfold len in *. lia. }
  set (n := Z.min (ss_max_payload_size s) (len raw - i)). assert (0 < n <= len raw - i) by (unfold n; lia).
  rewrite slice_from by lia. cbn [rbind]. replace (len raw - i - n) with (len raw - (i + n)) by lia.
  destruct (IH (i + n)) as (cs & E & Hp & Hall & Hfl); [lia..|]. rewrite E. cbn [rbind]. eexists. split; [done|].
  set (c := mkData _ _ _ _ _ _ _ _ _ _ _ _ _ _ _ _).
  assert (cs = [] ↔ len raw - (i + n) = 0) as Hnil.
  { rewrite <- (length_zero_iff_nil cs). split.
    - intros E0. apply nil_length_inv in E0 as ->. apply (f_equal len) in Hp. rewrite len_drop in Hp. change (len (payload [])) with 0 in Hp. lia.
    - intros E0. destruct cs as [|c' cs]; [done|]. exfalso. inversion_clear Hall as [|? ? [Hu _] _].
      apply (f_equal len) in Hp. rewrite len_drop in Hp. unfold payload in Hp. csimpl in Hp. rewrite len_app in Hp.
      pose proof (len_nonneg (concat (user_data <$> cs))). lia. }
  split_and!.
  - unfold payload. csimpl. fold (payload cs). rewrite Hp. replace (Z.to_nat (i + n)) with (Z.to_nat i + Z.to_nat n)%nat by lia.
    rewrite <- drop_drop. apply take_drop.
  - constructor; [|done]. unfold fragment_of, c. cbn. rewrite len_take, len_drop. unfold n. split_and!; try done; lia.
  - intros [|k] c' Hk; cbn in Hk.
    + injection Hk as <-. unfold c. cbn [beginning_fragment ending_fragment]. rewrite andb_true_r. split; [done|].
      destruct (Z.eqb_spec (len raw - (i + n)) 0) as [E0|E0].
      * apply Hnil in E0 as ->. done.
      * symmetry. apply bool_decide_eq_false. cbn. intros [= H0]. apply E0, Hnil. by apply nil_length_inv.
    + destruct (Hfl k c' Hk) as [-> ->]. rewrite (proj2 (Z.eqb_neq (i + n) 0)) by lia. rewrite andb_false_l, andb_false_r.
      split; [done|]. apply bool_decide_ext. cbn. lia.
Qed.

End Packetize.

(** The chunks with the TSNs [move_pending_data_chunk_to_inflight_queue] gives them. *)
Definition numbered (t : Z) (cs : list ChunkPayloadData) : list ChunkPayloadData :=
  imap (λ i c, c <| tsn := u32 (t + Z.of_nat i) |>) cs.

Lemma payload_numbered t cs : payload (numbered t cs) = payload cs.
Proof.
  unfold payload, numbered. f_equal. apply list_eq. intros i. rewrite !list_lookup_fmap, list_lookup_imap.
  by destruct (cs !! i).
Qed.

Lemma payload_received cs : payload (received <$> cs) = payload cs.
Proof. unfold payload. f_equal. rewrite <- list_fmap_compose. by apply list_fmap_ext. Qed.

Lemma len_payload_ge cs : Forall (λ c, 0 < len (user_data c)) cs → len cs <= len (payload cs).
Proof.
  induction 1 as [|c cs Hc Hcs IH]; [done|]. unfold payload in *. csimpl. rewrite len_app, len_cons. lia.
Qed.

Lemma packetize_eq s raw ppi :
  0 < ss_max_payload_size s →
  let u := negb (is_dcep ppi) && ss_unordered s in
  ∃ high cs s', packetize s raw ppi = Ok (high, cs, s') ∧ payload cs = raw ∧ Forall (fragment_of s ppi u) cs ∧
    flags_from 0 cs ∧
    s' = s <| ss_sequence_number := if u then ss_sequence_number s else u16 (ss_sequence_number s + 1) |>
           <| ss_buffered_amount := u64 (ss_buffered_amount s + len raw) |> ∧
    high = (ss_buffered_amount s <? ss_buffered_amount_high s) && (ss_buffered_amount_high s <=? u64 (ss_buffered_amount s + len raw)).
Proof.
  intros Hm u. destruct (packetize_loop_spec s raw ppi u Hm (length raw) 0) as (cs & E & Hp & Hall & Hfl);
    [pose proof (len_nonneg raw); lia|unfold len; lia|].
  rewrite Z.sub_0_r in E. unfold packetize. fold u. rewrite E. cbn [rbind]. destruct u; cbn [negb].
  - by eexists _, _, _; split_and!.
  - by eexists _, _, _; split_and!.
Qed.

Lemma numbered_fragments t s raw ppi u cs :
  payload cs = raw → raw ≠ [] → len raw < 2 ^ 31 → Forall (fragment_of s ppi u) cs → flags_from 0 cs →
  fragments t (received <$> numbered t cs).
Proof.
  intros Hp Hne Hl Hall Hfl.
  assert (length (received <$> numbered t cs) = length cs) as Hlen by (by rewrite length_fmap; unfold numbered; rewrite length_imap).
  assert (∀ i c, (received <$> numbered t cs) !! i = Some c → ∃ d, cs !! i = Some d ∧ c = received (d <| tsn := u32 (t + Z.of_nat i) |>)) as Hlk.
  { intros i c. rewrite list_lookup_fmap. unfold numbered. rewrite list_lookup_imap. destruct (cs !! i) as [d|]; [|done].
    intros [= <-]. eauto. }
  split.
  - intros E. apply Hne. rewrite <- Hp. rewrite E in Hlen. destruct cs; [done|discriminate].
  - pose proof (len_payload_ge cs) as Hc. unfold len in *. rewrite Hlen. rewrite Hp in Hc. enough (Z.of_nat (length cs) <= Z.of_nat (length raw)) by lia.
    apply Hc. eapply Forall_impl; [done|]. by intros c [[? _] _].
  - intros i c (d & _ & ->)%Hlk. done.
  - intros i c (d & Hd & ->)%Hlk. by destruct (Hfl i d Hd) as [? _].
  - intros i c (d & Hd & ->)%Hlk. rewrite Hlen. by destruct (Hfl i d Hd) as [_ ?].
Qed.

Lemma numbered_data_ok t s ppi u cs :
  ss_max_payload_size s < 65520 → fits 16 (ss_stream_identifier s) → fits 16 (ss_sequence_number s) →
  Forall (fragment_of s ppi u) cs → Forall data_ok (numbered t cs).
Proof.
  intros Hm Hi Hs Hall. apply Forall_lookup. intros i c. unfold numbered. rewrite list_lookup_imap.
  destruct (cs !! i) as [d|] eqn:Hd; [|done]. intros [= <-].
  unfold data_ok. record_simpl. destruct (Forall_lookup_1 _ _ _ _ Hall Hd) as ([_ ?] & -> & -> & _).
  split_and!; try done; [apply wrap_fits; lia|lia].
Qed.

(** * Properties *)

(** A message survives the way from one stream to the other.  [packetize] ends and cuts it
    into fragments of at most the payload size; numbered with consecutive TSNs each fragment
    is read from the wire as it was written; and whatever the order in which the fragments
    arrive, and however often, the receiver has the message exactly when all of them have
    arrived, and then it is the message that was written. *)
Theorem message_transfer `{BytesCrate} s raw ppi t now :
  0 < ss_max_payload_size s < 65520 → fits 16 (ss_stream_identifier s) → fits 16 (ss_sequence_number s) →
  raw ≠ [] → len raw < 2 ^ 31 →
  ∃ high cs s', packetize s raw ppi = Ok (high, cs, s') ∧
    Forall (λ c, 0 < len (user_data c) <= ss_max_payload_size s) cs ∧
    (∀ c, c ∈ numbered t cs → ∃ bs, chunk_marshal c = Ok bs ∧ chunk_unmarshal bs = Ok (received c)) ∧
    ∀ arrival, Forall (λ i, 0 <= i < len cs) arrival →
      let q := foldl (λ q c, snd (chunks_push q c)) (chunks_new now (ss_sequence_number s) ppi [])
                 (pick (received <$> numbered t cs) arrival) in
      (is_complete q = true ↔ ∀ i, 0 <= i < len cs → i ∈ arrival) ∧
      (is_complete q = true → ∀ max, len raw <= max → to_payload q max = Ok raw).
Proof.
  intros [Hm Hm'] Hi Hs Hne Hl. destruct (packetize_eq s raw ppi Hm) as (high & cs & s' & E & Hp & Hall & Hfl & _ & _).
  exists high, cs, s'. split_and!; [done|eapply Forall_impl; [done|]; by intros c [? _]| |].
  - intros c Hc. pose proof (numbered_data_ok t s ppi _ cs Hm' Hi Hs Hall) as Hok. rewrite Forall_forall in Hok.
    destruct (data_roundtrip c (Hok c Hc)) as (bs & ? & _ & ?). eauto.
  - intros arrival Ha q. pose proof (numbered_fragments t s raw ppi _ cs Hp Hne Hl Hall Hfl) as F.
    assert (len (received <$> numbered t cs) = len cs) as Hlen
      by (unfold len; by rewrite length_fmap; unfold numbered; rewrite length_imap).
    rewrite <- Hlen in Ha. destruct (push_any_order t _ arrival now (ss_sequence_number s) ppi F Ha) as [H1 H2].
    rewrite Hlen in H1. split; [done|]. intros Hc max Hmax. destruct (H2 Hc) as [_ ->].
    rewrite payload_received, payload_numbered, Hp. by rewrite (proj2 (Z.ltb_ge _ _)) by lia.
Qed.

(** ** Witnesses *)

Section Witnesses.
#[local] Existing Instance BigEndian.big_endian.

Definition stream_example : StreamState := stream_new Client 3 2 Binary.

Lemma message_transfer_witness :
  ∃ high cs s', packetize stream_example [1; 2; 3; 4; 5] Binary = Ok (high, cs, s') ∧ len cs = 3 ∧
    let q := foldl (λ q c, snd (chunks_push q c)) (chunks_new 0 0 Binary [])
               (pick (received <$> numbered 4294967295 cs) [2; 0; 0; 1]) in
    to_payload q 100 = Ok [1; 2; 3; 4; 5].
Proof.
  destruct (message_transfer stream_example [1; 2; 3; 4; 5] Binary 4294967295 0) as (high & cs & s' & E & _ & _ & HH);
    [by vm_compute|by vm_compute|by vm_compute|done|by vm_compute|].
  assert (len cs = 3) as L by (vm_compute in E; by injection E as <- <- <-).
  exists high, cs, s'. split_and!; [done|done|]. intros q. destruct (HH [2; 0; 0; 1]) as [H1 H2]; [rewrite L; repeat constructor; lia|].
  apply H2; [|by vm_compute]. apply H1. rewrite L. intros i Hi. rewrite !elem_of_cons. lia.
Defined.

(** Writing an empty message sends nothing, but takes a stream sequence number: the next
    message is complete at the receiver and is never readable. *)
Lemma empty_write_blocks_stream :
  ∃ h1 s1 h2 c s2 q,
    packetize stream_example [] Binary = Ok (h1, [], s1) ∧ packetize s1 [7] Binary = Ok (h2, [c], s2) ∧
    rq_push 0 (rq_new 3) c = Ok (true, q) ∧ is_readable q = false ∧ rq_read q = Ok (None, q).
Proof. eexists _, _, _, _, _, _. split_and!; reflexivity. Qed.

End Witnesses.
