(* ===== verification/SctpAssoc.v ===== *)
(** The SCTP association, [rtc-sctp/src/association/mod.rs]: its state and its operations.
    A method that can fail is an [sm Association]: it returns a result and the state it leaves,
    also when it fails half-way.  Logging is left out, and so are the socket addresses, which
    only label the datagrams.  The iteration order of the hash maps is the one of [gmap]; the
    random initial TSN and state cookie are arguments.  Arithmetic on [u32] wraps, as in a
    build without overflow checks.  Theorems about it are in the files that follow. *)

From S2P Require Import Prelude SctpChunk SctpQueue SctpReassembly SctpParam SctpPacket SctpTimer SctpStream.

(** * State *)

Inductive AssociationState :=
| Closed | CookieWait | CookieEchoed | Established
| ShutdownAckSent | ShutdownPending | ShutdownReceived | ShutdownSent.

Inductive AckMode := Normal | NoDelay | AlwaysDelay.
Inductive AckState := Idle | Immediate | Delay.

#[export] Instance assoc_state_eq_dec : EqDecision AssociationState.
Proof. solve_decision. Defined.
#[export] Instance ack_mode_eq_dec : EqDecision AckMode.
Proof. solve_decision. Defined.
#[export] Instance ack_state_eq_dec : EqDecision AckState.
Proof. solve_decision. Defined.

Definition state_from (v : Z) : AssociationState :=
  if v =? 1 then CookieWait else if v =? 2 then CookieEchoed else if v =? 3 then Established
  else if v =? 4 then ShutdownAckSent else if v =? 5 then ShutdownPending
  else if v =? 6 then ShutdownReceived else if v =? 7 then ShutdownSent else Closed.

Definition is_drained (s : AssociationState) : bool :=
  match s with ShutdownSent | ShutdownAckSent | ShutdownPending | ShutdownReceived => true | _ => false end.

(** The text of [HandshakeFailed] is the one of the error it is made from. *)
Inductive AssociationError :=
| HandshakeFailed (e : error) | TransportError | AssociationClosed | ApplicationClosed
| AReset | TimedOut | LocallyClosed.

(** The stream events this code emits. *)
Inductive StreamEvent :=
| Opened (id : Z) | Readable (id : Z) | BufferedAmountLow (id : Z) | BufferedAmountHigh (id : Z)
| BufferedAmountReleased (id n_bytes : Z).

Inductive Event :=
| EHandshakeFailed (reason : AssociationError)
| Connected
| AssociationLost (reason : AssociationError) (id : Z)
| EStream (e : StreamEvent)
| DatagramReceived.

Inductive EndpointEventInner := Drained.

Record AssociationStats := mkStats {
  n_datas : Z; n_sacks : Z; n_t3timeouts : Z; n_ack_timeouts : Z; n_fast_retrans : Z
}.
Definition stats_default : AssociationStats := mkStats 0 0 0 0 0.
Definition inc_datas (s : AssociationStats) : AssociationStats :=
  mkStats (u64 (n_datas s + 1)) (n_sacks s) (n_t3timeouts s) (n_ack_timeouts s) (n_fast_retrans s).
Definition inc_sacks (s : AssociationStats) : AssociationStats :=
  mkStats (n_datas s) (u64 (n_sacks s + 1)) (n_t3timeouts s) (n_ack_timeouts s) (n_fast_retrans s).
Definition inc_t3timeouts (s : AssociationStats) : AssociationStats :=
  mkStats (n_datas s) (n_sacks s) (u64 (n_t3timeouts s + 1)) (n_ack_timeouts s) (n_fast_retrans s).
Definition inc_ack_timeouts (s : AssociationStats) : AssociationStats :=
  mkStats (n_datas s) (n_sacks s) (n_t3timeouts s) (u64 (n_ack_timeouts s + 1)) (n_fast_retrans s).
Definition inc_fast_retrans (s : AssociationStats) : AssociationStats :=
  mkStats (n_datas s) (n_sacks s) (n_t3timeouts s) (n_ack_timeouts s) (u64 (n_fast_retrans s + 1)).

Record Association := mkAssociation {
  a_side : Side;
  a_state : AssociationState;
  a_handshake_completed : bool;
  a_max_message_size : Z;
  a_inflight_queue_length : Z;
  a_will_send_shutdown : bool;
  a_bytes_received : Z;
  a_bytes_sent : Z;
  a_peer_verification_tag : Z;
  a_my_verification_tag : Z;
  a_my_next_tsn : Z;
  a_peer_last_tsn : Z;
  a_min_tsn2measure_rtt : Z;
  a_will_send_forward_tsn : bool;
  a_will_retransmit_fast : bool;
  a_will_retransmit_reconfig : bool;
  a_t3_retransmit_pending : bool;
  a_will_send_shutdown_ack : bool;
  a_will_send_shutdown_complete : bool;
  a_my_next_rsn : Z;
  a_reconfigs : gmap Z ChunkReconfig;
  a_reconfig_requests : gmap Z ParamOutgoingResetRequest;
  a_source_port : Z;
  a_destination_port : Z;
  a_my_max_num_inbound_streams : Z;
  a_my_max_num_outbound_streams : Z;
  a_my_cookie : option bytes;
  a_payload_queue : PayloadQueue;
  a_inflight_queue : PayloadQueue;
  a_pending_queue : PendingQueue;
  a_control_queue : list Packet;
  a_stream_queue : list Z;
  a_mtu : Z;
  a_max_payload_size : Z;
  a_cumulative_tsn_ack_point : Z;
  a_advanced_peer_tsn_ack_point : Z;
  a_use_forward_tsn : bool;
  a_fwd_tsn_stream_map : gmap Z Z;
  a_rto_mgr : RtoManager;
  a_timers : TimerTable;
  a_max_receive_buffer_size : Z;
  a_cwnd : Z;
  a_rwnd : Z;
  a_ssthresh : Z;
  a_partial_bytes_acked : Z;
  a_in_fast_recovery : bool;
  a_fast_recover_exit_point : Z;
  a_stored_init : option ChunkInit;
  a_stored_cookie_echo : option ChunkCookieEcho;
  a_streams : gmap Z StreamState;
  a_events : list Event;
  a_endpoint_events : list EndpointEventInner;
  a_error : option AssociationError;
  a_delayed_ack_triggered : bool;
  a_immediate_ack_triggered : bool;
  a_stats : AssociationStats;
  a_ack_state : AckState;
  a_ack_mode : AckMode
}.

(** The record from its fields, for the setters. *)
Definition assoc_eta (a : Association) : Association :=
  mkAssociation (a_side a) (a_state a) (a_handshake_completed a) (a_max_message_size a)
    (a_inflight_queue_length a) (a_will_send_shutdown a) (a_bytes_received a) (a_bytes_sent a)
    (a_peer_verification_tag a) (a_my_verification_tag a) (a_my_next_tsn a) (a_peer_last_tsn a)
    (a_min_tsn2measure_rtt a) (a_will_send_forward_tsn a) (a_will_retransmit_fast a)
    (a_will_retransmit_reconfig a) (a_t3_retransmit_pending a) (a_will_send_shutdown_ack a)
    (a_will_send_shutdown_complete a) (a_my_next_rsn a) (a_reconfigs a) (a_reconfig_requests a)
    (a_source_port a) (a_destination_port a) (a_my_max_num_inbound_streams a)
    (a_my_max_num_outbound_streams a) (a_my_cookie a) (a_payload_queue a) (a_inflight_queue a)
    (a_pending_queue a) (a_control_queue a) (a_stream_queue a) (a_mtu a) (a_max_payload_size a)
    (a_cumulative_tsn_ack_point a) (a_advanced_peer_tsn_ack_point a) (a_use_forward_tsn a)
    (a_fwd_tsn_stream_map a) (a_rto_mgr a) (a_timers a) (a_max_receive_buffer_size a) (a_cwnd a)
    (a_rwnd a) (a_ssthresh a) (a_partial_bytes_acked a) (a_in_fast_recovery a)
    (a_fast_recover_exit_point a) (a_stored_init a) (a_stored_cookie_echo a) (a_streams a) (a_events
    a) (a_endpoint_events a) (a_error a) (a_delayed_ack_triggered a) (a_immediate_ack_triggered a)
    (a_stats a) (a_ack_state a) (a_ack_mode a).

#[export] Instance set_a_side : Setter a_side.
Proof. make_setter assoc_eta a_side. Defined.
#[export] Instance set_a_state : Setter a_state.
Proof. make_setter assoc_eta a_state. Defined.
#[export] Instance set_a_handshake_completed : Setter a_handshake_completed.
Proof. make_setter assoc_eta a_handshake_completed. Defined.
#[export] Instance set_a_max_message_size : Setter a_max_message_size.
Proof. make_setter assoc_eta a_max_message_size. Defined.
#[export] Instance set_a_will_send_shutdown : Setter a_will_send_shutdown.
Proof. make_setter assoc_eta a_will_send_shutdown. Defined.
#[export] Instance set_a_peer_verification_tag : Setter a_peer_verification_tag.
Proof. make_setter assoc_eta a_peer_verification_tag. Defined.
#[export] Instance set_a_my_verification_tag : Setter a_my_verification_tag.
Proof. make_setter assoc_eta a_my_verification_tag. Defined.
#[export] Instance set_a_my_next_tsn : Setter a_my_next_tsn.
Proof. make_setter assoc_eta a_my_next_tsn. Defined.
#[export] Instance set_a_peer_last_tsn : Setter a_peer_last_tsn.
Proof. make_setter assoc_eta a_peer_last_tsn. Defined.
#[export] Instance set_a_min_tsn2measure_rtt : Setter a_min_tsn2measure_rtt.
Proof. make_setter assoc_eta a_min_tsn2measure_rtt. Defined.
#[export] Instance set_a_will_send_forward_tsn : Setter a_will_send_forward_tsn.
Proof. make_setter assoc_eta a_will_send_forward_tsn. Defined.
#[export] Instance set_a_will_retransmit_fast : Setter a_will_retransmit_fast.
Proof. make_setter assoc_eta a_will_retransmit_fast. Defined.
#[export] Instance set_a_will_retransmit_reconfig : Setter a_will_retransmit_reconfig.
Proof. make_setter assoc_eta a_will_retransmit_reconfig. Defined.
#[export] Instance set_a_t3_retransmit_pending : Setter a_t3_retransmit_pending.
Proof. make_setter assoc_eta a_t3_retransmit_pending. Defined.
#[export] Instance set_a_will_send_shutdown_ack : Setter a_will_send_shutdown_ack.
Proof. make_setter assoc_eta a_will_send_shutdown_ack. Defined.
#[export] Instance set_a_will_send_shutdown_complete : Setter a_will_send_shutdown_complete.
Proof. make_setter assoc_eta a_will_send_shutdown_complete. Defined.
#[export] Instance set_a_my_next_rsn : Setter a_my_next_rsn.
Proof. make_setter assoc_eta a_my_next_rsn. Defined.
#[export] Instance set_a_reconfigs : Setter a_reconfigs.
Proof. make_setter assoc_eta a_reconfigs. Defined.
#[export] Instance set_a_reconfig_requests : Setter a_reconfig_requests.
Proof. make_setter assoc_eta a_reconfig_requests. Defined.
#[export] Instance set_a_source_port : Setter a_source_port.
Proof. make_setter assoc_eta a_source_port. Defined.
#[export] Instance set_a_destination_port : Setter a_destination_port.
Proof. make_setter assoc_eta a_destination_port. Defined.
#[export] Instance set_a_my_max_num_inbound_streams : Setter a_my_max_num_inbound_streams.
Proof. make_setter assoc_eta a_my_max_num_inbound_streams. Defined.
#[export] Instance set_a_my_max_num_outbound_streams : Setter a_my_max_num_outbound_streams.
Proof. make_setter assoc_eta a_my_max_num_outbound_streams. Defined.
#[export] Instance set_a_my_cookie : Setter a_my_cookie.
Proof. make_setter assoc_eta a_my_cookie. Defined.
#[export] Instance set_a_payload_queue : Setter a_payload_queue.
Proof. make_setter assoc_eta a_payload_queue. Defined.
#[export] Instance set_a_inflight_queue : Setter a_inflight_queue.
Proof. make_setter assoc_eta a_inflight_queue. Defined.
#[export] Instance set_a_pending_queue : Setter a_pending_queue.
Proof. make_setter assoc_eta a_pending_queue. Defined.
#[export] Instance set_a_control_queue : Setter a_control_queue.
Proof. make_setter assoc_eta a_control_queue. Defined.
#[export] Instance set_a_stream_queue : Setter a_stream_queue.
Proof. make_setter assoc_eta a_stream_queue. Defined.
#[export] Instance set_a_mtu : Setter a_mtu.
Proof. make_setter assoc_eta a_mtu. Defined.
#[export] Instance set_a_max_payload_size : Setter a_max_payload_size.
Proof. make_setter assoc_eta a_max_payload_size. Defined.
#[export] Instance set_a_cumulative_tsn_ack_point : Setter a_cumulative_tsn_ack_point.
Proof. make_setter assoc_eta a_cumulative_tsn_ack_point. Defined.
#[export] Instance set_a_advanced_peer_tsn_ack_point : Setter a_advanced_peer_tsn_ack_point.
Proof. make_setter assoc_eta a_advanced_peer_tsn_ack_point. Defined.
#[export] Instance set_a_use_forward_tsn : Setter a_use_forward_tsn.
Proof. make_setter assoc_eta a_use_forward_tsn. Defined.
#[export] Instance set_a_fwd_tsn_stream_map : Setter a_fwd_tsn_stream_map.
Proof. make_setter assoc_eta a_fwd_tsn_stream_map. Defined.
#[export] Instance set_a_rto_mgr : Setter a_rto_mgr.
Proof. make_setter assoc_eta a_rto_mgr. Defined.
#[export] Instance set_a_timers : Setter a_timers.
Proof. make_setter assoc_eta a_timers. Defined.
#[export] Instance set_a_max_receive_buffer_size : Setter a_max_receive_buffer_size.
Proof. make_setter assoc_eta a_max_receive_buffer_size. Defined.
#[export] Instance set_a_cwnd : Setter a_cwnd.
Proof. make_setter assoc_eta a_cwnd. Defined.
#[export] Instance set_a_rwnd : Setter a_rwnd.
Proof. make_setter assoc_eta a_rwnd. Defined.
#[export] Instance set_a_ssthresh : Setter a_ssthresh.
Proof. make_setter assoc_eta a_ssthresh. Defined.
#[export] Instance set_a_partial_bytes_acked : Setter a_partial_bytes_acked.
Proof. make_setter assoc_eta a_partial_bytes_acked. Defined.
#[export] Instance set_a_in_fast_recovery : Setter a_in_fast_recovery.
Proof. make_setter assoc_eta a_in_fast_recovery. Defined.
#[export] Instance set_a_fast_recover_exit_point : Setter a_fast_recover_exit_point.
Proof. make_setter assoc_eta a_fast_recover_exit_point. Defined.
#[export] Instance set_a_stored_init : Setter a_stored_init.
Proof. make_setter assoc_eta a_stored_init. Defined.
#[export] Instance set_a_stored_cookie_echo : Setter a_stored_cookie_echo.
Proof. make_setter assoc_eta a_stored_cookie_echo. Defined.
#[export] Instance set_a_streams : Setter a_streams.
Proof. make_setter assoc_eta a_streams. Defined.
#[export] Instance set_a_events : Setter a_events.
Proof. make_setter assoc_eta a_events. Defined.
#[export] Instance set_a_endpoint_events : Setter a_endpoint_events.
Proof. make_setter assoc_eta a_endpoint_events. Defined.
#[export] Instance set_a_error : Setter a_error.
Proof. make_setter assoc_eta a_error. Defined.
#[export] Instance set_a_delayed_ack_triggered : Setter a_delayed_ack_triggered.
Proof. make_setter assoc_eta a_delayed_ack_triggered. Defined.
#[export] Instance set_a_immediate_ack_triggered : Setter a_immediate_ack_triggered.
Proof. make_setter assoc_eta a_immediate_ack_triggered. Defined.
#[export] Instance set_a_stats : Setter a_stats.
Proof. make_setter assoc_eta a_stats. Defined.
#[export] Instance set_a_ack_state : Setter a_ack_state.
Proof. make_setter assoc_eta a_ack_state. Defined.
#[export] Instance set_a_ack_mode : Setter a_ack_mode.
Proof. make_setter assoc_eta a_ack_mode. Defined.

Definition assoc_default : Association :=
  mkAssociation Client Closed false 0 0 false 0 0 0 0 0 0 0 false false false false false false 0 ∅
    ∅ 0 0 0 0 None pq_new pq_new pending_new [] [] 0 0 0 0 false ∅ rto_default timers_default 0 0 0
    0 0 false 0 None None ∅ [] [] None false false stats_default Idle Normal.

(** * Configuration, [config.rs] *)

Definition INITIAL_MTU : Z := 1228.
Definition INITIAL_RECV_BUF_SIZE : Z := 1024 * 1024.
Definition COMMON_HEADER_SIZE : Z := 12.
Definition DATA_CHUNK_HEADER_SIZE : Z := 16.
Definition DEFAULT_MAX_MESSAGE_SIZE : Z := 262144.

Record TransportConfig := mkTransportConfig {
  cfg_sctp_port : Z;
  cfg_max_receive_buffer_size : Z;
  cfg_max_message_size : Z;
  cfg_max_num_outbound_streams : Z;
  cfg_max_num_inbound_streams : Z;
  cfg_timer_config : TimerConfig
}.

Definition transport_config_default : TransportConfig :=
  mkTransportConfig 5000 INITIAL_RECV_BUF_SIZE DEFAULT_MAX_MESSAGE_SIZE 65535 65535 timer_config_default.

(** * Small steps *)

Definition set_state (s : AssociationState) (a : Association) : Association := a <| a_state := s |>.
Definition add_event (e : Event) (a : Association) : Association := a <| a_events ::= λ es, es ++ [e] |>.
Definition stop_timer (t : Timer) (a : Association) : Association := a <| a_timers ::= λ tt, timer_stop tt t |>.
(** [self.timers.start(t, now, self.rto_mgr.get_rto())] *)
Definition start_timer (t : Timer) (now : Z) (a : Association) : Association :=
  a <| a_timers := timer_start (a_timers a) t now (rto (a_rto_mgr a)) |>.
Definition restart_t3 (now : Z) (a : Association) : Association :=
  a <| a_timers := restart_if_stale (a_timers a) T3RTX now (rto (a_rto_mgr a)) |>.

Definition assoc_header (a : Association) : CommonHeader :=
  mkCommon (a_source_port a) (a_destination_port a) (a_peer_verification_tag a).
Definition create_packet (a : Association) (chunks : list AnyChunk) : Packet := mkPacket (assoc_header a) chunks.
Definition queue_control (p : Packet) (a : Association) : Association := a <| a_control_queue ::= λ q, q ++ [p] |>.

Definition generate_next_tsn (a : Association) : Z * Association :=
  (a_my_next_tsn a, a <| a_my_next_tsn := u32 (a_my_next_tsn a + 1) |>).
Definition generate_next_rsn (a : Association) : Z * Association :=
  (a_my_next_rsn a, a <| a_my_next_rsn := u32 (a_my_next_rsn a + 1) |>).

(** [get_mut] followed by a change of the chunk. *)
Definition pq_alter (f : ChunkPayloadData → ChunkPayloadData) (t : Z) (q : PayloadQueue) : PayloadQueue :=
  mkPQ (alter f t (chunk_map q)) (sorted q) (dup_tsn q) (pq_n_bytes q).

(** Iterations the loops over consecutive in-flight TSNs need at most. *)
Definition inflight_fuel (a : Association) : nat := S (size (chunk_map (a_inflight_queue a))).

(** * Streams of the association *)

Definition unregister_stream (id : Z) (reason : AssociationError) (a : Association) : Association :=
  match a_streams a !! id with
  | Some _ => add_event (AssociationLost reason id) (a <| a_streams ::= delete id |>)
  | None => a
  end.

(** [create_stream] always succeeds. *)
Definition create_stream (id : Z) (accept : bool) (ppi : PayloadProtocolIdentifier) (a : Association) : Association :=
  let s := stream_new (a_side a) id (a_max_payload_size a) ppi in
  let a := if accept then add_event (EStream (Opened id)) (a <| a_stream_queue ::= λ q, q ++ [id] |>) else a in
  a <| a_streams ::= <[id := s]> |>.

Definition get_or_create_stream (id : Z) (a : Association) : Association :=
  if bool_decide (is_Some (a_streams a !! id)) then a else create_stream id true Unknown a.

Definition open_stream (id : Z) (ppi : PayloadProtocolIdentifier) : sm Association unit := λ a,
  if bool_decide (is_Some (a_streams a !! id)) then (Err ErrStreamAlreadyExist, a)
  else (Ok tt, create_stream id false ppi a).

Definition accept_stream (a : Association) : option Z * Association :=
  match a_stream_queue a with
  | id :: rest => (Some id, a <| a_stream_queue := rest |>)
  | [] => (None, a)
  end.

Definition get_my_receiver_window_credit (a : Association) : Z :=
  let bytes_queued := map_fold (λ _ s n, u32 (n + u32 (get_num_bytes_in_reassembly_queue s))) 0 (a_streams a) in
  Z.max 0 (a_max_receive_buffer_size a - bytes_queued).

(** * Starting and ending an association *)

Definition close_all_timers (a : Association) : Association := foldl (λ a t, stop_timer t a) a TIMER_VALUES.

Definition close (reason : AssociationError) (a : Association) : Association :=
  if decide (a_state a = Closed) then a
  else
    let a := set_state Closed a in
    let a := close_all_timers a in
    foldl (λ a id, unregister_stream id reason a) a ((map_to_list (a_streams a)).*1).

(** The graceful end, [Association::shutdown]. *)
Definition shutdown : sm Association unit := λ a,
  if decide (a_state a = Established) then
    let a := set_state ShutdownPending a in
    let a := if a_inflight_queue_length a =? 0
             then set_state ShutdownSent (a <| a_will_send_shutdown := true |>) else a in
    (Ok tt, a <| a_endpoint_events ::= λ es, es ++ [Drained] |>)
  else (Err ErrShutdownNonEstablished, a).

Definition send_init : sm Association unit := λ a,
  match a_stored_init a with
  | Some stored_init =>
      let a := a <| a_source_port := 5000 |> <| a_destination_port := 5000 |> in
      (Ok tt, queue_control (create_packet a [CInit stored_init]) a)
  | None => (Err ErrInitNotStoredToSend, a)
  end.

Definition send_cookie_echo : sm Association unit := λ a,
  match a_stored_cookie_echo a with
  | Some c => (Ok tt, queue_control (create_packet a [CCookieEcho c]) a)
  | None => (Err ErrCookieEchoNotStoredToSend, a)
  end.

(** [ChunkInit { .., ..Default::default() }] with the association's parameters. *)
Definition my_init (ack : bool) (a : Association) : ChunkInit :=
  mkInit ack (a_my_verification_tag a) (a_max_receive_buffer_size a) (a_my_max_num_outbound_streams a)
    (a_my_max_num_inbound_streams a) (a_my_next_tsn a) [].

(** [Association::new]; [random_tsn] is the number that is drawn.  [u32::clamp] panics when
    the bounds are not in order. *)
Definition assoc_new (server : bool) (config : TransportConfig) (max_payload_size local_aid random_tsn now : Z)
    : res Association :=
  let side := if server then Server else Client in
  let mtu := u32 (max_payload_size + COMMON_HEADER_SIZE + DATA_CHUNK_HEADER_SIZE) in
  assert_ (4380 <=? u32 (4 * mtu))
    (let cwnd := clamp (u32 (2 * mtu)) 4380 (u32 (4 * mtu)) in
     let tsn := if random_tsn =? 0 then 1 else random_tsn in
     let a := assoc_default
       <| a_side := side |>
       <| a_max_receive_buffer_size := cfg_max_receive_buffer_size config |>
       <| a_max_message_size := cfg_max_message_size config |>
       <| a_my_max_num_outbound_streams := cfg_max_num_outbound_streams config |>
       <| a_my_max_num_inbound_streams := cfg_max_num_inbound_streams config |>
       <| a_max_payload_size := max_payload_size |>
       <| a_rto_mgr := rto_new |>
       <| a_timers := timers_new (cfg_timer_config config) |>
       <| a_mtu := mtu |>
       <| a_cwnd := cwnd |>
       <| a_my_verification_tag := local_aid |>
       <| a_my_next_tsn := tsn |>
       <| a_my_next_rsn := tsn |>
       <| a_min_tsn2measure_rtt := tsn |>
       <| a_cumulative_tsn_ack_point := tsn - 1 |>
       <| a_advanced_peer_tsn_ack_point := tsn - 1 |> in
     if server then Ok a
     else
       let init := set_supported_extensions (my_init false a) in
       let a := set_state CookieWait a <| a_stored_init := Some init |> in
       let a := snd (send_init a) in
       Ok (start_timer T1Init now a)).

(** * The handshake *)

Definition prev_tsn (t : Z) : Z := if t =? 0 then 2 ^ 32 - 1 else t - 1.

(** Whether the peer listed FORWARD-TSN among its extensions. *)
Definition announces_forward_tsn (ps : list Param) : bool :=
  existsb (λ p, match p with ParamSupportedExtensions ts => existsb (λ t, t =? CT_FORWARD_TSN) ts | _ => false end) ps.

(** The last state cookie of the parameters. *)
Definition find_cookie (ps : list Param) : option bytes :=
  foldl (λ acc p, match p with ParamStateCookie c => Some c | _ => acc end) None ps.

(** What an INIT sets. *)
Definition adopt_init (h : CommonHeader) (i : ChunkInit) (a : Association) : Association :=
  let a := a
    <| a_my_max_num_inbound_streams := Z.min (num_inbound_streams i) (a_my_max_num_inbound_streams a) |>
    <| a_my_max_num_outbound_streams := Z.min (num_outbound_streams i) (a_my_max_num_outbound_streams a) |>
    <| a_peer_verification_tag := init_tag i |>
    <| a_source_port := destination_port h |>
    <| a_destination_port := source_port h |>
    <| a_peer_last_tsn := prev_tsn (initial_tsn i) |>
    <| a_rwnd := init_rwnd i |>
    <| a_ssthresh := init_rwnd i |> in
  if announces_forward_tsn (params i) then a <| a_use_forward_tsn := true |> else a.

(** [random_cookie] is what [ParamStateCookie::new] draws when there is no cookie yet. *)
Definition ensure_cookie (random_cookie : bytes) (a : Association) : Association :=
  match a_my_cookie a with None => a <| a_my_cookie := Some random_cookie |> | Some _ => a end.

Definition init_ack_chunk (a : Association) : ChunkInit :=
  let init_ack := my_init true a in
  let init_ack :=
    match a_my_cookie a with
    | Some c => mkInit (is_ack init_ack) (init_tag init_ack) (init_rwnd init_ack) (num_outbound_streams init_ack)
                  (num_inbound_streams init_ack) (initial_tsn init_ack) [ParamStateCookie c]
    | None => init_ack
    end in
  set_supported_extensions init_ack.

Definition handle_init (random_cookie : bytes) (p : Packet) (i : ChunkInit) : sm Association (list Packet) := λ a,
  if negb (bool_decide (a_state a = Closed)) && negb (bool_decide (a_state a = CookieWait)) &&
     negb (bool_decide (a_state a = CookieEchoed))
  then (Err ErrHandleInitState, a)
  else
    let a := ensure_cookie random_cookie (adopt_init (pkt_header p) i a) in
    (Ok [create_packet a [CInit (init_ack_chunk a)]], a).

(** What an INIT-ACK sets before the ports are compared, and after. *)
Definition adopt_init_ack (i : ChunkInit) (a : Association) : Association :=
  a <| a_my_max_num_inbound_streams := Z.min (num_inbound_streams i) (a_my_max_num_inbound_streams a) |>
    <| a_my_max_num_outbound_streams := Z.min (num_outbound_streams i) (a_my_max_num_outbound_streams a) |>
    <| a_peer_verification_tag := init_tag i |>
    <| a_peer_last_tsn := prev_tsn (initial_tsn i) |>.

Definition leave_cookie_wait (i : ChunkInit) (a : Association) : Association :=
  let a := a <| a_rwnd := init_rwnd i |> <| a_ssthresh := init_rwnd i |> in
  let a := stop_timer T1Init a <| a_stored_init := None |> in
  if announces_forward_tsn (params i) then a <| a_use_forward_tsn := true |> else a.

Definition handle_init_ack (p : Packet) (i : ChunkInit) (now : Z) : sm Association (list Packet) := λ a,
  if negb (bool_decide (a_state a = CookieWait)) then (Ok [], a)
  else
    let a := adopt_init_ack i a in
    if negb (a_source_port a =? destination_port (pkt_header p)) || negb (a_destination_port a =? source_port (pkt_header p))
    then (Ok [], a)
    else
      let a := leave_cookie_wait i a in
      match find_cookie (params i) with
      | Some v =>
          (do! _ <- smodify (λ a, a <| a_stored_cookie_echo := Some (mkCookieEcho v) |>);
           do! _ <- send_cookie_echo;
           do! _ <- smodify (λ a, set_state CookieEchoed (start_timer T1Cookie now a));
           sret []) a
      | None => (Err ErrInitAckNoCookie, a)
      end.

Definition handle_heartbeat (c : ChunkHeartbeat) : sm Association (list Packet) := λ a,
  match hb_params c with
  | ParamHeartbeatInfo i :: _ => (Ok [create_packet a [CHeartbeatAck (mkHeartbeatAck [ParamHeartbeatInfo i])]], a)
  | _ => (Ok [], a)
  end.

Definition establish (a : Association) : Association :=
  set_state Established (add_event Connected a) <| a_handshake_completed := true |>.

Definition handle_cookie_echo (c : ChunkCookieEcho) : sm Association (list Packet) := λ a,
  match a_my_cookie a with
  | None => (Ok [], a)
  | Some my_cookie =>
      let ack a := (Ok [create_packet a [CCookieAck]], a) in
      match a_state a with
      | Established => if bool_decide (my_cookie = cookie c) then ack a else (Ok [], a)
      | Closed | CookieWait | CookieEchoed =>
          if bool_decide (my_cookie = cookie c) then
            let a := stop_timer T1Init a <| a_stored_init := None |> in
            let a := stop_timer T1Cookie a <| a_stored_cookie_echo := None |> in
            ack (establish a)
          else (Ok [], a)
      | _ => (Ok [], a)
      end
  end.

Definition handle_cookie_ack : sm Association (list Packet) := λ a,
  if negb (bool_decide (a_state a = CookieEchoed)) then (Ok [], a)
  else (Ok [], establish (stop_timer T1Cookie a <| a_stored_cookie_echo := None |>)).

(** * Stream reset (RFC 6525) *)

(** The streams of a reset request, one by one: which of them are reset in return. *)
Definition reset_streams (respond : bool) (ids : list Z) (a : Association) : list Z * Association :=
  foldl (λ '(sis, a) id,
    if bool_decide (is_Some (a_streams a !! id))
    then (if respond then sis ++ [id] else sis, unregister_stream id AReset a)
    else (sis, a)) ([], a) ids.

Definition reset_streams_if_any (p : ParamOutgoingResetRequest) (respond : bool) (reply : list Packet) (a : Association)
    : list Packet * Association :=
  let '(result, sis_to_reset, a) :=
    if sna32lte (sender_last_tsn p) (a_peer_last_tsn a) then
      let '(sis, a) := reset_streams respond (stream_identifiers p) a in
      (SuccessPerformed, sis, a <| a_reconfig_requests ::= delete (reconfig_request_sequence_number p) |>)
    else (InProgress, [], a) in
  let '(reply, a) :=
    match sis_to_reset with
    | [] => (reply, a)
    | _ =>
        let '(rsn, a) := generate_next_rsn a in
        let tsn := u32 (a_my_next_tsn a - 1) in
        let c := mkReconfig (Some (ParamReset (mkReset rsn (reconfig_request_sequence_number p) tsn sis_to_reset))) None in
        let a := a <| a_reconfigs ::= <[rsn := c]> |> in
        (reply ++ [create_packet a [CReconfig c]], a)
    end in
  (reply ++ [create_packet a [CReconfig
     (mkReconfig (Some (ParamReconfigResponse (reconfig_request_sequence_number p) result)) None)]], a).

Definition handle_reconfig_param (raw : Param) (reply : list Packet) : sm Association (list Packet) := λ a,
  match raw with
  | ParamReset p =>
      let a := a <| a_reconfig_requests ::= <[reconfig_request_sequence_number p := p]> |> in
      let '(reply, a) := reset_streams_if_any p true reply a in (Ok reply, a)
  | ParamReconfigResponse n _ =>
      let a := a <| a_reconfigs ::= delete n |> in
      (Ok reply, if bool_decide (a_reconfigs a = ∅) then stop_timer Reconfig a else a)
  | _ => (Err ErrParameterType, a)
  end.

Definition handle_reconfig (c : ChunkReconfig) : sm Association (list Packet) :=
  do! pp <- match param_a c with Some p => handle_reconfig_param p [] | None => sret [] end;
  match param_b c with Some p => handle_reconfig_param p pp | None => sret pp end.

(** * Receiving data *)

(** The loop that moves the cumulative TSN over the chunks that are there; every iteration
    takes a chunk out of the queue. *)
Fixpoint advance_peer_last_tsn (fuel : nat) (reply : list Packet) (a : Association) : list Packet * Association :=
  match fuel with
  | O => (reply, a)
  | S fuel =>
      let '(c, q) := pop (a_payload_queue a) (u32 (a_peer_last_tsn a + 1)) in
      let a := a <| a_payload_queue := q |> in
      match c with
      | Some _ =>
          let a := a <| a_peer_last_tsn := u32 (a_peer_last_tsn a + 1) |> in
          let rst_reqs := (map_to_list (a_reconfig_requests a)).*2 in
          let '(reply, a) := foldl (λ '(reply, a) r, reset_streams_if_any r false reply a) (reply, a) rst_reqs in
          advance_peer_last_tsn fuel reply a
      | None => (reply, a)
      end
  end.

Definition trigger_ack (sack_immediately : bool) (a : Association) : Association :=
  let has_packet_loss := negb (pq_is_empty (a_payload_queue a)) in
  if (negb (bool_decide (a_ack_state a = Immediate)) && negb sack_immediately && negb has_packet_loss &&
      bool_decide (a_ack_mode a = Normal)) || bool_decide (a_ack_mode a = AlwaysDelay)
  then if bool_decide (a_ack_state a = Idle) then a <| a_delayed_ack_triggered := true |>
       else a <| a_immediate_ack_triggered := true |>
  else a <| a_immediate_ack_triggered := true |>.

Definition handle_peer_last_tsn_and_acknowledgement (sack_immediately : bool) : sm Association (list Packet) := λ a,
  let '(reply, a) := advance_peer_last_tsn (S (length (sorted (a_payload_queue a)))) [] a in
  (Ok reply, trigger_ack sack_immediately a).

(** [now] is the clock the reassembly queue reads. *)
Definition handle_data (d : ChunkPayloadData) (now : Z) : sm Association (list Packet) := λ a,
  let a := a <| a_stats ::= inc_datas |> in
  let '(to_handle, a) :=
    if can_push (a_payload_queue a) d (a_peer_last_tsn a) then
      let a := get_or_create_stream (stream_identifier d) a in
      let store a := a <| a_payload_queue := snd (push (a_payload_queue a) d (a_peer_last_tsn a)) |> in
      if 0 <? get_my_receiver_window_credit a then (true, store a)
      else match get_last_tsn_received (a_payload_queue a) with
           | Some last_tsn => if sna32lt (tsn d) last_tsn then (true, store a) else (false, a)
           | None => (false, a)
           end
    else (false, a) in
  let to_stream : sm Association unit := λ a,
    if to_handle then
      match a_streams a !! stream_identifier d with
      | Some s =>
          let a := add_event DatagramReceived a in
          match stream_handle_data now s d with
          | Ok (complete, s) =>
              let a := a <| a_streams ::= <[stream_identifier d := s]> |> in
              (Ok tt, if complete && is_readable (ss_reassembly_queue s)
                      then add_event (EStream (Readable (ss_stream_identifier s))) a else a)
          | Err e => (Err e, a)
          | Panic => (Panic, a)
          end
      | None => (Ok tt, a)
      end
    else (Ok tt, a) in
  (do! _ <- to_stream; handle_peer_last_tsn_and_acknowledgement (immediate_sack d)) a.

Definition notify_readable (s : StreamState) (a : Association) : Association :=
  if is_readable (ss_reassembly_queue s) then add_event (EStream (Readable (ss_stream_identifier s))) a else a.

Definition handle_forward_tsn (c : ChunkForwardTsn) : sm Association (list Packet) := λ a,
  if negb (a_use_forward_tsn a) then
    (Ok [create_packet a [CError (mkError [mkErrorCause 0 []])]], a)
  else if sna32lte (new_cumulative_tsn c) (a_peer_last_tsn a) then
    (Ok [], stop_timer Ack (a <| a_ack_state := Immediate |>))
  else
    let '(q, t) := forward_loop (Z.to_nat (u32 (new_cumulative_tsn c - a_peer_last_tsn a))) (new_cumulative_tsn c)
                     (a_payload_queue a) (a_peer_last_tsn a) in
    let a := a <| a_payload_queue := q |> <| a_peer_last_tsn := t |> in
    let a := foldl (λ a f,
      match a_streams a !! fs_identifier f with
      | Some s => let s := handle_forward_tsn_for_ordered s (fs_sequence f) in
                  notify_readable s (a <| a_streams ::= <[fs_identifier f := s]> |>)
      | None => a
      end) a (streams c) in
    let a := foldl (λ a '(id, s),
      let s := handle_forward_tsn_for_unordered s (new_cumulative_tsn c) in
      notify_readable s (a <| a_streams ::= <[id := s]> |>)) a (map_to_list (a_streams a)) in
    handle_peer_last_tsn_and_acknowledgement false a.

(** * Shutting down *)

Definition handle_shutdown : sm Association (list Packet) := λ a,
  let send_ack a := set_state ShutdownAckSent (a <| a_will_send_shutdown_ack := true |>) in
  (Ok [],
   match a_state a with
   | Established => if negb (pq_is_empty (a_inflight_queue a)) then set_state ShutdownReceived a else send_ack a
   | ShutdownSent => send_ack a
   | _ => a
   end).

Definition handle_shutdown_ack : sm Association (list Packet) := λ a,
  (Ok [],
   match a_state a with
   | ShutdownSent | ShutdownAckSent => stop_timer T2Shutdown a <| a_will_send_shutdown_complete := true |>
   | _ => a
   end).

Definition handle_shutdown_complete : sm Association (list Packet) := λ a,
  (Ok [],
   match a_state a with
   | ShutdownAckSent => close AssociationClosed (stop_timer T2Shutdown a)
   | _ => a
   end).

(** * Acknowledgements *)

(** Bytes acknowledged per stream; the sums of buffer lengths stay far below the width of an
    [i64] and are not wrapped. *)
Definition add_acked (m : gmap Z Z) (id n : Z) : gmap Z Z := <[id := default 0 (m !! id) + n]> m.

(** A round trip measured with the chunk [c]. *)
Definition measure_rtt (c : ChunkPayloadData) (now : Z) (a : Association) : Association :=
  let a := a <| a_min_tsn2measure_rtt := a_my_next_tsn a |> in
  match SctpChunk.since c with
  | Some since => a <| a_rto_mgr ::= λ r, snd (set_new_rtt r (u64 (as_millis (duration_since now since)))) |>
  | None => a
  end.

(** A chunk that the cumulative TSN acknowledges. *)
Definition acknowledge (i : Z) (c : ChunkPayloadData) (now : Z) (acked_bytes : gmap Z Z) (a : Association)
    : gmap Z Z * Association :=
  let '(acked_bytes, a) :=
    if negb (acked c) then
      let a := if i =? u32 (a_cumulative_tsn_ack_point a + 1) then stop_timer T3RTX a else a in
      let acked_bytes := add_acked acked_bytes (stream_identifier c) (len (user_data c)) in
      (acked_bytes,
       if (nsent c =? 1) && sna32gte (tsn c) (a_min_tsn2measure_rtt a) then measure_rtt c now a else a)
    else (acked_bytes, a) in
  (acked_bytes,
   if a_in_fast_recovery a && (tsn c =? a_fast_recover_exit_point a) then a <| a_in_fast_recovery := false |> else a).

Fixpoint ack_loop (fuel : nat) (i cum now : Z) (acked_bytes : gmap Z Z) (a : Association) : res (gmap Z Z) * Association :=
  if sna32lte i cum then
    match fuel with
    | O => (Panic, a)
    | S fuel =>
        let '(c, q) := pop (a_inflight_queue a) i in
        let a := a <| a_inflight_queue := q |> in
        match c with
        | Some c =>
            let '(acked_bytes, a) := acknowledge i c now acked_bytes a in
            ack_loop fuel (u32 (i + 1)) cum now acked_bytes a
        | None => (Err ErrInflightQueueTsnPop, a)
        end
    end
  else (Ok acked_bytes, a).

(** The TSNs of the gap ack blocks, as offsets: [for i in g.start..=g.end]. *)
Definition gap_offsets (gs : list GapAckBlock) : list Z :=
  concat ((λ g, seqZ (gap_start g) (gap_end g - gap_start g + 1)) <$> gs).

Fixpoint sack_gap_loop (cum now : Z) (offsets : list Z) (acked_bytes : gmap Z Z) (htna : Z) (a : Association)
    : res (gmap Z Z * Z) * Association :=
  match offsets with
  | [] => (Ok (acked_bytes, htna), a)
  | i :: offsets =>
      let t := u32 (cum + i) in
      match pq_get (a_inflight_queue a) t with
      | Some c =>
          if acked c then sack_gap_loop cum now offsets acked_bytes htna a
          else
            let '(n_bytes_acked, q) := mark_as_acked (a_inflight_queue a) t in
            let a := a <| a_inflight_queue := q |> in
            let acked_bytes := add_acked acked_bytes (stream_identifier c) n_bytes_acked in
            let a := if nsent c =? 1 then measure_rtt c now a else a in
            sack_gap_loop cum now offsets acked_bytes (if sna32lt htna t then t else htna) a
      | None => (Err ErrTsnRequestNotExist, a)
      end
  end.

Definition process_selective_ack (d : ChunkSelectiveAck) (now : Z) : sm Association (gmap Z Z * Z) :=
  do! acked_bytes <- (λ a, ack_loop (inflight_fuel a) (u32 (a_cumulative_tsn_ack_point a + 1)) (cumulative_tsn_ack d) now ∅ a);
  sack_gap_loop (cumulative_tsn_ack d) now (gap_offsets (gap_ack_blocks d)) acked_bytes (cumulative_tsn_ack d).

Definition on_cumulative_tsn_ack_point_advanced (total_bytes_acked now : Z) (a : Association) : Association :=
  let a := if pq_is_empty (a_inflight_queue a) then stop_timer T3RTX a else restart_t3 now a in
  if a_cwnd a <=? a_ssthresh a then
    if negb (a_in_fast_recovery a) && negb (queue_len (a_pending_queue a) =? 0)
    then a <| a_cwnd := u32 (a_cwnd a + Z.min (u32 total_bytes_acked) (a_cwnd a)) |>
    else a
  else
    let a := a <| a_partial_bytes_acked := u32 (a_partial_bytes_acked a + u32 total_bytes_acked) |> in
    if (a_cwnd a <=? a_partial_bytes_acked a) && negb (queue_len (a_pending_queue a) =? 0)
    then a <| a_partial_bytes_acked := a_partial_bytes_acked a - a_cwnd a |>
           <| a_cwnd := u32 (a_cwnd a + a_mtu a) |>
    else a.

(** One more report that the chunk [c] with TSN [t] is missing. *)
Definition indicate_miss (htna t : Z) (c : ChunkPayloadData) (a : Association) : Association :=
  if negb (acked c) && negb (abandoned c) && (miss_indicator c <? 3) then
    let a := a <| a_inflight_queue ::= pq_alter (λ c, c <| miss_indicator ::= λ m, m + 1 |>) t |> in
    if (miss_indicator c + 1 =? 3) && negb (a_in_fast_recovery a) then
      let a := a <| a_in_fast_recovery := true |>
                 <| a_fast_recover_exit_point := htna |>
                 <| a_ssthresh := Z.max (a_cwnd a / 2) (u32 (4 * a_mtu a)) |> in
      a <| a_cwnd := a_ssthresh a |> <| a_partial_bytes_acked := 0 |> <| a_will_retransmit_fast := true |>
    else a
  else a.

Fixpoint miss_loop (fuel : nat) (t max_tsn htna : Z) (a : Association) : res unit * Association :=
  if sna32lt t max_tsn then
    match fuel with
    | O => (Panic, a)
    | S fuel =>
        match pq_get (a_inflight_queue a) t with
        | Some c => miss_loop fuel (u32 (t + 1)) max_tsn htna (indicate_miss htna t c a)
        | None => (Err ErrTsnRequestNotExist, a)
        end
    end
  else (Ok tt, a).

Definition process_fast_retransmission (cum_tsn_ack_point htna : Z) (cum_tsn_ack_point_advanced : bool)
    : sm Association unit :=
  do! _ <- (λ a,
    if negb (a_in_fast_recovery a) || cum_tsn_ack_point_advanced then
      let max_tsn := if negb (a_in_fast_recovery a) then htna
                     else u32 (cum_tsn_ack_point + u32 (pq_len (a_inflight_queue a)) + 1) in
      miss_loop (inflight_fuel a) (u32 (cum_tsn_ack_point + 1)) max_tsn htna a
    else (Ok tt, a));
  smodify (λ a, if a_in_fast_recovery a && cum_tsn_ack_point_advanced then a <| a_will_retransmit_fast := true |> else a).

Definition postprocess_sack (state : AssociationState) (now : Z) (a : Association) : Association :=
  if negb (pq_is_empty (a_inflight_queue a)) then restart_t3 now a
  else match state with
  | ShutdownPending => set_state ShutdownSent (a <| a_will_send_shutdown := true |>)
  | ShutdownReceived => set_state ShutdownAckSent (a <| a_will_send_shutdown_ack := true |>)
  | _ => a
  end.

(** * Partial reliability (RFC 3758) *)

Definition note_abandoned_for_forward_tsn (unord : bool) (si ssn : Z) (a : Association) : Association :=
  if unord then a
  else a <| a_fwd_tsn_stream_map ::= λ m,
    match m !! si with
    | Some cur => if sna16lt cur ssn then <[si := ssn]> m else m
    | None => <[si := ssn]> m
    end |>.

(** Step C2 of RFC 3758: over the chunks that are abandoned. *)
Fixpoint abandon_loop (fuel : nat) (i : Z) (a : Association) : Association :=
  match fuel with
  | O => a
  | S fuel =>
      match pq_get (a_inflight_queue a) i with
      | Some c =>
          if negb (abandoned c) then a
          else
            let a := a <| a_advanced_peer_tsn_ack_point := i |> in
            abandon_loop fuel (u32 (i + 1))
              (note_abandoned_for_forward_tsn (unordered c) (stream_identifier c) (stream_sequence_number c) a)
      | None => a
      end
  end.

Definition advance_peer_ack_point (a : Association) : Association :=
  abandon_loop (inflight_fuel a) (u32 (a_advanced_peer_tsn_ack_point a + 1)) a.

Definition check_partial_reliability_status (c : ChunkPayloadData) (now : Z) (use_forward_tsn : bool)
    (streams : gmap Z StreamState) : ChunkPayloadData :=
  if negb use_forward_tsn then c
  else if is_dcep (payload_type c) then c
  else match streams !! stream_identifier c with
  | Some s =>
      match ss_reliability_type s with
      | Rexmit => if ss_reliability_value s <=? nsent c then set_abandoned c true else c
      | Timed =>
          match SctpChunk.since c with
          | Some since =>
              if ss_reliability_value s <=? u32 (as_millis (duration_since now since)) then set_abandoned c true else c
          | None => c
          end
      | Reliable => c
      end
  | None => c
  end.

(** What a SACK releases for the streams: an event for every stream with bytes that were
    acknowledged, and the stream's own accounting. *)
Definition release_stream (a : Association) (e : Z * Z) : Association :=
  let '(si, n_bytes_acked) := e in
  let a := if 0 <? n_bytes_acked then add_event (EStream (BufferedAmountReleased si n_bytes_acked)) a else a in
  match a_streams a !! si with
  | Some s =>
      let '(low, s) := on_buffer_released s n_bytes_acked in
      let a := a <| a_streams ::= <[si := s]> |> in
      if low then add_event (EStream (BufferedAmountLow si)) a else a
  | None => a
  end.

Definition forward_tsn_on_sack (a : Association) : Association :=
  if a_use_forward_tsn a then
    let a := if sna32lt (a_advanced_peer_tsn_ack_point a) (a_cumulative_tsn_ack_point a)
             then a <| a_advanced_peer_tsn_ack_point := a_cumulative_tsn_ack_point a |> <| a_fwd_tsn_stream_map := ∅ |>
             else a in
    let a := advance_peer_ack_point a in
    if sna32gt (a_advanced_peer_tsn_ack_point a) (a_cumulative_tsn_ack_point a)
    then a <| a_will_send_forward_tsn := true |>
    else a <| a_fwd_tsn_stream_map := ∅ |>
  else a.

Definition handle_sack (d : ChunkSelectiveAck) (now : Z) : sm Association (list Packet) := λ a,
  let state := a_state a in
  if negb (bool_decide (state = Established)) && negb (bool_decide (state = ShutdownPending)) &&
     negb (bool_decide (state = ShutdownReceived))
  then (Ok [], a)
  else
    let a := a <| a_stats ::= inc_sacks |> in
    if sna32gt (a_cumulative_tsn_ack_point a) (cumulative_tsn_ack d) then (Ok [], a)
    else
      (do! (bytes_acked_per_stream, htna) <- process_selective_ack d now;
       let total_bytes_acked := map_fold (λ _ n t, t + n) 0 bytes_acked_per_stream in
       do! advanced <- (λ a,
         if sna32lt (a_cumulative_tsn_ack_point a) (cumulative_tsn_ack d)
         then (Ok true, on_cumulative_tsn_ack_point_advanced total_bytes_acked now
                          (a <| a_cumulative_tsn_ack_point := cumulative_tsn_ack d |>))
         else (Ok false, a));
       do! _ <- smodify (λ a, foldl release_stream a (map_to_list bytes_acked_per_stream));
       do! _ <- smodify (λ a,
         let bytes_outstanding := u32 (pq_n_bytes (a_inflight_queue a)) in
         a <| a_rwnd := if advertised_receiver_window_credit d <=? bytes_outstanding then 0
                        else advertised_receiver_window_credit d - bytes_outstanding |>);
       do! _ <- process_fast_retransmission (cumulative_tsn_ack d) htna advanced;
       do! _ <- smodify forward_tsn_on_sack;
       do! _ <- smodify (postprocess_sack state now);
       sret []) a.

(** * Sending *)

Definition move_pending_data_chunk_to_inflight_queue (beginning unord : bool) (now : Z) (a : Association)
    : option ChunkPayloadData * Association :=
  let '(c, q) := pending_pop (a_pending_queue a) beginning unord in
  let a := a <| a_pending_queue := q |> in
  match c with
  | Some c =>
      let c := if ending_fragment c then set_all_inflight c else c in
      let '(t, a) := generate_next_tsn a in
      let c := c <| tsn := t |> <| SctpChunk.since := Some now |> <| nsent := 1 |> in
      let c := check_partial_reliability_status c now (a_use_forward_tsn a) (a_streams a) in
      (Some c, a <| a_inflight_queue ::= λ q, push_no_check q c |>)
  | None => (None, a)
  end.

(** The loop over the pending queue.  A chunk without data asks for a stream reset.  When
    [pop] finds nothing after [peek] found a chunk, the loop does not end on a chunk without
    data: the model runs out of fuel. *)
Fixpoint pending_loop (fuel : nat) (now : Z) (chunks : list ChunkPayloadData) (sis_to_reset : list Z) (a : Association)
    : res (list ChunkPayloadData * list Z) * Association :=
  match peek (a_pending_queue a) with
  | None => (Ok (chunks, sis_to_reset), a)
  | Some c =>
      match fuel with
      | O => (Panic, a)
      | S fuel =>
          let data_len := len (user_data c) in
          if data_len =? 0 then
            pending_loop fuel now chunks (sis_to_reset ++ [stream_identifier c])
              (a <| a_pending_queue := snd (pending_pop (a_pending_queue a) (beginning_fragment c) (unordered c)) |>)
          else if a_cwnd a <? pq_n_bytes (a_inflight_queue a) + data_len then (Ok (chunks, sis_to_reset), a)
          else if a_rwnd a <? data_len then (Ok (chunks, sis_to_reset), a)
          else
            let a := a <| a_rwnd := a_rwnd a - u32 data_len |> in
            let '(chunk, a) := move_pending_data_chunk_to_inflight_queue (beginning_fragment c) (unordered c) now a in
            pending_loop fuel now (chunks ++ match chunk with Some c => [c] | None => [] end) sis_to_reset a
      end
  end.

Definition pending_fuel (a : Association) : nat :=
  S (length (unordered_queue (a_pending_queue a)) + length (ordered_queue (a_pending_queue a))).

Definition pop_pending_data_chunks_to_send (now : Z) : sm Association (list ChunkPayloadData * list Z) := λ a,
  if queue_len (a_pending_queue a) =? 0 then (Ok ([], []), a)
  else
    (do! (chunks, sis_to_reset) <- (λ a, pending_loop (pending_fuel a) now [] [] a);
     λ a,
       if bool_decide (chunks = []) && pq_is_empty (a_inflight_queue a) then
         match peek (a_pending_queue a) with
         | Some c =>
             let '(chunk, a) := move_pending_data_chunk_to_inflight_queue (beginning_fragment c) (unordered c) now a in
             (Ok (match chunk with Some c => [c] | None => [] end, sis_to_reset), a)
         | None => (Ok (chunks, sis_to_reset), a)
         end
       else (Ok (chunks, sis_to_reset), a)) a.

(** Where the bundles end: the pairs of indices of [bundle_data_chunks_into_packets]. *)
Fixpoint bundle_loop (mtu : Z) (i : Z) (lens : list Z) (bundle_start bytes_in_packet : Z) : list (Z * Z) :=
  match lens with
  | [] => [(bundle_start, i)]
  | data_len :: lens =>
      if (mtu <? u32 (bytes_in_packet + data_len)) && (bundle_start <? i)
      then (bundle_start, i) :: bundle_loop mtu (i + 1) lens i (u32 (COMMON_HEADER_SIZE + (DATA_CHUNK_HEADER_SIZE + data_len)))
      else bundle_loop mtu (i + 1) lens bundle_start (u32 (bytes_in_packet + (DATA_CHUNK_HEADER_SIZE + data_len)))
  end.

Definition bundles (mtu : Z) (chunks : list ChunkPayloadData) : list (Z * Z) :=
  bundle_loop mtu 0 ((λ c, u32 (len (user_data c))) <$> chunks) 0 COMMON_HEADER_SIZE.

Section Outbound.
Context {BC : BytesCrate} {CRC : Crc32c}.

(** [if let Ok(raw) = p.marshal() { raw_packets.push(raw) }] *)
Definition push_packet (p : Packet) (raw_packets : list bytes) : res (list bytes) :=
  match packet_marshal p with
  | Ok raw => Ok (raw_packets ++ [raw])
  | Err _ => Ok raw_packets
  | Panic => Panic
  end.

Fixpoint push_packets (ps : list Packet) (raw_packets : list bytes) : res (list bytes) :=
  match ps with
  | [] => Ok raw_packets
  | p :: ps => let! raw_packets := push_packet p raw_packets in push_packets ps raw_packets
  end.

(** The second pass: each bundle is written into the buffer and split off. *)
Fixpoint write_bundles (h : CommonHeader) (chunks : list ChunkPayloadData) (bs : list (Z * Z)) (raw_packets : list bytes)
    : res (list bytes) :=
  match bs with
  | [] => Ok raw_packets
  | (start, stop) :: bs =>
      let! part := slice chunks start stop in
      match write_framed h (CData <$> part) [] with
      | Ok (_, buf) => write_bundles h chunks bs (raw_packets ++ [buf])
      | Err _ => write_bundles h chunks bs raw_packets
      | Panic => Panic
      end
  end.

Definition bundle_data_chunks_into_packets (chunks : list ChunkPayloadData) (raw_packets : list bytes) (a : Association)
    : res (list bytes) :=
  if bool_decide (chunks = []) then Ok raw_packets
  else write_bundles (assoc_header a) chunks (bundles (a_mtu a) chunks) raw_packets.

Definition gather_outbound_data_and_reconfig_packets (raw_packets : list bytes) (now : Z) : sm Association (list bytes) :=
  do! (chunks, sis_to_reset) <- pop_pending_data_chunks_to_send now;
  do! raw_packets <- (λ a,
    if bool_decide (chunks = []) then (Ok raw_packets, a)
    else let a := restart_t3 now a in (bundle_data_chunks_into_packets chunks raw_packets a, a));
  λ a,
    if negb (bool_decide (sis_to_reset = [])) || a_will_retransmit_reconfig a then
      (do! raw_packets <- (λ a,
         if a_will_retransmit_reconfig a then
           let a := a <| a_will_retransmit_reconfig := false |> in
           (push_packets ((λ c, create_packet a [CReconfig c]) <$> (map_to_list (a_reconfigs a)).*2) raw_packets, a)
         else (Ok raw_packets, a));
       do! raw_packets <- (λ a,
         match sis_to_reset with
         | [] => (Ok raw_packets, a)
         | _ =>
             let '(rsn, a) := generate_next_rsn a in
             let tsn := u32 (a_my_next_tsn a - 1) in
             let c := mkReconfig (Some (ParamReset (mkReset rsn 0 tsn sis_to_reset))) None in
             let a := a <| a_reconfigs ::= <[rsn := c]> |> in
             (push_packet (create_packet a [CReconfig c]) raw_packets, a)
         end);
       λ a, (Ok raw_packets, if bool_decide (a_reconfigs a = ∅) then a else start_timer Reconfig now a)) a
    else (Ok raw_packets, a).

(** [i], the sizes and the chunks that were chosen, over the consecutive TSNs in flight. *)
Fixpoint fast_retrans_loop (fuel : nat) (now i fast_retrans_size : Z) (to_fast_retrans : list ChunkPayloadData)
    (a : Association) : list ChunkPayloadData * Association :=
  match fuel with
  | O => (to_fast_retrans, a)
  | S fuel =>
      let t := u32 (a_cumulative_tsn_ack_point a + i + 1) in
      match pq_get (a_inflight_queue a) t with
      | Some c =>
          if acked c || abandoned c || (1 <? nsent c) || (miss_indicator c <? 3)
          then fast_retrans_loop fuel now (i + 1) fast_retrans_size to_fast_retrans a
          else
            let data_chunk_size := DATA_CHUNK_HEADER_SIZE + u32 (len (user_data c)) in
            if a_mtu a <? u32 (fast_retrans_size + data_chunk_size) then (to_fast_retrans, a)
            else
              let c := check_partial_reliability_status (c <| nsent ::= λ n, u32 (n + 1) |>) now
                         (a_use_forward_tsn a) (a_streams a) in
              let a := a <| a_stats ::= inc_fast_retrans |> <| a_inflight_queue ::= pq_alter (λ _, c) t |> in
              fast_retrans_loop fuel now (i + 1) (u32 (fast_retrans_size + data_chunk_size)) (to_fast_retrans ++ [c]) a
      | None => (to_fast_retrans, a)
      end
  end.

Definition gather_outbound_fast_retransmission_packets (raw_packets : list bytes) (now : Z) : sm Association (list bytes) := λ a,
  if a_will_retransmit_fast a then
    let a := a <| a_will_retransmit_fast := false |> in
    let '(cs, a) := fast_retrans_loop (inflight_fuel a) now 0 COMMON_HEADER_SIZE [] a in
    match cs with
    | [] => (Ok raw_packets, a)
    | _ => (push_packet (create_packet a (CData <$> cs)) raw_packets, a)
    end
  else (Ok raw_packets, a).

Definition create_selective_ack_chunk (a : Association) : ChunkSelectiveAck * Association :=
  let '(dups, q) := pop_duplicates (a_payload_queue a) in
  (mkSack (a_peer_last_tsn a) (get_my_receiver_window_credit a) (get_gap_ack_blocks (a_payload_queue a) (a_peer_last_tsn a)) dups,
   a <| a_payload_queue := q |>).

Definition gather_outbound_sack_packets (raw_packets : list bytes) : sm Association (list bytes) := λ a,
  if decide (a_ack_state a = Immediate) then
    let '(sack, a) := create_selective_ack_chunk (a <| a_ack_state := Idle |>) in
    (push_packet (create_packet a [CSack sack]) raw_packets, a)
  else (Ok raw_packets, a).

Definition create_forward_tsn (a : Association) : ChunkForwardTsn :=
  mkFwd (a_advanced_peer_tsn_ack_point a) ((λ '(si, ssn), mkFwdStream si ssn) <$> map_to_list (a_fwd_tsn_stream_map a)).

Definition gather_outbound_forward_tsn_packets (raw_packets : list bytes) : sm Association (list bytes) := λ a,
  if a_will_send_forward_tsn a then
    let a := a <| a_will_send_forward_tsn := false |> in
    if sna32gt (a_advanced_peer_tsn_ack_point a) (a_cumulative_tsn_ack_point a)
    then (push_packet (create_packet a [CForwardTsn (create_forward_tsn a)]) raw_packets, a)
    else (Ok raw_packets, a)
  else (Ok raw_packets, a).

(** These chunks are always written; T2 starts with the packet. *)
Definition gather_outbound_shutdown_packets (raw_packets : list bytes) (now : Z) : sm Association (list bytes * bool) := λ a,
  let send (c : AnyChunk) (timer ok : bool) (a : Association) :=
    match packet_marshal (create_packet a [c]) with
    | Ok raw => (Ok (raw_packets ++ [raw], ok), if timer then start_timer T2Shutdown now a else a)
    | Err _ => (Ok (raw_packets, true), a)
    | Panic => (Panic, a)
    end in
  if a_will_send_shutdown a then
    send (CShutdown (mkShutdown (a_cumulative_tsn_ack_point a))) true true (a <| a_will_send_shutdown := false |>)
  else if a_will_send_shutdown_ack a then
    send CShutdownAck true true (a <| a_will_send_shutdown_ack := false |>)
  else if a_will_send_shutdown_complete a then
    send CShutdownComplete false false (a <| a_will_send_shutdown_complete := false |>)
  else (Ok (raw_packets, true), a).

(** The scan of the chunks flagged by T3-rtx: the chunks to send again and whether flagged
    chunks are left. *)
Fixpoint retransmit_loop (fuel : nat) (now awnd i bytes_to_send : Z) (chunks : list ChunkPayloadData) (a : Association)
    : list ChunkPayloadData * bool * Association :=
  match fuel with
  | O => (chunks, false, a)
  | S fuel =>
      let t := u32 (a_cumulative_tsn_ack_point a + i + 1) in
      match pq_get (a_inflight_queue a) t with
      | Some c =>
          if negb (retransmit c) then retransmit_loop fuel now awnd (i + 1) bytes_to_send chunks a
          else
            let probe := (i =? 0) && (a_rwnd a <? u32 (len (user_data c))) in
            if negb probe && (awnd <? bytes_to_send + len (user_data c)) then (chunks, true, a)
            else
              let c := check_partial_reliability_status (c <| retransmit := false |> <| nsent ::= λ n, u32 (n + 1) |>) now
                         (a_use_forward_tsn a) (a_streams a) in
              let a := a <| a_inflight_queue ::= pq_alter (λ _, c) t |> in
              if probe then (chunks ++ [c], true, a)
              else retransmit_loop fuel now awnd (i + 1) (bytes_to_send + len (user_data c)) (chunks ++ [c]) a
      | None => (chunks, false, a)
      end
  end.

Definition get_data_packets_to_retransmit (now : Z) (raw_packets : list bytes) : sm Association (list bytes) := λ a,
  let awnd := Z.min (a_cwnd a) (a_rwnd a) in
  let '(chunks, chunks_remaining, a) := retransmit_loop (inflight_fuel a) now awnd 0 0 [] a in
  let a := a <| a_t3_retransmit_pending := chunks_remaining |> in
  (bundle_data_chunks_into_packets chunks raw_packets a, a).

Definition gather_data_packets_to_retransmit (raw_packets : list bytes) (now : Z) : sm Association (list bytes) := λ a,
  if a_t3_retransmit_pending a then get_data_packets_to_retransmit now raw_packets a else (Ok raw_packets, a).

Definition gather_outbound (now : Z) : sm Association (list bytes * bool) :=
  do! raw_packets <- (λ a, (push_packets (a_control_queue a) [], a <| a_control_queue := [] |>));
  do! state <- sgets a_state;
  match state with
  | Established =>
      do! raw_packets <- gather_data_packets_to_retransmit raw_packets now;
      do! raw_packets <- gather_outbound_data_and_reconfig_packets raw_packets now;
      do! raw_packets <- gather_outbound_fast_retransmission_packets raw_packets now;
      do! raw_packets <- gather_outbound_sack_packets raw_packets;
      do! raw_packets <- gather_outbound_forward_tsn_packets raw_packets;
      sret (raw_packets, true)
  | ShutdownPending | ShutdownSent | ShutdownReceived =>
      do! raw_packets <- gather_data_packets_to_retransmit raw_packets now;
      do! raw_packets <- gather_outbound_fast_retransmission_packets raw_packets now;
      do! raw_packets <- gather_outbound_sack_packets raw_packets;
      gather_outbound_shutdown_packets raw_packets now
  | ShutdownAckSent => gather_outbound_shutdown_packets raw_packets now
  | _ => sret (raw_packets, true)
  end.

(** The datagrams of [poll_transmit]; the flag of [gather_outbound] is dropped there. *)
Definition poll_transmit (now : Z) : sm Association (option (list bytes)) :=
  do! (contents, _) <- gather_outbound now;
  sret (if bool_decide (contents = []) then None else Some contents).

End Outbound.

(** * Inbound packets *)

Definition handle_chunk_start (a : Association) : Association :=
  a <| a_delayed_ack_triggered := false |> <| a_immediate_ack_triggered := false |>.

Definition handle_chunk_end (now : Z) (a : Association) : Association :=
  if a_immediate_ack_triggered a then stop_timer Ack (a <| a_ack_state := Immediate |>)
  else if a_delayed_ack_triggered a then
    let a := a <| a_ack_state := Delay |> in
    a <| a_timers ::= λ tt, timer_start tt Ack now ACK_INTERVAL |>
  else a.

Definition USER_INITIATED_ABORT : Z := 12.

Definition handle_chunk_body (random_cookie : bytes) (p : Packet) (chunk : AnyChunk) (now : Z) : sm Association (list Packet) :=
  match chunk with
  | CInit c => if is_ack c then handle_init_ack p c now else handle_init random_cookie p c
  | CAbort c => λ a,
      if existsb (λ e, code e =? USER_INITIATED_ABORT) (abort_causes c) then (Ok [], close AReset a)
      else (Err ErrAbortChunk, a)
  | CError _ => λ a, (Err ErrAbortChunk, a)
  | CHeartbeat c => handle_heartbeat c
  | CCookieEcho c => handle_cookie_echo c
  | CCookieAck => handle_cookie_ack
  | CData c => handle_data c now
  | CSack c => handle_sack c now
  | CReconfig c => handle_reconfig c
  | CForwardTsn c => handle_forward_tsn c
  | CShutdown _ => handle_shutdown
  | CShutdownAck => handle_shutdown_ack
  | CShutdownComplete => handle_shutdown_complete
  | CHeartbeatAck _ => λ a, (Err ErrChunkTypeUnhandled, a)
  end.

Definition handle_chunk (random_cookie : bytes) (p : Packet) (chunk : AnyChunk) (now : Z) : sm Association unit :=
  do! _ <- slift (any_check chunk);
  do! packets <- handle_chunk_body random_cookie p chunk now;
  smodify (λ a, a <| a_control_queue ::= λ q, q ++ packets |>).

Fixpoint handle_chunks (random_cookie : bytes) (p : Packet) (cs : list AnyChunk) (now : Z) : sm Association unit :=
  match cs with
  | [] => sret tt
  | c :: cs => do! _ <- handle_chunk random_cookie p c now; handle_chunks random_cookie p cs now
  end.

Definition handle_inbound (random_cookie : bytes) (p : Packet) (now : Z) : sm Association unit := λ a,
  match check_packet p with
  | Ok _ =>
      (do! _ <- smodify handle_chunk_start;
       do! _ <- handle_chunks random_cookie p (pkt_chunks p) now;
       smodify (handle_chunk_end now)) a
  | Err _ => (Ok tt, a)
  | Panic => (Panic, a)
  end.

(** [handle_event] with a datagram the endpoint decoded: packets that do not parse are
    dropped, and an error while handling one closes the association. *)
Definition handle_event `{BytesCrate} (random_cookie : bytes) (pd : PartialDecode) (now : Z) (a : Association)
    : res Association :=
  match finish pd with
  | Ok p =>
      match handle_inbound random_cookie p now a with
      | (Ok _, a) => Ok a
      | (Err _, a) => Ok (close TransportError a)
      | (Panic, _) => Panic
      end
  | Err _ => Ok a
  | Panic => Panic
  end.

(** * Timeouts *)

Definition on_ack_timeout (a : Association) : Association :=
  a <| a_stats ::= inc_ack_timeouts |> <| a_ack_state := Immediate |>.

Definition on_retransmission_timeout (t : Timer) (a : Association) : Association :=
  match t with
  | T1Init => snd (send_init a)
  | T1Cookie => snd (send_cookie_echo a)
  | T2Shutdown =>
      match a_state a with
      | ShutdownSent => a <| a_will_send_shutdown := true |>
      | ShutdownAckSent => a <| a_will_send_shutdown_ack := true |>
      | _ => a
      end
  | T3RTX =>
      let a := a <| a_stats ::= inc_t3timeouts |> in
      let a := a <| a_ssthresh := Z.max (a_cwnd a / 2) (u32 (4 * a_mtu a)) |> <| a_cwnd := a_mtu a |> in
      let a :=
        if a_use_forward_tsn a then
          let a := advance_peer_ack_point a in
          if sna32gt (a_advanced_peer_tsn_ack_point a) (a_cumulative_tsn_ack_point a)
          then a <| a_will_send_forward_tsn := true |> else a
        else a in
      a <| a_inflight_queue ::= mark_all_to_retrasmit |> <| a_t3_retransmit_pending := true |>
  | Reconfig => a <| a_will_retransmit_reconfig := true |>
  | Ack => a
  end.

Definition on_retransmission_failure (t : Timer) (a : Association) : Association :=
  match t with
  | T1Init => a <| a_error := Some (HandshakeFailed ErrHandshakeInitAck) |>
  | T1Cookie => a <| a_error := Some (HandshakeFailed ErrHandshakeCookieEcho) |>
  | _ => a
  end.

Definition handle_timer (now : Z) (a : Association) (t : Timer) : Association :=
  let '(expired, failure, _, table) := is_expired (a_timers a) t now in
  let a := a <| a_timers := table |> in
  if negb expired then a
  else
    let a := a <| a_timers ::= λ tt, timer_set tt t None |> in
    if decide (t = Ack) then on_ack_timeout a
    else if failure then on_retransmission_failure t a
    else start_timer t now (on_retransmission_timeout t a).

Definition handle_timeout (now : Z) (a : Association) : Association := foldl (handle_timer now) a TIMER_VALUES.

Definition poll (a : Association) : option Event * Association :=
  match a_events a with
  | e :: es => (Some e, a <| a_events := es |>)
  | [] =>
      match a_error a with
      | Some err => (Some (EHandshakeFailed err), a <| a_error := None |>)
      | None => (None, a)
      end
  end.

Definition poll_endpoint_event (a : Association) : option EndpointEventInner * Association :=
  match a_endpoint_events a with
  | e :: es => (Some e, a <| a_endpoint_events := es |>)
  | [] => (None, a)
  end.

Definition poll_timeout (a : Association) : option Z := next_timeout (a_timers a).

(** * The calls of a stream *)

Definition send_payload_data (chunks : list ChunkPayloadData) : sm Association unit := λ a,
  if decide (a_state a = Established)
  then (Ok tt, a <| a_pending_queue ::= λ q, foldl pending_push q chunks |>)
  else (Err ErrPayloadDataStateNotExist, a).

Definition reset_chunk (id : Z) : ChunkPayloadData :=
  mkData false true true false 0 id 0 Unknown [] false 0 None 0 false false false.

Definition send_reset_request (id : Z) : sm Association unit := λ a,
  if decide (a_state a = Established)
  then (Ok tt, a <| a_pending_queue ::= λ q, pending_push q (reset_chunk id) |>)
  else (Err ErrResetPacketInStateNotExist, a).

Definition stream_is_readable (id : Z) (a : Association) : bool :=
  match a_streams a !! id with
  | Some s => match ss_state s with StreamReadable | StreamReadWritable => true | _ => false end
  | None => false
  end.

Definition stream_is_writable (id : Z) (a : Association) : bool :=
  match a_streams a !! id with
  | Some s => match ss_state s with StreamWritable | StreamReadWritable => true | _ => false end
  | None => false
  end.

Definition stream_read (id : Z) : sm Association (option Chunks) := λ a,
  match a_streams a !! id with
  | Some s =>
      if stream_is_readable id a then
        match rq_read (ss_reassembly_queue s) with
        | Ok (c, q) => (Ok c, a <| a_streams ::= <[id := s <| ss_reassembly_queue := q |>]> |>)
        | Err e => (Err e, a)
        | Panic => (Panic, a)
        end
      else (Err ErrStreamClosed, a)
  | None => (Err ErrStreamClosed, a)
  end.

(** [write_source] with one buffer, as [write_sctp], [write], [write_with_ppi] and the
    [write_chunk]s call it: [pop_chunk] then returns the whole buffer. *)
Definition stream_write (id : Z) (p : bytes) (ppi : PayloadProtocolIdentifier) : sm Association Z := λ a,
  if negb (stream_is_writable id a) then (Err ErrStreamClosed, a)
  else if a_max_message_size a <? len p then (Err ErrOutboundPacketTooLarge, a)
  else if is_drained (a_state a) then (Err ErrStreamClosed, a)
  else match a_streams a !! id with
  | Some s =>
      match packetize s p ppi with
      | Ok (is_buffered_amount_high, chunks, s) =>
          let a := a <| a_streams ::= <[id := s]> |> in
          let a := if is_buffered_amount_high then add_event (EStream (BufferedAmountHigh id)) a else a in
          (do! _ <- send_payload_data chunks; sret (len p)) a
      | Err e => (Err e, a)
      | Panic => (Panic, a)
      end
  | None => (Err ErrStreamClosed, a)
  end.

Definition stream_stop (id : Z) : sm Association unit := λ a,
  let reset := stream_is_readable id a in
  let a := match a_streams a !! id with
           | Some s => a <| a_streams ::= <[id := s <| ss_state := recv_send_from (Z.land (recv_send_u8 (ss_state s)) 2) |>]> |>
           | None => a
           end in
  if reset then send_reset_request id a else (Ok tt, a).

Definition stream_finish (id : Z) (a : Association) : Association :=
  match a_streams a !! id with
  | Some s => a <| a_streams ::= <[id := s <| ss_state := recv_send_from (Z.land (recv_send_u8 (ss_state s)) 1) |>]> |>
  | None => a
  end.

Definition stream_close (id : Z) : sm Association unit := λ a, stream_stop id (stream_finish id a).

Definition set_reliability_params (id : Z) (unord : bool) (rel_type : ReliabilityType) (rel_val : Z) : sm Association unit := λ a,
  match a_streams a !! id with
  | Some s =>
      (Ok tt, a <| a_streams ::= <[id := s <| ss_unordered := unord |> <| ss_reliability_type := rel_type |>
                                          <| ss_reliability_value := rel_val |>]> |>)
  | None => (Err ErrStreamClosed, a)
  end.
