(* ===== verification/SctpHandshake.v ===== *)
(** The handshake of two SCTP associations, over the operations of [SctpAssoc]: it completes
    on a path that delivers, and whatever the path loses, repeats or reorders, an established
    client agrees with a server that is established too. *)

From S2P Require Import Prelude SctpChunk SctpQueue SctpReassembly SctpParam SctpPacket SctpTimer SctpStream SctpAssoc.

(** * Datagrams *)

Section Wire.
Context {BC : BytesCrate} {CRC : Crc32c} {CL : Crc32cLaws}.

(** A datagram on its way to an association: the endpoint takes it apart and hands it on. *)
Definition deliver (random_cookie : bytes) (raw : bytes) (now : Z) (a : Association) : res Association :=
  let! pd := partial_unmarshal raw in handle_event random_cookie pd now a.

Lemma finish_partial raw pd : partial_unmarshal raw = Ok pd → finish pd = packet_unmarshal raw.
Proof.
  intros E. destruct (partial_inv raw pd E) as (Hl & Hr & ->). unfold finish. rewrite Hr.
  unfold PACKET_HEADER_SIZE in *. rewrite (read_chunks_drop _ (length raw) raw 12 0); [done|lia|lia|..].
  - rewrite length_drop. unfold len in *. lia.
  - unfold len in *. lia.
Qed.

Lemma deliver_packet cookie p c now a a' :
  common_ok (pkt_header p) → pkt_chunks p = [c] → any_ok c → any_received c = c →
  handle_inbound cookie p now a = (Ok tt, a') → deliver cookie (packet_bytes p) now a = Ok a'.
Proof.
  intros Hh Hc Hok Hr E. assert (Forall any_ok [c]) as Hall by (by repeat constructor).
  destruct (partial_read p c [] Hh Hc Hall) as (pd & Hpd & _). unfold deliver. rewrite Hpd. cbn [rbind].
  unfold handle_event. rewrite (finish_partial _ _ Hpd), packet_read by (done || by rewrite Hc).
  rewrite Hc. csimpl. rewrite Hr, <- Hc. replace (mkPacket (pkt_header p) (pkt_chunks p)) with p by (by destruct p). by rewrite E.
Qed.

Lemma push_packets_one p : Forall any_ok (pkt_chunks p) → push_packets [p] [] = Ok [packet_bytes p].
Proof. intros H. cbn [push_packets]. unfold push_packet. by rewrite packet_marshal_eq. Qed.

(** Nothing but what the control queue holds is due. *)
Definition quiet (a : Association) : Prop :=
  a_t3_retransmit_pending a = false ∧ queue_len (a_pending_queue a) = 0 ∧ a_will_retransmit_reconfig a = false ∧
  a_will_retransmit_fast a = false ∧ a_ack_state a = Idle ∧ a_will_send_forward_tsn a = false.

Lemma poll_control p now a :
  a_control_queue a = [p] → Forall any_ok (pkt_chunks p) → quiet a →
  a_state a ∈ [Closed; CookieWait; CookieEchoed; Established] →
  poll_transmit now a = (Ok (Some [packet_bytes p]), a <| a_control_queue := [] |>).
Proof.
  intros Hc Hp (H1 & H2 & H3 & H4 & H5 & H6) Hs. unfold poll_transmit, gather_outbound, sbind, sgets. rewrite Hc, push_packets_one by done.
  record_simpl. set (a' := a <| a_control_queue := [] |>).
  assert (gather_data_packets_to_retransmit [packet_bytes p] now a' = (Ok [packet_bytes p], a')) as E1.
  { unfold gather_data_packets_to_retransmit. by change (a_t3_retransmit_pending a') with (a_t3_retransmit_pending a); rewrite H1. }
  assert (gather_outbound_data_and_reconfig_packets [packet_bytes p] now a' = (Ok [packet_bytes p], a')) as E2.
  { clear E1. unfold gather_outbound_data_and_reconfig_packets, sbind, pop_pending_data_chunks_to_send.
    change (a_pending_queue a') with (a_pending_queue a). rewrite H2. cbn [Z.eqb]. rewrite !bool_decide_eq_true_2 by done. cbn iota.
    change (a_will_retransmit_reconfig a') with (a_will_retransmit_reconfig a). by rewrite H3. }
  assert (gather_outbound_fast_retransmission_packets [packet_bytes p] now a' = (Ok [packet_bytes p], a')) as E3.
  { unfold gather_outbound_fast_retransmission_packets. by change (a_will_retransmit_fast a') with (a_will_retransmit_fast a); rewrite H4. }
  assert (gather_outbound_sack_packets [packet_bytes p] a' = (Ok [packet_bytes p], a')) as E4.
  { unfold gather_outbound_sack_packets. by change (a_ack_state a') with (a_ack_state a); rewrite H5. }
  assert (gather_outbound_forward_tsn_packets [packet_bytes p] a' = (Ok [packet_bytes p], a')) as E5.
  { unfold gather_outbound_forward_tsn_packets. by change (a_will_send_forward_tsn a') with (a_will_send_forward_tsn a); rewrite H6. }
  rewrite !elem_of_cons in Hs.
  destruct (a_state a); try (destruct Hs as [Hs|[Hs|[Hs|[Hs|Hs%elem_of_nil]]]]; discriminate || done).
  by rewrite E1, E2, E3, E4, E5.
Qed.

End Wire.

(** * What the handshake is about

    The fields of an association that the handshake reads and writes. *)

Record HView := mkHView {
  v_state : AssociationState;
  v_control : list Packet;
  v_my_tag : Z;
  v_peer_tag : Z;
  v_my_tsn : Z;
  v_peer_last : Z;
  v_buf : Z;
  v_rwnd : Z;
  v_ins : Z;
  v_outs : Z;
  v_sport : Z;
  v_dport : Z;
  v_cookie : option bytes;
  v_init : option ChunkInit;
  v_echo : option ChunkCookieEcho;
  v_fwd : bool
}.

Definition hview (a : Association) : HView :=
  mkHView (a_state a) (a_control_queue a) (a_my_verification_tag a) (a_peer_verification_tag a) (a_my_next_tsn a)
    (a_peer_last_tsn a) (a_max_receive_buffer_size a) (a_rwnd a) (a_my_max_num_inbound_streams a)
    (a_my_max_num_outbound_streams a) (a_source_port a) (a_destination_port a) (a_my_cookie a) (a_stored_init a)
    (a_stored_cookie_echo a) (a_use_forward_tsn a).

Definition hview_eta (v : HView) : HView :=
  mkHView (v_state v) (v_control v) (v_my_tag v) (v_peer_tag v) (v_my_tsn v) (v_peer_last v) (v_buf v) (v_rwnd v) (v_ins v) (v_outs v) (v_sport v) (v_dport v) (v_cookie v) (v_init v) (v_echo v) (v_fwd v).

#[export] Instance set_v_state : Setter v_state.
Proof. make_setter hview_eta v_state. Defined.
#[export] Instance set_v_control : Setter v_control.
Proof. make_setter hview_eta v_control. Defined.
#[export] Instance set_v_my_tag : Setter v_my_tag.
Proof. make_setter hview_eta v_my_tag. Defined.
#[export] Instance set_v_peer_tag : Setter v_peer_tag.
Proof. make_setter hview_eta v_peer_tag. Defined.
#[export] Instance set_v_my_tsn : Setter v_my_tsn.
Proof. make_setter hview_eta v_my_tsn. Defined.
#[export] Instance set_v_peer_last : Setter v_peer_last.
Proof. make_setter hview_eta v_peer_last. Defined.
#[export] Instance set_v_buf : Setter v_buf.
Proof. make_setter hview_eta v_buf. Defined.
#[export] Instance set_v_rwnd : Setter v_rwnd.
Proof. make_setter hview_eta v_rwnd. Defined.
#[export] Instance set_v_ins : Setter v_ins.
Proof. make_setter hview_eta v_ins. Defined.
#[export] Instance set_v_outs : Setter v_outs.
Proof. make_setter hview_eta v_outs. Defined.
#[export] Instance set_v_sport : Setter v_sport.
Proof. make_setter hview_eta v_sport. Defined.
#[export] Instance set_v_dport : Setter v_dport.
Proof. make_setter hview_eta v_dport. Defined.
#[export] Instance set_v_cookie : Setter v_cookie.
Proof. make_setter hview_eta v_cookie. Defined.
#[export] Instance set_v_init : Setter v_init.
Proof. make_setter hview_eta v_init. Defined.
#[export] Instance set_v_echo : Setter v_echo.
Proof. make_setter hview_eta v_echo. Defined.
#[export] Instance set_v_fwd : Setter v_fwd.
Proof. make_setter hview_eta v_fwd. Defined.

(** The view of an updated association is the updated view. *)
Create Rewrite HintDb hview.
Lemma hview_state a f : hview (a <| a_state ::= f |>) = (hview a) <| v_state ::= f |>.
Proof. reflexivity. Qed.
Lemma hview_control a f : hview (a <| a_control_queue ::= f |>) = (hview a) <| v_control ::= f |>.
Proof. reflexivity. Qed.
Lemma hview_my_tag a f : hview (a <| a_my_verification_tag ::= f |>) = (hview a) <| v_my_tag ::= f |>.
Proof. reflexivity. Qed.
Lemma hview_peer_tag a f : hview (a <| a_peer_verification_tag ::= f |>) = (hview a) <| v_peer_tag ::= f |>.
Proof. reflexivity. Qed.
Lemma hview_my_tsn a f : hview (a <| a_my_next_tsn ::= f |>) = (hview a) <| v_my_tsn ::= f |>.
Proof. reflexivity. Qed.
Lemma hview_peer_last a f : hview (a <| a_peer_last_tsn ::= f |>) = (hview a) <| v_peer_last ::= f |>.
Proof. reflexivity. Qed.
Lemma hview_buf a f : hview (a <| a_max_receive_buffer_size ::= f |>) = (hview a) <| v_buf ::= f |>.
Proof. reflexivity. Qed.
Lemma hview_rwnd a f : hview (a <| a_rwnd ::= f |>) = (hview a) <| v_rwnd ::= f |>.
Proof. reflexivity. Qed.
Lemma hview_ins a f : hview (a <| a_my_max_num_inbound_streams ::= f |>) = (hview a) <| v_ins ::= f |>.
Proof. reflexivity. Qed.
Lemma hview_outs a f : hview (a <| a_my_max_num_outbound_streams ::= f |>) = (hview a) <| v_outs ::= f |>.
Proof. reflexivity. Qed.
Lemma hview_sport a f : hview (a <| a_source_port ::= f |>) = (hview a) <| v_sport ::= f |>.
Proof. reflexivity. Qed.
Lemma hview_dport a f : hview (a <| a_destination_port ::= f |>) = (hview a) <| v_dport ::= f |>.
Proof. reflexivity. Qed.
Lemma hview_cookie a f : hview (a <| a_my_cookie ::= f |>) = (hview a) <| v_cookie ::= f |>.
Proof. reflexivity. Qed.
Lemma hview_init a f : hview (a <| a_stored_init ::= f |>) = (hview a) <| v_init ::= f |>.
Proof. reflexivity. Qed.
Lemma hview_echo a f : hview (a <| a_stored_cookie_echo ::= f |>) = (hview a) <| v_echo ::= f |>.
Proof. reflexivity. Qed.
Lemma hview_fwd a f : hview (a <| a_use_forward_tsn ::= f |>) = (hview a) <| v_fwd ::= f |>.
Proof. reflexivity. Qed.
Lemma hview_timers a f : hview (a <| a_timers ::= f |>) = hview a.
Proof. reflexivity. Qed.
Lemma hview_ssthresh a f : hview (a <| a_ssthresh ::= f |>) = hview a.
Proof. reflexivity. Qed.
Lemma hview_stop t a : hview (stop_timer t a) = hview a.
Proof. reflexivity. Qed.
Lemma hview_start t now a : hview (start_timer t now a) = hview a.
Proof. reflexivity. Qed.
Lemma hview_set_state s a : hview (set_state s a) = (hview a) <| v_state := s |>.
Proof. reflexivity. Qed.
Lemma hview_chunk_start a : hview (handle_chunk_start a) = hview a.
Proof. reflexivity. Qed.
Lemma hview_queue p a : hview (queue_control p a) = (hview a) <| v_control ::= λ q, q ++ [p] |>.
Proof. reflexivity. Qed.
Lemma hview_establish a : hview (establish a) = (hview a) <| v_state := Established |>.
Proof. reflexivity. Qed.
#[export] Hint Rewrite hview_state hview_control hview_my_tag hview_peer_tag hview_my_tsn hview_peer_last hview_buf hview_rwnd hview_ins hview_outs hview_sport hview_dport hview_cookie hview_init hview_echo hview_fwd
  hview_timers hview_ssthresh hview_stop hview_start hview_set_state hview_chunk_start hview_queue hview_establish : hview.

Lemma ins_view a : a_my_max_num_inbound_streams a = v_ins (hview a).
Proof. reflexivity. Qed.
Lemma outs_view a : a_my_max_num_outbound_streams a = v_outs (hview a).
Proof. reflexivity. Qed.

(** What a peer tells about itself in its INIT or INIT-ACK, and the cookie it hands out. *)
Record Ident := mkIdent { i_tag : Z; i_tsn : Z; i_buf : Z; i_ins : Z; i_outs : Z; i_cookie : bytes }.

Definition extensions : list Param := [ParamSupportedExtensions [CT_RECONFIG; CT_FORWARD_TSN]].

Definition init_of (i : Ident) : ChunkInit := mkInit false (i_tag i) (i_buf i) (i_outs i) (i_ins i) (i_tsn i) extensions.
Definition init_ack_of (i : Ident) : ChunkInit :=
  mkInit true (i_tag i) (i_buf i) (i_outs i) (i_ins i) (i_tsn i) (ParamStateCookie (i_cookie i) :: extensions).

Definition port_header (tag : Z) : CommonHeader := mkCommon 5000 5000 tag.
Definition init_packet_of (c : Ident) : Packet := mkPacket (port_header 0) [CInit (init_of c)].
Definition init_ack_packet (c s : Ident) : Packet := mkPacket (port_header (i_tag c)) [CInit (init_ack_of s)].
Definition echo_packet (s : Ident) : Packet := mkPacket (port_header (i_tag s)) [CCookieEcho (mkCookieEcho (i_cookie s))].
Definition ack_packet (c : Ident) : Packet := mkPacket (port_header (i_tag c)) [CCookieAck].

(** Values an INIT may carry. *)
Definition ident_ok (i : Ident) : Prop :=
  i_tag i ≠ 0 ∧ fits 32 (i_tag i) ∧ fits 32 (i_tsn i) ∧ 1500 <= i_buf i < 2 ^ 32 ∧ 0 < i_ins i < 2 ^ 16 ∧
  0 < i_outs i < 2 ^ 16 ∧ len (i_cookie i) < 60000.

(** [c] waits for an INIT-ACK, with these packets to send. *)
Definition waiting (c : Ident) (ctl : list Packet) : HView :=
  mkHView CookieWait ctl (i_tag c) 0 (i_tsn c) 0 (i_buf c) 0 (i_ins c) (i_outs c) 5000 5000 None (Some (init_of c)) None false.

(** [c] took an INIT-ACK of [s]. *)
Definition bound (st : AssociationState) (c s : Ident) (ctl : list Packet) (echo : option ChunkCookieEcho) : HView :=
  mkHView st ctl (i_tag c) (i_tag s) (i_tsn c) (prev_tsn (i_tsn s)) (i_buf c) (i_buf s) (Z.min (i_ins s) (i_ins c))
    (Z.min (i_outs s) (i_outs c)) 5000 5000 None None echo true.

(** [s] took an INIT of [c]; it answers with its limits lowered to those of the INIT. *)
Definition listening (st : AssociationState) (c s : Ident) (ctl : list Packet) : HView :=
  mkHView st ctl (i_tag s) (i_tag c) (i_tsn s) (prev_tsn (i_tsn c)) (i_buf s) (i_buf c) (i_ins s) (i_outs s) 5000 5000
    (Some (i_cookie s)) None None true.

(** ** The handlers *)

Ltac hstep := unfold handle_chunk, handle_chunk_body, sbind, slift, smodify, sret; cbn [any_check].

Lemma inbound_one k p c now a a1 ps :
  check_packet p = Ok tt → pkt_chunks p = [c] → any_check c = Ok tt →
  handle_chunk_body k p c now (handle_chunk_start a) = (Ok ps, a1) →
  a_delayed_ack_triggered a1 = false → a_immediate_ack_triggered a1 = false →
  handle_inbound k p now a = (Ok tt, a1 <| a_control_queue ::= λ q, q ++ ps |>).
Proof.
  intros Hp Hc Hk E Hd Hi. unfold handle_inbound. rewrite Hp, Hc. cbn [handle_chunks].
  unfold sbind, smodify, handle_chunk, slift, sret, sbind, smodify. rewrite Hk, E.
  unfold handle_chunk_end. record_simpl. by rewrite Hd, Hi.
Qed.

Lemma init_check_ok b i ps : ident_ok i → init_check (mkInit b (i_tag i) (i_buf i) (i_outs i) (i_ins i) (i_tsn i) ps) = Ok tt.
Proof.
  intros (H1 & _ & _ & H2 & H3 & H4 & _). unfold init_check. cbn [init_tag init_rwnd num_inbound_streams num_outbound_streams].
  by rewrite !(proj2 (Z.eqb_neq _ 0)), (proj2 (Z.ltb_ge _ _)) by lia.
Qed.

Lemma prev_tsn_eq t : fits 32 t → prev_tsn t = u32 (t - 1).
Proof.
  unfold prev_tsn, wrap, fits. intros H. destruct (Z.eqb_spec t 0) as [->|]; [done|]. rewrite Z.mod_small; [done|lia].
Qed.

(** The fields behind an equation on the view. *)
Ltac view_fields H :=
  unfold hview, waiting, bound, listening in H;
  injection H as ?Hst ?Hctl ?Hmt ?Hpt ?Htsn ?Hpl ?Hbuf ?Hrw ?Hin ?Hout ?Hsp ?Hdp ?Hck ?Hini ?Hec ?Hfw.

(** The view of an updated association whose view [H] gives. *)
Ltac view_eq H := rewrite ?ins_view, ?outs_view; autorewrite with hview; rewrite H; reflexivity.

Lemma client_new cfg mps tag rnd now a :
  assoc_new false cfg mps tag rnd now = Ok a →
  let c := mkIdent tag (if rnd =? 0 then 1 else rnd) (cfg_max_receive_buffer_size cfg) (cfg_max_num_inbound_streams cfg)
             (cfg_max_num_outbound_streams cfg) [] in
  hview a = waiting c [init_packet_of c] ∧ quiet a.
Proof.
  unfold assoc_new, assert_. destruct (_ <=? _); [|done]. intros [= <-]. done.
Qed.

(** A server that has not seen an INIT. *)
Definition fresh (s : Ident) : HView :=
  mkHView Closed [] (i_tag s) 0 (i_tsn s) 0 (i_buf s) 0 (i_ins s) (i_outs s) 0 0 None None None false.

Lemma server_new cfg mps tag rnd now b :
  assoc_new true cfg mps tag rnd now = Ok b →
  hview b = fresh (mkIdent tag (if rnd =? 0 then 1 else rnd) (cfg_max_receive_buffer_size cfg)
                     (cfg_max_num_inbound_streams cfg) (cfg_max_num_outbound_streams cfg) []) ∧ quiet b.
Proof. unfold assoc_new, assert_. destruct (_ <=? _); [|done]. intros [= <-]. done. Qed.

(** What a server makes of its limits when an INIT arrives. *)
Definition accepted (c s : Ident) (k : bytes) : Ident :=
  mkIdent (i_tag s) (i_tsn s) (i_buf s) (Z.min (i_ins c) (i_ins s)) (Z.min (i_outs c) (i_outs s)) k.

Lemma init_ack_chunk_view a s :
  v_my_tag (hview a) = i_tag s → v_buf (hview a) = i_buf s → v_outs (hview a) = i_outs s → v_ins (hview a) = i_ins s →
  v_my_tsn (hview a) = i_tsn s → v_cookie (hview a) = Some (i_cookie s) → init_ack_chunk a = init_ack_of s.
Proof. cbn. intros H1 H2 H3 H4 H5 H6. unfold init_ack_chunk, my_init. rewrite H6, H1, H2, H3, H4, H5. done. Qed.

Lemma adopt_init_view c s b :
  hview b = fresh s →
  hview (adopt_init (port_header 0) (init_of c) b) =
    let s' := accepted c s [] in
    mkHView Closed [] (i_tag s) (i_tag c) (i_tsn s) (prev_tsn (i_tsn c)) (i_buf s) (i_buf c) (i_ins s') (i_outs s') 5000 5000
      None None None true.
Proof.
  intros H. unfold adopt_init. change (announces_forward_tsn (params (init_of c))) with true. cbn iota. cbv zeta.
  view_eq H.
Qed.

Lemma server_init c s b k now :
  hview b = fresh s → ident_ok c →
  ∃ b', handle_inbound k (init_packet_of c) now b = (Ok tt, b') ∧
        hview b' = listening Closed c (accepted c s k) [init_ack_packet c (accepted c s k)] ∧ (quiet b → quiet b').
Proof.
  intros H Hc. pose (b1 := adopt_init (port_header 0) (init_of c) (handle_chunk_start b)).
  pose proof (adopt_init_view c s (handle_chunk_start b) H) as H1. fold b1 in H1.
  assert (a_my_cookie b1 = None) as Hck by (by injection H1).
  assert (ensure_cookie k b1 = b1 <| a_my_cookie := Some k |>) as Hek by (unfold ensure_cookie; by rewrite Hck).
  pose (b2 := b1 <| a_my_cookie := Some k |>).
  assert (hview b2 = listening Closed c (accepted c s k) []) as H2.
  { unfold b2. view_eq H1. }
  exists (b2 <| a_control_queue ::= λ q, q ++ [init_ack_packet c (accepted c s k)] |>). split_and!.
  - apply (inbound_one _ _ (CInit (init_of c))); [done|done|by apply init_check_ok| |done|done].
    cbn [handle_chunk_body is_ack init_of]. unfold handle_init. change (a_state (handle_chunk_start b)) with (v_state (hview b)).
    rewrite H. cbn [v_state fresh]. rewrite bool_decide_eq_true_2 by done. cbn [negb andb pkt_header init_packet_of].
    fold (init_of c). fold b1. rewrite Hek. fold b2. f_equal. f_equal. f_equal. clearbody b2. clear Hek Hck H1 b1. unfold create_packet.
    rewrite (init_ack_chunk_view b2 (accepted c s k)) by (by rewrite H2). view_fields H2. unfold assoc_header. cbn in *.
    rewrite Hpt, Hsp, Hdp. done.
  - view_eq H2.
  - done.
Qed.

Lemma client_init_ack c s a ctl k now :
  hview a = waiting c ctl → ident_ok s →
  ∃ a', handle_inbound k (init_ack_packet c s) now a = (Ok tt, a') ∧
        hview a' = bound CookieEchoed c s (ctl ++ [echo_packet s]) (Some (mkCookieEcho (i_cookie s))) ∧ (quiet a → quiet a').
Proof.
  intros H Hs. pose (a1 := leave_cookie_wait (init_ack_of s) (adopt_init_ack (init_ack_of s) (handle_chunk_start a))).
  pose (a2 := a1 <| a_stored_cookie_echo := Some (mkCookieEcho (i_cookie s)) |>).
  assert (hview a2 = bound CookieWait c s ctl (Some (mkCookieEcho (i_cookie s)))) as H2.
  { unfold a2, a1, leave_cookie_wait. change (announces_forward_tsn (params (init_ack_of s))) with true. cbn iota. cbv zeta.
    unfold adopt_init_ack. view_eq H. }
  exists ((set_state CookieEchoed (start_timer T1Cookie now (queue_control (echo_packet s) a2))) <| a_control_queue ::= λ q, q ++ [] |>). split_and!.
  - apply (inbound_one _ _ (CInit (init_ack_of s))); [done|done|by apply init_check_ok| |done|done].
    cbn [handle_chunk_body is_ack init_ack_of]. fold (init_ack_of s). unfold handle_init_ack.
    assert (a_state (handle_chunk_start a) = CookieWait) as -> by (change (v_state (hview a) = CookieWait); by rewrite H).
    rewrite bool_decide_eq_true_2 by done. cbn [negb].
    change (a_source_port (adopt_init_ack (init_ack_of s) (handle_chunk_start a))) with (v_sport (hview a)).
    change (a_destination_port (adopt_init_ack (init_ack_of s) (handle_chunk_start a))) with (v_dport (hview a)).
    rewrite H. cbn [v_sport v_dport waiting pkt_header init_ack_packet port_header destination_port source_port].
    rewrite !Z.eqb_refl. cbn [negb orb]. fold a1. change (find_cookie (params (init_ack_of s))) with (Some (i_cookie s)). cbn iota.
    unfold sbind, smodify, sret. fold a2. unfold send_cookie_echo.
    change (a_stored_cookie_echo a2) with (Some (mkCookieEcho (i_cookie s))). cbn iota.
    assert (create_packet a2 [CCookieEcho (mkCookieEcho (i_cookie s))] = echo_packet s) as ->; [|done].
    clearbody a2. view_fields H2. unfold create_packet, assoc_header, echo_packet, port_header. congruence.
  - rewrite <- (app_nil_r (ctl ++ _)). view_eq H2.
  - done.
Qed.

Lemma client_init_ack_ignored c s a st ctl e k now :
  hview a = bound st c s ctl e → st ≠ CookieWait → ∀ s', ident_ok s' →
  ∃ a', handle_inbound k (init_ack_packet c s') now a = (Ok tt, a') ∧ hview a' = hview a.
Proof.
  intros H Hst s' Hs. exists ((handle_chunk_start a) <| a_control_queue ::= λ q, q ++ [] |>). split.
  - apply (inbound_one _ _ (CInit (init_ack_of s'))); [done|done|by apply init_check_ok| |done|done].
    cbn [handle_chunk_body is_ack init_ack_of]. unfold handle_init_ack.
    assert (a_state (handle_chunk_start a) = st) as -> by (change (v_state (hview a) = st); by rewrite H).
    by rewrite bool_decide_eq_false_2.
  - autorewrite with hview. rewrite H. unfold bound. rewrite <- (app_nil_r ctl) at 2. reflexivity.
Qed.

Lemma server_echo c s b st ctl k now :
  hview b = listening st c s ctl → st = Closed ∨ st = Established →
  ∃ b', handle_inbound k (echo_packet s) now b = (Ok tt, b') ∧
        hview b' = listening Established c s (ctl ++ [ack_packet c]) ∧ (quiet b → quiet b').
Proof.
  intros H Hst. pose (b0 := handle_chunk_start b). assert (hview b0 = listening st c s ctl) as H0 by exact H.
  assert (a_my_cookie b0 = Some (i_cookie s)) as Hck by (change (v_cookie (hview b0) = Some (i_cookie s)); by rewrite H0).
  assert (a_state b0 = st) as Es by (change (v_state (hview b0) = st); by rewrite H0).
  assert (∀ b', hview b' = listening Established c s ctl → create_packet b' [CCookieAck] = ack_packet c) as Hack.
  { intros b' H'. unfold create_packet, assoc_header, ack_packet, port_header.
    change (a_source_port b') with (v_sport (hview b')). change (a_destination_port b') with (v_dport (hview b')).
    change (a_peer_verification_tag b') with (v_peer_tag (hview b')). by rewrite H'. }
  pose (b1 := if decide (st = Established) then b0 else
    establish ((stop_timer T1Cookie ((stop_timer T1Init b0) <| a_stored_init := None |>)) <| a_stored_cookie_echo := None |>)).
  assert (hview b1 = listening Established c s ctl) as H1.
  { unfold b1. destruct Hst as [->| ->]; cbn [decide assoc_state_eq_dec]; [|done]. rewrite decide_False by done. view_eq H0. }
  exists (b1 <| a_control_queue ::= λ q, q ++ [ack_packet c] |>). split_and!.
  - apply (inbound_one _ _ (CCookieEcho (mkCookieEcho (i_cookie s)))); [|done|done| |unfold b1; by destruct (decide _)..].
    { done. }
    cbn [handle_chunk_body]. unfold handle_cookie_echo. fold b0. rewrite Hck, Es. cbn [cookie].
    rewrite (bool_decide_eq_true_2 (i_cookie s = i_cookie s)) by done.
    destruct Hst as [->| ->].
    + rewrite <- (Hack b1 H1). unfold b1. by rewrite decide_False by done.
    + rewrite <- (Hack b1 H1). unfold b1. by rewrite decide_True by done.
  - view_eq H1.
  - unfold b1. intros Hq. by destruct (decide _).
Qed.

Lemma client_cookie_ack c a k now :
  (∀ ctl, hview a = waiting c ctl → ∃ a', handle_inbound k (ack_packet c) now a = (Ok tt, a') ∧ hview a' = hview a) ∧
  (∀ s ctl e, hview a = bound CookieEchoed c s ctl e →
     ∃ a', handle_inbound k (ack_packet c) now a = (Ok tt, a') ∧ hview a' = bound Established c s ctl None ∧ (quiet a → quiet a')) ∧
  (∀ s ctl e, hview a = bound Established c s ctl e → ∃ a', handle_inbound k (ack_packet c) now a = (Ok tt, a') ∧ hview a' = hview a).
Proof.
  assert (∀ st, a_state a = st → st ≠ CookieEchoed →
    ∃ a', handle_inbound k (ack_packet c) now a = (Ok tt, a') ∧ hview a' = hview a) as Hign.
  { intros st Hs Hn. exists ((handle_chunk_start a) <| a_control_queue ::= λ q, q ++ [] |>). split.
    - apply (inbound_one _ _ CCookieAck); [done|done|done| |done|done]. cbn [handle_chunk_body]. unfold handle_cookie_ack.
      change (a_state (handle_chunk_start a)) with (a_state a). rewrite Hs. by rewrite bool_decide_eq_false_2.
    - autorewrite with hview. unfold set, set_v_control, hview. cbn. by rewrite app_nil_r. }
  split_and!.
  - intros ctl H. apply (Hign CookieWait); [|done]. change (v_state (hview a) = CookieWait). by rewrite H.
  - intros s ctl e H. exists ((establish ((stop_timer T1Cookie (handle_chunk_start a)) <| a_stored_cookie_echo := None |>))
      <| a_control_queue ::= λ q, q ++ [] |>). split_and!.
    + apply (inbound_one _ _ CCookieAck); [done|done|done| |done|done]. cbn [handle_chunk_body]. unfold handle_cookie_ack.
      assert (a_state (handle_chunk_start a) = CookieEchoed) as -> by (change (v_state (hview a) = CookieEchoed); by rewrite H).
      by rewrite bool_decide_eq_true_2.
    + rewrite <- (app_nil_r ctl). view_eq H.
    + done.
  - intros s ctl e H. apply (Hign Established); [|done]. change (v_state (hview a) = Established). by rewrite H.
Qed.

(** ** Agreement *)

(** Both ends are established and each knows of the other what the other is. *)
Record agreed (a b : Association) : Prop := {
  ag_state : a_state a = Established ∧ a_state b = Established;
  ag_tags : a_peer_verification_tag a = a_my_verification_tag b ∧ a_peer_verification_tag b = a_my_verification_tag a;
  ag_tsns : a_peer_last_tsn a = prev_tsn (a_my_next_tsn b) ∧ a_peer_last_tsn b = prev_tsn (a_my_next_tsn a);
  ag_windows : a_rwnd a = a_max_receive_buffer_size b ∧ a_rwnd b = a_max_receive_buffer_size a;
  ag_ports : a_source_port a = a_destination_port b ∧ a_destination_port a = a_source_port b;
  ag_streams : a_my_max_num_inbound_streams a = a_my_max_num_inbound_streams b ∧
               a_my_max_num_outbound_streams a = a_my_max_num_outbound_streams b;
  ag_forward : a_use_forward_tsn a = true ∧ a_use_forward_tsn b = true
}.

Lemma agreed_views a b c s ctl ctl' e :
  hview a = bound Established c s ctl e → hview b = listening Established c s ctl' →
  i_ins s <= i_ins c → i_outs s <= i_outs c → agreed a b.
Proof.
  intros Ha Hb Hi Ho. view_fields Ha. view_fields Hb. split; split; congruence || lia.
Qed.

Section Liveness.
Context {BC : BytesCrate} {CRC : Crc32c} {CL : Crc32cLaws}.

Lemma extensions_ok : Forall param_ok extensions ∧ last_not_empty extensions.
Proof.
  split; [repeat constructor; vm_compute; intuition congruence|]. intros p [= <-]. by vm_compute.
Qed.

Lemma init_of_ok c : ident_ok c → any_ok (CInit (init_of c)) ∧ any_ok (CInit (init_ack_of c)).
Proof.
  intros (H0 & H1 & H2 & H3 & H4 & H5 & H6). destruct extensions_ok as [He Hl].
  assert (fits 32 (i_buf c) ∧ fits 16 (i_outs c) ∧ fits 16 (i_ins c)) as (? & ? & ?) by (unfold fits; lia).
  split; cbn [any_ok]; unfold init_ok; cbn [init_tag init_rwnd num_outbound_streams num_inbound_streams initial_tsn params init_of init_ack_of];
    split_and!; try done.
  - constructor; [|done]. split; [cbn; lia|done].
  - unfold init_value_length. cbn [params init_ack_of]. unfold extensions. cbn [params_length param_value_length].
    rewrite bool_decide_eq_false_2, bool_decide_eq_true_2 by done.
    pose proof (padding_bounds (PARAM_HEADER_LENGTH + len (i_cookie c))). unfold PARAM_HEADER_LENGTH in *.
    change (len [CT_RECONFIG; CT_FORWARD_TSN]) with 2. lia.
Qed.

Lemma port_header_ok t : fits 32 t → common_ok (port_header t).
Proof. intros. by split_and!. Qed.
End Liveness.

(** C12: on a path that delivers, the handshake completes: the client's INIT, the server's
    INIT-ACK, the client's COOKIE-ECHO and the server's COOKIE-ACK, each written to a
    datagram by [poll_transmit] and taken apart by the other end, leave both ends
    established, and they agree on the tags, the first TSNs, the windows, the stream limits
    and FORWARD-TSN. *)
Theorem handshake_completes `{BytesCrate} `{Crc32cLaws} cfgC cfgS mpsC mpsS tagC tagS tsnC tsnS k now a0 b0 :
  assoc_new false cfgC mpsC tagC tsnC now = Ok a0 → assoc_new true cfgS mpsS tagS tsnS now = Ok b0 →
  ident_ok (mkIdent tagC tsnC (cfg_max_receive_buffer_size cfgC) (cfg_max_num_inbound_streams cfgC)
              (cfg_max_num_outbound_streams cfgC) []) →
  ident_ok (mkIdent tagS tsnS (cfg_max_receive_buffer_size cfgS) (cfg_max_num_inbound_streams cfgS)
              (cfg_max_num_outbound_streams cfgS) k) →
  0 < tsnC → 0 < tsnS →
  ∃ init a1 b1 init_ack b2 a2 echo a3 b3 ack b4 a4,
    poll_transmit now a0 = (Ok (Some [init]), a1) ∧ deliver k init now b0 = Ok b1 ∧
    poll_transmit now b1 = (Ok (Some [init_ack]), b2) ∧ deliver k init_ack now a1 = Ok a2 ∧
    poll_transmit now a2 = (Ok (Some [echo]), a3) ∧ deliver k echo now b2 = Ok b3 ∧
    poll_transmit now b3 = (Ok (Some [ack]), b4) ∧ deliver k ack now a3 = Ok a4 ∧ agreed a4 b4.
Proof.
  intros Ea Eb Hc Hs HtC HtS. destruct (client_new _ _ _ _ _ _ Ea) as [Va Qa]. destruct (server_new _ _ _ _ _ _ Eb) as [Vb Qb].
  rewrite (proj2 (Z.eqb_neq tsnC 0)) in Va by lia. rewrite (proj2 (Z.eqb_neq tsnS 0)) in Vb by lia.
  set (c := mkIdent tagC _ _ _ _ _) in *. set (s0 := mkIdent tagS tsnS _ _ _ []) in *. set (s := accepted c s0 k).
  assert (ident_ok s) as Hs'.
  { destruct Hs as (? & ? & ? & ? & ? & ? & ?). destruct Hc as (_ & _ & _ & _ & ? & ? & _).
    unfold s, accepted, ident_ok. cbn in *. split_and!; try done; lia. }
  destruct (init_of_ok c Hc) as [Oi _]. destruct (init_of_ok s Hs') as [_ Oa].
  assert (∀ x : Association, quiet x → quiet (x <| a_control_queue := [] |>)) as Hq by done.
  assert (∀ x v, hview x = v → hview (x <| a_control_queue := [] |>) = v <| v_control := [] |>) as Hv by (intros x v <-; done).
  assert (common_ok (port_header 0) ∧ common_ok (port_header tagC) ∧ common_ok (port_header tagS)) as (C0 & C1 & C2).
  { destruct Hc as (_ & ? & _), Hs as (_ & ? & _). split_and!; by apply port_header_ok. }
  assert (∀ x v, hview x = v → v_state v ∈ [Closed; CookieWait; CookieEchoed; Established] → a_state x ∈ [Closed; CookieWait; CookieEchoed; Established]) as Hst
    by (by intros x v <-).
  assert (∀ x v, hview x = v → a_control_queue x = v_control v) as Hctl by (by intros x v <-).
  (* INIT *)
  pose proof (poll_control (init_packet_of c) now a0 (Hctl _ _ Va) (proj2 (Forall_singleton _ _) Oi) Qa (Hst _ _ Va ltac:(set_solver))) as P1.
  destruct (server_init c s0 b0 k now Vb Hc) as (b1 & R1 & V1 & Q1). specialize (Q1 Qb). fold s in V1.
  pose proof (deliver_packet k (init_packet_of c) _ now _ _ C0 eq_refl Oi eq_refl R1) as D1.
  (* INIT-ACK *)
  pose proof (poll_control (init_ack_packet c s) now b1 (Hctl _ _ V1) (proj2 (Forall_singleton _ _) Oa) Q1 (Hst _ _ V1 ltac:(set_solver))) as P2.
  destruct (client_init_ack c s _ [] k now (Hv _ _ Va) Hs') as (a2 & R2 & V2 & Q2). specialize (Q2 (Hq _ Qa)).
  pose proof (deliver_packet k (init_ack_packet c s) _ now _ _ C1 eq_refl Oa eq_refl R2) as D2.
  (* COOKIE-ECHO *)
  assert (any_ok (CCookieEcho (mkCookieEcho (i_cookie s)))) as Oe by (destruct Hs' as (_ & _ & _ & _ & _ & _ & ?); cbn in *; lia).
  pose proof (poll_control (echo_packet s) now a2 (Hctl _ _ V2) (proj2 (Forall_singleton _ _) Oe) Q2 (Hst _ _ V2 ltac:(set_solver))) as P3.
  destruct (server_echo c s _ Closed [] k now (Hv _ _ V1)) as (b3 & R3 & V3 & Q3); [by left|]. specialize (Q3 (Hq _ Q1)).
  pose proof (deliver_packet k (echo_packet s) _ now _ _ C2 eq_refl Oe eq_refl R3) as D3.
  (* COOKIE-ACK *)
  pose proof (poll_control (ack_packet c) now b3 (Hctl _ _ V3) (proj2 (Forall_singleton any_ok CCookieAck) I) Q3 (Hst _ _ V3 ltac:(set_solver))) as P4.
  destruct (client_cookie_ack c (a2 <| a_control_queue := [] |>) k now) as (_ & R4 & _).
  destruct (R4 s [] _ (Hv _ _ V2)) as (a4 & E4 & V4 & _).
  pose proof (deliver_packet k (ack_packet c) _ now _ _ C1 (eq_refl : _ = [CCookieAck]) I eq_refl E4) as D4.
  eexists _, _, _, _, _, _, _, _, _, _, _, _. split_and!; [exact P1|exact D1|exact P2|exact D2|exact P3|exact D3|exact P4|exact D4|].
  apply (agreed_views _ _ c s [] [] None V4 (Hv _ _ V3)); unfold s, accepted; cbn; lia.
Qed.

(** * Any schedule

    A client, the servers that the other endpoint makes of its INITs, and the packets that
    were ever sent in either direction.  The path may deliver any of them at any time, any
    number of times or never; either end may poll for packets and be told the time whenever
    it likes.  Every INIT that reaches the other endpoint starts a new association there, as
    [Endpoint::handle] does, under a tag that is not in use; other packets go to the
    association whose tag they carry. *)

Record Sys := mkSys { cl : Association; srv : list Association; to_srv : list Packet; to_cl : list Packet }.

(** [handle_event] on a packet that parses. *)
Definition receive (k : bytes) (p : Packet) (now : Z) (a : Association) : option Association :=
  match handle_inbound k p now a with
  | (Ok _, a) => Some a
  | (Err _, a) => Some (close TransportError a)
  | (Panic, _) => None
  end.

Definition server_ident (cfg : TransportConfig) (tag tsn : Z) (k : bytes) : Ident :=
  mkIdent tag (if tsn =? 0 then 1 else tsn) (cfg_max_receive_buffer_size cfg) (cfg_max_num_inbound_streams cfg)
    (cfg_max_num_outbound_streams cfg) k.

Inductive step : Sys → Sys → Prop :=
| poll_client a S ts tc :
    step (mkSys a S ts tc) (mkSys (a <| a_control_queue := [] |>) S (ts ++ a_control_queue a) tc)
| poll_server a S ts tc j b :
    S !! j = Some b →
    step (mkSys a S ts tc) (mkSys a (<[j := b <| a_control_queue := [] |>]> S) ts (tc ++ a_control_queue b))
| timeout_client a S ts tc now : step (mkSys a S ts tc) (mkSys (handle_timeout now a) S ts tc)
| timeout_server a S ts tc j b now :
    S !! j = Some b → step (mkSys a S ts tc) (mkSys a (<[j := handle_timeout now b]> S) ts tc)
| accept a S ts tc p i cfg mps tag tsn now k b b' :
    p ∈ ts → pkt_chunks p = [CInit i] → is_ack i = false →
    tag ∉ (a_my_verification_tag <$> S) → ident_ok (server_ident cfg tag tsn k) →
    assoc_new true cfg mps tag tsn now = Ok b → receive k p now b = Some b' →
    step (mkSys a S ts tc) (mkSys a (S ++ [b']) ts tc)
| to_server a S ts tc j b p k now b' :
    S !! j = Some b → p ∈ ts → verification_tag (pkt_header p) = a_my_verification_tag b →
    receive k p now b = Some b' → step (mkSys a S ts tc) (mkSys a (<[j := b']> S) ts tc)
| to_client a S ts tc p k now a' :
    p ∈ tc → verification_tag (pkt_header p) = a_my_verification_tag a → receive k p now a = Some a' →
    step (mkSys a S ts tc) (mkSys a' S ts tc).

(** ** Timeouts *)

Lemma hview_abandon fuel i a : hview (abandon_loop fuel i a) = hview a.
Proof.
  revert i a. induction fuel as [|fuel IH]; intros i a; [done|]. cbn [abandon_loop]. destruct (pq_get _ i) as [ch|]; [|done].
  destruct (negb _); [done|]. rewrite IH. unfold note_abandoned_for_forward_tsn. by destruct (unordered ch).
Qed.

Lemma hview_t3 a : hview (on_retransmission_timeout T3RTX a) = hview a.
Proof.
  cbn [on_retransmission_timeout]. set (a1 := a <| a_stats ::= inc_t3timeouts |>).
  set (a2 := a1 <| a_ssthresh := _ |> <| a_cwnd := _ |>). assert (hview a2 = hview a) as <- by done. clearbody a2.
  destruct (a_use_forward_tsn a2); [|done]. unfold advance_peer_ack_point.
  set (a3 := abandon_loop _ _ a2). assert (hview a3 = hview a2) as <- by apply hview_abandon. clearbody a3. by destruct (sna32gt _ _).
Qed.

Lemma hview_timer now a t :
  hview (handle_timer now a t) = hview a ∨
  (∃ a0, hview a0 = hview a ∧ (hview (handle_timer now a t) = hview (snd (send_init a0)) ∨
                               hview (handle_timer now a t) = hview (snd (send_cookie_echo a0)))).
Proof.
  unfold handle_timer. destruct (is_expired (a_timers a) t now) as [[[expired failure] n] table].
  set (a1 := a <| a_timers := table |>). assert (hview a1 = hview a) as E1 by done. clearbody a1.
  destruct (negb expired); [by left|]. set (a2 := a1 <| a_timers ::= _ |>). assert (hview a2 = hview a) as E2 by exact E1. clearbody a2.
  destruct (decide (t = Ack)); [by left|]. destruct failure; [left; by destruct t|].
  rewrite hview_start. destruct t.
  - right. exists a2. split; [done|]. by left.
  - right. exists a2. split; [done|]. by right.
  - left. cbn [on_retransmission_timeout]. rewrite <- E2. by destruct (a_state a2).
  - left. by rewrite hview_t3.
  - by left.
  - by left.
Qed.

Lemma send_init_view a c ctl s st e :
  (hview a = waiting c ctl → hview (snd (send_init a)) = waiting c (ctl ++ [init_packet_of c])) ∧
  (hview a = bound st c s ctl e → hview (snd (send_init a)) = hview a) ∧
  (hview a = listening st c s ctl → hview (snd (send_init a)) = hview a).
Proof.
  assert (∀ v, hview a = v → a_stored_init a = v_init v) as Hi by (by intros v <-). unfold send_init.
  split_and!; intros H; rewrite (Hi _ H); cbn [v_init waiting bound listening]; [|done..]. cbn [snd].
  assert (create_packet (a <| a_source_port := 5000 |> <| a_destination_port := 5000 |>) [CInit (init_of c)] = init_packet_of c) as ->.
  { unfold create_packet, assoc_header. record_simpl. change (a_peer_verification_tag a) with (v_peer_tag (hview a)). by rewrite H. }
  view_eq H.
Qed.

Lemma send_echo_view a c ctl s st e :
  (hview a = waiting c ctl → hview (snd (send_cookie_echo a)) = hview a) ∧
  (hview a = bound st c s ctl e → hview (snd (send_cookie_echo a)) =
     match e with
     | Some ck => bound st c s (ctl ++ [mkPacket (port_header (i_tag s)) [CCookieEcho ck]]) e
     | None => hview a
     end) ∧
  (hview a = listening st c s ctl → hview (snd (send_cookie_echo a)) = hview a).
Proof.
  assert (∀ v, hview a = v → a_stored_cookie_echo a = v_echo v) as He by (by intros v <-). unfold send_cookie_echo.
  split_and!; intros H; rewrite (He _ H); cbn [v_echo waiting bound listening]; [done| |done]. destruct e as [ck|]; [|done]. cbn [snd].
  assert (create_packet a [CCookieEcho ck] = mkPacket (port_header (i_tag s)) [CCookieEcho ck]) as ->.
  { unfold create_packet, assoc_header. change (a_source_port a) with (v_sport (hview a)). change (a_destination_port a) with (v_dport (hview a)).
    change (a_peer_verification_tag a) with (v_peer_tag (hview a)). by rewrite H. }
  view_eq H.
Qed.

(** ** The invariant

    [peer] is the server whose INIT-ACK the client took, [ids] what the servers told about
    themselves, [E] whether the server [peer] is established. *)

Section Invariant.
Context (c : Ident).

Definition from_client (peer : option Ident) (p : Packet) : Prop :=
  p = init_packet_of c ∨ ∃ s, peer = Some s ∧ p = echo_packet s.

Definition from_server (ids : list Ident) (E : bool) (p : Packet) : Prop :=
  (∃ s, s ∈ ids ∧ ident_ok s ∧ p = init_ack_packet c s) ∨ (p = ack_packet c ∧ E = true).

Definition client_ok (peer : option Ident) (E : bool) (v : HView) : Prop :=
  ∃ ctl, Forall (from_client peer) ctl ∧
    match peer with
    | None => v = waiting c ctl
    | Some s => v = bound CookieEchoed c s ctl (Some (mkCookieEcho (i_cookie s))) ∨ (v = bound Established c s ctl None ∧ E = true)
    end.

Definition server_ok (peer : option Ident) (ids : list Ident) (E : bool) (s : Ident) (b : Association) : Prop :=
  ident_ok s ∧ i_ins s <= i_ins c ∧ i_outs s <= i_outs c ∧
  ∃ st ctl, hview b = listening st c s ctl ∧ Forall (from_server ids E) ctl ∧
    (st = Closed ∨ (st = Established ∧ peer = Some s ∧ E = true)).

Definition is_established (s : Ident) (ids : list Ident) (S : list Association) : Prop :=
  ∃ j b, ids !! j = Some s ∧ S !! j = Some b ∧ a_state b = Established.

Record inv (peer : option Ident) (ids : list Ident) (E : bool) (y : Sys) : Prop := {
  inv_client : client_ok peer E (hview (cl y));
  inv_servers : Forall2 (server_ok peer ids E) ids (srv y);
  inv_to_srv : Forall (from_client peer) (to_srv y);
  inv_to_cl : Forall (from_server ids E) (to_cl y);
  inv_tags : NoDup (i_tag <$> ids);
  inv_peer : ∀ s, peer = Some s → s ∈ ids;
  inv_E : E = true → ∃ s, peer = Some s ∧ is_established s ids (srv y)
}.

(** Knowledge only grows. *)
Definition grows (peer peer' : option Ident) (ids ids' : list Ident) (E E' : bool) : Prop :=
  (∀ s, peer = Some s → peer' = Some s) ∧ ids ⊆ ids' ∧ (E = true → E' = true).

Lemma from_client_grows peer peer' ids ids' E E' l :
  grows peer peer' ids ids' E E' → Forall (from_client peer) l → Forall (from_client peer') l.
Proof.
  intros (Hp & _ & _) H. eapply Forall_impl; [exact H|]. intros p [->|(s & E1 & ->)]; [by left|]. right. exists s. auto.
Qed.

Lemma from_server_grows peer peer' ids ids' E E' l :
  grows peer peer' ids ids' E E' → Forall (from_server ids E) l → Forall (from_server ids' E') l.
Proof.
  intros (_ & Hi & He) H. eapply Forall_impl; [exact H|]. intros p [(s & Hs & Ho & ->)|[-> HE]]; [left; exists s|right]; auto.
Qed.

Lemma server_grows peer peer' ids ids' E E' s b :
  grows peer peer' ids ids' E E' → server_ok peer ids E s b → server_ok peer' ids' E' s b.
Proof.
  intros G (H1 & H2 & H3 & st & ctl & Hv & Hc & Hst). split_and!; [done..|]. exists st, ctl. split_and!; [done|by eapply from_server_grows|].
  destruct G as (Hp & _ & He). destruct Hst as [->|(-> & H4 & H5)]; [by left|right; auto].
Qed.

Lemma server_tags peer ids E ids0 S :
  Forall2 (server_ok peer ids E) ids0 S → a_my_verification_tag <$> S = i_tag <$> ids0.
Proof.
  induction 1 as [|s b l l' (_ & _ & _ & st & ctl & Hv & _) _ IH]; [done|]. csimpl. rewrite IH. f_equal.
  change (v_my_tag (hview b) = i_tag s). by rewrite Hv.
Qed.

(** One server changes. *)
Lemma inv_server_update peer ids E E' a S ts tc ts' tc' j s b b' :
  inv peer ids E (mkSys a S ts tc) → S !! j = Some b → ids !! j = Some s → (E = true → E' = true) →
  server_ok peer ids E' s b' → (a_state b = Established → a_state b' = Established) →
  (E' = true → E = true ∨ (peer = Some s ∧ a_state b' = Established)) →
  ts' = ts → Forall (from_server ids E') tc' →
  inv peer ids E' (mkSys a (<[j := b']> S) ts' tc').
Proof.
  intros [Ic Is Iu Iv It Ip Ie] Hj Hs HE Hb Hst HE' -> Htc. cbn in *. assert (grows peer peer ids ids E E') as G by done.
  split; cbn; try done.
  - destruct Ic as (ctl & Hc & Hv). exists ctl. split; [done|]. destruct peer; [|done]. destruct Hv as [|[]]; auto.
  - apply Forall2_same_length_lookup. split; [rewrite length_insert; by eapply Forall2_length|]. intros i x y Hx Hy.
    destruct (decide (i = j)) as [->|Hn].
    + rewrite list_lookup_insert_eq in Hy by (by eapply lookup_lt_Some). by simplify_eq.
    + rewrite list_lookup_insert_ne in Hy by done. eapply server_grows; [done|]. by eapply Forall2_lookup_lr.
  - intros HEt. destruct (HE' HEt) as [HE1|[Hp Hb']].
    + destruct (Ie HE1) as (s' & Hp & i & x & Hi & Hx & Hxe). exists s'. split; [done|]. unfold is_established. exists i.
      destruct (decide (i = j)) as [->|Hn].
      * exists b'. rewrite list_lookup_insert_eq by (by eapply lookup_lt_Some). simplify_eq. auto.
      * exists x. rewrite list_lookup_insert_ne by done. auto.
    + exists s. split; [done|]. exists j, b'. rewrite list_lookup_insert_eq by (by eapply lookup_lt_Some). auto.
Qed.

Lemma server_at peer ids E y j b :
  inv peer ids E y → srv y !! j = Some b → ∃ s, ids !! j = Some s ∧ server_ok peer ids E s b.
Proof.
  intros I Hj. destruct (Forall2_lookup_r _ _ _ _ _ (inv_servers _ _ _ _ I) Hj) as (s & ? & ?). eauto.
Qed.

(** *** Timeouts *)

Lemma client_timer now peer E a t : client_ok peer E (hview a) → client_ok peer E (hview (handle_timer now a t)).
Proof.
  intros (ctl & Hc & Hv). destruct (hview_timer now a t) as [->|(a0 & H0 & Ht)]; [by exists ctl|]. rewrite <- H0 in Hv.
  destruct peer as [s|].
  - destruct Hv as [Hv|[Hv HE]]; pose proof (proj1 (proj2 (send_init_view a0 c ctl s _ _)) Hv) as Hi;
      pose proof (proj1 (proj2 (send_echo_view a0 c ctl s _ _)) Hv) as He; cbn iota in He.
    + destruct Ht as [->| ->]; [rewrite Hi; exists ctl; auto|]. rewrite He. eexists. split; [|by left]. apply Forall_app. split; [done|].
      apply Forall_singleton. right. by exists s.
    + exists ctl. split; [done|]. right. split; [|done]. destruct Ht as [->| ->]; by rewrite ?Hi, ?He.
  - destruct (send_init_view a0 c ctl c Closed None) as (Hi & _), (send_echo_view a0 c ctl c Closed None) as (He & _).
    specialize (Hi Hv). specialize (He Hv). destruct Ht as [->| ->].
    + rewrite Hi. eexists. split; [|done]. apply Forall_app. split; [done|]. apply Forall_singleton. by left.
    + rewrite He. by exists ctl.
Qed.

Lemma client_timeout now peer E a : client_ok peer E (hview a) → client_ok peer E (hview (handle_timeout now a)).
Proof.
  unfold handle_timeout. generalize TIMER_VALUES. intros l. revert a. induction l as [|t l IH]; intros a H; [done|].
  apply IH. by apply client_timer.
Qed.

Lemma server_timeout now b st s ctl : hview b = listening st c s ctl → hview (handle_timeout now b) = listening st c s ctl.
Proof.
  unfold handle_timeout. generalize TIMER_VALUES. intros l. revert b. induction l as [|t l IH]; intros b H; [done|]. cbn [foldl]. apply IH.
  destruct (hview_timer now b t) as [->|(b0 & H0 & Ht)]; [done|]. rewrite <- H0 in H.
  destruct (send_init_view b0 c ctl s st None) as (_ & _ & Hi), (send_echo_view b0 c ctl s st None) as (_ & _ & He).
  destruct Ht as [->| ->]; [by rewrite (Hi H)|by rewrite (He H)].
Qed.

(** *** Arrivals *)

Lemma receive_ok k p now a a' b : handle_inbound k p now a = (Ok tt, a') → receive k p now a = Some b → b = a'.
Proof. unfold receive. intros ->. congruence. Qed.

Lemma client_receives peer ids E a p k now a' :
  (∀ s, peer = Some s → s ∈ ids) → (E = true → ∃ s, peer = Some s) →
  client_ok peer E (hview a) → from_server ids E p → receive k p now a = Some a' →
  ∃ peer', client_ok peer' E (hview a') ∧ grows peer peer' ids ids E E ∧ (∀ s, peer' = Some s → s ∈ ids).
Proof.
  intros Hp HE (ctl & Hc & Hv) Hf R. destruct Hf as [(s' & Hs' & Ho & ->)|[-> Ht]].
  - destruct peer as [s|].
    + exists (Some s). split; [|done].
      destruct Hv as [Hv|[Hv Ht]]; (destruct (client_init_ack_ignored c s a _ ctl _ k now Hv) with (s' := s') as (a1 & R1 & V1); [done|done|]);
        rewrite (receive_ok _ _ _ _ _ _ R1 R), V1; exists ctl; auto.
    + destruct (client_init_ack c s' a ctl k now Hv Ho) as (a1 & R1 & V1 & _). exists (Some s'). rewrite (receive_ok _ _ _ _ _ _ R1 R).
      split_and!; [|split_and!; done|by intros ? [= <-]]. eexists. split; [|by left]. apply Forall_app. split.
      * by apply (from_client_grows None (Some s') ids ids E E).
      * apply Forall_singleton. right. by exists s'.
  - destruct (HE Ht) as [s ->]. exists (Some s). split; [|done]. destruct (client_cookie_ack c a k now) as (_ & H1 & H2).
    destruct Hv as [Hv|[Hv _]].
    + destruct (H1 _ _ _ Hv) as (a1 & R1 & V1 & _). rewrite (receive_ok _ _ _ _ _ _ R1 R). exists ctl. auto.
    + destruct (H2 _ _ _ Hv) as (a1 & R1 & V1). rewrite (receive_ok _ _ _ _ _ _ R1 R), V1. exists ctl. auto.
Qed.

End Invariant.

Lemma inv_accept c peer ids E a S ts tc p i cfg mps tag tsn now k b b' :
  ident_ok c → inv c peer ids E (mkSys a S ts tc) → p ∈ ts → pkt_chunks p = [CInit i] →
  tag ∉ (a_my_verification_tag <$> S) → ident_ok (server_ident cfg tag tsn k) →
  assoc_new true cfg mps tag tsn now = Ok b → receive k p now b = Some b' →
  ∃ s, inv c peer (ids ++ [s]) E (mkSys a (S ++ [b']) ts tc).
Proof.
  intros Hc [Ic Is Iu Iv It Ip Ie] Hin Hpc Htag Ho Hn R. cbn in *.
  assert (p = init_packet_of c) as ->.
  { rewrite Forall_forall in Iu. destruct (Iu p Hin) as [->|(s & _ & ->)]; [done|discriminate]. }
  destruct (server_new _ _ _ _ _ _ Hn) as [Vb _].
  destruct (server_init c _ b k now Vb Hc) as (b1 & R1 & V1 & _). rewrite (receive_ok _ _ _ _ _ _ R1 R).
  set (s := accepted c _ k) in *. exists s. assert (grows peer peer ids (ids ++ [s]) E E) as G by (split_and!; set_solver).
  destruct Hc as (_ & _ & _ & _ & ? & ? & _). destruct Ho as (Ho1 & Ho2 & Ho3 & Ho4 & Ho5 & Ho6 & Ho7). cbn in *.
  assert (ident_ok s) as Hs by (unfold s, accepted, ident_ok; cbn; split_and!; try done; lia).
  split; cbn; try done.
  - apply Forall2_app.
    + eapply Forall2_impl; [exact Is|]. intros x y. by apply server_grows.
    + apply Forall2_cons. split; [|by constructor]. split_and!; [done|unfold s, accepted; cbn; lia..|]. exists Closed, [init_ack_packet c s].
      split_and!; [done| |by left]. apply Forall_singleton. left. exists s.
      split; [apply elem_of_app; right; by apply list_elem_of_singleton|by split].
  - by eapply from_server_grows.
  - rewrite fmap_app. apply NoDup_app. split_and!; [done| |apply NoDup_singleton].
    intros x Hx Hx'. rewrite (server_tags c _ _ _ _ _ Is) in Htag. apply list_elem_of_singleton in Hx'. by subst x.
  - intros s' Hs'. apply elem_of_app. left. auto.
  - intros HE. destruct (Ie HE) as (s' & Hp & j & x & Hj & Hx & Hst). exists s'. split; [done|]. exists j, x.
    split_and!; [by apply lookup_app_l_Some..|done].
Qed.

Lemma inv_to_server c peer ids E a S ts tc j b p k now b' :
  inv c peer ids E (mkSys a S ts tc) → S !! j = Some b → p ∈ ts → verification_tag (pkt_header p) = a_my_verification_tag b →
  receive k p now b = Some b' → inv c peer ids true (mkSys a (<[j := b']> S) ts tc).
Proof.
  intros I Hj Hin Htag R. destruct (server_at _ _ _ _ _ _ _ I Hj) as (s & Hs & Ho & Hi & Hou & st & ctl & Hv & Hctl & Hst).
  pose proof I as [_ _ Iu Iv It Ip _]. cbn in *. rewrite Forall_forall in Iu.
  assert (a_my_verification_tag b = i_tag s) as Hbt by (change (v_my_tag (hview b) = i_tag s); by rewrite Hv).
  destruct (Iu p Hin) as [->|(s' & Hp & ->)]; cbn in Htag.
  { destruct Ho as (Ho & _). lia. }
  assert (s' = s) as ->.
  { apply Ip, list_elem_of_lookup in Hp as [j' Hj']. assert (j' = j) as ->; [|congruence].
    apply (NoDup_lookup _ _ _ (i_tag s) It); rewrite list_lookup_fmap, ?Hj', ?Hs; cbn; congruence. }
  destruct (server_echo c s b st ctl k now Hv) as (b1 & R1 & V1 & _); [destruct Hst as [|[? _]]; auto|].
  rewrite (receive_ok _ _ _ _ _ _ R1 R). assert (grows peer peer ids ids E true) as G by done.
  assert (a_state b1 = Established) as Hb1 by (change (v_state (hview b1) = Established); by rewrite V1).
  eapply inv_server_update; [exact I|exact Hj|exact Hs|done| |done|auto|done|by eapply from_server_grows].
  split_and!; [done..|]. exists Established, (ctl ++ [ack_packet c]). split_and!; [done| |auto]. apply Forall_app.
  split; [by eapply from_server_grows|]. apply Forall_singleton. by right.
Qed.

Lemma step_inv c peer ids E y y' :
  ident_ok c → inv c peer ids E y → step y y' → ∃ peer' ids' E', inv c peer' ids' E' y'.
Proof.
  intros Hc I Hstep. destruct Hstep as [a S ts tc|a S ts tc j b Hj|a S ts tc now|a S ts tc j b now Hj
    |a S ts tc p i cfg mps tag tsn now k b b' Hp Hpc _ Ht Ho Hn R|a S ts tc j b p k now b' Hj Hp Ht R|a S ts tc p k now a' Hp Ht R].
  - exists peer, ids, E. destruct I as [(ctl & Hctl & Hv) Is Iu Iv It Ip Ie]. cbn in *.
    assert (a_control_queue a = ctl) as Ha.
    { change (v_control (hview a) = ctl). destruct peer; [destruct Hv as [->|[-> _]]|rewrite Hv]; done. }
    split; cbn; try done; [|rewrite Ha; by apply Forall_app]. exists []. split; [done|]. autorewrite with hview.
    destruct peer; [destruct Hv as [->|[-> ?]]; [by left|by right]|by rewrite Hv].
  - exists peer, ids, E. destruct (server_at _ _ _ _ _ _ _ I Hj) as (s & Hs & Ho & Hi & Hou & st & ctl & Hv & Hctl & Hst).
    assert (a_control_queue b = ctl) as Hb by (change (v_control (hview b) = ctl); by rewrite Hv).
    eapply inv_server_update; [exact I|exact Hj|exact Hs|done| |done|auto|done|rewrite Hb; apply Forall_app; split; [apply I|done]].
    split_and!; [done..|]. exists st, []. split_and!; [|done|done]. autorewrite with hview. by rewrite Hv.
  - exists peer, ids, E. destruct I as [Ic Is Iu Iv It Ip Ie]. split; try done. by apply client_timeout.
  - exists peer, ids, E. destruct (server_at _ _ _ _ _ _ _ I Hj) as (s & Hs & Ho & Hi & Hou & st & ctl & Hv & Hctl & Hst).
    pose proof (server_timeout c now b st s ctl Hv) as Hv'. revert Hv'. generalize (handle_timeout now b). intros b1 Hv'.
    eapply inv_server_update; [exact I|exact Hj|exact Hs|done| | |auto|done|apply I].
    + split_and!; [done..|]. by exists st, ctl.
    + change (v_state (hview b) = Established → v_state (hview b1) = Established). by rewrite Hv, Hv'.
  - destruct (inv_accept c peer ids E a S ts tc p i cfg mps tag tsn now k b b') as [s Hs]; [done..|]. by exists peer, (ids ++ [s]), E.
  - exists peer, ids, true. by eapply inv_to_server.
  - destruct I as [Ic Is Iu Iv It Ip Ie]. cbn in *. pose proof (proj1 (Forall_forall _ _) Iv p Hp) as Hf.
    destruct (client_receives c peer ids E a p k now a' Ip) as (peer' & Hc' & G & Hp'); [|done..|].
    { intros HE. destruct (Ie HE) as (s & ? & _). by exists s. }
    exists peer', ids, E. split; cbn; try done.
    + eapply Forall2_impl; [exact Is|]. intros x y. by apply server_grows.
    + by eapply from_client_grows.
    + intros HE. destruct (Ie HE) as (s & Hs & ?). exists s. split; [by apply G|done].
Qed.

(** A client that just started, and nobody else. *)
Definition starts (y : Sys) (c : Ident) : Prop :=
  ident_ok c ∧ i_cookie c = [] ∧ srv y = [] ∧ to_srv y = [] ∧ to_cl y = [] ∧
  ∃ cfg mps rnd now, assoc_new false cfg mps (i_tag c) rnd now = Ok (cl y) ∧ c = server_ident cfg (i_tag c) rnd [].

Lemma starts_inv y c : starts y c → inv c None [] false y.
Proof.
  intros (Hc & _ & H1 & H2 & H3 & cfg & mps & rnd & now & Ha & Ec). destruct (client_new _ _ _ _ _ _ Ha) as [Hv _].
  split; rewrite ?H1, ?H2, ?H3; try done.
  - exists [init_packet_of c]. split; [apply Forall_singleton; by left|]. unfold server_ident in Ec. rewrite <- Ec in Hv. exact Hv.
  - apply NoDup_nil_2.
Qed.

(** C11: whatever the path loses, repeats, delays or reorders, and however the timers run, a
    client that reaches the established state has a server on the other side that is
    established too; the two agree on the tags, the first TSNs, the windows, the ports, the
    stream limits and FORWARD-TSN; and of all the associations that the repeated INITs
    created at the other endpoint no second one is established. *)
Theorem handshake_agreement y0 c y :
  starts y0 c → rtc step y0 y → a_state (cl y) = Established →
  ∃ b, b ∈ srv y ∧ agreed (cl y) b ∧
    ∀ b', b' ∈ srv y → a_state b' = Established → b' = b.
Proof.
  intros Hs Hr He. assert (∃ peer ids E, inv c peer ids E y) as (peer & ids & E & I).
  { pose proof (starts_inv _ _ Hs) as I0. destruct Hs as [Hc _]. revert I0. generalize (None : option Ident) ([] : list Ident) false.
    induction Hr as [y|y1 y2 y3 H12 _ IH]; intros peer ids E I0; [by eauto|].
    destruct (step_inv c peer ids E y1 y2 Hc I0 H12) as (peer' & ids' & E' & I'). by apply (IH He peer' ids' E'). }
  pose proof I as [(ctl & _ & Hv) Is _ _ It Ip Ie].
  assert (v_state (hview (cl y)) = Established) as Hst by exact He.
  destruct peer as [s|]; [|by rewrite Hv in Hst]. destruct Hv as [Hv|[Hv HE]]; [by rewrite Hv in Hst|].
  destruct (Ie HE) as (s' & [= <-] & j & b & Hj & Hb & Hbe). exists b. split_and!.
  - by eapply list_elem_of_lookup_2.
  - destruct (server_at _ _ _ _ _ _ _ I Hb) as (s' & Hs' & Ho & Hi & Hou & st & ctl' & Hv' & _ & Hst'). simplify_eq.
    assert (st = Established) as -> by (rewrite <- Hbe; change (st = v_state (hview b)); by rewrite Hv').
    by eapply agreed_views.
  - intros b' [j' Hj']%list_elem_of_lookup Hb'. destruct (server_at _ _ _ _ _ _ _ I Hj') as (s' & Hs' & Ho & _ & _ & st & ctl' & Hv' & _ & Hst').
    assert (st = Established) as -> by (rewrite <- Hb'; change (st = v_state (hview b')); by rewrite Hv').
    destruct Hst' as [|(_ & [= <-] & _)]; [done|]. assert (j' = j) as ->; [|congruence].
    apply (NoDup_lookup _ _ _ (i_tag s) It); by rewrite list_lookup_fmap, ?Hs', ?Hj.
Qed.

(** ** A run of it

    The client's first INIT reaches the server twice, so the server has two associations; the
    client answers the second INIT-ACK. *)

Section Example.
#[local] Existing Instance BigEndian.big_endian.
#[local] Existing Instance sum_crc.
#[local] Existing Instance sum_crc_laws.

Lemma handshake_completes_witness :
  ∃ a0 b0 init a1 b1 a b,
    assoc_new false transport_config_default 1200 7 100 0 = Ok a0 ∧ assoc_new true transport_config_default 1200 9 200 0 = Ok b0 ∧
    poll_transmit 0 a0 = (Ok (Some [init]), a1) ∧ deliver [1; 2; 3; 4] init 0 b0 = Ok b1 ∧ agreed a b.
Proof.
  destruct (assoc_new false transport_config_default 1200 7 100 0) as [a0| |] eqn:Ea; [|by vm_compute in Ea..].
  destruct (assoc_new true transport_config_default 1200 9 200 0) as [b0| |] eqn:Eb; [|by vm_compute in Eb..].
  destruct (handshake_completes transport_config_default transport_config_default 1200 1200 7 9 100 200 [1; 2; 3; 4] 0 a0 b0 Ea Eb)
    as (init & a1 & b1 & iack & b2 & a2 & echo & a3 & b3 & ack & b4 & a4 & P1 & D1 & P2 & D2 & P3 & D3 & P4 & D4 & A);
    [split_and!; vm_compute; intuition congruence..|done|done|].
  exists a0, b0, init, a1, b1, a4, b4. by split_and!.
Defined.

Definition id_c : Ident := server_ident transport_config_default 7 100 [].

Lemma handshake_agreement_witness :
  ∃ y0 y b, starts y0 id_c ∧ rtc step y0 y ∧ length (srv y) = 2%nat ∧ b ∈ srv y ∧ agreed (cl y) b.
Proof.
  assert (∃ y0 y, starts y0 id_c ∧ rtc step y0 y ∧ length (srv y) = 2%nat ∧ a_state (cl y) = Established) as (y0 & y & H1 & H2 & H3 & H4).
  { eexists (mkSys _ [] [] []), _. split_and!.
    - unfold starts. split_and!; [vm_compute; intuition congruence..|done|done|done|done|done|].
      eexists transport_config_default, 1200, 100, 0. split; [vm_compute; reflexivity|done].
    - eapply rtc_l; [apply poll_client|]. cbn.
      eapply rtc_l; [eapply (accept _ _ _ _ _ _ transport_config_default 1200 9 200 0 [1; 2; 3; 4]);
        [by left|done|done|set_solver|split_and!; vm_compute; intuition congruence|vm_compute; reflexivity|vm_compute; reflexivity]|]. cbn.
      eapply rtc_l; [eapply (accept _ _ _ _ _ _ transport_config_default 1200 11 300 5 [5; 6; 7; 8]);
        [by left|done|done|set_solver|split_and!; vm_compute; intuition congruence|vm_compute; reflexivity|vm_compute; reflexivity]|]. cbn.
      eapply rtc_l; [apply (poll_server _ _ _ _ 1); reflexivity|]. cbn.
      eapply rtc_l; [eapply (to_client _ _ _ _ _ [] 6); [by left|done|vm_compute; reflexivity]|]. cbn.
      eapply rtc_l; [apply poll_client|]. cbn.
      eapply rtc_l; [eapply (to_server _ _ _ _ 1 _ _ [] 7); [reflexivity|by right; left|done|vm_compute; reflexivity]|]. cbn.
      eapply rtc_l; [apply (poll_server _ _ _ _ 1); reflexivity|]. cbn.
      eapply rtc_l; [eapply (to_client _ _ _ _ _ [] 8); [by right; left|done|vm_compute; reflexivity]|].
      apply rtc_refl.
    - done.
    - done. }
  destruct (handshake_agreement y0 id_c y H1 H2 H4) as (b & Hb & A & _). by exists y0, y, b.
Defined.
End Example.
