(* ===== verification/SctpSender.v ===== *)
(** The sending side of an SCTP association, over the operations of [SctpAssoc]: the TSNs in
    flight, what a SACK does to them, what leaves the pending queue and how it is bundled. *)

From S2P Require Import Prelude SctpChunk SctpQueue SctpReassembly SctpParam SctpPacket SctpTimer SctpStream SctpAssoc.

(** * The TSNs in flight *)

(** [cum] and [cum + n] are the last TSN that is acknowledged and the last that was sent, as
    numbers that do not wrap: the queue holds exactly the [n] TSNs in between. *)
Record sender (a : Association) (cum n : Z) : Prop := {
  snd_cum : a_cumulative_tsn_ack_point a = u32 cum;
  snd_next : a_my_next_tsn a = u32 (cum + n + 1);
  snd_count : 0 <= n;
  snd_queue : pq_rel (a_inflight_queue a) cum (seqZ (cum + 1) n)
}.

(** What the loops over the queue leave alone. *)
Definition sview (a : Association) : Z * Z := (a_cumulative_tsn_ack_point a, a_my_next_tsn a).

Lemma sender_next a a' cum n : sender a cum n → sview a' = sview a → pq_rel (a_inflight_queue a') cum (seqZ (cum + 1) n) → sender a' cum n.
Proof. intros [H1 H2 H3 _] [= E1 E2] R. split; congruence. Qed.

Lemma window_small q cum n : pq_rel q cum (seqZ (cum + 1) n) → n < 2 ^ 31.
Proof.
  intros R. destruct (Z.lt_ge_cases n 1) as [|Hn]; [lia|]. pose proof (rel_window _ _ _ R) as Hw. rewrite Forall_forall in Hw.
  specialize (Hw (cum + n)). ospecialize (Hw _); [apply elem_of_seqZ; lia|]. cbn in Hw. lia.
Qed.

Lemma in_flight q cum n y : pq_rel q cum (seqZ (cum + 1) n) → cum < y <= cum + n → ∃ c, pq_get q (u32 y) = Some c ∧ tsn c = u32 y.
Proof.
  intros R Hy. assert (u32 y ∈ sorted q) as Hin by (rewrite (rel_sorted _ _ _ R); apply list_elem_of_fmap_2, elem_of_seqZ; lia).
  apply (rel_keys _ _ _ R) in Hin as [c Hc]. exists c. split; [done|by apply (rel_tsn _ _ _ R)].
Qed.

Lemma not_in_flight q cum n y :
  pq_rel q cum (seqZ (cum + 1) n) → cum - 2 ^ 31 < y < cum + 2 ^ 31 → ¬ (cum < y <= cum + n) → pq_get q (u32 y) = None.
Proof.
  intros R Hy Hn. apply eq_None_not_Some. unfold pq_get. rewrite (rel_keys _ _ _ R), (rel_in_sorted _ _ _ R) by lia.
  rewrite elem_of_seqZ. lia.
Qed.

Lemma in_flight_size q cum n : 0 <= n → pq_rel q cum (seqZ (cum + 1) n) → Z.of_nat (size (chunk_map q)) = n.
Proof.
  intros Hn R. pose proof (window_small _ _ _ R). rewrite <- size_dom. assert (dom (chunk_map q) = list_to_set (sorted q)) as ->.
  { apply set_eq. intros t. by rewrite elem_of_dom, (rel_keys _ _ _ R), elem_of_list_to_set. }
  rewrite size_list_to_set, (rel_sorted _ _ _ R), length_fmap, length_seqZ by (rewrite (rel_sorted _ _ _ R);
    apply NoDup_fmap_2_strong; [intros x y Hx%elem_of_seqZ Hy%elem_of_seqZ; apply u32_inj; lia|apply NoDup_seqZ]). lia.
Qed.

(** ** Changes of single chunks *)

(** The chunks of [q'] are those of [q], with those that [f] selects acknowledged. *)
Definition marked (f : Z → bool) (q q' : PayloadQueue) : Prop :=
  ∀ t c, chunk_map q !! t = Some c → ∃ c', chunk_map q' !! t = Some c' ∧
    acked c' = acked c || f t ∧ (f t = false → user_data c' = user_data c).

Lemma marked_refl q : marked (λ _, false) q q.
Proof. intros t c Hc. exists c. by rewrite orb_false_r. Qed.

Lemma marked_trans f g q q1 q2 : marked f q q1 → marked g q1 q2 → marked (λ t, f t || g t) q q2.
Proof.
  intros H1 H2 t c Hc. destruct (H1 t c Hc) as (c1 & Hc1 & E1 & U1). destruct (H2 t c1 Hc1) as (c2 & Hc2 & E2 & U2).
  exists c2. split_and!; [done|by rewrite E2, E1, orb_assoc|]. intros [Hf Hg]%orb_false_iff. by rewrite U2, U1.
Qed.

Lemma marked_ext f g q q' : (∀ t, f t = g t) → marked f q q' → marked g q q'.
Proof. intros E H t c Hc. rewrite <- E. by apply H. Qed.

(** A change that keeps the TSN, the data and the acknowledgement. *)
Definition harmless (f : ChunkPayloadData → ChunkPayloadData) : Prop :=
  ∀ c, tsn (f c) = tsn c ∧ user_data (f c) = user_data c ∧ acked (f c) = acked c.

Lemma rel_alter f t q cum ds : (∀ c, chunk_map q !! t = Some c → tsn (f c) = tsn c ∧ user_data (f c) = user_data c) →
  pq_rel q cum ds → pq_rel (pq_alter f t q) cum ds.
Proof.
  intros Hf [H1 H2 H3 H4 H5 H6]. split; cbn [pq_alter sorted chunk_map pq_n_bytes]; try done.
  - intros t'. rewrite <- H4. destruct (decide (t = t')) as [<-|]; [rewrite lookup_alter_eq|by rewrite lookup_alter_ne]. apply fmap_is_Some.
  - intros t' c'. destruct (decide (t = t')) as [<-|]; [|rewrite lookup_alter_ne by done; apply H5].
    rewrite lookup_alter_eq. intros (c & Hc & ->)%fmap_Some. rewrite (proj1 (Hf c Hc)). by apply H5.
  - rewrite H6. f_equal. destruct (chunk_map q !! t) as [c|] eqn:Ec; [|by rewrite alter_id by (intros ?; by rewrite Ec)].
    assert (alter f t (chunk_map q) = <[t := f c]> (chunk_map q)) as ->.
    { apply map_eq. intros i. destruct (decide (t = i)) as [<-|]; [by rewrite lookup_alter_eq, lookup_insert_eq, Ec|].
      by rewrite lookup_alter_ne, lookup_insert_ne. }
    rewrite (data_bytes_delete _ _ _ Ec), <- insert_delete_eq, data_bytes_insert by apply lookup_delete_eq.
    by rewrite (proj2 (Hf c eq_refl)).
Qed.

Lemma marked_alter f t q : (∀ c, chunk_map q !! t = Some c → user_data (f c) = user_data c ∧ acked (f c) = acked c) →
  marked (λ _, false) q (pq_alter f t q).
Proof.
  intros Hf t' c Hc. cbn [pq_alter chunk_map]. destruct (decide (t = t')) as [<-|].
  - exists (f c). rewrite lookup_alter_eq, Hc, orb_false_r. destruct (Hf c Hc) as [-> ->]. done.
  - exists c. by rewrite lookup_alter_ne, orb_false_r.
Qed.

Lemma marked_ack t q c : chunk_map q !! t = Some c → marked (λ t', t' =? t) q (snd (mark_as_acked q t)).
Proof.
  intros Ht t' c' Hc'. unfold mark_as_acked. rewrite Ht. cbn [snd chunk_map].
  destruct (Z.eqb_spec t' t) as [->|Hn].
  - exists (ack_chunk c). rewrite lookup_insert_eq. split_and!; [done|by rewrite orb_true_r|done].
  - exists c'. rewrite lookup_insert_ne by done. by rewrite orb_false_r.
Qed.

(** * A SACK *)

Lemma sview_measure c now a : sview (measure_rtt c now a) = sview a ∧ a_inflight_queue (measure_rtt c now a) = a_inflight_queue a.
Proof. unfold measure_rtt. by destruct (since c). Qed.

Lemma acknowledge_view i c now m a :
  sview (snd (acknowledge i c now m a)) = sview a ∧ a_inflight_queue (snd (acknowledge i c now m a)) = a_inflight_queue a.
Proof.
  unfold acknowledge. destruct (negb (acked c)).
  - set (a1 := if _ =? _ then _ else a). assert (sview a1 = sview a ∧ a_inflight_queue a1 = a_inflight_queue a) as [<- <-]
      by (unfold a1; by destruct (_ =? _)). clearbody a1.
    set (a2 := if _ && _ then _ else a1). assert (sview a2 = sview a1 ∧ a_inflight_queue a2 = a_inflight_queue a1) as [<- <-]
      by (unfold a2; destruct (_ && _); [apply sview_measure|done]). clearbody a2. cbn [snd]. by destruct (_ && _).
  - cbn [snd]. by destruct (_ && _).
Qed.

(** The chunks above [x] are untouched. *)
Definition above (cum n x : Z) (q q' : PayloadQueue) : Prop :=
  ∀ y, x < y <= cum + n → chunk_map q' !! u32 y = chunk_map q !! u32 y.

Lemma pop_above cum n q c q' :
  pq_rel q cum (seqZ (cum + 1) n) → 0 < n → pop q (u32 (cum + 1)) = (Some c, q') → above cum n (cum + 1) q q'.
Proof.
  intros R Hn E y Hy. pose proof (window_small _ _ _ R). revert E. unfold pop. destruct (sorted q) as [|f r]; [done|].
  destruct (f =? u32 (cum + 1)); [|done]. destruct (chunk_map q !! u32 (cum + 1)); [|done]. intros [= <- <-]. cbn [chunk_map].
  rewrite lookup_delete_ne; [done|]. intros E%u32_inj; lia.
Qed.

Lemma ack_loop_spec fuel a cum n x now m :
  pq_rel (a_inflight_queue a) cum (seqZ (cum + 1) n) → cum <= x <= cum + n → (Z.to_nat (x - cum) <= fuel)%nat →
  ∃ m' a', ack_loop fuel (u32 (cum + 1)) (u32 x) now m a = (Ok m', a') ∧ sview a' = sview a ∧
    pq_rel (a_inflight_queue a') x (seqZ (x + 1) (cum + n - x)) ∧ above cum n x (a_inflight_queue a) (a_inflight_queue a').
Proof.
  revert a cum n m. induction fuel as [|fuel IH]; intros a cum n m R Hx Hf; pose proof (window_small _ _ _ R);
    cbn [ack_loop]; rewrite sna32lte_spec by lia.
  - assert (x = cum) as -> by lia. rewrite (proj2 (Z.leb_gt _ _)) by lia. exists m, a. replace (cum + n - cum) with n by lia. by split_and!.
  - destruct (Z.leb_spec (cum + 1) x) as [Hlt|Hge].
    + assert (seqZ (cum + 1) n = (cum + 1) :: seqZ (cum + 1 + 1) (n - 1)) as Es by (rewrite seqZ_cons by lia; f_equal; f_equal; lia).
      destruct (rel_pop_front _ _ _ R _ _ Es) as (c & q & Ep & _ & R' & _). rewrite Ep.
      destruct (acknowledge (u32 (cum + 1)) c now m (a <| a_inflight_queue := q |>)) as [m1 a1] eqn:E1.
      destruct (acknowledge_view (u32 (cum + 1)) c now m (a <| a_inflight_queue := q |>)) as [V1 Q1]. rewrite E1 in V1, Q1. cbn [snd] in V1, Q1.
      change (a_inflight_queue a1 = q) in Q1. rewrite <- Q1 in R', Ep. rewrite u32_succ.
      destruct (IH a1 (cum + 1) (n - 1) m1 R') as (m' & a' & E & V & R2 & A); [lia|lia|].
      exists m', a'. replace (cum + n - x) with (cum + 1 + (n - 1) - x) by lia. split_and!; [done|by rewrite V|done|].
      intros y Hy. rewrite A by lia. apply (pop_above cum n _ c); [done|lia|done|lia].
    + assert (x = cum) as -> by lia. exists m, a. replace (cum + n - cum) with n by lia. by split_and!.
Qed.

(** The peer acknowledges a TSN that was never sent. *)
Lemma ack_loop_beyond fuel a cum n x now m :
  pq_rel (a_inflight_queue a) cum (seqZ (cum + 1) n) → 0 <= n → cum + n < x < cum + 2 ^ 31 → (Z.to_nat n < fuel)%nat →
  ∃ a', ack_loop fuel (u32 (cum + 1)) (u32 x) now m a = (Err ErrInflightQueueTsnPop, a').
Proof.
  revert a cum n m. induction fuel as [|fuel IH]; intros a cum n m R Hn Hx Hf; [lia|]. cbn [ack_loop].
  rewrite sna32lte_spec, (proj2 (Z.leb_le _ _)) by lia. destruct (Z.lt_ge_cases 0 n) as [Hp|Hz].
  - assert (seqZ (cum + 1) n = (cum + 1) :: seqZ (cum + 1 + 1) (n - 1)) as Es by (rewrite seqZ_cons by lia; f_equal; f_equal; lia).
    destruct (rel_pop_front _ _ _ R _ _ Es) as (c & q & Ep & _ & R' & _). rewrite Ep.
    destruct (acknowledge (u32 (cum + 1)) c now m (a <| a_inflight_queue := q |>)) as [m1 a1] eqn:E1.
    destruct (acknowledge_view (u32 (cum + 1)) c now m (a <| a_inflight_queue := q |>)) as [_ Q1]. rewrite E1 in Q1. cbn [snd] in Q1.
    change (a_inflight_queue a1 = q) in Q1. rewrite <- Q1 in R'. rewrite u32_succ. apply (IH a1 (cum + 1) (n - 1) m1 R'); lia.
  - replace n with 0 in R by lia. rewrite (rel_pop_none _ _ _ R); [by eexists|lia|by rewrite seqZ_nil by lia].
Qed.

Lemma gap_loop_marks cum now offsets m htna a n h :
  pq_rel (a_inflight_queue a) cum (seqZ (cum + 1) n) → Forall (λ o, 1 <= o <= n) offsets → htna = u32 h → cum <= h <= cum + n →
  ∃ m' h' a', sack_gap_loop (u32 cum) now offsets m htna a = (Ok (m', u32 h'), a') ∧ sview a' = sview a ∧ cum <= h' <= cum + n ∧
    pq_rel (a_inflight_queue a') cum (seqZ (cum + 1) n) ∧
    marked (λ t, existsb (λ o, t =? u32 (cum + o)) offsets) (a_inflight_queue a) (a_inflight_queue a').
Proof.
  revert m htna a h. induction offsets as [|o offsets IH]; intros m htna a h R Ho -> Hh.
  { exists m, h, a. split_and!; [done|done|lia|lia|done|apply marked_refl]. }
  apply Forall_cons in Ho as [Ho Hos]. cbn [sack_gap_loop]. pose proof (window_small _ _ _ R) as Hw.
  assert (u32 (u32 cum + o) = u32 (cum + o)) as -> by (unfold wrap; by rewrite Zplus_mod_idemp_l).
  destruct (in_flight _ _ _ (cum + o) R) as (c & Hc & Ht); [lia|]. rewrite Hc. unfold pq_get in Hc. destruct (acked c) eqn:Ea.
  - destruct (IH m (u32 h) a h R Hos eq_refl Hh) as (m' & h' & a' & E & V & Hh' & R' & M). exists m', h', a'. split_and!; try done; try lia.
    intros t d Hd. destruct (M t d Hd) as (d' & Hd' & E1 & E2). exists d'. cbn [existsb]. destruct (Z.eqb_spec t (u32 (cum + o))) as [->|]; [|done].
    assert (d = c) as -> by congruence. split_and!; [done|by rewrite E1, Ea|done].
  - destruct (mark_as_acked (a_inflight_queue a) (u32 (cum + o))) as [nb q] eqn:Em.
    assert (q = snd (mark_as_acked (a_inflight_queue a) (u32 (cum + o)))) as Eq by (by rewrite Em).
    set (a0 := a <| a_inflight_queue := q |>). set (a1 := if nsent c =? 1 then _ else a0).
    assert (sview a1 = sview a ∧ a_inflight_queue a1 = q) as [V1 Q1].
    { unfold a1. destruct (_ =? _); [|done]. destruct (sview_measure c now a0) as [-> ->]. done. }
    clearbody a1. assert ((if sna32lt (u32 h) (u32 (cum + o)) then u32 (cum + o) else u32 h) = u32 (Z.max h (cum + o))) as ->.
    { rewrite sna32lt_spec by lia. destruct (Z.ltb_spec h (cum + o)); f_equal; lia. }
    destruct (IH (add_acked m (stream_identifier c) nb) (u32 (Z.max h (cum + o))) a1 (Z.max h (cum + o))) as (m' & h' & a' & E & V & Hh' & R' & M);
      [rewrite Q1, Eq; by apply rel_ack|done|done|lia|].
    exists m', h', a'. split_and!; try done; try lia; [by rewrite V|].
    eapply marked_ext; [|eapply marked_trans; [exact (marked_ack _ _ _ Hc)|rewrite <- Eq, <- Q1; exact M]]. intros t. done.
Qed.

Lemma gap_loop_beyond cum now offsets m htna a n :
  pq_rel (a_inflight_queue a) cum (seqZ (cum + 1) n) → Forall (λ o, 0 <= o < 2 ^ 16) offsets → ¬ Forall (λ o, 1 <= o <= n) offsets →
  ∃ a', sack_gap_loop (u32 cum) now offsets m htna a = (Err ErrTsnRequestNotExist, a').
Proof.
  revert m htna a. induction offsets as [|o offsets IH]; intros m htna a R Hb Ho; [by destruct Ho|].
  apply Forall_cons in Hb as [Hb Hbs]. cbn [sack_gap_loop].
  assert (u32 (u32 cum + o) = u32 (cum + o)) as -> by (unfold wrap; by rewrite Zplus_mod_idemp_l).
  destruct (decide (1 <= o <= n)) as [Hin|Hout].
  - destruct (in_flight _ _ _ (cum + o) R) as (c & Hc & Ht); [lia|]. rewrite Hc.
    assert (¬ Forall (λ o, 1 <= o <= n) offsets) as Hos by (intros H; apply Ho; by constructor).
    destruct (acked c) eqn:Ea; [by apply IH|].
    destruct (mark_as_acked (a_inflight_queue a) (u32 (cum + o))) as [nb q] eqn:Em.
    assert (q = snd (mark_as_acked (a_inflight_queue a) (u32 (cum + o)))) as Eq by (by rewrite Em).
    apply IH; [|done|done]. set (a0 := a <| a_inflight_queue := q |>).
    assert (a_inflight_queue (if nsent c =? 1 then measure_rtt c now a0 else a0) = q) as ->
      by (destruct (_ =? _); [by rewrite (proj2 (sview_measure c now a0))|done]).
    rewrite Eq. by apply rel_ack.
  - rewrite (not_in_flight _ _ _ _ R); [by eexists|lia|lia].
Qed.

(** ** Missing chunks *)

Definition same_queue (a a' : Association) : Prop :=
  sview a' = sview a ∧ a_inflight_queue a' = a_inflight_queue a.

Lemma indicate_miss_view htna t c a cum n :
  pq_rel (a_inflight_queue a) cum (seqZ (cum + 1) n) →
  let a' := indicate_miss htna t c a in
  sview a' = sview a ∧ pq_rel (a_inflight_queue a') cum (seqZ (cum + 1) n) ∧
  marked (λ _, false) (a_inflight_queue a) (a_inflight_queue a').
Proof.
  intros R. cbv zeta. unfold indicate_miss. destruct (_ && _); [|split_and!; [done|done|apply marked_refl]].
  set (a1 := a <| a_inflight_queue ::= _ |>).
  assert (sview a1 = sview a ∧ pq_rel (a_inflight_queue a1) cum (seqZ (cum + 1) n) ∧ marked (λ _, false) (a_inflight_queue a) (a_inflight_queue a1)) as H1.
  { split_and!; [done|by apply rel_alter|by apply marked_alter]. }
  clearbody a1. by destruct (_ && _).
Qed.

Lemma miss_loop_spec fuel t M htna a cum n :
  pq_rel (a_inflight_queue a) cum (seqZ (cum + 1) n) → cum < t → M <= cum + n + 1 → (Z.to_nat (M - t) <= fuel)%nat →
  t <= Z.max M (cum + 1) → cum <= M →
  ∃ a', miss_loop fuel (u32 t) (u32 M) htna a = (Ok tt, a') ∧ sview a' = sview a ∧
    pq_rel (a_inflight_queue a') cum (seqZ (cum + 1) n) ∧ marked (λ _, false) (a_inflight_queue a) (a_inflight_queue a').
Proof.
  revert t a. induction fuel as [|fuel IH]; intros t a R Ht HM Hf Hte HMc; pose proof (window_small _ _ _ R) as Hw; cbn [miss_loop];
    assert (Z.abs (t - M) < 2 ^ 31) as Hd by lia.
  - rewrite sna32lt_spec, (proj2 (Z.ltb_ge _ _)) by lia. exists a. split_and!; [done|done|done|apply marked_refl].
  - rewrite sna32lt_spec by lia. destruct (Z.ltb_spec t M); [|exists a; split_and!; [done|done|done|apply marked_refl]].
    destruct (in_flight _ _ _ t R) as (c & Hc & _); [lia|]. rewrite Hc, u32_succ.
    destruct (indicate_miss_view htna (u32 t) c a cum n R) as (V1 & R1 & M1).
    destruct (IH (t + 1) _ R1) as (a' & E & V & R' & M'); [lia..|]. exists a'. split_and!; [done|by rewrite V|done|].
    eapply marked_ext; [|eapply marked_trans; [exact M1|exact M']]. done.
Qed.

Lemma fast_retransmission_spec a cum n h adv :
  pq_rel (a_inflight_queue a) cum (seqZ (cum + 1) n) → 0 <= n → cum <= h <= cum + n →
  ∃ a', process_fast_retransmission (u32 cum) (u32 h) adv a = (Ok tt, a') ∧ sview a' = sview a ∧
    pq_rel (a_inflight_queue a') cum (seqZ (cum + 1) n) ∧ marked (λ _, false) (a_inflight_queue a) (a_inflight_queue a').
Proof.
  intros R Hn Hh. unfold process_fast_retransmission, sbind, smodify.
  set (r := if _ || _ then _ else _).
  assert (∃ a', r = (Ok tt, a') ∧ sview a' = sview a ∧ pq_rel (a_inflight_queue a') cum (seqZ (cum + 1) n) ∧
    marked (λ _, false) (a_inflight_queue a) (a_inflight_queue a')) as (a1 & -> & V1 & R1 & M1).
  { unfold r. destruct (_ || _); [|exists a; split_and!; [done|done|done|apply marked_refl]].
    pose proof (in_flight_size _ _ _ Hn R) as Hs. pose proof (window_small _ _ _ R). unfold pq_len, inflight_fuel. rewrite Hs, u32_succ.
    assert (∃ M, (if negb (a_in_fast_recovery a) then u32 h else u32 (u32 cum + u32 n + 1)) = u32 M ∧ cum <= M <= cum + n + 1) as (M & -> & HM).
    { destruct (a_in_fast_recovery a); [exists (cum + n + 1); split; [|lia]|exists h; split; [done|lia]]. cbn [negb].
      rewrite <- !Z.add_assoc. unfold wrap. rewrite Zplus_mod_idemp_l, (Z.add_comm (n mod _)), Z.add_assoc, Zplus_mod_idemp_r. f_equal. lia. }
    apply miss_loop_spec; try done; lia. }
  exists (if a_in_fast_recovery a1 && adv then a1 <| a_will_retransmit_fast := true |> else a1). by destruct (_ && _).
Qed.

(** ** The rest of the handler *)

Lemma advanced_view total now a : same_queue a (on_cumulative_tsn_ack_point_advanced total now a).
Proof.
  unfold on_cumulative_tsn_ack_point_advanced. set (a1 := if pq_is_empty _ then _ else _).
  assert (same_queue a a1) as H1 by (unfold a1; by destruct (pq_is_empty _)). clearbody a1.
  destruct (_ <=? _); [by destruct (_ && _)|]. set (a2 := a1 <| a_partial_bytes_acked := _ |>).
  assert (same_queue a a2) as H2 by exact H1. clearbody a2. by destruct (_ && _).
Qed.

Lemma release_view es a : same_queue a (foldl release_stream a es).
Proof.
  revert a. induction es as [|[si nb] es IH]; intros a; [done|]. cbn [foldl].
  assert (same_queue a (release_stream a (si, nb))) as H1.
  { unfold release_stream. set (a1 := if 0 <? nb then _ else a). assert (same_queue a a1) as H1 by (unfold a1; by destruct (_ <? _)). clearbody a1.
    destruct (a_streams a1 !! si) as [s|]; [|done]. destruct (on_buffer_released s nb) as [low s']. by destruct low. }
  destruct (IH (release_stream a (si, nb))) as [H2 H3]. destruct H1 as [H4 H5]. split; congruence.
Qed.

Lemma abandon_view fuel i a : same_queue a (abandon_loop fuel i a).
Proof.
  revert i a. induction fuel as [|fuel IH]; intros i a; [done|]. cbn [abandon_loop]. destruct (pq_get _ i) as [c|]; [|done].
  destruct (negb _); [done|]. set (a1 := note_abandoned_for_forward_tsn _ _ _ _).
  assert (same_queue a a1) as [H1 H2] by (unfold a1, note_abandoned_for_forward_tsn; by destruct (unordered c)). clearbody a1.
  destruct (IH (u32 (i + 1)) a1) as [H3 H4]. split; congruence.
Qed.

Lemma forward_view a : same_queue a (forward_tsn_on_sack a).
Proof.
  unfold forward_tsn_on_sack. destruct (a_use_forward_tsn a); [|done]. set (a1 := if sna32lt _ _ then _ else a).
  assert (same_queue a a1) as [H1 H2] by (unfold a1; by destruct (sna32lt _ _)). clearbody a1.
  pose proof (abandon_view (inflight_fuel a1) (u32 (a_advanced_peer_tsn_ack_point a1 + 1)) a1) as [H3 H4]. fold (advance_peer_ack_point a1) in H3, H4.
  set (a2 := advance_peer_ack_point a1) in *. clearbody a2.
  assert (same_queue a a2) as H by (split; congruence). by destruct (sna32gt _ _).
Qed.

Lemma postprocess_view st now a : same_queue a (postprocess_sack st now a).
Proof. unfold postprocess_sack. destruct (negb _); [done|]. by destruct st. Qed.

(** The states in which a SACK is looked at. *)
Definition takes_sack (a : Association) : Prop := a_state a ∈ [Established; ShutdownPending; ShutdownReceived].

Lemma takes_sack_guard a : takes_sack a →
  negb (bool_decide (a_state a = Established)) && negb (bool_decide (a_state a = ShutdownPending)) &&
  negb (bool_decide (a_state a = ShutdownReceived)) = false.
Proof. unfold takes_sack. rewrite !elem_of_cons. intros [->|[->|[->|H%elem_of_nil]]]; done. Qed.

Lemma old_sack_ignored a cum n d now x :
  sender a cum n → takes_sack a → cumulative_tsn_ack d = u32 x → cum - 2 ^ 31 < x < cum →
  handle_sack d now a = (Ok [], a <| a_stats ::= inc_sacks |>).
Proof.
  intros [H1 _ _ _] Hst Hd Hx. unfold handle_sack. rewrite takes_sack_guard by done. cbv zeta.
  change (a_cumulative_tsn_ack_point (a <| a_stats ::= inc_sacks |>)) with (a_cumulative_tsn_ack_point a).
  by rewrite H1, Hd, sna32gt_spec, (proj2 (Z.ltb_lt _ _)) by lia.
Qed.

Lemma sack_of_unsent a cum n d now x :
  sender a cum n → takes_sack a → cumulative_tsn_ack d = u32 x → cum + n < x < cum + 2 ^ 31 →
  ∃ a', handle_sack d now a = (Err ErrInflightQueueTsnPop, a').
Proof.
  intros [H1 H2 H3 R] Hst Hd Hx. unfold handle_sack. rewrite takes_sack_guard by done. cbv zeta.
  set (a0 := a <| a_stats ::= inc_sacks |>). change (pq_rel (a_inflight_queue a0) cum (seqZ (cum + 1) n)) in R.
  change (a_cumulative_tsn_ack_point a0 = u32 cum) in H1. clearbody a0.
  rewrite H1, Hd, sna32gt_spec, (proj2 (Z.ltb_ge _ _)) by lia. unfold process_selective_ack, sbind. rewrite H1, Hd, u32_succ.
  destruct (ack_loop_beyond (inflight_fuel a0) a0 cum n x now ∅ R) as (a' & E); [done|lia| |].
  { unfold inflight_fuel. pose proof (in_flight_size _ _ _ H3 R). lia. }
  rewrite E. by eexists.
Qed.

(** What is left of the handler once the acknowledged chunks are out of the queue. *)
Lemma sack_rest a0 a x k d now st m h total :
  a_my_next_tsn a = u32 (x + k + 1) → 0 <= k → pq_rel (a_inflight_queue a) x (seqZ (x + 1) k) → cumulative_tsn_ack d = u32 x →
  a_cumulative_tsn_ack_point a = u32 a0 → x - 2 ^ 31 < a0 <= x → x <= h <= x + k →
  ∃ a', (do! advanced <- (λ a,
         if sna32lt (a_cumulative_tsn_ack_point a) (cumulative_tsn_ack d)
         then (Ok true, on_cumulative_tsn_ack_point_advanced total now
                          (a <| a_cumulative_tsn_ack_point := cumulative_tsn_ack d |>))
         else (Ok false, a));
       do! _ <- smodify (λ a, foldl release_stream a (map_to_list (m : gmap Z Z)));
       do! _ <- smodify (λ a,
         let bytes_outstanding := u32 (pq_n_bytes (a_inflight_queue a)) in
         a <| a_rwnd := if advertised_receiver_window_credit d <=? bytes_outstanding then 0
                        else advertised_receiver_window_credit d - bytes_outstanding |>);
       do! _ <- process_fast_retransmission (cumulative_tsn_ack d) (u32 h) advanced;
       do! _ <- smodify forward_tsn_on_sack;
       do! _ <- smodify (postprocess_sack st now);
       sret ([] : list Packet)) a = (Ok [], a') ∧ sender a' x k ∧ marked (λ _, false) (a_inflight_queue a) (a_inflight_queue a').
Proof.
  intros Hn Hk R Hd Hc Ha0 Hh. unfold sbind at 1. set (r := if sna32lt _ _ then _ else _).
  assert (∃ adv a1, r = (Ok adv, a1) ∧ sview a1 = (u32 x, u32 (x + k + 1)) ∧ a_inflight_queue a1 = a_inflight_queue a) as (adv & a1 & -> & V1 & Q1).
  { unfold r. rewrite Hc, Hd, sna32lt_spec by lia. destruct (Z.ltb_spec a0 x).
    - eexists _, _. split; [done|]. set (a1 := a <| a_cumulative_tsn_ack_point := u32 x |>).
      destruct (advanced_view total now a1) as [V Q]. rewrite V, Q. unfold a1, sview. split; [|done]. f_equal. exact Hn.
    - exists false, a. split_and!; [done| |done]. unfold sview. rewrite Hc, Hn. repeat f_equal. lia. }
  unfold smodify, sret, sbind. destruct (release_view (map_to_list m) a1) as [V2 Q2]. set (a2 := foldl release_stream a1 _) in *. clearbody a2.
  set (a3 := a2 <| a_rwnd := _ |>). assert (sview a3 = (u32 x, u32 (x + k + 1)) ∧ a_inflight_queue a3 = a_inflight_queue a) as [V3 Q3].
  { split; [change (sview a2 = (u32 x, u32 (x + k + 1)))|change (a_inflight_queue a2 = a_inflight_queue a)]; congruence. }
  clearbody a3. rewrite Hd. rewrite <- Q3 in R. destruct (fast_retransmission_spec a3 x k h adv R Hk Hh) as (a4 & -> & V4 & R4 & M4).
  destruct (forward_view a4) as [V5 Q5]. set (a5 := forward_tsn_on_sack a4) in *. clearbody a5.
  destruct (postprocess_view st now a5) as [V6 Q6]. set (a6 := postprocess_sack st now a5) in *. clearbody a6.
  exists a6. assert (sview a6 = (u32 x, u32 (x + k + 1))) as V by congruence. assert (a_inflight_queue a6 = a_inflight_queue a4) as Q by congruence.
  split_and!; [done| |rewrite Q, <- Q3; exact M4]. injection V as E1 E2. split; [done|done|done|]. by rewrite Q.
Qed.

Lemma gap_offsets_fit gs : Forall (λ g, 0 <= gap_start g < 2 ^ 16 ∧ 0 <= gap_end g < 2 ^ 16) gs → Forall (λ o, 0 <= o < 2 ^ 16) (gap_offsets gs).
Proof.
  unfold gap_offsets. induction 1 as [|g gs Hg _ IH]; [done|]. csimpl. apply Forall_app. split; [|done].
  apply Forall_forall. intros o Ho%elem_of_seqZ. lia.
Qed.

Lemma marked_offset x k o offs :
  1 <= o <= k → k < 2 ^ 31 → Forall (λ o, 1 <= o <= k) offs →
  existsb (λ o', u32 (x + o) =? u32 (x + o')) offs = bool_decide (o ∈ offs).
Proof.
  intros Ho Hk Hoffs. induction Hoffs as [|o' offs Ho' _ IH]; [done|]. cbn [existsb]. rewrite IH, u32_eqb by lia.
  destruct (Z.eqb_spec (x + o) (x + o')) as [E|E].
  - assert (o' = o) as -> by lia. cbn [orb]. symmetry. apply bool_decide_eq_true_2. left.
  - cbn [orb]. apply bool_decide_ext. rewrite elem_of_cons. split; [by right|]. intros [->|]; [lia|done].
Qed.

(** A SACK in the window. *)
Lemma sack_in_window a cum n d now x :
  sender a cum n → takes_sack a → cumulative_tsn_ack d = u32 x → cum <= x <= cum + n →
  Forall (λ o, 1 <= o <= cum + n - x) (gap_offsets (gap_ack_blocks d)) →
  ∃ a', handle_sack d now a = (Ok [], a') ∧ sender a' x (cum + n - x) ∧
    ∀ y, x < y <= cum + n → ∃ c c', pq_get (a_inflight_queue a) (u32 y) = Some c ∧ pq_get (a_inflight_queue a') (u32 y) = Some c' ∧
      acked c' = acked c || bool_decide (y - x ∈ gap_offsets (gap_ack_blocks d)) ∧
      (y - x ∉ gap_offsets (gap_ack_blocks d) → user_data c' = user_data c).
Proof.
  intros [H1 H2 H3 R] Hst Hd Hx Hg. unfold handle_sack. rewrite takes_sack_guard by done. cbv zeta.
  set (a0 := a <| a_stats ::= inc_sacks |>). set (st := a_state a). clearbody st.
  change (pq_rel (a_inflight_queue a0) cum (seqZ (cum + 1) n)) in R. change (a_my_next_tsn a0 = u32 (cum + n + 1)) in H2.
  change (a_cumulative_tsn_ack_point a0 = u32 cum) in H1. change (a_inflight_queue a) with (a_inflight_queue a0). clearbody a0.
  pose proof (window_small _ _ _ R). pose proof (in_flight_size _ _ _ H3 R) as Hsz.
  rewrite H1, Hd, sna32gt_spec, (proj2 (Z.ltb_ge _ _)) by lia. unfold process_selective_ack. unfold sbind at 1 2. rewrite H1, Hd, u32_succ.
  destruct (ack_loop_spec (inflight_fuel a0) a0 cum n x now ∅ R) as (m & a1 & -> & V1 & R1 & A1); [lia|unfold inflight_fuel; lia|].
  destruct (gap_loop_marks x now _ m (u32 x) a1 (cum + n - x) x R1 Hg eq_refl) as (m' & h & a2 & -> & V2 & Hh & R2 & M2); [lia|].
  assert (sview a2 = (u32 cum, u32 (cum + n + 1))) as V by (rewrite V2, V1; unfold sview; by rewrite H1, H2). injection V as E1 E2.
  rewrite <- Hd. destruct (sack_rest cum a2 x (cum + n - x) d now st m' h (map_fold (λ _ n t, t + n) 0 m')) as (a' & E & S' & M');
    [rewrite E2; f_equal; lia|lia|done|done|done|lia|lia|].
  exists a'. split; [exact E|]. split; [done|]. intros y Hy. destruct (in_flight _ _ _ y R) as (c & Hc & _); [lia|]. unfold pq_get in *.
  assert (chunk_map (a_inflight_queue a1) !! u32 y = Some c) as Hc1 by (by rewrite A1).
  destruct (marked_trans _ _ _ _ _ M2 M' _ _ Hc1) as (c' & Hc' & Ea & Eu). exists c, c'.
  assert (existsb (λ o, u32 y =? u32 (x + o)) (gap_offsets (gap_ack_blocks d)) = bool_decide (y - x ∈ gap_offsets (gap_ack_blocks d))) as Ex.
  { rewrite <- (marked_offset x (cum + n - x)) by (done || lia). by replace (x + (y - x)) with y by lia. }
  cbn beta in Ea, Eu. rewrite Ex, orb_false_r in Ea, Eu.
  split_and!; [done|done|done|]. intros Hn. by apply Eu, bool_decide_eq_false_2.
Qed.

Lemma sack_of_unknown_gap a cum n d now x :
  sender a cum n → takes_sack a → cumulative_tsn_ack d = u32 x → cum <= x <= cum + n →
  Forall (λ o, 0 <= o < 2 ^ 16) (gap_offsets (gap_ack_blocks d)) → ¬ Forall (λ o, 1 <= o <= cum + n - x) (gap_offsets (gap_ack_blocks d)) →
  ∃ a', handle_sack d now a = (Err ErrTsnRequestNotExist, a').
Proof.
  intros [H1 H2 H3 R] Hst Hd Hx Hb Hg. unfold handle_sack. rewrite takes_sack_guard by done. cbv zeta.
  set (a0 := a <| a_stats ::= inc_sacks |>). set (st := a_state a). clearbody st.
  change (pq_rel (a_inflight_queue a0) cum (seqZ (cum + 1) n)) in R.
  change (a_cumulative_tsn_ack_point a0 = u32 cum) in H1. clearbody a0.
  pose proof (window_small _ _ _ R). pose proof (in_flight_size _ _ _ H3 R) as Hsz.
  rewrite H1, Hd, sna32gt_spec, (proj2 (Z.ltb_ge _ _)) by lia. unfold process_selective_ack, sbind. rewrite H1, Hd, u32_succ.
  destruct (ack_loop_spec (inflight_fuel a0) a0 cum n x now ∅ R) as (m & a1 & -> & V1 & R1 & A1); [lia|unfold inflight_fuel; lia|].
  destruct (gap_loop_beyond x now _ m (u32 x) a1 (cum + n - x) R1 Hb Hg) as (a' & ->). by eexists.
Qed.

(** C27: a SACK does to the chunks in flight what it says.  One whose cumulative TSN is older
    than the last changes nothing.  One that acknowledges TSNs that were sent takes exactly
    those up to its cumulative TSN out of the queue and marks exactly those of its gap blocks
    as acknowledged, keeping the data of all others for retransmission; the handler returns
    without an error.  One that acknowledges a TSN that was never sent, cumulatively or in a
    gap block, is refused with an error.  TSNs may wrap. *)
Theorem sack_processing a cum n d now x :
  sender a cum n → takes_sack a → cumulative_tsn_ack d = u32 x → Z.abs (x - cum) < 2 ^ 31 →
  Forall (λ g, 0 <= gap_start g < 2 ^ 16 ∧ 0 <= gap_end g < 2 ^ 16) (gap_ack_blocks d) →
  let offsets := gap_offsets (gap_ack_blocks d) in
  (x < cum → handle_sack d now a = (Ok [], a <| a_stats ::= inc_sacks |>)) ∧
  (cum <= x <= cum + n → Forall (λ o, 1 <= o <= cum + n - x) offsets →
     ∃ a', handle_sack d now a = (Ok [], a') ∧ sender a' x (cum + n - x) ∧
       ∀ y, x < y <= cum + n → ∃ c c',
         pq_get (a_inflight_queue a) (u32 y) = Some c ∧ pq_get (a_inflight_queue a') (u32 y) = Some c' ∧
         acked c' = acked c || bool_decide (y - x ∈ offsets) ∧ (y - x ∉ offsets → user_data c' = user_data c)) ∧
  (cum <= x <= cum + n → ¬ Forall (λ o, 1 <= o <= cum + n - x) offsets →
     ∃ a', handle_sack d now a = (Err ErrTsnRequestNotExist, a')) ∧
  (cum + n < x → ∃ a', handle_sack d now a = (Err ErrInflightQueueTsnPop, a')).
Proof.
  intros Hs Hst Hd Hx Hg offsets. split_and!.
  - intros ?. eapply old_sack_ignored; [done..|lia].
  - intros Hw Hf. by apply (sack_in_window a cum n).
  - intros Hw Hf. apply (sack_of_unknown_gap a cum n d now x); try done. by apply gap_offsets_fit.
  - intros ?. eapply (sack_of_unsent a cum n); [done..|lia].
Qed.

(** * Sending

    What is sent of a chunk that was queued: the same chunk, with a TSN and stamped. *)
Definition sent (now t : Z) (c c' : ChunkPayloadData) : Prop :=
  received c' = received (c <| tsn := u32 t |>) ∧ nsent c' = 1 ∧ since c' = Some now.

(** The chunks get consecutive TSNs, in the order in which they were queued. *)
Fixpoint sent_from (now t : Z) (cs cs' : list ChunkPayloadData) : Prop :=
  match cs, cs' with
  | [], [] => True
  | c :: cs, c' :: cs' => sent now t c c' ∧ sent_from now (t + 1) cs cs'
  | _, _ => False
  end.

Definition has_data (c : ChunkPayloadData) : Prop := user_data c ≠ [].
#[export] Instance has_data_dec c : Decision (has_data c).
Proof. unfold has_data. apply _. Defined.

Lemma sent_data now t c c' : sent now t c c' → user_data c' = user_data c.
Proof. intros [E _]. by injection E. Qed.

Lemma sent_bytes now t cs cs' : sent_from now t cs cs' → bytes_of cs' = bytes_of cs.
Proof.
  revert t cs'. induction cs as [|c cs IH]; intros t [|c' cs']; [done|done|done|]. intros [H1 H2]. unfold bytes_of. cbn [foldr].
  fold (bytes_of cs) (bytes_of cs'). by rewrite (IH _ _ H2), (sent_data _ _ _ _ H1).
Qed.

Lemma peek_schedule q cur us os : pending_ok q cur us os → peek q = head (schedule cur us os).
Proof.
  intros [Hu Ho Hus Hos Hcur _ _]. unfold peek, schedule. rewrite Hu, Ho. destruct (selected q); cbn [andb] in *.
  - destruct cur as [|c l]; [done|]. by destruct (unordered_is_selected q).
  - subst cur. cbn [app]. destruct us as [|[|c l] us]; [|by apply Forall_cons_1 in Hus as [[] _]|done]. done.
Qed.

Lemma len0 {A} (l : list A) : (len l =? 0) = bool_decide (l = []).
Proof.
  destruct l as [|x l]; [done|]. rewrite bool_decide_eq_false_2 by done. apply Z.eqb_neq. rewrite len_cons. pose proof (len_nonneg l). lia.
Qed.

Lemma status_received c now u ss :
  let c' := check_partial_reliability_status c now u ss in
  received c' = received c ∧ nsent c' = nsent c ∧ since c' = since c ∧ tsn c' = tsn c ∧ acked c' = acked c.
Proof.
  unfold check_partial_reliability_status. destruct (negb u); [done|]. destruct (is_dcep _); [done|].
  destruct (ss !! _) as [s|]; [|done]. destruct (ss_reliability_type s); [done|by destruct (_ <=? _)|].
  destruct (since c) eqn:E; [destruct (_ <=? _)|]; split_and!; try done; by rewrite E.
Qed.

Lemma data_bytes_push q c : chunk_map q !! tsn c = None → data_bytes (chunk_map (push_no_check q c)) = data_bytes (chunk_map q) + len (user_data c).
Proof. intros H. unfold push_no_check. cbn [chunk_map]. rewrite data_bytes_insert by done. lia. Qed.

(** What moving chunks to the in-flight queue leaves alone. *)
Definition wview (a : Association) : Z * Z * Z * gmap Z StreamState := (a_cumulative_tsn_ack_point a, a_cwnd a, a_mtu a, a_streams a).

Lemma move_spec a cum n cur us os c rest now :
  sender a cum n → pending_ok (a_pending_queue a) cur us os → schedule cur us os = c :: rest → n + 1 < 2 ^ 31 →
  ∃ c' a' cur' us' os',
    move_pending_data_chunk_to_inflight_queue (beginning_fragment c) (unordered c) now a = (Some c', a') ∧
    pending_ok (a_pending_queue a') cur' us' os' ∧ rest = schedule cur' us' os' ∧ sender a' cum (n + 1) ∧ sent now (cum + n + 1) c c' ∧
    data_bytes (chunk_map (a_inflight_queue a')) = data_bytes (chunk_map (a_inflight_queue a)) + len (user_data c) ∧
    wview a' = wview a ∧ a_rwnd a' = a_rwnd a.
Proof.
  intros [H1 H2 H3 R] P E Hn. pose proof (pop_next_spec _ _ _ _ P) as Hp. rewrite E in Hp.
  destruct Hp as (q' & cur' & us' & os' & Ep & P' & [= E']). unfold pop_next in Ep. rewrite (peek_schedule _ _ _ _ P), E in Ep. cbn [head] in Ep.
  unfold move_pending_data_chunk_to_inflight_queue. rewrite Ep. cbv zeta. set (a1 := a <| a_pending_queue := q' |>).
  change (a_cumulative_tsn_ack_point a) with (a_cumulative_tsn_ack_point a1) in H1. change (a_my_next_tsn a) with (a_my_next_tsn a1) in H2.
  change (pending_ok (a_pending_queue a1) cur' us' os') in P'. change (a_inflight_queue a) with (a_inflight_queue a1) in *.
  change (wview a) with (wview a1). change (a_rwnd a) with (a_rwnd a1). clearbody a1. clear P Ep. unfold generate_next_tsn.
  set (c1 := if ending_fragment c then set_all_inflight c else c).
  assert (received (c1 <| tsn := a_my_next_tsn a1 |>) = received (c <| tsn := a_my_next_tsn a1 |>)) as Ec1 by (unfold c1; by destruct (ending_fragment c)).
  set (c2 := c1 <| tsn := a_my_next_tsn a1 |> <| since := Some now |> <| nsent := 1 |>).
  assert (received c2 = received (c <| tsn := a_my_next_tsn a1 |>) ∧ nsent c2 = 1 ∧ since c2 = Some now) as (Ec2 & En & Es) by (by rewrite <- Ec1).
  set (a2 := a1 <| a_my_next_tsn := _ |>). change (a_use_forward_tsn a2) with (a_use_forward_tsn a1). change (a_streams a2) with (a_streams a1). unfold a2. clear a2.
  set (c3 := check_partial_reliability_status c2 now _ _).
  destruct (status_received c2 now (a_use_forward_tsn a1) (a_streams a1)) as (E3 & E4 & E5 & _). fold c3 in E3, E4, E5.
  assert (received c3 = received (c <| tsn := a_my_next_tsn a1 |>)) as E6 by (rewrite <- Ec2; exact E3).
  assert (nsent c3 = 1) as E7 by (rewrite <- En; exact E4). assert (since c3 = Some now) as E8 by (rewrite <- Es; exact E5).
  clearbody c3. clear E3 E4 E5 En Es Ec2 Ec1 c2 c1.
  assert (tsn c3 = u32 (cum + n + 1)) as Ht by (rewrite <- H2; by injection E6). assert (user_data c3 = user_data c) as Hud by (by injection E6).
  assert (chunk_map (a_inflight_queue a1) !! tsn c3 = None) as Hnone by (rewrite Ht; apply (not_in_flight _ cum n); [done|lia|lia]).
  eexists c3, _, cur', us', os'. split; [reflexivity|]. split_and!; [exact P'|exact E'| |split; [by rewrite <- H2|done]| |done|done].
  - split; [exact H1| |lia|].
    + change (u32 (a_my_next_tsn a1 + 1) = u32 (cum + (n + 1) + 1)). rewrite H2, u32_succ. f_equal. lia.
    + change (pq_rel (push_no_check (a_inflight_queue a1) c3) cum (seqZ (cum + 1) (n + 1))).
      destruct (rel_store _ _ _ R (cum + n + 1) c3) as (l1 & l2 & El & Hl1 & Hl2 & R'); [lia|rewrite elem_of_seqZ; lia|done|].
      assert (l2 = []) as ->. { destruct l2 as [|y l2]; [done|]. apply Forall_cons in Hl2 as [Hy _].
        assert (y ∈ seqZ (cum + 1) n) as Hin%elem_of_seqZ by (rewrite El; apply elem_of_app; right; left). lia. }
      rewrite app_nil_r in El. subst l1. replace (n + 1) with (n + Z.succ 0) by lia. rewrite seqZ_app by lia.
      replace (cum + 1 + n) with (cum + n + 1) by lia. exact R'.
  - change (data_bytes (chunk_map (push_no_check (a_inflight_queue a1) c3)) = data_bytes (chunk_map (a_inflight_queue a1)) + len (user_data c)).
    rewrite data_bytes_push by done. by rewrite Hud.
Qed.

(** The reset requests among the chunks that were taken. *)
Definition resets (cs : list ChunkPayloadData) : list Z := stream_identifier <$> filter (λ c, ¬ has_data c) cs.

Lemma bytes_of_nonneg l : 0 <= bytes_of l.
Proof. induction l as [|c l IH]; [done|]. unfold bytes_of. cbn [foldr]. fold (bytes_of l). pose proof (len_nonneg (user_data c)). lia. Qed.

Lemma bytes_of_cons c l : bytes_of (c :: l) = len (user_data c) + bytes_of l.
Proof. done. Qed.

(** Popping an empty chunk. *)
Lemma pop_empty a cur us os c rest :
  pending_ok (a_pending_queue a) cur us os → schedule cur us os = c :: rest →
  ∃ cur' us' os', pending_ok (snd (pending_pop (a_pending_queue a) (beginning_fragment c) (unordered c))) cur' us' os' ∧
    rest = schedule cur' us' os'.
Proof.
  intros P E. pose proof (pop_next_spec _ _ _ _ P) as Hp. rewrite E in Hp. destruct Hp as (q' & cur' & us' & os' & Ep & P' & [= E']).
  unfold pop_next in Ep. rewrite (peek_schedule _ _ _ _ P), E in Ep. cbn [head] in Ep. rewrite Ep. by exists cur', us', os'.
Qed.

(** What the loop over the pending queue has done: [taken] left the queue, [new] was sent. *)
Record drained (now cum n : Z) (a a' : Association) (old : list ChunkPayloadData) (taken new : list ChunkPayloadData) : Prop := {
  dr_queue : ∃ cur us os, pending_ok (a_pending_queue a') cur us os ∧ old = taken ++ schedule cur us os;
  dr_sender : sender a' cum (n + len new);
  dr_sent : sent_from now (cum + n + 1) (filter has_data taken) new;
  dr_bytes : data_bytes (chunk_map (a_inflight_queue a')) = data_bytes (chunk_map (a_inflight_queue a)) + bytes_of new;
  dr_view : wview a' = wview a
}.

Lemma pending_loop_spec fuel now acc sis a cum n cur us os :
  sender a cum n → pending_ok (a_pending_queue a) cur us os → n + len (schedule cur us os) < 2 ^ 31 →
  data_bytes (chunk_map (a_inflight_queue a)) + bytes_of (schedule cur us os) < 2 ^ 64 → 0 <= data_bytes (chunk_map (a_inflight_queue a)) →
  a_rwnd a < 2 ^ 32 → (length (schedule cur us os) <= fuel)%nat →
  ∃ taken new a', pending_loop fuel now acc sis a = (Ok (acc ++ new, sis ++ resets taken), a') ∧
    drained now cum n a a' (schedule cur us os) taken new ∧
    (new = [] ∨ data_bytes (chunk_map (a_inflight_queue a')) <= a_cwnd a) ∧ a_rwnd a' = a_rwnd a - bytes_of new ∧
    (new = [] ∨ 0 <= a_rwnd a') ∧
    (∀ c, peek (a_pending_queue a') = Some c → has_data c).
Proof.
  revert acc sis a n cur us os. induction fuel as [|fuel IH]; intros acc sis a n cur us os S P Hn Hb Hb0 Hr Hf;
    cbn [pending_loop]; rewrite (peek_schedule _ _ _ _ P); destruct (schedule cur us os) as [|c rest] eqn:E; cbn [head]; try (cbn in Hf; lia).
  1,2: exists [], [], a; rewrite !app_nil_r; split_and!; [done| |by left|cbn; lia|by left|
         intros c; rewrite (peek_schedule _ _ _ _ P), E; done];
       split; [by exists cur, us, os|rewrite Z.add_0_r; done|done|cbn; lia|done].
  assert (∀ new, pending_ok (a_pending_queue a) cur us os ∧ c :: rest = [] ++ schedule cur us os) as Hself by (by rewrite E).
  assert (has_data c → ∃ taken new a', (Ok (acc, sis), a) = (Ok (acc ++ new, sis ++ resets taken), a') ∧
    drained now cum n a a' (c :: rest) taken new ∧ (new = [] ∨ data_bytes (chunk_map (a_inflight_queue a')) <= a_cwnd a) ∧
    a_rwnd a' = a_rwnd a - bytes_of new ∧ (new = [] ∨ 0 <= a_rwnd a') ∧ (∀ d, peek (a_pending_queue a') = Some d → has_data d)) as Hstop.
  { intros Hd. exists [], [], a. rewrite !app_nil_r. split_and!; [done| |by left|cbn; lia|by left|].
    - split; [exists cur, us, os; by rewrite E|by rewrite Z.add_0_r|done|cbn; lia|done].
    - intros d. rewrite (peek_schedule _ _ _ _ P), E. by intros [= <-]. }
  rewrite len0. destruct (bool_decide (user_data c = [])) eqn:Hd.
  { apply bool_decide_eq_true_1 in Hd. destruct (pop_empty a cur us os c rest P E) as (cur1 & us1 & os1 & P1 & E1).
    set (a1 := a <| a_pending_queue := _ |>). rewrite bytes_of_cons in Hb. rewrite len_cons in Hn. pose proof (len_nonneg (user_data c)).
    change (pending_ok (a_pending_queue a1) cur1 us1 os1) in P1. assert (sender a1 cum n) as S1 by (by destruct S).
    change (data_bytes (chunk_map (a_inflight_queue a))) with (data_bytes (chunk_map (a_inflight_queue a1))) in *.
    change (a_rwnd a) with (a_rwnd a1) in *. change (a_cwnd a) with (a_cwnd a1). assert (wview a1 = wview a) as W1 by done.
    assert (a_inflight_queue a1 = a_inflight_queue a) as Q1 by done. clearbody a1.
    destruct (IH acc (sis ++ [stream_identifier c]) a1 n cur1 us1 os1 S1 P1) as (taken & new & a' & Er & D & B & Rw & Rn & Pk);
      [rewrite <- E1; lia|rewrite <- E1; lia|done|done|rewrite <- E1; cbn in Hf; lia|].
    exists (c :: taken), new, a'. split_and!; try done.
    - rewrite Er. unfold resets. rewrite filter_cons_True by (unfold has_data; by intros ?). by rewrite <- app_assoc.
    - destruct D as [(cur' & us' & os' & P' & E') D2 D3 D4 D5]. rewrite <- E1 in E'. split; [by exists cur', us', os'; rewrite E'|done| |by rewrite <- Q1|congruence].
      rewrite filter_cons_False by (unfold has_data; by intros ?). done. }
  apply bool_decide_eq_false_1 in Hd. pose proof (snd_queue _ _ _ S) as Rq. rewrite bytes_of_cons in Hb. rewrite len_cons in Hn.
  pose proof (bytes_of_nonneg rest). pose proof (len_nonneg (user_data c)). pose proof (len_nonneg rest).
  assert (pq_n_bytes (a_inflight_queue a) = data_bytes (chunk_map (a_inflight_queue a))) as Eb
    by (rewrite (rel_bytes _ _ _ Rq); unfold wrap; apply Z.mod_small; lia). rewrite Eb.
  destruct (Z.ltb_spec (a_cwnd a) (data_bytes (chunk_map (a_inflight_queue a)) + len (user_data c))); [by apply Hstop|].
  destruct (Z.ltb_spec (a_rwnd a) (len (user_data c))); [by apply Hstop|].
  set (a1 := a <| a_rwnd := _ |>). assert (sender a1 cum n) as S1 by (by destruct S). change (a_pending_queue a) with (a_pending_queue a1) in P.
  assert (a_rwnd a1 = a_rwnd a - len (user_data c)) as R1 by (change (a_rwnd a - u32 (len (user_data c)) = a_rwnd a - len (user_data c));
    unfold wrap; rewrite Z.mod_small by lia; done). assert (wview a1 = wview a) as W1 by done. assert (a_inflight_queue a1 = a_inflight_queue a) as Q1 by done.
  change (a_inflight_queue a) with (a_inflight_queue a1) in *. change (a_cwnd a) with (a_cwnd a1) in *. change (a_inflight_queue a1 = a_inflight_queue a) in Q1. clearbody a1.
  destruct (move_spec a1 cum n cur us os c rest now S1 P E) as (c' & a2 & cur2 & us2 & os2 & -> & P2 & E2 & S2 & St & B2 & W2 & R2); [lia|].
  destruct (IH (acc ++ [c']) sis a2 (n + 1) cur2 us2 os2 S2 P2) as (taken & new & a' & Er & D & B & Rw & Rn & Pk);
    [rewrite <- E2; lia|rewrite <- E2, B2; lia|rewrite B2; lia|lia|rewrite <- E2; cbn in Hf; lia|].
  assert (len (user_data c') = len (user_data c)) as Lc by (by rewrite (sent_data _ _ _ _ St)).
  assert (a_cwnd a2 = a_cwnd a1) as Cw by (by injection W2).
  exists (c :: taken), (c' :: new), a'. destruct D as [(cur' & us' & os' & P' & E') D2 D3 D4 D5]. split_and!.
  - rewrite Er. unfold resets. rewrite filter_cons_False by (intros HH; by apply HH). by rewrite <- app_assoc.
  - rewrite <- E2 in E'. split; [by exists cur', us', os'; rewrite E'|rewrite len_cons; by replace (n + (1 + len new)) with (n + 1 + len new) by lia| | |congruence].
    + rewrite filter_cons_True by done. split; [done|]. by replace (cum + n + 1 + 1) with (cum + (n + 1) + 1) by lia.
    + rewrite D4, B2, bytes_of_cons, <- Q1. lia.
  - right. destruct B as [->|B]; [rewrite D4, B2; cbn; lia|by rewrite <- Cw].
  - rewrite Rw, R2, R1, bytes_of_cons. lia.
  - right. destruct Rn as [->|Rn]; [|done]. rewrite Rw. cbn. lia.
  - done.
Qed.

Lemma data_bytes_nonneg m : 0 <= data_bytes m.
Proof.
  induction m as [|t c m Ht IH] using map_ind; [done|]. rewrite data_bytes_insert by done. pose proof (len_nonneg (user_data c)). lia.
Qed.

Lemma schedule_length q cur us os :
  pending_ok q cur us os → length (schedule cur us os) = (length (unordered_queue q) + length (ordered_queue q))%nat.
Proof.
  intros [Hu Ho _ _ Hc _ _]. unfold schedule. rewrite Hu, Ho, !length_app.
  destruct (selected q), (unordered_is_selected q); cbn [andb negb] in *; subst; cbn [length app]; lia.
Qed.

Lemma queue_empty q cur us os :
  pending_ok q cur us os → len (schedule cur us os) < 2 ^ 31 → (queue_len q =? 0) = bool_decide (schedule cur us os = []).
Proof.
  intros P Hl. rewrite <- len0. f_equal. rewrite (po_len _ _ _ _ P), len_app. unfold len in *. rewrite (schedule_length _ _ _ _ P) in *.
  unfold wrap. rewrite Z.mod_small; lia.
Qed.

Lemma exists_data_split taken rest : Exists has_data (taken ++ rest) → filter has_data taken = [] → Exists has_data rest.
Proof.
  intros [H|H]%Exists_app E; [|done]. apply Exists_exists in H as (c & Hc & Hd).
  assert (c ∈ filter has_data taken) as Hin by (by apply list_elem_of_filter). rewrite E in Hin. by apply elem_of_nil in Hin.
Qed.

(** C28: what leaves the pending queue.  The association takes a first part of the queued chunks,
    in the order of the queue; the chunks with data get the next TSNs, one after the other,
    and join the chunks in flight with nothing else changed of what the peer will see; the
    chunks without data become stream resets.  The bytes in flight stay within the
    congestion window and those sent within the peer's window, but for a single chunk that
    is sent when nothing is in flight, and then something is sent whenever there is data:
    the sender never stalls with an idle path.  The loop always ends. *)
Theorem pending_chunks_sent a cum n cur us os now :
  sender a cum n → pending_ok (a_pending_queue a) cur us os → n + len (schedule cur us os) < 2 ^ 31 →
  data_bytes (chunk_map (a_inflight_queue a)) + bytes_of (schedule cur us os) < 2 ^ 64 → a_rwnd a < 2 ^ 32 →
  ∃ taken new a', pop_pending_data_chunks_to_send now a = (Ok (new, resets taken), a') ∧
    drained now cum n a a' (schedule cur us os) taken new ∧
    (data_bytes (chunk_map (a_inflight_queue a')) <= Z.max (a_cwnd a) (data_bytes (chunk_map (a_inflight_queue a))) ∧
     bytes_of new <= Z.max 0 (a_rwnd a)
     ∨ n = 0 ∧ length new = 1%nat) ∧
    (n = 0 → Exists has_data (schedule cur us os) → new ≠ []).
Proof.
  intros S P Hn Hb Hr. pose proof (data_bytes_nonneg (chunk_map (a_inflight_queue a))) as Hb0. pose proof (snd_count _ _ _ S).
  unfold pop_pending_data_chunks_to_send. rewrite (queue_empty _ _ _ _ P) by lia.
  destruct (bool_decide (schedule cur us os = [])) eqn:Ee.
  { apply bool_decide_eq_true_1 in Ee. exists [], [], a. split_and!; [done| |left; cbn; lia|rewrite Ee; by intros _ ?%Exists_nil].
    split; [by exists cur, us, os|by rewrite Z.add_0_r|done|cbn; lia|done]. }
  clear Ee. unfold sbind.
  destruct (pending_loop_spec (pending_fuel a) now [] [] a cum n cur us os S P) as (taken & new & a1 & -> & D & B & Rw & Rn & Pk);
    [done|done|done|done|rewrite (schedule_length _ _ _ _ P); unfold pending_fuel; lia|]. cbn [app].
  assert (data_bytes (chunk_map (a_inflight_queue a1)) <= Z.max (a_cwnd a) (data_bytes (chunk_map (a_inflight_queue a))) ∧
     bytes_of new <= Z.max 0 (a_rwnd a)) as HB.
  { rewrite (dr_bytes _ _ _ _ _ _ _ _ D) in *. destruct B as [->|B]; [cbn; lia|]. destruct Rn as [->|Rn]; [cbn; lia|lia]. }
  pose proof D as [(cur1 & us1 & os1 & P1 & E1) D2 D3 D4 D5].
  destruct (bool_decide (new = []) && pq_is_empty (a_inflight_queue a1)) eqn:Ep.
  2:{ exists taken, new, a1. split_and!; [done|done|by left|]. intros Hz _ ->. subst n. cbn in Ep.
      pose proof (in_flight_size _ _ 0 (Z.le_refl 0) (snd_queue _ _ _ D2)) as Hsz. unfold pq_is_empty, pq_len in Ep. rewrite Hsz in Ep. done. }
  apply andb_true_iff in Ep as [En%bool_decide_eq_true_1 Eq]. subst new. rewrite len_nil, Z.add_0_r in D2.
  assert (n = 0) as ->.
  { pose proof (in_flight_size _ _ n ltac:(done) (snd_queue _ _ _ D2)) as Hsz. unfold pq_is_empty, pq_len in Eq. rewrite Hsz in Eq. by apply Z.eqb_eq in Eq. }
  rewrite (peek_schedule _ _ _ _ P1) in *. destruct (schedule cur1 us1 os1) as [|c rest] eqn:Es; cbn [head] in *.
  - exists taken, [], a1. split_and!; [done|done|by left|]. intros _ Hex _. rewrite E1 in Hex. apply exists_data_split in Hex; [by apply Exists_nil in Hex|].
    by destruct (filter has_data taken).
  - destruct (move_spec a1 cum 0 cur1 us1 os1 c rest now D2 P1 Es) as (c' & a2 & cur2 & us2 & os2 & -> & P2 & E2 & S2 & St & B2 & W2 & _); [done|].
    exists (taken ++ [c]), [c'], a2. split_and!; [|split|by right|done].
    + unfold resets. rewrite filter_app, filter_cons_False by (intros HH; apply HH; by apply Pk). by rewrite app_nil_r.
    + exists cur2, us2, os2. split; [done|]. by rewrite E1, E2, <- app_assoc.
    + exact S2.
    + rewrite filter_app, filter_cons_True by (by apply Pk). destruct (filter has_data taken); done.
    + rewrite B2, D4, bytes_of_cons, (sent_data _ _ _ _ St). cbn. lia.
    + by rewrite W2.
Qed.

(** * Bundling *)

(** The size of a packet with these chunks, without the padding of the chunks. *)
Definition bundle_size (p : list ChunkPayloadData) : Z :=
  COMMON_HEADER_SIZE + foldr (λ c n, DATA_CHUNK_HEADER_SIZE + len (user_data c) + n) 0 p.

Lemma bundle_size_snoc p c : bundle_size (p ++ [c]) = bundle_size p + (DATA_CHUNK_HEADER_SIZE + len (user_data c)).
Proof. unfold bundle_size. induction p as [|d p IH]; cbn [foldr app]; lia. Qed.

(** A bundle stops before the chunk whose data would not fit; the header of that chunk is not
    counted. *)
Definition bundle_ok (mtu : Z) (p : list ChunkPayloadData) : Prop :=
  p ≠ [] ∧ (length p = 1%nat ∨ bundle_size p <= mtu + DATA_CHUNK_HEADER_SIZE).

Fixpoint ranges (start : Z) (parts : list (list ChunkPayloadData)) : list (Z * Z) :=
  match parts with
  | [] => []
  | p :: parts => (start, start + len p) :: ranges (start + len p) parts
  end.

Lemma bundle_loop_spec mtu start cur rest :
  0 <= mtu < 2 ^ 31 → Forall (λ c, len (user_data c) < 65520) (cur ++ rest) → (cur = [] ∧ rest ≠ [] ∨ bundle_ok mtu cur) → 0 <= start →
  ∃ parts, bundle_loop mtu (start + len cur) ((λ c, u32 (len (user_data c))) <$> rest) start (bundle_size cur) = ranges start parts ∧
    concat parts = cur ++ rest ∧ Forall (bundle_ok mtu) parts.
Proof.
  intros Hm. revert start cur. induction rest as [|c rest IH]; intros start cur Hl Hcur Hs; csimpl; cbn [bundle_loop].
  { destruct Hcur as [[_ []]|Hcur]; [done|]. exists [cur]. cbn [ranges concat]. split_and!; [done|by rewrite !app_nil_r|]. by apply Forall_singleton. }
  assert (len (user_data c) < 65520) as Hc by (apply Forall_app in Hl as [_ Hl]; by apply Forall_cons in Hl as [? _]).
  pose proof (len_nonneg (user_data c)) as Hc0.
  assert (0 <= bundle_size cur <= mtu + 16 ∨ 0 <= bundle_size cur <= 65548) as Hsz.
  { assert (∀ p, 12 <= bundle_size p) as Hmin. { intros p. unfold bundle_size, COMMON_HEADER_SIZE. clear. induction p as [|d p IHp]; cbn [foldr]; [lia|].
      unfold DATA_CHUNK_HEADER_SIZE in *. pose proof (len_nonneg (user_data d)). lia. }
    specialize (Hmin cur). destruct Hcur as [[-> _]|[_ [H1|H1]]]; [right; unfold bundle_size, COMMON_HEADER_SIZE; cbn [foldr]; lia| |unfold DATA_CHUNK_HEADER_SIZE in H1; lia].
    destruct cur as [|d [|]]; try done. right. apply Forall_app in Hl as [Hl _]. apply Forall_cons in Hl as [Hd _]. split; [lia|].
    change (bundle_size [d]) with (12 + (16 + len (user_data d) + 0)). lia. }
  assert (u32 (len (user_data c)) = len (user_data c)) as -> by (unfold wrap; apply Z.mod_small; lia).
  assert (u32 (bundle_size cur + len (user_data c)) = bundle_size cur + len (user_data c)) as -> by (unfold wrap; apply Z.mod_small; lia).
  assert (∀ x, 0 <= x <= 2147549196 → u32 (x + (DATA_CHUNK_HEADER_SIZE + len (user_data c))) = x + (DATA_CHUNK_HEADER_SIZE + len (user_data c))) as Hu
    by (intros x Hx; unfold wrap, DATA_CHUNK_HEADER_SIZE; apply Z.mod_small; lia).
  destruct ((mtu <? bundle_size cur + len (user_data c)) && (start <? start + len cur)) eqn:Eb.
  - apply andb_true_iff in Eb as [_ Hne%Z.ltb_lt]. destruct Hcur as [[-> _]|Hcur]; [rewrite len_nil in Hne; lia|].
    rewrite (Hu COMMON_HEADER_SIZE) by (unfold COMMON_HEADER_SIZE; lia).
    destruct (IH (start + len cur) [c]) as (parts & E & Ec & Hp); [by apply Forall_app in Hl as [_ ?]|right; split; [done|by left]|
      pose proof (len_nonneg cur); lia|].
    replace (bundle_size [c]) with (COMMON_HEADER_SIZE + (DATA_CHUNK_HEADER_SIZE + len (user_data c))) in E
      by (unfold bundle_size; cbn [foldr]; lia). change (len [c]) with 1 in E. rewrite E.
    exists (cur :: parts). cbn [ranges concat]. split_and!; [done|by rewrite Ec|by constructor].
  - rewrite (Hu (bundle_size cur)) by lia. rewrite <- bundle_size_snoc, <- Z.add_assoc.
    replace (len cur + 1) with (len (cur ++ [c])) by (rewrite len_app, len_cons, len_nil; lia).
    destruct (IH start (cur ++ [c])) as (parts & E & Ec & Hp); [by rewrite <- app_assoc| |done|].
    + right. split; [by destruct cur|]. rewrite bundle_size_snoc. apply andb_false_iff in Eb as [H1%Z.ltb_ge|H1%Z.ltb_ge].
      * right. lia.
      * left. destruct cur; [done|]. rewrite len_cons in H1. pose proof (len_nonneg cur). lia.
    + exists parts. rewrite E. split_and!; [done|by rewrite Ec, <- app_assoc|done].
Qed.

Section Bundling.
Context {BC : BytesCrate} {CRC : Crc32c} {CL : Crc32cLaws}.

Definition data_packet (h : CommonHeader) (p : list ChunkPayloadData) : Packet := mkPacket h (CData <$> p).

Lemma data_packet_ok h p : Forall data_ok p → Forall any_ok (pkt_chunks (data_packet h p)).
Proof. intros H. by apply Forall_fmap. Qed.

Lemma write_bundles_spec h pre parts raw :
  Forall (Forall data_ok) parts →
  write_bundles h (pre ++ concat parts) (ranges (len pre) parts) raw = Ok (raw ++ ((λ p, packet_bytes (data_packet h p)) <$> parts)).
Proof.
  intros H. revert pre raw. induction H as [|p parts Hp _ IH]; intros pre raw; [csimpl; by rewrite app_nil_r|].
  cbn [ranges write_bundles concat]. rewrite (slice_mid pre p) by done. cbn [rbind].
  pose proof (packet_marshal_eq (data_packet h p) (data_packet_ok h p Hp)) as E. unfold packet_marshal, data_packet in E.
  cbn [pkt_header pkt_chunks] in E. destruct (write_framed h (CData <$> p) []) as [[k buf]| |]; try done. cbn [rbind] in E. injection E as ->.
  rewrite app_assoc. replace (len pre + len p) with (len (pre ++ p)) by apply len_app.
  rewrite IH. by rewrite <- app_assoc.
Qed.

Lemma datagram_length h p : Forall data_ok p → len (packet_bytes (data_packet h p)) <= bundle_size p + 3 * len p.
Proof.
  intros H. rewrite len_sctp_packet by (by apply data_packet_ok). unfold marshaled_len, bundle_size, data_packet, PACKET_HEADER_SIZE, COMMON_HEADER_SIZE.
  cbn [pkt_chunks]. clear H. induction p as [|c p IH]; [done|]. csimpl. rewrite len_cons.
  change (data_value_length c) with (PAYLOAD_DATA_HEADER_SIZE + len (user_data c)).
  pose proof (padding_bounds (CHUNK_HEADER_SIZE + (PAYLOAD_DATA_HEADER_SIZE + len (user_data c)))) as Hp.
  unfold CHUNK_HEADER_SIZE, PAYLOAD_DATA_HEADER_SIZE, DATA_CHUNK_HEADER_SIZE in *. lia.
Qed.

Lemma bundling_spec chunks raw a :
  Forall data_ok chunks → chunks ≠ [] → 0 <= a_mtu a < 2 ^ 31 →
  ∃ parts, bundle_data_chunks_into_packets chunks raw a = Ok (raw ++ ((λ p, packet_bytes (data_packet (assoc_header a) p)) <$> parts)) ∧
    concat parts = chunks ∧ Forall (bundle_ok (a_mtu a)) parts ∧ Forall (Forall data_ok) parts.
Proof.
  intros Hd Hne Hm. unfold bundle_data_chunks_into_packets. rewrite bool_decide_eq_false_2 by done.
  destruct (bundle_loop_spec (a_mtu a) 0 [] chunks Hm) as (parts & E & Ec & Hp); [|by left|done|].
  { eapply Forall_impl; [exact Hd|]. by intros c (_ & _ & _ & ?). }
  unfold bundles. change (0 + len []) with 0 in E. change (bundle_size []) with COMMON_HEADER_SIZE in E. rewrite E. cbn [app] in Ec.
  assert (Forall (Forall data_ok) parts) as Hall.
  { rewrite <- Ec in Hd. clear -Hd. induction parts as [|p parts IH]; [done|]. cbn [concat] in Hd. apply Forall_app in Hd as [??]. constructor; [done|by apply IH]. }
  exists parts. split_and!; [|done..]. rewrite <- Ec. apply (write_bundles_spec (assoc_header a) [] parts raw Hall).
Qed.
End Bundling.

(** What the peer reads from the datagram that carries the chunks [p]. *)
Definition received_packet (h : CommonHeader) (p : list ChunkPayloadData) : Packet :=
  mkPacket h ((λ c, CData (received c)) <$> p).

(** C29: the datagrams of a burst carry every chunk exactly once and in order: cut at the bundle
    boundaries, the chunks are those that were given, no datagram is empty, and the peer
    reads from each datagram exactly its chunks.  A datagram with more than one chunk
    exceeds the MTU by no more than one chunk header and the padding of its chunks; one with
    a single chunk is as large as that chunk makes it: both headers, the data and the
    padding. *)
Theorem bundling_complete `{BytesCrate} `{Crc32cLaws} chunks raw a :
  Forall data_ok chunks → chunks ≠ [] → 0 <= a_mtu a < 2 ^ 31 → common_ok (assoc_header a) →
  ∃ parts datagrams,
    bundle_data_chunks_into_packets chunks raw a = Ok (raw ++ datagrams) ∧ concat parts = chunks ∧
    Forall2 (λ p raw, p ≠ [] ∧ packet_unmarshal raw = Ok (received_packet (assoc_header a) p) ∧
                      ((∃ c, p = [c] ∧ len raw <= 28 + len (user_data c) + 3) ∨ len raw <= a_mtu a + 16 + 3 * len p)) parts datagrams.
Proof.
  intros Hd Hne Hm Hh. destruct (bundling_spec chunks raw a Hd Hne Hm) as (parts & E & Ec & Hp & Hok).
  exists parts, ((λ p, packet_bytes (data_packet (assoc_header a) p)) <$> parts). split_and!; [done|done|].
  apply Forall2_fmap_r, Forall2_same_length_lookup. split; [done|]. intros i p p' Hi Hi'. assert (p' = p) as -> by congruence.
  rewrite Forall_lookup in Hp, Hok. destruct (Hp i p Hi) as [Hpn Hps]. specialize (Hok i p Hi). split_and!; [done| |].
  - rewrite packet_read by (done || by apply data_packet_ok). unfold received_packet, data_packet. cbn [pkt_header pkt_chunks]. by rewrite <- list_fmap_compose.
  - pose proof (datagram_length (assoc_header a) p Hok) as Hd'. destruct Hps as [Hone|Hps]; [left|right; unfold DATA_CHUNK_HEADER_SIZE in Hps; lia].
    destruct p as [|c [|]]; [done| |done]. exists c. split; [done|]. change (len [c]) with 1 in Hd'.
    assert (bundle_size [c] = 28 + len (user_data c)) as <-; [|lia]. unfold bundle_size, COMMON_HEADER_SIZE, DATA_CHUNK_HEADER_SIZE. csimpl. lia.
Qed.

(** * Examples *)

(** Two chunks in flight across the wrap-around of the TSN: 4294967295 and 0. *)
Definition sender_example : Association := Eval cbv in
  (assoc_default <| a_state := Established |> <| a_cumulative_tsn_ack_point := 4294967294 |> <| a_my_next_tsn := 1 |> <| a_mtu := 1228 |>
    <| a_cwnd := 4912 |> <| a_rwnd := 1000 |>
    <| a_inflight_queue := mkPQ (<[4294967295 := chunk_with 4294967295 false true true [1; 2]]> (<[0 := chunk_with 0 false true true [3]]> ∅))
                              [4294967295; 0] [] 3 |>).

Lemma sender_example_ok : sender sender_example 4294967294 2.
Proof.
  split; [done|done|done|].
  apply (pair_rel 4294967294 4294967295 4294967296 (chunk_with 4294967295 false true true [1; 2]) (chunk_with 0 false true true [3])); (lia || reflexivity).
Qed.

(** The peer misses the first chunk and has the second. *)
Lemma sack_processing_witness :
  ∃ a', handle_sack (mkSack 4294967294 1000 [mkGap 2 2] []) 0 sender_example = (Ok [], a') ∧ sender a' 4294967294 2.
Proof.
  destruct (sack_processing sender_example 4294967294 2 (mkSack 4294967294 1000 [mkGap 2 2] []) 0 4294967294) as (_ & H & _);
    [exact sender_example_ok|by left|done|done|by repeat constructor|].
  destruct H as (a' & E & Hs & _); [done|by repeat constructor|]. exists a'. split; [exact E|exact Hs].
Defined.

Definition queued_example : Association := Eval cbv in
  (sender_example <| a_pending_queue := foldl pending_push pending_new two_fragments |>).

Lemma pending_chunks_sent_witness :
  ∃ new a', pop_pending_data_chunks_to_send 0 queued_example = (Ok (new, []), a') ∧ tsn <$> new = [1; 2] ∧
    sender a' 4294967294 4.
Proof.
  destruct (pending_chunks_sent queued_example 4294967294 2 [] [] [two_fragments] 0) as (taken & new & a' & E & D & _);
    [destruct sender_example_ok as [_ _ _ R]; split; [reflexivity|reflexivity|done|exact R]|split; try reflexivity; repeat constructor|reflexivity|reflexivity|reflexivity|].
  assert (fst (pop_pending_data_chunks_to_send 0 queued_example) = Ok (new, resets taken)) as E1 by (by rewrite E).
  assert ((∃ r, fst (pop_pending_data_chunks_to_send 0 queued_example) = Ok (r, []) ∧ tsn <$> r = [1; 2])) as (r & E2 & Et)
    by (eexists; split; [vm_compute; reflexivity|reflexivity]).
  rewrite E1 in E2. injection E2 as <- E3. exists new, a'. rewrite E, E3. split_and!; [done|done|].
  pose proof (dr_sender _ _ _ _ _ _ _ _ D) as S. assert (len new = 2) as L by (by rewrite <- (length_fmap tsn new), Et || unfold len; rewrite <- (length_fmap tsn new), Et).
  by rewrite L in S.
Defined.

Section BundlingExample.
#[local] Existing Instance BigEndian.big_endian.
#[local] Existing Instance sum_crc.
#[local] Existing Instance sum_crc_laws.

Definition blob (t n : Z) : ChunkPayloadData := chunk_with t false true true (replicate (Z.to_nat n) 0).

Lemma bundling_complete_witness :
  ∃ parts datagrams,
    bundle_data_chunks_into_packets [blob 1 700; blob 2 700] [] sender_example = Ok datagrams ∧ concat parts = [blob 1 700; blob 2 700] ∧
    Forall (λ p, p ≠ []) parts.
Proof.
  destruct (bundling_complete [blob 1 700; blob 2 700] [] sender_example) as (parts & ds & E & Ec & HF);
    [repeat constructor; vm_compute; intuition congruence|done|vm_compute; intuition congruence|split_and!; vm_compute; intuition congruence|].
  exists parts, ds. split_and!; [exact E|exact Ec|]. clear E Ec. induction HF as [|p r ps rs (Hp & _) _ IH]; [done|]. by constructor.
Defined.
End BundlingExample.

(** Two chunks with 590 and 600 bytes share a datagram, which then has 1236 bytes on a path
    with an MTU of 1228. *)
Lemma bundle_exceeds_mtu :
  bundles 1228 [blob 1 590; blob 2 600] = [(0, 2)] ∧ bundle_size [blob 1 590; blob 2 600] = 1234.
Proof. split; by vm_compute. Qed.
