(* ===== verification/SctpDelivery.v ===== *)
(** A message arrives at an association: its DATA chunks, in any order and any number of times, go
    through [handle_data] of [rtc-sctp/src/association/mod.rs], that is through the queue of TSNs, the
    window and the reassembly queue of the stream ([SctpAssoc], [SctpQueue], [SctpReassembly]). *)

From stdpp Require Import sorting.
From S2P Require Import Prelude SctpChunk SctpQueue SctpReassembly SctpStream SctpAssoc.

(** * The reassembly queue of the stream *)

(** A queue with nothing in it *)
Definition at_rest (q : ReassemblyQueue) : Prop := ordered q = [] ∧ rq_unordered q = [] ∧ unordered_chunks q = [].

Lemma sorted_sublist a n ix : StronglySorted Z.lt ix → Forall (λ i, a <= i < a + Z.of_nat n) ix → ix `sublist_of` seqZ a (Z.of_nat n).
Proof.
  revert a ix. induction n as [|n IH]; intros a ix Hs Hb.
  { destruct ix as [|i ix]; [by rewrite seqZ_nil|]. inversion Hb; subst. lia. }
  rewrite seqZ_cons by lia. replace (Z.pred (Z.of_nat (S n))) with (Z.of_nat n) by lia.
  assert (∀ l, StronglySorted Z.lt l → Forall (λ i, a < i < a + Z.of_nat (S n)) l → l `sublist_of` seqZ (Z.succ a) (Z.of_nat n)) as Htail.
  { intros l Hl Hlb. apply IH; [done|]. eapply Forall_impl; [exact Hlb|]. simpl. lia. }
  destruct ix as [|i ix]; [constructor; apply Htail; constructor|].
  inversion Hs as [|? ? Hs' Hi]; subst. inversion Hb as [|? ? Hib Hb']; subst. destruct (decide (i = a)) as [->|Hne].
  - apply sublist_skip, Htail; [done|]. rewrite Forall_forall in *. intros j Hj. specialize (Hi j Hj). specialize (Hb' j Hj). simpl in *. lia.
  - apply sublist_cons, Htail; [done|]. constructor; [lia|]. rewrite Forall_forall in *. intros j Hj. specialize (Hi j Hj). specialize (Hb' j Hj). simpl in *. lia.
Qed.

Lemma payload_sublist (l k : list ChunkPayloadData) : l `sublist_of` k → len (payload l) <= len (payload k).
Proof.
  induction 1 as [|c l k _ IH|c l k _ IH]; [done|..]; unfold payload in *; csimpl; rewrite ?len_app; pose proof (len_nonneg (user_data c)); lia.
Qed.

Lemma payload_pick m ix : picks m ix → len (payload (pick m ix)) <= len (payload m).
Proof.
  intros [Hs Hb]. apply payload_sublist. rewrite <- (pick_all m) at 2. unfold pick. apply fmap_sublist. unfold len. by apply sorted_sublist.
Qed.

Lemma sna16lt_irrefl x : sna16lt x x = false.
Proof. unfold sna16lt. by rewrite Z.ltb_irrefl. Qed.

(** The fragments of a whole message are found by the scan. *)
Lemma fragments_tail t m k :
  fragments t m → (0 < k < length m)%nat → run_tail (u32 (t + Z.of_nat k - 1)) (drop k m).
Proof.
  intros F Hk. remember (length m - k)%nat as n eqn:En. revert k Hk En. induction n as [|n IH]; intros k Hk En; [lia|].
  destruct (lookup_lt_is_Some_2 m k ltac:(lia)) as [c Hc]. rewrite (drop_S m c k Hc). cbn [run_tail].
  pose proof (fr_tsn _ _ F _ _ Hc) as E1. pose proof (fr_begin _ _ F _ _ Hc) as E2. pose proof (fr_end _ _ F _ _ Hc) as E3.
  rewrite bool_decide_eq_false_2 in E2 by lia. split_and!; [rewrite E1, u32_succ; f_equal; lia|done|].
  destruct (drop (S k) m) as [|c' rest] eqn:Ed.
  - rewrite E3. apply bool_decide_eq_true_2. apply (f_equal length) in Ed. rewrite length_drop in Ed. simpl in Ed. lia.
  - assert (S k < length m)%nat by (apply (f_equal length) in Ed; rewrite length_drop in Ed; simpl in Ed; lia).
    rewrite E3, bool_decide_eq_false_2 by lia. split; [done|]. rewrite <- Ed, E1. specialize (IH (S k) ltac:(lia) ltac:(lia)).
    replace (t + Z.of_nat (S k) - 1) with (t + Z.of_nat k) in IH by lia. done.
Qed.

Lemma fragments_whole t m : fragments t m → whole_run m.
Proof.
  intros F. destruct m as [|c rest] eqn:Em; [by destruct (fr_nonempty _ _ F)|]. cbn [whole_run].
  pose proof (fr_begin _ _ F 0%nat c eq_refl) as E2. pose proof (fr_end _ _ F 0%nat c eq_refl) as E3. pose proof (fr_tsn _ _ F 0%nat c eq_refl) as E1.
  split; [done|]. destruct rest as [|c' rest]; [done|]. rewrite E3, bool_decide_eq_false_2 by (simpl; lia). split; [done|].
  pose proof (fragments_tail t _ 1%nat F ltac:(simpl; lia)) as H. rewrite E1. replace (t + Z.of_nat 0) with (t + Z.of_nat 1 - 1) by lia. exact H.
Qed.

Section Message.
Context (t : Z) (m : list ChunkPayloadData) (id ssn : Z) (ppi : PayloadProtocolIdentifier).

Definition whole (ix : list Z) : bool := bool_decide (ix = seqZ 0 (len m)).

(** [q] is the queue [q0] after the fragments [ix] of the message arrived. *)
Record holding (u : bool) (q0 : ReassemblyQueue) (ix : list Z) (q : ReassemblyQueue) : Prop := {
  ho_picks : picks m ix;
  ho_si : si q = si q0;
  ho_next : next_ssn q = next_ssn q0;
  ho_bytes : rq_n_bytes q = rq_n_bytes q0 + len (payload (pick m ix));
  ho_sets :
    if u then ordered q = [] ∧
      (if whole ix then unordered_chunks q = [] ∧ ∃ now, rq_unordered q = [chunks_new now 0 ppi m]
       else unordered_chunks q = pick m ix ∧ rq_unordered q = [])
    else rq_unordered q = [] ∧ unordered_chunks q = [] ∧
      (if bool_decide (ix = []) then ordered q = []
       else ∃ s, ordered q = [s] ∧ cs_ssn s = ssn ∧ cs_ppi s = ppi ∧ chunks s = pick m ix)
}.

Context (u : bool).
Hypothesis F : fragments t m.

Lemma nothing_missing : seqZ 0 (len m) ≠ [].
Proof.
  intros E. apply (f_equal length) in E. rewrite length_seqZ in E. pose proof (fr_nonempty _ _ F). unfold len in E. destruct m; [done|simpl in E; lia].
Qed.

Hypothesis Hm : Forall (λ c, stream_identifier c = id ∧ stream_sequence_number c = ssn ∧ payload_type c = ppi ∧ unordered c = u) m.

Lemma fragment_fields i : 0 <= i < len m →
  stream_identifier (m !!! Z.to_nat i) = id ∧ stream_sequence_number (m !!! Z.to_nat i) = ssn ∧
  payload_type (m !!! Z.to_nat i) = ppi ∧ unordered (m !!! Z.to_nat i) = u.
Proof. intros Hi. rewrite Forall_forall in Hm. apply Hm. eapply list_elem_of_lookup_2, list_lookup_lookup_total_lt. unfold len in Hi. lia. Qed.

Lemma holding_start q0 : at_rest q0 → holding u q0 [] q0.
Proof.
  intros (E1 & E2 & E3). split; [split; [apply SSorted_nil|apply Forall_nil_2]|done|done|change (payload (pick m [])) with (@nil Z); change (len (@nil Z)) with 0; lia|]. unfold whole.
  rewrite (bool_decide_eq_false_2 ([] = seqZ _ _)) by (intros E; by apply nothing_missing). by destruct u.
Qed.

(** A new fragment is put in its place. *)
Lemma insert_pick ix i :
  picks m ix → 0 <= i < len m → i ∉ ix →
  ∃ a b, ix = a ++ b ∧ picks m (a ++ i :: b) ∧
    insert_at (partition_point (λ c, sna32lt (tsn c) (tsn (m !!! Z.to_nat i))) (pick m ix)) (m !!! Z.to_nat i) (pick m ix) = pick m (a ++ i :: b).
Proof.
  intros [Hs Hb] Hi Hin. destruct (sorted_split i ix Hs Hin) as (a & b & -> & Ha & Hb'). exists a, b. split_and!; [done|..].
  - split; [by apply sorted_insert|]. apply Forall_app in Hb as [? ?]. apply Forall_app. split; [done|]. by constructor.
  - rewrite (pick_partition t m F); [|done..|eapply Forall_impl; [exact Hb'|]; simpl; lia].
    unfold insert_at. rewrite !pick_app, pick_cons. by rewrite take_app_length', drop_app_length' by (by rewrite length_pick).
Qed.

Lemma payload_insert a b i : len (payload (pick m (a ++ i :: b))) = len (payload (pick m (a ++ b))) + len (user_data (m !!! Z.to_nat i)).
Proof. rewrite !pick_app, pick_cons. unfold payload. rewrite !fmap_app, !concat_app. csimpl. rewrite !len_app. lia. Qed.

(** The scan finds the message exactly when it is whole. *)
Lemma scan_pick now q ix :
  picks m ix → unordered_chunks q = pick m ix →
  find_complete_unordered_chunk_set now q =
    if whole ix then Ok (Some (chunks_new now 0 ppi m), mkRQ (si q) (next_ssn q) (ordered q) (rq_unordered q) [] (rq_n_bytes q))
    else Ok (None, q).
Proof.
  intros Hp Hq. unfold whole. destruct (find_set_spec now q) as [[E1 E2]|(a & run & b & c & E1 & E2 & E3 & E4)].
  - rewrite bool_decide_eq_false_2; [done|]. intros ->. rewrite pick_all in Hq. rewrite Hq in E2.
    destruct (find_loop_complete [] m [] 0 (-1) 0 0) as [x Hx]; [lia|by eapply fragments_whole|]. cbn [app] in Hx. rewrite app_nil_r in Hx. congruence.
  - rewrite Hq in E1. unfold pick in E1. apply fmap_app_inv in E1 as (i1 & i23 & Ea & E23 & ->). symmetry in E23. apply fmap_app_inv in E23 as (i2 & i3 & Er & Eb & ->).
    fold (pick m i2) in Er. subst a run b.
    assert (picks m i2) as Hp2.
    { destruct Hp as [Hs Hb]. apply Forall_app in Hb as [_ [Hb _]%Forall_app]. apply StronglySorted_app in Hs as (_ & _ & (_ & Hs & _)%StronglySorted_app). by split. }
    assert (i2 = seqZ 0 (len m)) as H2 by (by apply (complete_pick t m F)).
    assert (i1 = [] ∧ i3 = []) as [-> ->].
    { destruct Hp as [Hs Hb]. rewrite Forall_app, Forall_app in Hb. destruct Hb as (Hb1 & _ & Hb3). apply sorted_NoDup in Hs.
      apply NoDup_app in Hs as (_ & Hd1 & (_ & Hd3 & _)%NoDup_app). split.
      - destruct i1 as [|i i1]; [done|]. exfalso. apply (Hd1 i); [by left|]. apply elem_of_app. left. rewrite H2, elem_of_seqZ. inversion Hb1; subst. lia.
      - destruct i3 as [|i i3]; [done|]. exfalso. apply (Hd3 i); [|by left]. rewrite H2, elem_of_seqZ. inversion Hb3; subst. lia. }
    cbn [app] in *. rewrite app_nil_r. rewrite bool_decide_eq_true_2 by done. rewrite E4, H2, pick_all.
    rewrite H2, pick_all in E3. do 4 f_equal. rewrite Forall_forall in Hm. destruct m as [|c' m']; [done|]. injection E3 as <-. apply Hm. by left.
Qed.

Lemma push_fragment now q0 q ix i :
  holding u q0 ix q → si q0 = id → (u = false → next_ssn q0 = ssn ∧ fits 16 ssn) → 0 <= i < len m → i ∉ ix →
  0 <= rq_n_bytes q0 → rq_n_bytes q0 + len (payload m) < 2 ^ 64 →
  ∃ q' ix', rq_push now q (m !!! Z.to_nat i) = Ok (whole ix', q') ∧ holding u q0 ix' q' ∧ (∀ j, j ∈ ix' ↔ j = i ∨ j ∈ ix).
Proof.
  intros [Hp Hsi Hn Hb Hs] Hid Hssn Hi Hin H0 Hl. destruct (fragment_fields i Hi) as (F1 & F2 & F3 & F4).
  destruct (insert_pick ix i Hp Hi Hin) as (a & b & -> & Hp' & Ei).
  assert (∀ j, j ∈ a ++ i :: b ↔ j = i ∨ j ∈ a ++ b) as Hj by (intros j; rewrite !elem_of_app, elem_of_cons; tauto).
  assert (u64 (rq_n_bytes q + len (user_data (m !!! Z.to_nat i))) = rq_n_bytes q0 + len (payload (pick m (a ++ i :: b)))) as Hnb.
  { pose proof (payload_pick m _ Hp') as Hle. rewrite payload_insert in *. rewrite Hb. pose proof (len_nonneg (payload (pick m (a ++ b)))).
    pose proof (len_nonneg (user_data (m !!! Z.to_nat i))). rewrite wrap_small by (unfold fits; lia). lia. }
  pose proof (scan_pick now) as Hscan. unfold rq_push. rewrite F1, Hsi, Hid, Z.eqb_refl, F4, F2, F3, Hnb. cbn [negb]. destruct u.
  - destruct Hs as [Ho Hs]. rewrite Ho.
    assert (whole (a ++ b) = false) as Hw.
    { apply bool_decide_eq_false_2. intros E. apply Hin. rewrite E, elem_of_seqZ. lia. }
    rewrite Hw in Hs. destruct Hs as [Hc Hr]. rewrite Hc, Ei. rewrite (Hscan _ (a ++ i :: b)) by done.
    exists (if whole (a ++ i :: b) then mkRQ (si q) (next_ssn q) [] [chunks_new now 0 ppi m] [] (rq_n_bytes q0 + len (payload (pick m (a ++ i :: b))))
            else mkRQ (si q) (next_ssn q) [] [] (pick m (a ++ i :: b)) (rq_n_bytes q0 + len (payload (pick m (a ++ i :: b))))), (a ++ i :: b).
    rewrite Hr. destruct (whole (a ++ i :: b)) eqn:Ew; (split_and!; [by rewrite Hsi, ?Hid|split; [done|done|done|done|]|exact Hj]); rewrite Ew; cbn; eauto.
  - destruct Hs as (Hr & Hc & Ho). destruct (Hssn eq_refl) as [Hnx Hfit]. rewrite Hn, Hnx. rewrite Hr, Hc.
    rewrite sna16lt_irrefl.
    assert (bool_decide (a ++ i :: b = []) = false) as Hne by (apply bool_decide_eq_false_2; by destruct a).
    assert (∀ s, cs_ssn s = ssn → cs_ppi s = ppi → chunks s = pick m (a ++ b) →
            ∃ s', chunks_push s (m !!! Z.to_nat i) = (whole (a ++ i :: b), s') ∧ cs_ssn s' = ssn ∧ cs_ppi s' = ppi ∧ chunks s' = pick m (a ++ i :: b)) as Hpush.
    { intros s S1 S2 S3. pose proof (push_pick_result t m F s _ i Hp Hi S3 Hin) as E1.
      destruct (push_pick t m F s _ i Hp Hi S3) as (ix' & Hix & Hel & E2). destruct (chunks_push s (m !!! Z.to_nat i)) as [ok s'] eqn:E. cbn [fst snd] in *.
      assert (ix' = a ++ i :: b) as ->.
      { destruct Hix as [Hx _], Hp' as [Hy _]. apply (StronglySorted_unique_strong Z.lt); [lia|done|done|].
        apply NoDup_Permutation; [by apply sorted_NoDup..|]. intros j. by rewrite Hel, Hj. }
      exists s'. subst s'. split_and!; [|done..]. f_equal. rewrite E1. unfold is_complete, whole. cbn [with_chunks chunks].
      apply eq_bool_prop_intro. rewrite bool_decide_spec. rewrite <- (complete_pick t m F) by done. by destruct (complete_list _). }
    destruct (bool_decide (a ++ b = [])) eqn:Eab.
    + rewrite Ho. apply bool_decide_eq_true in Eab. destruct (Hpush (chunks_new now ssn ppi [])) as (s' & -> & S1 & S2 & S3); [done|done|by rewrite Eab|].
      exists (mkRQ (si q) (next_ssn q0) [s'] [] [] (rq_n_bytes q0 + len (payload (pick m (a ++ i :: b))))), (a ++ i :: b).
      split_and!; [by rewrite Hsi, Hid, Hnx|split; [done|done|done|done|]|exact Hj]. rewrite Hne. cbn. eauto 10.
    + destruct Ho as (s & Ho & S1 & S2 & S3). rewrite Ho.
      assert (partition_point (λ s', sna16lt (cs_ssn s') ssn) [s] = 0%nat) as ->.
      { apply (partition_point_spec _ [] [s]); [constructor|]. constructor; [by rewrite S1, sna16lt_irrefl|constructor]. }
      cbn [lookup list_lookup]. rewrite S1, Z.eqb_refl. destruct (Hpush s S1 S2 S3) as (s' & -> & S1' & S2' & S3').
      exists (mkRQ (si q) (next_ssn q0) [s'] [] [] (rq_n_bytes q0 + len (payload (pick m (a ++ i :: b))))), (a ++ i :: b).
      split_and!; [by rewrite Hsi, Hid, Hnx|split; [done|done|done|done|]|exact Hj]. rewrite Hne. cbn. eauto 10.
Qed.

(** Reading takes the whole message, and leaves the queue empty. *)
Lemma read_whole q0 q ix :
  holding u q0 ix q → whole ix = true → (u = false → next_ssn q0 = ssn) → 0 <= rq_n_bytes q0 →
  ∃ c q', rq_read q = Ok (Some c, q') ∧ cs_ppi c = ppi ∧ chunks c = m ∧ at_rest q' ∧ si q' = si q0 ∧
    next_ssn q' = (if u then next_ssn q0 else u16 (ssn + 1)) ∧ rq_n_bytes q' = rq_n_bytes q0.
Proof.
  intros [Hp Hsi Hn Hb Hs] Hw Hssn H0. pose proof Hw as Ei. apply bool_decide_eq_true in Ei. subst ix. rewrite pick_all in *.
  assert (∀ c, chunks c = m → (if chunks_len c <=? rq_n_bytes q then rq_n_bytes q - chunks_len c else 0) = rq_n_bytes q0) as Hnb.
  { intros c Hc. rewrite chunks_len_eq, Hc, Hb. rewrite (proj2 (Z.leb_le _ _)) by lia. lia. }
  destruct u.
  - destruct Hs as [Ho Hs]. rewrite Hw in Hs. destruct Hs as [Hc [now Hr]].
    exists (chunks_new now 0 ppi m). eexists. unfold rq_read, readable_unordered_chunks, readable_ordered_chunks, take_unordered. rewrite Hr, Ho. cbn [head rbind].
    split; [reflexivity|]. unfold subtract_num_bytes. cbn [si next_ssn ordered rq_unordered unordered_chunks rq_n_bytes]. rewrite Hnb by done. by split_and!.
  - destruct Hs as (Hr & Hc & Ho). rewrite bool_decide_eq_false_2 in Ho by (apply nothing_missing). destruct Ho as (s & Ho & S1 & S2 & S3).
    assert (is_complete s = true) as Hcs by (unfold is_complete; rewrite S3; rewrite <- (pick_all m) at 1; by apply (complete_pick t m F)).
    exists s. eexists. unfold rq_read, readable_unordered_chunks, readable_ordered_chunks, take_ordered. rewrite Hr, Ho, Hcs, S1, Hn, Hssn by done. cbn [head negb].
    assert (sna16gt ssn ssn = false) as -> by (unfold sna16gt; by rewrite Z.ltb_irrefl). rewrite Z.eqb_refl. cbn [rbind].
    split; [reflexivity|]. unfold subtract_num_bytes. cbn [si next_ssn ordered rq_unordered unordered_chunks rq_n_bytes]. rewrite Hnb by done. by split_and!.
Qed.

(** The queue is readable exactly when the message is whole. *)
Lemma readable_whole q0 q ix : holding u q0 ix q → whole ix = true → (u = false → next_ssn q0 = ssn) → is_readable q = true.
Proof.
  intros [Hp Hsi Hn Hb Hs] Hw Hssn. pose proof Hw as Ei. apply bool_decide_eq_true in Ei. unfold is_readable. destruct u.
  - destruct Hs as [Ho Hs]. rewrite Hw in Hs. by destruct Hs as [Hc [now ->]].
  - destruct Hs as (-> & Hc & Ho). rewrite Ei, bool_decide_eq_false_2 in Ho by (apply nothing_missing). destruct Ho as (s & -> & S1 & S2 & S3).
    rewrite bool_decide_eq_true_2 by done. cbn [negb]. unfold sna16lte. rewrite S1, Hn, Hssn, Z.eqb_refl by done. rewrite andb_true_r. unfold is_complete. rewrite S3.
    apply (complete_pick t m F); [by rewrite <- Ei|done].
Qed.
End Message.

Lemma at_rest_read q : at_rest q → rq_read q = Ok (None, q).
Proof. intros (E1 & E2 & E3). unfold rq_read, readable_unordered_chunks, readable_ordered_chunks. by rewrite E1, E2. Qed.

(** * The association *)

Definition queued_bytes (streams : gmap Z StreamState) : Z := map_fold (λ _ s n, n + get_num_bytes_in_reassembly_queue s) 0 streams.

Lemma queued_bytes_insert id s m : m !! id = None → queued_bytes (<[id := s]> m) = queued_bytes m + get_num_bytes_in_reassembly_queue s.
Proof. intros H. unfold queued_bytes. by rewrite map_fold_insert_L by (done || intros; lia). Qed.

Lemma queued_bytes_replace id s s' m :
  m !! id = Some s →
  queued_bytes (<[id := s']> m) = queued_bytes m + get_num_bytes_in_reassembly_queue s' - get_num_bytes_in_reassembly_queue s.
Proof.
  intros H. rewrite <- (insert_delete_id m id s H). rewrite insert_insert_eq. rewrite !queued_bytes_insert by apply lookup_delete_eq. lia.
Qed.

Definition counts_bytes (a : Association) : Prop := map_Forall (λ _ s, 0 <= get_num_bytes_in_reassembly_queue s) (a_streams a).

(** While the streams hold less than the buffer there is room for another chunk. *)
Lemma room_left a : counts_bytes a → queued_bytes (a_streams a) < a_max_receive_buffer_size a → 0 < get_my_receiver_window_credit a.
Proof.
  intros Hn Hq. unfold get_my_receiver_window_credit. unfold counts_bytes in Hn.
  assert (map_fold (λ _ s n, u32 (n + u32 (get_num_bytes_in_reassembly_queue s))) 0 (a_streams a) <= queued_bytes (a_streams a)) as H; [|lia]. eapply proj2.
  revert Hn. clear Hq. apply (map_fold_weak_ind (λ r m, map_Forall (λ _ s, 0 <= get_num_bytes_in_reassembly_queue s) m → 0 <= r <= queued_bytes m)); [done|].
  intros i s m r Hi IH Hm. rewrite queued_bytes_insert by done. apply map_Forall_insert in Hm as [Hs Hm]; [|done].
  specialize (IH Hm). unfold wrap. set (b := get_num_bytes_in_reassembly_queue s) in *.
  pose proof (Z.mod_pos_bound (r + b mod 2 ^ 32) (2 ^ 32) ltac:(lia)). pose proof (Z.mod_pos_bound b (2 ^ 32) ltac:(lia)).
  pose proof (Z.mod_le b (2 ^ 32) Hs ltac:(lia)). pose proof (Z.mod_le (r + b mod 2 ^ 32) (2 ^ 32) ltac:(lia) ltac:(lia)). lia.
Qed.

(** Without pending resets, the loop over the TSNs is that of the queue. *)
Lemma advance_peer_eq fuel a :
  a_reconfig_requests a = ∅ →
  advance_peer_last_tsn fuel [] a =
    ([], a <| a_payload_queue := (advance_loop fuel (a_payload_queue a) (a_peer_last_tsn a)).1 |>
           <| a_peer_last_tsn := (advance_loop fuel (a_payload_queue a) (a_peer_last_tsn a)).2 |>).
Proof.
  revert a. induction fuel as [|fuel IH]; intros a Ha; cbn [advance_peer_last_tsn advance_loop]; [by destruct a|].
  destruct (pop (a_payload_queue a) (u32 (a_peer_last_tsn a + 1))) as [[c|] q]; [|by destruct a].
  record_simpl. rewrite Ha, map_to_list_empty. cbn [fmap list_fmap foldl]. rewrite IH by (record_simpl; done). by record_simpl.
Qed.

(** What [handle_data] leaves as it is, and the part of it that the queue of TSNs decides *)
Record data_handled (d : ChunkPayloadData) (a : Association) (stored : bool) (a' : Association) : Prop := {
  dh_tsns : receive_data true 1 (a_payload_queue a, a_peer_last_tsn a) d = (stored, (a_payload_queue a', a_peer_last_tsn a'));
  dh_requests : a_reconfig_requests a' = a_reconfig_requests a;
  dh_buffer : a_max_receive_buffer_size a' = a_max_receive_buffer_size a
}.

Lemma trigger_ack_keeps i a :
  let a' := trigger_ack i a in
  a_payload_queue a' = a_payload_queue a ∧ a_peer_last_tsn a' = a_peer_last_tsn a ∧ a_reconfig_requests a' = a_reconfig_requests a ∧
  a_max_receive_buffer_size a' = a_max_receive_buffer_size a ∧ a_streams a' = a_streams a ∧ a_events a' = a_events a.
Proof. unfold trigger_ack. cbv zeta. destruct (_ || _); [destruct (bool_decide _)|]; by record_simpl. Qed.

Lemma handle_data_stored d now a s ok s' :
  a_reconfig_requests a = ∅ → can_push (a_payload_queue a) d (a_peer_last_tsn a) = true →
  a_streams a !! stream_identifier d = Some s → 0 < get_my_receiver_window_credit a → stream_handle_data now s d = Ok (ok, s') →
  ∃ a', handle_data d now a = (Ok [], a') ∧ data_handled d a true a' ∧ a_streams a' = <[stream_identifier d := s']> (a_streams a) ∧
    a_events a' = a_events a ++ DatagramReceived :: (if ok && is_readable (ss_reassembly_queue s') then [EStream (Readable (ss_stream_identifier s'))] else []).
Proof.
  intros Hr Hc Hs Hw Hh. unfold handle_data. record_simpl. rewrite Hc. unfold get_or_create_stream. record_simpl.
  rewrite bool_decide_true by (by rewrite Hs). change (get_my_receiver_window_credit (a <| a_stats ::= inc_datas |>)) with (get_my_receiver_window_credit a).
  rewrite (proj2 (Z.ltb_lt _ _)) by done. unfold sbind. record_simpl. rewrite Hs, Hh. unfold handle_peer_last_tsn_and_acknowledgement.
  set (a1 := if ok && _ then _ else _).
  assert (a_reconfig_requests a1 = ∅ ∧ a_max_receive_buffer_size a1 = a_max_receive_buffer_size a ∧
          a_payload_queue a1 = snd (push (a_payload_queue a) d (a_peer_last_tsn a)) ∧ a_peer_last_tsn a1 = a_peer_last_tsn a ∧
          a_streams a1 = <[stream_identifier d := s']> (a_streams a) ∧
          a_events a1 = a_events a ++ DatagramReceived :: (if ok && is_readable (ss_reassembly_queue s') then [EStream (Readable (ss_stream_identifier s'))] else []))
    as (A1 & A2 & A3 & A4 & A5 & A6).
  { subst a1. unfold add_event. destruct (ok && is_readable (ss_reassembly_queue s')); record_simpl; by rewrite <- ?app_assoc. }
  rewrite advance_peer_eq by done. set (a2 := _ <| a_peer_last_tsn := _ |>).
  pose proof (trigger_ack_keeps (immediate_sack d) a2) as (B1 & B2 & B3 & B4 & B5 & B6).
  eexists. split; [reflexivity|]. split; [split|split].
  - rewrite B1, B2. subst a2. record_simpl. unfold receive_data, store_data. cbn [fst snd]. rewrite Hc. cbn [Z.ltb Z.compare]. cbv iota.
    rewrite A3, A4. unfold advance. by rewrite <- surjective_pairing.
  - rewrite B3. subst a2. record_simpl. congruence.
  - rewrite B4. by subst a2.
  - rewrite B5. by subst a2.
  - rewrite B6. by subst a2.
Qed.

Lemma handle_data_again d now a :
  a_reconfig_requests a = ∅ → can_push (a_payload_queue a) d (a_peer_last_tsn a) = false →
  ∃ a', handle_data d now a = (Ok [], a') ∧ data_handled d a false a' ∧ a_streams a' = a_streams a ∧ a_events a' = a_events a.
Proof.
  intros Hr Hc. unfold handle_data. record_simpl. rewrite Hc. unfold sbind, handle_peer_last_tsn_and_acknowledgement.
  rewrite advance_peer_eq by (by record_simpl). set (a2 := _ <| a_peer_last_tsn := _ |>).
  pose proof (trigger_ack_keeps (immediate_sack d) a2) as (B1 & B2 & B3 & B4 & B5 & B6).
  eexists. split; [reflexivity|]. split; [split|split].
  - rewrite B1, B2. subst a2. record_simpl. unfold receive_data, store_data. cbn [fst snd]. rewrite Hc. unfold advance. by rewrite <- surjective_pairing.
  - rewrite B3. by subst a2.
  - rewrite B4. by subst a2.
  - rewrite B5. by subst a2.
  - rewrite B6. by subst a2.
Qed.

(** * Arrivals *)

(** The chunks arrive one after the other, each at a time of the clock. *)
Fixpoint arrive (cs : list (ChunkPayloadData * Z)) : sm Association unit :=
  match cs with
  | [] => sret tt
  | (c, now) :: cs => do! _ <- handle_data c now; arrive cs
  end.

(** An association that waits for the chunk with TSN [t], whose stream [id] has nothing in its queue
    and expects the sequence number [ssn] (for messages with order), and which has room for [n] octets
    more.  [R] and [K] are the TSNs it got and those the peer skipped. *)
Record awaits (t id ssn n : Z) (u : bool) (a : Association) (s : StreamState) : Prop := {
  aw_reach : ∃ init R K, reach init (a_payload_queue a, a_peer_last_tsn a) (t - 1) R K ∧ Forall (λ x, x < t) R;
  aw_requests : a_reconfig_requests a = ∅;
  aw_stream : a_streams a !! id = Some s;
  aw_identifier : ss_stream_identifier s = id;
  aw_rest : at_rest (ss_reassembly_queue s);
  aw_si : si (ss_reassembly_queue s) = id;
  aw_next : u = false → next_ssn (ss_reassembly_queue s) = ssn ∧ fits 16 ssn;
  aw_counted : counts_bytes a;
  aw_room : queued_bytes (a_streams a) + n < a_max_receive_buffer_size a;
  aw_width : rq_n_bytes (ss_reassembly_queue s) + n < 2 ^ 64
}.

Section Arrivals.
Context (t : Z) (m : list ChunkPayloadData) (id ssn : Z) (ppi : PayloadProtocolIdentifier) (u : bool) (a0 : Association) (s0 : StreamState).
Hypothesis F : fragments t m.
Hypothesis Hm : Forall (λ c, stream_identifier c = id ∧ stream_sequence_number c = ssn ∧ payload_type c = ppi ∧ unordered c = u) m.
Hypothesis W : awaits t id ssn (len (payload m)) u a0 s0.

(** [a] is [a0] after the fragments [ix] arrived. *)
Record receiving (ix : list Z) (a : Association) : Prop := {
  rc_reach : ∃ init cum R R' K, reach init (a_payload_queue a, a_peer_last_tsn a) cum R' K ∧ init < t <= cum + 1 ∧
               Forall (λ x, x < t) R ∧ Forall (λ x, x < t) K ∧ ∀ x, x ∈ R' ↔ x ∈ R ∨ x - t ∈ ix;
  rc_requests : a_reconfig_requests a = ∅;
  rc_buffer : a_max_receive_buffer_size a = a_max_receive_buffer_size a0;
  rc_streams : ∃ q, a_streams a = <[id := s0 <| ss_reassembly_queue := q |>]> (a_streams a0) ∧ holding m ssn ppi u (ss_reassembly_queue s0) ix q;
  rc_events : ∃ evs, a_events a = a_events a0 ++ evs ∧ (EStream (Readable id) ∈ evs ↔ whole m ix = true)
}.

Lemma receiving_start : receiving [] a0.
Proof.
  destruct W as [(init & R & K & Hr & HR) W2 W3 W4 W5 W6 W7 W8 W9 W10]. destruct (reach_tracked _ _ _ _ _ Hr) as [ds T].
  split; [|done|done| |].
  - exists init, (t - 1), R, R, K. pose proof (tr_start _ _ _ _ _ _ T). split_and!; [done|lia|lia|done| |].
    + apply Forall_forall. intros k Hk%(tr_skipped _ _ _ _ _ _ T). lia.
    + intros x. rewrite elem_of_nil. tauto.
  - exists (ss_reassembly_queue s0). split; [|by eapply holding_start]. rewrite insert_id; [done|]. rewrite W3. by destruct s0.
  - exists []. rewrite app_nil_r. split; [done|]. rewrite elem_of_nil. unfold whole. rewrite bool_decide_eq_false_2; [done|].
    intros E. by eapply (nothing_missing t m F).
Qed.

Lemma receiving_room ix a : receiving ix a → 0 < get_my_receiver_window_credit a.
Proof.
  intros [_ _ Hb (q & Es & Hq) _]. destruct W as [_ _ W3 _ _ _ _ W8 W9 _]. unfold counts_bytes in W8. pose proof (W8 _ _ W3) as Hn. cbn beta in Hn.
  pose proof (ho_bytes _ _ _ _ _ _ _ Hq) as Hbytes. pose proof (payload_pick m ix (ho_picks _ _ _ _ _ _ _ Hq)). pose proof (len_nonneg (payload (pick m ix))).
  unfold get_num_bytes_in_reassembly_queue in Hn.
  apply room_left; rewrite ?Es, ?Hb.
  - unfold counts_bytes. rewrite Es. apply map_Forall_insert_2; [|done]. unfold get_num_bytes_in_reassembly_queue. record_simpl. lia.
  - rewrite (queued_bytes_replace id s0) by done. unfold get_num_bytes_in_reassembly_queue. record_simpl. lia.
Qed.

(** The queue of TSNs takes a fragment exactly when it is new. *)
Lemma fragment_taken ix a i :
  receiving ix a → 0 <= i < len m →
  let st := receive_data true 1 (a_payload_queue a, a_peer_last_tsn a) (m !!! Z.to_nat i) in
  can_push (a_payload_queue a) (m !!! Z.to_nat i) (a_peer_last_tsn a) = bool_decide (i ∉ ix) ∧ st.1 = bool_decide (i ∉ ix) ∧
  ∃ init cum R R' K, reach init st.2 cum R' K ∧ init < t <= cum + 1 ∧ Forall (λ x, x < t) R ∧ Forall (λ x, x < t) K ∧
    ∀ x, x ∈ R' ↔ x ∈ R ∨ x - t = i ∨ x - t ∈ ix.
Proof.
  intros [(init & cum & R & R' & K & Hr & [Hi1 Hi2] & HR & HK & HR') _ _ (q & _ & Hq) _] Hi st. destruct (reach_tracked _ _ _ _ _ Hr) as [ds T].
  pose proof (tr_last _ _ _ _ _ _ T) as El. cbn [snd] in El. pose proof (fr_short _ _ F) as Hsh.
  pose proof (ho_picks _ _ _ _ _ _ _ Hq) as [_ Hix]. rewrite Forall_forall in HR, HK, Hix.
  assert (∀ x, x ∈ R' → x < t + len m) as Hle.
  { intros x [Hx%HR|Hx%Hix]%HR'; [|simpl in Hx; lia]. simpl in Hx. pose proof (len_nonneg m). lia. }
  assert (cum < t + len m) as Hcum.
  { destruct (Z.lt_ge_cases cum (t + len m)); [done|]. pose proof (len_nonneg m). destruct (tr_covered _ _ _ _ _ _ T (t + len m)) as [Hx|Hx]; [lia|apply Hle in Hx; lia|]. apply HK in Hx. simpl in Hx. lia. }
  assert (Z.abs (t + i - cum) < 2 ^ 31) as Habs by lia.
  pose proof (frag_tsn t m F i Hi) as Et.
  assert (can_push (a_payload_queue a) (m !!! Z.to_nat i) (a_peer_last_tsn a) = bool_decide (i ∉ ix)) as Ec.
  { rewrite El. rewrite (rel_can_push _ _ _ (tr_rel _ _ _ _ _ _ T) (t + i)) by done. apply bool_decide_ext.
    assert (t + i ∈ R' ↔ i ∈ ix) as HiR. { rewrite HR'. replace (t + i - t) with i by lia. split; [|tauto]. intros [Hx%HR|]; [simpl in Hx; lia|done]. }
    pose proof (tr_queued _ _ _ _ _ _ T (t + i)) as Hds. rewrite HiR in Hds. split.
    - intros [H1 H2] H3. apply H2, Hds. done.
    - intros H3. assert (cum < t + i) as H1.
      { destruct (Z.lt_ge_cases cum (t + i)); [done|]. destruct (tr_covered _ _ _ _ _ _ T (t + i)) as [Hx|Hx]; [lia|by apply HiR in Hx|apply HK in Hx; simpl in Hx; lia]. }
      split; [done|]. intros Hx%Hds. tauto. }
  assert (st.1 = bool_decide (i ∉ ix)) as E1.
  { subst st. unfold receive_data, store_data. cbn [fst snd]. rewrite Ec. by destruct (bool_decide _). }
  split_and!; [done..|]. pose proof (reach_data init _ cum R' K true 1 (m !!! Z.to_nat i) (t + i) Hr Habs Et) as Hr'. cbv zeta in Hr'. fold st in Hr'.
  exists init. do 2 eexists. eexists _, _. split_and!; [exact Hr'|done| | | |].
  - cbn [snd]. unfold wrap. pose proof (Z.mod_pos_bound (st.2.2 - a_peer_last_tsn a) (2 ^ 32) ltac:(lia)). lia.
  - apply Forall_forall. exact HR.
  - apply Forall_forall. exact HK.
  - intros x. rewrite E1. case_bool_decide as Hin; rewrite ?elem_of_cons, HR'.
    + split; [intros [->|[?|?]]; auto; right; left; lia|intros [?|[?|?]]; auto; left; lia].
    + split; [tauto|]. intros [?|[?|?]]; auto. right. by replace (x - t) with i by lia.
Qed.

Lemma receiving_step ix a i now :
  receiving ix a → 0 <= i < len m →
  ∃ ix' a', handle_data (m !!! Z.to_nat i) now a = (Ok [], a') ∧ receiving ix' a' ∧ ∀ j, j ∈ ix' ↔ j = i ∨ j ∈ ix.
Proof.
  intros Hrc Hi. pose proof (receiving_room ix a Hrc) as Hroom. destruct (fragment_taken ix a i Hrc Hi) as (Hc & H1 & Hreach).
  destruct Hrc as [_ Hreq Hbuf (q & Es & Hq) (evs & Ev & Hev)]. destruct W as [_ _ W3 W4 W5 W6 W7 W8 W9 W10].
  pose proof (W8 _ _ W3) as Hn. cbn beta in Hn. unfold get_num_bytes_in_reassembly_queue in Hn.
  destruct (fragment_fields m id ssn ppi u Hm i Hi) as (F1 & _). case_bool_decide as Hin.
  - destruct (push_fragment t m id ssn ppi u F Hm now _ q ix i Hq W6 W7 Hi Hin Hn W10) as (q' & ix' & Ep & Hq' & Hel).
    destruct (handle_data_stored (m !!! Z.to_nat i) now a (s0 <| ss_reassembly_queue := q |>) (whole m ix') (s0 <| ss_reassembly_queue := q' |>))
      as (a' & E & [D1 D2 D3] & S' & V').
    { done. } { done. } { by rewrite F1, Es, lookup_insert_eq. } { done. }
    { unfold stream_handle_data. record_simpl. rewrite Ep. done. }
    exists ix', a'. split_and!; [done| |done]. rewrite D1 in Hreach. cbn [snd] in Hreach. split.
    + destruct Hreach as (init & cum & R & R' & K & Hr & Hb & HR & HK & HR'). exists init, cum, R, R', K. split_and!; [done|lia|lia|done..|].
      intros x. by rewrite HR', Hel.
    + congruence.
    + congruence.
    + exists q'. split; [|done]. by rewrite S', F1, Es, insert_insert_eq.
    + record_simpl_in V'. rewrite W4 in V'. eexists. split; [rewrite V', Ev, <- app_assoc; reflexivity|]. rewrite elem_of_app, elem_of_cons.
      assert (whole m ix = false) as Hw by (apply bool_decide_eq_false_2; intros Ex; apply Hin; rewrite Ex, elem_of_seqZ; lia).
      rewrite Hw in Hev. destruct (whole m ix') eqn:Ew; cbn [andb].
      * rewrite (readable_whole t m id ssn ppi u F Hm (ss_reassembly_queue s0) q' ix') by (done || intros Hu; apply W7, Hu). rewrite list_elem_of_singleton. tauto.
      * rewrite elem_of_nil. split; [intros [?%Hev|[?|?]]; done|done].
  - destruct (handle_data_again (m !!! Z.to_nat i) now a) as (a' & E & [D1 D2 D3] & S' & V'); [done|by rewrite Hc, ?bool_decide_eq_false_2 by tauto|].
    exists ix, a'. split_and!; [done| |intros j; split; [tauto|by intros [->|]]]. rewrite D1 in Hreach. cbn [snd] in Hreach. split.
    + destruct Hreach as (init & cum & R & R' & K & Hr & Hb & HR & HK & HR'). exists init, cum, R, R', K. split_and!; [done|lia|lia|done..|].
      intros x. rewrite HR'. split; [intros [?|[->|?]]; auto|tauto].
    + congruence.
    + congruence.
    + exists q. by rewrite S'.
    + exists evs. by rewrite V'.
Qed.

(** After any arrivals of fragments of the message, every one of them taken without an error and
    without a reply, the association holds those that arrived. *)
Lemma arrivals_received arrivals :
  Forall (λ x, 0 <= x.1 < len m) arrivals →
  ∃ ix a', arrive ((λ x, (m !!! Z.to_nat x.1, x.2)) <$> arrivals) a0 = (Ok tt, a') ∧ receiving ix a' ∧ ∀ j, j ∈ ix ↔ j ∈ arrivals.*1.
Proof.
  assert (∀ ix a, receiving ix a → Forall (λ x, 0 <= x.1 < len m) arrivals →
    ∃ ix' a', arrive ((λ x, (m !!! Z.to_nat x.1, x.2)) <$> arrivals) a = (Ok tt, a') ∧ receiving ix' a' ∧ ∀ j, j ∈ ix' ↔ j ∈ ix ∨ j ∈ arrivals.*1) as Hall.
  { induction arrivals as [|[i now] arrivals IH]; intros ix a Hr Ha.
    { exists ix, a. split_and!; [done..|]. intros j. cbn. rewrite elem_of_nil. tauto. }
    apply Forall_cons in Ha as [Hi Ha]. destruct (receiving_step ix a i now Hr Hi) as (ix1 & a1 & E1 & Hr1 & Hix1).
    destruct (IH ix1 a1 Hr1 Ha) as (ix2 & a2 & E2 & Hr2 & Hix2). exists ix2, a2. split_and!; [|done|].
    - cbn [fmap list_fmap arrive fst snd]. unfold sbind. by rewrite E1.
    - intros j. rewrite Hix2, Hix1. cbn. rewrite elem_of_cons. tauto. }
  intros Ha. destruct (Hall [] a0 receiving_start Ha) as (ix & a' & E & Hr & Hix). exists ix, a'. split_and!; [done..|].
  intros j. rewrite Hix, elem_of_nil. tauto.
Qed.

(** The fragments that arrived are all of them exactly when the message is whole. *)
Lemma whole_arrived ix a (l : list Z) : receiving ix a → (∀ j, j ∈ ix ↔ j ∈ l) → whole m ix = true ↔ ∀ i, 0 <= i < len m → i ∈ l.
Proof.
  intros [_ _ _ (q & _ & Hq) _] Hl. unfold whole. rewrite bool_decide_eq_true. split.
  - intros -> i Hi. apply Hl. rewrite elem_of_seqZ. lia.
  - intros Hall. apply (picks_all m); [by eapply ho_picks|]. intros i Hi. by apply Hl, Hall.
Qed.

End Arrivals.
