(* ===== verification/SctpRetry.v ===== *)
(** Retransmission timeouts of an SCTP association: how long they are, and what becomes of a
    client that nobody answers. *)

From S2P Require Import Prelude SctpChunk SctpQueue SctpReassembly SctpParam SctpPacket SctpTimer SctpStream SctpAssoc SctpHandshake.

(** * Bounds *)

(** The RTO after these round trips were measured. *)
Definition rto_after (rtts : list Z) : RtoManager := foldl (λ r rtt, (set_new_rtt r rtt).2) rto_new rtts.

Lemma rto_after_ok rtts : rto_ok (rto_after rtts).
Proof.
  unfold rto_after. generalize rto_new rto_new_ok. induction rtts as [|x rtts IH]; intros r Hr; [done|]. by apply IH, set_new_rtt_ok.
Qed.

(** C33: whatever round trips were measured, a retransmission timer that is started runs between
    one second and one minute, doubled once for every time it expired before, up to the
    minute; the other timers are left alone. *)
Theorem retransmission_timeout_bounds rtts tt t now :
  timers_ok tt → t ≠ Ack → 0 <= retrans_of tt t →
  let r := rto_after rtts in
  let tt' := timer_start tt t now (rto r) in
  ∃ d, timer_get tt' t = Some (now + from_millis d) ∧ d = Z.min (rto r * 2 ^ retrans_of tt t) RTO_MAX ∧ RTO_MIN <= d <= RTO_MAX ∧
       ∀ u, u ≠ t → timer_get tt' u = timer_get tt u.
Proof.
  intros Hok Ht Hn r tt'. pose proof (rto_after_ok rtts) as [_ Hr]. fold r in Hr.
  exists (calculate_next_timeout (rto r) (retrans_of tt t)). destruct (next_timeout_doubles (rto r) (retrans_of tt t) Hr Hn) as [E _].
  unfold tt', timer_start. rewrite decide_False by done. split_and!.
  - rewrite timer_get_set by done. by rewrite decide_True.
  - done.
  - rewrite E. unfold RTO_MIN, RTO_MAX in *. assert (1 <= 2 ^ retrans_of tt t) by (pose proof (Z.pow_pos_nonneg 2 (retrans_of tt t)); lia). nia.
  - rewrite E. unfold RTO_MAX. lia.
  - intros u Hu. rewrite timer_get_set by done. by rewrite decide_False.
Qed.

Lemma retransmission_timeout_bounds_witness :
  ∃ d, timer_get (timer_start (timers_new timer_config_default) T3RTX 0 (rto (rto_after [100; 250]))) T3RTX = Some (from_millis d) ∧
       RTO_MIN <= d <= RTO_MAX.
Proof.
  destruct (retransmission_timeout_bounds [100; 250] (timers_new timer_config_default) T3RTX 0) as (d & E & _ & Hd & _); [done|done|done|].
  exists d. by split.
Defined.

(** * A client that nobody answers *)

(** Time passes until the next timeout, [k] times. *)
Fixpoint expirations (k : nat) (a : Association) : Association :=
  match k with
  | O => a
  | S k =>
      let a := expirations k a in
      match poll_timeout a with Some t => handle_timeout t a | None => a end
  end.

(** Milliseconds until the [k]th expiry of a timer that starts with the initial RTO. *)
Fixpoint backoff (k : nat) : Z :=
  match k with O => 0 | S k => backoff k + Z.min (RTO_INITIAL * 2 ^ Z.of_nat k) RTO_MAX end.

Lemma timer_idle now a t : timer_get (a_timers a) t = None → handle_timer now a t = a.
Proof. unfold handle_timer, is_expired. intros ->. cbn [negb]. by destruct a. Qed.

(** Only T1-init runs: it fires at [d] and fired [k] times before. *)
Definition only_t1 (d : option Z) (k : Z) (maxima : list Z) : TimerTable := mkTimers [d; None; None; None; None; None] [k; 0; 0; 0; 0; 0] maxima.

(** The client after [k] expiries. *)
Record unanswered (c : Ident) (maxima : list Z) (start : Z) (k : nat) (a : Association) : Prop := {
  un_view : hview a = waiting c (replicate (S k) (init_packet_of c));
  un_timers : a_timers a = only_t1 (Some (start + from_millis (backoff (S k)))) (Z.of_nat k) maxima;
  un_rto : rto (a_rto_mgr a) = RTO_INITIAL;
  un_error : a_error a = None ∧ a_events a = []
}.

Lemma only_t1_idle d k maxima t : t ≠ T1Init → timer_get (only_t1 d k maxima) t = None.
Proof. by destruct t. Qed.

(** With T1-init alone, a timeout is T1-init's. *)
Lemma timeout_t1 now a :
  (∀ t, t ≠ T1Init → timer_get (a_timers (handle_timer now a T1Init)) t = None) → handle_timeout now a = handle_timer now a T1Init.
Proof.
  intros H. unfold handle_timeout, TIMER_VALUES. cbn [foldl]. set (a1 := handle_timer now a T1Init) in *. clearbody a1.
  by rewrite !(timer_idle now a1) by (by apply H).
Qed.

Lemma poll_t1 a d k maxima : a_timers a = only_t1 (Some d) k maxima → poll_timeout a = Some d.
Proof. unfold poll_timeout. intros ->. done. Qed.

Lemma send_init_timers a c ctl : hview a = waiting c ctl →
  let a' := snd (send_init a) in
  a_timers a' = a_timers a ∧ a_rto_mgr a' = a_rto_mgr a ∧ a_error a' = a_error a ∧ a_events a' = a_events a.
Proof. intros _. unfold send_init. by destruct (a_stored_init a). Qed.

Lemma t1_expires t k M maxima :
  is_expired (only_t1 (Some t) k (M :: maxima)) T1Init t =
  (true, M <? u64 (k + 1), u64 (k + 1), only_t1 (Some t) (u64 (k + 1)) (M :: maxima)).
Proof.
  unfold is_expired. change (timer_get (only_t1 (Some t) k (M :: maxima)) T1Init) with (Some t). cbn iota. rewrite Z.leb_refl. reflexivity.
Qed.

Lemma unanswered_step c M maxima start k a :
  0 <= M < 2 ^ 63 → Z.of_nat k < M → unanswered c (M :: maxima) start k a →
  ∃ t, poll_timeout a = Some t ∧ unanswered c (M :: maxima) start (S k) (handle_timeout t a).
Proof.
  intros HM Hk [Hv Ht Hr [He Hev]]. set (t := start + from_millis (backoff (S k))) in *. exists t. split; [by eapply poll_t1|].
  assert (∃ a', handle_timer t a T1Init = a' ∧ unanswered c (M :: maxima) start (S k) a') as (a' & E & U).
  { eexists. split; [reflexivity|]. unfold handle_timer. rewrite Ht, t1_expires. cbn [negb].
    assert (u64 (Z.of_nat k + 1) = Z.of_nat (S k)) as -> by (unfold wrap; rewrite Z.mod_small; lia). rewrite (proj2 (Z.ltb_ge _ _)) by lia.
    set (a1 := a <| a_timers := _ |> <| a_timers ::= _ |>).
    assert (hview a1 = waiting c (replicate (S k) (init_packet_of c))) as V1 by exact Hv.
    assert (a_timers a1 = only_t1 None (Z.of_nat (S k)) (M :: maxima) ∧ rto (a_rto_mgr a1) = RTO_INITIAL ∧ a_error a1 = None ∧ a_events a1 = []) as (T1 & R1 & E1 & W1) by done.
    clearbody a1. rewrite decide_False by done. cbn [on_retransmission_timeout].
    destruct (send_init_view a1 c (replicate (S k) (init_packet_of c)) c Closed None) as [Hi _]. specialize (Hi V1).
    destruct (send_init_timers a1 c _ V1) as (T2 & R2 & E2 & W2). set (a2 := snd (send_init a1)) in *. clearbody a2.
    split.
    - rewrite hview_start, Hi. f_equal. by rewrite <- replicate_S_end.
    - change (timer_start (a_timers a2) T1Init t (rto (a_rto_mgr a2)) = only_t1 (Some (start + from_millis (backoff (S (S k))))) (Z.of_nat (S k)) (M :: maxima)).
      rewrite T2, T1, R2, R1. unfold timer_start. rewrite decide_False by done. unfold timer_set, only_t1, retrans_of.
      cbn [tt_data tt_retrans tt_max_retrans timer_index insert list_insert lookup list_lookup default from_option id].
      assert (calculate_next_timeout RTO_INITIAL (Z.of_nat (S k)) = Z.min (RTO_INITIAL * 2 ^ Z.of_nat (S k)) RTO_MAX) as ->
        by (apply next_timeout_doubles; [done|lia]).
      do 3 f_equal. unfold t. change (backoff (S (S k))) with (backoff (S k) + Z.min (RTO_INITIAL * 2 ^ Z.of_nat (S k)) RTO_MAX).
      unfold from_millis. lia.
    - change (rto (a_rto_mgr a2) = RTO_INITIAL). by rewrite R2.
    - change (a_error a2 = None ∧ a_events a2 = []). by rewrite E2, W2. }
  rewrite timeout_t1; [by rewrite E|]. intros u Hu. rewrite E, (un_timers _ _ _ _ _ U). by apply only_t1_idle.
Qed.

Lemma unanswered_end c M maxima start k a :
  0 <= M < 2 ^ 63 → Z.of_nat k = M → unanswered c (M :: maxima) start k a →
  ∃ t, poll_timeout a = Some t ∧ let a' := handle_timeout t a in
    hview a' = hview a ∧ poll_timeout a' = None ∧ fst (poll a') = Some (EHandshakeFailed (HandshakeFailed ErrHandshakeInitAck)).
Proof.
  intros HM Hk [Hv Ht Hr [He Hev]]. set (t := start + from_millis (backoff (S k))) in *. exists t. split; [by eapply poll_t1|]. cbv zeta.
  assert (∃ a', handle_timer t a T1Init = a' ∧ hview a' = hview a ∧ a_timers a' = only_t1 None (Z.of_nat (S k)) (M :: maxima) ∧
    a_error a' = Some (HandshakeFailed ErrHandshakeInitAck) ∧ a_events a' = []) as (a' & E & V & T & Er & Ev).
  { eexists. split; [reflexivity|]. unfold handle_timer. rewrite Ht, t1_expires. cbn [negb].
    assert (u64 (Z.of_nat k + 1) = Z.of_nat (S k)) as -> by (unfold wrap; rewrite Z.mod_small; lia). rewrite (proj2 (Z.ltb_lt _ _)) by lia.
    set (a1 := a <| a_timers := _ |> <| a_timers ::= _ |>). rewrite decide_False by done. cbn [on_retransmission_failure].
    assert (hview a1 = hview a) as V1 by done.
    assert (a_timers a1 = only_t1 None (Z.of_nat (S k)) (M :: maxima) ∧ a_events a1 = []) as [T1 W1] by done. clearbody a1. by split_and!. }
  rewrite timeout_t1, E; [|intros u Hu; rewrite E, T; by apply only_t1_idle].
  split_and!; [done|unfold poll_timeout; by rewrite T|]. unfold poll. by rewrite Ev, Er.
Qed.

Lemma unanswered_start cfg mps tag rnd now a :
  assoc_new false cfg mps tag rnd now = Ok a →
  let c := mkIdent tag (if rnd =? 0 then 1 else rnd) (cfg_max_receive_buffer_size cfg) (cfg_max_num_inbound_streams cfg)
             (cfg_max_num_outbound_streams cfg) [] in
  let t := cfg_timer_config cfg in
  unanswered c [max_t1_init_retrans t; max_t1_cookie_retrans t; max_t2_shutdown_retrans t; max_t3_rtx_retrans t; max_reconfig_retrans t; max_ack_retrans t]
    now 0 a.
Proof.
  intros E. destruct (client_new _ _ _ _ _ _ E) as [V _]. revert E. unfold assoc_new, assert_. destruct (_ <=? _); [|done]. intros [= <-].
  split; [exact V|reflexivity|reflexivity|split; reflexivity].
Qed.

Lemma expirations_run c M maxima start a k :
  0 <= M < 2 ^ 63 → unanswered c (M :: maxima) start 0 a → Z.of_nat k <= M → unanswered c (M :: maxima) start k (expirations k a).
Proof.
  intros HM U. induction k as [|k IH]; intros Hk; [done|]. cbn [expirations].
  destruct (unanswered_step c M maxima start k (expirations k a) HM) as (t & -> & U'); [lia|apply IH; lia|done].
Qed.

(** C32: a client that nobody answers does not wait for ever.  After its [k]th timeout it has
    sent its INIT [k + 1] times and the next timeout is set, each one twice as late as the
    one before until they are a minute apart; when T1-init expires once more than the
    configuration allows, no further INIT is sent, no timer is left and the application is
    told that the handshake failed. *)
Theorem unanswered_client_gives_up cfg mps tag rnd now a :
  assoc_new false cfg mps tag rnd now = Ok a →
  let M := max_t1_init_retrans (cfg_timer_config cfg) in
  0 <= M < 2 ^ 63 →
  (∀ k, Z.of_nat k <= M →
     let a' := expirations k a in
     a_control_queue a' = replicate (S k) (init_packet_of (server_ident cfg tag rnd [])) ∧ a_state a' = CookieWait ∧
     poll_timeout a' = Some (now + from_millis (backoff (S k))) ∧ fst (poll a') = None) ∧
  (let a' := expirations (S (Z.to_nat M)) a in
   a_control_queue a' = replicate (S (Z.to_nat M)) (init_packet_of (server_ident cfg tag rnd [])) ∧
   poll_timeout a' = None ∧ fst (poll a') = Some (EHandshakeFailed (HandshakeFailed ErrHandshakeInitAck))).
Proof.
  intros E M HM. pose proof (unanswered_start _ _ _ _ _ _ E) as U. cbv zeta in U. fold M in U. set (maxima := [_; _; _; _; _]) in U.
  fold (server_ident cfg tag rnd []) in U. set (c := server_ident cfg tag rnd []) in *. clearbody maxima. split.
  - intros k Hk. destruct (expirations_run c M maxima now a k HM U Hk) as [Hv Ht _ [He Hev]]. cbv zeta.
    set (a' := expirations k a) in *. clearbody a'. split_and!.
    + change (v_control (hview a') = replicate (S k) (init_packet_of c)). by rewrite Hv.
    + change (v_state (hview a') = CookieWait). by rewrite Hv.
    + by eapply poll_t1.
    + unfold poll. by rewrite Hev, He.
  - cbv zeta. cbn [expirations]. assert (unanswered c (M :: maxima) now (Z.to_nat M) (expirations (Z.to_nat M) a)) as U'
      by (apply expirations_run; [done|done|lia]). set (a' := expirations (Z.to_nat M) a) in *. clearbody a'.
    destruct (unanswered_end c M maxima now _ a' HM (Z2Nat.id M (proj1 HM)) U') as (t & -> & V & Pt & Pl).
    revert V Pt Pl. generalize (handle_timeout t a'). intros a2 V Pt Pl. split_and!; [|done|done].
    change (v_control (hview a2) = replicate (S (Z.to_nat M)) (init_packet_of c)).
    by rewrite V, (un_view _ _ _ _ _ U').
Qed.

(** With the default configuration: nine INITs over five and a half minutes. *)
Lemma unanswered_client_gives_up_witness :
  ∃ a, assoc_new false transport_config_default 1200 7 100 0 = Ok a ∧
    poll_timeout (expirations 8 a) = Some (from_millis 333000) ∧ poll_timeout (expirations 9 a) = None ∧
    fst (poll (expirations 9 a)) = Some (EHandshakeFailed (HandshakeFailed ErrHandshakeInitAck)).
Proof.
  destruct (assoc_new false transport_config_default 1200 7 100 0) as [a| |] eqn:E; [|by vm_compute in E..]. exists a.
  destruct (unanswered_client_gives_up transport_config_default 1200 7 100 0 a E) as [H1 H2]; [done|].
  destruct (H1 8%nat) as (_ & _ & P & _); [done|]. destruct H2 as (_ & N & F). split_and!; [done|exact P|exact N|exact F].
Defined.
