(* ===== verification/SctpEndpoint.v ===== *)
(** The SCTP endpoint ([endpoint/mod.rs]): it takes datagrams apart, finds the association they
    belong to by their verification tag, starts associations for INITs and forgets those that
    are drained. *)

From S2P Require Import Prelude SctpChunk SctpQueue SctpReassembly SctpParam SctpPacket SctpTimer SctpStream SctpAssoc.

(** * The [slab] crate

    A store that hands out keys.  The laws are its documentation: [insert] returns a key that
    was not in use, the other entries stay, [remove] takes the entry out and panics when there
    is none ([None] here), and [len] counts the entries. *)
Class Slab (A : Type) := {
  slab : Type;
  slab_new : slab;
  slab_get : slab → Z → option A;
  slab_insert : A → slab → Z * slab;
  slab_remove : Z → slab → option (A * slab);
  slab_len : slab → Z;
  slab_get_new k : slab_get slab_new k = None;
  slab_insert_fresh x s : slab_get s (slab_insert x s).1 = None;
  slab_get_insert x s k : slab_get (slab_insert x s).2 k = if decide (k = (slab_insert x s).1) then Some x else slab_get s k;
  slab_remove_none s k : slab_remove k s = None ↔ slab_get s k = None;
  slab_remove_some s k x s' : slab_remove k s = Some (x, s') →
    slab_get s k = Some x ∧ ∀ k', slab_get s' k' = if decide (k' = k) then None else slab_get s k';
  slab_len_new : slab_len slab_new = 0;
  slab_len_insert x s : slab_len (slab_insert x s).2 = slab_len s + 1;
  slab_len_remove s k x s' : slab_remove k s = Some (x, s') → slab_len s' = slab_len s - 1
}.
Arguments slab A {_}.

(** * Data *)

Record SocketAddr := mkAddr { ip : bytes; port : Z }.

Record AssociationMeta := mkMeta {
  init_cid : Z;
  cids_issued : Z;
  loc_cids : gmap Z Z;
  initial_remote : SocketAddr
}.

Record ServerConfig := mkServerConfig { transport : TransportConfig; concurrent_associations : Z }.
Definition server_config_default : ServerConfig := mkServerConfig transport_config_default 100000.

(** [EndpointConfig::new] *)
Definition default_max_payload_size : Z := INITIAL_MTU - (COMMON_HEADER_SIZE + DATA_CHUNK_HEADER_SIZE).

(** What comes out of a datagram: it goes to an association that is known, or a new one was
    made. *)
Inductive DatagramEvent := AssociationEvent (pd : PartialDecode) | NewAssociation (a : Association).

Inductive ConnectError := EndpointStopping | TooManyAssociations | InvalidDnsName | InvalidRemoteAddress (remote : SocketAddr) | NoDefaultClientConfig.

(** The numbers that are drawn: candidates for an association id, the remote id of a client,
    the first TSN and the cookie of a new association. *)
Record Draws := mkDraws { aids : list Z; remote_aid : Z; random_tsn : Z; random_cookie : bytes }.

Section Endpoint.
Context {SL : Slab AssociationMeta}.

Record Endpoint := mkEndpoint {
  association_ids_init : gmap Z Z;
  association_ids : gmap Z Z;
  associations : slab AssociationMeta;
  max_payload_size : Z;
  server_config : option ServerConfig;
  reject_new_associations : bool
}.

Definition endpoint_eta (e : Endpoint) : Endpoint :=
  mkEndpoint (association_ids_init e) (association_ids e) (associations e) (max_payload_size e) (server_config e) (reject_new_associations e).

#[export] Instance set_association_ids_init : Setter association_ids_init.
Proof. make_setter endpoint_eta association_ids_init. Defined.
#[export] Instance set_association_ids : Setter association_ids.
Proof. make_setter endpoint_eta association_ids. Defined.
#[export] Instance set_associations : Setter associations.
Proof. make_setter endpoint_eta associations. Defined.
#[export] Instance set_server_config_field : Setter server_config.
Proof. make_setter endpoint_eta server_config. Defined.
#[export] Instance set_reject : Setter reject_new_associations.
Proof. make_setter endpoint_eta reject_new_associations. Defined.

Definition endpoint_new (max_payload_size : Z) (server_config : option ServerConfig) : Endpoint :=
  mkEndpoint ∅ ∅ slab_new max_payload_size server_config false.

Definition set_server_config (c : option ServerConfig) (e : Endpoint) : Endpoint := e <| server_config := c |>.
Definition reject_all (e : Endpoint) : Endpoint := e <| reject_new_associations := true |>.

(** [(((u32::MAX >> 1) + (u32::MAX >> 2)) as usize) < self.association_ids.len()] *)
Definition is_full (e : Endpoint) : bool :=
  Z.shiftr (2 ^ 32 - 1) 1 + Z.shiftr (2 ^ 32 - 1) 2 <? Z.of_nat (size (association_ids e)).

(** [handle_event] with [Drained]: the association is forgotten. *)
Definition endpoint_handle_event (ch : Z) : sm Endpoint unit := λ e,
  match slab_remove ch (associations e) with
  | Some (conn, s) =>
      let e := e <| associations := s |> <| association_ids_init ::= delete (init_cid conn) |> in
      (Ok tt, foldl (λ e cid, e <| association_ids ::= delete cid |>) e (map_to_list (loc_cids conn)).*2)
  | None => (Panic, e)
  end.

(** The loop of [new_aid] over the drawn candidates; it only ends with one that is not in use. *)
Definition new_aid (candidates : list Z) (e : Endpoint) : res Z :=
  match filter (λ aid, association_ids e !! aid = None) candidates with
  | aid :: _ => Ok aid
  | [] => Panic
  end.

Definition add_association (d : Draws) (remote_aid local_aid : Z) (remote : SocketAddr) (now : Z) (server : bool) (config : TransportConfig)
    : sm Endpoint (Z * Association) := λ e,
  match assoc_new server config (max_payload_size e) local_aid (random_tsn d) now with
  | Ok conn =>
      let '(id, s) := slab_insert (mkMeta remote_aid 0 {[0 := local_aid]} remote) (associations e) in
      (Ok (id, conn), e <| associations := s |> <| association_ids ::= <[local_aid := id]> |>)
  | Err err => (Err err, e)
  | Panic => (Panic, e)
  end.

Definition connect (d : Draws) (config : TransportConfig) (remote : SocketAddr) (now : Z)
    : sm Endpoint (ConnectError + Z * Association) := λ e,
  if is_full e then (Ok (inl TooManyAssociations), e)
  else if port remote =? 0 then (Ok (inl (InvalidRemoteAddress remote)), e)
  else
    (do! local_aid <- (λ e, (new_aid (aids d) e, e));
     do! r <- add_association d (remote_aid d) local_aid remote now false config;
     sret (inr r)) e.

Definition known_handle (pd : PartialDecode) (e : Endpoint) : option Z :=
  let dst_cid := verification_tag (common_header pd) in
  if 0 <? dst_cid then association_ids e !! dst_cid
  else if first_chunk_type pd =? CT_INIT then
    match initiate_tag pd with Some t => association_ids e !! t | None => None end
  else None.

Context {BC : BytesCrate} {CRC : Crc32c}.

Definition handle_first_packet (d : Draws) (now : Z) (remote : SocketAddr) (pd : PartialDecode)
    : sm Endpoint (option (Z * Association)) := λ e,
  match (if first_chunk_type pd =? CT_INIT then initiate_tag pd else None), server_config e with
  | Some remote_aid, Some sc =>
      if (concurrent_associations sc <=? slab_len (associations e)) || reject_new_associations e || is_full e then (Ok None, e)
      else
        (do! local_aid <- (λ e, (new_aid (aids d) e, e));
         do! (ch, conn) <- add_association d remote_aid local_aid remote now true (transport sc);
         do! conn <- slift (handle_event (random_cookie d) pd now conn);
         sret (Some (ch, conn))) e
  | _, _ => (Ok None, e)
  end.

Definition handle (d : Draws) (now : Z) (remote : SocketAddr) (data : bytes) : sm Endpoint (option (Z * DatagramEvent)) := λ e,
  match partial_unmarshal data with
  | Ok pd =>
      match known_handle pd e with
      | Some ch => (Ok (Some (ch, AssociationEvent pd)), e)
      | None =>
          (do! r <- handle_first_packet d now remote pd;
           sret match r with Some (ch, a) => Some (ch, NewAssociation a) | None => None end) e
      end
  | Err _ => (Ok None, e)
  | Panic => (Panic, e)
  end.

End Endpoint.
Arguments Endpoint {_}.

(** * Routing *)

Section Routing.
Context {SL : Slab AssociationMeta} {BC : BytesCrate} {CRC : Crc32c}.

(** The endpoints that a program can get. *)
Inductive reachable : Endpoint → Prop :=
| reach_new mps sc : reachable (endpoint_new mps sc)
| reach_config e sc : reachable e → reachable (set_server_config sc e)
| reach_reject e : reachable e → reachable (reject_all e)
| reach_handle e d now remote data r e' : reachable e → handle d now remote data e = (Ok r, e') → reachable e'
| reach_connect e d config remote now r e' : reachable e → connect d config remote now e = (Ok r, e') → reachable e'
| reach_drained e ch e' : reachable e → endpoint_handle_event ch e = (Ok tt, e') → reachable e'.

(** A tag is routed to the association that was given it, and to no other. *)
Record endpoint_ok (e : Endpoint) : Prop := {
  eo_routes tag h : association_ids e !! tag = Some h ↔ ∃ meta, slab_get (associations e) h = Some meta ∧ loc_cids meta = {[0 := tag]};
  eo_metas h meta : slab_get (associations e) h = Some meta → ∃ tag, loc_cids meta = {[0 := tag]}
}.

Lemma loc_cids_inj (t1 t2 : Z) : ({[0 := t1]} : gmap Z Z) = {[0 := t2]} → t1 = t2.
Proof. intros E. assert (({[0 := t1]} : gmap Z Z) !! 0 = Some t2) as H by (by rewrite E, lookup_singleton_eq). by rewrite lookup_singleton_eq in H; simplify_eq. Qed.

Lemma one_tag e t1 t2 h : endpoint_ok e → association_ids e !! t1 = Some h → association_ids e !! t2 = Some h → t1 = t2.
Proof. intros O (m1 & E1 & L1)%(eo_routes e O) (m2 & E2 & L2)%(eo_routes e O). apply loc_cids_inj. congruence. Qed.

Lemma new_ok mps sc : endpoint_ok (endpoint_new mps sc).
Proof.
  split; cbn.
  - intros tag h. rewrite lookup_empty. split; [done|]. intros (meta & E & _). by rewrite slab_get_new in E.
  - intros h meta. by rewrite slab_get_new.
Qed.

Lemma new_aid_spec candidates e aid : new_aid candidates e = Ok aid → aid ∈ candidates ∧ association_ids e !! aid = None.
Proof.
  unfold new_aid. destruct (filter _ candidates) as [|x l] eqn:E; [done|]. intros [= <-].
  assert (x ∈ filter (λ aid, association_ids e !! aid = None) candidates) as [??]%list_elem_of_filter by (rewrite E; left). done.
Qed.

(** What a new association changes. *)
Definition opens (e e' : Endpoint) (tag h : Z) : Prop :=
  association_ids e !! tag = None ∧ slab_get (associations e) h = None ∧ association_ids e' = <[tag := h]> (association_ids e) ∧
  slab_len (associations e') = slab_len (associations e) + 1.

Lemma add_spec d raid aid remote now server cfg e h conn e' :
  endpoint_ok e → association_ids e !! aid = None → add_association d raid aid remote now server cfg e = (Ok (h, conn), e') →
  assoc_new server cfg (max_payload_size e) aid (random_tsn d) now = Ok conn ∧ opens e e' aid h ∧ endpoint_ok e'.
Proof.
  intros O Hn. unfold add_association. destruct (assoc_new _ _ _ _ _ _) as [c| |]; [|done..]. set (meta := mkMeta _ _ _ _).
  pose proof (slab_insert_fresh meta (associations e)) as Hf. pose proof (slab_get_insert meta (associations e)) as Hg.
  pose proof (slab_len_insert meta (associations e)) as Hl. destruct (slab_insert meta (associations e)) as [id s]. cbn [fst snd] in *.
  intros [= -> -> <-]. split; [done|]. split.
  - split_and!; [done|done|done|exact Hl].
  - split; cbn; [|intros k m; rewrite Hg; destruct (decide _); [intros [= <-]; by exists aid|apply (eo_metas e O)]].
    intros tag k. change (<[aid := h]> (association_ids e) !! tag = Some k ↔ ∃ m, slab_get s k = Some m ∧ loc_cids m = {[0 := tag]}).
    rewrite Hg. destruct (decide (k = h)) as [->|Hk].
    + destruct (decide (tag = aid)) as [->|Ht]; [rewrite lookup_insert_eq; split; [by exists meta|done]|]. rewrite lookup_insert_ne by done.
      split; [intros (m & E & _)%(eo_routes e O); congruence|]. intros (m & [= <-] & E). by apply loc_cids_inj in E.
    + rewrite <- (eo_routes e O). destruct (decide (tag = aid)) as [->|Ht]; [rewrite lookup_insert_eq, Hn; split; congruence|by rewrite lookup_insert_ne].
Qed.

Lemma handle_cases d now remote data e r e' :
  endpoint_ok e → handle d now remote data e = (Ok r, e') →
  match r with
  | None => e' = e
  | Some (h, AssociationEvent pd) => e' = e ∧ partial_unmarshal data = Ok pd ∧ known_handle pd e = Some h
  | Some (h, NewAssociation a) =>
      ∃ pd tag sc a0, partial_unmarshal data = Ok pd ∧ first_chunk_type pd = CT_INIT ∧ server_config e = Some sc ∧
        slab_len (associations e) < concurrent_associations sc ∧ reject_new_associations e = false ∧ is_full e = false ∧
        opens e e' tag h ∧ endpoint_ok e' ∧ assoc_new true (transport sc) (max_payload_size e) tag (random_tsn d) now = Ok a0 ∧
        handle_event (random_cookie d) pd now a0 = Ok a
  end.
Proof.
  intros O. unfold handle. destruct (partial_unmarshal data) as [pd| |]; [|by intros [= <- <-]|done].
  destruct (known_handle pd e) as [h|] eqn:Ek; [by intros [= <- <-]|]. unfold handle_first_packet, sbind, sret, slift.
  destruct (first_chunk_type pd =? CT_INIT) eqn:Et; [|by intros [= <- <-]]. apply Z.eqb_eq in Et.
  destruct (initiate_tag pd) as [raid|]; [|by intros [= <- <-]]. destruct (server_config e) as [sc|]; [|by intros [= <- <-]].
  destruct (concurrent_associations sc <=? slab_len (associations e)) eqn:Ec; [by intros [= <- <-]|].
  destruct (reject_new_associations e) eqn:Er; [by intros [= <- <-]|]. destruct (is_full e) eqn:Ef; [by intros [= <- <-]|]. cbn [orb].
  destruct (new_aid (aids d) e) as [aid| |] eqn:Ea; [|done..]. apply new_aid_spec in Ea as [_ Ha].
  destruct (add_association _ _ _ _ _ _ _ _) as [[[h conn]| |] e1] eqn:Eadd; [|done..].
  destruct (add_spec _ _ _ _ _ _ _ _ _ _ _ O Ha Eadd) as (En & Hop & O1).
  destruct (handle_event (random_cookie d) pd now conn) as [a| |] eqn:Eh; [|done..]. intros [= <- <-]. apply Z.leb_gt in Ec.
  exists pd, aid, sc, conn. by split_and!.
Qed.

Lemma connect_cases d cfg remote now e r e' :
  endpoint_ok e → connect d cfg remote now e = (Ok r, e') →
  match r with
  | inl _ => e' = e
  | inr (h, a) => ∃ tag, opens e e' tag h ∧ endpoint_ok e' ∧ assoc_new false cfg (max_payload_size e) tag (random_tsn d) now = Ok a
  end.
Proof.
  intros O. unfold connect. destruct (is_full e); [by intros [= <- <-]|]. destruct (_ =? 0); [by intros [= <- <-]|]. unfold sbind, sret.
  destruct (new_aid (aids d) e) as [aid| |] eqn:Ea; [|done..]. apply new_aid_spec in Ea as [_ Ha].
  destruct (add_association _ _ _ _ _ _ _ _) as [[[h conn]| |] e1] eqn:Eadd; [|done..].
  destruct (add_spec _ _ _ _ _ _ _ _ _ _ _ O Ha Eadd) as (En & Hop & O1). intros [= <- <-]. by exists aid.
Qed.

Lemma drained_cases ch e :
  endpoint_ok e →
  match slab_get (associations e) ch with
  | None => endpoint_handle_event ch e = (Panic, e)
  | Some _ => ∃ e' tag, endpoint_handle_event ch e = (Ok tt, e') ∧ association_ids e !! tag = Some ch ∧
                association_ids e' = delete tag (association_ids e) ∧ endpoint_ok e' ∧
                slab_get (associations e') ch = None ∧ slab_len (associations e') = slab_len (associations e) - 1
  end.
Proof.
  intros O. unfold endpoint_handle_event. destruct (slab_get (associations e) ch) as [meta|] eqn:Eg.
  2:{ apply slab_remove_none in Eg. by rewrite Eg. }
  destruct (slab_remove ch (associations e)) as [[conn s]|] eqn:Er; [|apply slab_remove_none in Er; congruence].
  destruct (slab_remove_some _ _ _ _ Er) as [Eg' Hs]. assert (meta = conn) as -> by congruence. pose proof (slab_len_remove _ _ _ _ Er) as Hl.
  destruct (eo_metas e O ch conn Eg) as [tag Et]. rewrite Et, map_to_list_singleton. csimpl.
  eexists _, tag. split; [reflexivity|]. split_and!; [apply (eo_routes e O); by exists conn|done| |cbn; by rewrite Hs, decide_True|exact Hl].
  assert (association_ids e !! tag = Some ch) as Htag by (apply (eo_routes e O); by exists conn).
  split; cbn.
  - intros t h. change (delete tag (association_ids e) !! t = Some h ↔ ∃ m, slab_get s h = Some m ∧ loc_cids m = {[0 := t]}). rewrite Hs.
    destruct (decide (h = ch)) as [->|Hh].
    + rewrite lookup_delete_Some. split; [|by intros (? & ? & _)]. intros [Hn Hc]. by destruct Hn, (one_tag e tag t ch).
    + rewrite lookup_delete_Some, <- (eo_routes e O). split; [by intros [_ ?]|]. intros Hc. split; [|done]. intros ->. congruence.
  - intros h m. rewrite Hs. destruct (decide _); [done|]. apply (eo_metas e O).
Qed.

Lemma reachable_ok e : reachable e → endpoint_ok e.
Proof.
  induction 1 as [mps sc|e sc _ O|e _ O|e d now remote data r e' _ O E|e d cfg remote now r e' _ O E|e ch e' _ O E].
  - apply new_ok.
  - by destruct O.
  - by destruct O.
  - apply handle_cases in E; [|done]. destruct r as [[h [pd|a]]|]; [by destruct E as [-> _]| |by subst].
    by destruct E as (pd & tag & sc & a0 & _ & _ & _ & _ & _ & _ & _ & ? & _).
  - apply connect_cases in E; [|done]. destruct r as [err|[h a]]; [by subst|]. by destruct E as (tag & _ & ? & _).
  - pose proof (drained_cases ch e O) as Hd. destruct (slab_get _ ch); [|congruence].
    destruct Hd as (e1 & tag & E1 & _ & _ & O1 & _). rewrite E1 in E. by injection E as <-.
Qed.

End Routing.

(** C36: in every endpoint that a program can reach, a verification tag is routed to exactly the
    association it was given to, while that association lives: no two tags lead to one
    association and a tag leads somewhere exactly when its association is in the slab.
    Datagrams with a known tag go there and change nothing; an INIT that is let in, and a
    call of [connect], take a tag and a handle that were both free, start an association with
    that tag and add this one route; [Drained] removes the route of its association and no
    other, and panics for a handle that is not in use. *)
Theorem routing_exact `{Slab AssociationMeta} `{BytesCrate} `{Crc32c} e :
  reachable e →
  (∀ h, is_Some (slab_get (associations e) h) ↔ ∃ tag, association_ids e !! tag = Some h) ∧
  (∀ t1 t2 h, association_ids e !! t1 = Some h → association_ids e !! t2 = Some h → t1 = t2) ∧
  (∀ d now remote data pd h, partial_unmarshal data = Ok pd → 0 < verification_tag (common_header pd) →
     association_ids e !! verification_tag (common_header pd) = Some h →
     handle d now remote data e = (Ok (Some (h, AssociationEvent pd)), e)) ∧
  (∀ d now remote data h a e', handle d now remote data e = (Ok (Some (h, NewAssociation a)), e') →
     ∃ pd tag sc a0, opens e e' tag h ∧ server_config e = Some sc ∧ slab_len (associations e) < concurrent_associations sc ∧
       reject_new_associations e = false ∧ assoc_new true (transport sc) (max_payload_size e) tag (random_tsn d) now = Ok a0 ∧
       first_chunk_type pd = CT_INIT ∧ handle_event (random_cookie d) pd now a0 = Ok a) ∧
  (∀ d cfg remote now h a e', connect d cfg remote now e = (Ok (inr (h, a)), e') →
     ∃ tag, opens e e' tag h ∧ assoc_new false cfg (max_payload_size e) tag (random_tsn d) now = Ok a) ∧
  (∀ ch, match slab_get (associations e) ch with
         | None => endpoint_handle_event ch e = (Panic, e)
         | Some _ => ∃ e' tag, endpoint_handle_event ch e = (Ok tt, e') ∧ association_ids e !! tag = Some ch ∧
                       association_ids e' = delete tag (association_ids e) ∧ slab_get (associations e') ch = None
         end).
Proof.
  intros R. pose proof (reachable_ok e R) as O. split_and!.
  - intros h. split; [intros [m E]; destruct (eo_metas e O h m E) as [tag Et]; exists tag; apply (eo_routes e O); by exists m|].
    intros (tag & (m & E & _)%(eo_routes e O)). by exists m.
  - intros t1 t2 h. by apply one_tag.
  - intros d now remote data pd h E Ht Hh. unfold handle, known_handle. by rewrite E, (proj2 (Z.ltb_lt _ _) Ht), Hh.
  - intros d now remote data h a e' E. apply handle_cases in E; [|done].
    destruct E as (pd & tag & sc & a0 & E1 & E2 & E3 & E4 & E5 & E6 & E7 & E8 & E9 & E10). exists pd, tag, sc, a0. by split_and!.
  - intros d cfg remote now h a e' E. apply connect_cases in E; [|done]. destruct E as (tag & E1 & _ & E2). by exists tag.
  - intros ch. pose proof (drained_cases ch e O) as Hd. destruct (slab_get _ ch); [|done].
    destruct Hd as (e1 & tag & E1 & E2 & E3 & _ & E4 & _). by exists e1, tag.
Qed.

(** * Examples *)

Section SlabExample.
Context {A : Type}.

(** A slab that never reuses a key: the entries and the next key. *)
#[local, refine] Instance map_slab : Slab A := {
  slab := { s : gmap Z A * Z | map_Forall (λ k _, k < s.2) s.1 };
  slab_new := (∅, 0) ↾ _;
  slab_get s k := (`s).1 !! k;
  slab_insert x s := ((`s).2, (<[(`s).2 := x]> (`s).1, (`s).2 + 1) ↾ _);
  slab_remove k s := match (`s).1 !! k with Some x => Some (x, (delete k (`s).1, (`s).2) ↾ _) | None => None end;
  slab_len s := Z.of_nat (size (`s).1)
}.
Proof.
  - apply map_Forall_empty.
  - destruct s as [[m n] Hs]. cbn in *. apply map_Forall_insert_2; [lia|]. eapply map_Forall_impl; [exact Hs|]. cbn. lia.
  - destruct s as [[m n] Hs]. cbn in *. by apply map_Forall_delete.
  - intros k. apply lookup_empty.
  - intros x [[m n] Hs]. cbn in *. destruct (m !! n) as [y|] eqn:E; [|done]. specialize (Hs n y E). cbn in Hs. lia.
  - intros x [[m n] Hs] k. cbn. destruct (decide _) as [->|]; [by rewrite lookup_insert_eq|by rewrite lookup_insert_ne].
  - intros [[m n] Hs] k. cbn. destruct (m !! k); done.
  - intros [[m n] Hs] k x s' E. cbn in *. destruct (m !! k) eqn:Ek; [|done]. injection E as -> <-. split; [done|]. intros k'. cbn.
    destruct (decide _) as [->|]; [by rewrite lookup_delete_eq|by rewrite lookup_delete_ne].
  - done.
  - intros x [[m n] Hs]. cbn in *. rewrite map_size_insert_None; [lia|]. destruct (m !! n) as [y|] eqn:E; [|done].
    specialize (Hs n y E). cbn in Hs. lia.
  - intros [[m n] Hs] k x s' E. cbn in *. destruct (m !! k) eqn:Ek; [|done]. injection E as -> <-. cbn. rewrite map_size_delete_Some by (by eexists).
    assert (size m ≠ 0%nat). { intros Hz. apply map_size_empty_iff in Hz. subst m. by rewrite lookup_empty in Ek. } lia.
Defined.
End SlabExample.

Section EndpointExample.
#[local] Existing Instance BigEndian.big_endian.
#[local] Existing Instance sum_crc.
#[local] Existing Instance map_slab.

Definition draws_example (aid tsn : Z) : Draws := mkDraws [aid] 1 tsn [1; 2; 3; 4].
Definition remote_example : SocketAddr := mkAddr [192; 0; 2; 1] 5000.
Definition endpoint_example : Endpoint := endpoint_new default_max_payload_size (Some server_config_default).

Lemma routing_exact_witness :
  ∃ e h, reachable e ∧ association_ids e !! 7 = Some h ∧ is_Some (slab_get (associations e) h).
Proof.
  pose (out := connect (draws_example 7 100) transport_config_default remote_example 0 endpoint_example).
  assert (match out with (Ok _, e) => bool_decide (association_ids e !! 7 = Some 0) | _ => false end = true) as Hok by (vm_compute; reflexivity).
  destruct out as [[r| |] e] eqn:E; [|discriminate Hok..]. apply bool_decide_eq_true_1 in Hok. rename Hok into Hh. set (h := 0) in Hh.
  assert (reachable e) as R by (eapply reach_connect; [apply reach_new|exact E]).
  exists e, h. split_and!; [done|done|]. apply (proj1 (routing_exact e R)). by exists 7.
Defined.

(** The client's first datagram. *)
Definition init_datagram : bytes := Eval vm_compute in
  match assoc_new false transport_config_default 1200 7 100 0 with
  | Ok a => match poll_transmit 0 a with (Ok (Some [raw]), _) => raw | _ => [] end
  | _ => []
  end.

(** The same INIT twice makes two associations. *)
Lemma repeated_init_opens_twice :
  let e1 := snd (handle (draws_example 9 200) 0 remote_example init_datagram endpoint_example) in
  let e2 := snd (handle (draws_example 11 300) 0 remote_example init_datagram e1) in
  size (association_ids e1) = 1%nat ∧ size (association_ids e2) = 2%nat.
Proof. split; by vm_compute. Qed.
End EndpointExample.

(** An association whose id is drawn as 0 gets no packets: the tag 0 is never looked up. *)
Lemma zero_tag_not_routed `{Slab AssociationMeta} e pd :
  verification_tag (common_header pd) = 0 → first_chunk_type pd ≠ CT_INIT → known_handle pd e = None.
Proof. intros E Hn. unfold known_handle. rewrite E. cbn [Z.ltb Z.compare]. by rewrite (proj2 (Z.eqb_neq _ _) Hn). Qed.
