(* ===== verification/Signaling.v ===== *)
(** The offer/answer state machine of a peer connection
    ([rtc/src/peer_connection/state/signaling_state.rs]), the description bookkeeping built on it
    ([RTCPeerConnection::set_description] and the negotiation-needed flag in
    [rtc/src/peer_connection/internal.rs]), and two peers that negotiate over a signaling
    channel. *)

From stdpp Require Import strings.
From S2P Require Import Prelude.

(** * The state machine *)

Inductive StateChangeOp := SetLocal | SetRemote.

Inductive RTCSignalingState :=
| Unspecified | Stable | HaveLocalOffer | HaveRemoteOffer | HaveLocalPranswer | HaveRemotePranswer
| SignalingClosed.

Inductive RTCSdpType := SdpUnspecified | Offer | Pranswer | Answer | Rollback.

#[export] Instance StateChangeOp_eq_dec : EqDecision StateChangeOp.
Proof. solve_decision. Defined.
#[export] Instance RTCSignalingState_eq_dec : EqDecision RTCSignalingState.
Proof. solve_decision. Defined.
#[export] Instance RTCSdpType_eq_dec : EqDecision RTCSdpType.
Proof. solve_decision. Defined.

Definition signaling_state_from_str (raw : string) : RTCSignalingState :=
  if bool_decide (raw = "stable"%string) then Stable
  else if bool_decide (raw = "have-local-offer"%string) then HaveLocalOffer
  else if bool_decide (raw = "have-remote-offer"%string) then HaveRemoteOffer
  else if bool_decide (raw = "have-local-pranswer"%string) then HaveLocalPranswer
  else if bool_decide (raw = "have-remote-pranswer"%string) then HaveRemotePranswer
  else if bool_decide (raw = "closed"%string) then SignalingClosed
  else Unspecified.

Definition signaling_state_str (s : RTCSignalingState) : string :=
  match s with
  | Stable => "stable"
  | HaveLocalOffer => "have-local-offer"
  | HaveRemoteOffer => "have-remote-offer"
  | HaveLocalPranswer => "have-local-pranswer"
  | HaveRemotePranswer => "have-remote-pranswer"
  | SignalingClosed => "closed"
  | Unspecified => "Unspecified"
  end%string.

Definition signaling_state_from_u8 (v : Z) : RTCSignalingState :=
  if v =? 1 then Stable
  else if v =? 2 then HaveLocalOffer
  else if v =? 3 then HaveRemoteOffer
  else if v =? 4 then HaveLocalPranswer
  else if v =? 5 then HaveRemotePranswer
  else if v =? 6 then SignalingClosed
  else Unspecified.

Definition sdp_type_from_str (raw : string) : RTCSdpType :=
  if bool_decide (raw = "offer"%string) then Offer
  else if bool_decide (raw = "pranswer"%string) then Pranswer
  else if bool_decide (raw = "answer"%string) then Answer
  else if bool_decide (raw = "rollback"%string) then Rollback
  else SdpUnspecified.

Definition sdp_type_str (t : RTCSdpType) : string :=
  match t with
  | Offer => "offer"
  | Pranswer => "pranswer"
  | Answer => "answer"
  | Rollback => "rollback"
  | SdpUnspecified => "Unspecified"
  end%string.

(** The message of the error, a formatted string, is not kept. *)
Definition check_next_signaling_state (cur next : RTCSignalingState) (op : StateChangeOp)
    (sdp_type : RTCSdpType) : res RTCSignalingState :=
  if bool_decide (sdp_type = Rollback) && bool_decide (cur = Stable)
  then Err ErrSignalingStateCannotRollback
  else
    let invalid := Err ErrSignalingStateProposedTransitionInvalid in
    match cur with
    | Stable =>
        match op with
        | SetLocal =>
            if bool_decide (sdp_type = Offer) && bool_decide (next = HaveLocalOffer) then Ok next else invalid
        | SetRemote =>
            if bool_decide (sdp_type = Offer) && bool_decide (next = HaveRemoteOffer) then Ok next else invalid
        end
    | HaveLocalOffer =>
        if bool_decide (op = SetRemote) then
          match sdp_type with
          | Answer => if bool_decide (next = Stable) then Ok next else invalid
          | Pranswer => if bool_decide (next = HaveRemotePranswer) then Ok next else invalid
          | _ => invalid
          end
        else if bool_decide (op = SetLocal) then
          match sdp_type with
          | Offer => if bool_decide (next = HaveLocalOffer) then Ok next else invalid
          | Rollback => if bool_decide (next = Stable) then Ok next else invalid
          | _ => invalid
          end
        else invalid
    | HaveRemotePranswer =>
        if bool_decide (op = SetRemote) && bool_decide (sdp_type = Answer) then
          if bool_decide (next = Stable) then Ok next else invalid
        else invalid
    | HaveRemoteOffer =>
        if bool_decide (op = SetLocal) then
          match sdp_type with
          | Answer => if bool_decide (next = Stable) then Ok next else invalid
          | Pranswer => if bool_decide (next = HaveLocalPranswer) then Ok next else invalid
          | _ => invalid
          end
        else if bool_decide (op = SetRemote) && bool_decide (sdp_type = Rollback) && bool_decide (next = Stable)
        then Ok next
        else invalid
    | HaveLocalPranswer =>
        if bool_decide (op = SetLocal) && bool_decide (sdp_type = Answer) then
          if bool_decide (next = Stable) then Ok next else invalid
        else invalid
    | _ => invalid
    end.

(** * The peer connection

    The fields the negotiation reads and writes.  [parsed], the cached parse of a description, and
    the transports are not part of it. *)

Record RTCSessionDescription := mkSd { sdp_type : RTCSdpType; sdp : string }.

Inductive NegotiationNeededState := NnEmpty | NnRun | NnQueue.

#[export] Instance NegotiationNeededState_eq_dec : EqDecision NegotiationNeededState.
Proof. solve_decision. Defined.
#[export] Instance RTCSessionDescription_eq_dec : EqDecision RTCSessionDescription.
Proof. solve_decision. Defined.

(** The states of the connection as a whole, of the ICE transport and of the DTLS transport *)
Inductive RTCPeerConnectionState := PcUnspecified | PcNew | PcConnecting | PcConnected | PcDisconnected | PcFailed | PcClosed.
Inductive RTCIceConnectionState :=
| IcUnspecified | IcNew | IcChecking | IcConnected | IcCompleted | IcDisconnected | IcFailed | IcClosed.
Inductive RTCDtlsTransportState := DtUnspecified | DtNew | DtConnecting | DtConnected | DtClosed | DtFailed.

#[export] Instance RTCPeerConnectionState_eq_dec : EqDecision RTCPeerConnectionState.
Proof. solve_decision. Defined.
#[export] Instance RTCIceConnectionState_eq_dec : EqDecision RTCIceConnectionState.
Proof. solve_decision. Defined.
#[export] Instance RTCDtlsTransportState_eq_dec : EqDecision RTCDtlsTransportState.
Proof. solve_decision. Defined.

Inductive RTCPeerConnectionEvent :=
| OnSignalingStateChangeEvent (s : RTCSignalingState)
| OnConnectionStateChangeEvent (s : RTCPeerConnectionState)
| OnNegotiationNeededEvent.

Record Peer := mkPeer {
  signaling_state : RTCSignalingState;
  current_local_description : option RTCSessionDescription;
  pending_local_description : option RTCSessionDescription;
  current_remote_description : option RTCSessionDescription;
  pending_remote_description : option RTCSessionDescription;
  last_offer : string;
  last_answer : string;
  is_negotiation_ongoing : bool;
  negotiation_needed_state : NegotiationNeededState;
  peer_connection_state : RTCPeerConnectionState;
  event_outs : list RTCPeerConnectionEvent
}.

Definition eta_peer (p : Peer) : Peer :=
  mkPeer (signaling_state p) (current_local_description p) (pending_local_description p)
    (current_remote_description p) (pending_remote_description p) (last_offer p) (last_answer p)
    (is_negotiation_ongoing p) (negotiation_needed_state p) (peer_connection_state p) (event_outs p).

#[export] Instance set_signaling_state : Setter signaling_state.
Proof. make_setter eta_peer signaling_state. Defined.
#[export] Instance set_current_local : Setter current_local_description.
Proof. make_setter eta_peer current_local_description. Defined.
#[export] Instance set_pending_local : Setter pending_local_description.
Proof. make_setter eta_peer pending_local_description. Defined.
#[export] Instance set_current_remote : Setter current_remote_description.
Proof. make_setter eta_peer current_remote_description. Defined.
#[export] Instance set_pending_remote : Setter pending_remote_description.
Proof. make_setter eta_peer pending_remote_description. Defined.
#[export] Instance set_last_offer : Setter last_offer.
Proof. make_setter eta_peer last_offer. Defined.
#[export] Instance set_last_answer : Setter last_answer.
Proof. make_setter eta_peer last_answer. Defined.
#[export] Instance set_ongoing : Setter is_negotiation_ongoing.
Proof. make_setter eta_peer is_negotiation_ongoing. Defined.
#[export] Instance set_needed : Setter negotiation_needed_state.
Proof. make_setter eta_peer negotiation_needed_state. Defined.
#[export] Instance set_connection_state : Setter peer_connection_state.
Proof. make_setter eta_peer peer_connection_state. Defined.
#[export] Instance set_events : Setter event_outs.
Proof. make_setter eta_peer event_outs. Defined.

Definition peer_new : Peer :=
  mkPeer Stable None None None None "" "" false NnEmpty PcNew [].

Definition do_signaling_state_change (new_state : RTCSignalingState) (p : Peer) : Peer :=
  p <| event_outs ::= λ l, l ++ [OnSignalingStateChangeEvent new_state] |>.

(** The state the description leads to, and the peer with its descriptions updated. *)
Definition apply_description (sd : RTCSessionDescription) (op : StateChangeOp) (p : Peer)
    : res RTCSignalingState * Peer :=
  let cur := signaling_state p in
  let checked next update :=
    match check_next_signaling_state cur next op (sdp_type sd) with
    | Ok s => (Ok s, update p)
    | r => (r, p)
    end in
  match op with
  | SetLocal =>
      match sdp_type sd with
      | Offer =>
          if bool_decide (sdp sd ≠ last_offer p) then (Err ErrSDPDoesNotMatchOffer, p)
          else checked HaveLocalOffer (λ p, p <| pending_local_description := Some sd |>)
      | Answer =>
          if bool_decide (sdp sd ≠ last_answer p) then (Err ErrSDPDoesNotMatchAnswer, p)
          else checked Stable (λ p,
            p <| pending_remote_description := None |>
              <| pending_local_description := None |>
              <| current_local_description := Some sd |>
              <| current_remote_description := pending_remote_description p |>)
      | Rollback => checked Stable (λ p, p <| pending_local_description := None |>)
      | Pranswer =>
          if bool_decide (sdp sd ≠ last_answer p) then (Err ErrSDPDoesNotMatchAnswer, p)
          else checked HaveLocalPranswer (λ p, p <| pending_local_description := Some sd |>)
      | SdpUnspecified => (Err ErrPeerConnStateChangeInvalid, p)
      end
  | SetRemote =>
      match sdp_type sd with
      | Offer => checked HaveRemoteOffer (λ p, p <| pending_remote_description := Some sd |>)
      | Answer => checked Stable (λ p,
          p <| pending_local_description := None |>
            <| pending_remote_description := None |>
            <| current_remote_description := Some sd |>
            <| current_local_description := pending_local_description p |>)
      | Rollback => checked Stable (λ p, p <| pending_remote_description := None |>)
      | Pranswer => checked HaveRemotePranswer (λ p, p <| pending_remote_description := Some sd |>)
      | SdpUnspecified => (Err ErrPeerConnStateChangeInvalid, p)
      end
  end.

Definition set_description (sd : RTCSessionDescription) (op : StateChangeOp) : sm Peer unit :=
  do! _ <- sguard (bool_decide (sdp_type sd = SdpUnspecified)) ErrPeerConnSDPTypeInvalidValue;
  do! next_state <- apply_description sd op;
  smodify (λ p,
    let p := p <| signaling_state := next_state |> in
    let p := if bool_decide (signaling_state p = Stable) then p <| is_negotiation_ongoing := false |> else p in
    do_signaling_state_change next_state p).

Definition remote_description (p : Peer) : option RTCSessionDescription :=
  match pending_remote_description p with
  | Some d => Some d
  | None => current_remote_description p
  end.

(** * The negotiation-needed flag

    [check_negotiation_needed] compares the current descriptions with the transceivers and data
    channels; here it is any predicate on the peer. *)

Section NegotiationNeeded.
Variable check_negotiation_needed : Peer → bool.

Definition do_negotiation_needed (p : Peer) : bool * Peer :=
  match negotiation_needed_state p with
  | NnRun => (false, p <| negotiation_needed_state := NnQueue |>)
  | NnQueue => (false, p)
  | NnEmpty => (true, p <| negotiation_needed_state := NnRun |>)
  end.

Definition after_negotiation_needed_op (p : Peer) : bool * Peer :=
  let old := negotiation_needed_state p in
  let p := p <| negotiation_needed_state := NnEmpty |> in
  match old with
  | NnQueue => do_negotiation_needed p
  | _ => (false, p)
  end.

Definition negotiation_needed_op (p : Peer) : bool * Peer :=
  if bool_decide (peer_connection_state p = PcClosed) then (false, p)
  else if bool_decide (signaling_state p ≠ Stable) then after_negotiation_needed_op p
  else if negb (check_negotiation_needed p) then
    after_negotiation_needed_op (p <| is_negotiation_ongoing := false |>)
  else if is_negotiation_ongoing p then after_negotiation_needed_op p
  else
    after_negotiation_needed_op
      (p <| is_negotiation_ongoing := true |>
         <| event_outs ::= λ l, l ++ [OnNegotiationNeededEvent] |>).

Definition trigger_negotiation_needed (p : Peer) : Peer :=
  let '(go, p) := do_negotiation_needed p in
  if go then (negotiation_needed_op p).2 else p.

End NegotiationNeeded.

(** * The state of the connection

    [ice] and [dtls] are the states of the two transports; [handlers] is what closing the handlers
    of the pipeline returned: they keep their own state and touch none of the fields above but the
    events they add to [event_outs]. *)




(** * What [set_description] does

    The transitions the comments of the code name, as a relation. *)

Inductive transition : RTCSignalingState → StateChangeOp → RTCSdpType → RTCSignalingState → Prop :=
| local_offer : transition Stable SetLocal Offer HaveLocalOffer
| remote_offer : transition Stable SetRemote Offer HaveRemoteOffer
| remote_answer : transition HaveLocalOffer SetRemote Answer Stable
| remote_pranswer : transition HaveLocalOffer SetRemote Pranswer HaveRemotePranswer
| local_reoffer : transition HaveLocalOffer SetLocal Offer HaveLocalOffer
| local_rollback : transition HaveLocalOffer SetLocal Rollback Stable
| remote_final : transition HaveRemotePranswer SetRemote Answer Stable
| local_answer : transition HaveRemoteOffer SetLocal Answer Stable
| local_pranswer : transition HaveRemoteOffer SetLocal Pranswer HaveLocalPranswer
| remote_rollback : transition HaveRemoteOffer SetRemote Rollback Stable
| local_final : transition HaveLocalPranswer SetLocal Answer Stable.

Lemma check_next_iff cur next op t s :
  check_next_signaling_state cur next op t = Ok s ↔ s = next ∧ transition cur op t next.
Proof.
  split.
  - destruct cur, op, t, next; intros E; vm_compute in E; try discriminate E; injection E as <-; (split; [done|constructor]).
  - intros [-> HT]. by destruct HT.
Qed.

Lemma check_next_no_panic cur next op t : no_panic (check_next_signaling_state cur next op t).
Proof. by destruct cur, op, t, next. Qed.

(** The text the description must carry: a local offer or answer is the one created last. *)
Definition text_matches (sd : RTCSessionDescription) (op : StateChangeOp) (p : Peer) : Prop :=
  match op, sdp_type sd with
  | SetLocal, Offer => sdp sd = last_offer p
  | SetLocal, (Answer | Pranswer) => sdp sd = last_answer p
  | _, _ => True
  end.

(** The descriptions of a peer: current local and remote, pending local and remote. *)
Definition descriptions (p : Peer) :=
  (current_local_description p, current_remote_description p,
   pending_local_description p, pending_remote_description p).

Definition descriptions_after (sd : RTCSessionDescription) (op : StateChangeOp) (p : Peer) :=
  let '(cl, cr, pl, pr) := descriptions p in
  match op, sdp_type sd with
  | SetLocal, (Offer | Pranswer) => (cl, cr, Some sd, pr)
  | SetLocal, Answer => (Some sd, pr, None, None)
  | SetLocal, _ => (cl, cr, None, pr)
  | SetRemote, (Offer | Pranswer) => (cl, cr, pl, Some sd)
  | SetRemote, Answer => (pl, Some sd, None, None)
  | SetRemote, _ => (cl, cr, pl, None)
  end.

Lemma set_description_ok sd op p p' :
  set_description sd op p = (Ok tt, p') ↔
  ∃ s, transition (signaling_state p) op (sdp_type sd) s ∧ text_matches sd op p ∧
    p' = p <| signaling_state := s |>
           <| current_local_description := (descriptions_after sd op p).1.1.1 |>
           <| current_remote_description := (descriptions_after sd op p).1.1.2 |>
           <| pending_local_description := (descriptions_after sd op p).1.2 |>
           <| pending_remote_description := (descriptions_after sd op p).2 |>
           <| is_negotiation_ongoing ::= λ b, if bool_decide (s = Stable) then false else b |>
           <| event_outs ::= λ l, l ++ [OnSignalingStateChangeEvent s] |>.
Proof.
  destruct p as [st cl pl cr pr lo la on ns cc ev], sd as [t txt].
  unfold set_description, sbind, sguard, smodify, apply_description, text_matches. cbn [sdp_type sdp signaling_state last_offer last_answer].
  split.
  - destruct op, t; cbn [bool_decide]; repeat case_bool_decide; intros E; try discriminate E;
      destruct st; cbn in E; try discriminate E; injection E as <-; eexists; (split; [constructor|]);
      (split; [first [tauto | done]|]); reflexivity.
  - intros (s & HT & Htxt & ->). destruct HT; simpl in Htxt; subst; try (rewrite (bool_decide_eq_false_2 (_ ≠ _)) by tauto); reflexivity.
Qed.

Lemma apply_description_err sd op p r p' :
  apply_description sd op p = (r, p') → (∃ s, r = Ok s) ∨ p' = p ∧ ∃ e, r = Err e.
Proof.
  assert (∀ next p0, match check_next_signaling_state (signaling_state p) next op (sdp_type sd) with
    | Ok s => (Ok s, p0) | r => (r, p) end = (r, p') → (∃ s, r = Ok s) ∨ p' = p ∧ ∃ e, r = Err e) as H.
  { intros next p0 Eq. pose proof (check_next_no_panic (signaling_state p) next op (sdp_type sd)).
    destruct (check_next_signaling_state _ _ _ _); simplify_eq; eauto; done. }
  unfold apply_description. destruct op, (sdp_type sd); repeat case_bool_decide; intros E; simplify_eq; eauto.
Qed.

Lemma set_description_err sd op p r p' :
  set_description sd op p = (r, p') → r ≠ Ok tt → p' = p ∧ ∃ e, r = Err e.
Proof.
  unfold set_description, sbind, sguard, smodify. case_bool_decide; [intros; simplify_eq; eauto|].
  destruct (apply_description sd op p) as [r0 p0] eqn:E. apply apply_description_err in E as [[s ->]|[-> [e ->]]];
    intros; simplify_eq; eauto.
Qed.

(** * One peer

    What happens to a peer connection: an offer or an answer is created, a description is set, a
    change asks for a negotiation, a transport changes its state, the connection is closed. *)


(** The state and the descriptions, the part of a peer the negotiation is about. *)
Abbreviation view := (RTCSignalingState * (option RTCSessionDescription * option RTCSessionDescription *
  option RTCSessionDescription * option RTCSessionDescription))%type.

Definition peer_view (p : Peer) : view := (signaling_state p, descriptions p).

Definition after (sd : RTCSessionDescription) (op : StateChangeOp) (v : view) (s : RTCSignalingState) : view :=
  let '(_, (cl, cr, pl, pr)) := v in
  (s, match op, sdp_type sd with
      | SetLocal, (Offer | Pranswer) => (cl, cr, Some sd, pr)
      | SetLocal, Answer => (Some sd, pr, None, None)
      | SetLocal, _ => (cl, cr, None, pr)
      | SetRemote, (Offer | Pranswer) => (cl, cr, pl, Some sd)
      | SetRemote, Answer => (pl, Some sd, None, None)
      | SetRemote, _ => (cl, cr, pl, None)
      end).

Lemma set_description_view sd op p p' :
  set_description sd op p = (Ok tt, p') →
  ∃ s, transition (peer_view p).1 op (sdp_type sd) s ∧ peer_view p' = after sd op (peer_view p) s.
Proof.
  intros (s & HT & _ & ->)%set_description_ok. exists s. split; [done|].
  unfold peer_view, descriptions, after. record_simpl. unfold descriptions_after, descriptions. cbn.
  by destruct op, (sdp_type sd).
Qed.

(** A remote description is applied when the state allows it and otherwise leaves no trace. *)
Lemma set_remote_view sd p r p' :
  set_description sd SetRemote p = (r, p') →
  (∃ s, transition (peer_view p).1 SetRemote (sdp_type sd) s ∧ peer_view p' = after sd SetRemote (peer_view p) s) ∨
  ((∀ s, ¬ transition (peer_view p).1 SetRemote (sdp_type sd) s) ∧ peer_view p' = peer_view p).
Proof.
  intros E. assert (r = Ok tt ∨ r ≠ Ok tt) as [->|Hr] by (destruct r as [[]| |]; auto); [left; by apply set_description_view|].
  pose proof (set_description_err _ _ _ _ _ E Hr) as [-> _]. right. split; [|done]. intros s HT.
  apply Hr. enough (∃ q, set_description sd SetRemote p = (Ok tt, q)) as [q Eq] by (rewrite E in Eq; by simplify_eq).
  eexists. apply set_description_ok. exists s. by split_and!; [|destruct (sdp_type sd)|].
Qed.

Lemma trigger_view check p : peer_view (trigger_negotiation_needed check p) = peer_view p.
Proof.
  destruct p as [st cl pl cr pr lo la on ns cc ev].
  unfold trigger_negotiation_needed, do_negotiation_needed, negotiation_needed_op, after_negotiation_needed_op.
  destruct ns; cbn -[bool_decide]; [|done..]. do 2 (case_bool_decide; [done|]). by destruct (check _), on.
Qed.









(** * Two peers

    Each side sends the local descriptions it sets and applies the remote ones in the order they
    arrive; one its state does not allow is dropped. *)

Record System := mkSystem {
  left_peer : Peer;
  right_peer : Peer;
  to_right : list RTCSessionDescription;
  to_left : list RTCSessionDescription
}.

Definition swap (s : System) : System :=
  mkSystem (right_peer s) (left_peer s) (to_left s) (to_right s).

(** No rollback, and no second offer before the first is answered. *)
Definition plain (sd : RTCSessionDescription) (p : Peer) : Prop :=
  sdp_type sd ≠ Rollback ∧ ¬ (sdp_type sd = Offer ∧ signaling_state p = HaveLocalOffer).

Inductive acts (s : System) : System → Prop :=
| changes p : (∃ t, p = (left_peer s) <| last_offer := t |>) ∨ (∃ t, p = (left_peer s) <| last_answer := t |>) ∨
    (∃ check, p = trigger_negotiation_needed check (left_peer s)) →
    acts s (mkSystem p (right_peer s) (to_right s) (to_left s))
| describes sd p : plain sd (left_peer s) → set_description sd SetLocal (left_peer s) = (Ok tt, p) →
    acts s (mkSystem p (right_peer s) (to_right s ++ [sd]) (to_left s))
| receives sd rest r p : to_left s = sd :: rest → set_description sd SetRemote (left_peer s) = (r, p) →
    acts s (mkSystem p (right_peer s) (to_right s) rest).

Definition sys_step (s s' : System) : Prop := acts s s' ∨ acts (swap s) (swap s').

Definition sys_new : System := mkSystem peer_new peer_new [] [].

(** The offering side waits for the answer, behind at most one provisional answer. *)
Inductive waiting : option RTCSessionDescription → option RTCSessionDescription → RTCSessionDescription →
    view → list RTCSessionDescription → Prop :=
| waits x y o pre : pre = [] ∨ (∃ q, pre = [q] ∧ sdp_type q = Pranswer) →
    waiting x y o (HaveLocalOffer, (x, y, Some o, None)) pre
| early x y o q : waiting x y o (HaveRemotePranswer, (x, y, Some o, Some q)) [].

(** The negotiation as the two sides and the channels see it.  [A] offers, [B] answers;
    [x] and [y] are the current descriptions, [x] the one of [A]. *)
Inductive phase : view → view → list RTCSessionDescription → list RTCSessionDescription → Prop :=
| quiet x y : phase (Stable, (x, y, None, None)) (Stable, (y, x, None, None)) [] []
| offered x y o : sdp_type o = Offer →
    phase (HaveLocalOffer, (x, y, Some o, None)) (Stable, (y, x, None, None)) [o] []
| glare x y o o' ab ba : sdp_type o = Offer → sdp_type o' = Offer → ab = [] ∨ ab = [o] → ba = [] ∨ ba = [o'] →
    phase (HaveLocalOffer, (x, y, Some o, None)) (HaveLocalOffer, (y, x, Some o', None)) ab ba
| seen x y o : sdp_type o = Offer →
    phase (HaveLocalOffer, (x, y, Some o, None)) (HaveRemoteOffer, (y, x, None, Some o)) [] []
| provisional x y o q A pre : sdp_type o = Offer → waiting x y o A pre →
    phase A (HaveLocalPranswer, (y, x, Some q, Some o)) [] pre
| answered x y o a A pre : sdp_type o = Offer → sdp_type a = Answer → waiting x y o A pre →
    phase A (Stable, (Some a, Some o, None, None)) [] (pre ++ [a])
| reoffered x y o a o' A pre : sdp_type o = Offer → sdp_type a = Answer → sdp_type o' = Offer →
    waiting x y o A pre →
    phase A (HaveLocalOffer, (Some a, Some o, Some o', None)) [] (pre ++ [a; o']).

Definition sys_inv (s : System) : Prop :=
  phase (peer_view (left_peer s)) (peer_view (right_peer s)) (to_right s) (to_left s) ∨
  phase (peer_view (right_peer s)) (peer_view (left_peer s)) (to_left s) (to_right s).

Lemma sys_inv_swap s : sys_inv (swap s) ↔ sys_inv s.
Proof. unfold sys_inv. cbn. tauto. Qed.

Ltac by_state :=
  match goal with
  | H : transition _ _ (sdp_type ?sd) _ |- _ =>
      first [ match goal with E : sdp_type sd = _ |- _ => rewrite E in H end
            | let E := fresh "Et" in destruct (sdp_type sd) eqn:E ]; inversion H; subst; clear H
  end.

(** The offering side acts. *)
Lemma offerer_describes A B ab ba sd s :
  phase A B ab ba → transition A.1 SetLocal (sdp_type sd) s → sdp_type sd ≠ Rollback →
  ¬ (sdp_type sd = Offer ∧ A.1 = HaveLocalOffer) →
  phase (after sd SetLocal A s) B (ab ++ [sd]) ba.
Proof.
  intros HP HT Hr Ho. destruct HP as [| | | |x y o q A pre ? W|x y o a A pre ?? W|x y o a o' A pre ??? W]; simpl in HT, Ho;
    try (destruct W; simpl in HT, Ho); by_state; try tauto; unfold after; rewrite ?Et; by constructor.
Qed.

(** The answering side acts: it answers, or it offers in its turn. *)
Lemma answerer_describes A B ab ba sd s :
  phase A B ab ba → transition B.1 SetLocal (sdp_type sd) s → sdp_type sd ≠ Rollback →
  ¬ (sdp_type sd = Offer ∧ B.1 = HaveLocalOffer) →
  phase A (after sd SetLocal B s) ab (ba ++ [sd]) ∨ phase (after sd SetLocal B s) A (ba ++ [sd]) ab.
Proof.
  intros HP HT Hr Ho. destruct HP as [| | | |x y o q A pre ? W|x y o a A pre ?? W|x y o a o' A pre ??? W]; simpl in HT, Ho;
    by_state; try tauto; unfold after; rewrite ?Et.
  - right. by constructor.
  - left. constructor; auto.
  - left. apply (provisional x y). done. constructor. eauto.
  - left. apply (answered x y _ _ _ []); auto. constructor. auto.
  - left. by apply (answered x y).
  - left. rewrite <-app_assoc. by apply (reoffered x y).
Qed.

(** The waiting side receives the provisional answer, or the answer that ends the exchange. *)
Lemma waiting_receives x y o A pre a rest sd ba :
  waiting x y o A pre → sdp_type a = Answer → pre ++ a :: rest = sd :: ba →
  (∃ s, transition A.1 SetRemote (sdp_type sd) s) ∧
  ∀ s, transition A.1 SetRemote (sdp_type sd) s →
    (ba = rest ∧ after sd SetRemote A s = (Stable, (Some o, Some a, None, None))) ∨
    (ba = a :: rest ∧ waiting x y o (after sd SetRemote A s) []).
Proof.
  intros W Ha E. destruct W as [x y o pre [->|(q & -> & Hq)]|x y o q]; simplify_eq/=.
  - rewrite Ha. split; [eexists; constructor|]. intros s HT. inversion HT; subst. unfold after. rewrite ?Ha. by left.
  - rewrite Hq. split; [eexists; constructor|]. intros s HT. inversion HT; subst. unfold after. rewrite ?Hq. right. by split; [|constructor].
  - rewrite Ha. split; [eexists; constructor|]. intros s HT. inversion HT; subst. unfold after. rewrite ?Ha. by left.
Qed.

Lemma offerer_receives A B ab ba sd :
  phase A B ab (sd :: ba) →
  (∀ s, transition A.1 SetRemote (sdp_type sd) s → phase (after sd SetRemote A s) B ab ba ∨ phase B (after sd SetRemote A s) ba ab) ∧
  ((∀ s, ¬ transition A.1 SetRemote (sdp_type sd) s) → phase A B ab ba ∨ phase B A ba ab).
Proof.
  intros HP. inversion HP as [| |x y o o' ? ? ??? Hba| |x y o q ? pre ? W|x y o a ? pre ?? W|x y o a o' ? pre ??? W]; subst.
  - split; [intros s HT|intros _]; destruct Hba; simplify_eq; simpl in *; [by_state|]. left. constructor; auto.
  - inversion W as [???? [?|(q' & ? & Hq)]|]; simplify_eq. split.
    + intros s HT. simpl in HT. by_state. left. unfold after. rewrite Hq. eapply provisional; [done|]. constructor.
    + intros HN. simpl in HN. rewrite Hq in HN. destruct (HN _ remote_pranswer).
  - eapply waiting_receives in W as [[s1 HT1] W]; [|done..]. split; [|intros HN; destruct (HN _ HT1)].
    intros s HT. destruct (W s HT) as [[-> ->]|[-> W']]; left; [apply quiet|]. by apply (answered x y _ _ _ []).
  - eapply waiting_receives in W as [[s1 HT1] W]; [|done..]. split; [|intros HN; destruct (HN _ HT1)].
    intros s HT. destruct (W s HT) as [[-> ->]|[-> W']]; [right; by constructor|left]. by apply (reoffered x y _ _ _ _ []).
Qed.

Lemma answerer_receives A B ab ba sd :
  phase A B (sd :: ab) ba →
  (∀ s, transition B.1 SetRemote (sdp_type sd) s → phase A (after sd SetRemote B s) ab ba) ∧
  ((∀ s, ¬ transition B.1 SetRemote (sdp_type sd) s) → phase A B ab ba).
Proof.
  intros HP. inversion HP as [|x y o Ho|x y o o' ? ? Ho Ho' Hab Hba| | | | ]; subst.
  - split; [intros s HT|intros HN]; simpl in *.
    + by_state. unfold after. rewrite Ho. by constructor.
    + rewrite Ho in HN. destruct (HN _ remote_offer).
  - split; [intros s HT|intros _]; destruct Hab; simplify_eq; simpl in *; [by_state|]. constructor; auto.
Qed.

Lemma acts_inv s s' : acts s s' → sys_inv s → sys_inv s'.
Proof.
  intros Hact. destruct s as [l r ab ba]. unfold sys_inv. destruct Hact as [p Hp|sd p [Hr Ho] E|sd rest res p El E]; cbn in *.
  - by destruct Hp as [[t ->]|[[t ->]|[check ->]]]; rewrite ?trigger_view.
  - apply set_description_view in E as (s & HT & ->). intros [HP|HP].
    + left. by apply offerer_describes.
    + apply or_comm. by apply answerer_describes.
  - subst ba. apply set_remote_view in E. intros [HP|HP].
    + destruct (offerer_receives _ _ _ _ _ HP) as [H1 H2]. destruct E as [(s & HT & ->)|[HN ->]]; auto.
    + destruct (answerer_receives _ _ _ _ _ HP) as [H1 H2]. destruct E as [(s & HT & ->)|[HN ->]]; auto.
Qed.

Lemma sys_inv_reachable s : rtc sys_step sys_new s → sys_inv s.
Proof.
  revert s. apply rtc_ind_r; [left; apply quiet|]. intros s s' _ [Hact|Hact] Hinv; [by eapply acts_inv|].
  apply sys_inv_swap. eapply acts_inv; [done|]. by apply sys_inv_swap.
Qed.

(** C24: two peers that start from nothing, create offers and answers at will, send each other the
    local descriptions they set and apply what arrives in order, agree whenever both are stable
    and nothing is on its way: the current local description of each is the current remote
    description of the other.  The sides may both offer at once; neither rolls back, nor offers
    again before its offer is answered. *)
Theorem negotiation_agreement s :
  rtc sys_step sys_new s →
  signaling_state (left_peer s) = Stable → signaling_state (right_peer s) = Stable →
  to_left s = [] → to_right s = [] →
  current_local_description (left_peer s) = current_remote_description (right_peer s) ∧
  current_remote_description (left_peer s) = current_local_description (right_peer s).
Proof.
  intros HR Hl Hr El Er. apply sys_inv_reachable in HR. unfold sys_inv, peer_view, descriptions in HR.
  rewrite Hl, Hr, El, Er in HR.
  destruct HR as [HP|HP]; inversion HP; subst; try done; by destruct pre.
Qed.

Lemma right_acts s t : acts (swap s) t → sys_step s (swap t).
Proof. intros H. right. by destruct t. Qed.

Definition sample_exchange : System :=
  let o := mkSd Offer "o" in let a := mkSd Answer "a" in
  let A := (set_description o SetLocal (peer_new <| last_offer := "o" |>)).2 in
  let B := (set_description o SetRemote peer_new).2 in
  let B := (set_description a SetLocal (B <| last_answer := "a" |>)).2 in
  mkSystem (set_description a SetRemote A).2 B [] [].

Lemma sample_exchange_reachable : rtc sys_step sys_new sample_exchange.
Proof.
  eapply rtc_l; [left; apply changes; left; exists "o"%string; reflexivity|].
  eapply rtc_l; [left; eapply (describes _ (mkSd Offer "o")); [split; [done|by intros [_ ?]]|reflexivity]|].
  eapply rtc_l; [apply right_acts; eapply (receives _ (mkSd Offer "o")); reflexivity|].
  eapply rtc_l; [apply right_acts; apply changes; right; left; exists "a"%string; reflexivity|].
  eapply rtc_l; [apply right_acts; eapply (describes _ (mkSd Answer "a")); [split; [done|by intros [_ ?]]|reflexivity]|].
  eapply rtc_l; [left; eapply (receives _ (mkSd Answer "a")); reflexivity|].
  apply rtc_refl.
Qed.

Lemma negotiation_agreement_witness :
  current_local_description (left_peer sample_exchange) = Some (mkSd Offer "o") ∧
  current_local_description (left_peer sample_exchange) = current_remote_description (right_peer sample_exchange) ∧
  current_remote_description (left_peer sample_exchange) = current_local_description (right_peer sample_exchange).
Proof. split; [reflexivity|]. apply (negotiation_agreement _ sample_exchange_reachable); reflexivity. Defined.

(** An offer made before the previous one was answered is applied locally and refused by the
    other side, which answers the first: the two sides end up stable with different offers. *)
Lemma reoffer_diverges o1 o2 a :
  let A := (set_description (mkSd Offer o1) SetLocal (peer_new <| last_offer := o1 |>)).2 in
  let A := (set_description (mkSd Offer o2) SetLocal (A <| last_offer := o2 |>)).2 in
  let B := (set_description (mkSd Offer o1) SetRemote peer_new).2 in
  let B := (set_description (mkSd Offer o2) SetRemote B).2 in
  let B := (set_description (mkSd Answer a) SetLocal (B <| last_answer := a |>)).2 in
  let A := (set_description (mkSd Answer a) SetRemote A).2 in
  signaling_state A = Stable ∧ signaling_state B = Stable ∧
  current_local_description A = Some (mkSd Offer o2) ∧ current_remote_description B = Some (mkSd Offer o1).
Proof.
  unfold set_description, sbind, sguard, smodify, apply_description; cbn -[bool_decide].
  repeat (rewrite (bool_decide_eq_false_2 (_ ≠ _)) by (record_simpl; tauto); cbn -[bool_decide]). by repeat split.
Qed.

(** A request for a negotiation: when the connection is open and no request is running, the event
    is raised exactly when the peer is stable, the check asks for it and no negotiation is under
    way. *)
Lemma negotiation_request check p :
  negotiation_needed_state p = NnEmpty → peer_connection_state p ≠ PcClosed →
  let needed := check (p <| negotiation_needed_state := NnRun |>) in
  trigger_negotiation_needed check p =
    if bool_decide (signaling_state p ≠ Stable) then p
    else if negb needed then p <| is_negotiation_ongoing := false |>
    else if is_negotiation_ongoing p then p
    else p <| is_negotiation_ongoing := true |> <| event_outs ::= λ l, l ++ [OnNegotiationNeededEvent] |>.
Proof.
  intros Hn Hc needed. unfold trigger_negotiation_needed, do_negotiation_needed, negotiation_needed_op, after_negotiation_needed_op.
  rewrite Hn. record_simpl. rewrite (bool_decide_eq_false_2 (_ = PcClosed)) by done. subst needed.
  destruct (bool_decide _); [by destruct p; cbn in *; subst|].
  destruct (check _), (is_negotiation_ongoing p) eqn:Eo; destruct p; cbn in *; subst; reflexivity.
Qed.

(** A request made while an exchange is running raises no event, and completing the exchange does
    not raise it either. *)
Lemma request_during_exchange_lost check p sd op p' :
  negotiation_needed_state p = NnEmpty → peer_connection_state p ≠ PcClosed → signaling_state p ≠ Stable →
  set_description sd op (trigger_negotiation_needed check p) = (Ok tt, p') →
  OnNegotiationNeededEvent ∈ event_outs p' → OnNegotiationNeededEvent ∈ event_outs p.
Proof.
  intros Hn Hc Hs. rewrite negotiation_request, bool_decide_true by done.
  intros (s & _ & _ & ->)%set_description_ok. record_simpl. rewrite elem_of_app, list_elem_of_singleton. by intros [?|?].
Qed.

(** A state and an SDP type are recovered from their text, and no other text is read as
    one. *)
Theorem signaling_text_roundtrip :
  (∀ s, signaling_state_from_str (signaling_state_str s) = s) ∧
  (∀ raw, signaling_state_from_str raw ≠ Unspecified → signaling_state_str (signaling_state_from_str raw) = raw) ∧
  (∀ t, sdp_type_from_str (sdp_type_str t) = t) ∧
  (∀ raw, sdp_type_from_str raw ≠ SdpUnspecified → sdp_type_str (sdp_type_from_str raw) = raw).
Proof.
  split_and!.
  - by intros [].
  - intros raw. unfold signaling_state_from_str. by repeat case_bool_decide.
  - by intros [].
  - intros raw. unfold sdp_type_from_str. by repeat case_bool_decide.
Qed.

(** [set_description] succeeds exactly on the transitions of the offer/answer model, with a
    local offer or answer that is the one created last; it then moves the descriptions and
    raises one event, and a failure leaves the peer as it was. *)
Theorem set_description_exact sd op p r p' :
  set_description sd op p = (r, p') →
  (r = Ok tt ∧ ∃ s, transition (signaling_state p) op (sdp_type sd) s ∧ text_matches sd op p ∧
     signaling_state p' = s ∧ descriptions p' = descriptions_after sd op p ∧
     event_outs p' = event_outs p ++ [OnSignalingStateChangeEvent s]) ∨
  ((∃ e, r = Err e) ∧ p' = p ∧
     ∀ s, transition (signaling_state p) op (sdp_type sd) s → ¬ text_matches sd op p).
Proof.
  intros E. assert (r = Ok tt ∨ r ≠ Ok tt) as [->|Hr] by (destruct r as [[]| |]; auto).
  - left. split; [done|]. apply set_description_ok in E as (s & HT & Htxt & ->). exists s.
    split_and!; [done..| |by record_simpl]. unfold descriptions. record_simpl. by destruct (descriptions_after sd op p) as [[[] ] ].
  - right. pose proof (set_description_err _ _ _ _ _ E Hr) as [-> He]. split_and!; [done..|].
    intros s HT Htxt. apply Hr. assert (∃ q, set_description sd op p = (Ok tt, q)) as [q Eq].
    { eexists. apply set_description_ok. by exists s. }
    rewrite E in Eq. by simplify_eq.
Qed.

Lemma set_description_exact_witness :
  let p := peer_new <| last_offer := "o" |> in
  (set_description (mkSd Offer "o") SetLocal p).1 = Ok tt ∧
  (∃ s, transition (signaling_state p) SetLocal Offer s ∧ s = HaveLocalOffer).
Proof.
  intros p. split; [reflexivity|].
  destruct (set_description_exact (mkSd Offer "o") SetLocal p _ _ eq_refl) as [(_ & s & HT & _ & Hs & _)|((e & He) & _)]; [|discriminate He].
  exists s. split; [exact HT|]. by rewrite <-Hs.
Defined.
