(* ===== verification/Nack.v ===== *)
(** Loss recovery, [rtc-interceptor/src/nack]: the receiver's [ReceiveLog], a circular bitmap
    that says which sequence numbers to ask for again, and the sender's [SendBuffer], a
    circular array of the packets it may have to send again. *)

From stdpp Require Import sorting.
From S2P Require Import Prelude RtpHeader RtpPacket.

Definition UINT16_SIZE_HALF : Z := Z.shiftl 1 15.

(** * ReceiveLog *)

Record ReceiveLog := mkLog {
  packets : list Z;
  log_size : Z;
  size_mask : Z;
  log_end : Z;
  log_started : bool;
  last_consecutive : Z
}.

Definition log_new (size : Z) : option ReceiveLog :=
  if existsb (λ i, size =? Z.shiftl 1 i) (seqZ 6 10)
  then Some (mkLog (replicate (Z.to_nat (size / 64)) 0) size (size - 1) 0 false 0)
  else None.

(** Word and bit of a sequence number. *)
Definition word_of (l : ReceiveLog) (seq : Z) : nat := Z.to_nat (Z.land seq (size_mask l) / 64).
Definition bit_of (l : ReceiveLog) (seq : Z) : Z := Z.land seq (size_mask l) mod 64.

Definition with_packets (l : ReceiveLog) (ps : list Z) : ReceiveLog :=
  mkLog ps (log_size l) (size_mask l) (log_end l) (log_started l) (last_consecutive l).

Definition set_received (l : ReceiveLog) (seq : Z) : ReceiveLog :=
  with_packets l (alter (λ w, Z.lor w (Z.shiftl 1 (bit_of l seq))) (word_of l seq) (packets l)).

Definition del_received (l : ReceiveLog) (seq : Z) : ReceiveLog :=
  with_packets l (alter (λ w, Z.ldiff w (Z.shiftl 1 (bit_of l seq))) (word_of l seq) (packets l)).

Definition get_received (l : ReceiveLog) (seq : Z) : bool :=
  negb (Z.land (default 0 (packets l !! word_of l seq)) (Z.shiftl 1 (bit_of l seq)) =? 0).

(** [while i != seq { self.del_received(i); i += 1 }] *)
Fixpoint clear_loop (fuel : nat) (l : ReceiveLog) (i seq : Z) : ReceiveLog :=
  match fuel with
  | O => l
  | S fuel => if i =? seq then l else clear_loop fuel (del_received l i) (u16 (i + 1)) seq
  end.

(** [while i != self.end.wrapping_add(1) && self.get_received(i) { i += 1 }] *)
Fixpoint fix_loop (fuel : nat) (l : ReceiveLog) (i : Z) : Z :=
  match fuel with
  | O => i
  | S fuel => if negb (i =? u16 (log_end l + 1)) && get_received l i then fix_loop fuel l (u16 (i + 1)) else i
  end.

Definition fix_last_consecutive (l : ReceiveLog) : ReceiveLog :=
  let i := u16 (last_consecutive l + 1) in
  let i := fix_loop (Z.to_nat (u16 (u16 (log_end l + 1) - i))) l i in
  mkLog (packets l) (log_size l) (size_mask l) (log_end l) (log_started l) (u16 (i - 1)).

Definition set_end (l : ReceiveLog) (e : Z) : ReceiveLog :=
  mkLog (packets l) (log_size l) (size_mask l) e (log_started l) (last_consecutive l).
Definition set_consecutive (l : ReceiveLog) (c : Z) : ReceiveLog :=
  mkLog (packets l) (log_size l) (size_mask l) (log_end l) (log_started l) c.

Definition log_add (l : ReceiveLog) (seq : Z) : ReceiveLog :=
  if negb (log_started l) then
    let l := set_received l seq in
    mkLog (packets l) (log_size l) (size_mask l) seq true seq
  else
    let diff := u16 (seq - log_end l) in
    if diff =? 0 then l
    else if diff <? UINT16_SIZE_HALF then
      let i := u16 (log_end l + 1) in
      let l := clear_loop (Z.to_nat (u16 (seq - i))) l i seq in
      let l := set_end l seq in
      let l :=
        if u16 (last_consecutive l + 1) =? seq then set_consecutive l seq
        else if log_size l <? u16 (seq - last_consecutive l)
        then fix_last_consecutive (set_consecutive l (u16 (seq - log_size l)))
        else l in
      set_received l seq
    else
      let l :=
        if u16 (last_consecutive l + 1) =? seq then fix_last_consecutive (set_consecutive l seq) else l in
      set_received l seq.

Definition log_get (l : ReceiveLog) (seq : Z) : bool :=
  let diff := u16 (log_end l - seq) in
  if UINT16_SIZE_HALF <=? diff then false
  else if log_size l <=? diff then false
  else get_received l seq.

(** [while i != until.wrapping_add(1)] *)
Fixpoint missing_loop (fuel : nat) (l : ReceiveLog) (i until : Z) : list Z :=
  match fuel with
  | O => []
  | S fuel =>
      if i =? u16 (until + 1) then []
      else (if negb (get_received l i) then [i] else []) ++ missing_loop fuel l (u16 (i + 1)) until
  end.

Definition missing_seq_numbers (l : ReceiveLog) (skip_last_n : Z) : list Z :=
  let until := u16 (log_end l - skip_last_n) in
  if UINT16_SIZE_HALF <=? u16 (until - last_consecutive l) then []
  else
    let i := u16 (last_consecutive l + 1) in
    missing_loop (Z.to_nat (u16 (u16 (until + 1) - i))) l i until.

(** * SendBuffer *)

Record SendBuffer := mkBuffer {
  sent : list (option Packet);
  buf_size : Z;
  mask : Z;
  highest_added : Z;
  buf_started : bool
}.

Definition buf_new (size : Z) : option SendBuffer :=
  if existsb (λ i, size =? Z.shiftl 1 i) (seqZ 0 16)
  then Some (mkBuffer (replicate (Z.to_nat size) None) size (size - 1) 0 false)
  else None.

Definition slot (b : SendBuffer) (seq : Z) : nat := Z.to_nat (Z.land seq (mask b)).

(** [while i != seq { self.packets[i & mask] = None; i += 1 }] *)
Fixpoint evict_loop (fuel : nat) (b : SendBuffer) (i seq : Z) : SendBuffer :=
  match fuel with
  | O => b
  | S fuel =>
      if i =? seq then b
      else evict_loop fuel (mkBuffer (<[slot b i := None]> (sent b)) (buf_size b) (mask b) (highest_added b) (buf_started b))
             (u16 (i + 1)) seq
  end.

Definition buf_add (b : SendBuffer) (p : Packet) : SendBuffer :=
  let seq := sequence_number (header p) in
  if negb (buf_started b) then
    mkBuffer (<[slot b seq := Some p]> (sent b)) (buf_size b) (mask b) seq true
  else
    let diff := u16 (seq - highest_added b) in
    if diff =? 0 then b
    else
      let b :=
        if diff <? UINT16_SIZE_HALF then
          let i := u16 (highest_added b + 1) in
          let b := evict_loop (Z.to_nat (u16 (seq - i))) b i seq in
          mkBuffer (sent b) (buf_size b) (mask b) seq (buf_started b)
        else b in
      mkBuffer (<[slot b seq := Some p]> (sent b)) (buf_size b) (mask b) (highest_added b) (buf_started b).

Definition buf_get (b : SendBuffer) (seq : Z) : option Packet :=
  if negb (buf_started b) then None
  else
    let diff := u16 (highest_added b - seq) in
    if UINT16_SIZE_HALF <=? diff then None
    else if buf_size b <=? diff then None
    else
      match default None (sent b !! slot b seq) with
      | Some p => if negb (sequence_number (header p) =? seq) then None else Some p
      | None => None
      end.

(** * Positions *)

Lemma pow2_size (size : Z) a n : existsb (λ i, size =? Z.shiftl 1 i) (seqZ a n) = true → 0 <= a → ∃ e, a <= e < a + n ∧ size = 2 ^ e.
Proof.
  intros H Ha. apply existsb_exists in H as (e & Hin & E). apply list_elem_of_In, elem_of_seqZ in Hin.
  apply Z.eqb_eq in E. exists e. by rewrite Z.shiftl_1_l in E.
Qed.

(** Masking a wrapped number is the remainder of the number. *)
Lemma mask_mod x e : 0 <= e <= 16 → Z.land (u16 x) (2 ^ e - 1) = x mod 2 ^ e.
Proof.
  intros He. rewrite Z.sub_1_r, <- Z.ones_equiv, Z.land_ones by lia. unfold wrap.
  apply Z.mod_mod_divide. exists (2 ^ (16 - e)). rewrite <- Z.pow_add_r by lia.
  f_equal. lia.
Qed.

Lemma mod_inj x y s : 0 < s → Z.abs (x - y) < s → x mod s = y mod s → x = y.
Proof.
  intros Hs Hxy E. pose proof (Z.div_mod x s ltac:(lia)). pose proof (Z.div_mod y s ltac:(lia)).
  assert (x - y = s * (x / s - y / s)) by lia. assert (x / s - y / s = 0) by nia. lia.
Qed.

Lemma u16_small_diff x y : Z.abs (x - y) < 2 ^ 16 → u16 x = u16 y → x = y.
Proof. intros H. apply mod_inj; [lia|done]. Qed.

Lemma u16_eqb_iff x y : Z.abs (x - y) < 2 ^ 16 → (u16 x =? u16 y) = (x =? y).
Proof.
  intros H. destruct (Z.eqb_spec x y) as [->|n]; [apply Z.eqb_refl|]. apply Z.eqb_neq. intros E. by apply n, u16_small_diff.
Qed.

Lemma u16_add x k : u16 (u16 x + k) = u16 (x + k).
Proof. unfold wrap. by rewrite Z.add_mod_idemp_l by lia. Qed.
Lemma u16_sub x k : u16 (u16 x - k) = u16 (x - k).
Proof. unfold wrap. by rewrite Zminus_mod_idemp_l. Qed.
Lemma u16_sub_u16 x y : u16 (u16 x - u16 y) = u16 (x - y).
Proof. unfold wrap. by rewrite Zminus_mod_idemp_l, Zminus_mod_idemp_r. Qed.
Lemma u16_of_diff d : 0 <= d < 2 ^ 16 → u16 d = d.
Proof. intros. by apply wrap_small. Qed.
Lemma u16_of_neg d : - 2 ^ 16 <= d < 0 → u16 d = d + 2 ^ 16.
Proof. intros. unfold wrap. symmetry. apply Z.mod_unique with (-1); lia. Qed.

(** * The bitmap *)

Definition bit_at (ps : list Z) (p : Z) : bool := Z.testbit (default 0 (ps !! Z.to_nat (p / 64))) (p mod 64).

Record log_shape (sz : Z) (l : ReceiveLog) : Prop := {
  sh_pow : ∃ e, 6 <= e <= 15 ∧ sz = 2 ^ e;
  sh_size : log_size l = sz;
  sh_mask : size_mask l = sz - 1;
  sh_len : Z.of_nat (length (packets l)) = sz / 64
}.

Lemma size_bounds sz : (∃ e, 6 <= e <= 15 ∧ sz = 2 ^ e) → 64 <= sz <= 2 ^ 15 ∧ sz = 64 * (sz / 64).
Proof.
  intros (e & He & ->). assert (2 ^ e = 64 * 2 ^ (e - 6)) as E
    by (change 64 with (2 ^ 6); rewrite <- Z.pow_add_r by lia; f_equal; lia).
  pose proof (Z.pow_le_mono_r 2 e 15 ltac:(lia) ltac:(lia)). pose proof (Z.pow_pos_nonneg 2 (e - 6)).
  set (k := 2 ^ (e - 6)) in *. split; [lia|]. rewrite E.
  replace (64 * k / 64) with k; [done|]. symmetry. rewrite Z.mul_comm. apply Z.div_mul. lia.
Qed.

Section Bitmap.
Context (sz : Z) (l : ReceiveLog).
Hypothesis S : log_shape sz l.

Lemma position x : Z.land (u16 x) (size_mask l) = x mod sz.
Proof. destruct (sh_pow _ _ S) as (e & He & Es). rewrite (sh_mask _ _ S), Es. apply mask_mod. lia. Qed.

Lemma word_lookup p : 0 <= p < sz → ∃ w, packets l !! Z.to_nat (p / 64) = Some w.
Proof.
  intros Hp. apply lookup_lt_is_Some_2. pose proof (sh_len _ _ S). destruct (size_bounds sz (sh_pow _ _ S)).
  assert (p / 64 < sz / 64) by (apply Z.div_lt_upper_bound; lia). pose proof (Z.div_pos p 64). lia.
Qed.

Lemma get_bit x : get_received l (u16 x) = bit_at (packets l) (x mod sz).
Proof.
  unfold get_received, word_of, bit_of, bit_at. rewrite position.
  rewrite land_single by (apply Z.mod_pos_bound; lia). by rewrite negb_involutive.
Qed.

(** Changing the bit at one position. *)
Lemma alter_bit f p q v :
  0 <= p < sz → 0 <= q < sz →
  (∀ w i, 0 <= i → Z.testbit (f w) i = if i =? q mod 64 then v else Z.testbit w i) →
  bit_at (alter f (Z.to_nat (q / 64)) (packets l)) p = if p =? q then v else bit_at (packets l) p.
Proof.
  intros Hp Hq Hf. unfold bit_at. pose proof (Z.mod_pos_bound p 64 ltac:(lia)).
  pose proof (Z.div_pos p 64). pose proof (Z.div_pos q 64).
  destruct (decide (p / 64 = q / 64)) as [E|E].
  - rewrite E. destruct (word_lookup q Hq) as [w Hw]. rewrite list_lookup_alter_eq, Hw. cbn. rewrite Hf by lia.
    destruct (Z.eqb_spec (p mod 64) (q mod 64)), (Z.eqb_spec p q); try done; [|by subst].
    pose proof (Z.div_mod p 64). pose proof (Z.div_mod q 64). lia.
  - rewrite list_lookup_alter_ne by lia. destruct (Z.eqb_spec p q); [by subst|done].
Qed.

Lemma set_bit x y :
  bit_at (packets (set_received l (u16 x))) (y mod sz) =
    if y mod sz =? x mod sz then true else bit_at (packets l) (y mod sz).
Proof.
  destruct (size_bounds sz (sh_pow _ _ S)) as [? _]. unfold set_received, word_of, bit_of. rewrite position.
  cbn [with_packets packets]. apply alter_bit; [apply Z.mod_pos_bound; lia..|].
  intros w i Hi. pose proof (Z.mod_pos_bound (x mod sz) 64 ltac:(lia)).
  rewrite Z.lor_spec, Z.shiftl_1_l, Z.pow2_bits_eqb by lia. rewrite (Z.eqb_sym _ i).
  by destruct (i =? _); rewrite ?orb_true_r, ?orb_false_r.
Qed.

Lemma del_bit x y :
  bit_at (packets (del_received l (u16 x))) (y mod sz) =
    if y mod sz =? x mod sz then false else bit_at (packets l) (y mod sz).
Proof.
  destruct (size_bounds sz (sh_pow _ _ S)) as [? _]. unfold del_received, word_of, bit_of. rewrite position.
  cbn [with_packets packets]. apply alter_bit; [apply Z.mod_pos_bound; lia..|].
  intros w i Hi. pose proof (Z.mod_pos_bound (x mod sz) 64 ltac:(lia)).
  rewrite Z.ldiff_spec, Z.shiftl_1_l, Z.pow2_bits_eqb by lia. rewrite (Z.eqb_sym _ i).
  by destruct (i =? _); rewrite ?andb_true_r, ?andb_false_r.
Qed.

Lemma set_shape x : log_shape sz (set_received l x).
Proof. destruct S. split; cbn; try done. by rewrite length_alter. Qed.
Lemma del_shape x : log_shape sz (del_received l x).
Proof. destruct S. split; cbn; try done. by rewrite length_alter. Qed.

End Bitmap.

(** * What the log knows *)

(** [tracks sz l f E L R]: the log, of [sz] sequence numbers, was started by number [f]; the
    highest number is [E], the last consecutive one [L] (numbers do not wrap) and [R] the
    numbers received. *)
Record tracks (sz : Z) (l : ReceiveLog) (f E L : Z) (R : list Z) : Prop := {
  tk_shape : log_shape sz l;
  tk_end : log_end l = u16 E;
  tk_last : last_consecutive l = u16 L;
  tk_started : log_started l = true;
  tk_bits x : E - sz < x <= E → bit_at (packets l) (x mod sz) = bool_decide (x ∈ R);
  tk_range : E - sz <= L <= E;
  tk_first : f <= L;
  tk_consecutive x : f <= x <= L → E - sz < x → x ∈ R;
  tk_end_in : E ∈ R;
  tk_top x : x ∈ R → x <= E
}.

Lemma fix_loop_spec sz l E fuel a :
  log_shape sz l → log_end l = u16 E → a <= E + 1 → E + 1 - a <= Z.of_nat fuel → E + 1 - a < 2 ^ 16 →
  ∃ b, fix_loop fuel l (u16 a) = u16 b ∧ a <= b <= E + 1 ∧
       ∀ y, a <= y < b → bit_at (packets l) (y mod sz) = true.
Proof.
  intros S He. revert a. induction fuel as [|fuel IH]; intros a Ha Hf Hw; cbn [fix_loop].
  { exists a. split_and!; [done|lia|lia|lia]. }
  rewrite He, u16_add, u16_eqb_iff by lia. destruct (Z.eqb_spec a (E + 1)); cbn [negb andb].
  { exists a. split_and!; [done|lia|lia|lia]. }
  rewrite (get_bit sz l S). destruct (bit_at (packets l) (a mod sz)) eqn:Eb.
  - rewrite u16_add. destruct (IH (a + 1)) as (b & -> & Hb & Hy); [lia..|]. exists b. split_and!; [done|lia|lia|].
    intros y Hr. destruct (decide (y = a)) as [->|]; [done|]. apply Hy. lia.
  - exists a. split_and!; [done|lia|lia|lia].
Qed.

Lemma fix_last_spec sz l E L :
  log_shape sz l → log_end l = u16 E → last_consecutive l = u16 L → L <= E → E - L < 2 ^ 16 →
  ∃ b, L <= b <= E ∧
    fix_last_consecutive l = mkLog (packets l) (log_size l) (size_mask l) (log_end l) (log_started l) (u16 b) ∧
    ∀ y, L < y <= b → bit_at (packets l) (y mod sz) = true.
Proof.
  intros S He Hl Hr Hw. unfold fix_last_consecutive. rewrite Hl, He, !u16_add, u16_sub_u16.
  replace (E + 1 - (L + 1)) with (E - L) by lia. rewrite (u16_of_diff (E - L)) by lia.
  destruct (fix_loop_spec sz l E (Z.to_nat (E - L)) (L + 1)) as (b & -> & Hb & Hy); [done|done|lia..|].
  exists (b - 1). split_and!; [lia|lia| |intros; apply Hy; lia]. by rewrite u16_sub.
Qed.

Lemma clear_loop_spec sz l i x :
  log_shape sz l → i <= x → x - i < 2 ^ 16 →
  let l' := clear_loop (Z.to_nat (x - i)) l (u16 i) (u16 x) in
  log_shape sz l' ∧ log_end l' = log_end l ∧ last_consecutive l' = last_consecutive l ∧ log_started l' = log_started l ∧
  ∀ y, x - sz <= y < x → bit_at (packets l') (y mod sz) = if i <=? y then false else bit_at (packets l) (y mod sz).
Proof.
  intros S Hi Hw. remember (Z.to_nat (x - i)) as n eqn:En. revert l i En S Hi Hw.
  induction n as [|n IH]; intros l i En S Hi Hw; cbn zeta; cbn [clear_loop].
  { replace i with x by lia. split_and!; try done. intros y Hy. by rewrite (proj2 (Z.leb_gt x y)) by lia. }
  rewrite u16_eqb_iff by lia. destruct (Z.eqb_spec i x); [lia|]. rewrite u16_add.
  destruct (IH (del_received l (u16 i)) (i + 1)) as (S' & E1 & E2 & E3 & Hb); [lia|by apply del_shape|lia|lia|].
  split_and!; [done..|]. intros y Hy. rewrite Hb by done. rewrite (del_bit sz l S).
  destruct (size_bounds sz (sh_pow _ _ S)) as [? _].
  destruct (Z.leb_spec (i + 1) y), (Z.leb_spec i y); try done; try lia.
  - assert (y = i) as -> by lia. by rewrite Z.eqb_refl.
  - destruct (Z.eqb_spec (y mod sz) (i mod sz)) as [E|E]; [|done]. apply mod_inj in E; lia.
Qed.

(** Marking [x] and keeping the rest. *)
Lemma tracks_set sz l f E L R x :
  log_shape sz l → log_end l = u16 E → last_consecutive l = u16 L → log_started l = true →
  E - sz < x <= E → E - sz <= L <= E → f <= L →
  (∀ y, E - sz < y <= E → y ≠ x → bit_at (packets l) (y mod sz) = bool_decide (y ∈ R)) →
  (∀ y, f <= y <= L → E - sz < y → y ∈ x :: R) → E ∈ x :: R → (∀ y, y ∈ R → y <= E) →
  tracks sz (set_received l (u16 x)) f E L (x :: R).
Proof.
  intros S He Hl Hs Hx HL Hf Hb Hc HE Ht. split; try done.
  - by apply set_shape.
  - intros y Hy. rewrite (set_bit sz l S). destruct (size_bounds sz (sh_pow _ _ S)) as [? _].
    destruct (Z.eqb_spec (y mod sz) (x mod sz)) as [E'|E'].
    + apply mod_inj in E' as ->; [|lia|lia]. rewrite bool_decide_eq_true_2; [done|left].
    + assert (y ≠ x) by (intros ->; done). rewrite Hb by done. symmetry. by apply bool_decide_cons_ne.
  - intros y [->|Hy]%elem_of_cons; [lia|by apply Ht].
Qed.

Lemma tracks_add sz l f E L R x :
  tracks sz l f E L R → E - sz < x < E + 2 ^ 15 →
  ∃ L', tracks sz (log_add l (u16 x)) f (Z.max E x) L' (x :: R).
Proof.
  intros [S He Hl Hs Hb HL Hf Hc HE Ht] Hx. destruct (size_bounds sz (sh_pow _ _ S)) as [Hsz _].
  unfold log_add. rewrite Hs. cbn [negb]. rewrite He, u16_sub_u16. unfold UINT16_SIZE_HALF. change (Z.shiftl 1 15) with (2 ^ 15).
  destruct (Z.lt_trichotomy x E) as [Hlt|[->|Hgt]].
  - rewrite Z.max_l by lia. rewrite (u16_of_neg (x - E)) by lia. rewrite (proj2 (Z.eqb_neq _ 0)), (proj2 (Z.ltb_ge _ (2 ^ 15))) by lia.
    rewrite Hl, u16_add, u16_eqb_iff by lia. destruct (Z.eqb_spec (L + 1) x) as [Ex|Ex].
    + destruct (fix_last_spec sz (set_consecutive l (u16 x)) E x) as (b & Hbr & -> & Hy); [by destruct S|done|done|lia|lia|].
      exists b. cbn [set_consecutive packets log_size size_mask log_end log_started] in *.
      apply tracks_set; [by destruct S|done|done|done|lia|lia|lia|by intros; apply Hb| |by right|done].
      intros y Hyr Hyw. rewrite elem_of_cons. destruct (decide (y = x)); [by left|]. right.
      destruct (Z.le_gt_cases y L); [apply Hc; lia|]. specialize (Hy y ltac:(lia)). rewrite Hb in Hy by lia.
      by apply bool_decide_eq_true_1 in Hy.
    + exists L. apply tracks_set; [done|done|done|done|lia|lia|lia|by intros; apply Hb| |by right|done].
      intros y Hyr Hyw. right. by apply Hc.
  - rewrite Z.max_id, Z.sub_diag. cbn. exists L. split; try done; [|intros; right; by apply Hc|left|].
    + intros y Hy. rewrite Hb by done. apply bool_decide_ext. rewrite elem_of_cons. split; [by right|by intros [->|]].
    + intros y [->|Hy]%elem_of_cons; [lia|by apply Ht].
  - rewrite Z.max_r by lia. rewrite (u16_of_diff (x - E)) by lia. rewrite (proj2 (Z.eqb_neq _ 0)), (proj2 (Z.ltb_lt _ (2 ^ 15))) by lia.
    rewrite u16_add, u16_sub_u16. replace (x - (E + 1)) with (x - (E + 1)) by lia. rewrite (u16_of_diff (x - (E + 1))) by lia.
    destruct (clear_loop_spec sz l (E + 1) x S) as (S' & E1 & E2 & E3 & Hcl); [lia|lia|].
    set (l' := clear_loop _ _ _ _) in *. cbn [set_end last_consecutive log_size]. rewrite E2, Hl, u16_add, u16_eqb_iff by lia.
    assert (∀ y, x - sz < y <= x → y ≠ x → bit_at (packets l') (y mod sz) = bool_decide (y ∈ R)) as Hb'.
    { intros y Hy Hne. rewrite Hcl by lia. destruct (Z.leb_spec (E + 1) y); [|apply Hb; lia].
      symmetry. apply bool_decide_eq_false_2. intros Hin. apply Ht in Hin. lia. }
    destruct (Z.eqb_spec (L + 1) x) as [Ex|Ex].
    + exists x. assert (E = L) as <- by lia.
      apply tracks_set; [by destruct S'|done|done|cbn; congruence|lia|lia|lia|done| |left|intros y Hy; apply Ht in Hy; lia].
      intros y Hyr Hyw. rewrite elem_of_cons. destruct (decide (y = x)); [by left|]. right. apply Hc; lia.
    + rewrite u16_sub_u16, (u16_of_diff (x - L)) by lia. rewrite (sh_size _ _ S').
      destruct (Z.ltb_spec sz (x - L)) as [Hj|Hj].
      * rewrite u16_sub.
        destruct (fix_last_spec sz (set_consecutive (set_end l' (u16 x)) (u16 (x - sz))) x (x - sz)) as (b & Hbr & -> & Hy);
          [by destruct S'|done|done|lia|lia|].
        exists b. cbn [set_consecutive set_end packets log_size size_mask log_end log_started] in *.
        apply tracks_set; [by destruct S'|done|done|cbn; congruence|lia|lia|lia|done| |left|intros y Hyin; apply Ht in Hyin; lia].
        intros y Hyr Hyw. rewrite elem_of_cons. destruct (decide (y = x)); [by left|]. right.
        specialize (Hy y ltac:(lia)). rewrite Hb' in Hy by lia. by apply bool_decide_eq_true_1 in Hy.
      * exists L. apply tracks_set; [by destruct S'|done|cbn; congruence|cbn; congruence|lia|lia|lia|done| |left|intros y Hy; apply Ht in Hy; lia].
        intros y Hyr Hyw. right. apply Hc; lia.
Qed.

Lemma log_new_shape sz l : log_new sz = Some l → log_shape sz l ∧ log_started l = false ∧ ∀ p, bit_at (packets l) p = false.
Proof.
  unfold log_new. destruct (existsb _ _) eqn:E; [|done]. intros [= <-].
  destruct (pow2_size sz 6 10 E) as (e & He & Es); [lia|].
  assert (∃ e, 6 <= e <= 15 ∧ sz = 2 ^ e) as Hp by (exists e; split; [lia|done]).
  destruct (size_bounds sz Hp). split_and!; [split; cbn; [done|done|done|]|done|].
  - rewrite length_replicate. pose proof (Z.div_pos sz 64). lia.
  - intros p. unfold bit_at. cbn. destruct (replicate _ 0 !! _) as [w|] eqn:Ew; cbn; [|apply Z.testbit_0_l].
    apply lookup_replicate in Ew as [-> _]. apply Z.testbit_0_l.
Qed.

(** ** Histories *)

(** A log of [sz] numbers that was started by [f] and then received [R], the highest
    number being [E]: every number is above the window's lower end when it arrives and less
    than 2^15 ahead. *)
Inductive logged (sz : Z) : ReceiveLog → Z → Z → list Z → Prop :=
| logged_first l x : log_new sz = Some l → logged sz (log_add l (u16 x)) x x [x]
| logged_add l f E R x :
    logged sz l f E R → E - sz < x < E + 2 ^ 15 → logged sz (log_add l (u16 x)) f (Z.max E x) (x :: R).

Lemma logged_tracks sz l f E R : logged sz l f E R → ∃ L, tracks sz l f E L R.
Proof.
  induction 1 as [l x Hn|l f E R x _ [L T] Hx]; [|by apply (tracks_add sz l f E L)].
  destruct (log_new_shape sz l Hn) as (S & Hs & Hb). destruct (size_bounds sz (sh_pow _ _ S)).
  exists x. unfold log_add. rewrite Hs. cbn [negb].
  assert (tracks sz (set_received (mkLog (packets l) (log_size l) (size_mask l) (u16 x) true (u16 x)) (u16 x)) x x x [x]) as T.
  { apply tracks_set; [by destruct S|done|done|done|lia|lia|lia| | |left|by intros y ?%elem_of_nil].
    - intros y _ _. cbn. rewrite Hb. symmetry. apply bool_decide_eq_false_2. by apply not_elem_of_nil.
    - intros y Hy _. replace y with x by lia. left. }
  exact T.
Qed.

Lemma missing_loop_spec sz l (R : list Z) a u :
  log_shape sz l → a <= u + 1 → u + 1 - a < 2 ^ 16 →
  (∀ x, a <= x <= u → bit_at (packets l) (x mod sz) = bool_decide (x ∈ R)) →
  missing_loop (Z.to_nat (u + 1 - a)) l (u16 a) (u16 u) = u16 <$> filter (λ x, x ∉ R) (seqZ a (u + 1 - a)).
Proof.
  intros S Ha Hw Hb. remember (Z.to_nat (u + 1 - a)) as n eqn:En. revert a En Ha Hw Hb.
  induction n as [|n IH]; intros a En Ha Hw Hb; cbn [missing_loop].
  { rewrite seqZ_nil by lia. done. }
  rewrite u16_add, u16_eqb_iff by lia. destruct (Z.eqb_spec a (u + 1)); [lia|].
  rewrite (get_bit sz l S), Hb, u16_add by lia. rewrite seqZ_cons by lia.
  replace (Z.succ a) with (a + 1) by lia. replace (Z.pred (u + 1 - a)) with (u + 1 - (a + 1)) by lia.
  rewrite IH by (lia || intros; apply Hb; lia). destruct (bool_decide (a ∈ R)) eqn:E.
  - apply bool_decide_eq_true_1 in E. rewrite filter_cons_False by (intros ?; done). done.
  - apply bool_decide_eq_false_1 in E. by rewrite filter_cons_True.
Qed.

(** Numbers that were all received are not missing. *)
Lemma filter_received (R : list Z) a n :
  (∀ x, a <= x < a + n → x ∈ R) → filter (λ x, x ∉ R) (seqZ a n) = [].
Proof.
  intros H. apply elem_of_nil_inv. intros x [Hx Hin]%list_elem_of_filter. apply elem_of_seqZ in Hin. by apply Hx, H.
Qed.

Lemma seqZ_split (a b c : Z) : a <= b <= c → seqZ a (c - a) = seqZ a (b - a) ++ seqZ b (c - b).
Proof. intros H. replace (c - a) with ((b - a) + (c - b)) by lia. rewrite seqZ_app by lia. do 2 f_equal. lia. Qed.

Lemma log_get_window sz l f E L R x :
  tracks sz l f E L R → E - sz < x <= E → log_get l (u16 x) = bool_decide (x ∈ R).
Proof.
  intros [S He Hl Hs Hb HL Hf Hc HE Ht] Hx. destruct (size_bounds sz (sh_pow _ _ S)) as [Hsz _].
  unfold log_get, UINT16_SIZE_HALF. change (Z.shiftl 1 15) with (2 ^ 15). rewrite He, u16_sub_u16, (sh_size _ _ S).
  rewrite (u16_of_diff (E - x)), !(proj2 (Z.leb_gt _ (E - x))) by lia. rewrite (get_bit sz l S). by apply Hb.
Qed.

(** The numbers of the window, and those to ask for again. *)
Lemma receive_log_spec sz l f E R skip :
  logged sz l f E R → 0 <= skip <= 2 ^ 15 → sz < 2 ^ 15 →
  (∀ x, E - sz < x <= E → log_get l (u16 x) = bool_decide (x ∈ R)) ∧
  let from := Z.max f (E - sz + 1) in
  missing_seq_numbers l skip = u16 <$> filter (λ x, x ∉ R) (seqZ from (E - skip + 1 - from)).
Proof.
  intros [L T]%logged_tracks Hsk Hsz. split; [intros; by apply (log_get_window sz l f E L R)|].
  pose proof T as [S He Hl Hs Hb HL Hf Hc HE Ht]. cbn zeta. set (from := Z.max f (E - sz + 1)).
  unfold missing_seq_numbers, UINT16_SIZE_HALF. change (Z.shiftl 1 15) with (2 ^ 15).
  rewrite He, Hl, (u16_sub E skip), !u16_add, !u16_sub_u16.
  destruct (Z.lt_ge_cases (E - skip) L) as [Hlt|Hge].
  - rewrite u16_of_neg, (proj2 (Z.leb_le (2 ^ 15) _)) by lia. symmetry.
    rewrite filter_received; [done|]. intros x Hx. apply Hc; lia.
  - rewrite (u16_of_diff (E - skip - L)), (proj2 (Z.leb_gt (2 ^ 15) _)) by lia.
    replace (E - skip + 1 - (L + 1)) with (E - skip - L) by lia. rewrite (u16_of_diff (E - skip - L)) by lia.
    replace (E - skip - L) with (E - skip + 1 - (L + 1)) by lia.
    rewrite (missing_loop_spec sz l R) by (done || lia || intros; apply Hb; lia).
    destruct (Z.le_gt_cases from (L + 1)) as [Hfl|Hfl]; [|lia].
    rewrite (seqZ_split from (L + 1) (E - skip + 1)) by lia. rewrite filter_app, (filter_received R from); [done|].
    intros x Hx. apply Hc; lia.
Qed.

(** The receive log answers exactly, whatever the order in which packets arrive within
    the window: a number of the window is reported as received if and only if it arrived,
    and the numbers to ask for again are exactly those of the window, from the first packet
    on and not among the last [skip] ones, that did not arrive, in increasing order. *)
Theorem receive_log_exact sz l f E R skip :
  logged sz l f E R → 0 <= skip <= 2 ^ 15 → sz < 2 ^ 15 →
  (∀ x, E - sz < x <= E → log_get l (u16 x) = bool_decide (x ∈ R)) ∧
  let from := Z.max f (E - sz + 1) in
  missing_seq_numbers l skip = u16 <$> filter (λ x, x ∉ R) (seqZ from (E - skip + 1 - from)).
Proof. apply receive_log_spec. Qed.

Definition log64 : ReceiveLog := mkLog [0] 64 63 0 false 0.

Lemma receive_log_exact_witness :
  missing_seq_numbers (log_add (log_add (log_add log64 65535) (u16 65538)) (u16 65536)) 0 = [1].
Proof.
  destruct (receive_log_exact 64 (log_add (log_add (log_add log64 (u16 65535)) (u16 65538)) (u16 65536)) 65535 65538
              [65536; 65538; 65535] 0) as [_ H].
  - apply (logged_add 64 _ _ 65538 _ 65536); [|lia]. apply (logged_add 64 _ _ 65535 _ 65538); [|lia].
    by apply logged_first.
  - lia.
  - lia.
  - exact H.
Defined.

(** A packet older than the window is recorded at the position of a newer number: one that
    is missing is reported as received afterwards, and is not asked for again. *)
Theorem late_packet_hides_loss sz l f E R x y :
  logged sz l f E R → E - 2 ^ 15 < x <= E - sz → E - sz < y <= E → y mod sz = x mod sz →
  log_get (log_add l (u16 x)) (u16 y) = true.
Proof.
  intros [L [S He Hl Hs Hb HL Hf Hc HE Ht]]%logged_tracks Hx Hy Hm. destruct (size_bounds sz (sh_pow _ _ S)) as [Hsz _].
  unfold log_add. rewrite Hs. cbn [negb]. rewrite He, u16_sub_u16. unfold UINT16_SIZE_HALF. change (Z.shiftl 1 15) with (2 ^ 15).
  rewrite (u16_of_neg (x - E)) by lia. rewrite (proj2 (Z.eqb_neq _ 0)), (proj2 (Z.ltb_ge _ (2 ^ 15))) by lia.
  rewrite Hl, u16_add, u16_eqb_iff, (proj2 (Z.eqb_neq (L + 1) x)) by lia.
  unfold log_get, UINT16_SIZE_HALF. change (Z.shiftl 1 15) with (2 ^ 15).
  cbn [set_received with_packets log_end log_size]. rewrite He, u16_sub_u16, (sh_size _ _ S).
  rewrite (u16_of_diff (E - y)), !(proj2 (Z.leb_gt _ (E - y))) by lia.
  change (get_received (set_received l (u16 x)) (u16 y) = true).
  rewrite (get_bit sz _ (set_shape sz l S _)), (set_bit sz l S). by rewrite Hm, Z.eqb_refl.
Qed.

Lemma late_packet_hides_loss_witness :
  let l := log_add (log_add log64 90) 100 in
  missing_seq_numbers l 0 = [91; 92; 93; 94; 95; 96; 97; 98; 99] ∧ log_get (log_add l 30) 94 = true.
Proof.
  split; [vm_compute; reflexivity|].
  apply (late_packet_hides_loss 64 (log_add (log_add log64 (u16 90)) (u16 100)) 90 100 [100; 90] 30 94); [|lia|lia|done].
  apply (logged_add 64 _ _ 90 _ 100); [|lia]. by apply logged_first.
Defined.

(** * What the send buffer holds *)

Record buf_shape (sz : Z) (b : SendBuffer) : Prop := {
  bs_pow : ∃ e, 0 <= e <= 15 ∧ sz = 2 ^ e;
  bs_size : buf_size b = sz;
  bs_mask : mask b = sz - 1;
  bs_len : Z.of_nat (length (sent b)) = sz
}.

Lemma buf_bounds sz : (∃ e, 0 <= e <= 15 ∧ sz = 2 ^ e) → 1 <= sz <= 2 ^ 15.
Proof.
  intros (e & He & ->). pose proof (Z.pow_le_mono_r 2 e 15 ltac:(lia) ltac:(lia)). pose proof (Z.pow_pos_nonneg 2 e). lia.
Qed.

Lemma slot_mod sz b x : buf_shape sz b → slot b (u16 x) = Z.to_nat (x mod sz).
Proof. intros S. unfold slot. destruct (bs_pow _ _ S) as (e & He & Es). rewrite (bs_mask _ _ S), Es, mask_mod by lia. done. Qed.

Lemma slot_insert sz b x y v :
  buf_shape sz b →
  default None (<[slot b (u16 x) := v]> (sent b) !! slot b (u16 y)) =
    if y mod sz =? x mod sz then v else default None (sent b !! slot b (u16 y)).
Proof.
  intros S. pose proof (buf_bounds sz (bs_pow _ _ S)). pose proof (bs_len _ _ S). rewrite !(slot_mod sz) by done.
  pose proof (Z.mod_pos_bound x sz ltac:(lia)). pose proof (Z.mod_pos_bound y sz ltac:(lia)).
  destruct (Z.eqb_spec (y mod sz) (x mod sz)) as [->|E].
  - by rewrite list_lookup_insert_eq by lia.
  - by rewrite list_lookup_insert_ne by lia.
Qed.

(** [holds sz b H m]: the highest number is [H] and [m] the packets by number. *)
Record holds (sz : Z) (b : SendBuffer) (H : Z) (m : gmap Z Packet) : Prop := {
  hd_shape : buf_shape sz b;
  hd_highest : highest_added b = u16 H;
  hd_started : buf_started b = true;
  hd_slots x : H - sz < x <= H → default None (sent b !! slot b (u16 x)) = m !! x;
  hd_seq x p : m !! x = Some p → sequence_number (header p) = u16 x;
  hd_top x : is_Some (m !! x) → x <= H
}.

Lemma evict_loop_spec sz b i x :
  buf_shape sz b → i <= x → x - i < 2 ^ 16 →
  let b' := evict_loop (Z.to_nat (x - i)) b (u16 i) (u16 x) in
  buf_shape sz b' ∧ highest_added b' = highest_added b ∧ buf_started b' = buf_started b ∧
  ∀ y, x - sz <= y < x →
    default None (sent b' !! slot b' (u16 y)) = if i <=? y then None else default None (sent b !! slot b (u16 y)).
Proof.
  intros S Hi Hw. remember (Z.to_nat (x - i)) as n eqn:En. revert b i En S Hi Hw.
  induction n as [|n IH]; intros b i En S Hi Hw; cbn zeta; cbn [evict_loop].
  { replace i with x by lia. split_and!; try done. intros y Hy. by rewrite (proj2 (Z.leb_gt x y)) by lia. }
  rewrite u16_eqb_iff by lia. destruct (Z.eqb_spec i x); [lia|]. rewrite u16_add.
  set (b1 := mkBuffer _ _ _ _ _). assert (buf_shape sz b1) as S1 by (destruct S; split; cbn; try done; by rewrite length_insert).
  destruct (IH b1 (i + 1)) as (S' & E1 & E2 & Hb); [lia|done|lia|lia|].
  split_and!; [done..|]. intros y Hy. rewrite Hb by done.
  change (slot b1 (u16 y)) with (slot b (u16 y)). cbn [b1 sent]. rewrite (slot_insert sz) by done.
  pose proof (buf_bounds sz (bs_pow _ _ S)).
  destruct (Z.leb_spec (i + 1) y), (Z.leb_spec i y); try done; try lia.
  - assert (y = i) as -> by lia. by rewrite Z.eqb_refl.
  - destruct (Z.eqb_spec (y mod sz) (i mod sz)) as [E|E]; [|done]. apply mod_inj in E; lia.
Qed.

(** Storing [p] as number [x]. *)
Lemma holds_store sz b H m x p :
  buf_shape sz b → highest_added b = u16 H → buf_started b = true → H - sz < x <= H →
  (∀ y, H - sz < y <= H → y ≠ x → default None (sent b !! slot b (u16 y)) = m !! y) →
  (∀ y p, m !! y = Some p → sequence_number (header p) = u16 y) → (∀ y, is_Some (m !! y) → y <= H) →
  sequence_number (header p) = u16 x →
  holds sz (mkBuffer (<[slot b (u16 x) := Some p]> (sent b)) (buf_size b) (mask b) (highest_added b) (buf_started b)) H (<[x := p]> m).
Proof.
  intros S Hh Hs Hx Hsl Hseq Ht Hp. pose proof (buf_bounds sz (bs_pow _ _ S)). split; cbn; try done.
  - destruct S. split; cbn; try done. by rewrite length_insert.
  - intros y Hy. change (slot _ (u16 y)) with (slot b (u16 y)). rewrite (slot_insert sz) by done.
    destruct (Z.eqb_spec (y mod sz) (x mod sz)) as [E|E].
    + apply mod_inj in E as ->; [|lia|lia]. by rewrite lookup_insert_eq.
    + assert (y ≠ x) by (intros ->; done). rewrite lookup_insert_ne by done. by apply Hsl.
  - intros y q [[<- <-]|[_ Hq]]%lookup_insert_Some; [done|by apply Hseq].
  - intros y [<-|[_ Hy]]%lookup_insert_is_Some; [lia|by apply Ht].
Qed.

(** A buffer of [sz] packets after sending: every packet's number is above the window's lower
    end and less than 2^15 ahead of the highest; a packet with the highest number again is
    ignored. *)
Inductive buffered (sz : Z) : SendBuffer → Z → gmap Z Packet → Prop :=
| buffered_first b x p :
    buf_new sz = Some b → sequence_number (header p) = u16 x → buffered sz (buf_add b p) x {[x := p]}
| buffered_add b H m x p :
    buffered sz b H m → H - sz < x < H + 2 ^ 15 → sequence_number (header p) = u16 x →
    buffered sz (buf_add b p) (Z.max H x) (if x =? H then m else <[x := p]> m).

Lemma buffered_holds sz b H m : buffered sz b H m → holds sz b H m.
Proof.
  induction 1 as [b x p Hn Hp|b H m x p _ [S Hh Hs Hsl Hseq Ht] Hx Hp].
  - unfold buf_new in Hn. destruct (existsb _ _) eqn:E; [|done]. injection Hn as <-.
    destruct (pow2_size sz 0 16 E) as (e & He & Es); [lia|].
    assert (∃ e, 0 <= e <= 15 ∧ sz = 2 ^ e) as Hpw by (exists e; split; [lia|done]). pose proof (buf_bounds sz Hpw).
    unfold buf_add. rewrite Hp. cbn [negb buf_started].
    apply (holds_store sz (mkBuffer (replicate (Z.to_nat sz) None) sz (sz - 1) (u16 x) true) x ∅ x p);
      [split; cbn; [done|done|done|rewrite length_replicate; lia]|done|done|lia| |by intros|by intros ? [? ?]|done].
    intros y _ _. rewrite lookup_empty. cbn. destruct (replicate _ _ !! _) as [v|] eqn:Ev; [|done].
    by apply lookup_replicate in Ev as [-> _].
  - pose proof (buf_bounds sz (bs_pow _ _ S)). unfold buf_add. rewrite Hp, Hs, Hh, u16_sub_u16. cbn [negb].
    unfold UINT16_SIZE_HALF. change (Z.shiftl 1 15) with (2 ^ 15).
    destruct (Z.lt_trichotomy x H) as [Hlt|[->|Hgt]].
    + rewrite Z.max_l, (proj2 (Z.eqb_neq x H)) by lia. rewrite (u16_of_neg (x - H)) by lia.
      rewrite (proj2 (Z.eqb_neq _ 0)), (proj2 (Z.ltb_ge _ (2 ^ 15))) by lia.
      apply (holds_store sz b H m x p); try done; [lia|]. by intros; apply Hsl.
    + rewrite Z.max_id, Z.sub_diag, (Z.eqb_refl H). change (u16 0 =? 0) with true. by split.
    + rewrite Z.max_r, (proj2 (Z.eqb_neq x H)) by lia. rewrite (u16_of_diff (x - H)) by lia.
      rewrite (proj2 (Z.eqb_neq _ 0)), (proj2 (Z.ltb_lt _ (2 ^ 15))) by lia.
      rewrite u16_add, u16_sub_u16, (u16_of_diff (x - (H + 1))) by lia.
      destruct (evict_loop_spec sz b (H + 1) x S) as (S' & E1 & E2 & Hev); [lia|lia|].
      set (b' := evict_loop _ _ _ _) in *.
      apply (holds_store sz (mkBuffer (sent b') (buf_size b') (mask b') (u16 x) (buf_started b')) x m x p);
        [by destruct S'|done|cbn; congruence|lia| |done| |done].
      * intros y Hy Hne. change (slot _ (u16 y)) with (slot b' (u16 y)). cbn [sent]. rewrite Hev by lia.
        destruct (Z.leb_spec (H + 1) y); [|apply Hsl; lia].
        symmetry. apply eq_None_not_Some. intros Hin%Ht. lia.
      * intros y Hy%Ht. lia.
Qed.

(** What the buffer returns for a number. *)
Lemma send_buffer_spec sz b H m x :
  buffered sz b H m → Z.abs (x - H) < 2 ^ 15 →
  buf_get b (u16 x) = if (H - sz <? x) && (x <=? H) then m !! x else None.
Proof.
  intros [S Hh Hs Hsl Hseq Ht]%buffered_holds Hx. pose proof (buf_bounds sz (bs_pow _ _ S)).
  unfold buf_get, UINT16_SIZE_HALF. change (Z.shiftl 1 15) with (2 ^ 15). rewrite Hs, Hh, u16_sub_u16, (bs_size _ _ S). cbn [negb].
  destruct (Z.le_gt_cases x H) as [Hle|Hgt].
  - rewrite (u16_of_diff (H - x)), (proj2 (Z.leb_gt (2 ^ 15) _)), (proj2 (Z.leb_le x H)) by lia. rewrite andb_true_r.
    destruct (Z.ltb_spec (H - sz) x), (Z.leb_spec sz (H - x)); try lia; [|done].
    rewrite Hsl by lia. destruct (m !! x) as [p|] eqn:E; [|done]. by rewrite (Hseq x p E), Z.eqb_refl.
  - rewrite (u16_of_neg (H - x)), (proj2 (Z.leb_le (2 ^ 15) _)), (proj2 (Z.leb_gt x H)) by lia. by rewrite andb_false_r.
Qed.

(** The send buffer returns exactly the packets it can still send again: for a number of
    its window the packet that was added with that number, and nothing for a number that
    was not sent, is too old or was not sent yet. *)
Theorem send_buffer_exact sz b H m x :
  buffered sz b H m → Z.abs (x - H) < 2 ^ 15 →
  buf_get b (u16 x) = if (H - sz <? x) && (x <=? H) then m !! x else None.
Proof. apply send_buffer_spec. Qed.

Definition numbered (seq : Z) : Packet :=
  mkPacket (mkHeader 2 false false false 0 seq 0 0 [] 0 [] 0) [seq].

Lemma send_buffer_exact_witness :
  let b := buf_add (buf_add (buf_add (mkBuffer (replicate 4 None) 4 3 0 false) (numbered 10)) (numbered 13)) (numbered 11) in
  buf_get b 11 = Some (numbered 11) ∧ buf_get b 12 = None ∧ buf_get b 9 = None.
Proof.
  assert (buffered 4 (buf_add (buf_add (buf_add (mkBuffer (replicate 4 None) 4 3 0 false) (numbered 10)) (numbered 13)) (numbered 11))
            13 (<[11 := numbered 11]> (<[13 := numbered 13]> {[10 := numbered 10]}))) as B.
  { apply (buffered_add 4 _ 13 _ 11); [|lia|done]. apply (buffered_add 4 _ 10 _ 13); [|lia|done].
    by apply buffered_first. }
  cbn zeta. split_and!.
  - apply (send_buffer_exact 4 _ 13 _ 11 B). lia.
  - apply (send_buffer_exact 4 _ 13 _ 12 B). lia.
  - apply (send_buffer_exact 4 _ 13 _ 9 B). lia.
Defined.
