(* ===== verification/Interceptor.v ===== *)
(** The interceptor chain ([rtc-interceptor/src]): the trait, the bottom of a chain
    ([NoopInterceptor]) and the contract that lets interceptors be stacked.

    An interceptor wraps the next one; the operations it does not override are the next one's, as
    the [interceptor] attribute generates them. *)

From stdpp Require Import strings.
From S2P Require Import Prelude RtpHeader RtpPacket Rtcp RtcpReport RtcpPacket.

(** * Messages and streams *)

Inductive Message :=
| Rtp (p : RtpPacket.Packet)
| Rtcp (ps : list any_packet).

(** The transport addresses of a message are not kept. *)
Record TaggedPacket := mkTagged { now : Z; message : Message }.

Record RTCPFeedback := mkFeedback { typ : string; parameter : string }.
Record RTPHeaderExtension := mkExt { ext_uri : string; ext_id : Z }.

Record StreamInfo := mkInfo {
  si_ssrc : Z;
  si_ssrc_rtx : option Z;
  si_payload_type_rtx : option Z;
  si_clock_rate : Z;
  si_rtp_header_extensions : list RTPHeaderExtension;
  si_rtcp_feedback : list RTCPFeedback
}.

(** * The trait *)

Class Interceptor (P : Type) := {
  handle_read : TaggedPacket → sm P unit;
  poll_read : P → option TaggedPacket * P;
  handle_write : TaggedPacket → sm P unit;
  poll_write : P → option TaggedPacket * P;
  handle_timeout : Z → sm P unit;
  poll_timeout : P → option Z;
  close : sm P unit;
  bind_local_stream : StreamInfo → P → P;
  unbind_local_stream : StreamInfo → P → P;
  bind_remote_stream : StreamInfo → P → P;
  unbind_remote_stream : StreamInfo → P → P
}.

(** [VecDeque::pop_front] *)
Definition pop_front {A} (q : list A) : option A * list A :=
  match q with
  | [] => (None, [])
  | x :: q => (Some x, q)
  end.

(** * The bottom of the chain *)

Record NoopInterceptor := mkNoop { noop_reads : list TaggedPacket; noop_writes : list TaggedPacket }.

Definition noop_new : NoopInterceptor := mkNoop [] [].

#[export] Instance noop_interceptor : Interceptor NoopInterceptor := {|
  handle_read msg n := (Ok tt,
    match message msg with
    | Rtp _ => mkNoop (noop_reads n ++ [msg]) (noop_writes n)
    | Rtcp _ => n
    end);
  poll_read n := let '(m, q) := pop_front (noop_reads n) in (m, mkNoop q (noop_writes n));
  handle_write msg n := (Ok tt, mkNoop (noop_reads n) (noop_writes n ++ [msg]));
  poll_write n := let '(m, q) := pop_front (noop_writes n) in (m, mkNoop (noop_reads n) q);
  handle_timeout _ n := (Ok tt, n);
  poll_timeout _ := None;
  close n := (Ok tt, mkNoop [] []);
  bind_local_stream _ n := n;
  unbind_local_stream _ n := n;
  bind_remote_stream _ n := n;
  unbind_remote_stream _ n := n
|}.

(** * The contract

    What the application hands to a chain comes out of it: [reads] are the packets to deliver,
    [writes] the application's packets to send, [own] what the chain itself wants to send, which
    goes first.  No operation fails, and packets of either kind keep their order. *)

Definition is_rtp (m : TaggedPacket) : bool := match message m with Rtp _ => true | Rtcp _ => false end.

Class Transparent (P : Type) `{Interceptor P} := {
  reads : P → list TaggedPacket;
  writes : P → list TaggedPacket;
  own : P → list TaggedPacket;
  read_law m p : ∃ p' gen, handle_read m p = (Ok tt, p') ∧
    reads p' = reads p ++ (if is_rtp m then [m] else []) ∧ writes p' = writes p ∧ own p' ≡ₚ own p ++ gen;
  poll_read_law p : ∃ p', poll_read p = (head (reads p), p') ∧
    reads p' = tail (reads p) ∧ writes p' = writes p ∧ own p' = own p;
  write_law m p : ∃ p', handle_write m p = (Ok tt, p') ∧
    reads p' = reads p ∧ writes p' = writes p ++ [m] ∧ own p' = own p;
  poll_write_law p : ∃ p', poll_write p = (head (own p ++ writes p), p') ∧ reads p' = reads p ∧
    own p' = tail (own p) ∧ writes p' = if decide (own p = []) then tail (writes p) else writes p;
  timeout_law t p : ∃ p' gen, handle_timeout t p = (Ok tt, p') ∧
    reads p' = reads p ∧ writes p' = writes p ∧ own p' ≡ₚ own p ++ gen;
  bind_law i p q : q ∈ [bind_local_stream i p; unbind_local_stream i p; bind_remote_stream i p; unbind_remote_stream i p] →
    reads q = reads p ∧ writes q = writes p ∧ own q = own p
}.

#[export] Instance noop_transparent : Transparent NoopInterceptor.
Proof.
  refine {| reads := noop_reads; writes := noop_writes; own _ := [] |}.
  - intros [t [q|qs]] [r w]; eexists _, []; split_and!; cbn; rewrite ?app_nil_r; reflexivity.
  - intros [[|m r] w]; eexists; by split_and!.
  - intros m [r w]. eexists. by split_and!.
  - intros [r [|m w]]; eexists; by split_and!.
  - intros t p. by eexists p, [].
  - intros i p q Hq. repeat (apply elem_of_cons in Hq as [->|Hq]; [done|]). by apply elem_of_nil in Hq.
Defined.

(** * Runs of a chain *)

Inductive chain_op :=
| Receive (m : TaggedPacket) | Send (m : TaggedPacket) | PollRead | PollWrite | Timeout (t : Z)
| BindLocal (i : StreamInfo) | UnbindLocal (i : StreamInfo)
| BindRemote (i : StreamInfo) | UnbindRemote (i : StreamInfo).

Section Runs.
Context `{Transparent P}.

(** What an operation hands over: a packet for the application, a packet of the application for the
    network (one polled when the chain has none of its own), and the chain it leaves. *)
Definition run_op (o : chain_op) (p : P) : list TaggedPacket * list TaggedPacket * P :=
  match o with
  | Receive m => ([], [], (handle_read m p).2)
  | Send m => ([], [], (handle_write m p).2)
  | PollRead => (option_list (poll_read p).1, [], (poll_read p).2)
  | PollWrite => ([], if decide (own p = []) then option_list (poll_write p).1 else [], (poll_write p).2)
  | Timeout t => ([], [], (handle_timeout t p).2)
  | BindLocal i => ([], [], bind_local_stream i p)
  | UnbindLocal i => ([], [], unbind_local_stream i p)
  | BindRemote i => ([], [], bind_remote_stream i p)
  | UnbindRemote i => ([], [], unbind_remote_stream i p)
  end.

Fixpoint run_ops (ops : list chain_op) (p : P) : list TaggedPacket * list TaggedPacket * P :=
  match ops with
  | [] => ([], [], p)
  | o :: ops =>
      let '(d, s, p) := run_op o p in
      let '(ds, ss, p) := run_ops ops p in
      (d ++ ds, s ++ ss, p)
  end.

(** The RTP packets that arrive, and the packets the application sends. *)
Definition arrivals (ops : list chain_op) : list TaggedPacket :=
  omap (λ o, match o with Receive m => if is_rtp m then Some m else None | _ => None end) ops.
Definition sends (ops : list chain_op) : list TaggedPacket :=
  omap (λ o, match o with Send m => Some m | _ => None end) ops.

Lemma run_op_spec o p d s p' :
  run_op o p = (d, s, p') →
  d ++ reads p' = reads p ++ arrivals [o] ∧ s ++ writes p' = writes p ++ sends [o].
Proof.
  assert (∀ q, (reads q = reads p ∧ writes q = writes p ∧ own q = own p) →
    [] ++ reads q = reads p ++ [] ∧ [] ++ writes q = writes p ++ []) as Hsame.
  { intros q (-> & -> & _). by rewrite !app_nil_r. }
  destruct o; cbn -[decide]; intros [= <- <- <-].
  - destruct (read_law m p) as (q & gen & -> & E1 & E2 & _). cbn. rewrite E1, E2, app_nil_r. by destruct (is_rtp m).
  - destruct (write_law m p) as (q & -> & E1 & E2 & _). cbn. by rewrite E1, E2, app_nil_r.
  - destruct (poll_read_law p) as (q & -> & E1 & E2 & _). cbn. rewrite E1, E2, !app_nil_r. by destruct (reads p).
  - destruct (poll_write_law p) as (q & -> & E1 & E2 & E3). cbn -[decide]. rewrite E1, E3, !app_nil_r. split; [done|].
    destruct (decide (own p = [])) as [->|]; [|done]. by destruct (writes p).
  - destruct (timeout_law t p) as (q & gen & -> & E1 & E2 & _). cbn. by rewrite E1, E2, !app_nil_r.
  - apply Hsame, (bind_law i). set_solver.
  - apply Hsame, (bind_law i). set_solver.
  - apply Hsame, (bind_law i). set_solver.
  - apply Hsame, (bind_law i). set_solver.
Qed.

Lemma run_ops_spec ops p :
  let '(ds, ss, p') := run_ops ops p in
  ds ++ reads p' = reads p ++ arrivals ops ∧ ss ++ writes p' = writes p ++ sends ops.
Proof.
  revert p. induction ops as [|o ops IH]; intros p; cbn [run_ops]; [by rewrite !app_nil_r|].
  destruct (run_op o p) as [[d s] p1] eqn:E. apply run_op_spec in E as [E1 E2].
  specialize (IH p1). destruct (run_ops ops p1) as [[ds ss] p']. destruct IH as [IH1 IH2].
  change (o :: ops) with ([o] ++ ops). unfold arrivals, sends in *. rewrite !omap_app.
  by rewrite <-!app_assoc, IH1, IH2, (app_assoc d), (app_assoc s), E1, E2, <-!app_assoc.
Qed.
End Runs.
