(* ===== verification/NackFlow.v ===== *)
(** Loss recovery end to end: the NACK generator and responder interceptors
    ([rtc-interceptor/src/nack/generator.rs] and [responder.rs]) around the receive log and the
    send buffer of Nack.v, and the RTCP feedback of RtcpFeedback.v between them.

    The receiver's generator finds the missing sequence numbers at its timeout and queues a
    generic NACK; the sender's responder looks the numbers up and queues the packets again,
    wrapped as RFC 4588 retransmissions when the stream has them negotiated. *)

From stdpp Require Import strings sorting.
From S2P Require Import Prelude Codec RtpHeader RtpPacket Rtcp RtcpReport RtcpFeedback RtcpPacket Nack Interceptor.

Definition stream_supports_nack (info : StreamInfo) : bool :=
  existsb (λ fb, bool_decide (typ fb = "nack"%string) && bool_decide (parameter fb = ""%string)) (si_rtcp_feedback info).

(** * The generator

    [HashMap] iterates in an order of its own: [iter] lists the entries of the log table in the
    order of the iteration. *)

Class HashIter := {
  iter : gmap Z ReceiveLog → list (Z * ReceiveLog);
  iter_entries m : iter m ≡ₚ map_to_list m
}.

Section GeneratorState.
Context {P : Type}.

Record NackGenerator := mkGenerator {
  g_inner : P;
  g_size : Z;
  g_interval : Z;
  g_skip_last_n : Z;
  g_max_nacks_per_packet : Z;
  g_eto : Z;
  g_sender_ssrc : Z;
  g_receive_logs : gmap Z ReceiveLog;
  g_nack_counts : gmap Z (gmap Z Z);
  g_write_queue : list TaggedPacket
}.

Definition eta_generator (g : NackGenerator) : NackGenerator :=
  mkGenerator (g_inner g) (g_size g) (g_interval g) (g_skip_last_n g) (g_max_nacks_per_packet g) (g_eto g)
    (g_sender_ssrc g) (g_receive_logs g) (g_nack_counts g) (g_write_queue g).

#[export] Instance set_g_inner : Setter g_inner.
Proof. make_setter eta_generator g_inner. Defined.
#[export] Instance set_g_eto : Setter g_eto.
Proof. make_setter eta_generator g_eto. Defined.
#[export] Instance set_g_logs : Setter g_receive_logs.
Proof. make_setter eta_generator g_receive_logs. Defined.
#[export] Instance set_g_counts : Setter g_nack_counts.
Proof. make_setter eta_generator g_nack_counts. Defined.
#[export] Instance set_g_queue : Setter g_write_queue.
Proof. make_setter eta_generator g_write_queue. Defined.

End GeneratorState.
Arguments NackGenerator P : clear implicits.

(** The interceptor as it is built at time [t0]; the sender's SSRC is random. *)
Definition generator_new {P} (inner : P) (size interval skip_last_n max_nacks t0 sender_ssrc : Z) : NackGenerator P :=
  mkGenerator inner size interval skip_last_n max_nacks t0 sender_ssrc ∅ ∅ [].

(** The closure of [filter]: the numbers asked for less than [max] times, which are counted. *)
Fixpoint count_nacks (max : Z) (missing : list Z) (counts : gmap Z Z) : list Z * gmap Z Z :=
  match missing with
  | [] => ([], counts)
  | seq :: missing =>
      let count := default 0 (counts !! seq) in
      if count <? max then
        let '(l, counts) := count_nacks max missing (<[seq := count + 1]> counts) in (seq :: l, counts)
      else count_nacks max missing (<[seq := count]> counts)
  end.

(** One iteration of the loop of [generate_nacks]. *)
Definition generate_one {P} (t : Z) (g : NackGenerator P) (entry : Z * ReceiveLog) : NackGenerator P :=
  let '(ssrc, receive_log) := entry in
  let missing := missing_seq_numbers receive_log (g_skip_last_n g) in
  if bool_decide (missing = []) then g <| g_nack_counts ::= delete ssrc |>
  else
    let nack_count := default ∅ (g_nack_counts g !! ssrc) in
    let '(filtered, nack_count) :=
      if 0 <? g_max_nacks_per_packet g then count_nacks (g_max_nacks_per_packet g) missing nack_count
      else (missing, nack_count) in
    if bool_decide (filtered = []) then g <| g_nack_counts ::= <[ssrc := nack_count]> |>
    else
      let nack_count := filter (λ kv, kv.1 ∈ missing) nack_count in
      let nack := mkNack (g_sender_ssrc g) ssrc (nack_pairs_from_sequence_numbers filtered) in
      g <| g_nack_counts ::= <[ssrc := nack_count]> |>
        <| g_write_queue ::= λ q, q ++ [mkTagged t (Interceptor.Rtcp [PNack nack])] |>.

Section Generator.
Context `{Interceptor P} `{HashIter}.

Definition generate_nacks (t : Z) (g : NackGenerator P) : NackGenerator P :=
  foldl (generate_one t) g (iter (g_receive_logs g)).

(** [self.inner.op(..)] for an operation that can fail. *)
Definition g_delegate (f : sm P unit) : sm (NackGenerator P) unit := λ g,
  let '(r, inner) := f (g_inner g) in (r, g <| g_inner := inner |>).

#[export] Instance generator_interceptor : Interceptor (NackGenerator P) := {|
  handle_read msg g :=
    let g :=
      match message msg with
      | Rtp p =>
          match g_receive_logs g !! RtpHeader.ssrc (RtpPacket.header p) with
          | Some log => g <| g_receive_logs ::= <[RtpHeader.ssrc (RtpPacket.header p) := log_add log (RtpHeader.sequence_number (RtpPacket.header p))]> |>
          | None => g
          end
      | Interceptor.Rtcp _ => g
      end in
    g_delegate (handle_read msg) g;
  poll_read g := let '(m, inner) := poll_read (g_inner g) in (m, g <| g_inner := inner |>);
  handle_write msg := g_delegate (handle_write msg);
  poll_write g :=
    match g_write_queue g with
    | pkt :: q => (Some pkt, g <| g_write_queue := q |>)
    | [] => let '(m, inner) := poll_write (g_inner g) in (m, g <| g_inner := inner |>)
    end;
  handle_timeout t g :=
    let g := if g_eto g <=? t then generate_nacks t (g <| g_eto := t + g_interval g |>) else g in
    g_delegate (handle_timeout t) g;
  poll_timeout g :=
    match poll_timeout (g_inner g) with
    | Some inner_eto => if inner_eto <? g_eto g then Some inner_eto else Some (g_eto g)
    | None => Some (g_eto g)
    end;
  close := g_delegate close;
  bind_local_stream i g := g <| g_inner ::= bind_local_stream i |>;
  unbind_local_stream i g := g <| g_inner ::= unbind_local_stream i |>;
  bind_remote_stream i g :=
    let g :=
      if stream_supports_nack i then
        match log_new (g_size g) with
        | Some log => g <| g_receive_logs ::= <[si_ssrc i := log]> |>
        | None => g
        end
      else g in
    g <| g_inner ::= bind_remote_stream i |>;
  unbind_remote_stream i g :=
    g <| g_receive_logs ::= delete (si_ssrc i) |> <| g_nack_counts ::= delete (si_ssrc i) |>
      <| g_inner ::= unbind_remote_stream i |>
|}.
End Generator.

(** * The responder *)

Record LocalStream := mkLocal {
  send_buffer : SendBuffer;
  ssrc_rtx : option Z;
  payload_type_rtx : option Z;
  rtx_sequence_number : Z
}.

Section ResponderState.
Context {P : Type}.

Record NackResponder := mkResponder {
  r_inner : P;
  r_size : Z;
  r_streams : gmap Z LocalStream;
  r_write_queue : list TaggedPacket
}.

Definition eta_responder (r : NackResponder) : NackResponder :=
  mkResponder (r_inner r) (r_size r) (r_streams r) (r_write_queue r).

#[export] Instance set_r_inner : Setter r_inner.
Proof. make_setter eta_responder r_inner. Defined.
#[export] Instance set_r_streams : Setter r_streams.
Proof. make_setter eta_responder r_streams. Defined.
#[export] Instance set_r_queue : Setter r_write_queue.
Proof. make_setter eta_responder r_write_queue. Defined.

End ResponderState.
Arguments NackResponder P : clear implicits.

Definition responder_new {P} (inner : P) (size : Z) : NackResponder P := mkResponder inner size ∅ [].

(** The sequence numbers of the request: the base of each pair and, for every bit, the number it
    stands for. *)
Definition requested (nack : TransportLayerNack) : list Z :=
  concat ((λ np, packet_id np ::
    ((λ i, u16 (packet_id np + (i + 1))) <$>
       filter (λ i, Z.land (lost_packets np) (Z.shiftl 1 i) ≠ 0) (seqZ 0 16))) <$> nacks nack).

(** The packet sent again: an RFC 4588 one when the stream has a retransmission SSRC and payload
    type, the original one otherwise. *)
Definition retransmission (stream : LocalStream) (original : RtpPacket.Packet) : RtpPacket.Packet * LocalStream :=
  match ssrc_rtx stream, payload_type_rtx stream with
  | Some s, Some pt =>
      let h := RtpPacket.header original in
      (mkPacket
         (mkHeader (version RtpHeader.default_header) (padding RtpHeader.default_header) (extension RtpHeader.default_header)
            (marker h) pt (rtx_sequence_number stream) (timestamp h) s (csrc RtpHeader.default_header)
            (extension_profile RtpHeader.default_header) (extensions RtpHeader.default_header)
            (extensions_padding RtpHeader.default_header))
         ([RtpHeader.sequence_number h / 256; RtpHeader.sequence_number h mod 256] ++ pkt_payload original),
       mkLocal (send_buffer stream) (ssrc_rtx stream) (payload_type_rtx stream) (u16 (rtx_sequence_number stream + 1)))
  | _, _ => (original, stream)
  end.

Fixpoint retransmit_loop (seqs : list Z) (stream : LocalStream) : list RtpPacket.Packet * LocalStream :=
  match seqs with
  | [] => ([], stream)
  | seq :: seqs =>
      match buf_get (send_buffer stream) seq with
      | None => retransmit_loop seqs stream
      | Some original =>
          let '(p, stream) := retransmission stream original in
          let '(ps, stream) := retransmit_loop seqs stream in
          (p :: ps, stream)
      end
  end.

Definition handle_nack {P} (t : Z) (nack : TransportLayerNack) (r : NackResponder P) : NackResponder P :=
  match r_streams r !! nack_media_ssrc nack with
  | None => r
  | Some stream =>
      let '(ps, stream) := retransmit_loop (requested nack) stream in
      r <| r_streams ::= <[nack_media_ssrc nack := stream]> |>
        <| r_write_queue ::= λ q, q ++ ((λ p, mkTagged t (Rtp p)) <$> ps) |>
  end.

Section Responder.
Context `{Interceptor P}.

Definition r_delegate (f : sm P unit) : sm (NackResponder P) unit := λ r,
  let '(x, inner) := f (r_inner r) in (x, r <| r_inner := inner |>).

(** [handle_read]'s loop over the packets of a datagram. *)
Definition handle_rtcp (t : Z) (ps : list any_packet) (r : NackResponder P) : NackResponder P :=
  foldl (λ r p, match p with PNack nack => handle_nack t nack r | _ => r end) r ps.

#[export] Instance responder_interceptor : Interceptor (NackResponder P) := {|
  handle_read msg r :=
    let r := match message msg with Interceptor.Rtcp ps => handle_rtcp (now msg) ps r | Rtp _ => r end in
    r_delegate (handle_read msg) r;
  poll_read r := let '(m, inner) := poll_read (r_inner r) in (m, r <| r_inner := inner |>);
  handle_write msg r :=
    let r :=
      match message msg with
      | Rtp p =>
          match r_streams r !! RtpHeader.ssrc (RtpPacket.header p) with
          | Some s => r <| r_streams ::= <[RtpHeader.ssrc (RtpPacket.header p) :=
              mkLocal (buf_add (send_buffer s) p) (ssrc_rtx s) (payload_type_rtx s) (rtx_sequence_number s)]> |>
          | None => r
          end
      | Interceptor.Rtcp _ => r
      end in
    r_delegate (handle_write msg) r;
  poll_write r :=
    match r_write_queue r with
    | pkt :: q => (Some pkt, r <| r_write_queue := q |>)
    | [] => let '(m, inner) := poll_write (r_inner r) in (m, r <| r_inner := inner |>)
    end;
  handle_timeout t := r_delegate (handle_timeout t);
  poll_timeout r := poll_timeout (r_inner r);
  close := r_delegate close;
  bind_local_stream i r :=
    let r :=
      if stream_supports_nack i then
        match buf_new (r_size r) with
        | Some b => r <| r_streams ::= <[si_ssrc i := mkLocal b (si_ssrc_rtx i) (si_payload_type_rtx i) 0]> |>
        | None => r
        end
      else r in
    r <| r_inner ::= bind_local_stream i |>;
  unbind_local_stream i r := r <| r_streams ::= delete (si_ssrc i) |> <| r_inner ::= unbind_local_stream i |>;
  bind_remote_stream i r := r <| r_inner ::= bind_remote_stream i |>;
  unbind_remote_stream i r := r <| r_inner ::= unbind_remote_stream i |>
|}.
End Responder.

(** * The chain keeps the application's packets

    Both interceptors keep the contract of Interceptor.v when the next one does. *)

Lemma generate_one_keeps {P} t (g : NackGenerator P) e :
  g_inner (generate_one t g e) = g_inner g ∧ g_receive_logs (generate_one t g e) = g_receive_logs g ∧
  g_skip_last_n (generate_one t g e) = g_skip_last_n g ∧ g_max_nacks_per_packet (generate_one t g e) = g_max_nacks_per_packet g ∧
  g_sender_ssrc (generate_one t g e) = g_sender_ssrc g ∧
  ∃ gen, g_write_queue (generate_one t g e) = g_write_queue g ++ gen.
Proof.
  unfold generate_one. destruct e as [s l]. case_bool_decide; [split_and!; try done; exists []; by rewrite app_nil_r|].
  destruct (if 0 <? _ then _ else _) as [f c]. case_bool_decide; split_and!; try done.
  - exists []. by rewrite app_nil_r.
  - by eexists.
Qed.

Lemma generate_nacks_keeps {P} `{HashIter} t (g : NackGenerator P) :
  g_inner (generate_nacks t g) = g_inner g ∧ ∃ gen, g_write_queue (generate_nacks t g) = g_write_queue g ++ gen.
Proof.
  unfold generate_nacks. generalize (iter (g_receive_logs g)). intros es. revert g.
  induction es as [|e es IH]; intros g; [split; [done|exists []; by rewrite app_nil_r]|]. cbn [foldl].
  destruct (generate_one_keeps t g e) as (E1 & _ & _ & _ & _ & gen & E2). destruct (IH (generate_one t g e)) as [E3 [gen' E4]].
  split; [congruence|]. exists (gen ++ gen'). by rewrite E4, E2, app_assoc.
Qed.

Lemma handle_rtcp_keeps {P} t ps (r : NackResponder P) :
  r_inner (handle_rtcp t ps r) = r_inner r ∧ ∃ gen, r_write_queue (handle_rtcp t ps r) = r_write_queue r ++ gen.
Proof.
  revert r. unfold handle_rtcp. induction ps as [|p ps IH]; intros r; [split; [done|exists []; by rewrite app_nil_r]|].
  cbn [foldl]. destruct p as [| | | |nack| | | | | | | |]; try apply IH.
  destruct (IH (handle_nack t nack r)) as [E1 [gen' E2]]. rewrite E1, E2. unfold handle_nack.
  destruct (r_streams r !! _) as [s|]; [|by eauto]. destruct (retransmit_loop _ s) as [qs s'].
  split; [done|]. record_simpl. eexists. by rewrite <-app_assoc.
Qed.

Section Transparency.
Context `{TP : Transparent P} `{HashIter}.

(** A generated queue [q] in front of the next interceptor's. *)
Lemma perm_front (q o o' gen gen' : list TaggedPacket) :
  o' ≡ₚ o ++ gen → ∃ all, (q ++ gen') ++ o' ≡ₚ (q ++ o) ++ all.
Proof. intros E. exists (gen' ++ gen). rewrite E. solve_Permutation. Qed.

Lemma front_tail (q o : list TaggedPacket) :
  q ≠ [] → tail (q ++ o) = tail q ++ o ∧ head (q ++ o) = head q ∧ q ++ o ≠ [].
Proof. by destruct q. Qed.

#[export] Instance generator_transparent : @Transparent (NackGenerator P) generator_interceptor.
Proof.
  refine (@Build_Transparent _ generator_interceptor (λ g, reads (g_inner g)) (λ g, writes (g_inner g))
    (λ g, g_write_queue g ++ own (g_inner g)) _ _ _ _ _ _); cbn -[decide]; unfold g_delegate.
  - intros m g. set (g1 := match message m with Rtp p => _ | Interceptor.Rtcp _ => _ end).
    assert (g_inner g1 = g_inner g ∧ g_write_queue g1 = g_write_queue g) as [E1 E2].
    { subst g1. destruct (message m); [|done]. by destruct (g_receive_logs g !! _). }
    destruct (read_law m (g_inner g1)) as (q & gen & E & Hr & Hw & Ho). rewrite E. record_simpl. rewrite E1 in *.
    destruct (perm_front (g_write_queue g) _ _ _ [] Ho) as [all Hall]. rewrite app_nil_r in Hall.
    eexists _, all. split_and!; [done|..]; record_simpl; rewrite ?E2; try done.
  - intros g. destruct (poll_read_law (g_inner g)) as (q & E & Hr & Hw & Ho). rewrite E.
    eexists. split_and!; [done|..]; record_simpl; try done. by rewrite Ho.
  - intros m g. destruct (write_law m (g_inner g)) as (q & E & Hr & Hw & Ho). rewrite E.
    eexists. split_and!; [done|..]; record_simpl; try done. by rewrite Ho.
  - intros g. destruct (g_write_queue g) as [|x q] eqn:Eq.
    + destruct (poll_write_law (g_inner g)) as (q & E & Hr & Ho & Hw). rewrite E.
      eexists. split_and!; [done|..]; record_simpl; try done. by rewrite Eq.
    + eexists. split_and!; [done|..]; record_simpl; try done.
  - intros t g. set (g1 := if g_eto g <=? t then _ else _).
    assert (g_inner g1 = g_inner g ∧ ∃ gen, g_write_queue g1 = g_write_queue g ++ gen) as [E1 [gen1 E2]].
    { subst g1. destruct (g_eto g <=? t); [|split; [done|exists []; by rewrite app_nil_r]].
      destruct (generate_nacks_keeps t (g <| g_eto := t + g_interval g |>)) as [E1 E2]. by split. }
    destruct (timeout_law t (g_inner g1)) as (q & gen & E & Hr & Hw & Ho). rewrite E. rewrite E1 in *.
    destruct (perm_front (g_write_queue g) _ _ _ gen1 Ho) as [all Hall].
    eexists _, all. split_and!; [done|..]; record_simpl; rewrite ?E2; done.
  - intros i g q Hq. pose proof (bind_law i (g_inner g)) as Hb.
    repeat (apply elem_of_cons in Hq as [->|Hq]); [..|by apply elem_of_nil in Hq]; record_simpl.
    + destruct (Hb (bind_local_stream i (g_inner g))) as (-> & -> & ->); [set_solver|done].
    + destruct (Hb (unbind_local_stream i (g_inner g))) as (-> & -> & ->); [set_solver|done].
    + destruct (Hb (bind_remote_stream i (g_inner g))) as (E1 & E2 & E3); [set_solver|].
      destruct (stream_supports_nack i), (log_new (g_size g)); record_simpl; by rewrite E1, E2, E3.
    + destruct (Hb (unbind_remote_stream i (g_inner g))) as (-> & -> & ->); [set_solver|done].
Defined.

#[export] Instance responder_transparent : @Transparent (NackResponder P) responder_interceptor.
Proof.
  refine (@Build_Transparent _ responder_interceptor (λ r, reads (r_inner r)) (λ r, writes (r_inner r))
    (λ r, r_write_queue r ++ own (r_inner r)) _ _ _ _ _ _); cbn -[decide]; unfold r_delegate.
  - intros m r. set (r1 := match message m with Rtp _ => _ | Interceptor.Rtcp ps => _ end).
    assert (r_inner r1 = r_inner r ∧ ∃ gen, r_write_queue r1 = r_write_queue r ++ gen) as [E1 [gen1 E2]].
    { subst r1. destruct (message m) as [q|ps]; [split; [done|exists []; by rewrite app_nil_r]|apply handle_rtcp_keeps]. }
    destruct (read_law m (r_inner r1)) as (q & gen & E & Hr & Hw & Ho). rewrite E. rewrite E1 in *.
    destruct (perm_front (r_write_queue r) _ _ _ gen1 Ho) as [all Hall].
    eexists _, all. split_and!; [done|..]; record_simpl; rewrite ?E2; done.
  - intros r. destruct (poll_read_law (r_inner r)) as (q & E & Hr & Hw & Ho). rewrite E.
    eexists. split_and!; [done|..]; record_simpl; try done. by rewrite Ho.
  - intros m r. set (r1 := match message m with Rtp p => _ | Interceptor.Rtcp _ => _ end).
    assert (r_inner r1 = r_inner r ∧ r_write_queue r1 = r_write_queue r) as [E1 E2].
    { subst r1. destruct (message m); [|done]. by destruct (r_streams r !! _). }
    destruct (write_law m (r_inner r1)) as (q & E & Hr & Hw & Ho). rewrite E. rewrite E1 in *.
    eexists. split_and!; [done|..]; record_simpl; rewrite ?E2, ?Ho; done.
  - intros r. destruct (r_write_queue r) as [|x q] eqn:Eq.
    + destruct (poll_write_law (r_inner r)) as (q & E & Hr & Ho & Hw). rewrite E.
      eexists. split_and!; [done|..]; record_simpl; try done. by rewrite Eq.
    + eexists. split_and!; [done|..]; record_simpl; try done.
  - intros t r. destruct (timeout_law t (r_inner r)) as (q & gen & E & Hr & Hw & Ho). rewrite E.
    destruct (perm_front (r_write_queue r) _ _ _ [] Ho) as [all Hall]. rewrite app_nil_r in Hall.
    eexists _, all. split_and!; [done|..]; record_simpl; done.
  - intros i r q Hq. pose proof (bind_law i (r_inner r)) as Hb.
    repeat (apply elem_of_cons in Hq as [->|Hq]); [..|by apply elem_of_nil in Hq]; record_simpl.
    + destruct (Hb (bind_local_stream i (r_inner r))) as (E1 & E2 & E3); [set_solver|].
      destruct (stream_supports_nack i), (buf_new (r_size r)); record_simpl; by rewrite E1, E2, E3.
    + destruct (Hb (unbind_local_stream i (r_inner r))) as (-> & -> & ->); [set_solver|done].
    + destruct (Hb (bind_remote_stream i (r_inner r))) as (-> & -> & ->); [set_solver|done].
    + destruct (Hb (unbind_remote_stream i (r_inner r))) as (-> & -> & ->); [set_solver|done].
Defined.

End Transparency.

(** Interceptors do not disturb the media: whatever happens to a chain with a NACK generator
    over a NACK responder over any chain that keeps the contract, the RTP packets that arrive
    are delivered, and the packets the application sends leave, each once and in order, with
    nothing lost; what the chain sends of its own goes before them. *)
Theorem nack_chain_in_order `{Transparent P} `{HashIter} (ops : list chain_op) (c : NackGenerator (NackResponder P)) :
  let '(delivered, sent, c') := run_ops ops c in
  delivered ++ reads c' = reads c ++ arrivals ops ∧ sent ++ writes c' = writes c ++ sends ops.
Proof. apply run_ops_spec. Qed.

Lemma nack_chain_in_order_witness :
  let H := {| iter := map_to_list; iter_entries m := reflexivity (map_to_list m) |} in
  let c := generator_new (responder_new noop_new 4) 64 100 0 0 0 7 in
  let m := mkTagged 5 (Rtp (numbered 9)) in
  run_ops [Send m; Timeout 5; PollWrite] c = ([], [m], c <| g_eto := 105 |>) ∧
  [m] ++ writes (c <| g_eto := 105 |>) = writes c ++ sends [Send m; Timeout 5; PollWrite].
Proof.
  intros H c m. split; [reflexivity|].
  pose proof (nack_chain_in_order [Send m; Timeout 5; PollWrite] c) as [_ E]. exact E.
Defined.

(** * From the loss to the retransmission *)

Lemma nack_pairs_ok seqs : Forall (fits 16) seqs → Forall pair_ok (nack_pairs_from_sequence_numbers seqs).
Proof.
  assert (∀ np seqs, pair_ok np → Forall (fits 16) seqs → Forall pair_ok (nack_pairs_loop np seqs)) as Hloop.
  { intros np l Hp Hl. revert np Hp. induction Hl as [|s l Hs Hl IH]; intros np Hp; cbn [nack_pairs_loop]; [by constructor|].
    destruct (Z.eqb_spec s (packet_id np)); [by apply IH|]. destruct (_ || _) eqn:Ec.
    - constructor; [done|]. by apply IH, pair_new_ok.
    - apply IH. apply pair_add_ok; [done|]. bool_facts. destruct Hp as [[? ?] _]. lia. }
  intros [|s l Hs Hl]; [constructor|]. cbn [nack_pairs_from_sequence_numbers]. by apply Hloop; [apply pair_new_ok|].
Qed.

Lemma requested_packet_lists nack :
  Forall pair_ok (nacks nack) → requested nack = concat (packet_list <$> nacks nack).
Proof.
  unfold requested. induction 1 as [|np nps (_ & Hl & _) _ IH]; [done|]. rewrite !fmap_cons. cbn [concat].
  rewrite IH, packet_list_spec by done. f_equal. f_equal. f_equal. unfold set_bits. apply list_filter_iff. intros i.
  rewrite Is_true_true. destruct (Z.le_gt_cases 0 i).
  - pose proof (land_single (lost_packets np) i ltac:(lia)) as E. destruct (Z.eqb_spec (Z.land (lost_packets np) (Z.shiftl 1 i)) 0);
      by destruct (Z.testbit (lost_packets np) i).
  - rewrite Z.testbit_neg_r by done. rewrite Z.shiftl_div_pow2 by lia. rewrite Z.div_small by (pose proof (Z.pow_gt_1 2 (- i)); lia).
    by rewrite Z.land_0_r.
Qed.

(** Increasing numbers of a window, as sequence numbers: they wrap around at most once. *)
Lemma window_wraps xs a :
  StronglySorted Z.lt xs → (∀ x, x ∈ xs → a <= x < a + 2 ^ 16) →
  ∃ l1 l2, u16 <$> xs = l1 ++ l2 ∧ StronglySorted Z.lt l1 ∧ StronglySorted Z.lt l2 ∧ (∀ x y, x ∈ l1 → y ∈ l2 → y < x).
Proof.
  intros Hs Hw. set (b := 2 ^ 16 * (a / 2 ^ 16 + 1)). pose proof (Z.div_mod a (2 ^ 16) ltac:(done)). pose proof (Z.mod_pos_bound a (2 ^ 16) ltac:(done)).
  assert (∀ x, x ∈ xs → x < b → u16 x = x - (b - 2 ^ 16)) as Hlow.
  { intros x Hx Hb. apply Hw in Hx. unfold wrap. symmetry. apply (Z.mod_unique_pos _ _ (a / 2 ^ 16)); lia. }
  assert (∀ x, x ∈ xs → b <= x → u16 x = x - b) as Hhigh.
  { intros x Hx Hb. apply Hw in Hx. unfold wrap. symmetry. apply (Z.mod_unique_pos _ _ (a / 2 ^ 16 + 1)); lia. }
  assert (∀ (c : Z) l, (∀ x, x ∈ l → u16 x = x - c) → StronglySorted Z.lt l → StronglySorted Z.lt (u16 <$> l)) as Hmono.
  { intros c l Hc. induction 1 as [|x l Hl IH Hx]; [constructor|]. csimpl. constructor; [apply IH; set_solver|].
    rewrite Forall_fmap. rewrite Forall_forall in Hx |- *. intros y Hy. cbn. rewrite !Hc by set_solver. specialize (Hx y Hy). lia. }
  assert (∃ k1 k2, xs = k1 ++ k2 ∧ (∀ x, x ∈ k1 → x < b) ∧ (∀ x, x ∈ k2 → b <= x)) as (k1 & k2 & -> & H1 & H2).
  { clear -Hs. induction Hs as [|x l Hl IH Hx]; [exists [], []; set_solver|]. rewrite Forall_forall in Hx.
    destruct (Z.lt_ge_cases x b) as [Hb|Hb].
    - destruct IH as (k1 & k2 & -> & H1 & H2). exists (x :: k1), k2. set_solver.
    - exists [], (x :: l). split_and!; [done|set_solver|]. intros y [->|Hy]%elem_of_cons; [done|]. specialize (Hx y Hy). lia. }
  exists (u16 <$> k1), (u16 <$> k2). apply StronglySorted_app in Hs as (Hx & Hs1 & Hs2).
  assert (∀ x, x ∈ k1 → x ∈ k1 ++ k2) as I1 by (intros; apply elem_of_app; by left).
  assert (∀ x, x ∈ k2 → x ∈ k1 ++ k2) as I2 by (intros; apply elem_of_app; by right).
  split_and!; [by rewrite fmap_app|eapply Hmono; [|done]..|].
  - intros x Hx1. by apply Hlow; [apply I1|apply H1].
  - intros x Hx1. by apply Hhigh; [apply I2|apply H2].
  - intros x y (x0 & -> & Hx0)%list_elem_of_fmap (y0 & -> & Hy0)%list_elem_of_fmap.
    rewrite (Hlow x0), (Hhigh y0) by auto. pose proof (Hw x0 (I1 _ Hx0)). pose proof (Hw y0 (I2 _ Hy0)).
    pose proof (Hx x0 y0 Hx0 Hy0). lia.
Qed.

Lemma requested_in_order xs a s r :
  StronglySorted Z.lt xs → (∀ x, x ∈ xs → a <= x < a + 2 ^ 16) →
  requested (mkNack s r (nack_pairs_from_sequence_numbers (u16 <$> xs))) = u16 <$> xs.
Proof.
  intros Hs Hw. assert (Forall (fits 16) (u16 <$> xs)) as Hf by (apply Forall_fmap, Forall_forall; intros; by apply wrap_fits).
  rewrite requested_packet_lists by (by apply nack_pairs_ok). cbn [nacks].
  destruct (window_wraps xs a Hs Hw) as (l1 & l2 & E & H1 & H2 & Hb). rewrite E in *. by apply nack_pairs_in_order.
Qed.

Lemma window_sorted (Q : Z → Prop) `{∀ x, Decision (Q x)} a n : StronglySorted Z.lt (filter Q (seqZ a n)).
Proof.
  destruct (Z.le_gt_cases n 0) as [Hn|Hn]; [rewrite seqZ_nil by lia; constructor|]. revert a. pattern n.
  apply Zlt_0_ind with (x := n); [|lia]. clear n Hn. intros n IH Hn a. destruct (Z.eq_dec n 0) as [->|].
  { rewrite seqZ_nil by lia. constructor. }
  rewrite seqZ_cons, filter_cons by lia. assert (StronglySorted Z.lt (filter Q (seqZ (Z.succ a) (Z.pred n)))) by (apply IH; lia).
  destruct (decide (Q a)); [|done]. constructor; [done|]. apply Forall_forall. intros x [_ Hx%elem_of_seqZ]%list_elem_of_filter. lia.
Qed.

Lemma nack_pairs_loop_cons np l : ∃ np' nps, nack_pairs_loop np l = np' :: nps.
Proof.
  revert np. induction l as [|x l IH]; intros np; cbn [nack_pairs_loop]; [eauto|].
  destruct (x =? _); [apply IH|]. destruct (_ || _); [eauto|apply IH].
Qed.

(** What the generator asks for when nothing limits the number of requests. *)
Definition request_for {P} (g : NackGenerator P) (s : Z) (missing : list Z) : TransportLayerNack :=
  mkNack (g_sender_ssrc g) s (nack_pairs_from_sequence_numbers missing).

Lemma generate_loop_keeps {P} t es (g : NackGenerator P) :
  let g' := foldl (generate_one t) g es in
  g_skip_last_n g' = g_skip_last_n g ∧ g_max_nacks_per_packet g' = g_max_nacks_per_packet g ∧
  g_sender_ssrc g' = g_sender_ssrc g ∧ ∀ m, m ∈ g_write_queue g → m ∈ g_write_queue g'.
Proof.
  revert g. induction es as [|e es IH]; intros g; [by cbn|]. cbn [foldl].
  destruct (generate_one_keeps t g e) as (_ & _ & E1 & E2 & E3 & gen & E4). destruct (IH (generate_one t g e)) as (F1 & F2 & F3 & F4).
  split_and!; [congruence..|]. intros m Hm. apply F4. rewrite E4. apply elem_of_app. by left.
Qed.

Lemma generate_requests {P} `{HashIter} t (g : NackGenerator P) s l :
  g_receive_logs g !! s = Some l → g_max_nacks_per_packet g = 0 → missing_seq_numbers l (g_skip_last_n g) ≠ [] →
  mkTagged t (Interceptor.Rtcp [PNack (request_for g s (missing_seq_numbers l (g_skip_last_n g)))]) ∈ g_write_queue (generate_nacks t g).
Proof.
  intros Hl Hmax Hm. unfold generate_nacks. assert ((s, l) ∈ iter (g_receive_logs g)) as (es1 & es2 & ->)%list_elem_of_split.
  { rewrite iter_entries. by apply elem_of_map_to_list. }
  rewrite foldl_app. cbn [foldl]. destruct (generate_loop_keeps t es1 g) as (F1 & F2 & F3 & _).
  set (g1 := foldl (generate_one t) g es1) in *. apply generate_loop_keeps. unfold generate_one. rewrite F1, F2, Hmax.
  rewrite bool_decide_false by done. rewrite Z.ltb_irrefl, bool_decide_false by done. record_simpl.
  apply elem_of_app. right. unfold request_for. rewrite <-F3. by left.
Qed.

Lemma retransmit_originals seqs st :
  ssrc_rtx st = None ∨ payload_type_rtx st = None →
  retransmit_loop seqs st = (omap (buf_get (send_buffer st)) seqs, st).
Proof.
  intros Hrtx. induction seqs as [|x seqs IH]; [done|]. cbn [retransmit_loop omap list_omap]. csimpl.
  destruct (buf_get _ x) as [p|]; [|done]. assert (retransmission st p = (p, st)) as ->; [|by rewrite IH].
  unfold retransmission. destruct Hrtx as [-> | ->]; [done|by destruct (ssrc_rtx st)].
Qed.

Section Recovery.
Context {BC : BytesCrate} `{HashIter} `{Interceptor P} `{Interceptor Q}.

(** C17: lost packets are asked for and sent again.  The receiver's log, of fewer than 32768
    packets and started by packet [f], holds the packets [R], the highest being [E]; the sender's
    buffer holds the packets [m] up to [top], and the lost ones lie within 32768 of it.  The
    generator has no limit on the requests for a packet ([max_nacks_per_packet] is 0), and the
    stream of the responder has no RTX stream, so that packets are sent again as they were.  At
    its timeout the generator queues a NACK for the stream; it survives the trip over the wire
    (when it has at most 253 pairs), and the responder that reads it queues, in order, every lost
    packet that is still in its buffer, and nothing else. *)
Theorem lost_packets_sent_again (g : NackGenerator P) (r : NackResponder Q) t t' s sz l f E R szb st top m :
  let from := Z.max f (E - sz + 1) in
  let lost := filter (λ x, x ∉ R) (seqZ from (E - g_skip_last_n g + 1 - from)) in
  g_receive_logs g !! s = Some l → logged sz l f E R → sz < 2 ^ 15 →
  0 <= g_skip_last_n g <= 2 ^ 15 → g_max_nacks_per_packet g = 0 → g_eto g <= t → lost ≠ [] →
  r_streams r !! s = Some st → ssrc_rtx st = None ∨ payload_type_rtx st = None → buffered szb (send_buffer st) top m →
  (∀ x, x ∈ lost → Z.abs (x - top) < 2 ^ 15) →
  ∃ nack,
    mkTagged t (Interceptor.Rtcp [PNack nack]) ∈ g_write_queue (handle_timeout t g).2 ∧
    (fits 32 s → fits 32 (g_sender_ssrc g) → len (nacks nack) <= 253 →
       ∃ bs, rtcp_marshal [PNack nack] = Ok bs ∧ rtcp_unmarshal bs = Ok [PNack nack]) ∧
    r_write_queue (handle_read (mkTagged t' (Interceptor.Rtcp [PNack nack])) r).2 =
      r_write_queue r ++ ((λ p, mkTagged t' (Rtp p)) <$>
        omap (λ x, if (top - szb <? x) && (x <=? top) then m !! x else None) lost).
Proof.
  intros from lost Hl Hlog Hsz Hskip Hmax Heto Hne Hst Hrtx Hbuf Hnear.
  destruct (receive_log_spec sz l f E R (g_skip_last_n g) Hlog Hskip Hsz) as [_ Hmiss]. cbn zeta in Hmiss. fold from lost in Hmiss.
  assert (StronglySorted Z.lt lost) as Hsort by apply window_sorted.
  assert (∀ x, x ∈ lost → from <= x < from + 2 ^ 16) as Hwin.
  { intros x [_ Hx%elem_of_seqZ]%list_elem_of_filter. lia. }
  exists (request_for g s (u16 <$> lost)). split_and!.
  - cbn. rewrite (proj2 (Z.leb_le _ _)) by done. unfold g_delegate. destruct (handle_timeout t _) as [x inner]. cbn [snd]. record_simpl.
    pose (g1 := g <| g_eto := t + g_interval g |>). pose proof (generate_requests t g1 s l Hl Hmax) as Hgen.
    change (g_skip_last_n g1) with (g_skip_last_n g) in Hgen. rewrite Hmiss in Hgen.
    apply Hgen. by intros E0%fmap_nil_inv.
  - intros Hs Hss Hn. eexists. assert (Forall any_wf [PNack (request_for g s (u16 <$> lost))]) as Hwf.
    { apply Forall_singleton. cbn [any_wf]. split_and!; cbn [request_for nack_sender_ssrc nack_media_ssrc nacks] in *; [done|done|..].
      - eapply Forall_impl; [apply nack_pairs_ok|by intros np (? & ? & _)].
        apply Forall_fmap, Forall_forall. intros. by apply wrap_fits.
      - destruct lost as [|x0 lost0]; [done|]. csimpl. cbn [nack_pairs_from_sequence_numbers]. destruct (nack_pairs_loop_cons (nack_pair_new (u16 x0)) (u16 <$> lost0)) as (np & nps & ->).
        rewrite len_cons. pose proof (len_nonneg nps). lia.
      - done. }
    split; [by apply rtcp_marshal_app|by apply rtcp_unmarshal_app].
  - cbn. unfold handle_nack. cbn [request_for nack_media_ssrc]. rewrite Hst.
    unfold request_for. rewrite (requested_in_order lost from) by done. rewrite retransmit_originals by auto.
    unfold r_delegate. destruct (handle_read _ _) as [x inner]. cbn [snd]. record_simpl. f_equal. f_equal.
    clear -Hbuf Hnear. induction lost as [|x0 lost IH]; [done|]. csimpl.
    rewrite (send_buffer_spec szb (send_buffer st) top m) by (done || by apply Hnear; left).
    rewrite IH by (intros; apply Hnear; by right). done.
Qed.
End Recovery.

(** A receiver that got packets 10 and 13, and a sender that sent 10 to 13. *)
Definition sample_log : ReceiveLog := log_add (log_add log64 (u16 10)) (u16 13).
Definition sample_buffer : SendBuffer :=
  foldl buf_add (mkBuffer (replicate 8 None) 8 7 0 false) (numbered <$> [10; 11; 12; 13]).
Definition sample_generator (max_nacks : Z) : NackGenerator NoopInterceptor :=
  mkGenerator noop_new 64 100 0 max_nacks 0 7 {[1 := sample_log]} ∅ [].
Definition sample_responder : NackResponder NoopInterceptor :=
  mkResponder noop_new 8 {[1 := mkLocal sample_buffer None None 0]} [].
#[local] Instance sample_iter : HashIter := {| iter := map_to_list; iter_entries m := reflexivity (map_to_list m) |}.

Lemma sample_logged : logged 64 sample_log 10 13 [13; 10].
Proof. apply (logged_add 64 _ _ 10 _ 13); [|lia]. by apply logged_first. Qed.

Lemma sample_buffered :
  buffered 8 sample_buffer 13 (<[13 := numbered 13]> (<[12 := numbered 12]> (<[11 := numbered 11]> {[10 := numbered 10]}))).
Proof.
  apply (buffered_add 8 _ 12 _ 13); [|lia|done]. apply (buffered_add 8 _ 11 _ 12); [|lia|done].
  apply (buffered_add 8 _ 10 _ 11); [|lia|done]. by apply buffered_first.
Qed.

Lemma lost_packets_sent_again_witness :
  ∃ nack, mkTagged 5 (Interceptor.Rtcp [PNack nack]) ∈ g_write_queue (handle_timeout 5 (sample_generator 0)).2 ∧
    r_write_queue (handle_read (mkTagged 6 (Interceptor.Rtcp [PNack nack])) sample_responder).2 =
      [mkTagged 6 (Rtp (numbered 11)); mkTagged 6 (Rtp (numbered 12))].
Proof.
  destruct (lost_packets_sent_again (BC := BigEndian.big_endian) (sample_generator 0) sample_responder 5 6 1 64 sample_log 10 13 [13; 10]
    8 (mkLocal sample_buffer None None 0) 13 (<[13 := numbered 13]> (<[12 := numbered 12]> (<[11 := numbered 11]> {[10 := numbered 10]})))) as (nack & H1 & _ & H3).
  - reflexivity.
  - apply sample_logged.
  - lia.
  - cbn. lia.
  - reflexivity.
  - cbn. lia.
  - vm_compute. discriminate.
  - reflexivity.
  - left. reflexivity.
  - apply sample_buffered.
  - intros x [_ Hx%elem_of_seqZ]%list_elem_of_filter. cbn in Hx. lia.
  - exists nack. split; [exact H1|]. rewrite H3. vm_compute. reflexivity.
Defined.

(** * The number of requests *)

(** How often a number of a stream was asked for. *)
Definition asked {P} (g : NackGenerator P) (s x : Z) : Z := default 0 (default ∅ (g_nack_counts g !! s) !! x).

Lemma count_nacks_spec mx missing counts l counts' :
  NoDup missing → count_nacks mx missing counts = (l, counts') →
  (∀ x, x ∈ l ↔ x ∈ missing ∧ default 0 (counts !! x) < mx) ∧
  (∀ x, x ∈ missing → counts' !! x = Some (default 0 (counts !! x) + if default 0 (counts !! x) <? mx then 1 else 0)) ∧
  (∀ x, x ∉ missing → counts' !! x = counts !! x) ∧ (∀ x, x ∈ l → x ∈ missing).
Proof.
  intros Hnd. revert counts l counts'. induction Hnd as [|a missing Ha Hnd IH]; intros counts l counts'; cbn [count_nacks].
  { intros [= <- <-]. set_solver. }
  set (c := default 0 (counts !! a)).
  assert (∀ c' k k', count_nacks mx missing (<[a := c']> counts) = (k, k') →
    k' !! a = Some c' ∧
    (∀ x, x ∈ k ↔ x ∈ missing ∧ default 0 (counts !! x) < mx) ∧
    (∀ x, x ∈ missing → k' !! x = Some (default 0 (counts !! x) + if default 0 (counts !! x) <? mx then 1 else 0)) ∧
    (∀ x, x ∉ a :: missing → k' !! x = counts !! x)) as Hrest.
  { intros c' k k' E. destruct (IH _ _ _ E) as (H1 & H2 & H3 & _).
    assert (∀ x, x ∈ missing → <[a := c']> counts !! x = counts !! x) as Hne by (intros; apply lookup_insert_ne; congruence).
    split_and!.
    - by rewrite H3, lookup_insert_eq.
    - intros x. rewrite H1. split; intros [Hx Hc]; (split; [done|]); by rewrite Hne in *.
    - intros x Hx. by rewrite H2, Hne.
    - intros x [Hxa Hx]%not_elem_of_cons. rewrite H3 by done. by apply lookup_insert_ne. }
  destruct (c <? mx) eqn:Ec; [destruct (count_nacks mx missing _) as [k k'] eqn:E|]; intros Eq; simplify_eq.
  - destruct (Hrest _ _ _ E) as (H0 & H1 & H2 & H3). split_and!.
    + intros x. rewrite !elem_of_cons, H1. split; [|intros [[->|?] ?]; auto]. intros [->|[? ?]]; [|auto]. split; [by left|]. fold c. lia.
    + intros x [->|Hx]%elem_of_cons; [|by apply H2]. fold c. by rewrite Ec.
    + done.
    + intros x [->|Hx]%elem_of_cons; [by left|]. right. by apply H1.
  - destruct (Hrest _ _ _ Eq) as (H0 & H1 & H2 & H3). split_and!.
    + intros x. rewrite elem_of_cons, H1. split; [intros [? ?]; auto|]. intros [[->|?] ?]; [|auto]. fold c in H. lia.
    + intros x [->|Hx]%elem_of_cons; [|by apply H2]. fold c. by rewrite Ec, Z.add_0_r.
    + done.
    + intros x Hx. right. by apply H1.
Qed.

(** The messages name the number [x] of stream [s]. *)
Definition names (gen : list TaggedPacket) (s x : Z) : Prop :=
  ∃ t nack, mkTagged t (Interceptor.Rtcp [PNack nack]) ∈ gen ∧ nack_media_ssrc nack = s ∧ x ∈ requested nack.

Lemma names_app gen gen' s x : names (gen ++ gen') s x ↔ names gen s x ∨ names gen' s x.
Proof.
  unfold names. setoid_rewrite elem_of_app. split.
  - intros (t & nack & [?|?] & ? & ?); [left|right]; by exists t, nack.
  - intros [(t & nack & ? & ? & ?)|(t & nack & ? & ? & ?)]; exists t, nack; auto.
Qed.

Lemma names_nil s x : ¬ names [] s x.
Proof. by intros (t & nack & []%elem_of_nil & _). Qed.

Lemma names_one t sender s' seqs s x :
  Forall (fits 16) seqs →
  names [mkTagged t (Interceptor.Rtcp [PNack (mkNack sender s' (nack_pairs_from_sequence_numbers seqs))])] s x ↔ s' = s ∧ x ∈ seqs.
Proof.
  intros Hf. unfold names. split.
  - intros (t0 & nack & [= -> ->]%list_elem_of_singleton & E & Hx). cbn in E. split; [done|].
    rewrite requested_packet_lists in Hx by (by apply nack_pairs_ok). cbn [nacks] in Hx. by rewrite nack_pairs_names in Hx.
  - intros [-> Hx]. eexists _, _. split; [by apply list_elem_of_singleton|]. split; [done|].
    rewrite requested_packet_lists by (by apply nack_pairs_ok). cbn [nacks]. by rewrite nack_pairs_names.
Qed.

Lemma generate_one_other {P} t (g : NackGenerator P) s' l s x :
  s' ≠ s → Forall (fits 16) (missing_seq_numbers l (g_skip_last_n g)) →
  asked (generate_one t g (s', l)) s x = asked g s x ∧
  ∃ gen, g_write_queue (generate_one t g (s', l)) = g_write_queue g ++ gen ∧ ¬ names gen s x.
Proof.
  intros Hs Hf. unfold generate_one, asked. case_bool_decide.
  { record_simpl. rewrite lookup_delete_ne by done. split; [done|]. exists []. split; [by rewrite app_nil_r|apply names_nil]. }
  destruct (if 0 <? _ then _ else _) as [f c] eqn:E. case_bool_decide; record_simpl; rewrite lookup_insert_ne by done; (split; [done|]).
  - exists []. split; [by rewrite app_nil_r|apply names_nil].
  - eexists. split; [done|]. intros (t0 & nack & [= -> ->]%list_elem_of_singleton & Hm & _). done.
Qed.

Lemma generate_one_same {P} t (g : NackGenerator P) s l x :
  0 < g_max_nacks_per_packet g → NoDup (missing_seq_numbers l (g_skip_last_n g)) →
  Forall (fits 16) (missing_seq_numbers l (g_skip_last_n g)) → x ∈ missing_seq_numbers l (g_skip_last_n g) →
  asked (generate_one t g (s, l)) s x = asked g s x + (if asked g s x <? g_max_nacks_per_packet g then 1 else 0) ∧
  ∃ gen, g_write_queue (generate_one t g (s, l)) = g_write_queue g ++ gen ∧
    (names gen s x ↔ asked g s x < g_max_nacks_per_packet g).
Proof.
  intros Hmax Hnd Hf Hx. unfold generate_one, asked.
  set (missing := missing_seq_numbers l _) in *. set (mx := g_max_nacks_per_packet g) in *.
  rewrite bool_decide_false by (by intros E; rewrite E in Hx; apply elem_of_nil in Hx).
  rewrite (proj2 (Z.ltb_lt 0 mx)) by done. set (counts := default ∅ (g_nack_counts g !! s)).
  destruct (count_nacks mx missing counts) as [f c] eqn:E. destruct (count_nacks_spec _ _ _ _ _ Hnd E) as (H1 & H2 & _ & H4).
  case_bool_decide as Hnil; record_simpl; rewrite lookup_insert_eq; cbn [default].
  - rewrite H2 by done. split; [done|]. exists []. rewrite app_nil_r. split; [done|]. split; [by intros ?%names_nil|].
    intros Hc. assert (x ∈ f) as Hxf by (by apply H1). rewrite Hnil in Hxf. by apply elem_of_nil in Hxf.
  - cbn [Datatypes.id]. rewrite (map_lookup_filter_Some_2 _ _ _ _ (H2 x Hx)) by done. split; [done|]. eexists. split; [done|].
    rewrite names_one. { rewrite H1. tauto. }
    apply Forall_forall. intros y Hy%H4. by eapply Forall_forall in Hf.
Qed.

(** The window of a log as sequence numbers, each once. *)
Lemma missing_once sz l f E R skip :
  logged sz l f E R → 0 <= skip <= 2 ^ 15 → sz < 2 ^ 15 →
  NoDup (missing_seq_numbers l skip) ∧ Forall (fits 16) (missing_seq_numbers l skip).
Proof.
  intros Hlog Hskip Hsz. destruct (receive_log_spec sz l f E R skip Hlog Hskip Hsz) as [_ ->]. split.
  - apply NoDup_fmap_2_strong.
    + intros x y [_ Hx%elem_of_seqZ]%list_elem_of_filter [_ Hy%elem_of_seqZ]%list_elem_of_filter. apply u16_small_diff. lia.
    + apply NoDup_filter, NoDup_seqZ.
  - apply Forall_fmap, Forall_forall. intros. by apply wrap_fits.
Qed.

Lemma generate_loop_limited {P} t es (g : NackGenerator P) s l x :
  NoDup es.*1 → (s, l) ∈ es → 0 < g_max_nacks_per_packet g →
  (∀ s' l', (s', l') ∈ es → NoDup (missing_seq_numbers l' (g_skip_last_n g)) ∧ Forall (fits 16) (missing_seq_numbers l' (g_skip_last_n g))) →
  x ∈ missing_seq_numbers l (g_skip_last_n g) →
  asked (foldl (generate_one t) g es) s x = asked g s x + (if asked g s x <? g_max_nacks_per_packet g then 1 else 0) ∧
  ∃ gen, g_write_queue (foldl (generate_one t) g es) = g_write_queue g ++ gen ∧
    (names gen s x ↔ asked g s x < g_max_nacks_per_packet g).
Proof.
  assert (∀ es (g : NackGenerator P), s ∉ es.*1 →
    (∀ s' l', (s', l') ∈ es → Forall (fits 16) (missing_seq_numbers l' (g_skip_last_n g))) →
    asked (foldl (generate_one t) g es) s x = asked g s x ∧
    ∃ gen, g_write_queue (foldl (generate_one t) g es) = g_write_queue g ++ gen ∧ ¬ names gen s x) as Hskip.
  { clear. intros es. induction es as [|[s1 l1] es IH]; intros g Hs Hf.
    { split; [done|]. exists []. split; [by rewrite app_nil_r|apply names_nil]. }
    csimpl in Hs. apply not_elem_of_cons in Hs as [Hs1 Hs]. cbn [foldl].
    destruct (generate_one_other t g s1 l1 s x (not_eq_sym Hs1) (Hf s1 l1 ltac:(by left))) as [E1 (gen1 & Eq1 & Hn1)].
    destruct (generate_one_keeps t g (s1, l1)) as (_ & _ & Esk & _).
    destruct (IH (generate_one t g (s1, l1)) Hs) as [E2 (gen2 & Eq2 & Hn2)].
    { intros s' l' Hin. rewrite Esk. apply (Hf s' l'). by right. }
    split; [congruence|]. exists (gen1 ++ gen2). rewrite Eq2, Eq1, app_assoc. split; [done|]. rewrite names_app. tauto. }
  intros Hnd Hin Hmax Hf Hx. apply list_elem_of_split in Hin as (es1 & es2 & ->). rewrite foldl_app. cbn [foldl].
  rewrite fmap_app, fmap_cons in Hnd. apply NoDup_app in Hnd as (_ & Hs1 & [Hs2 _]%NoDup_cons).
  destruct (Hskip es1 g) as [E1 (gen1 & Eq1 & Hn1)].
  { intros Hs. apply (Hs1 s Hs). by left. }
  { intros s' l' Hin. apply (Hf s' l'). apply elem_of_app. by left. }
  destruct (generate_loop_keeps t es1 g) as (K1 & K2 & _ & _). set (g1 := foldl (generate_one t) g es1) in *.
  destruct (Hf s l ltac:(apply elem_of_app; right; by left)) as [Hnd1 Hf1].
  destruct (generate_one_same t g1 s l x) as [E2 (gen2 & Eq2 & Hn2)]; rewrite ?K1, ?K2; try done.
  destruct (generate_one_keeps t g1 (s, l)) as (_ & _ & K3 & _ & _ & _).
  destruct (Hskip es2 (generate_one t g1 (s, l)) Hs2) as [E3 (gen3 & Eq3 & Hn3)].
  { intros s' l' Hin. rewrite K3, K1. apply (Hf s' l'). apply elem_of_app. right. by right. }
  rewrite E1, K2 in *. split; [by rewrite E3|]. exists (gen1 ++ gen2 ++ gen3).
  rewrite Eq3, Eq2, Eq1, !app_assoc. split; [done|]. rewrite !names_app. tauto.
Qed.

(** With a limit on the requests per packet, every timeout asks again for a missing number
    exactly as long as it was asked for less than the limit, and counts the request: no number is
    asked for more often than the limit says, and none is forgotten before. *)
Theorem requests_limited {P} `{HashIter} t (g : NackGenerator P) s l x :
  0 < g_max_nacks_per_packet g → 0 <= g_skip_last_n g <= 2 ^ 15 →
  (∀ s' l', g_receive_logs g !! s' = Some l' → ∃ sz f E R, logged sz l' f E R ∧ sz < 2 ^ 15) →
  g_receive_logs g !! s = Some l → x ∈ missing_seq_numbers l (g_skip_last_n g) →
  asked (generate_nacks t g) s x = asked g s x + (if asked g s x <? g_max_nacks_per_packet g then 1 else 0) ∧
  ∃ gen, g_write_queue (generate_nacks t g) = g_write_queue g ++ gen ∧
    (names gen s x ↔ asked g s x < g_max_nacks_per_packet g).
Proof.
  intros Hmax Hskip Hlogs Hl Hx. apply (generate_loop_limited t _ g s l x); try done.
  - rewrite iter_entries. apply NoDup_fst_map_to_list.
  - rewrite iter_entries. by apply elem_of_map_to_list.
  - intros s' l'. rewrite iter_entries, elem_of_map_to_list. intros (sz & f & E & R & Hlog & Hsz)%Hlogs.
    by apply (missing_once sz l' f E R).
Qed.

Lemma requests_limited_witness :
  asked (generate_nacks 5 (sample_generator 1)) 1 11 = 1 ∧
  ∃ gen, g_write_queue (generate_nacks 5 (sample_generator 1)) = [] ++ gen ∧ (names gen 1 11 ↔ 0 < 1).
Proof.
  apply (requests_limited 5 (sample_generator 1) 1 sample_log 11).
  - cbn. lia.
  - cbn. lia.
  - intros s' l'. cbn [sample_generator g_receive_logs]. intros [<- <-]%lookup_singleton_Some. exists 64, 10, 13, [13; 10]. split; [apply sample_logged|lia].
  - reflexivity.
  - vm_compute. left.
Defined.
