(* ===== verification/MediaPath.v ===== *)
(** The way of a media packet through a peer connection: the demultiplexer
    ([rtc/src/peer_connection/handler/demuxer.rs]), the SRTP handler
    ([rtc/src/peer_connection/handler/srtp.rs]) and the predicates of
    [rtc-shared/src/util.rs] they use.

    A handler reads messages from below and hands them up ([handle_read], [poll_read]), and writes
    messages from above and hands them down ([handle_write], [poll_write]).  The messages of the
    other handlers, and the events that are only passed on, are of any type. *)

From S2P Require Import Prelude Codec Replay RtpHeader RtpPacket Rtcp RtcpReport RtcpPacket SrtpCipher Srtp Nack Interceptor NackFlow.

(** * The kinds of packets (RFC 7983) *)

Definition match_range (lower upper : Z) (buf : bytes) : bool :=
  match buf with
  | [] => false
  | b :: _ => (lower <=? b) && (b <=? upper)
  end.

Definition match_dtls (b : bytes) : bool := match_range 20 63 b.
Definition match_srtp (b : bytes) : bool := match_range 128 191 b.

Definition is_rtcp (buf : bytes) : bool :=
  if len buf <? 4 then false
  else
    let rtcp_packet_type := default 0 (buf !! 1%nat) in
    (192 <=? rtcp_packet_type) && (rtcp_packet_type <=? 223).

(** * Messages *)

Section Handlers.
Context {BC : BytesCrate} {C D : Type} `{Cipher C} `{ReplayDetector D}.
Context {DtlsPayload TrackPayload Event : Type}.

Inductive DTLSMessage := DtlsRaw (b : bytes) | DtlsOther (p : DtlsPayload).
Inductive RTPMessage := RtpRaw (b : bytes) | RtpPacketMsg (m : Message) | RtpTrack (p : TrackPayload).
Inductive RTCMessageInternal :=
| MRaw (b : bytes) | MStun (b : bytes) | MDtls (m : DTLSMessage) | MRtp (m : RTPMessage).

Record TaggedRTCMessage := mkRtc { rtc_now : Z; rtc_message : RTCMessageInternal }.

Inductive RTCEventInternal :=
| DTLSHandshakeComplete (local_srtp_context remote_srtp_context : option (Context C D))
| OtherEvent (e : Event).

(** * The demultiplexer *)

Record TransportStats := mkStats {
  packets_sent : Z; packets_received : Z; bytes_sent : Z; bytes_received : Z
}.

Definition on_packet_sent (n : Z) (s : TransportStats) : TransportStats :=
  mkStats (u64 (packets_sent s + 1)) (packets_received s) (u64 (bytes_sent s + n)) (bytes_received s).
Definition on_packet_received (n : Z) (s : TransportStats) : TransportStats :=
  mkStats (packets_sent s) (u64 (packets_received s + 1)) (bytes_sent s) (u64 (bytes_received s + n)).

Record Demuxer := mkDemuxer {
  dm_read_outs : list TaggedRTCMessage;
  dm_write_outs : list TaggedRTCMessage;
  dm_event_outs : list RTCEventInternal;
  dm_stats : TransportStats
}.

(** The handler a datagram that is not empty belongs to. *)
Definition demux (message : bytes) : RTCMessageInternal :=
  if match_dtls message then MDtls (DtlsRaw message)
  else if match_srtp message then MRtp (RtpRaw message)
  else MStun message.

Definition demuxer_handle_read (msg : TaggedRTCMessage) (d : Demuxer) : Demuxer :=
  match rtc_message msg with
  | MRaw message =>
      let stats := on_packet_received (len message) (dm_stats d) in
      match message with
      | [] => mkDemuxer (dm_read_outs d) (dm_write_outs d) (dm_event_outs d) stats
      | _ => mkDemuxer (dm_read_outs d ++ [mkRtc (rtc_now msg) (demux message)]) (dm_write_outs d) (dm_event_outs d) stats
      end
  | _ => d
  end.

Definition demuxer_handle_write (msg : TaggedRTCMessage) (d : Demuxer) : Demuxer :=
  match rtc_message msg with
  | MRaw message | MStun message | MDtls (DtlsRaw message) | MRtp (RtpRaw message) =>
      mkDemuxer (dm_read_outs d) (dm_write_outs d ++ [mkRtc (rtc_now msg) (MRaw message)]) (dm_event_outs d)
        (on_packet_sent (len message) (dm_stats d))
  | _ => d
  end.

Definition demuxer_poll_read (d : Demuxer) : option TaggedRTCMessage * Demuxer :=
  let '(m, q) := pop_front (dm_read_outs d) in (m, mkDemuxer q (dm_write_outs d) (dm_event_outs d) (dm_stats d)).
Definition demuxer_poll_write (d : Demuxer) : option TaggedRTCMessage * Demuxer :=
  let '(m, q) := pop_front (dm_write_outs d) in (m, mkDemuxer (dm_read_outs d) q (dm_event_outs d) (dm_stats d)).

(** * The SRTP handler *)

Record SrtpHandler := mkSrtpHandler {
  local_srtp_context : option (Context C D);
  remote_srtp_context : option (Context C D);
  sh_read_outs : list TaggedRTCMessage;
  sh_write_outs : list TaggedRTCMessage;
  sh_event_outs : list RTCEventInternal
}.

Definition with_remote (h : SrtpHandler) (c : Context C D) : SrtpHandler :=
  mkSrtpHandler (local_srtp_context h) (Some c) (sh_read_outs h) (sh_write_outs h) (sh_event_outs h).
Definition with_local (h : SrtpHandler) (c : Context C D) : SrtpHandler :=
  mkSrtpHandler (Some c) (remote_srtp_context h) (sh_read_outs h) (sh_write_outs h) (sh_event_outs h).
Definition push_read (m : TaggedRTCMessage) (h : SrtpHandler) : SrtpHandler :=
  mkSrtpHandler (local_srtp_context h) (remote_srtp_context h) (sh_read_outs h ++ [m]) (sh_write_outs h) (sh_event_outs h).
Definition push_write (m : TaggedRTCMessage) (h : SrtpHandler) : SrtpHandler :=
  mkSrtpHandler (local_srtp_context h) (remote_srtp_context h) (sh_read_outs h) (sh_write_outs h ++ [m]) (sh_event_outs h).

(** A method of the context a side of the connection uses; without a context it is an error. *)
Definition with_context {A} (get : SrtpHandler → option (Context C D)) (put : SrtpHandler → Context C D → SrtpHandler)
    (f : sm (Context C D) A) : sm SrtpHandler A := λ h,
  match get h with
  | Some c => let '(r, c) := f c in (r, put h c)
  | None => (Err ErrOther, h)
  end.

Definition srtp_handle_read (msg : TaggedRTCMessage) : sm SrtpHandler unit :=
  match rtc_message msg with
  | MRtp (RtpRaw message) =>
      if is_rtcp message then
        do! decrypted <- with_context remote_srtp_context with_remote (ctx_decrypt_rtcp message);
        do! rtcp_packets <- slift (rtcp_unmarshal decrypted);
        do! _ <- sguard (bool_decide (rtcp_packets = [])) ErrOther;
        smodify (push_read (mkRtc (rtc_now msg) (MRtp (RtpPacketMsg (Interceptor.Rtcp rtcp_packets)))))
      else
        do! decrypted <- with_context remote_srtp_context with_remote (ctx_decrypt_rtp message);
        do! (rtp_packet, _) <- slift (packet_unmarshal decrypted);
        smodify (push_read (mkRtc (rtc_now msg) (MRtp (RtpPacketMsg (Interceptor.Rtp rtp_packet)))))
  | _ => smodify (push_read msg)
  end.

Definition srtp_handle_write (msg : TaggedRTCMessage) : sm SrtpHandler unit :=
  match rtc_message msg with
  | MRtp message =>
      do! encrypted <-
        match message with
        | RtpPacketMsg (Interceptor.Rtcp rtcp_packets) =>
            do! _ <- sguard (bool_decide (rtcp_packets = [])) ErrOther;
            with_context local_srtp_context with_local
              (do! packet <- slift (rtcp_marshal rtcp_packets); ctx_encrypt_rtcp packet)
        | RtpPacketMsg (Interceptor.Rtp rtp_message) =>
            with_context local_srtp_context with_local
              (do! packet <- slift (marshal rtp_message); ctx_encrypt_rtp packet)
        | RtpRaw raw_packet => sret raw_packet
        | RtpTrack _ => slift (Err ErrOther)
        end;
      smodify (push_write (mkRtc (rtc_now msg) (MRtp (RtpRaw encrypted))))
  | _ => smodify (push_write msg)
  end.

Definition srtp_handle_event (evt : RTCEventInternal) (h : SrtpHandler) : SrtpHandler :=
  match evt with
  | DTLSHandshakeComplete l r =>
      mkSrtpHandler l r (sh_read_outs h) (sh_write_outs h) (sh_event_outs h ++ [DTLSHandshakeComplete None None])
  | _ => mkSrtpHandler (local_srtp_context h) (remote_srtp_context h) (sh_read_outs h) (sh_write_outs h) (sh_event_outs h ++ [evt])
  end.

Definition srtp_poll_read (h : SrtpHandler) : option TaggedRTCMessage * SrtpHandler :=
  let '(m, q) := pop_front (sh_read_outs h) in
  (m, mkSrtpHandler (local_srtp_context h) (remote_srtp_context h) q (sh_write_outs h) (sh_event_outs h)).
Definition srtp_poll_write (h : SrtpHandler) : option TaggedRTCMessage * SrtpHandler :=
  let '(m, q) := pop_front (sh_write_outs h) in
  (m, mkSrtpHandler (local_srtp_context h) (remote_srtp_context h) (sh_read_outs h) q (sh_event_outs h)).

(** * The two halves of the path

    A message written to the SRTP handler and then to the demultiplexer, down to the datagram; a
    datagram read by the demultiplexer and then by the SRTP handler, up to the message. *)

Definition send_down (m : TaggedRTCMessage) (h : SrtpHandler) (d : Demuxer) : res (option TaggedRTCMessage) * SrtpHandler * Demuxer :=
  match srtp_handle_write m h with
  | (Ok _, h) =>
      match srtp_poll_write h with
      | (Some m, h) => let '(o, d) := demuxer_poll_write (demuxer_handle_write m d) in (Ok o, h, d)
      | (None, h) => (Ok None, h, d)
      end
  | (Err e, h) => (Err e, h, d)
  | (Panic, h) => (Panic, h, d)
  end.

Definition receive_up (m : TaggedRTCMessage) (h : SrtpHandler) (d : Demuxer) : res (option TaggedRTCMessage) * SrtpHandler * Demuxer :=
  match demuxer_poll_read (demuxer_handle_read m d) with
  | (Some m, d) =>
      match srtp_handle_read m h with
      | (Ok _, h) => let '(o, h) := srtp_poll_read h in (Ok o, h, d)
      | (Err e, h) => (Err e, h, d)
      | (Panic, h) => (Panic, h, d)
      end
  | (None, d) => (Ok None, h, d)
  end.

End Handlers.

(** * First octets *)

Section Octets.
Context {BC : BytesCrate}.

Lemma octet0_range h : wf_header h → 64 * version h <= octet0 h < 64 * version h + 64.
Proof.
  intros Hwf. destruct (octet0_spec h Hwf) as ([Hlo Hhi] & Hv & _).
  change 0x3 with (Z.ones 2) in Hv. rewrite field_mod in Hv by lia. change (2 ^ 6) with 64 in Hv. change (2 ^ 2) with 4 in Hv.
  change (2 ^ 8) with 256 in Hhi. Z.div_mod_to_equations. lia.
Qed.

Lemma octet1_value h : wf_header h → octet1 h = payload_type h + if marker h then 128 else 0.
Proof.
  intros Hwf. destruct (octet1_spec h Hwf) as ([Hlo Hhi] & Hm & Hp). destruct (wf_pt h Hwf) as [Hp0 Hp1].
  change 0x7F with (Z.ones 7) in Hp. rewrite Z.land_ones in Hp by lia.
  change 0x1 with (Z.ones 1) in Hm. rewrite field_mod in Hm by lia. change (2 ^ 7) with 128 in *. change (2 ^ 1) with 2 in *.
  change (2 ^ 8) with 256 in Hhi.
  destruct (marker h); bool_facts; Z.div_mod_to_equations; lia.
Qed.

Lemma header_bytes_octets h r : wf_header h → ∃ r', header_bytes h ++ r = octet0 h :: octet1 h :: r' ∧ 10 <= len r'.
Proof.
  intros Hwf. destruct (octet0_spec h Hwf) as (H0 & _). destruct (octet1_spec h Hwf) as (H1 & _).
  unfold header_bytes, fixed_part. rewrite (put_uint_1 (octet0 h)), (put_uint_1 (octet1 h)) by done. cbn [app]. eexists. split; [done|].
  rewrite !len_app. autorewrite with len. pose proof (len_nonneg (concat (put_uint 4 <$> csrc h))). pose proof (len_nonneg r).
  destruct (extension h); pose proof (len_nonneg (ext_block h)); rewrite ?len_nil; lia.
Qed.

(** An RTP packet of version 2 is never taken for DTLS or STUN, and for RTCP only when its marker
    bit and payload type make up an RTCP packet type. *)
Lemma rtp_demuxed {DP TP} h r :
  wf_header h → version h = 2 →
  demux (DtlsPayload := DP) (TrackPayload := TP) (header_bytes h ++ r) = MRtp (RtpRaw (header_bytes h ++ r)) ∧
  is_rtcp (header_bytes h ++ r) = marker h && (64 <=? payload_type h) && (payload_type h <=? 95).
Proof.
  intros Hwf Hv. pose proof (octet0_range h Hwf) as H0. pose proof (octet1_value h Hwf) as H1. destruct (wf_pt h Hwf).
  destruct (header_bytes_octets h r Hwf) as (r' & -> & Hr'). rewrite Hv in H0. split.
  - unfold demux, match_dtls, match_srtp, match_range. rewrite (proj2 (Z.leb_gt (octet0 h) 63)) by lia. rewrite andb_false_r.
    by rewrite (proj2 (Z.leb_le 128 _)), (proj2 (Z.leb_le _ 191)) by lia.
  - unfold is_rtcp. rewrite !len_cons, (proj2 (Z.ltb_ge _ 4)) by lia. cbn [lookup list_lookup default Datatypes.id]. rewrite H1.
    destruct (marker h); cbn [andb]; [|apply andb_false_iff; left; apply Z.leb_gt; lia].
    by f_equal; apply eq_true_iff_eq; rewrite !Z.leb_le; lia.
Qed.

Lemma rtcp_demuxed {DP TP} p ps body :
  Forall any_wf (p :: ps) → packet_type (any_header p) ≠ Unsupported → 8 <= len (concat (any_bytes <$> p :: ps)) →
  let e := take 8 (concat (any_bytes <$> p :: ps)) ++ body in
  e ≠ [] ∧ demux (DtlsPayload := DP) (TrackPayload := TP) e = MRtp (RtpRaw e) ∧ is_rtcp e = true.
Proof.
  intros [Hp _]%Forall_cons Ht H8. destruct (any_framed p Hp) as (b & E & _ & Hc & _).
  destruct (rtcp_octet0_spec _ Hc) as ([Hlo Hhi] & Hv & _). unfold VERSION_SHIFT, VERSION_MASK, RTP_VERSION in Hv.
  change 3 with (Z.ones 2) in Hv. rewrite field_mod in Hv by lia. change (2 ^ 6) with 64 in Hv. change (2 ^ 2) with 4 in Hv. change (2 ^ 8) with 256 in Hhi.
  assert (128 <= rtcp_octet0 (any_header p) <= 191) as Hr by (Z.div_mod_to_equations; lia).
  assert (200 <= packet_type_u8 (packet_type (any_header p)) <= 207) as Hty by (destruct (packet_type (any_header p)); cbn; [done|lia..]).
  assert (∃ r, take 8 (concat (any_bytes <$> p :: ps)) ++ body = rtcp_octet0 (any_header p) :: packet_type_u8 (packet_type (any_header p)) :: r ∧ 6 <= len r) as (r & Er & Hlr).
  { revert H8. rewrite fmap_cons. cbn [concat]. rewrite E. unfold rtcp_header_bytes.
    rewrite (put_uint_1 (rtcp_octet0 _)), (put_uint_1 (packet_type_u8 _)) by (unfold fits; lia). cbn [app take]. intros H8. eexists. split; [done|].
    rewrite !len_cons in H8. rewrite len_app, len_take. pose proof (len_nonneg body). lia. }
  cbv zeta. rewrite Er. split_and!; [done| |].
  - unfold demux, match_dtls, match_srtp, match_range. rewrite (proj2 (Z.leb_gt (rtcp_octet0 (any_header p)) 63)) by lia. rewrite andb_false_r.
    by rewrite (proj2 (Z.leb_le 128 _)), (proj2 (Z.leb_le _ 191)) by lia.
  - unfold is_rtcp. rewrite !len_cons, (proj2 (Z.ltb_ge _ 4)) by lia. cbn [lookup list_lookup default Datatypes.id].
    by rewrite (proj2 (Z.leb_le 192 _)), (proj2 (Z.leb_le _ 223)) by lia.
Qed.

End Octets.

Section Transfer.
Context {BC : BytesCrate} {C D : Type} {cok : C → Prop} {dinv : D → Prop}.
Context `{CL : CipherLaws C cok} `{DL : DetectorLaws D dinv}.
Context {DP TP Event : Type}.
#[local] Abbreviation handler := (@SrtpHandler C D DP TP Event).
#[local] Abbreviation demuxer := (@Demuxer C D DP TP Event).

Lemma demuxer_reads (d : demuxer) t e :
  e ≠ [] → dm_read_outs d = [] →
  ∃ d', demuxer_poll_read (demuxer_handle_read (mkRtc t (MRaw e)) d) = (Some (mkRtc t (demux e)), d') ∧ dm_read_outs d' = [].
Proof.
  intros He Hd. unfold demuxer_handle_read, demuxer_poll_read. cbn [rtc_message rtc_now].
  destruct e as [|b e]; [done|]. cbn -[demux]. rewrite Hd. cbn -[demux]. eauto.
Qed.

(** C16: a media packet goes through: an RTP packet of version 2, written to the SRTP handler and
    the demultiplexer of one peer and carried as a datagram, is recognised by the demultiplexer
    of the other and handed up by its SRTP handler as the packet that was sent.  The two contexts
    agree on the packet's index; the payload type is not one that the marker bit turns into an
    RTCP type. *)
Theorem media_packet_transfer (hs hr : handler) (ds dr : demuxer) (cs cr : Context C D) (p : RtpPacket.Packet) (i : Z) (d : D) (t t' : Z) :
  local_srtp_context hs = Some cs → remote_srtp_context hr = Some cr → cok (cipher cs) → cipher cr = cipher cs →
  sh_write_outs hs = [] → dm_write_outs ds = [] → sh_read_outs hr = [] → dm_read_outs dr = [] →
  wf_header (RtpPacket.header p) → version (RtpPacket.header p) = 2 → packet_ok (packet_bytes p) →
  marker (RtpPacket.header p) && (64 <=? payload_type (RtpPacket.header p)) && (payload_type (RtpPacket.header p) <=? 95) = false →
  fits 48 i → RtpHeader.sequence_number (RtpPacket.header p) = u16 i →
  Srtp.tracks (srtp_state cs (RtpHeader.ssrc (RtpPacket.header p))) i →
  Srtp.tracks (srtp_state cr (RtpHeader.ssrc (RtpPacket.header p))) i →
  st_detector (srtp_state cr (RtpHeader.ssrc (RtpPacket.header p))) = Some d → dinv d → fst (rd_check d (u16 i)) = true →
  let msg := MRtp (RtpPacketMsg (Interceptor.Rtp p)) in
  ∃ e hs' ds' hr' dr',
    send_down (mkRtc t msg) hs ds = (Ok (Some (mkRtc t (MRaw e))), hs', ds') ∧
    receive_up (mkRtc t' (MRaw e)) hr dr = (Ok (Some (mkRtc t' msg)), hr', dr') ∧
    sh_write_outs hs' = [] ∧ dm_write_outs ds' = [] ∧ sh_read_outs hr' = [] ∧ dm_read_outs dr' = [].
Proof.
  intros Hl Hr Hok Ecr Eq1 Eq2 Eq3 Eq4 Hwf Hv Hp Hm Hi Hseq Hts Htr Ed Hd Hfresh msg.
  destruct (srtp_transfer cs cr p (packet_bytes p) i d) as (body & cs' & cr' & He & Hd' & Hu & _); try done.
  { by apply packet_marshal_bytes. }
  cbv zeta in He, Hd'. destruct (rtp_demuxed (DP := DP) (TP := TP) (RtpPacket.header p) body Hwf Hv) as [Hdm Hrt]. rewrite Hm in Hrt.
  destruct (header_bytes_octets (RtpPacket.header p) body Hwf) as (r' & Er' & _).
  set (e := header_bytes (RtpPacket.header p) ++ body) in *. exists e.
  assert (e ≠ []) as Hne by (by rewrite Er').
  destruct (demuxer_reads dr t' e Hne Eq4) as (dr' & Edr & Eq5).
  eexists _, _, _, dr'. split; [|split].
  - unfold send_down, srtp_handle_write, sbind, slift, with_context. cbn [rtc_message msg]. rewrite Hl.
    rewrite (packet_marshal_bytes p Hwf), He. unfold smodify, push_write, srtp_poll_write. cbn. rewrite Eq1. cbn.
    unfold demuxer_poll_write, demuxer_handle_write. cbn. rewrite Eq2. reflexivity.
  - unfold receive_up. rewrite Edr, Hdm. unfold srtp_handle_read, sbind, slift, with_context. cbn [rtc_message].
    rewrite Hrt, Hr, Hd', Hu. unfold smodify, push_read, srtp_poll_read. cbn. rewrite Eq3. reflexivity.
  - by split_and!.
Qed.

(** A control datagram goes through: well-formed RTCP packets written to the SRTP handler of
    one peer are handed up by the other as the packets that were sent, in order; the
    demultiplexer gives them to SRTP and the SRTP handler takes them for RTCP. *)
Theorem control_packets_transfer (hs hr : handler) (ds dr : demuxer) (cs cr : Context C D) (p : any_packet) (ps : list any_packet)
    (x : Z) (d : D) (t t' : Z) :
  let plain := concat (any_bytes <$> p :: ps) in
  local_srtp_context hs = Some cs → remote_srtp_context hr = Some cr → cok (cipher cs) → cipher cr = cipher cs →
  sh_write_outs hs = [] → dm_write_outs ds = [] → sh_read_outs hr = [] → dm_read_outs dr = [] →
  Forall any_wf (p :: ps) → packet_type (any_header p) ≠ Unsupported → packet_ok plain → 8 <= len plain → ssrc_at_4 plain = Ok x →
  0 <= srtcp_index (srtcp_state cs x) <= MAX_SRTCP_INDEX →
  rst_detector (srtcp_state cr x) = Some d → dinv d →
  fst (rd_check d ((srtcp_index (srtcp_state cs x) + 1) mod 2 ^ 31)) = true →
  let msg := MRtp (RtpPacketMsg (Interceptor.Rtcp (p :: ps))) in
  ∃ e hs' ds' hr' dr',
    send_down (mkRtc t msg) hs ds = (Ok (Some (mkRtc t (MRaw e))), hs', ds') ∧
    receive_up (mkRtc t' (MRaw e)) hr dr = (Ok (Some (mkRtc t' msg)), hr', dr').
Proof.
  intros plain Hl Hr Hok Ecr Eq1 Eq2 Eq3 Eq4 Hwf Ht Hp H8 Hx Hidx Ed Hd Hfresh msg.
  assert (∃ h r, rtcp_header_unmarshal plain = Ok (h, r)) as (h & r & Hh).
  { pose proof Hwf as [Hp0 _]%Forall_cons. destruct (any_framed p Hp0) as (b & E & _ & Hc & Hlen). subst plain. csimpl. rewrite E, <-app_assoc.
    eexists _, _. by apply rtcp_header_read. }
  destruct (srtcp_transfer cs cr plain h r x d) as (body & cs' & cr' & He & Hd' & _); try done.
  cbv zeta in He, Hd'. destruct (rtcp_demuxed (DP := DP) (TP := TP) p ps body Hwf Ht H8) as (Hne & Hdm & Hrt).
  fold plain in Hne, Hdm, Hrt. set (e := take 8 plain ++ body) in *.
  destruct (demuxer_reads dr t' e Hne Eq4) as (dr' & Edr & _). exists e. eexists _, _, _, dr'. split.
  - unfold send_down, srtp_handle_write, sbind, slift, sguard, with_context. cbn [rtc_message msg]. rewrite bool_decide_false by done. rewrite Hl.
    rewrite (rtcp_marshal_app _ Hwf). fold plain. rewrite He. unfold smodify, push_write, srtp_poll_write. cbn. rewrite Eq1. cbn.
    unfold demuxer_poll_write, demuxer_handle_write. cbn. rewrite Eq2. reflexivity.
  - unfold receive_up. rewrite Edr, Hdm. unfold srtp_handle_read, sbind, slift, sguard, with_context. cbn [rtc_message].
    rewrite Hrt, Hr, Hd'. subst plain. rewrite (rtcp_unmarshal_app _ Hwf) by done. rewrite bool_decide_false by done.
    unfold smodify, push_read, srtp_poll_read. cbn. rewrite Eq3. reflexivity.
Qed.

(** A retransmission of RFC 4588, as the NACK responder builds it, has RTP version 0: the
    demultiplexer of the other peer takes it for STUN. *)
Lemma rtx_taken_for_stun (st : LocalStream) (p : RtpPacket.Packet) s pt (body : bytes) :
  ssrc_rtx st = Some s → payload_type_rtx st = Some pt →
  let h := RtpPacket.header (retransmission st p).1 in
  demux (DtlsPayload := DP) (TrackPayload := TP) (header_bytes h ++ body) = MStun (header_bytes h ++ body).
Proof.
  intros Hs Hpt. unfold retransmission. rewrite Hs, Hpt. cbn zeta.
  unfold header_bytes, fixed_part. cbn [fst RtpPacket.header]. unfold demux, match_dtls, match_srtp, match_range.
  change (octet0 _) with 0. rewrite (put_uint_1 0) by (unfold fits; lia). done.
Qed.

End Transfer.

(** ** The theorems at concrete values *)

Import BigEndian ToyCrypto.

Definition sample_handler : @SrtpHandler AnyCipher AnyDetector unit unit unit :=
  mkSrtpHandler (Some sample_context) (Some sample_context) [] [] [].
Definition sample_demuxer : @Demuxer AnyCipher AnyDetector unit unit unit :=
  mkDemuxer [] [] [] (mkStats 0 0 0 0).

Lemma media_packet_transfer_witness :
  let msg := MRtp (RtpPacketMsg (Interceptor.Rtp sample_rtp)) in
  ∃ e hs' ds' hr' dr',
    send_down (mkRtc 1 msg) sample_handler sample_demuxer = (Ok (Some (mkRtc 1 (MRaw e))), hs', ds') ∧
    receive_up (mkRtc 2 (MRaw e)) sample_handler sample_demuxer = (Ok (Some (mkRtc 2 msg)), hr', dr') ∧
    sh_write_outs hs' = [] ∧ dm_write_outs ds' = [] ∧ sh_read_outs hr' = [] ∧ dm_read_outs dr' = [].
Proof.
  apply (media_packet_transfer (cok := any_ok) (dinv := any_inv) sample_handler sample_handler sample_demuxer sample_demuxer
    sample_context sample_context sample_rtp 7 (srtp_replay_protection 64) 1 2); try reflexivity.
  - apply sample_gcm_ok.
  - split; simpl; concrete.
  - split; [vm_compute; repeat constructor; concrete|vm_compute; reflexivity].
  - concrete.
  - apply sample_tracks.
  - apply sample_tracks.
  - apply sample_detector_inv.
Defined.

Definition sample_control : any_packet := PRr (mkReceiverReport 9 [] []).

Lemma control_packets_transfer_witness :
  let msg := MRtp (RtpPacketMsg (Interceptor.Rtcp [sample_control])) in
  ∃ e hs' ds' hr' dr',
    send_down (mkRtc 1 msg) sample_handler sample_demuxer = (Ok (Some (mkRtc 1 (MRaw e))), hs', ds') ∧
    receive_up (mkRtc 2 (MRaw e)) sample_handler sample_demuxer = (Ok (Some (mkRtc 2 msg)), hr', dr').
Proof.
  apply (control_packets_transfer (cok := any_ok) (dinv := any_inv) sample_handler sample_handler sample_demuxer sample_demuxer
    sample_context sample_context sample_control [] 9 (srtcp_replay_protection 64) 1 2); try reflexivity.
  - apply sample_gcm_ok.
  - apply Forall_singleton. split_and!; [split_and!; concrete|done|vm_compute; discriminate].
  - discriminate.
  - split; [vm_compute; repeat constructor; concrete|vm_compute; reflexivity].
  - vm_compute. intuition congruence.
  - apply sample_detector_inv.
Defined.
