(* ===== verification/TwccMap.v ===== *)
(** The arrival times of packets, [rtc-interceptor/src/twcc/arrival_time_map.rs]: a circular buffer
    that is indexed by the low bits of an unwrapped sequence number and grows and shrinks by powers
    of two.

    [arrival m n] is the time the map [m] holds for packet [n], or -1.  Each operation is described
    by what it does to this function ([add_packet_spec], [remove_old_packets_spec],
    [find_next_spec]), whatever the buffer is. *)

From S2P Require Import Prelude Codec.

Definition MIN_CAPACITY : Z := 128.
Definition MAX_NUMBER_OF_PACKETS : Z := 32768.

Record PacketArrivalTimeMap := mkMap {
  arrival_times : list Z;
  begin_sequence_number : Z;
  end_sequence_number : Z
}.

Definition map_new : PacketArrivalTimeMap := mkMap [] 0 0.

Definition capacity (m : PacketArrivalTimeMap) : Z := len (arrival_times m).

(** [sn & (capacity - 1)] *)
Definition slot (cap sn : Z) : Z := Z.land sn (cap - 1).
Definition map_index (m : PacketArrivalTimeMap) (sn : Z) : Z := slot (capacity m) sn.

(** [buf[i] = t], which panics out of range *)
Definition write_at (buf : list Z) (i t : Z) : res (list Z) :=
  if (0 <=? i) && (i <? len buf) then Ok (<[Z.to_nat i := t]> buf) else Panic.

Definition store_arrival (sn t : Z) (m : PacketArrivalTimeMap) : res PacketArrivalTimeMap :=
  let! buf := write_at (arrival_times m) (map_index m sn) t in
  Ok (mkMap buf (begin_sequence_number m) (end_sequence_number m)).

Definition map_get (m : PacketArrivalTimeMap) (sn : Z) : res Z :=
  if (sn <? begin_sequence_number m) || (end_sequence_number m <=? sn) then Ok (-1)
  else index (arrival_times m) (map_index m sn).

(** The loop of [reallocate] over [begin_sequence_number..end_sequence_number] *)
Fixpoint copy_loop (m : PacketArrivalTimeMap) (new_capacity : Z) (l : list Z) (buf : list Z) : res (list Z) :=
  match l with
  | [] => Ok buf
  | sn :: l =>
      let! t := map_get m sn in
      let! buf := write_at buf (slot new_capacity sn) t in
      copy_loop m new_capacity l buf
  end.

Definition reallocate (new_capacity : Z) (m : PacketArrivalTimeMap) : res PacketArrivalTimeMap :=
  let! buf := copy_loop m new_capacity (seqZ (begin_sequence_number m) (end_sequence_number m - begin_sequence_number m))
                (replicate (Z.to_nat new_capacity) (-1)) in
  Ok (mkMap buf (begin_sequence_number m) (end_sequence_number m)).

Fixpoint grow_loop (fuel : nat) (new_capacity new_size : Z) : res Z :=
  if new_capacity <? new_size then
    match fuel with O => Panic | S fuel => grow_loop fuel (new_capacity * 2) new_size end
  else Ok new_capacity.

Fixpoint shrink_loop (fuel : nat) (new_capacity new_size : Z) : res Z :=
  if 2 * Z.max new_size MIN_CAPACITY <=? new_capacity then
    match fuel with O => Panic | S fuel => shrink_loop fuel (new_capacity / 2) new_size end
  else Ok new_capacity.

Definition adjust_to_size (new_size : Z) (m : PacketArrivalTimeMap) : res PacketArrivalTimeMap :=
  let! m :=
    if capacity m <? new_size then
      let! c := grow_loop (Z.to_nat new_size) (capacity m) new_size in reallocate c m
    else Ok m in
  if Z.max MIN_CAPACITY (new_size * 4) <? capacity m then
    let! c := shrink_loop (Z.to_nat (capacity m)) (capacity m) new_size in reallocate c m
  else Ok m.

Fixpoint store_all (l : list Z) (m : PacketArrivalTimeMap) : res PacketArrivalTimeMap :=
  match l with
  | [] => Ok m
  | sn :: l => let! m := store_arrival sn (-1) m in store_all l m
  end.

Definition set_not_received (start_inclusive end_exclusive : Z) : PacketArrivalTimeMap → res PacketArrivalTimeMap :=
  store_all (seqZ start_inclusive (end_exclusive - start_inclusive)).

Definition with_range (b e : Z) (m : PacketArrivalTimeMap) : PacketArrivalTimeMap := mkMap (arrival_times m) b e.

Definition add_packet (sequence_number arrival_time : Z) (m : PacketArrivalTimeMap) : res PacketArrivalTimeMap :=
  let b := begin_sequence_number m in
  let e := end_sequence_number m in
  if bool_decide (arrival_times m = []) then
    let! m := reallocate MIN_CAPACITY m in
    store_arrival sequence_number arrival_time (with_range sequence_number (sequence_number + 1) m)
  else if (b <=? sequence_number) && (sequence_number <? e) then store_arrival sequence_number arrival_time m
  else if sequence_number <? b then
    let new_size := e - sequence_number in
    if MAX_NUMBER_OF_PACKETS <? new_size then Ok m
    else
      let! m := adjust_to_size new_size m in
      let! m := store_arrival sequence_number arrival_time m in
      let! m := set_not_received (sequence_number + 1) b m in
      Ok (with_range sequence_number (end_sequence_number m) m)
  else
    let new_end := sequence_number + 1 in
    if e + MAX_NUMBER_OF_PACKETS <=? new_end then
      store_arrival sequence_number arrival_time (with_range sequence_number new_end m)
    else
      let m := if b <? new_end - MAX_NUMBER_OF_PACKETS then with_range (new_end - MAX_NUMBER_OF_PACKETS) e m else m in
      let! m := adjust_to_size (new_end - begin_sequence_number m) m in
      let! m := set_not_received e sequence_number m in
      store_arrival sequence_number arrival_time (with_range (begin_sequence_number m) new_end m).

Definition clamp (m : PacketArrivalTimeMap) (sn : Z) : Z := Z.min (Z.max sn (begin_sequence_number m)) (end_sequence_number m).

Fixpoint find_loop (fuel : nat) (m : PacketArrivalTimeMap) (seq : Z) : res (option (Z * Z)) :=
  if seq <? end_sequence_number m then
    match fuel with
    | O => Panic
    | S fuel =>
        let! t := map_get m seq in
        if 0 <=? t then Ok (Some (seq, t)) else find_loop fuel m (seq + 1)
    end
  else Ok None.

Definition find_next_at_or_after (m : PacketArrivalTimeMap) (sn : Z) : res (option (Z * Z)) :=
  find_loop (Z.to_nat (end_sequence_number m - begin_sequence_number m)) m (clamp m sn).

Definition erase_to (sn : Z) (m : PacketArrivalTimeMap) : res PacketArrivalTimeMap :=
  if sn <? begin_sequence_number m then Ok m
  else if end_sequence_number m <=? sn then Ok (with_range (end_sequence_number m) (end_sequence_number m) m)
  else
    let m := with_range sn (end_sequence_number m) m in
    adjust_to_size (end_sequence_number m - begin_sequence_number m) m.

Fixpoint remove_loop (fuel : nat) (check_to limit : Z) (m : PacketArrivalTimeMap) : res PacketArrivalTimeMap :=
  if begin_sequence_number m <? check_to then
    let! t := map_get m (begin_sequence_number m) in
    if t <=? limit then
      match fuel with
      | O => Panic
      | S fuel => remove_loop fuel check_to limit (with_range (begin_sequence_number m + 1) (end_sequence_number m) m)
      end
    else Ok m
  else Ok m.

Definition remove_old_packets (sn limit : Z) (m : PacketArrivalTimeMap) : res PacketArrivalTimeMap :=
  let check_to := Z.min sn (end_sequence_number m) in
  let! m := remove_loop (Z.to_nat (check_to - begin_sequence_number m)) check_to limit m in
  adjust_to_size (end_sequence_number m - begin_sequence_number m) m.

Definition has_received (m : PacketArrivalTimeMap) (sn : Z) : res bool :=
  let! t := map_get m sn in Ok (0 <=? t).

(** * The invariant *)

(** The capacity is a power of two and the range fits. *)
Record map_shape (k : Z) (m : PacketArrivalTimeMap) : Prop := {
  shape_k : 7 <= k <= 15;
  shape_len : len (arrival_times m) = 2 ^ k;
  shape_range : begin_sequence_number m <= end_sequence_number m;
  shape_size : end_sequence_number m - begin_sequence_number m <= 2 ^ k
}.

Definition map_ok (m : PacketArrivalTimeMap) : Prop := m = map_new ∨ ∃ k, map_shape k m.

(** What the map says of a packet *)
Definition arrival (m : PacketArrivalTimeMap) (sn : Z) : Z := match map_get m sn with Ok t => t | _ => -1 end.

Lemma slot_eq_mod k sn : 0 <= k → slot (2 ^ k) sn = sn mod 2 ^ k.
Proof. intros Hk. unfold slot. rewrite <- Z.land_ones, Z.ones_equiv by done. done. Qed.

(** The content of a buffer at the place of a number *)
Definition cell (k : Z) (buf : list Z) (sn : Z) : Z := buf !!! Z.to_nat (sn mod 2 ^ k).

Lemma place_in k (buf : list Z) sn : 0 <= k → len buf = 2 ^ k → (Z.to_nat (sn mod 2 ^ k) < length buf)%nat.
Proof. intros Hk Hl. pose proof (Z.mod_pos_bound sn (2 ^ k) ltac:(lia)). unfold len in Hl. lia. Qed.

Lemma index_cell k (buf : list Z) sn : 0 <= k → len buf = 2 ^ k → index buf (slot (2 ^ k) sn) = Ok (cell k buf sn).
Proof.
  intros Hk Hl. rewrite slot_eq_mod by done. unfold index, cell. pose proof (Z.mod_pos_bound sn (2 ^ k) ltac:(lia)).
  rewrite (proj2 (Z.ltb_ge _ _)) by lia. by rewrite (list_lookup_lookup_total_lt _ _ (place_in k buf sn Hk Hl)).
Qed.

Lemma write_cell k buf sn t :
  0 <= k → len buf = 2 ^ k →
  ∃ buf', write_at buf (slot (2 ^ k) sn) t = Ok buf' ∧ len buf' = 2 ^ k ∧
  ∀ n, cell k buf' n = if decide (n mod 2 ^ k = sn mod 2 ^ k) then t else cell k buf n.
Proof.
  intros Hk Hl. rewrite slot_eq_mod by done. unfold write_at. pose proof (Z.mod_pos_bound sn (2 ^ k) ltac:(lia)).
  rewrite (proj2 (Z.leb_le _ _)), (proj2 (Z.ltb_lt _ _)) by lia. cbn [andb]. eexists. split; [done|].
  split; [unfold len in *; by rewrite length_insert|]. intros n. unfold cell. case_decide as E.
  - rewrite E. apply list_lookup_total_insert_eq. by apply place_in.
  - apply list_lookup_total_insert_ne. pose proof (Z.mod_pos_bound n (2 ^ k) ltac:(lia)). lia.
Qed.

(** Numbers closer than the capacity have places of their own. *)
Lemma same_place k n n' : 0 <= k → n mod 2 ^ k = n' mod 2 ^ k → Z.abs (n - n') < 2 ^ k → n = n'.
Proof.
  intros Hk E Ha. assert ((n - n') mod 2 ^ k = 0) as Hm by (rewrite Zminus_mod, E, Z.sub_diag; apply Z.mod_0_l; lia).
  apply Z.mod_divide in Hm as [q Hq]; [|lia]. assert (q = 0) by nia. lia.
Qed.

Lemma far_place k n n' : 0 <= k → n ≠ n' → Z.abs (n - n') < 2 ^ k → n mod 2 ^ k ≠ n' mod 2 ^ k.
Proof. intros Hk Hn Ha E. by apply Hn, (same_place k). Qed.

Lemma shape_cell k m sn :
  map_shape k m → map_get m sn = Ok (if decide (begin_sequence_number m <= sn < end_sequence_number m) then cell k (arrival_times m) sn else -1).
Proof.
  intros []. unfold map_get. case_decide.
  - rewrite (proj2 (Z.ltb_ge _ _)), (proj2 (Z.leb_gt _ _)) by lia. cbn [orb]. unfold map_index, capacity. rewrite shape_len0. apply index_cell; [lia|done].
  - destruct (Z.ltb_spec sn (begin_sequence_number m)); [done|]. by rewrite (proj2 (Z.leb_le _ _)) by lia.
Qed.

Lemma get_ok m sn : map_ok m → map_get m sn = Ok (arrival m sn).
Proof.
  intros [->|[k Hk]]; unfold arrival.
  - unfold map_get. cbn [begin_sequence_number end_sequence_number map_new]. destruct (Z.ltb_spec sn 0); [done|]. by rewrite (proj2 (Z.leb_le _ _)).
  - by rewrite (shape_cell k m sn Hk).
Qed.

Lemma arrival_cell k m sn :
  map_shape k m → arrival m sn = if decide (begin_sequence_number m <= sn < end_sequence_number m) then cell k (arrival_times m) sn else -1.
Proof. intros Hm. unfold arrival. by rewrite (shape_cell k m sn Hm). Qed.

Lemma arrival_outside m sn : map_ok m → ¬ (begin_sequence_number m <= sn < end_sequence_number m) → arrival m sn = -1.
Proof. intros Hm Ho. unfold arrival, map_get. destruct (Z.ltb_spec sn (begin_sequence_number m)); [done|]. by rewrite (proj2 (Z.leb_le _ _)) by lia. Qed.

(** A buffer with the same cells over the range is the same map. *)
Definition same_arrivals (m m' : PacketArrivalTimeMap) : Prop :=
  begin_sequence_number m' = begin_sequence_number m ∧ end_sequence_number m' = end_sequence_number m ∧ ∀ n, arrival m' n = arrival m n.

(** ** The size of the buffer *)

Lemma copy_loop_spec k m l buf :
  map_ok m → 0 <= k → len buf = 2 ^ k → NoDup l → (∀ x y, x ∈ l → y ∈ l → Z.abs (x - y) < 2 ^ k) →
  ∃ buf', copy_loop m (2 ^ k) l buf = Ok buf' ∧ len buf' = 2 ^ k ∧
  ∀ n, (∀ x, x ∈ l → n mod 2 ^ k = x mod 2 ^ k → n = x) → cell k buf' n = if decide (n ∈ l) then arrival m n else cell k buf n.
Proof.
  intros Hm Hk. revert buf. induction l as [|sn l IH]; intros buf Hl Hd Hc; cbn [copy_loop].
  { eexists. split_and!; [done..|]. intros n _. by rewrite decide_False by set_solver. }
  apply NoDup_cons in Hd as [Hn Hd]. rewrite (get_ok m sn Hm). cbn [rbind].
  destruct (write_cell k buf sn (arrival m sn) Hk Hl) as (b1 & E1 & L1 & C1). rewrite E1. cbn [rbind].
  destruct (IH b1 L1 Hd) as (b2 & E2 & L2 & C2); [set_solver|]. exists b2. split_and!; [done..|]. intros n Hx.
  rewrite C2 by set_solver. rewrite C1. destruct (decide (n ∈ l)) as [Hin|Hin]; [by rewrite decide_True by set_solver|].
  destruct (decide (n mod 2 ^ k = sn mod 2 ^ k)) as [E|E].
  - apply Hx in E as ->; [|left]. by rewrite decide_True by set_solver.
  - rewrite decide_False; [done|]. intros [->|?]%elem_of_cons; done.
Qed.

Lemma reallocate_spec k m :
  map_ok m → 7 <= k <= 15 → begin_sequence_number m <= end_sequence_number m → end_sequence_number m - begin_sequence_number m <= 2 ^ k →
  ∃ m', reallocate (2 ^ k) m = Ok m' ∧ map_shape k m' ∧ same_arrivals m m'.
Proof.
  intros Hm Hk Hr Hs. unfold reallocate.
  destruct (copy_loop_spec k m (seqZ (begin_sequence_number m) (end_sequence_number m - begin_sequence_number m)) (replicate (Z.to_nat (2 ^ k)) (-1)) Hm)
    as (buf & E & L & C); [lia|unfold len; rewrite length_replicate; lia|apply NoDup_seqZ| |].
  { intros x y Hx%elem_of_seqZ Hy%elem_of_seqZ. lia. }
  rewrite E. cbn [rbind]. eexists. split; [reflexivity|].
  assert (map_shape k (mkMap buf (begin_sequence_number m) (end_sequence_number m))) as Hm' by (split; done).
  split; [done|]. split_and!; [done..|]. intros n. rewrite (arrival_cell k _ n Hm'). cbn [begin_sequence_number end_sequence_number arrival_times].
  case_decide as Hn; [|symmetry; by apply arrival_outside]. rewrite C.
  - rewrite decide_True; [done|]. apply elem_of_seqZ. lia.
  - intros x Hx%elem_of_seqZ Ex. apply (same_place k); [lia|done|lia].
Qed.

Lemma pow_le_15 k : 0 <= k → 2 ^ k <= 2 ^ 15 → k <= 15.
Proof. intros Hk H. destruct (Z.le_gt_cases k 15); [done|]. assert (2 ^ 15 < 2 ^ k) by (apply Z.pow_lt_mono_r; lia). lia. Qed.

Lemma grow_loop_spec fuel k size :
  0 <= k → size <= 2 ^ 15 → 2 ^ k <= 2 ^ 15 → size - 2 ^ k <= Z.of_nat fuel →
  ∃ k', grow_loop fuel (2 ^ k) size = Ok (2 ^ k') ∧ k <= k' ∧ size <= 2 ^ k' ∧ 2 ^ k' <= 2 ^ 15.
Proof.
  revert k. induction fuel as [|fuel IH]; intros k Hk Hsz Hp Hf; cbn [grow_loop]; destruct (Z.ltb_spec (2 ^ k) size); try lia.
  - exists k. split_and!; (done || lia).
  - replace (2 ^ k * 2) with (2 ^ (k + 1)) by (rewrite Z.pow_add_r by lia; lia).
    assert (k + 1 <= 15). { destruct (Z.le_gt_cases (k + 1) 15); [done|]. assert (2 ^ 15 <= 2 ^ k) by (apply Z.pow_le_mono_r; lia). lia. }
    destruct (IH (k + 1)) as (k' & E & H1 & H2 & H3).
    + lia.
    + done.
    + apply Z.pow_le_mono_r; lia.
    + rewrite Z.pow_add_r by lia. assert (0 < 2 ^ k) by lia. lia.
    + exists k'. split_and!; (done || lia).
  - exists k. split_and!; (done || lia).
Qed.

Lemma shrink_loop_spec fuel k size :
  7 <= k → size <= 2 ^ k → 2 ^ k <= Z.of_nat fuel →
  ∃ k', shrink_loop fuel (2 ^ k) size = Ok (2 ^ k') ∧ 7 <= k' <= k ∧ size <= 2 ^ k'.
Proof.
  unfold shrink_loop, MIN_CAPACITY. fold shrink_loop. revert k. induction fuel as [|fuel IH]; intros k Hk Hsz Hf; [lia|]. cbn [shrink_loop]. unfold MIN_CAPACITY.
  destruct (Z.leb_spec (2 * Z.max size 128) (2 ^ k)) as [Hle|]; [|exists k; split_and!; (done || lia)].
  assert (2 ^ k = 2 ^ (k - 1) * 2) as E by (replace k with (k - 1 + 1) at 1 by lia; rewrite Z.pow_add_r by lia; lia).
  rewrite E, Z.div_mul by lia. assert (7 <= k - 1).
  { destruct (Z.le_gt_cases 7 (k - 1)); [done|]. assert (2 ^ (k - 1) <= 2 ^ 6) by (apply Z.pow_le_mono_r; lia). lia. }
  destruct (IH (k - 1)) as (k' & E' & H1 & H2); [done|lia|lia|]. exists k'. split_and!; (done || lia).
Qed.

Lemma same_refl m : same_arrivals m m.
Proof. done. Qed.

Lemma same_trans m1 m2 m3 : same_arrivals m1 m2 → same_arrivals m2 m3 → same_arrivals m1 m3.
Proof. intros (E1 & E2 & E3) (F1 & F2 & F3). split_and!; [congruence..|]. intros n. by rewrite F3. Qed.

Lemma adjust_spec k m size :
  map_shape k m → end_sequence_number m - begin_sequence_number m <= size <= 2 ^ 15 →
  ∃ k' m', adjust_to_size size m = Ok m' ∧ map_shape k' m' ∧ size <= 2 ^ k' ∧ same_arrivals m m'.
Proof.
  intros Hm [Hs Hmax]. unfold adjust_to_size.
  assert (∃ k1 m1, (if capacity m <? size then let! c := grow_loop (Z.to_nat size) (capacity m) size in reallocate c m else Ok m) = Ok m1 ∧
    map_shape k1 m1 ∧ size <= 2 ^ k1 ∧ same_arrivals m m1) as (k1 & m1 & E1 & S1 & Z1 & A1).
  { pose proof Hm as []. unfold capacity. rewrite shape_len0. destruct (Z.ltb_spec (2 ^ k) size); [|by exists k, m].
    destruct (grow_loop_spec (Z.to_nat size) k size) as (k1 & E & H1 & H2 & H3); [lia|done|apply Z.pow_le_mono_r; lia|lia|]. rewrite E. cbn [rbind].
    destruct (reallocate_spec k1 m) as (m1 & E1 & S1 & A1); [by right; exists k|split; [lia|apply pow_le_15; lia]|lia|lia|]. by exists k1, m1. }
  rewrite E1. cbn [rbind]. destruct (Z.max _ _ <? capacity m1) eqn:Ec; [|by exists k1, m1]. clear Ec.
  pose proof S1 as []. unfold capacity. rewrite shape_len0.
  destruct (shrink_loop_spec (Z.to_nat (2 ^ k1)) k1 size) as (k2 & E2 & H1 & H2); [lia|done|lia|]. rewrite E2. cbn [rbind].
  destruct A1 as (B1 & B2 & B3).
  destruct (reallocate_spec k2 m1) as (m2 & E3 & S2 & A2); [by right; exists k1|lia|done|lia|]. exists k2, m2. split_and!; [done..|]. by eapply same_trans.
Qed.

(** ** Writing *)

Lemma store_spec k m sn t :
  map_shape k m →
  ∃ m', store_arrival sn t m = Ok m' ∧ map_shape k m' ∧
  begin_sequence_number m' = begin_sequence_number m ∧ end_sequence_number m' = end_sequence_number m ∧
  ∀ n, cell k (arrival_times m') n = if decide (n mod 2 ^ k = sn mod 2 ^ k) then t else cell k (arrival_times m) n.
Proof.
  intros Hm. pose proof Hm as []. unfold store_arrival, map_index, capacity. rewrite shape_len0.
  destruct (write_cell k (arrival_times m) sn t) as (buf & E & L & C); [lia|done|]. rewrite E. cbn [rbind]. eexists. split; [reflexivity|]. by split_and!.
Qed.

Lemma store_all_spec k l m :
  map_shape k m →
  ∃ m', store_all l m = Ok m' ∧ map_shape k m' ∧
  begin_sequence_number m' = begin_sequence_number m ∧ end_sequence_number m' = end_sequence_number m ∧
  (∀ n, (∀ x, x ∈ l → n mod 2 ^ k ≠ x mod 2 ^ k) → cell k (arrival_times m') n = cell k (arrival_times m) n) ∧
  (∀ n, n ∈ l → cell k (arrival_times m') n = -1).
Proof.
  revert m. induction l as [|sn l IH]; intros m Hm; cbn [store_all].
  { exists m. split_and!; try done. intros n Hn. by apply elem_of_nil in Hn. }
  destruct (store_spec k m sn (-1) Hm) as (m1 & E1 & S1 & B1 & F1 & C1). rewrite E1. cbn [rbind].
  destruct (IH m1 S1) as (m2 & E2 & S2 & B2 & F2 & C2 & D2). exists m2. split_and!; [done|done|congruence|congruence| |].
  - intros n Hn. rewrite C2 by set_solver. rewrite C1, decide_False; [done|]. apply Hn. left.
  - intros n [->|Hn]%elem_of_cons; [|by apply D2]. destruct (decide (sn mod 2 ^ k ∈ (λ x, x mod 2 ^ k) <$> l)) as [(x & Ex & Hx)%list_elem_of_fmap|Hno].
    + unfold cell. rewrite Ex. by apply D2.
    + rewrite C2; [by rewrite C1, decide_True|]. intros x Hx Ex. apply Hno, list_elem_of_fmap. by exists x.
Qed.

Lemma range_shape k m b e : map_shape k m → b <= e → e - b <= 2 ^ k → map_shape k (with_range b e m).
Proof. intros [] Hr Hs. by split. Qed.

Lemma shape_nonempty k m : map_shape k m → arrival_times m ≠ [].
Proof. intros [] E. rewrite E in shape_len0. change (len []) with 0 in shape_len0. lia. Qed.

(** What the map becomes when packet [sn] is added at time [t]: older packets than the newest 32768
    numbers are forgotten, the others are kept. *)
Definition added (sn t : Z) (m m' : PacketArrivalTimeMap) : Prop :=
  begin_sequence_number m' <= sn < end_sequence_number m' ∧ (begin_sequence_number m' = sn ∨ begin_sequence_number m <= begin_sequence_number m') ∧
  end_sequence_number m' = (if decide (arrival_times m = []) then sn + 1 else Z.max (end_sequence_number m) (sn + 1)) ∧ arrival m' sn = t ∧
  ∀ n, n ≠ sn → arrival m' n = if decide (end_sequence_number m' - MAX_NUMBER_OF_PACKETS <= n) then arrival m n else -1.

Lemma shape_max k m : map_shape k m → 2 ^ k <= MAX_NUMBER_OF_PACKETS.
Proof. intros []. change MAX_NUMBER_OF_PACKETS with (2 ^ 15). apply Z.pow_le_mono_r; lia. Qed.

Lemma add_first sn t : ∃ m', add_packet sn t map_new = Ok m' ∧ map_ok m' ∧ added sn t map_new m'.
Proof.
  unfold add_packet. cbn [arrival_times map_new begin_sequence_number end_sequence_number]. rewrite bool_decide_true by done.
  destruct (reallocate_spec 7 map_new) as (m1 & E1 & S1 & _); [by left|lia|done|done|]. change (2 ^ 7) with MIN_CAPACITY in E1. rewrite E1. cbn [rbind].
  destruct (store_spec 7 (with_range sn (sn + 1) m1) sn t) as (m2 & E2 & S2 & B2 & F2 & C2); [apply range_shape; [done|lia|lia]|].
  cbn [with_range begin_sequence_number end_sequence_number] in B2, F2. exists m2. split_and!; [done|by right; exists 7|].
  split_and!; [lia|lia|by left|by rewrite decide_True| |].
  - by rewrite (arrival_cell 7 m2 sn S2), decide_True, C2, decide_True by (done || lia).
  - intros n Hn. assert (arrival map_new n = -1) as -> by (apply arrival_outside; [by left|cbn; lia]). rewrite (arrival_cell 7 m2 n S2), decide_False by lia. by case_decide.
Qed.

Lemma add_within k sn t m :
  map_shape k m → begin_sequence_number m <= sn < end_sequence_number m →
  ∃ m', store_arrival sn t m = Ok m' ∧ map_ok m' ∧ added sn t m m'.
Proof.
  intros Hm Hr. destruct (store_spec k m sn t Hm) as (m1 & E1 & S1 & B1 & F1 & C1). exists m1. pose proof (shape_max k m Hm). pose proof Hm as [].
  split_and!; [done|by right; exists k|]. split_and!; [lia|lia|right; lia| | |].
  - rewrite decide_False; [lia|]. by apply (shape_nonempty k).
  - by rewrite (arrival_cell k m1 sn S1), decide_True, C1, decide_True by (done || lia).
  - intros n Hn. rewrite (arrival_cell k m1 n S1), (arrival_cell k m n Hm), B1, F1, C1.
    destruct (decide (begin_sequence_number m <= n < end_sequence_number m)) as [Hin|]; [|by case_decide].
    rewrite (decide_False (P := _ mod _ = _)) by (intros E; apply Hn, (same_place k); [lia|done|lia]). by rewrite decide_True by lia.
Qed.

Lemma add_before k sn t m :
  map_shape k m → sn < begin_sequence_number m → end_sequence_number m - sn <= MAX_NUMBER_OF_PACKETS →
  ∃ m', (let! x := adjust_to_size (end_sequence_number m - sn) m in
         let! x := store_arrival sn t x in
         let! x := set_not_received (sn + 1) (begin_sequence_number m) x in
         Ok (with_range sn (end_sequence_number x) x)) = Ok m' ∧ map_ok m' ∧ added sn t m m'.
Proof.
  intros Hm Hlt Hmax. pose proof Hm as []. destruct (adjust_spec k m (end_sequence_number m - sn) Hm) as (k1 & m1 & E1 & S1 & Z1 & B1 & F1 & A1);
    [change (2 ^ 15) with MAX_NUMBER_OF_PACKETS; lia|]. rewrite E1. cbn [rbind]. pose proof (shape_k k1 m1 S1) as Hk1.
  destruct (store_spec k1 m1 sn t S1) as (m2 & E2 & S2 & B2 & F2 & C2). rewrite E2. cbn [rbind].
  unfold set_not_received. destruct (store_all_spec k1 (seqZ (sn + 1) (begin_sequence_number m - (sn + 1))) m2 S2) as (m3 & E3 & S3 & B3 & F3 & C3 & D3).
  rewrite E3. cbn [rbind]. eexists. split; [reflexivity|]. assert (end_sequence_number m3 = end_sequence_number m) as Fm by congruence. rewrite Fm.
  assert (map_shape k1 (with_range sn (end_sequence_number m) m3)) as Sm by (apply range_shape; [done|lia|lia]).
  split; [by right; exists k1|]. unfold added. cbn [with_range begin_sequence_number end_sequence_number].
  split_and!; [lia|lia|by left| | |].
  - rewrite decide_False; [lia|]. by apply (shape_nonempty k).
  - rewrite (arrival_cell k1 _ sn Sm). cbn [with_range begin_sequence_number end_sequence_number arrival_times]. rewrite decide_True by lia.
    rewrite C3; [by rewrite C2, decide_True|]. intros x Hx%elem_of_seqZ. apply far_place; lia.
  - intros n Hn. cbn [with_range end_sequence_number]. rewrite (arrival_cell k1 _ n Sm). cbn [with_range begin_sequence_number end_sequence_number arrival_times].
    destruct (decide (sn <= n < end_sequence_number m)) as [Hin|Hin].
    + rewrite decide_True by lia. destruct (decide (begin_sequence_number m <= n)) as [Hb|Hb].
      * rewrite C3 by (intros x Hx%elem_of_seqZ; apply far_place; lia).
        rewrite C2, decide_False by (apply far_place; lia).
        rewrite <- A1, (arrival_cell k1 m1 n S1), decide_True by lia. done.
      * rewrite D3 by (apply elem_of_seqZ; lia). symmetry. apply arrival_outside; [by right; exists k|lia].
    + rewrite (arrival_outside m n) by (try (by right; exists k); lia). by case_decide.
Qed.

Lemma add_after k sn t m :
  map_shape k m → end_sequence_number m <= sn → sn + 1 - begin_sequence_number m <= MAX_NUMBER_OF_PACKETS →
  ∃ m', (let! x := adjust_to_size (sn + 1 - begin_sequence_number m) m in
         let! x := set_not_received (end_sequence_number m) sn x in
         store_arrival sn t (with_range (begin_sequence_number x) (sn + 1) x)) = Ok m' ∧ (∃ k, map_shape k m') ∧
  begin_sequence_number m' = begin_sequence_number m ∧ end_sequence_number m' = sn + 1 ∧ arrival m' sn = t ∧ ∀ n, n ≠ sn → arrival m' n = arrival m n.
Proof.
  intros Hm Hle Hmax. pose proof Hm as []. destruct (adjust_spec k m (sn + 1 - begin_sequence_number m) Hm) as (k1 & m1 & E1 & S1 & Z1 & B1 & F1 & A1);
    [change (2 ^ 15) with MAX_NUMBER_OF_PACKETS; lia|]. rewrite E1. cbn [rbind]. pose proof (shape_k k1 m1 S1) as Hk1.
  unfold set_not_received. destruct (store_all_spec k1 (seqZ (end_sequence_number m) (sn - end_sequence_number m)) m1 S1) as (m2 & E2 & S2 & B2 & F2 & C2 & D2).
  rewrite E2. cbn [rbind]. destruct (store_spec k1 (with_range (begin_sequence_number m2) (sn + 1) m2) sn t) as (m3 & E3 & S3 & B3 & F3 & C3).
  { apply range_shape; [done|lia|lia]. }
  cbn [with_range begin_sequence_number end_sequence_number arrival_times] in *. exists m3. split_and!; [done|by exists k1|congruence|done| |].
  - by rewrite (arrival_cell k1 m3 sn S3), decide_True, C3, decide_True by (done || lia).
  - intros n Hn. rewrite (arrival_cell k1 m3 n S3), C3, F3. replace (begin_sequence_number m3) with (begin_sequence_number m) by congruence.
    destruct (decide (begin_sequence_number m <= n < sn + 1)) as [Hin|Hin].
    + rewrite decide_False by (apply far_place; lia). destruct (decide (n < end_sequence_number m)) as [He|He].
      * rewrite C2 by (intros x Hx%elem_of_seqZ; apply far_place; lia).
        rewrite <- A1, (arrival_cell k1 m1 n S1), decide_True by lia. done.
      * rewrite D2 by (apply elem_of_seqZ; lia). symmetry. apply arrival_outside; [by right; exists k|lia].
    + symmetry. apply arrival_outside; [by right; exists k|lia].
Qed.

Lemma arrival_range k b m n :
  map_shape k m → begin_sequence_number m <= b <= end_sequence_number m →
  arrival (with_range b (end_sequence_number m) m) n = if decide (b <= n) then arrival m n else -1.
Proof.
  intros Hm Hb. pose proof Hm as []. rewrite (arrival_cell k m n Hm), (arrival_cell k (with_range b (end_sequence_number m) m) n) by (apply range_shape; [done|lia|lia]).
  cbn [with_range begin_sequence_number end_sequence_number arrival_times]. repeat case_decide; try done; lia.
Qed.

(** Adding a packet, or leaving a packet out that is 32768 or more numbers older than the newest one *)
Lemma add_packet_spec sn t m :
  map_ok m →
  ∃ m', add_packet sn t m = Ok m' ∧ map_ok m' ∧
  (added sn t m m' ∨ m' = m ∧ arrival_times m ≠ [] ∧ sn < begin_sequence_number m ∧ MAX_NUMBER_OF_PACKETS < end_sequence_number m - sn).
Proof.
  intros [->|[k Hm]]; [destruct (add_first sn t) as (m' & E & H1 & H2); exists m'; auto|].
  pose proof Hm as []. pose proof (shape_max k m Hm) as Hmax. pose proof (shape_nonempty k m Hm) as Hne. unfold add_packet. rewrite bool_decide_false by done.
  destruct (Z.leb_spec (begin_sequence_number m) sn) as [Hb|Hb]; cbn [andb].
  2:{ rewrite (proj2 (Z.ltb_lt sn _)) by done. destruct (Z.ltb_spec MAX_NUMBER_OF_PACKETS (end_sequence_number m - sn)).
      - exists m. split_and!; [done|by right; exists k|]. by right.
      - destruct (add_before k sn t m Hm Hb) as (m' & E & H1 & H2); [done|]. exists m'. auto. }
  destruct (Z.ltb_spec sn (end_sequence_number m)) as [He|He].
  { destruct (add_within k sn t m Hm) as (m' & E & H1 & H2); [done|]. exists m'. auto. }
  rewrite (proj2 (Z.ltb_ge sn (begin_sequence_number m))) by done.
  destruct (Z.leb_spec (end_sequence_number m + MAX_NUMBER_OF_PACKETS) (sn + 1)) as [Hfar|Hfar].
  - destruct (store_spec k (with_range sn (sn + 1) m) sn t) as (m1 & E1 & S1 & B1 & F1 & C1); [apply range_shape; [done|lia|lia]|].
    cbn [with_range begin_sequence_number end_sequence_number arrival_times] in *. exists m1. split_and!; [done|by right; exists k|]. left.
    split_and!; [lia|lia|by left|rewrite decide_False by done; lia| |].
    + by rewrite (arrival_cell k m1 sn S1), decide_True, C1, decide_True by (done || lia).
    + intros n Hn. rewrite (arrival_cell k m1 n S1), decide_False by lia. case_decide; [|done]. symmetry. apply arrival_outside; [by right; exists k|lia].
  - set (m0 := if begin_sequence_number m <? sn + 1 - MAX_NUMBER_OF_PACKETS then with_range (sn + 1 - MAX_NUMBER_OF_PACKETS) (end_sequence_number m) m else m).
    assert (map_shape k m0 ∧ end_sequence_number m0 = end_sequence_number m ∧ begin_sequence_number m <= begin_sequence_number m0 ∧
      sn + 1 - MAX_NUMBER_OF_PACKETS <= begin_sequence_number m0 ∧ ∀ n, arrival m0 n = if decide (sn + 1 - MAX_NUMBER_OF_PACKETS <= n) then arrival m n else -1)
      as (S0 & F0 & B0 & B0' & A0).
    { unfold m0. destruct (Z.ltb_spec (begin_sequence_number m) (sn + 1 - MAX_NUMBER_OF_PACKETS)).
      - split_and!; [apply range_shape; [done|lia|lia]|done|cbn; lia|cbn; lia|]. intros n. apply (arrival_range k); [done|lia].
      - split_and!; [done..|lia|]. intros n. case_decide; [done|]. apply arrival_outside; [by right; exists k|lia]. }
    clearbody m0. destruct (add_after k sn t m0 S0) as (m' & E & [k' S'] & B' & F' & T' & A'); [lia|lia|]. rewrite F0 in E. rewrite E.
    exists m'. split_and!; [done|by right; exists k'|]. left. pose proof (shape_range k m0 S0). split_and!; [lia|lia|right; lia|rewrite decide_False by done; lia|done|].
    intros n Hn. rewrite A', A0, F' by done. done.
Qed.

(** ** Forgetting *)

Lemma remove_loop_spec fuel k m check_to limit :
  map_shape k m → check_to <= end_sequence_number m → check_to - begin_sequence_number m <= Z.of_nat fuel →
  ∃ b, remove_loop fuel check_to limit m = Ok (with_range b (end_sequence_number m) m) ∧
  begin_sequence_number m <= b <= end_sequence_number m ∧ ∀ n, begin_sequence_number m <= n < b → n < check_to ∧ arrival m n <= limit.
Proof.
  revert m. induction fuel as [|fuel IH]; intros m Hm Hc Hf; pose proof Hm as []; cbn [remove_loop].
  - rewrite (proj2 (Z.ltb_ge _ _)) by lia. exists (begin_sequence_number m). split_and!; [by destruct m|lia|lia|lia].
  - destruct (Z.ltb_spec (begin_sequence_number m) check_to) as [Hlt|Hge]; [|exists (begin_sequence_number m); split_and!; [by destruct m|lia|lia|lia]].
    rewrite get_ok by (right; by exists k). cbn [rbind].
    destruct (Z.leb_spec (arrival m (begin_sequence_number m)) limit) as [Hle|Hgt]; [|exists (begin_sequence_number m); split_and!; [by destruct m|lia|lia|lia]].
    destruct (IH (with_range (begin_sequence_number m + 1) (end_sequence_number m) m)) as (b & E & Hb & Hn); [apply range_shape; [done|lia|lia]|done|cbn; lia|].
    exists b. rewrite E. cbn [with_range begin_sequence_number end_sequence_number] in *. split_and!; [done|lia|lia|].
    intros n Hr. destruct (decide (n = begin_sequence_number m)) as [->|Hne]; [done|]. destruct (Hn n) as [H1 H2]; [lia|]. split; [done|].
    by rewrite (arrival_range k), decide_True in H2 by (done || lia).
Qed.

(** The packets that are removed are older than the limit or did not arrive. *)
Lemma remove_old_packets_spec sn limit m :
  map_ok m →
  ∃ m', remove_old_packets sn limit m = Ok m' ∧ map_ok m' ∧ end_sequence_number m' = end_sequence_number m ∧
  (arrival_times m' = [] ↔ arrival_times m = []) ∧
  begin_sequence_number m <= begin_sequence_number m' <= end_sequence_number m ∧
  (∀ n, arrival m' n = if decide (begin_sequence_number m' <= n) then arrival m n else -1) ∧
  ∀ n, begin_sequence_number m <= n < begin_sequence_number m' → n < sn ∧ arrival m n <= limit.
Proof.
  intros [->|[k Hm]].
  - exists map_new. assert (remove_old_packets sn limit map_new = Ok map_new) as E.
    { unfold remove_old_packets. cbn [map_new begin_sequence_number end_sequence_number]. destruct (Z.to_nat _); cbn [remove_loop map_new begin_sequence_number];
        rewrite (proj2 (Z.ltb_ge _ _)) by lia; done. }
    split_and!; try done; [by left| |cbn; lia]. intros n. case_decide; [done|]. apply arrival_outside; [by left|cbn in *; lia].
  - pose proof Hm as []. unfold remove_old_packets.
    destruct (remove_loop_spec (Z.to_nat (Z.min sn (end_sequence_number m) - begin_sequence_number m)) k m (Z.min sn (end_sequence_number m)) limit) as (b & E & Hb & Hn);
      [done|lia|lia|]. rewrite E. cbn [rbind with_range begin_sequence_number end_sequence_number]. pose proof (shape_max k m Hm) as Hmax.
    assert (map_shape k (with_range b (end_sequence_number m) m)) as Sb by (apply range_shape; [done|lia|lia]).
    destruct (adjust_spec k (with_range b (end_sequence_number m) m) (end_sequence_number m - b) Sb) as (k' & m' & E' & S' & _ & B' & F' & A');
      [cbn [with_range begin_sequence_number end_sequence_number]; change (2 ^ 15) with MAX_NUMBER_OF_PACKETS; lia|].
    cbn [with_range begin_sequence_number end_sequence_number] in *. exists m'. rewrite B', F'. split_and!; [done|by right; exists k'|done| |lia|lia| |].
    + split; intros H; [by destruct (shape_nonempty k' m' S')|by destruct (shape_nonempty k m Hm)].
    + intros n. rewrite A'. by apply (arrival_range k).
    + intros n Hr. destruct (Hn n Hr). split; [lia|done].
Qed.

(** ** Searching *)

Lemma find_loop_spec fuel m seq :
  map_ok m → begin_sequence_number m <= seq → end_sequence_number m - seq <= Z.of_nat fuel →
  ∃ r, find_loop fuel m seq = Ok r ∧
  match r with
  | Some (n, t) => seq <= n < end_sequence_number m ∧ arrival m n = t ∧ 0 <= t ∧ ∀ x, seq <= x < n → arrival m x < 0
  | None => ∀ x, seq <= x < end_sequence_number m → arrival m x < 0
  end.
Proof.
  intros Hm. revert seq. induction fuel as [|fuel IH]; intros seq Hb Hf; cbn [find_loop]; destruct (Z.ltb_spec seq (end_sequence_number m)) as [Hlt|Hge]; try lia.
  - eexists. split; [done|]. cbn. lia.
  - rewrite get_ok by done. cbn [rbind]. destruct (Z.leb_spec 0 (arrival m seq)) as [H0|H0]; [eexists; split; [done|]; cbn; split_and!; lia|].
    destruct (IH (seq + 1)) as (r & E & Hr); [lia|lia|]. exists r. split; [done|]. destruct r as [[n t]|].
    + destruct Hr as (H1 & H2 & H3 & H4). split_and!; [lia|lia|done|done|]. intros x Hx. destruct (decide (x = seq)) as [->|]; [done|]. apply H4. lia.
    + intros x Hx. destruct (decide (x = seq)) as [->|]; [done|]. apply Hr. lia.
  - eexists. split; [done|]. cbn. lia.
Qed.

Lemma ok_range m : map_ok m → begin_sequence_number m <= end_sequence_number m.
Proof. intros [->|[k []]]; done. Qed.

Lemma find_next_spec m sn :
  map_ok m →
  ∃ r, find_next_at_or_after m sn = Ok r ∧
  match r with
  | Some (n, t) => Z.max sn (begin_sequence_number m) <= n < end_sequence_number m ∧ arrival m n = t ∧ 0 <= t ∧ ∀ x, sn <= x < n → arrival m x < 0
  | None => ∀ x, sn <= x → arrival m x < 0
  end.
Proof.
  intros Hm. pose proof (ok_range m Hm) as Hr. unfold find_next_at_or_after, clamp.
  destruct (find_loop_spec (Z.to_nat (end_sequence_number m - begin_sequence_number m)) m (Z.min (Z.max sn (begin_sequence_number m)) (end_sequence_number m)) Hm)
    as (r & E & H); [lia|lia|]. exists r. split; [done|].
  assert (∀ x, ¬ (begin_sequence_number m <= x < end_sequence_number m) → arrival m x < 0) as Ho by (intros x Hx; rewrite arrival_outside by done; lia).
  destruct r as [[n t]|].
  - destruct H as (H1 & H2 & H3 & H4). split_and!; [lia|lia|done|done|]. intros x Hx.
    destruct (decide (begin_sequence_number m <= x < end_sequence_number m)); [apply H4; lia|by apply Ho].
  - intros x Hx. destruct (decide (begin_sequence_number m <= x < end_sequence_number m)); [apply H; lia|by apply Ho].
Qed.
