(* ===== verification/Twcc.v ===== *)
(** Transport-wide congestion control feedback, [rtc-interceptor/src/twcc/recorder.rs]: the recorder
    notes when packets arrive and turns the arrivals into feedback packets, whose status symbols are
    packed into run length and vector chunks.

    [report p] is what a feedback packet says: the packets that arrived, with their times.
    [loop_none] and [feedback_read] carry it from the arrivals to the packet and over the wire. *)

From S2P Require Import Prelude Codec Rtcp RtcpReport RtcpFeedback RtcpTwcc TwccMap.

Definition PACKET_WINDOW_MICROSECONDS : Z := 500000.
Definition MAX_MISSING_SEQUENCE_NUMBERS : Z := 0x7FFE.
Definition MAX_RUN_LENGTH_CAP : Z := 0x1fff.
Definition MAX_ONE_BIT_CAP : Z := 14.
Definition MAX_TWO_BIT_CAP : Z := 7.

(** * The chunk under construction *)

Record Chunk := mkChunk {
  has_large_delta : bool;
  has_different_types : bool;
  chunk_deltas : list SymbolTypeTcc
}.

Definition chunk_new : Chunk := mkChunk false false [].

(** [delta == self.deltas[0]] *)
Definition is_first (d : SymbolTypeTcc) (l : list SymbolTypeTcc) : bool := bool_decide (head l = Some d).

Definition can_add (c : Chunk) (d : SymbolTypeTcc) : bool :=
  let n := len (chunk_deltas c) in
  if n <? MAX_TWO_BIT_CAP then true
  else if (n <? MAX_ONE_BIT_CAP) && negb (has_large_delta c) && negb (bool_decide (d = PacketReceivedLargeDelta)) then true
  else (n <? MAX_RUN_LENGTH_CAP) && negb (has_different_types c) && is_first d (chunk_deltas c).

Definition chunk_add (d : SymbolTypeTcc) (c : Chunk) : Chunk :=
  mkChunk (has_large_delta c || bool_decide (d = PacketReceivedLargeDelta))
    (if negb (bool_decide (chunk_deltas c = [])) && negb (is_first d (chunk_deltas c)) then true else has_different_types c)
    (chunk_deltas c ++ [d]).

(** [encode] takes symbols off the chunk; the flags are those of what is left. *)
Definition chunk_encode (c : Chunk) : res (PacketStatusChunk * Chunk) :=
  let l := chunk_deltas c in
  if negb (has_different_types c) then
    match l with
    | [] => Panic
    | s :: _ => Ok (RunLength (mkRunLength TypeRunLengthChunk s (u16 (len l))), chunk_new)
    end
  else if len l =? MAX_ONE_BIT_CAP then Ok (StatusVector (mkStatusVector TypeStatusVectorChunk OneBit l), chunk_new)
  else
    let min_cap := Z.to_nat (Z.min MAX_TWO_BIT_CAP (len l)) in
    let rest := drop min_cap l in
    Ok (StatusVector (mkStatusVector TypeStatusVectorChunk TwoBit (take min_cap l)),
        match rest with
        | [] => mkChunk false false []
        | first :: _ => mkChunk (existsb (λ d, bool_decide (d = PacketReceivedLargeDelta)) rest) (existsb (λ d, negb (bool_decide (d = first))) rest) rest
        end).

(** * The feedback under construction *)

Record Feedback := mkFeedback {
  f_sender_ssrc : Z;
  f_media_ssrc : Z;
  f_fb_pkt_cnt : Z;
  f_base : Z;
  f_ref_timestamp_64ms : Z;
  f_last_timestamp_us : Z;
  f_next : Z;
  f_count : Z;
  f_len : Z;
  f_last_chunk : Chunk;
  f_chunks : list PacketStatusChunk;
  f_deltas : list RecvDelta
}.

Definition eta_feedback (f : Feedback) : Feedback :=
  mkFeedback (f_sender_ssrc f) (f_media_ssrc f) (f_fb_pkt_cnt f) (f_base f) (f_ref_timestamp_64ms f) (f_last_timestamp_us f)
    (f_next f) (f_count f) (f_len f) (f_last_chunk f) (f_chunks f) (f_deltas f).

#[export] Instance set_f_base : Setter f_base.
Proof. make_setter eta_feedback f_base. Defined.
#[export] Instance set_f_ref : Setter f_ref_timestamp_64ms.
Proof. make_setter eta_feedback f_ref_timestamp_64ms. Defined.
#[export] Instance set_f_last : Setter f_last_timestamp_us.
Proof. make_setter eta_feedback f_last_timestamp_us. Defined.
#[export] Instance set_f_next : Setter f_next.
Proof. make_setter eta_feedback f_next. Defined.
#[export] Instance set_f_count : Setter f_count.
Proof. make_setter eta_feedback f_count. Defined.
#[export] Instance set_f_len : Setter f_len.
Proof. make_setter eta_feedback f_len. Defined.
#[export] Instance set_f_last_chunk : Setter f_last_chunk.
Proof. make_setter eta_feedback f_last_chunk. Defined.
#[export] Instance set_f_chunks : Setter f_chunks.
Proof. make_setter eta_feedback f_chunks. Defined.
#[export] Instance set_f_deltas : Setter f_deltas.
Proof. make_setter eta_feedback f_deltas. Defined.

Definition feedback_new (sender_ssrc media_ssrc fb_pkt_cnt : Z) : Feedback :=
  mkFeedback sender_ssrc media_ssrc fb_pkt_cnt 0 0 0 0 0 0 chunk_new [] [].

Definition set_base (sequence_number time_us : Z) (f : Feedback) : Feedback :=
  let ref := Z.quot time_us 64000 in
  f <| f_base := sequence_number |> <| f_next := sequence_number |> <| f_ref_timestamp_64ms := ref |> <| f_last_timestamp_us := ref * 64000 |>.

(** A symbol, behind a chunk that is closed when there is no room for it *)
Definition add_symbol (d : SymbolTypeTcc) (f : Feedback) : res Feedback :=
  let! f :=
    if can_add (f_last_chunk f) d then Ok f
    else
      let! (c, last) := chunk_encode (f_last_chunk f) in
      Ok (f <| f_chunks ::= λ l, l ++ [c] |> <| f_last_chunk := last |>) in
  Ok (f <| f_last_chunk ::= chunk_add d |>).

(** [self.sequence_number_count += 1; self.next_sequence_number.wrapping_add(1)] *)
Definition count_one (f : Feedback) : Feedback := f <| f_count ::= λ n, u16 (n + 1) |> <| f_next ::= λ n, u16 (n + 1) |>.

(** The loop over the packets that are missing *)
Fixpoint missing_loop (fuel : nat) (sequence_number : Z) (f : Feedback) : res Feedback :=
  if f_next f =? sequence_number then Ok f
  else
    match fuel with
    | O => Panic
    | S fuel => let! f := add_symbol PacketNotReceived f in missing_loop fuel sequence_number (count_one f)
    end.

Definition delta_250us (delta_us : Z) : Z :=
  if 0 <=? delta_us then Z.quot (delta_us + TYPE_TCC_DELTA_SCALE_FACTOR / 2) TYPE_TCC_DELTA_SCALE_FACTOR
  else Z.quot (delta_us - TYPE_TCC_DELTA_SCALE_FACTOR / 2) TYPE_TCC_DELTA_SCALE_FACTOR.

Definition add_received (sequence_number timestamp_us : Z) (f : Feedback) : res (bool * Feedback) :=
  let delta := delta_250us (timestamp_us - f_last_timestamp_us f) in
  if (delta <? -32768) || (32767 <? delta) then Ok (false, f)
  else
    let delta_us_rounded := delta * TYPE_TCC_DELTA_SCALE_FACTOR in
    let! f := missing_loop (Z.to_nat (u16 (sequence_number - f_next f))) sequence_number f in
    let small := (0 <=? delta) && (delta <=? 0xff) in
    let f := f <| f_len ::= λ n, n + (if small then 1 else 2) |> in
    let sym := if small then PacketReceivedSmallDelta else PacketReceivedLargeDelta in
    let! f := add_symbol sym f in
    Ok (true, count_one (f <| f_deltas ::= λ l, l ++ [mkRecvDelta sym delta_us_rounded] |>
                           <| f_last_timestamp_us ::= λ t, t + delta_us_rounded |>)).

(** The loop of [get_rtcp] *)
Fixpoint flush_loop (fuel : nat) (c : Chunk) : res (list PacketStatusChunk) :=
  match chunk_deltas c with
  | [] => Ok []
  | _ =>
      match fuel with
      | O => Panic
      | S fuel => let! (x, c) := chunk_encode c in let! l := flush_loop fuel c in Ok (x :: l)
      end
  end.

Definition get_rtcp (f : Feedback) : res TransportLayerCc :=
  let! last := flush_loop (length (chunk_deltas (f_last_chunk f))) (f_last_chunk f) in
  Ok (mkTcc (f_sender_ssrc f) (f_media_ssrc f) (f_base f) (f_count f) (u32 (f_ref_timestamp_64ms f)) (f_fb_pkt_cnt f)
        (f_chunks f ++ last) (f_deltas f)).

(** * The recorder *)

(** [SequenceUnwrapper]: the last number, unwrapped *)
Definition unwrap_sequence (last : option Z) (seq : Z) : Z :=
  match last with
  | None => seq
  | Some last =>
      let diff := seq - Z.land last 0xFFFF in
      let diff := if 0x8000 <? diff then diff - 0x10000 else if diff <? -0x8000 then diff + 0x10000 else diff in
      last + diff
  end.

Record Recorder := mkRecorder {
  arrival_time_map : PacketArrivalTimeMap;
  last_unwrapped : option Z;
  start_sequence_number : option Z;
  rec_sender_ssrc : Z;
  rec_media_ssrc : Z;
  fb_pkt_cnt : Z;
  packets_held : Z
}.

Definition eta_recorder (r : Recorder) : Recorder :=
  mkRecorder (arrival_time_map r) (last_unwrapped r) (start_sequence_number r) (rec_sender_ssrc r) (rec_media_ssrc r) (fb_pkt_cnt r) (packets_held r).

#[export] Instance set_arrival_map : Setter arrival_time_map.
Proof. make_setter eta_recorder arrival_time_map. Defined.
#[export] Instance set_last_unwrapped : Setter last_unwrapped.
Proof. make_setter eta_recorder last_unwrapped. Defined.
#[export] Instance set_start_sequence : Setter start_sequence_number.
Proof. make_setter eta_recorder start_sequence_number. Defined.
#[export] Instance set_rec_media : Setter rec_media_ssrc.
Proof. make_setter eta_recorder rec_media_ssrc. Defined.
#[export] Instance set_fb_pkt_cnt : Setter fb_pkt_cnt.
Proof. make_setter eta_recorder fb_pkt_cnt. Defined.
#[export] Instance set_packets_held : Setter packets_held.
Proof. make_setter eta_recorder packets_held. Defined.

Definition recorder_new (sender_ssrc : Z) : Recorder := mkRecorder map_new None None sender_ssrc 0 0 0.

Definition maybe_cull_old_packets (sequence_number arrival_time : Z) (r : Recorder) : res Recorder :=
  match start_sequence_number r with
  | Some start =>
      if (end_sequence_number (arrival_time_map r) <=? start) && (PACKET_WINDOW_MICROSECONDS <=? arrival_time) then
        let! m := remove_old_packets sequence_number (arrival_time - PACKET_WINDOW_MICROSECONDS) (arrival_time_map r) in
        Ok (r <| arrival_time_map := m |>)
      else Ok r
  | None => Ok r
  end.

Definition record (media_ssrc sequence_number arrival_time : Z) (r : Recorder) : res Recorder :=
  let unwrapped_sn := unwrap_sequence (last_unwrapped r) sequence_number in
  let r := r <| rec_media_ssrc := media_ssrc |> <| last_unwrapped := Some unwrapped_sn |> in
  let! r := maybe_cull_old_packets unwrapped_sn arrival_time r in
  let r :=
    if match start_sequence_number r with None => true | Some start => unwrapped_sn <? start end
    then r <| start_sequence_number := Some unwrapped_sn |> else r in
  let! received := has_received (arrival_time_map r) unwrapped_sn in
  if (received : bool) then Ok r
  else
    let! m := add_packet unwrapped_sn arrival_time (arrival_time_map r) in
    let r := r <| arrival_time_map := m |> <| packets_held ::= λ n, n + 1 |> in
    match start_sequence_number r with
    | Some start => Ok (if start <? begin_sequence_number m then r <| start_sequence_number := Some (begin_sequence_number m) |> else r)
    | None => Ok r
    end.

(** The loop of [maybe_build_feedback_packet]: the feedback, the counter and the next number; [None]
    when the first packet cannot be added, which starts the next feedback there. *)
Fixpoint feedback_loop (fuel : nat) (r : Recorder) (begin_ end_ seq : Z) (fb : option Feedback) (cnt next : Z)
    : res (option Feedback * Z * Z) :=
  if seq <? end_ then
    match fuel with
    | O => Panic
    | S fuel =>
        let! found := find_next_at_or_after (arrival_time_map r) seq in
        match found with
        | None => Ok (fb, cnt, next)
        | Some (seq, arrival_time) =>
            if end_ <=? seq then Ok (fb, cnt, next)
            else
              match fb with
              | Some f =>
                  let! (added, f) := add_received (u16 seq) arrival_time f in
                  if (added : bool) then feedback_loop fuel r begin_ end_ (seq + 1) (Some f) cnt (seq + 1)
                  else Ok (Some f, cnt, next)
              | None =>
                  let f := feedback_new (rec_sender_ssrc r) (rec_media_ssrc r) cnt in
                  let cnt := u8 (cnt + 1) in
                  let f := set_base (u16 (Z.max begin_ (seq - MAX_MISSING_SEQUENCE_NUMBERS))) arrival_time f in
                  let! (added, f) := add_received (u16 seq) arrival_time f in
                  if (added : bool) then feedback_loop fuel r begin_ end_ (seq + 1) (Some f) cnt (seq + 1)
                  else Ok (None, cnt, seq)
              end
        end
    end
  else Ok (fb, cnt, next).

Definition maybe_build_feedback_packet (begin_ end_ : Z) (r : Recorder) : res (option Feedback * Recorder) :=
  let start := clamp (arrival_time_map r) begin_ in
  let stop := clamp (arrival_time_map r) end_ in
  let! (fb, cnt, next) := feedback_loop (Z.to_nat (stop - start)) r begin_ stop start None (fb_pkt_cnt r) begin_ in
  Ok (fb, r <| fb_pkt_cnt := cnt |> <| start_sequence_number := Some next |>).

Fixpoint build_loop (fuel : nat) (start_sn end_sn : Z) (r : Recorder) : res (list TransportLayerCc * Recorder) :=
  if start_sn <? end_sn then
    match fuel with
    | O => Panic
    | S fuel =>
        let! (fb, r) := maybe_build_feedback_packet start_sn end_sn r in
        match fb with
        | None => Ok ([], r)
        | Some f =>
            let! p := get_rtcp f in
            let! (ps, r) := build_loop fuel (default end_sn (start_sequence_number r)) end_sn r in
            Ok (p :: ps, r)
        end
    end
  else Ok ([], r).

Definition build_feedback_packet (r : Recorder) : res (list TransportLayerCc * Recorder) :=
  match start_sequence_number r with
  | None => Ok ([], r)
  | Some start_sn =>
      let end_sn := end_sequence_number (arrival_time_map r) in
      let! (ps, r) := build_loop (Z.to_nat (end_sn - start_sn)) start_sn end_sn r in
      Ok (ps, r <| packets_held := 0 |>)
  end.

(** * Chunks *)

Definition is_large (d : SymbolTypeTcc) : bool := bool_decide (d = PacketReceivedLargeDelta).
Definition mixed (l : list SymbolTypeTcc) : bool :=
  match l with [] => false | first :: _ => existsb (λ d, negb (bool_decide (d = first))) l end.

(** The chunk that holds given symbols *)
Definition chunk_of (l : list SymbolTypeTcc) : Chunk := mkChunk (existsb is_large l) (mixed l) l.

(** What [can_add] lets into a chunk *)
Definition chunk_fits (l : list SymbolTypeTcc) : Prop :=
  len l <= MAX_RUN_LENGTH_CAP ∧ (PacketReceivedWithoutDelta ∉ l) ∧
  (mixed l = true → len l <= MAX_ONE_BIT_CAP ∧ (existsb is_large l = true → len l <= MAX_TWO_BIT_CAP)).

(** The symbols of a status chunk *)
Definition chunk_symbols (c : PacketStatusChunk) : list SymbolTypeTcc :=
  match c with
  | RunLength c => replicate (Z.to_nat (run_length c)) (packet_status_symbol c)
  | StatusVector c => symbol_list c
  end.

(** A chunk that is written as it is, except for a short vector of two-bit symbols *)
Definition chunk_shape (c : PacketStatusChunk) : Prop :=
  match c with
  | RunLength c => rl_type_tcc c = TypeRunLengthChunk ∧ 1 <= run_length c <= MAX_RUN_LENGTH_CAP
  | StatusVector c =>
      sv_type_tcc c = TypeStatusVectorChunk ∧
      match symbol_size c with
      | OneBit => length (symbol_list c) = 14%nat ∧ Forall (.∈ [PacketNotReceived; PacketReceivedSmallDelta]) (symbol_list c)
      | TwoBit => (1 <= length (symbol_list c) <= 7)%nat
      end
  end.

Definition chunk_full (c : PacketStatusChunk) : Prop := 7 <= len (chunk_symbols c).

Lemma add_chunk_of d l : chunk_add d (chunk_of l) = chunk_of (l ++ [d]).
Proof.
  unfold chunk_add, chunk_of. cbn [has_large_delta has_different_types chunk_deltas]. f_equal.
  - rewrite existsb_app. cbn. by rewrite orb_false_r.
  - destruct l as [|x l]; [cbn; by rewrite bool_decide_true by done|]. rewrite bool_decide_false by done. cbn [mixed app negb andb].
    unfold is_first. cbn [head]. rewrite app_comm_cons, existsb_app. cbn [existsb]. rewrite orb_false_r.
    destruct (decide (d = x)) as [->|Hne]; [rewrite !bool_decide_true by done; cbn [negb]; by rewrite orb_false_r|].
    rewrite (bool_decide_false (Some x = Some d)), (bool_decide_false (d = x)) by congruence. cbn [negb]. by rewrite orb_true_r.
Qed.

Lemma mixed_app l d : l ≠ [] → mixed (l ++ [d]) = mixed l || negb (is_first d l).
Proof.
  destruct l as [|x l]; [done|]. intros _. cbn [mixed app]. unfold is_first. cbn [head]. rewrite app_comm_cons, existsb_app. cbn [existsb].
  rewrite orb_false_r. f_equal. f_equal. apply bool_decide_ext. split; congruence.
Qed.

Lemma not_mixed x l : mixed (x :: l) = false → x :: l = replicate (length (x :: l)) x.
Proof.
  intros E. symmetry. apply replicate_as_Forall. split; [done|]. apply Forall_forall. intros y Hy. unfold mixed in E.
  destruct (decide (x = y)) as [|Hne]; [done|]. assert (existsb (λ d, negb (bool_decide (d = x))) (x :: l) = true); [|congruence].
  apply existsb_exists. exists y. split; [by apply list_elem_of_In|]. by rewrite bool_decide_false by congruence.
Qed.

Lemma large_app l d : existsb is_large (l ++ [d]) = existsb is_large l || is_large d.
Proof. rewrite existsb_app. cbn. by rewrite orb_false_r. Qed.

Lemma fits_nil : chunk_fits [].
Proof. split_and!; [done| |done]. apply not_elem_of_nil. Qed.

Lemma can_add_fits l d :
  chunk_fits l → d ≠ PacketReceivedWithoutDelta → can_add (chunk_of l) d = true → chunk_fits (l ++ [d]).
Proof.
  intros (Hl & Hw & Hm) Hd. unfold can_add, chunk_of, chunk_fits, MAX_TWO_BIT_CAP, MAX_ONE_BIT_CAP, MAX_RUN_LENGTH_CAP in *. cbn [chunk_deltas has_large_delta has_different_types].
  rewrite len_app. change (len [d]) with 1. assert (PacketReceivedWithoutDelta ∉ l ++ [d]) by (rewrite elem_of_app, list_elem_of_singleton; intros [?|?]; congruence).
  destruct (Z.ltb_spec (len l) 7); [intros _; split_and!; [lia|done|intros _; split; [lia|intros _; lia]]|].
  destruct ((len l <? 14) && negb (existsb is_large l) && negb (bool_decide (d = PacketReceivedLargeDelta))) eqn:E1.
  - intros _. apply andb_true_iff in E1 as [[E1%Z.ltb_lt E2%negb_true_iff]%andb_true_iff E3]. split_and!; [lia|done|]. intros _. split; [lia|].
    rewrite large_app, E2. unfold is_large. by rewrite (proj1 (negb_true_iff _) E3).
  - intros [[E2%Z.ltb_lt E3%negb_true_iff]%andb_true_iff E4]%andb_true_iff. split_and!; [lia|done|]. intros Hmx.
    rewrite mixed_app in Hmx by (intros ->; change (len []) with 0 in *; lia). by rewrite E3, E4 in Hmx.
Qed.

Lemma chunk_of_drop n l :
  match drop n l with
  | [] => mkChunk false false []
  | first :: _ => mkChunk (existsb (λ d, bool_decide (d = PacketReceivedLargeDelta)) (drop n l)) (existsb (λ d, negb (bool_decide (d = first))) (drop n l)) (drop n l)
  end = chunk_of (drop n l).
Proof. by destruct (drop n l). Qed.

(** Closing a chunk: no symbol is lost, and a vector that is not full is the last of them. *)
Lemma encode_spec l :
  l ≠ [] → chunk_fits l →
  ∃ c l', chunk_encode (chunk_of l) = Ok (c, chunk_of l') ∧ chunk_symbols c ++ l' = l ∧ chunk_fits l' ∧ chunk_shape c ∧
  (length l' < length l)%nat ∧ len l' < MAX_TWO_BIT_CAP ∧ (chunk_full c ∨ l' = [] ∧ len l < MAX_TWO_BIT_CAP).
Proof.
  intros Hne (Hl & Hw & Hm). unfold chunk_encode, MAX_TWO_BIT_CAP, MAX_ONE_BIT_CAP, MAX_RUN_LENGTH_CAP in *. cbn [chunk_of has_different_types chunk_deltas].
  destruct (mixed l) eqn:Emx; cbn [negb].
  - destruct (Hm eq_refl) as [H14 H7]. destruct (Z.eqb_spec (len l) 14) as [E14|E14].
    + exists (StatusVector (mkStatusVector TypeStatusVectorChunk OneBit l)), []. cbn [chunk_symbols symbol_list chunk_shape sv_type_tcc symbol_size].
      assert (existsb is_large l = false) as Elg by (destruct (existsb is_large l); [lia|done]).
      split_and!; [done|by rewrite app_nil_r|apply fits_nil|done|unfold len in *; lia| |unfold len in *; cbn; lia|done|].
      * apply Forall_forall. intros [] Hx; [left|right; left| |done].
        assert (existsb is_large l = true); [|congruence]. apply existsb_exists. eexists. split; [by apply list_elem_of_In|]. done.
      * left. unfold chunk_full. cbn [chunk_symbols symbol_list]. lia.
    + rewrite chunk_of_drop. set (n := Z.to_nat (Z.min 7 (len l))). exists (StatusVector (mkStatusVector TypeStatusVectorChunk TwoBit (take n l))), (drop n l). cbn [chunk_symbols symbol_list chunk_shape sv_type_tcc symbol_size].
      assert (n = 7%nat ∧ (7 <= length l)%nat ∨ n = length l ∧ (length l < 7)%nat) as Hn by (unfold n, len; lia).
      assert (0 < length l)%nat by (destruct l; [done|cbn; lia]).
      split_and!; [done|apply take_drop| |done|rewrite length_take; lia|rewrite length_take; lia|rewrite length_drop; lia|unfold len in *; rewrite length_drop; lia|].
      * split_and!; [unfold len, MAX_RUN_LENGTH_CAP in *; rewrite length_drop; lia|intros Hx; apply Hw; rewrite <- (take_drop n l); apply elem_of_app; by right|].
        intros _. unfold len in *. rewrite length_drop. unfold MAX_ONE_BIT_CAP, MAX_TWO_BIT_CAP. lia.
      * destruct Hn as [[-> Hn]|[-> Hn]]; [left|right].
        -- unfold chunk_full. cbn [chunk_symbols symbol_list]. unfold len. rewrite length_take. lia.
        -- rewrite drop_all. split; [done|unfold len; lia].
  - destruct l as [|x l]; [done|]. exists (RunLength (mkRunLength TypeRunLengthChunk x (u16 (len (x :: l))))), [].
    cbn [chunk_symbols packet_status_symbol run_length rl_type_tcc chunk_shape]. rewrite (wrap_small 16) by (unfold fits; pose proof (len_nonneg (x :: l)); lia).
    assert (1 <= len (x :: l)) by (unfold len; cbn [length]; lia). unfold MAX_RUN_LENGTH_CAP.
    assert (replicate (Z.to_nat (len (x :: l))) x = x :: l) as Er by (unfold len; rewrite Nat2Z.id; symmetry; by apply not_mixed).
    split_and!; [done|by rewrite app_nil_r|apply fits_nil|done|done|done|cbn; lia|done|].
    destruct (Z.le_gt_cases 7 (len (x :: l))); [left|by right]. unfold chunk_full. cbn [chunk_symbols packet_status_symbol run_length]. by rewrite Er.
Qed.

Lemma no_room_full l d :
  chunk_fits l → can_add (chunk_of l) d = false → MAX_TWO_BIT_CAP <= len l.
Proof.
  intros Hl. unfold can_add. cbn [chunk_of chunk_deltas]. destruct (Z.ltb_spec (len l) MAX_TWO_BIT_CAP); [done|lia].
Qed.

(** * What a feedback says *)

Definition is_received (s : SymbolTypeTcc) : bool :=
  match s with PacketReceivedSmallDelta | PacketReceivedLargeDelta => true | _ => false end.

(** The packets that arrived, of a run of symbols for the numbers from [seq], with the times their deltas give *)
Fixpoint decode (seq time : Z) (syms : list SymbolTypeTcc) (ds : list RecvDelta) : list (Z * Z) :=
  match syms with
  | [] => []
  | s :: syms =>
      if is_received s then
        match ds with
        | [] => []
        | d :: ds => (seq, time + delta d) :: decode (u16 (seq + 1)) (time + delta d) syms ds
        end
      else decode (u16 (seq + 1)) time syms ds
  end.

Definition received (syms : list SymbolTypeTcc) : list SymbolTypeTcc := List.filter is_received syms.
Definition total (ds : list RecvDelta) : Z := foldr (λ d n, delta d + n) 0 ds.

(** The reference time counts 64 milliseconds. *)
Definition report (p : TransportLayerCc) : list (Z * Z) :=
  decode (base_sequence_number p) (reference_time p * 64000)
    (take (Z.to_nat (packet_status_count p)) (concat (chunk_symbols <$> packet_chunks p))) (recv_deltas p).

Lemma decode_app seq time s1 s2 ds1 ds2 :
  fits 16 seq → received s1 = type_tcc_packet <$> ds1 →
  decode seq time (s1 ++ s2) (ds1 ++ ds2) = decode seq time s1 ds1 ++ decode (u16 (seq + len s1)) (time + total ds1) s2 ds2.
Proof.
  revert seq time ds1. induction s1 as [|s s1 IH]; intros seq time ds1 Hq Hr.
  { destruct ds1; [|done]. cbn [app decode total foldr]. change (len []) with 0. by rewrite !Z.add_0_r, wrap_small. }
  assert (∀ x, u16 (u16 (seq + 1) + x) = u16 (seq + (1 + x))) as Hu by (intros x; unfold wrap; rewrite Zplus_mod_idemp_l; f_equal; lia).
  unfold received in Hr. cbn [List.filter] in Hr. cbn [app decode]. rewrite len_cons. destruct (is_received s).
  - destruct ds1 as [|d ds1]; [done|]. cbn [fmap list_fmap] in Hr. injection Hr as _ Hr. cbn [app total foldr].
    rewrite IH; [|apply wrap_fits; lia|done]. rewrite Hu. cbn [app]. do 3 f_equal. unfold total. lia.
  - rewrite IH; [|apply wrap_fits; lia|done]. by rewrite Hu.
Qed.

Lemma total_app ds1 ds2 : total (ds1 ++ ds2) = total ds1 + total ds2.
Proof. induction ds1 as [|d ds1 IH]; [done|]. cbn. unfold total in *. cbn. lia. Qed.

Lemma received_app s1 s2 : received (s1 ++ s2) = received s1 ++ received s2.
Proof. apply List.filter_app. Qed.

Lemma decode_missing n seq time ds : decode seq time (replicate n PacketNotReceived) ds = [].
Proof. revert seq. induction n as [|n IH]; intros seq; [done|]. cbn. apply IH. Qed.

Lemma received_missing n : received (replicate n PacketNotReceived) = [].
Proof. by induction n. Qed.

(** * The feedback under construction *)

(** The symbols that are in the chunks *)
Definition packed_symbols (f : Feedback) (syms : list SymbolTypeTcc) : Prop :=
  Forall (λ c, chunk_shape c ∧ chunk_full c) (f_chunks f) ∧
  ∃ l, f_last_chunk f = chunk_of l ∧ chunk_fits l ∧ concat (chunk_symbols <$> f_chunks f) ++ l = syms.

Lemma add_symbol_spec d f syms :
  packed_symbols f syms → d ≠ PacketReceivedWithoutDelta →
  ∃ cs c, add_symbol d f = Ok (f <| f_chunks := cs |> <| f_last_chunk := c |>) ∧
  packed_symbols (f <| f_chunks := cs |> <| f_last_chunk := c |>) (syms ++ [d]).
Proof.
  intros (Hc & l & El & Hl & Es) Hd. unfold add_symbol. rewrite El. destruct (can_add (chunk_of l) d) eqn:Ea; cbn [rbind].
  - exists (f_chunks f), (chunk_of (l ++ [d])). split.
    + rewrite <- add_chunk_of. destruct f. cbn in El. by subst.
    + split; record_simpl; [done|]. exists (l ++ [d]). split_and!; [done|by apply can_add_fits|]. by rewrite app_assoc, Es.
  - pose proof (no_room_full l d Hl Ea) as H7. destruct (encode_spec l) as (c & l' & Ec & Esym & Hl' & Hsh & _ & Hlt & Hf); [intros ->; done|done|]. rewrite Ec. cbn [rbind].
    assert (chunk_full c) as Hfull by (destruct Hf as [|[_ ?]]; [done|lia]).
    assert (can_add (chunk_of l') d = true) as Ea' by (unfold can_add; cbn [chunk_of chunk_deltas]; by rewrite (proj2 (Z.ltb_lt _ _))).
    exists (f_chunks f ++ [c]), (chunk_of (l' ++ [d])). split.
    + rewrite <- add_chunk_of. by destruct f.
    + split; record_simpl; [apply Forall_app; split; [done|]; by constructor|]. exists (l' ++ [d]). split_and!; [done|by apply can_add_fits|].
      rewrite fmap_app, concat_app. cbn [fmap list_fmap concat]. rewrite app_nil_r, <- !app_assoc, (app_assoc (chunk_symbols c)), Esym, app_assoc. by rewrite Es.
Qed.

(** All but the chunks *)
Record counted (base : Z) (f : Feedback) (syms : list SymbolTypeTcc) : Prop := {
  counted_packed : packed_symbols f syms;
  counted_base : f_base f = u16 base;
  counted_next : f_next f = u16 (base + len syms);
  counted_count : f_count f = len syms;
  counted_size : len syms <= 65535;
  counted_types : type_tcc_packet <$> f_deltas f = received syms;
  counted_deltas : Forall delta_wf (f_deltas f);
  counted_time : f_last_timestamp_us f = f_ref_timestamp_64ms f * 64000 + total (f_deltas f)
}.

Definition same_origin (f f' : Feedback) : Prop :=
  f_sender_ssrc f' = f_sender_ssrc f ∧ f_media_ssrc f' = f_media_ssrc f ∧ f_fb_pkt_cnt f' = f_fb_pkt_cnt f ∧ f_base f' = f_base f ∧
  f_ref_timestamp_64ms f' = f_ref_timestamp_64ms f.

Lemma u16_succ x : u16 (u16 x + 1) = u16 (x + 1).
Proof. unfold wrap. apply Zplus_mod_idemp_l. Qed.

Lemma missing_symbols_spec fuel base n f syms :
  counted base f syms → base + len syms + Z.of_nat fuel = n → n - base <= 65535 →
  ∃ f', missing_loop fuel (u16 n) f = Ok f' ∧ counted base f' (syms ++ replicate fuel PacketNotReceived) ∧ same_origin f f' ∧
  f_deltas f' = f_deltas f ∧ f_last_timestamp_us f' = f_last_timestamp_us f.
Proof.
  revert f syms. induction fuel as [|fuel IH]; intros f syms Hc Hn Hmax; pose proof Hc as []; cbn [missing_loop]; pose proof (len_nonneg syms).
  - rewrite counted_next0. replace n with (base + len syms) by lia. rewrite Z.eqb_refl. exists f. cbn [replicate]. rewrite app_nil_r. by split_and!.
  - destruct (Z.eqb_spec (f_next f) (u16 n)) as [E|_].
    { exfalso. rewrite counted_next0 in E. unfold wrap in E. assert (base + len syms = n); [|lia].
      apply (same_place 16); [lia|exact E|]. change (2 ^ 16) with 65536. lia. }
    destruct (add_symbol_spec PacketNotReceived f syms counted_packed0) as (cs & c & E & Hp); [done|]. rewrite E. cbn [rbind].
    set (f1 := count_one (f <| f_chunks := cs |> <| f_last_chunk := c |>)).
    assert (counted base f1 (syms ++ [PacketNotReceived])) as Hc1.
    { split; unfold f1, count_one; record_simpl; try done.
      - rewrite counted_next0, len_app. change (len [PacketNotReceived]) with 1. rewrite u16_succ. f_equal. lia.
      - rewrite counted_count0, len_app. change (len [PacketNotReceived]) with 1. apply wrap_small. unfold fits. lia.
      - rewrite len_app. change (len [PacketNotReceived]) with 1. lia.
      - rewrite received_app. cbn. by rewrite app_nil_r. }
    destruct (IH f1 (syms ++ [PacketNotReceived]) Hc1) as (f2 & E2 & Hc2 & Ho & Hd & Hl); [rewrite len_app; change (len [PacketNotReceived]) with 1; lia|done|].
    exists f2. split; [done|]. rewrite <- app_assoc in Hc2. split_and!; [done|done|done|done].
Qed.

Lemma delta_rounds d : Z.abs (delta_250us d * 250 - d) <= 125.
Proof.
  unfold delta_250us, TYPE_TCC_DELTA_SCALE_FACTOR. change (250 / 2) with 125. destruct (Z.leb_spec 0 d).
  - rewrite Z.quot_div_nonneg by lia. pose proof (Z_div_mod_eq_full (d + 125) 250). pose proof (Z.mod_pos_bound (d + 125) 250). lia.
  - replace (d - 125) with (- (125 - d)) by lia. rewrite Z.quot_opp_l, Z.quot_div_nonneg by lia.
    pose proof (Z_div_mod_eq_full (125 - d) 250). pose proof (Z.mod_pos_bound (125 - d) 250). lia.
Qed.

(** The report of a feedback under construction *)
Definition reported (f : Feedback) (syms : list SymbolTypeTcc) : list (Z * Z) := decode (f_base f) (f_ref_timestamp_64ms f * 64000) syms (f_deltas f).

Definition delta_fits (f : Feedback) (t : Z) : Prop := -32768 <= delta_250us (t - f_last_timestamp_us f) <= 32767.

Lemma add_refused n t f : ¬ delta_fits f t → add_received n t f = Ok (false, f).
Proof.
  unfold delta_fits, add_received. cbv zeta. set (k := delta_250us _). intros Hk. destruct (Z.ltb_spec k (-32768)); [done|]. destruct (Z.ltb_spec 32767 k); [done|lia].
Qed.

Lemma add_received_spec base n t f syms :
  counted base f syms → base + len syms <= n → n - base < 65535 → delta_fits f t →
  ∃ f' syms', add_received (u16 n) t f = Ok (true, f') ∧ counted base f' syms' ∧ same_origin f f' ∧ base + len syms' = n + 1 ∧
  ∃ t', reported f' syms' = reported f syms ++ [(u16 n, t')] ∧ Z.abs (t' - t) <= 125.
Proof.
  intros Hc Hn Hmax Hk. pose proof (delta_rounds (t - f_last_timestamp_us f)) as Hr. unfold delta_fits in Hk. unfold add_received. cbv zeta.
  set (k := delta_250us (t - f_last_timestamp_us f)) in *. rewrite (proj2 (Z.ltb_ge k _)), (proj2 (Z.ltb_ge _ k)) by lia. cbn [orb].
  pose proof (len_nonneg syms) as Hls. assert (Z.to_nat (u16 (u16 n - f_next f)) = Z.to_nat (n - base - len syms)) as ->.
  { rewrite (counted_next _ _ _ Hc). f_equal. unfold wrap. rewrite <- Zminus_mod. rewrite Z.mod_small; [lia|]. change (2 ^ 16) with 65536. lia. }
  destruct (missing_symbols_spec (Z.to_nat (n - base - len syms)) base n f syms Hc) as (f1 & E1 & Hc1 & (O1 & O2 & O3 & O4 & O5) & Hd & Hl); [lia|lia|]. rewrite E1. cbn [rbind].
  set (miss := replicate (Z.to_nat (n - base - len syms)) PacketNotReceived) in *. set (syms1 := syms ++ miss) in *.
  assert (len syms1 = n - base) as Hl1 by (unfold syms1, miss; rewrite len_app, len_replicate; lia).
  set (sym := if (0 <=? k) && (k <=? 0xff) then PacketReceivedSmallDelta else PacketReceivedLargeDelta).
  set (f2 := f1 <| f_len ::= λ n0, n0 + (if (0 <=? k) && (k <=? 0xff) then 1 else 2) |>).
  assert (packed_symbols f2 syms1) as Hp2 by (destruct (counted_packed _ _ _ Hc1) as (? & l & ? & ? & ?); split; [done|by exists l]).
  assert (sym ≠ PacketReceivedWithoutDelta ∧ is_received sym = true) as [Hs1 Hs2] by (unfold sym; by destruct (_ && _)).
  destruct (add_symbol_spec sym f2 syms1 Hp2 Hs1) as (cs & c & E & Hp). rewrite E. cbn [rbind].
  eexists _, (syms1 ++ [sym]). split; [reflexivity|]. pose proof Hc1 as [].
  assert (received (syms1 ++ [sym]) = received syms1 ++ [sym]) as Hrec by (rewrite received_app; unfold received at 2; cbn [List.filter]; by rewrite Hs2).
  assert (delta_wf (mkRecvDelta sym (k * 250))) as Hdw.
  { exists k. split; [cbn; lia|]. unfold sym. cbn [type_tcc_packet]. destruct (Z.leb_spec 0 k), (Z.leb_spec k 0xff); cbn [andb]; [left|right..]; split; (done || lia). }
  split_and!; [|by unfold same_origin, count_one, f2; record_simpl; split_and!|rewrite len_app; change (len [sym]) with 1; lia|].
  - split; unfold count_one, f2; record_simpl; try done.
    + rewrite counted_next0, len_app. change (len [sym]) with 1. rewrite u16_succ. f_equal. lia.
    + rewrite counted_count0, len_app. change (len [sym]) with 1. apply wrap_small. unfold fits. lia.
    + rewrite len_app. change (len [sym]) with 1. lia.
    + rewrite fmap_app, counted_types0, Hrec. done.
    + apply Forall_app. split; [done|]. by constructor.
    + rewrite counted_time0, total_app. unfold total at 3. cbn [foldr delta]. unfold TYPE_TCC_DELTA_SCALE_FACTOR. lia.
  - exists (f_last_timestamp_us f + k * 250). split; [|lia]. unfold reported, count_one, f2. record_simpl. rewrite O4, O5, Hd.
    rewrite decode_app; [|rewrite (counted_base _ _ _ Hc); apply wrap_fits; lia|rewrite <- counted_types0, Hd; done].
    assert (∀ q u, fits 16 q → decode q u syms1 (f_deltas f) = decode q u syms (f_deltas f)) as Hmiss.
    { intros q u Hq. unfold syms1. rewrite <- (app_nil_r (f_deltas f)) at 1. rewrite decode_app by (try done; by rewrite (counted_types _ _ _ Hc)).
      unfold miss. by rewrite decode_missing, app_nil_r. }
    rewrite Hmiss by (rewrite (counted_base _ _ _ Hc); apply wrap_fits; lia). f_equal. cbn [decode]. rewrite Hs2. cbn [delta].
    rewrite (counted_base _ _ _ Hc), (counted_time _ _ _ Hc), Hl1. unfold TYPE_TCC_DELTA_SCALE_FACTOR. do 2 f_equal. unfold wrap. rewrite Zplus_mod_idemp_l. f_equal. lia.
Qed.

(** * The packet *)

(** All chunks but the last are full. *)
Inductive full_but_last : list PacketStatusChunk → Prop :=
| fbl_nil : full_but_last []
| fbl_last c : full_but_last [c]
| fbl_cons c cs : chunk_full c → full_but_last cs → full_but_last (c :: cs).

Lemma full_app cs cs' : Forall chunk_full cs → full_but_last cs' → full_but_last (cs ++ cs').
Proof. intros Hc Hl. induction Hc; [done|]. cbn [app]. by constructor. Qed.

Lemma flush_loop_spec fuel l :
  chunk_fits l → (length l <= fuel)%nat →
  ∃ cs, flush_loop fuel (chunk_of l) = Ok cs ∧ concat (chunk_symbols <$> cs) = l ∧ Forall chunk_shape cs ∧ full_but_last cs.
Proof.
  revert l. induction fuel as [|fuel IH]; intros l Hl Hf; cbn [flush_loop chunk_of chunk_deltas].
  - destruct l; [|cbn in Hf; lia]. exists []. split_and!; [done..|constructor|constructor].
  - destruct l as [|x l']; [exists []; split_and!; [done..|constructor|constructor]|]. set (l := x :: l') in *.
    destruct (encode_spec l) as (c & r & Ec & Es & Hr & Hsh & Hlt & _ & Hfull); [done|done|]. fold (chunk_of l). rewrite Ec. cbn [rbind].
    destruct (IH r Hr) as (cs & E & Esym & Hcs & Hb); [lia|]. rewrite E. cbn [rbind]. exists (c :: cs). split_and!; [done| |by constructor|].
    + cbn [fmap list_fmap concat]. by rewrite Esym.
    + destruct Hfull as [Hfull|[-> _]]; [by constructor|]. assert (cs = []) as ->; [|constructor].
      destruct fuel; cbn in E; congruence.
Qed.

Definition pad_chunk (c : PacketStatusChunk) : PacketStatusChunk :=
  match c with
  | StatusVector (mkStatusVector t TwoBit l) => StatusVector (mkStatusVector t TwoBit (l ++ replicate (7 - length l) PacketNotReceived))
  | _ => c
  end.

(** The packet as it is read: the symbols that fill up the last vector are those of packets that are not received. *)
Definition padded (p : TransportLayerCc) : TransportLayerCc :=
  mkTcc (tcc_sender_ssrc p) (tcc_media_ssrc p) (base_sequence_number p) (packet_status_count p) (reference_time p) (fb_pkt_count p)
    (pad_chunk <$> packet_chunks p) (recv_deltas p).

Lemma put_missing n i x :
  0 <= i → i + Z.of_nat n <= 7 → put_symbols 2 i x (replicate n PacketNotReceived) = Ok x.
Proof.
  revert i. induction n as [|n IH]; intros i Hi Hn; [done|]. cbn [replicate put_symbols]. rewrite (wrap_small 16 i) by (unfold fits; lia).
  rewrite wrap_small by (unfold fits; lia). unfold set_nbits_of_uint16. rewrite (proj2 (Z.ltb_ge _ _)) by lia. cbn [symbol_u16].
  rewrite Z.land_0_l, Z.shiftl_0_l. change (u16 0) with 0. rewrite Z.lor_0_r. cbn [rbind]. apply IH; lia.
Qed.

Lemma pad_word c : chunk_shape c → status_word (pad_chunk c) = status_word c.
Proof.
  destruct c as [c|[t [] l]]; [done..|]. cbn. intros [_ Hl]. unfold status_vector_word. cbn [symbol_size symbol_list num_of_bits_of_symbol_size].
  destruct (set_nbits_of_uint16 0 1 0 1) as [x| |]; [|done..]. cbn [rbind]. destruct (set_nbits_of_uint16 x 1 1 _) as [y| |]; [|done..]. cbn [rbind].
  rewrite put_symbols_app. destruct (put_symbols 2 0 y l) as [z| |]; [|done..]. cbn [rbind]. apply put_missing; lia.
Qed.

Lemma pad_wf c : chunk_shape c → status_wf (pad_chunk c).
Proof.
  destruct c as [[t s n]|[t [] l]]; cbn.
  - intros [-> Hn]. split; [done|]. unfold MAX_RUN_LENGTH_CAP in Hn. unfold fits. lia.
  - done.
  - intros [-> Hl]. split; [done|]. rewrite length_app, length_replicate. lia.
Qed.

Lemma received_filter (l : list SymbolTypeTcc) (P : SymbolTypeTcc → Prop) `{!∀ x, Decision (P x)} :
  (∀ s, s ∈ l → P s ↔ is_received s = true) → filter P l = received l.
Proof.
  unfold received. induction l as [|s l IH]; intros Hr; [done|]. cbn [List.filter]. rewrite filter_cons.
  rewrite IH by (intros x Hx; apply Hr; by right). pose proof (Hr s ltac:(left)) as Hs. destruct (decide (P s)) as [HP|HP]; [by rewrite (proj1 Hs HP)|].
  destruct (is_received s); [by destruct HP; apply Hs|done].
Qed.

Lemma vector_received c : chunk_shape (StatusVector c) → vector_deltas (match pad_chunk (StatusVector c) with StatusVector c => c | _ => c end) = received (symbol_list c).
Proof.
  destruct c as [t [] l]; cbn.
  - intros (_ & _ & Hl). unfold vector_deltas. cbn [symbol_size symbol_list]. apply received_filter. intros s Hs. rewrite Forall_forall in Hl. specialize (Hl s Hs).
    apply elem_of_cons in Hl as [->|Hl]; [done|]. apply list_elem_of_singleton in Hl as ->. done.
  - intros _. unfold vector_deltas. cbn [symbol_size symbol_list]. rewrite (received_filter (l ++ _)).
    + by rewrite received_app, received_missing, app_nil_r.
    + intros [] _; cbn; intuition congruence.
Qed.

Lemma run_received s n : 0 <= n → run_deltas s n = received (replicate (Z.to_nat n) s).
Proof.
  intros _. unfold run_deltas, received. assert ((bool_decide (s = PacketReceivedSmallDelta) || bool_decide (s = PacketReceivedLargeDelta)) = is_received s) as -> by (by destruct s).
  destruct (is_received s) eqn:E; induction (Z.to_nat n) as [|k IH]; cbn [replicate List.filter]; rewrite ?E; congruence.
Qed.

Lemma shape_symbols c : chunk_shape c → 1 <= len (chunk_symbols c).
Proof.
  destruct c as [[t s n]|[t [] l]]; cbn.
  - intros [_ Hn]. rewrite len_replicate. lia.
  - intros (_ & E & _). unfold len. lia.
  - intros (_ & Hn). unfold len. lia.
Qed.

(** What one chunk announces: its deltas, and as many packets as it has symbols if it is full *)
Lemma step_spec count processed c :
  chunk_shape c → 0 <= processed → processed + len (chunk_symbols c) <= count → count <= 65535 →
  ∃ n, status_step count processed (pad_chunk c) = (received (chunk_symbols c), n) ∧ processed + len (chunk_symbols c) <= n ∧
  (chunk_full c → n = processed + len (chunk_symbols c)).
Proof.
  intros Hs Hp Hc Hm. destruct c as [[t s n]|c].
  - cbn in Hs |- *. destruct Hs as [_ Hn]. cbn [chunk_symbols run_length packet_status_symbol] in Hc |- *. rewrite len_replicate in *. rewrite Z2Nat.id in * by lia.
    rewrite Z.min_r by lia. rewrite run_received by lia. eexists. split; [done|]. unfold saturating_add16. lia.
  - pose proof (vector_received c Hs) as Hv. destruct c as [t [] l]; cbn in Hs, Hv |- *; rewrite Hv; (eexists; split; [done|]);
      cbn [chunk_symbols symbol_list] in *; unfold saturating_add16, chunk_full; cbn [chunk_symbols symbol_list].
    + rewrite wrap_small by (unfold fits; pose proof (len_nonneg l); lia). lia.
    + destruct Hs as [_ Hl]. rewrite len_app, len_replicate. assert (len l + Z.of_nat (7 - length l) = 7) as -> by (unfold len; lia). rewrite wrap_small by done.
      unfold len in *. lia.
Qed.

Lemma announced_spec count processed cs :
  Forall chunk_shape cs → full_but_last cs → 0 <= processed → processed + len (concat (chunk_symbols <$> cs)) = count → count <= 65535 →
  announced count processed (pad_chunk <$> cs) = Some (received (concat (chunk_symbols <$> cs))).
Proof.
  intros Hs Hb. revert processed Hs. induction Hb as [|c|c cs Hf Hb IH]; intros processed Hs Hp Hc Hm; cbn [fmap list_fmap concat announced] in *.
  - change (len []) with 0 in Hc. by rewrite (proj2 (Z.ltb_ge _ _)) by lia.
  - apply Forall_cons in Hs as [Hs _]. rewrite app_nil_r in *. pose proof (shape_symbols c Hs). rewrite (proj2 (Z.ltb_lt _ _)) by lia.
    destruct (step_spec count processed c Hs) as (n & E & Hn & _); [lia..|]. rewrite E. rewrite (proj2 (Z.ltb_ge _ _)) by lia. cbn. by rewrite app_nil_r.
  - apply Forall_cons in Hs as [Hs Hcs]. rewrite len_app in Hc. pose proof (shape_symbols c Hs). pose proof (len_nonneg (concat (chunk_symbols <$> cs))).
    rewrite (proj2 (Z.ltb_lt _ _)) by lia. destruct (step_spec count processed c Hs) as (n & E & _ & Hn); [lia..|]. rewrite E. rewrite (Hn Hf), IH by (done || lia).
    cbn. by rewrite received_app.
Qed.

Lemma padded_symbols cs :
  Forall chunk_shape cs → full_but_last cs →
  ∃ k, concat (chunk_symbols <$> (pad_chunk <$> cs)) = concat (chunk_symbols <$> cs) ++ replicate k PacketNotReceived.
Proof.
  assert (∀ c, chunk_shape c → ∃ k, chunk_symbols (pad_chunk c) = chunk_symbols c ++ replicate k PacketNotReceived ∧ (chunk_full c → k = 0%nat)) as Hpad.
  { intros [[t s n]|[t [] l]] Hs; cbn in Hs; [exists 0%nat; cbn; by rewrite app_nil_r..|]. exists (7 - length l)%nat. cbn. split; [done|].
    unfold chunk_full. cbn [chunk_symbols symbol_list]. unfold len. lia. }
  intros Hs Hb. induction Hb as [|c|c cs Hf Hb IH]; cbn [fmap list_fmap concat].
  - by exists 0%nat.
  - apply Forall_cons in Hs as [Hs _]. destruct (Hpad c Hs) as (k & -> & _). exists k. by rewrite !app_nil_r.
  - apply Forall_cons in Hs as [Hs Hcs]. destruct (Hpad c Hs) as (k & -> & Hk). rewrite (Hk Hf). destruct (IH Hcs) as (k' & E). exists k'.
    cbn [replicate]. by rewrite app_nil_r, E, app_assoc.
Qed.

Lemma chunks_bound cs : full_but_last cs → Forall chunk_shape cs → 7 * (len cs - 1) <= len (concat (chunk_symbols <$> cs)).
Proof.
  intros Hb Hs. induction Hb as [|c|c cs Hf Hb IH]; cbn [fmap list_fmap concat];
    [unfold len; cbn; lia|change (len [c]) with 1; pose proof (len_nonneg (chunk_symbols c ++ [])); lia|].
  apply Forall_cons in Hs as [_ Hs]. rewrite len_app, len_cons. specialize (IH Hs). unfold chunk_full in Hf. lia.
Qed.

Section Wire.
Context {BC : BytesCrate}.

Lemma pad_put cs w : Forall chunk_shape cs → put_all put_marshal (pad_chunk <$> cs) w = put_all put_marshal cs w.
Proof.
  intros Hc. revert w. induction Hc as [|c cs Hs _ IH]; intros w; [done|]. cbn [fmap list_fmap put_all].
  assert (∀ buf, marshal_to (pad_chunk c) buf = marshal_to c buf) as E.
  { assert (∀ x buf, marshal_to x buf = rbind (status_word x) (λ dst, rbind (put_u16 dst (Wbuf [] buf)) (finish 2))) as Hm by (by intros []).
    intros buf. by rewrite !Hm, pad_word. }
  assert (put_marshal (pad_chunk c) w = put_marshal c w) as -> by (unfold put_marshal; by rewrite E). destruct (put_marshal c w) as [w'| |]; [|done..]. apply IH.
Qed.

Lemma padded_marshal p : Forall chunk_shape (packet_chunks p) → marshal p = marshal (padded p).
Proof.
  intros Hc. assert (raw_size (padded p) = raw_size p) as Er by (cbn; unfold len; by rewrite length_fmap).
  assert (marshal_size (padded p) = marshal_size p) as Es by (unfold marshal_size, tcc_size, aligned_size; by rewrite Er).
  assert (header (padded p) = header p) as Eh by (cbn; unfold len; by rewrite length_fmap).
  assert (∀ buf, marshal_to (padded p) buf = marshal_to p buf) as Em.
  { intros buf. unfold marshal_to, tcc_marshal_to. rewrite Es, Eh, Er. cbn [padded tcc_sender_ssrc tcc_media_ssrc base_sequence_number packet_status_count reference_time fb_pkt_count packet_chunks recv_deltas].
    destruct (len buf <? marshal_size p); [done|]. destruct (put_marshal (header p) (Wbuf [] buf)) as [w1| |]; [|done..]. cbn [rbind].
    repeat match goal with |- rbind ?m _ = rbind ?m _ => destruct m as [?| |]; [cbn [rbind]|done..] end. by rewrite pad_put. }
  unfold marshal. by rewrite Es, Em.
Qed.

(** A feedback that was built is written, and read as one that says the same. *)
Lemma feedback_read base f syms :
  counted base f syms → received syms ≠ [] → fits 24 (f_ref_timestamp_64ms f) →
  fits 32 (f_sender_ssrc f) → fits 32 (f_media_ssrc f) → byte_ok (f_fb_pkt_cnt f) →
  ∃ p bs, get_rtcp f = Ok p ∧ marshal p = Ok bs ∧ tcc_unmarshal bs = Ok (padded p, []) ∧ report (padded p) = reported f syms.
Proof.
  intros [] Hne Href Hss Hms Hcnt. destruct counted_packed0 as (Hcs & l & El & Hl & Es). unfold get_rtcp. rewrite El. cbn [chunk_of chunk_deltas].
  fold (chunk_of l). destruct (flush_loop_spec (length l) l Hl) as (cs & Ef & Esym & Hsh & Hb); [done|]. rewrite Ef. cbn [rbind].
  rewrite (wrap_small 32) by (unfold fits in *; lia). set (p := mkTcc _ _ _ _ _ _ _ _).
  assert (Forall chunk_shape (packet_chunks p)) as Hsp by (apply Forall_app; split; [|done]; by eapply Forall_impl; [exact Hcs|]; intros c []).
  assert (full_but_last (packet_chunks p)) as Hbp by (apply full_app; [|done]; by eapply Forall_impl; [exact Hcs|]; intros c []).
  assert (concat (chunk_symbols <$> packet_chunks p) = syms) as Esp by (cbn [packet_chunks p]; by rewrite fmap_app, concat_app, Esym).
  pose proof (chunks_bound _ Hbp Hsp) as Hn. rewrite Esp in Hn.
  assert (length (recv_deltas p) = length (received syms)) as Hld by (rewrite <- counted_types0, length_fmap; done).
  assert (length (received syms) <= length syms)%nat as Hlr by (apply List.filter_length_le).
  assert (raw_size (padded p) = 20 + 2 * len (packet_chunks p) + len (concat (delta_bytes <$> recv_deltas p))) as Hraw
    by (rewrite tcc_raw_size; cbn [padded packet_chunks recv_deltas]; unfold len; by rewrite length_fmap).
  assert (1 <= len (concat (delta_bytes <$> recv_deltas p)) <= 2 * len (recv_deltas p)) as Hdl.
  { assert (∀ ds, len ds <= len (concat (delta_bytes <$> ds)) <= 2 * len ds) as H.
    { intros ds. induction ds as [|d ds IH]; [done|]. cbn [fmap list_fmap concat]. rewrite len_app, len_delta, len_cons. unfold delta_len. destruct (bool_decide _); lia. }
    specialize (H (recv_deltas p)). assert (1 <= len (recv_deltas p)); [|lia]. unfold len. rewrite Hld. destruct (received syms); [done|cbn; lia]. }
  assert (tcc_wf (padded p)) as Hwf.
  { assert (len (packet_chunks (padded p)) = len (packet_chunks p)) as Hlc by (unfold len; cbn [padded packet_chunks]; by rewrite length_fmap).
    assert (len syms <= 65535 ∧ len (recv_deltas p) <= len syms) as [Hls Hlds] by (unfold len in *; lia).
    split_and!; try done.
    - change (fits 16 (f_base f)). rewrite counted_base0. apply wrap_fits. lia.
    - change (fits 16 (f_count f)). rewrite counted_count0. unfold fits. pose proof (len_nonneg syms). lia.
    - cbn [padded packet_chunks]. apply Forall_fmap. eapply Forall_impl; [exact Hsp|]. apply pad_wf.
    - cbn [padded packet_chunks recv_deltas packet_status_count]. rewrite announced_spec; [by rewrite Esp; cbn [p recv_deltas]; rewrite counted_types0|done|done|done|by rewrite Esp|].
      change (f_count f <= 65535). lia.
    - unfold aligned_size. pose proof (padding_size_bounds (raw_size (padded p))). rewrite Hraw in *. rewrite Hlc. lia.
    - rewrite Hraw. lia. }
  exists p, (frame (padded p) (tcc_body (padded p))). split_and!; [done|rewrite padded_marshal by done; by apply encodes_marshal, tcc_encodes|by apply tcc_read|].
  unfold report, reported. cbn [padded base_sequence_number reference_time packet_status_count packet_chunks recv_deltas].
  destruct (padded_symbols _ Hsp Hbp) as (k & ->). rewrite Esp. cbn [p base_sequence_number reference_time packet_status_count recv_deltas]. rewrite counted_count0.
  unfold len. by rewrite Nat2Z.id, take_app_length.
Qed.

End Wire.

(** * From arrivals to feedback *)

(** The packets that arrived, of a range of numbers *)
Definition arrived (m : PacketArrivalTimeMap) (a b : Z) : list (Z * Z) :=
  omap (λ n, let t := arrival m n in if 0 <=? t then Some (n, t) else None) (seqZ a (b - a)).

(** A report of a packet: its number modulo 2^16, and its time to 125 microseconds *)
Definition near (rep pkt : Z * Z) : Prop := rep.1 = u16 pkt.1 ∧ Z.abs (rep.2 - pkt.2) <= 125.

Lemma arrived_app m a b c : a <= b <= c → arrived m a c = arrived m a b ++ arrived m b c.
Proof.
  intros H. unfold arrived. replace (c - a) with ((b - a) + (c - b)) by lia. rewrite seqZ_app, omap_app by lia. by replace (a + (b - a)) with b by lia.
Qed.

Lemma arrived_none m a b : (∀ n, a <= n < b → arrival m n < 0) → arrived m a b = [].
Proof.
  intros H. unfold arrived. assert (∀ l, (∀ n, n ∈ l → arrival m n < 0) → omap (λ n, let t := arrival m n in if 0 <=? t then Some (n, t) else None) l = []) as Hl.
  { induction l as [|x l IH]; intros Hx; [done|]. cbn. rewrite (proj2 (Z.leb_gt _ _)) by (apply Hx; left). apply IH. intros n Hn. apply Hx. by right. }
  apply Hl. intros n Hn%elem_of_seqZ. apply H. lia.
Qed.

(** Up to the next packet that arrived *)
Lemma arrived_next m a n : a <= n → (∀ x, a <= x < n → arrival m x < 0) → 0 <= arrival m n → arrived m a (n + 1) = [(n, arrival m n)].
Proof.
  intros Ha Hx H0. rewrite (arrived_app m a n (n + 1)) by lia. rewrite arrived_none by done. unfold arrived. replace (n + 1 - n) with 1 by lia.
  rewrite seqZ_cons by lia. cbn. by rewrite (proj2 (Z.leb_le _ _)).
Qed.

Lemma loop_some fuel r begin_ end_ base f syms seq cnt :
  let m := arrival_time_map r in
  map_ok m → end_ <= end_sequence_number m → counted base f syms → base + len syms = seq → end_ - base <= 65535 → end_ - seq <= Z.of_nat fuel → seq <= end_ →
  ∃ f' syms' next rep, feedback_loop fuel r begin_ end_ seq (Some f) cnt seq = Ok (Some f', cnt, next) ∧
  counted base f' syms' ∧ same_origin f f' ∧ seq <= next <= end_ ∧ reported f' syms' = reported f syms ++ rep ∧ Forall2 near rep (arrived m seq next).
Proof.
  intros m Hm He. revert f syms seq. induction fuel as [|fuel IH]; intros f syms seq Hc Hb Hsz Hf Hle.
  - cbn [feedback_loop]. rewrite (proj2 (Z.ltb_ge _ _)) by lia. exists f, syms, seq, []. split_and!; try done; [by rewrite app_nil_r|]. rewrite arrived_none by lia. constructor.
  - assert (∃ f' syms' next rep, Ok (Some f, cnt, seq) = Ok (Some f', cnt, next) ∧ counted base f' syms' ∧ same_origin f f' ∧ seq <= next <= end_ ∧
      reported f' syms' = reported f syms ++ rep ∧ Forall2 near rep (arrived m seq next)) as Hstop.
    { exists f, syms, seq, []. split_and!; try done; [by rewrite app_nil_r|]. rewrite arrived_none by lia. constructor. }
    cbn [feedback_loop]. destruct (Z.ltb_spec seq end_) as [Hlt|Hge]; [|done]. fold m.
    destruct (find_next_spec m seq Hm) as (x & E & Hx). rewrite E. cbn [rbind]. destruct x as [[n t]|]; [|done].
    destruct Hx as (Hr & Et & H0 & Hgap). destruct (Z.leb_spec end_ n) as [|Hn]; [done|].
    destruct (decide (-32768 <= delta_250us (t - f_last_timestamp_us f) <= 32767)) as [Hd|Hd]; [|rewrite add_refused by done; done].
    destruct (add_received_spec base n t f syms Hc) as (f1 & syms1 & E1 & Hc1 & Ho1 & Hl1 & t' & Er1 & Ht1); [lia|lia|done|]. rewrite E1. cbn [rbind].
    destruct (IH f1 syms1 (n + 1) Hc1) as (f2 & syms2 & next & rep & E2 & Hc2 & Ho2 & Hr2 & Er2 & Hf2); [lia|lia|lia|lia|]. rewrite E2.
    exists f2, syms2, next, ((u16 n, t') :: rep). split_and!; [done|done| |lia|lia|by rewrite Er2, Er1, <- app_assoc|].
    + destruct Ho1 as (? & ? & ? & ? & ?), Ho2 as (? & ? & ? & ? & ?). split_and!; congruence.
    + rewrite (arrived_app m seq (n + 1) next) by lia. rewrite arrived_next by (done || lia). constructor; [split; [done|cbn; by rewrite Et]|done].
Qed.

Definition times_ok (m : PacketArrivalTimeMap) : Prop := ∀ n, arrival m n < 2 ^ 24 * 64000.

Lemma set_base_counted base s md cnt t :
  counted base (set_base (u16 base) t (feedback_new s md cnt)) [].
Proof.
  split; unfold set_base, feedback_new; record_simpl; try done.
  - split; [constructor|]. exists []. split_and!; [done|apply fits_nil|done].
  - by rewrite Z.add_0_r.
  - cbn. lia.
Qed.

Lemma base_fits base s md cnt t : 0 <= t → delta_fits (set_base (u16 base) t (feedback_new s md cnt)) t.
Proof.
  intros Ht. unfold delta_fits, set_base, feedback_new. record_simpl. rewrite Z.quot_div_nonneg by lia.
  pose proof (Z_div_mod_eq_full t 64000). pose proof (Z.mod_pos_bound t 64000). pose proof (delta_rounds (t - t / 64000 * 64000)). lia.
Qed.

(** One feedback packet: there is nothing to report, or it reports what arrived up to a number further on. *)
Lemma loop_none r begin_ :
  let m := arrival_time_map r in
  map_ok m → times_ok m → begin_sequence_number m <= begin_ <= end_sequence_number m →
  let res := feedback_loop (Z.to_nat (end_sequence_number m - begin_)) r begin_ (end_sequence_number m) begin_ None (fb_pkt_cnt r) begin_ in
  (res = Ok (None, fb_pkt_cnt r, begin_) ∧ arrived m begin_ (end_sequence_number m) = []) ∨
  ∃ base f syms next, res = Ok (Some f, u8 (fb_pkt_cnt r + 1), next) ∧ counted base f syms ∧ received syms ≠ [] ∧ begin_ < next <= end_sequence_number m ∧
  f_sender_ssrc f = rec_sender_ssrc r ∧ f_media_ssrc f = rec_media_ssrc r ∧ f_fb_pkt_cnt f = fb_pkt_cnt r ∧ fits 24 (f_ref_timestamp_64ms f) ∧
  Forall2 near (reported f syms) (arrived m begin_ next).
Proof.
  intros m Hm Ht Hb. cbv zeta. set (e := end_sequence_number m) in *. destruct (Z.to_nat (e - begin_)) as [|fuel] eqn:Ef; cbn [feedback_loop].
  { rewrite (proj2 (Z.ltb_ge _ _)) by lia. left. split; [done|]. apply arrived_none. lia. }
  rewrite (proj2 (Z.ltb_lt _ _)) by lia. fold m. destruct (find_next_spec m begin_ Hm) as (x & E & Hx). rewrite E. cbn [rbind].
  destruct x as [[n t]|]; [|left; split; [done|]; apply arrived_none; intros n Hn; apply Hx; lia].
  destruct Hx as (Hr & Et & H0 & Hgap). fold e in Hr. rewrite (proj2 (Z.leb_gt _ _)) by lia. right.
  set (base := Z.max begin_ (n - MAX_MISSING_SEQUENCE_NUMBERS)). set (f := set_base (u16 base) t (feedback_new (rec_sender_ssrc r) (rec_media_ssrc r) (fb_pkt_cnt r))).
  assert (e - begin_sequence_number m <= 32768) as Hsize.
  { destruct Hm as [->|[k Hk]]; [done|]. pose proof (shape_max k m Hk). pose proof (shape_size k m Hk). unfold MAX_NUMBER_OF_PACKETS in *. fold e in H1. lia. }
  unfold MAX_MISSING_SEQUENCE_NUMBERS in base.
  destruct (add_received_spec base n t f [] (set_base_counted _ _ _ _ _)) as (f1 & syms1 & E1 & Hc1 & Ho1 & Hl1 & t' & Er1 & Ht1).
  { change (len []) with 0. unfold base. lia. }
  { unfold base. lia. }
  { by apply base_fits. }
  change (Z.max begin_ (n - MAX_MISSING_SEQUENCE_NUMBERS)) with base. fold f. rewrite E1. cbn [rbind].
  destruct (loop_some fuel r begin_ e base f1 syms1 (n + 1) (u8 (fb_pkt_cnt r + 1)) Hm) as (f2 & syms2 & next & rep & E2 & Hc2 & Ho2 & Hr2 & Er2 & Hf2);
    [done|done|lia|unfold base; lia|lia|lia|].
  exists base, f2, syms2, next. rewrite E2. destruct Ho1 as (O1 & O2 & O3 & O4 & O5), Ho2 as (P1 & P2 & P3 & P4 & P5).
  assert (reported f2 syms2 = (u16 n, t') :: rep) as Erep by (rewrite Er2, Er1; done).
  split_and!; [done|done| |lia|lia|rewrite P1, O1; done|rewrite P2, O2; done|rewrite P3, O3; done| |].
  - intros Hne. pose proof (counted_types _ _ _ Hc2) as Hty. rewrite Hne in Hty. apply fmap_nil_inv in Hty. unfold reported in Erep. rewrite Hty in Erep.
    clear -Erep Hne. revert Erep Hne. generalize (f_base f2) (f_ref_timestamp_64ms f2 * 64000). induction syms2 as [|s l IH]; intros q u; [done|].
    unfold received. cbn [List.filter decode]. destruct (is_received s); [done|]. apply IH.
  - rewrite P5, O5. unfold f, set_base, feedback_new. record_simpl. rewrite Z.quot_div_nonneg by lia. specialize (Ht n). rewrite Et in Ht. unfold fits.
    split; [apply Z.div_pos; lia|apply Z.div_lt_upper_bound; lia].
  - rewrite Erep, (arrived_app m begin_ (n + 1) next) by lia. rewrite arrived_next by (done || lia). constructor; [split; [done|cbn; by rewrite Et]|done].
Qed.
