(* ===== verification/TwccFlow.v ===== *)
(** The life of a recorder of congestion feedback ([rtc-interceptor/src/twcc/recorder.rs], modelled in
    Twcc.v): packets are recorded and feedback is built, in any order.

    [pending] are the packets that the next feedback is to report; [record_spec] and [build_spec] say
    what the two operations do to them, and [feedback_exact] that the feedback, once it is read by the
    peer, says what arrived. *)

From stdpp Require Import sorting.
From S2P Require Import Prelude Codec Rtcp RtcpReport RtcpFeedback RtcpTwcc TwccMap Twcc.

Section Recorder.
Context {BC : BytesCrate}.

(** * The recorder *)

Definition pending (r : Recorder) : list (Z * Z) :=
  match start_sequence_number r with
  | None => []
  | Some s => arrived (arrival_time_map r) s (end_sequence_number (arrival_time_map r))
  end.

Record rec_ok (r : Recorder) : Prop := {
  rec_map : map_ok (arrival_time_map r);
  rec_times : times_ok (arrival_time_map r);
  rec_start : match start_sequence_number r with
              | None => arrival_time_map r = map_new
              | Some s => arrival_times (arrival_time_map r) ≠ [] ∧ begin_sequence_number (arrival_time_map r) <= s <= end_sequence_number (arrival_time_map r)
              end;
  rec_ssrcs : fits 32 (rec_sender_ssrc r) ∧ fits 32 (rec_media_ssrc r) ∧ byte_ok (fb_pkt_cnt r)
}.

(** The peer reads [p'] where [p] was sent. *)
Definition transfers (p p' : TransportLayerCc) : Prop := ∃ bs, marshal p = Ok bs ∧ tcc_unmarshal bs = Ok (p', []).

Definition reports_exactly (ps : list TransportLayerCc) (pkts : list (Z * Z)) : Prop :=
  ∃ ps', Forall2 transfers ps ps' ∧ Forall2 near (concat (report <$> ps')) pkts.

Lemma reports_app ps qs x y : reports_exactly ps x → reports_exactly qs y → reports_exactly (ps ++ qs) (x ++ y).
Proof. intros (ps' & H1 & H2) (qs' & H3 & H4). exists (ps' ++ qs'). rewrite fmap_app, concat_app. split; by apply Forall2_app. Qed.

Lemma build_loop_spec fuel start r :
  let m := arrival_time_map r in
  rec_ok r → start_sequence_number r = Some start → end_sequence_number m - start <= Z.of_nat fuel →
  ∃ ps r' s', build_loop fuel start (end_sequence_number m) r = Ok (ps, r') ∧ rec_ok r' ∧ arrival_time_map r' = m ∧
  start_sequence_number r' = Some s' ∧ arrived m s' (end_sequence_number m) = [] ∧ reports_exactly ps (arrived m start (end_sequence_number m)).
Proof.
  intros m. remember (end_sequence_number m) as e eqn:Ee. assert (arrival_time_map r = m) as Em by done. clearbody m.
  revert start r Em. induction fuel as [|fuel IH]; intros start r Em Hr Es Hf; pose proof Hr as []; rewrite Es, Em in *; destruct rec_start0 as [Hne Hs]; cbn [build_loop].
  - rewrite (proj2 (Z.ltb_ge _ _)) by lia. exists [], r, start. rewrite arrived_none by lia. split_and!; try done. exists []. split; constructor.
  - destruct (Z.ltb_spec start e) as [Hlt|Hge].
    2:{ exists [], r, start. rewrite arrived_none by lia. split_and!; try done. exists []. split; constructor. }
    unfold maybe_build_feedback_packet. rewrite Em. unfold clamp. rewrite (Z.max_l start), (Z.min_l start), (Z.max_l e), Z.min_l by lia.
    pose proof (loop_none r start) as Hl. cbv zeta in Hl. rewrite Em, <- Ee in Hl. specialize (Hl rec_map0 rec_times0 ltac:(lia)).
    destruct Hl as [[E Hn]|(base & f & syms & next & E & Hc & Hrec & Hnext & O1 & O2 & O3 & Href & Hrep)]; rewrite E; cbn [rbind].
    + eexists [], _, start. split; [reflexivity|]. split_and!; try done; [|exists []; rewrite Hn; split; constructor].
      split; record_simpl; rewrite ?Em; try done.
    + destruct rec_ssrcs0 as (S1 & S2 & S3).
      destruct (feedback_read base f syms Hc Hrec Href) as (p & bs & Ep & Eb & Eu & Erep); [by rewrite O1|by rewrite O2|by rewrite O3|]. rewrite Ep. cbn [rbind].
      set (r1 := r <| fb_pkt_cnt := u8 (fb_pkt_cnt r + 1) |> <| start_sequence_number := Some next |>). change (start_sequence_number r1) with (Some next). cbn [default].
      destruct (IH next r1) as (ps & r' & s' & E' & Hr' & Em' & Es' & Hn' & Hp'); [done| |done|lia|].
      { split; unfold r1; record_simpl; rewrite ?Em; try done; [split; [done|]; rewrite <- Ee; lia|]. split_and!; [done|done|]. apply wrap_fits. lia. }
      change (Datatypes.id next) with next. rewrite E'. cbn [rbind]. exists (p :: ps), r', s'. split_and!; try done.
      rewrite (arrived_app m start next e) by lia. apply (reports_app [p] ps); [|done]. exists [padded p]. split; [constructor; [by exists bs|constructor]|].
      cbn [fmap list_fmap concat]. by rewrite app_nil_r, Erep.
Qed.

Lemma build_spec r :
  rec_ok r → ∃ ps r', build_feedback_packet r = Ok (ps, r') ∧ rec_ok r' ∧ arrival_time_map r' = arrival_time_map r ∧ pending r' = [] ∧ reports_exactly ps (pending r).
Proof.
  intros Hr. unfold build_feedback_packet, pending. destruct (start_sequence_number r) as [s|] eqn:Es.
  - destruct (build_loop_spec (Z.to_nat (end_sequence_number (arrival_time_map r) - s)) s r Hr Es) as (ps & r' & s' & E & Hr' & Em & Es' & Hn & Hp); [lia|].
    rewrite E. cbn [rbind]. eexists ps, _. split; [reflexivity|]. split_and!; record_simpl; try done.
    + destruct Hr'. by split; record_simpl.
    + by rewrite Es', Em.
  - exists [], r. split_and!; try done; [by rewrite Es|]. exists []. split; constructor.
Qed.

Lemma elem_arrived m a b n t : (n, t) ∈ arrived m a b ↔ a <= n < b ∧ arrival m n = t ∧ 0 <= t.
Proof.
  unfold arrived. rewrite list_elem_of_omap. split.
  - intros (x & Hx%elem_of_seqZ & E). cbv zeta in E. destruct (Z.leb_spec 0 (arrival m x)); [|done]. injection E as <- <-. split_and!; (done || lia).
  - intros (Hr & <- & H0). exists n. cbv zeta. rewrite (proj2 (Z.leb_le _ _)) by done. split; [|done]. apply elem_of_seqZ. lia.
Qed.

(** The map and the start after the packets that are too old have been culled *)
Lemma cull_spec sn t r :
  rec_ok r →
  ∃ m, maybe_cull_old_packets sn t r = Ok (r <| arrival_time_map := m |>) ∧ map_ok m ∧ end_sequence_number m = end_sequence_number (arrival_time_map r) ∧
  (arrival_times m = [] ↔ arrival_times (arrival_time_map r) = []) ∧ begin_sequence_number (arrival_time_map r) <= begin_sequence_number m <= end_sequence_number m ∧
  (match start_sequence_number r with None => m = arrival_time_map r | Some s => begin_sequence_number m <= s end) ∧
  (∀ n, arrival m n = arrival (arrival_time_map r) n ∨ arrival m n = -1 ∧ n < sn ∧ pending r = []).
Proof.
  intros []. unfold maybe_cull_old_packets. assert (r = r <| arrival_time_map := arrival_time_map r |>) as Er by (by destruct r).
  pose proof (ok_range _ rec_map0). assert (Ok r = Ok (r <| arrival_time_map := arrival_time_map r |>)) as Eo by (by f_equal).
  destruct (start_sequence_number r) as [s|] eqn:Es; [|exists (arrival_time_map r); split_and!; try done; by left].
  destruct (Z.leb_spec (end_sequence_number (arrival_time_map r)) s) as [Hs|]; cbn [andb]; [|exists (arrival_time_map r); split_and!; try done; [lia|]; by left].
  destruct (Z.leb_spec PACKET_WINDOW_MICROSECONDS t) as [Ht|]; [|exists (arrival_time_map r); split_and!; try done; [lia|]; by left].
  destruct (remove_old_packets_spec sn (t - PACKET_WINDOW_MICROSECONDS) _ rec_map0) as (m & E & Hm & F & He & Hb & Ha & Hold). rewrite E. cbn [rbind].
  exists m. split_and!; try done; [lia|lia|lia|]. intros n. rewrite Ha. case_decide as Hn; [by left|].
  destruct (decide (begin_sequence_number (arrival_time_map r) <= n)) as [Hin|Hout]; [|left; symmetry; apply arrival_outside; [done|lia]].
  right. split_and!; [done|apply Hold; lia|]. unfold pending. rewrite Es. apply arrived_none. lia.
Qed.

(** The packet is not 32768 or more numbers older than the newest one. *)
Definition recent (r : Recorder) (sn : Z) : Prop :=
  arrival_times (arrival_time_map r) = [] ∨ end_sequence_number (arrival_time_map r) - sn <= MAX_NUMBER_OF_PACKETS.

(** What [record] does to the recorder *)
Record recorded (sn t : Z) (r r' : Recorder) : Prop := {
  recorded_last : last_unwrapped r' = Some sn;
  recorded_start : start_sequence_number r' = Some (Z.max (match start_sequence_number r with None => sn | Some s => Z.min s sn end) (begin_sequence_number (arrival_time_map r')));
  recorded_end : end_sequence_number (arrival_time_map r') =
    if decide (arrival_times (arrival_time_map r) = []) then sn + 1 else Z.max (end_sequence_number (arrival_time_map r)) (sn + 1);
  recorded_new : arrival (arrival_time_map r) sn < 0 → recent r sn → arrival (arrival_time_map r') sn = t;
  recorded_others n : arrival (arrival_time_map r') n = arrival (arrival_time_map r) n ∨ n = sn ∧ arrival (arrival_time_map r') n = t ∧ arrival (arrival_time_map r) sn < 0 ∨
    arrival (arrival_time_map r') n = -1 ∧ (pending r = [] ∨ n < end_sequence_number (arrival_time_map r') - MAX_NUMBER_OF_PACKETS)
}.

Lemma nonempty_empty m : map_ok m → arrival_times m = [] → m = map_new.
Proof. intros [->|[k Hk]] E; [done|]. by destruct (shape_nonempty k m Hk). Qed.

Lemma arrival_inside m n : map_ok m → 0 <= arrival m n → begin_sequence_number m <= n < end_sequence_number m.
Proof. intros Hm H0. destruct (decide (begin_sequence_number m <= n < end_sequence_number m)); [done|]. rewrite arrival_outside in H0 by done. lia. Qed.

Lemma record_spec media seq t r :
  rec_ok r → fits 32 media → 0 <= t < 2 ^ 24 * 64000 →
  ∃ r', record media seq t r = Ok r' ∧ rec_ok r' ∧ recorded (unwrap_sequence (last_unwrapped r) seq) t r r'.
Proof.
  intros Hr Hmd Ht. unfold record. set (sn := unwrap_sequence (last_unwrapped r) seq). set (r0 := r <| rec_media_ssrc := media |> <| last_unwrapped := Some sn |>).
  assert (rec_ok r0) as Hr0 by (destruct Hr as [? ? ? (? & ? & ?)]; by split).
  destruct (cull_spec sn t r0 Hr0) as (m & E & Hm & F & He & Hb & Hnone & Ha). change (pending r0) with (pending r) in Ha. rewrite E. cbn [rbind]. clear E Hr0.
  subst r0. destruct Hr as [Rm Rt Rs (R1 & R2 & R3)]. destruct r as [m0 l0 s0 ss md0 cnt held]. 
  change (match s0 with None => m = m0 | Some s => begin_sequence_number m <= s end) in Hnone. change (end_sequence_number m = end_sequence_number m0) in F.
  change (arrival_times m = [] ↔ arrival_times m0 = []) in He. change (begin_sequence_number m0 <= begin_sequence_number m <= end_sequence_number m) in Hb.
  cbn [arrival_time_map last_unwrapped start_sequence_number rec_sender_ssrc rec_media_ssrc fb_pkt_cnt] in *.
  set (s1 := match s0 with None => sn | Some s => Z.min s sn end).
  match goal with |- context [if ?c then ?a else ?b] =>
    assert ((if c then a else b) = mkRecorder m (Some sn) (Some s1) ss media cnt held) as -> end.
  { unfold s1. destruct s0 as [s|]; [|done]. record_simpl. cbn [start_sequence_number].
    destruct (Z.ltb_spec sn s); [rewrite Z.min_r by lia; done|rewrite Z.min_l by lia; done]. }
  cbn [arrival_time_map]. unfold has_received. rewrite (get_ok m sn Hm). cbn [rbind].
  assert (arrival m sn = arrival m0 sn) as Asn by (destruct (Ha sn) as [|(_ & ? & _)]; [done|lia]).
  assert (∀ m' md', map_ok m' → arrival_times m' ≠ [] → Z.max s1 (begin_sequence_number m') <= end_sequence_number m' → times_ok m' → fits 32 md' →
    ∀ h, rec_ok (mkRecorder m' (Some sn) (Some (Z.max s1 (begin_sequence_number m'))) ss md' cnt h)) as Hok.
  { intros m' md' H1 H2 H3 H4 H5 h. split; cbn [arrival_time_map start_sequence_number rec_sender_ssrc rec_media_ssrc fb_pkt_cnt]; try done. split; [done|lia]. }
  assert (times_ok m) as Tm by (intros n; destruct (Ha n) as [->|(-> & _)]; [apply Rt|lia]).
  assert (match s0 with Some s => begin_sequence_number m <= s <= end_sequence_number m | None => m = map_new end) as Hse by (destruct s0; [lia|congruence]).
  destruct (Z.leb_spec 0 (arrival m sn)) as [H0|H0].
  - pose proof (arrival_inside m sn Hm H0) as Hin. assert (arrival_times m ≠ []) as Hne.
    { intros Hnil. rewrite (nonempty_empty m Hm Hnil) in Hin. cbn in Hin. lia. }
    assert (s1 = Z.max s1 (begin_sequence_number m)) as Es1 by (unfold s1; destruct s0 as [s|]; [lia|]; rewrite Hse in *; cbn in *; lia).
    eexists. split; [reflexivity|]. rewrite Es1 at 1. split; [apply Hok; try done; unfold s1; destruct s0; lia|].
    split; cbn [last_unwrapped start_sequence_number arrival_time_map]; fold s1; rewrite <- ?Es1; try done.
    + rewrite decide_False by tauto. lia.
    + rewrite Asn in H0. lia.
    + intros n. destruct (Ha n) as [->|(-> & _ & Hp)]; [by left|]. right; right. by split; [|left].
  - destruct (add_packet_spec sn t m Hm) as (m' & E & Hm' & Hcase). rewrite E. cbn [rbind]. clear E.
    exists (mkRecorder m' (Some sn) (Some (Z.max s1 (begin_sequence_number m'))) ss media cnt (held + 1)). split.
    { record_simpl. cbn [start_sequence_number]. destruct (Z.ltb_spec s1 (begin_sequence_number m')); [rewrite Z.max_r by lia|rewrite Z.max_l by lia]; done. }
    assert (s1 <= sn) as Hs1 by (unfold s1; destruct s0; lia). pose proof (ok_range m' Hm') as Hr'.
    assert (arrival_times m' ≠ [] ∧ times_ok m' ∧ Z.max s1 (begin_sequence_number m') <= end_sequence_number m') as (N' & T' & B').
    { destruct Hcase as [(C1 & C2 & C3 & C4 & C5)|(-> & C1 & C2 & C3)]; [|split_and!; [done|done|lia]]. split_and!; [|intros n|lia].
      - intros Hnil. rewrite (nonempty_empty m' Hm' Hnil) in C1. cbn in C1. lia.
      - destruct (decide (n = sn)) as [->|Hn]; [lia|]. rewrite C5 by done. destruct (decide (_ <= n)); [apply Tm|lia]. }
    split; [by apply Hok|]. split; cbn [last_unwrapped start_sequence_number arrival_time_map]; fold s1; try done.
    + destruct Hcase as [(C1 & C2 & C3 & C4 & C5)|(-> & C1 & C2 & C3)].
      * rewrite C3, F. repeat case_decide; tauto.
      * rewrite decide_False by tauto. pose proof (ok_range m Hm). lia.
    + unfold recent. cbn [arrival_time_map]. intros _ Hrec. destruct Hcase as [(C1 & C2 & C3 & C4 & C5)|(-> & C1 & C2 & C3)]; [done|].
      destruct Hrec; [tauto|lia].
    + intros n. assert (arrival m n = arrival m0 n ∨ arrival m n = -1 ∧ pending (mkRecorder m0 l0 s0 ss md0 cnt held) = []) as Hn by (destruct (Ha n) as [|(? & _ & ?)]; auto).
      destruct Hcase as [(C1 & C2 & C3 & C4 & C5)|(-> & C1 & C2 & C3)]; [|tauto].
      destruct (decide (n = sn)) as [->|Hne]; [right; left; rewrite <- Asn; auto|]. rewrite C5 by done. destruct (decide (_ <= n)); [tauto|]. right; right. split; [done|]. right. lia.
Qed.

Lemma elem_pending r n t :
  (n, t) ∈ pending r ↔ ∃ s, start_sequence_number r = Some s ∧ s <= n < end_sequence_number (arrival_time_map r) ∧ arrival (arrival_time_map r) n = t ∧ 0 <= t.
Proof.
  unfold pending. destruct (start_sequence_number r) as [s|].
  - rewrite elem_arrived. split; [intros H; by exists s|]. intros (s' & [= <-] & H). done.
  - split; [by intros ?%elem_of_nil|]. by intros (s & ? & _).
Qed.

(** A packet that is held is pending from the start on. *)
Lemma recorded_pending sn t r r' n u :
  rec_ok r' → recorded sn t r r' → arrival (arrival_time_map r') n = u → 0 <= u →
  match start_sequence_number r with None => sn <= n | Some s => Z.min s sn <= n end → (n, u) ∈ pending r'.
Proof.
  intros [] [] E H0 Hs. apply elem_pending. pose proof (arrival_inside (arrival_time_map r') n rec_map0 ltac:(lia)) as Hin.
  eexists. split; [done|]. split_and!; [|lia|done|done]. destruct (start_sequence_number r); lia.
Qed.

Lemma record_keeps sn t r r' :
  rec_ok r' → recorded sn t r r' →
  (0 <= t → arrival (arrival_time_map r) sn < 0 → recent r sn → (sn, t) ∈ pending r') ∧
  (∀ n u, (n, u) ∈ pending r → Z.max (end_sequence_number (arrival_time_map r)) (sn + 1) - MAX_NUMBER_OF_PACKETS <= n → (n, u) ∈ pending r').
Proof.
  intros Hr' Hrec. split.
  - intros Ht Hno Hre. apply (recorded_pending sn t r); [done|done|by apply (recorded_new _ _ _ _ Hrec)|done|]. destruct (start_sequence_number r); lia.
  - intros n u Hp Hn. pose proof Hp as (s & Es & Hs & Eu & H0)%elem_pending. pose proof (recorded_end _ _ _ _ Hrec) as Ee.
    apply (recorded_pending sn t r); [done|done| |done|rewrite Es; lia].
    destruct (recorded_others _ _ _ _ Hrec n) as [Eo|[(-> & _ & Hneg)|(_ & [Hnil|Hold])]]; [congruence|lia|rewrite Hnil in Hp; by apply elem_of_nil in Hp|].
    exfalso. case_decide; lia.
Qed.

(** * The lifetime of a recorder

    [l] are the packets that were recorded, with their unwrapped numbers. *)
Inductive reachable (sender_ssrc : Z) : list (Z * Z) → Recorder → Prop :=
| reach_new : reachable sender_ssrc [] (recorder_new sender_ssrc)
| reach_record l r r' media seq t :
    reachable sender_ssrc l r → fits 32 media → 0 <= t < 2 ^ 24 * 64000 → record media seq t r = Ok r' →
    reachable sender_ssrc ((unwrap_sequence (last_unwrapped r) seq, t) :: l) r'
| reach_build l r r' ps :
    reachable sender_ssrc l r → build_feedback_packet r = Ok (ps, r') → reachable sender_ssrc l r'.

Lemma recorder_new_ok sender_ssrc : fits 32 sender_ssrc → rec_ok (recorder_new sender_ssrc).
Proof.
  intros Hs. split; [by left| |done|].
  - intros n. change (arrival map_new n < 2 ^ 24 * 64000). rewrite arrival_outside; [lia|by left|cbn; lia].
  - split_and!; [done|by split|by split].
Qed.

Lemma reachable_spec sender_ssrc l r :
  fits 32 sender_ssrc → reachable sender_ssrc l r → rec_ok r ∧ ∀ n, 0 <= arrival (arrival_time_map r) n → (n, arrival (arrival_time_map r) n) ∈ l.
Proof.
  intros Hs. induction 1 as [|l r r' media seq t _ [Hr Hl] Hm Ht E|l r r' ps _ [Hr Hl] E].
  - split; [by apply recorder_new_ok|]. intros n. change (0 <= arrival map_new n → (n, arrival map_new n) ∈ []). rewrite arrival_outside; [lia|by left|cbn; lia].
  - destruct (record_spec media seq t r Hr Hm Ht) as (r1 & E1 & Hr1 & Hrec). assert (r1 = r') as -> by congruence. split; [done|]. intros n H0.
    destruct (recorded_others _ _ _ _ Hrec n) as [Eo|[(-> & -> & _)|(Eo & _)]]; [rewrite Eo in *; right; by apply Hl|left|lia].
  - destruct (build_spec r Hr) as (ps' & r1 & E1 & Hr1 & Em & _). assert (r1 = r') as -> by congruence. by rewrite Em.
Qed.

Lemma unwrap_number last seq : fits 16 seq → u16 (unwrap_sequence last seq) = seq.
Proof.
  intros Hs. unfold unwrap_sequence, wrap. destruct last as [last|]; [|by apply Z.mod_small].
  change 0xFFFF with (Z.ones 16). rewrite Z.land_ones by done. pose proof (Z_div_mod_eq_full last (2 ^ 16)) as Hd. unfold fits in Hs.
  destruct (Z.ltb_spec 0x8000 (seq - last mod 2 ^ 16)); [|destruct (Z.ltb_spec (seq - last mod 2 ^ 16) (-0x8000))]; symmetry.
  - apply (Z.mod_unique_pos _ _ (last / 2 ^ 16 - 1)); lia.
  - apply (Z.mod_unique_pos _ _ (last / 2 ^ 16 + 1)); lia.
  - apply (Z.mod_unique_pos _ _ (last / 2 ^ 16)); lia.
Qed.

(** C19: Congestion feedback says what arrived, whenever it is built.  At any point of the life of a
    recorder, [build_feedback_packet] returns packets that can be written and that the peer reads as
    exactly the packets that are pending, in order, each with its number and its time of arrival to 125
    microseconds, and nothing is pending afterwards; only packets that were recorded are pending; and
    [record] never fails: a packet that is not held and not 32768 numbers behind becomes pending with its
    time, and the others stay pending unless they fall 32768 numbers behind. *)
Theorem feedback_exact sender_ssrc l r :
  fits 32 sender_ssrc → reachable sender_ssrc l r →
  (∃ ps r', build_feedback_packet r = Ok (ps, r') ∧ reports_exactly ps (pending r) ∧ pending r' = []) ∧
  (∀ n t, (n, t) ∈ pending r → (n, t) ∈ l) ∧
  (∀ media seq t, fits 32 media → fits 16 seq → 0 <= t < 2 ^ 24 * 64000 →
   let sn := unwrap_sequence (last_unwrapped r) seq in
   ∃ r', u16 sn = seq ∧ record media seq t r = Ok r' ∧
   (arrival (arrival_time_map r) sn < 0 → recent r sn → (sn, t) ∈ pending r') ∧
   ∀ n u, (n, u) ∈ pending r → Z.max (end_sequence_number (arrival_time_map r)) (sn + 1) - MAX_NUMBER_OF_PACKETS <= n → (n, u) ∈ pending r').
Proof.
  intros Hs Hreach. destruct (reachable_spec sender_ssrc l r Hs Hreach) as [Hr Hl]. split_and!.
  - destruct (build_spec r Hr) as (ps & r' & E & _ & _ & Hp & Hrep). by exists ps, r'.
  - intros n t (s & _ & _ & <- & H0)%elem_pending. by apply Hl.
  - intros media seq t Hm Hq Ht. destruct (record_spec media seq t r Hr Hm Ht) as (r' & E & Hr' & Hrec).
    destruct (record_keeps _ _ _ _ Hr' Hrec) as [K1 K2]. exists r'. split_and!; [by apply unwrap_number|done| |done]. apply K1. lia.
Qed.

(** * One interval

    The packets of an interval, in the order they arrive: stream, number and time. *)
Fixpoint record_all (l : list (Z * Z * Z)) (r : Recorder) : res Recorder :=
  match l with
  | [] => Ok r
  | (media, seq, t) :: l => let! r := record media seq t r in record_all l r
  end.

Definition arrival_fits (a : Z * Z * Z) : Prop := fits 32 a.1.1 ∧ 0 <= a.1.2 < MAX_NUMBER_OF_PACKETS ∧ 0 <= a.2 < 2 ^ 24 * 64000.
Definition packet_of (a : Z * Z * Z) : Z * Z := (a.1.2, a.2).

(** [seen] have arrived and all of them are pending. *)
Record interval (seen : list (Z * Z)) (r : Recorder) : Prop := {
  interval_ok : rec_ok r;
  interval_pending n u : (n, u) ∈ pending r ↔ (n, u) ∈ seen;
  interval_held n : 0 <= arrival (arrival_time_map r) n → (n, arrival (arrival_time_map r) n) ∈ seen;
  interval_last : match last_unwrapped r with None => True | Some n => 0 <= n < MAX_NUMBER_OF_PACKETS end;
  interval_end : end_sequence_number (arrival_time_map r) <= MAX_NUMBER_OF_PACKETS
}.

Lemma interval_new sender_ssrc : fits 32 sender_ssrc → interval [] (recorder_new sender_ssrc).
Proof.
  intros Hs. split; [by apply recorder_new_ok|done| |done|done]. intros n. change (0 <= arrival map_new n → (n, arrival map_new n) ∈ []).
  rewrite arrival_outside; [lia|by left|cbn; lia].
Qed.

Lemma arrived_sorted m a b : StronglySorted Z.lt (arrived m a b).*1.
Proof.
  unfold arrived. remember (Z.to_nat (b - a)) as k eqn:Ek. revert a Ek. induction k as [|k IH]; intros a Ek.
  - rewrite seqZ_nil by lia. constructor.
  - rewrite seqZ_cons by lia. specialize (IH (Z.succ a) ltac:(lia)). cbn [omap list_omap]. replace (Z.pred (b - a)) with (b - Z.succ a) by lia.
    cbv zeta. destruct (0 <=? arrival m a); [|done]. rewrite fmap_cons. constructor; [done|]. apply Forall_forall. intros n ([n' u] & -> & Hn)%list_elem_of_fmap.
    apply elem_arrived in Hn as [? _]. cbn. lia.
Qed.

Lemma interval_record seen media seq t r :
  interval seen r → arrival_fits (media, seq, t) → seq ∉ seen.*1 → (∀ n u, (n, u) ∈ seen → 0 <= n) →
  ∃ r', record media seq t r = Ok r' ∧ interval ((seq, t) :: seen) r'.
Proof.
  intros [Hr Hp Hh Hl He] (Hm & Hq & Ht) Hnew Hpos. cbn [fst snd] in Hm, Hq, Ht. destruct (record_spec media seq t r Hr Hm Ht) as (r' & E & Hr' & Hrec).
  assert (unwrap_sequence (last_unwrapped r) seq = seq) as Eu.
  { unfold unwrap_sequence. destruct (last_unwrapped r) as [n|]; [|done]. unfold MAX_NUMBER_OF_PACKETS in *. change 0xFFFF with (Z.ones 16).
    rewrite Z.land_ones, Z.mod_small by lia. rewrite !(proj2 (Z.ltb_ge _ _)) by lia. lia. }
  rewrite Eu in Hrec. destruct (record_keeps _ _ _ _ Hr' Hrec) as [K1 K2]. pose proof (recorded_end _ _ _ _ Hrec) as Hend.
  assert (end_sequence_number (arrival_time_map r') <= MAX_NUMBER_OF_PACKETS) as He' by (rewrite Hend; case_decide; lia).
  assert (arrival (arrival_time_map r) seq < 0) as Hno.
  { destruct (Z.lt_ge_cases (arrival (arrival_time_map r) seq) 0) as [|H0]; [done|]. destruct Hnew. apply list_elem_of_fmap. by eexists; split; [|by apply Hh]. }
  assert (∀ n, 0 <= arrival (arrival_time_map r') n → (n, arrival (arrival_time_map r') n) ∈ (seq, t) :: seen) as Hh'.
  { intros n H0. destruct (recorded_others _ _ _ _ Hrec n) as [Eo|[(-> & -> & _)|(Eo & _)]]; [rewrite Eo in *; right; by apply Hh|left|lia]. }
  exists r'. split; [done|]. split; [done| |done| |done].
  - intros n u. split; [intros (s & _ & _ & <- & H0)%elem_pending; by apply Hh'|]. intros [[= -> ->]|Hin]%elem_of_cons.
    + apply K1; [lia|done|right; lia].
    + apply K2; [by apply Hp|]. apply Hpos in Hin. unfold MAX_NUMBER_OF_PACKETS in *. lia.
  - by rewrite (recorded_last _ _ _ _ Hrec).
Qed.

Lemma interval_record_all l seen r :
  interval seen r → Forall arrival_fits l → NoDup ((packet_of <$> l).*1 ++ seen.*1) → (∀ n u, (n, u) ∈ seen → 0 <= n) →
  ∃ r' seen', record_all l r = Ok r' ∧ interval seen' r' ∧ (∀ x, x ∈ seen' ↔ x ∈ packet_of <$> l ∨ x ∈ seen).
Proof.
  revert seen r. induction l as [|[[media seq] t] l IH]; intros seen r Hi Hl Hd Hpos; cbn [record_all].
  { exists r, seen. split_and!; [done..|]. intros x. split; [auto|]. by intros [?%elem_of_nil|]. }
  apply Forall_cons in Hl as [Ha Hl]. rewrite !fmap_cons in Hd. cbn [packet_of fst snd app] in Hd. apply NoDup_cons in Hd as [Hn Hd].
  destruct (interval_record seen media seq t r Hi Ha) as (r1 & E1 & Hi1); [by intros ?; apply Hn, elem_of_app; right|done|]. rewrite E1. cbn [rbind].
  destruct (IH ((seq, t) :: seen) r1 Hi1 Hl) as (r2 & seen2 & E2 & Hi2 & Hs2).
  - rewrite fmap_cons. cbn [fst]. rewrite <- Permutation_middle. by constructor.
  - intros n u [[= -> ->]|Hin]%elem_of_cons; [by destruct Ha as (_ & [? _] & _)|by eapply Hpos].
  - exists r2, seen2. split_and!; [done..|]. intros x. rewrite Hs2, fmap_cons, !elem_of_cons. cbn [packet_of fst snd]. tauto.
Qed.
End Recorder.

#[local] Existing Instance BigEndian.big_endian.

Definition one_arrival : Recorder := match record_all [(9, 65535, 0)] (recorder_new 7) with Ok r => r | _ => recorder_new 7 end.
Definition two_arrivals : Recorder := match record_all [(9, 65535, 0); (9, 1, 3000)] (recorder_new 7) with Ok r => r | _ => recorder_new 7 end.

Lemma two_arrivals_reachable : reachable 7 [(65537, 3000); (65535, 0)] two_arrivals.
Proof.
  apply (reach_record 7 [(65535, 0)] one_arrival two_arrivals 9 1 3000); [|by split|lia|vm_compute; reflexivity].
  apply (reach_record 7 [] (recorder_new 7) one_arrival 9 65535 0); [constructor|by split|lia|vm_compute; reflexivity].
Qed.

Lemma feedback_exact_witness :
  pending two_arrivals = [(65535, 0); (65537, 3000)] ∧
  ∃ ps r', build_feedback_packet two_arrivals = Ok (ps, r') ∧ reports_exactly ps (pending two_arrivals) ∧ pending r' = [].
Proof.
  split; [vm_compute; reflexivity|].
  apply (feedback_exact 7 [(65537, 3000); (65535, 0)] two_arrivals); [by split|exact two_arrivals_reachable].
Defined.
