(* ===== verification/TwccChain.v ===== *)
(** Transport-wide congestion control end to end: the interceptors of [rtc-interceptor/src/twcc], which
    number the packets on one side ([sender.rs]) and report their arrival on the other ([receiver.rs]).

    [congestion_feedback_end_to_end] follows the numbers from the sender's interceptor to the feedback it
    reads. *)

From stdpp Require Import strings sorting.
From S2P Require Import Prelude Codec RtpHeader RtpExt RtpPacket Rtcp RtcpReport RtcpFeedback RtcpTwcc RtcpPacket TwccMap Twcc TwccFlow Interceptor.

Definition TRANSPORT_CC_URI : string := "http://www.ietf.org/id/draft-holmer-rmcat-transport-wide-cc-extensions-01".

Definition stream_supports_twcc (info : StreamInfo) : option Z :=
  (λ e, u8 (ext_id e)) <$> List.find (λ e, bool_decide (ext_uri e = TRANSPORT_CC_URI)) (si_rtp_header_extensions info).

(** What both interceptors keep of a stream *)
Record TwccStream := mkTwccStream { hdr_ext_id : Z }.

(** A stream is noted when it has the extension with a valid id. *)
Definition bind_twcc (info : StreamInfo) (streams : gmap Z TwccStream) : gmap Z TwccStream :=
  match stream_supports_twcc info with
  | Some hdr_ext_id => if negb (hdr_ext_id =? 0) then <[si_ssrc info := mkTwccStream hdr_ext_id]> streams else streams
  | None => streams
  end.

(** * The sender *)

Section SenderState.
Context {P : Type}.

Record TwccSender := mkTwccSender {
  s_inner : P;
  s_next_sequence_number : Z;
  s_streams : gmap Z TwccStream
}.

Definition eta_sender (s : TwccSender) : TwccSender := mkTwccSender (s_inner s) (s_next_sequence_number s) (s_streams s).

#[export] Instance set_s_inner : Setter s_inner.
Proof. make_setter eta_sender s_inner. Defined.
#[export] Instance set_s_next : Setter s_next_sequence_number.
Proof. make_setter eta_sender s_next_sequence_number. Defined.
#[export] Instance set_s_streams : Setter s_streams.
Proof. make_setter eta_sender s_streams. Defined.

End SenderState.
Arguments TwccSender P : clear implicits.

Definition twcc_sender_new {P} (inner : P) : TwccSender P := mkTwccSender inner 0 ∅.

Section Sender.
Context {BC : BytesCrate} `{Interceptor P}.

(** The packet with the number in its extension; a packet that cannot take the extension stays as it is. *)
Definition number_packet (stream : TwccStream) (seq : Z) (p : RtpPacket.Packet) : res RtpPacket.Packet :=
  match marshal (TransportCc (mkTransportCc seq)) with
  | Ok ext_data =>
      match set_extension (RtpPacket.header p) (hdr_ext_id stream) ext_data with
      | Ok h => Ok (mkPacket h (pkt_payload p))
      | Err _ => Ok p
      | Panic => Panic
      end
  | Err _ => Ok p
  | Panic => Panic
  end.

Definition s_delegate (f : sm P unit) : sm (TwccSender P) unit := λ s,
  let '(r, inner) := f (s_inner s) in (r, s <| s_inner := inner |>).

#[export] Instance twcc_sender_interceptor : Interceptor (TwccSender P) := {|
  handle_read msg := s_delegate (handle_read msg);
  poll_read s := let '(m, inner) := poll_read (s_inner s) in (m, s <| s_inner := inner |>);
  handle_write msg s :=
    match message msg with
    | Rtp p =>
        match s_streams s !! RtpHeader.ssrc (RtpPacket.header p) with
        | Some stream =>
            let seq := s_next_sequence_number s in
            let s := s <| s_next_sequence_number := u16 (seq + 1) |> in
            match number_packet stream seq p with
            | Ok p => s_delegate (handle_write (mkTagged (now msg) (Rtp p))) s
            | Err e => (Err e, s)
            | Panic => (Panic, s)
            end
        | None => s_delegate (handle_write msg) s
        end
    | Interceptor.Rtcp _ => s_delegate (handle_write msg) s
    end;
  poll_write s := let '(m, inner) := poll_write (s_inner s) in (m, s <| s_inner := inner |>);
  handle_timeout t := s_delegate (handle_timeout t);
  poll_timeout s := poll_timeout (s_inner s);
  close := s_delegate close;
  bind_local_stream i s := s <| s_streams ::= bind_twcc i |> <| s_inner ::= bind_local_stream i |>;
  unbind_local_stream i s := s <| s_streams ::= delete (si_ssrc i) |> <| s_inner ::= unbind_local_stream i |>;
  bind_remote_stream i s := s <| s_inner ::= bind_remote_stream i |>;
  unbind_remote_stream i s := s <| s_inner ::= unbind_remote_stream i |>
|}.
End Sender.

(** * The receiver

    An instant is its number of nanoseconds.  [t_random] is what [rand::random] gives for the SSRC of the
    recorder. *)

Section ReceiverState.
Context {P : Type}.

Record TwccReceiver := mkTwccReceiver {
  t_inner : P;
  t_interval : Z;
  t_start_time : option Z;
  t_recorder : option Recorder;
  t_streams : gmap Z TwccStream;
  t_write_queue : list TaggedPacket;
  t_next_timeout : option Z;
  t_random : Z
}.

Definition eta_receiver (t : TwccReceiver) : TwccReceiver :=
  mkTwccReceiver (t_inner t) (t_interval t) (t_start_time t) (t_recorder t) (t_streams t) (t_write_queue t) (t_next_timeout t) (t_random t).

#[export] Instance set_t_inner : Setter t_inner.
Proof. make_setter eta_receiver t_inner. Defined.
#[export] Instance set_t_start : Setter t_start_time.
Proof. make_setter eta_receiver t_start_time. Defined.
#[export] Instance set_t_recorder : Setter t_recorder.
Proof. make_setter eta_receiver t_recorder. Defined.
#[export] Instance set_t_streams : Setter t_streams.
Proof. make_setter eta_receiver t_streams. Defined.
#[export] Instance set_t_queue : Setter t_write_queue.
Proof. make_setter eta_receiver t_write_queue. Defined.
#[export] Instance set_t_timeout : Setter t_next_timeout.
Proof. make_setter eta_receiver t_next_timeout. Defined.

End ReceiverState.
Arguments TwccReceiver P : clear implicits.

Definition DEFAULT_INTERVAL : Z := 100000000.

Definition twcc_receiver_new {P} (inner : P) (interval random : Z) : TwccReceiver P :=
  mkTwccReceiver inner interval None None ∅ [] None random.

Section Receiver.
Context {BC : BytesCrate} `{Interceptor P}.

Definition generate_feedback (t : Z) (v : TwccReceiver P) : res (TwccReceiver P) :=
  match t_recorder v with
  | None => Ok v
  | Some recorder =>
      let! (packets, recorder) := build_feedback_packet recorder in
      Ok (v <| t_recorder := Some recorder |> <| t_write_queue ::= λ q, q ++ ((λ p, mkTagged t (Interceptor.Rtcp [PTcc p])) <$> packets) |>)
  end.

(** [duration_since] is zero when the packet is older than the start. *)
Definition arrival_time (start : option Z) (t : Z) : Z :=
  match start with Some start => i64 (Z.max 0 (t - start) / 1000) | None => 0 end.

(** The recorder is made for the first packet of a stream. *)
Definition ensure_recorder (t : Z) (v : TwccReceiver P) : TwccReceiver P :=
  match t_recorder v with
  | None => v <| t_recorder := Some (recorder_new (t_random v)) |> <| t_start_time := Some t |> <| t_next_timeout := Some (t + t_interval v) |>
  | Some _ => v
  end.

Definition note_arrival (t : Z) (p : RtpPacket.Packet) (v : TwccReceiver P) : res (TwccReceiver P) :=
  match t_streams v !! RtpHeader.ssrc (RtpPacket.header p) with
  | None => Ok v
  | Some stream =>
      let v := ensure_recorder t v in
      match get_extension (RtpPacket.header p) (hdr_ext_id stream) with
      | None => Ok v
      | Some ext_data =>
          match transport_cc_unmarshal ext_data with
          | Ok (tcc, _) =>
              match t_recorder v with
              | Some recorder =>
                  let! recorder := record (RtpHeader.ssrc (RtpPacket.header p)) (transport_sequence tcc) (arrival_time (t_start_time v) t) recorder in
                  Ok (v <| t_recorder := Some recorder |>)
              | None => Ok v
              end
          | Err _ => Ok v
          | Panic => Panic
          end
      end
  end.

Definition t_delegate (f : sm P unit) : sm (TwccReceiver P) unit := λ v,
  let '(r, inner) := f (t_inner v) in (r, v <| t_inner := inner |>).

(** A step of the interceptor before the operation of the next one *)
Definition t_before (m : res (TwccReceiver P)) (f : sm P unit) : sm (TwccReceiver P) unit := λ v,
  match m with
  | Ok v => t_delegate f v
  | Err e => (Err e, v)
  | Panic => (Panic, v)
  end.

#[export] Instance twcc_receiver_interceptor : Interceptor (TwccReceiver P) := {|
  handle_read msg v :=
    t_before (match message msg with Rtp p => note_arrival (now msg) p v | Interceptor.Rtcp _ => Ok v end) (handle_read msg) v;
  poll_read v := let '(m, inner) := poll_read (t_inner v) in (m, v <| t_inner := inner |>);
  handle_write msg := t_delegate (handle_write msg);
  poll_write v :=
    match t_write_queue v with
    | pkt :: q => (Some pkt, v <| t_write_queue := q |>)
    | [] => let '(m, inner) := poll_write (t_inner v) in (m, v <| t_inner := inner |>)
    end;
  handle_timeout t v :=
    t_before
      (match t_next_timeout v with
       | Some timeout =>
           if timeout <=? t then let! v := generate_feedback t v in Ok (v <| t_next_timeout := Some (t + t_interval v) |>) else Ok v
       | None => Ok v
       end) (handle_timeout t) v;
  poll_timeout v :=
    match t_next_timeout v, poll_timeout (t_inner v) with
    | Some a, Some b => Some (Z.min a b)
    | Some a, None => Some a
    | None, Some b => Some b
    | None, None => None
    end;
  close := t_delegate close;
  bind_local_stream i v := v <| t_inner ::= bind_local_stream i |>;
  unbind_local_stream i v := v <| t_inner ::= unbind_local_stream i |>;
  bind_remote_stream i v := v <| t_streams ::= bind_twcc i |> <| t_inner ::= bind_remote_stream i |>;
  unbind_remote_stream i v := v <| t_streams ::= delete (si_ssrc i) |> <| t_inner ::= unbind_remote_stream i |>
|}.
End Receiver.

(** * The number of a packet *)

Section Numbers.
Context {BC : BytesCrate}.

Definition number_of (stream : TwccStream) (p : RtpPacket.Packet) : option Z :=
  match get_extension (RtpPacket.header p) (hdr_ext_id stream) with
  | Some ext_data => match transport_cc_unmarshal ext_data with Ok (tcc, _) => Some (transport_sequence tcc) | _ => None end
  | None => None
  end.

(** The header has no extensions yet, or those it has leave the id to it. *)
Definition takes_number (stream : TwccStream) (p : RtpPacket.Packet) : Prop :=
  wf_header (RtpPacket.header p) ∧
  (extension (RtpPacket.header p) = true → ∃ n, check_ext_id (extension_profile (RtpPacket.header p)) (hdr_ext_id stream) 2 = Ok n).

Lemma set_extension_total h i d : (extension h = true → ∃ n, check_ext_id (extension_profile h) i (len d) = Ok n) → ∃ h', set_extension h i d = Ok h' ∧ RtpHeader.ssrc h' = RtpHeader.ssrc h.
Proof.
  intros Hc. unfold set_extension. destruct (extension h).
  - destruct Hc as [n ->]; [done|]. cbn [rbind]. destruct (update_ext i d (extensions h)) as [[exts old]|]; by eexists.
  - destruct (len d <=? 16); [by eexists|]. destruct (len d <=? 255); by eexists.
Qed.

(** The number is put into the packet; the rest of it stays. *)
Lemma number_packet_spec stream seq p :
  takes_number stream p → fits 16 seq →
  ∃ p', number_packet stream seq p = Ok p' ∧ number_of stream p' = Some seq ∧ pkt_payload p' = pkt_payload p ∧
  RtpHeader.ssrc (RtpPacket.header p') = RtpHeader.ssrc (RtpPacket.header p) ∧
  ∀ j, j ≠ hdr_ext_id stream → get_extension (RtpPacket.header p') j = get_extension (RtpPacket.header p) j.
Proof.
  intros [Hwf Hc] Hs. destruct (transport_cc_rt (mkTransportCc seq) [] Hs) as (bs & E & Eu). unfold number_packet. rewrite E.
  assert (len bs = 2) as Hl by (rewrite transport_cc_marshal in E; injection E as <-; by rewrite len_put_uint).
  destruct (set_extension_total (RtpPacket.header p) (hdr_ext_id stream) bs) as (h' & Eh & Ess); [by rewrite Hl|]. rewrite Eh.
  destruct (set_get_extension _ _ _ _ Hwf Eh) as [Hg Ho]. eexists. split; [done|]. split_and!; [|done|done|done].
  unfold number_of. cbn [RtpPacket.header]. rewrite Hg. rewrite app_nil_r in Eu. cbn [unmarshal_as] in Eu.
  destruct (transport_cc_unmarshal bs) as [[tcc rest]| |]; [|done..]. cbn [rbind] in Eu. by injection Eu as -> _.
Qed.
End Numbers.

(** * From the sender to the feedback *)

Section EndToEnd.
Context {BC : BytesCrate}.

(** Packets written or read one after the other *)
Fixpoint write_msgs `{Interceptor P} (ms : list TaggedPacket) (p : P) : res unit * P :=
  match ms with
  | [] => (Ok tt, p)
  | m :: ms => match handle_write m p with (Ok _, p) => write_msgs ms p | r => r end
  end.
Fixpoint read_msgs `{Interceptor P} (ms : list TaggedPacket) (p : P) : res unit * P :=
  match ms with
  | [] => (Ok tt, p)
  | m :: ms => match handle_read m p with (Ok _, p) => read_msgs ms p | r => r end
  end.

(** An RTP packet of a stream that is bound, which can take a number *)
Definition numberable (streams : gmap Z TwccStream) (m : TaggedPacket) : Prop :=
  ∃ p stream, message m = Rtp p ∧ streams !! RtpHeader.ssrc (RtpPacket.header p) = Some stream ∧ takes_number stream p.

(** A packet of a stream that is bound, with its number *)
Definition carries (streams : gmap Z TwccStream) (m : TaggedPacket) (media n : Z) : Prop :=
  ∃ p stream, message m = Rtp p ∧ RtpHeader.ssrc (RtpPacket.header p) = media ∧ streams !! media = Some stream ∧ number_of stream p = Some n.

Lemma write_one `{Transparent P} (s : TwccSender P) m :
  numberable (s_streams s) m → fits 16 (s_next_sequence_number s) →
  ∃ s' q media, handle_write m s = (Ok tt, s') ∧ writes (s_inner s') = writes (s_inner s) ++ [q] ∧ fits 32 media ∧
  carries (s_streams s) q media (s_next_sequence_number s) ∧ s_streams s' = s_streams s ∧ s_next_sequence_number s' = u16 (s_next_sequence_number s + 1).
Proof.
  intros (p & stream & Em & Est & Ht) Hn. destruct (number_packet_spec stream _ p Ht Hn) as (p' & E & En & _ & Ess & _).
  cbn [handle_write twcc_sender_interceptor]. rewrite Em, Est. cbv zeta. rewrite E. unfold s_delegate. record_simpl.
  destruct (write_law (mkTagged (now m) (Rtp p')) (s_inner s)) as (i' & Ei & _ & Hw & _). rewrite Ei.
  eexists _, (mkTagged (now m) (Rtp p')), (RtpHeader.ssrc (RtpPacket.header p)). split; [done|]. record_simpl. split_and!; try done.
  - apply (wf_ssrc _ (proj1 Ht)).
  - by exists p', stream.
Qed.

Lemma write_msgs_spec `{Transparent P} ms (s : TwccSender P) k :
  Forall (numberable (s_streams s)) ms → s_next_sequence_number s = Z.of_nat k → Z.of_nat k + len ms <= MAX_NUMBER_OF_PACKETS →
  ∃ s' qs, write_msgs ms s = (Ok tt, s') ∧ writes (s_inner s') = writes (s_inner s) ++ qs ∧ length qs = length ms ∧
  ∀ j q, qs !! j = Some q → ∃ media, fits 32 media ∧ carries (s_streams s) q media (Z.of_nat (k + j)).
Proof.
  revert s k. induction ms as [|m ms IH]; intros s k Hm Hk Hl; cbn [write_msgs].
  { exists s, []. split_and!; [done|by rewrite app_nil_r|done|]. intros j q. by rewrite lookup_nil. }
  apply Forall_cons in Hm as [Hm Hms]. rewrite len_cons in Hl. pose proof (len_nonneg ms). unfold MAX_NUMBER_OF_PACKETS in *.
  destruct (write_one s m Hm) as (s1 & q & media & E & Hw & Hf & Hc & Es & En); [rewrite Hk; unfold fits; lia|]. rewrite E.
  destruct (IH s1 (S k)) as (s2 & qs & E2 & Hw2 & Hl2 & Hq2); [by rewrite Es|rewrite En, Hk; unfold wrap; rewrite Z.mod_small by lia; lia|lia|].
  exists s2, (q :: qs). split_and!; [done|by rewrite Hw2, Hw, <- app_assoc|cbn; lia|]. intros [|j] q' Hj; cbn in Hj.
  - injection Hj as <-. exists media. rewrite Nat.add_0_r, <- Hk. done.
  - destruct (Hq2 j q' Hj) as (md & Hmd & Hcd). exists md. rewrite Es in Hcd. split; [done|]. by replace (k + S j)%nat with (S k + j)%nat by lia.
Qed.

(** ** Receiving *)

(** [x] is the stream, the number and the time since [t0] of the packet [m]. *)
Definition arrives (streams : gmap Z TwccStream) (t0 : Z) (m : TaggedPacket) (x : Z * Z * Z) : Prop :=
  carries streams m x.1.1 x.1.2 ∧ t0 <= now m ∧ x.2 = (now m - t0) / 1000.

(** A receiver whose recorder is [r], made at [t0] *)
Definition receiving {P} (v v' : TwccReceiver P) (t0 : Z) (r : Recorder) : Prop :=
  t_recorder v' = Some r ∧ t_start_time v' = Some t0 ∧ t_next_timeout v' = Some (t0 + t_interval v) ∧
  t_streams v' = t_streams v ∧ t_write_queue v' = t_write_queue v ∧ t_interval v' = t_interval v.

Lemma read_one `{Transparent P} (v0 v : TwccReceiver P) t0 r r' m x :
  receiving v0 v t0 r → arrives (t_streams v0) t0 m x → 0 <= x.2 < 2 ^ 24 * 64000 → record x.1.1 x.1.2 x.2 r = Ok r' →
  ∃ v', handle_read m v = (Ok tt, v') ∧ receiving v0 v' t0 r'.
Proof.
  destruct x as [[media n] u]. intros (Er & Et & En & Es & Eq & Ei) ((p & stream & Em & Ess & Est & Eno) & Ht & Eu) Hu E. cbn [fst snd] in *.
  cbn [handle_read twcc_receiver_interceptor]. rewrite Em. unfold note_arrival, ensure_recorder. rewrite Ess, Es, Est. cbv zeta. rewrite Er.
  unfold number_of in Eno. destruct (get_extension _ _) as [d|]; [|done]. destruct (transport_cc_unmarshal d) as [[tcc rest]| |]; [|done..].
  injection Eno as Eno. rewrite Er, Eno, Et. cbn [arrival_time]. rewrite Z.max_r by lia. rewrite <- Eu. rewrite signed_small by (cbn; lia). rewrite E. cbn [rbind t_before].
  unfold t_delegate. record_simpl. destruct (read_law m (t_inner v)) as (i' & gen & El & _). rewrite El. eexists. split; [done|]. unfold receiving. by record_simpl.
Qed.

Lemma read_msgs_spec `{Transparent P} (v0 : TwccReceiver P) t0 ms xs v r r' :
  receiving v0 v t0 r → Forall2 (arrives (t_streams v0) t0) ms xs → Forall arrival_fits xs → record_all xs r = Ok r' →
  ∃ v', read_msgs ms v = (Ok tt, v') ∧ receiving v0 v' t0 r'.
Proof.
  intros Hv Hms. revert v r Hv. induction Hms as [|m [[media n] u] ms xs Hm Hms IH]; intros v r Hv Hf E; cbn [read_msgs record_all] in *.
  { injection E as <-. by exists v. }
  apply Forall_cons in Hf as [(_ & _ & Hu) Hf]. destruct (record media n u r) as [r1| |] eqn:E1; [|done..]. cbn [rbind] in E.
  destruct (read_one v0 v t0 r r1 m (media, n, u) Hv Hm Hu E1) as (v1 & Ev & Hv1). rewrite Ev. by apply (IH v1 r1).
Qed.

(** The first packet makes the recorder. *)
Lemma first_read `{Transparent P} (v v' : TwccReceiver P) m media n :
  carries (t_streams v) m media n → handle_read m (ensure_recorder (now m) v) = (Ok tt, v') → handle_read m v = (Ok tt, v').
Proof.
  intros (p & stream & Em & Ess & Est & _). cbn [handle_read twcc_receiver_interceptor]. rewrite Em. unfold note_arrival.
  assert (t_streams (ensure_recorder (now m) v) = t_streams v) as -> by (unfold ensure_recorder; by destruct (t_recorder v)).
  assert (ensure_recorder (now m) (ensure_recorder (now m) v) = ensure_recorder (now m) v) as E
    by (unfold ensure_recorder; destruct (t_recorder v) eqn:Er; [by rewrite Er|record_simpl; done]).
  rewrite Ess, Est. cbv zeta. rewrite E. unfold t_before. by destruct (match get_extension _ _ with Some _ => _ | None => _ end).
Qed.

Lemma first_reads `{Transparent P} (v v' : TwccReceiver P) m ms media n :
  carries (t_streams v) m media n → read_msgs (m :: ms) (ensure_recorder (now m) v) = (Ok tt, v') → read_msgs (m :: ms) v = (Ok tt, v').
Proof.
  intros Hc. cbn [read_msgs]. destruct (handle_read m (ensure_recorder (now m) v)) as [[[]| |] v1] eqn:E; [|done..]. by rewrite (first_read v v1 m media n Hc E).
Qed.

(** The packets that arrive: which one of those sent, and when *)
Definition delivered (qs : list TaggedPacket) (arr : list (nat * Z)) : list TaggedPacket :=
  omap (λ a, (λ q, mkTagged a.2 (message q)) <$> qs !! a.1) arr.

(** What is to be reported of an arrival: the number of the packet, and the time since [t0] in microseconds *)
Definition noted (t0 : Z) (a : nat * Z) : Z * Z := (Z.of_nat a.1, (a.2 - t0) / 1000).

Definition timely (n : nat) (t0 : Z) (a : nat * Z) : Prop := (a.1 < n)%nat ∧ t0 <= a.2 ∧ (a.2 - t0) / 1000 < 2 ^ 24 * 64000.

Lemma delivered_arrives streams qs t0 arr :
  len qs <= MAX_NUMBER_OF_PACKETS → (∀ j q, qs !! j = Some q → ∃ media, fits 32 media ∧ carries streams q media (Z.of_nat j)) →
  Forall (timely (length qs) t0) arr →
  ∃ xs, Forall2 (arrives streams t0) (delivered qs arr) xs ∧ Forall arrival_fits xs ∧ packet_of <$> xs = noted t0 <$> arr.
Proof.
  intros Hl Hq. induction 1 as [|[k t] arr (Hk & Ht & Hs) Harr (xs & H1 & H2 & H3)]; [by exists []|]. cbn [fst snd] in *.
  destruct (lookup_lt_is_Some_2 qs k Hk) as [q Eq]. destruct (Hq k q Eq) as (media & Hm & p & stream & Em & Ess & Est & En).
  exists ((media, Z.of_nat k, (t - t0) / 1000) :: xs). unfold delivered. cbn [omap list_omap fst snd]. rewrite Eq. cbn [fmap option_fmap option_map].
  split_and!.
  - constructor; [|done]. split_and!; [by exists p, stream|done|done].
  - constructor; [|done]. split_and!; cbn [fst snd]; [done|lia|unfold len in Hl; lia|by apply Z.div_pos; lia|done].
  - rewrite !fmap_cons, H3. done.
Qed.

(** The timeout sends the feedback. *)
Lemma timeout_reports `{Transparent P} (v0 v : TwccReceiver P) t0 t r :
  receiving v0 v t0 r → rec_ok r → t0 + t_interval v0 <= t →
  ∃ v' ps, handle_timeout t v = (Ok tt, v') ∧ t_write_queue v' = t_write_queue v0 ++ ((λ p, mkTagged t (Interceptor.Rtcp [PTcc p])) <$> ps) ∧ reports_exactly ps (pending r).
Proof.
  intros (Er & _ & En & _ & Eq & _) Hr Ht. destruct (build_spec r Hr) as (ps & r' & E & _ & _ & _ & Hp).
  cbn [handle_timeout twcc_receiver_interceptor]. rewrite En, (proj2 (Z.leb_le _ _)) by done. unfold generate_feedback. rewrite Er, E. cbn [rbind t_before].
  unfold t_delegate. record_simpl. destruct (timeout_law t (t_inner v)) as (i' & gen & Ei & _). rewrite Ei. eexists _, ps. split; [done|]. record_simpl. by rewrite Eq.
Qed.

Lemma first_receiving {P} `{Interceptor P} (v : TwccReceiver P) t0 :
  t_recorder v = None → receiving v (ensure_recorder t0 v) t0 (recorder_new (t_random v)).
Proof. intros Er. unfold ensure_recorder, receiving. rewrite Er. by record_simpl. Qed.

End EndToEnd.

(** C18: Congestion feedback end to end.  The sender's interceptor numbers up to 32768 packets of its bound
    streams, from zero on, and hands them down.  Of these any arrive at the peer, in any order, within 2^24
    times 64 milliseconds of the first one, and its interceptor reads them without failing; at the first
    timeout after the interval it queues feedback packets that can be written, and that the sender reads as the
    numbers of exactly the packets that arrived, in increasing order, each with its time since the first
    arrival, to 125 microseconds. *)
Theorem congestion_feedback_end_to_end `{BytesCrate} `{Transparent P} `{Transparent Q} (s : TwccSender P) (ms : list TaggedPacket) :
  s_next_sequence_number s = 0 → Forall (numberable (s_streams s)) ms → len ms <= MAX_NUMBER_OF_PACKETS →
  ∃ s' qs, write_msgs ms s = (Ok tt, s') ∧ writes (s_inner s') = writes (s_inner s) ++ qs ∧ length qs = length ms ∧
  ∀ (v : TwccReceiver Q) k0 t0 arr t,
  t_streams v = s_streams s → t_recorder v = None → fits 32 (t_random v) →
  NoDup ((k0, t0) :: arr).*1 → Forall (timely (length ms) t0) ((k0, t0) :: arr) → t0 + t_interval v <= t →
  ∃ v' v'' ps pkts, read_msgs (delivered qs ((k0, t0) :: arr)) v = (Ok tt, v') ∧ handle_timeout t v' = (Ok tt, v'') ∧
  t_write_queue v'' = t_write_queue v ++ ((λ p, mkTagged t (Interceptor.Rtcp [PTcc p])) <$> ps) ∧
  reports_exactly ps pkts ∧ StronglySorted Z.lt pkts.*1 ∧ ∀ x, x ∈ pkts ↔ x ∈ noted t0 <$> (k0, t0) :: arr.
Proof.
  intros Hn Hms Hl. destruct (write_msgs_spec ms s 0 Hms Hn ltac:(lia)) as (s' & qs & E & Hw & Hlen & Hq). exists s', qs. split_and!; [done..|].
  intros v k0 t0 arr t Est Er Hrnd Hd Ha Ht. rewrite <- Hlen in Ha. cbn [Nat.add] in Hq.
  destruct (delivered_arrives (s_streams s) qs t0 ((k0, t0) :: arr)) as (xs & X1 & X2 & X3); [unfold len in *; by rewrite Hlen|done|done|]. rewrite <- Est in X1.
  destruct (interval_record_all xs [] (recorder_new (t_random v)) (interval_new _ Hrnd) X2) as (r & seen & Erec & Hi & Hseen).
  { rewrite X3, app_nil_r, <- list_fmap_compose. change (fst ∘ noted t0) with (Z.of_nat ∘ (fst : nat * Z → nat)). rewrite list_fmap_compose. by apply NoDup_fmap_2; [intros ? ? ?; lia|]. }
  { by intros ? ? ?%elem_of_nil. }
  destruct (read_msgs_spec v t0 _ xs (ensure_recorder t0 v) _ r (first_receiving v t0 Er) X1 X2 Erec) as (v' & Ev & Hv).
  destruct (timeout_reports v v' t0 t r Hv (interval_ok _ _ Hi) Ht) as (v'' & ps & Et & Eq & Hp). exists v', v'', ps, (pending r).
  split_and!; [|done|done|done|unfold pending; destruct (start_sequence_number r); [apply arrived_sorted|constructor]|].
  - apply Forall_cons in Ha as [(Hk & _) _]. cbn [fst] in Hk. destruct (lookup_lt_is_Some_2 qs k0 Hk) as [q Eq0]. unfold delivered in X1, Ev |- *.
    cbn [omap list_omap fst snd] in X1, Ev |- *. rewrite Eq0 in X1, Ev |- *. cbn [fmap option_fmap option_map] in X1, Ev |- *.
    apply Forall2_cons_inv_l in X1 as (x & xs' & (Hc & _) & _). by apply (first_reads v v' _ _ _ _ Hc).
  - intros [n u]. rewrite (interval_pending _ _ Hi), Hseen, X3. split; [intros [?|?%elem_of_nil]; done|by left].
Qed.

(** ** Concrete runs *)

#[local] Existing Instance BigEndian.big_endian.

Definition twcc_info (i : Z) : StreamInfo := mkInfo 9 None None 90000 [Interceptor.mkExt TRANSPORT_CC_URI i] [].
Definition plain_packet (payload : bytes) : TaggedPacket :=
  mkTagged 0 (Rtp (mkPacket (mkHeader 2 false false false 96 1 0 9 [] 0 [] 0) payload)).

Definition sample_sender : TwccSender NoopInterceptor := bind_local_stream (twcc_info 5) (twcc_sender_new noop_new).
Definition sample_receiver : TwccReceiver NoopInterceptor := bind_remote_stream (twcc_info 5) (twcc_receiver_new noop_new DEFAULT_INTERVAL 77).

Lemma plain_numberable b : numberable (s_streams sample_sender) (plain_packet b).
Proof.
  eexists _, (mkTwccStream 5). split; [reflexivity|]. split; [reflexivity|]. split; [|done].
  split; cbn; try done; try (split; done); try lia.
Qed.

Lemma congestion_feedback_end_to_end_witness :
  ∃ s' qs v' v'' ps pkts, write_msgs [plain_packet [1]; plain_packet [2]; plain_packet [3]] sample_sender = (Ok tt, s') ∧
  read_msgs (delivered qs [(2%nat, 50); (0%nat, 3000050)]) sample_receiver = (Ok tt, v') ∧ handle_timeout 100000050 v' = (Ok tt, v'') ∧
  t_write_queue v'' = ((λ p, mkTagged 100000050 (Interceptor.Rtcp [PTcc p])) <$> ps) ∧
  reports_exactly ps pkts ∧ StronglySorted Z.lt pkts.*1 ∧ ∀ x, x ∈ pkts ↔ x ∈ [(2, 0); (0, 3000)].
Proof.
  destruct (congestion_feedback_end_to_end (Q := NoopInterceptor) sample_sender [plain_packet [1]; plain_packet [2]; plain_packet [3]]) as (s' & qs & E & _ & _ & H).
  - reflexivity.
  - repeat constructor; apply plain_numberable.
  - vm_compute. congruence.
  - destruct (H sample_receiver 2%nat 50 [(0%nat, 3000050)] 100000050) as (v' & v'' & ps & pkts & H1 & H2 & H3 & H4 & H5 & H6).
    + reflexivity.
    + reflexivity.
    + split; reflexivity || (vm_compute; congruence).
    + apply NoDup_cons. split; [by intros ?%list_elem_of_singleton|apply NoDup_singleton].
    + repeat constructor; vm_compute; (congruence || lia).
    + vm_compute. congruence.
    + exists s', qs, v', v'', ps, pkts. exact (conj E (conj H1 (conj H2 (conj H3 (conj H4 (conj H5 H6)))))).
Defined.

(** An id above 14, which only two-byte extensions can have, is written as a one-byte extension into a packet that has
    no extensions yet: the octet in front of the number has the low four bits of the id, and the peer reads extension 4. *)
Lemma large_id_misread :
  ∃ p bs p', number_packet (mkTwccStream 20) 7 (mkPacket (mkHeader 2 false false false 96 1 0 9 [] 0 [] 0) []) = Ok p ∧
  marshal p = Ok bs ∧ packet_unmarshal bs = Ok (p', []) ∧ number_of (mkTwccStream 20) p' = None ∧ number_of (mkTwccStream 4) p' = Some 7.
Proof. do 3 eexists. split; [vm_compute; reflexivity|]. split; [vm_compute; reflexivity|]. split; vm_compute; [reflexivity|]. split; reflexivity. Qed.

(** A packet whose one-byte extensions cannot take the id leaves without the number, which is spent: the feedback of the
    peer says that a packet is missing that was never numbered. *)
Lemma number_spent_in_vain :
  let s := bind_local_stream (twcc_info 20) (twcc_sender_new noop_new) in
  let m := mkTagged 0 (Rtp (mkPacket (mkHeader 2 false true false 96 1 0 9 [] 0xBEDE [RtpHeader.mkExt 1 [3]] 2) [])) in
  ∃ s', handle_write m s = (Ok tt, s') ∧ writes (s_inner s') = [m] ∧ s_next_sequence_number s' = 1.
Proof. eexists. split; [vm_compute; reflexivity|]. by split. Qed.
