(* ===== verification/Stun.v ===== *)
(** STUN messages ([rtc-stun/src/message.rs], [attributes.rs], [integrity.rs], [fingerprint.rs],
    [checks.rs]): the message a client builds attribute by attribute in its buffer, the decoder,
    and the two attributes that protect a message.

    A message keeps its wire image in [raw] next to the decoded fields; every operation updates
    both, and the operations index into the buffer. *)

From S2P Require Import Prelude.

(** [to_be_bytes] and [from_be_bytes] *)
Abbreviation be := BigEndian.enc.
Abbreviation of_be := BigEndian.dec.

Definition MAGIC_COOKIE : Z := 0x2112A442.
Definition ATTRIBUTE_HEADER_SIZE : Z := 4.
Definition MESSAGE_HEADER_SIZE : Z := 20.
Definition TRANSACTION_ID_SIZE : Z := 12.

(** * Message types *)

Record MessageType := mkType { method : Z; class : Z }.

Definition CLASS_REQUEST : Z := 0.
Definition CLASS_INDICATION : Z := 1.
Definition CLASS_SUCCESS_RESPONSE : Z := 2.
Definition CLASS_ERROR_RESPONSE : Z := 3.
Definition METHOD_BINDING : Z := 1.
Definition BINDING_REQUEST : MessageType := mkType METHOD_BINDING CLASS_REQUEST.
Definition BINDING_SUCCESS : MessageType := mkType METHOD_BINDING CLASS_SUCCESS_RESPONSE.
Definition BINDING_ERROR : MessageType := mkType METHOD_BINDING CLASS_ERROR_RESPONSE.

Definition METHOD_ABITS : Z := 0xf.
Definition METHOD_BBITS : Z := 0x70.
Definition METHOD_DBITS : Z := 0xf80.
Definition METHOD_BSHIFT : Z := 1.
Definition METHOD_DSHIFT : Z := 2.
Definition C0BIT : Z := 1.
Definition C1BIT : Z := 2.
Definition CLASS_C0SHIFT : Z := 4.
Definition CLASS_C1SHIFT : Z := 7.

(** [MessageType::value] *)
Definition type_value (t : MessageType) : Z :=
  let a := Z.land (method t) METHOD_ABITS in
  let b := Z.land (method t) METHOD_BBITS in
  let d := Z.land (method t) METHOD_DBITS in
  let m := a + Z.shiftl b METHOD_BSHIFT + Z.shiftl d METHOD_DSHIFT in
  let c0 := Z.shiftl (Z.land (class t) C0BIT) CLASS_C0SHIFT in
  let c1 := Z.shiftl (Z.land (class t) C1BIT) CLASS_C1SHIFT in
  m + (c0 + c1).

(** [MessageType::read_value] *)
Definition read_value (value : Z) : MessageType :=
  let c0 := Z.land (Z.shiftr value CLASS_C0SHIFT) C0BIT in
  let c1 := Z.land (Z.shiftr value CLASS_C1SHIFT) C1BIT in
  let a := Z.land value METHOD_ABITS in
  let b := Z.land (Z.shiftr value METHOD_BSHIFT) METHOD_BBITS in
  let d := Z.land (Z.shiftr value METHOD_DSHIFT) METHOD_DBITS in
  mkType (a + b + d) (c0 + c1).

(** * Attributes *)

Record RawAttribute := mkAttr { attr_typ : Z; attr_length : Z; attr_value : bytes }.

Definition ATTR_USERNAME : Z := 0x0006.
Definition ATTR_MESSAGE_INTEGRITY : Z := 0x0008.
Definition ATTR_XORMAPPED_ADDRESS : Z := 0x0020.
Definition ATTR_FINGERPRINT : Z := 0x8028.
Definition PADDING : Z := 4.

Definition nearest_padded_value_length (l : Z) : Z :=
  let n := PADDING * (l / PADDING) in
  if n <? l then n + PADDING else n.

Definition compat_attr_type (val : Z) : Z := if val =? 0x8020 then ATTR_XORMAPPED_ADDRESS else val.

(** * Messages *)

Record Message := mkMessage {
  typ : MessageType;
  msg_length : Z;
  transaction_id : bytes;
  attributes : list RawAttribute;
  raw : bytes
}.

Definition eta_message (m : Message) : Message :=
  mkMessage (typ m) (msg_length m) (transaction_id m) (attributes m) (raw m).
#[export] Instance set_typ : Setter typ.
Proof. make_setter eta_message typ. Defined.
#[export] Instance set_length : Setter msg_length.
Proof. make_setter eta_message msg_length. Defined.
#[export] Instance set_tid : Setter transaction_id.
Proof. make_setter eta_message transaction_id. Defined.
#[export] Instance set_attributes : Setter attributes.
Proof. make_setter eta_message attributes. Defined.
#[export] Instance set_raw : Setter raw.
Proof. make_setter eta_message raw. Defined.

(** [buf[off..off + v.len()].copy_from_slice(v)] *)
Definition copy_at (off : Z) (v : bytes) (buf : bytes) : res bytes :=
  if off + len v <=? len buf
  then Ok (take (Z.to_nat off) buf ++ v ++ drop (Z.to_nat (off + len v)) buf)
  else Panic.

Definition message_new : Message :=
  mkMessage (mkType 0 0) 0 (replicate 12 0) [] (replicate 20 0).

(** [Message::grow] *)
Definition grow (n : Z) (resize : bool) (buf : bytes) : bytes :=
  if n <=? len buf then
    if resize then take (Z.to_nat n) buf else buf
  else buf ++ replicate (Z.to_nat (n - len buf)) 0.

Definition edit_raw (f : bytes → res bytes) : sm Message unit := λ m,
  match f (raw m) with
  | Ok b => (Ok tt, m <| raw := b |>)
  | Err e => (Err e, m)
  | Panic => (Panic, m)
  end.

Definition write_length : sm Message unit := λ m,
  edit_raw (λ b, copy_at 2 (be 2 (u16 (msg_length m))) (grow 4 false b)) m.
Definition write_type : sm Message unit := λ m,
  edit_raw (λ b, copy_at 0 (be 2 (type_value (typ m))) (grow 2 false b)) m.
Definition write_transaction_id : sm Message unit := λ m,
  edit_raw (λ b, copy_at 8 (transaction_id m) b) m.

Definition write_header : sm Message unit :=
  do! _ <- edit_raw (λ b, Ok (grow MESSAGE_HEADER_SIZE false b));
  do! _ <- write_type;
  do! _ <- write_length;
  do! _ <- edit_raw (copy_at 4 (be 4 MAGIC_COOKIE));
  write_transaction_id.

Definition set_type (t : MessageType) : sm Message unit :=
  do! _ <- smodify (λ m, m <| typ := t |>);
  write_type.

(** The padding branch of [Message::add], behind a value of [l] octets that ends at [last] *)
Definition add_padding (last l : Z) : sm Message unit :=
  let bytes_to_add := nearest_padded_value_length l - l in
  do! _ <- edit_raw (λ b, copy_at last (replicate (Z.to_nat bytes_to_add) 0) (grow (last + bytes_to_add) true b));
  smodify (λ m, m <| msg_length ::= λ n, u32 (n + bytes_to_add) |>).

(** [Message::add].  [length] is a [u32]; a build without overflow checks wraps it. *)
Definition add (t : Z) (v : bytes) : sm Message unit := λ m,
  let alloc_size := ATTRIBUTE_HEADER_SIZE + len v in
  let first := MESSAGE_HEADER_SIZE + msg_length m in
  let last := first + alloc_size in
  let attr := mkAttr t (u16 (len v)) v in
  (do! _ <- edit_raw (λ b, Ok (grow last true b));
   do! _ <- smodify (λ m, m <| msg_length ::= λ l, u32 (l + alloc_size) |>);
   do! _ <- edit_raw (copy_at first (be 2 t ++ be 2 (u16 (len v)) ++ v));
   do! _ <- (if attr_length attr mod PADDING =? 0 then sret tt else add_padding last (len v));
   do! _ <- smodify (λ m, m <| attributes ::= λ l, l ++ [attr] |>);
   write_length) m.

Definition reset (m : Message) : Message := m <| raw := [] |> <| msg_length := 0 |> <| attributes := [] |>.

Fixpoint add_all (l : list RawAttribute) : sm Message unit :=
  match l with
  | [] => sret tt
  | a :: l => do! _ <- add (attr_typ a) (attr_value a); add_all l
  end.

Definition write_attributes : sm Message unit := λ m,
  let attrs := attributes m in
  (do! _ <- smodify (λ m, m <| attributes := [] |>);
   do! _ <- add_all attrs;
   smodify (λ m, m <| attributes := attrs |>)) m.

Definition encode : sm Message unit :=
  do! _ <- smodify (λ m, m <| raw := [] |>);
  do! _ <- write_header;
  do! _ <- smodify (λ m, m <| msg_length := 0 |>);
  write_attributes.

(** The loop of [Message::decode] over the [size] octets after the header: its verdict, and the
    attributes it has pushed when it ends, also when it fails. *)
Fixpoint decode_attributes (fuel : nat) (offset size : Z) (b : bytes) : res unit * list RawAttribute :=
  match fuel with
  | O => (if offset <? size then Panic else Ok tt, [])
  | S fuel =>
      if offset <? size then
        if len b <? ATTRIBUTE_HEADER_SIZE then (Err ErrOther, [])
        else
          let a_typ := compat_attr_type (of_be (take 2 b)) in
          let a_l := of_be (take 2 (drop 2 b)) in
          let a_buff_l := nearest_padded_value_length a_l in
          let b := drop 4 b in
          if len b <? a_buff_l then (Err ErrOther, [])
          else
            let a := mkAttr a_typ a_l (take (Z.to_nat a_l) b) in
            let (r, rest) := decode_attributes fuel (offset + ATTRIBUTE_HEADER_SIZE + a_buff_l) size (drop (Z.to_nat a_buff_l) b) in
            (r, a :: rest)
      else (Ok tt, [])
  end.

(** [Message::decode] *)
Definition decode : sm Message unit := λ m,
  let buf := raw m in
  if len buf <? MESSAGE_HEADER_SIZE then (Err ErrUnexpectedHeaderEof, m)
  else
    let t := of_be (take 2 buf) in
    let size := of_be (take 2 (drop 2 buf)) in
    let cookie := of_be (take 4 (drop 4 buf)) in
    let full_size := MESSAGE_HEADER_SIZE + size in
    if negb (cookie =? MAGIC_COOKIE) then (Err ErrOther, m)
    else if len buf <? full_size then (Err ErrOther, m)
    else
      let (r, l) := decode_attributes (Z.to_nat size) 0 size (take (Z.to_nat size) (drop 20 buf)) in
      (r, m <| typ := read_value t |> <| msg_length := size |> <| transaction_id := take 12 (drop 8 buf) |>
            <| attributes := l |>).

Definition unmarshal_binary (data : bytes) : sm Message unit := λ m, decode (m <| raw := data |>).

Definition DEFAULT_RAW_CAPACITY : Z := 120.

(** [Message::read_from] with a reader over the octets of one datagram: one [read] into a buffer
    of [DEFAULT_RAW_CAPACITY] octets. *)
Definition read_from (datagram : bytes) : sm Message Z := λ m,
  let n := Z.min DEFAULT_RAW_CAPACITY (len datagram) in
  (do! _ <- decode; sret n) (m <| raw := take (Z.to_nat n) datagram |>).

(** [Message::clone_to]: the message that is written *)
Definition clone_to (m : Message) : sm Message unit := λ b, decode (b <| raw := raw m |>).

Definition is_stun_message (b : bytes) : bool :=
  (MESSAGE_HEADER_SIZE <=? len b) && (of_be (take 4 (drop 4 b)) =? MAGIC_COOKIE).

(** [Attributes::get], [Message::contains], [Message::get] *)
Definition attributes_get (l : list RawAttribute) (t : Z) : option RawAttribute :=
  find (λ a, attr_typ a =? t) l.
Definition contains (m : Message) (t : Z) : bool := existsb (λ a, attr_typ a =? t) (attributes m).
Definition get (m : Message) (t : Z) : res bytes :=
  match attributes_get (attributes m) t with
  | Some a => Ok (attr_value a)
  | None => Err ErrAttributeNotFound
  end.

(** * Setters *)

(** [impl Setter for TransactionId], [MessageType], [RawAttribute] *)
Definition transaction_id_add_to (tid : bytes) : sm Message unit :=
  do! _ <- smodify (λ m, m <| transaction_id := tid |>);
  write_transaction_id.
Definition type_add_to (t : MessageType) : sm Message unit := set_type t.
Definition raw_add_to (a : RawAttribute) : sm Message unit := add (attr_typ a) (attr_value a).

Fixpoint run_setters (l : list (sm Message unit)) : sm Message unit :=
  match l with
  | [] => sret tt
  | s :: l => do! _ <- s; run_setters l
  end.

(** [Message::build] *)
Definition build (setters : list (sm Message unit)) : sm Message unit :=
  do! _ <- smodify reset;
  do! _ <- write_header;
  run_setters setters.

(** * Checks *)

Definition check_size (got expected : Z) : res unit := if got =? expected then Ok tt else Err ErrAttributeSizeInvalid.
Definition check_hmac (got expected : bytes) : res unit := if decide (got = expected) then Ok tt else Err ErrIntegrityMismatch.
Definition check_fingerprint (got expected : Z) : res unit := if got =? expected then Ok tt else Err ErrFingerprintMismatch.
Definition check_overflow (got max : Z) : res unit := if got <=? max then Ok tt else Err ErrAttributeSizeOverflow.

(** The [ring] and [crc] crates: HMAC-SHA1 gives 20 octets, CRC-32 a [u32]. *)
Class StunCrypto := {
  hmac_sha1 : bytes → bytes → bytes;
  crc32 : bytes → Z;
  hmac_length k m : len (hmac_sha1 k m) = 20;
  hmac_octets k m : Forall byte_ok (hmac_sha1 k m);
  crc_fits m : fits 32 (crc32 m);
}.

Definition MESSAGE_INTEGRITY_SIZE : Z := 20.
Definition FINGERPRINT_XOR_VALUE : Z := 0x5354554e.
Definition FINGERPRINT_SIZE : Z := 4.

Section Protection.
Context {SC : StunCrypto}.

Definition set_msg_length (n : Z) : sm Message unit := smodify (λ m, m <| msg_length := n |>).

(** [impl Setter for MessageIntegrity] *)
Definition integrity_add_to (key : bytes) : sm Message unit := λ m,
  if existsb (λ a, attr_typ a =? ATTR_FINGERPRINT) (attributes m) then (Err ErrFingerprintBeforeIntegrity, m)
  else
    let length := msg_length m in
    (do! _ <- set_msg_length (u32 (length + (MESSAGE_INTEGRITY_SIZE + ATTRIBUTE_HEADER_SIZE)));
     do! _ <- write_length;
     do! v <- sgets (λ m, hmac_sha1 key (raw m));
     do! _ <- set_msg_length length;
     add ATTR_MESSAGE_INTEGRITY v) m.

(** The loop of [MessageIntegrity::check]: the octets of the attributes behind the first
    MESSAGE-INTEGRITY *)
Fixpoint size_after (after_integrity : bool) (l : list RawAttribute) : Z :=
  match l with
  | [] => 0
  | a :: l =>
      (if after_integrity then nearest_padded_value_length (attr_length a) + ATTRIBUTE_HEADER_SIZE else 0)
      + size_after (after_integrity || (attr_typ a =? ATTR_MESSAGE_INTEGRITY)) l
  end.

(** [MessageIntegrity::check] *)
Definition integrity_check (key : bytes) : sm Message unit := λ m,
  (do! v <- slift (get m ATTR_MESSAGE_INTEGRITY);
   let length := msg_length m in
   let size_reduced := size_after false (attributes m) in
   do! _ <- set_msg_length (u32 (length - size_reduced));
   do! _ <- write_length;
   do! n <- sgets msg_length;
   let start_of_hmac := wrap 64 (MESSAGE_HEADER_SIZE + n - (ATTRIBUTE_HEADER_SIZE + MESSAGE_INTEGRITY_SIZE)) in
   do! r <- sgets raw;
   do! b <- slift (slice r 0 start_of_hmac);
   do! _ <- set_msg_length length;
   do! _ <- write_length;
   slift (check_hmac v (hmac_sha1 key b))) m.

Definition fingerprint_value (b : bytes) : Z := Z.lxor (crc32 b) FINGERPRINT_XOR_VALUE.

(** [impl Setter for FingerprintAttr] *)
Definition fingerprint_add_to : sm Message unit := λ m,
  let l := msg_length m in
  (do! _ <- set_msg_length (u32 (l + (FINGERPRINT_SIZE + ATTRIBUTE_HEADER_SIZE)));
   do! _ <- write_length;
   do! val <- sgets (λ m, fingerprint_value (raw m));
   do! _ <- set_msg_length l;
   add ATTR_FINGERPRINT (be 4 val)) m.

(** [FingerprintAttr::check] *)
Definition fingerprint_check (m : Message) : res unit :=
  let! b := get m ATTR_FINGERPRINT in
  let! _ := check_size (len b) FINGERPRINT_SIZE in
  let val := of_be (take 4 b) in
  let attr_start := wrap 64 (len (raw m) - (FINGERPRINT_SIZE + ATTRIBUTE_HEADER_SIZE)) in
  let! covered := slice (raw m) 0 attr_start in
  check_fingerprint val (fingerprint_value covered).

End Protection.

(** * Message types on the wire *)

Ltac eval_pow := repeat match goal with |- context [2 ^ ?k] => let v := eval compute in (2 ^ k) in change (2 ^ k) with v end.

Lemma land_field x k w : 0 <= k → 0 <= w → Z.land x (Z.shiftl (Z.ones w) k) = (x / 2 ^ k mod 2 ^ w) * 2 ^ k.
Proof.
  intros. rewrite <-field_mod, <-Z.shiftl_mul_pow2 by done. apply Z.bits_inj'. intros n Hn.
  rewrite Z.land_spec, !Z.shiftl_spec by done. destruct (decide (n < k)).
  - rewrite !(Z.testbit_neg_r _ (n - k)) by lia. apply andb_false_r.
  - rewrite Z.land_spec, Z.shiftr_spec by lia. by rewrite Z.sub_add.
Qed.

Lemma type_value_eq t :
  type_value t = method t mod 16 + method t / 16 mod 8 * 32 + method t / 128 mod 32 * 512
                 + (class t mod 2 * 16 + class t / 2 mod 2 * 256).
Proof.
  unfold type_value, METHOD_ABITS, METHOD_BBITS, METHOD_DBITS, C0BIT, C1BIT, METHOD_BSHIFT, METHOD_DSHIFT, CLASS_C0SHIFT, CLASS_C1SHIFT.
  change 0xf with (Z.shiftl (Z.ones 4) 0). change 0x70 with (Z.shiftl (Z.ones 3) 4). change 0xf80 with (Z.shiftl (Z.ones 5) 7).
  change (Z.land (class t) 1) with (Z.land (class t) (Z.shiftl (Z.ones 1) 0)).
  change (Z.land (class t) 2) with (Z.land (class t) (Z.shiftl (Z.ones 1) 1)).
  rewrite !land_field, !Z.shiftl_mul_pow2 by lia. eval_pow. rewrite !Z.div_1_r. lia.
Qed.

Lemma read_value_eq v :
  read_value v = mkType (v mod 16 + v / 32 mod 8 * 16 + v / 512 mod 32 * 128) (v / 16 mod 2 + v / 256 mod 2 * 2).
Proof.
  unfold read_value, METHOD_ABITS, METHOD_BBITS, METHOD_DBITS, C0BIT, C1BIT, METHOD_BSHIFT, METHOD_DSHIFT, CLASS_C0SHIFT, CLASS_C1SHIFT.
  change 0xf with (Z.shiftl (Z.ones 4) 0). change 0x70 with (Z.shiftl (Z.ones 3) 4). change 0xf80 with (Z.shiftl (Z.ones 5) 7).
  change (Z.land (Z.shiftr v 4) 1) with (Z.land (Z.shiftr v 4) (Z.shiftl (Z.ones 1) 0)).
  change (Z.land (Z.shiftr v 7) 2) with (Z.land (Z.shiftr v 7) (Z.shiftl (Z.ones 1) 1)).
  rewrite !land_field, !Z.shiftr_div_pow2, !Z.div_div by lia. eval_pow. by rewrite !Z.div_1_r, !Z.mul_1_r.
Qed.

Definition type_ok (t : MessageType) : Prop := fits 12 (method t) ∧ fits 2 (class t).

Lemma type_value_fits t : fits 14 (type_value t).
Proof.
  rewrite type_value_eq. unfold fits. change (2 ^ 14) with 16384.
  pose proof (Z.mod_pos_bound (method t) 16). pose proof (Z.mod_pos_bound (method t / 16) 8). pose proof (Z.mod_pos_bound (method t / 128) 32).
  pose proof (Z.mod_pos_bound (class t) 2). pose proof (Z.mod_pos_bound (class t / 2) 2). lia.
Qed.

Lemma read_value_value t : type_ok t → read_value (type_value t) = t.
Proof.
  intros [Hm Hc]. unfold fits in *. change (2 ^ 12) with 4096 in Hm. change (2 ^ 2) with 4 in Hc.
  rewrite read_value_eq, type_value_eq. destruct t as [m c]. cbn [method class] in *.
  assert (∃ a b d, m = a + 16 * b + 128 * d ∧ 0 <= a < 16 ∧ 0 <= b < 8 ∧ 0 <= d < 32) as (a & b & d & -> & Ha & Hb & Hd).
  { exists (m mod 16), (m / 16 mod 8), (m / 128). Z.div_mod_to_equations. lia. }
  assert (∃ x y, c = x + 2 * y ∧ 0 <= x < 2 ∧ 0 <= y < 2) as (x & y & -> & Hx & Hy).
  { exists (c mod 2), (c / 2). Z.div_mod_to_equations. lia. }
  f_equal; Z.div_mod_to_equations; lia.
Qed.

(** * The wire image of a message *)

Lemma padded_bounds l : 0 <= l → l <= nearest_padded_value_length l < l + 4.
Proof. intros. unfold nearest_padded_value_length, PADDING. case_match; Z.div_mod_to_equations; lia. Qed.

Lemma padded_exact l : 0 <= l → l mod 4 = 0 ↔ nearest_padded_value_length l = l.
Proof. intros. unfold nearest_padded_value_length, PADDING. case_match; Z.div_mod_to_equations; lia. Qed.

Definition padding (l : Z) : bytes := replicate (Z.to_nat (nearest_padded_value_length l - l)) 0.

Definition attr_bytes (a : RawAttribute) : bytes :=
  be 2 (attr_typ a) ++ be 2 (len (attr_value a)) ++ attr_value a ++ padding (len (attr_value a)).
Definition body (l : list RawAttribute) : bytes := concat (attr_bytes <$> l).
Definition head (t : MessageType) (n : Z) (tid : bytes) : bytes :=
  be 2 (type_value t) ++ be 2 n ++ be 4 MAGIC_COOKIE ++ tid.
Definition attr_size (l : Z) : Z := ATTRIBUTE_HEADER_SIZE + nearest_padded_value_length l.

Lemma len_be n x : len (be n x) = Z.of_nat n.
Proof. unfold len. by rewrite BigEndian.enc_length. Qed.
Lemma len_value_padding l : 0 <= l → len (padding l) = nearest_padded_value_length l - l.
Proof. intros H. unfold padding. rewrite len_replicate. pose proof (padded_bounds l H). lia. Qed.
Lemma len_attr_bytes a : len (attr_bytes a) = attr_size (len (attr_value a)).
Proof.
  unfold attr_bytes, attr_size, ATTRIBUTE_HEADER_SIZE. rewrite !len_app, !len_be, len_value_padding by apply len_nonneg. lia.
Qed.
Lemma body_snoc l a : body (l ++ [a]) = body l ++ attr_bytes a.
Proof. unfold body. rewrite fmap_app, concat_app. cbn. by rewrite app_nil_r. Qed.
Lemma body_app l k : body (l ++ k) = body l ++ body k.
Proof. unfold body. by rewrite fmap_app, concat_app. Qed.

Lemma copy_at_mid off v (a b c : bytes) :
  len a = off → len b = len v → copy_at off v (a ++ b ++ c) = Ok (a ++ v ++ c).
Proof.
  intros Ha Hb. unfold copy_at. rewrite (proj2 (Z.leb_le _ _)) by (rewrite !len_app; pose proof (len_nonneg c); lia). do 2 f_equal.
  - apply take_app_length'. unfold len in Ha. lia.
  - f_equal. rewrite app_assoc. apply drop_app_length'. rewrite length_app. unfold len in *. lia.
Qed.

Lemma copy_at_end off v (a b : bytes) : len a = off → len b = len v → copy_at off v (a ++ b) = Ok (a ++ v).
Proof. intros Ha Hb. pose proof (copy_at_mid off v a b [] Ha Hb) as E. by rewrite !app_nil_r in E. Qed.

Lemma grow_same n r b : n <= len b → r = false ∨ n = len b → grow n r b = b.
Proof.
  intros Hn Hr. unfold grow. rewrite (proj2 (Z.leb_le _ _)) by done. destruct r; [|done]. apply take_ge. destruct Hr as [|Hr]; [done|].
  unfold len in *. lia.
Qed.
Lemma grow_more n r b : len b < n → grow n r b = b ++ replicate (Z.to_nat (n - len b)) 0.
Proof. intros Hn. unfold grow. by rewrite (proj2 (Z.leb_gt _ _)). Qed.

(** A message whose buffer is its image, but for the number in the length field of the header. *)
Definition laid (n : Z) (m : Message) : Prop :=
  raw m = head (typ m) n (transaction_id m) ++ body (attributes m) ∧
  msg_length m = len (body (attributes m)) ∧ len (transaction_id m) = 12 ∧ fits 16 (msg_length m).
(** A message and its image agree. *)
Definition consistent (m : Message) : Prop := laid (msg_length m) m.

Lemma len_head t n tid : len tid = 12 → len (head t n tid) = 20.
Proof. intros H. unfold head. rewrite !len_app, !len_be, H. done. Qed.

Lemma write_length_head t n tid rest m :
  len tid = 12 → raw m = head t n tid ++ rest →
  write_length m = (Ok tt, m <| raw := head t (u16 (msg_length m)) tid ++ rest |>).
Proof.
  intros Ht E. unfold write_length, edit_raw. rewrite E, grow_same; cycle 1.
  { rewrite len_app, len_head by done. pose proof (len_nonneg rest). lia. }
  { by left. }
  unfold head. rewrite <-!app_assoc.
  rewrite (copy_at_mid 2 _ _ (be 2 n)) by (by rewrite ?len_be). done.
Qed.

Definition added (t : Z) (v : bytes) (m : Message) : Message :=
  let l := attributes m ++ [mkAttr t (len v) v] in
  mkMessage (typ m) (len (body l)) (transaction_id m) l (head (typ m) (len (body l)) (transaction_id m) ++ body l).

Lemma len_body_snoc l a : len (body (l ++ [a])) = len (body l) + attr_size (len (attr_value a)).
Proof. by rewrite body_snoc, len_app, len_attr_bytes. Qed.

Lemma edit_raw_Ok f m b : f (raw m) = Ok b → edit_raw f m = (Ok tt, m <| raw := b |>).
Proof. intros E. unfold edit_raw. by rewrite E. Qed.

Lemma add_padding_step T L tid l b n :
  0 <= n → fits 16 (L + (nearest_padded_value_length n - n)) →
  (if n mod PADDING =? 0 then sret tt else add_padding (len b) n) (mkMessage T L tid l b)
  = (Ok tt, mkMessage T (L + (nearest_padded_value_length n - n)) tid l (b ++ padding n)).
Proof.
  intros Hn Hf. pose proof (padded_bounds n Hn) as Hp. pose proof (padded_exact n Hn) as He. unfold PADDING.
  destruct (n mod 4 =? 0) eqn:E.
  - apply Z.eqb_eq, He in E. unfold padding. by rewrite E, Z.sub_diag, Z.add_0_r, app_nil_r.
  - apply Z.eqb_neq in E. unfold add_padding.
    erewrite sbind_Ok; cycle 1.
    { apply edit_raw_Ok. cbn [raw]. rewrite grow_more by lia. apply copy_at_end; [done|]. rewrite !len_replicate. lia. }
    unfold smodify, set, set_raw, set_length, padding. cbn. rewrite wrap_small; [done|]. unfold fits in *. lia.
Qed.

Lemma add_laid n t v m :
  laid n m → fits 16 (msg_length m + attr_size (len v)) →
  add t v m = (Ok tt, added t v m) ∧ consistent (added t v m).
Proof.
  destruct m as [T L tid l r]. unfold laid, consistent, added. cbn [typ msg_length transaction_id attributes raw].
  intros (-> & Hlen & Ht & Hf) Hfit. pose proof (len_nonneg v) as Hv. pose proof (padded_bounds (len v) Hv) as Hp.
  unfold attr_size, ATTRIBUTE_HEADER_SIZE in Hfit.
  assert (Hn : len (body (l ++ [mkAttr t (len v) v])) = L + attr_size (len v)) by (rewrite len_body_snoc, Hlen; done).
  split; [|rewrite Hn; done]. unfold add. cbn [typ msg_length transaction_id attributes raw].
  assert (HH : len (head T n tid ++ body l) = 20 + L) by (rewrite len_app, len_head, Hlen by done; lia).
  assert (u16 (len v) = len v) as -> by (apply wrap_small; unfold fits in *; lia). cbv zeta. cbn [attr_length].
  unfold MESSAGE_HEADER_SIZE, ATTRIBUTE_HEADER_SIZE.
  erewrite sbind_Ok by (apply edit_raw_Ok; cbn [raw]; rewrite grow_more by lia; reflexivity).
  erewrite sbind_Ok by reflexivity.
  erewrite sbind_Ok by (apply edit_raw_Ok; cbn [raw set set_raw set_length]; apply copy_at_end; [done|rewrite len_replicate, HH, !len_app, !len_be; lia]).
  unfold set, set_raw, set_length. cbn [typ msg_length transaction_id attributes raw].
  replace (20 + L + (4 + len v)) with (len ((head T n tid ++ body l) ++ be 2 t ++ be 2 (len v) ++ v))
    by (rewrite (len_app (_ ++ _)), HH, !len_app, !len_be; lia).
  rewrite (wrap_small 32) by (unfold fits in *; lia).
  erewrite sbind_Ok by (apply add_padding_step; [done|unfold fits in *; lia]).
  erewrite sbind_Ok by reflexivity.
  erewrite write_length_head; [|done|cbn [raw set set_attributes]; by rewrite <-!app_assoc].
  unfold set, set_raw, set_attributes. cbn [typ msg_length transaction_id attributes raw].
  rewrite wrap_small, Hn by (unfold fits in *; lia). unfold attr_size, ATTRIBUTE_HEADER_SIZE.
  replace (L + (4 + len v) + (nearest_padded_value_length (len v) - len v)) with (L + (4 + nearest_padded_value_length (len v))) by lia.
  by rewrite body_snoc.
Qed.

(** The message with the given type, identifier and attributes, and its image. *)
Definition packed (t : MessageType) (tid : bytes) (l : list RawAttribute) : Message :=
  mkMessage t (len (body l)) tid l (head t (len (body l)) tid ++ body l).

Lemma packed_consistent t tid l : len tid = 12 → fits 16 (len (body l)) → consistent (packed t tid l).
Proof. unfold consistent, laid, packed. by cbn. Qed.

Lemma consistent_packed m : consistent m → m = packed (typ m) (transaction_id m) (attributes m).
Proof. destruct m as [T L tid l r]. unfold consistent, laid, packed. cbn. by intros (-> & -> & _). Qed.

Lemma add_packed n t v T tid l b :
  len tid = 12 → fits 16 (len (body l)) → fits 16 (len (body l) + attr_size (len v)) → b = head T n tid ++ body l →
  add t v (mkMessage T (len (body l)) tid l b) = (Ok tt, packed T tid (l ++ [mkAttr t (len v) v])).
Proof. intros Ht Hl Hf ->. by destruct (add_laid n t v (mkMessage T (len (body l)) tid l (head T n tid ++ body l))). Qed.

Lemma write_header_fresh T L tid l :
  len tid = 12 → write_header (mkMessage T L tid l []) = (Ok tt, mkMessage T L tid l (head T (u16 L) tid)).
Proof.
  intros Ht. unfold write_header. erewrite sbind_Ok by reflexivity. unfold set, set_raw. cbn [typ msg_length transaction_id attributes raw].
  erewrite sbind_Ok.
  2: { apply edit_raw_Ok. cbn [raw]. rewrite (grow_same 2); [|vm_compute; discriminate|by left].
       change (grow _ _ _) with (([] : bytes) ++ replicate 2 0 ++ replicate 18 0). by apply copy_at_mid. }
  unfold set, set_raw. cbn [typ msg_length transaction_id attributes raw app].
  change (replicate 18 0) with (replicate 2 0 ++ replicate 4 0 ++ replicate 12 0).
  erewrite sbind_Ok.
  2: { apply edit_raw_Ok. cbn [raw]. rewrite grow_same; [|rewrite !len_app, len_be; done|by left].
       apply copy_at_mid; by rewrite ?len_be. }
  unfold set, set_raw. cbn [typ msg_length transaction_id attributes raw app].
  erewrite sbind_Ok.
  2: { apply edit_raw_Ok. cbn [raw]. rewrite (app_assoc (be 2 _)). apply copy_at_mid; [by rewrite len_app, !len_be|by rewrite len_be]. }
  unfold set, set_raw. cbn [typ msg_length transaction_id attributes raw app].
  unfold write_transaction_id. erewrite edit_raw_Ok; cycle 1.
  { cbn [raw transaction_id]. rewrite (app_assoc (_ ++ _)). apply copy_at_end; [by rewrite !len_app, !len_be|by rewrite Ht]. }
  unfold set, set_raw. cbn [typ msg_length transaction_id attributes raw app]. unfold head. by rewrite <-!app_assoc.
Qed.

Lemma type_add_packed t T tid l :
  len tid = 12 → type_add_to t (packed T tid l) = (Ok tt, packed t tid l).
Proof.
  intros Ht. unfold type_add_to, set_type. erewrite sbind_Ok by reflexivity. unfold write_type, packed.
  erewrite edit_raw_Ok; [reflexivity|]. unfold set, set_typ. cbn [typ msg_length transaction_id attributes raw].
  rewrite grow_same; [|rewrite len_app, len_head by done; pose proof (len_nonneg (body l)); lia|by left].
  unfold head. rewrite <-!app_assoc. apply (copy_at_mid 0 _ [] (be 2 (type_value T))); by rewrite ?len_be.
Qed.

Lemma transaction_id_add_packed tid t tid0 l :
  len tid0 = 12 → len tid = 12 → transaction_id_add_to tid (packed t tid0 l) = (Ok tt, packed t tid l).
Proof.
  intros H0 Ht. unfold transaction_id_add_to. erewrite sbind_Ok by reflexivity. unfold write_transaction_id, packed.
  erewrite edit_raw_Ok; [reflexivity|]. unfold set, set_tid. cbn [typ msg_length transaction_id attributes raw].
  unfold head. rewrite <-!app_assoc, !(app_assoc (be 2 _) (be 2 _)), !(app_assoc (_ ++ _) (be 4 _)).
  apply copy_at_mid; [by rewrite !len_app, !len_be|lia].
Qed.

(** An attribute as [add] makes it *)
Definition attr_made (a : RawAttribute) : Prop := attr_length a = len (attr_value a).

Lemma body_fits_prefix l k : fits 16 (len (body (l ++ k))) → fits 16 (len (body l)).
Proof. rewrite body_app, len_app. unfold fits. pose proof (len_nonneg (body k)). pose proof (len_nonneg (body l)). lia. Qed.

Lemma raw_adds_packed k l t tid :
  len tid = 12 → Forall attr_made k → fits 16 (len (body (l ++ k))) →
  run_setters (raw_add_to <$> k) (packed t tid l) = (Ok tt, packed t tid (l ++ k)).
Proof.
  intros Ht Hk. revert l. induction Hk as [|a k Ha Hk IH]; intros l Hf; [by rewrite app_nil_r|].
  rewrite cons_middle, app_assoc in Hf. pose proof (body_fits_prefix _ _ Hf) as Hf1. pose proof (body_fits_prefix _ _ Hf1) as Hf2.
  rewrite len_body_snoc in Hf1. rewrite fmap_cons. cbn [run_setters]. unfold raw_add_to at 1, packed at 1.
  erewrite sbind_Ok by by eapply add_packed. rewrite (cons_middle a l k), (app_assoc l).
  destruct a as [at_ al av]. unfold attr_made in Ha. cbn in Ha |- *. subst al. by apply IH.
Qed.

Section ProtectionAdds.
Context {SC : StunCrypto}.

(** The octets MESSAGE-INTEGRITY covers behind the attributes [l], and those FINGERPRINT covers *)
Definition integrity_text (t : MessageType) (tid : bytes) (l : list RawAttribute) : bytes :=
  head t (len (body l) + 24) tid ++ body l.
Definition integrity_attr (key : bytes) (t : MessageType) (tid : bytes) (l : list RawAttribute) : RawAttribute :=
  mkAttr ATTR_MESSAGE_INTEGRITY 20 (hmac_sha1 key (integrity_text t tid l)).
Definition fingerprint_attr (t : MessageType) (tid : bytes) (l : list RawAttribute) : RawAttribute :=
  mkAttr ATTR_FINGERPRINT 4 (be 4 (fingerprint_value (head t (len (body l) + 8) tid ++ body l))).

Lemma write_length_packed n t tid l :
  len tid = 12 → fits 16 n →
  write_length (mkMessage t n tid l (head t (len (body l)) tid ++ body l))
  = (Ok tt, mkMessage t n tid l (head t n tid ++ body l)).
Proof.
  intros Ht Hn. erewrite write_length_head; [|done|reflexivity]. unfold set, set_raw. cbn [typ msg_length transaction_id attributes raw].
  by rewrite wrap_small.
Qed.

Lemma integrity_add_packed key t tid l :
  len tid = 12 → Forall (λ a, attr_typ a ≠ ATTR_FINGERPRINT) l → fits 16 (len (body l) + 24) →
  integrity_add_to key (packed t tid l) = (Ok tt, packed t tid (l ++ [integrity_attr key t tid l])).
Proof.
  intros Ht Hl Hf. pose proof (len_nonneg (body l)) as Hb. unfold integrity_add_to, packed at 1 2 3. cbn [typ msg_length transaction_id attributes raw].
  rewrite (proj1 (not_true_iff_false _)).
  2: { intros (a & Ha & E%Z.eqb_eq)%existsb_exists. rewrite Forall_forall in Hl. by apply (Hl a); [apply list_elem_of_In|]. }
  unfold MESSAGE_INTEGRITY_SIZE, ATTRIBUTE_HEADER_SIZE. rewrite (wrap_small 32) by (unfold fits in *; lia).
  erewrite sbind_Ok by reflexivity. unfold set, set_length, packed at 1. cbn [typ msg_length transaction_id attributes raw].
  erewrite sbind_Ok by (apply write_length_packed; done).
  erewrite sbind_Ok by reflexivity. erewrite sbind_Ok by reflexivity. unfold set, set_length. cbn [typ msg_length transaction_id attributes raw].
  unfold integrity_attr. replace (mkAttr _ 20 _) with (mkAttr ATTR_MESSAGE_INTEGRITY (len (hmac_sha1 key (integrity_text t tid l)))
    (hmac_sha1 key (integrity_text t tid l))) by by rewrite hmac_length.
  apply (add_packed (len (body l) + 24)); [done| |rewrite hmac_length; exact Hf|done]. unfold fits in *. lia.
Qed.

Lemma fingerprint_add_packed t tid l :
  len tid = 12 → fits 16 (len (body l) + 8) →
  fingerprint_add_to (packed t tid l) = (Ok tt, packed t tid (l ++ [fingerprint_attr t tid l])).
Proof.
  intros Ht Hf. pose proof (len_nonneg (body l)) as Hb. unfold fingerprint_add_to, packed at 1 2. cbn [typ msg_length transaction_id attributes raw].
  unfold FINGERPRINT_SIZE, ATTRIBUTE_HEADER_SIZE. rewrite (wrap_small 32) by (unfold fits in *; lia).
  erewrite sbind_Ok by reflexivity. unfold set, set_length, packed at 1. cbn [typ msg_length transaction_id attributes raw].
  erewrite sbind_Ok by (apply write_length_packed; done).
  erewrite sbind_Ok by reflexivity. erewrite sbind_Ok by reflexivity. unfold set, set_length. cbn [typ msg_length transaction_id attributes raw].
  unfold fingerprint_attr. set (v := be 4 _). change (mkAttr ATTR_FINGERPRINT 4 v) with (mkAttr ATTR_FINGERPRINT (len v) v).
  apply (add_packed (len (body l) + 8)); [done| |unfold v; rewrite len_be; exact Hf|done]. unfold fits in *. lia.
Qed.

End ProtectionAdds.

(** * Decoding *)

(** The octets [c] of a message hold the attribute [a]. *)
Definition chunk (a : RawAttribute) (c : bytes) : Prop := ∃ w p,
  c = be 2 w ++ be 2 (attr_length a) ++ attr_value a ++ p ∧ fits 16 w ∧ compat_attr_type w = attr_typ a ∧
  fits 16 (attr_length a) ∧ len (attr_value a) = attr_length a ∧
  len p = nearest_padded_value_length (attr_length a) - attr_length a.

Lemma len_attr_chunk a c : chunk a c → len c = attr_size (attr_length a).
Proof.
  intros (w & p & -> & _ & _ & _ & Hv & Hp). unfold attr_size, ATTRIBUTE_HEADER_SIZE. rewrite !len_app, !len_be, Hp, Hv. lia.
Qed.

Lemma attr_bytes_chunk a :
  attr_made a → fits 16 (attr_length a) → fits 16 (attr_typ a) → attr_typ a ≠ 0x8020 → chunk a (attr_bytes a).
Proof.
  intros Hm Hl Ht Hc. exists (attr_typ a), (padding (attr_length a)). unfold attr_bytes, attr_made in *. rewrite <-Hm.
  split_and!; [done|done| |done|done|by apply len_value_padding; destruct Hl].
  unfold compat_attr_type. by rewrite (proj2 (Z.eqb_neq _ _)).
Qed.

Lemma of_be_app n x r : fits (8 * Z.of_nat n) x → of_be (take n (be n x ++ r)) = x.
Proof. intros. rewrite take_app_length' by by rewrite BigEndian.enc_length. by apply BigEndian.dec_enc. Qed.

Lemma decode_attributes_complete l cs fuel off size :
  Forall2 chunk l cs → size - off = len (concat cs) → len (concat cs) <= Z.of_nat fuel →
  decode_attributes fuel off size (concat cs) = (Ok tt, l).
Proof.
  intros H. revert fuel off. induction H as [|a c l cs Hc _ IH]; intros fuel off Hs Hf.
  - assert ((off <? size) = false) as E by (apply Z.ltb_ge; change (len (concat [])) with 0 in Hs; lia). destruct fuel; cbn; by rewrite E.
  - pose proof (len_attr_chunk _ _ Hc) as Hlc. destruct Hc as (w & p & -> & Hw & Hcw & Hal & Hv & Hp). pose proof (len_nonneg (concat cs)).
    pose proof (padded_bounds (attr_length a) (proj1 Hal)) as Hpb. unfold attr_size, ATTRIBUTE_HEADER_SIZE in Hlc. destruct fuel as [|fuel].
    { cbn [concat] in Hf. rewrite len_app, Hlc in Hf. unfold fits in Hal. lia. }
    cbn [concat] in Hs, Hf |- *. rewrite len_app, Hlc in Hs, Hf. set (rest := concat cs) in *. cbn [decode_attributes].
    rewrite (proj2 (Z.ltb_lt _ _)), (proj2 (Z.ltb_ge _ _)) by (rewrite ?(len_app _ rest), ?Hlc; unfold ATTRIBUTE_HEADER_SIZE, fits in *; lia).
    rewrite <-!app_assoc, of_be_app by done.
    rewrite (drop_app_length' (be 2 w) _ 2) by by rewrite BigEndian.enc_length. rewrite of_be_app by done.
    change 4%nat with (2 + 2)%nat. rewrite <-drop_drop.
    rewrite (drop_app_length' (be 2 w)), (drop_app_length' (be 2 _)) by by rewrite BigEndian.enc_length.
    rewrite (proj2 (Z.ltb_ge _ _)) by (rewrite !len_app; lia).
    rewrite take_app_length' by (unfold len in Hv; lia).
    rewrite app_assoc, (drop_app_length' (_ ++ p)) by (rewrite length_app; unfold len in *; lia).
    rewrite IH by (unfold ATTRIBUTE_HEADER_SIZE, fits in *; lia). rewrite Hcw. by destruct a.
Qed.

Lemma be_of_be n l : Forall byte_ok l → length l = n → be n (of_be l) = l.
Proof. intros Hl <-. by apply BigEndian.enc_dec. Qed.

Lemma of_be_fits n l : Forall byte_ok l → length l = n → fits (8 * Z.of_nat n) (of_be l).
Proof. intros Hl <-. by apply BigEndian.dec_fits. Qed.

Lemma split_at {A} n (l : list A) : Z.of_nat n <= len l → ∃ a b, l = a ++ b ∧ length a = n.
Proof. intros H. exists (take n l), (drop n l). rewrite take_drop. split; [done|]. apply length_take_le. unfold len in H. lia. Qed.

Lemma decode_attributes_sound fuel off size b :
  Forall byte_ok b → len b = size - off → len b <= Z.of_nat fuel →
  match decode_attributes fuel off size b with
  | (Ok _, l) => ∃ cs, b = concat cs ∧ Forall2 chunk l cs
  | (Err e, _) => e = ErrOther
  | (Panic, _) => False
  end.
Proof.
  revert off b. induction fuel as [|fuel IH]; intros off b Hb Hl Hf; pose proof (len_nonneg b) as H0; cbn [decode_attributes].
  all: destruct (off <? size) eqn:E;
    [apply Z.ltb_lt in E|apply Z.ltb_ge in E; destruct b; [by exists []|rewrite len_cons in Hl; pose proof (len_nonneg b); lia]].
  { lia. }
  destruct (len b <? ATTRIBUTE_HEADER_SIZE) eqn:E1; [done|]. apply Z.ltb_ge in E1. unfold ATTRIBUTE_HEADER_SIZE in E1.
  destruct (split_at 2 b) as (b1 & b' & -> & L1); [lia|]. destruct (split_at 2 b') as (b2 & r & -> & L2).
  { rewrite len_app in E1. unfold len in *. lia. }
  apply Forall_app in Hb as [Hb1 [Hb2 Hr]%Forall_app]. rewrite (take_app_length' b1), (drop_app_length' b1 _ 2), (take_app_length' b2) by done.
  change 4%nat with (2 + 2)%nat. rewrite <-drop_drop, (drop_app_length' b1 _ 2), (drop_app_length' b2) by done.
  pose proof (of_be_fits 2 b1 Hb1 L1) as F1. pose proof (of_be_fits 2 b2 Hb2 L2) as F2. set (n := of_be b2) in *.
  pose proof (padded_bounds n (proj1 F2)) as Hp. destruct (len r <? _) eqn:E2; [done|]. apply Z.ltb_ge in E2.
  destruct (split_at (Z.to_nat (nearest_padded_value_length n)) r) as (vp & r' & -> & L3); [unfold fits in F2; lia|].
  destruct (split_at (Z.to_nat n) vp) as (v & p & -> & L4); [unfold len, fits in *; lia|].
  apply Forall_app in Hr as [Hvp Hr']. rewrite (drop_app_length' (v ++ p)) by done. rewrite <-(app_assoc v p), (take_app_length' v) by done.
  rewrite !len_app in Hl, Hf. unfold len in Hl, Hf at 1 2 3 4. rewrite length_app in L3.
  specialize (IH (off + 4 + nearest_padded_value_length n) r' Hr').
  unfold ATTRIBUTE_HEADER_SIZE. destruct (decode_attributes fuel _ _ _) as [[[]|e|] l]; [|apply IH; unfold len, fits in *; lia..].
  destruct IH as (cs & -> & Hcs); [unfold len, fits in *; lia..|].
  exists ((b1 ++ b2 ++ v ++ p) :: cs). split; [cbn; by rewrite <-!app_assoc|]. constructor; [|done].
  exists (of_be b1), p. cbn [attr_length attr_value attr_typ]. subst n. rewrite !be_of_be by done.
  split_and!; try done; unfold len, fits in *; lia.
Qed.

(** [m] is what the octets [w] hold: its header, the chunks of its attributes, and whatever
    follows the message. *)
Definition holds (w : bytes) (m : Message) : Prop := ∃ v cs rest,
  w = be 2 v ++ be 2 (msg_length m) ++ be 4 MAGIC_COOKIE ++ transaction_id m ++ concat cs ++ rest ∧
  fits 16 v ∧ typ m = read_value v ∧ len (transaction_id m) = 12 ∧
  fits 16 (msg_length m) ∧ msg_length m = len (concat cs) ∧ Forall2 chunk (attributes m) cs ∧ raw m = w.

Lemma header_fields (x1 x2 x3 x4 : bytes) r :
  length x1 = 2%nat → length x2 = 2%nat → length x3 = 4%nat → length x4 = 12%nat →
  let w := x1 ++ x2 ++ x3 ++ x4 ++ r in
  take 2 w = x1 ∧ take 2 (drop 2 w) = x2 ∧ take 4 (drop 4 w) = x3 ∧ take 12 (drop 8 w) = x4 ∧ drop 20 w = r ∧ len w = 20 + len r.
Proof.
  intros L1 L2 L3 L4 w. subst w.
  assert (D2 : drop 2 (x1 ++ x2 ++ x3 ++ x4 ++ r) = x2 ++ x3 ++ x4 ++ r) by by apply drop_app_length'.
  assert (D4 : drop 4 (x1 ++ x2 ++ x3 ++ x4 ++ r) = x3 ++ x4 ++ r) by (change 4%nat with (2 + 2)%nat; rewrite <-drop_drop, D2; by apply drop_app_length').
  assert (D8 : drop 8 (x1 ++ x2 ++ x3 ++ x4 ++ r) = x4 ++ r) by (change 8%nat with (4 + 4)%nat; rewrite <-drop_drop, D4; by apply drop_app_length').
  assert (D20 : drop 20 (x1 ++ x2 ++ x3 ++ x4 ++ r) = r) by (change 20%nat with (8 + 12)%nat; rewrite <-drop_drop, D8; by apply drop_app_length').
  rewrite D2, D4, D8, D20, !take_app_length' by done. split_and!; try done. rewrite !len_app. unfold len. lia.
Qed.

Lemma unmarshal_complete w m m0 : holds w m → unmarshal_binary w m0 = (Ok tt, m).
Proof.
  destruct m as [T L tid l r]. intros (v & cs & rest & Hw & Fv & HT & Ht & FL & HL & Hcs & Hr). cbn [typ msg_length transaction_id attributes raw] in *. subst T r.
  pose proof (header_fields (be 2 v) (be 2 L) (be 4 MAGIC_COOKIE) tid (concat cs ++ rest)) as HF. cbv zeta in HF. rewrite <-Hw in HF.
  destruct HF as (E1 & E2 & E3 & E4 & E5 & E6); [by rewrite BigEndian.enc_length..|unfold len in Ht; lia|]. pose proof (len_nonneg rest). unfold unmarshal_binary, decode. record_simpl. rewrite E1, E2, E3, E4, E5, E6.
  rewrite !BigEndian.dec_enc by done. rewrite len_app, <-HL. unfold fits in FL.
  rewrite (proj2 (Z.ltb_ge _ _)) by (unfold MESSAGE_HEADER_SIZE; lia). rewrite Z.eqb_refl. cbn [negb].
  rewrite (proj2 (Z.ltb_ge _ _)) by (unfold MESSAGE_HEADER_SIZE; lia).
  rewrite take_app_length' by (unfold len in HL; lia).
  rewrite (decode_attributes_complete l cs) by (done || lia). done.
Qed.

Lemma unmarshal_sound w m0 :
  Forall byte_ok w →
  match unmarshal_binary w m0 with
  | (Ok _, m) => holds w m
  | (Err _, _) => True
  | (Panic, _) => False
  end.
Proof.
  intros Hw. unfold unmarshal_binary, decode. record_simpl.
  destruct (len w <? MESSAGE_HEADER_SIZE) eqn:E0; [done|]. apply Z.ltb_ge in E0. unfold MESSAGE_HEADER_SIZE in E0.
  destruct (split_at 2 w) as (x1 & w1 & -> & L1); [lia|]. rewrite len_app in E0.
  destruct (split_at 2 w1) as (x2 & w2 & -> & L2); [unfold len in *; lia|]. rewrite len_app in E0.
  destruct (split_at 4 w2) as (x3 & w3 & -> & L3); [unfold len in *; lia|]. rewrite len_app in E0.
  destruct (split_at 12 w3) as (x4 & r & -> & L4); [unfold len in *; lia|].
  destruct (header_fields x1 x2 x3 x4 r L1 L2 L3 L4) as (E1 & E2 & E3 & E4 & E5 & E6). rewrite E1, E2, E3, E4, E5, E6.
  apply Forall_app in Hw as [H1 [H2 [H3 [H4 Hr]%Forall_app]%Forall_app]%Forall_app].
  destruct (of_be x3 =? MAGIC_COOKIE) eqn:Ec; [|done]. apply Z.eqb_eq in Ec. cbn [negb].
  destruct (20 + len r <? _) eqn:Es; [done|]. apply Z.ltb_ge in Es. unfold MESSAGE_HEADER_SIZE in Es.
  pose proof (of_be_fits 2 x2 H2 L2) as F2. set (n := of_be x2) in *. destruct (split_at (Z.to_nat n) r) as (b & rest & -> & Lb); [unfold fits in F2; lia|].
  apply Forall_app in Hr as [Hb _]. rewrite take_app_length' by done.
  assert (Hlb : len b = n) by (unfold len, fits in *; lia).
  pose proof (decode_attributes_sound (Z.to_nat n) 0 n b Hb) as D. destruct (decode_attributes _ _ _ _) as [[[]|e|] l]; [|done|apply D; unfold fits in F2; lia].
  destruct D as (cs & Ecs & Hcs); [unfold fits in F2; lia..|].
  exists (of_be x1), cs, rest. record_simpl. subst n. rewrite <-Ec, !be_of_be, <-Ecs by done.
  split_and!; try done; [by apply (of_be_fits 2)|unfold len; lia].
Qed.

(** * Looking attributes up, and the checks *)

Lemma attributes_get_first pre a post t :
  attr_typ a = t → Forall (λ b, attr_typ b ≠ t) pre → attributes_get (pre ++ a :: post) t = Some a.
Proof.
  intros Ha. unfold attributes_get. induction 1 as [|b pre Hb _ IH]; cbn.
  - by rewrite (proj2 (Z.eqb_eq _ _)).
  - by rewrite (proj2 (Z.eqb_neq _ _)).
Qed.

Lemma attributes_get_none l t : Forall (λ b, attr_typ b ≠ t) l → attributes_get l t = None.
Proof. unfold attributes_get. induction 1 as [|b l Hb _ IH]; cbn; [done|]. by rewrite (proj2 (Z.eqb_neq _ _)). Qed.

Lemma attribute_split l t :
  Forall (λ b, attr_typ b ≠ t) l ∨
  ∃ pre a post, l = pre ++ a :: post ∧ attr_typ a = t ∧ Forall (λ b, attr_typ b ≠ t) pre.
Proof.
  induction l as [|b l IH]; [by left|]. destruct (decide (attr_typ b = t)); [right; by exists [], b, l|].
  destruct IH as [H|(pre & a & post & -> & Ha & Hp)]; [left; by constructor|right; exists (b :: pre), a, post; split_and!; [done|done|by constructor]].
Qed.

(** The octets of a list of attributes *)
Fixpoint octets (l : list RawAttribute) : Z :=
  match l with
  | [] => 0
  | a :: l => attr_size (attr_length a) + octets l
  end.

Lemma len_chunks l cs : Forall2 chunk l cs → len (concat cs) = octets l.
Proof. induction 1 as [|a c l cs Hc _ IH]; cbn [concat octets]; [done|]. rewrite len_app, (len_attr_chunk a) by done. by rewrite IH. Qed.

Lemma size_after_seen l : size_after true l = octets l.
Proof. induction l as [|a l IH]; cbn [size_after octets orb]; [done|]. rewrite IH. unfold attr_size. lia. Qed.

Lemma size_after_split pre a post :
  attr_typ a = ATTR_MESSAGE_INTEGRITY → Forall (λ b, attr_typ b ≠ ATTR_MESSAGE_INTEGRITY) pre →
  size_after false (pre ++ a :: post) = octets post.
Proof.
  intros Ha. induction 1 as [|b pre Hb _ IH]; cbn [size_after app orb].
  - rewrite (proj2 (Z.eqb_eq _ _)) by done. by rewrite size_after_seen.
  - rewrite (proj2 (Z.eqb_neq _ _)) by done. by rewrite IH.
Qed.

Lemma write_length_at (x1 x2 tail : bytes) m :
  length x1 = 2%nat → length x2 = 2%nat → raw m = x1 ++ x2 ++ tail →
  write_length m = (Ok tt, m <| raw := x1 ++ be 2 (u16 (msg_length m)) ++ tail |>).
Proof.
  intros L1 L2 E. unfold write_length, edit_raw. rewrite E, grow_same; [|rewrite !len_app; unfold len; lia|by left].
  rewrite (copy_at_mid 2 _ x1 x2); [done|unfold len; lia|rewrite len_be; unfold len; lia].
Qed.

Section Checks.
Context {SC : StunCrypto}.

(** The text of MESSAGE-INTEGRITY in the octets [w] of a message, behind [n] octets of attributes:
    header and attributes, with the length of a message that ends behind MESSAGE-INTEGRITY *)
Definition signed_text (w : bytes) (n : Z) : bytes :=
  take 2 w ++ be 2 (n + 24) ++ take (Z.to_nat (16 + n)) (drop 4 w).

Lemma signed_text_at x1 x2 tail w n :
  w = x1 ++ x2 ++ tail → length x1 = 2%nat → length x2 = 2%nat → 0 <= n →
  take (Z.to_nat (20 + (n + 24) - (4 + 20))) (x1 ++ be 2 (n + 24) ++ tail) = signed_text w n.
Proof.
  intros -> L1 L2 Hn. unfold signed_text. rewrite (take_app_length' x1 _ 2) by done.
  change 4%nat with (2 + 2)%nat. rewrite <-drop_drop, (drop_app_length' x1), (drop_app_length' x2) by done.
  rewrite take_app_ge by lia. f_equal. rewrite take_app_ge by (rewrite BigEndian.enc_length; lia). f_equal. f_equal. rewrite BigEndian.enc_length. lia.
Qed.

Lemma integrity_check_holds key w m pre a post :
  holds w m → attributes m = pre ++ a :: post →
  attr_typ a = ATTR_MESSAGE_INTEGRITY → Forall (λ b, attr_typ b ≠ ATTR_MESSAGE_INTEGRITY) pre →
  integrity_check key m = (check_hmac (attr_value a) (hmac_sha1 key (signed_text w (octets pre))), m).
Proof.
  destruct m as [T L tid l r]. intros (v & cs & rest & Hw & Fv & HT & Ht & FL & HL & Hcs & Hr) El Ha Hpre.
  cbn [typ msg_length transaction_id attributes raw] in *. subst r l.
  apply Forall2_app_inv_l in Hcs as (cp & cq & Hcp & Hcq & ->). apply Forall2_cons_inv_l in Hcq as (c & cq' & Hc & Hcq & ->).
  rewrite concat_app in *. cbn [concat] in *. rewrite !len_app, (len_attr_chunk a c Hc), (len_chunks _ _ Hcp), (len_chunks _ _ Hcq) in HL.
  pose proof (len_nonneg (concat cp)) as Np. rewrite (len_chunks _ _ Hcp) in Np. pose proof (len_nonneg (concat cq')) as Nq. rewrite (len_chunks _ _ Hcq) in Nq.
  pose proof (len_attr_chunk a c Hc) as Lc. pose proof Hc as (wt & p & -> & _ & _ & Fa & Va & _).
  pose proof (padded_bounds (attr_length a) (proj1 Fa)) as Pa.
  unfold integrity_check, get. cbn [attributes]. rewrite (attributes_get_first pre a post) by done.
  erewrite sbind_Ok by reflexivity. cbv zeta. cbn [msg_length]. rewrite size_after_split by done.
  assert (Ln : u32 (L - octets post) = octets pre + attr_size (attr_length a)) by (rewrite wrap_small; unfold attr_size, ATTRIBUTE_HEADER_SIZE, fits in *; lia).
  rewrite Ln. set (n := octets pre + attr_size (attr_length a)) in *.
  assert (Fn : fits 16 n /\ 4 <= n) by (unfold n, attr_size, ATTRIBUTE_HEADER_SIZE, fits in *; lia). destruct Fn as [Fn Gn].
  set (tail := be 4 MAGIC_COOKIE ++ tid ++ _) in Hw.
  erewrite sbind_Ok by reflexivity. unfold set, set_length at 1. cbn [typ msg_length transaction_id attributes raw].
  erewrite sbind_Ok by (eapply (write_length_at (be 2 v) (be 2 L) tail); [by rewrite BigEndian.enc_length..|exact Hw]).
  unfold set, set_raw. cbn [typ msg_length transaction_id attributes raw]. rewrite (wrap_small 16) by done.
  do 2 (erewrite sbind_Ok by reflexivity). cbn [msg_length raw].
  unfold MESSAGE_HEADER_SIZE, ATTRIBUTE_HEADER_SIZE, MESSAGE_INTEGRITY_SIZE. rewrite wrap_small by (unfold fits in *; lia).
  assert (Lt : len tail = 16 + L + len rest).
  { unfold tail. rewrite !(len_app (be 4 _)), len_be, (len_app tid), Ht, (len_app _ rest), (len_app (concat cp)), (len_app _ (concat cq')).
    rewrite Lc, (len_chunks _ _ Hcp), (len_chunks _ _ Hcq). lia. }
  pose proof (len_nonneg rest) as Nr.
  erewrite sbind_Ok by (unfold slift; rewrite slice_take by (rewrite !(len_app (be 2 _)), !len_be, Lt; unfold n in *; lia); reflexivity).
  erewrite sbind_Ok by reflexivity. unfold set, set_length at 1. cbn [typ msg_length transaction_id attributes raw].
  erewrite sbind_Ok by (eapply (write_length_at (be 2 v) (be 2 n) tail); [by rewrite BigEndian.enc_length..|reflexivity]).
  unfold set, set_raw, slift. cbn [typ msg_length transaction_id attributes raw]. rewrite (wrap_small 16 L), <-Hw by done.
  f_equal. unfold check_hmac. destruct (decide (attr_length a = 20)) as [E|E].
  - assert (n = octets pre + 24) as -> by (unfold n; rewrite E; reflexivity). erewrite signed_text_at; [done|exact Hw|by rewrite BigEndian.enc_length..|done].
  - rewrite !decide_False; [done|..]; intros E1; apply (f_equal len) in E1; rewrite hmac_length in E1; lia.
Qed.

Lemma fingerprint_check_last t tid l rest m :
  len tid = 12 → attributes m = l ++ [fingerprint_attr t tid l] → Forall (λ a, attr_typ a ≠ ATTR_FINGERPRINT) l →
  raw m = head t (len (body l) + 8) tid ++ body l ++ rest → len rest = 8 → fits 60 (len (raw m)) →
  fingerprint_check m = Ok tt.
Proof.
  intros Ht Hl Hno Hr Hrest Hf. unfold fingerprint_check, get. rewrite Hl, (attributes_get_first l _ []) by done.
  cbn [rbind fingerprint_attr attr_value]. rewrite len_be. cbn [rbind check_size].
  unfold FINGERPRINT_SIZE, ATTRIBUTE_HEADER_SIZE. pose proof (len_nonneg (body l)).
  assert (Lr : len (raw m) = 28 + len (body l)) by (rewrite Hr, !len_app, len_head, Hrest by done; lia).
  rewrite wrap_small by (unfold fits in *; lia). rewrite Lr, Hr, app_assoc, slice_head_eq by (rewrite len_app, len_head by done; lia).
  cbn [rbind]. rewrite take_ge by by rewrite BigEndian.enc_length. rewrite BigEndian.dec_enc.
  - unfold check_fingerprint. by rewrite Z.eqb_refl.
  - apply fits_lxor; [lia|apply crc_fits|done].
Qed.

Lemma fingerprint_check_no_panic w m : holds w m → fits 60 (len w) → no_panic (fingerprint_check m).
Proof.
  intros (v & cs & rest & Hw & _ & _ & Ht & _ & _ & Hcs & Hr) Hf. unfold fingerprint_check, get.
  destruct (attributes_get _ _) as [a|] eqn:E; [|done]. cbn [rbind].
  unfold check_size, FINGERPRINT_SIZE. destruct (len (attr_value a) =? 4) eqn:E4; [|done]. apply Z.eqb_eq in E4. cbn [rbind].
  apply find_some in E as [Hin _]. apply list_elem_of_In, list_elem_of_lookup in Hin as [i Hi].
  destruct (Forall2_lookup_l _ _ _ _ _ Hcs Hi) as (c & Hc & Hch). pose proof (len_attr_chunk _ _ Hch) as Lc.
  destruct Hch as (wt & p & _ & _ & _ & _ & Hv & _). rewrite Hv in E4. rewrite E4 in Lc. change (attr_size 4) with 8 in Lc.
  assert (8 <= len (concat cs)) as H8.
  { rewrite <-(take_drop_middle cs i c Hc), concat_app. cbn [concat]. rewrite !len_app.
    pose proof (len_nonneg (concat (take i cs))). pose proof (len_nonneg (concat (drop (S i) cs))). lia. }
  pose proof (len_nonneg rest).
  assert (28 <= len w) as Lw by (rewrite Hw, !len_app, !len_be, Ht; lia).
  rewrite Hr, wrap_small by (unfold ATTRIBUTE_HEADER_SIZE, fits in *; lia).
  apply no_panic_bind; [apply slice_no_panic; unfold ATTRIBUTE_HEADER_SIZE; lia|]. intros b _. unfold check_fingerprint. by case_match.
Qed.

Lemma integrity_check_absent key m :
  Forall (λ a, attr_typ a ≠ ATTR_MESSAGE_INTEGRITY) (attributes m) → integrity_check key m = (Err ErrAttributeNotFound, m).
Proof. intros H. unfold integrity_check, get. by rewrite attributes_get_none. Qed.

End Checks.

(** * The setters of a message *)

Section Build.
Context {SC : StunCrypto}.

(** The setters a message is built from, and [Setter::add_to] *)
Inductive setter :=
  | SType (t : MessageType)
  | STransactionId (tid : bytes)
  | SRaw (a : RawAttribute)
  | SIntegrity (key : bytes)
  | SFingerprint.

Definition add_to (s : setter) : sm Message unit :=
  match s with
  | SType t => type_add_to t
  | STransactionId tid => transaction_id_add_to tid
  | SRaw a => raw_add_to a
  | SIntegrity key => integrity_add_to key
  | SFingerprint => fingerprint_add_to
  end.

Definition setter_size (s : setter) : Z :=
  match s with
  | SRaw a => attr_size (len (attr_value a))
  | SIntegrity _ => 24
  | SFingerprint => 8
  | _ => 0
  end.
Definition setter_ok (s : setter) : Prop := match s with STransactionId tid => len tid = 12 | _ => True end.
Definition setters_size (l : list setter) : Z := foldr Z.add 0 (setter_size <$> l).

Lemma setter_size_nonneg s : 0 <= setter_size s.
Proof. destruct s; cbn; try lia. unfold attr_size, ATTRIBUTE_HEADER_SIZE. pose proof (padded_bounds _ (len_nonneg (attr_value a))). pose proof (len_nonneg (attr_value a)). lia. Qed.

Lemma add_to_consistent s m :
  consistent m → setter_ok s → fits 16 (msg_length m + setter_size s) →
  match add_to s m with
  | (Ok _, m') => consistent m' ∧ msg_length m' = msg_length m + setter_size s
  | (Err e, m') => e = ErrFingerprintBeforeIntegrity ∧ m' = m
  | (Panic, _) => False
  end.
Proof.
  intros Hm Hs Hf. pose proof Hm as (_ & HL & Ht & Hl). rewrite HL in *. apply consistent_packed in Hm.
  set (T := typ m) in *. set (tid := transaction_id m) in *. set (l := attributes m) in *. clearbody T tid l. subst m. clear HL.
  destruct s as [t|tid'|[at_ al av]|key|]; cbn [add_to setter_size] in *.
  - rewrite type_add_packed by done. split; [by apply packed_consistent|cbn; lia].
  - rewrite transaction_id_add_packed by done. split; [by apply packed_consistent|cbn; lia].
  - unfold raw_add_to. cbn [attr_typ attr_value] in *. unfold packed at 1. erewrite add_packed by done.
    pose proof (len_body_snoc l (mkAttr at_ (len av) av)) as E. split; [apply packed_consistent; [done|by rewrite E]|exact E].
  - destruct (existsb (λ a, attr_typ a =? ATTR_FINGERPRINT) l) eqn:E.
    { unfold integrity_add_to. cbn [attributes packed]. by rewrite E. }
    rewrite integrity_add_packed; [|done| |done].
    + assert (E24 : len (body (l ++ [integrity_attr key T tid l])) = len (body l) + 24)
        by (rewrite len_body_snoc; cbn [integrity_attr attr_value]; by rewrite hmac_length).
      split; [apply packed_consistent; [done|by rewrite E24]|exact E24].
    + apply Forall_forall. intros a Ha E1. apply not_true_iff_false in E. apply E, existsb_exists. exists a.
      split; [by apply list_elem_of_In|by apply Z.eqb_eq].
  - rewrite fingerprint_add_packed by done.
    assert (E8 : len (body (l ++ [fingerprint_attr T tid l])) = len (body l) + 8) by (by rewrite len_body_snoc).
    split; [apply packed_consistent; [done|by rewrite E8]|exact E8].
Qed.

Lemma run_setters_consistent l m :
  consistent m → Forall setter_ok l → fits 16 (msg_length m + setters_size l) →
  match run_setters (add_to <$> l) m with
  | (Ok _, m') => consistent m' ∧ msg_length m' = msg_length m + setters_size l
  | (Err e, m') => e = ErrFingerprintBeforeIntegrity ∧ consistent m'
  | (Panic, _) => False
  end.
Proof.
  intros Hm Hl. revert m Hm. unfold setters_size. induction Hl as [|s l Hs _ IH]; intros m Hm Hf; cbn [fmap list_fmap run_setters foldr] in *.
  - cbn. split; [done|lia].
  - assert (0 <= foldr Z.add 0 (setter_size <$> l)) as H0.
    { clear. induction l as [|s l IH]; [done|]. cbn. pose proof (setter_size_nonneg s). lia. }
    pose proof (setter_size_nonneg s). pose proof Hm as (_ & _ & _ & Fm).
    assert (Hf1 : fits 16 (msg_length m + setter_size s)) by (unfold fits in *; lia).
    pose proof (add_to_consistent s m Hm Hs Hf1) as D. unfold sbind. destruct (add_to s m) as [[[]|e|] m'].
    + destruct D as [Hm' E]. specialize (IH m' Hm'). rewrite E, <-Z.add_assoc in IH. by apply IH.
    + destruct D as [-> ->]. done.
    + done.
Qed.

Lemma build_starts m : len (transaction_id m) = 12 → (do! _ <- smodify reset; write_header) m = (Ok tt, packed (typ m) (transaction_id m) []).
Proof.
  intros Ht. destruct m as [T L tid l r]. erewrite sbind_Ok by reflexivity. unfold reset, set, set_raw, set_length, set_attributes.
  cbn [typ msg_length transaction_id attributes raw] in *. rewrite write_header_fresh by done. unfold packed. cbn [body]. by rewrite app_nil_r.
Qed.

Lemma build_run setters m :
  len (transaction_id m) = 12 → build setters m = run_setters setters (packed (typ m) (transaction_id m) []).
Proof.
  intros Ht. pose proof (build_starts m Ht) as E. unfold build. unfold sbind in *. by destruct (smodify reset m) as [[[]| |] m']; rewrite ?E.
Qed.

(** An attribute that is read back as it was written *)
Definition attr_wf (a : RawAttribute) : Prop :=
  attr_made a ∧ fits 16 (attr_length a) ∧ fits 16 (attr_typ a) ∧ attr_typ a ≠ 0x8020.

Lemma wf_chunks l : Forall attr_wf l → Forall2 chunk l (attr_bytes <$> l).
Proof. induction 1 as [|a l (H1 & H2 & H3 & H4) _ IH]; [constructor|]. constructor; [by apply attr_bytes_chunk|done]. Qed.

Lemma wf_octets l : Forall attr_wf l → octets l = len (body l).
Proof. intros H. unfold body. symmetry. by apply len_chunks, wf_chunks. Qed.

Lemma holds_packed t tid l :
  type_ok t → len tid = 12 → fits 16 (len (body l)) → Forall attr_wf l → holds (raw (packed t tid l)) (packed t tid l).
Proof.
  intros HT Ht Hf Hl. exists (type_value t), (attr_bytes <$> l), []. unfold packed. cbn [typ msg_length transaction_id attributes raw].
  split_and!; try done; [|pose proof (type_value_fits t); unfold fits in *; lia|by rewrite read_value_value|by apply wf_chunks].
  unfold head, body. by rewrite <-!app_assoc, app_nil_r.
Qed.

Lemma signed_text_packed t tid l k :
  len tid = 12 → signed_text (raw (packed t tid (l ++ k))) (len (body l)) = integrity_text t tid l.
Proof.
  intros Ht. unfold packed, signed_text, integrity_text, head. cbn [raw]. rewrite body_app, <-!app_assoc.
  rewrite (take_app_length' (be 2 (type_value t)) _ 2) by by rewrite BigEndian.enc_length. do 2 f_equal.
  change 4%nat with (2 + 2)%nat at 1. rewrite <-drop_drop, (drop_app_length' (be 2 (type_value t))), (drop_app_length' (be 2 _)) by by rewrite BigEndian.enc_length.
  rewrite !app_assoc, take_app_length'; [done|]. rewrite !length_app, BigEndian.enc_length. unfold len in *. lia.
Qed.

Lemma integrity_attr_wf key t tid l : attr_wf (integrity_attr key t tid l).
Proof. unfold attr_wf, attr_made, integrity_attr. cbn [attr_length attr_value attr_typ]. rewrite hmac_length. split_and!; done. Qed.
Lemma fingerprint_attr_wf t tid l : attr_wf (fingerprint_attr t tid l).
Proof. by split_and!. Qed.

(** MESSAGE-INTEGRITY protects what precedes it: a message passes the check whatever attributes
    [k] follow. *)
Lemma integrity_check_packed key t tid l k :
  type_ok t → len tid = 12 → Forall attr_wf l → Forall attr_wf k → Forall (λ a, attr_typ a ≠ ATTR_MESSAGE_INTEGRITY) l →
  let m := packed t tid (l ++ integrity_attr key t tid l :: k) in
  fits 16 (msg_length m) → integrity_check key m = (Ok tt, m).
Proof.
  intros HT Ht Hl Hk Hno m Hf.
  assert (Hw : Forall attr_wf (l ++ integrity_attr key t tid l :: k)) by (apply Forall_app; split; [done|constructor; [apply integrity_attr_wf|done]]).
  rewrite (integrity_check_holds key (raw m) m l (integrity_attr key t tid l) k); [|by apply holds_packed|done..].
  rewrite wf_octets by done. unfold m at 1. rewrite signed_text_packed by done.
  unfold check_hmac. cbn [integrity_attr attr_value]. by rewrite decide_True.
Qed.

Lemma run_setters_app a b m : run_setters (a ++ b) m = (do! _ <- run_setters a; run_setters b) m.
Proof.
  revert m. induction a as [|s a IH]; intros m; cbn [app run_setters]; [done|].
  unfold sbind in *. destruct (s m) as [[[]| |] m']; [apply IH|done..].
Qed.

Lemma holds_is_stun w m : holds w m → is_stun_message w = true.
Proof.
  intros (v & cs & rest & -> & _ & _ & Ht & _). unfold is_stun_message.
  destruct (header_fields (be 2 v) (be 2 (msg_length m)) (be 4 MAGIC_COOKIE) (transaction_id m) (concat cs ++ rest)) as (_ & _ & E3 & _ & _ & E6);
    [by rewrite BigEndian.enc_length..|unfold len in Ht; lia|]. rewrite E3, E6, BigEndian.dec_enc by done. rewrite Z.eqb_refl, andb_true_r.
  apply Z.leb_le. unfold MESSAGE_HEADER_SIZE. pose proof (len_nonneg (concat cs ++ rest)). lia.
Qed.

(** The setters of a protected message, and the attributes they leave *)
Definition protected_setters (key : bytes) (t : MessageType) (tid : bytes) (l : list RawAttribute) : list setter :=
  [SType t; STransactionId tid] ++ (SRaw <$> l) ++ [SIntegrity key; SFingerprint].
Definition protected_attrs (key : bytes) (t : MessageType) (tid : bytes) (l : list RawAttribute) : list RawAttribute :=
  l ++ [integrity_attr key t tid l; fingerprint_attr t tid (l ++ [integrity_attr key t tid l])].

Lemma len_body_integrity key t tid l : len (body (l ++ [integrity_attr key t tid l])) = len (body l) + 24.
Proof. rewrite len_body_snoc. cbn [integrity_attr attr_value]. by rewrite hmac_length. Qed.

Lemma protected_attrs_snoc key t tid l :
  protected_attrs key t tid l = (l ++ [integrity_attr key t tid l]) ++ [fingerprint_attr t tid (l ++ [integrity_attr key t tid l])].
Proof. by rewrite <-app_assoc. Qed.

Lemma len_body_protected key t tid l : len (body (protected_attrs key t tid l)) = len (body l) + 32.
Proof.
  rewrite protected_attrs_snoc, len_body_snoc, len_body_integrity. cbn [fingerprint_attr attr_value]. rewrite len_be.
  change (attr_size (Z.of_nat 4)) with 8. lia.
Qed.

Lemma protected_attrs_wf key t tid l : Forall attr_wf l → Forall attr_wf (protected_attrs key t tid l).
Proof. intros. apply Forall_app. split; [done|]. repeat constructor; try done; apply integrity_attr_wf || apply fingerprint_attr_wf. Qed.

Lemma build_protected key t tid l m0 :
  len tid = 12 → len (transaction_id m0) = 12 → Forall attr_wf l → Forall (λ a, attr_typ a ≠ ATTR_FINGERPRINT) l →
  fits 16 (len (body l) + 32) →
  build (add_to <$> protected_setters key t tid l) m0 = (Ok tt, packed t tid (protected_attrs key t tid l)).
Proof.
  intros Ht Ht0 Hl Hno Hf. pose proof (len_nonneg (body l)) as N0. rewrite build_run by done. unfold protected_setters.
  rewrite !fmap_app, run_setters_app. erewrite sbind_Ok; cycle 1.
  { cbn [fmap list_fmap run_setters add_to]. erewrite sbind_Ok by by apply type_add_packed. erewrite sbind_Ok by by apply transaction_id_add_packed. reflexivity. }
  rewrite run_setters_app. erewrite sbind_Ok; cycle 1.
  { rewrite <-list_fmap_compose. apply (raw_adds_packed l [] t tid Ht); [by eapply Forall_impl; [exact Hl|intros a []]|unfold fits in *; cbn [app]; lia]. }
  cbn [fmap list_fmap run_setters add_to app]. erewrite sbind_Ok by (apply integrity_add_packed; [done|done|unfold fits in *; lia]).
  erewrite sbind_Ok; [|apply fingerprint_add_packed; [done|rewrite len_body_integrity; unfold fits in *; lia]].
  by rewrite protected_attrs_snoc.
Qed.

Lemma fingerprint_check_protected key t tid l :
  len tid = 12 → Forall (λ a, attr_typ a ≠ ATTR_FINGERPRINT) l → fits 16 (len (body l) + 32) →
  fingerprint_check (packed t tid (protected_attrs key t tid l)) = Ok tt.
Proof.
  intros Ht Hno Hf. set (i := integrity_attr key t tid l). set (f := fingerprint_attr t tid (l ++ [i])).
  apply (fingerprint_check_last t tid (l ++ [i]) (attr_bytes f)); [done| | | |done|].
  - cbn [packed attributes]. by rewrite protected_attrs_snoc.
  - apply Forall_app. split; [done|]. by repeat constructor.
  - unfold packed. cbn [raw]. rewrite len_body_protected. fold i. rewrite protected_attrs_snoc, body_snoc. fold i f.
    unfold i at 2. rewrite len_body_integrity. f_equal. f_equal. lia.
  - unfold packed. cbn [raw]. rewrite len_app, len_head, len_body_protected by done. unfold fits in *. lia.
Qed.

Lemma protected_message_spec key t tid l m0 m1 :
  type_ok t → len tid = 12 → len (transaction_id m0) = 12 → Forall attr_wf l →
  Forall (λ a, attr_typ a ≠ ATTR_MESSAGE_INTEGRITY ∧ attr_typ a ≠ ATTR_FINGERPRINT) l →
  fits 16 (len (body l) + 32) →
  let m := packed t tid (protected_attrs key t tid l) in
  build (add_to <$> protected_setters key t tid l) m0 = (Ok tt, m) ∧
  is_stun_message (raw m) = true ∧ unmarshal_binary (raw m) m1 = (Ok tt, m) ∧
  integrity_check key m = (Ok tt, m) ∧ fingerprint_check m = Ok tt.
Proof.
  intros HT Ht Ht0 Hl Hno Hf m.
  assert (Hno1 : Forall (λ a, attr_typ a ≠ ATTR_MESSAGE_INTEGRITY) l) by (eapply Forall_impl; [exact Hno|by intros a []]).
  assert (Hno2 : Forall (λ a, attr_typ a ≠ ATTR_FINGERPRINT) l) by (eapply Forall_impl; [exact Hno|by intros a []]).
  assert (Hh : holds (raw m) m) by (apply holds_packed; [done..|by rewrite len_body_protected|by apply protected_attrs_wf]).
  split_and!; [by apply build_protected|by eapply holds_is_stun|by apply unmarshal_complete| |by apply fingerprint_check_protected].
  apply integrity_check_packed; try done; [repeat constructor; apply fingerprint_attr_wf|].
  unfold packed. cbn [msg_length]. fold (protected_attrs key t tid l). by rewrite len_body_protected.
Qed.

(** C20: A message built from a type, a transaction identifier and attributes, then signed and
    fingerprinted, reaches the peer: the octets are recognised as STUN, they decode to the very
    message that was built, and the peer's integrity check (with the same key) and fingerprint
    check accept it, leaving the message as it was. *)
Theorem protected_message_accepted key t tid l m0 m1 :
  type_ok t → len tid = 12 → len (transaction_id m0) = 12 → Forall attr_wf l →
  Forall (λ a, attr_typ a ≠ ATTR_MESSAGE_INTEGRITY ∧ attr_typ a ≠ ATTR_FINGERPRINT) l →
  fits 16 (len (body l) + 32) →
  ∃ m i f,
    build (add_to <$> protected_setters key t tid l) m0 = (Ok tt, m) ∧
    typ m = t ∧ transaction_id m = tid ∧ attributes m = l ++ [i; f] ∧
    is_stun_message (raw m) = true ∧ unmarshal_binary (raw m) m1 = (Ok tt, m) ∧
    integrity_check key m = (Ok tt, m) ∧ fingerprint_check m = Ok tt.
Proof.
  intros HT Ht Ht0 Hl Hno Hf. destruct (protected_message_spec key t tid l m0 m1) as (E1 & E2 & E3 & E4 & E5); [done..|].
  eexists (packed t tid (protected_attrs key t tid l)), _, _. split_and!; [done|done|done|reflexivity|done..].
Qed.

(** C38: The decoder accepts exactly the octets that hold a message (header with the magic cookie,
    a length that covers the attribute chunks exactly, each chunk padded to four octets), and
    then gives that message, whatever the receiver held before; on other octets it returns an
    error.  Neither decoding nor the checks of the decoded message panic. *)
Theorem decoder_exact key w m0 m :
  Forall byte_ok w → fits 60 (len w) →
  (unmarshal_binary w m0 = (Ok tt, m) ↔ holds w m) ∧
  (unmarshal_binary w m0).1 ≠ Panic ∧
  (holds w m → no_panic (fingerprint_check m) ∧ (integrity_check key m).1 ≠ Panic ∧ (integrity_check key m).2 = m).
Proof.
  intros Hw Hf. pose proof (unmarshal_sound w m0 Hw) as S. split_and!.
  - split; [intros E; by rewrite E in S|apply unmarshal_complete].
  - by destruct (unmarshal_binary w m0) as [[[]| |] m'].
  - intros Hm. split; [by eapply fingerprint_check_no_panic|].
    destruct (attribute_split (attributes m) ATTR_MESSAGE_INTEGRITY) as [Hno|(pre & a & post & E & Ha & Hpre)].
    + by rewrite integrity_check_absent.
    + rewrite (integrity_check_holds key w m pre a post) by done. unfold check_hmac. by case_decide.
Qed.

(** The integrity check of decoded octets compares the first MESSAGE-INTEGRITY attribute with
    the HMAC of exactly the octets in front of it, the length field counting up to its own end;
    without the attribute it fails.  Either way the message is left as it was. *)
Theorem integrity_check_exact key w m0 m :
  Forall byte_ok w → unmarshal_binary w m0 = (Ok tt, m) →
  (∀ pre a post, attributes m = pre ++ a :: post → attr_typ a = ATTR_MESSAGE_INTEGRITY →
     Forall (λ b, attr_typ b ≠ ATTR_MESSAGE_INTEGRITY) pre →
     integrity_check key m
     = (if decide (attr_value a = hmac_sha1 key (signed_text w (octets pre))) then Ok tt else Err ErrIntegrityMismatch, m)) ∧
  (Forall (λ b, attr_typ b ≠ ATTR_MESSAGE_INTEGRITY) (attributes m) → integrity_check key m = (Err ErrAttributeNotFound, m)).
Proof.
  intros Hw E. pose proof (unmarshal_sound w m0 Hw) as S. rewrite E in S. split; [|apply integrity_check_absent].
  intros pre a post Hl Ha Hpre. by apply (integrity_check_holds key w m pre a post).
Qed.

(** Building a message from any sequence of setters that fits a message keeps the buffer the
    image of the message: header, length and the attributes in order.  The only failure is an
    integrity attribute behind a fingerprint, and it leaves a well-formed message too. *)
Theorem build_keeps_image l m :
  len (transaction_id m) = 12 → Forall setter_ok l → fits 16 (setters_size l) →
  match build (add_to <$> l) m with
  | (Ok _, m') => consistent m' ∧ msg_length m' = setters_size l
  | (Err e, m') => e = ErrFingerprintBeforeIntegrity ∧ consistent m'
  | (Panic, _) => False
  end.
Proof.
  intros Ht Hl Hf. rewrite build_run by done.
  pose proof (run_setters_consistent l (packed (typ m) (transaction_id m) []) (packed_consistent (typ m) _ [] Ht ltac:(done)) Hl Hf) as H.
  by destruct (run_setters _ _) as [[[]|e|] m'].
Qed.

End Build.

(** Re-encoding a message gives its image, but for a message without attributes: its header
    keeps the old length. *)
Lemma encode_image m :
  len (transaction_id m) = 12 → Forall attr_made (attributes m) → fits 16 (len (body (attributes m))) →
  encode m = (Ok tt, mkMessage (typ m) (len (body (attributes m))) (transaction_id m) (attributes m)
    (head (typ m) (match attributes m with [] => u16 (msg_length m) | _ => len (body (attributes m)) end) (transaction_id m) ++ body (attributes m))).
Proof.
  destruct m as [T L tid l r]. cbn [typ msg_length transaction_id attributes raw]. intros Ht Hl Hf. unfold encode.
  erewrite sbind_Ok by reflexivity. unfold set, set_raw. cbn [typ msg_length transaction_id attributes raw].
  erewrite sbind_Ok by by apply write_header_fresh. erewrite sbind_Ok by reflexivity.
  unfold set, set_length, write_attributes. cbn [typ msg_length transaction_id attributes raw].
  erewrite sbind_Ok by reflexivity. unfold set, set_attributes. cbn [typ msg_length transaction_id attributes raw].
  destruct l as [|a l]; [cbn [add_all]; by rewrite app_nil_r|].
  assert (Eall : ∀ k n, add_all k n = run_setters (raw_add_to <$> k) n).
  { induction k as [|b k IH]; intros n; [done|]. cbn [add_all fmap list_fmap run_setters]. unfold sbind, raw_add_to.
    destruct (add _ _ n) as [[[]| |] n']; [apply IH|done..]. }
  apply Forall_cons in Hl as [Ha Hl]. cbn [add_all]. change (a :: l) with ([a] ++ l) in Hf. pose proof (body_fits_prefix [a] l Hf) as Hf1.
  pose proof (len_body_snoc [] a) as E1. cbn [app] in E1. rewrite E1 in Hf1. change (len (body [])) with 0 in Hf1.
  assert (Hadd : add (attr_typ a) (attr_value a) (mkMessage T 0 tid [] (head T (u16 L) tid)) = (Ok tt, packed T tid [a])).
  { pose proof (add_packed (u16 L) (attr_typ a) (attr_value a) T tid [] (head T (u16 L) tid)) as A. cbn [app body fmap list_fmap concat] in A.
    rewrite app_nil_r in A. etransitivity; [by apply A|]. destruct a as [at_ al av]. unfold attr_made in Ha. cbn in Ha |- *. by subst al. }
  erewrite sbind_Ok by (erewrite sbind_Ok by exact Hadd; rewrite Eall; by apply raw_adds_packed). done.
Qed.

(** * The theorems at concrete values *)

Module ToyStun.

(** Any functions with the right result widths serve to evaluate the theorems. *)
Definition toy_hmac (k m : bytes) : bytes := replicate 20 ((len m + len k) mod 256).
Definition toy_crc (m : bytes) : Z := (foldr Z.add 0 m) mod 2 ^ 32.

#[export, refine] Instance toy_crypto : StunCrypto := {| hmac_sha1 := toy_hmac; crc32 := toy_crc |}.
Proof.
  - done.
  - intros k m. apply Forall_replicate. apply Z.mod_pos_bound. lia.
  - intros m. apply Z.mod_pos_bound. lia.
Defined.

End ToyStun.

Import ToyStun.

Definition sample_key : bytes := [107; 101; 121].
Definition sample_tid : bytes := [1; 2; 3; 4; 5; 6; 7; 8; 9; 10; 11; 12].
Definition sample_attrs : list RawAttribute := [mkAttr ATTR_USERNAME 3 [97; 58; 98]; mkAttr 0x24 4 [110; 0; 1; 255]].

Lemma sample_attrs_wf : Forall attr_wf sample_attrs.
Proof. repeat constructor; concrete. Qed.

Lemma protected_message_accepted_witness :
  ∃ m i f,
    build (add_to <$> protected_setters sample_key BINDING_REQUEST sample_tid sample_attrs) message_new = (Ok tt, m) ∧
    typ m = BINDING_REQUEST ∧ transaction_id m = sample_tid ∧ attributes m = sample_attrs ++ [i; f] ∧
    is_stun_message (raw m) = true ∧ unmarshal_binary (raw m) message_new = (Ok tt, m) ∧
    integrity_check sample_key m = (Ok tt, m) ∧ fingerprint_check m = Ok tt.
Proof.
  apply (protected_message_accepted sample_key BINDING_REQUEST sample_tid sample_attrs message_new message_new).
  - split; concrete.
  - reflexivity.
  - reflexivity.
  - exact sample_attrs_wf.
  - repeat constructor; discriminate.
  - concrete.
Defined.

Definition sample_message : Message := packed BINDING_REQUEST sample_tid sample_attrs.

Lemma decoder_exact_witness :
  (unmarshal_binary (raw sample_message) message_new = (Ok tt, sample_message) ↔ holds (raw sample_message) sample_message) ∧
  (unmarshal_binary (raw sample_message) message_new).1 ≠ Panic ∧
  (holds (raw sample_message) sample_message →
     no_panic (fingerprint_check sample_message) ∧ (integrity_check sample_key sample_message).1 ≠ Panic ∧
     (integrity_check sample_key sample_message).2 = sample_message).
Proof. apply (decoder_exact sample_key); [vm_compute; repeat constructor; concrete|vm_compute; intuition congruence]. Defined.

Lemma integrity_check_exact_witness :
  (∀ pre a post, attributes sample_message = pre ++ a :: post → attr_typ a = ATTR_MESSAGE_INTEGRITY →
     Forall (λ b, attr_typ b ≠ ATTR_MESSAGE_INTEGRITY) pre →
     integrity_check sample_key sample_message
     = (if decide (attr_value a = hmac_sha1 sample_key (signed_text (raw sample_message) (octets pre))) then Ok tt else Err ErrIntegrityMismatch, sample_message)) ∧
  (Forall (λ b, attr_typ b ≠ ATTR_MESSAGE_INTEGRITY) (attributes sample_message) →
     integrity_check sample_key sample_message = (Err ErrAttributeNotFound, sample_message)).
Proof. apply (integrity_check_exact sample_key _ message_new); [vm_compute; repeat constructor; concrete|vm_compute; reflexivity]. Defined.

Lemma build_keeps_image_witness :
  match build (add_to <$> [SFingerprint; SRaw (mkAttr ATTR_USERNAME 1 [97])]) message_new with
  | (Ok _, m') => consistent m' ∧ msg_length m' = 16
  | (Err e, m') => e = ErrFingerprintBeforeIntegrity ∧ consistent m'
  | (Panic, _) => False
  end.
Proof. apply (build_keeps_image [SFingerprint; SRaw (mkAttr ATTR_USERNAME 1 [97])] message_new); [reflexivity|repeat constructor|concrete]. Defined.

(** Cutting the attributes of a message off and encoding it again leaves a header that
    announces them. *)
Example encode_stale_length :
  let m := (encode (sample_message <| attributes := [] |>)).2 in
  msg_length m = 0 ∧ of_be (take 2 (drop 2 (raw m))) = 16 ∧ (unmarshal_binary (raw m) message_new).1 = Err ErrOther.
Proof. vm_compute. done. Qed.

(** An attribute somebody appends behind MESSAGE-INTEGRITY is accepted and found by [get]. *)
Example appended_attribute_accepted :
  let i := integrity_attr sample_key BINDING_SUCCESS sample_tid sample_attrs in
  let m := packed BINDING_SUCCESS sample_tid (sample_attrs ++ [i; mkAttr ATTR_XORMAPPED_ADDRESS 4 [1; 2; 3; 4]]) in
  (integrity_check sample_key m).1 = Ok tt ∧ get m ATTR_XORMAPPED_ADDRESS = Ok [1; 2; 3; 4].
Proof. vm_compute. done. Qed.

(** Octets behind the message move the octets the fingerprint check covers. *)
Example trailing_octet_breaks_fingerprint :
  let m := packed BINDING_REQUEST sample_tid (sample_attrs ++ [fingerprint_attr BINDING_REQUEST sample_tid sample_attrs]) in
  fingerprint_check m = Ok tt ∧
  (unmarshal_binary (raw m ++ [1]) message_new).1 = Ok tt ∧
  fingerprint_check (unmarshal_binary (raw m ++ [1]) message_new).2 = Err ErrFingerprintMismatch.
Proof. vm_compute. done. Qed.
