(* ===== verification/StunAttr.v ===== *)
(** The attributes of STUN, ICE and TURN messages ([rtc-stun/src/addr.rs], [xoraddr.rs],
    [textattrs.rs], [uattrs.rs], [error_code.rs], [rtc-ice/src/attributes], [rtc-turn/src/proto]):
    how each is put into a message and read out of it, the interface they share, and that an
    attribute set by one peer is the attribute the other reads. *)

From stdpp Require Import strings.
From S2P Require Import Prelude Stun.


(** * The interface

    [Setter::add_to] and [Getter::get_from]; the getter writes into the value it is called on, and
    gives the value it leaves when it succeeds. *)

Class Attribute (T : Type) := {
  attr_add : T → sm Message unit;
  attr_get : T → Message → res T;
}.

(** * Addresses *)

Definition FAMILY_IPV4 : Z := 0x01.
Definition FAMILY_IPV6 : Z := 0x02.
Definition IPV4LEN : Z := 4.
Definition IPV6LEN : Z := 16.
Definition ATTR_MAPPED_ADDRESS : Z := 0x0001.
Definition ATTR_XOR_PEER_ADDRESS : Z := 0x0012.
Definition ATTR_XOR_RELAYED_ADDRESS : Z := 0x0016.

(** [std::net::IpAddr], by its octets *)
Inductive IpAddr := V4 (octets : bytes) | V6 (octets : bytes).
Definition ip_octets (ip : IpAddr) : bytes := match ip with V4 o | V6 o => o end.
Definition ip_ok (ip : IpAddr) : Prop :=
  match ip with V4 o => length o = 4%nat | V6 o => length o = 16%nat end ∧ Forall byte_ok (ip_octets ip).
Definition ip_family (ip : IpAddr) : Z := match ip with V4 _ => FAMILY_IPV4 | V6 _ => FAMILY_IPV6 end.

Record MappedAddress := mkMapped { ma_ip : IpAddr; ma_port : Z }.

Definition mapped_add_to_as (a : MappedAddress) (t : Z) : sm Message unit :=
  add t (be 2 (ip_family (ma_ip a)) ++ be 2 (ma_port a) ++ ip_octets (ma_ip a)).

(** [ip[..l].copy_from_slice(&v[4..4 + l])] with [l = min(ip.len(), v[4..].len())] *)
Definition fill_prefix (n : nat) (v : bytes) : bytes := take n v ++ replicate (n - length v) 0.

Definition mapped_get_from_as (a : MappedAddress) (m : Message) (t : Z) : res MappedAddress :=
  let! v := get m t in
  if len v <=? 4 then Err ErrUnexpectedEof
  else
    let family := of_be (take 2 v) in
    if negb (family =? FAMILY_IPV6) && negb (family =? FAMILY_IPV4) then Err ErrOther
    else
      let port := of_be (take 2 (drop 2 v)) in
      if family =? FAMILY_IPV6 then Ok (mkMapped (V6 (fill_prefix 16 (drop 4 v))) port)
      else Ok (mkMapped (V4 (fill_prefix 4 (drop 4 v))) port).

#[export] Instance mapped_attribute : Attribute MappedAddress := {|
  attr_add a := mapped_add_to_as a ATTR_MAPPED_ADDRESS;
  attr_get a m := mapped_get_from_as a m ATTR_MAPPED_ADDRESS
|}.

(** [safe_xor_bytes]: [dst] afterwards, and the number of octets *)
Definition safe_xor_bytes (dst a b : bytes) : bytes * Z :=
  let n := Nat.min (length dst) (Nat.min (length a) (length b)) in
  (zip_with Z.lxor (take n a) (take n b) ++ drop n dst, Z.of_nat n).

Record XorMappedAddress := mkXorMapped { xa_ip : IpAddr; xa_port : Z }.

Definition xor_port (port : Z) : Z := Z.lxor port (u16 (Z.shiftr MAGIC_COOKIE 16)).
Definition xor_value (m : Message) : bytes := be 4 MAGIC_COOKIE ++ transaction_id m.

(** [XorMappedAddress::add_to_as] *)
Definition xor_add_to_as (a : XorMappedAddress) (t : Z) : sm Message unit := λ m,
  let ip := ip_octets (xa_ip a) in
  let xored := (safe_xor_bytes (replicate (length ip) 0) ip (xor_value m)).1 in
  add t (be 2 (ip_family (xa_ip a)) ++ be 2 (xor_port (xa_port a)) ++ xored) m.

(** [XorMappedAddress::get_from_as] *)
Definition xor_get_from_as (a : XorMappedAddress) (m : Message) (t : Z) : res XorMappedAddress :=
  let! v := get m t in
  if len v <=? 4 then Err ErrUnexpectedEof
  else
    let family := of_be (take 2 v) in
    if negb (family =? FAMILY_IPV6) && negb (family =? FAMILY_IPV4) then Err ErrOther
    else
      let! _ := check_overflow (len (drop 4 v)) (if family =? FAMILY_IPV4 then IPV4LEN else IPV6LEN) in
      let port := xor_port (of_be (take 2 (drop 2 v))) in
      if family =? FAMILY_IPV6
      then Ok (mkXorMapped (V6 (safe_xor_bytes (replicate 16 0) (drop 4 v) (xor_value m)).1) port)
      else Ok (mkXorMapped (V4 (safe_xor_bytes (replicate 4 0) (drop 4 v) (xor_value m)).1) port).

#[export] Instance xor_attribute : Attribute XorMappedAddress := {|
  attr_add a := xor_add_to_as a ATTR_XORMAPPED_ADDRESS;
  attr_get a m := xor_get_from_as a m ATTR_XORMAPPED_ADDRESS
|}.

(** [PeerAddress] and [RelayedAddress] of TURN *)
Record PeerAddress := mkPeer { pa_ip : IpAddr; pa_port : Z }.
Record RelayedAddress := mkRelayed { ra_ip : IpAddr; ra_port : Z }.
Definition xor_default : XorMappedAddress := mkXorMapped (V4 (replicate 4 0)) 0.

#[export] Instance peer_attribute : Attribute PeerAddress := {|
  attr_add a := xor_add_to_as (mkXorMapped (pa_ip a) (pa_port a)) ATTR_XOR_PEER_ADDRESS;
  attr_get a m := let! x := xor_get_from_as xor_default m ATTR_XOR_PEER_ADDRESS in Ok (mkPeer (xa_ip x) (xa_port x))
|}.
#[export] Instance relayed_attribute : Attribute RelayedAddress := {|
  attr_add a := xor_add_to_as (mkXorMapped (ra_ip a) (ra_port a)) ATTR_XOR_RELAYED_ADDRESS;
  attr_get a m := let! x := xor_get_from_as xor_default m ATTR_XOR_RELAYED_ADDRESS in Ok (mkRelayed (xa_ip x) (xa_port x))
|}.

(** * Texts *)

Definition ATTR_REALM : Z := 0x0014.
Definition ATTR_NONCE : Z := 0x0015.
Definition ATTR_SOFTWARE : Z := 0x8022.

(** A [String] is held as its octets. *)
Record TextAttribute := mkText { text_attr : Z; text : bytes }.

Definition MAX_USERNAME_B : Z := 513.
Definition MAX_REALM_B : Z := 763.
Definition MAX_SOFTWARE_B : Z := 763.
Definition MAX_NONCE_B : Z := 763.

Definition max_len (t : Z) : option Z :=
  if t =? ATTR_USERNAME then Some MAX_USERNAME_B
  else if t =? ATTR_REALM then Some MAX_REALM_B
  else if t =? ATTR_SOFTWARE then Some MAX_SOFTWARE_B
  else if t =? ATTR_NONCE then Some MAX_NONCE_B
  else None.

Definition text_add_to (a : TextAttribute) : sm Message unit :=
  match max_len (text_attr a) with
  | None => slift (Err ErrOther)
  | Some n =>
      do! _ <- slift (check_overflow (len (text a)) n);
      add (text_attr a) (text a)
  end.

Definition text_get_from_as (m : Message) (t : Z) : res TextAttribute :=
  match max_len t with
  | None => Err ErrOther
  | Some _ =>
      let! a := get m t in
      if utf8_valid a then Ok (mkText t a) else Err ErrUtf8
  end.

#[export] Instance text_attribute : Attribute TextAttribute := {|
  attr_add := text_add_to;
  attr_get a m := text_get_from_as m (text_attr a)
|}.

(** * Unknown attributes and error codes *)

Definition ATTR_UNKNOWN_ATTRIBUTES : Z := 0x000A.
Definition ATTR_ERROR_CODE : Z := 0x0009.

Record UnknownAttributes := mkUnknown { unknown_types : list Z }.
Definition ATTR_TYPE_SIZE : Z := 2.

(** The loop of [UnknownAttributes::get_from] *)
Fixpoint read_types (v : bytes) : list Z :=
  match v with
  | b0 :: b1 :: v => of_be [b0; b1] :: read_types v
  | _ => []
  end.

#[export] Instance unknown_attribute : Attribute UnknownAttributes := {|
  attr_add a := add ATTR_UNKNOWN_ATTRIBUTES (concat (be 2 <$> unknown_types a));
  attr_get a m :=
    let! v := get m ATTR_UNKNOWN_ATTRIBUTES in
    if negb (len v mod ATTR_TYPE_SIZE =? 0) then Err ErrBadUnknownAttrsSize
    else Ok (mkUnknown (read_types v))
|}.

Record ErrorCodeAttribute := mkErrorCode { code : Z; reason : bytes }.
Definition ERROR_CODE_REASON_START : Z := 4.
Definition ERROR_CODE_REASON_MAX_B : Z := 763.
Definition ERROR_CODE_MODULO : Z := 100.

Definition error_code_add_to (a : ErrorCodeAttribute) : sm Message unit :=
  do! _ <- slift (check_overflow (len (reason a) + ERROR_CODE_REASON_START) (ERROR_CODE_REASON_MAX_B + ERROR_CODE_REASON_START));
  let number := u8 (code a mod ERROR_CODE_MODULO) in
  let class := u8 (code a / ERROR_CODE_MODULO) in
  add ATTR_ERROR_CODE ([0; 0; class; number] ++ reason a).

#[export] Instance error_code_attribute : Attribute ErrorCodeAttribute := {|
  attr_add := error_code_add_to;
  attr_get a m :=
    let! v := get m ATTR_ERROR_CODE in
    if len v <? ERROR_CODE_REASON_START then Err ErrUnexpectedEof
    else
      let! class := index v 2 in
      let! number := index v 3 in
      Ok (mkErrorCode (class * ERROR_CODE_MODULO + number) (drop 4 v))
|}.

Definition ascii_bytes (s : string) : bytes := (λ c, Z.of_nat (Ascii.nat_of_ascii c)) <$> String.list_ascii_of_string s.

(** [ERROR_REASONS] *)
Definition ERROR_REASONS : list (Z * string) := [
  (300, "Try Alternate"); (400, "Bad Request"); (401, "Unauthorized"); (420, "Unknown Attribute");
  (438, "Stale Nonce"); (500, "Server Error"); (487, "Role Conflict"); (403, "Forbidden");
  (437, "Allocation Mismatch"); (441, "Wrong Credentials"); (442, "Unsupported Transport Protocol");
  (486, "Allocation Quota Reached"); (508, "Insufficient Capacity"); (446, "Connection Already Exists");
  (447, "Connection Timeout or Failure"); (440, "Address Family not Supported"); (443, "Peer Address Family Mismatch")]%string.

(** [impl Setter for ErrorCode] *)
Definition code_add_to (c : Z) : sm Message unit :=
  match find (λ p, p.1 =? c) ERROR_REASONS with
  | Some p => error_code_add_to (mkErrorCode c (ascii_bytes p.2))
  | None => slift (Err ErrNoDefaultReason)
  end.

(** * ICE *)

Definition ATTR_PRIORITY : Z := 0x0024.
Definition ATTR_USE_CANDIDATE : Z := 0x0025.
Definition ATTR_ICE_CONTROLLED : Z := 0x8029.
Definition ATTR_ICE_CONTROLLING : Z := 0x802A.

(** An attribute that is one unsigned number of [n] octets *)
Definition uint_add (n : nat) (t x : Z) : sm Message unit := add t (be n x).
Definition uint_get (n : nat) (t : Z) (m : Message) : res Z :=
  let! v := get m t in
  let! _ := check_size (len v) (Z.of_nat n) in
  Ok (of_be (take n v)).

Record PriorityAttr := mkPriority { priority : Z }.
#[export] Instance priority_attribute : Attribute PriorityAttr := {|
  attr_add a := uint_add 4 ATTR_PRIORITY (priority a);
  attr_get _ m := let! p := uint_get 4 ATTR_PRIORITY m in Ok (mkPriority p)
|}.

(** [TieBreaker::add_to_as] and [get_from_as] *)
Definition tie_breaker_add_to_as (x t : Z) : sm Message unit := uint_add 8 t x.
Definition tie_breaker_get_from_as (m : Message) (t : Z) : res Z := uint_get 8 t m.

Record AttrControlled := mkControlled { controlled : Z }.
Record AttrControlling := mkControlling { controlling : Z }.
#[export] Instance controlled_attribute : Attribute AttrControlled := {|
  attr_add a := tie_breaker_add_to_as (controlled a) ATTR_ICE_CONTROLLED;
  attr_get _ m := let! t := tie_breaker_get_from_as m ATTR_ICE_CONTROLLED in Ok (mkControlled t)
|}.
#[export] Instance controlling_attribute : Attribute AttrControlling := {|
  attr_add a := tie_breaker_add_to_as (controlling a) ATTR_ICE_CONTROLLING;
  attr_get _ m := let! t := tie_breaker_get_from_as m ATTR_ICE_CONTROLLING in Ok (mkControlling t)
|}.

Inductive Role := Controlling | Controlled | Unspecified.
Record AttrControl := mkControl { role : Role; tie_breaker : Z }.
#[export] Instance control_attribute : Attribute AttrControl := {|
  attr_add a :=
    match role a with
    | Controlling => tie_breaker_add_to_as (tie_breaker a) ATTR_ICE_CONTROLLING
    | _ => tie_breaker_add_to_as (tie_breaker a) ATTR_ICE_CONTROLLED
    end;
  attr_get _ m :=
    if contains m ATTR_ICE_CONTROLLING then
      let! t := tie_breaker_get_from_as m ATTR_ICE_CONTROLLING in Ok (mkControl Controlling t)
    else if contains m ATTR_ICE_CONTROLLED then
      let! t := tie_breaker_get_from_as m ATTR_ICE_CONTROLLED in Ok (mkControl Controlled t)
    else Err ErrAttributeNotFound
|}.

Definition use_candidate_add_to : sm Message unit := add ATTR_USE_CANDIDATE [].
Definition use_candidate_is_set (m : Message) : bool := match get m ATTR_USE_CANDIDATE with Ok _ => true | _ => false end.

(** * TURN *)

Definition ATTR_CHANNEL_NUMBER : Z := 0x000C.
Definition ATTR_LIFETIME : Z := 0x000D.
Definition ATTR_DATA : Z := 0x0013.
Definition ATTR_REQUESTED_ADDRESS_FAMILY : Z := 0x0017.
Definition ATTR_EVEN_PORT : Z := 0x0018.
Definition ATTR_REQUESTED_TRANSPORT : Z := 0x0019.
Definition ATTR_DONT_FRAGMENT : Z := 0x001A.
Definition ATTR_RESERVATION_TOKEN : Z := 0x0022.

Record ChannelNumber := mkChannel { channel_number : Z }.
Definition MIN_CHANNEL_NUMBER : Z := 0x4000.
Definition MAX_CHANNEL_NUMBER : Z := 0x7FFF.
Definition channel_valid (n : ChannelNumber) : bool := (MIN_CHANNEL_NUMBER <=? channel_number n) && (channel_number n <=? MAX_CHANNEL_NUMBER).
#[export] Instance channel_attribute : Attribute ChannelNumber := {|
  attr_add a := add ATTR_CHANNEL_NUMBER (be 2 (channel_number a) ++ [0; 0]);
  attr_get _ m :=
    let! v := get m ATTR_CHANNEL_NUMBER in
    let! _ := check_size (len v) 4 in
    Ok (mkChannel (of_be (take 2 v)))
|}.

Record Data := mkData { data : bytes }.
#[export] Instance data_attribute : Attribute Data := {|
  attr_add a := add ATTR_DATA (data a);
  attr_get _ m := let! v := get m ATTR_DATA in Ok (mkData v)
|}.

Record DontFragmentAttr := mkDontFragment {}.
#[export] Instance dont_fragment_attribute : Attribute DontFragmentAttr := {|
  attr_add _ := add ATTR_DONT_FRAGMENT [];
  attr_get a m := let! _ := get m ATTR_DONT_FRAGMENT in Ok a
|}.

Record EvenPort := mkEvenPort { reserve_port : bool }.
Definition FIRST_BIT_SET : Z := 0x80.
(** The getter only ever sets the flag. *)
#[export] Instance even_port_attribute : Attribute EvenPort := {|
  attr_add a := add ATTR_EVEN_PORT [if reserve_port a then FIRST_BIT_SET else 0];
  attr_get a m :=
    let! v := get m ATTR_EVEN_PORT in
    let! _ := check_size (len v) 1 in
    let! b := index v 0 in
    Ok (if 0 <? Z.land b FIRST_BIT_SET then mkEvenPort true else a)
|}.

(** A [Duration] of whole seconds *)
Record Lifetime := mkLifetime { seconds : Z }.
#[export] Instance lifetime_attribute : Attribute Lifetime := {|
  attr_add a := uint_add 4 ATTR_LIFETIME (u32 (seconds a));
  attr_get _ m := let! s := uint_get 4 ATTR_LIFETIME m in Ok (mkLifetime s)
|}.

(** The first of four octets *)
Definition octet_add (t b : Z) : sm Message unit := add t [b; 0; 0; 0].
Definition octet_get (t : Z) (m : Message) : res Z :=
  let! v := get m t in
  let! _ := check_size (len v) 4 in
  index v 0.

Record RequestedAddressFamily := mkFamily { family : Z }.
#[export] Instance family_attribute : Attribute RequestedAddressFamily := {|
  attr_add a := octet_add ATTR_REQUESTED_ADDRESS_FAMILY (family a);
  attr_get _ m :=
    let! b := octet_get ATTR_REQUESTED_ADDRESS_FAMILY m in
    if negb (b =? 1) && negb (b =? 2) then Err ErrOther else Ok (mkFamily b)
|}.

Record RequestedTransport := mkTransport { protocol : Z }.
#[export] Instance transport_attribute : Attribute RequestedTransport := {|
  attr_add a := octet_add ATTR_REQUESTED_TRANSPORT (protocol a);
  attr_get _ m := let! b := octet_get ATTR_REQUESTED_TRANSPORT m in Ok (mkTransport b)
|}.

Record ReservationToken := mkToken { token : bytes }.
#[export] Instance token_attribute : Attribute ReservationToken := {|
  attr_add a := do! _ <- slift (check_size (len (token a)) 8); add ATTR_RESERVATION_TOKEN (token a);
  attr_get _ m :=
    let! v := get m ATTR_RESERVATION_TOKEN in
    let! _ := check_size (len v) 8 in
    Ok (mkToken v)
|}.

(** * Channel data *)

Record ChannelData := mkChannelData { cd_data : bytes; cd_number : ChannelNumber; cd_raw : bytes }.
Definition CHANNEL_DATA_HEADER_SIZE : Z := 4.

(** [ChannelData::write_header] on a buffer *)
Definition channel_write_header (c : ChannelData) : res bytes :=
  let r := if len (cd_raw c) <? CHANNEL_DATA_HEADER_SIZE then cd_raw c ++ replicate 4 0 else cd_raw c in
  let! r := copy_at 0 (be 2 (channel_number (cd_number c))) r in
  copy_at 2 (be 2 (u16 (len (cd_data c)))) r.

Definition channel_encode (c : ChannelData) : res ChannelData :=
  let! h := channel_write_header (mkChannelData (cd_data c) (cd_number c) []) in
  let r := h ++ cd_data c in
  let bytes_to_add := nearest_padded_value_length (len r) - len r in
  Ok (mkChannelData (cd_data c) (cd_number c) (if 0 <? bytes_to_add then r ++ replicate (Z.to_nat bytes_to_add) 0 else r)).

(** [ChannelData::decode]; a number that is not valid stays in the value. *)
Definition channel_decode : sm ChannelData unit := λ c,
  let buf := cd_raw c in
  if len buf <? CHANNEL_DATA_HEADER_SIZE then (Err ErrUnexpectedEof, c)
  else
    let num := mkChannel (of_be (take 2 buf)) in
    let c := mkChannelData (cd_data c) num buf in
    if negb (channel_valid num) then (Err ErrInvalidChannelNumber, c)
    else
      let l := of_be (take 2 (drop 2 buf)) in
      if len (drop 4 buf) <? l then (Err ErrBadChannelDataLength, c)
      else (Ok tt, mkChannelData (take (Z.to_nat l) (drop 4 buf)) num buf).

(** [ChannelData::is_channel_data]: the length is compared with the low 16 bits of the size. *)
Definition is_channel_data (buf : bytes) : bool :=
  if len buf <? CHANNEL_DATA_HEADER_SIZE then false
  else if u16 (len (drop 4 buf)) <? of_be (take 2 (drop 2 buf)) then false
  else channel_valid (mkChannel (of_be (take 2 buf))).

(** * What the attributes promise

    [code_of x tid] is the type and the value of [x] in a message of transaction [tid], [reads x]
    the types its getter looks for, and [asks x0 x] that [x] can be read into [x0]. *)

Class AttributeLaws (T : Type) `{Attribute T} := {
  valid : T → Prop;
  code_of : T → bytes → Z * bytes;
  reads : T → list Z;
  asks : T → T → Prop;
  law_add x m : valid x → attr_add x m = add (code_of x (transaction_id m)).1 (code_of x (transaction_id m)).2 m;
  law_code x tid : valid x → len tid = 12 →
    let t := (code_of x tid).1 in
    t ∈ reads x ∧ fits 16 t ∧ t ≠ 0x8020 ∧ ATTR_MESSAGE_INTEGRITY ∉ reads x ∧ ATTR_FINGERPRINT ∉ reads x;
  law_get x x0 m pre post : valid x → asks x0 x → len (transaction_id m) = 12 →
    let c := code_of x (transaction_id m) in
    attributes m = pre ++ mkAttr c.1 (len c.2) c.2 :: post →
    Forall (λ a, attr_typ a ∉ reads x) pre → Forall (λ a, attr_typ a ∉ reads x) post →
    attr_get x0 m = Ok x;
  law_total x0 m : attr_get x0 m ≠ Panic;
}.

Lemma get_at m pre post t n v :
  attributes m = pre ++ mkAttr t n v :: post → Forall (λ a, attr_typ a ∉ [t]) pre → get m t = Ok v.
Proof.
  intros E Hp. unfold get. rewrite E, (attributes_get_first pre (mkAttr t n v) post); [done|done|].
  eapply Forall_impl; [exact Hp|]. intros a Ha Et. apply Ha. rewrite Et. by left.
Qed.

Lemma contains_spec m t : contains m t = true ↔ ∃ a, a ∈ attributes m ∧ attr_typ a = t.
Proof.
  unfold contains. rewrite existsb_exists. split; intros (a & Ha & E); exists a.
  - split; [by apply list_elem_of_In|by apply Z.eqb_eq].
  - split; [by apply list_elem_of_In|by apply Z.eqb_eq].
Qed.

Lemma get_total m t : get m t ≠ Panic.
Proof. unfold get. by case_match. Qed.
#[export] Hint Resolve get_total : rtc.

Lemma bind_total {A B} (m : res A) (f : A → res B) : m ≠ Panic → (∀ a, m = Ok a → f a ≠ Panic) → rbind m f ≠ Panic.
Proof. apply no_panic_bind. Qed.

Lemma check_size_total a b : check_size a b ≠ Panic.
Proof. unfold check_size. by case_match. Qed.
Lemma check_size_inv a b u : check_size a b = Ok u → a = b.
Proof. unfold check_size. case_match; [|done]. by intros _; apply Z.eqb_eq. Qed.
Lemma check_size_ok a : check_size a a = Ok tt.
Proof. unfold check_size. by rewrite Z.eqb_refl. Qed.

Lemma uint_get_total n t m : uint_get n t m ≠ Panic.
Proof. apply bind_total; [apply get_total|]. intros v _. by apply bind_total; [apply check_size_total|]. Qed.
Lemma uint_get_at n t m x pre post k :
  fits (8 * Z.of_nat n) x → attributes m = pre ++ mkAttr t k (be n x) :: post → Forall (λ a, attr_typ a ∉ [t]) pre →
  uint_get n t m = Ok x.
Proof.
  intros Hx E Hp. unfold uint_get. rewrite (get_at m pre post t _ _ E Hp). cbn [rbind]. rewrite len_be, check_size_ok. cbn [rbind].
  rewrite take_ge by by rewrite BigEndian.enc_length. by rewrite BigEndian.dec_enc.
Qed.

(** The type of an attribute is not one of those that protect a message. *)
Ltac not_listed := intros Hin; repeat (apply elem_of_cons in Hin as [Hin|Hin]; [discriminate Hin|]); by apply elem_of_nil in Hin.
Ltac code_law := intros; split; [by left|]; cbn; unfold fits; split_and!; first [done|lia|not_listed].

#[export, refine] Instance priority_laws : AttributeLaws PriorityAttr := {|
  valid x := fits 32 (priority x);
  code_of x _ := (ATTR_PRIORITY, be 4 (priority x));
  reads _ := [ATTR_PRIORITY];
  asks _ _ := True
|}.
Proof.
  - done.
  - code_law.
  - intros [x] x0 m pre post Hx _ _ c E Hp _. cbn [attr_get priority_attribute]. by rewrite (uint_get_at 4 ATTR_PRIORITY m x pre post _ Hx E Hp).
  - intros x0 m. apply bind_total; [apply uint_get_total|done].
Defined.

#[export, refine] Instance controlled_laws : AttributeLaws AttrControlled := {|
  valid x := fits 64 (controlled x);
  code_of x _ := (ATTR_ICE_CONTROLLED, be 8 (controlled x));
  reads _ := [ATTR_ICE_CONTROLLED];
  asks _ _ := True
|}.
Proof.
  - done.
  - code_law.
  - intros [x] x0 m pre post Hx _ _ c E Hp _. cbn [attr_get controlled_attribute]. unfold tie_breaker_get_from_as. by rewrite (uint_get_at 8 ATTR_ICE_CONTROLLED m x pre post _ Hx E Hp).
  - intros x0 m. apply bind_total; [apply uint_get_total|done].
Defined.

#[export, refine] Instance controlling_laws : AttributeLaws AttrControlling := {|
  valid x := fits 64 (controlling x);
  code_of x _ := (ATTR_ICE_CONTROLLING, be 8 (controlling x));
  reads _ := [ATTR_ICE_CONTROLLING];
  asks _ _ := True
|}.
Proof.
  - done.
  - code_law.
  - intros [x] x0 m pre post Hx _ _ c E Hp _. cbn [attr_get controlling_attribute]. unfold tie_breaker_get_from_as. by rewrite (uint_get_at 8 ATTR_ICE_CONTROLLING m x pre post _ Hx E Hp).
  - intros x0 m. apply bind_total; [apply uint_get_total|done].
Defined.

Lemma Forall_not_in_sub (l k : list Z) (pre : list RawAttribute) :
  (∀ t, t ∈ l → t ∈ k) → Forall (λ a, attr_typ a ∉ k) pre → Forall (λ a, attr_typ a ∉ l) pre.
Proof. intros Hs Hp. eapply Forall_impl; [exact Hp|]. intros a Ha Hl. by apply Ha, Hs. Qed.

(** An unspecified role is sent as controlled. *)
#[export, refine] Instance control_laws : AttributeLaws AttrControl := {|
  valid x := fits 64 (tie_breaker x) ∧ role x ≠ Unspecified;
  code_of x _ := (match role x with Controlling => ATTR_ICE_CONTROLLING | _ => ATTR_ICE_CONTROLLED end, be 8 (tie_breaker x));
  reads _ := [ATTR_ICE_CONTROLLING; ATTR_ICE_CONTROLLED];
  asks _ _ := True
|}.
Proof.
  - intros [[] x] m [_ H]; done.
  - intros [[] x] tid [_ H] _; cbn; (split; [set_solver|]; unfold fits; split_and!; first [done|lia|not_listed]).
  - intros [r x] x0 m pre post [Hx Hr] _ _ c E Hp Hq. cbn [attr_get control_attribute]. unfold tie_breaker_get_from_as.
    assert (Hno : r = Controlled → contains m ATTR_ICE_CONTROLLING = false).
    { intros ->. apply not_true_iff_false. intros (a & Ha & Et)%contains_spec. rewrite E in Ha.
      apply elem_of_app in Ha as [Ha|[->|Ha]%elem_of_cons]; [|done|].
      - rewrite Forall_forall in Hp. apply (Hp a Ha). rewrite Et. by left.
      - rewrite Forall_forall in Hq. apply (Hq a Ha). rewrite Et. by left. }
    destruct r; [| |done].
    + rewrite (proj2 (contains_spec m ATTR_ICE_CONTROLLING)) by (eexists; rewrite E; split; [apply elem_of_app; right; by left|done]).
      rewrite (uint_get_at 8 ATTR_ICE_CONTROLLING m x pre post _ Hx E); [done|]. eapply Forall_not_in_sub; [|exact Hp]. set_solver.
    + rewrite Hno by done.
      rewrite (proj2 (contains_spec m ATTR_ICE_CONTROLLED)) by (eexists; rewrite E; split; [apply elem_of_app; right; by left|done]).
      rewrite (uint_get_at 8 ATTR_ICE_CONTROLLED m x pre post _ Hx E); [done|]. eapply Forall_not_in_sub; [|exact Hp]. set_solver.
  - intros x0 m. cbn [attr_get control_attribute].
    repeat case_match; try done; (apply bind_total; [apply uint_get_total|done]).
Defined.

#[export, refine] Instance lifetime_laws : AttributeLaws Lifetime := {|
  valid x := fits 32 (seconds x);
  code_of x _ := (ATTR_LIFETIME, be 4 (seconds x));
  reads _ := [ATTR_LIFETIME];
  asks _ _ := True
|}.
Proof.
  - intros [x] m Hx. cbn [attr_add lifetime_attribute seconds fst snd]. unfold uint_add. by rewrite (wrap_small 32 x Hx).
  - code_law.
  - intros [x] x0 m pre post Hx _ _ c E Hp _. cbn [attr_get lifetime_attribute]. by rewrite (uint_get_at 4 ATTR_LIFETIME m x pre post _ Hx E Hp).
  - intros x0 m. apply bind_total; [apply uint_get_total|done].
Defined.

Lemma octet_get_at t m b pre post k :
  attributes m = pre ++ mkAttr t k [b; 0; 0; 0] :: post → Forall (λ a, attr_typ a ∉ [t]) pre → octet_get t m = Ok b.
Proof. intros E Hp. unfold octet_get. by rewrite (get_at m pre post t _ _ E Hp). Qed.
Lemma octet_get_total t m : octet_get t m ≠ Panic.
Proof.
  apply bind_total; [apply get_total|]. intros v _. apply bind_total; [apply check_size_total|]. intros _ E%check_size_inv.
  by destruct (index_ok v 0) as (x & -> & _); [lia|].
Qed.

#[export, refine] Instance family_laws : AttributeLaws RequestedAddressFamily := {|
  valid x := family x = 1 ∨ family x = 2;
  code_of x _ := (ATTR_REQUESTED_ADDRESS_FAMILY, [family x; 0; 0; 0]);
  reads _ := [ATTR_REQUESTED_ADDRESS_FAMILY];
  asks _ _ := True
|}.
Proof.
  - done.
  - code_law.
  - intros [x] x0 m pre post Hx _ _ c E Hp _. cbn [attr_get family_attribute]. rewrite (octet_get_at ATTR_REQUESTED_ADDRESS_FAMILY m x pre post _ E Hp).
    cbn in Hx. by destruct Hx as [->| ->].
  - intros x0 m. apply bind_total; [apply octet_get_total|]. intros b _. by case_match.
Defined.

#[export, refine] Instance transport_laws : AttributeLaws RequestedTransport := {|
  valid x := byte_ok (protocol x);
  code_of x _ := (ATTR_REQUESTED_TRANSPORT, [protocol x; 0; 0; 0]);
  reads _ := [ATTR_REQUESTED_TRANSPORT];
  asks _ _ := True
|}.
Proof.
  - done.
  - code_law.
  - intros [x] x0 m pre post Hx _ _ c E Hp _. cbn [attr_get transport_attribute]. by rewrite (octet_get_at ATTR_REQUESTED_TRANSPORT m x pre post _ E Hp).
  - intros x0 m. apply bind_total; [apply octet_get_total|done].
Defined.

#[export, refine] Instance channel_laws : AttributeLaws ChannelNumber := {|
  valid x := fits 16 (channel_number x);
  code_of x _ := (ATTR_CHANNEL_NUMBER, be 2 (channel_number x) ++ [0; 0]);
  reads _ := [ATTR_CHANNEL_NUMBER];
  asks _ _ := True
|}.
Proof.
  - done.
  - code_law.
  - intros [x] x0 m pre post Hx _ _ c E Hp _. cbn [attr_get channel_attribute]. rewrite (get_at m pre post ATTR_CHANNEL_NUMBER _ _ E Hp).
    cbn [rbind c snd channel_number]. rewrite len_app, len_be. cbn [rbind check_size]. by rewrite of_be_app.
  - intros x0 m. apply bind_total; [apply get_total|]. intros v _. by apply bind_total; [apply check_size_total|].
Defined.

#[export, refine] Instance data_laws : AttributeLaws Data := {|
  valid _ := True;
  code_of x _ := (ATTR_DATA, data x);
  reads _ := [ATTR_DATA];
  asks _ _ := True
|}.
Proof.
  - done.
  - code_law.
  - intros [x] x0 m pre post Hx _ _ c E Hp _. cbn [attr_get data_attribute]. by rewrite (get_at m pre post ATTR_DATA _ _ E Hp).
  - intros x0 m. apply bind_total; [apply get_total|done].
Defined.

#[export, refine] Instance dont_fragment_laws : AttributeLaws DontFragmentAttr := {|
  valid _ := True;
  code_of x _ := (ATTR_DONT_FRAGMENT, []);
  reads _ := [ATTR_DONT_FRAGMENT];
  asks _ _ := True
|}.
Proof.
  - done.
  - code_law.
  - intros [] [] m pre post Hx _ _ c E Hp _. cbn [attr_get dont_fragment_attribute]. by rewrite (get_at m pre post ATTR_DONT_FRAGMENT _ _ E Hp).
  - intros x0 m. apply bind_total; [apply get_total|done].
Defined.

(** A value that already has the flag keeps it. *)
#[export, refine] Instance even_port_laws : AttributeLaws EvenPort := {|
  valid _ := True;
  code_of x _ := (ATTR_EVEN_PORT, [if reserve_port x then FIRST_BIT_SET else 0]);
  reads _ := [ATTR_EVEN_PORT];
  asks x0 x := reserve_port x0 = true → reserve_port x = true
|}.
Proof.
  - done.
  - code_law.
  - intros [x] [y] m pre post _ Hy _ c E Hp _. cbn [attr_get even_port_attribute]. rewrite (get_at m pre post ATTR_EVEN_PORT _ _ E Hp).
    cbn in Hy. destruct x, y; [done..| |done]. by discriminate Hy.
  - intros x0 m. apply bind_total; [apply get_total|]. intros v _. apply bind_total; [apply check_size_total|]. intros _ Ev%check_size_inv.
    by destruct (index_ok v 0) as (x & -> & _); [lia|].
Defined.

#[export, refine] Instance token_laws : AttributeLaws ReservationToken := {|
  valid x := len (token x) = 8;
  code_of x _ := (ATTR_RESERVATION_TOKEN, token x);
  reads _ := [ATTR_RESERVATION_TOKEN];
  asks _ _ := True
|}.
Proof.
  - intros [x] m Hx. cbn [attr_add token_attribute token fst snd] in *. unfold sbind, slift. cbn in Hx. by rewrite Hx.
  - code_law.
  - intros [x] x0 m pre post Hx _ _ c E Hp _. cbn [attr_get token_attribute]. rewrite (get_at m pre post ATTR_RESERVATION_TOKEN _ _ E Hp).
    cbn [rbind c snd token] in *. cbn in Hx. by rewrite Hx.
  - intros x0 m. apply bind_total; [apply get_total|]. intros v _. by apply bind_total; [apply check_size_total|].
Defined.

Definition text_valid (x : TextAttribute) : Prop := ∃ n, max_len (text_attr x) = Some n ∧ len (text x) <= n ∧ utf8_valid (text x) = true.

Lemma max_len_some t n : max_len t = Some n → t = ATTR_USERNAME ∨ t = ATTR_REALM ∨ t = ATTR_SOFTWARE ∨ t = ATTR_NONCE.
Proof. unfold max_len. repeat case_match; intros; simplify_eq; rewrite ?Z.eqb_eq in *; auto. Qed.

#[export, refine] Instance text_laws : AttributeLaws TextAttribute := {|
  valid := text_valid;
  code_of x _ := (text_attr x, text x);
  reads x := [text_attr x];
  asks x0 x := text_attr x0 = text_attr x
|}.
Proof.
  - intros [t x] m (n & Hn & Hl & _). cbn [attr_add text_attribute fst snd text_attr text] in *. unfold text_add_to, check_overflow, sbind, slift. cbn [text_attr text] in *.
    by rewrite Hn, (proj2 (Z.leb_le _ _)).
  - intros [t x] tid (n & Hn%max_len_some & _) _. cbn [text_attr] in Hn. cbn. split; [by left|]. destruct Hn as [->|[->|[->| ->]]]; unfold fits; split_and!; first [done|lia|not_listed].
  - intros [t x] [t0 y] m pre post (n & Hn & _ & Hu) Ht _ c E Hp _. cbn [attr_get text_attribute asks text_attr text c fst snd reads] in *. cbn in Ht. subst t0.
    unfold text_get_from_as. rewrite Hn, (get_at m pre post t _ _ E Hp). cbn [rbind]. by rewrite Hu.
  - intros x0 m. cbn [attr_get text_attribute]. unfold text_get_from_as. case_match; [|done].
    apply bind_total; [apply get_total|]. intros v _. by case_match.
Defined.

Lemma read_types_concat l : Forall (fits 16) l → read_types (concat (be 2 <$> l)) = l.
Proof.
  induction 1 as [|x l Hx _ IH]; [done|]. pose proof (BigEndian.dec_enc 2 x Hx) as E. rewrite fmap_cons. cbn [concat].
  change (be 2 x) with [x / 256 mod 256; x mod 256] in E |- *. cbn [app read_types]. by rewrite IH, E.
Qed.

#[export, refine] Instance unknown_laws : AttributeLaws UnknownAttributes := {|
  valid x := Forall (fits 16) (unknown_types x);
  code_of x _ := (ATTR_UNKNOWN_ATTRIBUTES, concat (be 2 <$> unknown_types x));
  reads _ := [ATTR_UNKNOWN_ATTRIBUTES];
  asks _ _ := True
|}.
Proof.
  - done.
  - code_law.
  - intros [x] x0 m pre post Hx _ _ c E Hp _. cbn [attr_get unknown_attribute]. rewrite (get_at m pre post ATTR_UNKNOWN_ATTRIBUTES _ _ E Hp).
    cbn [rbind c snd unknown_types] in *. rewrite (len_concat_fixed (be 2) 2), read_types_concat by (done || (intros; apply len_be)).
    unfold ATTR_TYPE_SIZE. by rewrite Z.mul_comm, Z.mod_mul.
  - intros x0 m. apply bind_total; [apply get_total|]. intros v _. by case_match.
Defined.

#[export, refine] Instance error_code_laws : AttributeLaws ErrorCodeAttribute := {|
  valid x := 0 <= code x < 25600 ∧ len (reason x) <= ERROR_CODE_REASON_MAX_B;
  code_of x _ := (ATTR_ERROR_CODE, [0; 0; code x / 100; code x mod 100] ++ reason x);
  reads _ := [ATTR_ERROR_CODE];
  asks _ _ := True
|}.
Proof.
  - intros [x r] m [Hx Hr]. cbn [code reason] in *. cbn [attr_add error_code_attribute fst snd]. unfold error_code_add_to, check_overflow, sbind, slift. cbn [code reason].
    rewrite (proj2 (Z.leb_le _ _)) by lia. rewrite !wrap_small; [done|unfold fits, ERROR_CODE_MODULO; Z.div_mod_to_equations; lia..].
  - code_law.
  - intros [x r] x0 m pre post [Hx Hr] _ _ c E Hp _. cbn [code] in Hx. cbn [attr_get error_code_attribute]. rewrite (get_at m pre post ATTR_ERROR_CODE _ _ E Hp).
    cbn [rbind c snd code reason app]. rewrite (proj2 (Z.ltb_ge _ _)) by (rewrite !len_cons; unfold ERROR_CODE_REASON_START; pose proof (len_nonneg r); lia).
    change (index (0 :: 0 :: x / 100 :: x mod 100 :: r) 2) with (index ([0; 0] ++ x / 100 :: x mod 100 :: r) 2).
    change (index (0 :: 0 :: x / 100 :: x mod 100 :: r) 3) with (index ([0; 0; x / 100] ++ x mod 100 :: r) 3).
    rewrite !index_app by done. cbn [rbind drop].
    unfold ERROR_CODE_MODULO. do 2 f_equal. rewrite (Z_div_mod_eq_full x 100) at 3. lia.
  - intros x0 m. apply bind_total; [apply get_total|]. intros v _. case_match eqn:E; [done|]. apply Z.ltb_ge in E. unfold ERROR_CODE_REASON_START in E.
    destruct (index_ok v 2) as (y & -> & _); [lia|]. by destruct (index_ok v 3) as (z & -> & _); [lia|].
Defined.

Lemma ip_len ip : ip_ok ip → 4 <= len (ip_octets ip) <= 16 ∧ (length (ip_octets ip) ≤ 16)%nat.
Proof. intros [H _]. unfold len. destruct ip; cbn in *; lia. Qed.

(** The octets of an address attribute *)
Lemma address_octets x y o :
  len o ≠ 0 → fits 16 x → fits 16 y → let v := be 2 x ++ be 2 y ++ o in
  (len v <=? 4) = false ∧ of_be (take 2 v) = x ∧ of_be (take 2 (drop 2 v)) = y ∧ drop 4 v = o.
Proof.
  intros Ho Hx Hy v. pose proof (len_nonneg o). split_and!.
  - apply Z.leb_gt. unfold v. rewrite !len_app, !len_be. lia.
  - by apply of_be_app.
  - unfold v. rewrite drop_app_length' by by rewrite BigEndian.enc_length. by apply of_be_app.
  - unfold v. change 4%nat with (2 + 2)%nat. rewrite <-drop_drop. rewrite !drop_app_length' by by rewrite BigEndian.enc_length. done.
Qed.

Definition address_valid (ip : IpAddr) (port : Z) : Prop := ip_ok ip ∧ fits 16 port.

Lemma family_fits ip : fits 16 (ip_family ip).
Proof. destruct ip; concrete. Qed.

#[local] Arguments fill_prefix : simpl never.
#[local] Arguments safe_xor_bytes : simpl never.

Lemma fill_prefix_exact n o : length o = n → fill_prefix n o = o.
Proof. intros <-. unfold fill_prefix. rewrite take_ge by done. by rewrite Nat.sub_diag, app_nil_r. Qed.

#[export, refine] Instance mapped_laws : AttributeLaws MappedAddress := {|
  valid x := address_valid (ma_ip x) (ma_port x);
  code_of x _ := (ATTR_MAPPED_ADDRESS, be 2 (ip_family (ma_ip x)) ++ be 2 (ma_port x) ++ ip_octets (ma_ip x));
  reads _ := [ATTR_MAPPED_ADDRESS];
  asks _ _ := True
|}.
Proof.
  - done.
  - code_law.
  - intros [ip p] x0 m pre post [Hi Hf] _ _ c E Hp _. cbn [attr_get mapped_attribute ma_ip ma_port] in *. unfold mapped_get_from_as.
    rewrite (get_at m pre post ATTR_MAPPED_ADDRESS _ _ E Hp). cbn [rbind c snd ma_ip ma_port].
    destruct (address_octets (ip_family ip) p (ip_octets ip)) as (E1 & E2 & E3 & E4); [apply ip_len in Hi; lia|apply family_fits|done|].
    rewrite E1, E2, E3, E4. destruct Hi as [Hi _]. destruct ip as [o|o]; cbn in Hi |- *; by rewrite fill_prefix_exact.
  - intros x0 m. apply bind_total; [apply get_total|]. intros v _. cbv zeta. destruct (len v <=? 4); [done|]. destruct (_ && _); [done|]. by destruct (_ =? _).
Defined.

Lemma safe_xor_eq dst a b :
  length dst = length a → (length a ≤ length b)%nat → (safe_xor_bytes dst a b).1 = zip_with Z.lxor a (take (length a) b).
Proof.
  intros Hd Hl. unfold safe_xor_bytes. cbn [fst]. replace (Nat.min _ _) with (length a) by lia.
  rewrite (take_ge a) by done. by rewrite drop_ge, app_nil_r by lia.
Qed.

Lemma xor_port_twice p : xor_port (xor_port p) = p.
Proof. unfold xor_port. by rewrite Z.lxor_assoc, Z.lxor_nilpotent, Z.lxor_0_r. Qed.
Lemma xor_port_fits p : fits 16 p → fits 16 (xor_port p).
Proof. intros. by apply fits_lxor. Qed.

Lemma xor_octets_back n (o k : bytes) :
  length o = n → (n ≤ length k)%nat →
  let x := (safe_xor_bytes (replicate n 0) o k).1 in length x = n ∧ (safe_xor_bytes (replicate n 0) x k).1 = o.
Proof.
  intros Ho Hk x. unfold x. assert (L : length (zip_with Z.lxor o (take (length o) k)) = n) by (rewrite length_zip_with, length_take; lia).
  rewrite (safe_xor_eq _ o) by (rewrite ?length_replicate; lia). split; [done|].
  rewrite safe_xor_eq, L by (rewrite ?length_replicate; lia). rewrite <-Ho. apply zip_lxor_cancel. rewrite length_take. lia.
Qed.

(** The value of an XOR-ed address, and reading it back *)
Definition xor_code (ip : IpAddr) (port : Z) (tid : bytes) : bytes :=
  be 2 (ip_family ip) ++ be 2 (xor_port port) ++
  (safe_xor_bytes (replicate (length (ip_octets ip)) 0) (ip_octets ip) (be 4 MAGIC_COOKIE ++ tid)).1.

Lemma xor_get_at t ip port m x0 pre post k :
  address_valid ip port → len (transaction_id m) = 12 →
  attributes m = pre ++ mkAttr t k (xor_code ip port (transaction_id m)) :: post → Forall (λ a, attr_typ a ∉ [t]) pre →
  xor_get_from_as x0 m t = Ok (mkXorMapped ip port).
Proof.
  intros [Hi Hf] Ht E Hp. unfold xor_get_from_as. rewrite (get_at m pre post t _ _ E Hp). cbn [rbind]. unfold xor_code.
  pose proof (ip_len ip Hi) as [L1 L2]. set (xv := be 4 MAGIC_COOKIE ++ transaction_id m).
  assert (Lx : length xv = 16%nat) by (unfold xv; rewrite length_app, BigEndian.enc_length; unfold len in Ht; lia).
  destruct (xor_octets_back _ (ip_octets ip) xv eq_refl) as [La Eb]; [lia|]. set (x := (safe_xor_bytes _ _ _).1) in *.
  destruct (address_octets (ip_family ip) (xor_port port) x) as (E1 & E2 & E3 & E4);
    [unfold len in *; lia|apply family_fits|by apply xor_port_fits|].
  rewrite E1, E2, E3, E4, xor_port_twice. unfold xor_value. fold xv. unfold check_overflow, len. rewrite La.
  destruct Hi as [Hi _]. destruct ip as [o|o]; cbn [ip_octets] in *; rewrite Hi in *; clearbody x; clearbody xv; cbn in Eb |- *; by rewrite Eb.
Qed.

Lemma xor_get_total x0 m t : xor_get_from_as x0 m t ≠ Panic.
Proof.
  apply bind_total; [apply get_total|]. intros v _. cbv zeta. destruct (len v <=? 4); [done|]. destruct (_ && _); [done|].
  apply bind_total; [unfold check_overflow; by case_match|]. intros _ _. by destruct (_ =? _).
Qed.

#[export, refine] Instance xor_laws : AttributeLaws XorMappedAddress := {|
  valid x := address_valid (xa_ip x) (xa_port x);
  code_of x tid := (ATTR_XORMAPPED_ADDRESS, xor_code (xa_ip x) (xa_port x) tid);
  reads _ := [ATTR_XORMAPPED_ADDRESS];
  asks _ _ := True
|}.
Proof.
  - done.
  - code_law.
  - intros [ip p] x0 m pre post Hx _ Ht c E Hp _. by apply (xor_get_at ATTR_XORMAPPED_ADDRESS ip p m x0 pre post _ Hx Ht E Hp).
  - intros. apply xor_get_total.
Defined.

#[export, refine] Instance peer_laws : AttributeLaws PeerAddress := {|
  valid x := address_valid (pa_ip x) (pa_port x);
  code_of x tid := (ATTR_XOR_PEER_ADDRESS, xor_code (pa_ip x) (pa_port x) tid);
  reads _ := [ATTR_XOR_PEER_ADDRESS];
  asks _ _ := True
|}.
Proof.
  - done.
  - code_law.
  - intros [ip p] x0 m pre post Hx _ Ht c E Hp _. cbn [attr_get peer_attribute].
    by rewrite (xor_get_at ATTR_XOR_PEER_ADDRESS ip p m xor_default pre post _ Hx Ht E Hp).
  - intros. apply bind_total; [apply xor_get_total|done].
Defined.

#[export, refine] Instance relayed_laws : AttributeLaws RelayedAddress := {|
  valid x := address_valid (ra_ip x) (ra_port x);
  code_of x tid := (ATTR_XOR_RELAYED_ADDRESS, xor_code (ra_ip x) (ra_port x) tid);
  reads _ := [ATTR_XOR_RELAYED_ADDRESS];
  asks _ _ := True
|}.
Proof.
  - done.
  - code_law.
  - intros [ip p] x0 m pre post Hx _ Ht c E Hp _. cbn [attr_get relayed_attribute].
    by rewrite (xor_get_at ATTR_XOR_RELAYED_ADDRESS ip p m xor_default pre post _ Hx Ht E Hp).
  - intros. apply bind_total; [apply xor_get_total|done].
Defined.

(** The attributes of the three crates *)
Inductive AnyAttribute :=
  | AMapped (a : MappedAddress)
  | AXorMapped (a : XorMappedAddress)
  | APeer (a : PeerAddress)
  | ARelayed (a : RelayedAddress)
  | AText (a : TextAttribute)
  | AUnknown (a : UnknownAttributes)
  | AErrorCode (a : ErrorCodeAttribute)
  | APriority (a : PriorityAttr)
  | AControlled (a : AttrControlled)
  | AControlling (a : AttrControlling)
  | AControl (a : AttrControl)
  | AChannel (a : ChannelNumber)
  | AData (a : Data)
  | ADontFragment (a : DontFragmentAttr)
  | AEvenPort (a : EvenPort)
  | ALifetime (a : Lifetime)
  | AFamily (a : RequestedAddressFamily)
  | ATransport (a : RequestedTransport)
  | AToken (a : ReservationToken).

(** The members of the interface at the attribute in hand *)
Definition on_attribute {R : Type} (f : ∀ T (A : Attribute T), AttributeLaws T → T → R) (x : AnyAttribute) : R :=
  match x with
  | AMapped a => f _ _ _ a
  | AXorMapped a => f _ _ _ a
  | APeer a => f _ _ _ a
  | ARelayed a => f _ _ _ a
  | AText a => f _ _ _ a
  | AUnknown a => f _ _ _ a
  | AErrorCode a => f _ _ _ a
  | APriority a => f _ _ _ a
  | AControlled a => f _ _ _ a
  | AControlling a => f _ _ _ a
  | AControl a => f _ _ _ a
  | AChannel a => f _ _ _ a
  | AData a => f _ _ _ a
  | ADontFragment a => f _ _ _ a
  | AEvenPort a => f _ _ _ a
  | ALifetime a => f _ _ _ a
  | AFamily a => f _ _ _ a
  | ATransport a => f _ _ _ a
  | AToken a => f _ _ _ a
  end.

Definition any_add : AnyAttribute → sm Message unit := on_attribute (λ T A _ a, attr_add a).
Definition any_get (x : AnyAttribute) (m : Message) : res AnyAttribute :=
  match x with
  | AMapped a => let! b := attr_get a m in Ok (AMapped b)
  | AXorMapped a => let! b := attr_get a m in Ok (AXorMapped b)
  | APeer a => let! b := attr_get a m in Ok (APeer b)
  | ARelayed a => let! b := attr_get a m in Ok (ARelayed b)
  | AText a => let! b := attr_get a m in Ok (AText b)
  | AUnknown a => let! b := attr_get a m in Ok (AUnknown b)
  | AErrorCode a => let! b := attr_get a m in Ok (AErrorCode b)
  | APriority a => let! b := attr_get a m in Ok (APriority b)
  | AControlled a => let! b := attr_get a m in Ok (AControlled b)
  | AControlling a => let! b := attr_get a m in Ok (AControlling b)
  | AControl a => let! b := attr_get a m in Ok (AControl b)
  | AChannel a => let! b := attr_get a m in Ok (AChannel b)
  | AData a => let! b := attr_get a m in Ok (AData b)
  | ADontFragment a => let! b := attr_get a m in Ok (ADontFragment b)
  | AEvenPort a => let! b := attr_get a m in Ok (AEvenPort b)
  | ALifetime a => let! b := attr_get a m in Ok (ALifetime b)
  | AFamily a => let! b := attr_get a m in Ok (AFamily b)
  | ATransport a => let! b := attr_get a m in Ok (ATransport b)
  | AToken a => let! b := attr_get a m in Ok (AToken b)
  end.
Definition any_asks (x0 x : AnyAttribute) : Prop :=
  match x0, x with
  | AMapped a0, AMapped a => asks a0 a
  | AXorMapped a0, AXorMapped a => asks a0 a
  | APeer a0, APeer a => asks a0 a
  | ARelayed a0, ARelayed a => asks a0 a
  | AText a0, AText a => asks a0 a
  | AUnknown a0, AUnknown a => asks a0 a
  | AErrorCode a0, AErrorCode a => asks a0 a
  | APriority a0, APriority a => asks a0 a
  | AControlled a0, AControlled a => asks a0 a
  | AControlling a0, AControlling a => asks a0 a
  | AControl a0, AControl a => asks a0 a
  | AChannel a0, AChannel a => asks a0 a
  | AData a0, AData a => asks a0 a
  | ADontFragment a0, ADontFragment a => asks a0 a
  | AEvenPort a0, AEvenPort a => asks a0 a
  | ALifetime a0, ALifetime a => asks a0 a
  | AFamily a0, AFamily a => asks a0 a
  | ATransport a0, ATransport a => asks a0 a
  | AToken a0, AToken a => asks a0 a
  | _, _ => False
  end.

#[export] Instance any_attribute : Attribute AnyAttribute := {| attr_add := any_add; attr_get := any_get |}.

#[export, refine] Instance any_laws : AttributeLaws AnyAttribute := {|
  valid := on_attribute (λ T A L a, valid a);
  code_of x tid := on_attribute (λ T A L a, code_of a tid) x;
  reads := on_attribute (λ T A L a, reads a);
  asks := any_asks
|}.
Proof.
  - intros [a|a|a|a|a|a|a|a|a|a|a|a|a|a|a|a|a|a|a] m Hx; exact (law_add a m Hx).
  - intros [a|a|a|a|a|a|a|a|a|a|a|a|a|a|a|a|a|a|a] tid Hx Ht; exact (law_code a tid Hx Ht).
  - intros [x|x|x|x|x|x|x|x|x|x|x|x|x|x|x|x|x|x|x] [y|y|y|y|y|y|y|y|y|y|y|y|y|y|y|y|y|y|y] m pre post Hx Hask Ht c E Hp Hq; try done;
      cbn [attr_get any_attribute any_get]; by rewrite (law_get x y m pre post Hx Hask Ht E Hp Hq).
  - intros [a|a|a|a|a|a|a|a|a|a|a|a|a|a|a|a|a|a|a] m; (apply bind_total; [exact (law_total a m)|done]).
Defined.

(** * Attributes across the wire *)

Section Transfer.
Context {SC : StunCrypto}.

Lemma run_setters_same a s s' b m m' :
  run_setters a m = (Ok tt, m') → s m' = s' m' → run_setters (a ++ [s] ++ b) m = run_setters (a ++ [s'] ++ b) m.
Proof.
  intros Ha E. rewrite !(run_setters_app a), !(sbind_Ok _ _ _ _ _ Ha). cbn [run_setters app]. unfold sbind. by rewrite E.
Qed.

(** The setters of a protected message with the attribute [x] behind [pre] and before [post] *)
Definition setters_with (key : bytes) (t : MessageType) (tid : bytes) (pre : list RawAttribute) (s : sm Message unit) (post : list RawAttribute) :
    list (sm Message unit) :=
  ([type_add_to t; transaction_id_add_to tid] ++ (raw_add_to <$> pre)) ++ [s] ++ (raw_add_to <$> post) ++ [integrity_add_to key; fingerprint_add_to].

Lemma setters_with_raw key t tid pre a post :
  setters_with key t tid pre (raw_add_to a) post = add_to <$> protected_setters key t tid (pre ++ a :: post).
Proof.
  unfold setters_with, protected_setters. rewrite !fmap_app. cbn [fmap list_fmap app add_to]. rewrite <-!app_assoc. cbn [app].
  by rewrite <-!list_fmap_compose.
Qed.

Lemma attribute_transfer_spec {T} `{AttributeLaws T} key t tid pre (x x0 : T) post m0 m1 :
  valid x → asks x0 x → type_ok t → len tid = 12 → len (transaction_id m0) = 12 →
  Forall attr_wf (pre ++ post) →
  Forall (λ a, attr_typ a ∉ ATTR_MESSAGE_INTEGRITY :: ATTR_FINGERPRINT :: reads x) (pre ++ post) →
  fits 16 (len (body (pre ++ post)) + attr_size (len (code_of x tid).2) + 32) →
  ∃ m,
    build (setters_with key t tid pre (attr_add x) post) m0 = (Ok tt, m) ∧
    unmarshal_binary (raw m) m1 = (Ok tt, m) ∧
    integrity_check key m = (Ok tt, m) ∧ fingerprint_check m = Ok tt ∧ attr_get x0 m = Ok x.
Proof.
  intros Hx Hask HT Ht Ht0 [Hpre Hpost]%Forall_app Hno Hf.
  pose proof (law_code x tid Hx Ht) as (Hin & Htf & Ht1 & Ht2 & Ht3).
  set (c := code_of x tid) in *. set (a := mkAttr c.1 (len c.2) c.2). pose proof (len_nonneg (body pre)) as N1. pose proof (len_nonneg (body post)) as N2.
  pose proof (padded_bounds _ (len_nonneg c.2)) as Pb. pose proof (len_nonneg c.2) as N3. rewrite body_app, len_app in Hf.
  assert (Lb : len (body (pre ++ a :: post)) = len (body (pre ++ post)) + attr_size (len c.2)).
  { rewrite !body_app, !len_app. change (body (a :: post)) with (attr_bytes a ++ body post). rewrite len_app, len_attr_bytes. cbn [a attr_value]. lia. }
  assert (Ha : attr_wf a) by (split_and!; try done; unfold a, attr_size, ATTRIBUTE_HEADER_SIZE, fits in *; cbn [attr_length]; lia).
  destruct (protected_message_spec key t tid (pre ++ a :: post) m0 m1) as (E1 & _ & E3 & E4 & E5); [done..| | | |].
  { apply Forall_app. by split; [|constructor]. }
  { apply Forall_app in Hno as [Hno1 Hno2]. apply Forall_app. split; [|constructor; [split; cbn [attr_typ a]; intros Eq; by rewrite Eq in Hin|]];
    (eapply Forall_impl; [eassumption|]); intros b Hb; (split; intros Eq; apply Hb; rewrite Eq; set_solver-). }
  { rewrite Lb, body_app, len_app. unfold fits in *. lia. }
  eexists. split_and!; [|exact E3|exact E4|exact E5|].
  - rewrite <-E1, <-setters_with_raw. rewrite !build_run by done. unfold setters_with.
    apply (run_setters_same _ _ _ _ _ (packed t tid pre)); [|by apply (law_add x (packed t tid pre))].
    rewrite run_setters_app. erewrite sbind_Ok; cycle 1.
    { cbn [run_setters]. erewrite sbind_Ok by by apply type_add_packed. erewrite sbind_Ok by by apply transaction_id_add_packed. reflexivity. }
    apply (raw_adds_packed pre [] t tid Ht); [eapply Forall_impl; [exact Hpre|by intros ? []]|].
    cbn [app]. unfold attr_size, ATTRIBUTE_HEADER_SIZE, fits in *. lia.
  - apply (law_get x x0 _ pre (post ++ [integrity_attr key t tid (pre ++ a :: post);
      fingerprint_attr t tid ((pre ++ a :: post) ++ [integrity_attr key t tid (pre ++ a :: post)])]) Hx Hask); [done|..].
    + unfold packed, protected_attrs. cbn [attributes]. by rewrite <-app_assoc.
    + apply Forall_app in Hno as [Hno1 Hno2]. eapply Forall_impl; [exact Hno1|]. set_solver.
    + apply Forall_app in Hno as [_ Hno2]. apply Forall_app. split; [eapply Forall_impl; [exact Hno2|set_solver]|by repeat constructor].
Qed.

(** An attribute of STUN, ICE or TURN that one peer sets on a protected message, between any
    other attributes, is the attribute the other peer reads out of the octets; the message passes
    both checks.  For an XOR-ed address this undoes the XOR with cookie and transaction. *)
Theorem attribute_transfer key t tid pre (x x0 : AnyAttribute) post m0 m1 :
  valid x → asks x0 x → type_ok t → len tid = 12 → len (transaction_id m0) = 12 →
  Forall attr_wf (pre ++ post) →
  Forall (λ a, attr_typ a ∉ ATTR_MESSAGE_INTEGRITY :: ATTR_FINGERPRINT :: reads x) (pre ++ post) →
  fits 16 (len (body (pre ++ post)) + attr_size (len (code_of x tid).2) + 32) →
  ∃ m,
    build (setters_with key t tid pre (any_add x) post) m0 = (Ok tt, m) ∧
    unmarshal_binary (raw m) m1 = (Ok tt, m) ∧
    integrity_check key m = (Ok tt, m) ∧ fingerprint_check m = Ok tt ∧ any_get x0 m = Ok x.
Proof. exact (attribute_transfer_spec key t tid pre x x0 post m0 m1). Qed.

(** Reading any attribute out of any message returns: the value, or an error; never a panic,
    whatever the sizes of the values in the message. *)
Theorem attribute_getters_total (x0 : AnyAttribute) m : any_get x0 m ≠ Panic.
Proof. exact (law_total (AttributeLaws := any_laws) x0 m). Qed.

End Transfer.

(** ** Channel data *)

Lemma channel_header_fresh c :
  channel_write_header (mkChannelData (cd_data c) (cd_number c) []) = Ok (be 2 (channel_number (cd_number c)) ++ be 2 (u16 (len (cd_data c)))).
Proof.
  unfold channel_write_header. cbn [cd_raw cd_number cd_data app].
  change (replicate 4 0) with (([] : bytes) ++ replicate 2 0 ++ replicate 2 0).
  change (len _ <? _) with true. cbv iota. rewrite (copy_at_mid 0) by done. cbn [rbind app].
  rewrite (copy_at_end 2) by done. done.
Qed.

Lemma channel_encode_eq d n c0 :
  fits 16 (len d) →
  channel_encode (mkChannelData d n c0) = Ok (mkChannelData d n (be 2 (channel_number n) ++ be 2 (len d) ++ d ++ padding (len d))).
Proof.
  intros Hd. unfold channel_encode. rewrite channel_header_fresh. cbn [rbind cd_data cd_number]. rewrite wrap_small by done.
  assert (L : len ((be 2 (channel_number n) ++ be 2 (len d)) ++ d) = 4 + len d) by (rewrite !len_app, !len_be; lia).
  assert (P : nearest_padded_value_length (4 + len d) - (4 + len d) = nearest_padded_value_length (len d) - len d).
  { unfold nearest_padded_value_length, PADDING. replace ((4 + len d) / 4) with (len d / 4 + 1) by (Z.div_mod_to_equations; lia).
    repeat case_match; rewrite ?Z.ltb_lt, ?Z.ltb_ge in *; lia. }
  rewrite L, P. unfold padding. do 2 f_equal. rewrite <-!app_assoc. destruct (0 <? _) eqn:E; [done|].
  apply Z.ltb_ge in E. by rewrite (Z2Nat.nonpos _ E), !app_nil_r.
Qed.

(** Channel data round trip: data on a valid channel is encoded to a multiple of four octets
    that is recognised as channel data, and decoding them, whatever octets follow, gives number
    and data back. *)
Theorem channel_data_roundtrip d n c0 rest :
  channel_valid n = true → fits 16 (len d + len rest + 3) →
  ∃ c, channel_encode (mkChannelData d n c0) = Ok c ∧ cd_data c = d ∧ cd_number c = n ∧ len (cd_raw c) mod 4 = 0 ∧
    is_channel_data (cd_raw c ++ rest) = true ∧
    ∀ d0 n0, channel_decode (mkChannelData d0 n0 (cd_raw c ++ rest)) = (Ok tt, mkChannelData d n (cd_raw c ++ rest)).
Proof.
  intros Hn Hf. pose proof (len_nonneg d) as Nd. pose proof (len_nonneg rest) as Nr. pose proof (padded_bounds (len d) Nd) as Pb.
  assert (Hd : fits 16 (len d)) by (unfold fits in *; lia). eexists. split; [by apply channel_encode_eq|]. cbn [cd_data cd_number cd_raw].
  assert (Hc : fits 16 (channel_number n)).
  { unfold channel_valid in Hn. apply andb_true_iff in Hn as [H1%Z.leb_le H2%Z.leb_le]. unfold MIN_CHANNEL_NUMBER, MAX_CHANNEL_NUMBER, fits in *. lia. }
  set (w := be 2 (channel_number n) ++ be 2 (len d) ++ d ++ padding (len d)).
  assert (Ew : w ++ rest = be 2 (channel_number n) ++ be 2 (len d) ++ (d ++ padding (len d) ++ rest)) by (unfold w; by rewrite <-!app_assoc).
  assert (Lw : len w = 4 + nearest_padded_value_length (len d)) by (unfold w; rewrite !len_app, !len_be, len_value_padding by done; lia).
  assert (Lt : len (d ++ padding (len d) ++ rest) = nearest_padded_value_length (len d) + len rest) by (rewrite !len_app, len_value_padding by done; lia).
  assert (Ln : len (w ++ rest) = 4 + len (d ++ padding (len d) ++ rest)) by (rewrite len_app, Lw, Lt; lia).
  split_and!; [done|done|..].
  - rewrite Lw. unfold nearest_padded_value_length, PADDING. case_match; Z.div_mod_to_equations; lia.
  - unfold is_channel_data. rewrite Ln, (proj2 (Z.ltb_ge _ _)) by (rewrite Lt; unfold CHANNEL_DATA_HEADER_SIZE; lia). rewrite Ew.
    change 4%nat with (2 + 2)%nat. rewrite <-drop_drop, !drop_app_length' by by rewrite BigEndian.enc_length. rewrite !of_be_app, Lt by done.
    rewrite wrap_small by (unfold fits in *; lia). rewrite (proj2 (Z.ltb_ge _ _)) by lia. by destruct n.
  - intros d0 n0. unfold channel_decode. cbn [cd_raw cd_data]. rewrite Ln, (proj2 (Z.ltb_ge _ _)) by (rewrite Lt; unfold CHANNEL_DATA_HEADER_SIZE; lia).
    rewrite Ew. change 4%nat with (2 + 2)%nat. rewrite <-drop_drop, !drop_app_length' by by rewrite BigEndian.enc_length. rewrite !of_be_app, Lt by done.
    destruct n as [n]. cbn [channel_number] in *. rewrite Hn. cbn [negb]. rewrite (proj2 (Z.ltb_ge _ _)) by lia.
    by rewrite take_app_length' by (unfold len; lia).
Qed.

(** ** The theorems at concrete values *)

Import ToyStun.

Definition sample_address : AnyAttribute := AXorMapped (mkXorMapped (V4 [192; 0; 2; 1]) 32853).

Lemma attribute_transfer_witness :
  ∃ m,
    build (setters_with sample_key BINDING_SUCCESS sample_tid sample_attrs (any_add sample_address) []) message_new = (Ok tt, m) ∧
    unmarshal_binary (raw m) message_new = (Ok tt, m) ∧
    integrity_check sample_key m = (Ok tt, m) ∧ fingerprint_check m = Ok tt ∧ any_get (AXorMapped xor_default) m = Ok sample_address.
Proof.
  apply (attribute_transfer sample_key BINDING_SUCCESS sample_tid sample_attrs sample_address (AXorMapped xor_default) [] message_new message_new).
  - split; [split; [reflexivity|repeat constructor; concrete]|concrete].
  - exact I.
  - split; concrete.
  - reflexivity.
  - reflexivity.
  - exact sample_attrs_wf.
  - repeat constructor; not_listed.
  - concrete.
Defined.

Lemma channel_data_roundtrip_witness :
  ∃ c, channel_encode (mkChannelData [1; 2; 3] (mkChannel 0x4001) []) = Ok c ∧ cd_data c = [1; 2; 3] ∧ cd_number c = mkChannel 0x4001 ∧
    len (cd_raw c) mod 4 = 0 ∧ is_channel_data (cd_raw c ++ [9]) = true ∧
    ∀ d0 n0, channel_decode (mkChannelData d0 n0 (cd_raw c ++ [9])) = (Ok tt, mkChannelData [1; 2; 3] (mkChannel 0x4001) (cd_raw c ++ [9])).
Proof. apply (channel_data_roundtrip [1; 2; 3] (mkChannel 0x4001) [] [9]); [reflexivity|concrete]. Defined.

(** The getter of EVEN-PORT leaves a flag that the message does not have. *)
Example even_port_sticks :
  let m := packed BINDING_REQUEST sample_tid [mkAttr ATTR_EVEN_PORT 1 [0]] in
  any_get (AEvenPort (mkEvenPort true)) m = Ok (AEvenPort (mkEvenPort true)) ∧
  any_get (AEvenPort (mkEvenPort false)) m = Ok (AEvenPort (mkEvenPort false)).
Proof. vm_compute. done. Qed.
