(* ===== verification/StunClient.v ===== *)
(** The STUN client ([rtc-stun/src/agent.rs], [client.rs]): the transactions under way, their
    retransmission, and the events the application gets.

    Times are numbers.  The clock is read by the caller: [now] is one argument of an operation, as
    if every reading of the clock during it gave the same time.  Where the source goes through a
    [HashMap], the model takes the order of [map_to_list]; no theorem depends on that order. *)

From S2P Require Import Prelude Stun.

(** * The agent *)

Record AgentTransaction := mkAgentTx { at_id : bytes; at_deadline : Z }.

Inductive StunEvent :=
  | AgentClosed
  | TransactionStopped
  | TransactionTimeOut
  | MessageEvent (m : Message).

Record Event := mkEvent { ev_id : bytes; ev_evt : StunEvent }.

Record Agent := mkAgent {
  agent_transactions : gmap bytes AgentTransaction;
  agent_closed : bool;
  events_queue : list Event
}.
Definition eta_agent (a : Agent) : Agent := mkAgent (agent_transactions a) (agent_closed a) (events_queue a).
#[export] Instance set_agent_transactions : Setter agent_transactions.
Proof. make_setter eta_agent agent_transactions. Defined.
#[export] Instance set_agent_closed : Setter agent_closed.
Proof. make_setter eta_agent agent_closed. Defined.
#[export] Instance set_events_queue : Setter events_queue.
Proof. make_setter eta_agent events_queue. Defined.

Definition agent_new : Agent := mkAgent ∅ false [].

Definition agent_process (message : Message) : sm Agent unit := λ a,
  if agent_closed a then (Err ErrAgentClosed, a)
  else
    (Ok tt, a <| agent_transactions ::= delete (transaction_id message) |>
              <| events_queue ::= λ q, q ++ [mkEvent (transaction_id message) (MessageEvent message)] |>).

Definition agent_close : sm Agent unit := λ a,
  if agent_closed a then (Err ErrAgentClosed, a)
  else
    (Ok tt, a <| events_queue ::= λ q, q ++ ((λ p, mkEvent p.1 AgentClosed) <$> map_to_list (agent_transactions a)) |>
              <| agent_transactions := ∅ |> <| agent_closed := true |>).

Definition agent_start (id : bytes) (deadline : Z) : sm Agent unit := λ a,
  if agent_closed a then (Err ErrAgentClosed, a)
  else match agent_transactions a !! id with
  | Some _ => (Err ErrTransactionExists, a)
  | None => (Ok tt, a <| agent_transactions ::= <[id := mkAgentTx id deadline]> |>)
  end.

Definition agent_stop (id : bytes) : sm Agent unit := λ a,
  if agent_closed a then (Err ErrAgentClosed, a)
  else
    let v := agent_transactions a !! id in
    let a := a <| agent_transactions ::= delete id |> in
    match v with
    | Some t => (Ok tt, a <| events_queue ::= λ q, q ++ [mkEvent (at_id t) TransactionStopped] |>)
    | None => (Err ErrTransactionNotExists, a)
    end.

(** The identifiers [collect] removes *)
Definition expired (deadline : Z) (ts : gmap bytes AgentTransaction) : list bytes :=
  (filter (λ p, at_deadline p.2 < deadline) (map_to_list ts)).*1.

Definition agent_collect (deadline : Z) : sm Agent unit := λ a,
  if agent_closed a then (Err ErrAgentClosed, a)
  else
    let to_remove := expired deadline (agent_transactions a) in
    (Ok tt, a <| agent_transactions ::= λ ts, foldr delete ts to_remove |>
              <| events_queue ::= λ q, q ++ ((λ id, mkEvent id TransactionTimeOut) <$> to_remove) |>).

(** [Agent::poll_timeout]: the earliest deadline *)
Definition agent_poll_timeout (a : Agent) : option Z :=
  foldl (λ d p, match d with
                | None => Some (at_deadline p.2)
                | Some x => if at_deadline p.2 <? x then Some (at_deadline p.2) else Some x
                end) None (map_to_list (agent_transactions a)).

(** * The client *)

Record ClientTransaction := mkClientTx { ct_id : bytes; attempt : Z; ct_start : Z; ct_rto : Z; ct_raw : bytes }.
Definition eta_ct (c : ClientTransaction) : ClientTransaction := mkClientTx (ct_id c) (attempt c) (ct_start c) (ct_rto c) (ct_raw c).
#[export] Instance set_attempt : Setter attempt.
Proof. make_setter eta_ct attempt. Defined.

Definition next_timeout (c : ClientTransaction) (now : Z) : Z := now + (attempt c + 1) * ct_rto c.

Record ClientSettings := mkSettings { buffer_size : Z; rto : Z; rto_rate : Z; max_attempts : Z; settings_closed : bool }.
Definition eta_settings (c : ClientSettings) : ClientSettings := mkSettings (buffer_size c) (rto c) (rto_rate c) (max_attempts c) (settings_closed c).
#[export] Instance set_settings_closed : Setter settings_closed.
Proof. make_setter eta_settings settings_closed. Defined.
#[export] Instance set_max_attempts : Setter max_attempts.
Proof. make_setter eta_settings max_attempts. Defined.
#[export] Instance set_rto : Setter rto.
Proof. make_setter eta_settings rto. Defined.

(** Durations in milliseconds *)
Definition DEFAULT_RTO : Z := 300.
Definition DEFAULT_MAX_ATTEMPTS : Z := 7.
Definition settings_default : ClientSettings := mkSettings 8 DEFAULT_RTO 5 DEFAULT_MAX_ATTEMPTS false.
Definition with_rto (d : Z) (s : ClientSettings) : ClientSettings := s <| rto := d |>.
Definition with_no_retransmit (s : ClientSettings) : ClientSettings :=
  let s := s <| max_attempts := 0 |> in
  if rto s =? 0 then s <| rto := DEFAULT_MAX_ATTEMPTS * DEFAULT_RTO |> else s.

Section Client.
(** [TransportContext]: the addresses and the protocol of the client *)
Context {Route : Type}.

Record TransportMessage := mkTransmit { tm_now : Z; tm_route : Route; tm_message : bytes }.

Record Client := mkClient {
  route : Route;
  agent : Agent;
  settings : ClientSettings;
  transactions : gmap bytes ClientTransaction;
  transmits : list TransportMessage
}.
Definition eta_client (c : Client) : Client := mkClient (route c) (agent c) (settings c) (transactions c) (transmits c).
#[export] Instance set_agent : Setter agent.
Proof. make_setter eta_client agent. Defined.
#[export] Instance set_settings : Setter settings.
Proof. make_setter eta_client settings. Defined.
#[export] Instance set_transactions : Setter transactions.
Proof. make_setter eta_client transactions. Defined.
#[export] Instance set_transmits : Setter transmits.
Proof. make_setter eta_client transmits. Defined.

Definition client_new (r : Route) (s : ClientSettings) : Client := mkClient r agent_new s ∅ [].

(** [self.agent.handle_event(..)] *)
Definition on_agent (f : sm Agent unit) : sm Client unit := λ c,
  let (r, a) := f (agent c) in (r, c <| agent := a |>).

Definition transmit (now : Z) (payload : bytes) : sm Client unit :=
  smodify (λ c, c <| transmits ::= λ l, l ++ [mkTransmit now (route c) payload] |>).

(** [self.transactions.entry(ct.id).or_insert(ct)] *)
Definition or_insert (ct : ClientTransaction) (ts : gmap bytes ClientTransaction) : gmap bytes ClientTransaction :=
  match ts !! ct_id ct with Some _ => ts | None => <[ct_id ct := ct]> ts end.

Definition handle_read (datagram : bytes) : sm Client unit := λ c,
  match read_from datagram message_new with
  | (Ok _, m) => on_agent (agent_process m) c
  | (Err e, _) => (Err e, c)
  | (Panic, _) => (Panic, c)
  end.

Definition handle_write (now : Z) (m : Message) : sm Client unit := λ c,
  if settings_closed (settings c) then (Err ErrClientClosed, c)
  else
    let payload := raw m in
    let ct := mkClientTx (transaction_id m) 0 now (rto (settings c)) (raw m) in
    let deadline := next_timeout ct (ct_start ct) in
    (do! _ <- smodify (λ c, c <| transactions ::= or_insert ct |>);
     do! _ <- on_agent (agent_start (transaction_id m) deadline);
     transmit now payload) c.

Definition poll_write : Client → option TransportMessage * Client := λ c,
  match transmits c with
  | [] => (None, c)
  | t :: l => (Some t, c <| transmits := l |>)
  end.

(** The next attempt of a transaction in [poll_event] *)
Definition retry (now : Z) (ct : ClientTransaction) : sm Client unit :=
  let ct := ct <| attempt ::= Z.succ |> in
  let payload := ct_raw ct in
  let timeout := next_timeout ct now in
  let id := ct_id ct in
  do! _ <- smodify (λ c, c <| transactions ::= or_insert ct |>);
  do! _ <- on_agent (agent_start id timeout);
  transmit now payload.

(** The loop of [poll_event] over the events [q] of the agent *)
Fixpoint poll_loop (now : Z) (q : list Event) (c : Client) : option StunEvent * Client :=
  match q with
  | [] => (None, c <| agent ::= λ a, a <| events_queue := [] |> |>)
  | e :: q =>
      let c := c <| agent ::= λ a, a <| events_queue := q |> |> in
      match transactions c !! ev_id e with
      | None => poll_loop now q c
      | Some ct =>
          let c := c <| transactions ::= delete (ev_id e) |> in
          match ev_evt e with
          | MessageEvent m => (Some (MessageEvent m), c)
          | evt =>
              if max_attempts (settings c) <=? attempt ct then (Some evt, c)
              else
                match retry now ct c with
                | (Ok _, c) => poll_loop now q c
                | (_, c) => (Some evt, c <| transactions ::= delete (ct_id ct) |>)
                end
          end
      end
  end.

Definition poll_event (now : Z) (c : Client) : option StunEvent * Client := poll_loop now (events_queue (agent c)) c.

Definition poll_timeout (c : Client) : option Z := agent_poll_timeout (agent c).
Definition handle_timeout (now : Z) : sm Client unit := on_agent (agent_collect now).

Definition client_close : sm Client unit := λ c,
  if settings_closed (settings c) then (Err ErrClientClosed, c)
  else (do! _ <- smodify (λ c, c <| settings ::= λ s, s <| settings_closed := true |> |>); on_agent agent_close) c.

End Client.
Arguments Client Route : clear implicits.
Arguments TransportMessage Route : clear implicits.

(** * Requests without an answer *)

Section Unanswered.
Context {Route : Type}.
Implicit Types (c : Client Route) (r : Route).

(** The client with one transaction under way: [n] retransmissions so far, the last of [sent] at
    time [t] *)
Definition waiting r (s : ClientSettings) (id payload : bytes) (t0 n t : Z) (sent : list Z) : Client Route :=
  mkClient r (mkAgent {[id := mkAgentTx id (t + (n + 1) * rto s)]} false []) s
    {[id := mkClientTx id n t0 (rto s) payload]} ((λ t, mkTransmit t r payload) <$> sent).

(** The driver at time [now]: the timeout, then the events *)
Definition tick (now : Z) c : option StunEvent * Client Route := poll_event now (handle_timeout now c).2.
Fixpoint ticks (l : list Z) c : list (option StunEvent) * Client Route :=
  match l with
  | [] => ([], c)
  | now :: l => let (r, c) := tick now c in let (rs, c) := ticks l c in (r :: rs, c)
  end.

(** Each reading of the clock is past the deadline that the one before it set. *)
Fixpoint late (rto t n : Z) (l : list Z) : Prop :=
  match l with
  | [] => True
  | now :: l => t + (n + 1) * rto < now ∧ late rto now (n + 1) l
  end.

Lemma handle_write_waiting r s m now :
  settings_closed s = false →
  handle_write now m (client_new r s) = (Ok tt, waiting r s (transaction_id m) (raw m) now 0 now [now]).
Proof.
  intros Hs. unfold handle_write, client_new. cbn [settings]. rewrite Hs.
  unfold sbind, smodify, on_agent, agent_start, set, set_transactions, set_agent, transmit, smodify, set, set_transmits, or_insert. cbn.
  rewrite !lookup_empty. cbn. unfold waiting, set, set_agent_transactions. cbn. by rewrite !insert_empty.
Qed.

Lemma collect_waiting now id d q :
  d < now → agent_collect now (mkAgent {[id := mkAgentTx id d]} false q) = (Ok tt, mkAgent ∅ false (q ++ [mkEvent id TransactionTimeOut])).
Proof.
  intros Hd. unfold agent_collect, expired. cbn [agent_closed agent_transactions]. rewrite map_to_list_singleton.
  rewrite filter_cons_True by done. unfold set, set_agent_transactions, set_events_queue. cbn. by rewrite delete_singleton_eq.
Qed.

Lemma tick_waiting r s id payload t0 n t sent now :
  t + (n + 1) * rto s < now →
  tick now (waiting r s id payload t0 n t sent) =
    if max_attempts s <=? n
    then (Some TransactionTimeOut, mkClient r agent_new s ∅ ((λ t, mkTransmit t r payload) <$> sent))
    else (None, waiting r s id payload t0 (n + 1) now (sent ++ [now])).
Proof.
  intros Ht. unfold tick, handle_timeout, on_agent, waiting. cbn [agent]. rewrite (collect_waiting now id _ [] Ht).
  unfold poll_event, set, set_agent. cbn [snd agent events_queue app poll_loop ev_id transactions settings ev_evt].
  unfold set, set_agent, set_events_queue, set_transactions. cbn [agent transactions ev_id ev_evt settings events_queue agent_transactions agent_closed].
  rewrite lookup_singleton_eq. cbn [attempt]. destruct (max_attempts s <=? n) eqn:E; [by rewrite delete_singleton_eq|].
  unfold retry, sbind, smodify, on_agent, agent_start, transmit, smodify, set, set_attempt, set_transactions, set_agent, set_agent_transactions, set_transmits. cbn. rewrite delete_singleton_eq. unfold or_insert.
  rewrite lookup_empty. cbn. rewrite !insert_empty. unfold next_timeout. cbn. rewrite fmap_app. cbn. by replace (Z.succ n) with (n + 1) by lia.
Qed.

Lemma ticks_waiting r s id payload t0 l n t sent :
  n <= max_attempts s → late (rto s) t n l → Z.of_nat (length l) = max_attempts s - n + 1 →
  ticks l (waiting r s id payload t0 n t sent)
  = (replicate (Z.to_nat (max_attempts s - n)) None ++ [Some TransactionTimeOut],
     mkClient r agent_new s ∅ ((λ t, mkTransmit t r payload) <$> sent ++ take (Z.to_nat (max_attempts s - n)) l)).
Proof.
  revert n t sent. induction l as [|now l IH]; intros n t sent Hn Hl Hlen; cbn [length] in Hlen; [lia|]. destruct Hl as [Ht Hl].
  cbn [ticks]. rewrite tick_waiting by done. destruct (max_attempts s <=? n) eqn:E.
  - apply Z.leb_le in E. assert (n = max_attempts s) as -> by lia. rewrite Z.sub_diag. destruct l; [|cbn [length] in Hlen; lia].
    cbn. by rewrite app_nil_r.
  - apply Z.leb_gt in E. rewrite IH by (done || lia). replace (Z.to_nat (max_attempts s - n)) with (S (Z.to_nat (max_attempts s - (n + 1)))) by lia.
    cbn [replicate take app]. by rewrite <-app_assoc.
Qed.

(** C31: A request that is never answered is sent once and then once more per timeout, at most
    [max_attempts] times, the [n]-th wait lasting [n] times the retransmission timeout; the
    timeout after the last of them gives the application the one event that the transaction
    timed out, and the client holds nothing of it any more. *)
Theorem unanswered_request r s m t0 l :
  settings_closed s = false → 0 <= max_attempts s →
  late (rto s) t0 0 l → Z.of_nat (length l) = max_attempts s + 1 →
  ticks l (handle_write t0 m (client_new r s)).2
  = (replicate (Z.to_nat (max_attempts s)) None ++ [Some TransactionTimeOut],
     mkClient r agent_new s ∅ ((λ t, mkTransmit t r (raw m)) <$> t0 :: take (Z.to_nat (max_attempts s)) l)).
Proof.
  intros Hs Hm Hl Hlen. rewrite handle_write_waiting by done. cbn [snd].
  rewrite ticks_waiting by (done || lia). by rewrite Z.sub_0_r.
Qed.

(** A timeout at the very deadline that [poll_timeout] gives is too early. *)
Lemma timeout_at_deadline_ignored r s id payload t0 n t sent :
  let c := waiting r s id payload t0 n t sent in
  poll_timeout c = Some (t + (n + 1) * rto s) ∧ tick (t + (n + 1) * rto s) c = (None, c).
Proof.
  unfold waiting, poll_timeout, agent_poll_timeout, tick, handle_timeout, on_agent, agent_collect, expired. cbn [agent agent_transactions agent_closed].
  rewrite map_to_list_singleton. split; [done|]. rewrite filter_cons_False by (cbn; lia). done.
Qed.

End Unanswered.

(** * Events and transactions *)

Section Accounting.
Context {Route : Type}.
Implicit Types (c : Client Route).

(** What holds of every client: the table is keyed by identifier, an agent that is closed waits
    for nothing, and an event with a message has the identifier of the message. *)
Definition event_ok (e : Event) : Prop := match ev_evt e with MessageEvent m => ev_id e = transaction_id m | _ => True end.
Definition client_inv c : Prop :=
  map_Forall (λ id ct, ct_id ct = id) (transactions c) ∧
  (agent_closed (agent c) = true → agent_transactions (agent c) = ∅) ∧
  Forall event_ok (events_queue (agent c)).

Lemma or_insert_inv ct ts : map_Forall (λ id ct, ct_id ct = id) ts → map_Forall (λ id ct, ct_id ct = id) (or_insert ct ts).
Proof. intros H. unfold or_insert. case_match; [done|]. by apply map_Forall_insert_2. Qed.

Lemma agent_start_spec id d a :
  let (res, a') := agent_start id d a in
  events_queue a' = events_queue a ∧ agent_closed a' = agent_closed a ∧
  (agent_closed a = true → agent_transactions a' = agent_transactions a) ∧ res ≠ Panic.
Proof. unfold agent_start. repeat case_match; by simplify_eq. Qed.

Lemma retry_spec now ct c :
  transactions c !! ct_id ct = None →
  let (res, c') := retry now ct c in
  res ≠ Panic ∧ (∃ ct', ct_id ct' = ct_id ct ∧ transactions c' = <[ct_id ct := ct']> (transactions c)) ∧
  events_queue (agent c') = events_queue (agent c) ∧ agent_closed (agent c') = agent_closed (agent c) ∧
  (agent_closed (agent c) = true → agent_transactions (agent c') = agent_transactions (agent c)).
Proof.
  intros Hn. unfold retry, sbind, smodify, on_agent, transmit, smodify.
  set (ct' := ct <| attempt ::= _ |>). assert (Hid : ct_id ct' = ct_id ct) by done.
  assert (Hor : or_insert ct' (transactions c) = <[ct_id ct := ct']> (transactions c)) by (unfold or_insert; by rewrite Hid, Hn).
  pose proof (agent_start_spec (ct_id ct') (next_timeout ct' now) (agent c)) as H.
  change (agent (c <| transactions ::= or_insert ct' |>)) with (agent c).
  destruct (agent_start _ _ _) as [[[]|err|] a]; destruct H as (H1 & H2 & H3 & H4); (split_and!; [done| |done..]);
    exists ct'; (split; [done|exact Hor]).
Qed.

(** The loop over the events: it closes one transaction for the event it gives, none otherwise. *)
Lemma poll_loop_spec now q c :
  map_Forall (λ id ct, ct_id ct = id) (transactions c) →
  (agent_closed (agent c) = true → agent_transactions (agent c) = ∅) → Forall event_ok q →
  let (evt, c') := poll_loop now q c in
  client_inv c' ∧
  (size (transactions c') + (if evt is Some _ then 1 else 0) = size (transactions c))%nat ∧
  match evt with
  | Some (MessageEvent m) => is_Some (transactions c !! transaction_id m) ∧ transactions c' !! transaction_id m = None
  | _ => True
  end.
Proof.
  intros Hk Hcl Hq. revert c Hk Hcl. induction Hq as [|e q He Hq IH]; intros c Hk Hcl; cbn [poll_loop].
  { split_and!; [done|apply Nat.add_0_r|done]. }
  set (c1 := c <| agent ::= _ |>). assert (E1 : transactions c1 = transactions c) by done.
  rewrite E1. destruct (transactions c !! ev_id e) as [ct|] eqn:Ect; [|by apply (IH c1)].
  assert (Hsz : (size (delete (ev_id e) (transactions c)) + 1 = size (transactions c))%nat).
  { rewrite map_size_delete_Some by done. assert (size (transactions c) ≠ 0)%nat; [|lia]. apply map_size_ne_0_lookup. by eexists _, _. }
  assert (Hid : ct_id ct = ev_id e) by by apply (Hk (ev_id e) ct).
  assert (Hk2 : map_Forall (λ id ct, ct_id ct = id) (delete (ev_id e) (transactions c))) by by apply map_Forall_delete.
  set (c2 := c1 <| transactions ::= _ |>). assert (E2 : transactions c2 = delete (ev_id e) (transactions c)) by done.
  assert (Hstop : client_inv c2 ∧ (size (transactions c2) + 1 = size (transactions c))%nat) by (rewrite E2; done).
  unfold event_ok in He. destruct (ev_evt e) as [| | |m];
    [..|split_and!; [apply Hstop..|by rewrite <-He|rewrite E2, <-He; apply lookup_delete_eq]].
  all: destruct (max_attempts _ <=? attempt ct); [split_and!; [apply Hstop..|done]|].
  all: pose proof (retry_spec now ct c2) as HR; rewrite Hid, E2 in HR; specialize (HR (lookup_delete_eq _ _));
    destruct (retry now ct c2) as [[[]|err|] c3]; destruct HR as (HP & (ct' & Hct' & E3) & Hq3 & Hc3 & Ht3); [| |done].
  all: assert (Hcl3 : agent_closed (agent c3) = true → agent_transactions (agent c3) = ∅) by (rewrite Hc3; intros Hx; rewrite Ht3; auto).
  all: assert (Hk3 : map_Forall (λ id ct, ct_id ct = id) (transactions c3)) by (rewrite E3; by apply map_Forall_insert_2).
  all: assert (Hs3 : size (transactions c3) = size (transactions c)) by (rewrite E3, map_size_insert_None by apply lookup_delete_eq; lia).
  1,3,5: specialize (IH c3 Hk3 Hcl3); rewrite Hs3 in IH; destruct (poll_loop now q c3) as [evt c4]; destruct IH as (I1 & I2 & I3);
    (split_and!; [done|done|]); destruct evt as [[]|]; try done; destruct I3 as [I3 I4]; (split; [|done]);
    rewrite E3 in I3; destruct (decide (transaction_id m = ev_id e)) as [->|Hne]; [done|by rewrite lookup_insert_ne, lookup_delete_ne in I3].
  all: assert (E4 : transactions (c3 <| transactions ::= delete (ct_id ct) |>) = delete (ev_id e) (transactions c))
    by (change (delete (ct_id ct) (transactions c3) = delete (ev_id e) (transactions c)); rewrite E3, Hid; by rewrite delete_insert_eq, delete_delete_eq).
  all: split_and!; [split_and!; [by rewrite E4|done|change (Forall event_ok (events_queue (agent c3))); by rewrite Hq3]|by rewrite E4|done].
Qed.

(** What the application and the driver do with a client *)
Inductive op :=
  | ORead (datagram : bytes)
  | OWrite (now : Z) (m : Message)
  | OPollEvent (now : Z)
  | OPollWrite
  | OTimeout (now : Z)
  | OClose.

(** The events an operation gives, the transactions it opens, and the client it leaves *)
Definition op_step (o : op) c : list StunEvent * nat * Client Route :=
  match o with
  | ORead d => ([], 0%nat, (handle_read d c).2)
  | OWrite now m =>
      ([], if settings_closed (settings c) then 0%nat else match transactions c !! transaction_id m with None => 1%nat | Some _ => 0%nat end,
       (handle_write now m c).2)
  | OPollEvent now => let (e, c) := poll_event now c in (option_list e, 0%nat, c)
  | OPollWrite => ([], 0%nat, (poll_write c).2)
  | OTimeout now => ([], 0%nat, (handle_timeout now c).2)
  | OClose => ([], 0%nat, (client_close c).2)
  end.

Fixpoint run (l : list op) c : list StunEvent * nat * Client Route :=
  match l with
  | [] => ([], 0%nat, c)
  | o :: l =>
      let '(e1, n1, c) := op_step o c in
      let '(e2, n2, c) := run l c in
      (e1 ++ e2, (n1 + n2)%nat, c)
  end.

Lemma on_agent_inv (f : sm Agent unit) c :
  client_inv c → (∀ a, let (res, a') := f a in
    (agent_closed a = true → agent_transactions a = ∅) → Forall event_ok (events_queue a) →
    (agent_closed a' = true → agent_transactions a' = ∅) ∧ Forall event_ok (events_queue a')) →
  client_inv (on_agent f c).2 ∧ transactions (on_agent f c).2 = transactions c.
Proof.
  intros (H1 & H2 & H3) Hf. unfold on_agent. specialize (Hf (agent c)). destruct (f (agent c)) as [res a'].
  destruct (Hf H2 H3). by split.
Qed.

Lemma agent_events_ok evts a :
  Forall event_ok evts → Forall event_ok (events_queue a) → Forall event_ok (events_queue a ++ evts).
Proof. intros. by apply Forall_app. Qed.

Lemma op_step_inv o c :
  client_inv c →
  let '(evts, n, c') := op_step o c in
  client_inv c' ∧ (length evts + size (transactions c') = n + size (transactions c))%nat.
Proof.
  intros Hc. destruct o as [d|now m|now| |now|]; cbn [op_step].
  - unfold handle_read. destruct (read_from d message_new) as [[k|err|] m]; [|done..].
    edestruct (on_agent_inv (agent_process m) c) as [H1 H2]; [done| |by rewrite H2].
    intros a. unfold agent_process. destruct (agent_closed a) eqn:E; [by auto|].
    intros _ Hq. split; [intros Hx; change (agent_closed a = true) in Hx; congruence|]. apply agent_events_ok; [by repeat constructor|done].
  - unfold handle_write. destruct (settings_closed (settings c)); [done|]. destruct Hc as (H1 & H2 & H3).
    set (ct := mkClientTx _ _ _ _ _). unfold sbind, smodify, transmit, smodify. set (c1 := c <| transactions ::= or_insert ct |>).
    assert (Hc1 : client_inv c1) by (split_and!; [by apply or_insert_inv|done..]).
    assert (Hs : size (transactions c1) = (match transactions c !! transaction_id m with None => 1 | Some _ => 0 end + size (transactions c))%nat).
    { change (transactions c1) with (or_insert ct (transactions c)). unfold or_insert. change (ct_id ct) with (transaction_id m).
      destruct (transactions c !! transaction_id m) eqn:E; [done|]. rewrite map_size_insert_None by done. lia. }
    edestruct (on_agent_inv (agent_start (transaction_id m) (next_timeout ct (ct_start ct))) c1) as [H4 H5]; [done| |].
    + intros a. pose proof (agent_start_spec (transaction_id m) (next_timeout ct (ct_start ct)) a) as S. destruct (agent_start _ _ a) as [res a'].
      destruct S as (S1 & S2 & S3 & _). rewrite S1, S2. intros Ha Hq. split; [|done]. intros Hcl. rewrite S3 by done. auto.
    + destruct (on_agent _ c1) as [[[]| |] c2]; cbn [snd] in *; (split; [done|]); change (size (transactions c2) = (match transactions c !! transaction_id m with None => 1 | Some _ => 0 end + size (transactions c))%nat); by rewrite H5, <-Hs.
  - destruct Hc as (H1 & H2 & H3). pose proof (poll_loop_spec now (events_queue (agent c)) c H1 H2 H3) as P. unfold poll_event.
    destruct (poll_loop _ _ _) as [e c']. destruct P as (P1 & P2 & _). split; [done|]. destruct e; cbn in *; lia.
  - unfold poll_write. by destruct (transmits c).
  - edestruct (on_agent_inv (agent_collect now) c) as [H1 H2]; [done| |by unfold handle_timeout; rewrite H2].
    intros a. unfold agent_collect. destruct (agent_closed a) eqn:E; [by auto|]. intros _ Hq. split; [intros Hx; change (agent_closed a = true) in Hx; congruence|].
    apply agent_events_ok; [by apply Forall_fmap, Forall_true|done].
  - unfold client_close. destruct (settings_closed _); [done|]. unfold sbind, smodify. set (c1 := c <| settings ::= _ |>).
    edestruct (on_agent_inv agent_close c1) as [H1 H2]; [done| |by rewrite H2].
    intros a. unfold agent_close. destruct (agent_closed a) eqn:E; [by auto|]. intros _ Hq. split; [done|].
    apply agent_events_ok; [by apply Forall_fmap, Forall_true|done].
Qed.

Lemma run_inv l c :
  client_inv c →
  let '(evts, n, c') := run l c in
  client_inv c' ∧ (length evts + size (transactions c') = n + size (transactions c))%nat.
Proof.
  revert c. induction l as [|o l IH]; intros c Hc; cbn [run]; [done|].
  pose proof (op_step_inv o c Hc) as H1. destruct (op_step o c) as [[e1 n1] c1]. destruct H1 as [Hc1 E1].
  specialize (IH c1 Hc1). destruct (run l c1) as [[e2 n2] c2]. destruct IH as [Hc2 E2]. split; [done|].
  rewrite length_app. lia.
Qed.

Definition is_write (o : op) : bool := match o with OWrite _ _ => true | _ => false end.

Lemma run_opened l c : ((run l c).1.2 ≤ length (filter is_write l))%nat.
Proof.
  revert c. induction l as [|o l IH]; intros c; cbn [run]; [done|]. destruct (op_step o c) as [[e1 n1] c1] eqn:E.
  specialize (IH c1). destruct (run l c1) as [[e2 n2] c2]. cbn [fst snd] in *. rewrite filter_cons.
  destruct o; cbn [op_step] in E; repeat case_match; simplify_eq; cbn in *; lia.
Qed.

Lemma client_new_inv r s : client_inv (client_new r s : Client Route).
Proof. split_and!; [apply map_Forall_empty|done|constructor]. Qed.

(** In every run of a client, whatever arrives and in whatever order it is driven, each event
    the application gets closes exactly one of the transactions its requests opened, so there
    are never more events than requests; and a response is handed over only if a transaction
    with its identifier is under way, which it ends: a second response to the same request, or
    one nobody asked for, is dropped. *)
Theorem transactions_accounted r s l now :
  let '(evts, n, c) := run l (client_new r s : Client Route) in
  (length evts + size (transactions c) = n)%nat ∧ (n ≤ length (filter is_write l))%nat ∧
  match poll_event now c with
  | (Some (MessageEvent m), c') => is_Some (transactions c !! transaction_id m) ∧ transactions c' !! transaction_id m = None
  | _ => True
  end.
Proof.
  pose proof (run_inv l _ (client_new_inv r s)) as H. pose proof (run_opened l (client_new r s)) as Ho.
  destruct (run l _) as [[evts n] c]. destruct H as [Hc E]. cbn [client_new transactions] in E; rewrite map_size_empty in E. split_and!; [lia|done|].
  destruct Hc as (H1 & H2 & H3). pose proof (poll_loop_spec now (events_queue (agent c)) c H1 H2 H3) as P. unfold poll_event.
  destruct (poll_loop _ _ _) as [[[]|] c']; by destruct P as (_ & _ & P).
Qed.

End Accounting.

(** * The receive buffer *)

Lemma read_from_short w m m0 :
  holds w m → len w <= DEFAULT_RAW_CAPACITY → read_from w m0 = (Ok (len w), m).
Proof.
  intros Hm Hw. unfold read_from. rewrite Z.min_r by done. rewrite take_ge by (unfold len; lia).
  pose proof (unmarshal_complete w m m0 Hm) as E. unfold unmarshal_binary in E. unfold sbind. by rewrite E.
Qed.

Lemma read_from_long w m m0 :
  holds w m → 100 < msg_length m → (read_from w m0).1 = Err ErrOther.
Proof.
  intros (v & cs & rest & Hw & _ & _ & Ht & FL & HL & _) Hl. unfold read_from, DEFAULT_RAW_CAPACITY.
  assert (Lw : 120 < len w) by (rewrite Hw, !len_app, !len_be, Ht, <-HL; pose proof (len_nonneg rest); lia).
  rewrite Z.min_l by lia. set (w' := take (Z.to_nat 120) w).
  assert (Lw' : len w' = 120) by (unfold w'; rewrite len_take; lia).
  assert (Ew : ∃ r, w' = be 2 v ++ be 2 (msg_length m) ++ be 4 MAGIC_COOKIE ++ transaction_id m ++ r ∧ len r = 100).
  { unfold w'. rewrite Hw. exists (take (Z.to_nat 100) (concat cs ++ rest)).
    assert (Hc : len (concat cs ++ rest) = len w - 20) by (rewrite Hw, !len_app, !len_be, Ht; lia).
    split; [|rewrite len_take, Hc; lia]. rewrite !app_assoc, <-(app_assoc _ (concat cs)).
    assert (L20 : length (((be 2 v ++ be 2 (msg_length m)) ++ be 4 MAGIC_COOKIE) ++ transaction_id m) = 20%nat)
      by (rewrite !length_app, !BigEndian.enc_length; unfold len in Ht; lia).
    rewrite take_app_ge by (rewrite L20; lia). f_equal. f_equal. rewrite L20. lia. }
  destruct Ew as (r & Ew & Lr). unfold sbind, decode. record_simpl. rewrite Lw'. change (120 <? MESSAGE_HEADER_SIZE) with false. cbv iota.
  pose proof (header_fields (be 2 v) (be 2 (msg_length m)) (be 4 MAGIC_COOKIE) (transaction_id m) r) as HF. cbv zeta in HF. rewrite <-Ew in HF.
  destruct HF as (_ & E2 & E3 & _); [by rewrite BigEndian.enc_length..|unfold len in Ht; lia|].
  rewrite E2, E3, !BigEndian.dec_enc by done. rewrite Z.eqb_refl. cbn [negb].
  rewrite (proj2 (Z.ltb_lt 120 _)) by (unfold MESSAGE_HEADER_SIZE; lia). done.
Qed.

(** The client reads a response through a buffer of 120 octets: a datagram that is exactly a
    message of up to 100 octets of attributes reaches the agent as that message, and every
    longer message is refused, whatever its attributes. *)
Theorem client_receive_limit {Route} w m (c : Client Route) :
  holds w m → len w = 20 + msg_length m →
  handle_read w c = (if msg_length m <=? 100 then on_agent (agent_process m) c else (Err ErrOther, c)).
Proof.
  intros Hm Hw. unfold handle_read. destruct (Z.leb_spec (msg_length m) 100) as [Hl|Hl].
  - by rewrite (read_from_short w m) by (done || unfold DEFAULT_RAW_CAPACITY; lia).
  - pose proof (read_from_long w m message_new Hm Hl) as E. destruct (read_from w message_new) as [res m']. cbn in E. by subst res.
Qed.

(** ** The theorems at concrete values *)

Definition sample_settings : ClientSettings := mkSettings 8 300 5 2 false.

Lemma unanswered_request_witness :
  ticks [301; 902; 1803] (handle_write 0 sample_message (client_new tt sample_settings)).2
  = ([None; None; Some TransactionTimeOut],
     mkClient tt agent_new sample_settings ∅ [mkTransmit 0 tt (raw sample_message); mkTransmit 301 tt (raw sample_message); mkTransmit 902 tt (raw sample_message)]).
Proof. apply (unanswered_request tt sample_settings sample_message 0 [301; 902; 1803]); [reflexivity|vm_compute; discriminate|vm_compute; done|reflexivity]. Defined.

Lemma client_receive_limit_witness :
  handle_read (raw sample_message) (client_new tt sample_settings) = on_agent (agent_process sample_message) (client_new tt sample_settings).
Proof.
  apply (client_receive_limit (raw sample_message) sample_message (client_new tt sample_settings)); [|reflexivity].
  apply holds_packed; [split; concrete|reflexivity|concrete|exact sample_attrs_wf].
Defined.
