(* ===== verification/Ice.v ===== *)
(** ICE candidates and candidate pairs: [rtc-ice/src/candidate], [network_type], [tcp_type] and
    [state].  The priorities of candidates and pairs order the pairs of an agent.

    [pair_priority_agreed]: the two agents of a session give a pair the same priority, which fits
    its 64 bits and grows with the priorities of its candidates. *)

From stdpp Require Import strings.
From S2P Require Import Prelude Codec Stun StunAttr.

(** * Addresses *)

#[export] Instance IpAddr_eq_dec : EqDecision IpAddr.
Proof. solve_decision. Defined.

Record SocketAddr := mkSocketAddr { sa_ip : IpAddr; sa_port : Z }.
#[export] Instance SocketAddr_eq_dec : EqDecision SocketAddr.
Proof. solve_decision. Defined.

Inductive TransportProtocol := UDP | TCP.
#[export] Instance TransportProtocol_eq_dec : EqDecision TransportProtocol.
Proof. solve_decision. Defined.

(** [IpAddr] as text: [Display] and [FromStr] of the standard library, which are inverse *)
Class IpText := {
  ip_to_string : IpAddr → bytes;
  ip_parse : bytes → option IpAddr;
  ip_parse_to_string ip : ip_ok ip → ip_parse (ip_to_string ip) = Some ip
}.

Definition is_ipv4 (ip : IpAddr) : bool := match ip with V4 _ => true | V6 _ => false end.

(** * Networks *)

Inductive NetworkType := NetUnspecified | Udp4 | Udp6 | Tcp4 | Tcp6.
#[export] Instance NetworkType_eq_dec : EqDecision NetworkType.
Proof. solve_decision. Defined.

Definition network_to_string (n : NetworkType) : bytes :=
  ascii_bytes (match n with Udp4 => "udp4" | Udp6 => "udp6" | Tcp4 => "tcp4" | Tcp6 => "tcp6" | NetUnspecified => "unspecified" end)%string.

Definition is_tcp (n : NetworkType) : bool := match n with Tcp4 | Tcp6 => true | _ => false end.
Definition is_udp (n : NetworkType) : bool := match n with Udp4 | Udp6 => true | _ => false end.
Definition to_protocol (n : NetworkType) : TransportProtocol := if is_tcp n then TCP else UDP.

Definition to_lowercase (s : bytes) : bytes := (λ b, if (65 <=? b) && (b <=? 90) then b + 32 else b) <$> s.
Definition starts_with (s p : bytes) : bool := bool_decide (take (length p) s = p).
Definition ends_with (s p : bytes) : bool := bool_decide (drop (length s - length p) s = p).

Definition determine_network_type (network : bytes) (ip : IpAddr) : res NetworkType :=
  let net := to_lowercase network in
  if starts_with net (ascii_bytes "udp"%string) then Ok (if is_ipv4 ip then Udp4 else Udp6)
  else if starts_with net (ascii_bytes "tcp"%string) then Ok (if is_ipv4 ip then Tcp4 else Tcp6)
  else Err ErrDetermineNetworkType.

Inductive TcpType := TcpUnspecified | Active | Passive | SimultaneousOpen.
#[export] Instance TcpType_eq_dec : EqDecision TcpType.
Proof. solve_decision. Defined.

(** * Candidates *)

Inductive CandidateType := CandUnspecified | Host | ServerReflexive | PeerReflexive | Relay.
#[export] Instance CandidateType_eq_dec : EqDecision CandidateType.
Proof. solve_decision. Defined.

Definition preference (t : CandidateType) : Z :=
  match t with Host => 126 | PeerReflexive => 110 | ServerReflexive => 100 | Relay | CandUnspecified => 0 end.

Definition contains_candidate_type (t : CandidateType) (l : list CandidateType) : bool := existsb (λ c, bool_decide (c = t)) l.

Record CandidateRelatedAddress := mkRelated { rel_address : bytes; rel_port : Z }.
#[export] Instance Related_eq_dec : EqDecision CandidateRelatedAddress.
Proof. solve_decision. Defined.

Record Candidate := mkCandidate {
  cand_id : bytes;
  network_type : NetworkType;
  candidate_type : CandidateType;
  component : Z;
  address : bytes;
  cand_port : Z;
  related_address : option CandidateRelatedAddress;
  tcp_type : TcpType;
  resolved_addr : SocketAddr;
  last_sent : Z;
  last_received : Z;
  foundation_override : bytes;
  priority_override : Z;
  network : bytes;
  url : option bytes
}.

Definition eta_candidate (c : Candidate) : Candidate :=
  mkCandidate (cand_id c) (network_type c) (candidate_type c) (component c) (address c) (cand_port c) (related_address c) (tcp_type c)
    (resolved_addr c) (last_sent c) (last_received c) (foundation_override c) (priority_override c) (network c) (url c).
#[export] Instance set_address : Setter address.
Proof. make_setter eta_candidate address. Defined.
#[export] Instance set_network_type : Setter network_type.
Proof. make_setter eta_candidate network_type. Defined.
#[export] Instance set_resolved_addr : Setter resolved_addr.
Proof. make_setter eta_candidate resolved_addr. Defined.
#[export] Instance set_last_sent : Setter last_sent.
Proof. make_setter eta_candidate last_sent. Defined.
#[export] Instance set_last_received : Setter last_received.
Proof. make_setter eta_candidate last_received. Defined.

Definition DEFAULT_LOCAL_PREFERENCE : Z := 65535.

Definition direction_pref (c : Candidate) : Z :=
  match candidate_type c with
  | Host | Relay => match tcp_type c with Active => 6 | Passive => 4 | SimultaneousOpen => 2 | TcpUnspecified => 0 end
  | PeerReflexive | ServerReflexive => match tcp_type c with SimultaneousOpen => 6 | Active => 4 | Passive => 2 | TcpUnspecified => 0 end
  | CandUnspecified => 0
  end.

Definition local_preference (c : Candidate) : Z :=
  if is_tcp (network_type c) then u16 (Z.shiftl 1 13 * direction_pref c + 8191) else DEFAULT_LOCAL_PREFERENCE.

(** [Candidate::priority]; the subtraction wraps around. *)
Definition candidate_priority (c : Candidate) : Z :=
  if negb (priority_override c =? 0) then priority_override c
  else u32 (Z.shiftl 1 24 * preference (candidate_type c) + Z.shiftl 1 8 * local_preference c + u32 (256 - component c)).

(** [seen]: [now] is what [Instant::now] gives. *)
Definition seen (outbound : bool) (now : Z) (c : Candidate) : Candidate :=
  if outbound then c <| last_sent := now |> else c <| last_received := now |>.

Definition equal (c d : Candidate) : bool :=
  bool_decide (network_type c = network_type d) && bool_decide (candidate_type c = candidate_type d) &&
  bool_decide (address c = address d) && (cand_port c =? cand_port d) && bool_decide (tcp_type c = tcp_type d) &&
  bool_decide (related_address c = related_address d).

Definition can_pair_with (c d : Candidate) : bool :=
  if negb (bool_decide (network_type c = network_type d)) then false
  else match tcp_type c, tcp_type d with
       | Active, Passive | Passive, Active | SimultaneousOpen, SimultaneousOpen | TcpUnspecified, TcpUnspecified => true
       | _, _ => false
       end.

Definition set_ip (ip : IpAddr) (c : Candidate) : res Candidate :=
  let! n := determine_network_type (network c) ip in
  Ok (c <| network_type := n |> <| resolved_addr := mkSocketAddr ip (cand_port c) |>).

(** [CandidatePeerReflexiveConfig::new_candidate_peer_reflexive], for the configuration
    [handle_inbound] makes; [id] is the random identifier and [now] the time of the default values. *)
Definition new_candidate_peer_reflexive `{IpText} (id network addr : bytes) (port component now : Z) : res Candidate :=
  match ip_parse addr with
  | None => Err ErrAddressParseFailed
  | Some ip =>
      let! n := determine_network_type network ip in
      Ok (mkCandidate id n PeerReflexive component addr port (Some (mkRelated [] 0)) TcpUnspecified
            (mkSocketAddr ip port) now now [] 0 [] None)
  end.

(** * Pairs *)

Inductive CandidatePairState := PairUnspecified | Waiting | InProgress | PairFailed | Succeeded.
#[export] Instance CandidatePairState_eq_dec : EqDecision CandidatePairState.
Proof. solve_decision. Defined.

Record CandidatePair := mkPair {
  local_index : nat;
  remote_index : nat;
  local_priority : Z;
  remote_priority : Z;
  ice_role_controlling : bool;
  binding_request_count : Z;
  pair_state : CandidatePairState;
  nominated : bool;
  requests_sent : Z;
  requests_received : Z;
  responses_sent : Z;
  responses_received : Z;
  consent_requests_sent : Z;
  total_round_trip_time : Z;
  current_round_trip_time : Z
}.

Definition eta_pair (p : CandidatePair) : CandidatePair :=
  mkPair (local_index p) (remote_index p) (local_priority p) (remote_priority p) (ice_role_controlling p) (binding_request_count p)
    (pair_state p) (nominated p) (requests_sent p) (requests_received p) (responses_sent p) (responses_received p)
    (consent_requests_sent p) (total_round_trip_time p) (current_round_trip_time p).
#[export] Instance set_ice_role : Setter ice_role_controlling.
Proof. make_setter eta_pair ice_role_controlling. Defined.
#[export] Instance set_binding_request_count : Setter binding_request_count.
Proof. make_setter eta_pair binding_request_count. Defined.
#[export] Instance set_pair_state : Setter pair_state.
Proof. make_setter eta_pair pair_state. Defined.
#[export] Instance set_nominated : Setter nominated.
Proof. make_setter eta_pair nominated. Defined.
#[export] Instance set_requests_sent : Setter requests_sent.
Proof. make_setter eta_pair requests_sent. Defined.
#[export] Instance set_requests_received : Setter requests_received.
Proof. make_setter eta_pair requests_received. Defined.
#[export] Instance set_responses_sent : Setter responses_sent.
Proof. make_setter eta_pair responses_sent. Defined.
#[export] Instance set_responses_received : Setter responses_received.
Proof. make_setter eta_pair responses_received. Defined.
#[export] Instance set_consent_requests_sent : Setter consent_requests_sent.
Proof. make_setter eta_pair consent_requests_sent. Defined.
#[export] Instance set_total_rtt : Setter total_round_trip_time.
Proof. make_setter eta_pair total_round_trip_time. Defined.
#[export] Instance set_current_rtt : Setter current_round_trip_time.
Proof. make_setter eta_pair current_round_trip_time. Defined.

Definition pair_new (l r : nat) (lp rp : Z) (controlling : bool) : CandidatePair :=
  mkPair l r lp rp controlling 0 Waiting false 0 0 0 0 0 0 0.

Definition pair_priority (p : CandidatePair) : Z :=
  let '(g, d) := if ice_role_controlling p then (local_priority p, remote_priority p) else (remote_priority p, local_priority p) in
  u64 ((Z.shiftl 1 32 - 1) * Z.min g d + 2 * Z.max g d + (if d <? g then 1 else 0)).

Definition on_request_sent (p : CandidatePair) : CandidatePair := p <| requests_sent ::= λ n, u64 (n + 1) |>.
Definition on_request_received (p : CandidatePair) : CandidatePair := p <| requests_received ::= λ n, u64 (n + 1) |>.
Definition on_response_sent (p : CandidatePair) : CandidatePair := p <| responses_sent ::= λ n, u64 (n + 1) |>.
Definition on_response_received (rtt : Z) (p : CandidatePair) : CandidatePair :=
  p <| responses_received ::= λ n, u64 (n + 1) |> <| current_round_trip_time := rtt |> <| total_round_trip_time ::= λ n, n + rtt |>.
Definition on_consent_request_sent (p : CandidatePair) : CandidatePair := p <| consent_requests_sent ::= λ n, u64 (n + 1) |>.

(** * The state of a connection *)

Inductive ConnectionState := StUnspecified | New | Checking | Connected | Completed | Failed | Disconnected | Closed.
#[export] Instance ConnectionState_eq_dec : EqDecision ConnectionState.
Proof. solve_decision. Defined.

(** * Priorities *)

(** The pair as the other agent sees it *)
Definition mirrored (p q : CandidatePair) : Prop :=
  local_priority p = remote_priority q ∧ remote_priority p = local_priority q ∧ ice_role_controlling p = negb (ice_role_controlling q).

Lemma pair_priority_eq p :
  fits 32 (local_priority p) → fits 32 (remote_priority p) →
  let '(g, d) := if ice_role_controlling p then (local_priority p, remote_priority p) else (remote_priority p, local_priority p) in
  pair_priority p = (2 ^ 32 - 1) * Z.min g d + 2 * Z.max g d + (if d <? g then 1 else 0) ∧ 0 <= pair_priority p < 2 ^ 64.
Proof.
  intros Hl Hr. unfold pair_priority, fits in *. change (Z.shiftl 1 32) with (2 ^ 32).
  destruct (ice_role_controlling p); (rewrite wrap_small; [split; [done|]|unfold fits]); destruct (Z.ltb_spec (remote_priority p) (local_priority p)),
    (Z.ltb_spec (local_priority p) (remote_priority p)); lia.
Qed.

(** Both agents order their pairs alike.  The priority of a pair fits 64 bits without wrapping;
    the other agent, which has the candidates the other way round and the other role, computes the
    same; and it grows with the priority of either candidate: a pair whose candidates both have at
    least, and one of them a higher, priority comes first. *)
Theorem pair_priority_agreed p q :
  fits 32 (local_priority p) → fits 32 (remote_priority p) →
  fits 64 (pair_priority p) ∧
  (mirrored p q → pair_priority p = pair_priority q) ∧
  (fits 32 (local_priority q) → fits 32 (remote_priority q) → ice_role_controlling p = ice_role_controlling q →
   local_priority p <= local_priority q → remote_priority p <= remote_priority q →
   local_priority p < local_priority q ∨ remote_priority p < remote_priority q →
   pair_priority p < pair_priority q).
Proof.
  intros Hl Hr. pose proof (pair_priority_eq p Hl Hr) as Ep. split_and!.
  - destruct (ice_role_controlling p); destruct Ep; by unfold fits.
  - intros (E1 & E2 & E3). unfold pair_priority. rewrite E1, E2, E3. by destruct (ice_role_controlling q).
  - intros Hl' Hr' E H1 H2 H3. pose proof (pair_priority_eq q Hl' Hr') as Eq. unfold fits in *.
    rewrite E in Ep. destruct (ice_role_controlling q), Ep as [-> _], Eq as [-> _];
      repeat match goal with |- context [?a <? ?b] => destruct (Z.ltb_spec a b) end; lia.
Qed.

Lemma pair_priority_agreed_witness :
  let p := pair_new 0 0 2130706431 1694498815 true in let q := pair_new 3 1 1694498815 2130706431 false in
  pair_priority p = pair_priority q ∧ pair_priority p < pair_priority (pair_new 0 1 2130706431 2130706431 true).
Proof.
  intros p q. split.
  - by apply (pair_priority_agreed p q).
  - by apply (pair_priority_agreed p (pair_new 0 1 2130706431 2130706431 true)); try done; vm_compute; intuition congruence.
Defined.

(** The priority of a candidate never overflows, and its type decides first. *)
Lemma candidate_priority_bounds c :
  priority_override c = 0 → 1 <= component c <= 256 →
  candidate_priority c = 2 ^ 24 * preference (candidate_type c) + 2 ^ 8 * local_preference c + (256 - component c) ∧
  2 ^ 24 * preference (candidate_type c) <= candidate_priority c < 2 ^ 24 * (preference (candidate_type c) + 1).
Proof.
  intros H0 Hc. unfold candidate_priority. rewrite H0. change (negb (0 =? 0)) with false. cbv iota.
  assert (0 <= local_preference c < 2 ^ 16) as Hp.
  { unfold local_preference, DEFAULT_LOCAL_PREFERENCE. destruct (is_tcp _); [apply wrap_fits; lia|lia]. }
  assert (0 <= preference (candidate_type c) <= 126) as Ht by (destruct (candidate_type c); cbn; lia).
  change (Z.shiftl 1 24) with (2 ^ 24). change (Z.shiftl 1 8) with (2 ^ 8).
  rewrite (wrap_small 32 (256 - _)) by (unfold fits; lia). rewrite wrap_small by (unfold fits; lia). lia.
Qed.
