(* ===== verification/MdnsWire.v ===== *)
(** The messages of multicast DNS, [rtc-mdns/src/message]: names with their compression, questions,
    resource records, the incremental parser, and the packing of a message.

    Neither the parser nor the packing panics, whatever the octets and the names are. *)

From S2P Require Import Prelude Codec.

Module Dns.

(** * Types and classes *)

Inductive DnsType :=
| TypA | TypNs | TypCname | TypSoa | TypPtr | TypMx | TypTxt | TypAaaa | TypSrv | TypOpt
| TypWks | TypHinfo | TypMinfo | TypAxfr | TypAll | TypUnsupported.

#[global] Instance DnsType_eq_dec : EqDecision DnsType.
Proof. solve_decision. Defined.

Definition type_u16 (t : DnsType) : Z :=
  match t with
  | TypA => 1 | TypNs => 2 | TypCname => 5 | TypSoa => 6 | TypPtr => 12 | TypMx => 15 | TypTxt => 16 | TypAaaa => 28
  | TypSrv => 33 | TypOpt => 41 | TypWks => 11 | TypHinfo => 13 | TypMinfo => 14 | TypAxfr => 252 | TypAll => 255
  | TypUnsupported => 0
  end.

Definition type_from_u16 (v : Z) : DnsType :=
  match v with
  | 1 => TypA | 2 => TypNs | 5 => TypCname | 6 => TypSoa | 12 => TypPtr | 15 => TypMx | 16 => TypTxt | 28 => TypAaaa
  | 33 => TypSrv | 41 => TypOpt | 11 => TypWks | 13 => TypHinfo | 14 => TypMinfo | 252 => TypAxfr | 255 => TypAll
  | _ => TypUnsupported
  end.

Definition DNSCLASS_INET : Z := 1.
Definition NAME_LEN : Z := 255.

(** * Integers on the wire *)

Definition pack_uint16 (msg : bytes) (field : Z) : bytes := msg ++ BigEndian.enc 2 field.
Definition pack_uint32 (msg : bytes) (field : Z) : bytes := msg ++ BigEndian.enc 4 field.

Definition unpack_uint16 (msg : bytes) (off : Z) : res (Z * Z) :=
  if len msg <? off + 2 then Err ErrBaseLen
  else
    let! a := index msg off in
    let! b := index msg (off + 1) in
    Ok (Z.lor (Z.shiftl a 8) b, off + 2).

Definition skip_uint16 (msg : bytes) (off : Z) : res Z := if len msg <? off + 2 then Err ErrBaseLen else Ok (off + 2).

Definition unpack_uint32 (msg : bytes) (off : Z) : res (Z * Z) :=
  if len msg <? off + 4 then Err ErrBaseLen
  else
    let! a := index msg off in
    let! b := index msg (off + 1) in
    let! c := index msg (off + 2) in
    let! d := index msg (off + 3) in
    Ok (Z.lor (Z.lor (Z.lor (Z.shiftl a 24) (Z.shiftl b 16)) (Z.shiftl c 8)) d, off + 4).

Definition unpack_bytes (msg : bytes) (off n : Z) : res (bytes * Z) :=
  if len msg <? off + n then Err ErrBaseLen else let! field := slice msg off (off + n) in Ok (field, off + n).

Definition unpack_str (msg : bytes) (off : Z) : res (bytes * Z) :=
  if len msg <=? off then Err ErrBaseLen
  else
    let begin_off := off + 1 in
    let! n := index msg off in
    let end_off := begin_off + n in
    if len msg <? end_off then Err ErrCalcLen
    else
      let! s := slice msg begin_off end_off in
      if utf8_valid s then Ok (s, end_off) else Err ErrUtf8.

(** * Names *)

Definition name_new (data : bytes) : res bytes := if NAME_LEN <? len data then Err ErrCalcLen else Ok data.

(** [data.chars().skip(n)]: the octets from the [n]-th character on; the first octet of a character
    says how many it has. *)
Definition char_len (b : Z) : nat := if b <? 0x80 then 1 else if b <? 0xe0 then 2 else if b <? 0xf0 then 3 else 4.
Fixpoint skip_chars (n : nat) (data : bytes) : bytes :=
  match n, data with
  | O, _ | _, [] => data
  | S n, b :: _ => skip_chars n (drop (char_len b) data)
  end.

Definition Compression : Type := option (gmap bytes Z).

(** The loop [for i in 0..data.len()] of [Name::pack]: [idx] are the indices left. *)
Fixpoint name_pack_loop (data : bytes) (idx : list Z) (begin : Z) (msg : bytes) (compression : Compression) (compression_off : Z)
    : res (bytes * Compression) :=
  match idx with
  | [] => Ok (msg ++ [0], compression)
  | i :: idx =>
      let! c := index data i in
      if c =? 46 then
        if Z.shiftl 1 6 <=? i - begin then Err ErrSegTooLong
        else if i - begin =? 0 then Err ErrZeroSegLen
        else
          let! segment := slice data begin i in
          name_pack_loop data idx (i + 1) (msg ++ [u8 (i - begin)] ++ segment) compression compression_off
      else
        let! starts := if i =? 0 then Ok true else let! p := index data (i - 1) in Ok (p =? 46) in
        match starts, compression with
        | true, Some table =>
            let key := skip_chars (Z.to_nat i) data in
            match table !! key with
            | Some ptr => Ok (msg ++ [u8 (Z.lor (Z.shiftr ptr 8) 0xC0); u8 (Z.land ptr 0xFF)], compression)
            | None =>
                let compression := if len msg <=? 0x3FFF then Some (<[key := len msg - compression_off]> table) else compression in
                name_pack_loop data idx begin msg compression compression_off
            end
        | _, _ => name_pack_loop data idx begin msg compression compression_off
        end
  end.

Definition name_pack (data msg : bytes) (compression : Compression) (compression_off : Z) : res (bytes * Compression) :=
  match last data with
  | Some 46 =>
      if len data =? 1 then Ok (msg ++ [0], compression)
      else name_pack_loop data (seqZ 0 (len data)) 0 msg compression compression_off
  | _ => Err ErrNonCanonicalName
  end.

(** The loop of [unpack_compressed]: a segment moves forward in the message, and of pointers ten at
    most are followed, so that [unpack_fuel] turns are enough. *)
Fixpoint unpack_loop (fuel : nat) (msg : bytes) (allow_compression : bool) (curr_off new_off ptr : Z) (name : bytes) : res (bytes * Z) :=
  match fuel with
  | O => Panic
  | S fuel =>
      if len msg <=? curr_off then Err ErrBaseLen
      else
        let! c := index msg curr_off in
        let curr_off := curr_off + 1 in
        if Z.land c 0xC0 =? 0x00 then
          if c =? 0 then
            let name := match name with [] => [46] | _ => name end in
            if NAME_LEN <? len name then Err ErrCalcLen else Ok (name, if ptr =? 0 then curr_off else new_off)
          else
            let end_off := curr_off + c in
            if len msg <? end_off then Err ErrCalcLen
            else
              let! segment := slice msg curr_off end_off in
              if utf8_valid segment then unpack_loop fuel msg allow_compression end_off new_off ptr (name ++ segment ++ [46])
              else Err ErrUtf8
        else if Z.land c 0xC0 =? 0xC0 then
          if negb allow_compression then Err ErrCompressedSrv
          else if len msg <=? curr_off then Err ErrInvalidPtr
          else
            let! c1 := index msg curr_off in
            let curr_off := curr_off + 1 in
            let new_off := if ptr =? 0 then curr_off else new_off in
            let ptr := ptr + 1 in
            if 10 <? ptr then Err ErrTooManyPtr
            else unpack_loop fuel msg allow_compression (Z.lor (Z.shiftl (Z.lxor c 0xC0) 8) c1) new_off ptr name
        else Err ErrReserved
  end.

Definition unpack_fuel (msg : bytes) : nat := 12 * S (length msg).
Definition unpack_compressed (msg : bytes) (off : Z) (allow_compression : bool) : res (bytes * Z) :=
  unpack_loop (unpack_fuel msg) msg allow_compression off off 0 [].
Definition name_unpack (msg : bytes) (off : Z) : res (bytes * Z) := unpack_compressed msg off true.

(** [Name::skip]: every turn moves forward. *)
Fixpoint skip_loop (fuel : nat) (msg : bytes) (new_off : Z) : res Z :=
  match fuel with
  | O => Panic
  | S fuel =>
      if len msg <=? new_off then Err ErrBaseLen
      else
        let! c := index msg new_off in
        let new_off := new_off + 1 in
        if Z.land c 0xC0 =? 0x00 then
          if c =? 0 then Ok new_off
          else
            let new_off := new_off + c in
            if len msg <? new_off then Err ErrCalcLen else skip_loop fuel msg new_off
        else if Z.land c 0xC0 =? 0xC0 then Ok (new_off + 1)
        else Err ErrReserved
  end.
Definition name_skip (msg : bytes) (off : Z) : res Z := skip_loop (S (length msg)) msg off.

(** * Questions and resource records *)

Record Question := mkQuestion { q_name : bytes; q_typ : DnsType; q_class : Z }.

Definition question_pack (q : Question) (msg : bytes) (compression : Compression) (compression_off : Z) : res (bytes * Compression) :=
  let! (msg, compression) := name_pack (q_name q) msg compression compression_off in
  Ok (pack_uint16 (pack_uint16 msg (type_u16 (q_typ q))) (q_class q), compression).

Record ResourceHeader := mkResourceHeader { rh_name : bytes; rh_typ : DnsType; rh_class : Z; rh_ttl : Z; rh_length : Z }.
Definition resource_header_default : ResourceHeader := mkResourceHeader [] TypUnsupported 0 0 0.

Inductive ResourceBody :=
| AResource (a : bytes)
| AaaaResource (aaaa : bytes)
| NsResource (ns : bytes)
| CnameResource (cname : bytes)
| PtrResource (ptr : bytes)
| MxResource (pref : Z) (mx : bytes)
| TxtResource (txt : list bytes)
| SrvResource (priority weight port : Z) (target : bytes)
| SoaResource (ns mbox : bytes) (serial refresh retry expire min_ttl : Z)
| OptResource (options : list (Z * bytes)).

Definition resource_header_unpack (msg : bytes) (off : Z) : res (ResourceHeader * Z) :=
  let! (name, off) := name_unpack msg off in
  let! (t, off) := unpack_uint16 msg off in
  let! (class, off) := unpack_uint16 msg off in
  let! (ttl, off) := unpack_uint32 msg off in
  let! (l, off) := unpack_uint16 msg off in
  Ok (mkResourceHeader name (type_from_u16 t) class ttl l, off).

(** [while n < length] of [TxtResource::unpack]: every turn takes an octet at least. *)
Fixpoint txt_loop (fuel : nat) (msg : bytes) (off n length_ : Z) (txts : list bytes) : res (list bytes * Z) :=
  if n <? length_ then
    match fuel with
    | O => Panic
    | S fuel =>
        let! (t, off) := unpack_str msg off in
        if length_ <? n + len t + 1 then Err ErrCalcLen else txt_loop fuel msg off (n + len t + 1) length_ (txts ++ [t])
    end
  else Ok (txts, off).

(** [while off < old_off + length] of [OptResource::unpack] *)
Fixpoint opt_loop (fuel : nat) (msg : bytes) (off stop : Z) (opts : list (Z * bytes)) : res (list (Z * bytes) * Z) :=
  if off <? stop then
    match fuel with
    | O => Panic
    | S fuel =>
        let! (code, off) := unpack_uint16 msg off in
        let! (l, off) := unpack_uint16 msg off in
        if len msg <? off + l then Err ErrCalcLen
        else
          let! data := slice msg off (off + l) in
          opt_loop fuel msg (off + l) stop (opts ++ [(code, data)])
    end
  else Ok (opts, off).

Definition unpack_resource_body (typ : DnsType) (msg : bytes) (off length_ : Z) : res (ResourceBody * Z) :=
  match typ with
  | TypA => let! (a, off) := unpack_bytes msg off 4 in Ok (AResource a, off)
  | TypAaaa => let! (a, off) := unpack_bytes msg off 16 in Ok (AaaaResource a, off)
  | TypNs => let! (n, off) := name_unpack msg off in Ok (NsResource n, off)
  | TypCname => let! (n, off) := name_unpack msg off in Ok (CnameResource n, off)
  | TypPtr => let! (n, off) := name_unpack msg off in Ok (PtrResource n, off)
  | TypMx =>
      let! (pref, off) := unpack_uint16 msg off in
      let! (n, off) := name_unpack msg off in Ok (MxResource pref n, off)
  | TypTxt => let! (txts, off) := txt_loop (S (length msg)) msg off 0 length_ [] in Ok (TxtResource txts, off)
  | TypSrv =>
      let! (priority, off) := unpack_uint16 msg off in
      let! (weight, off) := unpack_uint16 msg off in
      let! (port, off) := unpack_uint16 msg off in
      let! (n, off) := unpack_compressed msg off false in Ok (SrvResource priority weight port n, off)
  | TypSoa =>
      let! (ns, off) := name_unpack msg off in
      let! (mbox, off) := name_unpack msg off in
      let! (serial, off) := unpack_uint32 msg off in
      let! (refresh, off) := unpack_uint32 msg off in
      let! (retry, off) := unpack_uint32 msg off in
      let! (expire, off) := unpack_uint32 msg off in
      let! (min_ttl, off) := unpack_uint32 msg off in
      Ok (SoaResource ns mbox serial refresh retry expire min_ttl, off)
  | TypOpt => let! (opts, off) := opt_loop (S (length msg)) msg off (off + length_) [] in Ok (OptResource opts, off)
  | _ => Err ErrNilResourceBody
  end.

(** The answers that are packed are A records. *)
Record AnswerA := mkAnswerA { an_name : bytes; an_class : Z; an_ttl : Z; an_octets : bytes }.

(** [fix_len]: the length of the body, written over the placeholder at [len_off] *)
Definition fix_len (msg : bytes) (len_off pre_len : Z) : res bytes :=
  if (len msg <? pre_len) || (pre_len + (2 ^ 16 - 1) <? len msg) then Err ErrResTooLong
  else
    let con_len := len msg - pre_len in
    assert_ ((0 <=? len_off) && (len_off + 1 <? len msg))
      (Ok (take (Z.to_nat len_off) msg ++ [Z.land (Z.shiftr con_len 8) 0xFF; Z.land con_len 0xFF] ++ drop (Z.to_nat (len_off + 2)) msg)).

(** [Resource::pack] with an [AResource]; the length field is 0 before [fix_len]. *)
Definition resource_pack (r : AnswerA) (msg : bytes) (compression : Compression) (compression_off : Z) : res (bytes * Compression) :=
  let! (msg, compression) := name_pack (an_name r) msg compression compression_off in
  let msg := pack_uint32 (pack_uint16 (pack_uint16 msg (type_u16 TypA)) (an_class r)) (an_ttl r) in
  let len_off := len msg in
  let msg := pack_uint16 msg 0 in
  let pre_len := len msg in
  let! msg := fix_len (msg ++ an_octets r) len_off pre_len in
  Ok (msg, compression).

(** * Messages *)

Record Header := mkHeader {
  h_id : Z;
  h_response : bool;
  h_op_code : Z;
  h_authoritative : bool;
  h_truncated : bool;
  h_recursion_desired : bool;
  h_recursion_available : bool;
  h_rcode : Z
}.
Definition header_default : Header := mkHeader 0 false 0 false false false false 0.

Definition HEADER_BIT_QR : Z := Z.shiftl 1 15.
Definition HEADER_BIT_AA : Z := Z.shiftl 1 10.
Definition HEADER_BIT_TC : Z := Z.shiftl 1 9.
Definition HEADER_BIT_RD : Z := Z.shiftl 1 8.
Definition HEADER_BIT_RA : Z := Z.shiftl 1 7.

Definition header_bits (h : Header) : Z :=
  let set (b : bool) (bit bits : Z) := if b then Z.lor bits bit else bits in
  let bits := Z.lor (u16 (Z.shiftl (h_op_code h) 11)) (h_rcode h) in
  let bits := set (h_recursion_available h) HEADER_BIT_RA bits in
  let bits := set (h_recursion_desired h) HEADER_BIT_RD bits in
  let bits := set (h_truncated h) HEADER_BIT_TC bits in
  let bits := set (h_authoritative h) HEADER_BIT_AA bits in
  set (h_response h) HEADER_BIT_QR bits.

(** The numbers of questions and of the records of each section *)
Record HeaderInternal := mkHeaderInternal { hi_id : Z; hi_bits : Z; hi_questions : Z; hi_answers : Z; hi_authorities : Z; hi_additionals : Z }.

Definition header_pack (h : HeaderInternal) (msg : bytes) : bytes :=
  pack_uint16 (pack_uint16 (pack_uint16 (pack_uint16 (pack_uint16 (pack_uint16 msg (hi_id h)) (hi_bits h)) (hi_questions h)) (hi_answers h))
    (hi_authorities h)) (hi_additionals h).

Definition header_unpack (msg : bytes) (off : Z) : res (HeaderInternal * Z) :=
  let! (id, off) := unpack_uint16 msg off in
  let! (bits, off) := unpack_uint16 msg off in
  let! (questions, off) := unpack_uint16 msg off in
  let! (answers, off) := unpack_uint16 msg off in
  let! (authorities, off) := unpack_uint16 msg off in
  let! (additionals, off) := unpack_uint16 msg off in
  Ok (mkHeaderInternal id bits questions answers authorities additionals, off).

(** A message as it is sent: without authorities and additional records *)
Record Message := mkMessage { m_header : Header; m_questions : list Question; m_answers : list AnswerA }.

Fixpoint pack_each {A} (pack : A → bytes → Compression → Z → res (bytes * Compression)) (xs : list A) (msg : bytes) (c : Compression) (off : Z)
    : res (bytes * Compression) :=
  match xs with
  | [] => Ok (msg, c)
  | x :: xs => let! (msg, c) := pack x msg c off in pack_each pack xs msg c off
  end.

Definition append_pack (m : Message) (b : bytes) : res bytes :=
  if 2 ^ 16 - 1 <? len (m_questions m) then Err ErrTooManyQuestions
  else if 2 ^ 16 - 1 <? len (m_answers m) then Err ErrTooManyAnswers
  else
    let h := mkHeaderInternal (h_id (m_header m)) (header_bits (m_header m)) (u16 (len (m_questions m))) (u16 (len (m_answers m))) 0 0 in
    let compression_off := len b in
    let msg := header_pack h b in
    let! (msg, c) := pack_each question_pack (m_questions m) msg (Some ∅) compression_off in
    let! (msg, _) := pack_each resource_pack (m_answers m) msg c compression_off in
    Ok msg.

Definition message_pack (m : Message) : res bytes := append_pack m [].

(** * The parser *)

Inductive Section_ := SecNotStarted | SecHeader | SecQuestions | SecAnswers | SecAuthorities | SecAdditionals | SecDone.

Definition section_u8 (s : Section_) : Z :=
  match s with SecNotStarted => 0 | SecHeader => 1 | SecQuestions => 2 | SecAnswers => 3 | SecAuthorities => 4 | SecAdditionals => 5 | SecDone => 6 end.
Definition section_from_u8 (v : Z) : Section_ :=
  match v with 0 => SecNotStarted | 1 => SecHeader | 2 => SecQuestions | 3 => SecAnswers | 4 => SecAuthorities | 5 => SecAdditionals | _ => SecDone end.

Definition header_count (h : HeaderInternal) (sec : Section_) : Z :=
  match sec with
  | SecQuestions => hi_questions h | SecAnswers => hi_answers h | SecAuthorities => hi_authorities h | SecAdditionals => hi_additionals h
  | _ => 0
  end.

Record Parser := mkParser {
  p_msg : bytes;
  p_header : HeaderInternal;
  p_section : Section_;
  p_off : Z;
  p_index : Z;
  p_res_header_valid : bool;
  p_res_header : ResourceHeader
}.

Definition eta_parser (p : Parser) : Parser :=
  mkParser (p_msg p) (p_header p) (p_section p) (p_off p) (p_index p) (p_res_header_valid p) (p_res_header p).

#[export] Instance set_p_section : Setter p_section.
Proof. make_setter eta_parser p_section. Defined.
#[export] Instance set_p_off : Setter p_off.
Proof. make_setter eta_parser p_off. Defined.
#[export] Instance set_p_index : Setter p_index.
Proof. make_setter eta_parser p_index. Defined.
#[export] Instance set_p_valid : Setter p_res_header_valid.
Proof. make_setter eta_parser p_res_header_valid. Defined.
#[export] Instance set_p_res_header : Setter p_res_header.
Proof. make_setter eta_parser p_res_header. Defined.

(** [start] on a new parser *)
Definition parser_start (msg : bytes) : res Parser :=
  let! (h, off) := header_unpack msg 0 in
  Ok (mkParser msg h SecQuestions off 0 false resource_header_default).

Definition check_advance (sec : Section_) : sm Parser unit := λ p,
  if section_u8 (p_section p) <? section_u8 sec then (Err ErrNotStarted, p)
  else if section_u8 sec <? section_u8 (p_section p) then (Err ErrSectionDone, p)
  else
    let p := p <| p_res_header_valid := false |> in
    if p_index p =? header_count (p_header p) sec
    then (Err ErrSectionDone, p <| p_index := 0 |> <| p_section := section_from_u8 (1 + section_u8 (p_section p)) |>)
    else (Ok tt, p).

Definition resource_header (sec : Section_) : sm Parser ResourceHeader := λ p,
  if p_res_header_valid p then (Ok (p_res_header p), p)
  else
    (do! _ <- check_advance sec;
     do! (hdr, off) <- (λ p, (resource_header_unpack (p_msg p) (p_off p), p));
     do! _ <- smodify (λ p, p <| p_res_header_valid := true |> <| p_res_header := hdr |> <| p_off := off |>);
     sret hdr) p.

Definition resource (sec : Section_) : sm Parser (ResourceHeader * ResourceBody) :=
  do! header <- resource_header sec;
  do! _ <- smodify (λ p, p <| p_res_header_valid := false |>);
  do! (body, off) <- (λ p, (unpack_resource_body (rh_typ header) (p_msg p) (p_off p) (rh_length header), p));
  do! _ <- smodify (λ p, p <| p_off := off |> <| p_index ::= λ i, i + 1 |>);
  sret (header, body).

Definition answer_header : sm Parser ResourceHeader := resource_header SecAnswers.
Definition answer : sm Parser (ResourceHeader * ResourceBody) := resource SecAnswers.

Definition question : sm Parser Question :=
  do! _ <- check_advance SecQuestions;
  do! (q, off) <- (λ p,
    (let! (name, off) := name_unpack (p_msg p) (p_off p) in
     let! (t, off) := unpack_uint16 (p_msg p) off in
     let! (class, off) := unpack_uint16 (p_msg p) off in
     Ok (mkQuestion name (type_from_u16 t) class, off), p));
  do! _ <- smodify (λ p, p <| p_off := off |> <| p_index ::= λ i, i + 1 |>);
  sret q.

Definition skip_question : sm Parser unit :=
  do! _ <- check_advance SecQuestions;
  do! off <- (λ p,
    (let! off := name_skip (p_msg p) (p_off p) in
     let! off := skip_uint16 (p_msg p) off in
     skip_uint16 (p_msg p) off, p));
  smodify (λ p, p <| p_off := off |> <| p_index ::= λ i, i + 1 |>).

Definition is_section_done (e : error) : bool := match e with ErrSectionDone => true | _ => false end.

(** [skip_all_questions]: every question that is skipped takes octets of the message. *)
Fixpoint skip_questions_loop (fuel : nat) : sm Parser unit := λ p,
  match fuel with
  | O => (Panic, p)
  | S fuel =>
      match skip_question p with
      | (Ok _, p) => skip_questions_loop fuel p
      | (Err e, p) => (if is_section_done e then Ok tt else Err e, p)
      | (Panic, p) => (Panic, p)
      end
  end.
Definition skip_all_questions : sm Parser unit := λ p, skip_questions_loop (S (length (p_msg p))) p.

(** * No octets make the parser panic *)

Section NoPanic.
Context (msg : bytes).
Hypothesis Hmsg : Forall byte_ok msg.

Lemma index_post i : 0 <= i < len msg → res_post (index msg i) byte_ok.
Proof. intros Hi. destruct (index_ok msg i Hi) as (x & -> & Hx). rewrite Forall_forall in Hmsg. by apply Hmsg. Qed.

Lemma slice_post a b : 0 <= a <= b → b <= len msg → res_post (slice msg a b) (λ l, len l = b - a ∧ Forall byte_ok l).
Proof.
  intros Ha Hb. unfold slice, assert_. rewrite !(proj2 (Z.leb_le _ _)) by lia. cbn. split.
  - unfold len in *. rewrite length_take, length_drop. lia.
  - by apply Forall_take, Forall_drop.
Qed.

(** A read at [off] that ends at the offset it gives, inside the message *)
Definition reads_to {A} (off : Z) : A * Z → Prop := λ '(_, o), off <= o <= len msg.

Lemma uint16_post off : 0 <= off → res_post (unpack_uint16 msg off) (λ x, reads_to (off + 2) x ∧ 0 <= x.1).
Proof.
  intros Ho. unfold unpack_uint16. apply res_post_if; [done|]. intros Hl. bool_facts.
  eapply res_post_bind; [apply index_post; lia|]. intros a [Ha _]. eapply res_post_bind; [apply index_post; lia|]. intros b [Hb _]. cbn.
  split; [lia|]. apply Z.lor_nonneg. split; [by apply Z.shiftl_nonneg|done].
Qed.

Lemma uint32_post off : 0 <= off → res_post (unpack_uint32 msg off) (reads_to (off + 4)).
Proof.
  intros Ho. unfold unpack_uint32. apply res_post_if; [done|]. intros Hl. bool_facts.
  do 4 (eapply res_post_bind; [apply index_post; lia|]; intros ? _). cbn. lia.
Qed.

Lemma skip16_post off : res_post (skip_uint16 msg off) (λ o, o = off + 2 ∧ o <= len msg).
Proof. unfold skip_uint16. apply res_post_if; [done|]. intros Hl. bool_facts. cbn. lia. Qed.

Lemma bytes_post off n : 0 <= off → 0 <= n → res_post (unpack_bytes msg off n) (λ x, reads_to off x ∧ len x.1 = n ∧ Forall byte_ok x.1).
Proof.
  intros Ho Hn. unfold unpack_bytes. apply res_post_if; [done|]. intros Hl. bool_facts.
  eapply res_post_bind; [apply slice_post; lia|]. intros l [H1 H2]. cbn. split_and!; [lia|lia|lia|done].
Qed.

Lemma str_post off : 0 <= off → res_post (unpack_str msg off) (reads_to (off + 1)).
Proof.
  intros Ho. unfold unpack_str. apply res_post_if; [done|]. intros Hl. bool_facts. cbv zeta.
  eapply res_post_bind; [apply index_post; lia|]. intros n [Hn _]. apply res_post_if; [done|]. intros Hl'. bool_facts.
  eapply res_post_bind; [apply slice_post; lia|]. intros l _. apply res_post_if; [|done]. intros _. cbn. lia.
Qed.

(** The loop over a name ends: a segment moves forward, a pointer is counted. *)
Lemma unpack_loop_post fuel allow off new_off ptr name :
  0 <= off → 0 <= new_off → 0 <= ptr <= 10 → (11 - ptr) * (len msg + 1) + Z.max 0 (len msg - off) < Z.of_nat fuel →
  res_post (unpack_loop fuel msg allow off new_off ptr name) (λ x, 0 <= x.2 ∧ len x.1 <= NAME_LEN).
Proof.
  revert off new_off ptr name. induction fuel as [|fuel IH]; intros off new_off ptr name Ho Hn Hp Hf; [pose proof (len_nonneg msg); nia|].
  cbn [unpack_loop]. apply res_post_if; [done|]. intros Hl. bool_facts. eapply res_post_bind; [apply index_post; lia|]. intros c [Hc _]. cbv zeta.
  apply res_post_if; intros _.
  - apply res_post_if; intros Hc0; bool_facts.
    + apply res_post_if; [done|]. intros Hlen. bool_facts. cbn. split; [destruct (ptr =? 0); lia|lia].
    + apply res_post_if; [done|]. intros Hl'. bool_facts. eapply res_post_bind; [apply slice_post; lia|]. intros seg _.
      apply res_post_if; [|done]. intros _. apply IH; [lia|done|done|lia].
  - apply res_post_if; [|done]. intros _. apply res_post_if; [done|]. intros _. apply res_post_if; [done|]. intros Hl'. bool_facts.
    eapply res_post_bind; [apply index_post; lia|]. intros c1 [Hc1 _]. apply res_post_if; [done|]. intros Hp10. bool_facts.
    assert (0 <= Z.lor (Z.shiftl (Z.lxor c 192) 8) c1) as H0.
    { apply Z.lor_nonneg. split; [|done]. apply Z.shiftl_nonneg. apply Z.lxor_nonneg. lia. }
    apply IH; [done|destruct (ptr =? 0); lia|lia|nia].
Qed.

Lemma name_post off allow : 0 <= off → res_post (unpack_compressed msg off allow) (λ x, 0 <= x.2 ∧ len x.1 <= NAME_LEN).
Proof. intros Ho. apply unpack_loop_post; [done|done|lia|]. unfold unpack_fuel, len. nia. Qed.

Lemma skip_loop_post fuel off : 0 <= off → len msg < off + Z.of_nat fuel → (0 < fuel)%nat ∨ off <= len msg → res_post (skip_loop fuel msg off) (λ o, off < o).
Proof.
  revert off. induction fuel as [|fuel IH]; intros off Ho Hf Hor; [lia|]. cbn [skip_loop]. apply res_post_if; [done|]. intros Hl. bool_facts.
  eapply res_post_bind; [apply index_post; lia|]. intros c [Hc _]. cbv zeta. apply res_post_if; intros _.
  - apply res_post_if; intros Hc0; [cbn; lia|]. bool_facts. apply res_post_if; [done|]. intros Hl'. bool_facts.
    eapply res_post_mono; [apply IH; lia|]. intros o. cbn. lia.
  - apply res_post_if; intros _; [cbn; lia|done].
Qed.

Lemma txt_post fuel off n l txts :
  0 <= off → len msg < off + Z.of_nat fuel → (0 < fuel)%nat ∨ off <= len msg → res_post (txt_loop fuel msg off n l txts) (λ x, 0 <= x.2).
Proof.
  revert off n txts. induction fuel as [|fuel IH]; intros off n txts Ho Hf Hor; cbn [txt_loop]; (apply res_post_if; intros _; [|cbn; done]); [lia|].
  eapply res_post_bind; [by apply str_post|]. intros [t o] Hr. cbn in Hr. apply res_post_if; [done|]. intros _. apply IH; lia.
Qed.

Lemma opt_post fuel off stop opts :
  0 <= off → len msg < off + Z.of_nat fuel → (0 < fuel)%nat ∨ off <= len msg → res_post (opt_loop fuel msg off stop opts) (λ x, 0 <= x.2).
Proof.
  revert off opts. induction fuel as [|fuel IH]; intros off opts Ho Hf Hor; cbn [opt_loop]; (apply res_post_if; intros _; [|cbn; done]); [lia|].
  eapply res_post_bind; [by apply uint16_post|]. intros [code o1] [Hr1 _]. cbn in Hr1. eapply res_post_bind; [apply uint16_post; lia|]. intros [l o2] [Hr2 Hl]. cbn in Hr2, Hl.
  apply res_post_if; [done|]. intros Hl'. bool_facts. eapply res_post_bind; [apply slice_post; lia|]. intros d _. apply IH; lia.
Qed.

(** What a record gives: an A record has four octets *)
Definition body_ok (b : ResourceBody) : Prop :=
  match b with AResource a => length a = 4%nat ∧ Forall byte_ok a | _ => True end.

Lemma body_post typ off l : 0 <= off → res_post (unpack_resource_body typ msg off l) (λ x, 0 <= x.2 ∧ body_ok x.1).
Proof.
  intros Ho. pose proof (len_nonneg msg).
  assert (∀ o, 0 <= o → res_post (name_unpack msg o) (λ x, 0 <= x.2)) as Hname.
  { intros o Ho'. eapply res_post_mono; [by apply name_post|]. by intros x [? _]. }
  destruct typ; cbn [unpack_resource_body]; try done.
  - eapply res_post_bind; [apply bytes_post; lia|]. intros [a o] ([? ?] & Hl & Hb). cbn in *. split; [lia|]. split; [unfold len in Hl; lia|done].
  - eapply res_post_bind; [by apply Hname|]. by intros [a o] ?.
  - eapply res_post_bind; [by apply Hname|]. by intros [a o] ?.
  - eapply res_post_bind; [by apply Hname|]. intros [a o] ?. eapply res_post_bind; [by apply Hname|]. intros [b o'] Hb. cbn in Hb.
    do 5 (eapply res_post_bind; [apply uint32_post; cbn in *; lia|]; intros [? ?] ?). cbn in *. split; [lia|done].
  - eapply res_post_bind; [by apply Hname|]. by intros [a o] ?.
  - eapply res_post_bind; [by apply uint16_post|]. intros [a o] [Hr _]. cbn in Hr. eapply res_post_bind; [apply Hname; lia|]. by intros [b o'] ?.
  - eapply res_post_bind; [apply txt_post; unfold len in *; lia|]. by intros [a o] ?.
  - eapply res_post_bind; [apply bytes_post; lia|]. intros [a o] ([? ?] & _). cbn in *. split; [lia|done].
  - eapply res_post_bind; [by apply uint16_post|]. intros [a o] [Hr _]. cbn in Hr. eapply res_post_bind; [apply uint16_post; lia|]. intros [b o'] [Hr' _]. cbn in Hr'.
    eapply res_post_bind; [apply uint16_post; lia|]. intros [c o''] [Hr'' _]. cbn in Hr''. eapply res_post_bind; [apply name_post; lia|]. by intros [d o3] [? _].
  - eapply res_post_bind; [apply opt_post; unfold len in *; lia|]. by intros [a o] ?.
Qed.

Lemma resource_header_post off : 0 <= off → res_post (resource_header_unpack msg off) (λ x, 0 <= x.2).
Proof.
  intros Ho. unfold resource_header_unpack. eapply res_post_bind; [by apply name_post|]. intros [n o] [H1 _]. cbn in H1.
  eapply res_post_bind; [by apply uint16_post|]. intros [t o1] [H2 _]. cbn in H2. eapply res_post_bind; [apply uint16_post; lia|]. intros [c o2] [H3 _]. cbn in H3.
  eapply res_post_bind; [apply uint32_post; lia|]. intros [l o3] H4. cbn in H4. eapply res_post_bind; [apply uint16_post; lia|]. intros [y o4] [H5 _]. cbn in *. lia.
Qed.

Lemma start_post : res_post (parser_start msg) (λ p, p_msg p = msg ∧ 0 <= p_off p).
Proof.
  unfold parser_start, header_unpack. pose proof (len_nonneg msg).
  apply (res_post_bind _ _ (λ x : HeaderInternal * Z, 0 <= x.2)); [|intros [h o] Ho; cbn; split; [done|exact Ho]].
  do 6 (eapply res_post_bind; [apply uint16_post; cbn in *; lia|]; intros [? ?] [? _]). cbn in *. lia.
Qed.

(** A step of the parser keeps its message and its offset inside the integers. *)
Definition parser_ok (p : Parser) : Prop := p_msg p = msg ∧ 0 <= p_off p.

Definition parses {A} (r : res A * Parser) (Q : A → Prop) : Prop :=
  parser_ok r.2 ∧ match r.1 with Ok a => Q a | Err _ => True | Panic => False end.

Lemma parses_bind {A B} (m : sm Parser A) (f : A → sm Parser B) p Q R :
  parses (m p) Q → (∀ a p', parser_ok p' → Q a → parses (f a p') R) → parses (sbind m f p) R.
Proof. unfold parses, sbind. destruct (m p) as [[a| |] p']; cbn; [|tauto..]. intros [Hp Hq] Hf. by apply Hf. Qed.

Lemma parses_lift {A} (f : bytes → Z → res A) p Q :
  parser_ok p → (∀ off, 0 <= off → res_post (f msg off) Q) → parses (f (p_msg p) (p_off p), p) Q.
Proof. intros [E Ho] Hf. split; [done|]. cbn. rewrite E. exact (Hf _ Ho). Qed.

Lemma advance_parses sec p : parser_ok p → parses (check_advance sec p) (λ _, True).
Proof. intros Hp. unfold check_advance. destruct (_ <? _); [done|]. destruct (_ <? _); [done|]. cbv zeta. by destruct (_ =? _). Qed.

Lemma header_parses sec p : parser_ok p → parses (resource_header sec p) (λ _, True).
Proof.
  intros Hp. unfold resource_header. destruct (p_res_header_valid p); [done|]. eapply parses_bind; [by apply advance_parses|]. intros _ p1 Hp1 _.
  eapply parses_bind; [by apply (parses_lift resource_header_unpack _ _ Hp1), resource_header_post|]. intros [h o] p2 [E _] Ho. by split.
Qed.

Lemma resource_parses sec p : parser_ok p → parses (resource sec p) (λ x, body_ok x.2).
Proof.
  intros Hp. eapply parses_bind; [by apply header_parses|]. intros h p1 [E1 Ho1] _. apply (parses_bind _ _ _ (λ _, True)); [by split|]. intros _ p2 Hp2 _.
  eapply parses_bind; [apply (parses_lift (λ m o, unpack_resource_body (rh_typ h) m o (rh_length h)) _ _ Hp2); intros off Ho; by apply body_post|].
  intros [b o] p3 [E _] [Ho Hb]. split; [by split|exact Hb].
Qed.

Lemma question_parses p : parser_ok p → parses (question p) (λ q, len (q_name q) <= NAME_LEN).
Proof.
  intros Hp. eapply parses_bind; [by apply advance_parses|]. intros _ p1 Hp1 _.
  eapply parses_bind; [apply (parses_lift (λ m o, let! (name, off) := name_unpack m o in let! (t, off) := unpack_uint16 m off in
     let! (class, off) := unpack_uint16 m off in Ok (mkQuestion name (type_from_u16 t) class, off))
     _ (λ x, 0 <= x.2 ∧ len (q_name x.1) <= NAME_LEN) Hp1)|].
  - intros off Ho. eapply res_post_bind; [by apply name_post|]. intros [n o] [H1 H1']. cbn in H1, H1'.
    eapply res_post_bind; [by apply uint16_post|]. intros [t o1] [H2 _]. cbn in H2. eapply res_post_bind; [apply uint16_post; lia|]. intros [c o2] [H3 _]. cbn in *. split; [lia|done].
  - intros [q o] p2 [E _] [Ho Hq]. split; [by split|exact Hq].
Qed.

(** Skipping a question moves forward, inside the message. *)
Lemma skip_question_parses p :
  parser_ok p → parser_ok (skip_question p).2 ∧
  match (skip_question p).1 with Ok _ => p_off p < p_off (skip_question p).2 <= len msg | Err _ => True | Panic => False end.
Proof.
  intros Hp. unfold skip_question, sbind. pose proof (advance_parses SecQuestions p Hp) as [H1 H2].
  assert (p_off (check_advance SecQuestions p).2 = p_off p) as Eo by (unfold check_advance; repeat (destruct (_ <? _); [done|]); cbv zeta; by destruct (_ =? _)).
  destruct (check_advance SecQuestions p) as [[[]| |] p1]; cbn [fst snd] in *; [|done|done]. destruct H1 as [E Ho]. rewrite E.
  assert (res_post (let! off := name_skip msg (p_off p1) in let! off := skip_uint16 msg off in skip_uint16 msg off) (λ o, p_off p1 < o <= len msg)) as Hs.
  { eapply res_post_bind; [apply skip_loop_post; [done|unfold len; lia|lia]|]. intros o Ho1. eapply res_post_bind; [apply skip16_post|]. intros o1 [-> _].
    eapply res_post_mono; [apply skip16_post|]. intros o2 [-> ?]. cbn in *. lia. }
  destruct (let! off := name_skip msg (p_off p1) in _) as [o| |]; cbn [fst snd smodify]; [|by split|done]. unfold smodify. cbn [fst snd]. split; [split; record_simpl; cbn in Hs; [done|lia]|]. record_simpl. cbn in Hs. lia.
Qed.

Lemma skip_all_parses p : parser_ok p → parses (skip_all_questions p) (λ _, True).
Proof.
  intros Hp. unfold skip_all_questions. destruct Hp as [E Ho]. rewrite E.
  assert (len msg < p_off p + Z.of_nat (S (length msg)) ∧ ((0 < S (length msg))%nat ∨ p_off p <= len msg)) as [Hf Hor] by (unfold len; lia).
  assert (parser_ok p) as Hp by by split. clear E Ho. revert p Hp Hf Hor. generalize (S (length msg)) as fuel. induction fuel as [|fuel IH]; intros p Hp Hf Hor.
  { exfalso. destruct Hp. lia. }
  cbn [skip_questions_loop]. destruct (skip_question_parses p Hp) as [H1 H2]. destruct (skip_question p) as [[[]| |] p1]; cbn [fst snd] in *; [apply IH; [done|lia|lia]| |done].
  split; [done|]. cbn. by destruct (is_section_done e).
Qed.
End NoPanic.

(** * No name makes the packing panic *)

Lemma name_loop_total data i n begin msg c off :
  0 <= begin <= i → i + Z.of_nat n = len data → name_pack_loop data (seqZ i (Z.of_nat n)) begin msg c off ≠ Panic.
Proof.
  revert i begin msg c. induction n as [|n IH]; intros i begin msg c Hb Hn; [done|]. rewrite Nat2Z.inj_succ in *. rewrite seqZ_cons by lia.
  replace (Z.pred (Z.succ (Z.of_nat n))) with (Z.of_nat n) by lia. cbn [name_pack_loop].
  destruct (index_ok data i) as (x & -> & _); [lia|]. cbn [rbind]. destruct (x =? 46).
  - destruct (_ <=? _); [done|]. destruct (_ =? 0); [done|]. unfold slice, assert_. rewrite !(proj2 (Z.leb_le _ _)) by lia. cbn [andb rbind]. apply IH; lia.
  - assert (∃ b, (if i =? 0 then Ok true else let! p := index data (i - 1) in Ok (p =? 46)) = Ok b) as [b ->].
    { destruct (i =? 0) eqn:E; [by eexists|]. apply Z.eqb_neq in E. destruct (index_ok data (i - 1)) as (y & -> & _); [lia|]. by eexists. }
    cbn [rbind]. destruct b, c as [table|]; try (apply IH; lia). destruct (table !! _); [done|]. apply IH; lia.
Qed.

Lemma name_pack_total data msg c off : name_pack data msg c off ≠ Panic.
Proof.
  unfold name_pack. repeat case_match; try done. apply (name_loop_total data 0 (length data)); unfold len; lia.
Qed.

Lemma question_pack_total q msg c off : question_pack q msg c off ≠ Panic.
Proof. unfold question_pack. pose proof (name_pack_total (q_name q) msg c off). by destruct (name_pack _ _ _ _) as [[? ?]| |]. Qed.

Lemma resource_pack_total r msg c off : resource_pack r msg c off ≠ Panic.
Proof.
  unfold resource_pack. pose proof (name_pack_total (an_name r) msg c off). destruct (name_pack _ _ _ _) as [[m' c']| |]; [|done..]. cbn [rbind]. cbv zeta.
  generalize (pack_uint32 (pack_uint16 (pack_uint16 m' (type_u16 TypA)) (an_class r)) (an_ttl r)). intros w.
  unfold fix_len. destruct (_ || _); [done|]. cbv zeta. unfold assert_.
  assert ((0 <=? len w) && (len w + 1 <? len (pack_uint16 w 0 ++ an_octets r)) = true) as ->; [|done].
  pose proof (len_nonneg (an_octets r)). pose proof (len_nonneg w). unfold pack_uint16. rewrite !len_app. unfold len at 4. rewrite BigEndian.enc_length.
  apply andb_true_iff. split; [apply Z.leb_le|apply Z.ltb_lt]; lia.
Qed.

Lemma pack_each_total {A} (pack : A → bytes → Compression → Z → res (bytes * Compression)) xs msg c off :
  (∀ x msg c off, pack x msg c off ≠ Panic) → pack_each pack xs msg c off ≠ Panic.
Proof.
  intros H. revert msg c. induction xs as [|x xs IH]; intros msg c; [done|]. cbn [pack_each]. specialize (H x msg c off).
  by destruct (pack x msg c off) as [[? ?]| |]; cbn [rbind].
Qed.

Lemma message_pack_total m : message_pack m ≠ Panic.
Proof.
  unfold message_pack, append_pack. destruct (_ <? _); [done|]. destruct (_ <? _); [done|]. cbv zeta.
  match goal with |- rbind (pack_each ?p ?xs ?b ?c ?o) _ ≠ _ => pose proof (pack_each_total p xs b c o question_pack_total) as H; destruct (pack_each p xs b c o) as [[b1 c1]| |] end; [|done..].
  cbn [rbind]. pose proof (pack_each_total resource_pack (m_answers m) b1 c1 (len ([] : bytes)) resource_pack_total). by destruct (pack_each resource_pack _ _ _ _) as [[? ?]| |].
Qed.

End Dns.
