(* ===== verification/Mdns.v ===== *)
(** The connection of multicast DNS, [rtc-mdns/src/proto]: pending queries with their retries and
    timeouts, answers to questions for the names of this host, and the events that tell of answers.
    [create_multicast_dns] of [rtc-ice/src/mdns] sets one up for an ICE agent.

    The class [MdnsConn] says what an ICE agent uses of such a connection; [multicast_dns] shows
    that the connection modelled here provides it: whatever arrives, no call panics, and the addresses
    in its events have four or sixteen octets. *)

From stdpp Require Import strings.
From S2P Require Import Prelude Codec Stun StunAttr Ice MdnsWire.

(** * Datagrams and events *)

Record TransportContext := mkTransportContext {
  local_addr : SocketAddr;
  peer_addr : SocketAddr;
  transport_protocol : TransportProtocol
}.
Record TaggedBytes := mkTagged { tagged_now : Z; transport : TransportContext; message : bytes }.

Inductive MdnsEvent := QueryAnswered (id : Z) (addr : IpAddr) | QueryTimeout (id : Z).

Definition MDNS_PORT : Z := 5353.
Definition MDNS_DEST_ADDR : SocketAddr := mkSocketAddr (V4 [224; 0; 0; 251]) MDNS_PORT.

(** What a datagram is: octets, from an address of the right length *)
Definition datagram_ok (t : TaggedBytes) : Prop := Forall byte_ok (message t) ∧ ip_ok (sa_ip (peer_addr (transport t))).

Definition event_ok (e : MdnsEvent) : Prop := match e with QueryAnswered _ ip => ip_ok ip | QueryTimeout _ => True end.

Inductive MulticastDnsMode := MdnsDisabled | QueryOnly | QueryAndGather.
#[export] Instance MulticastDnsMode_eq_dec : EqDecision MulticastDnsMode.
Proof. solve_decision. Defined.

(** * What an ICE agent uses *)

Definition runs {M A} (ok : M → Prop) (r : res A * M) : Prop := r.1 ≠ Panic ∧ ok r.2.

(** [mdns_events] and [mdns_writes] poll until there is nothing more. *)
Class MdnsConn (M : Type) := {
  mdns_create : MulticastDnsMode → bytes → option IpAddr → option Z → option M;
  mdns_query : Z → bytes → sm M Z;
  mdns_handle_read : TaggedBytes → sm M unit;
  mdns_handle_timeout : Z → sm M unit;
  mdns_events : M → list MdnsEvent * M;
  mdns_writes : M → list TaggedBytes * M;
  mdns_poll_timeout : M → option Z;
  mdns_close : sm M unit;
  mdns_ok : M → Prop;
  mdns_create_disabled name ip t : mdns_create MdnsDisabled name ip t = None;
  mdns_create_ok mode name ip t m : mdns_create mode name ip t = Some m → mdns_ok m;
  mdns_query_ok clk name m : mdns_ok m → runs mdns_ok (mdns_query clk name m);
  mdns_read_ok t m : mdns_ok m → datagram_ok t → runs mdns_ok (mdns_handle_read t m);
  mdns_timeout_ok now m : mdns_ok m → runs mdns_ok (mdns_handle_timeout now m);
  mdns_events_ok m : mdns_ok m → Forall event_ok (mdns_events m).1 ∧ mdns_ok (mdns_events m).2;
  mdns_writes_ok m : mdns_ok m → mdns_ok (mdns_writes m).2;
  mdns_close_ok m : mdns_ok m → runs mdns_ok (mdns_close m)
}.

(** * The connection *)

(** The order in which a [HashMap] gives the queries a record answers *)
Class QueryOrder := {
  query_order : list Z → list Z;
  query_order_perm l : query_order l ≡ₚ l
}.

Definition DEFAULT_QUERY_INTERVAL : Z := 1000.
Definition MAX_MESSAGE_RECORDS : nat := 3.
Definition RESPONSE_TTL : Z := 120.

Record MdnsConfig := mkMdnsConfig {
  mc_query_interval : Z;
  mc_query_timeout : option Z;
  mc_local_names : list bytes;
  mc_local_ip : option IpAddr
}.
Definition mdns_config_default : MdnsConfig := mkMdnsConfig DEFAULT_QUERY_INTERVAL None [] None.

Record Query := mkQuery { mq_id : Z; mq_name : bytes; mq_start_time : Z; mq_next_retry : Z }.

Record Mdns := mkMdns {
  md_config : MdnsConfig;
  md_local_names : list bytes;
  md_queries : list Query;
  md_next_query_id : Z;
  md_query_interval : Z;
  md_query_timeout : option Z;
  md_write_outs : list TaggedBytes;
  md_event_outs : list MdnsEvent;
  md_next_timeout : option Z;
  md_closed : bool
}.

Definition eta_mdns (m : Mdns) : Mdns :=
  mkMdns (md_config m) (md_local_names m) (md_queries m) (md_next_query_id m) (md_query_interval m) (md_query_timeout m) (md_write_outs m)
    (md_event_outs m) (md_next_timeout m) (md_closed m).

#[export] Instance set_md_queries : Setter md_queries.
Proof. make_setter eta_mdns md_queries. Defined.
#[export] Instance set_md_next_id : Setter md_next_query_id.
Proof. make_setter eta_mdns md_next_query_id. Defined.
#[export] Instance set_md_write_outs : Setter md_write_outs.
Proof. make_setter eta_mdns md_write_outs. Defined.
#[export] Instance set_md_event_outs : Setter md_event_outs.
Proof. make_setter eta_mdns md_event_outs. Defined.
#[export] Instance set_md_next_timeout : Setter md_next_timeout.
Proof. make_setter eta_mdns md_next_timeout. Defined.
#[export] Instance set_md_closed : Setter md_closed.
Proof. make_setter eta_mdns md_closed. Defined.

Definition with_suffix (name : bytes) : bytes := if ends_with name [46] then name else name ++ [46].

Definition mdns_new (c : MdnsConfig) : Mdns :=
  mkMdns c (map with_suffix (mc_local_names c)) [] 1 (if mc_query_interval c =? 0 then DEFAULT_QUERY_INTERVAL else mc_query_interval c)
    (mc_query_timeout c) [] [] None false.

(** ** Queries *)

Definition least (l : list Z) : option Z :=
  match l with [] => None | x :: l => Some (foldl Z.min x l) end.
Definition update_next_timeout (m : Mdns) : Mdns := m <| md_next_timeout := least (map mq_next_retry (md_queries m)) |>.

(** A message that cannot be built is logged and not sent. *)
Definition queue_packet (raw : res bytes) (now : Z) (from : IpAddr) : sm Mdns unit := λ m,
  match raw with
  | Ok raw =>
      let context := mkTransportContext (mkSocketAddr from MDNS_PORT) MDNS_DEST_ADDR UDP in
      (Ok tt, m <| md_write_outs ::= λ w, w ++ [mkTagged now context raw] |>)
  | Err _ => (Ok tt, m)
  | Panic => (Panic, m)
  end.

Definition question_for (name : bytes) : Dns.Message :=
  Dns.mkMessage Dns.header_default [Dns.mkQuestion name Dns.TypA Dns.DNSCLASS_INET] [].

Definition send_question (name : bytes) (now : Z) : sm Mdns unit :=
  queue_packet (let! name := Dns.name_new name in Dns.message_pack (question_for name)) now (V4 [0; 0; 0; 0]).

Definition answer_for (name octets : bytes) : Dns.Message :=
  Dns.mkMessage (Dns.mkHeader 0 true 0 true false false false 0) [] [Dns.mkAnswerA name Dns.DNSCLASS_INET RESPONSE_TTL octets].

Definition send_answer (local_ip : IpAddr) (name : bytes) (now : Z) : sm Mdns unit :=
  match local_ip with
  | V4 octets => queue_packet (let! name := Dns.name_new name in Dns.message_pack (answer_for name octets)) now local_ip
  | V6 _ => sret tt
  end.

Fixpoint each_name (f : bytes → sm Mdns unit) (names : list bytes) : sm Mdns unit :=
  match names with
  | [] => sret tt
  | n :: names => do! _ <- f n; each_name f names
  end.

Definition query (clk : Z) (name : bytes) : sm Mdns Z :=
  let name_with_suffix := with_suffix name in
  do! id <- sgets md_next_query_id;
  do! _ <- smodify (λ m, m <| md_next_query_id := u64 (id + 1) |>
                           <| md_queries ::= λ q, q ++ [mkQuery id name_with_suffix clk (clk + md_query_interval m)] |>);
  do! _ <- send_question name_with_suffix clk;
  do! _ <- smodify update_next_timeout;
  sret id.

Definition drop_query (id : Z) (m : Mdns) : Mdns := m <| md_queries ::= filter (λ q, mq_id q ≠ id) |>.
Definition cancel_query (id : Z) (m : Mdns) : Mdns := update_next_timeout (drop_query id m).
Definition is_query_pending (id : Z) (m : Mdns) : bool := existsb (λ q, mq_id q =? id) (md_queries m).

(** ** What arrives *)

(** The loop over the questions: the names that are this host's, or nothing when a question is not
    read *)
Fixpoint question_loop (turns : nat) (local_names names : list bytes) : sm Dns.Parser (option (list bytes)) := λ p,
  match turns with
  | O => (Ok (Some names), p)
  | S turns =>
      match Dns.question p with
      | (Ok q, p) => question_loop turns local_names (if bool_decide (Dns.q_name q ∈ local_names) then names ++ [Dns.q_name q] else names) p
      | (Err e, p) => (Ok (if Dns.is_section_done e then Some names else None), p)
      | (Panic, p) => (Panic, p)
      end
  end.

(** The parser is handed on. *)
Definition process_questions (now : Z) (p : Dns.Parser) : sm Mdns Dns.Parser := λ m,
  match question_loop (S MAX_MESSAGE_RECORDS) (md_local_names m) [] p with
  | (Ok (Some names), p) =>
      match Dns.skip_all_questions p with
      | (Panic, _) => (Panic, m)
      | (_, p) =>
          match mc_local_ip (md_config m) with
          | Some local_ip => (do! _ <- each_name (λ name, send_answer local_ip name now) names; sret p) m
          | None => (Ok p, m)
          end
      end
  | (Panic, _) => (Panic, m)
  | (_, p) => (Ok p, m)
  end.

Section Answers.
Context {QO : QueryOrder}.

(** Every query for the name is answered and no longer pending. *)
Definition answer_queries (name : bytes) (ip : IpAddr) (m : Mdns) : Mdns :=
  let ids := query_order (remove_dups (map mq_id (filter (λ q, mq_name q = name) (md_queries m)))) in
  foldl (λ m id, drop_query id (m <| md_event_outs ::= λ e, e ++ [QueryAnswered id ip] |>)) m ids.

Fixpoint process_answers (turns : nat) (src : IpAddr) (p : Dns.Parser) : sm Mdns unit := λ m,
  match turns with
  | O => (Ok tt, m)
  | S turns =>
      match Dns.answer_header p with
      | (Ok h, p) =>
          if negb (bool_decide (Dns.rh_typ h = Dns.TypA)) && negb (bool_decide (Dns.rh_typ h = Dns.TypAaaa)) then process_answers turns src p m
          else
            match Dns.answer p with
            | (Ok (_, body), p) =>
                let local_ip := match body with Dns.AResource a => V4 a | _ => src end in
                process_answers turns src p (answer_queries (Dns.rh_name h) local_ip m)
            | (Err _, _) => (Ok tt, m)
            | (Panic, _) => (Panic, m)
            end
      | (Err _, _) => (Ok tt, m)
      | (Panic, _) => (Panic, m)
      end
  end.

Definition process_message (t : TaggedBytes) : sm Mdns unit := λ m,
  match Dns.parser_start (message t) with
  | Ok p =>
      (do! p <- process_questions (tagged_now t) p;
       process_answers (S MAX_MESSAGE_RECORDS) (sa_ip (peer_addr (transport t))) p) m
  | Err _ => (Ok tt, m)
  | Panic => (Panic, m)
  end.

Definition handle_read (t : TaggedBytes) : sm Mdns unit :=
  do! closed <- sgets md_closed;
  do! _ <- sguard closed ErrConnectionClosed;
  do! _ <- process_message t;
  smodify update_next_timeout.

End Answers.

(** ** Time *)

Definition expire_queries (now : Z) (m : Mdns) : Mdns :=
  match md_query_timeout m with
  | None => m
  | Some timeout =>
      let ids := map mq_id (filter (λ q, timeout <= Z.max 0 (now - mq_start_time q)) (md_queries m)) in
      foldl (λ m id, drop_query id (m <| md_event_outs ::= λ e, e ++ [QueryTimeout id] |>)) m ids
  end.

Definition retry_query (now interval : Z) (q : Query) : Query :=
  if mq_next_retry q <=? now then mkQuery (mq_id q) (mq_name q) (mq_start_time q) (now + interval) else q.

Definition handle_timeout (now : Z) : sm Mdns unit := λ m,
  if md_closed m then (Err ErrConnectionClosed, m)
  else
    match md_next_timeout m with
    | Some next_timeout =>
        if next_timeout <=? now then
          let m := expire_queries now m in
          let names := map mq_name (filter (λ q, mq_next_retry q <= now) (md_queries m)) in
          (do! _ <- smodify (λ m, m <| md_queries ::= map (retry_query now (md_query_interval m)) |>);
           do! _ <- each_name (λ name, send_question name now) names;
           smodify update_next_timeout) m
        else (Ok tt, m)
    | None => (Ok tt, m)
    end.

(** [while let Some(..) = poll_event()] and [poll_write()] *)
Definition poll_events (m : Mdns) : list MdnsEvent * Mdns := (md_event_outs m, m <| md_event_outs := [] |>).
Definition poll_writes (m : Mdns) : list TaggedBytes * Mdns := (md_write_outs m, m <| md_write_outs := [] |>).

Definition close : sm Mdns unit := λ m,
  (Ok tt, m <| md_closed := true |> <| md_queries := [] |> <| md_write_outs := [] |> <| md_event_outs := [] |> <| md_next_timeout := None |>).

(** ** For an ICE agent *)

Definition create_multicast_dns (mode : MulticastDnsMode) (local_name : bytes) (local_ip : option IpAddr) (query_timeout : option Z) : option Mdns :=
  if bool_decide (mode = MdnsDisabled) then None
  else
    let '(names, ip) :=
      if bool_decide (mode = QueryAndGather) then ([local_name], Some (default (V4 [127; 0; 0; 1]) local_ip)) else ([], None) in
    Some (mdns_new (mkMdnsConfig DEFAULT_QUERY_INTERVAL query_timeout names ip)).

(** * No call panics *)

Definition conn_ok (m : Mdns) : Prop := Forall event_ok (md_event_outs m).

(** A call that only writes *)
Definition writes_only (m : Mdns) (r : res unit * Mdns) : Prop := r.1 = Ok tt ∧ md_event_outs r.2 = md_event_outs m.

Lemma queue_writes raw now ip m : raw ≠ Panic → writes_only m (queue_packet raw now ip m).
Proof. intros Hr. unfold queue_packet. by destruct raw. Qed.

Lemma packed_total (f : bytes → Dns.Message) name : (let! name := Dns.name_new name in Dns.message_pack (f name)) ≠ Panic.
Proof. unfold Dns.name_new. destruct (_ <? _); [done|]. apply Dns.message_pack_total. Qed.

Lemma question_writes name now m : writes_only m (send_question name now m).
Proof. apply queue_writes, packed_total. Qed.

Lemma answer_writes ip name now m : writes_only m (send_answer ip name now m).
Proof. destruct ip as [o|o]; [|done]. apply queue_writes, (packed_total (λ n, answer_for n o)). Qed.

Lemma each_writes f names m : (∀ n m, writes_only m (f n m)) → writes_only m (each_name f names m).
Proof.
  intros Hf. revert m. induction names as [|n names IH]; intros m; [done|]. cbn [each_name]. unfold sbind. destruct (Hf n m) as [E1 E2].
  destruct (f n m) as [r m']. cbn [fst snd] in *. subst r. destruct (IH m') as [E3 E4]. split; [done|]. by rewrite E4.
Qed.

Lemma drop_events id m : md_event_outs (drop_query id m) = md_event_outs m.
Proof. done. Qed.

Lemma emit_ok (ev : Z → MdnsEvent) ids m :
  (∀ id, event_ok (ev id)) → conn_ok m → conn_ok (foldl (λ m id, drop_query id (m <| md_event_outs ::= λ e, e ++ [ev id] |>)) m ids).
Proof.
  intros Hev. revert m. induction ids as [|id ids IH]; intros m Hm; [done|]. cbn [foldl]. apply IH. unfold conn_ok in *. rewrite drop_events. record_simpl.
  apply Forall_app. split; [done|]. by apply Forall_singleton.
Qed.

Section Reading.
Context {QO : QueryOrder} (t : TaggedBytes).
Hypothesis Ht : datagram_ok t.

Lemma question_loop_parses turns locals names p :
  Dns.parser_ok (message t) p → Dns.parses (message t) (question_loop turns locals names p) (λ _, True).
Proof.
  revert names p. induction turns as [|turns IH]; intros names p Hp; [done|]. cbn [question_loop].
  destruct (Dns.question_parses (message t) (proj1 Ht) p Hp) as [H1 H2]. destruct (Dns.question p) as [[q|e|] p']; cbn [fst snd] in *; [by apply IH|done|done].
Qed.

Lemma process_questions_ok now p m :
  Dns.parser_ok (message t) p → conn_ok m →
  ∃ p' m', process_questions now p m = (Ok p', m') ∧ Dns.parser_ok (message t) p' ∧ conn_ok m'.
Proof.
  intros Hp Hm. unfold process_questions. destruct (question_loop_parses (S MAX_MESSAGE_RECORDS) (md_local_names m) [] p Hp) as [H1 H2].
  destruct (question_loop _ _ _ _) as [[[names|]|e|] p1]; cbn [fst snd] in *; [|by eexists _, _|by eexists _, _|done].
  destruct (Dns.skip_all_parses (message t) (proj1 Ht) p1 H1) as [H3 H4].
  assert (∃ p' m', (match mc_local_ip (md_config m) with
    | Some local_ip => (do! _ <- each_name (λ name, send_answer local_ip name now) names; sret (Dns.skip_all_questions p1).2) m
    | None => (Ok (Dns.skip_all_questions p1).2, m) end) = (Ok p', m') ∧ Dns.parser_ok (message t) p' ∧ conn_ok m') as (p' & m' & E & H).
  { destruct (mc_local_ip _) as [ip|]; [|by eexists _, _]. destruct (each_writes (λ name, send_answer ip name now) names m) as [E1 E2]; [intros; apply answer_writes|].
    unfold sbind. destruct (each_name _ _ _) as [r m']. cbn [fst snd] in *. subst r. eexists _, _. split_and!; [done|done|]. unfold conn_ok. by rewrite E2. }
  exists p', m'. split; [|done]. destruct (Dns.skip_all_questions p1) as [[[]|e|] p2]; [exact E|exact E|done].
Qed.

Lemma process_answers_ok turns p m :
  Dns.parser_ok (message t) p → conn_ok m → runs conn_ok (process_answers turns (sa_ip (peer_addr (transport t))) p m).
Proof.
  revert p m. induction turns as [|turns IH]; intros p m Hp Hm; [done|]. cbn [process_answers].
  destruct (Dns.header_parses (message t) (proj1 Ht) Dns.SecAnswers p Hp) as [H1 H2]. fold Dns.answer_header in H1, H2.
  destruct (Dns.answer_header p) as [[h|e|] p1]; cbn [fst snd] in *; [|done|done]. destruct (_ && _); [by apply IH|].
  destruct (Dns.resource_parses (message t) (proj1 Ht) Dns.SecAnswers p1 H1) as [H3 H4]. fold Dns.answer in H3, H4.
  destruct (Dns.answer p1) as [[[h' body]|e|] p2]; cbn [fst snd] in *; [|done|done]. apply IH; [done|]. apply emit_ok; [|done]. intros id. cbn.
  destruct body; try exact (proj2 Ht). exact H4.
Qed.

Lemma process_message_ok m : conn_ok m → runs conn_ok (process_message t m).
Proof.
  intros Hm. unfold process_message. pose proof (Dns.start_post (message t) (proj1 Ht)) as H. destruct (Dns.parser_start _) as [p|e|]; [|done|done].
  destruct (process_questions_ok (tagged_now t) p m H Hm) as (p' & m' & E & Hp & Hm'). unfold sbind. rewrite E. by apply process_answers_ok.
Qed.
End Reading.

Lemma timeout_conn_ok now m : conn_ok m → runs conn_ok (handle_timeout now m).
Proof.
  intros Hm. unfold handle_timeout. destruct (md_closed m); [done|]. destruct (md_next_timeout m) as [x|]; [|done]. destruct (_ <=? _); [|done]. cbv zeta.
  assert (conn_ok (expire_queries now m)) as He by (unfold expire_queries; destruct (md_query_timeout m); [by apply emit_ok|done]).
  unfold sbind at 1, smodify at 1. cbn [fst snd].
  match goal with |- context [sbind (each_name ?f ?l) _ ?s] => destruct (each_writes f l s) as [E1 E2]; [intros; apply question_writes|]; unfold sbind; destruct (each_name f l s) as [r m'] end.
  cbn [fst snd] in *. subst r. split; [done|]. unfold smodify, conn_ok. cbn [fst snd]. unfold update_next_timeout. record_simpl. rewrite E2. exact He.
Qed.

#[export, refine] Instance multicast_dns `{QueryOrder} : MdnsConn Mdns := {|
  mdns_create := create_multicast_dns;
  mdns_query := query;
  mdns_handle_read := handle_read;
  mdns_handle_timeout := handle_timeout;
  mdns_events := poll_events;
  mdns_writes := poll_writes;
  mdns_poll_timeout := md_next_timeout;
  mdns_close := close;
  mdns_ok := conn_ok
|}.
Proof.
  - done.
  - intros mode name ip t m. unfold create_multicast_dns. destruct (bool_decide _); [done|]. destruct (if bool_decide _ then _ else _). intros [= <-]. constructor.
  - intros clk name m Hm. unfold query, sbind at 1, sgets at 1. unfold sbind at 1, smodify at 1.
    match goal with |- context [sbind (send_question ?n clk) _ ?s] => destruct (question_writes n clk s) as [E1 E2]; unfold sbind; destruct (send_question n clk s) as [r m'] end.
    cbn [fst snd] in *. subst r. split; [done|]. unfold conn_ok, sret, smodify. cbn [fst snd]. unfold update_next_timeout. record_simpl. rewrite E2. exact Hm.
  - intros t m Hm Ht. unfold handle_read, sbind at 1, sgets, sbind at 1, sguard. destruct (md_closed m); [done|]. destruct (process_message_ok t Ht m Hm) as [H1 H2].
    unfold sbind. destruct (process_message t m) as [[[]|e|] m']; cbn [fst snd] in *; [|done|done]. split; [done|exact H2].
  - apply timeout_conn_ok.
  - intros m Hm. split; [exact Hm|constructor].
  - intros m Hm. exact Hm.
  - intros m _. split; [done|constructor].
Defined.

(** * Examples *)

Module MdnsExample.

#[export, refine] Instance in_order : QueryOrder := {| query_order l := l |}.
Proof. done. Defined.

Definition host : bytes := ascii_bytes "host.local"%string.
Definition asker : Mdns := (query 0 host (mdns_new mdns_config_default)).2.
Definition owner : Mdns := mdns_new (mkMdnsConfig 0 None [host] (Some (V4 [192; 0; 2; 7]))).
Definition deliver (t : TaggedBytes) (m : Mdns) : Mdns :=
  (handle_read (mkTagged 5 (mkTransportContext MDNS_DEST_ADDR (mkSocketAddr (V4 [192; 0; 2; 9]) MDNS_PORT) UDP) (message t)) m).2.

(** A question reaches the host whose name it is, and the answer the one who asked. *)
Example question_answered :
  match md_write_outs asker with
  | [q] =>
      match md_write_outs (deliver q owner) with
      | [r] => md_event_outs (deliver r asker) = [QueryAnswered 1 (V4 [192; 0; 2; 7])] ∧ md_queries (deliver r asker) = []
      | _ => False
      end
  | _ => False
  end.
Proof. vm_compute. by split. Qed.

(** An A record that follows a record of another type is not seen: the loop reads the header of the
    first record again in every turn, as nothing skips it. *)
Definition text_record : bytes := [0; 0; 16; 0; 1; 0; 0; 0; 0; 0; 1; 0].
Definition address_record : bytes := [4] ++ ascii_bytes "host"%string ++ [5] ++ ascii_bytes "local"%string ++ [0; 0; 1; 0; 1; 0; 0; 0; 120; 0; 4; 192; 0; 2; 7].
Definition response (n : Z) (records : bytes) : TaggedBytes :=
  mkTagged 5 (mkTransportContext MDNS_DEST_ADDR MDNS_DEST_ADDR UDP) ([0; 0; 0x84; 0; 0; 0; 0; n; 0; 0; 0; 0] ++ records).

Example later_answer_missed :
  md_event_outs (deliver (response 1 address_record) asker) = [QueryAnswered 1 (V4 [192; 0; 2; 7])] ∧
  md_event_outs (deliver (response 2 (text_record ++ address_record)) asker) = [].
Proof. by vm_compute. Qed.

End MdnsExample.
