(* ===== verification/IceAgent.v ===== *)
(** The ICE agent, [rtc-ice/src/agent]: it pairs local with remote candidates, checks the pairs
    with STUN requests, and selects the pair the controlling agent nominates.

    The calls of [Instant::now] within one call of the agent give one time, the argument [clk].
    The draws of random values are numbered; the mDNS connection is used through [MdnsConn].
    Durations are in milliseconds; the sum of two configured ones panics when it does not fit a
    [Duration].  Instants, and the sums of times measured with the clock, are not bounded. *)

From stdpp Require Import strings.
From S2P Require Import Prelude Codec Stun StunAttr Ice Mdns.

(** * What is not the agent's own *)

(** [rand]: the transaction identifiers, user fragments, passwords and identifiers that are drawn *)
Class IceRandom := {
  random_tid : Z → bytes;
  random_ufrag : Z → bytes;
  random_pwd : Z → bytes;
  random_cand_id : Z → bytes;
  random_tid_length n : len (random_tid n) = 12;
  random_ufrag_length n : len (random_ufrag n) = 16;
  random_pwd_length n : len (random_pwd n) = 32
}.

(** * The state *)

Record BindingRequest := mkBindingRequest { br_timestamp : Z; br_transaction_id : bytes; br_destination : SocketAddr; is_use_candidate : bool }.
Record Credentials := mkCredentials { ufrag : bytes; pwd : bytes }.

Inductive Event :=
| ConnectionStateChange (s : ConnectionState)
| SelectedCandidatePairChange (local remote : Candidate)
| RoleChange (controlling : bool).

(** [Duration + Duration]: the seconds of a [Duration] have 64 bits. *)
Definition DURATION_RANGE : Z := 2 ^ 64 * 1000.
Definition duration_add (x y : Z) : res Z := assert_ (x + y <? DURATION_RANGE) (Ok (x + y)).

Definition DEFAULT_CHECK_INTERVAL : Z := 200.
Definition DEFAULT_KEEPALIVE_INTERVAL : Z := 2000.
Definition DEFAULT_DISCONNECTED_TIMEOUT : Z := 5000.
Definition DEFAULT_FAILED_TIMEOUT : Z := 25000.
Definition DEFAULT_HOST_ACCEPTANCE_MIN_WAIT : Z := 0.
Definition DEFAULT_SRFLX_ACCEPTANCE_MIN_WAIT : Z := 500.
Definition DEFAULT_PRFLX_ACCEPTANCE_MIN_WAIT : Z := 1000.
Definition DEFAULT_RELAY_ACCEPTANCE_MIN_WAIT : Z := 2000.
Definition DEFAULT_MAX_BINDING_REQUESTS : Z := 7.
Definition MAX_BINDING_REQUEST_TIMEOUT : Z := 4000.
Definition default_candidate_types : list CandidateType := [Host; ServerReflexive; Relay].

Section Agent.
Context {IT : IpText} {SC : StunCrypto} {RND : IceRandom} {Mdns : Type} {MD : MdnsConn Mdns}.

Record Agent := mkAgent {
  agent_tie_breaker : Z;
  is_controlling : bool;
  lite : bool;
  start_time : Z;
  connection_state : ConnectionState;
  last_connection_state : ConnectionState;
  local_credentials : Credentials;
  remote_credentials : option Credentials;
  local_candidates : list Candidate;
  remote_candidates : list Candidate;
  candidate_pairs : list CandidatePair;
  nominated_pair : option nat;
  selected_pair : option nat;
  pending_binding_requests : list BindingRequest;
  max_binding_requests : Z;
  host_acceptance_min_wait : Z;
  srflx_acceptance_min_wait : Z;
  prflx_acceptance_min_wait : Z;
  relay_acceptance_min_wait : Z;
  disconnected_timeout : Z;
  failed_timeout : Z;
  keepalive_interval : Z;
  last_consent_sent : Z;
  check_interval : Z;
  checking_duration : Z;
  last_checking_time : Z;
  force_candidate_contact : bool;
  mdns : option Mdns;
  mdns_queries : gmap Z Candidate;
  mdns_mode : MulticastDnsMode;
  mdns_local_name : bytes;
  mdns_local_ip : option IpAddr;
  candidate_types : list CandidateType;
  network_types : list NetworkType;
  write_outs : list TaggedBytes;
  event_outs : list Event;
  draws : Z
}.

Definition eta_agent (a : Agent) : Agent :=
  mkAgent (agent_tie_breaker a) (is_controlling a) (lite a) (start_time a) (connection_state a) (last_connection_state a)
    (local_credentials a) (remote_credentials a) (local_candidates a) (remote_candidates a) (candidate_pairs a) (nominated_pair a)
    (selected_pair a) (pending_binding_requests a) (max_binding_requests a) (host_acceptance_min_wait a) (srflx_acceptance_min_wait a)
    (prflx_acceptance_min_wait a) (relay_acceptance_min_wait a) (disconnected_timeout a) (failed_timeout a) (keepalive_interval a)
    (last_consent_sent a) (check_interval a) (checking_duration a) (last_checking_time a) (force_candidate_contact a) (mdns a)
    (mdns_queries a) (mdns_mode a) (mdns_local_name a) (mdns_local_ip a) (candidate_types a) (network_types a) (write_outs a)
    (event_outs a) (draws a).
#[export] Instance set_is_controlling : Setter is_controlling.
Proof. make_setter eta_agent is_controlling. Defined.
#[export] Instance set_start_time : Setter start_time.
Proof. make_setter eta_agent start_time. Defined.
#[export] Instance set_connection_state : Setter connection_state.
Proof. make_setter eta_agent connection_state. Defined.
#[export] Instance set_last_connection_state : Setter last_connection_state.
Proof. make_setter eta_agent last_connection_state. Defined.
#[export] Instance set_local_credentials : Setter local_credentials.
Proof. make_setter eta_agent local_credentials. Defined.
#[export] Instance set_remote_credentials_ : Setter remote_credentials.
Proof. make_setter eta_agent remote_credentials. Defined.
#[export] Instance set_local_candidates : Setter local_candidates.
Proof. make_setter eta_agent local_candidates. Defined.
#[export] Instance set_remote_candidates : Setter remote_candidates.
Proof. make_setter eta_agent remote_candidates. Defined.
#[export] Instance set_candidate_pairs : Setter candidate_pairs.
Proof. make_setter eta_agent candidate_pairs. Defined.
#[export] Instance set_nominated_pair : Setter nominated_pair.
Proof. make_setter eta_agent nominated_pair. Defined.
#[export] Instance set_selected_pair_ : Setter selected_pair.
Proof. make_setter eta_agent selected_pair. Defined.
#[export] Instance set_pending : Setter pending_binding_requests.
Proof. make_setter eta_agent pending_binding_requests. Defined.
#[export] Instance set_last_consent_sent : Setter last_consent_sent.
Proof. make_setter eta_agent last_consent_sent. Defined.
#[export] Instance set_checking_duration : Setter checking_duration.
Proof. make_setter eta_agent checking_duration. Defined.
#[export] Instance set_last_checking_time : Setter last_checking_time.
Proof. make_setter eta_agent last_checking_time. Defined.
#[export] Instance set_force_contact : Setter force_candidate_contact.
Proof. make_setter eta_agent force_candidate_contact. Defined.
#[export] Instance set_mdns : Setter mdns.
Proof. make_setter eta_agent mdns. Defined.
#[export] Instance set_mdns_queries : Setter mdns_queries.
Proof. make_setter eta_agent mdns_queries. Defined.
#[export] Instance set_write_outs : Setter write_outs.
Proof. make_setter eta_agent write_outs. Defined.
#[export] Instance set_event_outs : Setter event_outs.
Proof. make_setter eta_agent event_outs. Defined.
#[export] Instance set_draws : Setter draws.
Proof. make_setter eta_agent draws. Defined.

(** * Access by index, which panics out of range *)

Definition local_at (i : nat) : sm Agent Candidate := λ a, (match local_candidates a !! i with Some c => Ok c | None => Panic end, a).
Definition remote_at (i : nat) : sm Agent Candidate := λ a, (match remote_candidates a !! i with Some c => Ok c | None => Panic end, a).
Definition pair_at (i : nat) : sm Agent CandidatePair := λ a, (match candidate_pairs a !! i with Some p => Ok p | None => Panic end, a).

Definition edit_local (i : nat) (f : Candidate → Candidate) : sm Agent unit :=
  do! c <- local_at i; smodify (λ a, a <| local_candidates ::= λ l, <[i := f c]> l |>).
Definition edit_remote (i : nat) (f : Candidate → Candidate) : sm Agent unit :=
  do! c <- remote_at i; smodify (λ a, a <| remote_candidates ::= λ l, <[i := f c]> l |>).
Definition edit_pair (i : nat) (f : CandidatePair → CandidatePair) : sm Agent unit :=
  do! p <- pair_at i; smodify (λ a, a <| candidate_pairs ::= λ l, <[i := f p]> l |>).

Definition draw : sm Agent Z := λ a, (Ok (draws a), a <| draws ::= Z.succ |>).

Fixpoint sfor {A} (f : A → sm Agent unit) (l : list A) : sm Agent unit :=
  match l with
  | [] => sret tt
  | x :: l => do! _ <- f x; sfor f l
  end.

(** * Pairs and candidates *)

Definition add_pair (l r : nat) : sm Agent unit :=
  do! lc <- local_at l;
  do! rc <- remote_at r;
  smodify (λ a, a <| candidate_pairs ::= λ ps, ps ++ [pair_new l r (candidate_priority lc) (candidate_priority rc) (is_controlling a)] |>).

Definition find_pair (a : Agent) (l r : nat) : option nat :=
  fst <$> list_find (λ p, local_index p = l ∧ remote_index p = r) (candidate_pairs a).

Definition find_remote_candidate (a : Agent) (addr : SocketAddr) : option nat :=
  fst <$> list_find (λ c, resolved_addr c = addr) (remote_candidates a).

Definition local_matches (addr : SocketAddr) (proto : TransportProtocol) (c : Candidate) : bool :=
  if negb (bool_decide (to_protocol (network_type c) = proto)) then false
  else if bool_decide (tcp_type c = Active) && bool_decide (proto = TCP) then bool_decide (sa_ip (resolved_addr c) = sa_ip addr)
  else if bool_decide (resolved_addr c = addr) then true
  else match related_address c with
       | Some r => bool_decide (rel_address r = ip_to_string (sa_ip addr)) && (rel_port r =? sa_port addr)
       | None => false
       end.

Definition find_local_candidate (a : Agent) (addr : SocketAddr) (proto : TransportProtocol) : option nat :=
  fst <$> list_find (λ c, local_matches addr proto c = true) (local_candidates a).

Definition request_connectivity_check (a : Agent) : Agent := a <| force_candidate_contact := true |>.

(** The pairs of a new local and of a new remote candidate *)
Definition pair_local (l r : nat) : sm Agent unit :=
  do! lc <- local_at l;
  do! rc <- remote_at r;
  if can_pair_with lc rc then add_pair l r else sret tt.

Definition network_allowed (a : Agent) (c : Candidate) : bool :=
  match network_types a with [] => true | l => bool_decide (network_type c ∈ l) end.

Definition hide_address (a : Agent) (c : Candidate) : Candidate :=
  if bool_decide (candidate_type c = Host) && bool_decide (mdns_mode a = QueryAndGather) && bool_decide (network_type c = Udp4) &&
     bool_decide (mdns_local_ip a = Some (sa_ip (resolved_addr c)))
  then c <| address := mdns_local_name a |> else c.

Definition add_local_candidate (c : Candidate) : sm Agent bool := λ a,
  if negb (network_allowed a c) then (Ok false, a)
  else if match candidate_types a with [] => false | l => negb (bool_decide (candidate_type c ∈ l)) end then (Ok false, a)
  else
    let c := hide_address a c in
    if existsb (λ d, equal d c) (local_candidates a) then (Ok false, a)
    else
      (do! _ <- smodify (λ a, a <| local_candidates ::= λ l, l ++ [c] |>);
       do! _ <- sfor (λ r, pair_local (length (local_candidates a)) r) (seq 0 (length (remote_candidates a)));
       do! _ <- smodify request_connectivity_check;
       sret true) a.

Definition trigger_one (c : Candidate) : sm Agent unit := λ a,
  if existsb (λ d, equal d c) (remote_candidates a) then (Ok tt, a)
  else
    (do! _ <- smodify (λ a, a <| remote_candidates ::= λ l, l ++ [c] |>);
     do! _ <- sfor (λ l, pair_local l (length (remote_candidates a))) (seq 0 (length (local_candidates a)));
     smodify request_connectivity_check) a.

Definition trigger_request_connectivity_check (l : list Candidate) : sm Agent unit := sfor trigger_one l.

Definition add_remote_candidate (clk : Z) (c : Candidate) : sm Agent bool := λ a,
  if negb (network_allowed a c) then (Ok false, a)
  else if bool_decide (tcp_type c = Active) then (Ok false, a)
  else if bool_decide (candidate_type c = Host) && ends_with (address c) (ascii_bytes ".local"%string) then
    if bool_decide (mdns_mode a = MdnsDisabled) then (Ok false, a)
    else
      match mdns a with
      | Some conn =>
          match mdns_query clk (address c) conn with
          | (Ok id, conn) => (Ok false, a <| mdns := Some conn |> <| mdns_queries ::= λ q, <[id := c]> q |>)
          | (Err e, conn) => (Err e, a <| mdns := Some conn |>)
          | (Panic, conn) => (Panic, a <| mdns := Some conn |>)
          end
      | None => (Ok false, a)
      end
  else (do! _ <- trigger_request_connectivity_check [c]; sret true) a.

Definition set_remote_credentials (u p : bytes) : sm Agent unit := λ a,
  if bool_decide (u = []) then (Err ErrRemoteUfragEmpty, a)
  else if bool_decide (p = []) then (Err ErrRemotePwdEmpty, a)
  else (Ok tt, a <| remote_credentials := Some (mkCredentials u p) |>).

Definition set_role (controlling : bool) (a : Agent) : Agent := a <| is_controlling := controlling |>.

Definition delete_all_candidates (keep_local : bool) (a : Agent) : Agent :=
  let a := if keep_local then a else a <| local_candidates := [] |> in
  a <| remote_candidates := [] |> <| candidate_pairs := [] |> <| selected_pair := None |> <| nominated_pair := None |>.

Definition update_connection_state (s : ConnectionState) (a : Agent) : Agent :=
  if bool_decide (connection_state a = s) then a
  else
    let a := if bool_decide (s = Failed) then delete_all_candidates false (a <| selected_pair := None |>) else a in
    a <| connection_state := s |> <| event_outs ::= λ l, l ++ [ConnectionStateChange s] |>.

(** [set_selected_pair(Some(i))]; [None] only resets the field. *)
Definition set_selected_pair (i : nat) : sm Agent unit :=
  do! _ <- edit_pair i (λ p, p <| nominated := true |>);
  do! _ <- smodify (λ a, a <| selected_pair := Some i |>);
  do! _ <- smodify (update_connection_state Connected);
  do! p <- pair_at i;
  do! lc <- local_at (local_index p);
  do! rc <- remote_at (remote_index p);
  smodify (λ a, a <| event_outs ::= λ l, l ++ [SelectedCandidatePairChange lc rc] |>).

(** * Messages *)

Definition send_stun (clk : Z) (msg : Message) (l r : nat) : sm Agent unit :=
  do! rc <- remote_at r;
  do! lc <- local_at l;
  let context := mkTransportContext (resolved_addr lc) (resolved_addr rc) (if is_tcp (network_type lc) then TCP else UDP) in
  do! _ <- smodify (λ a, a <| write_outs ::= λ w, w ++ [mkTagged clk context (raw msg)] |>);
  edit_local l (seen true clk).

(** [checked_duration_since] is [None] for a time stamp that is ahead. *)
Definition invalidate_pending_binding_requests (filter_time : Z) (a : Agent) : Agent :=
  a <| pending_binding_requests ::= filter (λ b, filter_time < br_timestamp b ∨ filter_time - br_timestamp b < MAX_BINDING_REQUEST_TIMEOUT) |>.

Definition tracked (l r : nat) (f : CandidatePair → CandidatePair) : sm Agent unit := λ a,
  match find_pair a l r with Some i => edit_pair i f a | None => (Ok tt, a) end.

Definition send_binding_request (clk : Z) (m : Message) (l r : nat) : sm Agent unit :=
  do! _ <- smodify (invalidate_pending_binding_requests clk);
  do! rc <- remote_at r;
  do! _ <- smodify (λ a, a <| pending_binding_requests ::= λ q,
    q ++ [mkBindingRequest clk (transaction_id m) (resolved_addr rc) (contains m ATTR_USE_CANDIDATE)] |>);
  do! _ <- tracked l r on_request_sent;
  send_stun clk m l r.

(** A message that cannot be built is logged and not sent. *)
Definition when_built (setters : list (sm Message unit)) (k : Message → sm Agent unit) : sm Agent unit := λ a,
  match build setters message_new with
  | (Ok _, m) => k m a
  | (Err _, _) => (Ok tt, a)
  | (Panic, _) => (Panic, a)
  end.

(** [impl Setter for Message]: a response takes the transaction of the request. *)
Definition message_add_to (m : Message) : sm Message unit := transaction_id_add_to (transaction_id m).

Definition success_setters (m : Message) (addr : SocketAddr) (password : bytes) : list (sm Message unit) :=
  [message_add_to m; type_add_to BINDING_SUCCESS; attr_add (mkXorMapped (sa_ip addr) (sa_port addr));
   integrity_add_to password; fingerprint_add_to].

Definition send_binding_success (clk : Z) (m : Message) (l r : nat) : sm Agent unit :=
  do! rc <- remote_at r;
  do! password <- sgets (λ a, pwd (local_credentials a));
  when_built (success_setters m (resolved_addr rc) password) (λ out,
    do! _ <- tracked l r on_response_sent;
    send_stun clk out l r).

Definition CODE_ROLE_CONFLICT : Z := 487.

Definition conflict_setters (m : Message) (password : bytes) : list (sm Message unit) :=
  [message_add_to m; type_add_to BINDING_ERROR; code_add_to CODE_ROLE_CONFLICT; integrity_add_to password; fingerprint_add_to].

Definition send_role_conflict_error (clk : Z) (m : Message) (l r : nat) : sm Agent unit :=
  do! password <- sgets (λ a, pwd (local_credentials a));
  when_built (conflict_setters m password) (λ out, send_stun clk out l r).

Definition switch_role (a : Agent) : Agent :=
  let role := negb (is_controlling a) in
  a <| is_controlling := role |> <| candidate_pairs ::= λ ps, (λ p, p <| ice_role_controlling := role |>) <$> ps |>
    <| nominated_pair := None |> <| event_outs ::= λ l, l ++ [RoleChange role] |>.

(** ** Requests *)

Definition colon : bytes := [58].

(** The setters of a check: with [use_candidate] it nominates. *)
Definition request_setters (tid username : bytes) (use_candidate controlling : bool) (tie priority : Z) (password : bytes) : list (sm Message unit) :=
  [type_add_to BINDING_REQUEST; transaction_id_add_to tid; attr_add (mkText ATTR_USERNAME username)] ++
  (if use_candidate then [use_candidate_add_to] else []) ++
  [if controlling then attr_add (mkControlling tie) else attr_add (mkControlled tie); attr_add (mkPriority priority);
   integrity_add_to password; fingerprint_add_to].

Definition ping_candidate (clk : Z) (l r : nat) : sm Agent unit := λ a,
  match remote_credentials a with
  | None => (Ok tt, a)
  | Some cred =>
      (do! n <- draw;
       do! lc <- local_at l;
       when_built (request_setters (random_tid n) (ufrag cred ++ colon ++ ufrag (local_credentials a)) false (is_controlling a)
                     (agent_tie_breaker a) (candidate_priority lc) (pwd cred))
         (λ msg, send_binding_request clk msg l r)) a
  end.

Definition nominate_pair (clk : Z) : sm Agent unit := λ a,
  match remote_credentials a, nominated_pair a with
  | Some cred, Some i =>
      (do! p <- pair_at i;
       do! n <- draw;
       when_built (request_setters (random_tid n) (ufrag cred ++ colon ++ ufrag (local_credentials a)) true true
                     (agent_tie_breaker a) (local_priority p) (pwd cred))
         (λ msg, send_binding_request clk msg (local_index p) (remote_index p))) a
  | _, _ => (Ok tt, a)
  end.

(** The loop of [ping_all_candidates]: the pairs after it, and the ones to ping *)
Fixpoint ping_pass (max : Z) (ps : list CandidatePair) : list CandidatePair * list (nat * nat) :=
  match ps with
  | [] => ([], [])
  | p :: ps =>
      let '(qs, pings) := ping_pass max ps in
      match pair_state p with
      | Waiting | InProgress =>
          let p := p <| pair_state := InProgress |> in
          if max <? binding_request_count p then (p <| pair_state := PairFailed |> :: qs, pings)
          else (p <| binding_request_count ::= λ n, u16 (n + 1) |> :: qs, (local_index p, remote_index p) :: pings)
      | _ => (p :: qs, pings)
      end
  end.

Definition ping_all_candidates (clk : Z) : sm Agent unit := λ a,
  let '(ps, pings) := ping_pass (max_binding_requests a) (candidate_pairs a) in
  sfor (λ '(l, r), ping_candidate clk l r) pings (a <| candidate_pairs := ps |>).

(** ** The selected pair *)

Definition validate_selected_pair (clk : Z) : sm Agent bool := λ a,
  match selected_pair a with
  | None => (Ok false, a)
  | Some i =>
      (do! p <- pair_at i;
       do! rc <- remote_at (remote_index p);
       let disconnected_time := Z.max 0 (clk - last_received rc) in
       do! total_time_to_failure <- slift (if failed_timeout a =? 0 then Ok 0 else duration_add (failed_timeout a) (disconnected_timeout a));
       do! _ <- smodify (update_connection_state
         (if negb (total_time_to_failure =? 0) && (total_time_to_failure <? disconnected_time) then Failed
          else if negb (disconnected_timeout a =? 0) && (disconnected_timeout a <? disconnected_time) then Disconnected
          else Connected));
       sret true) a
  end.

Definition check_keepalive (clk : Z) : sm Agent unit := λ a,
  match selected_pair a with
  | None => (Ok tt, a)
  | Some i =>
      (do! p <- pair_at i;
       if negb (keepalive_interval a =? 0) && (keepalive_interval a <=? Z.max 0 (clk - last_consent_sent a)) then
         do! _ <- smodify (λ a, a <| last_consent_sent := clk |>);
         do! _ <- edit_pair i on_consent_request_sent;
         ping_candidate clk (local_index p) (remote_index p)
       else sret tt) a
  end.

(** The best pair of those [ok] accepts; among equals the first *)
Fixpoint best_loop (ok : CandidatePair → bool) (i : nat) (best : option (nat * CandidatePair)) (ps : list CandidatePair) : option nat :=
  match ps with
  | [] => fst <$> best
  | p :: ps =>
      let best :=
        if ok p then
          match best with
          | Some (j, b) => if pair_priority b <? pair_priority p then Some (i, p) else best
          | None => Some (i, p)
          end
        else best in
      best_loop ok (S i) best ps
  end.

Definition get_best_available_pair (a : Agent) : option nat :=
  best_loop (λ p, negb (bool_decide (pair_state p = PairFailed))) 0 None (candidate_pairs a).
Definition get_best_valid_candidate_pair (a : Agent) : option nat :=
  best_loop (λ p, bool_decide (pair_state p = Succeeded)) 0 None (candidate_pairs a).

(** [is_nominatable], of the candidate at an index *)
Definition nominatable (clk : Z) (a : Agent) (c : Candidate) : bool :=
  let waited := Z.max 0 (clk - start_time a) in
  match candidate_type c with
  | Host => host_acceptance_min_wait a <? waited
  | ServerReflexive => srflx_acceptance_min_wait a <? waited
  | PeerReflexive => prflx_acceptance_min_wait a <? waited
  | Relay => relay_acceptance_min_wait a <? waited
  | CandUnspecified => false
  end.
Definition is_nominatable (clk : Z) (i : nat) (is_local : bool) : sm Agent bool :=
  do! c <- (if is_local then local_at i else remote_at i);
  sgets (λ a, nominatable clk a c).

(** [is_nominatable(local) && is_nominatable(remote)] *)
Definition both_nominatable (clk : Z) (p : CandidatePair) : sm Agent bool :=
  do! b <- is_nominatable clk (local_index p) true;
  if (b : bool) then is_nominatable clk (remote_index p) false else sret false.

(** * The selectors *)

(** [ControllingSelector::start] and [ControlledSelector::start] *)
Definition start (clk : Z) (a : Agent) : Agent :=
  if is_controlling a then a <| nominated_pair := None |> <| start_time := clk |> else a.

Definition maintain_selected (clk : Z) : sm Agent unit :=
  do! valid <- validate_selected_pair clk;
  if (valid : bool) then check_keepalive clk else sret tt.

Definition contact_controlling (clk : Z) : sm Agent unit := λ a,
  if bool_decide (is_Some (selected_pair a)) then maintain_selected clk a
  else if bool_decide (is_Some (nominated_pair a)) then nominate_pair clk a
  else
    match get_best_valid_candidate_pair a with
    | Some i =>
        (do! p <- pair_at i;
         do! b <- both_nominatable clk p;
         if (b : bool) then
           do! _ <- edit_pair i (λ p, p <| nominated := true |>);
           do! _ <- smodify (λ a, a <| nominated_pair := Some i |>);
           nominate_pair clk
         else ping_all_candidates clk) a
    | None => ping_all_candidates clk a
    end.

Definition contact_controlled (clk : Z) : sm Agent unit := λ a,
  if lite a then (do! _ <- validate_selected_pair clk; sret tt) a
  else if bool_decide (is_Some (selected_pair a)) then maintain_selected clk a
  else ping_all_candidates clk a.

Definition contact_candidates (clk : Z) : sm Agent unit := λ a,
  if is_controlling a then contact_controlling clk a else contact_controlled clk a.

(** [handle_inbound_binding_success]: the pending request, which is removed *)
Definition handle_inbound_binding_success (clk : Z) (id : bytes) (a : Agent) : option BindingRequest * Agent :=
  let a := invalidate_pending_binding_requests clk a in
  match list_find (λ b, br_transaction_id b = id) (pending_binding_requests a) with
  | Some (i, b) => (Some b, a <| pending_binding_requests ::= delete i |>)
  | None => (None, a)
  end.

(** Of both selectors; only the controlling one selects the pair. *)
Definition handle_success_response (clk now : Z) (m : Message) (l r : nat) (remote_addr : SocketAddr) : sm Agent unit := λ a,
  let '(pending, a) := handle_inbound_binding_success clk (transaction_id m) a in
  match pending with
  | None => (Ok tt, a)
  | Some b =>
      if negb (bool_decide (br_destination b = remote_addr)) then (Ok tt, a)
      else
        match find_pair a l r with
        | None => (Ok tt, a)
        | Some i =>
            (do! _ <- edit_pair i (λ p, on_response_received (Z.max 0 (now - br_timestamp b)) (p <| pair_state := Succeeded |>));
             if is_controlling a && is_use_candidate b && bool_decide (selected_pair a = None) then set_selected_pair i else sret tt) a
        end
  end.

Definition binding_request_controlling (clk : Z) (m : Message) (l r : nat) : sm Agent unit :=
  do! _ <- send_binding_success clk m l r;
  do! found <- sgets (λ a, find_pair a l r);
  match found with
  | Some i =>
      do! _ <- edit_pair i on_request_received;
      do! p <- pair_at i;
      do! ready <- sgets (λ a, bool_decide (pair_state p = Succeeded) && bool_decide (nominated_pair a = None) &&
                               bool_decide (selected_pair a = None) && bool_decide (get_best_available_pair a = Some i));
      if (ready : bool) then
        do! b <- both_nominatable clk p;
        if (b : bool) then
          do! _ <- smodify (λ a, a <| nominated_pair := Some i |>);
          nominate_pair clk
        else sret tt
      else sret tt
  | None =>
      do! _ <- add_pair l r;
      tracked l r on_request_received
  end.

Definition binding_request_controlled (clk : Z) (m : Message) (l r : nat) : sm Agent unit :=
  do! found <- sgets (λ a, find_pair a l r);
  do! _ <- (if bool_decide (found = None) then add_pair l r else sret tt);
  do! found <- sgets (λ a, find_pair a l r);
  match found with
  | None => sret tt
  | Some i =>
      do! _ <- edit_pair i on_request_received;
      do! p <- pair_at i;
      if contains m ATTR_USE_CANDIDATE then
        if bool_decide (pair_state p = Succeeded) then
          do! unselected <- sgets (λ a, bool_decide (selected_pair a = None));
          do! _ <- (if (unselected : bool) then set_selected_pair i else sret tt);
          send_binding_success clk m l r
        else ping_candidate clk l r
      else
        do! _ <- send_binding_success clk m l r;
        ping_candidate clk l r
  end.

Definition handle_binding_request (clk : Z) (m : Message) (l r : nat) : sm Agent unit := λ a,
  if is_controlling a then binding_request_controlling clk m l r a else binding_request_controlled clk m l r a.

(** * What arrives *)

Definition assert_inbound_username (m : Message) (expected : bytes) : res unit :=
  let! u := attr_get (mkText ATTR_USERNAME []) m in
  if bool_decide (text u = expected) then Ok tt else Err ErrOther.

(** A role conflict of a request: the error response, and the change of the role when [loses] *)
Definition role_conflict (clk : Z) (m : Message) (l : nat) (remote_addr : SocketAddr) (loses : Agent → bool) : sm Agent unit :=
  if class (typ m) =? CLASS_REQUEST then
    do! found <- sgets (λ a, find_remote_candidate a remote_addr);
    do! _ <- match found with Some r => send_role_conflict_error clk m l r | None => sret tt end;
    do! b <- sgets loses;
    if (b : bool) then smodify switch_role else sret tt
  else sret tt.

Definition check_role (clk : Z) (m : Message) (l : nat) (remote_addr : SocketAddr) : sm Agent unit := λ a,
  if is_controlling a then
    if contains m ATTR_ICE_CONTROLLING then
      (do! remote <- slift (attr_get (mkControlling 0) m);
       role_conflict clk m l remote_addr (λ a, agent_tie_breaker a <? controlling remote)) a
    else if contains m ATTR_USE_CANDIDATE then (Err ErrUnexpectedStunrequestMessage, a)
    else (Ok tt, a)
  else if contains m ATTR_ICE_CONTROLLED then
    (do! remote <- slift (attr_get (mkControlled 0) m);
     role_conflict clk m l remote_addr (λ a, controlled remote <? agent_tie_breaker a)) a
  else (Ok tt, a).

(** A peer-reflexive candidate for a request from an unknown address: its index, if it was added *)
Definition learn_candidate (clk : Z) (l : nat) (remote_addr : SocketAddr) : sm Agent (option nat) :=
  do! lc <- local_at l;
  do! n <- draw;
  do! c <- slift (new_candidate_peer_reflexive (random_cand_id n) (network_to_string (network_type lc)) (ip_to_string (sa_ip remote_addr))
                    (sa_port remote_addr) (component lc) clk);
  do! added <- add_remote_candidate clk c;
  if (added : bool) then sgets (λ a, find_remote_candidate a remote_addr) else sret None.

Definition inbound_request (clk : Z) (cred : Credentials) (m : Message) (l : nat) (remote_addr : SocketAddr) : sm Agent (option nat) := λ a,
  match assert_inbound_username m (ufrag (local_credentials a) ++ colon ++ ufrag cred) with
  | Ok _ =>
      match integrity_check (pwd (local_credentials a)) m with
      | (Ok _, m) =>
          (do! known <- sgets (λ a, find_remote_candidate a remote_addr);
           do! r <- match known with Some r => sret (Some r) | None => learn_candidate clk l remote_addr end;
           do! _ <- match r with Some r => handle_binding_request clk m l r | None => sret tt end;
           sret r) a
      | (Err e, _) => (Err e, a)
      | (Panic, _) => (Panic, a)
      end
  | Err e => (Err e, a)
  | Panic => (Panic, a)
  end.

Definition inbound_success (clk now : Z) (cred : Credentials) (m : Message) (l : nat) (remote_addr : SocketAddr) : sm Agent (option nat) := λ a,
  match integrity_check (pwd cred) m with
  | (Ok _, m) =>
      match find_remote_candidate a remote_addr with
      | Some r => (do! _ <- handle_success_response clk now m l r remote_addr; sret (Some r)) a
      | None => (Err ErrUnhandledStunpacket, a)
      end
  | (Err e, _) => (Err e, a)
  | (Panic, _) => (Panic, a)
  end.

Definition handle_inbound (clk now : Z) (m : Message) (l : nat) (remote_addr : SocketAddr) : sm Agent unit :=
  do! _ <- sguard (negb (method (typ m) =? METHOD_BINDING) ||
                   negb ((class (typ m) =? CLASS_SUCCESS_RESPONSE) || (class (typ m) =? CLASS_REQUEST) || (class (typ m) =? CLASS_INDICATION)))
                  ErrUnhandledStunpacket;
  do! _ <- check_role clk m l remote_addr;
  do! creds <- sgets remote_credentials;
  match creds with
  | None => slift (Err ErrPasswordEmpty)
  | Some cred =>
      do! r <- (if class (typ m) =? CLASS_SUCCESS_RESPONSE then inbound_success clk now cred m l remote_addr
                else if class (typ m) =? CLASS_REQUEST then inbound_request clk cred m l remote_addr
                else sgets (λ a, find_remote_candidate a remote_addr));
      match r with Some r => edit_remote r (seen false clk) | None => sret tt end
  end.

Definition validate_non_stun_traffic (clk : Z) (remote_addr : SocketAddr) : sm Agent bool := λ a,
  match find_remote_candidate a remote_addr with
  | Some r => (do! _ <- edit_remote r (seen false clk); sret true) a
  | None => (Ok false, a)
  end.

Definition is_valid_non_stun_traffic (clk : Z) (t : TransportContext) : sm Agent bool := λ a,
  match find_local_candidate a (local_addr t) (transport_protocol t) with
  | Some _ => validate_non_stun_traffic clk (peer_addr t) a
  | None => (Ok false, a)
  end.

Definition message_default : Message := mkMessage (mkType 0 0) 0 (replicate 12 0) [] [].

Definition handle_inbound_candidate_msg (clk : Z) (l : nat) (msg : TaggedBytes) : sm Agent unit := λ a,
  if is_stun_message (message msg) then
    match unmarshal_binary (message msg) message_default with
    | (Ok _, m) => handle_inbound clk (tagged_now msg) m l (peer_addr (transport msg)) a
    | (Err e, _) => (Err e, a)
    | (Panic, _) => (Panic, a)
    end
  else (do! _ <- validate_non_stun_traffic clk (peer_addr (transport msg)); slift (Err ErrNonStunmessage)) a.

(** The answers of the mDNS connection: the candidates whose address is known now *)
Fixpoint mdns_answers (events : list MdnsEvent) (q : gmap Z Candidate) : list Candidate * gmap Z Candidate :=
  match events with
  | [] => ([], q)
  | QueryAnswered id addr :: events =>
      match q !! id with
      | Some c =>
          let '(cs, q) := mdns_answers events (delete id q) in
          (match set_ip addr c with Ok c => c :: cs | _ => cs end, q)
      | None => mdns_answers events q
      end
  | QueryTimeout id :: events => mdns_answers events (delete id q)
  end.

Definition take_answers (conn : Mdns) : sm Agent unit := λ a,
  let '(events, conn) := mdns_events conn in
  let '(cs, q) := mdns_answers events (mdns_queries a) in
  trigger_request_connectivity_check cs (a <| mdns := Some conn |> <| mdns_queries := q |>).

Definition agent_handle_read (clk : Z) (msg : TaggedBytes) : sm Agent unit := λ a,
  if sa_port (peer_addr (transport msg)) =? MDNS_PORT then
    match mdns a with
    | Some conn =>
        match mdns_handle_read msg conn with
        | (Ok _, conn) => take_answers conn a
        | (Err e, conn) => (Err e, a <| mdns := Some conn |>)
        | (Panic, conn) => (Panic, a <| mdns := Some conn |>)
        end
    | None => (Ok tt, a)
    end
  else
    match find_local_candidate a (local_addr (transport msg)) (transport_protocol (transport msg)) with
    | Some l => handle_inbound_candidate_msg clk l msg a
    | None => (Err ErrUnhandledStunpacket, a)
    end.

(** * Time *)

Definition get_timeout_interval (a : Agent) : Z :=
  let update (interval x : Z) := if negb (x =? 0) && ((interval =? 0) || (x <? interval)) then x else interval in
  let interval := DEFAULT_CHECK_INTERVAL in
  let interval :=
    match last_connection_state a with
    | New | Checking => update interval (check_interval a)
    | Connected | Disconnected => update interval (keepalive_interval a)
    | _ => interval
    end in
  update (update interval (disconnected_timeout a)) (failed_timeout a).

Definition contact (clk now : Z) : sm Agent unit := λ a,
  let a := a <| force_candidate_contact := false |> in
  if bool_decide (connection_state a = Failed) then (Ok tt, a <| last_connection_state := connection_state a |>)
  else
    let a :=
      if bool_decide (connection_state a = Checking) && negb (bool_decide (last_connection_state a = connection_state a))
      then a <| checking_duration := now |> else a in
    (do! late <- slift (if bool_decide (connection_state a = Checking)
                        then let! limit := duration_add (disconnected_timeout a) (failed_timeout a) in Ok (limit <? Z.max 0 (now - checking_duration a))
                        else Ok false);
     if (late : bool) then
       do! _ <- smodify (update_connection_state Failed);
       smodify (λ a, a <| last_connection_state := connection_state a |>)
     else
       do! _ <- contact_candidates clk;
       smodify (λ a, a <| last_connection_state := connection_state a |> <| last_checking_time := now |>)) a.

Definition agent_handle_timeout (clk now : Z) : sm Agent unit :=
  do! conn <- sgets mdns;
  do! _ <- match conn with
           | Some conn =>
               match mdns_handle_timeout now conn with
               | (Panic, _) => slift Panic
               | (_, conn) => take_answers conn
               end
           | None => sret tt
           end;
  do! due <- sgets (λ a, bool_decide (is_Some (remote_credentials a)) &&
                         (force_candidate_contact a || (last_checking_time a + get_timeout_interval a <=? now)));
  if (due : bool) then contact clk now else sret tt.

Definition agent_poll_timeout (a : Agent) : option Z :=
  let mdns_timeout := mdns a ≫= mdns_poll_timeout in
  let ice_timeout :=
    if bool_decide (is_Some (remote_credentials a)) then
      Some (if force_candidate_contact a then last_checking_time a else last_checking_time a + get_timeout_interval a)
    else None in
  match mdns_timeout, ice_timeout with
  | Some x, Some y => Some (Z.min x y)
  | Some x, None | None, Some x => Some x
  | None, None => None
  end.

Definition agent_poll_write (a : Agent) : option TaggedBytes * Agent :=
  let a :=
    match mdns a with
    | Some conn => let '(out, conn) := mdns_writes conn in a <| mdns := Some conn |> <| write_outs ::= λ w, w ++ out |>
    | None => a
    end in
  match write_outs a with
  | [] => (None, a)
  | x :: w => (Some x, a <| write_outs := w |>)
  end.

Definition agent_poll_event (a : Agent) : option Event * Agent :=
  match event_outs a with
  | [] => (None, a)
  | x :: w => (Some x, a <| event_outs := w |>)
  end.

Definition agent_close : sm Agent unit := λ a,
  let a := update_connection_state Closed (delete_all_candidates false (a <| selected_pair := None |>)) in
  match mdns a with
  | Some conn => let '(r, conn) := mdns_close conn in (r, a <| mdns := Some conn |>)
  | None => (Ok tt, a)
  end.

(** * The start *)

Definition restart (clk : Z) (u p : bytes) (keep_local_candidates : bool) : sm Agent unit :=
  do! u <- match u with [] => do! n <- draw; sret (random_ufrag n) | _ => sret u end;
  do! p <- match p with [] => do! n <- draw; sret (random_pwd n) | _ => sret p end;
  do! _ <- sguard (len u * 8 <? 24) ErrLocalUfragInsufficientBits;
  do! _ <- sguard (len p * 8 <? 128) ErrLocalPwdInsufficientBits;
  do! _ <- smodify (λ a, a <| local_credentials := mkCredentials u p |> <| remote_credentials := None |>
                          <| pending_binding_requests := [] |> <| candidate_pairs := [] |> <| selected_pair := None |>);
  do! _ <- smodify (delete_all_candidates keep_local_candidates);
  do! _ <- smodify (start clk);
  smodify (λ a, if bool_decide (connection_state a = New) then a else update_connection_state Checking a).

Definition start_connectivity_checks (clk : Z) (controlling : bool) (remote_ufrag remote_pwd : bytes) : sm Agent unit :=
  do! _ <- set_remote_credentials remote_ufrag remote_pwd;
  do! _ <- smodify (set_role controlling);
  do! _ <- smodify (start clk);
  do! _ <- smodify (update_connection_state Checking);
  smodify request_connectivity_check.

Record AgentConfig := mkAgentConfig {
  cf_urls : list bytes;
  cf_local_ufrag : bytes;
  cf_local_pwd : bytes;
  cf_mdns_mode : MulticastDnsMode;
  cf_mdns_local_name : bytes;
  cf_mdns_local_ip : option IpAddr;
  cf_mdns_query_timeout : option Z;
  cf_disconnected_timeout : option Z;
  cf_failed_timeout : option Z;
  cf_keepalive_interval : option Z;
  cf_candidate_types : list CandidateType;
  cf_network_types : list NetworkType;
  cf_check_interval : Z;
  cf_max_binding_requests : option Z;
  cf_is_controlling : bool;
  cf_lite : bool;
  cf_host_wait : option Z;
  cf_srflx_wait : option Z;
  cf_prflx_wait : option Z;
  cf_relay_wait : option Z
}.

(** [Agent::new]: [tie] and [random_name] are drawn. *)
Definition agent_new (clk tie : Z) (random_name : bytes) (c : AgentConfig) : res Agent :=
  let name := match cf_mdns_local_name c with [] => random_name | n => n end in
  if negb (ends_with name (ascii_bytes ".local"%string)) || negb (len (filter (λ b, b = 46) name) =? 1) then Err ErrInvalidMulticastDnshostName
  else
    let types := match cf_candidate_types c with [] => default_candidate_types | l => l end in
    if cf_lite c && negb (bool_decide (types = [Host])) then Err ErrLiteUsingNonHostCandidates
    else if negb (bool_decide (cf_urls c = [])) && negb (contains_candidate_type ServerReflexive types) &&
            negb (contains_candidate_type Relay types) then Err ErrUselessUrlsProvided
    else
      let a := mkAgent tie (cf_is_controlling c) (cf_lite c) clk New StUnspecified (mkCredentials [] []) None [] [] [] None None []
        (default DEFAULT_MAX_BINDING_REQUESTS (cf_max_binding_requests c))
        (default DEFAULT_HOST_ACCEPTANCE_MIN_WAIT (cf_host_wait c)) (default DEFAULT_SRFLX_ACCEPTANCE_MIN_WAIT (cf_srflx_wait c))
        (default DEFAULT_PRFLX_ACCEPTANCE_MIN_WAIT (cf_prflx_wait c)) (default DEFAULT_RELAY_ACCEPTANCE_MIN_WAIT (cf_relay_wait c))
        (default DEFAULT_DISCONNECTED_TIMEOUT (cf_disconnected_timeout c)) (default DEFAULT_FAILED_TIMEOUT (cf_failed_timeout c))
        (default DEFAULT_KEEPALIVE_INTERVAL (cf_keepalive_interval c)) clk
        (if cf_check_interval c =? 0 then DEFAULT_CHECK_INTERVAL else cf_check_interval c) clk clk false
        (mdns_create (cf_mdns_mode c) name (cf_mdns_local_ip c) (cf_mdns_query_timeout c)) ∅ (cf_mdns_mode c) name (cf_mdns_local_ip c)
        types (cf_network_types c) [] [] 0 in
      match restart clk (cf_local_ufrag c) (cf_local_pwd c) false a with
      | (Ok _, a) => Ok a
      | (Err e, _) => Err e
      | (Panic, _) => Panic
      end.

Definition get_selected_candidate_pair : sm Agent (option (Candidate * Candidate)) := λ a,
  match selected_pair a with
  | Some i => (do! p <- pair_at i; do! lc <- local_at (local_index p); do! rc <- remote_at (remote_index p); sret (Some (lc, rc))) a
  | None => (Ok None, a)
  end.

Definition get_best_available_candidate_pair : sm Agent (option (Candidate * Candidate)) := λ a,
  match get_best_available_pair a with
  | Some i => (do! p <- pair_at i; do! lc <- local_at (local_index p); do! rc <- remote_at (remote_index p); sret (Some (lc, rc))) a
  | None => (Ok None, a)
  end.

End Agent.
