(* ===== verification/IceWire.v ===== *)
(** The messages of the ICE agent as octets: a check or a response that one agent builds is what
    the other agent decodes, and passes its integrity check. *)

From stdpp Require Import strings.
From S2P Require Import Prelude Codec Stun StunAttr Ice IceAgent.

Section Wire.
Context {SC : StunCrypto}.

Definition request_attrs (username : bytes) (use_candidate controlling : bool) (tie priority : Z) : list RawAttribute :=
  [mkAttr ATTR_USERNAME (len username) username] ++
  (if use_candidate then [mkAttr ATTR_USE_CANDIDATE 0 []] else []) ++
  [mkAttr (if controlling then ATTR_ICE_CONTROLLING else ATTR_ICE_CONTROLLED) 8 (be 8 tie); mkAttr ATTR_PRIORITY 4 (be 4 priority)].

Definition success_attrs (addr : SocketAddr) (tid : bytes) : list RawAttribute :=
  let c := xor_code (sa_ip addr) (sa_port addr) tid in [mkAttr ATTR_XORMAPPED_ADDRESS (len c) c].

Definition request_message (tid username : bytes) (use_candidate controlling : bool) (tie priority : Z) (password : bytes) : Message :=
  packed BINDING_REQUEST tid (protected_attrs password BINDING_REQUEST tid (request_attrs username use_candidate controlling tie priority)).
Definition success_message (tid : bytes) (addr : SocketAddr) (password : bytes) : Message :=
  packed BINDING_SUCCESS tid (protected_attrs password BINDING_SUCCESS tid (success_attrs addr tid)).

(** Setters that add attributes one by one *)
Lemma run_adds ss l pre rest t tid :
  len tid = 12 → Forall2 (λ s a, ∀ k, s (packed t tid k) = raw_add_to a (packed t tid k)) ss l → Forall attr_made l →
  fits 16 (len (body (pre ++ l))) →
  run_setters (ss ++ rest) (packed t tid pre) = run_setters rest (packed t tid (pre ++ l)).
Proof.
  intros Ht H. revert pre. induction H as [|s a ss l Hs _ IH]; intros pre Hm Hf; [by rewrite app_nil_r|].
  apply Forall_cons in Hm as [Ha Hm]. rewrite cons_middle, app_assoc in Hf |- *. cbn [app run_setters].
  erewrite sbind_Ok; [by apply IH|]. rewrite Hs.
  pose proof (raw_adds_packed [a] pre t tid Ht ltac:(by constructor) (body_fits_prefix _ _ Hf)) as E.
  cbn [fmap list_fmap run_setters] in E. unfold sbind, sret in E. by destruct (raw_add_to a (packed t tid pre)) as [[[]| |] m'].
Qed.

Lemma run_protection key l t tid :
  len tid = 12 → Forall (λ a, attr_typ a ≠ ATTR_FINGERPRINT) l → fits 16 (len (body l) + 32) →
  run_setters [integrity_add_to key; fingerprint_add_to] (packed t tid l) = (Ok tt, packed t tid (protected_attrs key t tid l)).
Proof.
  intros Ht Hno Hf. pose proof (len_nonneg (body l)). cbn [run_setters].
  erewrite sbind_Ok by (apply integrity_add_packed; [done|done|unfold fits in *; lia]).
  erewrite sbind_Ok; [|apply fingerprint_add_packed; [done|rewrite len_body_integrity; unfold fits in *; lia]].
  by rewrite protected_attrs_snoc.
Qed.

Lemma add_raw t v n m : n = len v → add t v m = raw_add_to (mkAttr t n v) m.
Proof. done. Qed.

Lemma body_request username uc ctl tie prio :
  len username <= 513 → 0 <= len (body (request_attrs username uc ctl tie prio)) <= 560.
Proof.
  intros Hu. pose proof (padded_bounds _ (len_nonneg username)). pose proof (len_nonneg username). unfold request_attrs. rewrite !body_app, !len_app.
  assert (∀ t n v, len (body [mkAttr t n v]) = attr_size (len v)) as E.
  { intros. unfold body. cbn [fmap list_fmap concat]. rewrite app_nil_r. apply len_attr_bytes. }
  assert (len (body (if uc then [mkAttr ATTR_USE_CANDIDATE 0 []] else [])) <= 4 ∧ 0 <= len (body (if uc then [mkAttr ATTR_USE_CANDIDATE 0 []] else []))) as [E1 E2]
    by (destruct uc; vm_compute; intuition congruence).
  assert (∀ x y, len (body [x; y]) = attr_size (len (attr_value x)) + attr_size (len (attr_value y))) as E3.
  { intros. unfold body. cbn [fmap list_fmap concat]. by rewrite app_nil_r, len_app, !len_attr_bytes. }
  rewrite E, E3. cbn [attr_value]. rewrite !len_be.
  unfold attr_size, ATTRIBUTE_HEADER_SIZE. change (nearest_padded_value_length (Z.of_nat 8)) with 8. change (nearest_padded_value_length (Z.of_nat 4)) with 4.
  unfold attr_size in *. lia.
Qed.

Definition requests_wf (l : list RawAttribute) : Prop :=
  Forall attr_wf l ∧ Forall (λ a, attr_typ a ≠ ATTR_MESSAGE_INTEGRITY ∧ attr_typ a ≠ ATTR_FINGERPRINT) l ∧ fits 16 (len (body l) + 32).

Lemma request_attrs_wf username uc ctl tie prio : len username <= 513 → requests_wf (request_attrs username uc ctl tie prio).
Proof.
  intros Hu. pose proof (len_nonneg username). pose proof (body_request username uc ctl tie prio Hu). split_and!.
  - unfold request_attrs. repeat (apply Forall_app; split); [|destruct uc|destruct ctl]; repeat constructor; try done; cbn; unfold fits; lia.
  - unfold request_attrs. repeat (apply Forall_app; split); [|destruct uc|destruct ctl]; repeat constructor; done.
  - unfold fits. lia.
Qed.

Lemma success_attrs_wf addr tid : ip_ok (sa_ip addr) → len tid = 12 → requests_wf (success_attrs addr tid).
Proof.
  intros Hi Ht. assert (len (xor_code (sa_ip addr) (sa_port addr) tid) <= 20) as Hl.
  { unfold xor_code. rewrite !len_app, !len_be. unfold safe_xor_bytes. cbn [fst]. rewrite len_app.
    assert (length (ip_octets (sa_ip addr)) <= 16)%nat by (destruct (sa_ip addr), Hi as [Ho _]; cbn [ip_octets]; lia).
    unfold len. rewrite length_zip_with, !length_take, length_drop, length_replicate. lia. }
  pose proof (len_nonneg (xor_code (sa_ip addr) (sa_port addr) tid)) as H0. unfold success_attrs.
  set (c := xor_code _ _ _) in *. clearbody c. split_and!; [apply Forall_singleton; split_and!; cbn; unfold fits; done || lia|by repeat constructor|].
  unfold body. cbn [fmap list_fmap concat]. rewrite app_nil_r, len_attr_bytes. cbn [attr_value]. pose proof (padded_bounds _ H0).
  unfold attr_size, ATTRIBUTE_HEADER_SIZE, fits in *. lia.
Qed.

(** A protected message is decoded to what it was, and passes the check. *)
Lemma protected_read t tid key l m1 :
  type_ok t → len tid = 12 → requests_wf l →
  let m := packed t tid (protected_attrs key t tid l) in
  is_stun_message (raw m) = true ∧ unmarshal_binary (raw m) m1 = (Ok tt, m) ∧ integrity_check key m = (Ok tt, m).
Proof.
  intros HT Ht (H1 & H2 & H3). destruct (protected_message_spec key t tid l message_new m1) as (_ & E2 & E3 & E4 & _); done.
Qed.

Lemma request_built tid username uc ctl tie prio pw :
  len tid = 12 → len username <= 513 →
  build (request_setters tid username uc ctl tie prio pw) message_new = (Ok tt, request_message tid username uc ctl tie prio pw).
Proof.
  intros Ht Hu. destruct (request_attrs_wf username uc ctl tie prio Hu) as (H1 & H2 & H3). rewrite build_run by done. unfold request_setters.
  cbn [app run_setters]. erewrite sbind_Ok by by apply type_add_packed. erewrite sbind_Ok by by apply transaction_id_add_packed.
  assert (∀ k, attr_add (mkText ATTR_USERNAME username) (packed BINDING_REQUEST tid k) = raw_add_to (mkAttr ATTR_USERNAME (len username) username) (packed BINDING_REQUEST tid k)) as Eu.
  { intros k. cbn [attr_add text_attribute]. unfold text_add_to, check_overflow, sbind, slift. cbn [text_attr text]. change (max_len ATTR_USERNAME) with (Some 513). cbv beta iota.
    by rewrite (proj2 (Z.leb_le _ _)). }
  set (ss := attr_add (mkText ATTR_USERNAME username) :: (if uc then [use_candidate_add_to] else []) ++
               [if ctl then attr_add (mkControlling tie) else attr_add (mkControlled tie); attr_add (mkPriority prio)]).
  assert (Forall2 (λ s a, ∀ k, s (packed BINDING_REQUEST tid k) = raw_add_to a (packed BINDING_REQUEST tid k)) ss (request_attrs username uc ctl tie prio)) as Hss.
  { unfold ss, request_attrs. destruct uc, ctl; repeat constructor; done. }
  transitivity (run_setters (ss ++ [integrity_add_to pw; fingerprint_add_to]) (packed BINDING_REQUEST tid [])).
  { unfold ss. by destruct uc. }
  rewrite (run_adds _ _ [] _ _ _ Ht Hss); [|by eapply Forall_impl; [exact H1|intros a []]|cbn [app]; pose proof (len_nonneg (body (request_attrs username uc ctl tie prio))); unfold fits in *; lia].
  cbn [app]. apply run_protection; [done|by eapply Forall_impl; [exact H2|intros a []]|done].
Qed.

Lemma request_overlong tid username uc ctl tie prio pw :
  len tid = 12 → 513 < len username → ∃ m, build (request_setters tid username uc ctl tie prio pw) message_new = (Err ErrAttributeSizeOverflow, m).
Proof.
  intros Ht Hu. rewrite build_run by done. unfold request_setters. cbn [app run_setters].
  erewrite sbind_Ok by by apply type_add_packed. erewrite sbind_Ok by by apply transaction_id_add_packed.
  unfold sbind at 1. cbn [attr_add text_attribute]. unfold text_add_to, check_overflow, sbind at 1, slift. cbn [text_attr text].
  change (max_len ATTR_USERNAME) with (Some 513). cbv beta iota. rewrite (proj2 (Z.leb_gt _ _)) by done. by eexists.
Qed.

Lemma success_built m addr pw :
  len (transaction_id m) = 12 → ip_ok (sa_ip addr) →
  build (success_setters m addr pw) message_new = (Ok tt, success_message (transaction_id m) addr pw).
Proof.
  intros Ht Hi. destruct (success_attrs_wf addr (transaction_id m) Hi Ht) as (H1 & H2 & H3). rewrite build_run by done. unfold success_setters.
  cbn [run_setters]. unfold message_add_to. erewrite sbind_Ok by by apply transaction_id_add_packed. erewrite sbind_Ok by by apply type_add_packed.
  set (tid := transaction_id m) in *.
  pose proof (run_adds [attr_add (mkXorMapped (sa_ip addr) (sa_port addr))] (success_attrs addr tid) [] [integrity_add_to pw; fingerprint_add_to] BINDING_SUCCESS tid Ht) as E.
  cbn [app] in E. cbn [run_setters] in E. rewrite E; [|by repeat constructor|by eapply Forall_impl; [exact H1|intros a []]|
    pose proof (len_nonneg (body (success_attrs addr tid))); unfold fits in *; lia].
  apply run_protection; [done|by eapply Forall_impl; [exact H2|intros a []]|done].
Qed.

(** The error response is always built. *)
Lemma conflict_built m pw : len (transaction_id m) = 12 → ∃ out, build (conflict_setters m pw) message_new = (Ok tt, out).
Proof.
  intros Ht. rewrite build_run by done. unfold conflict_setters, message_add_to. cbn [run_setters].
  erewrite sbind_Ok by by apply transaction_id_add_packed. erewrite sbind_Ok by by apply type_add_packed.
  set (tid := transaction_id m) in *. set (v := [0; 0; 4; 87] ++ ascii_bytes "Role Conflict"%string).
  pose proof (run_adds [code_add_to CODE_ROLE_CONFLICT] [mkAttr ATTR_ERROR_CODE (len v) v] [] [integrity_add_to pw; fingerprint_add_to] BINDING_ERROR tid Ht) as E.
  cbn [app] in E. cbn [run_setters] in E. rewrite E; [|by repeat constructor..].
  eexists. apply (run_protection pw [mkAttr ATTR_ERROR_CODE (len v) v]); [done|by repeat constructor|done].
Qed.

(** * What the receiver finds in a request *)

Lemma request_contains tid username uc ctl tie prio pw :
  let m := request_message tid username uc ctl tie prio pw in
  contains m ATTR_USE_CANDIDATE = uc ∧ contains m ATTR_ICE_CONTROLLING = ctl ∧ contains m ATTR_ICE_CONTROLLED = negb ctl.
Proof. destruct uc, ctl; by vm_compute. Qed.

Lemma request_username tid username uc ctl tie prio pw :
  utf8_valid username = true → attr_get (mkText ATTR_USERNAME []) (request_message tid username uc ctl tie prio pw) = Ok (mkText ATTR_USERNAME username).
Proof. intros Hu. cbn [attr_get text_attribute]. unfold text_get_from_as, get, attributes_get. cbn. by rewrite Hu. Qed.

Lemma request_tie tid username uc ctl tie prio pw :
  fits 64 tie →
  let m := request_message tid username uc ctl tie prio pw in
  if ctl then attr_get (mkControlling 0) m = Ok (mkControlling tie) else attr_get (mkControlled 0) m = Ok (mkControlled tie).
Proof.
  intros Hf m.
  assert (∀ t, t = (if ctl then ATTR_ICE_CONTROLLING else ATTR_ICE_CONTROLLED) → uint_get 8 t m = Ok tie) as E.
  { intros t ->. destruct uc.
    - eapply (uint_get_at 8 _ m tie [mkAttr ATTR_USERNAME (len username) username; mkAttr ATTR_USE_CANDIDATE 0 []]); [done|done|].
      destruct ctl; repeat constructor; set_solver.
    - eapply (uint_get_at 8 _ m tie [mkAttr ATTR_USERNAME (len username) username]); [done|done|]. destruct ctl; repeat constructor; set_solver. }
  destruct ctl; cbn [attr_get controlling_attribute controlled_attribute]; unfold tie_breaker_get_from_as; by rewrite E.
Qed.

Lemma success_contains tid addr pw t : t ≠ ATTR_XORMAPPED_ADDRESS → t ≠ ATTR_MESSAGE_INTEGRITY → t ≠ ATTR_FINGERPRINT → contains (success_message tid addr pw) t = false.
Proof.
  intros H1 H2 H3. unfold contains, success_message, packed, protected_attrs, success_attrs. cbn [attributes app existsb attr_typ integrity_attr fingerprint_attr].
  by rewrite !(proj2 (Z.eqb_neq _ _)) by done.
Qed.

End Wire.
