(* ===== verification/IceSafety.v ===== *)
(** The indices of the ICE agent stay valid.  Pairs refer to candidates, and the selected and the
    nominated pair to pairs, by their index, while candidates come and go: an invariant says that
    every index is in range, and every operation keeps it, whatever arrives.

    [agent_never_panics]: no call of the agent panics, in any sequence of calls. *)

From stdpp Require Import strings.
From S2P Require Import Prelude Codec Stun StunAttr Ice Mdns IceAgent IceWire.

Section Safety.
Context {IT : IpText} {SC : StunCrypto} {RND : IceRandom} {Mdns : Type} {MD : MdnsConn Mdns}.
Abbreviation Agent := (Agent (Mdns := Mdns)).
Implicit Types a b : Agent.

Definition cand_ok (c : Candidate) : Prop := ip_ok (sa_ip (resolved_addr c)).

Definition pair_ok a (p : CandidatePair) : Prop :=
  (local_index p < length (local_candidates a))%nat ∧ (remote_index p < length (remote_candidates a))%nat.

Record agent_ok a : Prop := {
  ok_locals : Forall cand_ok (local_candidates a);
  ok_remotes : Forall cand_ok (remote_candidates a);
  ok_pairs : Forall (pair_ok a) (candidate_pairs a);
  ok_selected : ∀ i, selected_pair a = Some i → (i < length (candidate_pairs a))%nat;
  ok_nominated : ∀ i, nominated_pair a = Some i → (i < length (candidate_pairs a))%nat;
  ok_mdns : ∀ conn, mdns a = Some conn → mdns_ok conn
}.

(** The configured timeouts, whose sum is taken *)
Definition timeouts a : Z * Z := (disconnected_timeout a, failed_timeout a).
Definition durations_fit a : Prop := disconnected_timeout a + failed_timeout a < DURATION_RANGE.

Lemma durations_kept a b : timeouts b = timeouts a → durations_fit a → durations_fit b.
Proof. unfold timeouts, durations_fit. intros [= -> ->]. done. Qed.

(** No candidate and no pair is removed. *)
Record grows a b : Prop := {
  grows_locals : (length (local_candidates a) <= length (local_candidates b))%nat;
  grows_remotes : (length (remote_candidates a) <= length (remote_candidates b))%nat;
  grows_pairs : (length (candidate_pairs a) <= length (candidate_pairs b))%nat;
  grows_timeouts : timeouts b = timeouts a
}.

#[local] Instance grows_preorder : PreOrder grows.
Proof. split; [by intros a|]. intros a b c [] []. split; [lia..|congruence]. Qed.

(** What an operation that removes nothing does *)
Definition good {A} a (r : res A * Agent) (Q : A → Agent → Prop) : Prop :=
  match r with
  | (Ok x, b) => agent_ok b ∧ grows a b ∧ Q x b
  | (Err _, b) => agent_ok b ∧ grows a b
  | (Panic, _) => False
  end.

Lemma good_bind {A B} a (m : sm Agent A) (f : A → sm Agent B) Q R :
  good a (m a) Q → (∀ x b, agent_ok b → grows a b → Q x b → good b (f x b) R) → good a (sbind m f a) R.
Proof.
  unfold good, sbind. destruct (m a) as [[x| |] b]; [|done..]. intros (Hb & Hg & Hq) Hf. specialize (Hf x b Hb Hg Hq).
  destruct (f x b) as [[y| |] c]; [|destruct Hf as [Hc Hg']..|done].
  - destruct Hf as (Hc & Hg' & Hr). split_and!; [done|by transitivity b|done].
  - split; [done|by transitivity b].
Qed.

Lemma good_ret {A} a (x : A) (Q : A → Agent → Prop) : agent_ok a → Q x a → good a (sret x a) Q.
Proof. by intros. Qed.

Lemma good_gets {A} a (f : Agent → A) Q : agent_ok a → Q (f a) a → good a (sgets f a) Q.
Proof. by intros. Qed.

Lemma good_weaken {A} a r (Q R : A → Agent → Prop) : good a r Q → (∀ x b, Q x b → R x b) → good a r R.
Proof. unfold good. destruct r as [[x| |] b]; [|done..]. intros (? & ? & ?). auto. Qed.

Abbreviation any := (λ _ _, True).

(** An update that leaves candidates, pairs, the two indices, the timeouts and the mDNS connection alone *)
Definition same_shape a b : Prop :=
  local_candidates b = local_candidates a ∧ remote_candidates b = remote_candidates a ∧ candidate_pairs b = candidate_pairs a ∧
  selected_pair b = selected_pair a ∧ nominated_pair b = nominated_pair a ∧ timeouts b = timeouts a ∧ mdns b = mdns a.

Lemma same_shape_ok a b : same_shape a b → agent_ok a → agent_ok b ∧ grows a b.
Proof.
  intros (E1 & E2 & E3 & E4 & E5 & E6 & E7) []. split; split; rewrite ?E1, ?E2, ?E3, ?E4, ?E5, ?E7; try done.
  eapply Forall_impl; [done|]. intros p. unfold pair_ok. by rewrite E1, E2.
Qed.

Lemma good_shape a (f : Agent → Agent) Q : same_shape a (f a) → agent_ok a → Q tt (f a) → good a (smodify f a) Q.
Proof. intros Hs Ha Hq. destruct (same_shape_ok _ _ Hs Ha). by split_and!. Qed.

(** * Access *)

Lemma good_local a l : agent_ok a → (l < length (local_candidates a))%nat → good a (local_at l a) (λ c b, b = a ∧ local_candidates a !! l = Some c ∧ cand_ok c).
Proof.
  intros Ha Hl. unfold local_at. destruct (lookup_lt_is_Some_2 _ _ Hl) as [c E]. rewrite E. split_and!; [done..|].
  by eapply Forall_lookup_1; [apply ok_locals|].
Qed.

Lemma good_remote a r : agent_ok a → (r < length (remote_candidates a))%nat → good a (remote_at r a) (λ c b, b = a ∧ remote_candidates a !! r = Some c ∧ cand_ok c).
Proof.
  intros Ha Hl. unfold remote_at. destruct (lookup_lt_is_Some_2 _ _ Hl) as [c E]. rewrite E. split_and!; [done..|].
  by eapply Forall_lookup_1; [apply ok_remotes|].
Qed.

Lemma good_pair a i : agent_ok a → (i < length (candidate_pairs a))%nat → good a (pair_at i a) (λ p b, b = a ∧ candidate_pairs a !! i = Some p ∧ pair_ok a p).
Proof.
  intros Ha Hl. unfold pair_at. destruct (lookup_lt_is_Some_2 _ _ Hl) as [p E]. rewrite E. split_and!; [done..|].
  by eapply Forall_lookup_1; [apply ok_pairs|].
Qed.

Lemma good_edit_pair a i f :
  agent_ok a → (i < length (candidate_pairs a))%nat → (∀ p, local_index (f p) = local_index p ∧ remote_index (f p) = remote_index p) →
  good a (edit_pair i f a) (λ _ b, local_candidates b = local_candidates a ∧ remote_candidates b = remote_candidates a ∧
    length (candidate_pairs b) = length (candidate_pairs a)).
Proof.
  intros Ha Hi Hf. eapply good_bind; [by apply good_pair|]. intros p b Hb _ (-> & E & Hp). unfold smodify, good. record_simpl.
  rewrite length_insert. split_and!; [|split; record_simpl; rewrite ?length_insert; done || lia|done..]. destruct Ha. split; record_simpl; rewrite ?length_insert; try done.
  apply Forall_insert; [done|]. destruct (Hf p) as [E1 E2]. unfold pair_ok in *. record_simpl. by rewrite E1, E2.
Qed.

Lemma good_edit_local a l f :
  agent_ok a → (l < length (local_candidates a))%nat → (∀ c, resolved_addr (f c) = resolved_addr c) → good a (edit_local l f a) any.
Proof.
  intros Ha Hl Hf. eapply good_bind; [by apply good_local|]. intros c b Hb _ (-> & E & Hc). unfold smodify, good. record_simpl.
  split_and!; [|split; record_simpl; rewrite ?length_insert; done || lia|done]. destruct Ha. split; record_simpl; try done.
  - apply Forall_insert; [done|]. unfold cand_ok. by rewrite Hf.
  - eapply Forall_impl; [done|]. intros p. unfold pair_ok. record_simpl. by rewrite length_insert.
Qed.

Lemma good_edit_remote a r f :
  agent_ok a → (r < length (remote_candidates a))%nat → (∀ c, resolved_addr (f c) = resolved_addr c) → good a (edit_remote r f a) any.
Proof.
  intros Ha Hl Hf. eapply good_bind; [by apply good_remote|]. intros c b Hb _ (-> & E & Hc). unfold smodify, good. record_simpl.
  split_and!; [|split; record_simpl; rewrite ?length_insert; done || lia|done]. destruct Ha. split; record_simpl; try done.
  - apply Forall_insert; [done|]. unfold cand_ok. by rewrite Hf.
  - eapply Forall_impl; [done|]. intros p. unfold pair_ok. record_simpl. by rewrite length_insert.
Qed.

Lemma seen_addr o now c : resolved_addr (seen o now c) = resolved_addr c.
Proof. by destruct o. Qed.

Lemma good_sfor {A} (f : A → sm Agent unit) l a (P : Agent → Prop) :
  (∀ b c, P b → grows b c → P c) → (∀ x b, x ∈ l → agent_ok b → P b → good b (f x b) any) → agent_ok a → P a → good a (sfor f l a) any.
Proof.
  intros Hm. revert a. induction l as [|x l IH]; intros a Hf Ha Hp; [by apply good_ret|]. cbn [sfor].
  eapply good_bind; [apply Hf; [by left|done..]|]. intros _ b Hb Hg _. apply IH; [|done|by eapply Hm]. intros y c Hy. apply Hf. by right.
Qed.

(** * Pairs *)

Lemma find_pair_in a l r i : find_pair a l r = Some i → (i < length (candidate_pairs a))%nat.
Proof. unfold find_pair. destruct (list_find _ _) as [[j p]|] eqn:E; [|done]. intros [= <-]. apply list_find_Some in E as [E _]. by eapply lookup_lt_Some. Qed.

Lemma find_remote_in a addr r : find_remote_candidate a addr = Some r → (r < length (remote_candidates a))%nat.
Proof. unfold find_remote_candidate. destruct (list_find _ _) as [[j p]|] eqn:E; [|done]. intros [= <-]. apply list_find_Some in E as [E _]. by eapply lookup_lt_Some. Qed.

Lemma find_local_in a addr t l : find_local_candidate a addr t = Some l → (l < length (local_candidates a))%nat.
Proof. unfold find_local_candidate. destruct (list_find _ _) as [[j p]|] eqn:E; [|done]. intros [= <-]. apply list_find_Some in E as [E _]. by eapply lookup_lt_Some. Qed.

Definition in_range (l r : nat) a : Prop := (l < length (local_candidates a))%nat ∧ (r < length (remote_candidates a))%nat.

Lemma in_range_grows l r a b : in_range l r a → grows a b → in_range l r b.
Proof. intros [] []. unfold in_range. lia. Qed.

Lemma good_add_pair a l r : agent_ok a → in_range l r a → good a (add_pair l r a) any.
Proof.
  intros Ha [Hl Hr]. eapply good_bind; [by apply good_local|]. intros lc b _ _ (-> & _). eapply good_bind; [by apply good_remote|].
  intros rc b _ _ (-> & _). unfold smodify, good. split_and!; [|split; record_simpl; rewrite ?length_app; done || lia|done].
  destruct Ha as [H1 H2 H3 H4 H5 H6]. split; record_simpl; rewrite ?length_app; try done.
  - apply Forall_app. split; [done|]. by apply Forall_singleton.
  - intros i Hi. specialize (H4 i Hi). lia.
  - intros i Hi. specialize (H5 i Hi). lia.
Qed.

Lemma good_tracked a l r f :
  agent_ok a → (∀ p, local_index (f p) = local_index p ∧ remote_index (f p) = remote_index p) → good a (tracked l r f a) any.
Proof.
  intros Ha Hf. unfold tracked. destruct (find_pair a l r) as [i|] eqn:E; [|by split_and!].
  eapply good_weaken; [apply good_edit_pair; [done|by eapply find_pair_in|done]|done].
Qed.

Lemma good_pair_local a l r : agent_ok a → in_range l r a → good a (pair_local l r a) any.
Proof.
  intros Ha [Hl Hr]. eapply good_bind; [by apply good_local|]. intros lc b _ _ (-> & _). eapply good_bind; [by apply good_remote|].
  intros rc b _ _ (-> & _). destruct (can_pair_with lc rc); [by apply good_add_pair|by apply good_ret].
Qed.

(** * Candidates *)

Lemma good_push_local a c : agent_ok a → cand_ok c →
  good a (smodify (λ a : Agent, a <| local_candidates ::= λ l, l ++ [c] |>) a) (λ _ b, length (local_candidates b) = S (length (local_candidates a)) ∧ remote_candidates b = remote_candidates a).
Proof.
  intros [H1 H2 H3 H4 H5 H6] Hc. unfold smodify, good. record_simpl. rewrite length_app. split_and!; [|split; record_simpl; rewrite ?length_app; done || lia|cbn; lia|done].
  split; record_simpl; try done; [apply Forall_app; split; [done|by apply Forall_singleton]|].
  eapply Forall_impl; [done|]. intros p []. unfold pair_ok. record_simpl. rewrite length_app. lia.
Qed.

Lemma good_push_remote a c : agent_ok a → cand_ok c →
  good a (smodify (λ a : Agent, a <| remote_candidates ::= λ l, l ++ [c] |>) a) (λ _ b, length (remote_candidates b) = S (length (remote_candidates a)) ∧ local_candidates b = local_candidates a).
Proof.
  intros [H1 H2 H3 H4 H5 H6] Hc. unfold smodify, good. record_simpl. rewrite length_app. split_and!; [|split; record_simpl; rewrite ?length_app; done || lia|cbn; lia|done].
  split; record_simpl; try done; [apply Forall_app; split; [done|by apply Forall_singleton]|].
  eapply Forall_impl; [done|]. intros p []. unfold pair_ok. record_simpl. rewrite length_app. lia.
Qed.

Lemma good_check_requested a Q : agent_ok a → Q tt (request_connectivity_check a) → good a (smodify request_connectivity_check a) Q.
Proof. intros. apply good_shape; [|done..]. by split_and!. Qed.

Lemma good_add_local a c : agent_ok a → cand_ok c → good a (add_local_candidate c a) any.
Proof.
  intros Ha Hc. unfold add_local_candidate. destruct (negb _); [by split_and!|]. destruct (match candidate_types a with [] => _ | _ => _ end); [by split_and!|].
  destruct (existsb _ _); [by split_and!|]. assert (cand_ok (hide_address a c)) as Hc' by (unfold hide_address; by destruct (_ && _)).
  eapply good_bind; [by apply good_push_local|]. intros _ b Hb Hg [E1 E2].
  eapply good_bind.
  - apply (good_sfor _ _ _ (λ b, (length (local_candidates a) < length (local_candidates b) ∧ length (remote_candidates a) <= length (remote_candidates b))%nat)); [|..|done|rewrite E1, E2; lia].
    + intros x y [] []. lia.
    + intros r x Hr Hx [H1 H2]. apply elem_of_seq in Hr. apply good_pair_local; [done|]. split; lia.
  - intros _ x Hx _ _. eapply good_bind; [by apply (good_check_requested _ any)|]. intros _ y Hy _ _. by apply good_ret.
Qed.

Lemma good_trigger_one a c : agent_ok a → cand_ok c → good a (trigger_one c a) any.
Proof.
  intros Ha Hc. unfold trigger_one. destruct (existsb _ _); [by split_and!|].
  eapply good_bind; [by apply good_push_remote|]. intros _ b Hb Hg [E1 E2].
  eapply good_bind.
  - apply (good_sfor _ _ _ (λ b, (length (local_candidates a) <= length (local_candidates b) ∧ length (remote_candidates a) < length (remote_candidates b))%nat)); [|..|done|rewrite E1, E2; lia].
    + intros x y [] []. lia.
    + intros r x Hr Hx [H1 H2]. apply elem_of_seq in Hr. apply good_pair_local; [done|]. split; lia.
  - intros _ x Hx _ _. by apply good_check_requested.
Qed.

Lemma good_trigger a cs : agent_ok a → Forall cand_ok cs → good a (trigger_request_connectivity_check cs a) any.
Proof.
  intros Ha Hc. apply (good_sfor _ _ _ (λ _, True)); [done| |done..]. intros c b Hin Hb _. apply good_trigger_one; [done|].
  rewrite Forall_forall in Hc. by apply Hc.
Qed.

(** Updates of the mDNS fields *)
Lemma mdns_update_ok a conn q : agent_ok a → mdns_ok conn → agent_ok (a <| mdns := Some conn |> <| mdns_queries := q |>) ∧ grows a (a <| mdns := Some conn |> <| mdns_queries := q |>).
Proof. intros [] Hc. split; split; record_simpl; try done. by intros conn' [= <-]. Qed.

Lemma mdns_conn_ok a conn : agent_ok a → mdns_ok conn → agent_ok (a <| mdns := Some conn |>) ∧ grows a (a <| mdns := Some conn |>).
Proof. intros [] Hc. split; split; record_simpl; try done. by intros conn' [= <-]. Qed.

Lemma good_add_remote a clk c : agent_ok a → cand_ok c → good a (add_remote_candidate clk c a) any.
Proof.
  intros Ha Hc. unfold add_remote_candidate. destruct (negb _); [by split_and!|]. destruct (bool_decide (tcp_type c = Active)); [by split_and!|].
  destruct (_ && _).
  - destruct (bool_decide _); [by split_and!|]. destruct (mdns a) as [conn|] eqn:Em; [|by split_and!].
    destruct (mdns_query_ok clk (address c) conn (ok_mdns a Ha conn Em)) as [Hp Hconn]. destruct (mdns_query _ _ conn) as [[id|e|] conn']; cbn [fst snd] in *; [| |done].
    + destruct (mdns_update_ok a conn' (<[id := c]> (mdns_queries a)) Ha Hconn). by split_and!.
    + by destruct (mdns_conn_ok a conn' Ha Hconn).
  - eapply good_bind; [apply good_trigger; [done|by apply Forall_singleton]|]. intros _ b Hb _ _. by apply good_ret.
Qed.

(** * Messages *)

Lemma good_send_stun a clk m l r : agent_ok a → in_range l r a → good a (send_stun clk m l r a) any.
Proof.
  intros Ha [Hl Hr]. eapply good_bind; [by apply good_remote|]. intros rc b _ _ (-> & _). eapply good_bind; [by apply good_local|].
  intros lc b _ _ (-> & _). eapply good_bind; [apply (good_shape _ _ (λ _ b, (l < length (local_candidates b))%nat)); [by split_and!|done..]|].
  intros u b Hb _ Hl'. apply good_edit_local; [done..|]. intros c. apply seen_addr.
Qed.

Lemma good_send_request a clk m l r : agent_ok a → in_range l r a → good a (send_binding_request clk m l r a) any.
Proof.
  intros Ha Hi. eapply good_bind; [apply (good_shape _ _ (λ _, in_range l r)); [by split_and!|done..]|]. intros u b Hb _ [Hl Hr].
  eapply good_bind; [by apply good_remote|]. intros rc c _ _ (-> & _).
  eapply good_bind; [apply (good_shape _ _ (λ _, in_range l r)); [by split_and!|done..]|]. intros u' c Hc _ Hi'.
  eapply good_bind; [by apply good_tracked|]. intros _ d Hd Hg _. apply good_send_stun; [done|exact (in_range_grows l r c d Hi' Hg)].
Qed.

Lemma good_when_built a setters k :
  agent_ok a → (build setters message_new).1 ≠ Panic → (∀ m, build setters message_new = (Ok tt, m) → good a (k m a) any) → good a (when_built setters k a) any.
Proof. intros Ha Hp Hk. unfold when_built. destruct (build setters message_new) as [[[]| |] m]; [by apply Hk|by split_and!|done]. Qed.

Lemma good_send_success a clk m l r :
  agent_ok a → in_range l r a → len (transaction_id m) = 12 → good a (send_binding_success clk m l r a) any.
Proof.
  intros Ha Hi Ht. eapply good_bind; [apply good_remote; [done|apply Hi]|]. intros rc b _ _ (-> & _ & Hc).
  eapply good_bind; [by apply (good_gets _ _ (λ x b, b = a))|]. intros p b _ _ ->.
  apply good_when_built; [done|by rewrite success_built|]. intros out _.
  eapply good_bind; [by apply good_tracked|]. intros _ b Hb Hg _. apply good_send_stun; [done|by eapply in_range_grows].
Qed.

Lemma good_send_conflict a clk m l r :
  agent_ok a → in_range l r a → len (transaction_id m) = 12 → good a (send_role_conflict_error clk m l r a) any.
Proof.
  intros Ha Hi Ht. eapply good_bind; [by apply (good_gets _ _ (λ x b, b = a))|]. intros p b _ _ ->.
  apply good_when_built; [done| |intros out _; by apply good_send_stun]. destruct (conflict_built m p Ht) as [out E]. by rewrite E.
Qed.

Lemma request_no_panic tid u uc ctl tie prio pw : len tid = 12 → (build (request_setters tid u uc ctl tie prio pw) message_new).1 ≠ Panic.
Proof.
  intros Ht. destruct (Z.le_gt_cases (len u) 513); [by rewrite request_built|].
  destruct (request_overlong tid u uc ctl tie prio pw Ht) as [m E]; [done|]. by rewrite E.
Qed.

Lemma good_draw a : agent_ok a → good a (draw a) (λ _ b, same_shape a b).
Proof. intros Ha. unfold draw, good. destruct (same_shape_ok a (a <| draws ::= Z.succ |>)); [by split_and!|done|]. by split_and!. Qed.

Lemma in_range_shape l r a b : same_shape a b → in_range l r a → in_range l r b.
Proof. intros (E1 & E2 & _). unfold in_range. by rewrite E1, E2. Qed.

Lemma good_ping a clk l r : agent_ok a → in_range l r a → good a (ping_candidate clk l r a) any.
Proof.
  intros Ha Hi. unfold ping_candidate. destruct (remote_credentials a) as [cred|]; [|by split_and!].
  eapply good_bind; [by apply good_draw|]. intros n b Hb _ Hs. pose proof (in_range_shape l r a b Hs Hi) as Hi'.
  eapply good_bind; [apply good_local; [done|apply Hi']|]. intros lc c _ _ (-> & _).
  apply good_when_built; [done|apply request_no_panic, random_tid_length|]. intros m _. by apply good_send_request.
Qed.

Lemma good_nominate a clk : agent_ok a → good a (nominate_pair clk a) any.
Proof.
  intros Ha. unfold nominate_pair. destruct (remote_credentials a) as [cred|]; [|by split_and!].
  destruct (nominated_pair a) as [i|] eqn:Ei; [|by split_and!]. eapply good_bind; [apply good_pair; [done|by apply ok_nominated]|].
  intros p b _ _ (-> & _ & Hp). eapply good_bind; [by apply good_draw|]. intros n b Hb _ Hs.
  apply good_when_built; [done|apply request_no_panic, random_tid_length|]. intros m _. apply good_send_request; [done|].
  by apply (in_range_shape _ _ a).
Qed.

Lemma ping_pass_spec max ps :
  length (ping_pass max ps).1 = length ps ∧
  Forall2 (λ p q, local_index q = local_index p ∧ remote_index q = remote_index p) ps (ping_pass max ps).1 ∧
  Forall (λ '(l, r), ∃ p, p ∈ ps ∧ local_index p = l ∧ remote_index p = r) (ping_pass max ps).2.
Proof.
  induction ps as [|p ps IH]; [by split_and!|]. cbn [ping_pass]. destruct (ping_pass max ps) as [qs pings]. cbn [fst snd] in *. destruct IH as (IH1 & IH2 & IH3).
  assert (Forall (λ '(l, r), ∃ q, q ∈ p :: ps ∧ local_index q = l ∧ remote_index q = r) pings) as IH3'.
  { eapply Forall_impl; [done|]. intros [l r] (q & Hq & E). exists q. split; [by right|done]. }
  destruct (pair_state p); [| |..]; try (cbn [fst snd length]; split_and!; [by f_equal|by constructor|done]).
  all: case_match; cbn [fst snd length]; (split_and!; [by f_equal|by constructor|]); [done|constructor; [|done]; exists p; by split; [left|]].
Qed.

Lemma good_ping_all a clk : agent_ok a → good a (ping_all_candidates clk a) any.
Proof.
  intros Ha. unfold ping_all_candidates. destruct (ping_pass_spec (max_binding_requests a) (candidate_pairs a)) as (E1 & E2 & E3).
  destruct (ping_pass _ _) as [qs pings]. cbn [fst snd] in *. set (b := a <| candidate_pairs := qs |>).
  assert (agent_ok b ∧ grows a b) as [Hb Hg].
  { split; [|by split; unfold b; record_simpl; rewrite ?E1]. destruct Ha as [H1 H2 H3 H4 H5 H6]. unfold b. split; record_simpl; rewrite ?E1; try done.
    clear -H3 E2. induction E2 as [|p q ps qs [Ea Eb] _ IH]; [constructor|]. apply Forall_cons in H3 as [H3 H3']. constructor; [|by apply IH].
    unfold pair_ok in *. record_simpl. by rewrite Ea, Eb. }
  assert (good b (sfor (λ '(l, r), ping_candidate clk l r) pings b) any) as H.
  { apply (good_sfor _ _ _ (λ x, grows b x)); [intros x y Hx Hy; by transitivity x| |done|done]. intros [l r] x Hin Hx Hbx. apply good_ping; [done|].
    rewrite Forall_forall in E3. destruct (E3 _ Hin) as (p & Hp & <- & <-). apply in_range_grows with b; [|done].
    pose proof (ok_pairs a Ha) as Hok. rewrite Forall_forall in Hok. exact (Hok p Hp). }
  destruct (sfor _ _ _) as [[[]| |] c]; unfold good in *; [destruct H as (? & ? & ?); split_and!; [done|by transitivity b|done]|
    destruct H as (? & ?); split_and!; [done|by transitivity b]|done].
Qed.

(** * States and the selected pair *)

Lemma delete_ok keep a : agent_ok a → agent_ok (delete_all_candidates keep a).
Proof. intros []. unfold delete_all_candidates. destruct keep; split; record_simpl; done. Qed.

Lemma update_shape st a : st ≠ Failed → same_shape a (update_connection_state st a).
Proof. intros Hs. unfold update_connection_state. destruct (bool_decide _); [done|]. rewrite bool_decide_false by done. by split_and!. Qed.

Lemma update_ok st a : agent_ok a → agent_ok (update_connection_state st a).
Proof.
  intros Ha. destruct (decide (st = Failed)) as [->|Hs]; [|by eapply same_shape_ok; [apply update_shape|]].
  unfold update_connection_state. destruct (bool_decide _); [done|]. rewrite bool_decide_true by done.
  assert (agent_ok (a <| selected_pair := None |>)) as Hn by (destruct Ha; split; record_simpl; done).
  eapply same_shape_ok; [|apply (delete_ok false), Hn]. unfold same_shape, timeouts. record_simpl. by split_and!.
Qed.

Lemma good_select a i : agent_ok a → (i < length (candidate_pairs a))%nat → good a (set_selected_pair i a) any.
Proof.
  intros Ha Hi. eapply good_bind; [by apply good_edit_pair|]. intros _ b Hb _ (_ & _ & E). rewrite <- E in Hi.
  eapply (good_bind _ _ _ (λ _ c, (i < length (candidate_pairs c))%nat)).
  { unfold smodify, good. record_simpl. split_and!; [|split; record_simpl; done || lia|done]. destruct Hb. split; record_simpl; try done. by intros j [= <-]. }
  intros u c Hc _ Hi'. eapply (good_bind _ _ _ (λ _ d, (i < length (candidate_pairs d))%nat)).
  { pose proof (update_shape Connected c ltac:(done)) as Hs. apply good_shape; [done..|]. destruct Hs as (_ & _ & E' & _). by rewrite E'. }
  intros u' d Hd _ Hi2. eapply good_bind; [by apply good_pair|]. intros p d' _ _ (-> & _ & [H1 H2]).
  eapply good_bind; [by apply good_local|]. intros lc d' _ _ (-> & _). eapply good_bind; [by apply good_remote|]. intros rc d' _ _ (-> & _).
  apply good_shape; [|done..]. by split_and!.
Qed.

(** An operation that may remove candidates; it panics only when the sum of the timeouts does not
    fit. *)
Definition okay {A} a (r : res A * Agent) (Q : A → Agent → Prop) : Prop :=
  match r with
  | (Ok x, b) => agent_ok b ∧ timeouts b = timeouts a ∧ Q x b
  | (Err _, b) => agent_ok b ∧ timeouts b = timeouts a
  | (Panic, _) => ¬ durations_fit a
  end.

Lemma good_okay {A} a r (Q : A → Agent → Prop) : good a r Q → okay a r Q.
Proof. unfold good, okay. destruct r as [[x| |] b]; [intros (? & [] & ?)|intros (? & [])|done]; by split_and!. Qed.

Lemma okay_bind {A B} a (m : sm Agent A) (f : A → sm Agent B) Q R :
  okay a (m a) Q → (∀ x b, agent_ok b → Q x b → okay b (f x b) R) → okay a (sbind m f a) R.
Proof.
  unfold okay, sbind. destruct (m a) as [[x| |] b]; [|done..]. intros (Hb & Ht & Hq) Hf. specialize (Hf x b Hb Hq).
  destruct (f x b) as [[y| |] c]; [|..|by intros Hd%(durations_kept a b)]; [destruct Hf as (? & ? & ?)|destruct Hf as (? & ?)]; split_and!; congruence || done.
Qed.

Lemma okay_modify a f : agent_ok (f a) → timeouts (f a) = timeouts a → okay a (smodify f a) any.
Proof. by intros. Qed.

Lemma okay_sum {A} a x y (f : Z → sm Agent A) R :
  x + y = disconnected_timeout a + failed_timeout a → okay a (f (x + y) a) R → okay a (sbind (slift (duration_add x y)) f a) R.
Proof. intros E H. unfold duration_add, assert_, sbind, slift. destruct (Z.ltb_spec (x + y) DURATION_RANGE); [exact H|]. cbn. unfold durations_fit. lia. Qed.

Lemma okay_from {A} a b r (Q : A → Agent → Prop) : timeouts b = timeouts a → okay b r Q → okay a r Q.
Proof.
  intros Et. unfold okay. destruct r as [[x| |] c]; [intros (? & ? & ?)|intros (? & ?)|by intros Hn Hd%(durations_kept a b)]; split_and!; congruence || done.
Qed.

Lemma update_timeouts st a : timeouts (update_connection_state st a) = timeouts a.
Proof. unfold update_connection_state, delete_all_candidates. by repeat case_match. Qed.

Lemma okay_validate a clk : agent_ok a → okay a (validate_selected_pair clk a) any.
Proof.
  intros Ha. unfold validate_selected_pair. destruct (selected_pair a) as [i|] eqn:Ei; [|done].
  eapply okay_bind; [eapply good_okay, good_pair; [done|by apply ok_selected]|]. intros p b _ (-> & _ & [_ Hr]).
  eapply okay_bind; [by eapply good_okay, good_remote|]. intros rc b _ (-> & _).
  set (f := λ total : Z, _). assert (∀ total, okay a (f total a) any) as Hf.
  { intros total. unfold f. eapply okay_bind; [apply okay_modify; [by apply update_ok|apply update_timeouts]|]. by intros _ b Hb _. }
  clearbody f. destruct (failed_timeout a =? 0); [apply Hf|]. apply okay_sum; [lia|apply Hf].
Qed.

Lemma good_keepalive a clk : agent_ok a → good a (check_keepalive clk a) any.
Proof.
  intros Ha. unfold check_keepalive. destruct (selected_pair a) as [i|] eqn:Ei; [|by split_and!]. pose proof (ok_selected a Ha i Ei) as Hi.
  eapply good_bind; [by apply good_pair|]. intros p b _ _ (-> & _ & Hp). destruct (_ && _); [|by apply good_ret].
  eapply (good_bind _ _ _ (λ _ b, (i < length (candidate_pairs b))%nat ∧ in_range (local_index p) (remote_index p) b)); [apply good_shape; [by split_and!|done..]|].
  intros u b Hb _ [Hi' Hr]. eapply good_bind; [by apply good_edit_pair|]. intros u' c Hc Hg _. apply good_ping; [done|by eapply in_range_grows].
Qed.

Lemma okay_maintain a clk : agent_ok a → okay a (maintain_selected clk a) any.
Proof.
  intros Ha. eapply okay_bind; [by apply okay_validate|]. intros v b Hb _. destruct v; [by eapply good_okay, good_keepalive|done].
Qed.

Lemma best_loop_in ok i best ps n :
  (∀ j (q : CandidatePair), best = Some (j, q) → (j < n)%nat) → (i + length ps <= n)%nat → ∀ k, best_loop ok i best ps = Some k → (k < n)%nat.
Proof.
  revert i best. induction ps as [|p ps IH]; intros i best Hb Hn k; cbn [best_loop length] in *.
  - destruct best as [[j b]|]; [|done]. intros [= <-]. by eapply Hb.
  - apply IH; [|lia]. intros j b. destruct (ok p); [|apply Hb]. destruct best as [[j' b']|]; [destruct (_ <? _)|]; intros E; simplify_eq; try lia; by eapply Hb.
Qed.

Lemma good_nominatable a clk i (is_local : bool) :
  agent_ok a → (i < length (if is_local then local_candidates a else remote_candidates a))%nat → good a (is_nominatable clk i is_local a) (λ _ b, b = a).
Proof.
  intros Ha Hi. unfold is_nominatable. destruct is_local.
  - eapply good_bind; [by apply good_local|]. intros c b _ _ (-> & _). by apply good_gets.
  - eapply good_bind; [by apply good_remote|]. intros c b _ _ (-> & _). by apply good_gets.
Qed.

Lemma good_both a clk p : agent_ok a → pair_ok a p → good a (both_nominatable clk p a) (λ _ b, b = a).
Proof.
  intros Ha [Hl Hr]. eapply good_bind; [by apply good_nominatable|]. intros x b _ _ ->. destruct x; [by apply good_nominatable|by apply good_ret].
Qed.

Lemma good_set_nominated a i : agent_ok a → (i < length (candidate_pairs a))%nat → good a (smodify (λ a : Agent, a <| nominated_pair := Some i |>) a) any.
Proof.
  intros Ha Hi. unfold smodify, good. split_and!; [|split; record_simpl; done || lia|done]. destruct Ha. split; record_simpl; try done. by intros j [= <-].
Qed.

Lemma okay_contact_candidates a clk : agent_ok a → okay a (contact_candidates clk a) any.
Proof.
  intros Ha. unfold contact_candidates, contact_controlling, contact_controlled. destruct (is_controlling a).
  - destruct (bool_decide (is_Some (selected_pair a))); [by apply okay_maintain|].
    destruct (bool_decide (is_Some (nominated_pair a))); [by eapply good_okay, good_nominate|].
    destruct (get_best_valid_candidate_pair a) as [i|] eqn:Ei; [|by eapply good_okay, good_ping_all].
    assert (i < length (candidate_pairs a))%nat as Hi by (eapply (best_loop_in _ 0 None); [done| |exact Ei]; lia).
    eapply good_okay, good_bind; [by apply good_pair|]. intros p b _ _ (-> & _ & Hp). eapply good_bind; [by apply good_both|]. intros x b _ _ ->.
    destruct x; [|by apply good_ping_all]. eapply good_bind; [by apply good_edit_pair|]. intros u b Hb _ (_ & _ & E).
    eapply good_bind; [apply good_set_nominated; [done|by rewrite E]|]. intros u' c Hc _ _. by apply good_nominate.
  - destruct (lite a); [eapply okay_bind; [by apply okay_validate|done]|]. destruct (bool_decide _); [by apply okay_maintain|by eapply good_okay, good_ping_all].
Qed.

Lemma okay_contact a clk now : agent_ok a → okay a (contact clk now a) any.
Proof.
  intros Ha. unfold contact. cbv zeta. set (b := a <| force_candidate_contact := false |>).
  destruct (same_shape_ok a b) as [Hb [_ _ _ Tb]]; [by split_and!|done|]. clearbody b. apply (okay_from a b); [done|]. clear Ha Tb a. rename b into a.
  destruct (bool_decide (connection_state a = Failed)).
  { eapply (good_okay a), (good_shape a (λ a, a <| last_connection_state := connection_state a |>)); [by split_and!|done..]. }
  set (c := if _ && _ then a <| checking_duration := now |> else a).
  assert (agent_ok c ∧ grows a c) as [Hc [_ _ _ Tc]] by (unfold c; destruct (_ && _); [eapply (same_shape_ok a); [by split_and!|done]|done]). clearbody c.
  apply (okay_from a c); [done|]. set (f := λ late : bool, _). assert (∀ late, okay c (f late c) any) as Hf.
  { intros []; unfold f.
    - eapply okay_bind; [apply okay_modify; [by apply update_ok|apply update_timeouts]|]. intros u d Hd _. by apply (good_okay d), good_shape; [split_and!|..].
    - eapply okay_bind; [by apply okay_contact_candidates|]. intros u d Hd _. by apply (good_okay d), good_shape; [split_and!|..]. }
  clearbody f. destruct (bool_decide _); [|exact (Hf false)]. pose proof (okay_sum c _ _ (λ limit, f (limit <? Z.max 0 (now - checking_duration c))) any eq_refl (Hf _)) as H.
  revert H. unfold sbind, slift, duration_add, assert_. by destruct (_ <? DURATION_RANGE).
Qed.

(** * What arrives *)

Lemma integrity_total key w m : holds w m → (integrity_check key m).1 ≠ Panic ∧ (integrity_check key m).2 = m.
Proof.
  intros Hm. destruct (attribute_split (attributes m) ATTR_MESSAGE_INTEGRITY) as [Hno|(pre & x & post & E & Hx & Hpre)].
  - by rewrite integrity_check_absent.
  - rewrite (integrity_check_holds key w m pre x post) by done. unfold check_hmac. by case_decide.
Qed.

Lemma holds_tid w m : holds w m → len (transaction_id m) = 12.
Proof. by intros (v & cs & rest & _ & _ & _ & Ht & _). Qed.

Lemma switch_ok a : agent_ok a → agent_ok (switch_role a) ∧ grows a (switch_role a).
Proof.
  intros [H1 H2 H3 H4 H5 H6]. split; [|split; unfold switch_role; record_simpl; rewrite ?length_fmap; done || lia].
  unfold switch_role. split; record_simpl; rewrite ?length_fmap; try done. apply Forall_fmap. eapply Forall_impl; [exact H3|]. intros p. cbn. done.
Qed.

Lemma good_role_conflict a clk m l addr loses :
  agent_ok a → (l < length (local_candidates a))%nat → len (transaction_id m) = 12 → good a (role_conflict clk m l addr loses a) any.
Proof.
  intros Ha Hl Ht. unfold role_conflict. destruct (_ =? _); [|by apply good_ret].
  eapply good_bind; [by apply (good_gets _ _ (λ x b, b = a ∧ x = find_remote_candidate a addr))|]. intros x b _ _ [-> ->].
  eapply (good_bind _ _ _ any).
  { destruct (find_remote_candidate a addr) as [r|] eqn:Er; [|by apply good_ret]. apply good_send_conflict; [done| |done]. split; [done|by eapply find_remote_in]. }
  intros u b Hb _ _. eapply good_bind; [by apply (good_gets _ _ (λ x c, c = b))|]. intros x c _ _ ->. destruct x; [|by apply good_ret].
  destruct (switch_ok b Hb). by split_and!.
Qed.

Lemma good_check_role a clk m l addr :
  agent_ok a → (l < length (local_candidates a))%nat → len (transaction_id m) = 12 → good a (check_role clk m l addr a) any.
Proof.
  intros Ha Hl Ht. unfold check_role.
  assert (∀ T `{AttributeLaws T} (x0 : T) (k : T → Agent → bool), good a (sbind (slift (attr_get x0 m)) (λ x, role_conflict clk m l addr (k x)) a) any) as Hc.
  { intros T ? ? x0 k. unfold sbind, slift. pose proof (law_total x0 m). destruct (attr_get x0 m) as [x| |]; [by apply good_role_conflict|by split_and!|done]. }
  destruct (is_controlling a); [destruct (contains m ATTR_ICE_CONTROLLING)|destruct (contains m ATTR_ICE_CONTROLLED)].
  - apply (Hc _ _ _ (mkControlling 0) (λ x a, agent_tie_breaker a <? controlling x)).
  - destruct (contains _ _); by split_and!.
  - apply (Hc _ _ _ (mkControlled 0) (λ x a, controlled x <? agent_tie_breaker a)).
  - by split_and!.
Qed.

Lemma good_success_response a clk now m l r addr : agent_ok a → good a (handle_success_response clk now m l r addr a) any.
Proof.
  intros Ha. unfold handle_success_response, handle_inbound_binding_success. set (b := invalidate_pending_binding_requests clk a).
  assert (same_shape a b) as Hs by by split_and!. clearbody b. destruct (same_shape_ok a b Hs Ha) as [Hb Hg].
  destruct (list_find _ _) as [[j q]|]; [|by split_and!]. set (c := b <| pending_binding_requests ::= delete j |>).
  assert (same_shape a c) as Hs' by (destruct Hs as (? & ? & ? & ? & ? & ? & ?); by split_and!). clearbody c. destruct (same_shape_ok a c Hs' Ha) as [Hc Hg'].
  destruct (negb _); [by split_and!|]. destruct (find_pair c l r) as [i|] eqn:Ei; [|by split_and!].
  match goal with |- good a (?m c) _ => assert (good c (m c) any) as H end.
  { eapply good_bind; [apply good_edit_pair; [done|by eapply find_pair_in|done]|]. intros u d Hd _ (_ & _ & E).
    destruct (_ && _); [|by apply good_ret]. apply good_select; [done|]. rewrite E. by eapply find_pair_in. }
  revert H. unfold good. match goal with |- context [sbind ?x ?y c] => destruct (sbind x y c) as [[[]| |] d] end; [| |done].
  - intros (? & ? & ?). split_and!; [done|by transitivity c|done].
  - intros (? & ?). split; [done|by transitivity c].
Qed.

Lemma good_found_pair {A} a l r (f : option nat → sm Agent A) R :
  agent_ok a → good a (f (find_pair a l r) a) R → good a (sbind (sgets (λ a, find_pair a l r)) f a) R.
Proof. by intros. Qed.

Lemma good_request_controlling a clk m l r :
  agent_ok a → in_range l r a → len (transaction_id m) = 12 → good a (binding_request_controlling clk m l r a) any.
Proof.
  intros Ha Hi Ht. eapply good_bind; [by apply good_send_success|]. intros u b Hb Hg _. pose proof (in_range_grows _ _ _ _ Hi Hg) as Hi'.
  apply good_found_pair; [done|]. destruct (find_pair b l r) as [i|] eqn:Ei.
  - pose proof (find_pair_in _ _ _ _ Ei) as Hlt. eapply good_bind; [by apply good_edit_pair|]. intros u' c Hc _ (_ & _ & E). rewrite <- E in Hlt.
    eapply good_bind; [by apply good_pair|]. intros p d _ _ (-> & _ & Hp). eapply good_bind; [by apply (good_gets _ _ (λ x d, d = c))|]. intros x d _ _ ->.
    destruct x; [|by apply good_ret]. eapply good_bind; [by apply good_both|]. intros x d _ _ ->. destruct x; [|by apply good_ret].
    eapply good_bind; [by apply good_set_nominated|]. intros u'' d Hd _ _. by apply good_nominate.
  - eapply good_bind; [by apply good_add_pair|]. intros u' c Hc _ _. by apply good_tracked.
Qed.

Lemma good_request_controlled a clk m l r :
  agent_ok a → in_range l r a → len (transaction_id m) = 12 → good a (binding_request_controlled clk m l r a) any.
Proof.
  intros Ha Hi Ht. apply good_found_pair; [done|]. eapply (good_bind _ _ _ any); [destruct (bool_decide _); [by apply good_add_pair|by apply good_ret]|].
  intros u b Hb Hg _. pose proof (in_range_grows _ _ _ _ Hi Hg) as Hi'. apply good_found_pair; [done|].
  destruct (find_pair b l r) as [i|] eqn:Ei; [|by apply good_ret]. pose proof (find_pair_in _ _ _ _ Ei) as Hlt.
  eapply good_bind; [by apply good_edit_pair|]. intros u' c Hc Hg2 (_ & _ & E). rewrite <- E in Hlt. pose proof (in_range_grows _ _ _ _ Hi' Hg2) as Hi2.
  eapply good_bind; [by apply good_pair|]. intros p d _ _ (-> & _ & Hp). destruct (contains m ATTR_USE_CANDIDATE).
  - destruct (bool_decide _); [|by apply good_ping]. eapply good_bind; [by apply (good_gets _ _ (λ x d, d = c))|]. intros x d _ _ ->.
    eapply (good_bind _ _ _ any); [destruct x; [by apply good_select|by apply good_ret]|]. intros u'' d Hd Hg3 _.
    apply good_send_success; [done|by eapply in_range_grows|done].
  - eapply good_bind; [by apply good_send_success|]. intros u'' d Hd Hg3 _. apply good_ping; [done|by eapply in_range_grows].
Qed.

Definition valid_remote (r : option nat) a : Prop := ∀ i, r = Some i → (i < length (remote_candidates a))%nat.

Lemma good_learn a clk l addr :
  agent_ok a → (l < length (local_candidates a))%nat → ip_ok (sa_ip addr) → good a (learn_candidate clk l addr a) valid_remote.
Proof.
  intros Ha Hl Hip. eapply good_bind; [by apply good_local|]. intros lc b _ _ (-> & _). eapply good_bind; [by apply good_draw|]. intros n b Hb _ _.
  unfold new_candidate_peer_reflexive. rewrite ip_parse_to_string by done. unfold sbind at 1, slift.
  destruct (determine_network_type _ _) as [nt| |] eqn:En; cbn [rbind]; [|by split_and!|].
  2: { exfalso. revert En. unfold determine_network_type. by repeat case_match. }
  eapply good_bind; [by apply good_add_remote|]. intros x c Hc _ _. destruct x; [|by apply good_ret].
  apply good_gets; [done|]. intros i. apply find_remote_in.
Qed.

Lemma good_inbound_request a clk cred w m l addr :
  agent_ok a → (l < length (local_candidates a))%nat → ip_ok (sa_ip addr) → holds w m → good a (inbound_request clk cred m l addr a) valid_remote.
Proof.
  intros Ha Hl Hip Hm. unfold inbound_request. pose proof (law_total (mkText ATTR_USERNAME []) m) as Hu.
  assert (assert_inbound_username m (ufrag (local_credentials a) ++ colon ++ ufrag cred) ≠ Panic) as Hp.
  { unfold assert_inbound_username. apply bind_total; [done|]. intros v _. by case_match. }
  destruct (assert_inbound_username _ _); [|by split_and!|done]. destruct (integrity_total (pwd (local_credentials a)) w m Hm) as [Hi Em].
  destruct (integrity_check _ m) as [[[]| |] m']; cbn [fst snd] in *; subst; [|by split_and!|done].
  eapply good_bind; [by apply (good_gets _ _ (λ x b, b = a ∧ x = find_remote_candidate a addr))|]. intros x b _ _ [-> ->].
  eapply (good_bind _ _ _ valid_remote).
  { destruct (find_remote_candidate a addr) as [r|] eqn:Er; [|by apply good_learn]. apply good_ret; [done|]. intros i [= <-]. by eapply find_remote_in. }
  intros r b Hb Hg Hr. eapply (good_bind _ _ _ any).
  { destruct r as [r|]; [|by apply good_ret]. assert (in_range l r b) as Hlr by (split; [destruct Hg; lia|by apply Hr]). pose proof (holds_tid w m Hm).
    unfold handle_binding_request. destruct (is_controlling b); [by apply good_request_controlling|by apply good_request_controlled]. }
  intros u c Hc Hg' _. apply good_ret; [done|]. intros i Hi'. specialize (Hr i Hi'). destruct Hg'. lia.
Qed.

Lemma good_inbound_success a clk now cred w m l addr :
  agent_ok a → holds w m → good a (inbound_success clk now cred m l addr a) valid_remote.
Proof.
  intros Ha Hm. unfold inbound_success. destruct (integrity_total (pwd cred) w m Hm) as [Hi Em].
  destruct (integrity_check _ m) as [[[]| |] m']; cbn [fst snd] in *; subst; [|by split_and!|done].
  destruct (find_remote_candidate a addr) as [r|] eqn:Er; [|by split_and!]. eapply good_bind; [by apply good_success_response|].
  intros u b Hb Hg _. apply good_ret; [done|]. intros i [= <-]. apply find_remote_in in Er. destruct Hg. lia.
Qed.

Lemma good_inbound a clk now w m l addr :
  agent_ok a → (l < length (local_candidates a))%nat → ip_ok (sa_ip addr) → holds w m → good a (handle_inbound clk now m l addr a) any.
Proof.
  intros Ha Hl Hip Hm. unfold handle_inbound, sguard. unfold sbind at 1. destruct (_ || _); [by split_and!|].
  eapply good_bind; [apply good_check_role; [done..|by eapply holds_tid]|]. intros u b Hb Hg _. assert (l < length (local_candidates b))%nat as Hl' by (destruct Hg; lia).
  eapply good_bind; [by apply (good_gets _ _ (λ x c, c = b))|]. intros creds c _ _ ->. destruct creds as [cred|]; [|by split_and!].
  eapply (good_bind _ _ _ valid_remote).
  { destruct (_ =? _); [by eapply good_inbound_success|]. destruct (_ =? _); [by eapply good_inbound_request|].
    apply good_gets; [done|]. intros i. apply find_remote_in. }
  intros r d Hd _ Hr. destruct r as [r|]; [|by apply good_ret]. apply good_edit_remote; [done|by apply Hr|]. intros x. apply seen_addr.
Qed.

Lemma good_non_stun a clk addr : agent_ok a → good a (validate_non_stun_traffic clk addr a) any.
Proof.
  intros Ha. unfold validate_non_stun_traffic. destruct (find_remote_candidate a addr) as [r|] eqn:Er; [|by split_and!].
  eapply good_bind; [apply good_edit_remote; [done|by eapply find_remote_in|intros c; apply seen_addr]|]. intros u b Hb _ _. by apply good_ret.
Qed.

Lemma mdns_answers_ok events q : Forall event_ok events → Forall cand_ok (mdns_answers events q).1.
Proof.
  intros H. revert q. induction H as [|e events He _ IH]; intros q; [constructor|]. destruct e as [id ip|id]; cbn [mdns_answers]; [|apply IH].
  destruct (q !! id) as [c|]; [|apply IH]. specialize (IH (delete id q)). destruct (mdns_answers events (delete id q)) as [cs q']. cbn [fst] in *.
  unfold set_ip. destruct (determine_network_type _ _); cbn [rbind]; [constructor; [done|done]|done..].
Qed.

Lemma good_take_answers a conn : agent_ok a → mdns_ok conn → good a (take_answers conn a) any.
Proof.
  intros Ha Hm. unfold take_answers. destruct (mdns_events_ok conn Hm) as [He Hm']. destruct (mdns_events conn) as [events conn']. cbn [fst snd] in He, Hm'.
  pose proof (mdns_answers_ok events (mdns_queries a) He) as Hc. destruct (mdns_answers events (mdns_queries a)) as [cs q]. cbn [fst] in Hc.
  destruct (mdns_update_ok a conn' q Ha Hm') as [Hb Hg]. set (b := a <| mdns := Some conn' |> <| mdns_queries := q |>) in *.
  pose proof (good_trigger b cs Hb Hc) as H. unfold good in *. destruct (trigger_request_connectivity_check cs b) as [[[]| |] c]; [| |done].
  - destruct H as (? & ? & ?). split_and!; [done|by transitivity b|done].
  - destruct H as (? & ?). split; [done|by transitivity b].
Qed.

Lemma good_read a clk t : agent_ok a → datagram_ok t → good a (agent_handle_read clk t a) any.
Proof.
  intros Ha Ht. pose proof Ht as [Hb Hip]. unfold agent_handle_read. destruct (_ =? _).
  - destruct (mdns a) as [conn|] eqn:Em; [|by split_and!]. destruct (mdns_read_ok t conn (ok_mdns a Ha conn Em) Ht) as [Hp Hconn].
    destruct (mdns_handle_read t conn) as [[[]| |] conn']; cbn [fst snd] in *; [by apply good_take_answers| |done]. by apply mdns_conn_ok.
  - destruct (find_local_candidate a _ _) as [l|] eqn:El; [|by split_and!]. apply find_local_in in El. unfold handle_inbound_candidate_msg.
    destruct (is_stun_message _).
    + pose proof (unmarshal_sound (message t) message_default Hb) as Hs. destruct (unmarshal_binary _ _) as [[[]| |] m]; [by eapply good_inbound|by split_and!|done].
    + eapply good_bind; [by apply good_non_stun|]. intros x b Hb' _ _. done.
Qed.

Lemma okay_timeout a clk now : agent_ok a → okay a (agent_handle_timeout clk now a) any.
Proof.
  intros Ha. eapply okay_bind; [by eapply good_okay, (good_gets _ mdns (λ x b, b = a ∧ x = mdns a))|]. intros conn b _ [-> Em].
  eapply (okay_bind _ _ _ any).
  { destruct conn as [conn|]; [|done]. destruct (mdns_timeout_ok now conn) as [Hp Hconn]; [by eapply (ok_mdns a Ha)|].
    destruct (mdns_handle_timeout now conn) as [[[]| |] conn']; cbn [fst snd] in *; [by apply good_okay, good_take_answers..|done]. }
  intros u b Hb _.
  eapply okay_bind; [by eapply good_okay, (good_gets _ _ (λ x c, c = b))|]. intros due c _ ->. destruct due; [by apply okay_contact|done].
Qed.

Lemma cleared_ok a b :
  agent_ok a → (∀ c, c ∈ local_candidates b → c ∈ local_candidates a) → remote_candidates b = [] → candidate_pairs b = [] →
  selected_pair b = None → nominated_pair b = None → mdns b = mdns a → agent_ok b.
Proof.
  intros [H1 _ _ _ _ H6] E1 E2 E3 E4 E5 E6. split; rewrite ?E2, ?E3, ?E4, ?E5, ?E6; try done. rewrite Forall_forall in *. intros c Hc. by apply H1, E1.
Qed.

Lemma start_shape clk a : agent_ok a → agent_ok (start clk a).
Proof. intros Ha. unfold start. destruct (is_controlling a); [|done]. destruct Ha. split; record_simpl; done. Qed.

Lemma start_timeouts clk a : timeouts (start clk a) = timeouts a.
Proof. unfold start. by destruct (is_controlling a). Qed.

Lemma modify_then {A} (f : Agent → Agent) (m : sm Agent A) a : sbind (smodify f) (λ _, m) a = m (f a).
Proof. done. Qed.

Lemma guard_then {A} c e (m : sm Agent A) a : sbind (sguard c e) (λ _, m) a = if c then (Err e, a) else m a.
Proof. by destruct c. Qed.

Lemma okay_restart a clk u p keep : agent_ok a → okay a (restart clk u p keep a) any.
Proof.
  intros Ha. eapply (okay_bind _ _ _ any).
  { destruct u; [|done]. eapply okay_bind; [by eapply good_okay, good_draw|]. by intros n b Hb _. }
  clear a Ha. intros u' a Ha _. eapply (okay_bind _ _ _ any).
  { destruct p; [|done]. eapply okay_bind; [by eapply good_okay, good_draw|]. by intros n b Hb _. }
  clear a Ha. intros p' a Ha _. rewrite guard_then. destruct (_ <? 24); [done|]. rewrite guard_then. destruct (_ <? 128); [done|].
  rewrite !modify_then.
  match goal with |- okay _ (_ (start clk ?x)) _ => set (b := x) end. assert (timeouts b = timeouts a) as Tb by (unfold b, delete_all_candidates; by destruct keep).
  assert (agent_ok b) as Hb by (apply (cleared_ok a); [done|unfold b, delete_all_candidates; destruct keep; record_simpl; done || (intros ?; set_solver)|unfold b, delete_all_candidates; by destruct keep..]).
  clearbody b. pose proof (start_shape clk b Hb) as Hs. apply (okay_from a (start clk b)); [by rewrite start_timeouts|].
  apply okay_modify; destruct (bool_decide _); [done|by apply update_ok|done|apply update_timeouts].
Qed.

Lemma good_credentials a u p : agent_ok a → good a (set_remote_credentials u p a) any.
Proof.
  intros Ha. unfold set_remote_credentials. destruct (bool_decide _); [by split_and!|]. destruct (bool_decide _); [by split_and!|].
  apply (good_shape a (λ a, a <| remote_credentials := Some (mkCredentials u p) |>)); [by split_and!|done..].
Qed.

Lemma okay_start a clk ctl u p : agent_ok a → okay a (start_connectivity_checks clk ctl u p a) any.
Proof.
  intros Ha. eapply (okay_bind _ _ _ any).
  { by eapply good_okay, good_credentials. }
  clear a Ha. intros u' a Ha _. rewrite !modify_then. set (b := update_connection_state Checking (start clk (set_role ctl a))).
  assert (agent_ok b) as Hb by (apply update_ok, start_shape; by eapply (same_shape_ok a); [split_and!|]).
  assert (timeouts b = timeouts a) as Tb by (unfold b; by rewrite update_timeouts, start_timeouts). clearbody b.
  apply (okay_from a b); [done|]. by eapply good_okay, good_check_requested.
Qed.

Lemma okay_close a : agent_ok a → okay a (agent_close a) any.
Proof.
  intros Ha. unfold agent_close. set (b := update_connection_state Closed _).
  assert (agent_ok b) as Hb by (apply update_ok, delete_ok; destruct Ha; split; record_simpl; done).
  assert (timeouts b = timeouts a) as Tb by (unfold b; by rewrite update_timeouts). clearbody b. apply (okay_from a b); [done|].
  destruct (mdns b) as [conn|] eqn:Em; [|done]. destruct (mdns_close_ok conn (ok_mdns b Hb conn Em)) as [Hp Hconn].
  destruct (mdns_conn_ok b (mdns_close conn).2 Hb Hconn) as [Hc [_ _ _ Tc]]. destruct (mdns_close conn) as [[[]| |] conn']; [by split_and!..|done].
Qed.

(** * Runs of the agent *)

Inductive agent_op :=
| OpAddLocal (c : Candidate)
| OpAddRemote (clk : Z) (c : Candidate)
| OpRemoteCredentials (u p : bytes)
| OpRole (controlling : bool)
| OpStart (clk : Z) (controlling : bool) (u p : bytes)
| OpRestart (clk : Z) (u p : bytes) (keep : bool)
| OpRead (clk : Z) (t : TaggedBytes)
| OpTraffic (clk : Z) (t : TransportContext)
| OpTimeout (clk now : Z)
| OpPollWrite
| OpPollEvent
| OpSelected
| OpBest
| OpClose.

Definition agent_op_ok (o : agent_op) : Prop :=
  match o with
  | OpAddLocal c | OpAddRemote _ c => cand_ok c
  | OpRead _ t => datagram_ok t
  | _ => True
  end.

Definition forget {A} (m : sm Agent A) : sm Agent unit := do! _ <- m; sret tt.

Definition agent_step (o : agent_op) : sm Agent unit :=
  match o with
  | OpAddLocal c => forget (add_local_candidate c)
  | OpAddRemote clk c => forget (add_remote_candidate clk c)
  | OpRemoteCredentials u p => set_remote_credentials u p
  | OpRole b => smodify (set_role b)
  | OpStart clk b u p => start_connectivity_checks clk b u p
  | OpRestart clk u p keep => restart clk u p keep
  | OpRead clk t => agent_handle_read clk t
  | OpTraffic clk t => forget (is_valid_non_stun_traffic clk t)
  | OpTimeout clk now => agent_handle_timeout clk now
  | OpPollWrite => λ a, (Ok tt, (agent_poll_write a).2)
  | OpPollEvent => λ a, (Ok tt, (agent_poll_event a).2)
  | OpSelected => forget get_selected_candidate_pair
  | OpBest => forget get_best_available_candidate_pair
  | OpClose => agent_close
  end.

Lemma okay_forget {A} a (m : sm Agent A) Q : okay a (m a) Q → okay a (forget m a) any.
Proof. intros H. eapply okay_bind; [exact H|]. by intros x b Hb _. Qed.

Lemma good_pair_of a i : agent_ok a → (i < length (candidate_pairs a))%nat →
  good a ((do! p <- pair_at i; do! lc <- local_at (local_index p); do! rc <- remote_at (remote_index p); sret (Some (lc, rc))) a) any.
Proof.
  intros Ha Hi. eapply good_bind; [by apply good_pair|]. intros p b _ _ (-> & _ & [Hl Hr]). eapply good_bind; [by apply good_local|]. intros lc b _ _ (-> & _).
  eapply good_bind; [by apply good_remote|]. intros rc b _ _ (-> & _). by apply good_ret.
Qed.

Lemma agent_step_okay o a : agent_ok a → agent_op_ok o → okay a (agent_step o a) any.
Proof.
  intros Ha Ho. destruct o; cbn [agent_step agent_op_ok] in *.
  - by eapply okay_forget, good_okay, good_add_local.
  - by eapply okay_forget, good_okay, good_add_remote.
  - by eapply good_okay, good_credentials.
  - by eapply good_okay, (good_shape a); [split_and!|..].
  - by apply okay_start.
  - by apply okay_restart.
  - by eapply good_okay, good_read.
  - apply (okay_forget _ _ any), (good_okay a). unfold is_valid_non_stun_traffic. destruct (find_local_candidate _ _ _); [by apply good_non_stun|by split_and!].
  - by apply okay_timeout.
  - unfold agent_poll_write. set (b := match mdns a with Some _ => _ | None => _ end).
    assert (agent_ok b ∧ timeouts b = timeouts a) as [Hb Tb].
    { unfold b. destruct (mdns a) as [conn|] eqn:Em; [|done]. pose proof (mdns_writes_ok conn (ok_mdns a Ha conn Em)) as Hw. destruct (mdns_writes conn) as [out conn'].
      destruct (mdns_conn_ok a conn' Ha Hw) as [Hc [_ _ _ Tc]]. split; [|done]. by eapply (same_shape_ok (a <| mdns := Some conn' |>)); [split_and!|]. }
    clearbody b. apply (okay_from a b); [done|]. destruct (write_outs b) as [|x w]; [done|]. by eapply good_okay, (good_shape b (λ b, b <| write_outs := w |>)); [split_and!|..].
  - unfold agent_poll_event. destruct (event_outs a) as [|x w]; [done|]. by eapply good_okay, (good_shape a (λ a, a <| event_outs := w |>)); [split_and!|..].
  - apply (okay_forget _ _ any), (good_okay a). unfold get_selected_candidate_pair. destruct (selected_pair a) as [i|] eqn:Ei; [|by split_and!]. apply good_pair_of; [done|by apply ok_selected].
  - apply (okay_forget _ _ any), (good_okay a). unfold get_best_available_candidate_pair. destruct (get_best_available_pair a) as [i|] eqn:Ei; [|by split_and!].
    apply good_pair_of; [done|]. eapply (best_loop_in _ 0 None); [done| |exact Ei]; lia.
  - by apply okay_close.
Qed.

Lemma restart_total clk u p keep a : (restart clk u p keep a).1 ≠ Panic.
Proof.
  unfold restart, sbind, draw, sret, sguard, smodify. destruct u, p; cbn [fst snd]; repeat (destruct (_ <? _); [done|]); done.
Qed.

(** The configured timeouts, or the default ones, and whether their sum fits a [Duration] *)
Definition config_timeouts (c : AgentConfig) : Z * Z :=
  (default DEFAULT_DISCONNECTED_TIMEOUT (cf_disconnected_timeout c), default DEFAULT_FAILED_TIMEOUT (cf_failed_timeout c)).
Definition config_fits (c : AgentConfig) : Prop := (config_timeouts c).1 + (config_timeouts c).2 < DURATION_RANGE.

Lemma agent_new_ok clk tie name c :
  match agent_new clk tie name c with Ok a => agent_ok a ∧ timeouts a = config_timeouts c | Err _ => True | Panic => False end.
Proof.
  unfold agent_new. cbv zeta. do 3 (destruct (_ || _) || destruct (_ && _); [done|]).
  match goal with |- context [restart clk _ _ false ?x] => set (b := x) end.
  assert (agent_ok b ∧ timeouts b = config_timeouts c) as [Hb Tb].
  { split; [|done]. split; try done. intros conn. cbn [mdns b]. apply mdns_create_ok. }
  clearbody b. pose proof (okay_restart b clk (cf_local_ufrag c) (cf_local_pwd c) false Hb) as H.
  pose proof (restart_total clk (cf_local_ufrag c) (cf_local_pwd c) false b) as Hp.
  unfold okay in H. destruct (restart _ _ _ _ _) as [[[]| |] a]; [|done|done]. destruct H as (? & ? & _). split; [done|congruence].
Qed.

(** The states of an agent with the configuration [c]; a call that panics is the last. *)
Inductive agent_reachable (c : AgentConfig) : Agent → Prop :=
| reach_new clk tie name a : agent_new clk tie name c = Ok a → agent_reachable c a
| reach_step o a : agent_reachable c a → agent_op_ok o → (agent_step o a).1 ≠ Panic → agent_reachable c (agent_step o a).2.

Lemma agent_reachable_ok c a : agent_reachable c a → agent_ok a ∧ timeouts a = config_timeouts c.
Proof.
  induction 1 as [clk tie name a E|o a _ [IH IHt] Ho Hp].
  - pose proof (agent_new_ok clk tie name c) as H. by rewrite E in H.
  - pose proof (agent_step_okay o a IH Ho) as H. unfold okay in H. destruct (agent_step o a) as [[[]| |] b]; cbn [fst snd] in *; [|..|done].
    + destruct H as (? & ? & _). split; [done|congruence].
    + destruct H as (? & ?). split; [done|congruence].
Qed.

End Safety.

(** C23: the ICE agent never panics, and its indices stay valid.  Start an agent with any configuration
    in which the sum of the disconnected and the failed timeout fits a [Duration] (under 2^64
    seconds; the sum of the defaults is 30 seconds), with or without multicast DNS, and call it in any
    order: add candidates with addresses of four or sixteen octets, start and restart, change the
    role, let any octets arrive from any address, STUN or multicast DNS, let time pass, close it.
    Every pair refers to a local and a remote candidate that exist, the selected and the nominated
    pair exist, and no call panics, so that no index that was taken before candidates were dropped is
    used afterwards, and no name or record of a multicast DNS message is read out of bounds. *)
Theorem agent_never_panics `{IpText, StunCrypto, IceRandom, QueryOrder} (c : AgentConfig) (a : Agent (Mdns := Mdns.Mdns)) :
  config_fits c → agent_reachable c a →
  Forall (λ p, (local_index p < length (local_candidates a))%nat ∧ (remote_index p < length (remote_candidates a))%nat) (candidate_pairs a) ∧
  (∀ i, selected_pair a = Some i ∨ nominated_pair a = Some i → (i < length (candidate_pairs a))%nat) ∧
  (∀ o, agent_op_ok o → (agent_step o a).1 ≠ Panic).
Proof.
  intros Hc [Ha Ht]%agent_reachable_ok. split_and!; [apply Ha|intros i [Hi|Hi]; [by apply ok_selected|by apply ok_nominated]|].
  intros o Ho Hp. pose proof (agent_step_okay o a Ha Ho) as H'. unfold okay in H'. destruct (agent_step o a) as [[[]| |] b]; [done|done|].
  apply H'. unfold durations_fit, config_fits in *. by injection Ht as -> ->.
Qed.


(** * Instances for the examples *)

Module ToyIce.

Definition toy_text (ip : IpAddr) : bytes := match ip with V4 o => 4 :: o | V6 o => 6 :: o end.
Definition toy_parse (s : bytes) : option IpAddr :=
  match s with 4 :: o => Some (V4 o) | 6 :: o => Some (V6 o) | _ => None end.

#[export, refine] Instance toy_ip_text : IpText := {| ip_to_string := toy_text; ip_parse := toy_parse |}.
Proof. by intros [o|o]. Defined.

#[export, refine] Instance toy_random : IceRandom := {|
  random_tid n := be 12 n; random_ufrag n := be 16 n; random_pwd n := be 32 n; random_cand_id n := be 32 n |}.
Proof. all: intros n; apply len_be. Defined.

Definition toy_config (controlling : bool) : AgentConfig :=
  mkAgentConfig [] (ascii_bytes "ufragment"%string) (replicate 20 112) MdnsDisabled (ascii_bytes "host.local"%string) None None None None None [] [] 0 None
    controlling false None None None None.

Definition toy_candidate (n port : Z) : Candidate :=
  mkCandidate [] Udp4 Host 1 [4; 192; 0; 2; n] port None TcpUnspecified (mkSocketAddr (V4 [192; 0; 2; n]) port) 0 0 [] 0 [] None.

Definition toy_addr (n port : Z) : SocketAddr := mkSocketAddr (V4 [192; 0; 2; n]) port.

End ToyIce.

Section SafetyExample.
Import ToyStun ToyIce MdnsExample.
#[local] Existing Instance toy_crypto.

Definition toy_agent (controlling : bool) (tie : Z) : Agent (Mdns := Mdns.Mdns) :=
  match agent_new 0 tie [] (toy_config controlling) with
  | Ok a => a
  | _ => mkAgent 0 false false 0 New New (mkCredentials [] []) None [] [] [] None None [] 0 0 0 0 0 0 0 0 0 0 0 0 false None ∅ MdnsDisabled [] None [] [] [] [] 0
  end.

(** An agent that queries multicast DNS *)
Definition toy_query_config : AgentConfig :=
  mkAgentConfig [] (ascii_bytes "ufragment"%string) (replicate 20 112) QueryOnly (ascii_bytes "host.local"%string) None None None None None [] [] 0 None
    true false None None None None.
Definition named_candidate : Candidate :=
  mkCandidate [] Udp4 Host 1 (ascii_bytes "host.local"%string) 5000 None TcpUnspecified (mkSocketAddr (V4 [0; 0; 0; 0]) 5000) 0 0 [] 0 (ascii_bytes "udp"%string) None.

Definition toy_query_agent : Agent (Mdns := Mdns.Mdns) :=
  match agent_new 0 7 [] toy_query_config with Ok a => a | _ => toy_agent true 7 end.

(** The peer's candidate has a name; the answer of multicast DNS gives its address, so that the two
    candidates are paired.  Then a datagram arrives that is no STUN message. *)
Definition toy_answered : Agent (Mdns := Mdns.Mdns) :=
  (agent_step (OpRead 15 (mkTagged 15 (mkTransportContext MDNS_DEST_ADDR (mkSocketAddr (V4 [192; 0; 2; 7]) MDNS_PORT) UDP)
                            (message (MdnsExample.response 1 MdnsExample.address_record))))
    (agent_step (OpAddRemote 12 named_candidate) (agent_step (OpStart 10 true [1] [2])
      (agent_step (OpAddLocal (toy_candidate 1 4000)) toy_query_agent).2).2).2).2.

Lemma agent_never_panics_witness :
  length (candidate_pairs toy_answered) = 1%nat ∧
  (agent_step (OpRead 20 (mkTagged 20 (mkTransportContext (toy_addr 1 4000) (toy_addr 2 5000) UDP) [0; 1; 2])) (agent_step (OpTimeout 20 20) toy_answered).2).1 ≠ Panic.
Proof.
  split; [vm_compute; reflexivity|]. apply (agent_never_panics toy_query_config (agent_step (OpTimeout 20 20) toy_answered).2).
  - vm_compute. reflexivity.
  - unfold toy_answered. repeat (apply reach_step; [|first
      [ done | split; [done|]; repeat constructor; vm_compute; intuition congruence
      | split; [repeat constructor; vm_compute; intuition congruence|split; [done|repeat constructor; vm_compute; intuition congruence]] ]|vm_compute; discriminate]).
    eapply (reach_new toy_query_config 0 7 []). vm_compute. reflexivity.
  - split; [repeat constructor; vm_compute; intuition congruence|]. split; [done|]. repeat constructor; vm_compute; intuition congruence.
Defined.

End SafetyExample.
