(* ===== verification/IceConnect.v ===== *)
(** Two ICE agents: what a message can change, how a role conflict is settled, and that two agents
    that know each other's candidates and credentials select the same pair.

    [unauthenticated_message_refused]: without the password nothing is gained but a change of roles.
    [role_conflict_settled]: of two agents with the same role one gives it up.
    [agents_connect]: checks, nomination and its answer leave both agents connected. *)

From stdpp Require Import strings.
From S2P Require Import Prelude Codec Stun StunAttr Ice Mdns IceAgent IceWire IceSafety.

Section Connect.
Context {IT : IpText} {SC : StunCrypto} {RND : IceRandom} {Mdns : Type} {MD : MdnsConn Mdns}.
Abbreviation Agent := (Agent (Mdns := Mdns)).
Implicit Types a b : Agent.

(** * What stays *)

(** The settings of an agent, its role and its credentials *)
Definition static a :=
  (is_controlling a, lite a, start_time a, local_credentials a, remote_credentials a, agent_tie_breaker a,
   (host_acceptance_min_wait a, max_binding_requests a, disconnected_timeout a, failed_timeout a)).

Definition stable {A} (m : sm Agent A) : Prop := ∀ a, static (m a).2 = static a.

Lemma stable_bind {A B} (m : sm Agent A) (f : A → sm Agent B) : stable m → (∀ x, stable (f x)) → stable (sbind m f).
Proof. intros Hm Hf a. specialize (Hm a). unfold sbind. destruct (m a) as [[x| |] b]; [|done..]. cbn [snd] in Hm. rewrite <- Hm. apply Hf. Qed.

Lemma stable_ret {A} (x : A) : stable (sret x).
Proof. done. Qed.
Lemma stable_gets {A} (f : Agent → A) : stable (sgets f).
Proof. done. Qed.
Lemma stable_lift {A} (r : res A) : stable (slift r).
Proof. done. Qed.
Lemma stable_modify (f : Agent → Agent) : (∀ a, static (f a) = static a) → stable (smodify f).
Proof. done. Qed.
Lemma stable_local i : stable (local_at i).
Proof. done. Qed.
Lemma stable_remote i : stable (remote_at i).
Proof. done. Qed.
Lemma stable_pair i : stable (pair_at i).
Proof. done. Qed.
Lemma stable_draw : stable draw.
Proof. done. Qed.

(** [m] with a part that is chosen by the state *)
Lemma stable_state {A} (m : Agent → sm Agent A) : (∀ x, stable (m x)) → stable (λ a, m a a).
Proof. intros H a. apply H. Qed.

Create HintDb stable discriminated.
#[local] Hint Resolve stable_ret stable_gets stable_lift stable_local stable_remote stable_pair stable_draw : stable.
Ltac stable := intros; repeat first [progress cbv beta iota | solve [eauto with stable nocore] | case_match | apply stable_bind; [|intros] | apply stable_modify; intros; reflexivity].

Lemma stable_edit_pair i f : stable (edit_pair i f).
Proof. unfold edit_pair. stable. Qed.
Lemma stable_edit_local i f : stable (edit_local i f).
Proof. unfold edit_local. stable. Qed.
Lemma stable_edit_remote i f : stable (edit_remote i f).
Proof. unfold edit_remote. stable. Qed.
Lemma stable_add_pair l r : stable (add_pair l r).
Proof. unfold add_pair. stable. Qed.
#[local] Hint Resolve stable_edit_pair stable_edit_local stable_edit_remote stable_add_pair : stable.

Lemma stable_sfor {A} (f : A → sm Agent unit) l : (∀ x, stable (f x)) → stable (sfor f l).
Proof. intros H. induction l as [|x l IH]; cbn [sfor]; stable. Qed.
Lemma stable_pair_local l r : stable (pair_local l r).
Proof. unfold pair_local. stable. Qed.
Lemma stable_tracked l r f : stable (tracked l r f).
Proof. unfold tracked. apply (stable_state (λ x a, match find_pair x l r with Some i => edit_pair i f a | None => (Ok tt, a) end)). intros x. case_match; [apply stable_edit_pair|done]. Qed.
Lemma stable_send_stun clk m l r : stable (send_stun clk m l r).
Proof. unfold send_stun. stable. Qed.
#[local] Hint Resolve stable_pair_local stable_tracked stable_send_stun : stable.

Lemma stable_send_request clk m l r : stable (send_binding_request clk m l r).
Proof. unfold send_binding_request. stable. Qed.
Lemma stable_when_built ss k : (∀ m, stable (k m)) → stable (when_built ss k).
Proof. intros H a. unfold when_built. destruct (build ss message_new) as [[[]| |] m]; [apply H|done..]. Qed.
#[local] Hint Resolve stable_send_request : stable.

Lemma stable_send_success clk m l r : stable (send_binding_success clk m l r).
Proof. unfold send_binding_success. stable. apply stable_when_built. stable. Qed.
Lemma stable_send_conflict clk m l r : stable (send_role_conflict_error clk m l r).
Proof. unfold send_role_conflict_error. stable. apply stable_when_built. stable. Qed.
Lemma stable_ping clk l r : stable (ping_candidate clk l r).
Proof.
  apply (stable_state (λ x a, match remote_credentials x with None => (Ok tt, a) | Some cred => (do! n <- draw; do! lc <- local_at l;
    when_built (request_setters (random_tid n) (ufrag cred ++ colon ++ ufrag (local_credentials x)) false (is_controlling x) (agent_tie_breaker x) (candidate_priority lc) (pwd cred))
      (λ msg, send_binding_request clk msg l r)) a end)).
  intros x. case_match; [|done]. stable. apply stable_when_built. stable.
Qed.
Lemma stable_nominate clk : stable (nominate_pair clk).
Proof.
  apply (stable_state (λ x a, match remote_credentials x, nominated_pair x with Some cred, Some i => (do! p <- pair_at i; do! n <- draw;
    when_built (request_setters (random_tid n) (ufrag cred ++ colon ++ ufrag (local_credentials x)) true true (agent_tie_breaker x) (local_priority p) (pwd cred))
      (λ msg, send_binding_request clk msg (local_index p) (remote_index p))) a | _, _ => (Ok tt, a) end)).
  intros x. case_match; [|done]. case_match; [|done]. stable. apply stable_when_built. stable.
Qed.
#[local] Hint Resolve stable_send_success stable_send_conflict stable_ping stable_nominate : stable.

Lemma static_update st a : static (update_connection_state st a) = static a.
Proof. unfold update_connection_state, delete_all_candidates. by repeat case_match. Qed.

Lemma stable_select i : stable (set_selected_pair i).
Proof. unfold set_selected_pair. stable. apply stable_modify. intros. apply static_update. Qed.
#[local] Hint Resolve stable_select : stable.

Lemma stable_trigger cs : stable (trigger_request_connectivity_check cs).
Proof.
  apply stable_sfor. intros c. apply (stable_state (λ x a, if existsb (λ d, equal d c) (remote_candidates x) then (Ok tt, a)
    else (do! _ <- smodify (λ a : Agent, a <| remote_candidates ::= λ l, l ++ [c] |>);
          do! _ <- sfor (λ l, pair_local l (length (remote_candidates x))) (seq 0 (length (local_candidates x))); smodify request_connectivity_check) a)).
  intros x. case_match; [done|]. stable. apply stable_sfor. stable.
Qed.

#[local] Hint Resolve stable_trigger : stable.

Lemma stable_nominatable clk p : stable (both_nominatable clk p).
Proof. unfold both_nominatable, is_nominatable. stable. Qed.
#[local] Hint Resolve stable_nominatable : stable.

Lemma stable_request clk m l r : stable (handle_binding_request clk m l r).
Proof.
  apply (stable_state (λ x a, if is_controlling x then binding_request_controlling clk m l r a else binding_request_controlled clk m l r a)).
  intros x. case_match; [unfold binding_request_controlling|unfold binding_request_controlled]; stable.
Qed.
#[local] Hint Resolve stable_request : stable.

Lemma stable_add_remote clk c : stable (add_remote_candidate clk c).
Proof.
  assert (stable (do! _ <- trigger_request_connectivity_check [c]; sret true)) as H by stable.
  intros a. unfold add_remote_candidate. do 2 (case_match; [done|]). case_match; [by repeat case_match|]. apply H.
Qed.

#[local] Hint Resolve stable_add_remote : stable.

Lemma stable_learn clk l addr : stable (learn_candidate clk l addr).
Proof. unfold learn_candidate. stable. Qed.
#[local] Hint Resolve stable_learn : stable.

Lemma stable_success_response clk now m l r addr : stable (handle_success_response clk now m l r addr).
Proof.
  intros a. unfold handle_success_response, handle_inbound_binding_success. set (b := invalidate_pending_binding_requests clk a).
  assert (static b = static a) as Hb by done. clearbody b. destruct (list_find _ _) as [[j q]|]; [|done].
  set (c := b <| pending_binding_requests ::= delete j |>). assert (static c = static a) as Hc by done. clearbody c.
  case_match; [done|]. case_match; [|done]. rewrite <- Hc.
  match goal with |- static (?m c).2 = _ => assert (stable m) as Hm by stable end. apply Hm.
Qed.
#[local] Hint Resolve stable_success_response : stable.

Lemma stable_inbound_request clk cred m l addr : stable (inbound_request clk cred m l addr).
Proof.
  intros a. unfold inbound_request. destruct (assert_inbound_username _ _); [|done..]. destruct (integrity_check _ _) as [[[]| |] m']; [|done..].
  match goal with |- static (?m a).2 = _ => assert (stable m) as H by stable end. apply H.
Qed.

Lemma stable_inbound_success clk now cred m l addr : stable (inbound_success clk now cred m l addr).
Proof.
  intros a. unfold inbound_success. destruct (integrity_check _ _) as [[[]| |] m']; [|done..]. destruct (find_remote_candidate _ _); [|done].
  match goal with |- static (?m a).2 = _ => assert (stable m) as H by stable end. apply H.
Qed.
#[local] Hint Resolve stable_inbound_request stable_inbound_success : stable.

(** Everything [handle_inbound] does behind the check of the roles *)
Definition inbound_rest (clk now : Z) (m : Message) (l : nat) (addr : SocketAddr) : sm Agent unit :=
  do! creds <- sgets remote_credentials;
  match creds with
  | None => slift (Err ErrPasswordEmpty)
  | Some cred =>
      do! r <- (if class (typ m) =? CLASS_SUCCESS_RESPONSE then inbound_success clk now cred m l addr
                else if class (typ m) =? CLASS_REQUEST then inbound_request clk cred m l addr
                else sgets (λ a, find_remote_candidate a addr));
      match r with Some r => edit_remote r (seen false clk) | None => sret tt end
  end.

Lemma stable_inbound_rest clk now m l addr : stable (inbound_rest clk now m l addr).
Proof. unfold inbound_rest. stable. Qed.

(** * Messages that are not authentic *)

Definition erase_role (p : CandidatePair) : CandidatePair := p <| ice_role_controlling := false |>.

(** All but the role, the nomination and the times *)
Definition untouched a b : Prop :=
  local_credentials b = local_credentials a ∧ remote_credentials b = remote_credentials a ∧ connection_state b = connection_state a ∧
  remote_candidates b = remote_candidates a ∧ resolved_addr <$> local_candidates b = resolved_addr <$> local_candidates a ∧
  selected_pair b = selected_pair a ∧ pending_binding_requests b = pending_binding_requests a ∧
  erase_role <$> candidate_pairs b = erase_role <$> candidate_pairs a.

Lemma untouched_refl a : untouched a a.
Proof. by split_and!. Qed.

Lemma untouched_trans a b c : untouched a b → untouched b c → untouched a c.
Proof. intros (E1 & E2 & E3 & E4 & E5 & E6 & E7 & E8) (F1 & F2 & F3 & F4 & F5 & F6 & F7 & F8). split_and!; congruence. Qed.

Lemma untouched_bind {A B} (m : sm Agent A) (f : A → sm Agent B) a :
  untouched a (m a).2 → (∀ x b, untouched a b → untouched a (f x b).2) → untouched a (sbind m f a).2.
Proof. intros Hm Hf. unfold sbind. destruct (m a) as [[x| |] b]; [|done..]. by apply Hf. Qed.

Lemma untouched_send clk m l r a : untouched a (send_stun clk m l r a).2.
Proof.
  unfold send_stun. apply untouched_bind; [apply untouched_refl|]. intros rc b Hb. eapply untouched_trans; [exact Hb|].
  apply untouched_bind; [apply untouched_refl|]. intros lc c Hc. eapply untouched_trans; [exact Hc|]. clear.
  unfold edit_local, local_at, sbind, smodify. record_simpl. destruct (local_candidates c !! l) as [x|] eqn:E; [|by split_and!]. cbn [snd]. split_and!; try done. record_simpl.
  rewrite list_fmap_insert. apply list_insert_id. rewrite list_lookup_fmap, E. done.
Qed.

Lemma untouched_switch a : untouched a (switch_role a).
Proof. split_and!; try done. unfold switch_role. record_simpl. rewrite <- list_fmap_compose. apply list_fmap_ext. intros i p _. done. Qed.

Lemma untouched_conflict clk m l addr loses a : untouched a (role_conflict clk m l addr loses a).2.
Proof.
  unfold role_conflict. destruct (_ =? _); [|apply untouched_refl]. apply untouched_bind; [apply untouched_refl|]. intros x b Hb.
  eapply untouched_trans; [exact Hb|]. apply untouched_bind.
  { destruct x as [r|]; [|apply untouched_refl]. unfold send_role_conflict_error. apply untouched_bind; [apply untouched_refl|]. intros pw c Hc.
    eapply untouched_trans; [exact Hc|]. unfold when_built. destruct (build _ _) as [[[]| |] out]; [apply untouched_send|apply untouched_refl..]. }
  intros _ c Hc. eapply untouched_trans; [exact Hc|]. apply untouched_bind; [apply untouched_refl|]. intros y d Hd. eapply untouched_trans; [exact Hd|].
  destruct y; [apply untouched_switch|apply untouched_refl].
Qed.

Lemma untouched_check_role clk m l addr a : untouched a (check_role clk m l addr a).2.
Proof.
  unfold check_role. destruct (is_controlling a); [destruct (contains m ATTR_ICE_CONTROLLING)|destruct (contains m ATTR_ICE_CONTROLLED)]; try apply untouched_refl.
  - apply untouched_bind; [apply untouched_refl|]. intros x b Hb. eapply untouched_trans; [exact Hb|apply untouched_conflict].
  - destruct (contains _ _); apply untouched_refl.
  - apply untouched_bind; [apply untouched_refl|]. intros x b Hb. eapply untouched_trans; [exact Hb|apply untouched_conflict].
Qed.

(** Signed with the password of the agent and addressed to it, or an answer signed with that of its peer *)
Definition authentic a (m : Message) : Prop :=
  match remote_credentials a with
  | None => False
  | Some cred =>
      (class (typ m) = CLASS_SUCCESS_RESPONSE ∧ integrity_check (pwd cred) m = (Ok tt, m)) ∨
      (class (typ m) = CLASS_REQUEST ∧ integrity_check (pwd (local_credentials a)) m = (Ok tt, m) ∧
       assert_inbound_username m (ufrag (local_credentials a) ++ colon ++ ufrag cred) = Ok tt)
  end.

Lemma inbound_eq clk now m l addr a :
  handle_inbound clk now m l addr a =
    if negb (method (typ m) =? METHOD_BINDING) || negb ((class (typ m) =? CLASS_SUCCESS_RESPONSE) || (class (typ m) =? CLASS_REQUEST) || (class (typ m) =? CLASS_INDICATION))
    then (Err ErrUnhandledStunpacket, a)
    else sbind (check_role clk m l addr) (λ _, inbound_rest clk now m l addr) a.
Proof. unfold handle_inbound. rewrite guard_then. by destruct (_ || _). Qed.

(** A message of the peer is handled as what was built. *)
Lemma read_eq a clk t l T tid key attrs :
  type_ok T → len tid = 12 → requests_wf attrs →
  find_local_candidate a (local_addr (transport t)) (transport_protocol (transport t)) = Some l → sa_port (peer_addr (transport t)) ≠ MDNS_PORT →
  let m := packed T tid (protected_attrs key T tid attrs) in
  message t = raw m → agent_handle_read clk t a = handle_inbound clk (tagged_now t) m l (peer_addr (transport t)) a.
Proof.
  intros HT Ht Hw El Hport m Em. destruct (protected_read T tid key attrs message_default HT Ht Hw) as (H1 & H2 & _). fold m in H1, H2.
  unfold agent_handle_read. rewrite (proj2 (Z.eqb_neq _ _) Hport), El. unfold handle_inbound_candidate_msg. by rewrite Em, H1, H2.
Qed.

Lemma inbound_refused clk now w m l addr a :
  agent_ok a → (l < length (local_candidates a))%nat → holds w m → class (typ m) ≠ CLASS_INDICATION → ¬ authentic a m →
  (∃ e, (handle_inbound clk now m l addr a).1 = Err e) ∧ untouched a (handle_inbound clk now m l addr a).2.
Proof.
  intros Ha Hl Hm Hc Hn. rewrite inbound_eq. destruct (_ || _) eqn:Eg; [split; [by eexists|apply untouched_refl]|].
  pose proof (good_check_role a clk m l addr Ha Hl (holds_tid w m Hm)) as Hg. pose proof (untouched_check_role clk m l addr a) as Hu.
  unfold sbind. destruct (check_role clk m l addr a) as [[[]|e|] b]; cbn [snd] in Hu; [|split; [by eexists|done]|done].
  pose proof Hu as (E1 & E2 & _). unfold inbound_rest, authentic, sbind, sgets in *. rewrite <- E1, <- E2 in Hn. clear E1 E2 Hg.
  destruct (remote_credentials b) as [cred|]; [|split; [by eexists|done]].
  destruct (Z.eqb_spec (class (typ m)) CLASS_SUCCESS_RESPONSE) as [Es|Es].
  - unfold inbound_success. destruct (integrity_total (pwd cred) w m Hm) as [Hi Em].
    destruct (integrity_check (pwd cred) m) as [[[]|e|] m'] eqn:Ei; cbn [fst snd] in *; subst; [|split; [by eexists|done]|done].
    destruct Hn. by left.
  - destruct (Z.eqb_spec (class (typ m)) CLASS_REQUEST) as [Er|Er].
    + unfold inbound_request. destruct (integrity_total (pwd (local_credentials b)) w m Hm) as [Hi Em].
      assert (assert_inbound_username m (ufrag (local_credentials b) ++ colon ++ ufrag cred) ≠ Panic) as Hp.
      { unfold assert_inbound_username. apply bind_total; [apply law_total|]. intros v _. by case_match. }
      destruct (assert_inbound_username _ _) as [[]|e|] eqn:Eu; [|split; [by eexists|done]|done].
      destruct (integrity_check (pwd (local_credentials b)) m) as [[[]|e|] m'] eqn:Ei; cbn [fst snd] in *; subst; [|split; [by eexists|done]|done].
      destruct Hn. by right.
    + exfalso. rewrite (proj2 (Z.eqb_neq _ _) Hc) in Eg. cbn [orb negb] in Eg. by rewrite orb_true_r in Eg.
Qed.

(** * Role conflicts *)

Lemma role_after_conflict clk m l addr loses a :
  agent_ok a → (l < length (local_candidates a))%nat → len (transaction_id m) = 12 → class (typ m) = CLASS_REQUEST →
  (∀ b, static b = static a → loses b = loses a) →
  ∃ b, role_conflict clk m l addr loses a = (Ok tt, b) ∧ is_controlling b = xorb (loses a) (is_controlling a).
Proof.
  intros Ha Hl Ht Hc Hs. unfold role_conflict. rewrite Hc. change (CLASS_REQUEST =? CLASS_REQUEST) with true. cbv iota.
  unfold sbind at 1, sgets at 1.
  assert (∃ b, (match find_remote_candidate a addr with Some r => send_role_conflict_error clk m l r | None => sret tt end) a = (Ok tt, b) ∧ static b = static a) as (b & Eb & Sb).
  { destruct (find_remote_candidate a addr) as [r|] eqn:Er; [|by exists a].
    pose proof (good_send_conflict a clk m l r Ha ltac:(split; [done|by eapply find_remote_in]) Ht) as Hg. pose proof (stable_send_conflict clk m l r a) as Hst.
    destruct (conflict_built m (pwd (local_credentials a)) Ht) as [out Eo].
    unfold send_role_conflict_error, sbind, sgets, when_built in *. rewrite Eo in *.
    assert (∀ e b, send_stun clk out l r a ≠ (Err e, b)) as Hne.
    { intros e b. unfold send_stun, edit_local, sbind, remote_at, local_at, smodify. repeat case_match; congruence. }
    destruct (send_stun clk out l r a) as [[[]|e|] b]; [by exists b|by destruct (Hne e b)|done]. }
  unfold sbind at 1. rewrite Eb. unfold sbind, sgets. rewrite (Hs b Sb). injection Sb as E _. destruct (loses a).
  - exists (switch_role b). split; [reflexivity|]. change (is_controlling (switch_role b)) with (negb (is_controlling b)). rewrite E. by destruct (is_controlling a).
  - exists b. split; [reflexivity|]. rewrite E. by destruct (is_controlling a).
Qed.

(** The role after a request of an agent that has the same role *)
Lemma role_after_request a clk t l tid u uc tie prio pw :
  agent_ok a → find_local_candidate a (local_addr (transport t)) (transport_protocol (transport t)) = Some l →
  sa_port (peer_addr (transport t)) ≠ MDNS_PORT → len tid = 12 → len u <= 513 → fits 64 tie →
  message t = raw (request_message tid u uc (is_controlling a) tie prio pw) →
  is_controlling (agent_handle_read clk t a).2 =
    if is_controlling a then negb (agent_tie_breaker a <? tie) else tie <? agent_tie_breaker a.
Proof.
  intros Ha El Hport Ht Hu Htie Em. set (m := request_message tid u uc (is_controlling a) tie prio pw) in *.
  rewrite (read_eq a clk t l BINDING_REQUEST tid pw (request_attrs u uc (is_controlling a) tie prio)); [|by split|done|by apply request_attrs_wf|done..].
  change (packed BINDING_REQUEST tid _) with m. set (addr := peer_addr (transport t)). set (now := tagged_now t).
  rewrite inbound_eq. change (_ || _) with false. cbv iota.
  destruct (request_contains tid u uc (is_controlling a) tie prio pw) as (_ & C1 & C2). fold m in C1, C2.
  pose proof (request_tie tid u uc (is_controlling a) tie prio pw Htie) as Et. fold m in Et. cbv zeta in Et.
  assert (∃ b, check_role clk m l addr a = (Ok tt, b) ∧ is_controlling b = if is_controlling a then negb (agent_tie_breaker a <? tie) else tie <? agent_tie_breaker a) as (b & Eb & Rb).
  { unfold check_role. destruct (is_controlling a) eqn:Ec; rewrite ?C1, ?C2; cbn [negb]; unfold sbind, slift; rewrite Et.
    - destruct (role_after_conflict clk m l addr (λ a, agent_tie_breaker a <? controlling (mkControlling tie)) a Ha) as (b & Eb & Rb); [by eapply find_local_in|done|done| |].
      { intros b Sb. by injection Sb as _ _ _ _ _ -> _ _ _ _. }
      exists b. split; [done|]. rewrite Rb, Ec. cbn [controlling]. by destruct (_ <? _).
    - destruct (role_after_conflict clk m l addr (λ a, controlled (mkControlled tie) <? agent_tie_breaker a) a Ha) as (b & Eb & Rb); [by eapply find_local_in|done|done| |].
      { intros b Sb. by injection Sb as _ _ _ _ _ -> _ _ _ _. }
      exists b. split; [done|]. rewrite Rb, Ec. cbn [controlled]. by destruct (_ <? _). }
  unfold sbind. rewrite Eb. pose proof (stable_inbound_rest clk now m l addr b) as Sr. injection Sr as Er _. by rewrite Er.
Qed.

(** * Two agents with one pair *)

(** What one agent of the session looks like: [st] is the state of its pair, [nom] and [sel] the
    nominated and the selected pair, [q] the pending requests, [out] the messages to be sent *)
Record view (own peer : SocketAddr) (st : CandidatePairState) (nom sel : option nat) (q : list BindingRequest) (conn : ConnectionState)
    (out : list TaggedBytes) a : Prop := {
  view_local : ∃ c, local_candidates a = [c] ∧ resolved_addr c = own ∧ candidate_type c = Host ∧ network_type c = Udp4 ∧ tcp_type c = TcpUnspecified;
  view_remote : ∃ c, remote_candidates a = [c] ∧ resolved_addr c = peer ∧ candidate_type c = Host;
  view_pair : ∃ p, candidate_pairs a = [p] ∧ local_index p = 0%nat ∧ remote_index p = 0%nat ∧ pair_state p = st;
  view_nominated : nominated_pair a = nom;
  view_selected : selected_pair a = sel;
  view_pending : pending_binding_requests a = q;
  view_connection : connection_state a = conn;
  view_outs : write_outs a = out;
  view_mdns : mdns a = None
}.

(** One operation that ends in a view and keeps the settings *)
Definition reaches {A} a (r : res A * Agent) (x : A) (V : Agent → Prop) : Prop := ∃ b, r = (Ok x, b) ∧ V b ∧ static b = static a.

Lemma reaches_bind {A B} a (m : sm Agent A) (f : A → sm Agent B) x y (V W : Agent → Prop) :
  reaches a (m a) x V → (∀ b, V b → static b = static a → reaches b (f x b) y W) → reaches a (sbind m f a) y W.
Proof.
  intros (b & E & Hv & Hs) Hf. unfold sbind. rewrite E. destruct (Hf b Hv Hs) as (c & E' & Hw & Hs'). exists c. split_and!; [done..|]. by rewrite Hs'.
Qed.

Lemma static_fields a b :
  static b = static a →
  is_controlling b = is_controlling a ∧ local_credentials b = local_credentials a ∧ remote_credentials b = remote_credentials a ∧
  agent_tie_breaker b = agent_tie_breaker a ∧ start_time b = start_time a ∧ host_acceptance_min_wait b = host_acceptance_min_wait a.
Proof. intros E. by injection E as -> _ -> -> -> -> -> _ _ _. Qed.

Section View.
Variables (own peer : SocketAddr).
Abbreviation vw := (view own peer).

Definition sent (clk : Z) (m : Message) : TaggedBytes := mkTagged clk (mkTransportContext own peer UDP) (raw m).

Lemma view_find_pair st nom sel q conn out a : vw st nom sel q conn out a → find_pair a 0 0 = Some 0%nat.
Proof. intros []. destruct view_pair0 as (p & E & E1 & E2 & _). unfold find_pair. rewrite E. cbn [list_find]. by rewrite decide_True. Qed.

Lemma view_find_remote st nom sel q conn out a : vw st nom sel q conn out a → find_remote_candidate a peer = Some 0%nat.
Proof. intros []. destruct view_remote0 as (c & E & E1 & _). unfold find_remote_candidate. rewrite E. cbn [list_find]. by rewrite decide_True. Qed.

Lemma view_find_local st nom sel q conn out a : vw st nom sel q conn out a → find_local_candidate a own UDP = Some 0%nat.
Proof.
  intros []. destruct view_local0 as (c & E & E1 & E2 & E3 & E4). unfold find_local_candidate. rewrite E. cbn [list_find]. rewrite decide_True; [done|].
  unfold local_matches. rewrite E1, E3, E4. by rewrite (bool_decide_true (own = own)).
Qed.

Lemma reach_edit_pair f st st' nom sel q conn out a :
  vw st nom sel q conn out a → (∀ p, local_index (f p) = local_index p ∧ remote_index (f p) = remote_index p) → (∀ p, pair_state p = st → pair_state (f p) = st') →
  reaches a (edit_pair 0 f a) tt (vw st' nom sel q conn out).
Proof.
  intros [] Hf Hs. destruct view_pair0 as (p & E & E1 & E2 & E3). unfold edit_pair, sbind, pair_at, smodify. rewrite E. eexists. split; [reflexivity|].
  destruct (Hf p) as [F1 F2]. split; [|done]. split; record_simpl; try done. rewrite E. exists (f p). split_and!; [done|congruence|congruence|by apply Hs].
Qed.

Lemma reach_tracked_pair f st nom sel q conn out a :
  vw st nom sel q conn out a → (∀ p, local_index (f p) = local_index p ∧ remote_index (f p) = remote_index p ∧ pair_state (f p) = pair_state p) →
  reaches a (tracked 0 0 f a) tt (vw st nom sel q conn out).
Proof.
  intros Hv Hf. unfold tracked. rewrite (view_find_pair st nom sel q conn out a Hv). eapply reach_edit_pair; [done|intros p; by destruct (Hf p) as (? & ? & ?)|].
  intros p <-. apply Hf.
Qed.

Lemma reach_send clk m st nom sel q conn out a :
  vw st nom sel q conn out a → reaches a (send_stun clk m 0 0 a) tt (vw st nom sel q conn (out ++ [sent clk m])).
Proof.
  intros []. destruct view_local0 as (c & E & E1 & E2 & E3 & E4), view_remote0 as (d & F & F1 & F2).
  unfold send_stun, edit_local, sbind, remote_at, local_at, smodify. rewrite F. cbn [lookup list_lookup]. rewrite E. cbn [lookup list_lookup]. record_simpl. rewrite E. cbn [lookup list_lookup].
  eexists. split; [reflexivity|]. split; [|done]. split; record_simpl; try done; [rewrite E; by exists (seen true clk c)|by exists d|].
  rewrite view_outs0, E1, F1, E3. done.
Qed.

Definition live (clk : Z) (q : list BindingRequest) : list BindingRequest :=
  filter (λ r, clk < br_timestamp r ∨ clk - br_timestamp r < MAX_BINDING_REQUEST_TIMEOUT) q.

Lemma reach_send_request clk m st nom sel q conn out a :
  vw st nom sel q conn out a →
  reaches a (send_binding_request clk m 0 0 a) tt
    (vw st nom sel (live clk q ++ [mkBindingRequest clk (transaction_id m) peer (contains m ATTR_USE_CANDIDATE)]) conn (out ++ [sent clk m])).
Proof.
  intros Hv. unfold send_binding_request. eapply (reaches_bind _ _ _ tt _ (vw st nom sel (live clk q) conn out)).
  { eexists. split; [reflexivity|]. split; [|done]. destruct Hv. unfold invalidate_pending_binding_requests. split; record_simpl; try done. unfold live. by rewrite view_pending0. }
  intros b Hb _. pose proof (view_remote _ _ _ _ _ _ _ _ _ Hb) as (c & F & F1 & _).
  eapply (reaches_bind _ _ _ c _ (λ x, x = b)); [exists b; unfold remote_at; by rewrite F|]. intros x -> _. rewrite F1.
  eapply (reaches_bind _ _ _ tt _ (vw st nom sel (live clk q ++ [_]) conn out)).
  { eexists. split; [reflexivity|]. split; [|done]. destruct Hb. split; record_simpl; try done. by rewrite view_pending0. }
  intros d Hd _. eapply reaches_bind; [by apply (reach_tracked_pair _ _ _ _ _ _ _ _ Hd)|]. intros e He _. by apply reach_send.
Qed.

(** A check: the identifier of its transaction is one that is drawn. *)
Lemma reach_ping clk st nom sel q conn out a cred :
  vw st nom sel q conn out a → remote_credentials a = Some cred → len (ufrag cred ++ colon ++ ufrag (local_credentials a)) <= 513 →
  ∃ n prio, let m := request_message (random_tid n) (ufrag cred ++ colon ++ ufrag (local_credentials a)) false (is_controlling a) (agent_tie_breaker a) prio (pwd cred) in
  reaches a (ping_candidate clk 0 0 a) tt (vw st nom sel (live clk q ++ [mkBindingRequest clk (random_tid n) peer false]) conn (out ++ [sent clk m])).
Proof.
  intros Hv Hc Hu. pose proof (view_local _ _ _ _ _ _ _ _ _ Hv) as (c & E & _). exists (draws a), (candidate_priority c). intros m.
  set (b := a <| draws ::= Z.succ |>). assert (vw st nom sel q conn out b) as Hb by (destruct Hv; by split; record_simpl).
  assert (ping_candidate clk 0 0 a = send_binding_request clk m 0 0 b) as ->.
  { unfold ping_candidate. rewrite Hc. unfold sbind, draw, local_at. fold b. change (local_candidates b) with (local_candidates a). rewrite E. cbn [lookup list_lookup].
    unfold when_built. rewrite request_built by (done || apply random_tid_length). done. }
  destruct (reach_send_request clk m _ _ _ _ _ _ _ Hb) as (d & Ed & Hd & Sd). exists d. split; [done|]. split; [|by rewrite Sd].
  destruct (request_contains (random_tid (draws a)) (ufrag cred ++ colon ++ ufrag (local_credentials a)) false (is_controlling a) (agent_tie_breaker a) (candidate_priority c) (pwd cred)) as (C & _).
  fold m in C. by rewrite C in Hd.
Qed.

Lemma reach_nominate clk st sel q conn out a cred :
  vw st (Some 0%nat) sel q conn out a → remote_credentials a = Some cred → len (ufrag cred ++ colon ++ ufrag (local_credentials a)) <= 513 →
  ∃ n prio, let m := request_message (random_tid n) (ufrag cred ++ colon ++ ufrag (local_credentials a)) true true (agent_tie_breaker a) prio (pwd cred) in
  reaches a (nominate_pair clk a) tt (vw st (Some 0%nat) sel (live clk q ++ [mkBindingRequest clk (random_tid n) peer true]) conn (out ++ [sent clk m])).
Proof.
  intros Hv Hc Hu. pose proof (view_pair _ _ _ _ _ _ _ _ _ Hv) as (p & E & E1 & E2 & _). exists (draws a), (local_priority p). intros m.
  set (b := a <| draws ::= Z.succ |>). assert (vw st (Some 0%nat) sel q conn out b) as Hb by (destruct Hv; by split; record_simpl).
  assert (nominate_pair clk a = send_binding_request clk m 0 0 b) as ->.
  { unfold nominate_pair. rewrite Hc, (view_nominated _ _ _ _ _ _ _ _ _ Hv). unfold sbind, draw, pair_at. rewrite E. cbn [lookup list_lookup]. fold b.
    unfold when_built. rewrite request_built by (done || apply random_tid_length). by rewrite E1, E2. }
  destruct (reach_send_request clk m _ _ _ _ _ _ _ Hb) as (d & Ed & Hd & Sd). exists d. split; [done|]. split; [|by rewrite Sd].
  destruct (request_contains (random_tid (draws a)) (ufrag cred ++ colon ++ ufrag (local_credentials a)) true true (agent_tie_breaker a) (local_priority p) (pwd cred)) as (C & _).
  fold m in C. by rewrite C in Hd.
Qed.

Lemma reach_success clk m st nom sel q conn out a :
  vw st nom sel q conn out a → len (transaction_id m) = 12 → ip_ok (sa_ip peer) →
  reaches a (send_binding_success clk m 0 0 a) tt (vw st nom sel q conn (out ++ [sent clk (success_message (transaction_id m) peer (pwd (local_credentials a)))])).
Proof.
  intros Hv Ht Hip. pose proof (view_remote _ _ _ _ _ _ _ _ _ Hv) as (c & F & F1 & _). unfold send_binding_success.
  eapply (reaches_bind _ _ _ c _ (λ x, x = a)); [exists a; unfold remote_at; by rewrite F|]. intros x -> _. rewrite F1.
  eapply (reaches_bind _ _ _ (pwd (local_credentials a)) _ (λ x, x = a)); [by exists a|]. intros x -> _.
  unfold when_built. rewrite success_built by done. eapply reaches_bind; [by apply (reach_tracked_pair _ _ _ _ _ _ _ _ Hv)|]. intros e He _. by apply reach_send.
Qed.

Lemma reach_select st nom q conn out a :
  vw st nom None q conn out a → reaches a (set_selected_pair 0 a) tt (vw st nom (Some 0%nat) q Connected out).
Proof.
  intros Hv. unfold set_selected_pair.
  eapply (reaches_bind _ _ _ tt); [by apply (reach_edit_pair _ st st _ _ _ _ _ _ Hv)|]. intros b Hb _.
  eapply (reaches_bind _ _ _ tt _ (vw st nom (Some 0%nat) q conn out)).
  { eexists. split; [reflexivity|]. split; [|done]. destruct Hb. by split; record_simpl. }
  intros c Hc _. eapply (reaches_bind _ _ _ tt _ (vw st nom (Some 0%nat) q Connected out)).
  { exists (update_connection_state Connected c). split; [reflexivity|]. split; [|apply static_update]. unfold update_connection_state.
    destruct Hc. case_bool_decide; [by split|]. rewrite (bool_decide_false (Connected = Failed)) by done. by split; record_simpl. }
  intros d Hd _. pose proof (view_pair _ _ _ _ _ _ _ _ _ Hd) as (p & E & E1 & E2 & _).
  pose proof (view_remote _ _ _ _ _ _ _ _ _ Hd) as (rc & F & _). pose proof (view_local _ _ _ _ _ _ _ _ _ Hd) as (lc & G & _).
  unfold sbind, pair_at, local_at, remote_at. rewrite E. cbn [lookup list_lookup]. rewrite E1, E2, G, F. cbn [lookup list_lookup].
  eexists. split; [reflexivity|]. split; [|done]. destruct Hd. by split; record_simpl.
Qed.

(** ** Reading what the peer sent *)

Definition arrives (t : TaggedBytes) (m : Message) : Prop :=
  transport t = mkTransportContext own peer UDP ∧ message t = raw m ∧ sa_port peer ≠ MDNS_PORT.

Lemma reach_seen clk st nom sel q conn out a : vw st nom sel q conn out a → reaches a (edit_remote 0 (seen false clk) a) tt (vw st nom sel q conn out).
Proof.
  intros []. destruct view_remote0 as (c & F & F1 & F2). unfold edit_remote, sbind, remote_at, smodify. rewrite F. eexists. split; [reflexivity|].
  split; [|done]. split; record_simpl; try done. rewrite F. by exists (seen false clk c).
Qed.

Lemma read_request clk t st nom sel q conn out a cred tid uc tie prio :
  let u := ufrag (local_credentials a) ++ colon ++ ufrag cred in
  let m := request_message tid u uc (negb (is_controlling a)) tie prio (pwd (local_credentials a)) in
  vw st nom sel q conn out a → remote_credentials a = Some cred → arrives t m → len tid = 12 → len u <= 513 → utf8_valid u = true →
  (is_controlling a = true → uc = false) →
  agent_handle_read clk t a = sbind (handle_binding_request clk m 0 0) (λ _, edit_remote 0 (seen false clk)) a.
Proof.
  intros u m Hv Hc (E1 & E2 & E3) Ht Hu Hutf Huc. pose proof (view_find_local _ _ _ _ _ _ _ Hv) as El.
  assert (find_local_candidate a (local_addr (transport t)) (transport_protocol (transport t)) = Some 0%nat) as El' by (by rewrite E1).
  assert (sa_port (peer_addr (transport t)) ≠ MDNS_PORT) as Hp by (by rewrite E1).
  rewrite (read_eq a clk t 0 BINDING_REQUEST tid (pwd (local_credentials a)) (request_attrs u uc (negb (is_controlling a)) tie prio) ltac:(by split) Ht
    (request_attrs_wf u uc _ tie prio Hu) El' Hp E2).
  change (packed BINDING_REQUEST tid _) with m. rewrite E1. cbn [peer_addr]. rewrite inbound_eq. change (_ || _) with false. cbv iota.
  destruct (request_contains tid u uc (negb (is_controlling a)) tie prio (pwd (local_credentials a))) as (C1 & C2 & C3). fold m in C1, C2, C3.
  assert (check_role clk m 0 peer a = (Ok tt, a)) as Ek.
  { unfold check_role. rewrite C1, C2, C3, negb_involutive. destruct (is_controlling a) eqn:Ec; [by rewrite Huc|done]. }
  unfold sbind at 1. rewrite Ek. unfold inbound_rest. unfold sbind at 1, sgets at 1. rewrite Hc.
  change (class (typ m) =? CLASS_SUCCESS_RESPONSE) with false. change (class (typ m) =? CLASS_REQUEST) with true. cbv iota.
  unfold sbind at 1, inbound_request. unfold assert_inbound_username. unfold m at 1. rewrite request_username by done. fold m. cbn [rbind text]. fold u.
  rewrite bool_decide_true by done.
  destruct (protected_read BINDING_REQUEST tid (pwd (local_credentials a)) (request_attrs u uc (negb (is_controlling a)) tie prio) message_default ltac:(by split) Ht
    (request_attrs_wf u uc _ tie prio Hu)) as (_ & _ & Ei). change (packed BINDING_REQUEST tid _) with m in Ei. rewrite Ei.
  unfold sbind at 1, sgets. rewrite (view_find_remote _ _ _ _ _ _ _ Hv). unfold sbind, sret. by destruct (handle_binding_request clk m 0 0 a) as [[[]| |] b].
Qed.

Lemma read_success clk t st nom sel q conn out a cred tid addr :
  let m := success_message tid addr (pwd cred) in
  vw st nom sel q conn out a → remote_credentials a = Some cred → arrives t m → len tid = 12 → ip_ok (sa_ip addr) →
  agent_handle_read clk t a = sbind (handle_success_response clk (tagged_now t) m 0 0 peer) (λ _, edit_remote 0 (seen false clk)) a.
Proof.
  intros m Hv Hc (E1 & E2 & E3) Ht Hip. pose proof (view_find_local _ _ _ _ _ _ _ Hv) as El.
  assert (find_local_candidate a (local_addr (transport t)) (transport_protocol (transport t)) = Some 0%nat) as El' by (by rewrite E1).
  assert (sa_port (peer_addr (transport t)) ≠ MDNS_PORT) as Hp by (by rewrite E1).
  rewrite (read_eq a clk t 0 BINDING_SUCCESS tid (pwd cred) (success_attrs addr tid) ltac:(by split) Ht (success_attrs_wf addr tid Hip Ht) El' Hp E2).
  change (packed BINDING_SUCCESS tid _) with m. rewrite E1. cbn [peer_addr]. rewrite inbound_eq. change (_ || _) with false. cbv iota.
  assert (check_role clk m 0 peer a = (Ok tt, a)) as Ek.
  { unfold check_role, m. rewrite !success_contains by done. by destruct (is_controlling a). }
  unfold sbind at 1. rewrite Ek. unfold inbound_rest. unfold sbind at 1, sgets at 1. rewrite Hc.
  change (class (typ m) =? CLASS_SUCCESS_RESPONSE) with true. cbv iota. unfold sbind at 1, inbound_success.
  destruct (protected_read BINDING_SUCCESS tid (pwd cred) (success_attrs addr tid) message_default ltac:(by split) Ht (success_attrs_wf addr tid Hip Ht)) as (_ & _ & Ei).
  change (packed BINDING_SUCCESS tid _) with m in Ei. rewrite Ei, (view_find_remote _ _ _ _ _ _ _ Hv). unfold sbind, sret.
  by destruct (handle_success_response clk (tagged_now t) m 0 0 peer a) as [[[]| |] b].
Qed.

(** The answer to the one pending request *)
Lemma reach_answer clk now m st nom sel ts uc conn out a :
  vw st nom sel [mkBindingRequest ts (transaction_id m) peer uc] conn out a → clk - ts < MAX_BINDING_REQUEST_TIMEOUT → sel = None →
  reaches a (handle_success_response clk now m 0 0 peer a) tt
    (if is_controlling a && uc then vw Succeeded nom (Some 0%nat) [] Connected out else vw Succeeded nom None [] conn out).
Proof.
  intros Hv Hts ->. unfold handle_success_response, handle_inbound_binding_success. set (b := invalidate_pending_binding_requests clk a).
  assert (vw st nom None [mkBindingRequest ts (transaction_id m) peer uc] conn out b ∧ static b = static a) as [Hb Sb].
  { split; [|done]. unfold b, invalidate_pending_binding_requests. destruct Hv. split; record_simpl; try done. rewrite view_pending0.
    rewrite filter_cons_True; [done|]. right. done. }
  clearbody b. rewrite (view_pending _ _ _ _ _ _ _ _ _ Hb). cbn [list_find br_transaction_id]. rewrite decide_True by done. cbn [option_map fst snd].
  set (c := b <| pending_binding_requests ::= delete 0%nat |>).
  assert (vw st nom None [] conn out c ∧ static c = static a) as [Hc Sc].
  { split; [|done]. unfold c. destruct Hb. split; record_simpl; try done. by rewrite view_pending0. }
  clearbody c. cbn [br_destination]. rewrite bool_decide_true by done. cbn [negb]. rewrite (view_find_pair _ _ _ _ _ _ _ Hc). cbn [is_use_candidate].
  destruct (static_fields a c Sc) as (Ec & _). rewrite Ec, (view_selected _ _ _ _ _ _ _ _ _ Hc). rewrite (bool_decide_true (None = None)) by done. rewrite andb_true_r.
  match goal with |- reaches a (sbind (edit_pair 0 ?f) ?k c) _ _ => assert (reaches c (sbind (edit_pair 0 f) k c) tt
    (if is_controlling a && uc then vw Succeeded nom (Some 0%nat) [] Connected out else vw Succeeded nom None [] conn out)) as (d & Ed & Hd & Sd) end.
  { eapply reaches_bind; [by apply (reach_edit_pair _ st Succeeded _ _ _ _ _ _ Hc)|]. intros d Hd Sd. destruct (is_controlling a && uc).
    - by apply reach_select with conn.
    - by exists d. }
  exists d. split_and!; [done|done|]. by rewrite Sd.
Qed.

(** A check without nomination, read by the controlled agent *)
Lemma reach_request_controlled clk t st nom sel q conn out a cred tid tie prio :
  let u := ufrag (local_credentials a) ++ colon ++ ufrag cred in
  let v := ufrag cred ++ colon ++ ufrag (local_credentials a) in
  vw st nom sel q conn out a → is_controlling a = false → remote_credentials a = Some cred →
  arrives t (request_message tid u false true tie prio (pwd (local_credentials a))) → len tid = 12 → len u <= 513 → utf8_valid u = true → ip_ok (sa_ip peer) →
  ∃ n p, reaches a (agent_handle_read clk t a) tt
    (vw st nom sel (live clk q ++ [mkBindingRequest clk (random_tid n) peer false]) conn
       (out ++ [sent clk (success_message tid peer (pwd (local_credentials a)));
                sent clk (request_message (random_tid n) v false false (agent_tie_breaker a) p (pwd cred))])).
Proof.
  intros u v Hv Hctl Hc Ha Ht Hu Hutf Hip. assert (len v <= 513) as Hlv by (unfold u, v in *; rewrite !len_app in *; lia).
  rewrite (read_request clk t st nom sel q conn out a cred tid false tie prio Hv Hc) by (rewrite ?Hctl; done). rewrite Hctl. cbn [negb]. fold u.
  set (m := request_message tid u false true tie prio (pwd (local_credentials a))).
  assert (∃ b, reaches a (edit_pair 0 on_request_received a) tt (λ x, x = b) ∧ vw st nom sel q conn out b) as (b & Rb & Hb).
  { destruct (reach_edit_pair on_request_received st st nom sel q conn out a Hv) as (b & E & Hb & Sb); [done..|]. exists b. split; [by exists b|done]. }
  assert (static b = static a) as Sb by (destruct Rb as (x & _ & -> & S'); done). destruct (static_fields a b Sb) as (F1 & F2 & F3 & F4 & _).
  destruct (reach_success clk m st nom sel q conn out b Hb Ht Hip) as (c & Ec & Hcv & Sc). destruct (static_fields b c Sc) as (G1 & G2 & G3 & G4 & _).
  destruct (reach_ping clk _ _ _ _ _ _ c cred Hcv) as (n & p & d & Ed & Hd & Sd); [congruence|rewrite G2, F2; done|]. exists n, p.
  destruct (reach_seen clk _ _ _ _ _ _ d Hd) as (e & Ee & He & Se). exists e.
  assert (handle_binding_request clk m 0 0 a = (Ok tt, d)) as Ehb.
  { unfold handle_binding_request. rewrite Hctl. unfold binding_request_controlled. unfold sbind at 1, sgets at 1. rewrite (view_find_pair _ _ _ _ _ _ _ Hv).
    rewrite bool_decide_false by done. unfold sbind at 1, sret at 1. unfold sbind at 1, sgets at 1. rewrite (view_find_pair _ _ _ _ _ _ _ Hv).
    destruct Rb as (x & Ex & -> & _). unfold sbind at 1. rewrite Ex. pose proof (view_pair _ _ _ _ _ _ _ _ _ Hb) as (pr & Ep & _).
    unfold sbind at 1, pair_at. rewrite Ep. cbn [lookup list_lookup]. change (contains m ATTR_USE_CANDIDATE) with false. cbv iota.
    unfold sbind. by rewrite Ec, Ed. }
  unfold sbind. rewrite Ehb, Ee. split_and!; [done| |by rewrite Se, Sd, Sc].
  rewrite <- app_assoc in He. rewrite G1, G2, G4, F1, F2, F4, Hctl in He. exact He.
Qed.

(** A check, read by the controlling agent when its own check has succeeded: it nominates the pair. *)
Lemma reach_request_controlling clk t conn out a cred tid tie prio :
  let u := ufrag (local_credentials a) ++ colon ++ ufrag cred in
  let v := ufrag cred ++ colon ++ ufrag (local_credentials a) in
  vw Succeeded None None [] conn out a → is_controlling a = true → remote_credentials a = Some cred →
  arrives t (request_message tid u false false tie prio (pwd (local_credentials a))) → len tid = 12 → len u <= 513 → utf8_valid u = true → ip_ok (sa_ip peer) →
  host_acceptance_min_wait a < clk - start_time a →
  ∃ n p, reaches a (agent_handle_read clk t a) tt
    (vw Succeeded (Some 0%nat) None [mkBindingRequest clk (random_tid n) peer true] conn
       (out ++ [sent clk (success_message tid peer (pwd (local_credentials a)));
                sent clk (request_message (random_tid n) v true true (agent_tie_breaker a) p (pwd cred))])).
Proof.
  intros u v Hv Hctl Hc Ha Ht Hu Hutf Hip Hw. assert (len v <= 513) as Hlv by (unfold u, v in *; rewrite !len_app in *; lia).
  rewrite (read_request clk t _ _ _ _ _ _ a cred tid false tie prio Hv Hc) by (rewrite ?Hctl; done). rewrite Hctl. cbn [negb]. fold u.
  set (m := request_message tid u false false tie prio (pwd (local_credentials a))).
  destruct (reach_success clk m _ _ _ _ _ _ a Hv Ht Hip) as (b & Eb & Hb & Sb). destruct (static_fields a b Sb) as (F1 & F2 & F3 & F4 & F5 & F6).
  destruct (reach_edit_pair on_request_received Succeeded Succeeded _ _ _ _ _ b Hb) as (c & Ec & Hcv & Sc); [done..|].
  destruct (static_fields b c Sc) as (G1 & G2 & G3 & G4 & G5 & G6).
  set (c' := c <| nominated_pair := Some 0%nat |>).
  assert (vw Succeeded (Some 0%nat) None [] conn (out ++ [sent clk (success_message tid peer (pwd (local_credentials a)))]) c') as Hc'
    by (destruct Hcv; by split; unfold c'; record_simpl).
  destruct (reach_nominate clk _ _ _ _ _ c' cred Hc') as (n & p & d & Ed & Hd & Sd).
  { change (remote_credentials c') with (remote_credentials c). congruence. }
  { change (local_credentials c') with (local_credentials c). rewrite G2, F2. done. }
  change (local_credentials c') with (local_credentials c) in Hd. change (agent_tie_breaker c') with (agent_tie_breaker c) in Hd. exists n, p.
  destruct (reach_seen clk _ _ _ _ _ _ d Hd) as (e & Ee & He & Se). exists e.
  assert (handle_binding_request clk m 0 0 a = (Ok tt, d)) as Ehb.
  { unfold handle_binding_request. rewrite Hctl. unfold binding_request_controlling. unfold sbind at 1. rewrite Eb.
    unfold sbind at 1, sgets at 1. rewrite (view_find_pair _ _ _ _ _ _ _ Hb). unfold sbind at 1. rewrite Ec.
    pose proof (view_pair _ _ _ _ _ _ _ _ _ Hcv) as (pr & Ep & E1 & E2 & E3).
    pose proof (view_local _ _ _ _ _ _ _ _ _ Hcv) as (lc & El & _ & El2 & _). pose proof (view_remote _ _ _ _ _ _ _ _ _ Hcv) as (rc & Er & _ & Er2).
    unfold sbind at 1, pair_at at 1. rewrite Ep. cbn [lookup list_lookup].
    assert (get_best_available_pair c = Some 0%nat) as Hbest by (unfold get_best_available_pair; rewrite Ep; cbn [best_loop]; by rewrite E3).
    unfold sbind at 1, sgets at 1. rewrite E3, (view_nominated _ _ _ _ _ _ _ _ _ Hcv), (view_selected _ _ _ _ _ _ _ _ _ Hcv), Hbest.
    rewrite !(bool_decide_true (_ = _)) by done. cbn [andb].
    assert (∀ x, candidate_type x = Host → nominatable clk c x = true) as Hnom.
    { intros x Ex. unfold nominatable. rewrite Ex. apply Z.ltb_lt. rewrite G5, G6, F5, F6. lia. }
    assert (both_nominatable clk pr c = (Ok true, c)) as Hboth.
    { unfold both_nominatable, is_nominatable, sbind, local_at, remote_at, sgets. rewrite E1, E2, El. cbn [lookup list_lookup]. rewrite (Hnom lc El2). cbn [negb]. rewrite ?Er. cbn [lookup list_lookup]. by rewrite ?(Hnom rc Er2). }
    unfold sbind at 1. rewrite Hboth. unfold sbind, smodify. fold c'. by rewrite Ed. }
  unfold sbind. rewrite Ehb, Ee. split_and!; [done| |by rewrite Se, Sd; etransitivity; [|exact Sb]; rewrite <- Sc].
  rewrite <- app_assoc in He. rewrite G2, G4, F2, F4 in He. exact He.
Qed.

(** The nomination, read by the controlled agent when its own check has succeeded: it selects the pair. *)
Lemma reach_nomination clk t q conn out a cred tid tie prio :
  let u := ufrag (local_credentials a) ++ colon ++ ufrag cred in
  vw Succeeded None None q conn out a → is_controlling a = false → remote_credentials a = Some cred →
  arrives t (request_message tid u true true tie prio (pwd (local_credentials a))) → len tid = 12 → len u <= 513 → utf8_valid u = true → ip_ok (sa_ip peer) →
  reaches a (agent_handle_read clk t a) tt
    (vw Succeeded None (Some 0%nat) q Connected (out ++ [sent clk (success_message tid peer (pwd (local_credentials a)))])).
Proof.
  intros u Hv Hctl Hc Ha Ht Hu Hutf Hip.
  rewrite (read_request clk t _ _ _ _ _ _ a cred tid true tie prio Hv Hc) by (rewrite ?Hctl; done). rewrite Hctl. cbn [negb]. fold u.
  set (m := request_message tid u true true tie prio (pwd (local_credentials a))).
  destruct (reach_edit_pair on_request_received Succeeded Succeeded _ _ _ _ _ a Hv) as (b & Eb & Hb & Sb); [done..|].
  destruct (reach_select _ _ _ _ _ b Hb) as (c & Ec & Hcv & Sc). destruct (static_fields a b Sb) as (F1 & F2 & _). destruct (static_fields b c Sc) as (G1 & G2 & _).
  destruct (reach_success clk m _ _ _ _ _ _ c Hcv Ht Hip) as (d & Ed & Hd & Sd). destruct (reach_seen clk _ _ _ _ _ _ d Hd) as (e & Ee & He & Se). exists e.
  assert (handle_binding_request clk m 0 0 a = (Ok tt, d)) as Ehb.
  { unfold handle_binding_request. rewrite Hctl. unfold binding_request_controlled. unfold sbind at 1, sgets at 1. rewrite (view_find_pair _ _ _ _ _ _ _ Hv).
    rewrite bool_decide_false by done. unfold sbind at 1, sret at 1. unfold sbind at 1, sgets at 1. rewrite (view_find_pair _ _ _ _ _ _ _ Hv).
    unfold sbind at 1. rewrite Eb. pose proof (view_pair _ _ _ _ _ _ _ _ _ Hb) as (pr & Ep & _ & _ & E3).
    unfold sbind at 1, pair_at. rewrite Ep. cbn [lookup list_lookup]. change (contains m ATTR_USE_CANDIDATE) with true. cbv iota. rewrite E3, (bool_decide_true (Succeeded = Succeeded)) by done.
    unfold sbind at 1, sgets. rewrite (view_selected _ _ _ _ _ _ _ _ _ Hb), (bool_decide_true (None = None)) by done. unfold sbind. by rewrite Ec, Ed. }
  unfold sbind. rewrite Ehb, Ee. split_and!; [done| |by rewrite Se, Sd, Sc]. by rewrite G2, F2 in He.
Qed.

(** The answer to the one pending request, read *)
Lemma reach_success_read clk t st nom ts uc conn out a cred tid addr :
  vw st nom None [mkBindingRequest ts tid peer uc] conn out a → clk - ts < MAX_BINDING_REQUEST_TIMEOUT → remote_credentials a = Some cred →
  arrives t (success_message tid addr (pwd cred)) → len tid = 12 → ip_ok (sa_ip addr) →
  reaches a (agent_handle_read clk t a) tt
    (if is_controlling a && uc then vw Succeeded nom (Some 0%nat) [] Connected out else vw Succeeded nom None [] conn out).
Proof.
  intros Hv Hts Hc Ha Ht Hip. rewrite (read_success clk t _ _ _ _ _ _ a cred tid addr Hv Hc Ha Ht Hip).
  eapply reaches_bind; [by apply (reach_answer clk (tagged_now t) (success_message tid addr (pwd cred)) st nom None ts uc conn out a)|].
  intros b Hb _. destruct (_ && _); by apply reach_seen.
Qed.

(** ** The first check *)

(** An agent whose checks have been started: its one pair waits. *)
Definition ready a : Prop :=
  vw Waiting None None [] Checking [] a ∧ force_candidate_contact a = true ∧ last_connection_state a ≠ Checking ∧
  0 <= disconnected_timeout a + failed_timeout a < DURATION_RANGE ∧ (∀ p, p ∈ candidate_pairs a → binding_request_count p <= max_binding_requests a).

Lemma reach_ping_all clk q conn out a cred :
  vw Waiting None None q conn out a → (∀ p, p ∈ candidate_pairs a → binding_request_count p <= max_binding_requests a) →
  remote_credentials a = Some cred → len (ufrag cred ++ colon ++ ufrag (local_credentials a)) <= 513 →
  ∃ n prio, let m := request_message (random_tid n) (ufrag cred ++ colon ++ ufrag (local_credentials a)) false (is_controlling a) (agent_tie_breaker a) prio (pwd cred) in
  reaches a (ping_all_candidates clk a) tt (vw InProgress None None (live clk q ++ [mkBindingRequest clk (random_tid n) peer false]) conn (out ++ [sent clk m])).
Proof.
  intros Hv Hmax Hc Hu. pose proof (view_pair _ _ _ _ _ _ _ _ _ Hv) as (p & E & E1 & E2 & E3).
  assert (binding_request_count p <= max_binding_requests a) as Hp by (apply Hmax; rewrite E; left).
  unfold ping_all_candidates. rewrite E. cbn [ping_pass]. rewrite E3. record_simpl. rewrite (proj2 (Z.ltb_ge _ _) Hp), E1, E2. cbn [sfor].
  set (b := a <| candidate_pairs := _ |>).
  assert (vw InProgress None None q conn out b) as Hb by (destruct Hv; split; unfold b; record_simpl; [done..| |done|done|done|done|done|done]; by eexists).
  destruct (reach_ping clk _ _ _ _ _ _ b cred Hb Hc Hu) as (n & prio & c & Ec & Hcv & Sc). exists n, prio, c.
  unfold sbind. rewrite Ec. by split_and!.
Qed.

Lemma reach_contact clk now a cred :
  ready a → is_controlling a = true → remote_credentials a = Some cred → len (ufrag cred ++ colon ++ ufrag (local_credentials a)) <= 513 →
  ∃ n prio, let m := request_message (random_tid n) (ufrag cred ++ colon ++ ufrag (local_credentials a)) false true (agent_tie_breaker a) prio (pwd cred) in
  reaches a (agent_handle_timeout clk now a) tt (vw InProgress None None [mkBindingRequest clk (random_tid n) peer false] Checking [sent clk m]).
Proof.
  intros (Hv & Hforce & Hlast & Hsum & Hmax) Hctl Hc Hu.
  set (b := a <| force_candidate_contact := false |> <| checking_duration := now |>).
  assert (vw Waiting None None [] Checking [] b) as Hb by (destruct Hv; by split; unfold b; record_simpl).
  destruct (reach_ping_all clk _ _ _ b cred Hb Hmax Hc Hu) as (n & prio & c & Ec & Hcv & Sc). exists n, prio.
  assert (contact_candidates clk b = (Ok tt, c)) as Ek.
  { unfold contact_candidates. change (is_controlling b) with (is_controlling a). rewrite Hctl. unfold contact_controlling.
    rewrite (view_selected _ _ _ _ _ _ _ _ _ Hb), (view_nominated _ _ _ _ _ _ _ _ _ Hb). rewrite !bool_decide_false by (by intros []).
    pose proof (view_pair _ _ _ _ _ _ _ _ _ Hb) as (p & E & _ & _ & E3). unfold get_best_valid_candidate_pair. rewrite E. cbn [best_loop]. by rewrite E3. }
  exists (c <| last_connection_state := connection_state c |> <| last_checking_time := now |>).
  change (is_controlling b) with (is_controlling a) in Hcv. rewrite Hctl in Hcv. split_and!; [|destruct Hcv; by split; record_simpl|done].
  unfold agent_handle_timeout. unfold sbind at 1, sgets at 1. rewrite (view_mdns _ _ _ _ _ _ _ _ _ Hv). unfold sbind at 1, sret at 1. unfold sbind at 1, sgets at 1.
  rewrite Hc, Hforce. rewrite (bool_decide_true (is_Some _)) by done. cbn [andb orb]. unfold contact. record_simpl.
  rewrite (view_connection _ _ _ _ _ _ _ _ _ Hv), (bool_decide_false (Checking = Failed)), (bool_decide_true (Checking = Checking)), (bool_decide_false (last_connection_state a = Checking)) by done.
  cbn [andb negb]. fold b. change (connection_state b) with (connection_state a). rewrite (view_connection _ _ _ _ _ _ _ _ _ Hv), (bool_decide_true (Checking = Checking)) by done.
  unfold duration_add, assert_. change (disconnected_timeout b + failed_timeout b) with (disconnected_timeout a + failed_timeout a).
  rewrite (proj2 (Z.ltb_lt _ _) (proj2 Hsum)). cbn [rbind]. change (checking_duration b) with now. rewrite Z.sub_diag. change (Z.max 0 0) with 0. rewrite (proj2 (Z.ltb_ge _ _) (proj1 Hsum)).
  unfold sbind, slift. cbv beta iota. by rewrite Ek.
Qed.

(** ** The rounds *)

(** [reader own peer a cred]: what a message to [a] is signed with is well formed. *)
Definition reader a cred : Prop :=
  remote_credentials a = Some cred ∧
  (let u := ufrag (local_credentials a) ++ colon ++ ufrag cred in len u <= 513 ∧ utf8_valid u = true) ∧ ip_ok (sa_ip own) ∧ ip_ok (sa_ip peer).

(** The controlling agent reads the answer to its check and the check of its peer. *)
Lemma round_nominates clk ts conn a cred ta tb tid tid' tie prio :
  vw InProgress None None [mkBindingRequest ts tid peer false] conn [] a → is_controlling a = true → reader a cred →
  clk - ts < MAX_BINDING_REQUEST_TIMEOUT → host_acceptance_min_wait a < clk - start_time a → len tid = 12 → len tid' = 12 →
  arrives ta (success_message tid own (pwd cred)) →
  arrives tb (request_message tid' (ufrag (local_credentials a) ++ colon ++ ufrag cred) false false tie prio (pwd (local_credentials a))) →
  ∃ n p, reaches a (sfor (agent_handle_read clk) [ta; tb] a) tt
    (vw Succeeded (Some 0%nat) None [mkBindingRequest clk (random_tid n) peer true] conn
       [sent clk (success_message tid' peer (pwd (local_credentials a)));
        sent clk (request_message (random_tid n) (ufrag cred ++ colon ++ ufrag (local_credentials a)) true true (agent_tie_breaker a) p (pwd cred))]).
Proof.
  intros Hv Hctl (Hc & [Hu Hutf] & Hown & Hpeer) Hts Hw Ht Ht' Ha Hb. cbv zeta in *.
  destruct (reach_success_read clk ta _ _ _ _ _ _ a cred tid own Hv Hts Hc Ha Ht Hown) as (b & Eb & Vb & Sb). rewrite Hctl in Vb. cbn [andb] in Vb.
  destruct (static_fields a b Sb) as (F1 & F2 & F3 & F4 & F5 & F6).
  destruct (reach_request_controlling clk tb conn [] b cred tid' tie prio Vb ltac:(congruence) ltac:(congruence) ltac:(by rewrite F2) Ht' ltac:(by rewrite F2) ltac:(by rewrite F2) Hpeer
    ltac:(by rewrite F5, F6)) as (n & p & c & Ec & Vc & Sc). rewrite F2, F4 in Vc.
  exists n, p, c. cbn [sfor]. unfold sbind. rewrite Eb, Ec. split_and!; [done|done|]. by rewrite Sc.
Qed.

(** The controlled agent reads the answer to its check and the nomination. *)
Lemma round_selects clk ts st conn a cred ta tb tid tid' tie prio :
  vw st None None [mkBindingRequest ts tid peer false] conn [] a → is_controlling a = false → reader a cred →
  clk - ts < MAX_BINDING_REQUEST_TIMEOUT → len tid = 12 → len tid' = 12 →
  arrives ta (success_message tid own (pwd cred)) →
  arrives tb (request_message tid' (ufrag (local_credentials a) ++ colon ++ ufrag cred) true true tie prio (pwd (local_credentials a))) →
  reaches a (sfor (agent_handle_read clk) [ta; tb] a) tt
    (vw Succeeded None (Some 0%nat) [] Connected [sent clk (success_message tid' peer (pwd (local_credentials a)))]).
Proof.
  intros Hv Hctl (Hc & [Hu Hutf] & Hown & Hpeer) Hts Ht Ht' Ha Hb. cbv zeta in *.
  destruct (reach_success_read clk ta _ _ _ _ _ _ a cred tid own Hv Hts Hc Ha Ht Hown) as (b & Eb & Vb & Sb). rewrite Hctl in Vb. cbn [andb] in Vb.
  destruct (static_fields a b Sb) as (F1 & F2 & F3 & F4 & F5 & F6).
  destruct (reach_nomination clk tb [] conn [] b cred tid' tie prio Vb ltac:(congruence) ltac:(congruence) ltac:(by rewrite F2) Ht' ltac:(by rewrite F2) ltac:(by rewrite F2) Hpeer)
    as (c & Ec & Vc & Sc). rewrite F2 in Vc.
  exists c. cbn [sfor]. unfold sbind. rewrite Eb, Ec. split_and!; [done|done|]. by rewrite Sc.
Qed.

End View.

(** * The session *)

(** What the transport does with a message: the addresses change sides. *)
Definition transported (t : TaggedBytes) : TaggedBytes :=
  mkTagged (tagged_now t) (mkTransportContext (peer_addr (transport t)) (local_addr (transport t)) (transport_protocol (transport t))) (message t).

(** [poll_write] until there is nothing left *)
Fixpoint drain (n : nat) (a : Agent) : list TaggedBytes * Agent :=
  match n with
  | O => ([], a)
  | S n => match agent_poll_write a with
           | (Some t, a) => let '(ts, a) := drain n a in (t :: ts, a)
           | (None, a) => ([], a)
           end
  end.

(** Everything [a] has to send is read by [b]. *)
Definition deliver (clk : Z) (a b : Agent) : Agent * Agent :=
  let '(ts, a) := drain (length (write_outs a)) a in
  (a, (sfor (agent_handle_read clk) (transported <$> ts) b).2).

(** The first check, its answer with the check of the peer, the nomination and its answer *)
Definition session (t0 t1 t2 t3 t4 : Z) (a b : Agent) : Agent * Agent :=
  let a := (agent_handle_timeout t0 t0 a).2 in
  let '(a, b) := deliver t1 a b in
  let '(b, a) := deliver t2 b a in
  let '(a, b) := deliver t3 a b in
  let '(b, a) := deliver t4 b a in
  (a, b).

Lemma drain_all ts a : mdns a = None → write_outs a = ts → drain (length ts) a = (ts, a <| write_outs := [] |>).
Proof.
  revert a. induction ts as [|t ts IH]; intros a Hm Hw; cbn [length drain]; [by destruct a; cbn in Hw; subst|].
  unfold agent_poll_write. rewrite Hm, Hw. by rewrite IH.
Qed.

Lemma deliver_reaches oa ob st nom sel q conn out clk a b V :
  view oa ob st nom sel q conn out a → reaches b (sfor (agent_handle_read clk) (transported <$> out) b) tt V →
  ∃ a' b', deliver clk a b = (a', b') ∧ view oa ob st nom sel q conn [] a' ∧ static a' = static a ∧ V b' ∧ static b' = static b.
Proof.
  intros Hv (b' & Eb & Hb & Sb). pose proof (view_outs _ _ _ _ _ _ _ _ _ Hv) as Ho. pose proof (view_mdns _ _ _ _ _ _ _ _ _ Hv) as Hm.
  exists (a <| write_outs := [] |>), b'. unfold deliver. rewrite Ho, (drain_all out a Hm Ho), Eb. split_and!; try done. destruct Hv. by split; record_simpl.
Qed.

Lemma reaches_one {A} (f : A → sm Agent unit) x a V : reaches a (f x a) tt V → reaches a (sfor f [x] a) tt V.
Proof. intros (b & E & Hb & Sb). exists b. cbn [sfor]. unfold sbind. by rewrite E. Qed.

(** Started agents that hold each other's candidate and credentials *)
Definition acquainted (own peer : SocketAddr) a b : Prop :=
  ready own peer a ∧ remote_credentials a = Some (local_credentials b) ∧
  (let u := ufrag (local_credentials a) ++ colon ++ ufrag (local_credentials b) in len u <= 513 ∧ utf8_valid u = true) ∧
  ip_ok (sa_ip own) ∧ sa_port own ≠ MDNS_PORT.

Lemma transported_arrives own peer clk m : sa_port peer ≠ MDNS_PORT → arrives own peer (transported (sent peer own clk m)) m.
Proof. done. Qed.

(** Connected over the pair of the two addresses *)
Definition connected (own peer : SocketAddr) a : Prop :=
  connection_state a = Connected ∧
  ∃ c d, get_selected_candidate_pair a = (Ok (Some (c, d)), a) ∧ resolved_addr c = own ∧ resolved_addr d = peer.

Lemma view_connected own peer st nom q out a : view own peer st nom (Some 0%nat) q Connected out a → connected own peer a.
Proof.
  intros []. destruct view_local0 as (c & E & E1 & _), view_remote0 as (d & F & F1 & _), view_pair0 as (p & G & G1 & G2 & _).
  split; [done|]. exists c, d. split; [|done]. unfold get_selected_candidate_pair, sbind, pair_at, local_at, remote_at. rewrite view_selected0, G. cbn [lookup list_lookup].
  rewrite G1, E. cbn [lookup list_lookup]. by rewrite G2, F.
Qed.

Lemma reader_static own peer a b cred : static b = static a → reader own peer a cred → reader own peer b cred.
Proof. intros Sb (H1 & H2 & H3). destruct (static_fields a b Sb) as (F1 & F2 & F3 & _). unfold reader. by rewrite F2, F3. Qed.

Lemma acquainted_reader oa ob a b : acquainted oa ob a b → acquainted ob oa b a → reader oa ob a (local_credentials b).
Proof. intros (_ & E & U & I & _) (_ & _ & _ & J & _). by split_and!. Qed.

Lemma session_connects oa ob a b t0 t1 t2 t3 t4 :
  acquainted oa ob a b → acquainted ob oa b a → is_controlling a = true → is_controlling b = false →
  host_acceptance_min_wait a < t2 - start_time a →
  t2 - t0 < MAX_BINDING_REQUEST_TIMEOUT → t3 - t1 < MAX_BINDING_REQUEST_TIMEOUT → t4 - t2 < MAX_BINDING_REQUEST_TIMEOUT →
  let '(a', b') := session t0 t1 t2 t3 t4 a b in connected oa ob a' ∧ connected ob oa b'.
Proof.
  intros Aa Ab Hca Hcb Hw H20 H31 H42. pose proof (acquainted_reader _ _ _ _ Aa Ab) as Da. pose proof (acquainted_reader _ _ _ _ Ab Aa) as Db.
  destruct Aa as (Ra & Ca & [La Ua] & Ipa & Pa), Ab as ([Vb _] & Cb & [Lb Ub] & Ipb & Pb). cbv zeta in *.
  destruct (reach_contact oa ob t0 t0 a _ Ra Hca Ca ltac:(done)) as (n0 & p0 & a0 & Ea0 & Va0 & Sa0).
  destruct (reach_request_controlled ob oa t1 (transported (sent oa ob t0 _)) _ _ _ _ _ _ b _ (random_tid n0) (agent_tie_breaker a) p0 Vb Hcb Cb
    (transported_arrives ob oa t0 _ Pa) (random_tid_length n0) Lb Ub Ipa) as (n1 & p1 & R1).
  destruct (deliver_reaches oa ob _ _ _ _ _ _ t1 a0 b _ Va0 (reaches_one _ _ _ _ R1)) as (a1 & b1 & E1 & Va1 & Sa1 & Vb1 & Sb1). clear R1.
  rewrite Sa0 in Sa1. destruct (static_fields a a1 Sa1) as (A1 & A2 & A3 & A4 & A5 & A6).
  destruct (round_nominates oa ob t2 t0 _ a1 _ (transported (sent ob oa t1 _)) (transported (sent ob oa t1 _)) (random_tid n0) (random_tid n1) (agent_tie_breaker b) p1 Va1
    ltac:(congruence) (reader_static _ _ _ _ _ Sa1 Da) H20 ltac:(by rewrite A5, A6) (random_tid_length n0) (random_tid_length n1)
    (transported_arrives oa ob t1 _ Pb) (transported_arrives oa ob t1 _ Pb)) as (n2 & p2 & R2). rewrite A2 in R2.
  destruct (deliver_reaches ob oa _ _ _ _ _ _ t2 b1 a1 _ Vb1 R2) as (b2 & a2 & E2 & Vb2 & Sb2 & Va2 & Sa2). clear R2.
  rewrite Sb1 in Sb2. rewrite Sa1 in Sa2. rewrite A4 in Va2. destruct (static_fields b b2 Sb2) as (B1 & B2 & _).
  pose proof (round_selects ob oa t3 t1 _ _ b2 _ (transported (sent oa ob t2 _)) (transported (sent oa ob t2 _)) (random_tid n1) (random_tid n2) (agent_tie_breaker a) p2 Vb2
    ltac:(congruence) (reader_static _ _ _ _ _ Sb2 Db) H31 (random_tid_length n1) (random_tid_length n2)
    (transported_arrives ob oa t2 _ Pa) (transported_arrives ob oa t2 _ Pa)) as R3. rewrite B2 in R3.
  destruct (deliver_reaches oa ob _ _ _ _ _ _ t3 a2 b2 _ Va2 R3) as (a3 & b3 & E3 & Va3 & Sa3 & Vb3 & Sb3). clear R3.
  rewrite Sa2 in Sa3. destruct (static_fields a a3 Sa3) as (C1 & _ & C3 & _).
  pose proof (reach_success_read oa ob t4 (transported (sent ob oa t3 _)) _ _ t2 true _ _ a3 (local_credentials b) (random_tid n2) oa Va3 H42 ltac:(congruence)
    (transported_arrives oa ob t3 _ Pb) (random_tid_length n2) Ipa) as R4. rewrite C1, Hca in R4. cbn [andb] in R4.
  destruct (deliver_reaches ob oa _ _ _ _ _ _ t4 b3 a3 _ Vb3 (reaches_one _ _ _ _ R4)) as (b4 & a4 & E4 & Vb4 & _ & Va4 & _).
  unfold session. rewrite Ea0. cbn [snd]. rewrite E1, E2, E3, E4. split; by eapply view_connected.
Qed.

(** ** From the configuration *)

(** An agent of UDP host candidates without mDNS; the sum of its timeouts fits a [Duration]. *)
Definition plain_config (c : AgentConfig) : Prop :=
  cf_mdns_mode c = MdnsDisabled ∧ (cf_network_types c = [] ∨ Udp4 ∈ cf_network_types c) ∧ (cf_candidate_types c = [] ∨ Host ∈ cf_candidate_types c) ∧
  0 <= default DEFAULT_DISCONNECTED_TIMEOUT (cf_disconnected_timeout c) + default DEFAULT_FAILED_TIMEOUT (cf_failed_timeout c) < DURATION_RANGE ∧
  0 <= default DEFAULT_MAX_BINDING_REQUESTS (cf_max_binding_requests c).

Definition host_candidate (c : Candidate) : Prop :=
  candidate_type c = Host ∧ network_type c = Udp4 ∧ tcp_type c = TcpUnspecified ∧ ends_with (address c) (ascii_bytes ".local"%string) = false ∧
  ip_ok (sa_ip (resolved_addr c)) ∧ sa_port (resolved_addr c) ≠ MDNS_PORT.

(** What [Agent::new] gives for such a configuration *)
Record fresh (c : AgentConfig) a : Prop := {
  fresh_locals : local_candidates a = [];
  fresh_remotes : remote_candidates a = [];
  fresh_pairs : candidate_pairs a = [];
  fresh_selected : selected_pair a = None ∧ nominated_pair a = None;
  fresh_queues : pending_binding_requests a = [] ∧ write_outs a = [];
  fresh_mdns : mdns a = None ∧ mdns_mode a = MdnsDisabled;
  fresh_states : connection_state a = New ∧ last_connection_state a = StUnspecified;
  fresh_types : network_types a = cf_network_types c ∧ Host ∈ candidate_types a;
  fresh_times : host_acceptance_min_wait a = default DEFAULT_HOST_ACCEPTANCE_MIN_WAIT (cf_host_wait c) ∧ 0 <= max_binding_requests a ∧
                0 <= disconnected_timeout a + failed_timeout a < DURATION_RANGE;
  fresh_credentials : ufrag (local_credentials a) ≠ [] ∧ pwd (local_credentials a) ≠ []
}.

Lemma restart_eq clk u p keep a b :
  restart clk u p keep a = (Ok tt, b) → connection_state a = New →
  ∃ u' p' n, 24 <= len u' * 8 ∧ 128 <= len p' * 8 ∧
  b = start clk (delete_all_candidates keep (a <| draws := n |> <| local_credentials := mkCredentials u' p' |> <| remote_credentials := None |>
                          <| pending_binding_requests := [] |> <| candidate_pairs := [] |> <| selected_pair := None |>)).
Proof.
  intros E Hs.
  assert (∃ u' p' n, (do! _ <- sguard (len u' * 8 <? 24) ErrLocalUfragInsufficientBits;
    do! _ <- sguard (len p' * 8 <? 128) ErrLocalPwdInsufficientBits;
    do! _ <- smodify (λ a : Agent, a <| local_credentials := mkCredentials u' p' |> <| remote_credentials := None |>
                          <| pending_binding_requests := [] |> <| candidate_pairs := [] |> <| selected_pair := None |>);
    do! _ <- smodify (delete_all_candidates keep);
    do! _ <- smodify (start clk);
    smodify (λ a : Agent, if bool_decide (connection_state a = New) then a else update_connection_state Checking a)) (a <| draws := n |>) = (Ok tt, b)) as (u' & p' & n & E').
  { assert (a <| draws := draws a |> = a) as Ea by (by destruct a). unfold restart in E.
    destruct u as [|x u], p as [|y p]; [eexists _, _, _; exact E..|]. exists (x :: u), (y :: p), (draws a). by rewrite Ea. }
  exists u', p', n. rewrite !guard_then in E'. destruct (Z.ltb_spec (len u' * 8) 24) as [|Hu]; [done|]. destruct (Z.ltb_spec (len p' * 8) 128) as [|Hp]; [done|].
  split_and!; [done..|]. rewrite !modify_then in E'. unfold smodify in E'. injection E' as <-. rewrite bool_decide_true; [done|].
  unfold start, delete_all_candidates. by destruct (is_controlling _), keep.
Qed.

Lemma new_fresh clk tie name c a : plain_config c → agent_new clk tie name c = Ok a → fresh c a.
Proof.
  intros (Hm & Hn & Ht & Hsum & Hmax) E. unfold agent_new in E. destruct (_ || _); [done|]. destruct (cf_lite c && _); [done|]. destruct (_ && _); [done|].
  destruct (restart _ _ _ _ _) as [[[]| |] b] eqn:Er; [|done..]. injection E as ->. apply restart_eq in Er as (u & p & n & Hu & Hp & ->); [|done].
  rewrite Hm, mdns_create_disabled. unfold start, delete_all_candidates. record_simpl.
  assert (Host ∈ match cf_candidate_types c with [] => default_candidate_types | l => l end) as Hh by (destruct Ht as [->|Ht]; [left|destruct (cf_candidate_types c); [by apply elem_of_nil in Ht|done]]).
  assert (u ≠ [] ∧ p ≠ []) by (split; intros ->; done).
  destruct (cf_is_controlling c); split; record_simpl; done.
Qed.

(** The candidates of the two sides and the credentials of the peer *)
Definition prepare (clk : Z) (controlling : bool) (lc rc : Candidate) (cred : Credentials) : sm Agent unit :=
  do! _ <- add_local_candidate lc;
  do! _ <- add_remote_candidate clk rc;
  start_connectivity_checks clk controlling (ufrag cred) (pwd cred).

Lemma host_pairs lc rc : host_candidate lc → host_candidate rc → can_pair_with lc rc = true.
Proof. intros (_ & E1 & E2 & _) (_ & F1 & F2 & _). unfold can_pair_with. by rewrite E1, E2, F1, F2. Qed.

Lemma host_allowed c lc a : plain_config c → network_types a = cf_network_types c → host_candidate lc → network_allowed a lc = true.
Proof.
  intros (_ & Hn & _) E (_ & E2 & _). unfold network_allowed. rewrite E, E2. destruct Hn as [->|Hn]; [done|]. destruct (cf_network_types c); [done|]. by apply bool_decide_true.
Qed.

Lemma add_first_local c lc a :
  plain_config c → fresh c a → host_candidate lc →
  add_local_candidate lc a = (Ok true, a <| local_candidates := [lc] |> <| force_candidate_contact := true |>).
Proof.
  intros Hc [] Hl. destruct fresh_mdns0 as [_ Em], fresh_types0 as [En Hh]. unfold add_local_candidate. rewrite (host_allowed c lc a Hc En Hl). cbn [negb].
  destruct Hl as (L1 & _). rewrite L1.
  assert (match candidate_types a with [] => false | l => negb (bool_decide (Host ∈ l)) end = false) as ->
    by (destruct (candidate_types a); [done|]; rewrite bool_decide_true by done; done).
  unfold hide_address. rewrite Em, (bool_decide_false (MdnsDisabled = QueryAndGather)) by done. rewrite andb_false_r. cbn [andb].
  rewrite fresh_locals0, fresh_remotes0. cbn [existsb length seq sfor]. rewrite modify_then. unfold sbind, sret, smodify, request_connectivity_check. by destruct a; cbn in fresh_locals0; subst.
Qed.

Lemma add_first_remote c clk lc rc a :
  plain_config c → network_types a = cf_network_types c → host_candidate lc → host_candidate rc →
  local_candidates a = [lc] → remote_candidates a = [] → candidate_pairs a = [] →
  add_remote_candidate clk rc a = (Ok true, a <| remote_candidates := [rc] |>
     <| candidate_pairs := [pair_new 0 0 (candidate_priority lc) (candidate_priority rc) (is_controlling a)] |> <| force_candidate_contact := true |>).
Proof.
  intros Hc En Hl Hr E1 E2 E3. unfold add_remote_candidate. rewrite (host_allowed c rc a Hc En Hr). pose proof (host_pairs lc rc Hl Hr) as Hp.
  destruct Hr as (_ & _ & R3 & R4 & _). rewrite R3, R4, andb_false_r, (bool_decide_false (TcpUnspecified = Active)) by done. cbn [negb].
  unfold trigger_request_connectivity_check. cbn [sfor]. unfold sbind, trigger_one. rewrite E2, E1. cbn [existsb length seq sfor].
  unfold sbind, smodify, pair_local, sbind, local_at, remote_at, add_pair, sbind, local_at, remote_at, smodify, sret. record_simpl. rewrite E1, E2. cbn [app lookup list_lookup].
  rewrite Hp. destruct a. cbn in E1, E2, E3. subst. reflexivity.
Qed.

Lemma start_checks clk ctl cred a :
  connection_state a = New → ufrag cred ≠ [] → pwd cred ≠ [] → nominated_pair a = None →
  ∃ st, start_connectivity_checks clk ctl (ufrag cred) (pwd cred) a =
    (Ok tt, a <| remote_credentials := Some cred |> <| is_controlling := ctl |> <| start_time := st |> <| connection_state := Checking |>
              <| event_outs ::= λ l, l ++ [ConnectionStateChange Checking] |> <| force_candidate_contact := true |>) ∧ (ctl = true → st = clk).
Proof.
  intros Hs Hu Hp Hn. exists (if ctl then clk else start_time a). split; [|by intros ->]. unfold start_connectivity_checks.
  unfold sbind at 1, set_remote_credentials. rewrite !bool_decide_false by done. rewrite !modify_then. unfold smodify.
  destruct a, cred. cbn in Hs, Hn. subst. by destruct ctl.
Qed.

Lemma prepare_ready c clk ctl lc rc cred a :
  plain_config c → fresh c a → host_candidate lc → host_candidate rc → ufrag cred ≠ [] → pwd cred ≠ [] →
  ∃ b, prepare clk ctl lc rc cred a = (Ok tt, b) ∧ ready (resolved_addr lc) (resolved_addr rc) b ∧ is_controlling b = ctl ∧
  local_credentials b = local_credentials a ∧ remote_credentials b = Some cred ∧ host_acceptance_min_wait b = host_acceptance_min_wait a ∧ (ctl = true → start_time b = clk).
Proof.
  intros Hc Hf Hl Hr Hu Hp. unfold prepare. unfold sbind at 1. rewrite (add_first_local c lc a Hc Hf Hl). destruct Hf.
  destruct fresh_mdns0 as [Em1 Em2], fresh_states0 as [Es1 Es2], fresh_types0 as [En Hh], fresh_selected0 as [Ex1 Ex2], fresh_queues0 as [Eq1 Eq2], fresh_times0 as (Et1 & Et2 & Et3).
  unfold sbind at 1. rewrite (add_first_remote c clk lc rc) by done.
  match goal with |- context [start_connectivity_checks clk ctl (ufrag cred) (pwd cred) ?x] => destruct (start_checks clk ctl cred x) as (st & E & Hst); [done..|]; rewrite E end.
  eexists. split; [reflexivity|]. destruct Hl as (L1 & L2 & L3 & _), Hr as (R1 & R2 & R3 & _).
  split; [|by split_and!; record_simpl]. split; [|split_and!; record_simpl; try done].
  - split; record_simpl; try done; [by exists lc|by exists rc|]. eexists. split; [reflexivity|done].
  - by rewrite Es2.
  - apply Et3.
  - apply Et3.
  - intros p Hin. apply list_elem_of_singleton in Hin as ->. done.
Qed.

End Connect.

(** C13: two agents that hold each other's candidate and credentials connect.  Create a controlling and a
    controlled agent without multicast DNS, whose disconnected and failed timeouts have a sum that fits
    a [Duration], give each its own UDP host candidate and that of the other, and start the checks
    with the credentials of the other.  The first timeout of the controlling agent sends a check; when
    what the two send is delivered in four steps, each within four seconds of the request it
    answers and the nomination after the acceptance time of host candidates, both are connected, and
    each has selected the pair of its own and the other's address. *)
Theorem agents_connect `{IpText, StunCrypto, IceRandom, MdnsConn Mdns} (ca cb : AgentConfig) (a b : Agent (Mdns := Mdns)) (la lb : Candidate)
    (na nb tiea tieb ta tb t0 t1 t2 t3 t4 : Z) (namea nameb : bytes) :
  plain_config ca → plain_config cb → host_candidate la → host_candidate lb →
  agent_new na tiea namea ca = Ok a → agent_new nb tieb nameb cb = Ok b →
  let ua := ufrag (local_credentials a) ++ colon ++ ufrag (local_credentials b) in
  let ub := ufrag (local_credentials b) ++ colon ++ ufrag (local_credentials a) in
  len ua <= 513 → utf8_valid ua = true → utf8_valid ub = true →
  default DEFAULT_HOST_ACCEPTANCE_MIN_WAIT (cf_host_wait ca) < t2 - ta →
  t2 - t0 < MAX_BINDING_REQUEST_TIMEOUT → t3 - t1 < MAX_BINDING_REQUEST_TIMEOUT → t4 - t2 < MAX_BINDING_REQUEST_TIMEOUT →
  let '(_, a1) := prepare ta true la lb (local_credentials b) a in
  let '(_, b1) := prepare tb false lb la (local_credentials a) b in
  let '(a2, b2) := session t0 t1 t2 t3 t4 a1 b1 in
  connected (resolved_addr la) (resolved_addr lb) a2 ∧ connected (resolved_addr lb) (resolved_addr la) b2.
Proof.
  intros Hca Hcb Hla Hlb Ea Eb ua ub Hlen Hua Hub Hw H20 H31 H42.
  pose proof (new_fresh _ _ _ _ _ Hca Ea) as Fa. pose proof (new_fresh _ _ _ _ _ Hcb Eb) as Fb.
  pose proof (fresh_credentials _ _ Fa) as [Ua Pa]. pose proof (fresh_credentials _ _ Fb) as [Ub Pb].
  destruct (prepare_ready ca ta true la lb (local_credentials b) a Hca Fa Hla Hlb Ub Pb) as (a1 & E1 & Ra & Ca & La & Ka & Wa & Sa). rewrite E1.
  destruct (prepare_ready cb tb false lb la (local_credentials a) b Hcb Fb Hlb Hla Ua Pa) as (b1 & E2 & Rb & Cb & Lb & Kb & _). rewrite E2.
  assert (len ub <= 513) as Hlen' by (unfold ua, ub in *; rewrite !len_app in *; lia).
  destruct Hla as (_ & _ & _ & _ & Ia & Oa), Hlb as (_ & _ & _ & _ & Ib & Ob).
  apply session_connects; [| |done|done| |done..].
  - split_and!; [done|by rewrite Lb|by rewrite La, Lb|done|done].
  - split_and!; [done|by rewrite La|by rewrite La, Lb|done|done].
  - rewrite (Sa eq_refl), Wa. by rewrite (proj1 (fresh_times _ _ Fa)).
Qed.

(** C21: a request or answer that is not signed with the right password changes nothing but the role.  Let a
    STUN message arrive at an agent, in any state, that is no indication and whose integrity does not
    hold for the agent's password (a request, which must also carry the user name of the two) or for that of its
    peer (an answer).  It is refused with an error; the credentials, the connection state, the
    remote candidates with their times of receipt, the addresses of the local ones, the pairs with their
    states and counters, the selected pair and the outstanding requests are those before. *)
Theorem unauthenticated_message_refused `{IpText, StunCrypto, IceRandom, MdnsConn Mdns} (c : AgentConfig) (a : Agent (Mdns := Mdns)) (clk : Z) (t : TaggedBytes) (m : Message) :
  agent_reachable c a → datagram_ok t → sa_port (peer_addr (transport t)) ≠ MDNS_PORT →
  unmarshal_binary (message t) message_default = (Ok tt, m) → class (typ m) ≠ CLASS_INDICATION → ¬ authentic a m →
  (∃ e, (agent_handle_read clk t a).1 = Err e) ∧ untouched a (agent_handle_read clk t a).2.
Proof.
  intros [Ha _]%agent_reachable_ok [Hb _] Hport Em Hc Hn. pose proof (unmarshal_sound (message t) message_default Hb) as Hs. rewrite Em in Hs.
  unfold agent_handle_read. rewrite (proj2 (Z.eqb_neq _ _) Hport).
  destruct (find_local_candidate a _ _) as [l|] eqn:El; [|split; [by eexists|apply untouched_refl]].
  unfold handle_inbound_candidate_msg. rewrite (holds_is_stun _ _ Hs), Em. eapply inbound_refused; [done|by eapply find_local_in|done..].
Qed.

(** C22: of two agents with the same role exactly one keeps it.  Each of two agents in the same role reads
    a check of the other, and their tie-breakers differ.  Whatever else the two checks say, the agent
    with the greater tie-breaker controls afterwards and the other one is controlled. *)
Theorem role_conflict_settled `{IpText, StunCrypto, IceRandom, MdnsConn Mdns} (ca cb : AgentConfig) (a b : Agent (Mdns := Mdns)) (clka clkb : Z) (ta tb : TaggedBytes)
    (ma mb : Message) (tida tidb ua ub pwa pwb : bytes) (uca ucb : bool) (pa pb : Z) (la lb : nat) :
  agent_reachable ca a → agent_reachable cb b → is_controlling a = is_controlling b → agent_tie_breaker a ≠ agent_tie_breaker b →
  fits 64 (agent_tie_breaker a) → fits 64 (agent_tie_breaker b) →
  (len tida = 12 ∧ len ua <= 513) → (len tidb = 12 ∧ len ub <= 513) →
  build (request_setters tida ua uca (is_controlling a) (agent_tie_breaker a) pa pwa) message_new = (Ok tt, ma) →
  build (request_setters tidb ub ucb (is_controlling b) (agent_tie_breaker b) pb pwb) message_new = (Ok tt, mb) →
  message ta = raw mb → message tb = raw ma →
  (sa_port (peer_addr (transport ta)) ≠ MDNS_PORT ∧ find_local_candidate a (local_addr (transport ta)) (transport_protocol (transport ta)) = Some la) →
  (sa_port (peer_addr (transport tb)) ≠ MDNS_PORT ∧ find_local_candidate b (local_addr (transport tb)) (transport_protocol (transport tb)) = Some lb) →
  is_controlling (agent_handle_read clka ta a).2 = (agent_tie_breaker b <? agent_tie_breaker a) ∧
  is_controlling (agent_handle_read clkb tb b).2 = (agent_tie_breaker a <? agent_tie_breaker b).
Proof.
  intros [Ha _]%agent_reachable_ok [Hb _]%agent_reachable_ok Hr Hne Fa Fb [Ta Ua] [Tb Ub] Ea Eb Ma Mb [Pa La] [Pb Lb].
  rewrite request_built in Ea by done. injection Ea as <-. rewrite request_built in Eb by done. injection Eb as <-.
  rewrite (role_after_request a clka ta la tidb ub ucb (agent_tie_breaker b) pb pwb) by (rewrite ?Hr; done).
  rewrite (role_after_request b clkb tb lb tida ua uca (agent_tie_breaker a) pa pwa) by (rewrite <- ?Hr; done).
  rewrite <- Hr. destruct (is_controlling a); split; try done.
  - destruct (Z.ltb_spec (agent_tie_breaker a) (agent_tie_breaker b)), (Z.ltb_spec (agent_tie_breaker b) (agent_tie_breaker a)); (done || lia).
  - destruct (Z.ltb_spec (agent_tie_breaker a) (agent_tie_breaker b)), (Z.ltb_spec (agent_tie_breaker b) (agent_tie_breaker a)); (done || lia).
Qed.

Section ConnectExample.
Import ToyStun ToyIce MdnsExample.
#[local] Existing Instance toy_crypto.

Lemma agents_connect_witness :
  let a := toy_agent true 7 in
  let b := toy_agent false 9 in
  let '(_, a1) := prepare 10 true (toy_candidate 1 4000) (toy_candidate 2 5000) (local_credentials b) a in
  let '(_, b1) := prepare 15 false (toy_candidate 2 5000) (toy_candidate 1 4000) (local_credentials a) b in
  let '(a2, b2) := session 20 30 40 50 60 a1 b1 in
  connected (toy_addr 1 4000) (toy_addr 2 5000) a2 ∧ connected (toy_addr 2 5000) (toy_addr 1 4000) b2.
Proof.
  assert (∀ ctl, plain_config (toy_config ctl)) as Hp by (intros ctl; split_and!; [done|by left|by left|done..]).
  assert (host_candidate (toy_candidate 1 4000) ∧ host_candidate (toy_candidate 2 5000)) as [H1 H2]
    by (split; (split_and!; [reflexivity|reflexivity|reflexivity|reflexivity|split; [done|repeat constructor; vm_compute; intuition congruence]|done])).
  apply (agents_connect (toy_config true) (toy_config false) (toy_agent true 7) (toy_agent false 9) (toy_candidate 1 4000) (toy_candidate 2 5000)
    0 0 7 9 10 15 20 30 40 50 60 [] [] (Hp true) (Hp false) H1 H2); vm_compute; (reflexivity || congruence).
Defined.

(** An agent that holds one pair, and a datagram of its peer *)
Definition toy_ready (controlling : bool) (tie n port n' port' : Z) : Agent (Mdns := Mdns.Mdns) :=
  (agent_step (OpStart 10 controlling (ascii_bytes "ufragment"%string) (replicate 20 112)) (agent_step (OpAddRemote 5 (toy_candidate n' port'))
    (agent_step (OpAddLocal (toy_candidate n port)) (toy_agent controlling tie)).2).2).2.
Definition toy_datagram (n port n' port' : Z) (m : Message) : TaggedBytes :=
  mkTagged 20 (mkTransportContext (toy_addr n port) (toy_addr n' port') UDP) (raw m).

Lemma toy_ready_reachable controlling tie n port n' port' : fits 8 n → fits 8 n' → agent_reachable (toy_config controlling) (toy_ready controlling tie n port n' port').
Proof.
  intros Hn Hn'. assert (∀ x y, fits 8 x → cand_ok (toy_candidate x y)) as Hc by (intros x y Hx; split; [done|]; repeat apply Forall_cons_2; [done|done|done|done|constructor]).
  unfold toy_ready. repeat (apply reach_step; [|done || by apply Hc|by destruct controlling]). unfold toy_agent.
  destruct (agent_new 0 tie [] (toy_config controlling)) as [x| |] eqn:E; [by eapply reach_new|by destruct controlling..].
Qed.

(** Signed with a password the agent does not know *)
Definition forged (ctl : bool) (tie : Z) : Message :=
  request_message (be 12 5) (ascii_bytes "ufragment:ufragment"%string) false ctl tie 100 [1; 2; 3].

Lemma unauthenticated_message_refused_witness :
  let a := toy_ready true 7 1 4000 2 5000 in
  let r := agent_handle_read 20 (toy_datagram 1 4000 2 5000 (forged false 9)) a in
  length (candidate_pairs a) = 1%nat ∧ (∃ e, r.1 = Err e) ∧ untouched a r.2.
Proof.
  intros a r. split; [reflexivity|].
  eapply (unauthenticated_message_refused (toy_config true) a 20 (toy_datagram 1 4000 2 5000 (forged false 9))).
  - by apply toy_ready_reachable.
  - split; [|split; [done|]]; repeat constructor; vm_compute; intuition congruence.
  - done.
  - vm_compute. reflexivity.
  - done.
  - vm_compute. intuition congruence.
Defined.

Lemma role_conflict_settled_witness :
  let a := toy_ready true 7 1 4000 2 5000 in
  let b := toy_ready true 9 2 5000 1 4000 in
  let ua := ascii_bytes "ufragment:ufragment"%string in
  let ma := request_message (be 12 5) ua false true 7 100 (replicate 20 112) in
  let mb := request_message (be 12 6) ua false true 9 100 (replicate 20 112) in
  is_controlling (agent_handle_read 20 (toy_datagram 1 4000 2 5000 mb) a).2 = false ∧
  is_controlling (agent_handle_read 20 (toy_datagram 2 5000 1 4000 ma) b).2 = true.
Proof.
  intros a b ua ma mb.
  apply (role_conflict_settled (toy_config true) (toy_config true) a b 20 20 (toy_datagram 1 4000 2 5000 mb) (toy_datagram 2 5000 1 4000 ma) ma mb (be 12 5) (be 12 6) ua ua (replicate 20 112) (replicate 20 112)
    false false 100 100 0 0); try (by apply toy_ready_reachable); try split; vm_compute; (reflexivity || congruence).
Defined.

(** ** What an attacker can still do *)

(** A request with a role attribute switches the role although it is refused afterwards. *)
Example forged_request_switches_role :
  let a := toy_ready true 7 1 4000 2 5000 in
  let r := agent_handle_read 20 (toy_datagram 1 4000 2 5000 (forged true 9)) a in
  is_controlling a = true ∧ r.1 = Err ErrIntegrityMismatch ∧ is_controlling r.2 = false.
Proof. vm_compute. by split_and!. Qed.

(** An indication carries no signature, and counts as received from the peer. *)
Example indication_refreshes_consent :
  let a := toy_ready true 7 1 4000 2 5000 in
  let r := agent_handle_read 20 (toy_datagram 1 4000 2 5000 (packed (mkType METHOD_BINDING CLASS_INDICATION) (be 12 5) [])) a in
  r.1 = Ok tt ∧ last_received <$> remote_candidates a = [0] ∧ last_received <$> remote_candidates r.2 = [20].
Proof. vm_compute. by split_and!. Qed.

(** The agent that gives up its role answers the same request with the error 487 and with success. *)
Example conflict_answered_twice :
  let a := toy_ready true 7 1 4000 2 5000 in
  let m := request_message (be 12 5) (ascii_bytes "ufragment:ufragment"%string) false true 9 100 (replicate 20 112) in
  let r := agent_handle_read 20 (toy_datagram 1 4000 2 5000 m) a in
  r.1 = Ok tt ∧ is_controlling r.2 = false ∧
  (λ t, (take 2 (message t), take 12 (drop 8 (message t)))) <$> write_outs r.2 =
    [([1; 17], be 12 5); ([1; 1], be 12 5); ([0; 1], be 12 0)].
Proof. vm_compute. by split_and!. Qed.

(** The role given at the start does not reach the pairs that exist. *)
Example started_role_not_in_pairs :
  let a := (prepare 10 true (toy_candidate 1 4000) (toy_candidate 2 5000) (mkCredentials [1] [2]) (toy_agent false 7)).2 in
  is_controlling a = true ∧ ice_role_controlling <$> candidate_pairs a = [false].
Proof. vm_compute. by split. Qed.

End ConnectExample.
