(* ===== verification/Dcep.v ===== *)
(** The Data Channel Establishment Protocol, [rtc-datachannel/src/message]: the OPEN and ACK
    messages of RFC 8832 and the two messages a data channel only sends to its own transport,
    CLOSE and the buffer thresholds.

    [dcep_roundtrip] is the round trip of the codec, [dcep_unmarshal_panics_exactly] the inputs
    the parser does not survive. *)

From S2P Require Import Prelude Codec.

(** * [message_type.rs] *)

Definition MESSAGE_TYPE_THRESHOLD : Z := 0x00.
Definition MESSAGE_TYPE_CLOSE : Z := 0x01.
Definition MESSAGE_TYPE_ACK : Z := 0x02.
Definition MESSAGE_TYPE_OPEN : Z := 0x03.
Definition MESSAGE_TYPE_LEN : Z := 1.

Inductive MessageType := TypeThreshold | TypeClose | TypeAck | TypeOpen.

#[export] Instance message_type_eq_dec : EqDecision MessageType.
Proof. solve_decision. Defined.

(** [msg.message_type() as u8]: the position in the enumeration, which is the octet on the wire *)
Definition message_type_u8 (t : MessageType) : Z :=
  match t with
  | TypeThreshold => MESSAGE_TYPE_THRESHOLD
  | TypeClose => MESSAGE_TYPE_CLOSE
  | TypeAck => MESSAGE_TYPE_ACK
  | TypeOpen => MESSAGE_TYPE_OPEN
  end.

(** * [message_channel_open.rs], [message_channel_threshold.rs] *)

Definition CHANNEL_TYPE_RELIABLE : Z := 0x00.
Definition CHANNEL_TYPE_RELIABLE_UNORDERED : Z := 0x80.
Definition CHANNEL_TYPE_PARTIAL_RELIABLE_REXMIT : Z := 0x01.
Definition CHANNEL_TYPE_PARTIAL_RELIABLE_REXMIT_UNORDERED : Z := 0x81.
Definition CHANNEL_TYPE_PARTIAL_RELIABLE_TIMED : Z := 0x02.
Definition CHANNEL_TYPE_PARTIAL_RELIABLE_TIMED_UNORDERED : Z := 0x82.
Definition CHANNEL_TYPE_LEN : Z := 1.
Definition CHANNEL_PRIORITY_NORMAL : Z := 256.

(** [ChannelReliable] is the variant [Reliable]; the SCTP stream has a [Reliable] of its own. *)
Inductive ChannelType :=
| ChannelReliable | ReliableUnordered | PartialReliableRexmit | PartialReliableRexmitUnordered
| PartialReliableTimed | PartialReliableTimedUnordered.

#[export] Instance channel_type_eq_dec : EqDecision ChannelType.
Proof. solve_decision. Defined.

Definition channel_type_u8 (t : ChannelType) : Z :=
  match t with
  | ChannelReliable => CHANNEL_TYPE_RELIABLE
  | ReliableUnordered => CHANNEL_TYPE_RELIABLE_UNORDERED
  | PartialReliableRexmit => CHANNEL_TYPE_PARTIAL_RELIABLE_REXMIT
  | PartialReliableRexmitUnordered => CHANNEL_TYPE_PARTIAL_RELIABLE_REXMIT_UNORDERED
  | PartialReliableTimed => CHANNEL_TYPE_PARTIAL_RELIABLE_TIMED
  | PartialReliableTimedUnordered => CHANNEL_TYPE_PARTIAL_RELIABLE_TIMED_UNORDERED
  end.

Definition CHANNEL_OPEN_HEADER_LEN : Z := 11.

(** The struct [DataChannelOpen] *)
Record ChannelOpen := mkOpen {
  channel_type : ChannelType;
  priority : Z;
  reliability_parameter : Z;
  label : bytes;
  protocol : bytes
}.

(** The enumeration [DataChannelThreshold] *)
Inductive Threshold := Low (n : Z) | High (n : Z).

(** [Message] of [message/mod.rs]; [DataChannelClose] and [DataChannelAck] carry nothing. *)
Inductive Message :=
| DataChannelThreshold (t : Threshold)
| DataChannelClose
| DataChannelAck
| DataChannelOpen (o : ChannelOpen).

Definition message_type (m : Message) : MessageType :=
  match m with
  | DataChannelThreshold _ => TypeThreshold
  | DataChannelClose => TypeClose
  | DataChannelAck => TypeAck
  | DataChannelOpen _ => TypeOpen
  end.

(** * The codec *)

#[export] Instance message_type_size : MarshalSize MessageType := λ _, MESSAGE_TYPE_LEN.
#[export] Instance channel_type_size : MarshalSize ChannelType := λ _, CHANNEL_TYPE_LEN.
#[export] Instance open_size : MarshalSize ChannelOpen := λ o, CHANNEL_OPEN_HEADER_LEN + len (label o) + len (protocol o).
#[export] Instance threshold_size : MarshalSize Threshold := λ _, 1 + 4.
#[export] Instance message_size : MarshalSize Message := λ m,
  match m with
  | DataChannelThreshold t => marshal_size t + MESSAGE_TYPE_LEN
  | DataChannelClose => 0 + MESSAGE_TYPE_LEN
  | DataChannelAck => 0 + MESSAGE_TYPE_LEN
  | DataChannelOpen o => marshal_size o + MESSAGE_TYPE_LEN
  end.

Section Codec.
Context {BC : BytesCrate}.

#[export] Instance message_type_marshal : Marshal MessageType := λ t buf,
  let! w := put_u8 (message_type_u8 t) (Wbuf [] buf) in
  finish 1 w.

Definition message_type_unmarshal (buf : bytes) : res (MessageType * bytes) :=
  if len buf <? MESSAGE_TYPE_LEN then Err (UnexpectedEndOfBuffer MESSAGE_TYPE_LEN (len buf))
  else
    let! (b, buf) := get_u8 buf in
    if b =? MESSAGE_TYPE_THRESHOLD then Ok (TypeThreshold, buf)
    else if b =? MESSAGE_TYPE_CLOSE then Ok (TypeClose, buf)
    else if b =? MESSAGE_TYPE_ACK then Ok (TypeAck, buf)
    else if b =? MESSAGE_TYPE_OPEN then Ok (TypeOpen, buf)
    else Err (InvalidMessageType b).

#[export] Instance channel_type_marshal : Marshal ChannelType := λ t buf,
  if len buf <? marshal_size t then Err (UnexpectedEndOfBuffer (marshal_size t) (len buf))
  else
    let! w := put_u8 (channel_type_u8 t) (Wbuf [] buf) in
    finish 1 w.

Definition channel_type_unmarshal (buf : bytes) : res (ChannelType * bytes) :=
  if len buf <? CHANNEL_TYPE_LEN then Err (UnexpectedEndOfBuffer CHANNEL_TYPE_LEN (len buf))
  else
    let! (b0, buf) := get_u8 buf in
    if b0 =? CHANNEL_TYPE_RELIABLE then Ok (ChannelReliable, buf)
    else if b0 =? CHANNEL_TYPE_RELIABLE_UNORDERED then Ok (ReliableUnordered, buf)
    else if b0 =? CHANNEL_TYPE_PARTIAL_RELIABLE_REXMIT then Ok (PartialReliableRexmit, buf)
    else if b0 =? CHANNEL_TYPE_PARTIAL_RELIABLE_REXMIT_UNORDERED then Ok (PartialReliableRexmitUnordered, buf)
    else if b0 =? CHANNEL_TYPE_PARTIAL_RELIABLE_TIMED then Ok (PartialReliableTimed, buf)
    else if b0 =? CHANNEL_TYPE_PARTIAL_RELIABLE_TIMED_UNORDERED then Ok (PartialReliableTimedUnordered, buf)
    else Err (InvalidChannelType b0).

#[export] Instance open_marshal : Marshal ChannelOpen := λ o buf,
  let required_len := marshal_size o in
  if len buf <? required_len then Err (UnexpectedEndOfBuffer required_len (len buf))
  else
    let! w := put_marshal (channel_type o) (Wbuf [] buf) in
    let! w := put_u16 (priority o) w in
    let! w := put_u32 (reliability_parameter o) w in
    let! w := put_u16 (u16 (len (label o))) w in
    let! w := put_u16 (u16 (len (protocol o))) w in
    let! w := put (label o) w in
    let! w := put (protocol o) w in
    finish (marshal_size o) w.

Definition open_unmarshal (buf : bytes) : res (ChannelOpen * bytes) :=
  let required_len := CHANNEL_OPEN_HEADER_LEN in
  if len buf <? required_len then Err (UnexpectedEndOfBuffer required_len (len buf))
  else
    let! (channel_type, buf) := channel_type_unmarshal buf in
    let! (priority, buf) := get_u16 buf in
    let! (reliability_parameter, buf) := get_u32 buf in
    let! (label_len, buf) := get_u16 buf in
    let! (protocol_len, buf) := get_u16 buf in
    let required_len := label_len + protocol_len in
    if len buf <? required_len then Err (UnexpectedEndOfBuffer required_len (len buf))
    else
      let! (label, buf) := copy_to_bytes label_len buf in
      let! (protocol, buf) := copy_to_bytes protocol_len buf in
      Ok (mkOpen channel_type priority reliability_parameter label protocol, buf).

#[export] Instance threshold_marshal : Marshal Threshold := λ t buf,
  let! w := match t with
            | Low n => let! w := put_u8 0 (Wbuf [] buf) in put_u32 n w
            | High n => let! w := put_u8 1 (Wbuf [] buf) in put_u32 n w
            end in
  finish (marshal_size t) w.

(** No test of the length: [get_u8] and [get_u32] panic on a short input. *)
Definition threshold_unmarshal (buf : bytes) : res (Threshold * bytes) :=
  let! (t, buf) := get_u8 buf in
  let! (v, buf) := get_u32 buf in
  Ok (if t =? 0 then Low v else High v, buf).

(** [bytes_written] counts what was written. *)
#[export] Instance message_marshal : Marshal Message := λ m buf,
  let! w := put_marshal (message_type m) (Wbuf [] buf) in
  let! w := match m with
            | DataChannelThreshold t => put_marshal t w
            | DataChannelClose => Ok w
            | DataChannelAck => Ok w
            | DataChannelOpen o => put_marshal o w
            end in
  finish (len (written w)) w.

Definition message_unmarshal (buf : bytes) : res (Message * bytes) :=
  if len buf <? MESSAGE_TYPE_LEN then Err (UnexpectedEndOfBuffer MESSAGE_TYPE_LEN (len buf))
  else
    let! (typ, buf) := message_type_unmarshal buf in
    match typ with
    | TypeThreshold => let! (t, buf) := threshold_unmarshal buf in Ok (DataChannelThreshold t, buf)
    | TypeClose => Ok (DataChannelClose, buf)
    | TypeAck => Ok (DataChannelAck, buf)
    | TypeOpen => let! (o, buf) := open_unmarshal buf in Ok (DataChannelOpen o, buf)
    end.

(** * What is written *)

Definition open_bytes (o : ChannelOpen) : bytes :=
  channel_type_u8 (channel_type o) :: put_uint 2 (priority o) ++ put_uint 4 (reliability_parameter o) ++
  put_uint 2 (u16 (len (label o))) ++ put_uint 2 (u16 (len (protocol o))) ++ label o ++ protocol o.

Definition threshold_bytes (t : Threshold) : bytes :=
  match t with Low n => 0 :: put_uint 4 n | High n => 1 :: put_uint 4 n end.

Definition message_body (m : Message) : bytes :=
  match m with
  | DataChannelThreshold t => threshold_bytes t
  | DataChannelOpen o => open_bytes o
  | _ => []
  end.

Definition message_bytes (m : Message) : bytes := message_type_u8 (message_type m) :: message_body m.

Lemma message_type_byte t : byte_ok (message_type_u8 t).
Proof. by destruct t. Qed.

Lemma channel_type_byte t : byte_ok (channel_type_u8 t).
Proof. by destruct t. Qed.

Lemma message_type_encodes t : encodes t [message_type_u8 t].
Proof.
  split; [done|]. intros buf Hb. unfold marshal_to, message_type_marshal, put_u8.
  rewrite put_uint_1 by apply message_type_byte. by apply (finish_put 1).
Qed.

Lemma channel_type_encodes t : encodes t [channel_type_u8 t].
Proof.
  split; [done|]. intros buf Hb. unfold marshal_to, channel_type_marshal, put_u8.
  rewrite put_uint_1 by apply channel_type_byte. rewrite (proj2 (Z.ltb_ge _ _)) by done. by apply (finish_put 1).
Qed.

Lemma len_open_bytes o : len (open_bytes o) = marshal_size o.
Proof.
  unfold open_bytes, marshal_size, open_size, CHANNEL_OPEN_HEADER_LEN. rewrite len_cons, !len_app, !len_put_uint. lia.
Qed.

Lemma open_encodes o : encodes o (open_bytes o).
Proof.
  split; [apply len_open_bytes|]. intros buf Hb. unfold marshal_to, open_marshal. cbv zeta.
  rewrite (proj2 (Z.ltb_ge _ _)) by done. rewrite <- finish_put by (by rewrite len_open_bytes).
  assert (1 <= len buf) as H1. { revert Hb. unfold marshal_size, open_size, CHANNEL_OPEN_HEADER_LEN. pose proof (len_nonneg (label o)). pose proof (len_nonneg (protocol o)). lia. }
  rewrite (put_encoded _ _ _ (channel_type_encodes _)) by done.
  unfold open_bytes. change (channel_type_u8 (channel_type o) :: ?l) with ([channel_type_u8 (channel_type o)] ++ l).
  unfold put_u16, put_u32. repeat (apply put_step; intros). done.
Qed.

Lemma threshold_encodes t : encodes t (threshold_bytes t).
Proof.
  split; [by destruct t; unfold threshold_bytes; rewrite len_cons, len_put_uint|]. intros buf Hb. unfold marshal_to, threshold_marshal.
  assert (len (threshold_bytes t) <= len buf) as H1 by (destruct t; unfold threshold_bytes; rewrite len_cons, len_put_uint; exact Hb).
  rewrite <- finish_put by done.
  destruct t as [n|n]; unfold threshold_bytes, put_u8, put_u32; rewrite put_uint_1 by done; by rewrite put_app.
Qed.

Lemma body_encoded m w : len (message_body m) <= len (room w) →
  match m with
  | DataChannelThreshold t => put_marshal t w
  | DataChannelOpen o => put_marshal o w
  | _ => Ok w
  end = put (message_body m) w.
Proof.
  intros Hr. destruct m as [t| | |o]; cbn [message_body] in *.
  - by apply put_encoded; [apply threshold_encodes|].
  - by rewrite put_nil.
  - by rewrite put_nil.
  - by apply put_encoded; [apply open_encodes|].
Qed.

Lemma len_message_body m : len (message_body m) + 1 = marshal_size m.
Proof.
  destruct m as [t| | |o]; [|done|done|].
  - change (message_body _) with (threshold_bytes t). by rewrite (proj1 (threshold_encodes t)).
  - change (message_body _) with (open_bytes o). by rewrite (proj1 (open_encodes o)).
Qed.

Lemma message_encodes m : encodes m (message_bytes m).
Proof.
  split; [unfold message_bytes; rewrite len_cons; pose proof (len_message_body m); lia|].
  intros buf Hb. pose proof (len_message_body m). pose proof (len_nonneg (message_body m)).
  unfold marshal_to, message_marshal. rewrite (put_encoded _ _ _ (message_type_encodes _)) by (cbn [room]; change (len [_]) with 1; lia).
  rewrite put_Ok by (cbn [room]; change (len [_]) with 1; lia). cbn [rbind written room app length].
  assert (len (message_body m) <= len (drop 1 buf)) as Hd by (rewrite len_drop; lia).
  etransitivity; [apply (f_equal (λ r, rbind r _)); apply (body_encoded m (Wbuf [message_type_u8 (message_type m)] (drop 1 buf))); exact Hd|].
  rewrite put_Ok by done. cbn [rbind]. unfold finish. cbn [written room]. f_equal. f_equal.
  - rewrite len_app. change (len [_]) with 1. lia.
  - unfold message_bytes. by rewrite drop_drop.
Qed.

Lemma message_marshalled m : marshal m = Ok (message_bytes m).
Proof. apply encodes_marshal, message_encodes. Qed.

(** * What is read *)

(** The integers have their widths, and label and protocol a length that fits its field. *)
Definition open_ok (o : ChannelOpen) : Prop :=
  fits 16 (priority o) ∧ fits 32 (reliability_parameter o) ∧ len (label o) < 2 ^ 16 ∧ len (protocol o) < 2 ^ 16.

Definition message_ok (m : Message) : Prop :=
  match m with
  | DataChannelThreshold (Low n) | DataChannelThreshold (High n) => fits 32 n
  | DataChannelOpen o => open_ok o
  | _ => True
  end.

Lemma message_type_read t r : message_type_unmarshal (message_type_u8 t :: r) = Ok (t, r).
Proof.
  unfold message_type_unmarshal. rewrite len_cons. rewrite (proj2 (Z.ltb_ge _ _)) by (unfold MESSAGE_TYPE_LEN; pose proof (len_nonneg r); lia).
  rewrite get_u8_cons by apply message_type_byte. by destruct t.
Qed.

Lemma channel_type_read t r : channel_type_unmarshal (channel_type_u8 t :: r) = Ok (t, r).
Proof.
  unfold channel_type_unmarshal. rewrite len_cons. rewrite (proj2 (Z.ltb_ge _ _)) by (unfold CHANNEL_TYPE_LEN; pose proof (len_nonneg r); lia).
  rewrite get_u8_cons by apply channel_type_byte. by destruct t.
Qed.

Lemma open_read o r : open_ok o → open_unmarshal (open_bytes o ++ r) = Ok (o, r).
Proof.
  intros (Hp & Hr & Hl & Hq). pose proof (len_nonneg (label o)). pose proof (len_nonneg (protocol o)).
  unfold open_unmarshal. cbv zeta. rewrite (proj2 (Z.ltb_ge _ _)).
  2:{ rewrite len_app, len_open_bytes. unfold marshal_size, open_size, CHANNEL_OPEN_HEADER_LEN. pose proof (len_nonneg r). lia. }
  unfold open_bytes. cbn [app]. rewrite channel_type_read. cbn [rbind]. unfold get_u16, get_u32. rewrite <- !app_assoc.
  rewrite !wrap_small by (unfold fits; lia).
  rewrite get_put_uint by done. cbn [rbind]. rewrite get_put_uint by done. cbn [rbind].
  rewrite get_put_uint by (unfold fits; lia). cbn [rbind]. rewrite get_put_uint by (unfold fits; lia). cbn [rbind].
  rewrite (proj2 (Z.ltb_ge _ _)) by (rewrite !len_app; pose proof (len_nonneg r); lia).
  rewrite copy_to_bytes_app. cbn [rbind]. rewrite copy_to_bytes_app. by destruct o.
Qed.

Lemma threshold_read t r : message_ok (DataChannelThreshold t) → threshold_unmarshal (threshold_bytes t ++ r) = Ok (t, r).
Proof.
  unfold threshold_unmarshal, threshold_bytes. destruct t as [n|n]; cbn [message_ok app]; intros Hn;
    rewrite get_u8_cons by done; cbn [rbind]; unfold get_u32; by rewrite get_put_uint.
Qed.

Lemma message_read m r : message_ok m → message_unmarshal (message_bytes m ++ r) = Ok (m, r).
Proof.
  intros Hm. unfold message_unmarshal, message_bytes. cbn [app]. rewrite len_cons.
  rewrite (proj2 (Z.ltb_ge _ _)) by (unfold MESSAGE_TYPE_LEN; pose proof (len_nonneg (message_body m ++ r)); lia).
  rewrite message_type_read. cbn [rbind]. destruct m as [t| | |o]; cbn [message_type message_body app]; [|done|done|].
  - by rewrite threshold_read.
  - by rewrite open_read.
Qed.

(** * Panics of the parser *)

Lemma open_no_panic buf : Forall byte_ok buf → no_panic (open_unmarshal buf).
Proof.
  intros Hb. apply (res_post_no_panic _ (λ _, True)). unfold open_unmarshal, channel_type_unmarshal, CHANNEL_OPEN_HEADER_LEN, CHANNEL_TYPE_LEN.
  parse_step; [done|]. eapply (res_post_bind _ _ (λ '(_, r), Forall byte_ok r ∧ len r = len buf - 1)).
  - parse_step; [done|]. bool_facts. repeat parse_step; try lia; split; done || lia.
  - intros [t r] [Hr L]. bool_facts. parse. done.
Qed.

Lemma threshold_panic_iff buf : Forall byte_ok buf → threshold_unmarshal buf = Panic ↔ len buf < 5.
Proof.
  intros Hb. split.
  - intros E. destruct (Z.lt_ge_cases (len buf) 5) as [|Hl]; [done|]. exfalso. revert E.
    apply (res_post_no_panic _ (λ _, True)). unfold threshold_unmarshal. parse. done.
  - intros Hl. unfold threshold_unmarshal. destruct buf as [|b r]; [unfold get_u8; by rewrite get_uint_short by (simpl; lia)|].
    inversion Hb; subst. rewrite get_u8_cons by done. cbn [rbind]. unfold get_u32.
    rewrite get_uint_short; [done|]. rewrite len_cons in Hl. unfold len in Hl. lia.
Qed.

Lemma message_panic_iff buf : Forall byte_ok buf →
  message_unmarshal buf = Panic ↔ ∃ r, buf = MESSAGE_TYPE_THRESHOLD :: r ∧ len r < 5.
Proof.
  intros Hb. unfold message_unmarshal. destruct buf as [|b r]; [cbn; split; [done|naive_solver]|].
  inversion Hb as [|? ? Hbb Hr]; subst. rewrite len_cons.
  rewrite (proj2 (Z.ltb_ge _ _)) by (unfold MESSAGE_TYPE_LEN; pose proof (len_nonneg r); lia).
  unfold message_type_unmarshal. rewrite len_cons, get_u8_cons by done.
  rewrite (proj2 (Z.ltb_ge _ _)) by (unfold MESSAGE_TYPE_LEN; pose proof (len_nonneg r); lia). cbn [rbind].
  destruct (Z.eqb_spec b MESSAGE_TYPE_THRESHOLD) as [->|H0].
  - cbn [rbind]. transitivity (threshold_unmarshal r = Panic).
    + by destruct (threshold_unmarshal r) as [[? ?]| |]; cbn [rbind].
    + rewrite threshold_panic_iff by done. naive_solver.
  - split; [|naive_solver]. intros E. exfalso. revert E. repeat case_match; cbn [rbind]; try done. pose proof (open_no_panic r Hr) as Hp.
    destruct (open_unmarshal r) as [[? ?]| |]; cbn [rbind]; done.
Qed.

End Codec.

(** DCEP messages survive the wire: an OPEN with a label and a protocol of less than 65536
    octets, an ACK, and the two messages to the own transport are marshalled without an error into
    [marshal_size] octets, and parsing these, whatever follows them, gives the message back and
    consumes exactly its octets. *)
Theorem dcep_roundtrip `{BytesCrate} m :
  message_ok m →
  ∃ bs, marshal m = Ok bs ∧ len bs = marshal_size m ∧ ∀ r, message_unmarshal (bs ++ r) = Ok (m, r).
Proof.
  intros Hm. exists (message_bytes m). split_and!; [apply message_marshalled|apply message_encodes|].
  intros r. by apply message_read.
Qed.

(** The parser of DCEP messages panics on exactly the inputs that start with the octet of a
    threshold message and have fewer than five octets after it; on every other input it returns a
    message or an error. *)
Theorem dcep_unmarshal_panics_exactly `{BytesCrate} buf :
  Forall byte_ok buf →
  message_unmarshal buf = Panic ↔ ∃ r, buf = MESSAGE_TYPE_THRESHOLD :: r ∧ len r < 5.
Proof. apply message_panic_iff. Qed.

Section DcepExamples.
#[local] Existing Instance BigEndian.big_endian.

Lemma dcep_roundtrip_witness :
  ∃ bs, marshal (DataChannelOpen (mkOpen PartialReliableRexmit 256 3 [99; 104] [])) = Ok bs ∧
        message_unmarshal bs = Ok (DataChannelOpen (mkOpen PartialReliableRexmit 256 3 [99; 104] []), []).
Proof.
  destruct (dcep_roundtrip (DataChannelOpen (mkOpen PartialReliableRexmit 256 3 [99; 104] []))) as (bs & E & _ & Hr).
  - split_and!; vm_compute; intuition congruence.
  - exists bs. split; [exact E|]. specialize (Hr []). by rewrite app_nil_r in Hr.
Defined.

(** A single zero octet with the identifier of DCEP stops the receiver. *)
Lemma dcep_unmarshal_panics_exactly_witness : message_unmarshal [0] = Panic.
Proof. apply dcep_unmarshal_panics_exactly; [repeat constructor; vm_compute; intuition congruence|]. by exists []. Defined.

(** A label of 65536 octets is written with the length zero; the peer takes none of it, and reads
    the protocol from the octets of the label. *)
Lemma long_label_lost l :
  len (97 :: l) = 65536 →
  ∃ r, message_unmarshal (message_bytes (DataChannelOpen (mkOpen ChannelReliable 256 0 (97 :: l) [98])))
       = Ok (DataChannelOpen (mkOpen ChannelReliable 256 0 [] [97]), r).
Proof.
  intros L. set (o := mkOpen _ _ _ _ _). assert (1 <= len (message_bytes (DataChannelOpen o))) as H1.
  { unfold message_bytes. rewrite len_cons. pose proof (len_nonneg (message_body (DataChannelOpen o))). lia. }
  unfold message_unmarshal. rewrite (proj2 (Z.ltb_ge _ _)) by done. unfold message_bytes. rewrite message_type_read. cbn [rbind message_type message_body].
  unfold open_unmarshal. cbv zeta. rewrite len_open_bytes. rewrite (proj2 (Z.ltb_ge _ _)).
  2:{ unfold marshal_size, open_size, CHANNEL_OPEN_HEADER_LEN, o. cbn [label protocol]. rewrite L. change (len [98]) with 1. lia. }
  unfold open_bytes, o. cbn [channel_type priority reliability_parameter label protocol]. rewrite channel_type_read. cbn [rbind]. rewrite L.
  change (u16 65536) with 0. change (u16 (len [98])) with 1. unfold get_u16, get_u32.
  do 4 (rewrite get_put_uint by done; cbn [rbind]).
  rewrite (proj2 (Z.ltb_ge _ _)) by (rewrite len_app, L; change (len [98]) with 1; lia).
  change ((97 :: l) ++ [98]) with ([] ++ [97] ++ l ++ [98]).
  rewrite (copy_to_bytes_app []). cbn [rbind]. rewrite (copy_to_bytes_app [97]). cbn [rbind]. by eexists.
Qed.
End DcepExamples.
