(* ===== verification/DataChannel.v ===== *)
(** Data channels: [DataChannel] of [rtc-datachannel/src/data_channel/mod.rs], the channel object
    of a peer connection ([rtc/src/data_channel/internal.rs], [rtc/src/data_channel/mod.rs]) and
    the handler that sits between the application and SCTP
    ([rtc/src/peer_connection/handler/datachannel.rs]) with the statistics it keeps.

    Labels and protocols are held as their octets; a [String] is one whose octets are valid
    UTF-8.  The transport context of a message is only copied and is left out.  [clock] is the
    value of [Instant::now()], and [order] the order in which a loop over the map of channels
    visits the identifiers. *)

From S2P Require Import Prelude Codec SctpChunk SctpQueue SctpReassembly SctpStream Dcep.

(** * [DataChannel] *)

Record DataChannelConfig := mkDcConfig {
  dcc_channel_type : ChannelType;
  dcc_negotiated : bool;
  dcc_priority : Z;
  dcc_reliability_parameter : Z;
  dcc_label : bytes;
  dcc_protocol : bytes
}.

Definition config_default : DataChannelConfig := mkDcConfig ChannelReliable false 0 0 [] [].

Record DataChannelMessage := mkDcMessage {
  dcm_association_handle : Z;
  dcm_stream_id : Z;
  dcm_ppi : PayloadProtocolIdentifier;
  dcm_payload : bytes;
  dcm_negotiated : bool
}.

Record DataChannel := mkDataChannel {
  dc_config : DataChannelConfig;
  dc_association_handle : Z;
  dc_stream_id : Z;
  dc_read_outs : list DataChannelMessage;
  dc_write_outs : list DataChannelMessage;
  dc_messages_sent : Z;
  dc_messages_received : Z;
  dc_bytes_sent : Z;
  dc_bytes_received : Z
}.

Definition dc_eta (c : DataChannel) : DataChannel :=
  mkDataChannel (dc_config c) (dc_association_handle c) (dc_stream_id c) (dc_read_outs c) (dc_write_outs c)
    (dc_messages_sent c) (dc_messages_received c) (dc_bytes_sent c) (dc_bytes_received c).
#[export] Instance set_dc_read_outs : Setter dc_read_outs.
Proof. make_setter dc_eta dc_read_outs. Defined.
#[export] Instance set_dc_write_outs : Setter dc_write_outs.
Proof. make_setter dc_eta dc_write_outs. Defined.
#[export] Instance set_dc_messages_sent : Setter dc_messages_sent.
Proof. make_setter dc_eta dc_messages_sent. Defined.
#[export] Instance set_dc_messages_received : Setter dc_messages_received.
Proof. make_setter dc_eta dc_messages_received. Defined.
#[export] Instance set_dc_bytes_sent : Setter dc_bytes_sent.
Proof. make_setter dc_eta dc_bytes_sent. Defined.
#[export] Instance set_dc_bytes_received : Setter dc_bytes_received.
Proof. make_setter dc_eta dc_bytes_received. Defined.

Definition dc_new (config : DataChannelConfig) (association_handle stream_id : Z) : DataChannel :=
  mkDataChannel config association_handle stream_id [] [] 0 0 0 0.

Definition get_reliability_params (t : ChannelType) : bool * ReliabilityType :=
  match t with
  | ChannelReliable => (false, Reliable)
  | ReliableUnordered => (true, Reliable)
  | PartialReliableRexmit => (false, Rexmit)
  | PartialReliableRexmitUnordered => (true, Rexmit)
  | PartialReliableTimed => (false, Timed)
  | PartialReliableTimedUnordered => (true, Timed)
  end.

Definition get_channel_type_and_reliability_parameter (ordered : bool) (max_retransmits max_packet_life_time : option Z)
    : ChannelType * Z :=
  match max_retransmits, max_packet_life_time with
  | None, None => (if ordered then ChannelReliable else ReliableUnordered, 0)
  | Some r, _ => (if ordered then PartialReliableRexmit else PartialReliableRexmitUnordered, r)
  | None, Some t => (if ordered then PartialReliableTimed else PartialReliableTimedUnordered, t)
  end.

Definition get_data_channel_message (is_string : bool) (data : bytes) : DataChannelMessage :=
  let ppi := match is_string, len data =? 0 with
             | false, true => BinaryEmpty
             | false, false => Binary
             | true, true => StringEmpty
             | true, false => PString
             end in
  if len data =? 0 then mkDcMessage 0 0 ppi [0] false else mkDcMessage 0 0 ppi data false.

Section Channel.
Context {BC : BytesCrate}.

(** The body of [write_data_channel_ack], [write_data_channel_close] and
    [write_data_channel_high_threshold], [write_data_channel_low_threshold] *)
Definition write_dcep (m : Message) : sm DataChannel unit := λ c,
  match marshal m with
  | Ok payload =>
      (Ok tt, c <| dc_write_outs ::= λ q, q ++ [mkDcMessage (dc_association_handle c) (dc_stream_id c) Dcep payload false] |>)
  | Err e => (Err e, c)
  | Panic => (Panic, c)
  end.

Definition write_data_channel_ack : sm DataChannel unit := write_dcep DataChannelAck.
Definition write_data_channel_close : sm DataChannel unit := write_dcep DataChannelClose.
Definition set_buffered_amount_high_threshold (n : Z) : sm DataChannel unit := write_dcep (DataChannelThreshold (High n)).
Definition set_buffered_amount_low_threshold (n : Z) : sm DataChannel unit := write_dcep (DataChannelThreshold (Low n)).

Definition open_of (config : DataChannelConfig) : ChannelOpen :=
  mkOpen (dcc_channel_type config) (dcc_priority config) (dcc_reliability_parameter config) (dcc_label config) (dcc_protocol config).

Definition dial (config : DataChannelConfig) (association_handle stream_id : Z) : res DataChannel :=
  let data_channel := dc_new config association_handle stream_id in
  let! msg := marshal (DataChannelOpen (open_of config)) in
  Ok (data_channel <| dc_write_outs ::= λ q, q ++ [mkDcMessage association_handle stream_id Dcep msg (dcc_negotiated config)] |>).

Definition from_utf8 (l : bytes) : res bytes := if utf8_valid l then Ok l else Err ErrUtf8.

Definition accept (config : DataChannelConfig) (association_handle stream_id : Z) (ppi : PayloadProtocolIdentifier)
    (buf : bytes) : res DataChannel :=
  if negb (is_dcep ppi) then Err (InvalidPayloadProtocolIdentifier (ppi_u32 ppi))
  else
    let! (msg, _) := message_unmarshal buf in
    match msg with
    | DataChannelOpen dco =>
        let! label := from_utf8 (label dco) in
        let! protocol := from_utf8 (protocol dco) in
        let config := mkDcConfig (channel_type dco) (dcc_negotiated config) (priority dco) (reliability_parameter dco)
                        label protocol in
        let '(r, data_channel) := write_data_channel_ack (dc_new config association_handle stream_id) in
        let! _ := r in
        Ok data_channel
    | _ => Err (InvalidMessageType (message_type_u8 (message_type msg)))
    end.

Definition handle_dcep (data : bytes) : sm DataChannel unit :=
  do! (msg, _) <- slift (message_unmarshal data);
  match msg with
  | DataChannelOpen _ => write_data_channel_ack
  | DataChannelAck => sret tt
  | _ => slift (Err (InvalidMessageType (message_type_u8 (message_type msg))))
  end.

Definition dc_handle_read (msg : DataChannelMessage) : sm DataChannel unit := λ c,
  let c := c <| dc_messages_received ::= λ n, u64 (n + 1) |> <| dc_bytes_received ::= λ n, u64 (n + len (dcm_payload msg)) |> in
  if is_dcep (dcm_ppi msg) then handle_dcep (dcm_payload msg) c
  else (Ok tt, c <| dc_read_outs ::= λ q, q ++ [msg] |>).

Definition dc_poll_read (c : DataChannel) : option DataChannelMessage * DataChannel :=
  match dc_read_outs c with
  | m :: q => (Some m, c <| dc_read_outs := q |>)
  | [] => (None, c)
  end.

Definition dc_handle_write (msg : DataChannelMessage) (c : DataChannel) : DataChannel :=
  c <| dc_messages_sent ::= λ n, u64 (n + 1) |> <| dc_bytes_sent ::= λ n, u64 (n + len (dcm_payload msg)) |>
    <| dc_write_outs ::= λ q,
         q ++ [mkDcMessage (dc_association_handle c) (dc_stream_id c) (dcm_ppi msg) (dcm_payload msg) (dcm_negotiated msg)] |>.

Definition dc_poll_write (c : DataChannel) : option DataChannelMessage * DataChannel :=
  match dc_write_outs c with
  | m :: q => (Some m, c <| dc_write_outs := q |>)
  | [] => (None, c)
  end.

Definition dc_close : sm DataChannel unit := write_data_channel_close.

End Channel.

(** * [RTCDataChannelInternal] *)

Inductive RTCDataChannelState := Unspecified | Connecting | Open | Closing | Closed.

#[export] Instance dc_state_eq_dec : EqDecision RTCDataChannelState.
Proof. solve_decision. Defined.

Record DataChannelParameters := mkDcParams {
  prm_label : bytes;
  prm_protocol : bytes;
  prm_ordered : bool;
  prm_max_packet_life_time : option Z;
  prm_max_retransmits : option Z;
  prm_negotiated : option Z
}.

Record RTCDataChannelInternal := mkInternal {
  di_id : Z;
  di_label : bytes;
  di_ordered : bool;
  di_max_packet_life_time : option Z;
  di_max_retransmits : option Z;
  di_protocol : bytes;
  di_negotiated : bool;
  di_ready_state : RTCDataChannelState;
  di_high_threshold : Z;
  di_low_threshold : Z;
  di_outstanding_bytes : Z;
  di_data_channel : option DataChannel
}.

Definition di_eta (c : RTCDataChannelInternal) : RTCDataChannelInternal :=
  mkInternal (di_id c) (di_label c) (di_ordered c) (di_max_packet_life_time c) (di_max_retransmits c) (di_protocol c)
    (di_negotiated c) (di_ready_state c) (di_high_threshold c) (di_low_threshold c) (di_outstanding_bytes c) (di_data_channel c).
#[export] Instance set_di_ready_state : Setter di_ready_state.
Proof. make_setter di_eta di_ready_state. Defined.
#[export] Instance set_di_high_threshold : Setter di_high_threshold.
Proof. make_setter di_eta di_high_threshold. Defined.
#[export] Instance set_di_low_threshold : Setter di_low_threshold.
Proof. make_setter di_eta di_low_threshold. Defined.
#[export] Instance set_di_outstanding_bytes : Setter di_outstanding_bytes.
Proof. make_setter di_eta di_outstanding_bytes. Defined.
#[export] Instance set_di_data_channel : Setter di_data_channel.
Proof. make_setter di_eta di_data_channel. Defined.

Definition di_new (id : Z) (params : DataChannelParameters) : RTCDataChannelInternal :=
  mkInternal id (prm_label params) (prm_ordered params) (prm_max_packet_life_time params) (prm_max_retransmits params)
    (prm_protocol params) (bool_decide (is_Some (prm_negotiated params))) Connecting (2 ^ 32 - 1) 0 0 None.

Section Internal.
Context {BC : BytesCrate}.

Definition dial_config (c : RTCDataChannelInternal) : DataChannelConfig :=
  let '(channel_type, reliability_parameter) :=
    get_channel_type_and_reliability_parameter (di_ordered c) (di_max_retransmits c) (di_max_packet_life_time c) in
  mkDcConfig channel_type (di_negotiated c) CHANNEL_PRIORITY_NORMAL reliability_parameter (di_label c) (di_protocol c).

Definition di_dial (association_handle : Z) : sm RTCDataChannelInternal unit := λ c,
  match dial (dial_config c) association_handle (di_id c) with
  | Ok data_channel =>
      match (do! _ <- set_buffered_amount_low_threshold (di_low_threshold c);
             set_buffered_amount_high_threshold (di_high_threshold c)) data_channel with
      | (Ok _, data_channel) => (Ok tt, c <| di_data_channel := Some data_channel |> <| di_ready_state := Open |>)
      | (Err e, _) => (Err e, c)
      | (Panic, _) => (Panic, c)
      end
  | Err e => (Err e, c)
  | Panic => (Panic, c)
  end.

Definition di_accept (association_handle stream_id : Z) (ppi : PayloadProtocolIdentifier) (buf : bytes)
    : res RTCDataChannelInternal :=
  let! data_channel := accept config_default association_handle stream_id ppi buf in
  let config := dc_config data_channel in
  let '(unordered, _) := get_reliability_params (dcc_channel_type config) in
  let c := di_new stream_id (mkDcParams (dcc_label config) (dcc_protocol config) (negb unordered) None None None) in
  Ok (c <| di_data_channel := Some data_channel |> <| di_ready_state := Open |>).

Definition di_close : sm RTCDataChannelInternal unit := λ c,
  match di_data_channel c with
  | Some data_channel =>
      match dc_close data_channel with
      | (Ok _, data_channel) => (Ok tt, c <| di_data_channel := Some data_channel |> <| di_ready_state := Closed |>)
      | (Err e, data_channel) => (Err e, c <| di_data_channel := Some data_channel |>)
      | (Panic, data_channel) => (Panic, c <| di_data_channel := Some data_channel |>)
      end
  | None => (Ok tt, c <| di_ready_state := Closed |>)
  end.

End Internal.

(** * Statistics: [statistics/accumulator/data_channel.rs], [peer_connection.rs] *)

Record DataChannelStats := mkDcStats {
  dcs_identifier : Z;
  dcs_label : bytes;
  dcs_protocol : bytes;
  dcs_state : RTCDataChannelState;
  dcs_messages_sent : Z;
  dcs_bytes_sent : Z;
  dcs_messages_received : Z;
  dcs_bytes_received : Z
}.

Definition on_message_sent (n : Z) (s : DataChannelStats) : DataChannelStats :=
  mkDcStats (dcs_identifier s) (dcs_label s) (dcs_protocol s) (dcs_state s)
    (u32 (dcs_messages_sent s + 1)) (u64 (dcs_bytes_sent s + n)) (dcs_messages_received s) (dcs_bytes_received s).
Definition on_message_received (n : Z) (s : DataChannelStats) : DataChannelStats :=
  mkDcStats (dcs_identifier s) (dcs_label s) (dcs_protocol s) (dcs_state s)
    (dcs_messages_sent s) (dcs_bytes_sent s) (u32 (dcs_messages_received s + 1)) (u64 (dcs_bytes_received s + n)).
Definition on_state_changed (st : RTCDataChannelState) (s : DataChannelStats) : DataChannelStats :=
  mkDcStats (dcs_identifier s) (dcs_label s) (dcs_protocol s) st
    (dcs_messages_sent s) (dcs_bytes_sent s) (dcs_messages_received s) (dcs_bytes_received s).

Record RTCStatsAccumulator := mkDcAccumulator {
  data_channels_opened : Z;
  data_channels_closed : Z;
  st_data_channels : gmap Z DataChannelStats
}.

Definition on_data_channel_opened (s : RTCStatsAccumulator) : RTCStatsAccumulator :=
  mkDcAccumulator (u32 (data_channels_opened s + 1)) (data_channels_closed s) (st_data_channels s).
Definition on_data_channel_closed (s : RTCStatsAccumulator) : RTCStatsAccumulator :=
  mkDcAccumulator (data_channels_opened s) (u32 (data_channels_closed s + 1)) (st_data_channels s).

(** [get_or_create_data_channel] followed by a change [f] of the entry *)
Definition with_data_channel (id : Z) (label protocol : bytes) (f : DataChannelStats → DataChannelStats)
    (s : RTCStatsAccumulator) : RTCStatsAccumulator :=
  let entry := default (mkDcStats id label protocol Unspecified 0 0 0 0) (st_data_channels s !! id) in
  mkDcAccumulator (data_channels_opened s) (data_channels_closed s) (<[id := f entry]> (st_data_channels s)).

(** * The handler *)

Record RTCDataChannelMessage := mkAppMessage { is_string : bool; data : bytes }.
Inductive DataChannelEvent := EvOpen | EvMessage (m : RTCDataChannelMessage) | EvClose.
Record ApplicationMessage := mkApplication { data_channel_id : Z; data_channel_event : DataChannelEvent }.

Section Handler.
Context {BC : BytesCrate} {OtherMessage OtherEvent : Type}.

Inductive DTLSMessage := DtlsRaw (b : bytes) | DtlsSctp (m : DataChannelMessage) | DtlsDataChannel (m : ApplicationMessage).
Inductive RTCMessageInternal := MDtls (m : DTLSMessage) | MOther (m : OtherMessage).
Record TaggedRTCMessage := mkRtc { rtc_now : Z; rtc_message : RTCMessageInternal }.

Inductive RTCEventInternal :=
| SCTPHandshakeComplete (association_handle : Z)
| SCTPStreamClosed (association_handle stream_id : Z)
| SCTPBufferReleased (association_handle stream_id n_bytes : Z)
| OnDataChannelClose (id : Z)
| OnBufferedAmountLow (id : Z)
| OnBufferedAmountHigh (id : Z)
| EvOther (e : OtherEvent).

(** [DataChannelHandlerContext], with the channels and the statistics of the peer connection *)
Record DataChannelHandler := mkDcHandler {
  dh_read_outs : list TaggedRTCMessage;
  dh_write_outs : list TaggedRTCMessage;
  dh_event_outs : list RTCEventInternal;
  dh_data_channels : gmap Z RTCDataChannelInternal;
  dh_stats : RTCStatsAccumulator
}.

Definition dh_eta (h : DataChannelHandler) : DataChannelHandler :=
  mkDcHandler (dh_read_outs h) (dh_write_outs h) (dh_event_outs h) (dh_data_channels h) (dh_stats h).
#[export] Instance set_dh_read_outs : Setter dh_read_outs.
Proof. make_setter dh_eta dh_read_outs. Defined.
#[export] Instance set_dh_write_outs : Setter dh_write_outs.
Proof. make_setter dh_eta dh_write_outs. Defined.
#[export] Instance set_dh_event_outs : Setter dh_event_outs.
Proof. make_setter dh_eta dh_event_outs. Defined.
#[export] Instance set_dh_data_channels : Setter dh_data_channels.
Proof. make_setter dh_eta dh_data_channels. Defined.
#[export] Instance set_dh_stats : Setter dh_stats.
Proof. make_setter dh_eta dh_stats. Defined.

Definition application (now id : Z) (e : DataChannelEvent) : TaggedRTCMessage :=
  mkRtc now (MDtls (DtlsDataChannel (mkApplication id e))).

(** [while let Some(m) = data_channel.poll_write() { self.ctx.write_outs.push_back(..) }] *)
Definition drain_writes (clock : Z) (id : Z) (h : DataChannelHandler) : DataChannelHandler :=
  match dh_data_channels h !! id with
  | Some c =>
      match di_data_channel c with
      | Some dc =>
          h <| dh_write_outs ::= λ q, q ++ ((λ m, mkRtc clock (MDtls (DtlsSctp m))) <$> dc_write_outs dc) |>
            <| dh_data_channels ::= <[id := c <| di_data_channel := Some (dc <| dc_write_outs := [] |>) |>]> |>
      | None => h
      end
  | None => h
  end.

Definition to_application (m : DataChannelMessage) : RTCDataChannelMessage :=
  mkAppMessage (bool_decide (dcm_ppi m = PString) || bool_decide (dcm_ppi m = StringEmpty)) (dcm_payload m).

(** One turn of [while let Some(m) = data_channel.poll_read()] *)
Definition deliver (now id : Z) (label protocol : bytes) (h : DataChannelHandler) (m : DataChannelMessage) : DataChannelHandler :=
  h <| dh_stats ::= with_data_channel id label protocol (on_message_received (len (dcm_payload m))) |>
    <| dh_read_outs ::= λ q, q ++ [application now id (EvMessage (to_application m))] |>.

Definition drain_reads (now id : Z) (h : DataChannelHandler) : DataChannelHandler :=
  match dh_data_channels h !! id with
  | Some c =>
      match di_data_channel c with
      | Some dc =>
          foldl (deliver now id (di_label c) (di_protocol c))
            (h <| dh_data_channels ::= <[id := c <| di_data_channel := Some (dc <| dc_read_outs := [] |>) |>]> |>)
            (dc_read_outs dc)
      | None => h
      end
  | None => h
  end.

(** The first half of [handle_read]: the message goes to its channel, or opens one. *)
Definition receive (now : Z) (message : DataChannelMessage) : sm DataChannelHandler unit := λ h,
  let stream_id := dcm_stream_id message in
  match dh_data_channels h !! stream_id with
  | Some c =>
      match di_data_channel c with
      | Some dc =>
          let '(r, dc) := dc_handle_read message dc in
          (r, h <| dh_data_channels ::= <[stream_id := c <| di_data_channel := Some dc |>]> |>)
      | None => (Err ErrDataChannelNotExisted, h)
      end
  | None =>
      match di_accept (dcm_association_handle message) stream_id (dcm_ppi message) (dcm_payload message) with
      | Ok c =>
          (Ok tt, h <| dh_read_outs ::= λ q, q ++ [application now stream_id EvOpen] |>
                    <| dh_stats ::= λ s, with_data_channel stream_id (di_label c) (di_protocol c) (on_state_changed Open)
                                           (on_data_channel_opened s) |>
                    <| dh_data_channels ::= <[stream_id := c]> |>)
      | Err e => (Err e, h)
      | Panic => (Panic, h)
      end
  end.

Definition dch_handle_read (clock : Z) (msg : TaggedRTCMessage) : sm DataChannelHandler unit :=
  match rtc_message msg with
  | MDtls (DtlsSctp message) =>
      do! _ <- receive (rtc_now msg) message;
      smodify (λ h, drain_writes clock (dcm_stream_id message) (drain_reads (rtc_now msg) (dcm_stream_id message) h))
  | _ => smodify (λ h, h <| dh_read_outs ::= λ q, q ++ [msg] |>)
  end.

Definition dch_handle_write (clock : Z) (msg : TaggedRTCMessage) : sm DataChannelHandler unit := λ h,
  match rtc_message msg with
  | MDtls (DtlsDataChannel message) =>
      match data_channel_event message with
      | EvMessage m =>
          let channel_id := data_channel_id message in
          match dh_data_channels h !! channel_id with
          | Some c =>
              match di_data_channel c with
              | Some dc =>
                  let dc := dc_handle_write (get_data_channel_message (is_string m) (data m)) dc in
                  (Ok tt, drain_writes clock channel_id
                     (h <| dh_data_channels ::= <[channel_id := c <| di_data_channel := Some dc |>]> |>
                        <| dh_stats ::= with_data_channel channel_id (di_label c) (di_protocol c) (on_message_sent (len (data m))) |>))
              | None => (Err ErrDataChannelNotExisted, h)
              end
          | None => (Err ErrDataChannelNotExisted, h)
          end
      | _ => (Ok tt, h)
      end
  | _ => (Ok tt, h <| dh_write_outs ::= λ q, q ++ [msg] |>)
  end.

Definition dch_poll_read (h : DataChannelHandler) : option TaggedRTCMessage * DataChannelHandler :=
  match dh_read_outs h with
  | m :: q => (Some m, h <| dh_read_outs := q |>)
  | [] => (None, h)
  end.

Definition dch_poll_write (clock : Z) (order : list Z) (h : DataChannelHandler) : option TaggedRTCMessage * DataChannelHandler :=
  let h := foldl (λ h id, drain_writes clock id h) h order in
  match dh_write_outs h with
  | m :: q => (Some m, h <| dh_write_outs := q |>)
  | [] => (None, h)
  end.

(** The body of the loop of [SCTPHandshakeComplete] *)
Definition open_channel (clock association_handle id : Z) : sm DataChannelHandler unit := λ h,
  match dh_data_channels h !! id with
  | Some c =>
      if decide (di_ready_state c = Connecting) then
        match di_dial association_handle c with
        | (Ok _, c) =>
            (Ok tt, drain_writes clock id
               (h <| dh_data_channels ::= <[id := c]> |>
                  <| dh_read_outs ::= λ q, q ++ [application clock (di_id c) EvOpen] |>
                  <| dh_stats ::= λ s, with_data_channel (di_id c) (di_label c) (di_protocol c) (on_state_changed Open)
                                         (on_data_channel_opened s) |>))
        | (Err e, c) => (Err e, h <| dh_data_channels ::= <[id := c]> |>)
        | (Panic, c) => (Panic, h <| dh_data_channels ::= <[id := c]> |>)
        end
      else (Ok tt, h)
  | None => (Ok tt, h)
  end.

Fixpoint open_channels (clock association_handle : Z) (order : list Z) : sm DataChannelHandler unit :=
  match order with
  | [] => sret tt
  | id :: order => do! _ <- open_channel clock association_handle id; open_channels clock association_handle order
  end.

Definition dch_handle_event (clock : Z) (order : list Z) (evt : RTCEventInternal) : sm DataChannelHandler unit := λ h,
  match evt with
  | SCTPHandshakeComplete association_handle => open_channels clock association_handle order h
  | SCTPStreamClosed _ stream_id =>
      match dh_data_channels h !! stream_id with
      | Some _ =>
          (Ok tt, h <| dh_data_channels ::= delete stream_id |>
                    <| dh_stats ::= λ s,
                         let s := on_data_channel_closed s in
                         mkDcAccumulator (data_channels_opened s) (data_channels_closed s)
                           (alter (on_state_changed Closed) stream_id (st_data_channels s)) |>
                    <| dh_event_outs ::= λ q, q ++ [OnDataChannelClose stream_id] |>)
      | None => (Ok tt, h)
      end
  | SCTPBufferReleased _ stream_id n_bytes =>
      (Ok tt, h <| dh_data_channels ::= alter (λ c, c <| di_outstanding_bytes ::= λ n, Z.max 0 (n - n_bytes) |>) stream_id |>)
  | _ => (Ok tt, h <| dh_event_outs ::= λ q, q ++ [evt] |>)
  end.

Definition dch_poll_event (h : DataChannelHandler) : option RTCEventInternal * DataChannelHandler :=
  match dh_event_outs h with
  | e :: q => (Some e, h <| dh_event_outs := q |>)
  | [] => (None, h)
  end.

End Handler.

(** * The channels of a peer connection: [rtc/src/data_channel/mod.rs], [create_data_channel] *)

Record RTCDataChannelInit := mkInit {
  opt_ordered : bool;
  opt_max_packet_life_time : option Z;
  opt_max_retransmits : option Z;
  opt_protocol : bytes;
  opt_negotiated : option Z
}.

(** The loop of [generate_data_channel_id]: an identifier in use is skipped, so one turn more than
    there are channels is enough. *)
Fixpoint next_free_id (fuel : nat) (ids : gset Z) (bound id : Z) : res Z :=
  match fuel with
  | O => Panic
  | S fuel =>
      if id <? bound then
        if bool_decide (id ∈ ids) then next_free_id fuel ids bound (u16 (id + 2)) else Ok id
      else Err ErrMaxDataChannelID
  end.

Section Api.
Context {BC : BytesCrate} {OtherMessage OtherEvent Rest : Type}.
(** The negotiation-needed flag belongs to [Signaling]. *)
Context (trigger_negotiation_needed : Rest → Rest).

Abbreviation DataChannelHandler := (@DataChannelHandler OtherMessage OtherEvent).
Abbreviation TaggedRTCMessage := (@TaggedRTCMessage OtherMessage).

(** The part of [RTCPeerConnection] its data channels use; [pc_dtls_client] is
    [dtls_transport().role() == RTCDtlsRole::Client], and [pc_endpoint_writes] the queue of the
    endpoint handler, which the data channel handler reads from. *)
Record PeerConnection := mkPeerConnection {
  pc_closed : bool;
  pc_dtls_client : bool;
  pc_max_channels : Z;
  pc_endpoint_writes : list TaggedRTCMessage;
  pc_handler : DataChannelHandler;
  pc_rest : Rest
}.

Definition pc_eta (p : PeerConnection) : PeerConnection :=
  mkPeerConnection (pc_closed p) (pc_dtls_client p) (pc_max_channels p) (pc_endpoint_writes p) (pc_handler p) (pc_rest p).
#[export] Instance set_pc_endpoint_writes : Setter pc_endpoint_writes.
Proof. make_setter pc_eta pc_endpoint_writes. Defined.
#[export] Instance set_pc_handler : Setter pc_handler.
Proof. make_setter pc_eta pc_handler. Defined.
#[export] Instance set_pc_rest : Setter pc_rest.
Proof. make_setter pc_eta pc_rest. Defined.

Definition pc_channels (p : PeerConnection) : gmap Z RTCDataChannelInternal := dh_data_channels (pc_handler p).
Definition with_channels (f : gmap Z RTCDataChannelInternal → gmap Z RTCDataChannelInternal) (p : PeerConnection) : PeerConnection :=
  p <| pc_handler ::= λ h, h <| dh_data_channels ::= f |> |>.

Definition generate_data_channel_id (p : PeerConnection) : res Z :=
  let id := if pc_dtls_client p then 0 else 1 in
  next_free_id (S (size (pc_channels p))) (dom (pc_channels p)) (u16 (pc_max_channels p - 1)) id.

(** The checks on the options, and the identifier they ask for *)
Definition channel_parameters (label : bytes) (id : Z) (options : option RTCDataChannelInit) : res (DataChannelParameters * Z) :=
  match options with
  | None => Ok (mkDcParams label [] false None None None, id)
  | Some o =>
      if bool_decide (is_Some (opt_max_packet_life_time o)) && bool_decide (is_Some (opt_max_retransmits o))
      then Err ErrRetransmitsOrPacketLifeTime
      else if 65535 <? len (opt_protocol o) then Err ErrProtocolTooLarge
      else Ok (mkDcParams label (opt_protocol o) (opt_ordered o) (opt_max_packet_life_time o) (opt_max_retransmits o)
                 (opt_negotiated o),
               match opt_negotiated o with Some n => n | None => id end)
  end.

Definition create_data_channel (label : bytes) (options : option RTCDataChannelInit) : sm PeerConnection Z := λ p,
  if pc_closed p then (Err ErrConnectionClosed, p)
  else match (let! id := generate_data_channel_id p in channel_parameters label id options) with
  | Ok (params, id) =>
      (Ok id, (with_channels <[id := di_new id params]> p) <| pc_rest ::= trigger_negotiation_needed |>)
  | Err e => (Err e, p)
  | Panic => (Panic, p)
  end.

(** [send] and [send_text], with the octets of the text *)
Definition send (clock id : Z) (text : bool) (payload : bytes) : sm PeerConnection unit := λ p,
  match pc_channels p !! id with
  | Some _ =>
      let p := p <| pc_endpoint_writes ::= λ q, q ++ [application clock id (EvMessage (mkAppMessage text payload))] |> in
      (Ok tt, with_channels (alter (λ c, c <| di_outstanding_bytes ::= λ n, u64 (n + len payload) |>) id) p)
  | None => (Err ErrDataChannelClosed, p)
  end.

Definition outstanding_bytes (id : Z) (p : PeerConnection) : Z :=
  match pc_channels p !! id with Some c => di_outstanding_bytes c | None => 0 end.

Definition close_channel (id : Z) : sm PeerConnection unit := λ p,
  match pc_channels p !! id with
  | Some c =>
      if decide (di_ready_state c = Closed) then (Ok tt, p)
      else
        let '(r, c) := di_close (c <| di_ready_state := Closing |>) in
        (r, with_channels <[id := c]> p)
  | None => (Err ErrDataChannelClosed, p)
  end.

(** [set_buffered_amount_high_threshold] and [set_buffered_amount_low_threshold]: the channel must
    exist, and an error of the channel is ignored. *)
Definition set_threshold (id : Z) (t : Threshold) : sm PeerConnection unit := λ p,
  match pc_channels p !! id with
  | Some c =>
      let c := match t with Low n => c <| di_low_threshold := n |> | High n => c <| di_high_threshold := n |> end in
      let c := match di_data_channel c with
               | Some dc => c <| di_data_channel := Some (write_dcep (DataChannelThreshold t) dc).2 |>
               | None => c
               end in
      (Ok tt, with_channels <[id := c]> p)
  | None => (Panic, p)
  end.

(** A turn of the pipeline: the data channel handler takes what the endpoint handler holds; an
    error is logged. *)
Fixpoint write_all (clock : Z) (ms : list TaggedRTCMessage) (h : DataChannelHandler) : DataChannelHandler :=
  match ms with
  | [] => h
  | m :: ms => write_all clock ms (dch_handle_write clock m h).2
  end.

Definition pass_writes (clock : Z) (p : PeerConnection) : PeerConnection :=
  p <| pc_handler ::= write_all clock (pc_endpoint_writes p) |> <| pc_endpoint_writes := [] |>.

End Api.

(** * Opening a channel *)

Section Opening.
Context {BC : BytesCrate}.

Lemma write_dcep_eq m c :
  write_dcep m c =
  (Ok tt, c <| dc_write_outs ::= λ q, q ++ [mkDcMessage (dc_association_handle c) (dc_stream_id c) Dcep (message_bytes m) false] |>).
Proof. unfold write_dcep. by rewrite message_marshalled. Qed.

Lemma dial_eq config ah id :
  dial config ah id =
  Ok ((dc_new config ah id) <| dc_write_outs := [mkDcMessage ah id Dcep (message_bytes (DataChannelOpen (open_of config))) (dcc_negotiated config)] |>).
Proof. unfold dial. by rewrite message_marshalled. Qed.

(** What a channel sends when it is dialled: the OPEN, and its thresholds to its own transport *)
Definition open_message (ah : Z) (c : RTCDataChannelInternal) : DataChannelMessage :=
  mkDcMessage ah (di_id c) Dcep (message_bytes (DataChannelOpen (open_of (dial_config c)))) (di_negotiated c).
Definition threshold_message (ah id : Z) (t : Threshold) : DataChannelMessage :=
  mkDcMessage ah id Dcep (message_bytes (DataChannelThreshold t)) false.
Definition dial_messages (ah : Z) (c : RTCDataChannelInternal) : list DataChannelMessage :=
  [open_message ah c; threshold_message ah (di_id c) (Low (di_low_threshold c));
   threshold_message ah (di_id c) (High (di_high_threshold c))].

Lemma dial_config_negotiated c : dcc_negotiated (dial_config c) = di_negotiated c.
Proof. unfold dial_config. by destruct (get_channel_type_and_reliability_parameter _ _ _). Qed.

Lemma di_dial_eq ah c :
  di_dial ah c =
  (Ok tt, c <| di_data_channel := Some ((dc_new (dial_config c) ah (di_id c)) <| dc_write_outs := dial_messages ah c |>) |>
            <| di_ready_state := Open |>).
Proof.
  unfold di_dial. rewrite dial_eq. unfold set_buffered_amount_low_threshold, set_buffered_amount_high_threshold, sbind.
  rewrite !write_dcep_eq. unfold dial_messages, open_message. by rewrite dial_config_negotiated.
Qed.

(** The parameters a dialled channel announces: its reliability, label and protocol *)
Definition announced (c : RTCDataChannelInternal) : bool * ReliabilityType * Z :=
  (get_reliability_params (dcc_channel_type (dial_config c)), dcc_reliability_parameter (dial_config c)).

Lemma announced_eq c :
  announced c =
  (negb (di_ordered c),
   match di_max_retransmits c, di_max_packet_life_time c with
   | Some _, _ => Rexmit | None, Some _ => Timed | None, None => Reliable
   end,
   match di_max_retransmits c, di_max_packet_life_time c with
   | Some n, _ => n | None, Some t => t | None, None => 0
   end).
Proof.
  unfold announced, dial_config, get_channel_type_and_reliability_parameter.
  by destruct (di_max_retransmits c), (di_max_packet_life_time c), (di_ordered c).
Qed.

(** The limits the types and the API put on a channel: [u16] parameters, texts that are valid and
    whose length has a 16-bit field *)
Definition text_ok (l : bytes) : Prop := utf8_valid l = true ∧ len l < 2 ^ 16.
Definition parameters_ok (c : RTCDataChannelInternal) : Prop :=
  text_ok (di_label c) ∧ text_ok (di_protocol c) ∧
  match di_max_retransmits c with Some n => fits 16 n | None => True end ∧
  match di_max_packet_life_time c with Some n => fits 16 n | None => True end.

Lemma dial_open_ok c : parameters_ok c → open_ok (open_of (dial_config c)).
Proof.
  intros ([_ Hl] & [_ Hp] & Hr & Ht). unfold open_ok, open_of, dial_config, get_channel_type_and_reliability_parameter.
  destruct (di_max_retransmits c), (di_max_packet_life_time c), (di_ordered c);
    cbn -[Z.pow] in *; unfold fits, CHANNEL_PRIORITY_NORMAL in *; lia.
Qed.

Lemma open_of_texts c : label (open_of (dial_config c)) = di_label c ∧ protocol (open_of (dial_config c)) = di_protocol c.
Proof. unfold dial_config. by destruct (get_channel_type_and_reliability_parameter _ _ _). Qed.

(** The channel the peer makes of an OPEN. *)
Lemma di_accept_eq ah id o r :
  open_ok o → utf8_valid (label o) = true → utf8_valid (protocol o) = true →
  di_accept ah id Dcep (message_bytes (DataChannelOpen o) ++ r) =
  let config := mkDcConfig (channel_type o) false (priority o) (reliability_parameter o) (label o) (protocol o) in
  Ok ((di_new id (mkDcParams (label o) (protocol o) (negb (get_reliability_params (channel_type o)).1) None None None))
      <| di_data_channel := Some ((dc_new config ah id) <| dc_write_outs := [mkDcMessage ah id Dcep (message_bytes DataChannelAck) false] |>) |>
      <| di_ready_state := Open |>).
Proof.
  intros Ho Hl Hp. unfold di_accept, accept. change (negb (is_dcep Dcep)) with false. cbv iota.
  rewrite message_read by done. cbn [rbind]. unfold from_utf8. rewrite Hl, Hp. cbn [rbind].
  unfold write_data_channel_ack. rewrite write_dcep_eq. cbn [rbind]. cbv zeta.
  by destruct (channel_type o).
Qed.

End Opening.

Section HandlerTheory.
Context {BC : BytesCrate} {OtherMessage OtherEvent : Type}.
Abbreviation DataChannelHandler := (@DataChannelHandler OtherMessage OtherEvent).
Implicit Types h : DataChannelHandler.

Definition to_sctp (clock : Z) (m : DataChannelMessage) : @TaggedRTCMessage OtherMessage := mkRtc clock (MDtls (DtlsSctp m)).

Lemma drain_writes_eq clock id c dc h :
  dh_data_channels h !! id = Some c → di_data_channel c = Some dc →
  drain_writes clock id h =
  h <| dh_write_outs ::= λ q, q ++ (to_sctp clock <$> dc_write_outs dc) |>
    <| dh_data_channels ::= <[id := c <| di_data_channel := Some (dc <| dc_write_outs := [] |>) |>]> |>.
Proof. intros Hc Hd. unfold drain_writes. by rewrite Hc, Hd. Qed.

Lemma drain_reads_none now id c dc h :
  dh_data_channels h !! id = Some c → di_data_channel c = Some dc → dc_read_outs dc = [] →
  drain_reads now id h = h <| dh_data_channels ::= <[id := c]> |>.
Proof.
  intros Hc Hd Hr. unfold drain_reads. rewrite Hc, Hd, Hr. cbn [foldl].
  by destruct c, dc; simpl in *; simplify_eq.
Qed.

Lemma drain_reads_one now id c dc m h :
  dh_data_channels h !! id = Some c → di_data_channel c = Some dc → dc_read_outs dc = [m] →
  drain_reads now id h =
  deliver now id (di_label c) (di_protocol c)
    (h <| dh_data_channels ::= <[id := c <| di_data_channel := Some (dc <| dc_read_outs := [] |>) |>]> |>) m.
Proof. intros Hc Hd Hr. unfold drain_reads. by rewrite Hc, Hd, Hr. Qed.

(** What a handler has handed over: to the application and to SCTP *)
Definition outs (h : DataChannelHandler) : list (@TaggedRTCMessage OtherMessage) * list (@TaggedRTCMessage OtherMessage) := (dh_read_outs h, dh_write_outs h).

(** The channel after [SCTPHandshakeComplete], and what it sends *)
Definition opened (ah : Z) (c : RTCDataChannelInternal) : RTCDataChannelInternal :=
  if decide (di_ready_state c = Connecting)
  then c <| di_data_channel := Some (dc_new (dial_config c) ah (di_id c)) |> <| di_ready_state := Open |>
  else c.
Definition dialled (ah : Z) (channels : gmap Z RTCDataChannelInternal) (id : Z) : list DataChannelMessage :=
  match channels !! id with
  | Some c => if decide (di_ready_state c = Connecting) then dial_messages ah c else []
  | None => []
  end.

(** What the application is told about it *)
Definition told (channels : gmap Z RTCDataChannelInternal) (id : Z) : list Z :=
  match channels !! id with
  | Some c => if decide (di_ready_state c = Connecting) then [di_id c] else []
  | None => []
  end.
Definition open_events (clock : Z) (ids : list Z) : list (@TaggedRTCMessage OtherMessage) := (λ id, application clock id EvOpen) <$> ids.

Lemma open_channel_spec clock ah id h :
  ∃ h', open_channel clock ah id h = (Ok tt, h') ∧
    outs h' = (dh_read_outs h ++ open_events clock (told (dh_data_channels h) id),
               dh_write_outs h ++ (to_sctp clock <$> dialled ah (dh_data_channels h) id)) ∧
    dh_data_channels h' = alter (opened ah) id (dh_data_channels h).
Proof.
  unfold open_channel, dialled, told, outs, open_events. destruct (dh_data_channels h !! id) as [c|] eqn:Ec.
  2:{ exists h. rewrite !app_nil_r. split_and!; [done..|]. symmetry. apply map_eq. intros j. destruct (decide (j = id)) as [->|].
      - by rewrite lookup_alter_eq, Ec. - by rewrite lookup_alter_ne. }
  assert (alter (opened ah) id (dh_data_channels h) = <[id := opened ah c]> (dh_data_channels h)) as Ea.
  { apply map_eq. intros j. destruct (decide (j = id)) as [->|].
    - by rewrite lookup_alter_eq, lookup_insert_eq, Ec.
    - by rewrite lookup_alter_ne, lookup_insert_ne. }
  destruct (decide (di_ready_state c = Connecting)) as [Hs|Hs].
  - rewrite di_dial_eq. eexists. split; [reflexivity|].
    erewrite drain_writes_eq; [|record_simpl; apply lookup_insert_eq|reflexivity].
    record_simpl. split; [done|]. rewrite insert_insert_eq, Ea. f_equal. unfold opened. by rewrite decide_True.
  - exists h. rewrite !app_nil_r. split_and!; [done..|]. rewrite Ea. unfold opened. rewrite decide_False by done. by rewrite insert_id.
Qed.

Lemma open_channels_spec clock ah order h :
  NoDup order →
  ∃ h', open_channels clock ah order h = (Ok tt, h') ∧
    outs h' = (dh_read_outs h ++ open_events clock (order ≫= told (dh_data_channels h)),
               dh_write_outs h ++ (to_sctp clock <$> (order ≫= dialled ah (dh_data_channels h)))) ∧
    (∀ id, dh_data_channels h' !! id =
           if decide (id ∈ order) then opened ah <$> dh_data_channels h !! id else dh_data_channels h !! id).
Proof.
  intros Hn. revert h. induction Hn as [|i order Hi Hn IH]; intros h.
  { exists h. split_and!; [done|unfold outs; csimpl; by rewrite !app_nil_r|]. intros id. by rewrite decide_False by set_solver. }
  destruct (open_channel_spec clock ah i h) as (h1 & E1 & W1 & C1).
  destruct (IH h1) as (h2 & E2 & W2 & C2). exists h2. split_and!.
  - cbn [open_channels]. unfold sbind. rewrite E1. exact E2.
  - injection W1 as R1 W1. rewrite W2, R1, W1, C1. csimpl. unfold open_events. rewrite <- !app_assoc, <- !fmap_app.
    assert (∀ {A} (f : gmap Z RTCDataChannelInternal → Z → list A), (∀ m j, j ≠ i → f (alter (opened ah) i m) j = f m j) →
            order ≫= f (alter (opened ah) i (dh_data_channels h)) = order ≫= f (dh_data_channels h)) as Hf.
    { intros A f Hf. apply Forall_bind_ext, Forall_forall. intros j Hj. apply Hf. by intros ->. }
    rewrite (Hf _ told), (Hf _ (dialled ah)); [done|..]; intros m j Hj; unfold told, dialled; by rewrite lookup_alter_ne.
  - intros id. rewrite C2, C1. destruct (decide (id = i)) as [->|Hne].
    + rewrite decide_False, decide_True by set_solver. by rewrite lookup_alter_eq.
    + rewrite lookup_alter_ne by done. by destruct (decide (id ∈ order)); [rewrite decide_True by set_solver|rewrite decide_False by set_solver].
Qed.

End HandlerTheory.

(** * Messages between two handlers *)

Section Transfer.
Context {BC : BytesCrate} {OtherMessage OtherEvent : Type}.
Abbreviation DataChannelHandler := (@DataChannelHandler OtherMessage OtherEvent).
Abbreviation TaggedRTCMessage := (@TaggedRTCMessage OtherMessage).
Implicit Types h p : DataChannelHandler.

(** The message the SCTP handler of the peer makes of one it receives on the association [ah] *)
Definition arrival (ah : Z) (m : DataChannelMessage) : DataChannelMessage :=
  mkDcMessage ah (dcm_stream_id m) (dcm_ppi m) (dcm_payload m) false.

(** The handler has a channel [id] that is connected to its transport, with nothing left in its queues. *)
Definition idle (id : Z) h : Prop :=
  ∃ c dc, dh_data_channels h !! id = Some c ∧ di_data_channel c = Some dc ∧ dc_stream_id dc = id ∧
          dc_read_outs dc = [] ∧ dc_write_outs dc = [].

Lemma idle_insert id c dc h :
  di_data_channel c = Some dc → dc_stream_id dc = id → dc_read_outs dc = [] → dc_write_outs dc = [] →
  dh_data_channels h !! id = Some c → idle id h.
Proof. intros. exists c, dc. done. Qed.

(** A message of a channel with the given identifier, as SCTP hands it up *)
Lemma read_known clock now id m h :
  idle id h → dcm_stream_id m = id → is_dcep (dcm_ppi m) = false →
  ∃ h', dch_handle_read clock (to_sctp now m) h = (Ok tt, h') ∧ idle id h' ∧
    outs h' = (dh_read_outs h ++ [application now id (EvMessage (to_application m))], dh_write_outs h).
Proof.
  intros (c & dc & Hc & Hd & Hi & Hr & Hw) Hm Hp. unfold dch_handle_read, to_sctp. cbn [rtc_message rtc_now].
  unfold sbind, receive, smodify. rewrite Hm, Hc, Hd. unfold dc_handle_read. rewrite Hp.
  eexists. split; [reflexivity|].
  erewrite drain_reads_one; [|record_simpl; apply lookup_insert_eq|record_simpl; reflexivity|record_simpl; by rewrite Hr].
  unfold deliver. record_simpl.
  erewrite drain_writes_eq; [|record_simpl; apply lookup_insert_eq|record_simpl; reflexivity].
  unfold outs. record_simpl. rewrite Hw, app_nil_r. split; [|done].
  eapply idle_insert; [| | | |record_simpl; apply lookup_insert_eq]; [record_simpl; reflexivity|by record_simpl..].
Qed.

Lemma read_ack clock now id m h :
  idle id h → dcm_stream_id m = id → dcm_ppi m = Dcep → dcm_payload m = message_bytes DataChannelAck →
  ∃ h', dch_handle_read clock (to_sctp now m) h = (Ok tt, h') ∧ idle id h' ∧ outs h' = outs h.
Proof.
  intros (c & dc & Hc & Hd & Hi & Hr & Hw) Hm Hp Hl. unfold dch_handle_read, to_sctp. cbn [rtc_message rtc_now].
  unfold sbind, receive, smodify. rewrite Hm, Hc, Hd. unfold dc_handle_read. rewrite Hp, Hl.
  change (is_dcep Dcep) with true. cbv iota zeta. unfold handle_dcep, slift, sbind.
  rewrite <- (app_nil_r (message_bytes DataChannelAck)). rewrite message_read by done. cbv iota beta.
  eexists. split; [reflexivity|].
  erewrite drain_reads_none; [|record_simpl; apply lookup_insert_eq|record_simpl; reflexivity|by record_simpl].
  erewrite drain_writes_eq; [|record_simpl; apply lookup_insert_eq|record_simpl; reflexivity].
  unfold outs. record_simpl. rewrite Hw. cbn [fmap list_fmap]. rewrite !app_nil_r. split; [|done].
  eapply idle_insert; [| | | |record_simpl; apply lookup_insert_eq]; [record_simpl; reflexivity|by record_simpl..].
Qed.

(** What the data channel of [id] makes of a message of the application *)
Definition packed (ah id : Z) (m : RTCDataChannelMessage) : DataChannelMessage :=
  let d := get_data_channel_message (is_string m) (data m) in mkDcMessage ah id (dcm_ppi d) (dcm_payload d) false.

Lemma write_known clock now id m h :
  idle id h →
  ∃ h' ah, dch_handle_write clock (application now id (EvMessage m)) h = (Ok tt, h') ∧ idle id h' ∧
    outs h' = (dh_read_outs h, dh_write_outs h ++ [to_sctp clock (packed ah id m)]).
Proof.
  intros (c & dc & Hc & Hd & Hi & Hr & Hw). unfold dch_handle_write, application. cbn [rtc_message data_channel_event data_channel_id].
  rewrite Hc, Hd. do 2 eexists. split; [reflexivity|].
  erewrite drain_writes_eq; [|record_simpl; apply lookup_insert_eq|record_simpl; reflexivity].
  unfold outs, dc_handle_write. record_simpl. rewrite Hw, Hi. split.
  - eapply idle_insert; [| | | |record_simpl; apply lookup_insert_eq]; [record_simpl; reflexivity|by record_simpl..].
  - unfold packed. cbv zeta. cbn [app fmap list_fmap]. repeat f_equal. unfold get_data_channel_message. by destruct (len (data m) =? 0).
Qed.

(** What the application of the peer gets: an empty message as one zero octet *)
Definition delivered (m : RTCDataChannelMessage) : RTCDataChannelMessage :=
  mkAppMessage (is_string m) (match data m with [] => [0] | _ => data m end).

Lemma packed_delivered ah ah' id m :
  to_application (arrival ah (packed ah' id m)) = delivered m ∧ is_dcep (dcm_ppi (arrival ah (packed ah' id m))) = false.
Proof.
  destruct m as [b [|x l]]; destruct b; [done|done| |];
    (unfold to_application, arrival, packed, get_data_channel_message; cbn [is_string data];
     rewrite len_cons; rewrite (proj2 (Z.eqb_neq _ _)) by (pose proof (len_nonneg l); lia); done).
Qed.

Lemma messages_sent clock now id ms h :
  idle id h →
  ∃ sent, idle id (write_all clock ((λ m, application now id (EvMessage m)) <$> ms) h) ∧
    Forall2 (λ d m, ∃ ah, d = packed ah id m) sent ms ∧
    outs (write_all clock ((λ m, application now id (EvMessage m)) <$> ms) h) =
    (dh_read_outs h, dh_write_outs h ++ (to_sctp clock <$> sent)).
Proof.
  revert h. induction ms as [|m ms IH]; intros h Hh.
  { exists []. split_and!; [done|constructor|]. unfold outs. cbn. by rewrite app_nil_r. }
  destruct (write_known clock now id m h Hh) as (h1 & ah & E1 & I1 & O1).
  destruct (IH h1 I1) as (sent & I2 & F2 & O2). exists (packed ah id m :: sent). csimpl. rewrite E1. cbn [snd].
  split_and!; [done|by constructor; [eexists|]|]. rewrite O2. unfold outs in O1. injection O1 as R W. rewrite R, W. by rewrite <- app_assoc.
Qed.

(** [while let Some(msg) = intermediate_routs.pop_front() { handler.handle_read(msg) }]; an error is logged. *)
Fixpoint read_all (clock : Z) (ms : list TaggedRTCMessage) h : DataChannelHandler :=
  match ms with
  | [] => h
  | m :: ms => read_all clock ms (dch_handle_read clock m h).2
  end.

Lemma messages_received clock now ah id sent ms h :
  idle id h → Forall2 (λ d m, ∃ ah', d = packed ah' id m) sent ms →
  outs (read_all clock ((λ d, to_sctp now (arrival ah d)) <$> sent) h) =
  (dh_read_outs h ++ ((λ m, application now id (EvMessage (delivered m))) <$> ms), dh_write_outs h).
Proof.
  intros Hh HF. revert h Hh. induction HF as [|d m sent ms [ah' ->] _ IH]; intros h Hh.
  { unfold outs. cbn. by rewrite app_nil_r. }
  destruct (packed_delivered ah ah' id m) as [Ed Hd].
  destruct (read_known clock now id (arrival ah (packed ah' id m)) h Hh) as (h1 & E1 & I1 & O1); [done..|].
  csimpl. rewrite E1. cbn [snd]. rewrite (IH h1 I1). unfold outs in O1. injection O1 as R W. rewrite R, W, Ed. by rewrite <- app_assoc.
Qed.

End Transfer.

(** * Identifiers *)

Definition same_parity (x y : Z) : Prop := (x - y) mod 2 = 0.

Lemma next_free_id_spec fuel (ids : gset Z) bound id :
  0 <= id → bound <= 65534 → (size (filter (λ x : Z, (id <= x)%Z) ids) < fuel)%nat →
  match next_free_id fuel ids bound id with
  | Ok r => id <= r < bound ∧ same_parity r id ∧ r ∉ ids ∧ ∀ x, id <= x < r → same_parity x id → x ∈ ids
  | Err e => e = ErrMaxDataChannelID ∧ ∀ x, id <= x < bound → same_parity x id → x ∈ ids
  | Panic => False
  end.
Proof.
  unfold same_parity. revert id. induction fuel as [|fuel IH]; intros id H0 Hb Hs; [lia|]. cbn [next_free_id].
  destruct (Z.ltb_spec id bound) as [Hlt|Hge]; [|split; [done|lia]].
  case_bool_decide as Hin.
  2:{ split_and!; [lia|lia|by rewrite Z.sub_diag|done|lia]. }
  rewrite wrap_small by (unfold fits; lia). specialize (IH (id + 2)).
  assert (size (filter (λ x : Z, (id + 2 <= x)%Z) ids) < fuel)%nat as Hf.
  { assert (filter (λ x, id + 2 <= x) ids ⊂ filter (λ x, id <= x) ids) as Hsub.
    - split; [set_solver by lia|]. intros Hsup. assert (id ∈ filter (λ x, id + 2 <= x) ids) as Hi by (apply Hsup; set_solver by lia).
      apply elem_of_filter in Hi. lia.
    - apply subset_size in Hsub. lia. }
  specialize (IH ltac:(lia) Hb Hf).
  assert (∀ x, id <= x → (x - id) mod 2 = 0 → x = id ∨ (id + 2 <= x ∧ (x - (id + 2)) mod 2 = 0)) as Hc.
  { intros x Hx Hm. destruct (decide (x = id)); [by left|]. right. split; Z.div_mod_to_equations; lia. }
  destruct (next_free_id fuel ids bound (id + 2)) as [r|e|]; [|destruct IH as [-> IH]; split; [done|]|done].
  - destruct IH as (Hr & Hm & Hn & Ha). split_and!; [lia|lia|Z.div_mod_to_equations; lia|done|].
    intros x Hx Hxm. destruct (Hc x ltac:(lia) Hxm) as [->|[? ?]]; [done|]. apply Ha; [lia|done].
  - intros x Hx Hxm. destruct (Hc x ltac:(lia) Hxm) as [->|[? ?]]; [done|]. apply IH; [lia|done].
Qed.

Section Identifiers.
Context {OtherMessage OtherEvent Rest : Type}.
Implicit Types p : @PeerConnection OtherMessage OtherEvent Rest.

Lemma generated_id p :
  1 <= pc_max_channels p <= 65535 →
  let start := if pc_dtls_client p then 0 else 1 in
  match generate_data_channel_id p with
  | Ok id => start <= id < pc_max_channels p - 1 ∧ same_parity id start ∧ pc_channels p !! id = None ∧
             ∀ x, start <= x < id → same_parity x start → is_Some (pc_channels p !! x)
  | Err e => e = ErrMaxDataChannelID ∧
             ∀ x, start <= x < pc_max_channels p - 1 → same_parity x start → is_Some (pc_channels p !! x)
  | Panic => False
  end.
Proof.
  intros Hm start. unfold generate_data_channel_id. fold start. rewrite wrap_small by (unfold fits; lia).
  pose proof (next_free_id_spec (S (size (pc_channels p))) (dom (pc_channels p)) (pc_max_channels p - 1) start) as H.
  assert (0 <= start) as H0 by (unfold start; destruct (pc_dtls_client p); lia). specialize (H H0 ltac:(lia)).
  assert (size (filter (λ x : Z, (start <= x)%Z) (dom (pc_channels p))) < S (size (pc_channels p)))%nat as Hf.
  { rewrite <- (size_dom (pc_channels p)). apply Nat.lt_succ_r, subseteq_size. set_solver. }
  specialize (H Hf). destruct (next_free_id _ _ _ _) as [id|e|]; [|destruct H as [-> H]|done].
  - destruct H as (Hr & Hp & Hn & Ha). split_and!; [lia|lia|done|by apply not_elem_of_dom|].
    intros x Hx Hxp. apply elem_of_dom, Ha; [lia|done].
  - split; [done|]. intros x Hx Hxp. by apply elem_of_dom, H.
Qed.

End Identifiers.

(** * The channels of a peer connection over time *)

Section Invariant.
Context {BC : BytesCrate} {OtherMessage OtherEvent Rest : Type} (trigger : Rest → Rest).
Abbreviation DataChannelHandler := (@DataChannelHandler OtherMessage OtherEvent).
Abbreviation TaggedRTCMessage := (@TaggedRTCMessage OtherMessage).
Abbreviation RTCEventInternal := (@RTCEventInternal OtherEvent).
Abbreviation PeerConnection := (@PeerConnection OtherMessage OtherEvent Rest).
Implicit Types h : DataChannelHandler.

(** A call of the application, or of the pipeline *)
Inductive pc_call :=
| CallCreate (label : bytes) (options : option RTCDataChannelInit)
| CallSend (clock id : Z) (text : bool) (payload : bytes)
| CallClose (id : Z)
| CallThreshold (id : Z) (t : Threshold)
| CallPassWrites (clock : Z)
| CallRead (clock : Z) (m : TaggedRTCMessage)
| CallEvent (clock : Z) (order : list Z) (e : RTCEventInternal)
| CallPollRead
| CallPollWrite (clock : Z) (order : list Z)
| CallPollEvent.

Definition call (c : pc_call) (p : PeerConnection) : PeerConnection :=
  match c with
  | CallCreate label options => (create_data_channel trigger label options p).2
  | CallSend clock id text payload => (send clock id text payload p).2
  | CallClose id => (close_channel id p).2
  | CallThreshold id t => (set_threshold id t p).2
  | CallPassWrites clock => pass_writes clock p
  | CallRead clock m => p <| pc_handler ::= λ h, (dch_handle_read clock m h).2 |>
  | CallEvent clock order e => p <| pc_handler ::= λ h, (dch_handle_event clock order e h).2 |>
  | CallPollRead => p <| pc_handler ::= λ h, (dch_poll_read h).2 |>
  | CallPollWrite clock order => p <| pc_handler ::= λ h, (dch_poll_write clock order h).2 |>
  | CallPollEvent => p <| pc_handler ::= λ h, (dch_poll_event h).2 |>
  end.

Definition run_calls (cs : list pc_call) (p : PeerConnection) : PeerConnection := foldl (λ p c, call c p) p cs.

(** The transport side of channel [id]: everything it sends is for its stream; [clean] when no
    received message waits in it. *)
Record dc_wf (clean : bool) (id : Z) (dc : DataChannel) : Prop := {
  dcw_stream : dc_stream_id dc = id;
  dcw_clean : clean = true → dc_read_outs dc = [];
  dcw_writes : Forall (λ m, dcm_stream_id m = id) (dc_write_outs dc)
}.

(** The state of a channel agrees with its transport side: there is none while it is connecting,
    and there is one when it is open.  [Closing] is never seen. *)
Record channel_wf (clean : bool) (id : Z) (c : RTCDataChannelInternal) : Prop := {
  cw_id : di_id c = id;
  cw_state : di_ready_state c ∈ [Connecting; Open; Closed];
  cw_connecting : di_ready_state c = Connecting → di_data_channel c = None;
  cw_open : di_ready_state c = Open → is_Some (di_data_channel c);
  cw_channel : ∀ dc, di_data_channel c = Some dc → dc_wf clean id dc
}.

Definition handler_wf (h : DataChannelHandler) : Prop := map_Forall (channel_wf true) (dh_data_channels h).

Lemma map_Forall_alter {A} (P : Z → A → Prop) f i (m : gmap Z A) :
  map_Forall P m → (∀ a, m !! i = Some a → P i a → P i (f a)) → map_Forall P (alter f i m).
Proof.
  intros Hm Hf j b. rewrite lookup_alter. case_decide as E; [subst j|by apply Hm].
  destruct (m !! i) as [a|] eqn:Ea; [|done]. intros [= <-]. by apply Hf; [|apply Hm].
Qed.

Lemma write_dcep_wf clean id m dc : dc_wf clean id dc → dc_wf clean id (write_dcep m dc).2.
Proof.
  intros [Hs Hc Hw]. rewrite write_dcep_eq. cbn [snd]. split; record_simpl; [done..|].
  apply Forall_app. split; [done|]. by repeat constructor.
Qed.

Lemma dc_handle_read_wf id m dc : dc_wf true id dc →
  dc_wf false id (dc_handle_read m dc).2 ∧
  ((dc_handle_read m dc).1 ≠ Ok tt → dc_wf true id (dc_handle_read m dc).2).
Proof.
  intros Hw. unfold dc_handle_read. cbv zeta. set (dc1 := dc <| dc_messages_received ::= _ |> <| dc_bytes_received ::= _ |>).
  assert (dc_wf true id dc1) as H1 by (destruct Hw; subst dc1; split; by record_simpl). clearbody dc1.
  destruct (is_dcep (dcm_ppi m)).
  - assert (dc_wf true id (handle_dcep (dcm_payload m) dc1).2) as H2.
    { unfold handle_dcep, sbind, slift. destruct (message_unmarshal (dcm_payload m)) as [[[t| | |o] r]|e|]; try done. by apply write_dcep_wf. }
    split; [|done]. destruct H2 as [Hs _ Hr]. by split.
  - destruct H1 as [Hs Hc Hr]. split; [|done]. by split; record_simpl.
Qed.

Lemma drained_wf clean id dc : dc_wf clean id dc → dc_wf clean id (dc <| dc_write_outs := [] |>).
Proof. intros [Hs Hc Hw]. split; record_simpl; [done..|constructor]. Qed.

(** Replacing the transport side of a channel that has one *)
Lemma channel_wf_transport clean clean' id c dc dc' :
  channel_wf clean id c → di_data_channel c = Some dc → dc_wf clean' id dc' →
  channel_wf clean' id (c <| di_data_channel := Some dc' |>).
Proof.
  intros [Hi Hs Hn Ho Hc] Hd Hw. split; record_simpl; [done|done|intros E; apply Hn in E; congruence|done|]. by intros ? [= <-].
Qed.

Lemma drain_writes_wf clock id h : handler_wf h → handler_wf (drain_writes clock id h).
Proof.
  intros Hh. unfold drain_writes. destruct (dh_data_channels h !! id) as [c|] eqn:Ec; [|done].
  destruct (di_data_channel c) as [dc|] eqn:Ed; [|done]. unfold handler_wf. record_simpl.
  apply map_Forall_insert_2; [|done]. eapply channel_wf_transport; [by apply Hh|done|].
  apply drained_wf. by apply (cw_channel _ _ _ (Hh id c Ec)).
Qed.

Lemma deliver_channels now id l q (h : DataChannelHandler) m : dh_data_channels (deliver now id l q h m) = dh_data_channels h.
Proof. done. Qed.

Lemma deliver_all_channels now id l q ms (h : DataChannelHandler) : dh_data_channels (foldl (deliver now id l q) h ms) = dh_data_channels h.
Proof. revert h. induction ms as [|m ms IH]; intros h; [done|]. cbn [foldl]. by rewrite IH. Qed.

(** Every channel but [id] is as it should be, and [id] may hold received messages. *)
Lemma drain_reads_wf now id c (h : DataChannelHandler) :
  dh_data_channels h !! id = Some c → channel_wf false id c →
  map_Forall (λ j c, j ≠ id → channel_wf true j c) (dh_data_channels h) →
  handler_wf (drain_reads now id h).
Proof.
  intros Hc Hw Hm. unfold drain_reads. rewrite Hc. destruct (di_data_channel c) as [dc|] eqn:Ed.
  - unfold handler_wf. rewrite deliver_all_channels. record_simpl. intros j cj. rewrite lookup_insert. case_decide as E.
    + subst j. intros [= <-]. eapply channel_wf_transport; [done|done|].
      destruct (cw_channel _ _ _ Hw dc Ed) as [Hs _ Hws]. by split; record_simpl.
    + intros Hj. by apply (Hm j).
  - intros j cj Hj. destruct (decide (j = id)) as [->|Hne]; [|by apply (Hm j)].
    assert (cj = c) as -> by congruence. destruct Hw as [Hi Hs Hn Ho Hcc]. split; [done..|]. intros dc Hdc. congruence.
Qed.

Lemma di_accept_wf ah id ppi buf c : di_accept ah id ppi buf = Ok c → channel_wf true id c.
Proof.
  unfold di_accept, accept. intros E. apply res_bind_inv in E as (dc & Ea & E).
  assert (dc_wf true id dc) as Hw.
  { destruct (negb (is_dcep ppi)); [done|]. res_inv. destruct a as [m r]. destruct m as [t| | |o]; try done. res_inv.
    unfold write_data_channel_ack in Ea. revert Ea. rewrite write_dcep_eq. cbn [rbind]. intros Ea. injection Ea as <-.
    split; record_simpl; [done..|]. repeat constructor. }
  destruct (get_reliability_params (dcc_channel_type (dc_config dc))) as [u t]. injection E as <-.
  split; record_simpl; [done|set_solver|done|by eexists|]. by intros ? [= <-].
Qed.

Lemma dch_handle_read_wf clock m h : handler_wf h → handler_wf (dch_handle_read clock m h).2.
Proof.
  intros Hh. unfold dch_handle_read. destruct (rtc_message m) as [[b|d|a]|o]; [exact Hh| |exact Hh|exact Hh].
  unfold sbind, receive, smodify. set (id := dcm_stream_id d). destruct (dh_data_channels h !! id) as [c|] eqn:Ec.
  - destruct (di_data_channel c) as [dc|] eqn:Ed; [|exact Hh].
    assert (dc_wf true id dc) as Hdc by (by apply (cw_channel _ _ _ (Hh id c Ec))).
    destruct (dc_handle_read_wf id d dc Hdc) as [Hw Hwe].
    destruct (dc_handle_read d dc) as [[[]|e|] dc'] eqn:Er; cbn [fst snd] in *.
    + apply drain_writes_wf. apply (drain_reads_wf _ _ (c <| di_data_channel := Some dc' |>)).
      * record_simpl. apply lookup_insert_eq.
      * by eapply channel_wf_transport; [apply Hh|..].
      * record_simpl. intros j cj Hj Hne. rewrite lookup_insert_ne in Hj by done. by apply Hh.
    + unfold handler_wf. record_simpl. apply map_Forall_insert_2; [|done]. by eapply channel_wf_transport; [apply Hh|..|apply Hwe].
    + unfold handler_wf. record_simpl. apply map_Forall_insert_2; [|done]. by eapply channel_wf_transport; [apply Hh|..|apply Hwe].
  - destruct (di_accept _ _ _ _) as [c|e|] eqn:Ea; [|exact Hh|exact Hh]. apply di_accept_wf in Ea.
    apply drain_writes_wf. apply (drain_reads_wf _ _ c).
    + record_simpl. apply lookup_insert_eq.
    + destruct Ea as [Hi Hs Hn Ho Hc]. split; [done..|]. intros dc Hdc. destruct (Hc dc Hdc). by split.
    + record_simpl. intros j cj Hj Hne. rewrite lookup_insert_ne in Hj by done. by apply Hh.
Qed.

Lemma dch_handle_write_wf clock m h : handler_wf h → handler_wf (dch_handle_write clock m h).2.
Proof.
  intros Hh. unfold dch_handle_write. destruct (rtc_message m) as [[b|d|a]|o]; [exact Hh|exact Hh| |exact Hh].
  destruct (data_channel_event a) as [|msg|]; [exact Hh| |exact Hh]. cbv zeta.
  destruct (dh_data_channels h !! data_channel_id a) as [c|] eqn:Ec; [|exact Hh].
  destruct (di_data_channel c) as [dc|] eqn:Ed; [|exact Hh]. cbn [snd]. apply drain_writes_wf. unfold handler_wf. record_simpl.
  apply map_Forall_insert_2; [|done]. eapply channel_wf_transport; [by apply Hh|done|].
  destruct (cw_channel _ _ _ (Hh _ c Ec) dc Ed) as [Hs Hc Hw]. unfold dc_handle_write. split; record_simpl; [done..|].
  apply Forall_app. split; [done|]. by repeat constructor.
Qed.

Lemma write_all_wf clock ms h : handler_wf h → handler_wf (write_all clock ms h).
Proof. revert h. induction ms as [|m ms IH]; intros h Hh; [done|]. cbn [write_all]. by apply IH, dch_handle_write_wf. Qed.

Lemma opened_wf ah id c : channel_wf true id c → channel_wf true id (opened ah c).
Proof.
  intros Hw. unfold opened. destruct (decide (di_ready_state c = Connecting)) as [E|E]; [|done].
  split; record_simpl; [apply Hw|set_solver|done|by eexists|]. intros dc [= <-]. split; cbn; [apply Hw|done|constructor].
Qed.

Lemma open_channels_wf clock ah order h : handler_wf h → handler_wf (open_channels clock ah order h).2.
Proof.
  revert h. induction order as [|id order IH]; intros h Hh; [done|]. cbn [open_channels]. unfold sbind.
  destruct (open_channel_spec clock ah id h) as (h1 & E1 & _ & C1). rewrite E1. apply IH.
  unfold handler_wf. rewrite C1. apply map_Forall_alter; [done|]. intros c _. apply opened_wf.
Qed.

Lemma dch_handle_event_wf clock order e h : handler_wf h → handler_wf (dch_handle_event clock order e h).2.
Proof.
  intros Hh. destruct e as [ah|ah id|ah id n|id|id|id|o]; cbn [dch_handle_event]; try exact Hh.
  - by apply open_channels_wf.
  - destruct (dh_data_channels h !! id); [|exact Hh]. unfold handler_wf. cbn [snd]. record_simpl. by apply map_Forall_delete.
  - unfold handler_wf. cbn [snd]. record_simpl. apply map_Forall_alter; [done|]. intros c _ [Hi Hs Hn Ho Hc]. by split; record_simpl.
Qed.

Lemma drain_all_wf clock order h : handler_wf h → handler_wf (foldl (λ h id, drain_writes clock id h) h order).
Proof. revert h. induction order as [|id order IH]; intros h Hh; [done|]. by apply IH, drain_writes_wf. Qed.

Lemma di_close_wf id c : channel_wf true id c → channel_wf true id (di_close (c <| di_ready_state := Closing |>)).2.
Proof.
  intros [Hi Hs Hn Ho Hc]. unfold di_close. record_simpl. destruct (di_data_channel c) as [dc|] eqn:Ed.
  - unfold dc_close, write_data_channel_close. rewrite write_dcep_eq. cbn [snd]. split; record_simpl; [done|set_solver|done|done|].
    intros dc' [= <-]. destruct (Hc dc eq_refl) as [H1 H2 H3]. split; record_simpl; [done|done|]. apply Forall_app. split; [done|]. by repeat constructor.
  - cbn [snd]. split; record_simpl; [done|set_solver|done|done|]. congruence.
Qed.

Lemma threshold_wf id t c : channel_wf true id c →
  channel_wf true id
    (let c := match t with Low n => c <| di_low_threshold := n |> | High n => c <| di_high_threshold := n |> end in
     match di_data_channel c with
     | Some dc => c <| di_data_channel := Some (write_dcep (DataChannelThreshold t) dc).2 |>
     | None => c
     end).
Proof.
  intros Hw. cbv zeta. set (c1 := match t with Low n => _ | High n => _ end).
  assert (channel_wf true id c1) as H1 by (destruct Hw, t; subst c1; split; by record_simpl). clearbody c1.
  destruct (di_data_channel c1) as [dc|] eqn:Ed; [|done].
  eapply channel_wf_transport; [done|done|]. apply write_dcep_wf. by apply (cw_channel _ _ _ H1).
Qed.

Lemma call_wf cl (p : PeerConnection) : handler_wf (pc_handler p) → handler_wf (pc_handler (call cl p)).
Proof.
  intros Hp. destruct cl as [label o|clock id text payload|id|id t|clock|clock m|clock order e| |clock order| ]; cbn [call].
  - unfold create_data_channel. destruct (pc_closed p); [done|].
    destruct (let! id := _ in _) as [[params id]|e|]; [|done|done]. cbn [snd]. unfold with_channels, handler_wf. record_simpl.
    apply map_Forall_insert_2; [|done]. split; record_simpl; [done|set_solver|done|done|done].
  - unfold send. destruct (pc_channels p !! id) as [c|]; [|done]. cbn [snd]. cbv zeta. unfold with_channels, handler_wf. record_simpl.
    apply map_Forall_alter; [done|]. intros a _ [Hi Hs Hn Ho Hc]. by split; record_simpl.
  - unfold close_channel. destruct (pc_channels p !! id) as [c|] eqn:Ec; [|done]. destruct (decide _); [done|].
    pose proof (di_close_wf id c (Hp id c Ec)) as Hw. destruct (di_close _) as [r c'].
    unfold with_channels, handler_wf. cbn [snd] in *. record_simpl. by apply map_Forall_insert_2.
  - unfold set_threshold. destruct (pc_channels p !! id) as [c|] eqn:Ec; [|done]. cbn [snd]. unfold with_channels, handler_wf. record_simpl.
    apply map_Forall_insert_2; [|done]. apply threshold_wf. by apply Hp.
  - unfold pass_writes. record_simpl. by apply write_all_wf.
  - record_simpl. by apply dch_handle_read_wf.
  - record_simpl. by apply dch_handle_event_wf.
  - record_simpl. unfold dch_poll_read. by destruct (dh_read_outs (pc_handler p)).
  - record_simpl. unfold dch_poll_write. cbv zeta. pose proof (drain_all_wf clock order (pc_handler p) Hp) as Hd.
    set (h := foldl _ _ _) in *. by destruct (dh_write_outs h).
  - record_simpl. unfold dch_poll_event. by destruct (dh_event_outs (pc_handler p)).
Qed.

End Invariant.

Section Agreement.
Context {BC : BytesCrate} {OtherMessage OtherEvent Rest : Type} (trigger : Rest → Rest).
Abbreviation DataChannelHandler := (@DataChannelHandler OtherMessage OtherEvent).
Implicit Types h p : DataChannelHandler.

Definition ack_message (ah id : Z) : DataChannelMessage := mkDcMessage ah id Dcep (message_bytes DataChannelAck) false.

Lemma open_accepted clock now ah id c p :
  parameters_ok c → di_id c = id → dh_data_channels p !! id = None →
  ∃ p' cb, dch_handle_read clock (to_sctp now (arrival ah (open_message ah c))) p = (Ok tt, p') ∧
    dh_data_channels p' !! id = Some cb ∧ di_ready_state cb = Open ∧
    di_label cb = di_label c ∧ di_protocol cb = di_protocol c ∧ di_ordered cb = di_ordered c ∧ idle id p' ∧
    outs p' = (dh_read_outs p ++ [application now id EvOpen], dh_write_outs p ++ [to_sctp clock (ack_message ah id)]).
Proof.
  intros Hok Hid Hp. pose proof (dial_open_ok c Hok) as Ho. destruct (open_of_texts c) as [El Ep]. destruct Hok as ([Hl _] & [Hq _] & _).
  unfold dch_handle_read, to_sctp. cbn [rtc_message rtc_now]. unfold sbind, receive, smodify.
  unfold arrival, open_message. cbn [dcm_stream_id dcm_ppi dcm_payload dcm_association_handle]. rewrite Hid, Hp.
  rewrite <- (app_nil_r (message_bytes (DataChannelOpen (open_of (dial_config c))))).
  rewrite di_accept_eq by (done || by rewrite ?El, ?Ep). rewrite El, Ep. cbv zeta. set (cb := _ <| di_ready_state := Open |>).
  do 2 eexists. split; [reflexivity|].
  erewrite drain_reads_none; [|record_simpl; apply lookup_insert_eq|reflexivity|reflexivity].
  erewrite drain_writes_eq; [|record_simpl; apply lookup_insert_eq|reflexivity].
  unfold outs. record_simpl. split; [apply lookup_insert_eq|].
  assert (negb (get_reliability_params (channel_type (open_of (dial_config c)))).1 = di_ordered c) as Eo.
  { pose proof (announced_eq c) as E. unfold announced in E. apply (f_equal (λ x, x.1.1)) in E. cbn [fst] in E.
    change (channel_type (open_of (dial_config c))) with (dcc_channel_type (dial_config c)). destruct (get_reliability_params _) as [u t]. cbn [fst] in *. by rewrite E, negb_involutive. }
  subst cb. split_and!; try done.
  eapply idle_insert; [| | | |record_simpl; apply lookup_insert_eq]; [record_simpl; reflexivity|by record_simpl..].
Qed.

(** What the other channels send and tell names other streams. *)
Lemma others_elsewhere ah (m : gmap Z RTCDataChannelInternal) id l :
  map_Forall (λ j c, di_id c = j) m → id ∉ l →
  Forall (λ d, dcm_stream_id d ≠ id) (l ≫= dialled ah m) ∧ id ∉ (l ≫= told m).
Proof.
  intros Hm Hl. split; [apply Forall_forall; intros d Hd|intros Hd]; apply list_elem_of_bind in Hd as (j & Hd & Hj);
    unfold dialled, told in Hd; destruct (m !! j) as [c|] eqn:Ec; [|by apply not_elem_of_nil in Hd| |by apply not_elem_of_nil in Hd];
    apply Hm in Ec; (destruct (decide _); [|by apply not_elem_of_nil in Hd]).
  - unfold dial_messages, open_message in Hd. intros E. apply Hl. rewrite !elem_of_cons in Hd.
    destruct Hd as [->|[->|[->|[]%not_elem_of_nil]]]; cbn in E; by rewrite <- E, Ec.
  - apply list_elem_of_singleton in Hd. by rewrite Hd, Ec in Hl.
Qed.

(** What a handler hands over when the association is up: for the channel [id] the OPEN and the two
    thresholds, and the news for the application; the rest is for other channels. *)
Definition opens_channel (clock ah id : Z) (c : RTCDataChannelInternal) h h' : Prop :=
  ∃ ids ids' ms ms',
    outs h' = (dh_read_outs h ++ open_events clock (ids ++ [id] ++ ids'),
               dh_write_outs h ++ (to_sctp clock <$> ms ++ dial_messages ah c ++ ms')) ∧
    id ∉ (ids ++ ids') ∧ Forall (λ d, dcm_stream_id d ≠ id) (ms ++ ms').

Lemma handshake_opens clock ah order h id c :
  NoDup order → id ∈ order → map_Forall (λ j c', di_id c' = j) (dh_data_channels h) →
  dh_data_channels h !! id = Some c → di_ready_state c = Connecting →
  ∃ h' ca, dch_handle_event clock order (SCTPHandshakeComplete ah) h = (Ok tt, h') ∧ opens_channel clock ah id c h h' ∧
    dh_data_channels h' !! id = Some ca ∧ di_ready_state ca = Open ∧
    (di_label ca, di_protocol ca, di_ordered ca) = (di_label c, di_protocol c, di_ordered c) ∧ idle id h'.
Proof.
  intros Hn Hin Hm Hc Hs. pose proof (Hm _ _ Hc) as Hid. cbn beta in Hid. cbn [dch_handle_event]. destruct (open_channels_spec clock ah order h Hn) as (h' & E & W & C).
  specialize (C id). rewrite decide_True, Hc in C by done. cbn [fmap option_fmap option_map] in C. unfold opened in C. rewrite decide_True in C by done.
  exists h'. eexists. split_and!; [done| |done|by record_simpl|by record_simpl|].
  - apply list_elem_of_split in Hin as (o1 & o2 & ->). apply NoDup_app in Hn as (_ & Hn1 & [Hn2 _]%NoDup_cons).
    assert (id ∉ (o1 ++ o2)) as Ho. { rewrite elem_of_app. intros [Hi|Hi]; [|done]. apply (Hn1 id Hi). by left. }
    destruct (others_elsewhere ah (dh_data_channels h) id (o1 ++ o2) Hm Ho) as [F1 F2]. rewrite bind_app in F1. rewrite bind_app in F2.
    do 4 eexists. split; [|split; [exact F2|exact F1]]. rewrite W, !bind_app. csimpl.
    assert (told (dh_data_channels h) id = [id]) as -> by (unfold told; rewrite Hc, decide_True by done; by rewrite Hid).
    assert (dialled ah (dh_data_channels h) id = dial_messages ah c) as -> by (unfold dialled; by rewrite Hc, decide_True).
    done.
  - eapply idle_insert; [| | | |exact C]; [record_simpl; reflexivity|done..].
Qed.

End Agreement.

(** C15: opening a channel makes both peers agree on it.  When the association is up, a connecting
    channel that was not negotiated out of band becomes open: for it the handler hands to SCTP its
    OPEN, marked as one to be sent, and the two thresholds of its buffer, which are for the SCTP
    handler of this side only, and nothing else, and tells the application; what else it hands over is for other channels.  The peer
    that gets the OPEN, and has no channel with this identifier, opens one with the same label,
    protocol and order of delivery, tells its application, and answers with an ACK and nothing else;
    the ACK is accepted without any output.  Afterwards both handlers have a channel that is ready
    for messages. *)
Theorem channel_agreement `{BytesCrate} {OtherMessage OtherEvent} clock clock' now now' ah ah' order
    (h p : @DataChannelHandler OtherMessage OtherEvent) id c :
  NoDup order → id ∈ order → map_Forall (λ j c', di_id c' = j) (dh_data_channels h) →
  dh_data_channels h !! id = Some c → di_ready_state c = Connecting → di_negotiated c = false →
  parameters_ok c → dh_data_channels p !! id = None →
  ∃ h' p' ca cb,
    dch_handle_event clock order (SCTPHandshakeComplete ah) h = (Ok tt, h') ∧
    opens_channel clock ah id c h h' ∧ dcm_negotiated (open_message ah c) = false ∧
    dh_data_channels h' !! id = Some ca ∧ di_ready_state ca = Open ∧ idle id h' ∧
    di_label ca = di_label c ∧ di_protocol ca = di_protocol c ∧ di_ordered ca = di_ordered c ∧
    dch_handle_read clock' (to_sctp now (arrival ah' (open_message ah c))) p = (Ok tt, p') ∧
    dh_data_channels p' !! id = Some cb ∧ di_ready_state cb = Open ∧ idle id p' ∧
    di_label cb = di_label c ∧ di_protocol cb = di_protocol c ∧ di_ordered cb = di_ordered c ∧
    outs p' = (dh_read_outs p ++ [application now id EvOpen], dh_write_outs p ++ [to_sctp clock' (ack_message ah' id)]) ∧
    ∃ h'', dch_handle_read clock (to_sctp now' (arrival ah (ack_message ah' id))) h' = (Ok tt, h'') ∧
           idle id h'' ∧ outs h'' = outs h'.
Proof.
  intros Hn Hin Hm Hc Hs Hneg Hok Hp. pose proof (Hm _ _ Hc) as Hid. cbn beta in Hid.
  destruct (handshake_opens clock ah order h id c) as (h' & ca & E1 & W1 & C1 & S1 & T1 & I1); [done..|]. injection T1 as T1 T2 T3.
  destruct (open_accepted clock' now ah' id c p) as (p' & cb & E2 & C2 & S2 & L2 & P2 & O2 & I2 & U2); [done..|].
  destruct (read_ack clock now' id (arrival ah (ack_message ah' id)) h') as (h'' & E3 & I3 & U3); [done..|].
  exists h', p', ca, cb. split_and!; try done. by exists h''.
Qed.

(** The messages of a channel reach the application of the peer completely, in their order and
    with their kind.  Any messages the application sends on an open channel are each handed to SCTP
    as one message of the stream of the channel; fed to the handler of the peer in this order they
    give exactly the messages that were sent, and nothing is sent back.  An empty message is the
    exception: it arrives as one zero octet. *)
Theorem messages_in_order `{BytesCrate} {OtherMessage OtherEvent} clock clock' now now' ah id ms
    (h p : @DataChannelHandler OtherMessage OtherEvent) :
  idle id h → idle id p →
  ∃ sent,
    outs (write_all clock ((λ m, application now id (EvMessage m)) <$> ms) h) =
      (dh_read_outs h, dh_write_outs h ++ (to_sctp clock <$> sent)) ∧
    Forall (λ d, dcm_stream_id d = id) sent ∧ length sent = length ms ∧
    outs (read_all clock' ((λ d, to_sctp now' (arrival ah d)) <$> sent) p) =
      (dh_read_outs p ++ ((λ m, application now' id (EvMessage (delivered m))) <$> ms), dh_write_outs p).
Proof.
  intros Hh Hp. destruct (messages_sent clock now id ms h Hh) as (sent & _ & HF & E). exists sent. split_and!; [done| | |].
  - clear E. induction HF as [|d m sent ms [ah' ->] _ IH]; by constructor.
  - by eapply Forall2_length.
  - by apply messages_received.
Qed.

(** The identifier chosen for a new channel is the smallest one that is free and has the parity
    of the DTLS role, even for the client and odd otherwise, below the limit of the transport; only
    when all of these are in use the call fails, with [ErrMaxDataChannelID].  The search ends after
    at most one turn more than there are channels. *)
Theorem data_channel_ids {OtherMessage OtherEvent Rest} (p : @PeerConnection OtherMessage OtherEvent Rest) :
  1 <= pc_max_channels p <= 65535 →
  let start := if pc_dtls_client p then 0 else 1 in
  match generate_data_channel_id p with
  | Ok id => start <= id < pc_max_channels p - 1 ∧ same_parity id start ∧ pc_channels p !! id = None ∧
             ∀ x, start <= x < id → same_parity x start → is_Some (pc_channels p !! x)
  | Err e => e = ErrMaxDataChannelID ∧
             ∀ x, start <= x < pc_max_channels p - 1 → same_parity x start → is_Some (pc_channels p !! x)
  | Panic => False
  end.
Proof. apply generated_id. Qed.

(** C30: whatever calls the application and the pipeline make, in whatever order, the channels of a
    peer connection stay well formed: each is filed under its own identifier, is connecting, open
    or closed, has no transport side while it is connecting and has one when it is open; what waits
    in a channel to be sent is for its own stream, and no received message waits in it. *)
Theorem channels_stay_well_formed `{BytesCrate} {OtherMessage OtherEvent Rest} (trigger : Rest → Rest)
    (cs : list (@pc_call OtherMessage OtherEvent)) p :
  pc_channels p = ∅ → map_Forall (channel_wf true) (pc_channels (run_calls trigger cs p)).
Proof.
  intros Hp. assert (handler_wf (pc_handler p)) as Hw by (unfold handler_wf; unfold pc_channels in Hp; rewrite Hp; apply map_Forall_empty).
  clear Hp. revert p Hw. induction cs as [|c cs IH]; intros p Hw; [exact Hw|]. apply IH. by apply call_wf.
Qed.

Section Examples.
#[local] Existing Instance BigEndian.big_endian.
Abbreviation handler := (@DataChannelHandler unit unit).
Abbreviation peer := (@PeerConnection unit unit unit).

Definition no_channels : handler := mkDcHandler [] [] [] ∅ (mkDcAccumulator 0 0 ∅).
Definition chat_options : RTCDataChannelInit := mkInit true None (Some 3) [112] None.
Definition chat_channel : RTCDataChannelInternal := di_new 1 (mkDcParams [99; 104] [112] true None (Some 3) None).
Definition dialer : handler := mkDcHandler [] [] [] {[1 := chat_channel]} (mkDcAccumulator 0 0 ∅).
Definition fresh_peer (client : bool) : peer := mkPeerConnection false client 65535 [] no_channels tt.

Lemma channel_agreement_witness :
  ∃ p' cb, dch_handle_read 7 (to_sctp 6 (arrival 0 (open_message 0 chat_channel))) no_channels = (Ok tt, p') ∧
    dh_data_channels p' !! 1 = Some cb ∧ di_label cb = [99; 104] ∧ di_ordered cb = true ∧ idle 1 p'.
Proof.
  destruct (channel_agreement (OtherMessage := unit) (OtherEvent := unit) 5 7 6 8 0 0 [1] dialer no_channels 1 chat_channel)
    as (h' & p' & ca & cb & _ & _ & _ & _ & _ & _ & _ & _ & _ & E & C & _ & I & L & _ & O & _).
  - apply NoDup_singleton.
  - by apply list_elem_of_singleton.
  - by apply map_Forall_singleton.
  - reflexivity.
  - reflexivity.
  - reflexivity.
  - split_and!; vm_compute; intuition congruence.
  - reflexivity.
  - exists p', cb. split_and!; [exact E|exact C|exact L|exact O|exact I].
Defined.

Definition open_handler : handler :=
  mkDcHandler [] [] [] {[1 := chat_channel <| di_data_channel := Some (dc_new (dial_config chat_channel) 0 1) |> <| di_ready_state := Open |>]}
    (mkDcAccumulator 0 0 ∅).

Lemma open_handler_idle : idle 1 open_handler.
Proof. eapply idle_insert; [| | | |apply lookup_singleton_eq]; [record_simpl; reflexivity|done..]. Qed.

Lemma messages_in_order_witness :
  ∃ sent, length sent = 2%nat ∧
    outs (read_all 4 ((λ d, to_sctp 3 (arrival 0 d)) <$> sent) open_handler) =
    ([application 3 1 (EvMessage (mkAppMessage true [104; 105])); application 3 1 (EvMessage (mkAppMessage false [0; 255]))], []).
Proof.
  destruct (messages_in_order (OtherMessage := unit) (OtherEvent := unit) 1 4 2 3 0 1
              [mkAppMessage true [104; 105]; mkAppMessage false [0; 255]] open_handler open_handler)
    as (sent & _ & _ & L & E); [apply open_handler_idle..|].
  exists sent. split; [exact L|exact E].
Defined.

Lemma data_channel_ids_witness :
  match generate_data_channel_id (fresh_peer true) with Ok id => 0 <= id < 65534 | _ => True end.
Proof.
  pose proof (data_channel_ids (fresh_peer true)) as E. specialize (E ltac:(cbn; lia)). cbv zeta in E.
  destruct (generate_data_channel_id (fresh_peer true)) as [id|e|]; [|exact I|exact I]. exact (proj1 E).
Defined.

Lemma channels_stay_well_formed_witness :
  map_Forall (channel_wf true)
    (pc_channels (run_calls (λ _, tt)
       [CallCreate [99; 104] (Some chat_options); CallEvent 1 [1] (SCTPHandshakeComplete 0); CallSend 2 1 true [104; 105];
        CallPassWrites 3; CallClose 1] (fresh_peer false))).
Proof. apply channels_stay_well_formed. reflexivity. Defined.

(** Before the DTLS roles are known neither peer is the client: two peers that each create a channel
    then choose the same identifier, *)
Lemma ids_collide_before_dtls :
  generate_data_channel_id (fresh_peer false) = Ok 1 ∧
  ∀ label label', dh_data_channels (pc_handler (create_data_channel (λ _, tt) label None (fresh_peer false)).2) !! 1 ≠ None ∧
                  dh_data_channels (pc_handler (create_data_channel (λ _, tt) label' None (fresh_peer false)).2) !! 1 ≠ None.
Proof. split; [reflexivity|]. intros label label'. split; by vm_compute. Qed.

(** and the OPEN of the one, which finds the channel of the other, opens nothing: it is only acknowledged. *)
Lemma colliding_open_absorbed :
  outs (dch_handle_read 7 (to_sctp 6 (arrival 0 (open_message 0 (di_new 1 (mkDcParams [120] [] false None None None))))) open_handler).2
  = ([], [to_sctp 7 (ack_message 0 1)]).
Proof. by vm_compute. Qed.

(** A channel created without options is unordered. *)
Lemma default_channel_unordered label :
  di_ordered <$> (pc_channels (create_data_channel (λ _, tt) label None (fresh_peer false)).2 !! 1) = Some false.
Proof. by vm_compute. Qed.

(** A message sent before the channel is open is dropped with a logged error, and stays counted in [outstanding_bytes]. *)
Lemma early_send_leaks :
  let p := run_calls (λ _, tt) [CallCreate [99; 104] None; CallSend 2 1 true [104; 105]; CallPassWrites 3] (fresh_peer false) in
  outstanding_bytes 1 p = 2 ∧ outs (pc_handler p) = ([], []) ∧ pc_endpoint_writes p = [].
Proof. by vm_compute. Qed.

(** The octets of the OPEN are released like those of the messages, but were never counted: while 20
    octets are still in SCTP, [outstanding_bytes] says 8. *)
Lemma open_released_uncounted :
  let p := run_calls (λ _, tt)
             [CallCreate [] None; CallEvent 1 [1] (SCTPHandshakeComplete 0); CallSend 2 1 false (replicate 20 0); CallPassWrites 3;
              CallEvent 4 [1] (SCTPBufferReleased 0 1 (len (dcm_payload (open_message 0 (di_new 1 (mkDcParams [] [] false None None None))))))]
             (fresh_peer false) in
  outstanding_bytes 1 p = 8.
Proof. by vm_compute. Qed.

(** A negotiated channel replaces an open one with the same identifier. *)
Lemma negotiated_replaces :
  let p := run_calls (λ _, tt) [CallCreate [97] (Some chat_options); CallCreate [98] (Some (mkInit true None None [] (Some 1)))] (fresh_peer false) in
  di_label <$> (pc_channels p !! 1) = Some [98] ∧ size (pc_channels p) = 1%nat.
Proof. by vm_compute. Qed.

(** The limit of retransmissions of the peer that opened the channel is not kept by the one that accepts it. *)
Lemma accepted_limit_dropped :
  di_max_retransmits chat_channel = Some 3 ∧
  (let! c := di_accept 0 1 Dcep (dcm_payload (open_message 0 chat_channel)) in Ok (di_max_retransmits c)) = Ok None.
Proof. by vm_compute. Qed.

End Examples.
