(* ===== verification/SctpHandler.v ===== *)
(** The handler between data channels and the SCTP association,
    [rtc/src/peer_connection/handler/sctp.rs]: messages of data channels are written to streams,
    DCEP messages open, configure and close them, and the events of an association become messages
    for the data channel handler.  With [RTCSctpTransport::calc_message_size] of
    [transport/sctp/mod.rs], which sets the largest message.

    The calls of a stream are those of [SctpAssoc]; here are the two that set its thresholds. *)

From S2P Require Import Prelude Codec SctpChunk SctpQueue SctpReassembly SctpStream SctpAssoc SctpDelivery Dcep DataChannel.

(** * Streams of an association *)

(** [conn.stream(id)?] *)
Definition assoc_stream (id : Z) : sm Association unit := λ a,
  (if bool_decide (is_Some (a_streams a !! id)) then Ok tt else Err ErrStreamNotExisted, a).

Definition with_stream (id : Z) (f : StreamState → StreamState) : sm Association unit := λ a,
  match a_streams a !! id with
  | Some s => (Ok tt, a <| a_streams ::= <[id := f s]> |>)
  | None => (Err ErrStreamClosed, a)
  end.

Definition stream_set_low_threshold (id th : Z) : sm Association unit :=
  with_stream id (λ s, s <| ss_buffered_amount_low := th |>).
Definition stream_set_high_threshold (id th : Z) : sm Association unit :=
  with_stream id (λ s, s <| ss_buffered_amount_high := th |>).

(** * [calc_message_size] *)

Definition calc_message_size (remote_max_message_size can_send_size : Z) : Z :=
  if (remote_max_message_size =? 0) && (can_send_size =? 0) then 2 ^ 32 - 1
  else if remote_max_message_size =? 0 then can_send_size
  else if (can_send_size =? 0) || (remote_max_message_size <? can_send_size) then remote_max_message_size
  else can_send_size.

Section SctpHandler.
Context {BC : BytesCrate} {OtherMessage OtherEvent : Type}.
Abbreviation TaggedRTCMessage := (@TaggedRTCMessage OtherMessage).
Abbreviation RTCEventInternal := (@RTCEventInternal OtherEvent).

(** [SctpHandlerContext]; [sx_buffer_len] is the length of [internal_buffer]. *)
Record SctpHandler := mkSctpHandler {
  sx_associations : gmap Z Association;
  sx_buffer_len : Z;
  sx_read_outs : list TaggedRTCMessage;
  sx_write_outs : list TaggedRTCMessage;
  sx_event_outs : list RTCEventInternal;
  sx_flush_dirty : bool;
  sx_last_now : option Z
}.

Definition sx_eta (h : SctpHandler) : SctpHandler :=
  mkSctpHandler (sx_associations h) (sx_buffer_len h) (sx_read_outs h) (sx_write_outs h) (sx_event_outs h)
    (sx_flush_dirty h) (sx_last_now h).
#[export] Instance set_sx_associations : Setter sx_associations.
Proof. make_setter sx_eta sx_associations. Defined.
#[export] Instance set_sx_write_outs : Setter sx_write_outs.
Proof. make_setter sx_eta sx_write_outs. Defined.
#[export] Instance set_sx_event_outs : Setter sx_event_outs.
Proof. make_setter sx_eta sx_event_outs. Defined.
#[export] Instance set_sx_flush_dirty : Setter sx_flush_dirty.
Proof. make_setter sx_eta sx_flush_dirty. Defined.
#[export] Instance set_sx_last_now : Setter sx_last_now.
Proof. make_setter sx_eta sx_last_now. Defined.

(** A call of the association [ah], which exists *)
Definition on_conn {A} (ah : Z) (op : sm Association A) : sm SctpHandler A := λ h,
  match sx_associations h !! ah with
  | Some conn => let '(r, conn) := op conn in (r, h <| sx_associations ::= <[ah := conn]> |>)
  | None => (Err ErrAssociationNotExisted, h)
  end.

(** The reaction to a DCEP message; [true] for one that is not sent to the peer *)
Definition dcep_control (message : DataChannelMessage) : sm SctpHandler bool :=
  let ah := dcm_association_handle message in
  let id := dcm_stream_id message in
  do! (dcep_message, _) <- slift (message_unmarshal (dcm_payload message));
  match dcep_message with
  | DataChannelOpen data_channel_open =>
      let '(unordered, reliability_type) := get_reliability_params (channel_type data_channel_open) in
      do! _ <- on_conn ah (do! _ <- open_stream id (dcm_ppi message);
                           set_reliability_params id unordered reliability_type (reliability_parameter data_channel_open));
      sret (dcm_negotiated message)
  | DataChannelClose =>
      do! _ <- on_conn ah (do! _ <- assoc_stream id; stream_close id);
      do! _ <- smodify (λ h, h <| sx_event_outs ::= λ q, q ++ [SCTPStreamClosed ah id] |>);
      sret true
  | DataChannelThreshold t =>
      do! _ <- on_conn ah (do! _ <- assoc_stream id;
                           match t with
                           | Low th => stream_set_low_threshold id th
                           | High th => stream_set_high_threshold id th
                           end);
      sret true
  | DataChannelAck => sret false
  end.

Definition sctp_handle_write (msg : TaggedRTCMessage) : sm SctpHandler unit := λ h,
  match rtc_message msg with
  | MDtls (DtlsSctp message) =>
      let ah := dcm_association_handle message in
      let id := dcm_stream_id message in
      if sx_buffer_len h <? len (dcm_payload message) then (Err ErrOutboundPacketTooLarge, h)
      else if bool_decide (is_Some (sx_associations h !! ah)) then
        (do! is_dcep_internal_control_message <-
           (if is_dcep (dcm_ppi message) then dcep_control message else sret false);
         do! _ <- on_conn ah (λ a,
           (do! _ <- assoc_stream id;
            if negb is_dcep_internal_control_message && stream_is_writable id a
            then do! _ <- stream_write id (dcm_payload message) (dcm_ppi message); sret tt
            else sret tt) a);
         smodify (λ h, h <| sx_flush_dirty := true |> <| sx_last_now := Some (rtc_now msg) |>)) h
      else (Err ErrAssociationNotExisted, h)
  | _ => (Ok tt, h <| sx_write_outs ::= λ q, q ++ [msg] |>)
  end.

(** [while let Some(chunks) = stream.read_sctp()? { .. }]: each turn takes a message out of the
    reassembly queue of the stream. *)
Fixpoint read_stream (fuel : nat) (ah id max_len : Z) : sm Association (list DataChannelMessage) :=
  match fuel with
  | O => slift Panic
  | S fuel =>
      do! chunks <- stream_read id;
      match chunks with
      | Some chunks =>
          do! payload <- slift (to_payload chunks max_len);
          do! ms <- read_stream fuel ah id max_len;
          sret (mkDcMessage ah id (cs_ppi chunks) payload false :: ms)
      | None => sret []
      end
  end.

Definition queued_messages (id : Z) (a : Association) : nat :=
  match a_streams a !! id with
  | Some s => length (ordered (ss_reassembly_queue s)) + length (rq_unordered (ss_reassembly_queue s))
  | None => 0
  end.

(** One event of an association: the messages and the events it gives *)
Definition association_event (ah max_len : Z) (event : Event) : sm Association (list DataChannelMessage * list RTCEventInternal) := λ a,
  match event with
  | Connected => (Ok ([], [SCTPHandshakeComplete ah]), a)
  | AssociationLost _ id => (Ok ([], [SCTPStreamClosed ah id]), a)
  | EStream (Readable id) =>
      (do! _ <- assoc_stream id;
       do! ms <- read_stream (S (queued_messages id a)) ah id max_len;
       sret (ms, [])) a
  | EStream (BufferedAmountLow id) => (Ok ([], [OnBufferedAmountLow id]), a)
  | EStream (BufferedAmountHigh id) => (Ok ([], [OnBufferedAmountHigh id]), a)
  | EStream (BufferedAmountReleased id n_bytes) => (Ok ([], [SCTPBufferReleased ah id n_bytes]), a)
  | _ => (Ok ([], []), a)
  end.

End SctpHandler.

(** * Opening a channel configures its stream *)

Section Opening.
Context {BC : BytesCrate} {OtherMessage OtherEvent : Type}.
Abbreviation SctpHandler := (@SctpHandler OtherMessage OtherEvent).
Implicit Types h : SctpHandler.

(** The handler takes messages one after the other, each without an error. *)
Fixpoint sctp_writes (ms : list (@TaggedRTCMessage OtherMessage)) : sm SctpHandler unit :=
  match ms with
  | [] => sret tt
  | m :: ms => do! _ <- sctp_handle_write m; sctp_writes ms
  end.

(** [h'] is [h] with the association [ah] changed and the transmissions due. *)
Record written_to (ah : Z) (a' : Association) h h' : Prop := {
  wt_associations : sx_associations h' = <[ah := a']> (sx_associations h);
  wt_writes : sx_write_outs h' = sx_write_outs h;
  wt_events : sx_event_outs h' = sx_event_outs h;
  wt_buffer : sx_buffer_len h' = sx_buffer_len h;
  wt_dirty : sx_flush_dirty h' = true
}.

Lemma on_conn_eq {A} ah a (op : sm Association A) h :
  sx_associations h !! ah = Some a →
  on_conn ah op h = ((op a).1, h <| sx_associations ::= <[ah := (op a).2]> |>).
Proof. intros E. unfold on_conn. rewrite E. by destruct (op a). Qed.

Lemma assoc_stream_Ok id a s : a_streams a !! id = Some s → assoc_stream id a = (Ok tt, a).
Proof. intros E. unfold assoc_stream. rewrite bool_decide_true; [done|]. by rewrite E. Qed.

Lemma stream_writable id a s : a_streams a !! id = Some s → ss_state s = StreamReadWritable → stream_is_writable id a = true.
Proof. intros E Es. unfold stream_is_writable. by rewrite E, Es. Qed.

(** Writing a message on a stream that is open, when the high threshold stays out of reach *)
Lemma stream_write_eq id p ppi a s :
  a_streams a !! id = Some s → ss_state s = StreamReadWritable → a_state a = Established →
  0 < ss_max_payload_size s → len p <= a_max_message_size a →
  ss_buffered_amount s + len p < ss_buffered_amount_high s → 0 <= ss_buffered_amount s → ss_buffered_amount_high s < 2 ^ 64 →
  ∃ cs s', packetize s p ppi = Ok (false, cs, s') ∧ payload cs = p ∧
    Forall (fragment_of s ppi (negb (is_dcep ppi) && ss_unordered s)) cs ∧
    s' = s <| ss_sequence_number := if negb (is_dcep ppi) && ss_unordered s then ss_sequence_number s else u16 (ss_sequence_number s + 1) |>
           <| ss_buffered_amount := ss_buffered_amount s + len p |> ∧
    stream_write id p ppi a =
      (Ok (len p), a <| a_streams ::= <[id := s']> |> <| a_pending_queue ::= λ q, foldl pending_push q cs |>).
Proof.
  intros Es Hst Ha Hm Hl Hh H0 H64. pose proof (len_nonneg p).
  destruct (packetize_eq s p ppi Hm) as (high & cs & s' & E & Hp & Hf & _ & Hs' & Hhigh).
  rewrite wrap_small in Hs', Hhigh by (unfold fits; lia). rewrite (proj2 (Z.leb_gt _ _)), andb_false_r in Hhigh by lia. subst high.
  exists cs, s'. split_and!; [done..|]. unfold stream_write.
  rewrite (stream_writable id a s Es Hst). cbn [negb]. rewrite (proj2 (Z.ltb_ge _ _)) by lia. rewrite Ha. cbn [is_drained].
  rewrite Es, E. cbv zeta iota. unfold sbind, send_payload_data, sret. record_simpl. by rewrite decide_True.
Qed.

(** A threshold: it is set on the stream, and nothing is sent. *)
Lemma write_threshold clock ah id t a s h :
  sx_associations h !! ah = Some a → a_streams a !! id = Some s → 6 <= sx_buffer_len h → message_ok (DataChannelThreshold t) →
  ∃ h', sctp_handle_write (to_sctp clock (threshold_message ah id t)) h = (Ok tt, h') ∧
    written_to ah (a <| a_streams ::= <[id := match t with Low n => s <| ss_buffered_amount_low := n |>
                                                         | High n => s <| ss_buffered_amount_high := n |> end]> |>) h h'.
Proof.
  intros Ea Es Hb Hok. unfold sctp_handle_write, to_sctp, threshold_message. cbn [rtc_message dcm_payload dcm_association_handle dcm_stream_id dcm_ppi rtc_now].
  assert (len (message_bytes (DataChannelThreshold t)) = 6) as L by (by rewrite (proj1 (message_encodes _))).
  rewrite L, (proj2 (Z.ltb_ge _ _)) by lia. rewrite bool_decide_true by (by rewrite Ea). change (is_dcep Dcep) with true. cbv iota.
  unfold dcep_control. cbn [dcm_payload dcm_association_handle dcm_stream_id].
  rewrite <- (app_nil_r (message_bytes _)), message_read by done.
  set (a1 := a <| a_streams ::= _ |>).
  assert ((do! _ <- assoc_stream id; match t with Low th => stream_set_low_threshold id th | High th => stream_set_high_threshold id th end) a = (Ok tt, a1)) as E1.
  { unfold sbind. rewrite (assoc_stream_Ok id a s Es). subst a1.
    unfold stream_set_low_threshold, stream_set_high_threshold, with_stream. destruct t; by rewrite Es. }
  unfold sbind at 1. unfold sbind at 1. unfold slift. cbv iota beta. unfold sbind at 1.
  rewrite (on_conn_eq ah a) by done. rewrite E1. cbn [fst snd]. unfold sret at 1. cbv iota beta. unfold sbind at 1.
  rewrite (on_conn_eq ah a1) by (record_simpl; apply lookup_insert_eq). cbn [negb andb].
  assert (is_Some (a_streams a1 !! id)) as [s1 Es1] by (subst a1; record_simpl; rewrite lookup_insert_eq; by eexists).
  unfold sbind at 1 2. rewrite (assoc_stream_Ok id a1 s1 Es1). unfold sret, smodify. cbn [fst snd].
  eexists. split; [reflexivity|]. split; record_simpl; [by rewrite insert_insert_eq|done..].
Qed.

(** The stream [s] delivers the way the OPEN [o] asks for, and can be read and written. *)
Definition configured (o : ChannelOpen) (s : StreamState) : Prop :=
  (ss_unordered s, ss_reliability_type s) = get_reliability_params (channel_type o) ∧
  ss_reliability_value s = reliability_parameter o ∧ ss_state s = StreamReadWritable.

(** Chunks of one DCEP message of stream [id] *)
Definition dcep_chunks (id : Z) (p : bytes) (cs : list ChunkPayloadData) : Prop :=
  payload cs = p ∧ Forall (λ c, stream_identifier c = id ∧ payload_type c = Dcep ∧ unordered c = false) cs.

Lemma streams_twice id s1 s2 a : a <| a_streams ::= <[id := s1]> |> <| a_streams ::= <[id := s2]> |> = a <| a_streams ::= <[id := s2]> |>.
Proof.
  change (a <| a_streams ::= <[id := s1]> |> <| a_streams ::= <[id := s2]> |>) with (a <| a_streams := <[id := s2]> (<[id := s1]> (a_streams a)) |>).
  by rewrite insert_insert_eq.
Qed.

Lemma open_control id o a :
  a_streams a !! id = None →
  let '(u, t) := get_reliability_params (channel_type o) in
  let s := (stream_new (a_side a) id (a_max_payload_size a) Dcep) <| ss_unordered := u |> <| ss_reliability_type := t |>
             <| ss_reliability_value := reliability_parameter o |> in
  (do! _ <- open_stream id Dcep; set_reliability_params id u t (reliability_parameter o)) a = (Ok tt, a <| a_streams ::= <[id := s]> |>).
Proof.
  intros En. destruct (get_reliability_params (channel_type o)) as [u t]. cbv zeta. unfold sbind, open_stream.
  rewrite bool_decide_false by (rewrite En; by intros [? [=]]).
  unfold set_reliability_params, create_stream. record_simpl. rewrite lookup_insert_eq. f_equal. apply streams_twice.
Qed.

Lemma write_open clock ah id o neg a h :
  sx_associations h !! ah = Some a → a_streams a !! id = None → a_state a = Established → open_ok o →
  marshal_size (DataChannelOpen o) <= sx_buffer_len h → marshal_size (DataChannelOpen o) <= a_max_message_size a → 0 < a_max_payload_size a →
  ∃ h' a' s cs,
    sctp_handle_write (to_sctp clock (mkDcMessage ah id Dcep (message_bytes (DataChannelOpen o)) neg)) h = (Ok tt, h') ∧
    written_to ah a' h h' ∧ a_streams a' = <[id := s]> (a_streams a) ∧ a_state a' = a_state a ∧ configured o s ∧
    a_pending_queue a' = foldl pending_push (a_pending_queue a) cs ∧
    dcep_chunks id (if neg then [] else message_bytes (DataChannelOpen o)) cs.
Proof.
  intros Ea En Ha Ho Hb Hx Hm. assert (len (message_bytes (DataChannelOpen o)) = marshal_size (DataChannelOpen o)) as L by apply message_encodes.
  assert (marshal_size (DataChannelOpen o) < 2 ^ 32 - 1) as H32.
  { destruct Ho as (_ & _ & Hl & Hp). unfold marshal_size, message_size, marshal_size, open_size, MESSAGE_TYPE_LEN, CHANNEL_OPEN_HEADER_LEN. lia. }
  unfold sctp_handle_write, to_sctp. cbn [rtc_message dcm_payload dcm_association_handle dcm_stream_id dcm_ppi rtc_now].
  rewrite (proj2 (Z.ltb_ge _ _)) by lia. rewrite bool_decide_true by (by rewrite Ea). change (is_dcep Dcep) with true. cbv iota.
  unfold dcep_control. cbn [dcm_payload dcm_association_handle dcm_stream_id dcm_ppi dcm_negotiated].
  assert (message_unmarshal (message_bytes (DataChannelOpen o)) = Ok (DataChannelOpen o, [])) as -> by (rewrite <- (app_nil_r (message_bytes _)); by apply message_read).
  unfold sbind at 1. unfold sbind at 1. unfold slift. cbv iota beta.
  pose proof (open_control id o a En) as E1. unfold configured. destruct (get_reliability_params (channel_type o)) as [u t]. cbv zeta in E1.
  set (s := (stream_new (a_side a) id (a_max_payload_size a) Dcep) <| ss_unordered := u |> <| ss_reliability_type := t |> <| ss_reliability_value := reliability_parameter o |>) in *.
  set (a1 := a <| a_streams ::= <[id := s]> |>) in *.
  unfold sbind at 1. rewrite (on_conn_eq ah a) by done. rewrite E1. cbn [fst snd].
  unfold sret at 1. cbv iota beta. unfold sbind at 1. rewrite (on_conn_eq ah a1) by (record_simpl; apply lookup_insert_eq).
  assert (a_streams a1 !! id = Some s) as Es1 by (subst a1; record_simpl; apply lookup_insert_eq).
  unfold sbind. rewrite (assoc_stream_Ok id a1 s Es1). rewrite (stream_writable id a1 s Es1) by done.
  destruct neg; cbn [negb andb].
  - unfold sret, smodify. cbn [fst snd]. eexists _, a1, s, []. split; [reflexivity|]. split; [split; record_simpl; [by rewrite insert_insert_eq|done..]|].
    split_and!; try done.
  - destruct (stream_write_eq id (message_bytes (DataChannelOpen o)) Dcep a1 s) as (cs & s' & _ & Hp & Hf & Hs' & Ew);
      [done|done|done|done|rewrite L; exact Hx|change (ss_buffered_amount s) with 0; change (ss_buffered_amount_high s) with (2 ^ 32 - 1); lia|done|done|].
    rewrite Ew. unfold sret, smodify. cbn [fst snd].
    eexists _, _, s', cs. split; [reflexivity|]. split; [split; record_simpl; [by rewrite insert_insert_eq|done..]|].
    subst a1. split_and!; try done.
    + record_simpl. by rewrite insert_insert_eq.
    + by rewrite Hs'.
    + by rewrite Hs'.
    + by rewrite Hs'.
    + split; [done|]. eapply Forall_impl; [exact Hf|]. intros c (_ & H1 & H2 & H3 & H4). done.
Qed.

End Opening.

(** * Messages of the application *)

Section Messages.
Context {BC : BytesCrate} {OtherMessage OtherEvent : Type}.
Abbreviation SctpHandler := (@SctpHandler OtherMessage OtherEvent).
Implicit Types h : SctpHandler.

(** Stream [id] of the association takes a message of [n] bytes: it is open, the message is not too
    large for it, and the high threshold is not reached. *)
Record takes (h : SctpHandler) (ah id n : Z) (a : Association) (s : StreamState) : Prop := {
  tk_association : sx_associations h !! ah = Some a;
  tk_established : a_state a = Established;
  tk_stream : a_streams a !! id = Some s;
  tk_identifier : ss_stream_identifier s = id;
  tk_open : ss_state s = StreamReadWritable;
  tk_payload : 0 < ss_max_payload_size s;
  tk_buffer : n <= sx_buffer_len h;
  tk_size : n <= a_max_message_size a;
  tk_amount : 0 <= ss_buffered_amount s;
  tk_high : ss_buffered_amount s + n < ss_buffered_amount_high s;
  tk_width : ss_buffered_amount_high s < 2 ^ 64
}.

Lemma write_data clock ah id d a s h :
  takes h ah id (len (dcm_payload d)) a s → dcm_association_handle d = ah → dcm_stream_id d = id → is_dcep (dcm_ppi d) = false →
  ∃ h' cs s', packetize s (dcm_payload d) (dcm_ppi d) = Ok (false, cs, s') ∧
    sctp_handle_write (to_sctp clock d) h = (Ok tt, h') ∧
    written_to ah (a <| a_streams ::= <[id := s']> |> <| a_pending_queue ::= λ q, foldl pending_push q cs |>) h h'.
Proof.
  intros [Ea Ha Es Ei Ho Hp Hb Hx H0 Hh H64] Hah Hid Hd. unfold sctp_handle_write, to_sctp. cbn [rtc_message rtc_now].
  destruct (stream_write_eq id (dcm_payload d) (dcm_ppi d) a s) as (cs & s' & Ep & _ & _ & _ & Ew); [done..|].
  rewrite (proj2 (Z.ltb_ge _ _)) by done. rewrite Hah, Hid. rewrite bool_decide_true by (by rewrite Ea). rewrite Hd.
  unfold sbind at 1. unfold sret at 1. cbv iota beta. unfold sbind at 1. rewrite (on_conn_eq ah a) by done.
  unfold sbind. rewrite (assoc_stream_Ok id a s Es), (stream_writable id a s Es Ho). cbn [negb andb]. rewrite Ew. unfold sret, smodify. cbn [fst snd].
  exists (h <| sx_associations ::= <[ah := a <| a_streams ::= <[id := s']> |> <| a_pending_queue ::= λ q, foldl pending_push q cs |>]> |>
            <| sx_flush_dirty := true |> <| sx_last_now := Some clock |>), cs, s'.
  split_and!; [done..|]. by split; record_simpl.
Qed.

(** A set of chunks keeps the payload identifier it was made with. *)
Lemma pushed_ppi cs q : cs_ppi (foldl (λ q c, snd (chunks_push q c)) q cs) = cs_ppi q.
Proof.
  revert q. induction cs as [|c cs IH]; intros q; [done|]. cbn [foldl]. rewrite IH.
  unfold chunks_push. cbv zeta. by case_bool_decide.
Qed.

(** * Reading a stream *)

(** The messages a queue holds that can be read, one after the other, and what is left *)
Inductive reads : ReassemblyQueue → list Chunks → ReassemblyQueue → Prop :=
| reads_none q : rq_read q = Ok (None, q) → reads q [] q
| reads_some q c q1 cs q2 : rq_read q = Ok (Some c, q1) → reads q1 cs q2 → reads q (c :: cs) q2.

Lemma rq_read_less q c q' : rq_read q = Ok (Some c, q') →
  (length (ordered q') + length (rq_unordered q') < length (ordered q) + length (rq_unordered q))%nat.
Proof.
  intros E. destruct (read_cases q) as [(cs & rest & Eu & E')|[(cs & rest & Eo & _ & _ & E')|(_ & E' & _)]]; rewrite E' in E; [..|done];
    injection E as <- <-; cbn [subtract_num_bytes ordered rq_unordered]; rewrite ?Eu, ?Eo; cbn [length]; lia.
Qed.

Lemma rq_read_none q q' : rq_read q = Ok (None, q') → q' = q.
Proof.
  intros E. destruct (read_cases q) as [(cs & rest & _ & E')|[(cs & rest & _ & _ & _ & E')|(_ & E' & _)]]; rewrite E' in E; congruence.
Qed.

Definition inbound (ah id : Z) (c : Chunks) : DataChannelMessage := mkDcMessage ah id (cs_ppi c) (payload (chunks c)) false.

Lemma to_payload_cases c max_len : to_payload c max_len = Ok (payload (chunks c)) ∨ to_payload c max_len = Err ErrShortBuffer.
Proof.
  unfold to_payload. destruct (max_len <? chunks_len c); [by right|left]. f_equal.
  change (payload (chunks c)) with ([] ++ payload (chunks c)). generalize (@nil Z) as acc.
  induction (chunks c) as [|x l IH]; intros acc; [by rewrite app_nil_r|]. cbn [foldl]. rewrite IH. unfold payload. csimpl. by rewrite app_assoc.
Qed.

Lemma read_stream_spec fuel ah id max_len a s :
  a_streams a !! id = Some s → stream_is_readable id a = true → (queued_messages id a < fuel)%nat →
  match read_stream fuel ah id max_len a with
  | (Ok ms, a') => ∃ cs q', reads (ss_reassembly_queue s) cs q' ∧ ms = inbound ah id <$> cs ∧
                     a' = a <| a_streams ::= <[id := s <| ss_reassembly_queue := q' |>]> |>
  | (Err e, _) => e = ErrShortBuffer
  | (Panic, _) => False
  end.
Proof.
  revert a s. induction fuel as [|fuel IH]; intros a s Es Hr Hf; [lia|]. cbn [read_stream]. unfold sbind, stream_read.
  rewrite Es, Hr. destruct (rq_read (ss_reassembly_queue s)) as [[[c|] q']|e|] eqn:Eq.
  - unfold slift. destruct (to_payload_cases c max_len) as [-> | ->]; [|done].
    set (a1 := a <| a_streams ::= _ |>). set (s1 := s <| ss_reassembly_queue := q' |>) in *.
    assert (a_streams a1 !! id = Some s1) as Es1 by (subst a1; record_simpl; apply lookup_insert_eq).
    specialize (IH a1 s1 Es1). unfold stream_is_readable in IH, Hr. rewrite Es in Hr. rewrite Es1 in IH. specialize (IH Hr).
    unfold queued_messages in IH, Hf. rewrite Es1 in IH. rewrite Es in Hf. pose proof (rq_read_less _ _ _ Eq). specialize (IH ltac:(subst s1; record_simpl; lia)).
    destruct (read_stream fuel ah id max_len a1) as [[ms|e|] a'] eqn:Er; [|done|done]. destruct IH as (cs & q2 & Hq & -> & ->).
    exists (c :: cs), q2. split_and!; [by eapply reads_some|done|]. subst a1 s1. by rewrite streams_twice.
  - unfold sret. apply rq_read_none in Eq as Eq'. subst q'. exists [], (ss_reassembly_queue s). split_and!; [by apply reads_none|done|done].
  - by destruct (read_cases (ss_reassembly_queue s)) as [(cs & rest & _ & E')|[(cs & rest & _ & _ & _ & E')|(_ & E' & _)]]; rewrite E' in Eq.
  - by pose proof (rq_read_no_panic (ss_reassembly_queue s)).
Qed.

End Messages.

(** * Properties *)

(** What a channel hands to SCTP when it is dialled sets its stream up as it was asked for.  The
    OPEN and the two thresholds are taken without an error; after them the association has the
    stream of the channel with the order of delivery, the limit of retransmissions or of the
    life time, and the thresholds of the channel, open in both directions; every other stream is as
    before.  The OPEN alone is queued for the peer, in order, and not even that for a channel that
    was negotiated out of band. *)
Theorem dialled_stream_configured `{BytesCrate} {OtherMessage OtherEvent} clock ah c a
    (h : @SctpHandler OtherMessage OtherEvent) :
  sx_associations h !! ah = Some a → a_streams a !! di_id c = None → a_state a = Established → 0 < a_max_payload_size a →
  parameters_ok c → fits 32 (di_low_threshold c) → fits 32 (di_high_threshold c) →
  marshal_size (DataChannelOpen (open_of (dial_config c))) <= Z.min (sx_buffer_len h) (a_max_message_size a) →
  ∃ h' a' s cs,
    sctp_writes (to_sctp clock <$> dial_messages ah c) h = (Ok tt, h') ∧ written_to ah a' h h' ∧
    a_streams a' = <[di_id c := s]> (a_streams a) ∧
    (ss_unordered s, ss_reliability_type s, ss_reliability_value s) = announced c ∧
    ss_buffered_amount_low s = di_low_threshold c ∧ ss_buffered_amount_high s = di_high_threshold c ∧ ss_state s = StreamReadWritable ∧
    a_pending_queue a' = foldl pending_push (a_pending_queue a) cs ∧
    dcep_chunks (di_id c) (if di_negotiated c then [] else message_bytes (DataChannelOpen (open_of (dial_config c)))) cs.
Proof.
  intros Ea En Ha Hm Hok Hlo Hhi Hsz. pose proof (dial_open_ok c Hok) as Ho.
  destruct (write_open clock ah (di_id c) (open_of (dial_config c)) (di_negotiated c) a h)
    as (h1 & a1 & s1 & cs & E1 & W1 & S1 & A1 & (C1 & V1 & O1) & P1 & D1); [done..|lia|lia|done|].
  assert (12 <= sx_buffer_len h) as Hb.
  { revert Hsz. unfold marshal_size, message_size, marshal_size, open_size, MESSAGE_TYPE_LEN, CHANNEL_OPEN_HEADER_LEN.
    pose proof (len_nonneg (label (open_of (dial_config c)))). pose proof (len_nonneg (protocol (open_of (dial_config c)))). lia. }
  destruct W1 as [Wa1 Ww1 We1 Wb1 Wd1].
  destruct (write_threshold clock ah (di_id c) (Low (di_low_threshold c)) a1 s1 h1) as (h2 & E2 & [Wa2 Ww2 We2 Wb2 Wd2]);
    [by rewrite Wa1, lookup_insert_eq|by rewrite S1, lookup_insert_eq|lia|done|].
  set (s2 := s1 <| ss_buffered_amount_low := di_low_threshold c |>) in *. set (a2 := a1 <| a_streams ::= <[di_id c := s2]> |>) in *.
  destruct (write_threshold clock ah (di_id c) (High (di_high_threshold c)) a2 s2 h2) as (h3 & E3 & [Wa3 Ww3 We3 Wb3 Wd3]);
    [by rewrite Wa2, lookup_insert_eq|subst a2; record_simpl; by rewrite lookup_insert_eq|lia|done|].
  exists h3. eexists _, _, cs. split_and!.
  - unfold dial_messages. cbn [fmap list_fmap sctp_writes]. unfold sbind at 1. unfold open_message. rewrite E1. unfold sbind at 1. rewrite E2. unfold sbind at 1. rewrite E3. done.
  - split; [rewrite Wa3, Wa2, Wa1, !insert_insert_eq; reflexivity|congruence..|done].
  - subst a2. record_simpl. by rewrite S1, !insert_insert_eq.
  - unfold announced. subst s2. record_simpl. by rewrite V1, C1.
  - by subst s2.
  - done.
  - by subst s2; record_simpl.
  - subst a2. record_simpl. done.
  - done.
Qed.

Lemma read_stream_next fuel ah id max_len a s c q p :
  a_streams a !! id = Some s → stream_is_readable id a = true → rq_read (ss_reassembly_queue s) = Ok (Some c, q) → to_payload c max_len = Ok p →
  read_stream (S fuel) ah id max_len a =
    (do! ms <- read_stream fuel ah id max_len; sret (mkDcMessage ah id (cs_ppi c) p false :: ms)) (a <| a_streams ::= <[id := s <| ss_reassembly_queue := q |>]> |>).
Proof. intros Es Hr Hq Hp. cbn [read_stream]. unfold sbind, stream_read, slift. by rewrite Es, Hr, Hq, Hp. Qed.

(** One message waits whole in the stream: the handler takes it out, and only it. *)
Lemma whole_message_read {OE} t m id ssn ppi u a0 s0 ix a ah max_len :
  fragments t m → Forall (λ c, stream_identifier c = id ∧ stream_sequence_number c = ssn ∧ payload_type c = ppi ∧ unordered c = u) m →
  awaits t id ssn (len (payload m)) u a0 s0 → receiving t m id ssn ppi u a0 s0 ix a → whole m ix = true →
  ss_state s0 = StreamReadWritable → len (payload m) <= max_len →
  ∃ s', association_event (OtherEvent := OE) ah max_len (EStream (Readable id)) a =
          (Ok ([mkDcMessage ah id ppi (payload m) false], []), a <| a_streams ::= <[id := s']> |>) ∧
        at_rest (ss_reassembly_queue s') ∧ next_ssn (ss_reassembly_queue s') = (if u then next_ssn (ss_reassembly_queue s0) else u16 (ssn + 1)).
Proof.
  intros F Hm W [_ _ _ (q & Es & Hq) _] Hw Hst Hl. destruct W as [_ _ W3 _ _ _ W7 W8 _ _]. pose proof (W8 _ _ W3) as Hn. cbn beta in Hn.
  assert (u = false → next_ssn (ss_reassembly_queue s0) = ssn) as Hnx by (intros Hu; apply W7, Hu).
  destruct (read_whole t m id ssn ppi u F Hm (ss_reassembly_queue s0) q ix Hq Hw Hnx Hn) as (c & q' & Er & Ec1 & Ec2 & Hrest & _ & Hnext & _).
  set (s1 := s0 <| ss_reassembly_queue := q |>) in *. assert (a_streams a !! id = Some s1) as Es1 by (by rewrite Es, lookup_insert_eq).
  assert (stream_is_readable id a = true) as Hrd by (unfold stream_is_readable; rewrite Es1; subst s1; record_simpl; by rewrite Hst).
  exists (s1 <| ss_reassembly_queue := q' |>). split; [|by record_simpl].
  unfold association_event, sbind. rewrite (assoc_stream_Ok id a s1 Es1).
  assert (1 <= queued_messages id a)%nat as Hf. { unfold queued_messages. rewrite Es1. apply rq_read_less in Er. subst s1. record_simpl. lia. }
  destruct (queued_messages id a) as [|fuel]; [lia|]. clear Hf. set (a1 := a <| a_streams ::= <[id := s1 <| ss_reassembly_queue := q' |>]> |>).
  assert (a_streams a1 !! id = Some (s1 <| ss_reassembly_queue := q' |>)) as Es2 by (subst a1; record_simpl; apply lookup_insert_eq).
  assert (stream_is_readable id a1 = true) as Hrd1 by (unfold stream_is_readable; rewrite Es2; subst s1; record_simpl; by rewrite Hst).
  assert (read_stream (S fuel) ah id max_len a1 = (Ok [], a1)) as Ein.
  { cbn [read_stream]. unfold sbind, stream_read. rewrite Es2, Hrd1. record_simpl. rewrite at_rest_read by done. unfold sret. apply (f_equal (pair _)).
    subst a1. rewrite streams_twice. by destruct s1. }
  rewrite (read_stream_next (S fuel) ah id max_len a s1 c q' (payload m)); [|done|done|by subst s1|by rewrite to_payload_eq, Ec2, (proj2 (Z.ltb_ge _ _))].
  fold a1. unfold sbind. rewrite Ein. unfold sret. by rewrite Ec1.
Qed.

(** C14: a message of the application reaches the application of the peer through data channel and
    SCTP.  On an open channel whose stream takes it, the message is handed to the SCTP handler and
    becomes fragments that wait for transmission, and in nothing else does the association change but
    for the stream; numbered with consecutive TSNs each survives the wire.  Let the association of the
    peer wait for these TSNs, with nothing in the queue of the stream, the sequence number of the
    message next if the channel is ordered, no reset pending and room for the message.  It takes the
    fragments in any order and any number of times, and announces the stream as readable exactly when
    every fragment has arrived; its SCTP handler then reads one message, no more, and leaves
    the stream empty with the next sequence number expected; handed to the data channel handler of
    the peer, it is delivered to the application as one message of the same kind and the same
    content, except that an empty message arrives as one zero octet ([delivered]). *)
Theorem channel_message_end_to_end `{BytesCrate} {OtherMessage OtherEvent} clock now ah id m a s
    (h p : @DataChannelHandler OtherMessage OtherEvent) (sx : @SctpHandler OtherMessage OtherEvent) c dc :
  dh_data_channels h !! id = Some c → di_data_channel c = Some dc → dc_association_handle dc = ah → dc_stream_id dc = id →
  dc_read_outs dc = [] → dc_write_outs dc = [] → idle id p →
  takes sx ah id (Z.max 1 (len (data m))) a s → len (data m) < 2 ^ 31 →
  ss_max_payload_size s < 65520 → fits 16 id → fits 16 (ss_sequence_number s) →
  ∃ h' d sx' cs s',
    dch_handle_write clock (application now id (EvMessage m)) h = (Ok tt, h') ∧
    outs h' = (dh_read_outs h, dh_write_outs h ++ [to_sctp clock d]) ∧
    sctp_handle_write (to_sctp clock d) sx = (Ok tt, sx') ∧
    written_to ah (a <| a_streams ::= <[id := s']> |> <| a_pending_queue ::= λ q, foldl pending_push q cs |>) sx sx' ∧
    ∀ t,
      (∀ c, c ∈ numbered t cs → ∃ bs, chunk_marshal c = Ok bs ∧ chunk_unmarshal bs = Ok (received c)) ∧
      ∀ b r arrivals,
        awaits t id (ss_sequence_number s) (Z.max 1 (len (data m))) (ss_unordered s) b r → ss_state r = StreamReadWritable →
        Forall (λ x, 0 <= x.1 < len cs) arrivals →
        ∃ b' evs,
          arrive ((λ x, ((received <$> numbered t cs) !!! Z.to_nat x.1, x.2)) <$> arrivals) b = (Ok tt, b') ∧
          a_events b' = a_events b ++ evs ∧
          (EStream (Readable id) ∈ evs ↔ ∀ i, 0 <= i < len cs → i ∈ arrivals.*1) ∧
          (EStream (Readable id) ∈ evs → ∀ ah' max_len now' clock', Z.max 1 (len (data m)) <= max_len →
             ∃ d' r' p',
               association_event (OtherEvent := OtherEvent) ah' max_len (EStream (Readable id)) b' =
                 (Ok ([d'], []), b' <| a_streams ::= <[id := r']> |>) ∧
               at_rest (ss_reassembly_queue r') ∧
               next_ssn (ss_reassembly_queue r') = (if ss_unordered s then next_ssn (ss_reassembly_queue r) else u16 (ss_sequence_number s + 1)) ∧
               dch_handle_read clock' (to_sctp now' d') p = (Ok tt, p') ∧ idle id p' ∧
               outs p' = (dh_read_outs p ++ [application now' id (EvMessage (delivered m))], dh_write_outs p)).
Proof.
  intros Hc Hd Hah Hid Hr Hw Hp Ht Hl Hmax Hfid Hfsn.
  assert (∃ h', dch_handle_write clock (application now id (EvMessage m)) h = (Ok tt, h') ∧
            outs h' = (dh_read_outs h, dh_write_outs h ++ [to_sctp clock (packed ah id m)])) as (h' & E1 & O1).
  { unfold dch_handle_write, application. cbn [rtc_message data_channel_event data_channel_id]. rewrite Hc, Hd. eexists. split; [reflexivity|].
    erewrite drain_writes_eq; [|record_simpl; apply lookup_insert_eq|record_simpl; reflexivity].
    unfold outs, dc_handle_write. record_simpl. rewrite Hw, Hah, Hid. unfold packed, get_data_channel_message. by destruct (len (data m) =? 0). }
  set (d := packed ah id m) in *.
  assert (len (dcm_payload d) = Z.max 1 (len (data m)) ∧ dcm_payload d ≠ []) as [Ld Hne].
  { subst d. unfold packed, get_data_channel_message. pose proof (len_nonneg (data m)). destruct (Z.eqb_spec (len (data m)) 0) as [E|E]; cbn [dcm_payload].
    - rewrite E. done.
    - split; [lia|]. intros E'. by rewrite E' in E. }
  destruct (packed_delivered ah ah id m) as [_ Hnd]. destruct Ht as [T1 T2 T3 T4 T5 T6 T7 T8 T9 T10 T11].
  destruct (write_data clock ah id d a s sx) as (sx' & cs & s' & Ep & E2 & W2); [by split; try rewrite Ld|done..|].
  exists h', d, sx', cs, s'. split_and!; [done..|]. intros t.
  destruct (packetize_eq s (dcm_payload d) (dcm_ppi d) T6) as (hi & cs' & s'' & Ep' & Hpay & Hall & Hfl & _ & _).
  rewrite Ep in Ep'. injection Ep' as <- <- <-.
  assert (is_dcep (dcm_ppi d) = false) as Hdc by done. rewrite Hdc in Hall. cbn [negb andb] in Hall.
  pose proof (numbered_fragments t s (dcm_payload d) (dcm_ppi d) _ cs Hpay Hne ltac:(lia) Hall Hfl) as F.
  assert (len (received <$> numbered t cs) = len cs) as Hlen by (unfold len; by rewrite length_fmap; unfold numbered; rewrite length_imap).
  assert (payload (received <$> numbered t cs) = dcm_payload d) as Hpl by (by rewrite payload_received, payload_numbered, Hpay).
  split.
  { intros x Hx. pose proof (numbered_data_ok t s (dcm_ppi d) _ cs Hmax ltac:(by rewrite T4) Hfsn Hall) as Hok. rewrite Forall_forall in Hok.
    destruct (data_roundtrip x (Hok x Hx)) as (bs & ? & _ & ?). eauto. }
  intros b r arrivals W Hst Ha. rewrite <- Ld, <- Hpl in W. rewrite <- Hlen in Ha.
  assert (Forall (λ c, stream_identifier c = id ∧ stream_sequence_number c = ss_sequence_number s ∧ payload_type c = dcm_ppi d ∧ unordered c = ss_unordered s)
            (received <$> numbered t cs)) as Hm.
  { apply Forall_fmap, Forall_lookup. intros i x. unfold numbered. rewrite list_lookup_imap. destruct (cs !! i) as [y|] eqn:Ey; [|done]. intros [= <-].
    destruct (Forall_lookup_1 _ _ _ _ Hall Ey) as (_ & F1 & F2 & F3 & F4). split_and!; [etransitivity; [exact F1|exact T4]|exact F2|exact F3|exact F4]. }
  destruct (arrivals_received t _ id _ _ _ b r F Hm W arrivals Ha) as (ix & b' & E3 & Hrc & Hix).
  pose proof Hrc as [_ _ _ _ (evs & Ev & Hev)]. exists b', evs. split_and!; [done..| |].
  - rewrite Hev. rewrite (whole_arrived t _ id _ _ _ b r ix b' _ Hrc Hix). by rewrite Hlen.
  - intros Hwh%Hev ah' max_len now' clock' Hml.
    destruct (whole_message_read (OE := OtherEvent) t _ id _ _ _ b r ix b' ah' max_len F Hm W Hrc Hwh Hst) as (r' & E4 & Hrest & Hnx); [by rewrite Hpl, Ld|].
    rewrite Hpl in E4. destruct (packed_delivered ah' ah id m) as [Ed' Hnd']. fold d in Ed', Hnd'.
    destruct (read_known clock' now' id (arrival ah' d) p Hp) as (p' & E5 & I5 & O5); [done..|].
    exists (arrival ah' d), r', p'. split_and!; [done..|]. by rewrite <- Ed'.
Qed.

(** When a stream becomes readable its messages are taken out completely.  The loop over the
    stream ends, without a panic; the messages it gives are those the reassembly queue holds ready,
    in the order in which the queue gives them, with their payload identifiers, and none is left;
    the only error is that of a message larger than the buffer of the handler. *)
Theorem readable_stream_read {OtherEvent} ah id max_len a s :
  a_streams a !! id = Some s → stream_is_readable id a = true →
  match association_event (OtherEvent := OtherEvent) ah max_len (EStream (Readable id)) a with
  | (Ok (ms, evs), a') => evs = [] ∧ ∃ cs q', reads (ss_reassembly_queue s) cs q' ∧ ms = inbound ah id <$> cs ∧
                            a' = a <| a_streams ::= <[id := s <| ss_reassembly_queue := q' |>]> |>
  | (Err e, _) => e = ErrShortBuffer
  | (Panic, _) => False
  end.
Proof.
  intros Es Hr. unfold association_event, sbind. rewrite (assoc_stream_Ok id a s Es).
  pose proof (read_stream_spec (S (queued_messages id a)) ah id max_len a s Es Hr ltac:(lia)) as E.
  destruct (read_stream (S (queued_messages id a)) ah id max_len a) as [[ms|e|] a']; [|done|done]. by split.
Qed.

Section HandlerExamples.
#[local] Existing Instance BigEndian.big_endian.
Abbreviation handler := (@SctpHandler unit unit).

Definition established : Association :=
  assoc_default <| a_state := Established |> <| a_max_payload_size := 1200 |> <| a_max_message_size := 65536 |>.
Definition sctp_side (a : Association) : handler := mkSctpHandler {[0 := a]} 65536 [] [] [] false None.

Lemma dialled_stream_configured_witness :
  ∃ h' a' s, sctp_writes (to_sctp 5 <$> dial_messages 0 chat_channel) (sctp_side established) = (Ok tt, h') ∧
    sx_associations h' !! 0 = Some a' ∧ a_streams a' !! 1 = Some s ∧
    (ss_unordered s, ss_reliability_type s, ss_reliability_value s) = (false, Rexmit, 3).
Proof.
  destruct (dialled_stream_configured (OtherMessage := unit) (OtherEvent := unit) 5 0 chat_channel established (sctp_side established))
    as (h' & a' & s & cs & E & W & S & A & _).
  - apply lookup_singleton_eq.
  - reflexivity.
  - reflexivity.
  - reflexivity.
  - split_and!; vm_compute; intuition congruence.
  - vm_compute; intuition congruence.
  - vm_compute; intuition congruence.
  - vm_compute; intuition congruence.
  - exists h', a', s. split_and!; [exact E| | |exact A].
    + rewrite (wt_associations _ _ _ _ W). apply lookup_insert_eq.
    + rewrite S. apply lookup_insert_eq.
Defined.

Definition chat_stream : StreamState := stream_new Client 1 2 Dcep.
Definition with_chat : Association := established <| a_streams := {[1 := chat_stream]} |>.

(** The peer has got nothing yet and expects the TSN 1. *)
Definition peer_side : Association := with_chat <| a_max_receive_buffer_size := 1000 |>.

Lemma peer_side_awaits : awaits 1 1 0 3 false peer_side chat_stream.
Proof.
  split; try (vm_compute; intuition congruence).
  - exists 0, [], []. split; [apply (reach_init 0)|constructor].
  - unfold counts_bytes. apply map_Forall_singleton. done.
Qed.

(** The fragments arrive from the last to the first. *)
Lemma channel_message_end_to_end_witness :
  ∃ cs b' b'' d' p',
    arrive ((λ x, ((received <$> numbered 1 cs) !!! Z.to_nat x.1, x.2)) <$> ((λ i, (i, 5)) <$> reverse (seqZ 0 (len cs)))) peer_side = (Ok tt, b') ∧
    association_event (OtherEvent := unit) 0 100 (EStream (Readable 1)) b' = (Ok ([d'], []), b'') ∧
    dch_handle_read 8 (to_sctp 7 d') open_handler = (Ok tt, p') ∧
    outs p' = ([application 7 1 (EvMessage (mkAppMessage true [104; 105; 33]))], []).
Proof.
  destruct (channel_message_end_to_end (OtherMessage := unit) (OtherEvent := unit) 2 1 0 1 (mkAppMessage true [104; 105; 33])
              with_chat chat_stream open_handler open_handler (sctp_side with_chat)
              (chat_channel <| di_data_channel := Some (dc_new (dial_config chat_channel) 0 1) |> <| di_ready_state := Open |>)
              (dc_new (dial_config chat_channel) 0 1))
    as (h' & d & sx' & cs & s' & E & O & W & _ & HT).
  - apply lookup_singleton_eq.
  - reflexivity.
  - reflexivity.
  - reflexivity.
  - reflexivity.
  - reflexivity.
  - apply open_handler_idle.
  - split; try reflexivity; vm_compute; intuition congruence.
  - reflexivity.
  - reflexivity.
  - vm_compute; intuition congruence.
  - vm_compute; intuition congruence.
  - destruct (HT 1) as [_ HR]. destruct (HR peer_side chat_stream ((λ i, (i, 5)) <$> reverse (seqZ 0 (len cs)))) as (b' & evs & Ea & _ & Hev & Hread).
    + exact peer_side_awaits.
    + reflexivity.
    + apply Forall_fmap, Forall_forall. intros i Hi. rewrite elem_of_reverse, elem_of_seqZ in Hi. simpl. lia.
    + destruct Hread with (ah' := 0) (max_len := 100) (now' := 7) (clock' := 8) as (d' & r' & p' & E1 & _ & _ & E2 & _ & E3).
      * apply Hev. intros i Hi. rewrite <- list_fmap_compose. apply list_elem_of_fmap. exists i. split; [reflexivity|]. rewrite elem_of_reverse, elem_of_seqZ. lia.
      * vm_compute; intuition congruence.
      * exists cs, b', (b' <| a_streams ::= <[1 := r']> |>), d', p'. split_and!; [exact Ea|exact E1|exact E2|exact E3].
Defined.

Lemma readable_stream_read_witness :
  match association_event (OtherEvent := unit) 0 65536 (EStream (Readable 1)) with_chat with
  | (Ok (ms, evs), _) => evs = []
  | _ => True
  end.
Proof.
  pose proof (readable_stream_read (OtherEvent := unit) 0 1 65536 with_chat chat_stream (lookup_singleton_eq _ _) eq_refl) as E.
  destruct (association_event (OtherEvent := unit) 0 65536 (EStream (Readable 1)) with_chat) as [[[ms evs]|e|] a']; [exact (proj1 E)|exact I|exact I].
Defined.

(** The channel that accepted an OPEN writes on a stream that was opened by the peer, whose
    parameters nobody set: the ACK is sent, and the stream stays ordered and reliable. *)
Lemma accepted_stream_stays_reliable :
  let a := create_stream 1 true Unknown established in
  let '(r, h) := sctp_handle_write (to_sctp 1 (ack_message 0 1)) (sctp_side a) in
  r = Ok tt ∧ (ss_reliability_type <$> ((a_streams <$> sx_associations h !! 0) ≫= λ m, m !! 1)) = Some Reliable.
Proof. by vm_compute. Qed.

(** A negotiated channel whose peer has already sent on the stream cannot be opened any more. *)
Lemma negotiated_open_late :
  (sctp_handle_write (to_sctp 1 (mkDcMessage 0 1 Dcep (message_bytes (DataChannelOpen (mkOpen ChannelReliable 256 0 [] []))) true))
     (sctp_side (create_stream 1 true Unknown established))).1 = Err ErrStreamAlreadyExist.
Proof. by vm_compute. Qed.
End HandlerExamples.
