(* ===== verification/TcpFraming.v ===== *)
(** The framing of packets on a TCP connection, [rtc-shared/src/tcp_framing.rs] (RFC 4571): a
    packet is sent behind its length in two octets, and a decoder collects what arrives and gives
    complete packets out.

    [framing_survives_segmentation]: however TCP cuts the stream, the packets come out as they went in. *)

From S2P Require Import Prelude Codec.

Definition FRAMING_HEADER_LEN : Z := 2.
Definition MAX_FRAMED_PACKET_SIZE : Z := 2 ^ 16 - 1.

Section Framing.
Context {BC : BytesCrate}.

Definition frame_packet (buf : bytes) : res bytes :=
  assert_ (len buf <=? MAX_FRAMED_PACKET_SIZE) (Ok (put_uint 2 (u16 (len buf)) ++ buf)).

(** The octets written to [out], with their number; [None] leaves [out] as it is. *)
Definition frame_packet_to (buf out : bytes) : option (Z * bytes) :=
  if MAX_FRAMED_PACKET_SIZE <? len buf then None
  else
    let total_len := FRAMING_HEADER_LEN + len buf in
    if len out <? total_len then None
    else Some (total_len, put_uint 2 (u16 (len buf)) ++ buf ++ drop (Z.to_nat total_len) out).

Record TcpFrameDecoder := mkDecoder { buffer : bytes }.

Definition decoder_new : TcpFrameDecoder := mkDecoder [].
Definition extend_from_slice (data : bytes) (d : TcpFrameDecoder) : TcpFrameDecoder := mkDecoder (buffer d ++ data).
Definition decoder_clear (d : TcpFrameDecoder) : TcpFrameDecoder := mkDecoder [].
Definition buffered_len (d : TcpFrameDecoder) : Z := len (buffer d).

(** [u16::from_be_bytes] reads the first two octets; [to_vec] and [drain] split the buffer. *)
Definition next_packet (d : TcpFrameDecoder) : res (option bytes * TcpFrameDecoder) :=
  if len (buffer d) <? FRAMING_HEADER_LEN then Ok (None, d)
  else
    let! (length, _) := get_u16 (buffer d) in
    let total_len := FRAMING_HEADER_LEN + length in
    if len (buffer d) <? total_len then Ok (None, d)
    else
      let! packet := slice (buffer d) FRAMING_HEADER_LEN total_len in
      Ok (Some packet, mkDecoder (drop (Z.to_nat total_len) (buffer d))).

(** [while let Some(packet) = decoder.next_packet()]: a packet takes two octets at least. *)
Fixpoint packets (fuel : nat) (d : TcpFrameDecoder) : res (list bytes * TcpFrameDecoder) :=
  match fuel with
  | O => Panic
  | S fuel =>
      let! (p, d) := next_packet d in
      match p with
      | Some p => let! (ps, d) := packets fuel d in Ok (p :: ps, d)
      | None => Ok ([], d)
      end
  end.

(** What a driver does with one piece of the stream. *)
Definition receive (data : bytes) (d : TcpFrameDecoder) : res (list bytes * TcpFrameDecoder) :=
  let d := extend_from_slice data d in
  packets (S (length (buffer d))) d.

Fixpoint receive_all (pieces : list bytes) (d : TcpFrameDecoder) : res (list bytes * TcpFrameDecoder) :=
  match pieces with
  | [] => Ok ([], d)
  | piece :: pieces =>
      let! (ps, d) := receive piece d in
      let! (qs, d) := receive_all pieces d in
      Ok (ps ++ qs, d)
  end.

(** * The stream as a list of packets *)

Definition frame (p : bytes) : bytes := put_uint 2 (len p) ++ p.
Definition packet_ok (p : bytes) : Prop := Forall byte_ok p ∧ len p <= MAX_FRAMED_PACKET_SIZE.
Definition stream (ps : list bytes) : bytes := concat (frame <$> ps).

(** Too little for a packet *)
Definition partial (r : bytes) : Prop :=
  Forall byte_ok r ∧ (len r < 2 ∨ ∃ n b, r = put_uint 2 n ++ b ∧ fits 16 n ∧ len b < n).

Lemma len_framed p : len (frame p) = 2 + len p.
Proof. unfold frame. by rewrite len_app, len_put_uint. Qed.

Lemma next_framed p r : packet_ok p → next_packet (mkDecoder (frame p ++ r)) = Ok (Some p, mkDecoder r).
Proof.
  intros [_ Hp]. unfold MAX_FRAMED_PACKET_SIZE in Hp. pose proof (len_nonneg p). pose proof (len_nonneg r).
  unfold next_packet, FRAMING_HEADER_LEN. cbn [buffer]. rewrite len_app, len_framed.
  rewrite (proj2 (Z.ltb_ge _ _)) by lia. unfold frame, get_u16. rewrite <- app_assoc, get_put_uint by (unfold fits; lia). cbn [rbind].
  rewrite (proj2 (Z.ltb_ge _ _)) by lia. rewrite (slice_mid (put_uint 2 (len p)) p r) by (rewrite ?len_put_uint; lia). cbn [rbind].
  do 2 f_equal. f_equal. rewrite app_assoc. apply drop_app_length'. rewrite length_app, put_uint_length. unfold len. lia.
Qed.

Lemma next_partial r : partial r → next_packet (mkDecoder r) = Ok (None, mkDecoder r).
Proof.
  intros [_ [Hr|(n & b & -> & Hn & Hb)]]; unfold next_packet, FRAMING_HEADER_LEN; cbn [buffer].
  - by rewrite (proj2 (Z.ltb_lt _ _)) by lia.
  - rewrite len_app, len_put_uint. pose proof (len_nonneg b). rewrite (proj2 (Z.ltb_ge _ _)) by lia.
    unfold get_u16. rewrite get_put_uint by done. cbn [rbind]. by rewrite (proj2 (Z.ltb_lt _ _)) by lia.
Qed.

Lemma packets_spec ps r fuel :
  Forall packet_ok ps → partial r → (length ps < fuel)%nat → packets fuel (mkDecoder (stream ps ++ r)) = Ok (ps, mkDecoder r).
Proof.
  intros Hps Hr. revert fuel. induction Hps as [|p ps Hp _ IH]; intros [|fuel] Hf; try (simpl in Hf; lia); cbn [packets].
  - change (stream [] ++ r) with r. by rewrite next_partial.
  - unfold stream. csimpl. rewrite <- app_assoc, next_framed by done. cbn [rbind]. fold (stream ps). rewrite IH by (simpl in Hf; lia). done.
Qed.

Lemma length_stream ps : (length ps <= length (stream ps))%nat.
Proof.
  induction ps as [|p ps IH]; [done|]. unfold stream in *. csimpl. rewrite length_app.
  pose proof (len_framed p). pose proof (len_nonneg p). unfold len in *. lia.
Qed.

(** Every stream is a number of packets and a part of another one, in one way. *)
Lemma stream_split l : Forall byte_ok l → ∃ ps r, l = stream ps ++ r ∧ Forall packet_ok ps ∧ partial r.
Proof.
  remember (length l) as k eqn:Ek. assert (length l <= k)%nat as Hk by lia. clear Ek. revert l Hk.
  induction k as [|k IH]; intros l Hk Hl.
  { destruct l; [|simpl in Hk; lia]. exists [], []. split_and!; [done|done|]. split; [done|]. by left. }
  destruct (Z.lt_ge_cases (len l) 2) as [Hs|Hs]; [exists [], l; split_and!; [done|done|]; split; [done|by left]|].
  destruct (get_uint_total 2 l Hl Hs) as (n & b & _ & Hn & -> & Hb & Lb).
  destruct (Z.lt_ge_cases (len b) n) as [Hc|Hc]; [exists [], (put_uint 2 n ++ b); split_and!; [done|done|]; split; [done|right; by exists n, b]|].
  set (p := take (Z.to_nat n) b). assert (len p = n) as Lp by (unfold p; rewrite len_take; unfold fits in Hn; lia).
  destruct (IH (drop (Z.to_nat n) b)) as (ps & r & E & Hps & Hr).
  - revert Hk. rewrite length_app, put_uint_length, length_drop. lia.
  - by apply Forall_drop.
  - exists (p :: ps), r. split_and!; [|constructor; [|done]|done].
    + unfold stream, frame. csimpl. rewrite Lp. rewrite <- !app_assoc. fold (frame). fold (stream ps). rewrite <- E. unfold p. by rewrite take_drop.
    + split; [by apply Forall_take|]. rewrite Lp. unfold fits, MAX_FRAMED_PACKET_SIZE in *. lia.
Qed.

Lemma stream_unique ps r ps' r' :
  Forall packet_ok ps → partial r → Forall packet_ok ps' → partial r' → stream ps ++ r = stream ps' ++ r' → ps = ps' ∧ r = r'.
Proof.
  intros H1 H2 H3 H4 E. set (n := S (length ps + length ps')).
  pose proof (packets_spec ps r n H1 H2 ltac:(lia)) as E1. pose proof (packets_spec ps' r' n H3 H4 ltac:(lia)) as E2.
  rewrite E, E2 in E1. by simplify_eq.
Qed.

Lemma receive_all_spec pieces r0 :
  partial r0 → Forall (Forall byte_ok) pieces →
  ∃ ps r, receive_all pieces (mkDecoder r0) = Ok (ps, mkDecoder r) ∧ r0 ++ concat pieces = stream ps ++ r ∧
          Forall packet_ok ps ∧ partial r.
Proof.
  intros Hr Hp. revert r0 Hr. induction Hp as [|x pieces Hx _ IH]; intros r0 Hr.
  { exists [], r0. split_and!; [done|by rewrite app_nil_r|done|done]. }
  destruct (stream_split (r0 ++ x)) as (ps & r & E & Hps & Hr1); [apply Forall_app; split; [apply Hr|done]|].
  destruct (IH r Hr1) as (qs & r2 & E2 & C2 & Hqs & Hr2). exists (ps ++ qs), r2. split_and!.
  - cbn [receive_all]. unfold receive, extend_from_slice. cbn [buffer]. rewrite E.
    rewrite packets_spec by (try done; rewrite length_app; pose proof (length_stream ps); lia). cbn [rbind]. by rewrite E2.
  - cbn [concat]. rewrite app_assoc, E, <- app_assoc, C2. unfold stream. by rewrite fmap_app, concat_app, app_assoc.
  - by apply Forall_app.
  - done.
Qed.

End Framing.

(** C34: framing survives any segmentation.  Framing packets of at most 65535 octets does not panic,
    and when the framed packets, with a part of a further one behind them, arrive cut into pieces in
    any way, the decoder that takes the pieces one by one gives out exactly the packets, in their
    order and as they were, and keeps the part that is not complete. *)
Theorem framing_survives_segmentation `{BytesCrate} ps rest pieces :
  Forall packet_ok ps → partial rest → Forall (Forall byte_ok) pieces →
  concat pieces = stream ps ++ rest →
  (∀ p, p ∈ ps → frame_packet p = Ok (frame p)) ∧ receive_all pieces decoder_new = Ok (ps, mkDecoder rest).
Proof.
  intros Hps Hr Hb E. split.
  - intros p Hp. rewrite Forall_forall in Hps. destruct (Hps p Hp) as [_ Hl]. unfold frame_packet, frame, assert_.
    rewrite (proj2 (Z.leb_le _ _)) by done. pose proof (len_nonneg p). unfold MAX_FRAMED_PACKET_SIZE in Hl. by rewrite wrap_small by (unfold fits; lia).
  - destruct (receive_all_spec pieces []) as (qs & r & Er & C & Hqs & Hr'); [split; [done|by left]|done|].
    cbn [app] in C. rewrite E in C. apply stream_unique in C as [-> ->]; done.
Qed.

Section FramingExample.
#[local] Existing Instance BigEndian.big_endian.

Lemma framing_survives_segmentation_witness :
  receive_all [[0]; [2; 7]; [8; 0; 0; 0]; [5; 1]] decoder_new = Ok ([[7; 8]; []], mkDecoder [0; 5; 1]).
Proof.
  apply (framing_survives_segmentation [[7; 8]; []] [0; 5; 1] [[0]; [2; 7]; [8; 0; 0; 0]; [5; 1]]).
  - repeat constructor; vm_compute; intuition congruence.
  - split; [repeat constructor; vm_compute; intuition congruence|]. right. exists 5, [1]. vm_compute. intuition congruence.
  - repeat constructor; vm_compute; intuition congruence.
  - reflexivity.
Defined.

End FramingExample.
