(* ===== verification/Dtls.v ===== *)
(** The DTLS record layer and the reassembly of handshake messages:
    [rtc-dtls/src/record_layer], [handshake/handshake_header.rs], [content.rs] and
    [fragment_buffer/mod.rs].

    A datagram holds records; a handshake record holds messages or fragments of messages.  The
    fragment buffer keeps the fragments per message number and gives a message out when its
    fragments join up, in the order of the numbers.  [message_reassembled] is its function,
    [fragment_buffer_safe] what holds of it whatever arrives. *)

From S2P Require Import Prelude Codec.

(** * Types on the wire *)

Inductive ContentType := ChangeCipherSpec | Alert | Handshake | ApplicationData | InvalidContent.

#[export] Instance content_type_eq_dec : EqDecision ContentType.
Proof. solve_decision. Defined.

(** [content_type as u8]; [Invalid] follows 23. *)
Definition content_type_u8 (t : ContentType) : Z :=
  match t with ChangeCipherSpec => 20 | Alert => 21 | Handshake => 22 | ApplicationData => 23 | InvalidContent => 24 end.
Definition content_type_from (v : Z) : ContentType :=
  if v =? 20 then ChangeCipherSpec else if v =? 21 then Alert else if v =? 22 then Handshake
  else if v =? 23 then ApplicationData else InvalidContent.

Inductive HandshakeType :=
| HelloRequest | ClientHello | ServerHello | HelloVerifyRequest | Certificate | ServerKeyExchange | CertificateRequest
| ServerHelloDone | CertificateVerify | ClientKeyExchange | Finished | InvalidHandshake.

Definition handshake_type_u8 (t : HandshakeType) : Z :=
  match t with
  | HelloRequest => 0 | ClientHello => 1 | ServerHello => 2 | HelloVerifyRequest => 3 | Certificate => 11
  | ServerKeyExchange => 12 | CertificateRequest => 13 | ServerHelloDone => 14 | CertificateVerify => 15
  | ClientKeyExchange => 16 | Finished => 20 | InvalidHandshake => 21
  end.
Definition handshake_type_from (v : Z) : HandshakeType :=
  if v =? 0 then HelloRequest else if v =? 1 then ClientHello else if v =? 2 then ServerHello else if v =? 3 then HelloVerifyRequest
  else if v =? 11 then Certificate else if v =? 12 then ServerKeyExchange else if v =? 13 then CertificateRequest
  else if v =? 14 then ServerHelloDone else if v =? 15 then CertificateVerify else if v =? 16 then ClientKeyExchange
  else if v =? 20 then Finished else InvalidHandshake.

Definition RECORD_LAYER_HEADER_SIZE : Z := 13.
Definition HANDSHAKE_HEADER_LENGTH : Z := 12.
Definition MAX_SEQUENCE_NUMBER : Z := 0x0000FFFFFFFFFFFF.
Definition FRAGMENT_BUFFER_MAX_SIZE : Z := 2000000.

Record ProtocolVersion := mkVersion { major : Z; minor : Z }.

#[export] Instance version_eq_dec : EqDecision ProtocolVersion.
Proof. solve_decision. Defined.

Definition PROTOCOL_VERSION1_0 : ProtocolVersion := mkVersion 0xfe 0xff.
Definition PROTOCOL_VERSION1_2 : ProtocolVersion := mkVersion 0xfe 0xfd.

Record RecordLayerHeader := mkRecordHeader {
  content_type : ContentType;
  protocol_version : ProtocolVersion;
  epoch : Z;
  sequence_number : Z;
  content_len : Z
}.

Record HandshakeHeader := mkHandshakeHeader {
  handshake_type : HandshakeType;
  hs_length : Z;
  message_sequence : Z;
  fragment_offset : Z;
  fragment_length : Z
}.

Section Wire.
Context {BC : BytesCrate}.

(** [reader.read_u8()?] and the like: at the end of the input an [io::Error] *)
Definition read_uint (n : nat) (l : bytes) : res (Z * bytes) :=
  if len l <? Z.of_nat n then Err ErrOther else get_uint n l.

(** The sequence number is written as the last six octets of its eight. *)
Definition record_header_marshal (h : RecordLayerHeader) : res bytes :=
  if MAX_SEQUENCE_NUMBER <? sequence_number h then Err ErrSequenceNumberOverflow
  else Ok (put_uint 1 (content_type_u8 (content_type h)) ++ put_uint 1 (major (protocol_version h)) ++
           put_uint 1 (minor (protocol_version h)) ++ put_uint 2 (epoch h) ++ put_uint 6 (sequence_number h) ++
           put_uint 2 (content_len h)).

Definition record_header_unmarshal (r : bytes) : res (RecordLayerHeader * bytes) :=
  let! (t, r) := read_uint 1 r in
  let! (major, r) := read_uint 1 r in
  let! (minor, r) := read_uint 1 r in
  let! (epoch, r) := read_uint 2 r in
  let! (sequence_number, r) := read_uint 6 r in
  let protocol_version := mkVersion major minor in
  if negb (bool_decide (protocol_version = PROTOCOL_VERSION1_0)) && negb (bool_decide (protocol_version = PROTOCOL_VERSION1_2))
  then Err ErrUnsupportedProtocolVersion
  else
    let! (content_len, r) := read_uint 2 r in
    Ok (mkRecordHeader (content_type_from t) protocol_version epoch sequence_number content_len, r).

Definition handshake_header_marshal (h : HandshakeHeader) : bytes :=
  put_uint 1 (handshake_type_u8 (handshake_type h)) ++ put_uint 3 (hs_length h) ++ put_uint 2 (message_sequence h) ++
  put_uint 3 (fragment_offset h) ++ put_uint 3 (fragment_length h).

Definition handshake_header_unmarshal (r : bytes) : res (HandshakeHeader * bytes) :=
  let! (t, r) := read_uint 1 r in
  let! (length, r) := read_uint 3 r in
  let! (message_sequence, r) := read_uint 2 r in
  let! (fragment_offset, r) := read_uint 3 r in
  let! (fragment_length, r) := read_uint 3 r in
  Ok (mkHandshakeHeader (handshake_type_from t) length message_sequence fragment_offset fragment_length, r).

(** [unpack_datagram], from [offset] on; a turn takes a header at least. *)
Fixpoint unpack_loop (fuel : nat) (buf : bytes) (offset : Z) : res (list bytes) :=
  if len buf =? offset then Ok []
  else match fuel with
  | O => Panic
  | S fuel =>
      if len buf - offset <=? RECORD_LAYER_HEADER_SIZE then Err ErrInvalidPacketLength
      else
        let! hi := index buf (offset + RECORD_LAYER_HEADER_SIZE - 2) in
        let! lo := index buf (offset + RECORD_LAYER_HEADER_SIZE - 1) in
        let pkt_len := RECORD_LAYER_HEADER_SIZE + Z.lor (Z.shiftl hi 8) lo in
        if len buf <? offset + pkt_len then Err ErrInvalidPacketLength
        else
          let! record := slice buf offset (offset + pkt_len) in
          let! out := unpack_loop fuel buf (offset + pkt_len) in
          Ok (record :: out)
  end.

Definition unpack_datagram (buf : bytes) : res (list bytes) := unpack_loop (length buf) buf 0.

(** * The fragment buffer *)

Record Fragment := mkFragment {
  record_layer_header : RecordLayerHeader;
  handshake_header : HandshakeHeader;
  fragment_data : bytes
}.

Record FragmentBuffer := mkFragmentBuffer {
  cache : gmap Z (list Fragment);
  current_message_sequence_number : Z
}.

Definition fragment_buffer_new : FragmentBuffer := mkFragmentBuffer ∅ 0.

Definition fragments_size (fs : list Fragment) : Z := foldr (λ f n, len (fragment_data f) + n) 0 fs.
Definition fb_size (b : FragmentBuffer) : Z := map_fold (λ _ fs n, fragments_size fs + n) 0 (cache b).

(** [self.cache.entry(n).or_default()] and the push *)
Definition store (f : Fragment) (b : FragmentBuffer) : FragmentBuffer :=
  let n := message_sequence (handshake_header f) in
  mkFragmentBuffer (<[n := default [] (cache b !! n) ++ [f]]> (cache b)) (current_message_sequence_number b).

(** [while !buf.is_empty()]: each turn takes a header at least. *)
Fixpoint push_loop (fuel : nat) (rh : RecordLayerHeader) (buf : bytes) : sm FragmentBuffer unit := λ b,
  match buf with
  | [] => (Ok tt, b)
  | _ =>
      match fuel with
      | O => (Panic, b)
      | S fuel =>
          match handshake_header_unmarshal buf with
          | Ok (hh, _) =>
              let end_ := Z.min (HANDSHAKE_HEADER_LENGTH + hs_length hh) (len buf) in
              match slice buf HANDSHAKE_HEADER_LENGTH end_ with
              | Ok data => push_loop fuel rh (drop (Z.to_nat end_) buf) (store (mkFragment rh hh data) b)
              | Err e => (Err e, b)
              | Panic => (Panic, b)
              end
          | Err e => (Err e, b)
          | Panic => (Panic, b)
          end
      end
  end.

Definition fb_push (buf : bytes) : sm FragmentBuffer bool := λ b,
  if FRAGMENT_BUFFER_MAX_SIZE <=? fb_size b + len buf then (Err ErrFragmentBufferOverflow, b)
  else match record_header_unmarshal buf with
  | Ok (rh, _) =>
      if negb (bool_decide (content_type rh = Handshake)) then (Ok false, b)
      else
        match slice buf RECORD_LAYER_HEADER_SIZE (len buf) with
        | Ok buf =>
            match push_loop (length buf) rh buf b with
            | (Ok _, b) => (Ok true, b)
            | (Err e, b) => (Err e, b)
            | (Panic, b) => (Panic, b)
            end
        | Err e => (Err e, b)
        | Panic => (Panic, b)
        end
  | Err e => (Err e, b)
  | Panic => (Panic, b)
  end.

(** [append_message], which puts the fragments in front of [raw_message] from the last to the first;
    the offset it looks for grows with every call, so there are no more calls than fragments and one. *)
Fixpoint append_message (fuel : nat) (target_offset : Z) (frags : list Fragment) (raw_message : bytes) : res (bool * bytes) :=
  match fuel with
  | O => Panic
  | S fuel =>
      match list_find (λ f, fragment_offset (handshake_header f) = target_offset) frags with
      | Some (_, f) =>
          let fragment_end := u32 (fragment_offset (handshake_header f) + fragment_length (handshake_header f)) in
          let! (more, raw_message) :=
            (if negb (fragment_end =? hs_length (handshake_header f)) && negb (fragment_length (handshake_header f) =? 0)
             then append_message fuel fragment_end frags raw_message
             else Ok (true, raw_message)) in
          if more then Ok (true, fragment_data f ++ raw_message) else Ok (false, raw_message)
      | None => Ok (false, raw_message)
      end
  end.

Definition fb_pop : sm FragmentBuffer (bytes * Z) := λ b,
  let seq_num := current_message_sequence_number b in
  match cache b !! seq_num with
  | Some frags =>
      match append_message (S (length frags)) 0 frags [] with
      | Ok (true, raw_message) =>
          match index frags 0 with
          | Ok f =>
              let h := handshake_header f in
              let first_header := mkHandshakeHeader (handshake_type h) (hs_length h) (message_sequence h) 0 (hs_length h) in
              (Ok (handshake_header_marshal first_header ++ raw_message, epoch (record_layer_header f)),
               mkFragmentBuffer (delete seq_num (cache b)) (u16 (current_message_sequence_number b + 1)))
          | Err e => (Err e, b)
          | Panic => (Panic, b)
          end
      | Ok (false, _) => (Err ErrEmptyFragment, b)
      | Err e => (Err e, b)
      | Panic => (Panic, b)
      end
  | None => (Err ErrEmptyFragment, b)
  end.

(** * Reading what was written *)

Lemma read_put n x r : fits (8 * Z.of_nat n) x → read_uint n (put_uint n x ++ r) = Ok (x, r).
Proof.
  intros Hx. unfold read_uint. rewrite len_app, len_put_uint. rewrite (proj2 (Z.ltb_ge _ _)) by (pose proof (len_nonneg r); lia).
  by apply get_put_uint.
Qed.

Lemma read_post n l :
  Forall byte_ok l → res_post (read_uint n l) (λ '(x, r), fits (8 * Z.of_nat n) x ∧ Forall byte_ok r ∧ len r = len l - Z.of_nat n).
Proof. intros Hl. unfold read_uint. destruct (Z.ltb_spec (len l) (Z.of_nat n)) as [|H]; [done|]. by apply get_uint_post. Qed.

Definition header_ok (h : HandshakeHeader) : Prop :=
  fits 24 (hs_length h) ∧ fits 16 (message_sequence h) ∧ fits 24 (fragment_offset h) ∧ fits 24 (fragment_length h).

Definition record_ok (h : RecordLayerHeader) : Prop :=
  (protocol_version h = PROTOCOL_VERSION1_0 ∨ protocol_version h = PROTOCOL_VERSION1_2) ∧
  fits 16 (epoch h) ∧ fits 48 (sequence_number h) ∧ fits 16 (content_len h).

Lemma handshake_header_read h r : header_ok h → handshake_header_unmarshal (handshake_header_marshal h ++ r) = Ok (h, r).
Proof.
  intros (H1 & H2 & H3 & H4). unfold handshake_header_unmarshal, handshake_header_marshal. rewrite <- !app_assoc.
  rewrite read_put by (by destruct (handshake_type h)). cbn [rbind]. rewrite read_put by done. cbn [rbind].
  rewrite read_put by done. cbn [rbind]. rewrite read_put by done. cbn [rbind]. rewrite read_put by done. cbn [rbind].
  destruct h as [t ? ? ? ?]. by destruct t.
Qed.

Lemma record_header_read h r bs : record_ok h → record_header_marshal h = Ok bs → record_header_unmarshal (bs ++ r) = Ok (h, r).
Proof.
  intros (Hv & H1 & H2 & H3). unfold record_header_marshal. rewrite (proj2 (Z.ltb_ge _ _)) by (unfold fits, MAX_SEQUENCE_NUMBER in *; lia).
  intros [= <-]. unfold record_header_unmarshal. rewrite <- !app_assoc.
  rewrite read_put by (by destruct (content_type h)). cbn [rbind].
  assert (fits 8 (major (protocol_version h)) ∧ fits 8 (minor (protocol_version h))) as [Hma Hmi] by (destruct Hv as [-> | ->]; done).
  rewrite read_put by done. cbn [rbind]. rewrite read_put by done. cbn [rbind]. rewrite read_put by done. cbn [rbind].
  rewrite read_put by done. cbn [rbind]. assert (mkVersion (major (protocol_version h)) (minor (protocol_version h)) = protocol_version h) as -> by (by destruct (protocol_version h)).
  assert (negb (bool_decide (protocol_version h = PROTOCOL_VERSION1_0)) && negb (bool_decide (protocol_version h = PROTOCOL_VERSION1_2)) = false) as ->
    by (destruct Hv as [-> | ->]; done).
  rewrite read_put by done. cbn [rbind]. destruct h as [t ? ? ? ?]. by destruct t.
Qed.

Lemma len_record_header h bs : record_header_marshal h = Ok bs → len bs = RECORD_LAYER_HEADER_SIZE.
Proof. unfold record_header_marshal. case_match; [done|]. intros [= <-]. by rewrite !len_app, !len_put_uint. Qed.

Lemma len_handshake_header h : len (handshake_header_marshal h) = HANDSHAKE_HEADER_LENGTH.
Proof. unfold handshake_header_marshal. by rewrite !len_app, !len_put_uint. Qed.

Lemma handshake_header_post l :
  Forall byte_ok l → res_post (handshake_header_unmarshal l) (λ '(h, r), header_ok h ∧ HANDSHAKE_HEADER_LENGTH <= len l).
Proof.
  intros Hl. unfold handshake_header_unmarshal.
  repeat (eapply res_post_bind; [by apply read_post|]; let x := fresh "x" in let r := fresh "r" in intros [x r] (? & ? & ?)).
  simpl. split; [done|]. pose proof (len_nonneg r3). unfold HANDSHAKE_HEADER_LENGTH. lia.
Qed.

Lemma record_header_post l :
  Forall byte_ok l → res_post (record_header_unmarshal l) (λ _, RECORD_LAYER_HEADER_SIZE <= len l).
Proof.
  intros Hl. unfold record_header_unmarshal.
  do 5 (eapply res_post_bind; [by apply read_post|]; let x := fresh "x" in let r := fresh "r" in intros [x r] (? & ? & ?)). cbv zeta.
  apply res_post_if; intros _; [done|]. eapply res_post_bind; [by apply read_post|]. intros [x4 r4] (? & ? & ?). simpl.
  pose proof (len_nonneg r4). unfold RECORD_LAYER_HEADER_SIZE. lia.
Qed.

(** * The size of the buffer *)

Definition cache_size (m : gmap Z (list Fragment)) : Z := map_fold (λ _ fs n, fragments_size fs + n) 0 m.

Lemma cache_size_lookup m n : cache_size m = fragments_size (default [] (m !! n)) + cache_size (delete n m).
Proof.
  destruct (m !! n) as [fs|] eqn:E.
  - unfold cache_size. rewrite (map_fold_delete_L _ _ n fs) by (done || intros; lia). done.
  - by rewrite delete_id by done.
Qed.

Lemma cache_size_insert m n fs : cache_size (<[n := fs]> m) = fragments_size fs + cache_size (delete n m).
Proof. rewrite (cache_size_lookup (<[n := fs]> m) n). by rewrite lookup_insert_eq, delete_insert_eq. Qed.

Lemma fragments_size_app a b : fragments_size (a ++ b) = fragments_size a + fragments_size b.
Proof. induction a as [|f a IH]; [done|]. cbn [app fragments_size foldr]. fold (fragments_size (a ++ b)) (fragments_size a). lia. Qed.

Lemma fragments_size_nonneg fs : 0 <= fragments_size fs.
Proof. induction fs as [|f fs IH]; [done|]. cbn. fold (fragments_size fs). pose proof (len_nonneg (fragment_data f)). lia. Qed.

Lemma cache_size_nonneg m : 0 <= cache_size m.
Proof.
  unfold cache_size. apply (map_fold_weak_ind (λ r m, 0 <= r)); [done|]. intros i fs m' r _ Hr. pose proof (fragments_size_nonneg fs). lia.
Qed.

Lemma store_size f b : fb_size (store f b) = fb_size b + len (fragment_data f).
Proof.
  change (fb_size ?b) with (cache_size (cache b)). unfold store. cbn [cache]. rewrite cache_size_insert, fragments_size_app.
  rewrite (cache_size_lookup (cache b) (message_sequence (handshake_header f))). cbn. lia.
Qed.

(** * Whatever arrives *)

Definition fragment_ok (f : Fragment) : Prop := header_ok (handshake_header f).

Record buffer_ok (b : FragmentBuffer) : Prop := {
  bo_fragments : map_Forall (λ _ fs, fs ≠ [] ∧ Forall fragment_ok fs) (cache b);
  bo_size : fb_size b < FRAGMENT_BUFFER_MAX_SIZE
}.

Lemma store_ok f b : map_Forall (λ _ fs, fs ≠ [] ∧ Forall fragment_ok fs) (cache b) → fragment_ok f →
  map_Forall (λ _ fs, fs ≠ [] ∧ Forall fragment_ok fs) (cache (store f b)).
Proof.
  intros Hb Hf. unfold store. cbn [cache]. apply map_Forall_insert_2; [|done]. split; [by destruct (default [] _)|].
  apply Forall_app. split; [|by constructor]. destruct (cache b !! _) as [fs|] eqn:E; [exact (proj2 (Hb _ fs E))|constructor].
Qed.

Lemma push_loop_safe fuel rh buf b :
  Forall byte_ok buf → (length buf <= fuel)%nat → map_Forall (λ _ fs, fs ≠ [] ∧ Forall fragment_ok fs) (cache b) →
  let '(r, b') := push_loop fuel rh buf b in
  r ≠ Panic ∧ map_Forall (λ _ fs, fs ≠ [] ∧ Forall fragment_ok fs) (cache b') ∧ fb_size b' <= fb_size b + len buf ∧
  current_message_sequence_number b' = current_message_sequence_number b.
Proof.
  revert buf b. induction fuel as [|fuel IH]; intros buf b Hbuf Hf Hb.
  { destruct buf; [|simpl in Hf; lia]. cbn [push_loop]. change (len []) with 0. split_and!; [done..|lia|done]. }
  cbn [push_loop]. destruct buf as [|x buf']; [change (len []) with 0; split_and!; [done..|lia|done]|]. set (buf := x :: buf') in *.
  pose proof (handshake_header_post buf Hbuf) as Hh. destruct (handshake_header_unmarshal buf) as [[hh r]|e|]; [|split_and!; [done..| |done]; pose proof (len_nonneg buf); lia|done].
  destruct Hh as [Hok Hl]. cbv zeta. set (end_ := Z.min _ _).
  assert (12 <= end_ <= len buf) as He by (unfold end_, HANDSHAKE_HEADER_LENGTH in *; destruct Hok as (H1 & _); unfold fits in H1; lia).
  destruct (slice_ok buf HANDSHAKE_HEADER_LENGTH end_) as (data & -> & Ld & _); [unfold HANDSHAKE_HEADER_LENGTH; lia|lia|].
  specialize (IH (drop (Z.to_nat end_) buf) (store (mkFragment rh hh data) b)).
  destruct (push_loop fuel rh (drop (Z.to_nat end_) buf) (store (mkFragment rh hh data) b)) as [r' b'].
  destruct IH as (H1 & H2 & H3 & H4).
  - by apply Forall_drop.
  - rewrite length_drop. unfold len in He. lia.
  - by apply store_ok.
  - split_and!; [done|done| |done]. rewrite store_size in H3. cbn [fragment_data] in H3. rewrite len_drop in H3. unfold HANDSHAKE_HEADER_LENGTH in *. lia.
Qed.

Lemma filter_shorter {A} (P Q : A → Prop) `{∀ x, Decision (P x)} `{∀ x, Decision (Q x)} (l : list A) x :
  x ∈ l → P x → ¬ Q x → (∀ y, Q y → P y) → (length (filter Q l) < length (filter P l))%nat.
Proof.
  intros Hx HP HQ Hi. assert (∀ l, length (filter Q l) <= length (filter P l))%nat as Hle.
  { clear - Hi. intros l. induction l as [|y l IH]; [done|]. rewrite !filter_cons. destruct (decide (Q y)) as [q|q]; destruct (decide (P y)) as [p|p]; cbn; try lia. by apply Hi in q. }
  induction Hx as [y l|y z l Hx IH].
  - rewrite !filter_cons. rewrite decide_False, decide_True by done. cbn. pose proof (Hle l). lia.
  - specialize (IH HP HQ). rewrite !filter_cons. destruct (decide (Q z)) as [q|q]; destruct (decide (P z)) as [p|p]; cbn; try lia. by apply Hi in q.
Qed.

(** The calls of [append_message] look for larger and larger offsets. *)
Lemma append_safe fuel target frags raw :
  Forall fragment_ok frags → 0 <= target →
  (length (filter (λ f, (target <= fragment_offset (handshake_header f))%Z) frags) < fuel)%nat →
  res_post (append_message fuel target frags raw) (λ _, True).
Proof.
  intros Hok. revert target raw. induction fuel as [|fuel IH]; intros target raw Ht Hf; [lia|]. cbn [append_message].
  destruct (list_find _ frags) as [[i f]|] eqn:El; [|done]. apply list_find_Some in El as (Hi & Ho & _).
  pose proof (Forall_lookup_1 _ _ _ _ Hok Hi) as (H1 & H2 & H3 & H4). unfold fits in *. cbv zeta.
  eapply (res_post_bind _ _ (λ _, True)); [|intros [more r] _; by destruct more].
  rewrite wrap_small by (unfold fits; lia). destruct (_ && _) eqn:Eb; [|done]. apply IH; [lia|].
  apply andb_true_iff in Eb as [_ Eb]. apply negb_true_iff, Z.eqb_neq in Eb.
  eapply Nat.lt_le_trans; [|apply Nat.lt_succ_r; exact Hf].
  apply (filter_shorter _ _ frags f); [by eapply list_elem_of_lookup_2|lia|lia|]. intros g Hg. lia.
Qed.

Lemma fb_push_safe buf b : Forall byte_ok buf → buffer_ok b → (fb_push buf b).1 ≠ Panic ∧ buffer_ok (fb_push buf b).2.
Proof.
  intros Hb [Hf Hs]. unfold fb_push. destruct (Z.leb_spec FRAGMENT_BUFFER_MAX_SIZE (fb_size b + len buf)); [done|].
  pose proof (record_header_post buf Hb) as Hr. destruct (record_header_unmarshal buf) as [[rh r]|e|]; [|done|done]. cbn [res_post] in Hr.
  destruct (negb _); [done|]. rewrite slice_drop by (unfold RECORD_LAYER_HEADER_SIZE in *; lia). set (l := drop _ buf).
  pose proof (push_loop_safe (length l) rh l b (Forall_drop _ _ _ Hb) (Nat.le_refl _) Hf) as Hl.
  destruct (push_loop (length l) rh l b) as [[u|e|] b']; destruct Hl as (H1 & H2 & H3 & _); cbn [fst snd]; (split; [done|]); split; try done;
    unfold l in H3; rewrite len_drop in H3; unfold RECORD_LAYER_HEADER_SIZE in *; lia.
Qed.

Lemma fb_pop_safe b : buffer_ok b → (fb_pop b).1 ≠ Panic ∧ buffer_ok (fb_pop b).2.
Proof.
  intros [Hf Hs]. unfold fb_pop. destruct (cache b !! current_message_sequence_number b) as [frags|] eqn:E; [|done].
  destruct (Hf _ _ E) as [Hne Hok].
  assert (length (filter (λ f, (0 <= fragment_offset (handshake_header f))%Z) frags) < S (length frags))%nat as Hc by (apply Nat.lt_succ_r, length_filter).
  pose proof (append_safe (S (length frags)) 0 frags [] Hok (Z.le_refl 0) Hc) as Ha.
  destruct (append_message (S (length frags)) 0 frags []) as [[[|] raw]|e|]; [|done|done|done].
  destruct frags as [|f frags]; [done|]. change (index (f :: frags) 0) with (Ok f : res Fragment). split; [done|]. cbn [snd]. split; cbn [cache].
  - by apply map_Forall_delete.
  - revert Hs. change (fb_size ?b) with (cache_size (cache b)). cbn [cache]. rewrite (cache_size_lookup (cache b) (current_message_sequence_number b)).
    pose proof (fragments_size_nonneg (default [] (cache b !! current_message_sequence_number b))). lia.
Qed.

(** * The fragments of one message *)

Section Message.
Context (rh : RecordLayerHeader) (rh_bytes : bytes) (typ : HandshakeType) (seq : Z) (ps : list bytes).

(** A message is sent whole when it is empty, and otherwise cut into pieces that are not. *)
Definition pieces_ok : Prop := ps = [[]] ∨ (ps ≠ [] ∧ Forall (λ p, p ≠ []) ps).

Definition body : bytes := concat ps.
Definition off (i : nat) : Z := len (concat (take i ps)).
Definition piece (i : nat) : bytes := default [] (ps !! i).
Definition piece_header (i : nat) : HandshakeHeader := mkHandshakeHeader typ (len body) seq (off i) (len (piece i)).
Definition piece_fragment (i : nat) : Fragment := mkFragment rh (piece_header i) (piece i).
Definition piece_record (i : nat) : bytes := rh_bytes ++ handshake_header_marshal (piece_header i) ++ piece i.

Context (Hps : pieces_ok) (Hlen : len body < 2 ^ 24) (Hseq : fits 16 seq) (Hrh : record_ok rh)
        (Hbytes : record_header_marshal rh = Ok rh_bytes) (Hhs : content_type rh = Handshake).

Lemma off_S i : (i < length ps)%nat → off (S i) = off i + len (piece i).
Proof.
  intros Hi. unfold off, piece. destruct (lookup_lt_is_Some_2 ps i Hi) as [p Hp]. rewrite Hp. cbn [default].
  by rewrite (take_S_r _ _ _ Hp), concat_app, len_app; cbn [concat]; rewrite app_nil_r.
Qed.

Lemma off_end : off (length ps) = len body.
Proof. unfold off, body. by rewrite take_ge. Qed.

Lemma off_lt i : (S i < length ps)%nat → off (S i) < len body ∧ piece i ≠ [].
Proof.
  intros Hi. destruct Hps as [->|[_ Hne]]; [simpl in Hi; lia|]. split.
  - rewrite <- off_end. destruct (lookup_lt_is_Some_2 ps (S i) Hi) as [p Hp].
    assert (off (S (S i)) <= off (length ps)) as Hle.
    { unfold off. rewrite (take_ge ps (length ps)) by done. rewrite <- (take_drop (S (S i)) ps) at 2. rewrite concat_app, len_app. pose proof (len_nonneg (concat (drop (S (S i)) ps))). lia. }
    rewrite off_S in Hle by done. rewrite Forall_lookup in Hne. specialize (Hne _ _ Hp). unfold piece in Hle. rewrite Hp in Hle. change (default [] (Some p)) with p in Hle.
    destruct p; [done|]. rewrite len_cons in Hle. pose proof (len_nonneg p). lia.
  - destruct (lookup_lt_is_Some_2 ps i ltac:(lia)) as [p Hp]. unfold piece. rewrite Hp. rewrite Forall_lookup in Hne. by apply (Hne _ _ Hp).
Qed.

Lemma off_mono i j : (i < j < length ps)%nat → off i < off j.
Proof.
  intros [Hij Hj]. induction Hij as [|j Hij IH].
  - rewrite off_S by lia. destruct (off_lt i ltac:(lia)) as [_ Hp]. destruct (piece i) as [|x l]; [done|]. rewrite len_cons. pose proof (len_nonneg l). lia.
  - rewrite off_S by lia. specialize (IH ltac:(lia)). pose proof (len_nonneg (piece j)). lia.
Qed.

Lemma off_inj i j : (i < length ps)%nat → (j < length ps)%nat → off i = off j → i = j.
Proof.
  intros Hi Hj E. destruct (Nat.lt_trichotomy i j) as [H|[H|H]]; [|done|].
  - pose proof (off_mono i j ltac:(lia)). lia.
  - pose proof (off_mono j i ltac:(lia)). lia.
Qed.

Lemma off_bounds i : 0 <= off i <= len body ∧ len (piece i) <= len body.
Proof.
  split.
  - unfold off, body. rewrite <- (take_drop i ps) at 3. rewrite concat_app, len_app. pose proof (len_nonneg (concat (take i ps))). pose proof (len_nonneg (concat (drop i ps))). lia.
  - unfold piece, body. destruct (ps !! i) as [p|] eqn:Hp; [change (default [] (Some p)) with p|change (len (default [] None)) with 0; apply len_nonneg].
    rewrite <- (take_drop_middle _ _ _ Hp). rewrite concat_app. cbn [concat]. rewrite !len_app. pose proof (len_nonneg (concat (take i ps))). pose proof (len_nonneg (concat (drop (S i) ps))). lia.
Qed.

Lemma piece_header_ok i : header_ok (piece_header i).
Proof. pose proof (off_bounds i). pose proof (len_nonneg body). pose proof (len_nonneg (piece i)). unfold header_ok, fits. cbn. unfold fits in Hseq. lia. Qed.

(** A record with one fragment puts this fragment into the buffer. *)
Lemma push_piece i b :
  fb_size b + len (piece_record i) < FRAGMENT_BUFFER_MAX_SIZE → fb_push (piece_record i) b = (Ok true, store (piece_fragment i) b).
Proof.
  intros Hs. unfold fb_push. rewrite (proj2 (Z.leb_gt _ _)) by done. unfold piece_record at 1.
  rewrite (record_header_read rh _ rh_bytes Hrh Hbytes). rewrite bool_decide_true by done. cbn [negb].
  pose proof (len_record_header rh rh_bytes Hbytes) as Lr. unfold piece_record.
  rewrite (slice_tail rh_bytes (handshake_header_marshal (piece_header i) ++ piece i)) by done.
  set (l := handshake_header_marshal (piece_header i) ++ piece i).
  assert (len l = 12 + len (piece i)) as Ll by (unfold l; by rewrite len_app, len_handshake_header). pose proof (len_nonneg (piece i)).
  destruct (length l) as [|n] eqn:El; [unfold len in Ll at 1; lia|]. destruct l as [|x l'] eqn:E; [done|]. cbn [push_loop]. rewrite <- E in *. clear x l' E.
  unfold l at 1. rewrite handshake_header_read by apply piece_header_ok. cbv zeta. cbn [piece_header hs_length].
  pose proof (off_bounds i) as [_ Hp]. unfold HANDSHAKE_HEADER_LENGTH. rewrite Z.min_r by lia.
  unfold l at 1. rewrite (slice_tail (handshake_header_marshal (piece_header i)) (piece i)) by (rewrite ?len_handshake_header; done || fold l; lia).
  rewrite (drop_ge l) by (unfold len; lia). by destruct n.
Qed.

Definition push_pieces (arrival : list nat) (b : FragmentBuffer) : FragmentBuffer := foldl (λ b i, (fb_push (piece_record i) b).2) b arrival.
Definition octets (arrival : list nat) : Z := foldr (λ i n, len (piece_record i) + n) 0 arrival.

Lemma octets_nonneg arrival : 0 <= octets arrival.
Proof. induction arrival as [|i l IH]; [done|]. cbn. fold (octets l). pose proof (len_nonneg (piece_record i)). lia. Qed.

Lemma push_pieces_spec arrival b :
  fb_size b + octets arrival < FRAGMENT_BUFFER_MAX_SIZE → arrival ≠ [] →
  push_pieces arrival b =
  mkFragmentBuffer (<[seq := default [] (cache b !! seq) ++ (piece_fragment <$> arrival)]> (cache b)) (current_message_sequence_number b).
Proof.
  revert b. induction arrival as [|i l IH]; intros b Hs Hne; [done|]. clear Hne. cbn [octets foldr] in Hs. fold (octets l) in Hs. pose proof (octets_nonneg l).
  change (push_pieces (i :: l) b) with (push_pieces l (fb_push (piece_record i) b).2). rewrite push_piece by lia. cbn [snd]. destruct l as [|j l]; [done|]. rewrite IH; [| |done].
  - unfold store. cbn [cache current_message_sequence_number handshake_header piece_fragment piece_header message_sequence].
    rewrite lookup_insert_eq. cbn [default]. rewrite insert_insert_eq. csimpl. by rewrite <- app_assoc.
  - rewrite store_size. cbn [fragment_data piece_fragment]. unfold piece_record in Hs. rewrite !len_app in Hs.
    pose proof (len_nonneg rh_bytes). pose proof (len_nonneg (handshake_header_marshal (piece_header i))). lia.
Qed.

Lemma append_pieces fuel i arrival :
  Forall (λ j, j < length ps)%nat arrival → (i < length ps)%nat → (length (filter (λ j, (i <= j)%nat) arrival) < fuel)%nat →
  ∃ done raw, append_message fuel (off i) (piece_fragment <$> arrival) [] = Ok (done, raw) ∧
    (done = true ↔ ∀ j, (i <= j < length ps)%nat → j ∈ arrival) ∧ (done = true → raw = concat (drop i ps)) ∧ (done = false → raw = []).
Proof.
  intros Ha. revert i. induction fuel as [|fuel IH]; intros i Hi Hf; [lia|]. cbn [append_message].
  destruct (list_find _ (piece_fragment <$> arrival)) as [[k f]|] eqn:El.
  - apply list_find_Some in El as (Hk & Ho & _). apply list_lookup_fmap_Some in Hk as (j & -> & Hj).
    rewrite Forall_lookup in Ha. pose proof (Ha _ _ Hj) as Hjl. cbn in Ho. apply off_inj in Ho as ->; [|done|done].
    assert (i ∈ arrival) as Hin by (by eapply list_elem_of_lookup_2).
    cbn [piece_fragment piece_header handshake_header fragment_offset fragment_length hs_length fragment_data]. rewrite <- off_S by done.
    pose proof (off_bounds (S i)). rewrite wrap_small by (unfold fits; lia).
    destruct (lookup_lt_is_Some_2 ps i Hi) as [p Hp]. assert (concat (drop i ps) = piece i ++ concat (drop (S i) ps)) as Ed.
    { unfold piece. rewrite Hp. cbn [default]. by rewrite (drop_S _ _ _ Hp). }
    destruct (decide (S i = length ps)) as [El|Hne].
    + rewrite El, off_end, Z.eqb_refl. cbn [negb andb rbind]. exists true, (piece i ++ []). split_and!; [done| |intros _|done].
      * split; [|done]. intros _ j Hj'. by replace j with i by lia.
      * rewrite Ed, El. by rewrite (drop_ge ps) by done.
    + destruct (off_lt i ltac:(lia)) as [Hlt Hpi]. rewrite (proj2 (Z.eqb_neq _ _)) by lia.
      rewrite (proj2 (Z.eqb_neq (len (piece i)) 0)) by (destruct (piece i) as [|x l]; [done|]; rewrite len_cons; pose proof (len_nonneg l); lia). cbn [negb andb].
      destruct (IH (S i)) as (dn & raw & -> & Hd & Hr & Hr'); [lia| |].
      { eapply Nat.lt_le_trans; [|apply Nat.lt_succ_r; exact Hf]. apply (filter_shorter _ _ arrival i); [done|lia|lia|]. intros; lia. }
      cbn [rbind]. destruct dn.
      * exists true, (piece i ++ raw). split_and!; [done| |intros _; by rewrite Ed, Hr|done].
        split; [|done]. intros _ j Hj'. destruct (decide (j = i)) as [->|]; [done|]. by apply Hd; [|lia].
      * exists false, raw. split_and!; [done| |done|done]. split; [done|]. intros Hall. apply Hd. intros j Hj'. apply Hall. lia.
  - exists false, []. split_and!; [done| |done|done]. split; [done|]. intros Hall. exfalso.
    apply list_find_None in El. specialize (Hall i ltac:(lia)). rewrite Forall_forall in El.
    apply (El (piece_fragment i)); [|done]. by apply list_elem_of_fmap_2.
Qed.

End Message.

(** * Datagrams *)

(** A record: eleven octets, the length of the content, and the content *)
Definition is_record (r : bytes) : Prop := ∃ h hi lo c, r = h ++ [hi; lo] ++ c ∧ len h = 11 ∧ len c = hi * 256 + lo.

(** The records of a datagram; after the last one, which has a content, nothing is left. *)
Inductive datagram : bytes → list bytes → Prop :=
| datagram_nil : datagram [] []
| datagram_cons r buf rs : is_record r → 13 < len (r ++ buf) → datagram buf rs → datagram (r ++ buf) (r :: rs).

Lemma unpack_spec fuel pre buf :
  Forall byte_ok buf → (length buf <= fuel)%nat →
  match unpack_loop fuel (pre ++ buf) (len pre) with
  | Ok rs => datagram buf rs
  | Err e => e = ErrInvalidPacketLength ∧ ∀ rs, ¬ datagram buf rs
  | Panic => False
  end.
Proof.
  revert pre buf. induction fuel as [|fuel IH]; intros pre buf Hb Hf; cbn [unpack_loop].
  { destruct buf; [|simpl in Hf; lia]. rewrite app_nil_r, Z.eqb_refl. constructor. }
  rewrite len_app. pose proof (len_nonneg buf). destruct (Z.eqb_spec (len pre + len buf) (len pre)) as [E|E].
  { destruct buf; [constructor|rewrite len_cons in E; pose proof (len_nonneg buf); lia]. }
  unfold RECORD_LAYER_HEADER_SIZE. destruct (Z.leb_spec (len pre + len buf - len pre) 13) as [Hs|Hs].
  { split; [done|]. intros rs Hd. inversion Hd; subst; [change (len (@nil Z)) with 0 in E; lia|lia]. }
  set (h := take 11 buf). assert (len h = 11) as Lh by (unfold h; rewrite len_take; lia).
  destruct (drop 11 buf) as [|hi [|lo t]] eqn:Ed;
    [apply (f_equal len) in Ed; rewrite len_drop in Ed; change (len (@nil Z)) with 0 in Ed; lia
    |apply (f_equal len) in Ed; rewrite len_drop, len_cons in Ed; change (len (@nil Z)) with 0 in Ed; lia|].
  assert (buf = h ++ hi :: lo :: t) as Eb by (rewrite <- Ed; unfold h; by rewrite take_drop).
  assert (byte_ok hi ∧ byte_ok lo ∧ Forall byte_ok t) as (Hhi & Hlo & Ht).
  { rewrite Eb in Hb. apply Forall_app in Hb as [_ Hb]. by apply Forall_cons in Hb as [? [? ?]%Forall_cons]. }
  clearbody h.
  rewrite Eb. rewrite (app_assoc pre h). rewrite index_app by (rewrite len_app; lia). cbn [rbind].
  change (hi :: lo :: t) with ([hi] ++ lo :: t). rewrite (app_assoc (pre ++ h)). rewrite index_app by (rewrite !len_app; change (len [hi]) with 1; lia). cbn [rbind].
  rewrite lor_shiftl_add by (done || lia). change (2 ^ 8) with 256. unfold byte_ok, fits in Hhi, Hlo. set (n := hi * 256 + lo).
  assert (len h + 2 + len t = len buf) as Lb by (rewrite Eb, len_app, !len_cons; lia).
  destruct (Z.ltb_spec (len pre + len (h ++ [hi] ++ lo :: t)) (len pre + (13 + n))) as [Hlt|Hge].
  { split; [done|]. intros rs Hd. assert (len (h ++ [hi] ++ lo :: t) = 13 + len t) as L2 by (rewrite !len_app, !len_cons; change (len (@nil Z)) with 0; lia).
    rewrite L2 in Hlt. clear - Hd Hlt Lh. inversion Hd as [E1|r buf' rs' (h' & hi' & lo' & c' & -> & Lh' & Lc') _ _ E1]; subst.
    - by destruct h.
    - rewrite <- !app_assoc in E1. cbn [app] in E1. apply app_inj_1 in E1 as [<- E1]; [|unfold len in *; lia]. simplify_eq. subst n. rewrite len_app in Hlt. pose proof (len_nonneg buf'). lia. }
  assert (n <= len t) as Hnt by (revert Hge; rewrite !len_app, !len_cons; change (len (@nil Z)) with 0; lia).
  set (c := take (Z.to_nat n) t). assert (len c = n) as Lc by (unfold c; rewrite len_take; lia).
  set (r := h ++ [hi; lo] ++ c). set (rest := drop (Z.to_nat n) t).
  assert (((pre ++ h) ++ [hi]) ++ lo :: t = pre ++ r ++ rest) as ->.
  { unfold r, rest, c. rewrite <- !app_assoc. cbn [app]. by rewrite take_drop. }
  assert (len r = 13 + n) as Lr by (unfold r; rewrite !len_app; change (len [hi; lo]) with 2; lia).
  rewrite (slice_mid pre r rest) by lia. cbn [rbind]. rewrite (app_assoc pre r rest). rewrite <- Lr, <- len_app.
  assert (h ++ [hi] ++ lo :: t = r ++ rest) as -> by (unfold r, rest, c; rewrite <- !app_assoc; cbn [app]; by rewrite take_drop).
  assert (length rest <= fuel)%nat as Hfr by (unfold rest; rewrite length_drop; unfold len in *; lia).
  specialize (IH (pre ++ r) rest (Forall_drop _ _ _ Ht) Hfr).
  assert (is_record r) as Hrec by (exists h, hi, lo, c; done).
  destruct (unpack_loop fuel ((pre ++ r) ++ rest) (len (pre ++ r))) as [rs|e|]; [|destruct IH as [-> IH]; split; [done|]|done]; cbn [rbind].
  - apply datagram_cons; [done| |done]. rewrite len_app. assert (len rest = len t - n) as -> by (unfold rest; rewrite len_drop; lia). lia.
  - intros rs Hd. inversion Hd as [E1|r' buf' rs' (h' & hi' & lo' & c' & -> & Lh' & Lc') _ Hd' E1]; subst.
    + by destruct h.
    + unfold r in E1. rewrite <- !app_assoc in E1. cbn [app] in E1. apply app_inj_1 in E1 as [<- E1]; [|unfold len in *; lia]. simplify_eq.
      assert (c' = c ∧ buf' = rest) as [-> ->] by (apply app_inj_1; [unfold len in *; lia|congruence]). by apply (IH rs').
Qed.

End Wire.

(** What can become of a fragment buffer *)
Inductive fb_reachable `{BytesCrate} : FragmentBuffer → Prop :=
| fb_start : fb_reachable fragment_buffer_new
| fb_pushed b buf : fb_reachable b → Forall byte_ok buf → fb_reachable (fb_push buf b).2
| fb_popped b : fb_reachable b → fb_reachable (fb_pop b).2.

(** C26: a handshake message is put together from its fragments.  Let a message, cut into pieces in any
    way without an empty piece (but for the empty message), be sent with a fragment per record, and the records arrive in any order and any number of
    times, at a buffer that waits for this message, holds nothing of it and has room.  The buffer
    gives the message out exactly when every piece has arrived: its header as that of a message in
    one piece, the body as it was, and the epoch of the records; then it waits for the next message
    and keeps nothing of this one.  Before that it says that there is none, and is unchanged. *)
Theorem message_reassembled `{BytesCrate} rh rh_bytes typ seq ps arrival b :
  pieces_ok ps → len (body ps) < 2 ^ 24 → fits 16 seq → record_ok rh → record_header_marshal rh = Ok rh_bytes →
  content_type rh = Handshake → Forall (λ i, i < length ps)%nat arrival →
  cache b !! seq = None → current_message_sequence_number b = seq →
  fb_size b + octets rh_bytes typ seq ps arrival < FRAGMENT_BUFFER_MAX_SIZE →
  let b' := push_pieces rh_bytes typ seq ps arrival b in
  (fb_pop b' =
     (Ok (handshake_header_marshal (mkHandshakeHeader typ (len (body ps)) seq 0 (len (body ps))) ++ body ps, epoch rh),
      mkFragmentBuffer (cache b) (u16 (seq + 1)))
   ∧ ∀ i, (i < length ps)%nat → i ∈ arrival) ∨
  (fb_pop b' = (Err ErrEmptyFragment, b') ∧ ∃ i, (i < length ps)%nat ∧ i ∉ arrival).
Proof.
  intros Hps Hl Hq Hrh Hb Hhs Ha Hc Hcur Hs b'. assert (0 < length ps)%nat as Hn by (destruct Hps as [->|[Hne _]]; [simpl; lia|destruct ps; simpl; done || lia]).
  destruct (decide (arrival = [])) as [->|Hne].
  { right. unfold b'. cbn [push_pieces foldl]. split; [|exists 0%nat; split; [lia|set_solver]]. unfold fb_pop. by rewrite Hcur, Hc. }
  pose proof (push_pieces_spec rh rh_bytes typ seq ps Hl Hq Hrh Hb Hhs arrival b Hs Hne) as E. fold b' in E. rewrite Hc in E.
  change (default [] None ++ ?l) with l in E.
  destruct (append_pieces rh typ seq ps Hps Hl (S (length arrival)) 0 arrival Ha Hn) as (dn & raw & Ea & Hd & Hr & _); [apply Nat.lt_succ_r, length_filter|].
  unfold fb_pop. rewrite E. cbn [current_message_sequence_number cache]. rewrite Hcur, lookup_insert_eq, length_fmap.
  change (off ps 0) with 0 in Ea. rewrite Ea. destruct dn.
  - left. split; [|intros i Hi; by apply Hd; [|lia]]. destruct arrival as [|i l]; [done|].
    change (index (piece_fragment rh typ seq ps <$> i :: l) 0) with (Ok (piece_fragment rh typ seq ps i) : res Fragment).
    cbn [handshake_header piece_fragment piece_header handshake_type hs_length message_sequence record_layer_header].
    rewrite (Hr eq_refl), drop_0. rewrite delete_insert_id by done. done.
  - right. split; [done|]. destruct (decide (Forall (λ i, i ∈ arrival) (List.seq 0 (length ps)))) as [Hall|Hnot].
    + exfalso. assert (false = true) as [=]. apply Hd. intros j Hj. rewrite Forall_forall in Hall. apply Hall, elem_of_seq. lia.
    + apply not_Forall_Exists in Hnot; [|intros; apply _]. apply Exists_exists in Hnot as (i & Hi & Hni). apply elem_of_seq in Hi. exists i. split; [lia|done].
Qed.

(** C35: the fragment buffer is safe against whatever arrives.  After any sequence of pushed octets and
    pops it holds fewer than two million octets of data, and neither a push nor a pop panics, the
    recursion over the fragments of a message ends. *)
Theorem fragment_buffer_safe `{BytesCrate} b :
  fb_reachable b →
  0 <= fb_size b < FRAGMENT_BUFFER_MAX_SIZE ∧ (∀ buf, Forall byte_ok buf → (fb_push buf b).1 ≠ Panic) ∧ (fb_pop b).1 ≠ Panic.
Proof.
  intros Hr. assert (buffer_ok b) as Hb.
  { induction Hr as [|b buf _ IH Hbuf|b _ IH]; [by split|by apply fb_push_safe|by apply fb_pop_safe]. }
  split_and!; [apply (cache_size_nonneg (cache b))|apply Hb|intros buf Hbuf; by apply fb_push_safe|by apply fb_pop_safe].
Qed.

(** A datagram is cut into its records, and only into them.  [unpack_datagram] ends without a panic
    on any octets; it gives the records when the octets are records one after the other, each with the
    length its header announces and the last one with a content, and an error otherwise. *)
Theorem datagram_unpacked `{BytesCrate} buf :
  Forall byte_ok buf →
  match unpack_datagram buf with
  | Ok rs => datagram buf rs
  | Err e => e = ErrInvalidPacketLength ∧ ∀ rs, ¬ datagram buf rs
  | Panic => False
  end.
Proof. intros Hb. apply (unpack_spec (length buf) [] buf Hb (Nat.le_refl _)). Qed.

Section DtlsExamples.
#[local] Existing Instance BigEndian.big_endian.

Definition hs_record : RecordLayerHeader := mkRecordHeader Handshake PROTOCOL_VERSION1_2 0 7 30.
Definition hs_record_bytes : bytes := [22; 254; 253; 0; 0; 0; 0; 0; 0; 0; 7; 0; 30].

Lemma message_reassembled_witness :
  (fb_pop (push_pieces hs_record_bytes ClientHello 0 [[1; 2]; [3; 4; 5]] [1; 1; 0]%nat fragment_buffer_new)).1 =
  Ok ([1; 0; 0; 5; 0; 0; 0; 0; 0; 0; 0; 5; 1; 2; 3; 4; 5], 0).
Proof.
  destruct (message_reassembled hs_record hs_record_bytes ClientHello 0 [[1; 2]; [3; 4; 5]] [1; 1; 0]%nat fragment_buffer_new) as [[E _]|[_ (i & Hi & Hni)]].
  - right. split; [done|]. by repeat constructor.
  - reflexivity.
  - done.
  - split_and!; [by right|vm_compute; intuition congruence..].
  - reflexivity.
  - reflexivity.
  - repeat constructor; simpl; lia.
  - reflexivity.
  - reflexivity.
  - vm_compute; reflexivity.
  - rewrite E. reflexivity.
  - exfalso. apply Hni. destruct i as [|[|i]]; [set_solver..|simpl in Hi; lia].
Defined.

Lemma fragment_buffer_safe_witness : (fb_pop (fb_push [22; 254; 253] fragment_buffer_new).2).1 ≠ Panic.
Proof.
  apply (fragment_buffer_safe (fb_push [22; 254; 253] fragment_buffer_new).2).
  apply fb_pushed; [apply fb_start|]. repeat constructor; vm_compute; intuition congruence.
Defined.

Lemma datagram_unpacked_witness :
  match unpack_datagram (hs_record_bytes ++ replicate 30 0) with
  | Ok rs => datagram (hs_record_bytes ++ replicate 30 0) rs
  | Err e => e = ErrInvalidPacketLength ∧ ∀ rs, ¬ datagram (hs_record_bytes ++ replicate 30 0) rs
  | Panic => False
  end.
Proof. apply (datagram_unpacked (hs_record_bytes ++ replicate 30 0)). repeat constructor; vm_compute; intuition congruence. Defined.

Definition header_bytes (len_ seq_ off_ flen : Z) : bytes := handshake_header_marshal (mkHandshakeHeader Certificate len_ seq_ off_ flen).

(** The data of a fragment is taken up to the length of the whole message, not of the fragment: what
    follows it in the record, here the whole message 1, is taken for its data. *)
Lemma following_message_swallowed :
  let b := (fb_push (hs_record_bytes ++ header_bytes 100 0 0 2 ++ [1; 2] ++ header_bytes 1 1 0 1 ++ [9]) fragment_buffer_new).2 in
  cache b !! 1 = None ∧ (len ∘ fragment_data <$> (cache b !! 0 ≫= head)) = Some 15.
Proof. by vm_compute. Qed.

(** A message that arrives again after it was given out stays in the buffer. *)
Lemma repeated_message_stays :
  let r := hs_record_bytes ++ header_bytes 2 0 0 2 ++ [1; 2] in
  let b := (fb_push r (fb_pop (fb_push r fragment_buffer_new).2).2).2 in
  fb_size b = 2 ∧ current_message_sequence_number b = 1.
Proof. by vm_compute. Qed.

(** A fragment without data does not count: the limit does not bound the number of fragments. *)
Lemma empty_fragment_uncounted :
  let b := (fb_push (hs_record_bytes ++ header_bytes 9 5 0 3) fragment_buffer_new).2 in
  fb_size b = 0 ∧ (length <$> cache b !! 5) = Some 1%nat.
Proof. by vm_compute. Qed.

(** An empty fragment at the start passes for the whole message. *)
Lemma empty_fragment_completes :
  (fb_pop (fb_push (hs_record_bytes ++ header_bytes 9 0 0 0) fragment_buffer_new).2).1 = Ok (header_bytes 9 0 0 9, 0).
Proof. by vm_compute. Qed.

End DtlsExamples.
